(* ===== verification/_CoqProject ===== *)
-Q . S2P
Prelude.v
SortedVec.v
Money.v
Domain.v
Mutation.v
RiskModel.v
RiskEngine.v
RiskPlan.v
RiskAudit.v
RiskStore.v
RiskReconcile.v
RuntimeModel.v
RuntimePolicy.v
RuntimePorts.v
RuntimeJournal.v
RuntimeReconcile.v
RuntimeCoordinator.v
RuntimeMetrics.v
TInvestWire.v
TInvestCanonical.v
ConnectionModel.v
ApiMoney.v
ApiContract.v
ApiReads.v
SecretStore.v
ConnectionRepository.v
ConnectionService.v
ConnectionSafety.v
ConnectionRecovery.v
OperatorAuth.v
RuntimeCredentials.v
ProductionRisk.v
TInvestExecution.v
TInvestGrpc.v
Nautilus.v
TInvestSupervisor.v
TInvestWebSocket.v
TInvestMarketWire.v
TInvestMarketData.v
TInvestMarketStream.v
TInvestAccount.v
TInvestOperations.v
TInvestQualification.v
TInvestReports.v
TInvestReference.v
TInvestDispatch.v
TInvestFactory.v
TInvestRead.v
TInvestStreams.v
TInvestOperationsStream.v
TInvestProvider.v
ProductionRuntime.v
MarketProjection.v
StreamGateway.v
ConnectionAdmin.v
HttpApi.v
Core.v
Composition.v
