(* ===== verification/Prelude.v ===== *)
(** * Vox Trader: the capital-critical Rust core, modelled and verified

    Vox Trader is a trading system for one broker, T-Invest.  Its Rust workspace
    ([crates/]) is layered: [vox-domain] holds money, instruments, readiness and the
    evidence that guards a capital mutation; [vox-risk] decides whether an order may
    be sent and keeps the capacity it reserves; [vox-runtime] journals every mutation
    before it leaves the process, fences stale owners and reconciles the journal with
    the broker after any doubt; [vox-connections] keeps broker connections, their
    encrypted credentials and who may trade on them; [vox-tinvest] talks to the broker;
    [vox-api] is the HTTP and WebSocket interface of the operator; [vox-core] joins them
    to one server; [vox-nautilus] converts values for a trading engine.  This library
    models the way of a command from its HTTP request through authentication, risk and
    the journal to the message that leaves for the broker, and the way back from the
    broker's answers and streams to what the operator is shown, and proves what the parts
    promise to each other.

    ** Files, in dependency order

    - [Prelude]: results and the [?] operator, a state-and-error monad with
      transactions, machine integers at their width, Rust's text predicates, tables
      as lists of rows with unique keys, queries, serialisers, the effect calculus,
      tactics and hint databases.
    - [SortedVec]: sorting and removing repetitions, the canonical form of a list.
    - [Money] ([vox-domain/src/money.rs]): [UnitsNano], [FixedPoint], futures values.
    - [Domain] ([identity.rs], [instrument.rs], [environment.rs], [readiness.rs],
      [execution.rs]): guarded constructors, the readiness machine (Module
      [Readiness]), commands, protection plans and the trailing stop.
    - [Mutation] ([mutation.rs]): the evidence store as a class with laws, the guard
      that decides whether a mutation may be sent, and an in-memory store that obeys
      the laws.
    - [RiskModel], [RiskEngine], [RiskPlan], [RiskAudit] ([vox-risk/src/model.rs],
      [engine.rs], [plan.rs], [audit.rs]): the data of the risk boundary, the pure
      evaluation as the chain of checks the code makes, the approved plan that alone
      can be dispatched, and the classification of policy changes.
    - [RiskStore] ([store.rs]): the SQLite tables and every operation on them, the
      trait as class [RiskStore], its laws, and their proof for the SQLite store.
    - [RiskReconcile] ([reconcile.rs]): every operation of the reservation reconciler,
      written and verified against the class.
    - [RuntimeModel], [RuntimePolicy] ([vox-runtime/src/model.rs], [policy.rs]):
      scopes, journal records, broker facts; the readiness policy and state machine.
    - [RuntimePorts] ([ports.rs]): the broker port and the journal trait as classes,
      and the laws of the journal.
    - [RuntimeJournal] ([store.rs]): the journal's tables, constraints and triggers,
      every operation of [SqliteRuntimeStore], and the proof of the laws.
    - [RuntimeReconcile] ([reconcile.rs]): retried reads, paging, settling of unknown
      mutations, comparison of both sides and the commit, over any broker and any
      store that obeys the laws.
    - [RuntimeCoordinator] ([coordinator.rs]): start, reconciliation, streams and the
      dispatch of a command through every gate, over classes for the journal, the
      broker, the risk port and the credentials.
    - [RuntimeMetrics] ([metrics.rs], the metrics port of [ports.rs]): the registry of
      metric series.
    - [TInvestWire], [TInvestCanonical] ([vox-tinvest/proto], [execution.rs],
      [canonical.rs]): the provider's messages and enumerations; the read models and
      their decoders, with a calculus of decoders that are exact or refuse.
    - [ConnectionModel] ([vox-connections/src/model.rs]): connections, accounts,
      bindings, authorisations, identities and the filter of texts.
    - [SecretStore] ([secret.rs]): the key ring, envelope encryption and the table of
      credentials, refining an abstract vault.
    - [ConnectionRepository], [ConnectionService] ([repository.rs], [service.rs]): the
      SQLite tables with their constraints and every operation on them; every method of
      the service over its traits as classes.
    - [ConnectionSafety], [ConnectionRecovery]: what the service guarantees on the
      SQLite repository and any store that is a vault; the recovery at start-up.
    - [RuntimeCredentials] ([vox-runtime/src/connection_credentials.rs]): the
      coordinator's credential port over the connection service.
    - [ProductionRisk] ([vox-core/src/production_risk.rs]): the production adapter, an
      instance of the coordinator's risk port over the risk engine and store.
    - [TInvestExecution] ([vox-tinvest/src/execution.rs]): the messages of every
      command, the legs of a protection plan and the audit of stop orders.
    - [TInvestGrpc] ([grpc.rs], [retry.rs], [secret.rs]): credentials, configuration,
      statuses, retried reads and single mutations over a network as a class.
    - [Nautilus] ([vox-nautilus/src/]): the projections into the types of the trading
      engine, which are classes with laws.
    - [TInvestSupervisor] ([execution_stream.rs]): the supervision loop of a stream as
      a state machine over its suspension points.
    - [TInvestAccount], [TInvestOperations] ([account.rs], [operations.rs]): account,
      portfolio and position reads; the operation history and its paginator.
    - [TInvestQualification] ([account_qualification.rs], [execution_qualification.rs]):
      the rules and ledgers of a qualification.
    - [TInvestReports], [TInvestReference] ([reports.rs], [reference.rs]): the two reports
      and the traversal of their pages; capabilities, requests and forecast candidates of
      the instruments service.
    - [TInvestDispatch] ([execution_dispatch.rs], [runtime_execution.rs]): the
      dispatchers, with evidence and without.
    - [TInvestFactory] ([connection_factory.rs]): clients and sessions from stored
      connections; the coordinator's execution port.
    - [TInvestRead] ([runtime_read.rs], [risk_read.rs]): the reconciler's broker port
      and the reads of the risk engine.
    - [TInvestStreams] ([runtime_stream.rs], [grpc.rs]): the server streams, the waits
      for their subscriptions, the forwarding tasks; the coordinator's stream port.
    - [TInvestOperationsStream] ([operations_stream.rs]): the supervisor of the operations
      stream, which numbers the revisions of an operation.
    - [TInvestWebSocket] ([websocket.rs]): the supervised WebSocket stream, its registry of
      subscriptions and the check of acknowledgements, a state machine like the above.
    - [TInvestMarketWire], [TInvestMarketData] ([market_data.rs], [marketdata.proto]): the
      market-data messages, the facts decoded from them, candle histories and the registry
      of stream subscriptions.
    - [TInvestMarketStream] ([market_stream.rs]): the market-data supervisor with its
      sequence gate.
    - [TInvestProvider] ([connection_provider.rs]): account discovery; the connection
      service's provider port.
    - [ApiMoney], [ApiContract] ([vox-api/src/contract/], [error.rs], [binding.rs]): the
      exact decimals, errors, scopes, bindings, commands and views of the public interface
      and their conversions to and from the domain.
    - [ApiReads] ([runtime_attach.rs], [contract/account.rs]): the account reads, bound to
      the broker account of their binding.
    - [OperatorAuth] ([vox-core/src/auth.rs]): sessions and the middleware every request
      passes.
    - [ProductionRuntime] ([vox-core/src/production_runtime.rs]): the registry of
      coordinators that serves the commands, receipts, health and risk controls.
    - [MarketProjection] ([market_project.rs], [contract/market.rs]): the market snapshot
      behind the public reads, with the life cycle of candles.
    - [StreamGateway] ([transport/ws.rs], [events.rs]): the live stream of one socket, its
      two tasks a step relation.
    - [ConnectionAdmin] ([connection_attach.rs]): the administration of connections over
      the connection service, with the registry as its observer.
    - [HttpApi] ([transport/http.rs], [application.rs]): routes, handlers and replies
      behind the middleware, over the class [Ports] of what they call.
    - [Core] ([vox-core/src/lib.rs]): the process configuration and the core runtime.
    - [Composition] ([vox-core/src/composition.rs]): the server's configuration and
      start-up, the instance of [Ports] that wires all of the above over one repository,
      and the states a started process can reach.

    ** How code is rendered

    A [struct] is a [Record] whose fields carry a short prefix, an [enum] an
    [Inductive] with the source's constructors (in a small module where names would
    clash), a function a [Definition] of the same name, [Result] is [result] and
    [Option] is [option].  A method with effects is a function of type [st S E A]: it
    returns the state also when it fails, and [transaction] rolls back what a failing
    body wrote.  [i64], [i128] and [u64] are integers whose operations check, wrap or
    saturate exactly where the source's do.  A table is the list of its rows.  JSON
    goes through the class [Serde] with the one law that what was written is read
    back; clocks, uuids and the broker are arguments.  Strings are byte strings.

    ** What is proved

    - Risk engine: a decision that permits dispatch meets every guard; approved lots
      are bounded by the request, the policy and the broker; exposure, position, loss,
      margin and protection limits hold for whatever part of the order fills; in
      restricted states exposure only shrinks; cleaning up is always possible; the
      engine always answers; only what was approved can be dispatched.
    - Risk store and reconciler: approvals are atomic and idempotent and never exceed
      capacity; policy revisions are compare-and-set and form a chain; reservations
      are monotone under any interleaving, stale updates included; ambiguity frees no
      capacity; fills are conserved and legitimate ones recorded.
    - Mutations and journal: dispatch is claimed at most once, for the guard and for
      the journal, in every state any processes can reach; a stale owner is fenced
      out; entries only move forward and authoritative outcomes are final.
    - Reconciliation: READY is reported exactly when nothing stays in doubt and what the
      broker answered agrees with what the store holds; only authoritative evidence settles
      a mutation, named as its kind requires; a reconciliation, failed or not, disturbs
      nothing else; the operations history is read in full or refused.
    - Coordinator: a command is sent at most once and only through the open gate, a
      complete approval, a journalled intent and a claim; an answer in doubt halts; a
      start earns READY; a shutdown closes the gate and gives the ownership back.
    - Production admission: every call is a step of a ledger of reservations; an
      admission meets the contract the coordinator relies on; what is sent is the
      stored decision, still current.
    - Connections: the encrypted store is a vault; whatever is called, the tables stay
      consistent and revisions of authorisations only advance; execution access is
      granted exactly when it is earned; permissions guard every call; a rotation
      happens or is undone; a revalidation follows the provider; a recovery that
      returns leaves nothing half-done.
    - Credentials: the runtime is granted what the service grants for exactly its
      scope.  Discovery claims no more than the provider's answer proves.
    - Broker adapter: order and stop messages are built exactly from acceptable
      commands and read back as them; evidence is durable before the one attempt; the
      execution port sends only under an authorisation checked right before; reads end
      within the retry policy; facts and histories are those of the broker's answers,
      for the account, exact and complete.
    - Streams: in every interleaving a supervised stream reports only evidence of its
      own accounts and never ends in silence; every loss reaches the runtime; streaming
      starts only when all four streams are confirmed for the account.  The WebSocket
      supervisor refines a protocol of its events: every wanted subscription is replayed on a
      new connection, READY follows their confirmation, and losses are counted against the
      limit.  The market-data supervisor swallows no message, passes facts on in order and none twice, only of what is subscribed to,
      and is active only when the provider lists every subscription it acknowledged; the
      windows of a planned candle history tile it within the documented limits and lose no
      candle.  The operations supervisor
      numbers the revisions of an operation without a gap, across reconnections.
    - Around the adapter: a page of a report is decoded exactly or refused and a generation
      is attempted once; a finished ledger accounts for every row; forecast candidates are
      bounded, ordered and exact; the registry of metrics stays within its limits; what is
      handed to the trading engine keeps prices, quantities and tick values exactly, and a
      book snapshot ends exactly once.
    - Public interface: nothing is done or disclosed without the session and the
      permission it takes, whatever path it is reached by; sessions last until their
      expiry; account reads are of the bound account only and exact; a command is carried
      out by the runtime of the account its stored binding gives and by no other, in every
      state the composed server can reach; the runtimes of a connection that is rotated,
      disabled or deleted are shut down; a browser that is served gets every event that
      concerns it, and what it receives has no gap it cannot see; candles
      only move forward; decimals round trip.
    - Domain: exact money, futures values without rounding, ratcheting stops, complete
      protection checks, readiness earned by reconciliation only.

    Reachability statements quantify over sequences of steps (reflexive transitive
    closures of step relations) with failing steps included, so they speak of every
    interleaving of the atomic operations.

    ** Bounds and fuel

    Two definitions have fuel: the windows of a candle history, with the number of spans
    in the range and one more, which is proved to be enough, and the chunks of a list,
    with its length.  The other loops with a bound are those the source bounds, the retries of a read (at most [max_safe_read_attempts], at least one) and
    the pages of the operations history (100), and the counters are the source's.
    Other recursion is structural; the paginator of the provider's history walks at
    most the pages its configuration allows.  A run of a stream is the list of what
    happens to it, and what a stream yields before a deadline is a finite list.

    ** What is not modelled

    The REST transport ([rest.rs]) and the live qualification runs ([qualification.rs]) are
    not on the way of a command, and the production server uses neither.  The encoding of messages on the wire, JSON,
    the HTTP server and its extractors, ciphers and digests are third-party code behind
    classes.  Also left out: the generated API schema ([schema.rs]), logging, the
    listening socket and static files, and the pauses between retries; opening and locking
    database files and migrating older schemas; faults
    of the medium, except that the interface laws let any call fail without effect. *)
From stdpp Require Export base tactics option list strings numbers relations.
From Stdlib Require Import DecimalString DecimalPos DecimalZ Ascii.
From Stdlib Require Export ZArith Lia.

Open Scope Z_scope.

(** ** Results: Rust's [Result<A, E>] *)

Inductive result (E A : Type) : Type :=
| Ok (a : A)
| Err (e : E).
Arguments Ok {E A} a.
Arguments Err {E A} e.

Declare Scope rust_scope.
Delimit Scope rust_scope with rust.

(** The [?] operator: bind a successful value, propagate the error. *)
Notation "'let?' x ':=' c 'in' k" :=
  (match c with Ok x => k | Err e => Err e end)
  (at level 10, x pattern, c at level 100, k at level 200,
   format "'[v' 'let?'  x  ':='  c  'in' '//' k ']'") : rust_scope.

Open Scope rust_scope.

(** [Option::ok_or]. *)
Definition ok_or {E A} (o : option A) (e : E) : result E A :=
  match o with Some a => Ok a | None => Err e end.

(** [Result::map_err]. *)
Definition map_err {E F A} (f : E → F) (r : result E A) : result F A :=
  match r with Ok a => Ok a | Err e => Err (f e) end.

(** [Option<Result<A,E>>::transpose]. *)
Definition transpose {E A} (o : option (result E A)) : result E (option A) :=
  match o with
  | None => Ok None
  | Some (Ok a) => Ok (Some a)
  | Some (Err e) => Err e
  end.

(** [Result::is_ok]. *)
Definition is_ok {E A} (r : result E A) : bool :=
  match r with Ok _ => true | Err _ => false end.

(** [Iterator::try_fold]: left to right, stopping at the first error. *)
Fixpoint try_fold {E A B} (f : B → A → result E B) (acc : B) (l : list A) : result E B :=
  match l with
  | [] => Ok acc
  | x :: l' => let? acc' := f acc x in try_fold f acc' l'
  end.

(** ** State and errors

    A fallible operation over a mutable store: it returns the new state even
    when it fails, so that a write that precedes an error is visible unless a
    transaction rolls it back. *)

Definition st (S E A : Type) : Type := S → S * result E A.

Definition st_ret {S E A} (a : A) : st S E A := λ s, (s, Ok a).
Definition st_fail {S E A} (e : E) : st S E A := λ s, (s, Err e).
Definition st_get {S E} : st S E S := λ s, (s, Ok s).
Definition st_put {S E} (s' : S) : st S E () := λ _, (s', Ok tt).
Definition st_lift {S E A} (r : result E A) : st S E A := λ s, (s, r).
Definition st_bind {S E A B} (m : st S E A) (k : A → st S E B) : st S E B := λ s,
  match m s with
  | (s', Ok a) => k a s'
  | (s', Err e) => (s', Err e)
  end.

Notation "'let!' x ':=' c 'in' k" := (st_bind c (λ x, k))
  (at level 10, x pattern, c at level 100, k at level 200,
   format "'[v' 'let!'  x  ':='  c  'in' '//' k ']'") : rust_scope.
Notation "c ;;; k" := (st_bind c (λ _, k))
  (at level 100, k at level 200, right associativity,
   format "'[v' c ;;; '//' k ']'") : rust_scope.

(** A database transaction: the body's writes are kept when it commits and
    discarded when it returns an error before the commit. *)
Definition transaction {S E A} (body : st S E A) : st S E A := λ s,
  match body s with
  | (s', Ok a) => (s', Ok a)
  | (_, Err e) => (s, Err e)
  end.

(** [map_err] on the outcome of a stateful call. *)
Definition st_map_err {S E F A} (f : E → F) (m : st S E A) : st S F A := λ s,
  let '(s', r) := m s in (s', map_err f r).

Lemma st_bind_Ok {S E A B} (m : st S E A) (k : A → st S E B) s s' b :
  st_bind m k s = (s', Ok b) → ∃ s1 a, m s = (s1, Ok a) ∧ k a s1 = (s', Ok b).
Proof. unfold st_bind. destruct (m s) as [s1 [a|e]]; [eauto|done]. Qed.

Lemma st_map_err_Ok {S E F A} (f : E → F) (m : st S E A) s s' a :
  st_map_err f m s = (s', Ok a) → m s = (s', Ok a).
Proof. unfold st_map_err. destruct (m s) as [s1 [x|]]; simpl; [|done]. by intros [= <- <-]. Qed.

Lemma st_lift_Ok {S E A} (r : result E A) (s s' : S) a :
  st_lift r s = (s', Ok a) → s' = s ∧ r = Ok a.
Proof. by intros [= <- ->]. Qed.

Lemma map_err_Ok {E F A} (f : E → F) (r : result E A) a : map_err f r = Ok a → r = Ok a.
Proof. destruct r; [by intros [= ->]|done]. Qed.

Lemma st_bind_cases {S E A B} (m : st S E A) (k : A → st S E B) s s' r :
  st_bind m k s = (s', r) →
  (∃ e, m s = (s', Err e) ∧ r = Err e) ∨ ∃ s1 a, m s = (s1, Ok a) ∧ k a s1 = (s', r).
Proof. unfold st_bind. destruct (m s) as [s1 [a|e]]; intros; simplify_eq; eauto. Qed.

Lemma st_bind_inv {S E A B} (m : st S E A) (k : A → st S E B) s s' r :
  st_bind m k s = (s', r) →
  (∃ e, m s = (s', Err e)) ∨ ∃ s1 a, m s = (s1, Ok a) ∧ k a s1 = (s', r).
Proof. intros [(e & ? & _)|?]%st_bind_cases; eauto. Qed.

(** The effect of a computation on its state, whether it succeeds or fails: a
    reflexive and transitive relation goes through every combinator. *)
Definition st_effect {S E A} (R : S → S → Prop) (m : st S E A) : Prop :=
  ∀ s s' r, m s = (s', r) → R s s'.

Section effects.
Context {S E : Type} (R : S → S → Prop) `{!Reflexive R} `{!Transitive R}.

Lemma effect_ret {A} (a : A) : st_effect (E:=E) R (st_ret a).
Proof. intros s s' r H. unfold st_ret in H. by simplify_eq. Qed.

Lemma effect_fail {A} (e : E) : st_effect (A:=A) R (st_fail e).
Proof. intros s s' r H. unfold st_fail in H. by simplify_eq. Qed.

Lemma effect_lift {A} (x : result E A) : st_effect R (st_lift x).
Proof. intros s s' r H. unfold st_lift in H. by simplify_eq. Qed.

Lemma effect_get : st_effect (E:=E) R st_get.
Proof. intros s s' r H. unfold st_get in H. by simplify_eq. Qed.

Lemma effect_bind {A B} (m : st S E A) (k : A → st S E B) :
  st_effect R m → (∀ a, st_effect R (k a)) → st_effect R (st_bind m k).
Proof.
  intros Hm Hk s s' r [[e H]|(s1 & a & H1 & H2)]%st_bind_inv; [by eapply Hm|].
  transitivity s1; [by eapply Hm|by eapply Hk].
Qed.

Lemma effect_transaction {A} (m : st S E A) : st_effect R m → st_effect R (transaction m).
Proof.
  intros Hm s s' r H. unfold transaction in H. destruct (m s) as [s1 [a|e]] eqn:H1; simplify_eq; [|done].
  by eapply Hm.
Qed.

(** A read, a chain of checks and a write, as one step. *)
Lemma effect_update {A} (k : S → st S E A) :
  (∀ s s' r, k s s = (s', r) → R s s') → st_effect R (st_bind st_get k).
Proof. intros Hk s s' r H. by eapply Hk. Qed.

(** A check that does not touch the state can be passed by. *)
Lemma effect_check {A B} (x : result E A) (k : A → st S E B) s s' r :
  st_bind (st_lift x) k s = (s', r) → (∀ a, x = Ok a → k a s = (s', r) → R s s') → R s s'.
Proof.
  unfold st_bind, st_lift. destruct x as [a|e]; intros H Hk; [by apply (Hk a)|by simplify_eq].
Qed.
End effects.

(** A computation on one half of a pair of states. *)
Definition st_fst {S T E A} (m : st S E A) : st (S * T) E A := λ s,
  let '(s1, r) := m (s.1) in ((s1, s.2), r).
Definition st_snd {S T E A} (m : st T E A) : st (S * T) E A := λ s,
  let '(s2, r) := m (s.2) in ((s.1, s2), r).

Lemma transaction_atomic {S E A} (body : st S E A) s s' e :
  transaction body s = (s', Err e) → s' = s.
Proof. unfold transaction. by destruct (body s) as [? []]; intros [= -> ->]. Qed.

Lemma transaction_ok {S E A} (body : st S E A) s s' a :
  transaction body s = (s', Ok a) ↔ body s = (s', Ok a).
Proof. unfold transaction. split; by destruct (body s) as [? []]; intros [= -> ->]. Qed.

(** ** Fixed-width integers *)

Inductive int_ty := I32 | I64 | I128 | U64.

Definition int_min (t : int_ty) : Z :=
  match t with
  | I32 => -2147483648
  | I64 => -9223372036854775808
  | I128 => -170141183460469231731687303715884105728
  | U64 => 0
  end.

Definition int_max (t : int_ty) : Z :=
  match t with
  | I32 => 2147483647
  | I64 => 9223372036854775807
  | I128 => 170141183460469231731687303715884105727
  | U64 => 18446744073709551615
  end.

Definition fits (t : int_ty) (z : Z) : bool := (int_min t <=? z) && (z <=? int_max t).

(** Values of the type: what the Rust type system guarantees of a field. *)
Definition has_ty (t : int_ty) (z : Z) : Prop := int_min t ≤ z ≤ int_max t.

(** The outcome of an exact computation in a checked operation, and of [try_from]. *)
Definition checked (t : int_ty) (z : Z) : option Z := if fits t z then Some z else None.

Definition checked_add (t : int_ty) (a b : Z) : option Z := checked t (a + b).
Definition checked_sub (t : int_ty) (a b : Z) : option Z := checked t (a - b).
Definition checked_mul (t : int_ty) (a b : Z) : option Z := checked t (a * b).
Definition checked_neg (t : int_ty) (a : Z) : option Z := checked t (- a).
Definition checked_abs (t : int_ty) (a : Z) : option Z := checked t (Z.abs a).
(** Integer division truncates toward zero; division by zero is [None]. *)
Definition checked_div (t : int_ty) (a b : Z) : option Z :=
  if b =? 0 then None else checked t (Z.quot a b).
Definition saturate (t : int_ty) (z : Z) : Z := Z.max (int_min t) (Z.min (int_max t) z).
Definition saturating_sub (t : int_ty) (a b : Z) : Z := saturate t (a - b).
Definition saturating_add (t : int_ty) (a b : Z) : Z := saturate t (a + b).
(** An [as] cast: two's complement truncation to the width of [t]. *)
Definition int_bits (t : int_ty) : Z := int_max t - int_min t + 1.
Definition wrap (t : int_ty) (z : Z) : Z := (z - int_min t) mod int_bits t + int_min t.
(** [unsigned_abs] of an [i64] is a [u64] and never overflows. *)
Definition unsigned_abs (z : Z) : Z := Z.abs z.
Definition signum (z : Z) : Z := Z.sgn z.

Lemma fits_spec t z : fits t z = true ↔ has_ty t z.
Proof. unfold fits, has_ty. lia. Qed.

Lemma checked_Some t z r : checked t z = Some r ↔ r = z ∧ has_ty t z.
Proof.
  unfold checked. destruct (fits t z) eqn:H.
  - apply fits_spec in H. naive_solver.
  - split; [done|]. intros [_ H']. apply fits_spec in H'. congruence.
Qed.

Lemma checked_None t z : checked t z = None ↔ ¬ has_ty t z.
Proof. unfold checked. rewrite <- fits_spec. by destruct (fits t z). Qed.

Lemma checked_fits t z : has_ty t z → checked t z = Some z.
Proof. intros H. by apply checked_Some. Qed.

Lemma wrap_id t z : has_ty t z → wrap t z = z.
Proof.
  unfold wrap, int_bits, has_ty. intros H.
  rewrite Z.mod_small by lia. lia.
Qed.

Lemma saturate_id t z : has_ty t z → saturate t z = z.
Proof. unfold saturate, has_ty. lia. Qed.

Create HintDb ints.
Create HintDb tables.
#[export] Hint Resolve checked_fits wrap_id saturate_id : ints.

(** Bounds of the types as facts for [lia]. *)
Ltac int_unfold := unfold has_ty, int_min, int_max, unsigned_abs, signum in *.
Ltac int_lia := int_unfold; lia.

(** ** Text

    A Rust [String] is its UTF-8 bytes, one [ascii] per byte. *)

Definition byte_of (c : Ascii.ascii) : N := Ascii.N_of_ascii c.

(** The bytes that encode a [White_Space] character: one-, two- and three-byte forms. *)
Definition ws1 (a : N) : bool := ((9 <=? a) && (a <=? 13) || (a =? 32))%N.
Definition ws2 (a b : N) : bool := ((a =? 194) && ((b =? 133) || (b =? 160)))%N.
Definition ws3 (a b c : N) : bool :=
  ((a =? 225) && (b =? 154) && (c =? 128)
   || (a =? 226) && (b =? 128) &&
      ((128 <=? c) && (c <=? 138) || (c =? 168) || (c =? 169) || (c =? 175))
   || (a =? 226) && (b =? 129) && (c =? 159)
   || (a =? 227) && (b =? 128) && (c =? 128))%N.

(** [value.trim().is_empty()]: every character is white space. *)
Fixpoint is_blank (s : string) : bool :=
  match s with
  | EmptyString => true
  | String a s1 =>
      if ws1 (byte_of a) then is_blank s1
      else match s1 with
           | EmptyString => false
           | String b s2 =>
               if ws2 (byte_of a) (byte_of b) then is_blank s2
               else match s2 with
                    | EmptyString => false
                    | String c s3 =>
                        if ws3 (byte_of a) (byte_of b) (byte_of c) then is_blank s3 else false
                    end
           end
  end.

(** [value.chars().any(char::is_whitespace)]. *)
Fixpoint has_whitespace (s : string) : bool :=
  match s with
  | EmptyString => false
  | String a s1 =>
      ws1 (byte_of a)
      || match s1 with
         | String b s2 =>
             ws2 (byte_of a) (byte_of b)
             || match s2 with
                | String c _ => ws3 (byte_of a) (byte_of b) (byte_of c)
                | EmptyString => false
                end
         | EmptyString => false
         end
      || has_whitespace s1
  end.

(** [char::is_control]: U+0000 to U+001F and U+007F to U+009F, in UTF-8. *)
Fixpoint has_control (s : string) : bool :=
  match s with
  | EmptyString => false
  | String a s1 =>
      ((byte_of a <? 32) || (byte_of a =? 127))%N
      || match s1 with
         | String b _ => ((byte_of a =? 194) && (128 <=? byte_of b) && (byte_of b <? 160))%N
         | EmptyString => false
         end
      || has_control s1
  end.

(** [std::str::from_utf8] succeeds. *)
Definition continuation (c : Ascii.ascii) : bool := ((128 <=? byte_of c) && (byte_of c <=? 191))%N.

Definition lead3 (a b : N) : bool :=
  (((a =? 224) && (160 <=? b) && (b <=? 191))
   || (((225 <=? a) && (a <=? 236) || (238 <=? a) && (a <=? 239)) && (128 <=? b) && (b <=? 191))
   || ((a =? 237) && (128 <=? b) && (b <=? 159)))%N.

Definition lead4 (a b : N) : bool :=
  (((a =? 240) && (144 <=? b) && (b <=? 191))
   || ((241 <=? a) && (a <=? 243) && (128 <=? b) && (b <=? 191))
   || ((a =? 244) && (128 <=? b) && (b <=? 143)))%N.

Fixpoint valid_utf8 (s : string) : bool :=
  match s with
  | EmptyString => true
  | String a s1 =>
      if (byte_of a <? 128)%N then valid_utf8 s1
      else match s1 with
           | EmptyString => false
           | String b s2 =>
               if ((194 <=? byte_of a) && (byte_of a <=? 223))%N then continuation b && valid_utf8 s2
               else match s2 with
                    | EmptyString => false
                    | String c s3 =>
                        if lead3 (byte_of a) (byte_of b) then continuation c && valid_utf8 s3
                        else match s3 with
                             | EmptyString => false
                             | String d s4 =>
                                 lead4 (byte_of a) (byte_of b) && continuation c && continuation d
                                 && valid_utf8 s4
                             end
                    end
           end
  end.

Definition lower_byte (c : Ascii.ascii) : Ascii.ascii :=
  let n := byte_of c in
  if ((65 <=? n) && (n <=? 90))%N then Ascii.ascii_of_N (n + 32) else c.

(** [to_ascii_lowercase]. *)
Fixpoint to_ascii_lowercase (s : string) : string :=
  match s with
  | EmptyString => EmptyString
  | String c s' => String (lower_byte c) (to_ascii_lowercase s')
  end.

(** [str::contains]. *)
Fixpoint contains (needle s : string) : bool :=
  String.prefix needle s
  || match s with
     | EmptyString => false
     | String _ s' => contains needle s'
     end.

(** [i128::to_string] and [str::parse::<i128>]. *)
Definition int_to_string (z : Z) : string := NilZero.string_of_int (Z.to_int z).

Definition parse_int (t : int_ty) (s : string) : option Z :=
  match (match s with
         | String "+"%char s' => Decimal.Pos <$> NilZero.uint_of_string s'
         | _ => NilZero.int_of_string s
         end) with
  | Some d => checked t (Z.of_int d)
  | None => None
  end.

Example parse_int_samples :
  parse_int I128 "-17" = Some (-17) ∧ parse_int I128 "+5" = Some 5 ∧
  parse_int I128 "" = None ∧ parse_int I128 "-" = None ∧ parse_int I128 "+-5" = None ∧
  parse_int I128 "1x" = None ∧ parse_int I32 "2147483648" = None.
Proof. vm_compute. repeat split. Qed.

Lemma to_int_nonnil z : Z.to_int z ≠ Decimal.Pos Decimal.Nil ∧ Z.to_int z ≠ Decimal.Neg Decimal.Nil.
Proof.
  destruct z as [|p|p]; simpl; [split; discriminate| |];
    split; try discriminate; intros [= H];
    by apply (DecimalPos.Unsigned.to_uint_nonnil p).
Qed.

Lemma string_of_uint_not_plus d s : NilZero.string_of_uint d ≠ String "+" s.
Proof. by destruct d. Qed.

(** Printing then parsing an integer of the type gives it back. *)
Lemma parse_int_to_string t z : has_ty t z → parse_int t (int_to_string z) = Some z.
Proof.
  intros Hz. destruct (to_int_nonnil z) as [Hp Hn].
  unfold parse_int. pose proof (NilZero.isi (Z.to_int z) Hp Hn) as Hisi.
  fold (int_to_string z) in Hisi.
  assert (∀ s, int_to_string z ≠ String "+" s) as Hplus.
  { intros s. unfold int_to_string. destruct (Z.to_int z); simpl.
    - apply string_of_uint_not_plus.
    - discriminate. }
  destruct (int_to_string z) as [|c s]; [done|].
  destruct (decide (c = "+"%char)) as [->|Hc]; [by destruct (Hplus s)|].
  replace (match c with "+"%char => Decimal.Pos <$> NilZero.uint_of_string s
           | _ => NilZero.int_of_string (String c s) end) with (NilZero.int_of_string (String c s)).
  - rewrite Hisi, DecimalZ.of_to. by apply checked_fits.
  - clear -Hc. destruct c as [[] [] [] [] [] [] [] []]; try reflexivity. by destruct Hc.
Qed.

(** ** Tactics *)

(** Splits every [match] and [if] of the goal and of the hypotheses, dropping
    the branches that contradict an equation: the inversion of a chain of
    early returns. *)
Ltac branches := simplify_eq/=; repeat (case_match; simplify_eq/=); try done.

(** Turns the boolean tests met on a path into propositions. *)
Ltac prop_tests :=
  repeat match goal with
  | H : (_ && _) = true |- _ => apply andb_true_iff in H; destruct H
  | H : (_ || _) = false |- _ => apply orb_false_iff in H; destruct H
  | H : negb _ = true |- _ => apply negb_true_iff in H
  | H : negb _ = false |- _ => apply negb_false_iff in H
  | H : bool_decide _ = true |- _ => apply bool_decide_eq_true in H
  | H : bool_decide _ = false |- _ => apply bool_decide_eq_false in H
  | H : checked _ _ = Some _ |- _ => apply checked_Some in H; destruct H
  | H : checked_add _ _ _ = Some _ |- _ => unfold checked_add in H
  | H : checked_sub _ _ _ = Some _ |- _ => unfold checked_sub in H
  | H : checked_mul _ _ _ = Some _ |- _ => unfold checked_mul in H
  | H : checked_abs _ _ = Some _ |- _ => unfold checked_abs in H
  | H : checked_neg _ _ = Some _ |- _ => unfold checked_neg in H
  | H : ok_or ?o _ = Ok _ |- _ => destruct o eqn:?; simplify_eq/=
  end.

(** Walks past a chain of refusals [if test then Err _ else ...] that succeeded. *)
Ltac pass_tests H :=
  repeat match type of H with
  | (if ?b then Err _ else _) = Ok _ => destruct b eqn:?; [discriminate H|]
  end; prop_tests.

(** The steps of a stateful computation, as matches. *)
Ltac st_unfold := unfold transaction, st_bind, st_ret, st_fail, st_get, st_put, st_lift, st_map_err in *.

(** ** Results: shared lemmas *)

Lemma ok_or_Ok {E A} (o : option A) (e : E) a : ok_or o e = Ok a ↔ o = Some a.
Proof. destruct o; naive_solver. Qed.

Lemma transpose_Some {E A} (o : option (result E A)) a :
  transpose o = Ok (Some a) ↔ o = Some (Ok a).
Proof. destruct o as [[]|]; naive_solver. Qed.

Lemma try_fold_app {E A B} (f : B → A → result E B) acc l1 l2 :
  try_fold f acc (l1 ++ l2) = let? acc' := try_fold f acc l1 in try_fold f acc' l2.
Proof. revert acc. induction l1 as [|x l1 IH]; simpl; intros acc; [done|]. by destruct (f acc x). Qed.

(** ** Sums over the rows of a table *)

Definition zsum {A} (f : A → Z) (l : list A) : Z := foldr (λ x acc, f x + acc) 0 l.

Lemma zsum_app {A} (f : A → Z) l1 l2 : zsum f (l1 ++ l2) = zsum f l1 + zsum f l2.
Proof. induction l1 as [|x l1 IH]; simpl; [done|]. unfold zsum in *. lia. Qed.

Lemma zsum_nonneg {A} (f : A → Z) l : (∀ x, x ∈ l → 0 ≤ f x) → 0 ≤ zsum f l.
Proof.
  induction l as [|x l IH]; simpl; intros H; [done|].
  assert (0 ≤ f x) by (apply H; set_solver).
  assert (0 ≤ zsum f l) by (apply IH; set_solver). unfold zsum in *. lia.
Qed.

Lemma zsum_ext {A} (f g : A → Z) l : (∀ x, x ∈ l → f x = g x) → zsum f l = zsum g l.
Proof.
  induction l as [|x l IH]; simpl; intros H; [done|].
  rewrite (H x) by set_solver. unfold zsum in *. rewrite IH; [done|]. set_solver.
Qed.

Lemma zsum_abs_le {A} (f : A → Z) l : Z.abs (zsum f l) ≤ zsum (λ x, Z.abs (f x)) l.
Proof. induction l as [|x l IH]; simpl; [done|]. unfold zsum in *. lia. Qed.

(** A checked running sum that succeeds is the exact sum. *)
Lemma try_fold_checked_sum {E A} (t : int_ty) (f : A → Z) (e : E) l acc r :
  try_fold (λ a x, ok_or (checked_add t a (f x)) e) acc l = Ok r → r = acc + zsum f l.
Proof.
  revert acc. induction l as [|x l IH]; simpl; intros acc H; [simplify_eq; lia|].
  destruct (checked_add t acc (f x)) as [a'|] eqn:Ha; simplify_eq/=.
  prop_tests. subst. apply IH in H. unfold zsum in *. lia.
Qed.

(** ** Tables

    A table is its list of rows in insertion order; a key is a projection. *)

(** [UPDATE ... WHERE p]: the rows that satisfy [p] are rewritten. *)
Definition update_where {R} (p : R → bool) (f : R → R) (l : list R) : list R :=
  (λ r, if p r then f r else r) <$> l.

Lemma elem_of_update_where {R} (p : R → bool) f l r :
  r ∈ update_where p f l ↔ ∃ r0, r0 ∈ l ∧ r = if p r0 then f r0 else r0.
Proof. unfold update_where. rewrite list_elem_of_fmap. naive_solver. Qed.

Lemma update_where_none {R} (p : R → bool) f l : (∀ r, r ∈ l → p r = false) → update_where p f l = l.
Proof.
  intros H. unfold update_where. rewrite <- (list_fmap_id l) at 2.
  apply list_fmap_ext. intros i x Hx%list_elem_of_lookup_2. by rewrite H.
Qed.

Section tables.
Context {R K : Type} `{!EqDecision K} (key : R → K).

Definition by_key (k : K) (r : R) : bool := bool_decide (key r = k).

(** The primary key is unique. *)
Definition keyed (l : list R) : Prop := NoDup (key <$> l).

Lemma find_by_key k l r :
  List.find (by_key k) l = Some r → r ∈ l ∧ key r = k.
Proof.
  intros H. apply List.find_some in H as [Hin Hk].
  unfold by_key in Hk. apply bool_decide_eq_true in Hk. by rewrite list_elem_of_In.
Qed.

Lemma find_by_key_None k l : List.find (by_key k) l = None ↔ k ∉ key <$> l.
Proof.
  induction l as [|x l IH]; simpl; [set_solver|].
  unfold by_key at 1. case_bool_decide; [set_solver|].
  rewrite IH. set_solver.
Qed.

Lemma keyed_find k l r : keyed l → r ∈ l → key r = k → List.find (by_key k) l = Some r.
Proof.
  unfold keyed. induction l as [|x l IH]; simpl; [set_solver|].
  intros [Hx Hnd]%NoDup_cons Hin Hk. unfold by_key at 1. case_bool_decide as Hd.
  - apply elem_of_cons in Hin as [->|Hin]; [done|].
    destruct Hx. rewrite Hd, <- Hk. by apply list_elem_of_fmap_2.
  - apply elem_of_cons in Hin as [->|Hin]; [done|]. by apply IH.
Qed.

Lemma keyed_unique l x y : keyed l → x ∈ l → y ∈ l → key x = key y → x = y.
Proof.
  intros Hk Hx Hy Heq. pose proof (keyed_find _ _ _ Hk Hx Heq) as K1.
  pose proof (keyed_find _ _ _ Hk Hy eq_refl) as K2. congruence.
Qed.

Lemma keyed_snoc l r : keyed l → key r ∉ key <$> l → keyed (l ++ [r]).
Proof.
  unfold keyed. rewrite fmap_app. intros H1 H2.
  apply NoDup_app. split; [done|]. split; [set_solver|]. apply NoDup_singleton.
Qed.

Lemma update_where_keys_at p f l :
  (∀ r, p r = true → key (f r) = key r) → key <$> update_where p f l = key <$> l.
Proof.
  intros Hf. unfold update_where. rewrite <- list_fmap_compose.
  apply list_fmap_ext. intros i x _. simpl. destruct (p x) eqn:Hp; [by apply Hf|done].
Qed.

Lemma update_where_keys p f l :
  (∀ r, key (f r) = key r) → key <$> update_where p f l = key <$> l.
Proof. intros Hf. by apply update_where_keys_at. Qed.

Lemma keyed_update p f l :
  (∀ r, key (f r) = key r) → keyed l → keyed (update_where p f l).
Proof. unfold keyed. intros Hf H. by rewrite update_where_keys. Qed.

(** Looking a key up after the row with another or the same key was replaced. *)
Lemma find_replace k row l :
  List.find (by_key k) (update_where (by_key (key row)) (λ _, row) l) =
  if bool_decide (key row = k) then (if existsb (by_key k) l then Some row else None)
  else List.find (by_key k) l.
Proof.
  unfold update_where. induction l as [|x l IH]; [by case_bool_decide|].
  rewrite fmap_cons. simpl. rewrite IH. clear IH.
  destruct (by_key (key row) x) eqn:Hx; unfold by_key in *; repeat case_bool_decide; simplify_eq/=;
    try done; congruence.
Qed.

Lemma keyed_replace row l :
  keyed l → keyed (update_where (by_key (key row)) (λ _, row) l).
Proof.
  unfold keyed. intros H. unfold update_where. rewrite <- list_fmap_compose.
  rewrite (list_fmap_ext _ key); [done|]. intros i x _. simpl.
  unfold by_key. by case_bool_decide.
Qed.

(** Rewriting the one row with a key changes a sum by that row's change. *)
Lemma zsum_update_key (w : R → Z) k f l r :
  keyed l → List.find (by_key k) l = Some r → 
  zsum w (update_where (by_key k) f l) = zsum w l - w r + w (f r).
Proof.
  unfold keyed. induction l as [|x l IH]; simpl; [done|].
  intros [Hx Hnd]%NoDup_cons. destruct (by_key k x) eqn:Hb.
  - intros [= ->]. unfold by_key in Hb. apply bool_decide_eq_true in Hb.
    fold (update_where (by_key k) f l). rewrite update_where_none.
    + unfold zsum. lia.
    + intros y Hy. unfold by_key. apply bool_decide_eq_false. intros Hk.
      apply Hx. rewrite Hb, <- Hk. by apply list_elem_of_fmap_2.
  - intros Hf. specialize (IH Hnd Hf). unfold zsum, update_where in *. simpl. lia.
Qed.
End tables.

#[export] Hint Resolve keyed_snoc keyed_update : tables.

Lemma find_fmap {A B} (g : A → B) (p : B → bool) l :
  List.find p (g <$> l) = g <$> List.find (λ x, p (g x)) l.
Proof. induction l as [|x l IH]; simpl; [done|]. by destruct (p (g x)). Qed.

Lemma filter_fmap {A B} (g : A → B) (p : B → bool) l :
  List.filter p (g <$> l) = g <$> List.filter (λ x, p (g x)) l.
Proof.
  induction l as [|x l IH]; [done|]. rewrite fmap_cons. simpl. rewrite IH. by destruct (p (g x)).
Qed.

Lemma find_ext {A} (p q : A → bool) l : (∀ x, p x = q x) → List.find p l = List.find q l.
Proof. intros H. induction l as [|x l IH]; simpl; [done|]. by rewrite H, IH. Qed.

Lemma filter_ext_bool {A} (p q : A → bool) l : (∀ x, p x = q x) → List.filter p l = List.filter q l.
Proof. intros H. induction l as [|x l IH]; simpl; [done|]. by rewrite H, IH. Qed.

Lemma existsb_false {A} (p : A → bool) l : existsb p l = false ↔ ∀ x, x ∈ l → p x = false.
Proof.
  induction l as [|y l IH]; simpl; [set_solver|].
  rewrite orb_false_iff, IH. set_solver.
Qed.

Lemma find_None_iff {A} (p : A → bool) l : List.find p l = None ↔ ∀ x, x ∈ l → p x = false.
Proof.
  induction l as [|y l IH]; simpl; [set_solver|].
  destruct (p y) eqn:Hy; [|rewrite IH; set_solver].
  split; [done|]. intros H. rewrite (H y) in Hy by set_solver. done.
Qed.

Lemma find_elem {A} (p : A → bool) l x : List.find p l = Some x → x ∈ l ∧ p x = true.
Proof. intros [? ?]%List.find_some. by rewrite list_elem_of_In. Qed.

Lemma find_unique {A} (p : A → bool) l x :
  x ∈ l → p x = true → (∀ y, y ∈ l → p y = true → y = x) → List.find p l = Some x.
Proof.
  intros Hx Hp Hu. destruct (List.find p l) as [y|] eqn:Hf.
  - apply List.find_some in Hf as [Hy Hpy]. apply list_elem_of_In in Hy. by rewrite (Hu y).
  - rewrite find_None_iff in Hf. rewrite (Hf x) in Hp by done. done.
Qed.

Lemma find_snoc {A} (p : A → bool) l x :
  List.find p (l ++ [x]) =
    match List.find p l with Some y => Some y | None => if p x then Some x else None end.
Proof. induction l as [|y l IH]; simpl; [done|]. by destruct (p y). Qed.

(** Looking a key up after an update that keeps keys, or after rows were deleted. *)
Lemma find_update_where {R K} `{!EqDecision K} (key : R → K) p f k l :
  (∀ r, p r = true → key (f r) = key r) →
  List.find (by_key key k) (update_where p f l) =
    (λ r, if p r then f r else r) <$> List.find (by_key key k) l.
Proof.
  intros Hf. unfold update_where. rewrite find_fmap. f_equal. apply find_ext. intros x.
  unfold by_key. destruct (p x) eqn:Hp; [by rewrite Hf|done].
Qed.

Lemma find_filter {R K} `{!EqDecision K} (key : R → K) p k l :
  keyed key l → List.find (by_key key k) (List.filter p l) =
    match List.find (by_key key k) l with Some r => if p r then Some r else None | None => None end.
Proof.
  unfold keyed. induction l as [|x l IH]; simpl; [done|]. intros [Hx Hnd]%NoDup_cons.
  destruct (by_key key k x) eqn:Hk; unfold by_key in Hk.
  - apply bool_decide_eq_true in Hk. destruct (p x); simpl.
    + unfold by_key at 1. by rewrite bool_decide_eq_true_2.
    + rewrite IH by done. rewrite (proj2 (find_by_key_None key k l)); [done|by rewrite <- Hk].
  - apply bool_decide_eq_false in Hk. destruct (p x); simpl; [|by apply IH].
    unfold by_key at 1. rewrite bool_decide_eq_false_2 by done. by apply IH.
Qed.

Lemma keyed_filter {R K} (key : R → K) p l : keyed key l → keyed key (List.filter p l).
Proof.
  unfold keyed. induction l as [|x l IH]; simpl; [done|]. intros [Hx Hnd]%NoDup_cons.
  destruct (p x); [|by apply IH]. rewrite fmap_cons. apply NoDup_cons. split; [|by apply IH].
  intros (y & Hy & Hin)%list_elem_of_fmap. apply Hx. rewrite list_elem_of_fmap. exists y. split; [done|].
  rewrite list_elem_of_In, List.filter_In in Hin. apply list_elem_of_In. by destruct Hin.
Qed.

Lemma elem_of_filter_bool {A} (p : A → bool) l x : x ∈ List.filter p l ↔ x ∈ l ∧ p x = true.
Proof. rewrite !list_elem_of_In. apply List.filter_In. Qed.

Lemma zsum_filter_snoc {A} (w : A → Z) (p : A → bool) l x :
  zsum w (List.filter p (l ++ [x])) = zsum w (List.filter p l) + (if p x then w x else 0).
Proof.
  rewrite List.filter_app. simpl. rewrite zsum_app. destruct (p x); simpl; lia.
Qed.

(** ** Runs of a step relation *)

(** An invariant that every step preserves holds of every state a run reaches. *)
Lemma rtc_invariant {S} (step : S → S → Prop) (Inv : S → Prop) s s' :
  (∀ x y, step x y → Inv x → Inv y) → rtc step s s' → Inv s → Inv s'.
Proof. intros Hstep Hrun. induction Hrun; eauto. Qed.

(** ** Queries *)

(** [query_map(...).collect()]: every matching row converted, the first error wins. *)
Fixpoint collect {E R A} (read : R → result E A) (l : list R) : result E (list A) :=
  match l with
  | [] => Ok []
  | r :: l' => let? a := read r in let? l := collect read l' in Ok (a :: l)
  end.

(** [ORDER BY]: rows sorted by a total order, equal rows in table order. *)
Fixpoint insert_by {R} (le : R → R → bool) (r : R) (l : list R) : list R :=
  match l with
  | [] => [r]
  | x :: l' => if le r x then r :: l else x :: insert_by le r l'
  end.

Definition order_by {R} (le : R → R → bool) (l : list R) : list R := foldr (insert_by le) [] l.

Lemma insert_by_perm {R} (le : R → R → bool) r l : insert_by le r l ≡ₚ r :: l.
Proof.
  induction l as [|x l IH]; simpl; [done|]. destruct (le r x); [done|].
  rewrite IH. apply Permutation_swap.
Qed.

Lemma order_by_perm {R} (le : R → R → bool) l : order_by le l ≡ₚ l.
Proof. induction l as [|x l IH]; simpl; [done|]. by rewrite insert_by_perm, IH. Qed.

Lemma elem_of_collect {E R A} (read : R → result E A) l l' a :
  collect read l = Ok l' → a ∈ l' ↔ ∃ r, r ∈ l ∧ read r = Ok a.
Proof.
  revert l'. induction l as [|r l IH]; simpl; intros l' H.
  - simplify_eq. set_solver.
  - destruct (read r) as [x|] eqn:Hr; [|done]. destruct (collect read l) as [xs|]; [|done].
    simplify_eq. rewrite elem_of_cons, (IH xs) by done. split.
    + intros [->|(y & ? & ?)]; [exists r|exists y]; set_solver.
    + intros (y & [->|?]%elem_of_cons & ?); [left; congruence|eauto].
Qed.

Lemma collect_read {E R A} (read : R → result E A) l l' r :
  collect read l = Ok l' → r ∈ l → ∃ a, read r = Ok a ∧ a ∈ l'.
Proof.
  revert l'. induction l as [|x l IH]; simpl; intros l' H Hin; [set_solver|].
  destruct (read x) as [a|] eqn:Hx; [|done]. destruct (collect read l) as [xs|] eqn:Hc; [|done].
  simplify_eq. apply elem_of_cons in Hin as [->|Hin]; [exists a; set_solver|].
  destruct (IH _ eq_refl Hin) as (b & ? & ?). exists b. set_solver.
Qed.

Lemma collect_Ok {E R A} (read : R → result E A) l :
  (∀ r, r ∈ l → ∃ a, read r = Ok a) → ∃ l', collect read l = Ok l'.
Proof.
  induction l as [|r l IH]; simpl; intros H; [by eexists|].
  destruct (H r) as [a ->]; [set_solver|]. destruct IH as [l' ->]; [set_solver|]. by eexists.
Qed.

(** ** Uuids

    [Uuid::parse_str] belongs to a third-party crate: whether it accepts a text. *)
Class UuidFormat := { uuid_parses : string → bool }.

(** ** Serialisation

    [serde_json] is a library: a value is written to text and read back. What
    the stores rely on is that reading the text just written gives the value. *)
Class Serde (A : Type) := {
  to_text : A → option string;
  from_text : string → option A;
}.

Class SerdeLaws (A : Type) `{!Serde A} :=
  from_to_text (a : A) (s : string) : to_text a = Some s → from_text s = Some a.

(** A serialiser for a finite table of values: a value is written as its index. *)
Definition table_serde {A} `{!EqDecision A} (l : list A) : Serde A := {|
  to_text a :=
    match list_find (a =.) l with
    | Some (i, _) => if fits U64 (Z.of_nat i) then Some (int_to_string (Z.of_nat i)) else None
    | None => None
    end;
  from_text s :=
    match parse_int U64 s with
    | Some z => l !! Z.to_nat z
    | None => None
    end;
|}.

Lemma table_serde_laws {A} `{!EqDecision A} (l : list A) : @SerdeLaws A (table_serde l).
Proof.
  intros a s. simpl. destruct (list_find _ l) as [[i x]|] eqn:Hf; [|done].
  apply list_find_Some in Hf as (Hl & <- & _).
  destruct (fits U64 (Z.of_nat i)) eqn:Hfit; [|done]. intros [= <-].
  apply fits_spec in Hfit. by rewrite parse_int_to_string, Nat2Z.id.
Qed.
