(* ===== verification/SortedVec.v ===== *)
(** * Sorted vectors: [sort], [dedup] and [truncate] of the standard library

    Several parts of the program bring a list into a canonical form by sorting it and
    removing repetitions; this file holds the form and what is known of it. *)
From stdpp Require Import sorting.
From S2P Require Import Prelude.

(** [Vec::dedup]: neighbours that are equal become one. *)
Fixpoint dedup {A} `{!EqDecision A} (l : list A) : list A :=
  match l with
  | [] => []
  | x :: l' =>
      match l' with
      | [] => [x]
      | y :: _ => if bool_decide (x = y) then dedup l' else x :: dedup l'
      end
  end.

Lemma dedup_cons {A} `{!EqDecision A} (x y : A) l :
  dedup (x :: y :: l) = if bool_decide (x = y) then dedup (y :: l) else x :: dedup (y :: l).
Proof. done. Qed.

Lemma elem_of_dedup {A} `{!EqDecision A} (x : A) l : x ∈ dedup l ↔ x ∈ l.
Proof.
  induction l as [|a [|b l] IH]; [done..|]. rewrite dedup_cons. case_bool_decide as H.
  - rewrite IH. subst. set_solver.
  - rewrite elem_of_cons, IH. set_solver.
Qed.

Lemma dedup_length {A} `{!EqDecision A} (l : list A) : (length (dedup l) ≤ length l)%nat.
Proof.
  induction l as [|a [|b l] IH]; [simpl; lia..|]. rewrite dedup_cons. case_bool_decide; simpl in *; lia.
Qed.

(** The strict part of an order. *)
Definition strictly {A} (R : relation A) : relation A := λ a b, R a b ∧ a ≠ b.

#[export] Instance strictly_anti_symm {A} (R : relation A) `{!AntiSymm eq R} : AntiSymm eq (strictly R).
Proof. intros a b [Hab _] [Hba _]. by apply (anti_symm R). Qed.

Section order.
Context {A : Type} `{!EqDecision A} (R : relation A) `{!AntiSymm eq R}.

Lemma dedup_sorted l : StronglySorted R l → StronglySorted (strictly R) (dedup l).
Proof.
  induction l as [|a [|b l] IH]; intros Hs; [by repeat constructor..|]. rewrite dedup_cons.
  apply StronglySorted_inv in Hs as [Hs Ha]. specialize (IH Hs). case_bool_decide as Hab; [done|].
  constructor; [done|]. apply Forall_forall. intros x Hx. rewrite elem_of_dedup in Hx. rewrite Forall_forall in Ha.
  split; [by apply Ha|]. intros <-. apply Hab.
  apply StronglySorted_inv in Hs as [_ Hb]. rewrite Forall_forall in Hb.
  apply elem_of_cons in Hx as [|Hx]; [done|]. apply (anti_symm R); [apply Ha; set_solver|by apply Hb].
Qed.

Lemma sorted_strictly_nodup l : StronglySorted (strictly R) l → NoDup l.
Proof.
  induction 1 as [|a l _ IH Ha]; constructor; [|done]. intros Hin. rewrite Forall_forall in Ha.
  by destruct (Ha a Hin).
Qed.
End order.

(** [sort] and [dedup]: the set of the elements in their order. *)
Definition sorted_set {A} `{!EqDecision A} (R : relation A) `{!RelDecision R} (l : list A) : list A :=
  dedup (merge_sort R l).

Section sorted_set.
Context {A : Type} `{!EqDecision A} (R : relation A) `{!RelDecision R, !PartialOrder R, !Total R}.

Lemma sorted_set_sorted l : StronglySorted (strictly R) (sorted_set R l).
Proof. apply dedup_sorted; [apply _|]. apply Sorted_StronglySorted, Sorted_merge_sort; apply _. Qed.

Lemma elem_of_sorted_set x l : x ∈ sorted_set R l ↔ x ∈ l.
Proof. unfold sorted_set. by rewrite elem_of_dedup, merge_sort_Permutation. Qed.

Lemma sorted_set_length l : (length (sorted_set R l) ≤ length l)%nat.
Proof. unfold sorted_set. rewrite dedup_length. by rewrite merge_sort_Permutation. Qed.

(** The order and the repetitions of the list make no difference. *)
Lemma sorted_set_ext l l' : (∀ x, x ∈ l ↔ x ∈ l') → sorted_set R l = sorted_set R l'.
Proof.
  intros H. apply (StronglySorted_unique (strictly R)); [apply sorted_set_sorted..|].
  apply NoDup_Permutation; [eapply sorted_strictly_nodup, sorted_set_sorted..|].
  intros x. by rewrite !elem_of_sorted_set.
Qed.
End sorted_set.
