(* ===== verification/Money.v ===== *)
(** * Exact money: [crates/vox-domain/src/money.rs]

    The provider's units/nano pairs, fixed-point values at nano precision and
    the economics of a futures contract. Every amount is an integer at its
    Rust width; the theorems say that the conversions lose nothing, that no
    intermediate overflows unnoticed and that a monetary value is produced only
    when it is the exact value of the provider's formula. *)
From S2P Require Import Prelude.

Definition NANO_SCALE : Z := 1000000000.

(** ** Units and nanos *)

Record UnitsNano := { un_units : Z; un_nano : Z }.

(** The newtype [FixedPoint(i128)]. *)
Record FixedPoint := Fixed { total_nanos : Z }.

Inductive FixedPointError := NanoOutOfRange (value : Z).

#[export] Instance UnitsNano_eq_dec : EqDecision UnitsNano.
Proof. solve_decision. Defined.
#[export] Instance FixedPoint_eq_dec : EqDecision FixedPoint.
Proof. solve_decision. Defined.

Definition from_total_nanos (total : Z) : FixedPoint := Fixed total.

Definition validate_nano (nano : Z) : result FixedPointError () :=
  if (-999999999 <=? nano) && (nano <=? 999999999) then Ok tt else Err (NanoOutOfRange nano).

Definition UnitsNano_new (units nano : Z) : result FixedPointError UnitsNano :=
  let? _ := validate_nano nano in
  Ok {| un_units := units; un_nano := nano |}.

Definition fixed_point (u : UnitsNano) : FixedPoint :=
  Fixed (un_units u * NANO_SCALE + un_nano u).

Definition from_units_nano (units nano : Z) : result FixedPointError FixedPoint :=
  let? u := UnitsNano_new units nano in Ok (fixed_point u).

(** [/] and [%] truncate toward zero; the remainder is cast to [i32]. *)
Definition units_nano (f : FixedPoint) : Z * Z :=
  (Z.quot (total_nanos f) NANO_SCALE, wrap I32 (Z.rem (total_nanos f) NANO_SCALE)).

(** ** Futures economics *)

Record FuturesEconomics := {
  fe_min_price_increment : FixedPoint;
  fe_min_price_increment_amount : FixedPoint;
  fe_money_per_point : FixedPoint;
}.

Inductive FuturesEconomicsError :=
| NonPositive (field : string)
| TickMismatch
| InexactMoneyPerPoint
| InexactMonetaryValue
| EconomicsOverflow.

Definition require_positive (field : string) (value : FixedPoint) : result FuturesEconomicsError () :=
  if 0 <? total_nanos value then Ok tt else Err (NonPositive field).

Definition FuturesEconomics_new (catalogue margin amount : FixedPoint)
  : result FuturesEconomicsError FuturesEconomics :=
  let? _ := require_positive "catalogue_min_price_increment" catalogue in
  let? _ := require_positive "margin_min_price_increment" margin in
  let? _ := require_positive "min_price_increment_amount" amount in
  if negb (total_nanos catalogue =? total_nanos margin) then Err TickMismatch else
  let? numerator := ok_or (checked_mul I128 (total_nanos amount) NANO_SCALE) EconomicsOverflow in
  if negb (Z.rem numerator (total_nanos margin) =? 0) then Err InexactMoneyPerPoint else
  Ok {| fe_min_price_increment := margin;
        fe_min_price_increment_amount := amount;
        fe_money_per_point := Fixed (Z.quot numerator (total_nanos margin)) |}.

Definition value_for_price (e : FuturesEconomics) (quoted_price : FixedPoint) (contracts : Z)
  : result FuturesEconomicsError FixedPoint :=
  let? _ := require_positive "quoted_price" quoted_price in
  if contracts =? 0 then Err (NonPositive "contracts") else
  let? product := ok_or (checked_mul I128 (total_nanos quoted_price)
                           (total_nanos (fe_money_per_point e))) EconomicsOverflow in
  if negb (Z.rem product NANO_SCALE =? 0) then Err InexactMonetaryValue else
  let per_contract := Z.quot product NANO_SCALE in
  ok_or (option_map Fixed (checked_mul I128 per_contract contracts)) EconomicsOverflow.

(** ** Lemmas *)

Lemma validate_nano_ok nano : validate_nano nano = Ok tt ↔ Z.abs nano < NANO_SCALE.
Proof. unfold validate_nano, NANO_SCALE. case_match; split; try done; lia. Qed.

Lemma UnitsNano_new_Ok units nano u :
  UnitsNano_new units nano = Ok u ↔
  Z.abs nano < NANO_SCALE ∧ u = {| un_units := units; un_nano := nano |}.
Proof.
  unfold UnitsNano_new. rewrite <- validate_nano_ok.
  destruct (validate_nano nano) as [[]|]; naive_solver.
Qed.

Lemma require_positive_Ok f v : require_positive f v = Ok tt ↔ 0 < total_nanos v.
Proof. unfold require_positive. case_match; split; try done; lia. Qed.

(** Exact quotient: when the remainder is zero, [quot] is the exact ratio. *)
Lemma quot_exact a b : b ≠ 0 → Z.rem a b = 0 → Z.quot a b * b = a.
Proof. intros Hb Hr. pose proof (Z.quot_rem' a b). lia. Qed.

#[export] Hint Resolve quot_exact : ints.

(** The metadata a constructed [FuturesEconomics] carries. *)
Definition economics_wf (e : FuturesEconomics) : Prop :=
  0 < total_nanos (fe_min_price_increment e) ∧
  0 < total_nanos (fe_min_price_increment_amount e) ∧
  0 < total_nanos (fe_money_per_point e) ∧
  total_nanos (fe_money_per_point e) * total_nanos (fe_min_price_increment e) =
    total_nanos (fe_min_price_increment_amount e) * NANO_SCALE.

Lemma FuturesEconomics_new_wf c m a e :
  FuturesEconomics_new c m a = Ok e →
  economics_wf e ∧ fe_min_price_increment e = m ∧ fe_min_price_increment_amount e = a ∧
  total_nanos c = total_nanos m.
Proof.
  unfold FuturesEconomics_new, require_positive. intros H. branches. prop_tests. subst.
  assert (0 < total_nanos a * NANO_SCALE) by (unfold NANO_SCALE; lia).
  pose proof (quot_exact (total_nanos a * NANO_SCALE) (total_nanos m) ltac:(lia) ltac:(lia)).
  unfold economics_wf; simpl. repeat split; try lia; nia.
Qed.

(** What a successful valuation returned, step by step. *)
Lemma value_for_price_Ok e p n v :
  value_for_price e p n = Ok v →
  0 < total_nanos p ∧ n ≠ 0 ∧ has_ty I128 (total_nanos v) ∧
  total_nanos v * NANO_SCALE = total_nanos p * total_nanos (fe_money_per_point e) * n.
Proof.
  unfold value_for_price, require_positive. intros H. branches.
  destruct (checked_mul I128 (total_nanos p) _) as [pr|] eqn:Hp; simplify_eq/=.
  destruct (checked_mul I128 (Z.quot _ _) n) as [r|] eqn:Hr; simplify_eq/=.
  prop_tests. subst. simpl.
  pose proof (quot_exact (total_nanos p * total_nanos (fe_money_per_point e)) NANO_SCALE
                ltac:(done) ltac:(lia)).
  repeat split; try lia; unfold has_ty in *; lia || nia.
Qed.

Lemma quot_rem_canonical u n :
  Z.abs n < NANO_SCALE → 0 ≤ u * n →
  Z.quot (u * NANO_SCALE + n) NANO_SCALE = u ∧ Z.rem (u * NANO_SCALE + n) NANO_SCALE = n.
Proof.
  intros Hn Hs. unfold NANO_SCALE in *.
  assert (Z.quot (u * 1000000000 + n) 1000000000 = u) as Hq.
  { pose proof (Z.quot_rem' (u * 1000000000 + n) 1000000000).
    pose proof (Z.rem_bound_abs (u * 1000000000 + n) 1000000000 ltac:(lia)).
    pose proof (Z.rem_sign_mul (u * 1000000000 + n) 1000000000 ltac:(lia)). nia. }
  split; [done|]. pose proof (Z.quot_rem' (u * 1000000000 + n) 1000000000). lia.
Qed.

Lemma units_nano_value f :
  let '(units, nano) := units_nano f in
  units * NANO_SCALE + nano = total_nanos f ∧ Z.abs nano < NANO_SCALE ∧ 0 ≤ units * nano.
Proof.
  unfold units_nano. set (t := total_nanos f).
  pose proof (Z.rem_bound_abs t NANO_SCALE ltac:(done)).
  pose proof (Z.quot_rem' t NANO_SCALE). pose proof (Z.rem_sign_mul t NANO_SCALE ltac:(done)).
  rewrite wrap_id by (unfold NANO_SCALE in *; int_lia).
  unfold NANO_SCALE in *. repeat split; [lia|lia|].
  set (r := Z.rem t 1000000000) in *. set (q := Z.quot t 1000000000) in *.
  clearbody q r t. destruct (Z.lt_trichotomy r 0) as [Hl|[->|Hg]]; [|lia|].
  - assert (t ≤ 0) by nia. assert (q ≤ 0) by lia. nia.
  - assert (0 ≤ t) by nia. assert (0 ≤ q) by lia. nia.
Qed.

(** A provider units/nano pair survives the fixed-point representation: the
    pair accepted by [UnitsNano::new] becomes a total that fits an [i128], the
    canonical pair read back denotes the same total with a nano part in range and
    of the sign of its units, and a pair whose parts agree in sign is returned
    unchanged. *)
Theorem units_nano_roundtrip units nano u :
  has_ty I64 units → UnitsNano_new units nano = Ok u →
  let f := fixed_point u in
  has_ty I128 (total_nanos f) ∧
  (let '(units', nano') := units_nano f in
   units' * NANO_SCALE + nano' = units * NANO_SCALE + nano ∧
   Z.abs nano' < NANO_SCALE ∧ 0 ≤ units' * nano') ∧
  (0 ≤ units * nano → units_nano f = (units, nano)).
Proof.
  intros Hu [Hn ->]%UnitsNano_new_Ok f. split; [|split].
  - unfold f, fixed_point, NANO_SCALE in *; simpl. int_lia.
  - exact (units_nano_value f).
  - intros Hs. unfold units_nano, f, fixed_point; simpl.
    destruct (quot_rem_canonical units nano Hn Hs) as [-> ->].
    rewrite wrap_id; [done|]. unfold NANO_SCALE in *. int_lia.
Qed.

Lemma units_nano_roundtrip_witness :
  units_nano (fixed_point {| un_units := -3; un_nano := -500000000 |}) = (-3, -500000000).
Proof.
  apply (units_nano_roundtrip (-3) (-500000000)).
  - split; vm_compute; discriminate.
  - reflexivity.
  - vm_compute; discriminate.
Defined.

(** Futures valuation is exact and complete: for economics built from
    consistent metadata, [value_for_price] returns a value exactly when the price
    and the contract count are positive, no product leaves [i128] and the value
    per contract is a whole number of nanos; the value then satisfies the
    provider's formula price / tick * tick amount * contracts without rounding. *)
Theorem futures_value_exact catalogue margin amount e p n v :
  FuturesEconomics_new catalogue margin amount = Ok e → has_ty U64 n →
  value_for_price e p n = Ok v ↔
    0 < total_nanos p ∧ 0 < n ∧
    has_ty I128 (total_nanos p * total_nanos (fe_money_per_point e)) ∧
    Z.rem (total_nanos p * total_nanos (fe_money_per_point e)) NANO_SCALE = 0 ∧
    has_ty I128 (total_nanos v) ∧
    total_nanos v * total_nanos margin = total_nanos p * total_nanos amount * n.
Proof.
  intros (Hwf & Hm & Ha & _)%FuturesEconomics_new_wf Hn.
  destruct Hwf as (Hi & Hai & Hmp & Hex). rewrite Hm in Hi, Hex. rewrite Ha in Hai, Hex. clear Hm Ha.
  set (k := total_nanos (fe_money_per_point e)) in *.
  split.
  - intros H. pose proof (value_for_price_Ok _ _ _ _ H) as (Hp & Hn0 & Hv & Heq). fold k in Heq.
    unfold value_for_price, require_positive in H. fold k in H. branches.
    destruct (checked_mul I128 (total_nanos p) k) as [pr|] eqn:Hpr; simplify_eq/=. prop_tests. subst.
    assert (total_nanos v * NANO_SCALE * total_nanos margin =
            total_nanos p * (k * total_nanos margin) * n) as Hc by nia.
    rewrite Hex in Hc. split_and!; try done; [int_lia|lia|unfold NANO_SCALE in *; nia].
  - intros (Hp & Hn0 & Hfit & Hrem & Hv & Hval).
    unfold value_for_price, require_positive. fold k.
    rewrite (proj2 (Z.ltb_lt 0 (total_nanos p))) by done.
    destruct (n =? 0) eqn:Hz; [lia|]. unfold checked_mul at 1.
    rewrite checked_fits by done. simpl. rewrite Hrem. simpl.
    pose proof (quot_exact (total_nanos p * k) NANO_SCALE ltac:(done) Hrem) as Hq.
    set (q := Z.quot (total_nanos p * k) NANO_SCALE) in *.
    assert (q * n = total_nanos v) as Hqn.
    { assert (q * NANO_SCALE * total_nanos margin = total_nanos p * (k * total_nanos margin)) by nia.
      rewrite Hex in *. unfold NANO_SCALE in *. nia. }
    unfold checked_mul. rewrite Hqn, checked_fits by done. simpl. by destruct v.
Qed.

Lemma futures_value_exact_witness :
  value_for_price {| fe_min_price_increment := Fixed 10000000;
                     fe_min_price_increment_amount := Fixed 12500000000;
                     fe_money_per_point := Fixed 1250000000000 |} (Fixed 2000000000) 3
  = Ok (Fixed 7500000000000).
Proof.
  apply (futures_value_exact (Fixed 10000000) (Fixed 10000000) (Fixed 12500000000));
    [vm_compute; reflexivity | split; vm_compute; discriminate |].
  repeat split; vm_compute; congruence.
Defined.
