(* ===== verification/Domain.v ===== *)
(** * The broker-neutral domain: [crates/vox-domain/src]

    Identities, the mutation guard of an environment, process readiness, the
    execution commands that cross the runtime boundary, protection capabilities
    and the semantic reference of a trailing stop. The theorems: readiness is
    regained only through reconciliation, a protection plan is accepted exactly
    when every feature it uses is supported, and a trailing threshold never moves
    against the position. *)
From S2P Require Import Prelude Money.

(** ** identity.rs and instrument.rs *)

Inductive IdentityError := IdentityEmpty.

(** The newtypes of the [identity!] macro, one string each. *)
Definition ClientRequestId : Type := string.
Definition BrokerOrderId : Type := string.
Definition ExchangeOrderId : Type := string.
Definition BrokerStopOrderId : Type := string.

Definition identity_new (value : string) : result IdentityError string :=
  if is_blank value then Err IdentityEmpty else Ok value.

Inductive InstrumentIdentityError := EmptyField.

Record InstrumentIdentity := {
  ii_provider : string;
  ii_uid : string;
  ii_figi : option string;
  ii_ticker : string;
  ii_class_code : string;
}.

Definition InstrumentIdentity_new (provider uid : string) (figi : option string)
    (ticker class_code : string) : result InstrumentIdentityError InstrumentIdentity :=
  if is_blank provider || is_blank uid || is_blank ticker || is_blank class_code
     || match figi with Some value => is_blank value | None => false end
  then Err EmptyField
  else Ok {| ii_provider := provider; ii_uid := uid; ii_figi := figi;
             ii_ticker := ticker; ii_class_code := class_code |}.

(** ** environment.rs *)

Inductive Environment := Sandbox | Paper | Live.

#[export] Instance Environment_eq_dec : EqDecision Environment.
Proof. solve_decision. Defined.

Record MutationGuard := { mg_environment : Environment; mg_live_mutations_enabled : bool }.

Record MutationAuthorization := { ma_environment : Environment }.

Inductive LiveMutationError := ExplicitEnablementRequired.

Definition MutationGuard_new (e : Environment) : MutationGuard :=
  {| mg_environment := e; mg_live_mutations_enabled := false |}.

Definition with_live_mutations_enabled (e : Environment) : MutationGuard :=
  {| mg_environment := e; mg_live_mutations_enabled := true |}.

Definition authorize_read (g : MutationGuard) : result LiveMutationError () := Ok tt.

Definition authorize_mutation (g : MutationGuard) : result LiveMutationError MutationAuthorization :=
  match mg_environment g, mg_live_mutations_enabled g with
  | Live, false => Err ExplicitEnablementRequired
  | _, _ => Ok {| ma_environment := mg_environment g |}
  end.

(** ** readiness.rs *)

Module Readiness.
Inductive ReadinessState := Starting | Connecting | Reconciling | Ready | Degraded | Halted.

#[global] Instance ReadinessState_eq_dec : EqDecision ReadinessState.
Proof. solve_decision. Defined.

Record Readiness := { state : ReadinessState; reason : option string }.

Record ReadinessError := { from : ReadinessState; to : ReadinessState }.

Definition default : Readiness := {| state := Starting; reason := None |}.

Definition can_open_new_exposure (r : Readiness) : bool :=
  match state r with Ready => true | _ => false end.

Definition allowed (from to : ReadinessState) : bool :=
  match from, to with
  | Starting, (Connecting | Halted) => true
  | Connecting, (Reconciling | Degraded | Halted) => true
  | Reconciling, (Ready | Degraded | Halted) => true
  | Ready, (Reconciling | Degraded | Halted) => true
  | Degraded, (Connecting | Reconciling | Halted) => true
  | Halted, Connecting => true
  | _, _ => false
  end.

(** [transition] on [&mut self]: the old value is kept when the change is refused. *)
Definition transition (target : ReadinessState) (why : option string) : st Readiness ReadinessError () :=
  λ self,
  if negb (bool_decide (state self = target)) && negb (allowed (state self) target)
  then (self, Err {| from := state self; to := target |})
  else ({| state := target; reason := why |}, Ok tt).

(** A sequence of requested transitions, applied whether or not each is accepted. *)
Definition drive (self : Readiness) (requests : list (ReadinessState * option string)) : Readiness :=
  foldl (λ r '(t, w), (transition t w r).1) self requests.

Lemma transition_state t w r :
  state (transition t w r).1 = state r ∨
  state (transition t w r).1 = t ∧ allowed (state r) t = true.
Proof.
  unfold transition. case_bool_decide; simpl; [by left|].
  destruct (allowed (state r) t) eqn:?; simpl; auto.
Qed.

(** The states from which exposure was not permitted and no reconciliation has run. *)
Definition unreconciled (s : ReadinessState) : bool :=
  match s with Reconciling | Ready => false | _ => true end.

Lemma drive_unreconciled requests r :
  unreconciled (state r) = true →
  (∀ w, (Reconciling, w) ∉ requests) →
  unreconciled (state (drive r requests)) = true.
Proof.
  revert r. induction requests as [|[t w] l IH]; simpl; intros r Hr Hno; [done|].
  apply IH; [|set_solver].
  destruct (transition_state t w r) as [->|[-> Ha]]; [done|].
  assert (t ≠ Reconciling) by (intros ->; by apply (Hno w), elem_of_cons; left).
  by destruct (state r), t.
Qed.
End Readiness.

(** ** execution.rs: commands *)

Inductive ExecutionMutationState :=
| NotDispatchedState | Dispatching | AcknowledgedState | RejectedState
| UnknownAfterDispatchState | ReconciledNonTerminal | ReconciledTerminal.

Definition permits_dispatch_state (s : ExecutionMutationState) : bool :=
  match s with NotDispatchedState => true | _ => false end.

Definition requires_authoritative_reconciliation (s : ExecutionMutationState) : bool :=
  match s with UnknownAfterDispatchState => true | _ => false end.

Inductive PositionSide := Long | Short.
Inductive OrderSide := Buy | Sell.
Inductive RegularOrderType := Limit | Market | BestPrice.
Inductive TimeInForce := Day | FillAndKill | FillOrKill.
Inductive ExecutionPriceConvention := SettlementCurrency | Points.
Inductive ProviderOrderIdentityKind := BrokerOrder | ClientRequest.
Inductive TrailingDistanceMode := AbsolutePrice | RelativePercent.

#[export] Instance PositionSide_eq_dec : EqDecision PositionSide.
Proof. solve_decision. Defined.
#[export] Instance OrderSide_eq_dec : EqDecision OrderSide.
Proof. solve_decision. Defined.
#[export] Instance RegularOrderType_eq_dec : EqDecision RegularOrderType.
Proof. solve_decision. Defined.
#[export] Instance TimeInForce_eq_dec : EqDecision TimeInForce.
Proof. solve_decision. Defined.
#[export] Instance ExecutionPriceConvention_eq_dec : EqDecision ExecutionPriceConvention.
Proof. solve_decision. Defined.
#[export] Instance ProviderOrderIdentityKind_eq_dec : EqDecision ProviderOrderIdentityKind.
Proof. solve_decision. Defined.
#[export] Instance TrailingDistanceMode_eq_dec : EqDecision TrailingDistanceMode.
Proof. solve_decision. Defined.

Record RegularOrderCommand := {
  ro_account_id : string;
  ro_instrument_id : string;
  ro_client_request_id : string;
  ro_quantity_lots : Z;
  ro_price : option FixedPoint;
  ro_price_convention : ExecutionPriceConvention;
  ro_side : OrderSide;
  ro_order_type : RegularOrderType;
  ro_time_in_force : option TimeInForce;
  ro_confirm_margin_trade : bool;
}.

Record ReplaceOrderCommand := {
  rp_account_id : string;
  rp_existing_order_id : string;
  rp_existing_order_id_kind : option ProviderOrderIdentityKind;
  rp_replacement_request_id : string;
  rp_quantity_lots : Z;
  rp_price : FixedPoint;
  rp_price_convention : ExecutionPriceConvention;
  rp_confirm_margin_trade : bool;
}.

Record CancelOrderCommand := {
  co_account_id : string;
  co_order_id : string;
  co_order_id_kind : option ProviderOrderIdentityKind;
}.

Record CancelStopOrderCommand := {
  cs_account_id : string;
  cs_broker_stop_order_id : string;
}.

Record TrailingDistance := { td_value : FixedPoint; td_mode : TrailingDistanceMode }.

Inductive StopLossProtection :=
| FixedStop (trigger_price : FixedPoint) (limit_price : option FixedPoint)
| Trailing (distance : TrailingDistance) (activation_price : option FixedPoint)
    (protective_spread : option TrailingDistance) (instant_execution : option bool).

Record TakeProfitProtection := {
  tp_trigger_price : option FixedPoint;
  tp_limit_price : option FixedPoint;
  tp_trailing : option TrailingDistance;
}.

Inductive ProtectionLeg :=
| StopLoss (s : StopLossProtection)
| TakeProfit (t : TakeProfitProtection).

Record ProtectionLegCommand := {
  pl_account_id : string;
  pl_instrument_id : string;
  pl_client_request_id : string;
  pl_quantity_lots : Z;
  pl_position_side : PositionSide;
  pl_price_convention : ExecutionPriceConvention;
  pl_reference_price : FixedPoint;
  pl_expire_at_unix_seconds : option Z;
  pl_expire_at_nanos : option Z;
  pl_confirm_margin_trade : bool;
  pl_leg : ProtectionLeg;
}.

Inductive RuntimeExecutionCommand :=
| RegularOrder (c : RegularOrderCommand)
| PostOrderAsync (c : RegularOrderCommand)
| ReplaceOrder (c : ReplaceOrderCommand)
| CancelOrder (c : CancelOrderCommand)
| PostStopOrder (c : ProtectionLegCommand)
| CancelStopOrder (c : CancelStopOrderCommand)
| ProtectionLegC (c : ProtectionLegCommand).

#[export] Instance RegularOrderCommand_eq_dec : EqDecision RegularOrderCommand.
Proof. solve_decision. Defined.
#[export] Instance ReplaceOrderCommand_eq_dec : EqDecision ReplaceOrderCommand.
Proof. solve_decision. Defined.
#[export] Instance CancelOrderCommand_eq_dec : EqDecision CancelOrderCommand.
Proof. solve_decision. Defined.
#[export] Instance CancelStopOrderCommand_eq_dec : EqDecision CancelStopOrderCommand.
Proof. solve_decision. Defined.
#[export] Instance TrailingDistance_eq_dec : EqDecision TrailingDistance.
Proof. solve_decision. Defined.
#[export] Instance StopLossProtection_eq_dec : EqDecision StopLossProtection.
Proof. solve_decision. Defined.
#[export] Instance TakeProfitProtection_eq_dec : EqDecision TakeProfitProtection.
Proof. solve_decision. Defined.
#[export] Instance ProtectionLeg_eq_dec : EqDecision ProtectionLeg.
Proof. solve_decision. Defined.
#[export] Instance ProtectionLegCommand_eq_dec : EqDecision ProtectionLegCommand.
Proof. solve_decision. Defined.
#[export] Instance RuntimeExecutionCommand_eq_dec : EqDecision RuntimeExecutionCommand.
Proof. solve_decision. Defined.

(** ** execution.rs: protection capability *)

Record ProtectionPlan := {
  pp_stop_loss : option StopLossProtection;
  pp_take_profit : option TakeProfitProtection;
}.

Record ProtectionCapability := {
  pc_fixed_stop : bool;
  pc_native_trailing_relative : bool;
  pc_native_trailing_absolute : bool;
  pc_take_profit : bool;
  pc_stop_limit : bool;
}.

Inductive ProtectionCapabilityError :=
| FixedStopUnsupported | StopLimitUnsupported | TakeProfitUnsupported
| NativeRelativeTrailingUnsupported | NativeAbsoluteTrailingUnsupported.

#[export] Instance ProtectionCapabilityError_eq_dec : EqDecision ProtectionCapabilityError.
Proof. solve_decision. Defined.

Definition validate_trailing (self : ProtectionCapability) (mode : TrailingDistanceMode)
  : result ProtectionCapabilityError () :=
  match mode with
  | RelativePercent =>
      if negb (pc_native_trailing_relative self) then Err NativeRelativeTrailingUnsupported else Ok tt
  | AbsolutePrice =>
      if negb (pc_native_trailing_absolute self) then Err NativeAbsoluteTrailingUnsupported else Ok tt
  end.

Definition validate_stop_loss (self : ProtectionCapability) (stop : StopLossProtection)
  : result ProtectionCapabilityError () :=
  match stop with
  | FixedStop _ limit_price =>
      if negb (pc_fixed_stop self) then Err FixedStopUnsupported
      else if bool_decide (is_Some limit_price) && negb (pc_stop_limit self)
      then Err StopLimitUnsupported else Ok tt
  | Trailing distance _ _ _ => validate_trailing self (td_mode distance)
  end.

Definition validate_take_profit (self : ProtectionCapability) (tp : TakeProfitProtection)
  : result ProtectionCapabilityError () :=
  if negb (pc_take_profit self) then Err TakeProfitUnsupported
  else if bool_decide (is_Some (tp_limit_price tp)) && negb (pc_stop_limit self)
  then Err StopLimitUnsupported
  else match tp_trailing tp with
       | Some trailing => validate_trailing self (td_mode trailing)
       | None => Ok tt
       end.

Definition validate (self : ProtectionCapability) (plan : ProtectionPlan)
  : result ProtectionCapabilityError () :=
  let? _ := match pp_stop_loss plan with
            | Some stop => validate_stop_loss self stop
            | None => Ok tt
            end in
  match pp_take_profit plan with
  | Some tp => validate_take_profit self tp
  | None => Ok tt
  end.

(** ** execution.rs: protection establishment and the trailing reference *)

Inductive ProtectionEstablishmentState :=
| AwaitingEntry
| EntryPartiallyFilled (filled_lots protected_lots : Z)
| Establishing
| ActiveProtection
| FailedAfterEntry (reason : string)
| UnknownAfterDispatchProtection
| ReconciliationRequired
| ClosingPosition
| OrphanedProtection
| TerminalProtection.

Definition permits_additional_exposure (s : ProtectionEstablishmentState) : bool :=
  match s with ActiveProtection => true | _ => false end.

Record TrailingSemanticReference := {
  ts_side : PositionSide;
  ts_distance : TrailingDistance;
  ts_favorable_extreme : FixedPoint;
}.

Definition TrailingSemanticReference_new (side : PositionSide) (reference : FixedPoint)
    (distance : TrailingDistance) : TrailingSemanticReference :=
  {| ts_side := side; ts_distance := distance; ts_favorable_extreme := reference |}.

Definition observe (self : TrailingSemanticReference) (price : FixedPoint) : TrailingSemanticReference :=
  let favorable :=
    match ts_side self with
    | Long => total_nanos (ts_favorable_extreme self) <? total_nanos price
    | Short => total_nanos price <? total_nanos (ts_favorable_extreme self)
    end in
  if favorable
  then {| ts_side := ts_side self; ts_distance := ts_distance self; ts_favorable_extreme := price |}
  else self.

Definition threshold (self : TrailingSemanticReference) : option FixedPoint :=
  let extreme := total_nanos (ts_favorable_extreme self) in
  let distance := total_nanos (td_value (ts_distance self)) in
  delta ← match td_mode (ts_distance self) with
          | AbsolutePrice => Some distance
          | RelativePercent =>
              product ← checked_mul I128 extreme distance;
              checked_div I128 product 100000000000
          end;
  level ← match ts_side self with
          | Long => checked_sub I128 extreme delta
          | Short => checked_add I128 extreme delta
           end;
  Some (from_total_nanos level).

(** ** Specification of a protection plan

    The features a plan uses, in the order the provider capability is asked for
    them, each named by the error that reports its absence. *)

Definition trailing_feature (mode : TrailingDistanceMode) : ProtectionCapabilityError :=
  match mode with
  | RelativePercent => NativeRelativeTrailingUnsupported
  | AbsolutePrice => NativeAbsoluteTrailingUnsupported
  end.

Definition limit_feature (limit : option FixedPoint) : list ProtectionCapabilityError :=
  match limit with Some _ => [StopLimitUnsupported] | None => [] end.

Definition stop_features (s : StopLossProtection) : list ProtectionCapabilityError :=
  match s with
  | FixedStop _ limit => FixedStopUnsupported :: limit_feature limit
  | Trailing d _ _ _ => [trailing_feature (td_mode d)]
  end.

Definition take_profit_features (t : TakeProfitProtection) : list ProtectionCapabilityError :=
  TakeProfitUnsupported :: limit_feature (tp_limit_price t)
    ++ match tp_trailing t with Some d => [trailing_feature (td_mode d)] | None => [] end.

Definition plan_features (plan : ProtectionPlan) : list ProtectionCapabilityError :=
  match pp_stop_loss plan with Some s => stop_features s | None => [] end
    ++ match pp_take_profit plan with Some t => take_profit_features t | None => [] end.

Definition supports (c : ProtectionCapability) (f : ProtectionCapabilityError) : bool :=
  match f with
  | FixedStopUnsupported => pc_fixed_stop c
  | StopLimitUnsupported => pc_stop_limit c
  | TakeProfitUnsupported => pc_take_profit c
  | NativeRelativeTrailingUnsupported => pc_native_trailing_relative c
  | NativeAbsoluteTrailingUnsupported => pc_native_trailing_absolute c
  end.

(** The first feature of the list the capability lacks. *)
Definition first_missing (c : ProtectionCapability) (fs : list ProtectionCapabilityError)
  : result ProtectionCapabilityError () :=
  match List.find (λ f, negb (supports c f)) fs with Some f => Err f | None => Ok tt end.

Lemma first_missing_app c l1 l2 :
  first_missing c (l1 ++ l2) = let? _ := first_missing c l1 in first_missing c l2.
Proof.
  unfold first_missing. induction l1 as [|f l1 IH]; simpl; [done|].
  by destruct (supports c f).
Qed.

Lemma validate_stop_loss_missing c s : validate_stop_loss c s = first_missing c (stop_features s).
Proof.
  unfold first_missing. destruct s as [? [?|]|d ???]; simpl.
  - destruct (pc_fixed_stop c), (pc_stop_limit c); reflexivity.
  - destruct (pc_fixed_stop c); reflexivity.
  - unfold validate_trailing. destruct (td_mode d); simpl; by case_match.
Qed.

Lemma validate_take_profit_missing c t :
  validate_take_profit c t = first_missing c (take_profit_features t).
Proof.
  unfold validate_take_profit, validate_trailing, first_missing, take_profit_features.
  destruct t as [? [?|] [d|]]; simpl; try destruct (td_mode d); simpl;
    destruct (pc_take_profit c); simpl; try done;
    destruct (pc_stop_limit c); simpl; try done; by case_match.
Qed.

(** ** Trailing thresholds *)

Notation percent_scale := 100000000000 (only parsing).

Lemma percent_quot_mono x y : x ≤ y → Z.quot x percent_scale ≤ Z.quot y percent_scale.
Proof. intros. apply Z.quot_le_mono; lia. Qed.

Lemma percent_quot_shift x m :
  0 ≤ m → Z.quot (x + m * percent_scale) percent_scale ≤ Z.quot x percent_scale + m.
Proof. intros. Z.to_euclidean_division_equations. lia. Qed.

(** The part of the extreme a trailing distance gives back. *)
Definition trailing_delta (d : TrailingDistance) (extreme : Z) : Z :=
  match td_mode d with
  | AbsolutePrice => total_nanos (td_value d)
  | RelativePercent => Z.quot (extreme * total_nanos (td_value d)) percent_scale
  end.

Definition trailing_level (side : PositionSide) (d : TrailingDistance) (extreme : Z) : Z :=
  match side with
  | Long => extreme - trailing_delta d extreme
  | Short => extreme + trailing_delta d extreme
  end.

(** A relative distance lies between nothing and the whole price. *)
Definition distance_valid (d : TrailingDistance) : Prop :=
  td_mode d = RelativePercent → 0 ≤ total_nanos (td_value d) ≤ percent_scale.

Lemma threshold_level r t :
  threshold r = Some t →
  total_nanos t = trailing_level (ts_side r) (ts_distance r) (total_nanos (ts_favorable_extreme r)).
Proof.
  unfold threshold, trailing_level, trailing_delta, checked_div.
  intros H. destruct (td_mode _); simplify_option_eq; destruct (ts_side r); prop_tests; subst; done.
Qed.

Lemma trailing_level_mono side d a b :
  distance_valid d → a ≤ b → trailing_level side d a ≤ trailing_level side d b.
Proof.
  unfold distance_valid, trailing_level, trailing_delta. intros Hd Hab.
  destruct (td_mode d); [destruct side; lia|]. specialize (Hd eq_refl).
  set (v := total_nanos (td_value d)) in *.
  assert (Z.quot (a * v) percent_scale ≤ Z.quot (b * v) percent_scale)
    by (apply percent_quot_mono; nia).
  assert (Z.quot (b * v) percent_scale ≤ Z.quot (a * v) percent_scale + (b - a)).
  { etransitivity; [|by apply percent_quot_shift; lia]. apply percent_quot_mono. nia. }
  destruct side; lia.
Qed.

Definition observe_all (r : TrailingSemanticReference) (prices : list FixedPoint) :=
  foldl observe r prices.

(** Observations move the extreme only in the position's favour. *)
Definition favourable (r r' : TrailingSemanticReference) : Prop :=
  ts_side r' = ts_side r ∧ ts_distance r' = ts_distance r ∧
  match ts_side r with
  | Long => total_nanos (ts_favorable_extreme r) ≤ total_nanos (ts_favorable_extreme r')
  | Short => total_nanos (ts_favorable_extreme r') ≤ total_nanos (ts_favorable_extreme r)
  end.

#[export] Instance favourable_preorder : PreOrder favourable.
Proof.
  split.
  - intros r. unfold favourable. destruct (ts_side r); repeat split; lia.
  - intros r1 r2 r3 (Hs & Hd & H) (Hs' & Hd' & H'). unfold favourable.
    rewrite Hs', Hd', Hs, Hd. rewrite Hs in H'. destruct (ts_side r1); repeat split; lia.
Qed.

Lemma observe_favourable r p : favourable r (observe r p).
Proof.
  unfold favourable, observe. destruct (ts_side r) eqn:Hside; case_match; simpl;
    repeat split; try done; lia.
Qed.

Lemma observe_all_favourable prices r : favourable r (observe_all r prices).
Proof.
  revert r. induction prices as [|p l IH]; intros r; [reflexivity|].
  transitivity (observe r p); [apply observe_favourable|apply IH].
Qed.

(** ** Properties *)

(** Readiness is earned: whatever sequence of transitions is requested from a
    state that does not permit exposure and is not reconciling (the initial state
    among them), new exposure becomes possible only if the sequence passes through
    a request to reconcile; refused requests change nothing. *)
Lemma readiness_needs_reconciliation (r : Readiness.Readiness)
    (requests : list (Readiness.ReadinessState * option string)) :
  Readiness.unreconciled (Readiness.state r) = true →
  Readiness.can_open_new_exposure (Readiness.drive r requests) = true →
  ∃ w, (Readiness.Reconciling, w) ∈ requests.
Proof.
  intros Hr Hopen.
  destruct (decide (Readiness.Reconciling ∈ requests.*1)) as [Hin|Hno].
  - apply list_elem_of_fmap in Hin as [[t w] [-> Hin]]. by exists w.
  - assert (Readiness.unreconciled (Readiness.state (Readiness.drive r requests)) = true) as Hun.
    { apply Readiness.drive_unreconciled; [done|]. intros w Hw. apply Hno.
      by apply (list_elem_of_fmap_2 fst) in Hw. }
    unfold Readiness.can_open_new_exposure in Hopen.
    by destruct (Readiness.state (Readiness.drive r requests)).
Qed.

Lemma readiness_needs_reconciliation_witness :
  ∃ w, (Readiness.Reconciling, w) ∈
    [(Readiness.Ready, None); (Readiness.Connecting, None);
     (Readiness.Reconciling, Some "startup"); (Readiness.Ready, None)].
Proof.
  apply (readiness_needs_reconciliation Readiness.default); reflexivity.
Defined.

(** C40. A protection plan is accepted exactly when the provider supports every
    feature it uses, and a refusal names the first unsupported feature in the
    order stop loss, then take profit. *)
Theorem protection_validate_complete (c : ProtectionCapability) (plan : ProtectionPlan) :
  validate c plan = first_missing c (plan_features plan) ∧
  (validate c plan = Ok tt ↔ Forall (λ f, supports c f = true) (plan_features plan)).
Proof.
  assert (validate c plan = first_missing c (plan_features plan)) as Hv.
  { unfold validate, plan_features. rewrite first_missing_app.
    destruct (pp_stop_loss plan), (pp_take_profit plan);
      rewrite ?validate_stop_loss_missing, ?validate_take_profit_missing; done. }
  split; [done|]. rewrite Hv. clear Hv. unfold first_missing.
  induction (plan_features plan) as [|f fs IH]; simpl; [by split; constructor|].
  rewrite Forall_cons. destruct (supports c f); simpl; [rewrite IH; naive_solver|naive_solver].
Qed.

(** A trailing stop ratchets: for any sequence of observed prices, the
    threshold computed afterwards is never below the earlier one for a long
    position and never above it for a short one, for absolute distances and for
    relative distances between 0% and 100%, truncation of the percentage included. *)
Theorem trailing_threshold_ratchets (r : TrailingSemanticReference) (prices : list FixedPoint) t t' :
  distance_valid (ts_distance r) →
  threshold r = Some t → threshold (observe_all r prices) = Some t' →
  match ts_side r with
  | Long => total_nanos t ≤ total_nanos t'
  | Short => total_nanos t' ≤ total_nanos t
  end.
Proof.
  intros Hd ->%threshold_level ->%threshold_level.
  destruct (observe_all_favourable prices r) as (-> & -> & Hm).
  destruct (ts_side r); by apply trailing_level_mono.
Qed.

Lemma trailing_threshold_ratchets_witness :
  total_nanos (Fixed 98010000000) ≤ total_nanos (Fixed 118800000000).
Proof.
  apply (trailing_threshold_ratchets
    (TrailingSemanticReference_new Long (Fixed 99000000000)
       {| td_value := Fixed 1000000000; td_mode := RelativePercent |})
    [Fixed 120000000000; Fixed 90000000000]).
  - intros _. split; vm_compute; discriminate.
  - vm_compute; reflexivity.
  - vm_compute; reflexivity.
Defined.
