(* ===== verification/Mutation.v ===== *)
(** * Mutation evidence and restart recovery: [crates/vox-domain/src/mutation.rs]

    Evidence of a broker mutation is persisted as UNKNOWN before the mutation is
    sent and resolved only from an authoritative observation. The durable store is
    the trait [MutationEvidenceStore]: an interface here, a class of operations
    with the laws its documentation demands (compare-and-set on the identity and
    on the expected evidence; a call that reports an error may or may not have
    committed). [MutationRecovery] is proved against the interface, for processes
    that share one store, interleave at its atomic calls and restart at any
    point. *)
From S2P Require Import Prelude Domain.

Inductive MutationOutcome := NotDispatched | Accepted | Rejected | Unknown.
Inductive AuthoritativeMutationOutcome := AuthAccepted | AuthRejected.

#[export] Instance MutationOutcome_eq_dec : EqDecision MutationOutcome.
Proof. solve_decision. Defined.

Definition into_outcome (o : AuthoritativeMutationOutcome) : MutationOutcome :=
  match o with AuthAccepted => Accepted | AuthRejected => Rejected end.

Record MutationEvidence := {
  me_client_request_id : ClientRequestId;
  me_outcome : MutationOutcome;
  me_broker_order_id : option BrokerOrderId;
  me_broker_stop_order_id : option BrokerStopOrderId;
  me_exchange_order_id : option ExchangeOrderId;
  me_provider_operation_id : option string;
  me_correlation_id : option string;
}.

#[export] Instance MutationEvidence_eq_dec : EqDecision MutationEvidence.
Proof. solve_decision. Defined.

Definition prepared (id : ClientRequestId) : MutationEvidence :=
  {| me_client_request_id := id; me_outcome := NotDispatched; me_broker_order_id := None;
     me_broker_stop_order_id := None; me_exchange_order_id := None;
     me_provider_operation_id := None; me_correlation_id := None |}.

Definition dispatched_unknown (e : MutationEvidence) (correlation_id : option string) : MutationEvidence :=
  {| me_client_request_id := me_client_request_id e; me_outcome := Unknown;
     me_broker_order_id := me_broker_order_id e;
     me_broker_stop_order_id := me_broker_stop_order_id e;
     me_exchange_order_id := me_exchange_order_id e;
     me_provider_operation_id := me_provider_operation_id e;
     me_correlation_id := correlation_id |}.

Definition with_broker_order_id (e : MutationEvidence) (id : BrokerOrderId) : MutationEvidence :=
  {| me_client_request_id := me_client_request_id e; me_outcome := me_outcome e;
     me_broker_order_id := Some id;
     me_broker_stop_order_id := me_broker_stop_order_id e;
     me_exchange_order_id := me_exchange_order_id e;
     me_provider_operation_id := me_provider_operation_id e;
     me_correlation_id := me_correlation_id e |}.

Definition with_exchange_order_id (e : MutationEvidence) (id : ExchangeOrderId) : MutationEvidence :=
  {| me_client_request_id := me_client_request_id e; me_outcome := me_outcome e;
     me_broker_order_id := me_broker_order_id e;
     me_broker_stop_order_id := me_broker_stop_order_id e;
     me_exchange_order_id := Some id;
     me_provider_operation_id := me_provider_operation_id e;
     me_correlation_id := me_correlation_id e |}.

Definition with_broker_stop_order_id (e : MutationEvidence) (id : BrokerStopOrderId) : MutationEvidence :=
  {| me_client_request_id := me_client_request_id e; me_outcome := me_outcome e;
     me_broker_order_id := me_broker_order_id e;
     me_broker_stop_order_id := Some id;
     me_exchange_order_id := me_exchange_order_id e;
     me_provider_operation_id := me_provider_operation_id e;
     me_correlation_id := me_correlation_id e |}.

Definition with_provider_operation_id (e : MutationEvidence) (id : string) : MutationEvidence :=
  {| me_client_request_id := me_client_request_id e; me_outcome := me_outcome e;
     me_broker_order_id := me_broker_order_id e;
     me_broker_stop_order_id := me_broker_stop_order_id e;
     me_exchange_order_id := me_exchange_order_id e;
     me_provider_operation_id := Some id;
     me_correlation_id := me_correlation_id e |}.

(** The assignment [evidence.outcome = outcome]. *)
Definition with_outcome (e : MutationEvidence) (o : MutationOutcome) : MutationEvidence :=
  {| me_client_request_id := me_client_request_id e; me_outcome := o;
     me_broker_order_id := me_broker_order_id e;
     me_broker_stop_order_id := me_broker_stop_order_id e;
     me_exchange_order_id := me_exchange_order_id e;
     me_provider_operation_id := me_provider_operation_id e;
     me_correlation_id := me_correlation_id e |}.

(** ** The store interface *)

(** [StoreError] carries a message. *)
Definition StoreError : Type := string.

Class MutationEvidenceStore (S : Type) := {
  load : S → ClientRequestId → result StoreError (option MutationEvidence);
  claim_dispatch : MutationEvidence → st S StoreError bool;
  resolve_unknown : MutationEvidence → MutationEvidence → st S StoreError bool;
}.

(** The durable content of a store after [evidence] replaced what its identity held. *)
Definition stored_as (evidence : MutationEvidence)
    (before after : ClientRequestId → option MutationEvidence) : Prop :=
  ∀ id, after id = if bool_decide (id = me_client_request_id evidence) then Some evidence else before id.

Definition claimable (o : option MutationEvidence) : bool :=
  match o with
  | None => true
  | Some e => bool_decide (me_outcome e = NotDispatched)
  end.

Class EvidenceStoreLaws (S : Type) `{!MutationEvidenceStore S} := {
  recorded : S → ClientRequestId → option MutationEvidence;
  recorded_id s id e : recorded s id = Some e → me_client_request_id e = id;
  load_recorded s id o : load s id = Ok o → o = recorded s id;
  claim_true s s' e : claim_dispatch e s = (s', Ok true) →
    claimable (recorded s (me_client_request_id e)) = true ∧ stored_as e (recorded s) (recorded s');
  claim_false s s' e : claim_dispatch e s = (s', Ok false) →
    claimable (recorded s (me_client_request_id e)) = false ∧ recorded s' = recorded s;
  claim_err s s' e m : claim_dispatch e s = (s', Err m) →
    recorded s' = recorded s ∨
    claimable (recorded s (me_client_request_id e)) = true ∧ stored_as e (recorded s) (recorded s');
  resolve_true s s' x e : resolve_unknown x e s = (s', Ok true) →
    recorded s (me_client_request_id x) = Some x ∧ stored_as e (recorded s) (recorded s');
  resolve_false s s' x e : resolve_unknown x e s = (s', Ok false) → recorded s' = recorded s;
  resolve_err s s' x e m : resolve_unknown x e s = (s', Err m) →
    recorded s' = recorded s ∨
    recorded s (me_client_request_id x) = Some x ∧ stored_as e (recorded s) (recorded s');
}.

(** ** [MutationRecovery] *)

Inductive MutationDecision := Submit | Reconcile | DoNotSubmit.

(** [{:?}] of an outcome. *)
Definition outcome_debug (o : MutationOutcome) : string :=
  match o with
  | NotDispatched => "NotDispatched"
  | Accepted => "Accepted"
  | Rejected => "Rejected"
  | Unknown => "Unknown"
  end.

Section recovery.
Context {S : Type} `{!MutationEvidenceStore S}.

Definition decision (s : S) (id : ClientRequestId) : result StoreError MutationDecision :=
  let? o := load s id in
  Ok match o with
     | None => Submit
     | Some e =>
         match me_outcome e with
         | NotDispatched => Submit
         | Unknown => Reconcile
         | _ => DoNotSubmit
         end
     end.

Definition persist_before_dispatch (id : ClientRequestId) (correlation_id : option string)
  : st S StoreError MutationEvidence :=
  let evidence := dispatched_unknown (prepared id) correlation_id in
  let! claimed := claim_dispatch evidence in
  if claimed then st_ret evidence
  else st_fail "mutation identity already dispatched; reconcile instead of resubmitting".

(** The part of [persist_authoritative_outcome] after its read: other processes
    may have changed the store since [stored] was loaded. *)
Definition authoritative_from (stored evidence : MutationEvidence)
    (authoritative_outcome : AuthoritativeMutationOutcome) : st S StoreError MutationEvidence :=
  let outcome := into_outcome authoritative_outcome in
  match me_outcome stored with
  | Accepted | Rejected =>
      if bool_decide (stored = evidence) && bool_decide (me_outcome stored = outcome)
      then st_ret stored
      else st_fail "terminal mutation evidence is immutable"
  | NotDispatched => 
      st_fail ("authoritative outcome cannot resolve " +:+ outcome_debug (me_outcome stored) +:+ " evidence")
  | Unknown =>
      let evidence' := with_outcome evidence outcome in
      let! resolved := resolve_unknown stored evidence' in
      if resolved then st_ret evidence'
      else st_fail "mutation evidence changed during authoritative reconciliation"
  end.

Definition persist_authoritative_outcome (evidence : MutationEvidence)
    (authoritative_outcome : AuthoritativeMutationOutcome) : st S StoreError MutationEvidence :=
  let! s := st_get in
  let! found := st_lift (load s (me_client_request_id evidence)) in
  let! stored := st_lift (ok_or found "mutation dispatch evidence is not persisted") in
  authoritative_from stored evidence authoritative_outcome.

Definition resolve_order_accepted (id : ClientRequestId) (broker_order_id : BrokerOrderId)
  : st S StoreError MutationEvidence :=
  let! s := st_get in
  let! found := st_lift (load s id) in
  let! stored := st_lift (ok_or found "mutation dispatch evidence is not persisted") in
  if bool_decide (me_outcome stored = Unknown)
  then persist_authoritative_outcome (with_broker_order_id stored broker_order_id) AuthAccepted
  else st_fail ("authoritative order readback cannot resolve "
                +:+ outcome_debug (me_outcome stored) +:+ " evidence").

(** ** Runs of several processes over one store

    A step is one atomic store call of one process: a claim, or the
    compare-and-set of a process that loaded [stored] at some earlier time. *)
Inductive recovery_step : S → S → Prop :=
| step_claim id corr s s' r :
    persist_before_dispatch id corr s = (s', r) → recovery_step s s'
| step_resolve stored evidence out s s' r :
    me_client_request_id stored = me_client_request_id evidence →
    authoritative_from stored evidence out s = (s', r) → recovery_step s s'.
End recovery.

Section laws.
Context {S : Type} `{!MutationEvidenceStore S} `{!EvidenceStoreLaws S}.

(** How the record of one identity may evolve. *)
Inductive evolves : option MutationEvidence → option MutationEvidence → Prop :=
| evolves_same o : evolves o o
| evolves_claim o e : claimable o = true → me_outcome e = Unknown → evolves o (Some e)
| evolves_resolve x e :
    me_outcome x = Unknown → (me_outcome e = Accepted ∨ me_outcome e = Rejected) →
    evolves (Some x) (Some e).

Lemma stored_as_evolves e id (f g : ClientRequestId → option MutationEvidence) :
  stored_as e f g → evolves (f (me_client_request_id e)) (Some e) → evolves (f id) (g id).
Proof.
  intros Hst Hev. rewrite (Hst id). case_bool_decide; [by subst|constructor].
Qed.

Lemma persist_before_dispatch_evolves id0 corr (s s' : S) r id :
  persist_before_dispatch id0 corr s = (s', r) → evolves (recorded s id) (recorded s' id).
Proof.
  unfold persist_before_dispatch. st_unfold.
  destruct (claim_dispatch _ s) as [s1 [[|]|m]] eqn:Hc; intros [= <- <-].
  - apply claim_true in Hc as [Hcl Hst].
    eapply stored_as_evolves; [done|]. by constructor.
  - apply claim_false in Hc as [_ ->]. constructor.
  - apply claim_err in Hc as [->|[Hcl Hst]]; [constructor|].
    eapply stored_as_evolves; [done|]. by constructor.
Qed.

Lemma authoritative_from_evolves stored evidence out (s s' : S) r id :
  me_client_request_id stored = me_client_request_id evidence →
  authoritative_from stored evidence out s = (s', r) → evolves (recorded s id) (recorded s' id).
Proof.
  intros Hid. unfold authoritative_from. st_unfold.
  destruct (me_outcome stored) eqn:Ho; try (intros; branches; constructor).
  assert (∀ f : ClientRequestId → option MutationEvidence, f (me_client_request_id stored) = Some stored →
    evolves (f (me_client_request_id (with_outcome evidence (into_outcome out))))
            (Some (with_outcome evidence (into_outcome out)))) as Hres.
  { intros f Hf. simpl. rewrite <- Hid, Hf. apply evolves_resolve; [done|].
    destruct out; auto. }
  destruct (resolve_unknown _ _ s) as [s1 [[|]|m]] eqn:Hc; intros [= <- <-].
  - apply resolve_true in Hc as [Hf Hst]. eapply stored_as_evolves; [done|by apply Hres].
  - apply resolve_false in Hc as ->. constructor.
  - apply resolve_err in Hc as [->|[Hf Hst]]; [constructor|]. eapply stored_as_evolves; [done|by apply Hres].
Qed.

Lemma recovery_step_evolves (s s' : S) id : recovery_step s s' → evolves (recorded s id) (recorded s' id).
Proof.
  intros [id0 corr s0 s0' r H|stored ev out s0 s0' r Hid H].
  - by eapply persist_before_dispatch_evolves.
  - by eapply authoritative_from_evolves.
Qed.

(** Once dispatched, an identity stays dispatched; once terminal, its evidence is frozen. *)
Lemma run_dispatched (s s' : S) id :
  rtc recovery_step s s' → claimable (recorded s id) = false → claimable (recorded s' id) = false.
Proof.
  intros Hrun. apply (rtc_invariant recovery_step (λ x, claimable (recorded x id) = false)); [|done].
  intros x y Hxy Hx. apply (recovery_step_evolves _ _ id) in Hxy.
  inversion Hxy as [|o e Hcl|x0 e Hu Ho]; simplify_eq; [congruence|congruence|].
  simpl. apply bool_decide_eq_false. destruct Ho as [-> | ->]; done.
Qed.

Lemma run_terminal (s s' : S) id e :
  rtc recovery_step s s' → recorded s id = Some e →
  (me_outcome e = Accepted ∨ me_outcome e = Rejected) → recorded s' id = Some e.
Proof.
  intros Hrun He Ho.
  apply (rtc_invariant recovery_step (λ x, recorded x id = Some e) s); [|done|done].
  intros x y Hxy Hx. apply (recovery_step_evolves _ _ id) in Hxy. rewrite Hx in Hxy.
  inversion Hxy as [|o e' Hcl|x0 e' Hu]; subst; [done| |]; exfalso.
  - simpl in Hcl. apply bool_decide_eq_true in Hcl. destruct Ho; congruence.
  - destruct Ho; congruence.
Qed.

Lemma persist_before_dispatch_ok id corr (s s' : S) e :
  persist_before_dispatch id corr s = (s', Ok e) →
  e = dispatched_unknown (prepared id) corr ∧
  claimable (recorded s id) = true ∧ recorded s' id = Some e.
Proof.
  unfold persist_before_dispatch. st_unfold.
  destruct (claim_dispatch _ s) as [s1 [[|]|m]] eqn:Hc; intros [= <- <-].
  apply claim_true in Hc as [Hcl Hst]. repeat split; [done|].
  rewrite (Hst id). simpl. by rewrite bool_decide_eq_true_2.
Qed.

Lemma authoritative_from_ok stored evidence out (s s' : S) e :
  me_client_request_id stored = me_client_request_id evidence →
  recorded s (me_client_request_id evidence) = Some stored →
  authoritative_from stored evidence out s = (s', Ok e) →
  me_outcome e = into_outcome out ∧ recorded s' (me_client_request_id evidence) = Some e.
Proof.
  intros Hid Hrec. unfold authoritative_from. st_unfold.
  destruct (me_outcome stored) eqn:Ho; intros H.
  - done.
  - branches. prop_tests. split; congruence.
  - branches. prop_tests. split; congruence.
  - destruct (resolve_unknown _ _ s) as [s1 [[|]|m]] eqn:Hc; simplify_eq/=.
    apply resolve_true in Hc as [_ Hst]. split; [done|].
    rewrite (Hst (me_client_request_id evidence)). simpl. by rewrite bool_decide_eq_true_2.
Qed.

(** The whole call: its read, then the compare-and-set. *)
Lemma persist_authoritative_ok evidence out (s s' : S) e :
  persist_authoritative_outcome evidence out s = (s', Ok e) →
  me_outcome e = into_outcome out ∧ recorded s' (me_client_request_id evidence) = Some e.
Proof.
  unfold persist_authoritative_outcome. st_unfold. intros H.
  destruct (load s _) as [[stored|]|] eqn:Hl; simplify_eq/=.
  apply load_recorded in Hl. symmetry in Hl.
  apply (authoritative_from_ok stored evidence out s s' e); try done. by apply recorded_id in Hl.
Qed.

Lemma persist_authoritative_steps evidence out (s s' : S) r :
  persist_authoritative_outcome evidence out s = (s', r) → rtc recovery_step s s'.
Proof.
  unfold persist_authoritative_outcome. st_unfold. intros H.
  destruct (load s _) as [[stored|]|] eqn:Hl; simplify_eq/=; [|done..].
  apply rtc_once. eapply step_resolve; [|done]. apply load_recorded in Hl. symmetry in Hl.
  by apply recorded_id in Hl.
Qed.
End laws.

(** ** A store: one list of evidence, unique by identity *)

Definition upsert_evidence (e : MutationEvidence) (l : list MutationEvidence) : list MutationEvidence :=
  e :: List.filter (λ x, negb (by_key me_client_request_id (me_client_request_id e) x)) l.

Definition find_evidence (l : list MutationEvidence) (id : ClientRequestId) : option MutationEvidence :=
  List.find (by_key me_client_request_id id) l.

#[export] Instance list_store : MutationEvidenceStore (list MutationEvidence) := {
  load s id := Ok (find_evidence s id);
  claim_dispatch e s :=
    if claimable (find_evidence s (me_client_request_id e))
    then (upsert_evidence e s, Ok true) else (s, Ok false);
  resolve_unknown x e s :=
    if bool_decide (find_evidence s (me_client_request_id x) = Some x)
    then (upsert_evidence e s, Ok true) else (s, Ok false);
}.

Lemma upsert_stored_as e l : stored_as e (find_evidence l) (find_evidence (upsert_evidence e l)).
Proof.
  intros id. unfold find_evidence, upsert_evidence. simpl.
  assert (by_key me_client_request_id id e = bool_decide (id = me_client_request_id e)) as ->.
  { unfold by_key. by apply bool_decide_ext. }
  case_bool_decide as Hid; [done|].
  induction l as [|x l IH]; simpl; [done|].
  destruct (by_key me_client_request_id (me_client_request_id e) x) eqn:Hx; simpl; rewrite IH.
  - unfold by_key in *. apply bool_decide_eq_true in Hx. rewrite Hx. by rewrite bool_decide_eq_false_2.
  - done.
Qed.

#[export] Instance list_store_laws : EvidenceStoreLaws (list MutationEvidence).
Proof.
  refine {| recorded := find_evidence |}; simpl; intros; repeat case_match; simplify_eq;
    prop_tests; eauto using upsert_stored_as.
  by apply find_by_key in H as [_ ?].
Defined.

(** ** Properties *)

Section claims.
Context {S : Type} `{!MutationEvidenceStore S} `{!EvidenceStoreLaws S}.

(** A mutation is dispatched at most once: when [persist_before_dispatch]
    lets a caller send, UNKNOWN evidence for the identity is already durable, and
    in every state that any number of processes sharing the store can reach
    afterwards, restarts, failed calls and resolutions included, no second claim
    of the identity succeeds and no process is told to submit it. *)
Theorem dispatch_at_most_once id corr (s s1 s2 : S) e :
  persist_before_dispatch id corr s = (s1, Ok e) → rtc recovery_step s1 s2 →
  recorded s1 id = Some e ∧ me_outcome e = Unknown ∧
  (∀ corr' s3 e', persist_before_dispatch id corr' s2 ≠ (s3, Ok e')) ∧
  decision s2 id ≠ Ok Submit.
Proof.
  intros (-> & _ & Hrec)%persist_before_dispatch_ok Hrun.
  assert (claimable (recorded s2 id) = false) as Hno
    by (eapply run_dispatched; [done|by rewrite Hrec]).
  repeat split; [done| |].
  - intros corr' s3 e' (_ & Hcl & _)%persist_before_dispatch_ok. congruence.
  - unfold decision. destruct (load s2 id) as [o|] eqn:Hl; [|done].
    apply load_recorded in Hl as ->. destruct (recorded s2 id) as [x|]; [|done].
    simpl in Hno. apply bool_decide_eq_false in Hno. by destruct (me_outcome x).
Qed.

(** Terminal evidence is final: a call of [persist_authoritative_outcome]
    that succeeds leaves the identity recorded with exactly the authoritative
    outcome, and every state reachable afterwards still records that very
    evidence, so that every later decision is not to submit. *)
Theorem authoritative_outcome_final evidence out (s s1 s2 : S) e :
  persist_authoritative_outcome evidence out s = (s1, Ok e) → rtc recovery_step s1 s2 →
  me_outcome e = into_outcome out ∧
  recorded s2 (me_client_request_id evidence) = Some e ∧
  (∀ d, decision s2 (me_client_request_id evidence) = Ok d → d = DoNotSubmit).
Proof.
  intros [Ho Hrec]%persist_authoritative_ok Hrun.
  assert (recorded s2 (me_client_request_id evidence) = Some e) as Hrec2.
  { eapply run_terminal; [done..|]. rewrite Ho. destruct out; auto. }
  repeat split; [done|done|]. intros d. unfold decision.
  destruct (load s2 _) as [o|] eqn:Hl2; [|done].
  apply load_recorded in Hl2 as ->. rewrite Hrec2, Ho. by destruct out; intros [= <-].
Qed.
End claims.

Definition sample_claim : list MutationEvidence * result StoreError MutationEvidence :=
  persist_before_dispatch "request-1" (Some "correlation-1") [].

Lemma dispatch_at_most_once_witness : decision sample_claim.1 "request-1" ≠ Ok Submit.
Proof.
  destruct (dispatch_at_most_once "request-1" (Some "correlation-1") [] sample_claim.1 sample_claim.1
              (dispatched_unknown (prepared "request-1") (Some "correlation-1"))) as (_ & _ & _ & H);
    [vm_compute; reflexivity | apply rtc_refl | exact H].
Defined.

Definition sample_resolved : list MutationEvidence * result StoreError MutationEvidence :=
  persist_authoritative_outcome
    (dispatched_unknown (prepared "request-1") (Some "correlation-1")) AuthRejected sample_claim.1.

Lemma authoritative_outcome_final_witness :
  recorded sample_resolved.1 "request-1"
  = Some (with_outcome (dispatched_unknown (prepared "request-1") (Some "correlation-1")) Rejected).
Proof.
  destruct (authoritative_outcome_final
    (dispatched_unknown (prepared "request-1") (Some "correlation-1")) AuthRejected sample_claim.1
    sample_resolved.1 sample_resolved.1
    (with_outcome (dispatched_unknown (prepared "request-1") (Some "correlation-1")) Rejected))
    as (_ & H & _); [vm_compute; reflexivity | apply rtc_refl | exact H].
Defined.
