(* ===== verification/RiskModel.v ===== *)
(** * Risk data: [crates/vox-risk/src/model.rs]

    The enumerations, records and small predicates of the risk boundary.  Each
    Rust enum whose variants clash with another's has a module of its own, so that
    [RiskOutcome::ReduceOnly] is [Outcome.ReduceOnly] and [RiskState::ReduceOnly]
    is [State.ReduceOnly].  Identifiers drawn by [Uuid::new_v4] are an argument
    of the operations that draw them. *)
From S2P Require Import Prelude.

Module Outcome.
Inductive RiskOutcome := Approve | Resize | Reject | ReduceOnly | Halt.
#[global] Instance RiskOutcome_eq_dec : EqDecision RiskOutcome.
Proof. solve_decision. Defined.
End Outcome.
Notation RiskOutcome := Outcome.RiskOutcome.

Module State.
Inductive RiskState := Normal | Warning | ReduceOnly | Halted | KillSwitch.
#[global] Instance RiskState_eq_dec : EqDecision RiskState.
Proof. solve_decision. Defined.
End State.
Notation RiskState := State.RiskState.

Module Source.
Inductive RiskSource := Manual | Strategy | Ml | Ai | EmergencyOperator.
#[global] Instance RiskSource_eq_dec : EqDecision RiskSource.
Proof. solve_decision. Defined.
End Source.
Notation RiskSource := Source.RiskSource.

Module Action.
Inductive RiskActionKind :=
| DirectionalOrder | ReplaceDirectionalOrder | CancelOrder | ProtectionMaintenance | CancelProtection.
#[global] Instance RiskActionKind_eq_dec : EqDecision RiskActionKind.
Proof. solve_decision. Defined.
End Action.
Notation RiskActionKind := Action.RiskActionKind.

Module Reason.
Inductive RiskReasonCode :=
| Approved | ResizedToProviderLimit | ResizedToPolicyLimit | InvalidQuantity
| InstrumentUnavailable | InstrumentNotTradable | PriceUnavailable | PositionLotMismatch
| CriticalInputMissing | RuntimeNotReady | ExecutionUnauthorized | AuthorizationRevisionChanged
| PolicyRevisionChanged | ReconciliationRevisionChanged | PositionRevisionChanged
| OrderRevisionChanged | InstrumentConstraintRevisionChanged | MarketDataMissing | MarketDataStale
| UnknownMutationConflict | ReduceOnly | Halted | MarginNotAllowed | MarginConfirmationRequired
| MarginUtilizationExceeded | ProviderLimitUnavailable | ProviderLimitExceeded
| MaxSingleOrderExceeded | MaxPositionExceeded | MaxGrossExposureExceeded | MaxNetExposureExceeded
| MaxInstrumentExposureExceeded | DailyLossExceeded | ProtectionRequired | KillSwitchActive
| PersistenceFailure.
#[global] Instance RiskReasonCode_eq_dec : EqDecision RiskReasonCode.
Proof. solve_decision. Defined.
End Reason.
Notation RiskReasonCode := Reason.RiskReasonCode.

Module Resv.
Inductive ReservationState := Active | PartiallyConsumed | Consumed | Released | UnknownHeld | Orphaned.
#[global] Instance ReservationState_eq_dec : EqDecision ReservationState.
Proof. solve_decision. Defined.
End Resv.
Notation ReservationState := Resv.ReservationState.

Module Plan.
Inductive ProtectionPlanState :=
| Planned | Submitted | Active | PartialCoverage | FullCoverage | Cancelled | Failed | Stale.
#[global] Instance ProtectionPlanState_eq_dec : EqDecision ProtectionPlanState.
Proof. solve_decision. Defined.

Definition permits_additional_exposure (s : ProtectionPlanState) : bool :=
  match s with Active | FullCoverage | PartialCoverage => true | _ => false end.

Definition terminal (s : ProtectionPlanState) : bool :=
  match s with Cancelled | Failed | Stale => true | _ => false end.
End Plan.
Notation ProtectionPlanState := Plan.ProtectionPlanState.

Record RiskReason := { rr_code : RiskReasonCode; rr_message : string }.

Definition RiskReason_new (code : RiskReasonCode) (message : string) : RiskReason :=
  {| rr_code := code; rr_message := message |}.

Record BuyLotLimit := { bl_max_lots : Z; bl_max_market_lots : Z }.
Record SellLotLimit := { sl_max_lots : Z }.

Record BrokerLotLimits := {
  ll_buy_own : option BuyLotLimit;
  ll_buy_margin : option BuyLotLimit;
  ll_sell_own : option SellLotLimit;
  ll_sell_margin : option SellLotLimit;
}.

Record BrokerMarginFacts := {
  mf_liquid_portfolio_nanos : Z;
  mf_starting_margin_nanos : Z;
  mf_minimal_margin_nanos : Z;
  mf_corrected_margin_nanos : Z;
  mf_funds_sufficiency_ppm : option Z;
  mf_amount_of_missing_funds_nanos : Z;
  mf_guarantee_for_futures_nanos : Z;
  mf_broker_as_of_unix_ms : Z;
}.

Record RiskValidityContext := {
  vc_runtime_epoch : Z;
  vc_reconciliation_revision : Z;
  vc_position_revision : Z;
  vc_order_revision : Z;
  vc_market_data_as_of_unix_ms : option Z;
  vc_instrument_constraints_revision : Z;
  vc_policy_revision : Z;
  vc_execution_authorization_revision : Z;
}.

Record RiskProtectionStatus := {
  ps_active_stop_lots : Z;
  ps_position_lots : Z;
  ps_position_entered_at_unix_ms : option Z;
  ps_plan_id : option string;
  ps_plan_state : option ProtectionPlanState;
}.

(** The subtraction is exact in [i128]; the result is cast back to [i64]. *)
Definition uncovered_abs_lots (p : RiskProtectionStatus) : Z :=
  let position := unsigned_abs (ps_position_lots p) in
  let covered := Z.min (unsigned_abs (ps_active_stop_lots p)) position in
  wrap I64 (position - covered).

Definition full_coverage (p : RiskProtectionStatus) : bool :=
  negb (ps_position_lots p =? 0) && (uncovered_abs_lots p =? 0).

Definition partial_coverage (p : RiskProtectionStatus) : bool :=
  negb (ps_position_lots p =? 0) && negb (ps_active_stop_lots p =? 0) && negb (full_coverage p).

Record RiskSnapshot := {
  sn_runtime_ready : bool;
  sn_execution_authorized : bool;
  sn_instrument_tradable : bool;
  sn_instrument_lot_size : Z;
  sn_unresolved_unknown_conflict : bool;
  sn_current_position_lots : Z;
  sn_open_order_delta_lots : Z;
  sn_unresolved_unknown_delta_lots : Z;
  sn_active_reservation_delta_lots : Z;
  sn_gross_exposure_nanos : option Z;
  sn_net_exposure_nanos : option Z;
  sn_instrument_exposure_nanos : option Z;
  sn_broker_daily_pnl_nanos : option Z;
  sn_broker_lot_limits : option BrokerLotLimits;
  sn_margin : option BrokerMarginFacts;
  sn_protection : RiskProtectionStatus;
  sn_validity : RiskValidityContext;
}.

Record RiskRequest := {
  rq_request_id : string;
  rq_account_id : string;
  rq_broker_connection_id : string;
  rq_instrument_id : string;
  rq_strategy_id : option string;
  rq_source : RiskSource;
  rq_action : RiskActionKind;
  rq_requested_delta_lots : Z;
  rq_requested_notional_nanos : Z;
  rq_is_market_order : bool;
  rq_confirm_margin_trade : bool;
  rq_emergency_reduction : bool;
  rq_now_unix_ms : Z;
  rq_snapshot : RiskSnapshot;
}.

Record RiskPolicySet := {
  po_revision : Z;
  po_state : RiskState;
  po_allow_margin : bool;
  po_require_provider_lot_limit : bool;
  po_max_market_data_age_ms : option Z;
  po_max_single_order_lots : option Z;
  po_max_position_abs_lots : option Z;
  po_max_gross_exposure_nanos : option Z;
  po_max_net_exposure_abs_nanos : option Z;
  po_max_instrument_exposure_nanos : option Z;
  po_max_margin_utilization_ppm : option Z;
  po_max_daily_loss_nanos : option Z;
  po_protection_required_for_new_exposure : bool;
  po_max_unprotected_duration_ms : option Z;
}.

Definition fail_closed (revision : Z) : RiskPolicySet :=
  {| po_revision := revision; po_state := State.ReduceOnly; po_allow_margin := false;
     po_require_provider_lot_limit := true; po_max_market_data_age_ms := Some 0;
     po_max_single_order_lots := None; po_max_position_abs_lots := None;
     po_max_gross_exposure_nanos := None; po_max_net_exposure_abs_nanos := None;
     po_max_instrument_exposure_nanos := None; po_max_margin_utilization_ppm := None;
     po_max_daily_loss_nanos := None; po_protection_required_for_new_exposure := false;
     po_max_unprotected_duration_ms := None |}.

Record RiskDecision := {
  rd_decision_id : string;
  rd_request_id : string;
  rd_policy_revision : Z;
  rd_account_id : string;
  rd_action : RiskActionKind;
  rd_requested_delta_lots : Z;
  rd_approved_delta_lots : Z;
  rd_outcome : RiskOutcome;
  rd_reasons : list RiskReason;
  rd_reservation_id : option string;
  rd_expires_at_unix_ms : option Z;
  rd_validity : RiskValidityContext;
}.

Definition RiskDecision_new_id (uuid : string) : string := "risk-decision:" +:+ uuid.

Definition permits_dispatch (d : RiskDecision) : bool :=
  match rd_outcome d with
  | Outcome.Approve | Outcome.Resize =>
      match rd_action d with
      | Action.DirectionalOrder | Action.ReplaceDirectionalOrder =>
          negb (rd_approved_delta_lots d =? 0)
      | Action.CancelOrder | Action.ProtectionMaintenance | Action.CancelProtection =>
          rd_approved_delta_lots d =? 0
      end
  | _ => false
  end.

Record RiskReservation := {
  rv_reservation_id : string;
  rv_account_id : string;
  rv_instrument_id : string;
  rv_strategy_id : option string;
  rv_source : RiskSource;
  rv_logical_request_id : string;
  rv_reserved_delta_lots : Z;
  rv_remaining_delta_lots : Z;
  rv_reserved_notional_nanos : Z;
  rv_state : ReservationState;
  rv_created_at_unix_ms : Z;
  rv_updated_at_unix_ms : Z;
  rv_expires_at_unix_ms : option Z;
}.

Definition RiskReservation_new_id (uuid : string) : string := "risk-reservation:" +:+ uuid.

Record RiskPolicyRow := {
  pr_revision : Z;
  pr_state : RiskState;
  pr_allow_margin : bool;
  pr_require_provider_lot_limit : bool;
  pr_max_market_data_age_ms : option Z;
  pr_max_single_order_lots : option Z;
  pr_max_position_abs_lots : option Z;
  pr_max_gross_exposure_nanos : option Z;
  pr_max_net_exposure_abs_nanos : option Z;
  pr_max_instrument_exposure_nanos : option Z;
  pr_max_margin_utilization_ppm : option Z;
  pr_max_daily_loss_nanos : option Z;
  pr_protection_required_for_new_exposure : bool;
  pr_max_unprotected_duration_ms : option Z;
  pr_updated_at_unix_ms : Z;
}.

Definition from_policy (p : RiskPolicySet) (now_unix_ms : Z) : RiskPolicyRow :=
  {| pr_revision := po_revision p; pr_state := po_state p; pr_allow_margin := po_allow_margin p;
     pr_require_provider_lot_limit := po_require_provider_lot_limit p;
     pr_max_market_data_age_ms := po_max_market_data_age_ms p;
     pr_max_single_order_lots := po_max_single_order_lots p;
     pr_max_position_abs_lots := po_max_position_abs_lots p;
     pr_max_gross_exposure_nanos := po_max_gross_exposure_nanos p;
     pr_max_net_exposure_abs_nanos := po_max_net_exposure_abs_nanos p;
     pr_max_instrument_exposure_nanos := po_max_instrument_exposure_nanos p;
     pr_max_margin_utilization_ppm := po_max_margin_utilization_ppm p;
     pr_max_daily_loss_nanos := po_max_daily_loss_nanos p;
     pr_protection_required_for_new_exposure := po_protection_required_for_new_exposure p;
     pr_max_unprotected_duration_ms := po_max_unprotected_duration_ms p;
     pr_updated_at_unix_ms := now_unix_ms |}.

Definition into_policy (r : RiskPolicyRow) : RiskPolicySet :=
  {| po_revision := pr_revision r; po_state := pr_state r; po_allow_margin := pr_allow_margin r;
     po_require_provider_lot_limit := pr_require_provider_lot_limit r;
     po_max_market_data_age_ms := pr_max_market_data_age_ms r;
     po_max_single_order_lots := pr_max_single_order_lots r;
     po_max_position_abs_lots := pr_max_position_abs_lots r;
     po_max_gross_exposure_nanos := pr_max_gross_exposure_nanos r;
     po_max_net_exposure_abs_nanos := pr_max_net_exposure_abs_nanos r;
     po_max_instrument_exposure_nanos := pr_max_instrument_exposure_nanos r;
     po_max_margin_utilization_ppm := pr_max_margin_utilization_ppm r;
     po_max_daily_loss_nanos := pr_max_daily_loss_nanos r;
     po_protection_required_for_new_exposure := pr_protection_required_for_new_exposure r;
     po_max_unprotected_duration_ms := pr_max_unprotected_duration_ms r |}.

Record AccountRiskStateRow := {
  ar_account_id : string;
  ar_state : RiskState;
  ar_reduce_only : bool;
  ar_halted : bool;
  ar_max_position_abs_lots : option Z;
  ar_max_daily_loss_nanos : option Z;
  ar_updated_at_unix_ms : Z;
}.

Record StrategyRiskStateRow := {
  sr_strategy_id : string;
  sr_account_id : string;
  sr_state : RiskState;
  sr_reduce_only : bool;
  sr_halted : bool;
  sr_max_position_abs_lots : option Z;
  sr_updated_at_unix_ms : Z;
}.

Record GlobalRiskStateRow := { gr_kill_switch : bool; gr_updated_at_unix_ms : Z }.

Record RiskProtectionPlanRow := {
  pn_plan_id : string;
  pn_account_id : string;
  pn_instrument_id : string;
  pn_strategy_id : option string;
  pn_reservation_id : string;
  pn_protected_delta_lots : Z;
  pn_state : ProtectionPlanState;
  pn_created_at_unix_ms : Z;
  pn_updated_at_unix_ms : Z;
}.

Definition RiskProtectionPlanRow_new_id (uuid : string) : string := "risk-protection-plan:" +:+ uuid.

#[export] Instance RiskReason_eq_dec : EqDecision RiskReason.
Proof. solve_decision. Defined.
#[export] Instance RiskValidityContext_eq_dec : EqDecision RiskValidityContext.
Proof. solve_decision. Defined.
#[export] Instance RiskPolicySet_eq_dec : EqDecision RiskPolicySet.
Proof. solve_decision. Defined.
#[export] Instance RiskDecision_eq_dec : EqDecision RiskDecision.
Proof. solve_decision. Defined.
#[export] Instance RiskReservation_eq_dec : EqDecision RiskReservation.
Proof. solve_decision. Defined.
#[export] Instance RiskProtectionPlanRow_eq_dec : EqDecision RiskProtectionPlanRow.
Proof. solve_decision. Defined.

(** ** Lemmas *)

(** Coverage is what the definition says for every position but [i64::MIN]. *)
Lemma uncovered_abs_lots_exact p :
  has_ty I64 (ps_position_lots p) → ps_position_lots p ≠ int_min I64 →
  uncovered_abs_lots p =
    Z.max 0 (Z.abs (ps_position_lots p) - Z.abs (ps_active_stop_lots p)).
Proof.
  intros Hp Hmin. unfold uncovered_abs_lots. rewrite wrap_id; int_lia.
Qed.

(** At [i64::MIN] the cast wraps: an uncovered position reports a negative count. *)
Lemma uncovered_abs_lots_wraps p :
  ps_position_lots p = int_min I64 → ps_active_stop_lots p = 0 →
  uncovered_abs_lots p = int_min I64.
Proof. unfold uncovered_abs_lots. intros -> ->. reflexivity. Qed.

Lemma into_from_policy p now : into_policy (from_policy p now) = p.
Proof. by destruct p. Qed.

(** A decision that permits dispatch was an approval or a resize. *)
Lemma permits_dispatch_outcome d :
  permits_dispatch d = true → rd_outcome d = Outcome.Approve ∨ rd_outcome d = Outcome.Resize.
Proof. unfold permits_dispatch. destruct (rd_outcome d); auto; discriminate. Qed.
