(* ===== verification/RiskEngine.v ===== *)
(** * The risk engine: [crates/vox-risk/src/engine.rs]

    [RiskEngine::evaluate] is one long function of early returns.  It is modelled
    segment by segment, in the order of the source: a segment returns [Ok None] to
    go on, [Ok (Some d)] for an early return of the decision [d] and [Err] for the
    [?] operator, and [evaluate] chains them.  The identifier drawn for the one
    decision an evaluation returns is the argument [uuid]; log records are not
    modelled. *)
From S2P Require Import Prelude RiskModel.

Inductive RiskEngineError :=
| ArithmeticOverflow
| InvalidPolicy (what : string)
| InvalidProviderFact (what : string).

Notation verdict := (result RiskEngineError (option RiskDecision)).

(** Runs the rest only when the segment did not return. *)
Definition and_then (segment : verdict) (rest : result RiskEngineError RiskDecision)
  : result RiskEngineError RiskDecision :=
  match segment with
  | Ok None => rest
  | Ok (Some d) => Ok d
  | Err e => Err e
  end.

Notation "'check' c 'in' k" := (and_then c k)
  (at level 10, c at level 100, k at level 200, format "'[v' 'check'  c  'in' '//' k ']'") : rust_scope.

(** ** Helpers *)

Definition reject (uuid : string) (policy : RiskPolicySet) (request : RiskRequest)
    (outcome : RiskOutcome) (code : RiskReasonCode) (message : string) : RiskDecision :=
  {| rd_decision_id := RiskDecision_new_id uuid;
     rd_request_id := rq_request_id request;
     rd_policy_revision := po_revision policy;
     rd_account_id := rq_account_id request;
     rd_action := rq_action request;
     rd_requested_delta_lots := rq_requested_delta_lots request;
     rd_approved_delta_lots := 0;
     rd_outcome := outcome;
     rd_reasons := [RiskReason_new code message];
     rd_reservation_id := None;
     rd_expires_at_unix_ms := None;
     rd_validity := sn_validity (rq_snapshot request) |}.

Definition engine_checked_abs (value : Z) : result RiskEngineError Z :=
  ok_or (checked_abs I128 value) ArithmeticOverflow.

Definition positive_limit (value : Z) (field : string) : result RiskEngineError Z :=
  if value <=? 0 then Err (InvalidPolicy field) else Ok value.

(** [i64::try_from(x.unsigned_abs())]. *)
Definition abs_lots (x : Z) : result RiskEngineError Z :=
  ok_or (checked I64 (unsigned_abs x)) ArithmeticOverflow.

Definition increasing_portion (base delta : Z) : result RiskEngineError Z :=
  if delta =? 0 then Ok 0
  else if (base =? 0) || (signum base =? signum delta) then abs_lots delta
  else
    let? base_abs := abs_lots base in
    let? delta_abs := abs_lots delta in
    Ok (saturating_sub I64 delta_abs base_abs).

Definition selected_buy_limit (limit : BuyLotLimit) (market : bool) : result RiskEngineError Z :=
  let value := if market then bl_max_market_lots limit else bl_max_lots limit in
  if value <? 0 then Err (InvalidProviderFact "broker buy max-lots value cannot be negative")
  else Ok value.

Definition selected_sell_limit (limit : SellLotLimit) : result RiskEngineError Z :=
  let value := sl_max_lots limit in
  if value <? 0 then Err (InvalidProviderFact "broker sell max-lots value cannot be negative")
  else Ok value.

Definition provider_limit (policy : RiskPolicySet) (request : RiskRequest)
  : result RiskEngineError (option Z) :=
  match sn_broker_lot_limits (rq_snapshot request) with
  | None => Ok None
  | Some limits =>
      let wants_margin := rq_confirm_margin_trade request in
      if wants_margin && negb (po_allow_margin policy) then Ok None
      else if 0 <? rq_requested_delta_lots request then
        let limit := if wants_margin then ll_buy_margin limits else ll_buy_own limits in
        transpose ((λ l, selected_buy_limit l (rq_is_market_order request)) <$> limit)
      else
        let selected := if wants_margin then ll_sell_margin limits else ll_sell_own limits in
        transpose (selected_sell_limit <$> selected)
  end.

Definition directional (a : RiskActionKind) : bool :=
  match a with Action.DirectionalOrder | Action.ReplaceDirectionalOrder => true | _ => false end.

Definition cleanup_action (a : RiskActionKind) : bool :=
  match a with
  | Action.CancelOrder | Action.ProtectionMaintenance | Action.CancelProtection => true
  | _ => false
  end.

(** ** The segments of [evaluate] *)

Section evaluate.
Context (uuid : string) (policy : RiskPolicySet) (request : RiskRequest).
Notation snapshot := (rq_snapshot request).
Notation rejected outcome code message := (Ok (Some (reject uuid policy request outcome code message))).

Definition check_quantity : verdict :=
  if directional (rq_action request) && (rq_requested_delta_lots request =? 0) then
    rejected Outcome.Reject Reason.InvalidQuantity "directional risk request quantity must be non-zero"
  else if negb (directional (rq_action request)) && negb (rq_requested_delta_lots request =? 0) then
    rejected Outcome.Reject Reason.InvalidQuantity
      "non-directional risk action must not carry directional exposure"
  else Ok None.

Definition check_instrument : verdict :=
  if directional (rq_action request) && (sn_instrument_lot_size snapshot <=? 0) then
    rejected Outcome.Reject Reason.InstrumentUnavailable "instrument lot contract is unavailable"
  else if directional (rq_action request) && negb (sn_instrument_tradable snapshot) then
    rejected Outcome.Reject Reason.InstrumentNotTradable "broker instrument constraints forbid this order"
  else Ok None.

Definition check_policy_revision : verdict :=
  if negb (vc_policy_revision (sn_validity snapshot) =? po_revision policy) then
    rejected Outcome.Reject Reason.PolicyRevisionChanged "risk policy revision changed before evaluation"
  else Ok None.

Definition check_runtime : verdict :=
  if negb (sn_runtime_ready snapshot) && negb (cleanup_action (rq_action request)) then
    rejected Outcome.Halt Reason.RuntimeNotReady "runtime is not READY"
  else if negb (sn_execution_authorized snapshot) then
    rejected Outcome.Reject Reason.ExecutionUnauthorized "Vox execution authorization is disabled"
  else if sn_unresolved_unknown_conflict snapshot && negb (cleanup_action (rq_action request)) then
    rejected Outcome.Halt Reason.UnknownMutationConflict
      "conflicting UNKNOWN_AFTER_DISPATCH mutation exists"
  else Ok None.

(** Position, resting orders, UNKNOWN mutations and reservations together. *)
Definition base_position : result RiskEngineError Z :=
  ok_or (value ← checked_add I64 (sn_current_position_lots snapshot) (sn_open_order_delta_lots snapshot);
         value ← checked_add I64 value (sn_unresolved_unknown_delta_lots snapshot);
         checked_add I64 value (sn_active_reservation_delta_lots snapshot)) ArithmeticOverflow.

Definition state_gate (increasing_lots : Z) : verdict :=
  let exempt := (rq_emergency_reduction request && (increasing_lots =? 0))
                || cleanup_action (rq_action request) in
  match po_state policy with
  | State.KillSwitch =>
      if negb exempt then
        rejected Outcome.Halt Reason.KillSwitchActive "global kill-switch is active"
      else Ok None
  | State.Halted =>
      if negb exempt then rejected Outcome.Halt Reason.Halted "risk state is HALTED" else Ok None
  | State.ReduceOnly =>
      if 0 <? increasing_lots then
        rejected Outcome.ReduceOnly Reason.ReduceOnly "risk state permits reductions only"
      else Ok None
  | State.Normal | State.Warning => Ok None
  end.

Definition approve_maintenance : verdict :=
  if negb (directional (rq_action request)) then
    Ok (Some {| rd_decision_id := RiskDecision_new_id uuid;
                rd_request_id := rq_request_id request;
                rd_policy_revision := po_revision policy;
                rd_account_id := rq_account_id request;
                rd_action := rq_action request;
                rd_requested_delta_lots := 0;
                rd_approved_delta_lots := 0;
                rd_outcome := Outcome.Approve;
                rd_reasons := [RiskReason_new Reason.Approved
                  "non-directional capital maintenance action passed the risk boundary"];
                rd_reservation_id := None;
                rd_expires_at_unix_ms := None;
                rd_validity := sn_validity snapshot |})
  else Ok None.

Definition validate_market_data : verdict :=
  match po_max_market_data_age_ms policy with
  | None => Ok None
  | Some max_age =>
      if max_age <? 0 then Err (InvalidPolicy "max_market_data_age_ms cannot be negative")
      else match vc_market_data_as_of_unix_ms (sn_validity snapshot) with
           | None =>
               rejected Outcome.Reject Reason.MarketDataMissing
                 "price-dependent new exposure has no market-data watermark"
           | Some as_of =>
               let age := saturating_sub I64 (rq_now_unix_ms request) as_of in
               if max_age <? age then
                 rejected Outcome.Reject Reason.MarketDataStale
                   "price-dependent new exposure uses stale market data"
               else Ok None
           end
  end.

(** The duration cap of [validate_protection]. *)
Definition check_unprotected_duration : verdict :=
  let protection := sn_protection snapshot in
  match po_max_unprotected_duration_ms policy with
  | None => Ok None
  | Some max_duration =>
      if max_duration <? 0 then Err (InvalidPolicy "max_unprotected_duration_ms cannot be negative")
      else
        let? entered_at :=
          ok_or (ps_position_entered_at_unix_ms protection)
            (InvalidPolicy "max_unprotected_duration_ms requires a position entry watermark") in
        let uncovered_lots := uncovered_abs_lots protection in
        let age := saturating_sub I64 (rq_now_unix_ms request) entered_at in
        if (0 <? uncovered_lots) && (max_duration <? age) then
          rejected Outcome.ReduceOnly Reason.ProtectionRequired
            "position has been without full protection beyond the configured maximum"
        else Ok None
  end.

Definition validate_protection : verdict :=
  if negb (po_protection_required_for_new_exposure policy) then Ok None
  else
    let? early := check_unprotected_duration in
    match early with
    | Some d => Ok (Some d)
    | None =>
        let plan_acceptable :=
          match ps_plan_state (sn_protection snapshot) with
          | Some s => Plan.permits_additional_exposure s
          | None => false
          end in
        let coverage_acceptable := full_coverage (sn_protection snapshot) in
        if negb plan_acceptable && negb coverage_acceptable then
          rejected Outcome.Reject Reason.ProtectionRequired "new exposure requires full protection coverage"
        else Ok None
    end.

Definition check_new_exposure (increasing_lots : Z) : verdict :=
  if 0 <? increasing_lots then
    let? early := validate_market_data in
    match early with
    | Some d => Ok (Some d)
    | None => validate_protection
    end
  else Ok None.

Definition check_margin_allowed : verdict :=
  if rq_confirm_margin_trade request && negb (po_allow_margin policy) then
    rejected Outcome.Reject Reason.MarginNotAllowed "margin execution is disabled by Vox risk policy"
  else Ok None.

Definition check_margin_utilization (increasing_lots : Z) : verdict :=
  match po_max_margin_utilization_ppm policy with
  | Some max_utilization_ppm =>
      if 0 <? increasing_lots then
        if max_utilization_ppm <=? 0 then
          Err (InvalidPolicy "max_margin_utilization_ppm must be positive")
        else match sn_margin snapshot with
             | None =>
                 rejected Outcome.Reject Reason.CriticalInputMissing
                   "broker margin facts are required by policy but unavailable"
             | Some margin =>
                 if (mf_liquid_portfolio_nanos margin <=? 0) || (mf_corrected_margin_nanos margin <? 0) then
                   rejected Outcome.Reject Reason.CriticalInputMissing
                     "broker margin facts cannot form a valid utilization ratio"
                 else
                   let? utilization_ppm :=
                     ok_or (value ← checked_mul I128 (mf_corrected_margin_nanos margin) 1000000;
                            checked_div I128 value (mf_liquid_portfolio_nanos margin))
                       ArithmeticOverflow in
                   if max_utilization_ppm <? utilization_ppm then
                     rejected Outcome.Reject Reason.MarginUtilizationExceeded
                       "broker corrected-margin utilization exceeds policy"
                   else Ok None
             end
      else Ok None
  | None => Ok None
  end.

Definition check_daily_loss (increasing_lots : Z) : verdict :=
  match po_max_daily_loss_nanos policy with
  | Some max_loss =>
      if 0 <? increasing_lots then
        match sn_broker_daily_pnl_nanos snapshot with
        | None =>
            rejected Outcome.Reject Reason.CriticalInputMissing
              "broker day P&L is required by policy but unavailable"
        | Some day_pnl =>
            let? limit := positive_limit max_loss "max_daily_loss_nanos" in
            if day_pnl <? - limit then
              rejected Outcome.ReduceOnly Reason.DailyLossExceeded
                "broker day P&L breached the configured loss limit"
            else Ok None
        end
      else Ok None
  | None => Ok None
  end.

Definition check_max_position (projected_position increasing_lots : Z) : verdict :=
  match po_max_position_abs_lots policy with
  | Some max_position =>
      if (unsigned_abs max_position <? unsigned_abs projected_position) && (0 <? increasing_lots) then
        rejected Outcome.Reject Reason.MaxPositionExceeded
          "projected position exceeds the configured position limit"
      else Ok None
  | None => Ok None
  end.

Definition check_gross_exposure (increasing_lots : Z) : verdict :=
  match po_max_gross_exposure_nanos policy with
  | Some max_gross =>
      if 0 <? increasing_lots then
        match sn_gross_exposure_nanos snapshot with
        | None =>
            rejected Outcome.Reject Reason.CriticalInputMissing
              "gross exposure is required by policy but unavailable"
        | Some gross_exposure_nanos =>
            let? notional := engine_checked_abs (rq_requested_notional_nanos request) in
            let? projected := ok_or (checked_add I128 gross_exposure_nanos notional) ArithmeticOverflow in
            let? limit := positive_limit max_gross "max_gross_exposure_nanos" in
            if limit <? projected then
              rejected Outcome.Reject Reason.MaxGrossExposureExceeded
                "projected gross exposure exceeds policy"
            else Ok None
        end
      else Ok None
  | None => Ok None
  end.

Definition check_net_exposure (increasing_lots : Z) : verdict :=
  match po_max_net_exposure_abs_nanos policy with
  | Some max_net =>
      if 0 <? increasing_lots then
        match sn_net_exposure_nanos snapshot with
        | None =>
            rejected Outcome.Reject Reason.CriticalInputMissing
              "net exposure is required by policy but unavailable"
        | Some net_exposure_nanos =>
            let? projected :=
              ok_or (checked_add I128 net_exposure_nanos (rq_requested_notional_nanos request))
                ArithmeticOverflow in
            let? projected_abs := engine_checked_abs projected in
            let? limit := positive_limit max_net "max_net_exposure_abs_nanos" in
            if limit <? projected_abs then
              rejected Outcome.Reject Reason.MaxNetExposureExceeded "projected net exposure exceeds policy"
            else Ok None
        end
      else Ok None
  | None => Ok None
  end.

Definition check_instrument_exposure (increasing_lots : Z) : verdict :=
  match po_max_instrument_exposure_nanos policy with
  | Some max_instrument =>
      if 0 <? increasing_lots then
        match sn_instrument_exposure_nanos snapshot with
        | None =>
            rejected Outcome.Reject Reason.CriticalInputMissing
              "instrument exposure is required by policy but unavailable"
        | Some instrument_exposure_nanos =>
            let? projected :=
              ok_or (checked_add I128 instrument_exposure_nanos (rq_requested_notional_nanos request))
                ArithmeticOverflow in
            let? projected_abs := engine_checked_abs projected in
            let? limit := positive_limit max_instrument "max_instrument_exposure_nanos" in
            if limit <? projected_abs then
              rejected Outcome.Reject Reason.MaxInstrumentExposureExceeded
                "projected instrument exposure exceeds policy"
            else Ok None
        end
      else Ok None
  | None => Ok None
  end.

(** The quantity left by the single-order limit and why it was cut. *)
Definition size_to_policy (requested_abs : Z)
  : result RiskEngineError (Z * option (RiskReasonCode * string)) :=
  match po_max_single_order_lots policy with
  | Some max_order =>
      if max_order <=? 0 then Err (InvalidPolicy "max_single_order_lots must be positive")
      else if max_order <? requested_abs then
        Ok (max_order, Some (Reason.ResizedToPolicyLimit,
                             "quantity resized to configured max single-order limit"))
      else Ok (requested_abs, None)
  | None => Ok (requested_abs, None)
  end.

(** Then by the provider's lot limit, which fails closed when it is required and absent. *)
Definition size_to_provider (increasing_lots : Z) (sized : Z * option (RiskReasonCode * string))
  : result RiskEngineError (RiskDecision + Z * option (RiskReasonCode * string)) :=
  let? limit := provider_limit policy request in
  match limit with
  | Some limit =>
      if limit <? sized.1 then
        Ok (inr (limit, Some (Reason.ResizedToProviderLimit,
                              "quantity resized to the applicable broker max-lots constraint")))
      else Ok (inr sized)
  | None =>
      if po_require_provider_lot_limit policy && (0 <? increasing_lots) then
        Ok (inl (reject uuid policy request Outcome.Reject Reason.ProviderLimitUnavailable
                   "applicable broker max-lots constraint is unavailable"))
      else Ok (inr sized)
  end.

Definition final_decision (approved_abs : Z) (resize_reason : option (RiskReasonCode * string))
  : result RiskEngineError RiskDecision :=
  if approved_abs =? 0 then
    Ok (reject uuid policy request Outcome.Reject Reason.ProviderLimitExceeded
          "broker/policy constraints leave zero executable quantity")
  else
    let sign := signum (rq_requested_delta_lots request) in
    let? approved_delta_lots := ok_or (checked_mul I64 approved_abs sign) ArithmeticOverflow in
    let? outcome_reasons :=
      if approved_delta_lots =? rq_requested_delta_lots request then
        Ok (Outcome.Approve,
            [RiskReason_new Reason.Approved
               "request satisfies current risk policy and provider constraints"])
      else
        let? reason := ok_or resize_reason ArithmeticOverflow in
        Ok (Outcome.Resize, [RiskReason_new reason.1 reason.2]) in
    Ok {| rd_decision_id := RiskDecision_new_id uuid;
          rd_request_id := rq_request_id request;
          rd_policy_revision := po_revision policy;
          rd_account_id := rq_account_id request;
          rd_action := rq_action request;
          rd_requested_delta_lots := rq_requested_delta_lots request;
          rd_approved_delta_lots := approved_delta_lots;
          rd_outcome := outcome_reasons.1;
          rd_reasons := outcome_reasons.2;
          rd_reservation_id := None;
          rd_expires_at_unix_ms := None;
          rd_validity := sn_validity snapshot |}.

Definition size_and_decide (increasing_lots : Z) : result RiskEngineError RiskDecision :=
  let? requested_abs := abs_lots (rq_requested_delta_lots request) in
  let? sized := size_to_policy requested_abs in
  let? sized := size_to_provider increasing_lots sized in
  match sized with
  | inl d => Ok d
  | inr (approved_abs, resize_reason) => final_decision approved_abs resize_reason
  end.

Definition evaluate : result RiskEngineError RiskDecision :=
  check check_quantity in
  check check_instrument in
  check check_policy_revision in
  check check_runtime in
  let? base := base_position in
  let? projected_position :=
    ok_or (checked_add I64 base (rq_requested_delta_lots request)) ArithmeticOverflow in
  let? increasing_lots := increasing_portion base (rq_requested_delta_lots request) in
  check state_gate increasing_lots in
  check approve_maintenance in
  check check_new_exposure increasing_lots in
  check check_margin_allowed in
  check check_margin_utilization increasing_lots in
  check check_daily_loss increasing_lots in
  check check_max_position projected_position increasing_lots in
  check check_gross_exposure increasing_lots in
  check check_net_exposure increasing_lots in
  check check_instrument_exposure increasing_lots in
  size_and_decide increasing_lots.
End evaluate.

Definition still_valid (decision : RiskDecision) (request : RiskRequest) (current_policy_revision : Z)
  : bool :=
  (rd_policy_revision decision =? current_policy_revision)
  && bool_decide (rd_request_id decision = rq_request_id request)
  && bool_decide (rd_validity decision = sn_validity (rq_snapshot request))
  && negb (rd_approved_delta_lots decision =? 0)
  && permits_dispatch decision.

(** ** Inversion of an evaluation *)

Create HintDb engine.

(** A decision that allows nothing. *)
Definition denial (d : RiskDecision) : Prop :=
  permits_dispatch d = false ∧ rd_approved_delta_lots d = 0.

(** A segment that, when it returns early, returns a denial. *)
Definition denies (v : verdict) : Prop := ∀ d, v = Ok (Some d) → denial d.

Ltac solve_denies :=
  intros ? Hv; repeat (case_match; simplify_eq/=); simplify_eq/=; split; reflexivity.

Lemma check_quantity_denies uuid p r : denies (check_quantity uuid p r).
Proof. unfold check_quantity. solve_denies. Qed.
Lemma check_instrument_denies uuid p r : denies (check_instrument uuid p r).
Proof. unfold check_instrument. solve_denies. Qed.
Lemma check_policy_revision_denies uuid p r : denies (check_policy_revision uuid p r).
Proof. unfold check_policy_revision. solve_denies. Qed.
Lemma check_runtime_denies uuid p r : denies (check_runtime uuid p r).
Proof. unfold check_runtime. solve_denies. Qed.
Lemma state_gate_denies uuid p r inc : denies (state_gate uuid p r inc).
Proof. unfold state_gate. solve_denies. Qed.
Lemma validate_market_data_denies uuid p r : denies (validate_market_data uuid p r).
Proof. unfold validate_market_data. solve_denies. Qed.
Lemma check_unprotected_duration_denies uuid p r : denies (check_unprotected_duration uuid p r).
Proof. unfold check_unprotected_duration. solve_denies. Qed.
Lemma validate_protection_denies uuid p r : denies (validate_protection uuid p r).
Proof.
  unfold validate_protection. intros d Hv.
  destruct (negb _); [done|].
  destruct (check_unprotected_duration uuid p r) as [[d'|]|] eqn:Hd; simplify_eq.
  - by apply check_unprotected_duration_denies in Hd.
  - by branches.
Qed.
Lemma check_new_exposure_denies uuid p r inc : denies (check_new_exposure uuid p r inc).
Proof.
  unfold check_new_exposure. intros d Hv. case_match; [|done].
  destruct (validate_market_data uuid p r) as [[d'|]|] eqn:Hd; simplify_eq.
  - by apply validate_market_data_denies in Hd.
  - by apply validate_protection_denies in Hv.
Qed.
Lemma check_margin_allowed_denies uuid p r : denies (check_margin_allowed uuid p r).
Proof. unfold check_margin_allowed. solve_denies. Qed.
Lemma check_margin_utilization_denies uuid p r inc : denies (check_margin_utilization uuid p r inc).
Proof. unfold check_margin_utilization. solve_denies. Qed.
Lemma check_daily_loss_denies uuid p r inc : denies (check_daily_loss uuid p r inc).
Proof. unfold check_daily_loss. solve_denies. Qed.
Lemma check_max_position_denies uuid p r proj inc : denies (check_max_position uuid p r proj inc).
Proof. unfold check_max_position. solve_denies. Qed.
Lemma check_gross_exposure_denies uuid p r inc : denies (check_gross_exposure uuid p r inc).
Proof. unfold check_gross_exposure. solve_denies. Qed.
Lemma check_net_exposure_denies uuid p r inc : denies (check_net_exposure uuid p r inc).
Proof. unfold check_net_exposure. solve_denies. Qed.
Lemma check_instrument_exposure_denies uuid p r inc : denies (check_instrument_exposure uuid p r inc).
Proof. unfold check_instrument_exposure. solve_denies. Qed.

#[export] Hint Resolve check_quantity_denies check_instrument_denies check_policy_revision_denies
  check_runtime_denies state_gate_denies check_new_exposure_denies check_margin_allowed_denies
  check_margin_utilization_denies check_daily_loss_denies check_max_position_denies
  check_gross_exposure_denies check_net_exposure_denies check_instrument_exposure_denies : engine.

(** Either the segment ended the evaluation with a denial or it let it go on. *)
Lemma and_then_Ok v k d :
  denies v → and_then v k = Ok d → denial d ∨ v = Ok None ∧ k = Ok d.
Proof. intros Hd. unfold and_then. destruct v as [[d'|]|]; naive_solver. Qed.

(** Takes the first segment off an evaluation. *)
Ltac next_segment H Hpass :=
  apply and_then_Ok in H; [|solve [eauto with engine]];
  destruct H as [?|[Hpass H]]; [by left|].

(** What an evaluation that did not deny has passed. *)
Record passed_common uuid policy request (base projected inc : Z) : Prop := {
  pass_quantity : check_quantity uuid policy request = Ok None;
  pass_instrument : check_instrument uuid policy request = Ok None;
  pass_revision : check_policy_revision uuid policy request = Ok None;
  pass_runtime : check_runtime uuid policy request = Ok None;
  pass_base : base_position request = Ok base;
  pass_projected : checked_add I64 base (rq_requested_delta_lots request) = Some projected;
  pass_increasing : increasing_portion base (rq_requested_delta_lots request) = Ok inc;
  pass_state : state_gate uuid policy request inc = Ok None;
}.

Record passed_directional uuid policy request (projected inc : Z) : Prop := {
  pass_new_exposure : check_new_exposure uuid policy request inc = Ok None;
  pass_margin_allowed : check_margin_allowed uuid policy request = Ok None;
  pass_margin : check_margin_utilization uuid policy request inc = Ok None;
  pass_loss : check_daily_loss uuid policy request inc = Ok None;
  pass_position : check_max_position uuid policy request projected inc = Ok None;
  pass_gross : check_gross_exposure uuid policy request inc = Ok None;
  pass_net : check_net_exposure uuid policy request inc = Ok None;
  pass_instrument_exposure : check_instrument_exposure uuid policy request inc = Ok None;
}.

Lemma evaluate_inv uuid policy request d :
  evaluate uuid policy request = Ok d →
  denial d ∨
  ∃ base projected inc, passed_common uuid policy request base projected inc ∧
    (directional (rq_action request) = false ∧ approve_maintenance uuid policy request = Ok (Some d) ∨
     directional (rq_action request) = true ∧ passed_directional uuid policy request projected inc ∧
     size_and_decide uuid policy request inc = Ok d).
Proof.
  unfold evaluate. intros H.
  next_segment H H1. next_segment H H2. next_segment H H3. next_segment H H4.
  destruct (base_position request) as [base|] eqn:Hb; [|done].
  destruct (checked_add I64 base _) as [projected|] eqn:Hp; [|done]. cbn [ok_or] in H.
  destruct (increasing_portion base _) as [inc|] eqn:Hi; [|done].
  next_segment H H5.
  destruct (directional (rq_action request)) eqn:Hdir.
  - assert (approve_maintenance uuid policy request = Ok None) as Hm
      by (unfold approve_maintenance; by rewrite Hdir).
    rewrite Hm in H. simpl in H.
    next_segment H H6. next_segment H H7. next_segment H H8. next_segment H H9.
    next_segment H H10. next_segment H H11. next_segment H H12. next_segment H H13.
    right. exists base, projected, inc. split; [by constructor|]. right. by repeat constructor.
  - right. exists base, projected, inc. split; [by constructor|]. left. split; [done|].
    unfold approve_maintenance in *. rewrite Hdir in *. simpl in *. by simplify_eq.
Qed.

(** ** What counts as a reduction *)

(** An order for [delta] lots can fill by any [f] lots on the way to [delta]. *)
Definition partial_fill (f delta : Z) : Prop := 0 ≤ f ≤ delta ∨ delta ≤ f ≤ 0.

(** However far it fills, the order shrinks the position and never crosses zero. *)
Definition reduces_only (base delta : Z) : Prop :=
  ∀ f, partial_fill f delta → Z.abs (base + f) ≤ Z.abs base ∧ 0 ≤ base * (base + f).

Lemma abs_lots_Ok x a : abs_lots x = Ok a ↔ a = Z.abs x ∧ has_ty I64 (Z.abs x).
Proof. unfold abs_lots. rewrite ok_or_Ok, checked_Some. done. Qed.

Lemma increasing_portion_Ok base delta inc :
  increasing_portion base delta = Ok inc →
  inc = if delta =? 0 then 0
        else if (base =? 0) || (Z.sgn base =? Z.sgn delta) then Z.abs delta
        else Z.abs delta - Z.abs base.
Proof.
  unfold increasing_portion, signum. destruct (delta =? 0); [by intros [= <-]|].
  destruct (_ || _); [by intros [-> _]%abs_lots_Ok|].
  destruct (abs_lots base) as [b|] eqn:Hb; [|done].
  destruct (abs_lots delta) as [a|] eqn:Ha; [|done].
  apply abs_lots_Ok in Hb as [-> Hb], Ha as [-> Ha]. intros [= <-].
  unfold saturating_sub. rewrite saturate_id; [done|]. int_lia.
Qed.

Lemma reduces_only_sign base delta :
  reduces_only base delta ↔
  delta = 0 ∨ base ≠ 0 ∧ Z.sgn base ≠ Z.sgn delta ∧ Z.abs delta ≤ Z.abs base.
Proof.
  unfold reduces_only, partial_fill. split.
  - intros H. destruct (Z.eq_dec delta 0) as [->|Hd]; [by left|]. right.
    destruct (H delta ltac:(lia)) as [H1 H2].
    assert (base ≠ 0) by (intros ->; lia). nia.
  - intros [->|(Hb & Hs & Ha)] f Hf; [assert (f = 0) as -> by lia; nia|].
    destruct (Z.lt_trichotomy base 0) as [|[|]], (Z.lt_trichotomy delta 0) as [|[|]]; try lia; nia.
Qed.

Lemma increasing_portion_reduces base delta inc :
  increasing_portion base delta = Ok inc → inc ≤ 0 ↔ reduces_only base delta.
Proof.
  intros ->%increasing_portion_Ok. rewrite reduces_only_sign.
  destruct (delta =? 0) eqn:Hd; [lia|].
  destruct ((base =? 0) || (Z.sgn base =? Z.sgn delta)) eqn:Hs; lia.
Qed.

Lemma not_reduces_increasing base delta inc :
  increasing_portion base delta = Ok inc → ¬ reduces_only base delta → 0 < inc.
Proof.
  intros Hi Hr. destruct (Z.lt_ge_cases 0 inc); [done|].
  destruct Hr. by apply (increasing_portion_reduces _ _ _ Hi).
Qed.

Lemma reduces_only_part base delta part :
  partial_fill part delta → reduces_only base delta → reduces_only base part.
Proof. unfold reduces_only, partial_fill. intros Hp H f Hf. apply H. lia. Qed.

(** ** Sizing *)

Lemma size_to_policy_Ok p a a' why :
  size_to_policy p a = Ok (a', why) →
  a' ≤ a ∧ (why = None → a' = a) ∧ (0 < a → 0 < a') ∧ (0 ≤ a → 0 ≤ a') ∧ (why ≠ None → a' < a) ∧
  (∀ m, po_max_single_order_lots p = Some m → 0 < m ∧ a' ≤ m).
Proof. unfold size_to_policy. intros H. branches; naive_solver lia. Qed.

Lemma provider_limit_nonneg p r l : provider_limit p r = Ok (Some l) → 0 ≤ l.
Proof.
  unfold provider_limit. destruct (sn_broker_lot_limits _); [|done].
  destruct (_ && _); [done|].
  destruct (0 <? _); rewrite transpose_Some, fmap_Some; intros (lim & _ & Hl).
  - unfold selected_buy_limit in Hl. case_match; simplify_eq. lia.
  - unfold selected_sell_limit in Hl. case_match; simplify_eq. lia.
Qed.

Lemma size_to_provider_Ok uuid p r inc a why a' why' :
  0 < a → size_to_provider uuid p r inc (a, why) = Ok (inr (a', why')) →
  0 ≤ a' ≤ a ∧ (why' = None → a' = a ∧ why = None) ∧
  (∀ l, provider_limit p r = Ok (Some l) → a' ≤ l) ∧
  (po_require_provider_lot_limit p = true → 0 < inc → ∃ l, provider_limit p r = Ok (Some l)).
Proof.
  unfold size_to_provider. intros Ha H.
  destruct (provider_limit p r) as [[l|]|] eqn:Hl; simpl in *; [| |done].
  - pose proof (provider_limit_nonneg _ _ _ Hl). branches; naive_solver lia.
  - destruct (po_require_provider_lot_limit p && (0 <? inc)) eqn:Hr; simplify_eq.
    apply andb_false_iff in Hr. split_and!; try naive_solver lia.
    intros Hq Hi. destruct Hr as [?|?%Z.ltb_ge]; [congruence|lia].
Qed.

(** The quantity of a directional decision that was not denied. *)
Lemma size_and_decide_Ok uuid p r inc d :
  rq_requested_delta_lots r ≠ 0 → size_and_decide uuid p r inc = Ok d →
  denial d ∨
  (let requested := rq_requested_delta_lots r in
   let approved := rd_approved_delta_lots d in
   partial_fill approved requested ∧ approved ≠ 0 ∧
   (rd_outcome d = Outcome.Approve ∧ approved = requested ∨
    rd_outcome d = Outcome.Resize ∧ approved ≠ requested) ∧
   (∀ m, po_max_single_order_lots p = Some m → Z.abs approved ≤ m) ∧
   (∀ l, provider_limit p r = Ok (Some l) → Z.abs approved ≤ l) ∧
   (po_require_provider_lot_limit p = true → 0 < inc → ∃ l, provider_limit p r = Ok (Some l)) ∧
   rd_action d = rq_action r ∧ rd_policy_revision d = po_revision p ∧
   rd_request_id d = rq_request_id r ∧ rd_validity d = sn_validity (rq_snapshot r)).
Proof.
  intros Hnz H. unfold size_and_decide in H.
  destruct (abs_lots _) as [a|] eqn:Ha; [|done]. apply abs_lots_Ok in Ha as [-> Ha].
  destruct (size_to_policy p _) as [[a1 w1]|] eqn:H1; [|done].
  apply size_to_policy_Ok in H1 as (Hle1 & _ & Hpos1 & _ & _ & Hm1).
  destruct (size_to_provider _ _ _ _ _) as [[d'|[a2 w2]]|] eqn:H2; [| |done].
  { simplify_eq. left. unfold size_to_provider in H2. branches. }
  apply size_to_provider_Ok in H2 as (Hle2 & _ & Hl2 & Hreq2); [|lia].
  unfold final_decision in H. destruct (a2 =? 0) eqn:Hz; [simplify_eq; by left|]. right.
  destruct (checked_mul I64 a2 _) as [ap|] eqn:Hap; [|done]. cbn [ok_or] in H.
  unfold checked_mul, signum in Hap. apply checked_Some in Hap as [-> _].
  set (q := rq_requested_delta_lots r) in *.
  assert (partial_fill (a2 * Z.sgn q) q ∧ a2 * Z.sgn q ≠ 0 ∧ Z.abs (a2 * Z.sgn q) = a2)
    as (Hpf & Hnz2 & Habs) by (unfold partial_fill; nia).
  assert (∀ m, po_max_single_order_lots p = Some m → Z.abs (a2 * Z.sgn q) ≤ m)
    by (intros m Hm; apply Hm1 in Hm; lia).
  assert (∀ l, provider_limit p r = Ok (Some l) → Z.abs (a2 * Z.sgn q) ≤ l)
    by (intros l Hl; apply Hl2 in Hl; lia).
  destruct (a2 * Z.sgn q =? q) eqn:He; [|destruct w2; [|done]]; simplify_eq/=;
    split_and!; try done; [left|right]; (split; [done|lia]).
Qed.

Lemma evaluate_permitted uuid p r d :
  evaluate uuid p r = Ok d → permits_dispatch d = true →
  ∃ base projected inc, passed_common uuid p r base projected inc ∧
    (directional (rq_action r) = false ∧ approve_maintenance uuid p r = Ok (Some d) ∨
     directional (rq_action r) = true ∧ passed_directional uuid p r projected inc ∧
     size_and_decide uuid p r inc = Ok d).
Proof. intros [[Hno _]|H]%evaluate_inv Hyes; [congruence|done]. Qed.

Lemma base_position_Ok r base :
  base_position r = Ok base →
  base = sn_current_position_lots (rq_snapshot r) + sn_open_order_delta_lots (rq_snapshot r)
         + sn_unresolved_unknown_delta_lots (rq_snapshot r)
         + sn_active_reservation_delta_lots (rq_snapshot r).
Proof. unfold base_position. rewrite ok_or_Ok. intros H. simplify_option_eq. prop_tests. lia. Qed.

Lemma check_quantity_nonzero uuid p r :
  check_quantity uuid p r = Ok None → directional (rq_action r) = true →
  rq_requested_delta_lots r ≠ 0.
Proof. unfold check_quantity. intros H Hd. rewrite Hd in H. branches; lia. Qed.

(** The sizing facts of a permitted directional decision, with the base they were decided on. *)
Lemma evaluate_directional uuid p r d :
  evaluate uuid p r = Ok d → permits_dispatch d = true → directional (rq_action r) = true →
  ∃ base projected inc,
    passed_common uuid p r base projected inc ∧ passed_directional uuid p r projected inc ∧
    partial_fill (rd_approved_delta_lots d) (rq_requested_delta_lots r) ∧
    size_and_decide uuid p r inc = Ok d ∧ rq_requested_delta_lots r ≠ 0.
Proof.
  intros He Hp Hd. destruct (evaluate_permitted _ _ _ _ He Hp) as (base & proj & inc & Hc & Hcase).
  destruct Hcase as [[? _]|(_ & Hdir & Hs)]; [congruence|].
  pose proof (check_quantity_nonzero _ _ _ (pass_quantity _ _ _ _ _ _ Hc) Hd) as Hnz.
  exists base, proj, inc. split_and!; try done.
  destruct (size_and_decide_Ok _ _ _ _ _ Hnz Hs) as [[? _]|(? & _)]; [congruence|done].
Qed.

(** ** Valid inputs

    The conditions under which no segment can fail: limits that make sense,
    broker facts that are not negative and sums that fit their widths. *)
Definition opt_ok (P : Z → Prop) (o : option Z) : Prop := ∀ v, o = Some v → P v.

Record policy_valid (p : RiskPolicySet) : Prop := {
  pv_age : opt_ok (λ v, 0 ≤ v) (po_max_market_data_age_ms p);
  pv_single : opt_ok (λ v, 0 < v) (po_max_single_order_lots p);
  pv_gross : opt_ok (λ v, 0 < v) (po_max_gross_exposure_nanos p);
  pv_net : opt_ok (λ v, 0 < v) (po_max_net_exposure_abs_nanos p);
  pv_instrument : opt_ok (λ v, 0 < v) (po_max_instrument_exposure_nanos p);
  pv_margin : opt_ok (λ v, 0 < v) (po_max_margin_utilization_ppm p);
  pv_loss : opt_ok (λ v, 0 < v) (po_max_daily_loss_nanos p);
  pv_duration : opt_ok (λ v, 0 ≤ v) (po_max_unprotected_duration_ms p);
}.

(** Amounts far from the ends of [i128]: 10^30 nanos is 10^21 currency units. *)
Definition sane_amount (v : Z) : Prop := Z.abs v ≤ 10 ^ 30.

Record request_valid (p : RiskPolicySet) (r : RiskRequest) : Prop := {
  qv_lots : Z.abs (sn_current_position_lots (rq_snapshot r)) ≤ 10 ^ 17;
  qv_orders : Z.abs (sn_open_order_delta_lots (rq_snapshot r)) ≤ 10 ^ 17;
  qv_unknown : Z.abs (sn_unresolved_unknown_delta_lots (rq_snapshot r)) ≤ 10 ^ 17;
  qv_reserved : Z.abs (sn_active_reservation_delta_lots (rq_snapshot r)) ≤ 10 ^ 17;
  qv_requested : Z.abs (rq_requested_delta_lots r) ≤ 10 ^ 17;
  qv_notional : sane_amount (rq_requested_notional_nanos r);
  qv_gross : opt_ok sane_amount (sn_gross_exposure_nanos (rq_snapshot r));
  qv_net : opt_ok sane_amount (sn_net_exposure_nanos (rq_snapshot r));
  qv_instrument : opt_ok sane_amount (sn_instrument_exposure_nanos (rq_snapshot r));
  qv_margin : ∀ m, sn_margin (rq_snapshot r) = Some m → sane_amount (mf_corrected_margin_nanos m);
  qv_limits : ∃ l, provider_limit p r = Ok l;
  qv_entry : po_protection_required_for_new_exposure p = true →
    is_Some (po_max_unprotected_duration_ms p) →
    is_Some (ps_position_entered_at_unix_ms (sn_protection (rq_snapshot r)));
}.

(** A segment, or the whole, ends without an error. *)
Definition decided {A} (v : result RiskEngineError A) : Prop := ∃ o, v = Ok o.

Lemma and_then_decided v k : decided v → decided k → decided (and_then v k).
Proof. intros [[d|] ->] Hk; unfold and_then; [by exists d|done]. Qed.

Ltac solve_decided := repeat case_match; simplify_eq; eexists; reflexivity.

Lemma positive_limit_decided v f : 0 < v → positive_limit v f = Ok v.
Proof. intros. unfold positive_limit. destruct (v <=? 0) eqn:?; [lia|done]. Qed.

Lemma sane_abs v : sane_amount v → engine_checked_abs v = Ok (Z.abs v).
Proof.
  unfold sane_amount, engine_checked_abs, checked_abs. intros.
  rewrite checked_fits; [done|]. int_lia.
Qed.

Lemma sane_add a b : sane_amount a → sane_amount b →
  checked_add I128 a b = Some (a + b) ∧ engine_checked_abs (a + b) = Ok (Z.abs (a + b)).
Proof.
  unfold sane_amount, engine_checked_abs, checked_abs, checked_add. intros.
  rewrite !checked_fits by int_lia. done.
Qed.

Lemma check_new_exposure_decided uuid p r inc :
  policy_valid p → request_valid p r → decided (check_new_exposure uuid p r inc).
Proof.
  intros Hp Hr. unfold check_new_exposure. destruct (0 <? inc); [|by eexists].
  assert (decided (validate_market_data uuid p r)) as [[d|] ->]; [|by eexists|].
  { unfold validate_market_data. pose proof (pv_age _ Hp) as Ha. unfold opt_ok in Ha.
    destruct (po_max_market_data_age_ms p) as [a|]; [|by eexists].
    specialize (Ha a eq_refl). destruct (a <? 0) eqn:?; [lia|]. solve_decided. }
  unfold validate_protection. destruct (po_protection_required_for_new_exposure p) eqn:Hreq; simpl;
    [|by eexists].
  assert (decided (check_unprotected_duration uuid p r)) as [[d|] ->]; [|by eexists|solve_decided].
  unfold check_unprotected_duration. pose proof (pv_duration _ Hp) as Ha. unfold opt_ok in Ha.
  destruct (po_max_unprotected_duration_ms p) as [a|] eqn:Hd; [|by eexists].
  specialize (Ha a eq_refl). destruct (a <? 0) eqn:?; [lia|].
  destruct (qv_entry _ _ Hr Hreq) as [t Ht]; [rewrite Hd; by eexists|]. rewrite Ht. simpl.
  solve_decided.
Qed.

Lemma check_margin_utilization_decided uuid p r inc :
  policy_valid p → request_valid p r → decided (check_margin_utilization uuid p r inc).
Proof.
  intros Hp Hr. unfold check_margin_utilization. pose proof (pv_margin _ Hp) as Hm. unfold opt_ok in Hm.
  destruct (po_max_margin_utilization_ppm p) as [u|]; [|by eexists]. specialize (Hm u eq_refl).
  destruct (0 <? inc); [|by eexists]. destruct (u <=? 0) eqn:?; [lia|].
  destruct (sn_margin _) as [m|] eqn:Hmf; [|by eexists].
  pose proof (qv_margin _ _ Hr m Hmf) as Hs. unfold sane_amount in Hs.
  destruct (_ || _) eqn:Hbad; [by eexists|]. apply orb_false_iff in Hbad as [Hl Hc].
  unfold checked_mul. rewrite checked_fits by int_lia. simpl.
  unfold checked_div. destruct (mf_liquid_portfolio_nanos m =? 0) eqn:?; [lia|].
  assert (has_ty I128 (Z.quot (mf_corrected_margin_nanos m * 1000000) (mf_liquid_portfolio_nanos m))).
  { pose proof (Z.quot_pos (mf_corrected_margin_nanos m * 1000000) (mf_liquid_portfolio_nanos m)).
    pose proof (Z.quot_le_upper_bound (mf_corrected_margin_nanos m * 1000000)
                  (mf_liquid_portfolio_nanos m) (mf_corrected_margin_nanos m * 1000000)).
    int_unfold. nia. }
  rewrite checked_fits by done. simpl. solve_decided.
Qed.

Lemma check_daily_loss_decided uuid p r inc :
  policy_valid p → decided (check_daily_loss uuid p r inc).
Proof.
  intros Hp. unfold check_daily_loss. pose proof (pv_loss _ Hp) as Hm. unfold opt_ok in Hm.
  destruct (po_max_daily_loss_nanos p) as [u|]; [|by eexists].
  destruct (0 <? inc); [|by eexists]. destruct (sn_broker_daily_pnl_nanos _); [|by eexists].
  rewrite positive_limit_decided by auto. solve_decided.
Qed.

Lemma check_exposures_decided uuid p r inc :
  policy_valid p → request_valid p r →
  decided (check_gross_exposure uuid p r inc) ∧ decided (check_net_exposure uuid p r inc) ∧
  decided (check_instrument_exposure uuid p r inc).
Proof.
  intros Hp Hr. pose proof (qv_notional _ _ Hr) as Hn. split_and!.
  - unfold check_gross_exposure. pose proof (pv_gross _ Hp) as Hm. pose proof (qv_gross _ _ Hr) as Hg.
    unfold opt_ok in *. destruct (po_max_gross_exposure_nanos p); [|by eexists].
    destruct (0 <? inc); [|by eexists]. destruct (sn_gross_exposure_nanos _) as [g|]; [|by eexists].
    rewrite sane_abs by done.
    destruct (sane_add g (Z.abs (rq_requested_notional_nanos r))) as [-> _];
      [by apply Hg|unfold sane_amount in *; lia|].
    simpl. rewrite positive_limit_decided by auto. solve_decided.
  - unfold check_net_exposure. pose proof (pv_net _ Hp) as Hm. pose proof (qv_net _ _ Hr) as Hg.
    unfold opt_ok in *. destruct (po_max_net_exposure_abs_nanos p); [|by eexists].
    destruct (0 <? inc); [|by eexists]. destruct (sn_net_exposure_nanos _) as [g|]; [|by eexists].
    destruct (sane_add g (rq_requested_notional_nanos r)) as [-> Ha]; [by apply Hg|done|].
    simpl. rewrite Ha, positive_limit_decided by auto. solve_decided.
  - unfold check_instrument_exposure. pose proof (pv_instrument _ Hp) as Hm.
    pose proof (qv_instrument _ _ Hr) as Hg.
    unfold opt_ok in *. destruct (po_max_instrument_exposure_nanos p); [|by eexists].
    destruct (0 <? inc); [|by eexists]. destruct (sn_instrument_exposure_nanos _) as [g|]; [|by eexists].
    destruct (sane_add g (rq_requested_notional_nanos r)) as [-> Ha]; [by apply Hg|done|].
    simpl. rewrite Ha, positive_limit_decided by auto. solve_decided.
Qed.

Lemma size_and_decide_decided uuid p r inc :
  policy_valid p → request_valid p r → decided (size_and_decide uuid p r inc).
Proof.
  intros Hp Hr. unfold size_and_decide. pose proof (qv_requested _ _ Hr) as Hq.
  unfold abs_lots, unsigned_abs. rewrite checked_fits by int_lia. simpl.
  assert (∃ a w, size_to_policy p (Z.abs (rq_requested_delta_lots r)) = Ok (a, w)) as (a & w & H1).
  { unfold size_to_policy. pose proof (pv_single _ Hp) as Hm. unfold opt_ok in Hm.
    destruct (po_max_single_order_lots p) as [m|]; [|by do 2 eexists]. specialize (Hm m eq_refl).
    destruct (m <=? 0) eqn:?; [lia|]. case_match; by do 2 eexists. }
  rewrite H1. apply size_to_policy_Ok in H1 as (Hle & Hnone & Hpos & Hnn & _ & _).
  destruct (qv_limits _ _ Hr) as [l Hl].
  destruct (size_to_provider uuid p r inc (a, w)) as [[d|[a' w']]|] eqn:H2; [by eexists| |].
  - unfold final_decision. destruct (a' =? 0) eqn:Hz; [by eexists|].
    destruct (Z.eq_dec (rq_requested_delta_lots r) 0) as [Hz0|Hnz].
    { exfalso. unfold size_to_provider in H2. rewrite Hl in H2. assert (a = 0) as -> by lia.
      destruct l as [l|]; [pose proof (provider_limit_nonneg _ _ _ Hl)|]; branches; lia. }
    apply size_to_provider_Ok in H2 as (Hr2 & Hn2 & _); [|lia].
    unfold checked_mul, signum. rewrite checked_fits by int_lia. simpl.
    destruct (a' * _ =? _) eqn:Heq; [by eexists|].
    destruct w' as [[]|]; [by eexists|]. exfalso.
    destruct (Hn2 eq_refl) as [-> ->]. rewrite (Hnone eq_refl) in Heq. nia.
  - exfalso. unfold size_to_provider in H2. rewrite Hl in H2. branches.
Qed.

(** ** What passing a limit means *)

Section passes.
Context (uuid : string) (p : RiskPolicySet) (r : RiskRequest) (inc : Z).
Hypothesis Hinc : 0 < inc.

Lemma daily_loss_pass m :
  check_daily_loss uuid p r inc = Ok None → po_max_daily_loss_nanos p = Some m →
  ∃ x, sn_broker_daily_pnl_nanos (rq_snapshot r) = Some x ∧ 0 < m ∧ - m ≤ x.
Proof.
  unfold check_daily_loss, positive_limit. intros H Hm. rewrite Hm in H.
  branches; [|lia]. eexists; split; [done|lia].
Qed.

Lemma gross_pass m :
  check_gross_exposure uuid p r inc = Ok None → po_max_gross_exposure_nanos p = Some m →
  ∃ x, sn_gross_exposure_nanos (rq_snapshot r) = Some x ∧
    x + Z.abs (rq_requested_notional_nanos r) ≤ m.
Proof.
  unfold check_gross_exposure, positive_limit, engine_checked_abs. intros H Hm. rewrite Hm in H.
  branches; [|lia]. prop_tests. subst. eexists; split; [done|lia].
Qed.

Lemma net_pass m :
  check_net_exposure uuid p r inc = Ok None → po_max_net_exposure_abs_nanos p = Some m →
  ∃ x, sn_net_exposure_nanos (rq_snapshot r) = Some x ∧
    Z.abs (x + rq_requested_notional_nanos r) ≤ m.
Proof.
  unfold check_net_exposure, positive_limit, engine_checked_abs. intros H Hm. rewrite Hm in H.
  branches; [|lia]. prop_tests. subst. eexists; split; [done|lia].
Qed.

Lemma instrument_pass m :
  check_instrument_exposure uuid p r inc = Ok None → po_max_instrument_exposure_nanos p = Some m →
  ∃ x, sn_instrument_exposure_nanos (rq_snapshot r) = Some x ∧
    Z.abs (x + rq_requested_notional_nanos r) ≤ m.
Proof.
  unfold check_instrument_exposure, positive_limit, engine_checked_abs. intros H Hm. rewrite Hm in H.
  branches; [|lia]. prop_tests. subst. eexists; split; [done|lia].
Qed.

Lemma margin_pass m :
  check_margin_utilization uuid p r inc = Ok None → po_max_margin_utilization_ppm p = Some m →
  ∃ x, sn_margin (rq_snapshot r) = Some x ∧ 0 < mf_liquid_portfolio_nanos x ∧
    Z.quot (mf_corrected_margin_nanos x * 1000000) (mf_liquid_portfolio_nanos x) ≤ m.
Proof.
  unfold check_margin_utilization, checked_div. intros H Hm. rewrite Hm in H.
  destruct (0 <? inc) eqn:?; [|lia]. destruct (m <=? 0); [done|].
  destruct (sn_margin _) as [x|]; [|done]. destruct (_ || _) eqn:Hbad; [done|]. prop_tests.
  destruct (checked_mul I128 _ _) as [v|] eqn:Hv; [|done]. simpl in H. prop_tests. subst.
  branches. prop_tests. subst. exists x. split_and!; [done|lia|lia].
Qed.

Lemma market_data_pass m :
  check_new_exposure uuid p r inc = Ok None → po_max_market_data_age_ms p = Some m →
  ∃ t, vc_market_data_as_of_unix_ms (sn_validity (rq_snapshot r)) = Some t ∧
    saturating_sub I64 (rq_now_unix_ms r) t ≤ m.
Proof.
  unfold check_new_exposure, validate_market_data. intros H Hm. rewrite Hm in H.
  destruct (0 <? inc) eqn:?; [|lia]. destruct (m <? 0); [done|].
  destruct (vc_market_data_as_of_unix_ms _) as [t|]; [|done].
  destruct (m <? _) eqn:?; [done|]. exists t. split; [done|lia].
Qed.
Lemma protection_pass :
  check_new_exposure uuid p r inc = Ok None → po_protection_required_for_new_exposure p = true →
  validate_protection uuid p r = Ok None.
Proof.
  unfold check_new_exposure. intros H Hreq. destruct (0 <? inc) eqn:?; [|lia].
  by destruct (validate_market_data uuid p r) as [[d|]|].
Qed.

Lemma unprotected_duration_pass m :
  check_unprotected_duration uuid p r = Ok None → po_max_unprotected_duration_ms p = Some m →
  ∃ t, ps_position_entered_at_unix_ms (sn_protection (rq_snapshot r)) = Some t ∧
    (uncovered_abs_lots (sn_protection (rq_snapshot r)) ≤ 0 ∨
     saturating_sub I64 (rq_now_unix_ms r) t ≤ m).
Proof.
  unfold check_unprotected_duration. intros H Hm. rewrite Hm in H.
  destruct (m <? 0); [done|]. destruct (ps_position_entered_at_unix_ms _) as [t|]; [|done].
  cbn [ok_or] in H. destruct (_ && _) eqn:Hu; [done|]. apply andb_false_iff in Hu.
  exists t. split; [done|]. destruct Hu; [left|right]; lia.
Qed.

End passes.

(** ** Properties *)

(** C1. The engine fails closed: a decision that permits dispatch was taken at the
    policy revision the request was built on and with execution authorised, and a
    directional one only with the runtime ready, no unresolved UNKNOWN mutation, a
    positive lot size, a tradable instrument and a non-zero quantity. *)
Theorem evaluate_fails_closed uuid p r d :
  evaluate uuid p r = Ok d → permits_dispatch d = true →
  vc_policy_revision (sn_validity (rq_snapshot r)) = po_revision p ∧
  sn_execution_authorized (rq_snapshot r) = true ∧
  (directional (rq_action r) = true →
     sn_runtime_ready (rq_snapshot r) = true ∧
     sn_unresolved_unknown_conflict (rq_snapshot r) = false ∧
     0 < sn_instrument_lot_size (rq_snapshot r) ∧
     sn_instrument_tradable (rq_snapshot r) = true ∧
     rq_requested_delta_lots r ≠ 0).
Proof.
  intros He Hp. destruct (evaluate_permitted _ _ _ _ He Hp) as (base & proj & inc & Hc & _).
  destruct Hc as [Hq Hi Hr Hrt _ _ _ _].
  unfold check_policy_revision in Hr. unfold check_runtime in Hrt. unfold check_instrument in Hi.
  pose proof (check_quantity_nonzero _ _ _ Hq) as Hnz.
  split; [branches; lia|]. split; [branches; by destruct (sn_execution_authorized _)|].
  intros Hd. specialize (Hnz Hd). rewrite Hd in Hi.
  assert (cleanup_action (rq_action r) = false) as Hcl by (by destruct (rq_action r)).
  rewrite Hcl in Hrt. branches; prop_tests; split_and!; try done; try lia;
    by destruct (sn_runtime_ready _), (sn_unresolved_unknown_conflict _), (sn_instrument_tradable _).
Qed.

(** C2. A directional approval never exceeds what was asked or any quantity limit:
    the approved lots have the direction of the request and at most its size, stay
    within the policy's single-order limit and the broker's lot limit for that side
    and kind of order, are the request exactly when the outcome is an approval, and
    a required broker limit that is unknown admits no increase. *)
Theorem approved_quantity_bounded uuid p r d :
  evaluate uuid p r = Ok d → permits_dispatch d = true → directional (rq_action r) = true →
  let approved := rd_approved_delta_lots d in
  partial_fill approved (rq_requested_delta_lots r) ∧ approved ≠ 0 ∧
  (rd_outcome d = Outcome.Approve ∧ approved = rq_requested_delta_lots r ∨
   rd_outcome d = Outcome.Resize ∧ approved ≠ rq_requested_delta_lots r) ∧
  (∀ m, po_max_single_order_lots p = Some m → Z.abs approved ≤ m) ∧
  (∀ l, provider_limit p r = Ok (Some l) → Z.abs approved ≤ l) ∧
  (∀ base, base_position r = Ok base → po_require_provider_lot_limit p = true →
     ¬ reduces_only base (rq_requested_delta_lots r) → ∃ l, provider_limit p r = Ok (Some l)).
Proof.
  intros He Hp Hd.
  destruct (evaluate_directional _ _ _ _ He Hp Hd) as (base & proj & inc & Hc & _ & _ & Hs & Hnz).
  destruct (size_and_decide_Ok _ _ _ _ _ Hnz Hs) as [[? _]|(H1 & H2 & H3 & H4 & H5 & H6 & _)];
    [congruence|].
  split_and!; try done. intros base' Hb Hreq Hred.
  rewrite (pass_base _ _ _ _ _ _ Hc) in Hb. simplify_eq. apply H6; [done|].
  exact (not_reduces_increasing _ _ _ (pass_increasing _ _ _ _ _ _ Hc) Hred).
Qed.

(** C12. In a restricted state exposure can only shrink: when the policy is
    REDUCE_ONLY, HALTED or KILL_SWITCH, an approved directional order, however far
    it fills, never enlarges the absolute position counted with resting orders,
    UNKNOWN mutations and reservations, and never takes it through zero. *)
Theorem restricted_state_only_reduces uuid p r d base :
  evaluate uuid p r = Ok d → permits_dispatch d = true → directional (rq_action r) = true →
  (po_state p = State.ReduceOnly ∨ po_state p = State.Halted ∨ po_state p = State.KillSwitch) →
  base = sn_current_position_lots (rq_snapshot r) + sn_open_order_delta_lots (rq_snapshot r)
         + sn_unresolved_unknown_delta_lots (rq_snapshot r)
         + sn_active_reservation_delta_lots (rq_snapshot r) →
  reduces_only base (rd_approved_delta_lots d).
Proof.
  intros He Hp Hd Hst ->.
  destruct (evaluate_directional _ _ _ _ He Hp Hd) as (base & proj & inc & Hc & _ & Hpf & _ & _).
  destruct Hc as [_ _ _ _ Hb _ Hi Hg]. apply base_position_Ok in Hb as <-.
  apply (reduces_only_part _ _ _ Hpf), (increasing_portion_reduces _ _ _ Hi).
  assert (cleanup_action (rq_action r) = false) as Hcl by (by destruct (rq_action r)).
  unfold state_gate in Hg. rewrite Hcl in Hg.
  destruct Hst as [Hst|[Hst|Hst]]; rewrite Hst in Hg; branches; try lia;
    destruct (rq_emergency_reduction r), (inc =? 0) eqn:?; simpl in *; try done; lia.
Qed.

(** Every exposure limit the policy sets is enforced on an order that is not a
    pure reduction, and a limit whose broker fact is missing admits nothing: the
    day's P&L is known and above the loss limit, gross, net and instrument exposure
    after the order are known and within theirs, the margin utilisation is known
    and within its limit and the market data is known and fresh enough. *)
Theorem approved_exposure_within_limits uuid p r d base :
  evaluate uuid p r = Ok d → permits_dispatch d = true → directional (rq_action r) = true →
  base_position r = Ok base → ¬ reduces_only base (rq_requested_delta_lots r) →
  let s := rq_snapshot r in let n := rq_requested_notional_nanos r in
  (∀ m, po_max_daily_loss_nanos p = Some m →
     ∃ x, sn_broker_daily_pnl_nanos s = Some x ∧ 0 < m ∧ - m ≤ x) ∧
  (∀ m, po_max_gross_exposure_nanos p = Some m →
     ∃ x, sn_gross_exposure_nanos s = Some x ∧ x + Z.abs n ≤ m) ∧
  (∀ m, po_max_net_exposure_abs_nanos p = Some m →
     ∃ x, sn_net_exposure_nanos s = Some x ∧ Z.abs (x + n) ≤ m) ∧
  (∀ m, po_max_instrument_exposure_nanos p = Some m →
     ∃ x, sn_instrument_exposure_nanos s = Some x ∧ Z.abs (x + n) ≤ m) ∧
  (∀ m, po_max_margin_utilization_ppm p = Some m →
     ∃ x, sn_margin s = Some x ∧ 0 < mf_liquid_portfolio_nanos x ∧
       Z.quot (mf_corrected_margin_nanos x * 1000000) (mf_liquid_portfolio_nanos x) ≤ m) ∧
  (∀ m, po_max_market_data_age_ms p = Some m →
     ∃ t, vc_market_data_as_of_unix_ms (sn_validity s) = Some t ∧
       saturating_sub I64 (rq_now_unix_ms r) t ≤ m).
Proof.
  intros He Hp Hd Hb Hred s n.
  destruct (evaluate_directional _ _ _ _ He Hp Hd) as (base' & proj & inc & Hc & Hdir & _).
  rewrite (pass_base _ _ _ _ _ _ Hc) in Hb. simplify_eq.
  pose proof (not_reduces_increasing _ _ _ (pass_increasing _ _ _ _ _ _ Hc) Hred) as Hinc.
  destruct Hdir as [Hnew _ Hmg Hl _ Hg Hn Hie].
  split_and!; intros m Hm; eauto using daily_loss_pass, gross_pass, net_pass, instrument_pass,
    margin_pass, market_data_pass.
Qed.

(** The position limit holds through every fill: when the policy sets a
    maximum absolute position, an approved directional order, resized or not and
    however far it fills, leaves the projected position within the larger of that
    maximum and the position it started from. *)
Theorem approved_position_within_limit uuid p r d base m f :
  evaluate uuid p r = Ok d → permits_dispatch d = true → directional (rq_action r) = true →
  base_position r = Ok base → po_max_position_abs_lots p = Some m →
  partial_fill f (rd_approved_delta_lots d) →
  Z.abs (base + f) ≤ Z.max (Z.abs base) (Z.abs m).
Proof.
  intros He Hp Hd Hb Hm Hf.
  destruct (evaluate_directional _ _ _ _ He Hp Hd) as (base' & proj & inc & Hc & Hdir & Hpf & _).
  rewrite (pass_base _ _ _ _ _ _ Hc) in Hb. simplify_eq.
  pose proof (pass_increasing _ _ _ _ _ _ Hc) as Hi.
  pose proof (pass_projected _ _ _ _ _ _ Hc) as Hproj.
  unfold checked_add in Hproj. apply checked_Some in Hproj as [-> _].
  assert (partial_fill f (rq_requested_delta_lots r)) as Hfr by (unfold partial_fill in *; lia).
  destruct (Z.lt_ge_cases 0 inc) as [Hpos|Hneg].
  - pose proof (pass_position _ _ _ _ _ Hdir) as Hmp. unfold check_max_position in Hmp.
    rewrite Hm in Hmp. case_match; [done|]. unfold unsigned_abs, partial_fill in *. lia.
  - apply (increasing_portion_reduces _ _ _ Hi) in Hneg. destruct (Hneg f Hfr). lia.
Qed.

(** Required protection is enforced on new exposure: an approved order that is
    not a pure reduction has a correlated plan in a state that permits exposure or
    a position fully covered by active stops, and, when the policy caps the
    unprotected time, the entry time is known and the position is either covered
    in full or younger than the cap. *)
Theorem protection_required_enforced uuid p r d base :
  evaluate uuid p r = Ok d → permits_dispatch d = true → directional (rq_action r) = true →
  base_position r = Ok base → ¬ reduces_only base (rq_requested_delta_lots r) →
  po_protection_required_for_new_exposure p = true →
  let s := sn_protection (rq_snapshot r) in
  has_ty I64 (ps_position_lots s) → ps_position_lots s ≠ int_min I64 →
  ((∃ st, ps_plan_state s = Some st ∧ Plan.permits_additional_exposure st = true) ∨
   ps_position_lots s ≠ 0 ∧ Z.abs (ps_position_lots s) ≤ Z.abs (ps_active_stop_lots s)) ∧
  (∀ cap, po_max_unprotected_duration_ms p = Some cap →
     ∃ t, ps_position_entered_at_unix_ms s = Some t ∧
       (Z.abs (ps_position_lots s) ≤ Z.abs (ps_active_stop_lots s) ∨
        saturating_sub I64 (rq_now_unix_ms r) t ≤ cap)).
Proof.
  intros He Hp Hd Hb Hred Hreq s Hty Hmin.
  destruct (evaluate_directional _ _ _ _ He Hp Hd) as (base' & proj & inc & Hc & Hdir & _).
  rewrite (pass_base _ _ _ _ _ _ Hc) in Hb. simplify_eq.
  pose proof (not_reduces_increasing _ _ _ (pass_increasing _ _ _ _ _ _ Hc) Hred) as Hinc.
  pose proof (protection_pass _ _ _ _ Hinc (pass_new_exposure _ _ _ _ _ Hdir) Hreq) as Hv.
  unfold validate_protection in Hv. rewrite Hreq in Hv. simpl in Hv.
  destruct (check_unprotected_duration uuid p r) as [[d'|]|] eqn:Hdur; [done| |done].
  pose proof (uncovered_abs_lots_exact s Hty Hmin) as Hu. split.
  - fold s in Hv. destruct (negb _ && negb _) eqn:Hacc; [done|].
    apply andb_false_iff in Hacc as [Ha|Ha]; apply negb_false_iff in Ha.
    + left. destruct (ps_plan_state s) as [st|]; [by exists st|done].
    + right. unfold full_coverage in Ha. prop_tests. lia.
  - intros cap Hcap. destruct (unprotected_duration_pass _ _ _ _ Hdur Hcap) as (t & Ht & Hor).
    exists t. split; [done|]. fold s in Hor. lia.
Qed.

(** Cleaning up is always possible: cancelling an order, maintaining or
    cancelling protection with no directional quantity is approved in every risk
    state, ready or not and with or without UNKNOWN mutations, whenever execution is
    authorised, the policy revision is current and the position sum fits its width;
    the approval carries no quantity. *)
Theorem cleanup_always_permitted uuid p r base :
  cleanup_action (rq_action r) = true → rq_requested_delta_lots r = 0 →
  sn_execution_authorized (rq_snapshot r) = true →
  vc_policy_revision (sn_validity (rq_snapshot r)) = po_revision p →
  base_position r = Ok base → has_ty I64 base →
  ∃ d, evaluate uuid p r = Ok d ∧ rd_outcome d = Outcome.Approve ∧
    rd_approved_delta_lots d = 0 ∧ permits_dispatch d = true.
Proof.
  intros Hcl Hz Hauth Hrev Hb Hty.
  assert (directional (rq_action r) = false) as Hd by (by destruct (rq_action r)).
  unfold evaluate, check_quantity, check_instrument, check_policy_revision, check_runtime,
    approve_maintenance, and_then.
  rewrite Hd, Hcl, Hz, Hauth, Hrev, Hb, (Z.eqb_refl (po_revision p)), !andb_false_r. cbn [negb andb Z.eqb].
  unfold checked_add. rewrite Z.add_0_r, checked_fits by done. cbn [ok_or].
  assert (increasing_portion base 0 = Ok 0) as -> by reflexivity.
  assert (state_gate uuid p r 0 = Ok None) as ->.
  { unfold state_gate. rewrite Hcl, orb_true_r. by destruct (po_state p). }
  eexists; split_and!; [done..|]. unfold permits_dispatch; simpl. by destruct (rq_action r).
Qed.

(** The engine always answers: for a policy whose limits make sense and a
    request whose facts lie in their plausible ranges, the evaluation ends in a
    decision and never in an error. *)
Theorem evaluate_total uuid p r :
  policy_valid p → request_valid p r → ∃ d, evaluate uuid p r = Ok d.
Proof.
  intros Hp Hr. change (decided (evaluate uuid p r)). unfold evaluate.
  repeat (apply and_then_decided;
    [unfold check_quantity, check_instrument, check_policy_revision, check_runtime; solve_decided|]).
  pose proof (qv_lots _ _ Hr). pose proof (qv_orders _ _ Hr). pose proof (qv_unknown _ _ Hr).
  pose proof (qv_reserved _ _ Hr). pose proof (qv_requested _ _ Hr).
  assert (∃ b, base_position r = Ok b) as [b Hb].
  { unfold base_position, checked_add. do 3 (rewrite checked_fits by int_lia; simpl). by eexists. }
  rewrite Hb. apply base_position_Ok in Hb. unfold checked_add.
  rewrite checked_fits by int_lia. cbn [ok_or].
  assert (∃ inc, increasing_portion b (rq_requested_delta_lots r) = Ok inc) as [inc ->].
  { unfold increasing_portion, abs_lots, unsigned_abs. rewrite !checked_fits by int_lia. simpl.
    repeat case_match; by eexists. }
  destruct (check_exposures_decided uuid p r inc) as (Hg & Hn & Hi); [done..|].
  repeat (apply and_then_decided); auto using check_new_exposure_decided,
    check_margin_utilization_decided, check_daily_loss_decided, size_and_decide_decided;
    unfold state_gate, approve_maintenance, check_margin_allowed, check_max_position; solve_decided.
Qed.

(** What a HALTED or KILL_SWITCH policy lets through is exactly a full close:
    a directional order is approved there only as an emergency reduction whose
    quantity is the exact opposite of the position counted with resting orders,
    UNKNOWN mutations and reservations; a partial emergency reduction is refused. *)
Theorem halted_admits_only_exact_close uuid p r d base :
  evaluate uuid p r = Ok d → permits_dispatch d = true → directional (rq_action r) = true →
  (po_state p = State.Halted ∨ po_state p = State.KillSwitch) →
  base_position r = Ok base →
  rq_emergency_reduction r = true ∧ rq_requested_delta_lots r = - base.
Proof.
  intros He Hp Hd Hst Hb.
  destruct (evaluate_directional _ _ _ _ He Hp Hd) as (base' & proj & inc & Hc & _ & _ & _ & Hnz).
  rewrite (pass_base _ _ _ _ _ _ Hc) in Hb. simplify_eq.
  destruct Hc as [_ _ _ _ _ _ Hi Hg].
  assert (cleanup_action (rq_action r) = false) as Hcl by (by destruct (rq_action r)).
  assert (rq_emergency_reduction r = true ∧ inc = 0) as [Hem ->].
  { unfold state_gate in Hg. rewrite Hcl, orb_false_r in Hg.
    destruct Hst as [Hst|Hst]; rewrite Hst in Hg; branches; prop_tests; split; try done; lia. }
  split; [done|]. apply increasing_portion_Ok in Hi. branches; lia.
Qed.

(** ** Witnesses: one account, a policy that sets every limit, and four requests *)

Definition sample_policy (state : RiskState) : RiskPolicySet :=
  {| po_revision := 7; po_state := state; po_allow_margin := false;
     po_require_provider_lot_limit := true; po_max_market_data_age_ms := Some 1000;
     po_max_single_order_lots := Some 10; po_max_position_abs_lots := Some 30;
     po_max_gross_exposure_nanos := Some 9000; po_max_net_exposure_abs_nanos := Some 9000;
     po_max_instrument_exposure_nanos := Some 9000; po_max_margin_utilization_ppm := Some 500000;
     po_max_daily_loss_nanos := Some 100; po_protection_required_for_new_exposure := true;
     po_max_unprotected_duration_ms := Some 60000 |}.

Definition sample_snapshot : RiskSnapshot :=
  {| sn_runtime_ready := true; sn_execution_authorized := true; sn_instrument_tradable := true;
     sn_instrument_lot_size := 1; sn_unresolved_unknown_conflict := false;
     sn_current_position_lots := 4; sn_open_order_delta_lots := 2;
     sn_unresolved_unknown_delta_lots := 0; sn_active_reservation_delta_lots := -1;
     sn_gross_exposure_nanos := Some 1000; sn_net_exposure_nanos := Some 1000;
     sn_instrument_exposure_nanos := Some 1000; sn_broker_daily_pnl_nanos := Some (-50);
     sn_broker_lot_limits :=
       Some {| ll_buy_own := Some {| bl_max_lots := 20; bl_max_market_lots := 18 |};
               ll_buy_margin := None; ll_sell_own := Some {| sl_max_lots := 20 |};
               ll_sell_margin := None |};
     sn_margin :=
       Some {| mf_liquid_portfolio_nanos := 1000; mf_starting_margin_nanos := 10;
               mf_minimal_margin_nanos := 5; mf_corrected_margin_nanos := 10;
               mf_funds_sufficiency_ppm := None; mf_amount_of_missing_funds_nanos := 0;
               mf_guarantee_for_futures_nanos := 0; mf_broker_as_of_unix_ms := 0 |};
     sn_protection :=
       {| ps_active_stop_lots := -4; ps_position_lots := 4;
          ps_position_entered_at_unix_ms := Some 1000; ps_plan_id := None; ps_plan_state := None |};
     sn_validity :=
       {| vc_runtime_epoch := 1; vc_reconciliation_revision := 1; vc_position_revision := 1;
          vc_order_revision := 1; vc_market_data_as_of_unix_ms := Some 5000;
          vc_instrument_constraints_revision := 1; vc_policy_revision := 7;
          vc_execution_authorization_revision := 1 |} |}.

Definition sample_request (action : RiskActionKind) (lots notional : Z) (emergency : bool) : RiskRequest :=
  {| rq_request_id := "request-1"; rq_account_id := "account-1"; rq_broker_connection_id := "broker-1";
     rq_instrument_id := "SBER"; rq_strategy_id := None; rq_source := Source.Manual;
     rq_action := action; rq_requested_delta_lots := lots; rq_requested_notional_nanos := notional;
     rq_is_market_order := true; rq_confirm_margin_trade := false;
     rq_emergency_reduction := emergency; rq_now_unix_ms := 5500; rq_snapshot := sample_snapshot |}.

Definition sample_buy := sample_request Action.DirectionalOrder 15 3000 false.
Definition sample_sell := sample_request Action.DirectionalOrder (-3) (-600) false.
Definition sample_close := sample_request Action.DirectionalOrder (-5) (-1000) true.
Definition sample_cancel := sample_request Action.CancelOrder 0 0 false.

(** The decision of an evaluation that ends in one. *)
Definition decision_of (v : result RiskEngineError RiskDecision) : RiskDecision :=
  match v with Ok d => d | Err _ => reject "" (sample_policy State.Normal) sample_buy
                                       Outcome.Halt Reason.PersistenceFailure "" end.

Definition sample_decision (state : RiskState) (r : RiskRequest) : RiskDecision :=
  decision_of (evaluate "id-1" (sample_policy state) r).

Lemma sample_buy_increases : ¬ reduces_only 5 (rq_requested_delta_lots sample_buy).
Proof. rewrite reduces_only_sign. simpl. lia. Qed.

Example sample_buy_resized :
  rd_outcome (sample_decision State.Normal sample_buy) = Outcome.Resize ∧
  rd_approved_delta_lots (sample_decision State.Normal sample_buy) = 10.
Proof. vm_compute. done. Qed.

Lemma evaluate_fails_closed_witness : sn_execution_authorized (rq_snapshot sample_buy) = true.
Proof.
  apply (evaluate_fails_closed "id-1" (sample_policy State.Normal) sample_buy
           (sample_decision State.Normal sample_buy)); vm_compute; reflexivity.
Defined.

Lemma approved_quantity_bounded_witness :
  Z.abs (rd_approved_delta_lots (sample_decision State.Normal sample_buy)) ≤ 10.
Proof.
  destruct (approved_quantity_bounded "id-1" (sample_policy State.Normal) sample_buy
              (sample_decision State.Normal sample_buy)) as (_ & _ & _ & H & _);
    [reflexivity | reflexivity | reflexivity | exact (H 10 eq_refl)].
Defined.

Lemma restricted_state_only_reduces_witness :
  reduces_only 5 (rd_approved_delta_lots (sample_decision State.ReduceOnly sample_sell)).
Proof.
  apply (restricted_state_only_reduces "id-1" (sample_policy State.ReduceOnly) sample_sell);
    [reflexivity | reflexivity | reflexivity | left; reflexivity | reflexivity].
Defined.

Lemma approved_exposure_within_limits_witness :
  ∃ x, sn_gross_exposure_nanos sample_snapshot = Some x ∧ x + Z.abs 3000 ≤ 9000.
Proof.
  destruct (approved_exposure_within_limits "id-1" (sample_policy State.Normal) sample_buy
              (sample_decision State.Normal sample_buy) 5) as (_ & H & _);
    [reflexivity | reflexivity | reflexivity | reflexivity | exact sample_buy_increases
    | exact (H 9000 eq_refl)].
Defined.

Lemma approved_position_within_limit_witness : Z.abs (5 + 7) ≤ Z.max (Z.abs 5) (Z.abs 30).
Proof.
  apply (approved_position_within_limit "id-1" (sample_policy State.Normal) sample_buy
           (sample_decision State.Normal sample_buy));
    try reflexivity. left. split; vm_compute; discriminate.
Defined.

Lemma protection_required_enforced_witness :
  ∃ t, ps_position_entered_at_unix_ms (sn_protection sample_snapshot) = Some t ∧
    (Z.abs 4 ≤ Z.abs (-4) ∨ saturating_sub I64 5500 t ≤ 60000).
Proof.
  destruct (protection_required_enforced "id-1" (sample_policy State.Normal) sample_buy
              (sample_decision State.Normal sample_buy) 5) as (_ & H);
    [reflexivity | reflexivity | reflexivity | reflexivity | exact sample_buy_increases | reflexivity
    | split; vm_compute; discriminate | vm_compute; discriminate | exact (H 60000 eq_refl)].
Defined.

Lemma cleanup_always_permitted_witness :
  ∃ d, evaluate "id-1" (sample_policy State.KillSwitch) sample_cancel = Ok d ∧
    rd_outcome d = Outcome.Approve ∧ rd_approved_delta_lots d = 0 ∧ permits_dispatch d = true.
Proof.
  apply (cleanup_always_permitted "id-1" (sample_policy State.KillSwitch) sample_cancel 5);
    try reflexivity. split; vm_compute; discriminate.
Defined.

Lemma evaluate_total_witness :
  ∃ d, evaluate "id-1" (sample_policy State.Warning) sample_buy = Ok d.
Proof.
  apply (evaluate_total "id-1" (sample_policy State.Warning) sample_buy).
  - constructor; intros v [= <-]; lia.
  - constructor; unfold sane_amount; simpl; try lia; try (intros v [= <-]; simpl; lia).
    + exists (Some 18). reflexivity.
    + intros _ _. eexists. reflexivity.
Defined.

Lemma halted_admits_only_exact_close_witness :
  rq_emergency_reduction sample_close = true ∧ rq_requested_delta_lots sample_close = -5.
Proof.
  apply (halted_admits_only_exact_close "id-1" (sample_policy State.Halted) sample_close
           (sample_decision State.Halted sample_close) 5);
    [reflexivity | reflexivity | reflexivity | left; reflexivity | reflexivity].
Defined.
