(* ===== verification/RiskPlan.v ===== *)
(** * The approved execution plan: [crates/vox-risk/src/plan.rs]

    The immutable hand-off from the risk boundary to execution.  A plan exists only
    for a persisted decision bound to the request it was made for and, for a
    directional action, to an ACTIVE reservation of exactly the approved quantity. *)
From S2P Require Import Prelude RiskModel.

Record RiskApprovedExecutionPlan := {
  ep_decision_id : string;
  ep_reservation_id : option string;
  ep_action : RiskActionKind;
  ep_logical_request_id : string;
  ep_account_id : string;
  ep_broker_connection_id : string;
  ep_instrument_id : string;
  ep_approved_delta_lots : Z;
  ep_validity : RiskValidityContext;
}.

Record RiskDispatchContext := {
  dc_logical_request_id : string;
  dc_account_id : string;
  dc_broker_connection_id : string;
  dc_instrument_id : string;
  dc_action : RiskActionKind;
  dc_delta_lots : Z;
  dc_validity : RiskValidityContext;
}.

Inductive RiskApprovedExecutionPlanError :=
| DecisionDoesNotPermitDispatch
| RequestIdentityMismatch
| AccountMismatch
| ActionMismatch
| InstrumentMismatch
| ReservationMismatch
| ReservationRequired
| UnexpectedReservation
| QuantityMismatch
| ReservationNotActive
| ValidityMismatch.

#[export] Instance RiskApprovedExecutionPlan_eq_dec : EqDecision RiskApprovedExecutionPlan.
Proof. solve_decision. Defined.

Notation "a =s b" := (bool_decide (a = b)) (at level 70, only parsing) : rust_scope.

(** The reservation checks of a directional plan. *)
Definition bind_reservation (decision : RiskDecision) (reservation : RiskReservation)
    (request : RiskRequest) : result RiskApprovedExecutionPlanError string :=
  if negb (rv_logical_request_id reservation =s rq_request_id request) then Err RequestIdentityMismatch
  else if negb (rv_account_id reservation =s rq_account_id request) then Err AccountMismatch
  else if negb (rv_instrument_id reservation =s rq_instrument_id request) then Err InstrumentMismatch
  else if negb (rd_reservation_id decision =s Some (rv_reservation_id reservation))
  then Err ReservationMismatch
  else if negb (rd_approved_delta_lots decision =? rv_reserved_delta_lots reservation)
          || negb (rv_remaining_delta_lots reservation =? rd_approved_delta_lots decision)
  then Err QuantityMismatch
  else match rv_state reservation with
       | Resv.Active => Ok (rv_reservation_id reservation)
       | _ => Err ReservationNotActive
       end.

Definition from_persisted (decision : RiskDecision) (reservation : option RiskReservation)
    (request : RiskRequest) : result RiskApprovedExecutionPlanError RiskApprovedExecutionPlan :=
  if negb (permits_dispatch decision) then Err DecisionDoesNotPermitDispatch
  else if negb (rd_request_id decision =s rq_request_id request) then Err RequestIdentityMismatch
  else if negb (rd_account_id decision =s rq_account_id request) then Err AccountMismatch
  else if negb (rd_action decision =s rq_action request) then Err ActionMismatch
  else if negb (rd_validity decision =s sn_validity (rq_snapshot request)) then Err ValidityMismatch
  else
    let? reservation_id :=
      match rq_action request with
      | Action.DirectionalOrder | Action.ReplaceDirectionalOrder =>
          let? reservation := ok_or reservation ReservationRequired in
          let? id := bind_reservation decision reservation request in
          Ok (Some id)
      | Action.CancelOrder | Action.ProtectionMaintenance | Action.CancelProtection =>
          if bool_decide (is_Some reservation) || bool_decide (is_Some (rd_reservation_id decision))
          then Err UnexpectedReservation
          else if negb (rd_approved_delta_lots decision =? 0) then Err QuantityMismatch
          else Ok None
      end in
    Ok {| ep_decision_id := rd_decision_id decision;
          ep_reservation_id := reservation_id;
          ep_action := rd_action decision;
          ep_logical_request_id := rq_request_id request;
          ep_account_id := rq_account_id request;
          ep_broker_connection_id := rq_broker_connection_id request;
          ep_instrument_id := rq_instrument_id request;
          ep_approved_delta_lots := rd_approved_delta_lots decision;
          ep_validity := rd_validity decision |}.

Definition matches_dispatch_context (self : RiskApprovedExecutionPlan) (context : RiskDispatchContext)
  : bool :=
  (ep_logical_request_id self =s dc_logical_request_id context)
  && (ep_account_id self =s dc_account_id context)
  && (ep_broker_connection_id self =s dc_broker_connection_id context)
  && (ep_instrument_id self =s dc_instrument_id context)
  && (ep_action self =s dc_action context)
  && (ep_approved_delta_lots self =? dc_delta_lots context)
  && (ep_validity self =s dc_validity context).

(** ** Lemmas *)

(** The reservation that backs a directional decision for a request. *)
Record backed_by (decision : RiskDecision) (reservation : RiskReservation) (request : RiskRequest)
  : Prop := {
  bk_request : rv_logical_request_id reservation = rq_request_id request;
  bk_account : rv_account_id reservation = rq_account_id request;
  bk_instrument : rv_instrument_id reservation = rq_instrument_id request;
  bk_link : rd_reservation_id decision = Some (rv_reservation_id reservation);
  bk_reserved : rv_reserved_delta_lots reservation = rd_approved_delta_lots decision;
  bk_remaining : rv_remaining_delta_lots reservation = rd_approved_delta_lots decision;
  bk_state : rv_state reservation = Resv.Active;
}.

Lemma bind_reservation_Ok decision reservation request id :
  bind_reservation decision reservation request = Ok id ↔
  backed_by decision reservation request ∧ id = rv_reservation_id reservation.
Proof.
  unfold bind_reservation. split.
  - intros H. branches. prop_tests. split; [constructor|]; try done; lia.
  - intros [[H1 H2 H3 H4 H5 H6 H7] ->].
    rewrite !bool_decide_eq_true_2 by done. rewrite H5, H6, H7, Z.eqb_refl. done.
Qed.

Lemma from_persisted_Ok decision reservation request plan :
  from_persisted decision reservation request = Ok plan →
  permits_dispatch decision = true ∧
  rd_request_id decision = rq_request_id request ∧ rd_account_id decision = rq_account_id request ∧
  rd_action decision = rq_action request ∧ rd_validity decision = sn_validity (rq_snapshot request) ∧
  match rq_action request with
  | Action.DirectionalOrder | Action.ReplaceDirectionalOrder =>
      ∃ r, reservation = Some r ∧ backed_by decision r request ∧
        ep_reservation_id plan = Some (rv_reservation_id r)
  | _ => reservation = None ∧ rd_reservation_id decision = None ∧
         rd_approved_delta_lots decision = 0 ∧ ep_reservation_id plan = None
  end ∧
  ep_decision_id plan = rd_decision_id decision ∧ ep_action plan = rd_action decision ∧
  ep_logical_request_id plan = rq_request_id request ∧ ep_account_id plan = rq_account_id request ∧
  ep_broker_connection_id plan = rq_broker_connection_id request ∧
  ep_instrument_id plan = rq_instrument_id request ∧
  ep_approved_delta_lots plan = rd_approved_delta_lots decision ∧
  ep_validity plan = rd_validity decision.
Proof.
  unfold from_persisted. intros H.
  pass_tests H. do 5 (split; [done|]).
  destruct (rq_action request) eqn:Ha.
  1,2: destruct reservation as [r|]; [|done]; cbn [ok_or] in H;
    destruct (bind_reservation decision r request) as [id|] eqn:Hb; [|done];
    apply bind_reservation_Ok in Hb as [Hb ->]; simplify_eq/=; split; [by exists r|done].
  all: destruct reservation; [done|]; destruct (rd_reservation_id decision); [done|]; simpl in H;
    destruct (rd_approved_delta_lots decision =? 0) eqn:Hz; [|done]; simplify_eq/=;
    split; [|done]; repeat split; lia.
Qed.

Lemma matches_dispatch_context_true plan ctx :
  matches_dispatch_context plan ctx = true ↔
  ctx = {| dc_logical_request_id := ep_logical_request_id plan; dc_account_id := ep_account_id plan;
           dc_broker_connection_id := ep_broker_connection_id plan;
           dc_instrument_id := ep_instrument_id plan; dc_action := ep_action plan;
           dc_delta_lots := ep_approved_delta_lots plan; dc_validity := ep_validity plan |}.
Proof.
  unfold matches_dispatch_context. destruct ctx; simpl. split.
  - intros H. prop_tests. f_equal; try done. lia.
  - intros [= -> -> -> -> -> -> ->]. rewrite !bool_decide_eq_true_2, Z.eqb_refl by done. done.
Qed.

(** ** Properties *)

(** Only what was approved can be dispatched: a dispatch context that matches a
    plan built from a persisted approval names the request, account, broker
    connection and instrument of the request, the approved action and quantity and
    the validity watermarks the decision was taken on; the decision permits
    dispatch; a directional dispatch is backed by an ACTIVE, untouched reservation
    of exactly its quantity on that account and instrument, and any other carries
    neither quantity nor reservation. *)
Theorem dispatch_is_what_was_approved decision reservation request plan ctx :
  from_persisted decision reservation request = Ok plan →
  matches_dispatch_context plan ctx = true →
  permits_dispatch decision = true ∧
  ctx = {| dc_logical_request_id := rq_request_id request; dc_account_id := rq_account_id request;
           dc_broker_connection_id := rq_broker_connection_id request;
           dc_instrument_id := rq_instrument_id request; dc_action := rq_action request;
           dc_delta_lots := rd_approved_delta_lots decision;
           dc_validity := sn_validity (rq_snapshot request) |} ∧
  rd_request_id decision = rq_request_id request ∧ rd_account_id decision = rq_account_id request ∧
  match dc_action ctx with
  | Action.DirectionalOrder | Action.ReplaceDirectionalOrder =>
      ∃ r, reservation = Some r ∧ backed_by decision r request ∧ dc_delta_lots ctx ≠ 0
  | _ => reservation = None ∧ rd_reservation_id decision = None ∧ dc_delta_lots ctx = 0
  end.
Proof.
  intros H Hm%matches_dispatch_context_true.
  destruct (from_persisted_Ok _ _ _ _ H)
    as (Hp & Hr & Ha & Hact & Hv & Hcase & _ & E1 & E2 & E3 & E4 & E5 & E6 & E7).
  rewrite E1, E2, E3, E4, E5, E6, E7, Hact, Hv in Hm. subst ctx. split_and!; try done. simpl.
  unfold permits_dispatch in Hp. rewrite Hact in Hp.
  destruct (rq_action request); [| |naive_solver..];
    destruct Hcase as (r & Hr' & Hb & _); exists r; (split_and!; [done|done|]); branches; lia.
Qed.

Definition sample_validity : RiskValidityContext :=
  {| vc_runtime_epoch := 1; vc_reconciliation_revision := 1; vc_position_revision := 1;
     vc_order_revision := 1; vc_market_data_as_of_unix_ms := None;
     vc_instrument_constraints_revision := 1; vc_policy_revision := 7;
     vc_execution_authorization_revision := 1 |}.

Definition sample_approved : RiskDecision :=
  {| rd_decision_id := "d-1"; rd_request_id := "r-1"; rd_policy_revision := 7; rd_account_id := "a-1";
     rd_action := Action.DirectionalOrder; rd_requested_delta_lots := -3; rd_approved_delta_lots := -2;
     rd_outcome := Outcome.Resize; rd_reasons := []; rd_reservation_id := Some "v-1";
     rd_expires_at_unix_ms := None; rd_validity := sample_validity |}.

Definition sample_reservation : RiskReservation :=
  {| rv_reservation_id := "v-1"; rv_account_id := "a-1"; rv_instrument_id := "SBER";
     rv_strategy_id := None; rv_source := Source.Manual; rv_logical_request_id := "r-1";
     rv_reserved_delta_lots := -2; rv_remaining_delta_lots := -2; rv_reserved_notional_nanos := 500;
     rv_state := Resv.Active; rv_created_at_unix_ms := 10; rv_updated_at_unix_ms := 10;
     rv_expires_at_unix_ms := None |}.

Definition sample_order : RiskRequest :=
  {| rq_request_id := "r-1"; rq_account_id := "a-1"; rq_broker_connection_id := "c-1";
     rq_instrument_id := "SBER"; rq_strategy_id := None; rq_source := Source.Manual;
     rq_action := Action.DirectionalOrder; rq_requested_delta_lots := -3;
     rq_requested_notional_nanos := 750; rq_is_market_order := false;
     rq_confirm_margin_trade := false; rq_emergency_reduction := false; rq_now_unix_ms := 10;
     rq_snapshot :=
       {| sn_runtime_ready := true; sn_execution_authorized := true; sn_instrument_tradable := true;
          sn_instrument_lot_size := 1; sn_unresolved_unknown_conflict := false;
          sn_current_position_lots := 0; sn_open_order_delta_lots := 0;
          sn_unresolved_unknown_delta_lots := 0; sn_active_reservation_delta_lots := 0;
          sn_gross_exposure_nanos := None; sn_net_exposure_nanos := None;
          sn_instrument_exposure_nanos := None; sn_broker_daily_pnl_nanos := None;
          sn_broker_lot_limits := None; sn_margin := None;
          sn_protection := {| ps_active_stop_lots := 0; ps_position_lots := 0;
            ps_position_entered_at_unix_ms := None; ps_plan_id := None; ps_plan_state := None |};
          sn_validity := sample_validity |} |}.

Lemma dispatch_is_what_was_approved_witness :
  ∃ r, Some sample_reservation = Some r ∧ backed_by sample_approved r sample_order ∧ -2 ≠ 0.
Proof.
  destruct (dispatch_is_what_was_approved sample_approved (Some sample_reservation) sample_order
    {| ep_decision_id := "d-1"; ep_reservation_id := Some "v-1"; ep_action := Action.DirectionalOrder;
       ep_logical_request_id := "r-1"; ep_account_id := "a-1"; ep_broker_connection_id := "c-1";
       ep_instrument_id := "SBER"; ep_approved_delta_lots := -2; ep_validity := sample_validity |}
    {| dc_logical_request_id := "r-1"; dc_account_id := "a-1"; dc_broker_connection_id := "c-1";
       dc_instrument_id := "SBER"; dc_action := Action.DirectionalOrder; dc_delta_lots := -2;
       dc_validity := sample_validity |}) as (_ & _ & _ & _ & H);
    [reflexivity | reflexivity | exact H].
Defined.
