(* ===== verification/RiskAudit.v ===== *)
(** * Policy audit events: [crates/vox-risk/src/audit.rs]

    The classification of a policy change: which state transition it makes and
    which limits it touches.  [emit] only logs and is not modelled. *)
From S2P Require Import Prelude RiskModel.

Module Transition.
Inductive StateTransition :=
| ConfigOnly | NormalToWarning | WarningToHalted | NormalToHalted | ToReduceOnly
| ReduceOnlyToNormal | HaltedToReduceOnly | HaltedToNormal | WarningToReduceOnly | ToKillSwitch
| KillSwitchToReduceOnly | KillSwitchToNormal | KillSwitchToHalted | Other.
End Transition.
Notation StateTransition := Transition.StateTransition.

Record LimitsDelta := {
  ld_max_single_order_lots_changed : bool;
  ld_max_position_abs_lots_changed : bool;
  ld_max_gross_exposure_nanos_changed : bool;
  ld_max_net_exposure_abs_nanos_changed : bool;
  ld_max_instrument_exposure_nanos_changed : bool;
  ld_max_margin_utilization_ppm_changed : bool;
  ld_max_daily_loss_nanos_changed : bool;
  ld_max_market_data_age_ms_changed : bool;
  ld_allow_margin_changed : bool;
  ld_protection_required_changed : bool;
}.

Definition LimitsDelta_default : LimitsDelta :=
  {| ld_max_single_order_lots_changed := false; ld_max_position_abs_lots_changed := false;
     ld_max_gross_exposure_nanos_changed := false; ld_max_net_exposure_abs_nanos_changed := false;
     ld_max_instrument_exposure_nanos_changed := false; ld_max_margin_utilization_ppm_changed := false;
     ld_max_daily_loss_nanos_changed := false; ld_max_market_data_age_ms_changed := false;
     ld_allow_margin_changed := false; ld_protection_required_changed := false |}.

Definition has_changes (d : LimitsDelta) : bool :=
  ld_max_single_order_lots_changed d
  || ld_max_position_abs_lots_changed d
  || ld_max_gross_exposure_nanos_changed d
  || ld_max_net_exposure_abs_nanos_changed d
  || ld_max_instrument_exposure_nanos_changed d
  || ld_max_margin_utilization_ppm_changed d
  || ld_max_daily_loss_nanos_changed d
  || ld_max_market_data_age_ms_changed d
  || ld_allow_margin_changed d
  || ld_protection_required_changed d.

Record PolicyAuditEvent := {
  pa_event_id : string;
  pa_old_revision : option Z;
  pa_new_revision : Z;
  pa_old_state : option RiskState;
  pa_new_state : RiskState;
  pa_state_transition : StateTransition;
  pa_limits_changed : LimitsDelta;
  pa_emitted_at_unix_ms : Z;
}.

Definition compute_transition (old : option RiskState) (new : RiskState) : StateTransition :=
  match old with
  | None => Transition.ConfigOnly
  | Some old_state =>
      if bool_decide (old_state = new) then Transition.ConfigOnly
      else match old_state, new with
           | State.Normal, State.Warning => Transition.NormalToWarning
           | State.Warning, State.Halted => Transition.WarningToHalted
           | State.Normal, State.Halted => Transition.NormalToHalted
           | State.Warning, State.ReduceOnly | State.Normal, State.ReduceOnly => Transition.ToReduceOnly
           | State.ReduceOnly, State.Normal => Transition.ReduceOnlyToNormal
           | State.Halted, State.ReduceOnly => Transition.HaltedToReduceOnly
           | State.Halted, State.Normal => Transition.HaltedToNormal
           | _, State.KillSwitch => Transition.ToKillSwitch
           | State.KillSwitch, State.ReduceOnly => Transition.KillSwitchToReduceOnly
           | State.KillSwitch, State.Normal => Transition.KillSwitchToNormal
           | State.KillSwitch, State.Halted => Transition.KillSwitchToHalted
           | _, _ => Transition.Other
           end
  end.

Notation differs a b := (negb (bool_decide (a = b))) (only parsing).

Definition compute_limits_delta (old : option RiskPolicySet) (new : RiskPolicySet) : LimitsDelta :=
  match old with
  | None => LimitsDelta_default
  | Some old_policy =>
      {| ld_max_single_order_lots_changed :=
           differs (po_max_single_order_lots old_policy) (po_max_single_order_lots new);
         ld_max_position_abs_lots_changed :=
           differs (po_max_position_abs_lots old_policy) (po_max_position_abs_lots new);
         ld_max_gross_exposure_nanos_changed :=
           differs (po_max_gross_exposure_nanos old_policy) (po_max_gross_exposure_nanos new);
         ld_max_net_exposure_abs_nanos_changed :=
           differs (po_max_net_exposure_abs_nanos old_policy) (po_max_net_exposure_abs_nanos new);
         ld_max_instrument_exposure_nanos_changed :=
           differs (po_max_instrument_exposure_nanos old_policy) (po_max_instrument_exposure_nanos new);
         ld_max_margin_utilization_ppm_changed :=
           differs (po_max_margin_utilization_ppm old_policy) (po_max_margin_utilization_ppm new);
         ld_max_daily_loss_nanos_changed :=
           differs (po_max_daily_loss_nanos old_policy) (po_max_daily_loss_nanos new);
         ld_max_market_data_age_ms_changed :=
           differs (po_max_market_data_age_ms old_policy) (po_max_market_data_age_ms new);
         ld_allow_margin_changed := differs (po_allow_margin old_policy) (po_allow_margin new);
         ld_protection_required_changed :=
           differs (po_protection_required_for_new_exposure old_policy)
                   (po_protection_required_for_new_exposure new) |}
  end.

Definition PolicyAuditEvent_new (uuid : string) (old_policy : option RiskPolicySet)
    (new_policy : RiskPolicySet) (old_state : option RiskState) (emitted_at_unix_ms : Z)
  : PolicyAuditEvent :=
  let old_state' := match old_state with Some s => Some s | None => po_state <$> old_policy end in
  {| pa_event_id := "policy-audit:" +:+ uuid;
     pa_old_revision := po_revision <$> old_policy;
     pa_new_revision := po_revision new_policy;
     pa_old_state := old_state';
     pa_new_state := po_state new_policy;
     pa_state_transition := compute_transition old_state' (po_state new_policy);
     pa_limits_changed := compute_limits_delta old_policy new_policy;
     pa_emitted_at_unix_ms := emitted_at_unix_ms |}.

(** ** Lemmas *)

(** The ten limits the delta records. *)
Definition tracked_limits (p : RiskPolicySet) :=
  (po_max_single_order_lots p, po_max_position_abs_lots p, po_max_gross_exposure_nanos p,
   po_max_net_exposure_abs_nanos p, po_max_instrument_exposure_nanos p,
   po_max_margin_utilization_ppm p, po_max_daily_loss_nanos p, po_max_market_data_age_ms p,
   po_allow_margin p, po_protection_required_for_new_exposure p).

Lemma limits_delta_tracked old new :
  has_changes (compute_limits_delta (Some old) new) = false ↔ tracked_limits old = tracked_limits new.
Proof.
  unfold has_changes, tracked_limits; simpl. rewrite !orb_false_iff, !negb_false_iff, !bool_decide_eq_true.
  split; [intros H; destruct_and! H; congruence|]. intros [=]. by split_and!.
Qed.

(** The revision that only shortens the unprotected-time cap or drops the broker
    lot-limit requirement is recorded as changing no limit. *)
Lemma limits_delta_misses old new :
  tracked_limits old = tracked_limits new →
  po_max_unprotected_duration_ms old ≠ po_max_unprotected_duration_ms new →
  old ≠ new ∧ has_changes (compute_limits_delta (Some old) new) = false.
Proof. intros H1 H2. split; [congruence|]. by apply limits_delta_tracked. Qed.

(** [WarningToReduceOnly] is never reported: that change is [ToReduceOnly]. *)
Lemma warning_to_reduce_only_unused old new :
  compute_transition old new ≠ Transition.WarningToReduceOnly.
Proof. unfold compute_transition. repeat case_match; done. Qed.

(** A transition is reported as configuration only exactly when the state is kept or was unknown. *)
Lemma config_only_iff old new :
  compute_transition old new = Transition.ConfigOnly ↔ old = None ∨ old = Some new.
Proof.
  unfold compute_transition. destruct old as [o|]; [|by split; auto].
  case_bool_decide as Ho; [subst; by split; auto|].
  split; [by destruct o, new|]. by intros [?|[= ?]].
Qed.
