(* ===== verification/RiskStore.v ===== *)
(** * The durable risk store: [crates/vox-risk/src/store.rs]

    The five SQLite tables of the risk state, as lists of rows in insertion order
    with TEXT columns as strings, and the operations of [SqliteRiskStore] over
    them.  A statement is total on the tables: a uniqueness violation, an integer
    overflow in an aggregate or a column that does not convert is the [Sqlite]
    error the library returns.  Operations that open an IMMEDIATE transaction run
    inside [transaction], so an early error discards their writes; operations of
    different connections are serialised by that lock and interleave as whole
    steps.  JSON payloads go through the class [Serde]; uuids and clock readings
    are arguments.  [RiskStore] is the trait, as a class, and the last part states
    the laws its clients rely on and proves that the SQLite store obeys them. *)
From S2P Require Import Prelude RiskModel.

Inductive SqliteError :=
| ConstraintViolation
| FromSqlConversionFailure
| ToSqlConversionFailure
| IntegerOverflow
| InvalidQuery.

Inductive RiskStoreError :=
| Sqlite (e : SqliteError)
| Serialization
| CapacityExceeded
| InvalidCapacity
| ReservationNotFound
| InvalidTransition
| StoreArithmeticOverflow
| ApprovalInvariantViolation (what : string)
| StoredNumeric
| PolicyRevisionConflict
| InvalidPolicyMutation.

Record ReservationCapacity := {
  cap_max_account_reserved_notional_nanos : option Z;
  cap_max_instrument_reserved_abs_lots : option Z;
}.

Record PersistedRiskApproval := {
  ap_decision : RiskDecision;
  ap_reservation : RiskReservation;
}.

(** ** Tables *)

Record DecisionRow := {
  dr_decision_id : string;
  dr_request_id : string;
  dr_account_id : string;
  dr_policy_revision : Z;
  dr_payload : string;
}.

Record ReservationRow := {
  vr_reservation_id : string;
  vr_account_id : string;
  vr_instrument_id : string;
  vr_strategy_id : option string;
  vr_source : string;
  vr_logical_request_id : string;
  vr_reserved_delta_lots : Z;
  vr_remaining_delta_lots : Z;
  vr_reserved_notional_nanos : string;
  vr_state : string;
  vr_created_at_unix_ms : Z;
  vr_updated_at_unix_ms : Z;
  vr_expires_at_unix_ms : option Z;
}.

Record PolicyRow := {
  pt_account_id : string;
  pt_revision : Z;
  pt_payload : string;
  pt_updated_at_unix_ms : Z;
}.

Record PolicyAuditRow := {
  au_event_id : string;
  au_account_id : string;
  au_old_revision : option Z;
  au_new_revision : Z;
  au_reason : string;
  au_payload : string;
  au_observed_at_unix_ms : Z;
}.

Record PlanRow := {
  pp_plan_id : string;
  pp_account_id : string;
  pp_instrument_id : string;
  pp_strategy_id : option string;
  pp_reservation_id : string;
  pp_protected_delta_lots : Z;
  pp_state : string;
  pp_created_at_unix_ms : Z;
  pp_updated_at_unix_ms : Z;
}.

Record RiskDb := {
  db_decisions : list DecisionRow;
  db_reservations : list ReservationRow;
  db_policies : list PolicyRow;
  db_policy_audit : list PolicyAuditRow;
  db_plans : list PlanRow;
}.

Definition empty_db : RiskDb :=
  {| db_decisions := []; db_reservations := []; db_policies := []; db_policy_audit := [];
     db_plans := [] |}.

Definition set_decisions (l : list DecisionRow) (db : RiskDb) : RiskDb :=
  {| db_decisions := l; db_reservations := db_reservations db; db_policies := db_policies db;
     db_policy_audit := db_policy_audit db; db_plans := db_plans db |}.
Definition set_reservations (l : list ReservationRow) (db : RiskDb) : RiskDb :=
  {| db_decisions := db_decisions db; db_reservations := l; db_policies := db_policies db;
     db_policy_audit := db_policy_audit db; db_plans := db_plans db |}.
Definition set_policies (l : list PolicyRow) (a : list PolicyAuditRow) (db : RiskDb) : RiskDb :=
  {| db_decisions := db_decisions db; db_reservations := db_reservations db; db_policies := l;
     db_policy_audit := a; db_plans := db_plans db |}.
Definition set_plans (l : list PlanRow) (db : RiskDb) : RiskDb :=
  {| db_decisions := db_decisions db; db_reservations := db_reservations db;
     db_policies := db_policies db; db_policy_audit := db_policy_audit db; db_plans := l |}.

(** ** Column codecs *)

Definition state_name (s : ReservationState) : string :=
  match s with
  | Resv.Active => "ACTIVE"
  | Resv.PartiallyConsumed => "PARTIALLY_CONSUMED"
  | Resv.Consumed => "CONSUMED"
  | Resv.Released => "RELEASED"
  | Resv.UnknownHeld => "UNKNOWN_HELD"
  | Resv.Orphaned => "ORPHANED"
  end.

Definition parse_state (value : string) : result string ReservationState :=
  if bool_decide (value = "ACTIVE") then Ok Resv.Active
  else if bool_decide (value = "PARTIALLY_CONSUMED") then Ok Resv.PartiallyConsumed
  else if bool_decide (value = "CONSUMED") then Ok Resv.Consumed
  else if bool_decide (value = "RELEASED") then Ok Resv.Released
  else if bool_decide (value = "UNKNOWN_HELD") then Ok Resv.UnknownHeld
  else if bool_decide (value = "ORPHANED") then Ok Resv.Orphaned
  else Err "unknown reservation state".

Definition source_name (s : RiskSource) : string :=
  match s with
  | Source.Manual => "MANUAL"
  | Source.Strategy => "STRATEGY"
  | Source.Ml => "ML"
  | Source.Ai => "AI"
  | Source.EmergencyOperator => "EMERGENCY_OPERATOR"
  end.

Definition parse_source (value : string) : result string RiskSource :=
  if bool_decide (value = "MANUAL") then Ok Source.Manual
  else if bool_decide (value = "STRATEGY") then Ok Source.Strategy
  else if bool_decide (value = "ML") then Ok Source.Ml
  else if bool_decide (value = "AI") then Ok Source.Ai
  else if bool_decide (value = "EMERGENCY_OPERATOR") then Ok Source.EmergencyOperator
  else Err "unknown risk source".

Definition plan_state_name (s : ProtectionPlanState) : string :=
  match s with
  | Plan.Planned => "PLANNED"
  | Plan.Submitted => "SUBMITTED"
  | Plan.Active => "ACTIVE"
  | Plan.PartialCoverage => "PARTIAL_COVERAGE"
  | Plan.FullCoverage => "FULL_COVERAGE"
  | Plan.Cancelled => "CANCELLED"
  | Plan.Failed => "FAILED"
  | Plan.Stale => "STALE"
  end.

Definition parse_plan_state (value : string) : result string ProtectionPlanState :=
  if bool_decide (value = "PLANNED") then Ok Plan.Planned
  else if bool_decide (value = "SUBMITTED") then Ok Plan.Submitted
  else if bool_decide (value = "ACTIVE") then Ok Plan.Active
  else if bool_decide (value = "PARTIAL_COVERAGE") then Ok Plan.PartialCoverage
  else if bool_decide (value = "FULL_COVERAGE") then Ok Plan.FullCoverage
  else if bool_decide (value = "CANCELLED") then Ok Plan.Cancelled
  else if bool_decide (value = "FAILED") then Ok Plan.Failed
  else if bool_decide (value = "STALE") then Ok Plan.Stale
  else Err "unknown protection plan state".

Definition text_conversion_error (message : string) : RiskStoreError := Sqlite FromSqlConversionFailure.

(** An unsigned integer binds to a column only when it fits a signed one. *)
Definition to_sql_u64 (v : Z) : result RiskStoreError Z :=
  ok_or (checked I64 v) (Sqlite ToSqlConversionFailure).

Definition read_reservation (row : ReservationRow) : result RiskStoreError RiskReservation :=
  let? source := map_err text_conversion_error (parse_source (vr_source row)) in
  let? state := map_err text_conversion_error (parse_state (vr_state row)) in
  let? notional := ok_or (parse_int I128 (vr_reserved_notional_nanos row))
                     (Sqlite FromSqlConversionFailure) in
  Ok {| rv_reservation_id := vr_reservation_id row;
        rv_account_id := vr_account_id row;
        rv_instrument_id := vr_instrument_id row;
        rv_strategy_id := vr_strategy_id row;
        rv_source := source;
        rv_logical_request_id := vr_logical_request_id row;
        rv_reserved_delta_lots := vr_reserved_delta_lots row;
        rv_remaining_delta_lots := vr_remaining_delta_lots row;
        rv_reserved_notional_nanos := notional;
        rv_state := state;
        rv_created_at_unix_ms := vr_created_at_unix_ms row;
        rv_updated_at_unix_ms := vr_updated_at_unix_ms row;
        rv_expires_at_unix_ms := vr_expires_at_unix_ms row |}.

(** The values [insert_reservation] binds. *)
Definition reservation_row (r : RiskReservation) : ReservationRow :=
  {| vr_reservation_id := rv_reservation_id r;
     vr_account_id := rv_account_id r;
     vr_instrument_id := rv_instrument_id r;
     vr_strategy_id := rv_strategy_id r;
     vr_source := source_name (rv_source r);
     vr_logical_request_id := rv_logical_request_id r;
     vr_reserved_delta_lots := rv_reserved_delta_lots r;
     vr_remaining_delta_lots := rv_remaining_delta_lots r;
     vr_reserved_notional_nanos := int_to_string (rv_reserved_notional_nanos r);
     vr_state := state_name (rv_state r);
     vr_created_at_unix_ms := rv_created_at_unix_ms r;
     vr_updated_at_unix_ms := rv_updated_at_unix_ms r;
     vr_expires_at_unix_ms := rv_expires_at_unix_ms r |}.

Definition plan_from_row (row : PlanRow) : result RiskStoreError RiskProtectionPlanRow :=
  let? state := map_err text_conversion_error (parse_plan_state (pp_state row)) in
  Ok {| pn_plan_id := pp_plan_id row;
        pn_account_id := pp_account_id row;
        pn_instrument_id := pp_instrument_id row;
        pn_strategy_id := pp_strategy_id row;
        pn_reservation_id := pp_reservation_id row;
        pn_protected_delta_lots := pp_protected_delta_lots row;
        pn_state := state;
        pn_created_at_unix_ms := pp_created_at_unix_ms row;
        pn_updated_at_unix_ms := pp_updated_at_unix_ms row |}.

(** The values [put_protection_plan] binds. *)
Definition plan_row (p : RiskProtectionPlanRow) : PlanRow :=
  {| pp_plan_id := pn_plan_id p;
     pp_account_id := pn_account_id p;
     pp_instrument_id := pn_instrument_id p;
     pp_strategy_id := pn_strategy_id p;
     pp_reservation_id := pn_reservation_id p;
     pp_protected_delta_lots := pn_protected_delta_lots p;
     pp_state := plan_state_name (pn_state p);
     pp_created_at_unix_ms := pn_created_at_unix_ms p;
     pp_updated_at_unix_ms := pn_updated_at_unix_ms p |}.

(** [query_row(...).optional()]: the first matching row, converted. *)
Definition query_optional {R A} (p : R → bool) (read : R → result RiskStoreError A) (l : list R)
  : result RiskStoreError (option A) :=
  transpose (read <$> List.find p l).

(** [state IN ('ACTIVE','PARTIALLY_CONSUMED','UNKNOWN_HELD','ORPHANED')]. *)
Definition active_row (row : ReservationRow) : bool :=
  bool_decide (vr_state row = "ACTIVE") || bool_decide (vr_state row = "PARTIALLY_CONSUMED")
  || bool_decide (vr_state row = "UNKNOWN_HELD") || bool_decide (vr_state row = "ORPHANED").

Definition active_of_account (account_id : string) (row : ReservationRow) : bool :=
  bool_decide (vr_account_id row = account_id) && active_row row.

Definition active_of_instrument (account_id instrument_id : string) (row : ReservationRow) : bool :=
  bool_decide (vr_account_id row = account_id) && bool_decide (vr_instrument_id row = instrument_id)
  && active_row row.

Definition of_request (account_id request_id : string) (row : ReservationRow) : bool :=
  bool_decide (vr_account_id row = account_id) && bool_decide (vr_logical_request_id row = request_id).

Definition decision_of_request (account_id request_id : string) (row : DecisionRow) : bool :=
  bool_decide (dr_account_id row = account_id) && bool_decide (dr_request_id row = request_id).

(** ** Pure checks *)

Definition validate_approval_link (decision : RiskDecision) (reservation : RiskReservation)
  : result RiskStoreError () :=
  if negb (bool_decide (rd_account_id decision = rv_account_id reservation))
     || negb (bool_decide (rd_request_id decision = rv_logical_request_id reservation))
     || negb (bool_decide (rd_reservation_id decision = Some (rv_reservation_id reservation)))
     || negb (permits_dispatch decision)
     || negb (rd_approved_delta_lots decision =? rv_reserved_delta_lots reservation)
  then Err (ApprovalInvariantViolation
              "decision and reservation do not describe the same approved request")
  else Ok tt.

Definition validate_capacity (capacity : ReservationCapacity) : result RiskStoreError () :=
  let negative o := match o with Some v => v <? 0 | None => false end in
  if negative (cap_max_account_reserved_notional_nanos capacity)
     || negative (cap_max_instrument_reserved_abs_lots capacity)
  then Err InvalidCapacity else Ok tt.

Definition abs_i64 (v : Z) : result RiskStoreError Z :=
  ok_or (checked I64 (unsigned_abs v)) StoreArithmeticOverflow.

(** The loops of [enforce_capacity]. *)
Definition add_lots (active : Z) (row : ReservationRow) : result RiskStoreError Z :=
  let? absolute := abs_i64 (vr_remaining_delta_lots row) in
  ok_or (checked_add I64 active absolute) StoreArithmeticOverflow.

Definition add_notional (active : Z) (row : ReservationRow) : result RiskStoreError Z :=
  let? value := ok_or (parse_int I128 (vr_reserved_notional_nanos row)) StoredNumeric in
  let? absolute := ok_or (checked_abs I128 value) StoreArithmeticOverflow in
  ok_or (checked_add I128 active absolute) StoreArithmeticOverflow.

Definition enforce_lots (rows : list ReservationRow) (reservation : RiskReservation) (limit : Z)
  : result RiskStoreError () :=
  let? active := try_fold add_lots 0
    (List.filter (active_of_instrument (rv_account_id reservation) (rv_instrument_id reservation)) rows) in
  let? requested := abs_i64 (rv_remaining_delta_lots reservation) in
  let? projected := ok_or (checked_add I64 active requested) StoreArithmeticOverflow in
  if limit <? projected then Err CapacityExceeded else Ok tt.

Definition enforce_notional (rows : list ReservationRow) (reservation : RiskReservation) (limit : Z)
  : result RiskStoreError () :=
  let? active := try_fold add_notional 0
    (List.filter (active_of_account (rv_account_id reservation)) rows) in
  let? requested := ok_or (checked_abs I128 (rv_reserved_notional_nanos reservation))
                      StoreArithmeticOverflow in
  let? projected := ok_or (checked_add I128 active requested) StoreArithmeticOverflow in
  if limit <? projected then Err CapacityExceeded else Ok tt.

Definition enforce_capacity (rows : list ReservationRow) (reservation : RiskReservation)
    (capacity : ReservationCapacity) : result RiskStoreError () :=
  let? _ := match cap_max_instrument_reserved_abs_lots capacity with
            | Some limit => enforce_lots rows reservation limit
            | None => Ok tt
            end in
  match cap_max_account_reserved_notional_nanos capacity with
  | Some limit => enforce_notional rows reservation limit
  | None => Ok tt
  end.

(** [SUM] and [ABS] of SQLite on integers. *)
Definition sql_sum (f : ReservationRow → option Z) (rows : list ReservationRow) : result RiskStoreError Z :=
  try_fold (λ acc row,
    let? v := ok_or (f row) (Sqlite IntegerOverflow) in
    ok_or (checked_add I64 acc v) (Sqlite IntegerOverflow)) 0 rows.

(** ** The operations of [SqliteRiskStore] *)

Section sqlite.
Context `{!Serde RiskDecision} `{!Serde RiskPolicySet}.
Notation store A := (st RiskDb RiskStoreError A).

Definition read_decision (row : DecisionRow) : result RiskStoreError RiskDecision :=
  ok_or (from_text (dr_payload row)) Serialization.

Definition decision_by_id_connection (db : RiskDb) (decision_id : string)
  : result RiskStoreError (option RiskDecision) :=
  query_optional (by_key dr_decision_id decision_id) read_decision (db_decisions db).

Definition decision_for_request_connection (db : RiskDb) (account_id request_id : string)
  : result RiskStoreError (option RiskDecision) :=
  query_optional (decision_of_request account_id request_id) read_decision (db_decisions db).

Definition reservation_for_request_connection (db : RiskDb) (account_id logical_request_id : string)
  : result RiskStoreError (option RiskReservation) :=
  query_optional (of_request account_id logical_request_id) read_reservation (db_reservations db).

Definition reservation_by_id (db : RiskDb) (reservation_id : string)
  : result RiskStoreError (option RiskReservation) :=
  query_optional (by_key vr_reservation_id reservation_id) read_reservation (db_reservations db).

Definition plan_by_id (db : RiskDb) (plan_id : string)
  : result RiskStoreError (option RiskProtectionPlanRow) :=
  query_optional (by_key pp_plan_id plan_id) plan_from_row (db_plans db).

Definition insert_decision (decision : RiskDecision) : store () := λ db,
  match to_text decision, to_sql_u64 (rd_policy_revision decision) with
  | None, _ => (db, Err Serialization)
  | Some _, Err e => (db, Err e)
  | Some payload, Ok revision =>
      let row := {| dr_decision_id := rd_decision_id decision;
                    dr_request_id := rd_request_id decision;
                    dr_account_id := rd_account_id decision;
                    dr_policy_revision := revision;
                    dr_payload := payload |} in
      if existsb (λ r, by_key dr_decision_id (dr_decision_id row) r
                       || decision_of_request (dr_account_id row) (dr_request_id row) r)
           (db_decisions db)
      then (db, Err (Sqlite ConstraintViolation))
      else (set_decisions (db_decisions db ++ [row]) db, Ok tt)
  end.

Definition insert_reservation (reservation : RiskReservation) : store () := λ db,
  let row := reservation_row reservation in
  if existsb (λ r, by_key vr_reservation_id (vr_reservation_id row) r
                   || of_request (vr_account_id row) (vr_logical_request_id row) r)
       (db_reservations db)
  then (db, Err (Sqlite ConstraintViolation))
  else (set_reservations (db_reservations db ++ [row]) db, Ok tt).

Definition policy (db : RiskDb) (account_id : string) : result RiskStoreError (option RiskPolicySet) :=
  query_optional (by_key pt_account_id account_id)
    (λ row, ok_or (from_text (pt_payload row)) Serialization) (db_policies db).

(** [INSERT ... ON CONFLICT(account_id) DO UPDATE]. *)
Definition upsert_policy (row : PolicyRow) (l : list PolicyRow) : list PolicyRow :=
  if existsb (by_key pt_account_id (pt_account_id row)) l
  then update_where (by_key pt_account_id (pt_account_id row)) (λ _, row) l
  else l ++ [row].

Definition policy_cas (expected_revision : option Z) (current : option PolicyRow)
  : result RiskStoreError () :=
  match expected_revision, current with
  | None, None => Ok tt
  | Some expected, Some row =>
      if expected =? pt_revision row then Ok tt else Err PolicyRevisionConflict
  | _, _ => Err PolicyRevisionConflict
  end.

Definition insert_policy_audit (audit : PolicyAuditRow) : store () := λ db,
  if existsb (by_key au_event_id (au_event_id audit)) (db_policy_audit db)
  then (db, Err (Sqlite ConstraintViolation))
  else (set_policies (db_policies db) (db_policy_audit db ++ [audit]) db, Ok tt).

Definition put_policy_tx (uuid account_id : string) (expected_revision : option Z)
    (new_policy : RiskPolicySet) (reason : string) (now_unix_ms : Z) : store RiskPolicySet :=
  let! db := st_get in
  let current := List.find (by_key pt_account_id account_id) (db_policies db) in
  let! _ := st_lift (policy_cas expected_revision current) in
  let! _ := st_lift (match current with
                     | Some row => if po_revision new_policy <=? pt_revision row
                                   then Err PolicyRevisionConflict else Ok tt
                     | None => Ok tt
                     end) in
  let! payload := st_lift (ok_or (to_text new_policy) Serialization) in
  let! revision := st_lift (to_sql_u64 (po_revision new_policy)) in
  st_put (set_policies
    (upsert_policy {| pt_account_id := account_id; pt_revision := revision;
                      pt_payload := payload; pt_updated_at_unix_ms := now_unix_ms |}
       (db_policies db)) (db_policy_audit db) db) ;;;
  insert_policy_audit {| au_event_id := "risk-policy-audit:" +:+ uuid;
                         au_account_id := account_id;
                         au_old_revision := pt_revision <$> current;
                         au_new_revision := revision;
                         au_reason := reason;
                         au_payload := payload;
                         au_observed_at_unix_ms := now_unix_ms |} ;;;
  st_ret new_policy.

Definition put_policy (uuid account_id : string) (expected_revision : option Z)
    (new_policy : RiskPolicySet) (reason : string) (now_unix_ms : Z) : store RiskPolicySet :=
  if is_blank account_id || is_blank reason || (po_revision new_policy =? 0)
  then st_fail InvalidPolicyMutation
  else transaction (put_policy_tx uuid account_id expected_revision new_policy reason now_unix_ms).

(** [ON CONFLICT(decision_id) DO NOTHING]: the named conflict is looked at first. *)
Definition put_decision (decision : RiskDecision) : store () :=
  let! payload := st_lift (ok_or (to_text decision) Serialization) in
  let! revision := st_lift (to_sql_u64 (rd_policy_revision decision)) in
  let! db := st_get in
  if existsb (by_key dr_decision_id (rd_decision_id decision)) (db_decisions db)
  then st_ret tt
  else insert_decision decision.

Definition approval_for_request (db : RiskDb) (account_id logical_request_id : string)
  : result RiskStoreError (option PersistedRiskApproval) :=
  let? reservation := reservation_for_request_connection db account_id logical_request_id in
  let? decision := decision_for_request_connection db account_id logical_request_id in
  match decision, reservation with
  | None, None => Ok None
  | Some decision, Some reservation =>
      let? _ := validate_approval_link decision reservation in
      Ok (Some {| ap_decision := decision; ap_reservation := reservation |})
  | _, _ => Err (ApprovalInvariantViolation "risk request has incomplete persisted approval")
  end.

Definition persist_approval_tx (decision : RiskDecision) (reservation : RiskReservation)
    (capacity : ReservationCapacity) : store PersistedRiskApproval :=
  let! db := st_get in
  let! existing := st_lift (reservation_for_request_connection db (rv_account_id reservation)
                              (rv_logical_request_id reservation)) in
  match existing with
  | Some existing_reservation =>
      let! found := st_lift (decision_for_request_connection db (rd_account_id decision)
                               (rd_request_id decision)) in
      let! existing_decision := st_lift (ok_or found (ApprovalInvariantViolation
                                  "reservation exists without its risk decision")) in
      st_ret {| ap_decision := existing_decision; ap_reservation := existing_reservation |}
  | None =>
      let! _ := st_lift (enforce_capacity (db_reservations db) reservation capacity) in
      insert_decision decision ;;;
      insert_reservation reservation ;;;
      st_ret {| ap_decision := decision; ap_reservation := reservation |}
  end.

Definition persist_approval_atomic (decision : RiskDecision) (reservation : RiskReservation)
    (capacity : ReservationCapacity) : store PersistedRiskApproval :=
  let! _ := st_lift (validate_approval_link decision reservation) in
  let! _ := st_lift (validate_capacity capacity) in
  transaction (persist_approval_tx decision reservation capacity).

Definition reserve_atomic (reservation : RiskReservation) (max_active_abs_lots : Z)
  : store RiskReservation :=
  if max_active_abs_lots <? 0 then st_fail InvalidCapacity
  else transaction (
    let! db := st_get in
    let! existing := st_lift (reservation_for_request_connection db (rv_account_id reservation)
                                (rv_logical_request_id reservation)) in
    match existing with
    | Some existing => st_ret existing
    | None =>
        let! active := st_lift (sql_sum (λ row, checked_abs I64 (vr_remaining_delta_lots row))
          (List.filter (active_of_account (rv_account_id reservation)) (db_reservations db))) in
        let! requested := st_lift (abs_i64 (rv_remaining_delta_lots reservation)) in
        let! projected := st_lift (ok_or (checked_add I64 active requested) StoreArithmeticOverflow) in
        if max_active_abs_lots <? projected then st_fail CapacityExceeded
        else
          insert_reservation reservation ;;;
          st_ret reservation
    end).

Definition active_reserved_delta (db : RiskDb) (account_id instrument_id : string)
  : result RiskStoreError Z :=
  sql_sum (λ row, Some (vr_remaining_delta_lots row))
    (List.filter (active_of_instrument account_id instrument_id) (db_reservations db)).

(** [ORDER BY created_at_unix_ms, reservation_id]. *)
Definition reservation_order (a b : ReservationRow) : bool :=
  (vr_created_at_unix_ms a <? vr_created_at_unix_ms b)
  || (vr_created_at_unix_ms a =? vr_created_at_unix_ms b)
     && String.leb (vr_reservation_id a) (vr_reservation_id b).

Definition active_reservations (db : RiskDb) (account_id : string)
  : result RiskStoreError (list RiskReservation) :=
  collect read_reservation
    (order_by reservation_order (List.filter (active_of_account account_id) (db_reservations db))).

Definition update_row (remaining_delta_lots : Z) (state : ReservationState) (now_unix_ms : Z)
    (row : ReservationRow) : ReservationRow :=
  {| vr_reservation_id := vr_reservation_id row;
     vr_account_id := vr_account_id row;
     vr_instrument_id := vr_instrument_id row;
     vr_strategy_id := vr_strategy_id row;
     vr_source := vr_source row;
     vr_logical_request_id := vr_logical_request_id row;
     vr_reserved_delta_lots := vr_reserved_delta_lots row;
     vr_remaining_delta_lots := remaining_delta_lots;
     vr_reserved_notional_nanos := vr_reserved_notional_nanos row;
     vr_state := state_name state;
     vr_created_at_unix_ms := vr_created_at_unix_ms row;
     vr_updated_at_unix_ms := now_unix_ms;
     vr_expires_at_unix_ms := vr_expires_at_unix_ms row |}.

Definition update_reservation (reservation_id : string) (expected : list ReservationState)
    (remaining_delta_lots : Z) (state : ReservationState) (now_unix_ms : Z) : store RiskReservation :=
  transaction (
    let! db := st_get in
    let! found := st_lift (reservation_by_id db reservation_id) in
    let! current := st_lift (ok_or found ReservationNotFound) in
    if negb (bool_decide (rv_state current ∈ expected)) then st_fail InvalidTransition
    else
      st_put (set_reservations
        (update_where (by_key vr_reservation_id reservation_id)
           (update_row remaining_delta_lots state now_unix_ms) (db_reservations db)) db) ;;;
      let! db' := st_get in
      let! found' := st_lift (reservation_by_id db' reservation_id) in
      st_lift (ok_or found' ReservationNotFound)).

(** [ON CONFLICT(plan_id) DO UPDATE] of the lots, the state and the update time only. *)
Definition put_protection_plan (plan : RiskProtectionPlanRow) : store () := λ db,
  let new := plan_row plan in
  let touch row :=
    {| pp_plan_id := pp_plan_id row; pp_account_id := pp_account_id row;
       pp_instrument_id := pp_instrument_id row; pp_strategy_id := pp_strategy_id row;
       pp_reservation_id := pp_reservation_id row;
       pp_protected_delta_lots := pp_protected_delta_lots new;
       pp_state := pp_state new;
       pp_created_at_unix_ms := pp_created_at_unix_ms row;
       pp_updated_at_unix_ms := pp_updated_at_unix_ms new |} in
  if existsb (by_key pp_plan_id (pp_plan_id new)) (db_plans db)
  then (set_plans (update_where (by_key pp_plan_id (pp_plan_id new)) touch (db_plans db)) db, Ok tt)
  else (set_plans (db_plans db ++ [new]) db, Ok tt).

Definition protection_plans_for_instrument (db : RiskDb) (account_id instrument_id : string)
  : result RiskStoreError (list RiskProtectionPlanRow) :=
  collect plan_from_row
    (order_by (λ a b, pp_created_at_unix_ms a <=? pp_created_at_unix_ms b)
       (List.filter (λ row, bool_decide (pp_account_id row = account_id)
                            && bool_decide (pp_instrument_id row = instrument_id)) (db_plans db))).

Definition transition_protection_plan (plan_id : string) (expected : list ProtectionPlanState)
    (new_state : ProtectionPlanState) (now_unix_ms : Z) : store RiskProtectionPlanRow :=
  transaction (
    let! db := st_get in
    let! found := st_lift (plan_by_id db plan_id) in
    let! current := st_lift (ok_or found ReservationNotFound) in
    if negb (bool_decide (pn_state current ∈ expected)) then st_fail InvalidTransition
    else
      st_put (set_plans
        (update_where (by_key pp_plan_id plan_id)
           (λ row, {| pp_plan_id := pp_plan_id row; pp_account_id := pp_account_id row;
                      pp_instrument_id := pp_instrument_id row; pp_strategy_id := pp_strategy_id row;
                      pp_reservation_id := pp_reservation_id row;
                      pp_protected_delta_lots := pp_protected_delta_lots row;
                      pp_state := plan_state_name new_state;
                      pp_created_at_unix_ms := pp_created_at_unix_ms row;
                      pp_updated_at_unix_ms := now_unix_ms |}) (db_plans db)) db) ;;;
      let! db' := st_get in
      let! found' := st_lift (plan_by_id db' plan_id) in
      st_lift (ok_or found' ReservationNotFound)).
End sqlite.

(** ** Codecs round trip *)

Lemma parse_state_name s : parse_state (state_name s) = Ok s.
Proof. by destruct s. Qed.
Lemma parse_source_name s : parse_source (source_name s) = Ok s.
Proof. by destruct s. Qed.
Lemma parse_plan_state_name s : parse_plan_state (plan_state_name s) = Ok s.
Proof. by destruct s. Qed.

(** What the Rust types guarantee of a reservation's amounts. *)
Definition reservation_typed (r : RiskReservation) : Prop :=
  has_ty I128 (rv_reserved_notional_nanos r) ∧ has_ty I64 (rv_remaining_delta_lots r).

Lemma read_reservation_row r : reservation_typed r → read_reservation (reservation_row r) = Ok r.
Proof.
  intros [Hn _]. unfold read_reservation; simpl.
  rewrite parse_source_name, parse_state_name, parse_int_to_string by done. by destruct r.
Qed.

Lemma plan_from_row_row p : plan_from_row (plan_row p) = Ok p.
Proof. unfold plan_from_row; simpl. rewrite parse_plan_state_name. by destruct p. Qed.

(** ** Invariant of the reservation table *)

Definition request_key (r : RiskReservation) : string * string :=
  (rv_account_id r, rv_logical_request_id r).

(** The table holds exactly the reservations [rs], unique by identity and by request. *)
Record holds (db : RiskDb) (rs : list RiskReservation) : Prop := {
  hold_rows : db_reservations db = reservation_row <$> rs;
  hold_typed : Forall reservation_typed rs;
  hold_keyed : keyed rv_reservation_id rs;
  hold_requests : keyed request_key rs;
}.

Definition for_request (account_id request_id : string) : RiskReservation → bool :=
  by_key request_key (account_id, request_id).

Lemma of_request_row a q r : of_request a q (reservation_row r) = for_request a q r.
Proof.
  unfold of_request, for_request, by_key, request_key; simpl.
  repeat case_bool_decide; simpl; naive_solver.
Qed.

Lemma query_reservations db rs p q :
  holds db rs → (∀ r, p (reservation_row r) = q r) →
  query_optional p read_reservation (db_reservations db) = Ok (List.find q rs).
Proof.
  intros [Hrows Hty _ _] Hpq. unfold query_optional. rewrite Hrows, find_fmap.
  rewrite (find_ext _ q) by done.
  destruct (List.find q rs) as [r|] eqn:Hf; [|done]. simpl.
  apply List.find_some in Hf as [Hin _]. apply list_elem_of_In in Hin.
  rewrite read_reservation_row; [done|]. by rewrite Forall_forall in Hty; apply Hty.
Qed.

Lemma reservation_for_request_holds db rs a q :
  holds db rs → reservation_for_request_connection db a q = Ok (List.find (for_request a q) rs).
Proof. intros H. apply (query_reservations _ _ _ _ H). apply of_request_row. Qed.

Lemma reservation_by_id_holds db rs id :
  holds db rs → reservation_by_id db id = Ok (List.find (by_key rv_reservation_id id) rs).
Proof. intros H. by apply (query_reservations _ _ _ _ H). Qed.

(** What [update_reservation] writes. *)
Definition set_remaining (remaining : Z) (state : ReservationState) (now : Z) (r : RiskReservation)
  : RiskReservation :=
  {| rv_reservation_id := rv_reservation_id r; rv_account_id := rv_account_id r;
     rv_instrument_id := rv_instrument_id r; rv_strategy_id := rv_strategy_id r;
     rv_source := rv_source r; rv_logical_request_id := rv_logical_request_id r;
     rv_reserved_delta_lots := rv_reserved_delta_lots r; rv_remaining_delta_lots := remaining;
     rv_reserved_notional_nanos := rv_reserved_notional_nanos r; rv_state := state;
     rv_created_at_unix_ms := rv_created_at_unix_ms r; rv_updated_at_unix_ms := now;
     rv_expires_at_unix_ms := rv_expires_at_unix_ms r |}.

Lemma update_rows id rem state now rs :
  update_where (by_key vr_reservation_id id) (update_row rem state now) (reservation_row <$> rs)
  = reservation_row <$> update_where (by_key rv_reservation_id id) (set_remaining rem state now) rs.
Proof.
  unfold update_where. rewrite <- !list_fmap_compose. apply list_fmap_ext.
  intros i r _. simpl. unfold by_key; simpl. by case_bool_decide.
Qed.

Lemma holds_update db rs id rem state now :
  holds db rs → has_ty I64 rem →
  let rs' := update_where (by_key rv_reservation_id id) (set_remaining rem state now) rs in
  holds (set_reservations (reservation_row <$> rs') db) rs'.
Proof.
  intros [Hrows Hty Hk Hq] Hrem rs'. subst rs'. constructor; [done| | |].
  - apply Forall_forall. intros r (r0 & Hin & ->)%elem_of_update_where.
    rewrite Forall_forall in Hty. specialize (Hty r0 Hin) as [??]. by case_match.
  - by apply keyed_update.
  - by apply keyed_update.
Qed.

Lemma find_update_key id f rs r :
  (∀ x, rv_reservation_id (f x) = rv_reservation_id x) →
  List.find (by_key rv_reservation_id id) rs = Some r →
  List.find (by_key rv_reservation_id id) (update_where (by_key rv_reservation_id id) f rs) = Some (f r).
Proof.
  intros Hf. unfold update_where. rewrite find_fmap. induction rs as [|x rs IH]; simpl; [done|].
  destruct (by_key rv_reservation_id id x) eqn:Hx.
  - intros [= ->]. unfold by_key in *. rewrite Hf, Hx. simpl.
    by rewrite Hx.
  - rewrite Hx. exact IH.
Qed.

(** The whole of [update_reservation]: not found, wrong state, or the one row rewritten. *)
Lemma update_reservation_spec db rs id expected rem state now :
  holds db rs → has_ty I64 rem →
  update_reservation id expected rem state now db =
    match List.find (by_key rv_reservation_id id) rs with
    | None => (db, Err ReservationNotFound)
    | Some r =>
        if bool_decide (rv_state r ∈ expected) then
          (set_reservations (reservation_row <$>
             update_where (by_key rv_reservation_id id) (set_remaining rem state now) rs) db,
           Ok (set_remaining rem state now r))
        else (db, Err InvalidTransition)
    end.
Proof.
  intros Hh Hrem. unfold update_reservation. st_unfold.
  rewrite (reservation_by_id_holds _ _ _ Hh). destruct (List.find _ rs) as [r|] eqn:Hf; [|done]. simpl.
  destruct (bool_decide (rv_state r ∈ expected)); simpl; [|done].
  rewrite (hold_rows _ _ Hh), update_rows.
  rewrite (reservation_by_id_holds _ _ id (holds_update _ _ id rem state now Hh Hrem)).
  by rewrite (find_update_key _ (set_remaining rem state now) _ _ (λ _, eq_refl) Hf).
Qed.

(** ** Reserved capacity *)

(** The states that hold capacity. *)
Definition holds_capacity (s : ReservationState) : bool :=
  match s with
  | Resv.Active | Resv.PartiallyConsumed | Resv.UnknownHeld | Resv.Orphaned => true
  | Resv.Consumed | Resv.Released => false
  end.

Definition counts_instrument (a i : string) (r : RiskReservation) : bool :=
  bool_decide (rv_account_id r = a) && bool_decide (rv_instrument_id r = i)
  && holds_capacity (rv_state r).

Definition counts_account (a : string) (r : RiskReservation) : bool :=
  bool_decide (rv_account_id r = a) && holds_capacity (rv_state r).

Lemma active_row_state r : active_row (reservation_row r) = holds_capacity (rv_state r).
Proof. unfold active_row; simpl. by destruct (rv_state r). Qed.

Lemma active_of_instrument_row a i r :
  active_of_instrument a i (reservation_row r) = counts_instrument a i r.
Proof. unfold active_of_instrument, counts_instrument. by rewrite active_row_state. Qed.

Lemma active_of_account_row a r : active_of_account a (reservation_row r) = counts_account a r.
Proof. unfold active_of_account, counts_account. by rewrite active_row_state. Qed.

(** Lots reserved on an instrument and notional reserved on an account. *)
Definition reserved_lots (a i : string) (rs : list RiskReservation) : Z :=
  zsum (λ r, Z.abs (rv_remaining_delta_lots r)) (List.filter (counts_instrument a i) rs).

Definition reserved_notional (a : string) (rs : list RiskReservation) : Z :=
  zsum (λ r, Z.abs (rv_reserved_notional_nanos r)) (List.filter (counts_account a) rs).

Lemma abs_i64_Ok v a : abs_i64 v = Ok a ↔ a = Z.abs v ∧ has_ty I64 (Z.abs v).
Proof. unfold abs_i64. rewrite ok_or_Ok, checked_Some. done. Qed.

Lemma fold_lots_Ok rs acc r :
  try_fold add_lots acc (reservation_row <$> rs) = Ok r →
  r = acc + zsum (λ x, Z.abs (rv_remaining_delta_lots x)) rs.
Proof.
  revert acc. induction rs as [|x rs IH]; intros acc; simpl; [intros [= <-]; lia|].
  unfold add_lots at 1. destruct (abs_i64 _) as [a|] eqn:Ha; [|done]. apply abs_i64_Ok in Ha as [-> _].
  destruct (checked_add I64 acc _) as [acc'|] eqn:Hc; [|done]. cbn [ok_or].
  unfold checked_add in Hc. apply checked_Some in Hc as [-> _].
  intros ->%IH. simpl. unfold zsum. lia.
Qed.

Lemma fold_notional_Ok rs acc r :
  Forall reservation_typed rs →
  try_fold add_notional acc (reservation_row <$> rs) = Ok r →
  r = acc + zsum (λ x, Z.abs (rv_reserved_notional_nanos x)) rs.
Proof.
  intros Hty. revert acc. induction Hty as [|x rs [Hx _] _ IH]; intros acc; simpl; [intros [= <-]; lia|].
  unfold add_notional at 1. simpl. rewrite parse_int_to_string by done. cbn [ok_or].
  destruct (checked_abs I128 _) as [a|] eqn:Ha; [|done]. cbn [ok_or].
  unfold checked_abs in Ha. apply checked_Some in Ha as [-> _].
  destruct (checked_add I128 acc _) as [acc'|] eqn:Hc; [|done]. cbn [ok_or].
  unfold checked_add in Hc. apply checked_Some in Hc as [-> _].
  intros ->%IH. simpl. unfold zsum. lia.
Qed.

Lemma enforce_lots_Ok rs r limit :
  enforce_lots (reservation_row <$> rs) r limit = Ok tt →
  reserved_lots (rv_account_id r) (rv_instrument_id r) rs + Z.abs (rv_remaining_delta_lots r) ≤ limit.
Proof.
  unfold enforce_lots, reserved_lots. rewrite filter_fmap.
  rewrite (filter_ext_bool _ (counts_instrument (rv_account_id r) (rv_instrument_id r)))
    by apply active_of_instrument_row.
  destruct (try_fold _ _ _) as [active|] eqn:Hf; [|done]. apply fold_lots_Ok in Hf as ->.
  destruct (abs_i64 _) as [a|] eqn:Ha; [|done]. apply abs_i64_Ok in Ha as [-> _].
  intros H. branches. prop_tests. subst. lia.
Qed.

Lemma enforce_notional_Ok rs r limit :
  Forall reservation_typed rs →
  enforce_notional (reservation_row <$> rs) r limit = Ok tt →
  reserved_notional (rv_account_id r) rs + Z.abs (rv_reserved_notional_nanos r) ≤ limit.
Proof.
  intros Hty. unfold enforce_notional, reserved_notional. rewrite filter_fmap.
  rewrite (filter_ext_bool _ (counts_account (rv_account_id r))) by apply active_of_account_row.
  destruct (try_fold _ _ _) as [active|] eqn:Hf; [|done].
  apply fold_notional_Ok in Hf as ->; [|by apply Forall_forall; intros x [Hx _]%list_elem_of_In%List.filter_In;
    rewrite Forall_forall in Hty; apply Hty, list_elem_of_In].
  intros H. branches. prop_tests. subst. lia.
Qed.

(** ** Invariant of the decision table *)

Definition decision_key (d : RiskDecision) : string * string := (rd_account_id d, rd_request_id d).

Section invariant.
Context `{!Serde RiskDecision} `{!SerdeLaws RiskDecision}.
Context `{!Serde RiskPolicySet} `{!SerdeLaws RiskPolicySet}.

Definition decision_row_of (row : DecisionRow) (d : RiskDecision) : Prop :=
  dr_decision_id row = rd_decision_id d ∧ dr_request_id row = rd_request_id d ∧
  dr_account_id row = rd_account_id d ∧ dr_policy_revision row = rd_policy_revision d ∧
  from_text (dr_payload row) = Some d.

(** The table holds exactly the decisions [ds], readable, unique by identity and by request. *)
Record decides (db : RiskDb) (ds : list RiskDecision) : Prop := {
  dec_rows : Forall2 decision_row_of (db_decisions db) ds;
  dec_keyed : keyed rd_decision_id ds;
  dec_requests : keyed decision_key ds;
}.

Lemma decision_of_request_row a q row d :
  decision_row_of row d → decision_of_request a q row = by_key decision_key (a, q) d.
Proof.
  intros (_ & Hq & Ha & _). unfold decision_of_request, by_key, decision_key. rewrite Hq, Ha.
  repeat case_bool_decide; simpl; naive_solver.
Qed.

Lemma query_decisions rows ds p q :
  Forall2 decision_row_of rows ds → (∀ row d, decision_row_of row d → p row = q d) →
  query_optional p read_decision rows = Ok (List.find q ds).
Proof.
  intros Hrows Hpq. unfold query_optional.
  induction Hrows as [|row d rows ds Hrd _ IH]; [done|]. simpl. rewrite (Hpq _ _ Hrd).
  destruct (q d); [|done]. destruct Hrd as (_ & _ & _ & _ & Hp). simpl.
  unfold read_decision. by rewrite Hp.
Qed.

Lemma decision_for_request_decides db ds a q :
  decides db ds →
  decision_for_request_connection db a q = Ok (List.find (by_key decision_key (a, q)) ds).
Proof.
  intros H. apply (query_decisions _ _ _ _ (dec_rows _ _ H)). intros. by apply decision_of_request_row.
Qed.

Lemma existsb_rows rows ds (p : DecisionRow → bool) q :
  Forall2 decision_row_of rows ds → (∀ row d, decision_row_of row d → p row = q d) →
  existsb p rows = existsb q ds.
Proof.
  intros Hrows Hpq. induction Hrows as [|row d rows ds Hrd _ IH]; [done|]. simpl.
  by rewrite (Hpq _ _ Hrd), IH.
Qed.

(** Inserting a decision that the constraints admit. *)
Lemma insert_decision_Ok db db' ds d :
  decides db ds → insert_decision d db = (db', Ok tt) →
  decides db' (ds ++ [d]) ∧ db_reservations db' = db_reservations db ∧
  db_policies db' = db_policies db ∧ db_policy_audit db' = db_policy_audit db ∧
  db_plans db' = db_plans db.
Proof.
  intros Hd H. unfold insert_decision in H.
  destruct (to_text d) as [payload|] eqn:Hp; [|done].
  destruct (to_sql_u64 _) as [rev|] eqn:Hr; [|done]. cbv zeta in H. simpl in H.
  unfold to_sql_u64 in Hr. apply ok_or_Ok, checked_Some in Hr as [-> _].
  destruct (existsb _ _) eqn:Hex; simplify_eq/=. split; [|done].
  rewrite (existsb_rows _ ds _ (λ x, by_key rd_decision_id (rd_decision_id d) x
    || by_key decision_key (decision_key d) x)) in Hex; [|exact (dec_rows _ _ Hd)|].
  2: { intros row x Hx. rewrite (decision_of_request_row _ _ _ _ Hx).
       destruct Hx as [Hid _]. unfold by_key at 1. by rewrite Hid. }
  rewrite existsb_false in Hex. constructor; simpl.
  - apply Forall2_app; [exact (dec_rows _ _ Hd)|]. constructor; [|done].
    repeat split; simpl. by apply from_to_text.
  - apply keyed_snoc; [exact (dec_keyed _ _ Hd)|].
    intros (x & Hk & Hx)%list_elem_of_fmap. apply Hex, orb_false_iff in Hx as [Hx _].
    unfold by_key in Hx. apply bool_decide_eq_false in Hx. congruence.
  - apply keyed_snoc; [exact (dec_requests _ _ Hd)|].
    intros (x & Hk & Hx)%list_elem_of_fmap. apply Hex, orb_false_iff in Hx as [_ Hx].
    unfold by_key in Hx. apply bool_decide_eq_false in Hx. congruence.
Qed.

Lemma insert_reservation_Ok db db' rs r :
  holds db rs → reservation_typed r → insert_reservation r db = (db', Ok tt) →
  holds db' (rs ++ [r]) ∧ db_decisions db' = db_decisions db ∧
  db_policies db' = db_policies db ∧ db_policy_audit db' = db_policy_audit db ∧
  db_plans db' = db_plans db.
Proof.
  intros Hh Hty H. unfold insert_reservation in H. cbv zeta in H. simpl in H.
  destruct (existsb _ _) eqn:Hex; simplify_eq/=. split; [|done].
  rewrite existsb_false in Hex. destruct Hh as [Hrows Htys Hk Hq]. rewrite Hrows in Hex.
  assert (∀ x, x ∈ rs → by_key rv_reservation_id (rv_reservation_id r) x = false ∧
                        by_key request_key (request_key r) x = false) as Hfresh.
  { intros x Hx. apply orb_false_iff. specialize (Hex (reservation_row x)).
    rewrite of_request_row in Hex. apply Hex. by apply list_elem_of_fmap_2. }
  constructor; simpl.
  - by rewrite Hrows, fmap_app.
  - apply Forall_app. split; [done|]. by constructor.
  - apply keyed_snoc; [done|]. intros (x & Hxk & Hx)%list_elem_of_fmap.
    apply Hfresh in Hx as [Hx _]. unfold by_key in Hx. apply bool_decide_eq_false in Hx. congruence.
  - apply keyed_snoc; [done|]. intros (x & Hxk & Hx)%list_elem_of_fmap.
    apply Hfresh in Hx as [_ Hx]. unfold by_key in Hx. apply bool_decide_eq_false in Hx. congruence.
Qed.

(** ** Persisting an approval *)

Lemma validate_approval_link_Ok d r :
  validate_approval_link d r = Ok tt ↔
  rd_account_id d = rv_account_id r ∧ rd_request_id d = rv_logical_request_id r ∧
  rd_reservation_id d = Some (rv_reservation_id r) ∧ permits_dispatch d = true ∧
  rd_approved_delta_lots d = rv_reserved_delta_lots r.
Proof.
  unfold validate_approval_link. split.
  - intros H. pass_tests H. split_and!; try done. lia.
  - intros (H1 & H2 & H3 & H4 & H5). rewrite !bool_decide_eq_true_2 by done.
    rewrite H4, H5, Z.eqb_refl. done.
Qed.

(** The two ways an approval is returned: the one already stored for the request,
    with the database untouched, or the new one, after the capacity check. *)
Lemma persist_approval_inv db db' rs ds d r cap a :
  holds db rs → decides db ds → reservation_typed r →
  persist_approval_atomic d r cap db = (db', Ok a) →
  validate_approval_link d r = Ok tt ∧
  ((∃ r0 d0, List.find (for_request (rv_account_id r) (rv_logical_request_id r)) rs = Some r0 ∧
     List.find (by_key decision_key (rd_account_id d, rd_request_id d)) ds = Some d0 ∧
     a = {| ap_decision := d0; ap_reservation := r0 |} ∧ db' = db) ∨
   List.find (for_request (rv_account_id r) (rv_logical_request_id r)) rs = None ∧
   enforce_capacity (db_reservations db) r cap = Ok tt ∧
   a = {| ap_decision := d; ap_reservation := r |} ∧
   holds db' (rs ++ [r]) ∧ decides db' (ds ++ [d]) ∧
   db_policies db' = db_policies db ∧ db_policy_audit db' = db_policy_audit db ∧
   db_plans db' = db_plans db).
Proof.
  intros Hh Hd Hty H. unfold persist_approval_atomic, persist_approval_tx in H. st_unfold.
  destruct (validate_approval_link d r) as [[]|]; [|done].
  destruct (validate_capacity cap); [|done]. split; [done|].
  rewrite (reservation_for_request_holds _ _ _ _ Hh) in H.
  destruct (List.find _ rs) as [r0|] eqn:Hf.
  - rewrite (decision_for_request_decides _ _ _ _ Hd) in H.
    destruct (List.find _ ds) as [d0|] eqn:Hfd; simplify_eq/=. left. by exists r0, d0.
  - right. destruct (enforce_capacity _ r cap) as [[]|] eqn:He; [|done].
    destruct (insert_decision d db) as [db1 [[]|]] eqn:H1; [|done].
    destruct (insert_reservation r db1) as [db2 [[]|]] eqn:H2; [|done]. simplify_eq/=.
    destruct (insert_decision_Ok _ _ _ _ Hd H1) as (Hd1 & Hr1 & P1 & P2 & P3).
    assert (holds db1 rs) as Hh1 by (destruct Hh; constructor; congruence).
    destruct (insert_reservation_Ok _ _ _ _ Hh1 Hty H2) as (Hh2 & Hd2 & Q1 & Q2 & Q3).
    assert (decides db' (ds ++ [d])) by (destruct Hd1; constructor; congruence).
    split_and!; try done; congruence.
Qed.

Lemma persist_approval_Err db db' d r cap e :
  persist_approval_atomic d r cap db = (db', Err e) → db' = db.
Proof.
  unfold persist_approval_atomic, st_bind, st_lift. intros H.
  destruct (validate_approval_link d r); [|naive_solver].
  destruct (validate_capacity cap); [|naive_solver].
  by apply transaction_atomic in H.
Qed.

Lemma enforce_capacity_lots rs r cap limit :
  enforce_capacity (reservation_row <$> rs) r cap = Ok tt →
  cap_max_instrument_reserved_abs_lots cap = Some limit →
  reserved_lots (rv_account_id r) (rv_instrument_id r) rs + Z.abs (rv_remaining_delta_lots r) ≤ limit.
Proof.
  unfold enforce_capacity. intros H Hl. rewrite Hl in H.
  destruct (enforce_lots _ r limit) as [[]|] eqn:He; [|done]. by apply enforce_lots_Ok.
Qed.

Lemma enforce_capacity_notional rs r cap limit :
  Forall reservation_typed rs →
  enforce_capacity (reservation_row <$> rs) r cap = Ok tt →
  cap_max_account_reserved_notional_nanos cap = Some limit →
  reserved_notional (rv_account_id r) rs + Z.abs (rv_reserved_notional_nanos r) ≤ limit.
Proof.
  unfold enforce_capacity. intros Hty H Hl. rewrite Hl in H.
  destruct (match cap_max_instrument_reserved_abs_lots cap with Some l => _ | None => _ end) as [[]|];
    [|done]. by apply enforce_notional_Ok.
Qed.

Lemma reserved_lots_snoc a i rs r :
  reserved_lots a i (rs ++ [r]) =
  reserved_lots a i rs + (if counts_instrument a i r then Z.abs (rv_remaining_delta_lots r) else 0).
Proof. exact (zsum_filter_snoc _ _ rs r). Qed.

Lemma reserved_notional_snoc a rs r :
  reserved_notional a (rs ++ [r]) =
  reserved_notional a rs + (if counts_account a r then Z.abs (rv_reserved_notional_nanos r) else 0).
Proof. exact (zsum_filter_snoc _ _ rs r). Qed.

(** With the new reservation counted, both limits hold. *)
Lemma enforce_capacity_after rs r cap :
  Forall reservation_typed rs → enforce_capacity (reservation_row <$> rs) r cap = Ok tt →
  (∀ lots, cap_max_instrument_reserved_abs_lots cap = Some lots →
     reserved_lots (rv_account_id r) (rv_instrument_id r) (rs ++ [r]) ≤ lots) ∧
  (∀ amount, cap_max_account_reserved_notional_nanos cap = Some amount →
     reserved_notional (rv_account_id r) (rs ++ [r]) ≤ amount).
Proof.
  intros Hty He. split; intros limit Hl.
  - rewrite reserved_lots_snoc. pose proof (enforce_capacity_lots _ _ _ _ He Hl). case_match; lia.
  - rewrite reserved_notional_snoc.
    pose proof (enforce_capacity_notional _ _ _ _ Hty He Hl). case_match; lia.
Qed.

(** ** Policy history *)

(** A chain of audit rows: each starts at the revision the one before it set. *)
Fixpoint chain (from : option Z) (l : list PolicyAuditRow) (last : option Z) : Prop :=
  match l with
  | [] => from = last
  | row :: l' =>
      au_old_revision row = from ∧
      match from with Some f => f < au_new_revision row | None => 0 < au_new_revision row end ∧
      chain (Some (au_new_revision row)) l' last
  end.

Definition audit_of (db : RiskDb) (a : string) : list PolicyAuditRow :=
  List.filter (by_key au_account_id a) (db_policy_audit db).

Definition revision_of (db : RiskDb) (a : string) : option Z :=
  pt_revision <$> List.find (by_key pt_account_id a) (db_policies db).

Record policies_wf (db : RiskDb) : Prop := {
  pw_keyed : keyed pt_account_id (db_policies db);
  pw_chain a : chain None (audit_of db a) (revision_of db a);
  pw_read row : row ∈ db_policies db →
    ∃ p, from_text (pt_payload row) = Some p ∧ po_revision p = pt_revision row ∧ 0 < pt_revision row;
}.

Lemma chain_snoc from l last row :
  chain from l last → au_old_revision row = last →
  match last with Some f => f < au_new_revision row | None => 0 < au_new_revision row end →
  chain from (l ++ [row]) (Some (au_new_revision row)).
Proof.
  revert from. induction l as [|x l IH]; simpl; intros from.
  - intros ->. done.
  - intros (H1 & H2 & H3) Hold Hlt. auto.
Qed.

Lemma find_upsert_policy row l a :
  List.find (by_key pt_account_id a) (upsert_policy row l) =
  if bool_decide (pt_account_id row = a) then Some row else List.find (by_key pt_account_id a) l.
Proof.
  unfold upsert_policy. destruct (existsb _ l) eqn:Hex.
  - rewrite find_replace. case_bool_decide; [subst; by rewrite Hex|done].
  - rewrite find_snoc. unfold by_key at 2. case_bool_decide as Ha; [|by destruct (List.find _ l)].
    destruct (List.find _ l) as [y|] eqn:Hf; [|done]. exfalso.
    apply find_by_key in Hf as [Hin Hk]. rewrite existsb_false in Hex. apply Hex in Hin.
    unfold by_key in Hin. apply bool_decide_eq_false in Hin. congruence.
Qed.

Lemma keyed_upsert_policy row l : keyed pt_account_id l → keyed pt_account_id (upsert_policy row l).
Proof.
  intros Hk. unfold upsert_policy. destruct (existsb _ l) eqn:He; [by apply keyed_replace|].
  apply keyed_snoc; [done|]. apply find_by_key_None, find_None_iff. by rewrite <- existsb_false.
Qed.

Lemma elem_of_upsert_policy x row l : x ∈ upsert_policy row l → x = row ∨ x ∈ l.
Proof.
  unfold upsert_policy. destruct (existsb _ l); [|set_solver].
  intros (x0 & Hx0 & ->)%elem_of_update_where. case_match; auto.
Qed.

(** Recording a higher revision of an account keeps the history a chain. *)
Lemma policies_wf_put db a p payload now audit :
  policies_wf db → from_text payload = Some p → 0 < po_revision p →
  match revision_of db a with Some f => f < po_revision p | None => True end →
  au_account_id audit = a → au_old_revision audit = revision_of db a →
  au_new_revision audit = po_revision p →
  policies_wf (set_policies
    (upsert_policy {| pt_account_id := a; pt_revision := po_revision p; pt_payload := payload;
                      pt_updated_at_unix_ms := now |} (db_policies db))
    (db_policy_audit db ++ [audit]) db).
Proof.
  intros [Hk Hc Hrd] Hp Hpos Hlt Ha Hold Hnew. constructor; simpl.
  - by apply keyed_upsert_policy.
  - intros b. unfold audit_of, revision_of; simpl. rewrite List.filter_app. simpl.
    rewrite find_upsert_policy. simpl. unfold by_key at 2. rewrite Ha.
    case_bool_decide as Hab; simpl; [|rewrite app_nil_r; apply Hc].
    subst b. rewrite <- Hnew. apply (chain_snoc _ _ (revision_of db a)); [apply Hc|done|].
    destruct (revision_of db a); lia.
  - intros x [->|Hin]%elem_of_upsert_policy; [|by apply Hrd].
    exists p. simpl. by split_and!.
Qed.

Lemma put_policy_Ok db db' uuid a expected p reason now p' :
  has_ty U64 (po_revision p) → policies_wf db →
  put_policy uuid a expected p reason now db = (db', Ok p') →
  p' = p ∧ policies_wf db' ∧ policy db' a = Ok (Some p) ∧
  expected = revision_of db a ∧ revision_of db' a = Some (po_revision p) ∧
  (∀ old, revision_of db a = Some old → old < po_revision p) ∧
  db_decisions db' = db_decisions db ∧ db_reservations db' = db_reservations db ∧
  db_plans db' = db_plans db.
Proof.
  intros Hty Hwf H. unfold put_policy in H.
  destruct (is_blank a || is_blank reason || _) eqn:Hg; [done|]. apply transaction_ok in H.
  unfold put_policy_tx, insert_policy_audit in H. st_unfold. simpl in H.
  set (cur := List.find (by_key pt_account_id a) (db_policies db)) in *.
  destruct (policy_cas expected cur) as [[]|] eqn:Hcas; [|done].
  destruct (match cur with Some row => _ | None => _ end) as [[]|] eqn:Hinc; [|done].
  destruct (to_text p) as [payload|] eqn:Hp; [|done]. cbn [ok_or] in H.
  destruct (to_sql_u64 _) as [rev|] eqn:Hr; [|done].
  unfold to_sql_u64 in Hr. apply ok_or_Ok, checked_Some in Hr as [-> _].
  destruct (existsb _ _) eqn:Hex; simplify_eq/=.
  assert (expected = revision_of db a) as Hexp.
  { unfold revision_of. fold cur. unfold policy_cas in Hcas. branches. f_equal. lia. }
  assert (match revision_of db a with Some f => f < po_revision p' | None => 0 < po_revision p' end) as Hlt.
  { unfold revision_of. fold cur. destruct cur as [c|]; simpl.
    - destruct (_ <=? _) eqn:Hle; [done|]. lia.
    - apply orb_false_iff in Hg as [_ Hz]. int_lia. }
  assert (0 < po_revision p') as Hpos.
  { apply orb_false_iff in Hg as [_ Hz]. int_lia. }
  split_and!; try done.
  - apply (policies_wf_put db a p' payload now); auto using from_to_text.
    by destruct (revision_of db a).
  - unfold policy, query_optional; simpl. rewrite find_upsert_policy. simpl.
    rewrite bool_decide_eq_true_2 by done. simpl. by rewrite (from_to_text _ _ Hp).
  - unfold revision_of; simpl. rewrite find_upsert_policy. simpl. by rewrite bool_decide_eq_true_2.
  - intros old Hold. by rewrite Hold in Hlt.
Qed.

Lemma put_policy_Err db db' uuid a expected p reason now e :
  put_policy uuid a expected p reason now db = (db', Err e) → db' = db.
Proof.
  unfold put_policy. case_match; [unfold st_fail; naive_solver|]. apply transaction_atomic.
Qed.

(** ** Runs of the store *)

Definition plans_hold (db : RiskDb) (ps : list RiskProtectionPlanRow) : Prop :=
  db_plans db = plan_row <$> ps ∧ keyed pn_plan_id ps.

(** Every table is readable and unique by its keys, and every account's policy
    history is a chain of increasing revisions that ends at its policy. *)
Definition db_wf (db : RiskDb) : Prop :=
  ∃ rs ds ps, holds db rs ∧ decides db ds ∧ plans_hold db ps ∧ policies_wf db.

(** One operation of one connection, whether it succeeds or not; the bounds are
    those of the Rust types of its arguments. *)
Inductive store_step : RiskDb → RiskDb → Prop :=
| step_put_policy uuid a e p reason now db db' r :
    has_ty U64 (po_revision p) →
    put_policy uuid a e p reason now db = (db', r) → store_step db db'
| step_put_decision d db db' r : put_decision d db = (db', r) → store_step db db'
| step_persist_approval d v cap db db' r :
    reservation_typed v → persist_approval_atomic d v cap db = (db', r) → store_step db db'
| step_reserve v m db db' r :
    reservation_typed v → reserve_atomic v m db = (db', r) → store_step db db'
| step_update_reservation id expected rem state now db db' r :
    has_ty I64 rem → update_reservation id expected rem state now db = (db', r) → store_step db db'
| step_put_plan p db db' r : put_protection_plan p db = (db', r) → store_step db db'
| step_transition_plan id expected state now db db' r :
    transition_protection_plan id expected state now db = (db', r) → store_step db db'.

(** Well-formedness depends on each table only. *)
Lemma db_wf_same_tables db db' :
  db_decisions db' = db_decisions db → db_reservations db' = db_reservations db →
  db_policies db' = db_policies db → db_policy_audit db' = db_policy_audit db →
  db_plans db' = db_plans db → db_wf db → db_wf db'.
Proof. destruct db, db'; simpl; intros -> -> -> -> ->. done. Qed.

Lemma policies_wf_same db db' :
  db_policies db' = db_policies db → db_policy_audit db' = db_policy_audit db →
  policies_wf db → policies_wf db'.
Proof.
  intros H1 H2 [Hk Hc Hr]. constructor; unfold audit_of, revision_of; rewrite ?H1, ?H2; [done|exact Hc|exact Hr].
Qed.

Lemma put_decision_wf d db db' r : put_decision d db = (db', r) → db_wf db → db_wf db'.
Proof.
  unfold put_decision. st_unfold. intros H (rs & ds & ps & Hh & Hd & Hp & Hw).
  destruct (ok_or (to_text d) _); [|simplify_eq; by exists rs, ds, ps].
  destruct (to_sql_u64 _); [|simplify_eq; by exists rs, ds, ps].
  destruct (existsb _ _); [simplify_eq; by exists rs, ds, ps|].
  destruct r as [[]|e].
  - destruct (insert_decision_Ok _ _ _ _ Hd H) as (Hd' & E1 & E2 & E3 & E4).
    exists rs, (ds ++ [d]), ps. split_and!; [destruct Hh; constructor; congruence|done| |by apply (policies_wf_same db)].
    unfold plans_hold in *. by rewrite E4.
  - unfold insert_decision in H. branches; by exists rs, ds, ps.
Qed.

Lemma persist_approval_wf d v cap db db' r :
  reservation_typed v → persist_approval_atomic d v cap db = (db', r) → db_wf db → db_wf db'.
Proof.
  intros Hty H Hwf. destruct r as [a|e]; [|by apply persist_approval_Err in H as ->].
  destruct Hwf as (rs & ds & ps & Hh & Hd & Hp & Hw).
  destruct (persist_approval_inv _ _ _ _ _ _ _ _ Hh Hd Hty H)
    as [_ [(r0 & d0 & _ & _ & _ & ->)|(_ & _ & _ & Hh' & Hd' & E1 & E2 & E3)]].
  - by exists rs, ds, ps.
  - exists (rs ++ [v]), (ds ++ [d]), ps. split_and!; try done; [|by apply (policies_wf_same db)].
    unfold plans_hold in *. by rewrite E3.
Qed.

(** What [reserve_atomic] does when it succeeds. *)
Lemma reserve_atomic_inv v m db db' rs r :
  holds db rs → reservation_typed v → reserve_atomic v m db = (db', Ok r) →
  (List.find (for_request (rv_account_id v) (rv_logical_request_id v)) rs = Some r ∧ db' = db) ∨
  (r = v ∧ holds db' (rs ++ [v]) ∧ db_decisions db' = db_decisions db ∧
   db_policies db' = db_policies db ∧ db_policy_audit db' = db_policy_audit db ∧
   db_plans db' = db_plans db).
Proof.
  intros Hh Hty H. unfold reserve_atomic in H. destruct (m <? 0); [done|]. apply transaction_ok in H.
  st_unfold. rewrite (reservation_for_request_holds _ _ _ _ Hh) in H.
  destruct (List.find _ rs) as [r0|]; [left; by simplify_eq|]. right.
  destruct (sql_sum _ _); [|done]. destruct (abs_i64 _); [|done]. destruct (ok_or _ _); [|done].
  destruct (m <? _); [done|].
  destruct (insert_reservation v db) as [db1 [[]|]] eqn:H1; [|done]. simplify_eq.
  split; [done|]. by apply insert_reservation_Ok.
Qed.

Lemma reserve_atomic_wf v m db db' r :
  reservation_typed v → reserve_atomic v m db = (db', r) → db_wf db → db_wf db'.
Proof.
  intros Hty H Hwf. destruct r as [a|e].
  - destruct Hwf as (rs & ds & ps & Hh & Hd & Hp & Hw).
    destruct (reserve_atomic_inv _ _ _ _ _ _ Hh Hty H) as [[_ ->]|(_ & Hh' & E0 & E1 & E2 & E3)];
      [by exists rs, ds, ps|].
    exists (rs ++ [v]), ds, ps. split_and!; [done|destruct Hd; constructor; congruence| |by apply (policies_wf_same db)].
    unfold plans_hold in *. by rewrite E3.
  - unfold reserve_atomic in H. destruct (m <? 0); [unfold st_fail in H; by simplify_eq|].
    by apply transaction_atomic in H as ->.
Qed.

Lemma update_reservation_wf id expected rem state now db db' r :
  has_ty I64 rem → update_reservation id expected rem state now db = (db', r) → db_wf db → db_wf db'.
Proof.
  intros Hrem H (rs & ds & ps & Hh & Hd & Hp & Hw).
  rewrite (update_reservation_spec _ _ _ _ _ _ _ Hh Hrem) in H.
  destruct (List.find _ rs); [|simplify_eq; by exists rs, ds, ps].
  destruct (bool_decide _); [|simplify_eq; by exists rs, ds, ps]. simplify_eq.
  eexists _, ds, ps. split_and!; [by apply holds_update|destruct Hd; by constructor|done|by apply (policies_wf_same db)].
Qed.

Lemma put_plan_wf p db db' r : put_protection_plan p db = (db', r) → db_wf db → db_wf db'.
Proof.
  unfold put_protection_plan. intros H (rs & ds & ps & Hh & Hd & [Hrows Hk] & Hw). cbv zeta in H.
  assert (∀ ps', keyed pn_plan_id ps' → db_wf (set_plans (plan_row <$> ps') db)) as Hdone.
  { intros ps' Hk'. exists rs, ds, ps'. split_and!; try done;
      [destruct Hh; by constructor|destruct Hd; by constructor|by apply (policies_wf_same db)]. }
  rewrite Hrows in H. destruct (existsb _ _) eqn:Hex; simplify_eq.
  - set (f := λ x, {| pn_plan_id := pn_plan_id x; pn_account_id := pn_account_id x;
      pn_instrument_id := pn_instrument_id x; pn_strategy_id := pn_strategy_id x;
      pn_reservation_id := pn_reservation_id x; pn_protected_delta_lots := pn_protected_delta_lots p;
      pn_state := pn_state p; pn_created_at_unix_ms := pn_created_at_unix_ms x;
      pn_updated_at_unix_ms := pn_updated_at_unix_ms p |}).
    match goal with |- db_wf (set_plans ?l db) =>
      replace l with (plan_row <$> update_where (by_key pn_plan_id (pn_plan_id p)) f ps) end.
    { apply Hdone. by apply keyed_update. }
    unfold update_where. rewrite <- !list_fmap_compose. apply list_fmap_ext.
    intros i x _. simpl. unfold by_key; simpl. by case_bool_decide.
  - replace ((plan_row <$> ps) ++ [plan_row p]) with (plan_row <$> ps ++ [p]) by (by rewrite fmap_app).
    apply Hdone, keyed_snoc; [done|]. intros (x & Hx & Hin)%list_elem_of_fmap.
    rewrite existsb_false in Hex. specialize (Hex (plan_row x)). unfold by_key in Hex. simpl in Hex.
    rewrite bool_decide_eq_true_2 in Hex by done.
    discriminate Hex. by apply list_elem_of_fmap_2.
Qed.

Lemma plan_by_id_hold db ps id :
  plans_hold db ps → plan_by_id db id = Ok (List.find (by_key pn_plan_id id) ps).
Proof.
  intros [Hrows _]. unfold plan_by_id, query_optional. rewrite Hrows, find_fmap.
  rewrite (find_ext _ (by_key pn_plan_id id)) by done.
  destruct (List.find _ ps); [|done]. simpl. by rewrite plan_from_row_row.
Qed.

Definition set_plan_state (s : ProtectionPlanState) (now : Z) (p : RiskProtectionPlanRow)
  : RiskProtectionPlanRow :=
  {| pn_plan_id := pn_plan_id p; pn_account_id := pn_account_id p;
     pn_instrument_id := pn_instrument_id p; pn_strategy_id := pn_strategy_id p;
     pn_reservation_id := pn_reservation_id p; pn_protected_delta_lots := pn_protected_delta_lots p;
     pn_state := s; pn_created_at_unix_ms := pn_created_at_unix_ms p; pn_updated_at_unix_ms := now |}.

Lemma transition_plan_wf id expected s now db db' r :
  transition_protection_plan id expected s now db = (db', r) → db_wf db → db_wf db'.
Proof.
  intros H Hwf. unfold transition_protection_plan in H.
  destruct r as [a|e]; [|by apply transaction_atomic in H as ->]. apply transaction_ok in H.
  destruct Hwf as (rs & ds & ps & Hh & Hd & Hp & Hw). st_unfold.
  rewrite (plan_by_id_hold _ _ _ Hp) in H. destruct (List.find _ ps); [|done]. simpl in H.
  destruct (negb _); [done|]. destruct Hp as [Hrows Hk].
  destruct (plan_by_id _ id) as [[q|]|]; simplify_eq/=.
  exists rs, ds, (update_where (by_key pn_plan_id id) (set_plan_state s now) ps).
  split_and!; [destruct Hh|destruct Hd| |by apply (policies_wf_same db)]; [constructor; done..|].
  split; simpl; [|by apply keyed_update]. rewrite Hrows. unfold update_where.
  rewrite <- !list_fmap_compose. apply list_fmap_ext.
  intros i x _. simpl. unfold by_key; simpl. by case_bool_decide.
Qed.

Lemma put_policy_wf uuid a e p reason now db db' r :
  has_ty U64 (po_revision p) → put_policy uuid a e p reason now db = (db', r) → db_wf db → db_wf db'.
Proof.
  intros Hty H Hwf. destruct r as [q|]; [|by apply put_policy_Err in H as ->].
  destruct Hwf as (rs & ds & ps & Hh & Hd & Hp & Hw).
  destruct (put_policy_Ok _ _ _ _ _ _ _ _ _ Hty Hw H) as (_ & Hw' & _ & _ & _ & _ & E1 & E2 & E3).
  exists rs, ds, ps. split_and!; [destruct Hh|destruct Hd| |done]; try (constructor; congruence).
  unfold plans_hold in *. by rewrite E3.
Qed.

Lemma store_step_wf db db' : store_step db db' → db_wf db → db_wf db'.
Proof.
  intros [| | | | | |]; eauto using put_policy_wf, put_decision_wf, persist_approval_wf,
    reserve_atomic_wf, update_reservation_wf, put_plan_wf, transition_plan_wf.
Qed.

Lemma empty_db_wf : db_wf empty_db.
Proof.
  exists [], [], []. split_and!; repeat constructor; simpl; try apply NoDup_nil_2; set_solver.
Qed.

(** ** Properties *)

(** An approval is persisted once and whole: a call of
    [persist_approval_atomic] that fails leaves the database as it was; one that
    succeeds leaves the account and request with exactly the returned decision and
    reservation, which a later call for the same request, whatever decision,
    reservation and capacity it brings, returns unchanged without another write;
    and when the request was new the stored approval reads back as the one given. *)
Theorem approval_recorded_once db db1 rs ds d r cap res :
  holds db rs → decides db ds → reservation_typed r →
  persist_approval_atomic d r cap db = (db1, res) →
  match res with
  | Err _ => db1 = db
  | Ok a =>
      (∀ d' r' cap', validate_approval_link d' r' = Ok tt → validate_capacity cap' = Ok tt →
         request_key r' = request_key r → persist_approval_atomic d' r' cap' db1 = (db1, Ok a)) ∧
      (List.find (for_request (rv_account_id r) (rv_logical_request_id r)) rs = None →
         approval_for_request db1 (rv_account_id r) (rv_logical_request_id r) = Ok (Some a) ∧
         a = {| ap_decision := d; ap_reservation := r |})
  end.
Proof.
  intros Hh Hd Hty H. destruct res as [a|e]; [|by apply persist_approval_Err in H].
  destruct (persist_approval_inv _ _ _ _ _ _ _ _ Hh Hd Hty H) as [Hlink Hcase].
  apply validate_approval_link_Ok in Hlink as Hl. destruct Hl as (Ea & Eq & _).
  assert (∃ rs1 ds1, holds db1 rs1 ∧ decides db1 ds1 ∧
    List.find (for_request (rv_account_id r) (rv_logical_request_id r)) rs1 = Some (ap_reservation a) ∧
    List.find (by_key decision_key (rv_account_id r, rv_logical_request_id r)) ds1 = Some (ap_decision a))
    as (rs1 & ds1 & Hh1 & Hd1 & Hfr & Hfd).
  { destruct Hcase as [(r0 & d0 & Hf & Hfd & -> & ->)|(Hf & _ & -> & Hh1 & Hd1 & _)].
    - exists rs, ds. rewrite Ea, Eq in Hfd. done.
    - exists (rs ++ [r]), (ds ++ [d]). split_and!; try done.
      + rewrite find_snoc, Hf. unfold for_request, by_key. by rewrite bool_decide_eq_true_2.
      + apply keyed_find; [exact (dec_requests _ _ Hd1)|set_solver|].
        unfold decision_key; simpl. by rewrite Ea, Eq. }
  split.
  - intros d' r' cap' Hlink' Hcap' Hkey. injection Hkey as Hka Hkq.
    unfold persist_approval_atomic, persist_approval_tx. st_unfold. rewrite Hlink', Hcap'.
    apply validate_approval_link_Ok in Hlink' as (Ea' & Eq' & _).
    rewrite (reservation_for_request_holds _ _ _ _ Hh1), (decision_for_request_decides _ _ _ _ Hd1).
    rewrite Ea', Eq', Hka, Hkq, Hfr, Hfd. simpl. by destruct a.
  - intros Hnew. destruct Hcase as [(r0 & d0 & Hf & _)|(_ & _ & -> & _)]; [congruence|].
    split; [|done]. unfold approval_for_request.
    rewrite (reservation_for_request_holds _ _ _ _ Hh1), (decision_for_request_decides _ _ _ _ Hd1).
    rewrite Hfr, Hfd. simpl. by rewrite Hlink.
Qed.

(** Capacity is never oversubscribed by an approval: when
    [persist_approval_atomic] records a new reservation, the lots reserved on its
    instrument and the notional reserved on its account, counting every ACTIVE,
    PARTIALLY_CONSUMED, UNKNOWN_HELD and ORPHANED reservation and the new one,
    are within the limits the call was given. *)
Theorem approval_within_capacity db db1 rs ds d r cap a :
  holds db rs → decides db ds → reservation_typed r →
  persist_approval_atomic d r cap db = (db1, Ok a) →
  (holds db1 rs ∧ db1 = db) ∨
  (holds db1 (rs ++ [r]) ∧
   (∀ lots, cap_max_instrument_reserved_abs_lots cap = Some lots →
      reserved_lots (rv_account_id r) (rv_instrument_id r) (rs ++ [r]) ≤ lots) ∧
   (∀ amount, cap_max_account_reserved_notional_nanos cap = Some amount →
      reserved_notional (rv_account_id r) (rs ++ [r]) ≤ amount)).
Proof.
  intros Hh Hd Hty H.
  destruct (persist_approval_inv _ _ _ _ _ _ _ _ Hh Hd Hty H)
    as [_ [(r0 & d0 & _ & _ & _ & ->)|(_ & He & _ & Hh1 & _)]]; [by left|right].
  rewrite (hold_rows _ _ Hh) in He.
  split; [done|exact (enforce_capacity_after _ _ _ (hold_typed _ _ Hh) He)].
Qed.

(** C39. The tables stay well formed: in every database that any sequence of store
    operations of any connections, successful or not, can reach from the empty one,
    every row reads back, identities and (account, request) pairs are unique, and
    the audit rows of each account form a chain of strictly increasing revisions
    that starts at nothing and ends at the revision of its current policy, which
    reads back with that revision. *)
Theorem store_stays_well_formed db :
  rtc store_step empty_db db →
  db_wf db ∧
  ∀ a, chain None (audit_of db a) (revision_of db a) ∧
    ∀ v, revision_of db a = Some v → ∃ p, policy db a = Ok (Some p) ∧ po_revision p = v.
Proof.
  intros Hrun.
  assert (db_wf db) as Hwf.
  { apply (rtc_invariant store_step db_wf empty_db); [|done|exact empty_db_wf]. apply store_step_wf. }
  split; [done|]. destruct Hwf as (_ & _ & _ & _ & _ & _ & [Hk Hc Hr]). intros a. split; [apply Hc|].
  unfold revision_of, policy, query_optional. intros v Hv.
  destruct (List.find _ (db_policies db)) as [row|] eqn:Hf; [|done]. simplify_eq/=.
  apply find_by_key in Hf as [Hin _]. destruct (Hr _ Hin) as (p & Hp & Hrev & _).
  exists p. by rewrite Hp.
Qed.

(** Policy updates are compare-and-set: an accepted update named the revision
    that was current, raised it, kept the history a chain and is what the account's
    policy reads back as; a second writer that still names the revision the first
    one replaced is refused and changes nothing. *)
Theorem policy_update_is_compare_and_set db db1 uuid a expected p reason now q :
  has_ty U64 (po_revision p) → policies_wf db →
  put_policy uuid a expected p reason now db = (db1, Ok q) →
  q = p ∧ policies_wf db1 ∧ expected = revision_of db a ∧
  (∀ old, expected = Some old → old < po_revision p) ∧
  policy db1 a = Ok (Some p) ∧
  (∀ uuid' p' reason' now', ∃ e, put_policy uuid' a expected p' reason' now' db1 = (db1, Err e)).
Proof.
  intros Hty Hwf H.
  destruct (put_policy_Ok _ _ _ _ _ _ _ _ _ Hty Hwf H) as (-> & Hw1 & Hread & -> & Hrev & Hlt & _).
  split_and!; try done. intros uuid' p' reason' now'.
  unfold put_policy. destruct (_ || _); [by eexists|].
  exists PolicyRevisionConflict. unfold transaction, put_policy_tx. st_unfold. simpl.
  unfold revision_of in Hrev. destruct (List.find _ (db_policies db1)) as [row|]; [|done].
  simplify_eq/=. unfold policy_cas. destruct (revision_of db a) as [old|]; [|done].
  specialize (Hlt old eq_refl). destruct (old =? pt_revision row) eqn:E; [lia|done].
Qed.
End invariant.

(** ** Witnesses *)

Definition sample_link : RiskDecision :=
  {| rd_decision_id := "d-1"; rd_request_id := "r-1"; rd_policy_revision := 7; rd_account_id := "a-1";
     rd_action := Action.DirectionalOrder; rd_requested_delta_lots := 3; rd_approved_delta_lots := 3;
     rd_outcome := Outcome.Approve; rd_reasons := []; rd_reservation_id := Some "v-1";
     rd_expires_at_unix_ms := None;
     rd_validity :=
       {| vc_runtime_epoch := 1; vc_reconciliation_revision := 1; vc_position_revision := 1;
          vc_order_revision := 1; vc_market_data_as_of_unix_ms := None;
          vc_instrument_constraints_revision := 1; vc_policy_revision := 7;
          vc_execution_authorization_revision := 1 |} |}.

Definition sample_hold : RiskReservation :=
  {| rv_reservation_id := "v-1"; rv_account_id := "a-1"; rv_instrument_id := "SBER";
     rv_strategy_id := None; rv_source := Source.Manual; rv_logical_request_id := "r-1";
     rv_reserved_delta_lots := 3; rv_remaining_delta_lots := 3; rv_reserved_notional_nanos := 750;
     rv_state := Resv.Active; rv_created_at_unix_ms := 10; rv_updated_at_unix_ms := 10;
     rv_expires_at_unix_ms := None |}.

Definition sample_capacity : ReservationCapacity :=
  {| cap_max_account_reserved_notional_nanos := Some 1000;
     cap_max_instrument_reserved_abs_lots := Some 5 |}.

#[local] Instance sample_decision_serde : Serde RiskDecision := table_serde [sample_link].
#[local] Instance sample_decision_laws : SerdeLaws RiskDecision := table_serde_laws [sample_link].
#[local] Instance sample_policy_serde : Serde RiskPolicySet := table_serde [fail_closed 1; fail_closed 2].
#[local] Instance sample_policy_laws : SerdeLaws RiskPolicySet :=
  table_serde_laws [fail_closed 1; fail_closed 2].

Definition sample_persisted : RiskDb * result RiskStoreError PersistedRiskApproval :=
  persist_approval_atomic sample_link sample_hold sample_capacity empty_db.

Lemma sample_hold_typed : reservation_typed sample_hold.
Proof. split; split; vm_compute; discriminate. Qed.

Lemma empty_holds : holds empty_db [].
Proof. constructor; simpl; [done|constructor|apply NoDup_nil_2|apply NoDup_nil_2]. Qed.

Lemma empty_decides : decides empty_db [].
Proof. constructor; simpl; [constructor|apply NoDup_nil_2|apply NoDup_nil_2]. Qed.

Lemma approval_recorded_once_witness :
  approval_for_request sample_persisted.1 "a-1" "r-1"
  = Ok (Some {| ap_decision := sample_link; ap_reservation := sample_hold |}).
Proof.
  destruct (approval_recorded_once empty_db sample_persisted.1 [] [] sample_link sample_hold
    sample_capacity (Ok {| ap_decision := sample_link; ap_reservation := sample_hold |})
    empty_holds empty_decides sample_hold_typed) as [_ H]; [vm_compute; reflexivity|].
  apply H. reflexivity.
Defined.

Lemma approval_within_capacity_witness : holds sample_persisted.1 [sample_hold].
Proof.
  destruct (approval_within_capacity empty_db sample_persisted.1 [] [] sample_link sample_hold
    sample_capacity {| ap_decision := sample_link; ap_reservation := sample_hold |}
    empty_holds empty_decides sample_hold_typed) as [[_ H]|[H _]];
    [vm_compute; reflexivity | vm_compute in H; discriminate H | exact H].
Defined.

Definition sample_put : RiskDb * result RiskStoreError RiskPolicySet :=
  put_policy "u-1" "a-1" None (fail_closed 1) "initial" 10 empty_db.

Lemma store_stays_well_formed_witness : db_wf sample_put.1.
Proof.
  apply (store_stays_well_formed sample_put.1). apply rtc_once.
  apply (step_put_policy "u-1" "a-1" None (fail_closed 1) "initial" 10 empty_db sample_put.1 sample_put.2).
  - split; vm_compute; discriminate.
  - reflexivity.
Defined.

Lemma policy_update_is_compare_and_set_witness : policy sample_put.1 "a-1" = Ok (Some (fail_closed 1)).
Proof.
  destruct (policy_update_is_compare_and_set empty_db sample_put.1 "u-1" "a-1" None (fail_closed 1)
    "initial" 10 (fail_closed 1)) as (_ & _ & _ & _ & H & _);
    [split; vm_compute; discriminate | | vm_compute; reflexivity | exact H].
  constructor; simpl; [apply NoDup_nil_2|done|set_solver].
Defined.

(** ** The trait *)

Class RiskStore (S : Type) := {
  rs_policy : S → string → result RiskStoreError (option RiskPolicySet);
  rs_put_decision : RiskDecision → st S RiskStoreError ();
  rs_decision_for_request : S → string → string → result RiskStoreError (option RiskDecision);
  rs_approval_for_request : S → string → string → result RiskStoreError (option PersistedRiskApproval);
  rs_persist_approval_atomic :
    RiskDecision → RiskReservation → ReservationCapacity → st S RiskStoreError PersistedRiskApproval;
  rs_reservation_for_request : S → string → string → result RiskStoreError (option RiskReservation);
  rs_active_reserved_delta : S → string → string → result RiskStoreError Z;
  rs_active_reservations : S → string → result RiskStoreError (list RiskReservation);
  rs_update_reservation :
    string → list ReservationState → Z → ReservationState → Z → st S RiskStoreError RiskReservation;
}.

(** What clients of the trait rely on.  [store_inv] is the store's own invariant;
    an operation that fails, for a broken medium as for a refused request, leaves
    the reservations it holds as they were. *)
Class RiskStoreLaws (S : Type) `{!RiskStore S} := {
  store_inv : S → Prop;
  reservations : S → list RiskReservation;
  reservations_keyed s : store_inv s → keyed rv_reservation_id (reservations s);
  requests_keyed s : store_inv s → keyed request_key (reservations s);
  lookup_reservation s a q o : store_inv s →
    rs_reservation_for_request s a q = Ok o → o = List.find (for_request a q) (reservations s);
  update_ok s s' id expected rem state now r : store_inv s → has_ty I64 rem →
    rs_update_reservation id expected rem state now s = (s', Ok r) →
    store_inv s' ∧
    ∃ r0, List.find (by_key rv_reservation_id id) (reservations s) = Some r0 ∧
      rv_state r0 ∈ expected ∧ r = set_remaining rem state now r0 ∧
      reservations s' =
        update_where (by_key rv_reservation_id id) (set_remaining rem state now) (reservations s);
  update_err s s' id expected rem state now e : store_inv s → has_ty I64 rem →
    rs_update_reservation id expected rem state now s = (s', Err e) →
    store_inv s' ∧ reservations s' = reservations s;
  persist_ok s s' d r cap a : store_inv s → reservation_typed r →
    rs_persist_approval_atomic d r cap s = (s', Ok a) →
    store_inv s' ∧ validate_approval_link d r = Ok tt ∧
    (reservations s' = reservations s ∧
       List.find (for_request (rv_account_id r) (rv_logical_request_id r)) (reservations s)
         = Some (ap_reservation a)
     ∨ reservations s' = reservations s ++ [r] ∧
       List.find (for_request (rv_account_id r) (rv_logical_request_id r)) (reservations s) = None ∧
       a = {| ap_decision := d; ap_reservation := r |} ∧
       (∀ lots, cap_max_instrument_reserved_abs_lots cap = Some lots →
          reserved_lots (rv_account_id r) (rv_instrument_id r) (reservations s ++ [r]) ≤ lots) ∧
       (∀ amount, cap_max_account_reserved_notional_nanos cap = Some amount →
          reserved_notional (rv_account_id r) (reservations s ++ [r]) ≤ amount));
  persist_err s s' d r cap e : store_inv s → reservation_typed r →
    rs_persist_approval_atomic d r cap s = (s', Err e) →
    store_inv s' ∧ reservations s' = reservations s;
}.

(** ** The SQLite store implements the trait *)

Section instance.
Context `{!Serde RiskDecision} `{!Serde RiskPolicySet}.

#[export] Instance SqliteRiskStore : RiskStore RiskDb := {
  rs_policy := policy;
  rs_put_decision := put_decision;
  rs_decision_for_request := decision_for_request_connection;
  rs_approval_for_request := approval_for_request;
  rs_persist_approval_atomic := persist_approval_atomic;
  rs_reservation_for_request := reservation_for_request_connection;
  rs_active_reserved_delta := active_reserved_delta;
  rs_active_reservations := active_reservations;
  rs_update_reservation := update_reservation;
}.

(** The reservations a table holds, row by row. *)
Definition table_reservations (db : RiskDb) : list RiskReservation :=
  omap (λ row, match read_reservation row with Ok r => Some r | Err _ => None end) (db_reservations db).

Lemma table_reservations_holds db rs : holds db rs → table_reservations db = rs.
Proof.
  intros [Hrows Hty _ _]. unfold table_reservations. rewrite Hrows. clear Hrows.
  induction Hty as [|r rs Hr _ IH]; [done|]. rewrite fmap_cons. cbn [omap list_omap].
  rewrite read_reservation_row by done. f_equal. exact IH.
Qed.

Definition sqlite_inv (db : RiskDb) : Prop := ∃ rs ds, holds db rs ∧ decides db ds.

Context `{!SerdeLaws RiskDecision} `{!SerdeLaws RiskPolicySet}.

#[export] Instance SqliteRiskStore_laws : RiskStoreLaws RiskDb.
Proof.
  refine {| store_inv := sqlite_inv; reservations := table_reservations |}; simpl.
  - intros s (rs & ds & Hh & _). rewrite (table_reservations_holds _ _ Hh). apply (hold_keyed _ _ Hh).
  - intros s (rs & ds & Hh & _). rewrite (table_reservations_holds _ _ Hh). apply (hold_requests _ _ Hh).
  - intros s a q o (rs & ds & Hh & _). rewrite (table_reservations_holds _ _ Hh).
    rewrite (reservation_for_request_holds _ _ _ _ Hh). by intros [= <-].
  - intros s s' id expected rem state now r (rs & ds & Hh & Hd) Hrem.
    rewrite (table_reservations_holds _ _ Hh), (update_reservation_spec _ _ _ _ _ _ _ Hh Hrem).
    destruct (List.find _ rs) as [r0|] eqn:Hf; [|done]. case_bool_decide; [|done]. intros [= <- <-].
    pose proof (holds_update _ _ id rem state now Hh Hrem) as Hh'. split.
    + eexists _, ds. split; [exact Hh'|]. destruct Hd; by constructor.
    + exists r0. by rewrite (table_reservations_holds _ _ Hh').
  - intros s s' id expected rem state now e Hinv Hrem.
    destruct Hinv as (rs & ds & Hh & Hd) eqn:E. rewrite (update_reservation_spec _ _ _ _ _ _ _ Hh Hrem).
    destruct (List.find _ rs); [case_bool_decide; [done|]|]; intros [= <- <-]; (split; [exact Hinv|done]).
  - intros s s' d r cap a (rs & ds & Hh & Hd) Hty H. rewrite (table_reservations_holds _ _ Hh).
    destruct (persist_approval_inv _ _ _ _ _ _ _ _ Hh Hd Hty H)
      as [Hl [(r0 & d0 & Hf & Hfd & -> & ->)|(Hf & He & -> & Hh' & Hd' & _)]].
    + split; [by exists rs, ds|]. split; [done|]. left.
      by rewrite (table_reservations_holds _ _ Hh).
    + split; [by eexists _, _|]. split; [done|]. right. rewrite (table_reservations_holds _ _ Hh').
      rewrite (hold_rows _ _ Hh) in He.
      destruct (enforce_capacity_after _ _ _ (hold_typed _ _ Hh) He). by split_and!.
  - intros s s' d r cap e Hinv _ H. apply persist_approval_Err in H as ->. done.
Defined.
End instance.
