(* ===== verification/RiskReconcile.v ===== *)
(** * The reservation reconciler: [crates/vox-risk/src/reconcile.rs]

    [RiskReservationReconciler] turns broker evidence into changes of a
    reservation.  It is generic in the store, and proved against the interface
    [RiskStore] and its laws.  Every operation reads the reservation and then
    updates it by a second store call; the part after the read is a definition of
    its own, so that runs can let other processes act between the two. *)
From S2P Require Import Prelude RiskModel RiskEngine RiskStore.

Inductive RiskReservationReconcileError :=
| ReconcileReservationNotFound
| InvalidFill
| FillDirectionMismatch
| FillExceedsReservation
| TerminalReservation
| ReconcileArithmeticOverflow
| Store (e : RiskStoreError).

Section reconciler.
Context {S : Type} `{!RiskStore S}.
Notation op := (st S RiskReservationReconcileError RiskReservation).

Definition required (s : S) (account_id logical_request_id : string)
  : result RiskReservationReconcileError RiskReservation :=
  let? found := map_err Store (rs_reservation_for_request s account_id logical_request_id) in
  ok_or found ReconcileReservationNotFound.

(** The store call every operation ends in. *)
Definition update (r : RiskReservation) (expected : list ReservationState) (remaining : Z)
    (state : ReservationState) (now : Z) : op :=
  st_map_err Store (rs_update_reservation (rv_reservation_id r) expected remaining state now).

(** Reads the reservation of a request and goes on with it. *)
Definition with_required (a q : string) (k : RiskReservation → op) : op :=
  let! s := st_get in
  let! r := st_lift (required s a q) in
  k r.

Definition release_undispatched (now : Z) (r : RiskReservation) : op :=
  update r [Resv.Active] 0 Resv.Released now.

Definition proven_pre_dispatch_failure (a q : string) (now : Z) : op :=
  with_required a q (release_undispatched now).

Definition hold_unknown (now : Z) (r : RiskReservation) : op :=
  if bool_decide (rv_state r = Resv.UnknownHeld) then st_ret r
  else update r [Resv.Active; Resv.PartiallyConsumed] (rv_remaining_delta_lots r) Resv.UnknownHeld now.

Definition unknown_after_dispatch (a q : string) (now : Z) : op :=
  with_required a q (hold_unknown now).

(** The states from which evidence is still consumed. *)
Definition consumable (s : ReservationState) : bool :=
  match s with Resv.Active | Resv.PartiallyConsumed | Resv.UnknownHeld => true | _ => false end.

Definition consume_fill (filled : Z) (now : Z) (r : RiskReservation) : op :=
  if negb (consumable (rv_state r)) then st_fail TerminalReservation
  else if negb (signum (rv_remaining_delta_lots r) =? signum filled) then st_fail FillDirectionMismatch
  else if unsigned_abs (rv_remaining_delta_lots r) <? unsigned_abs filled
  then st_fail FillExceedsReservation
  else
    let! remaining := st_lift (ok_or (checked_sub I64 (rv_remaining_delta_lots r) filled)
                                 ReconcileArithmeticOverflow) in
    let target := if remaining =? 0 then Resv.Consumed else Resv.PartiallyConsumed in
    update r [Resv.Active; Resv.PartiallyConsumed; Resv.UnknownHeld] remaining target now.

Definition authoritative_fill (a q : string) (filled : Z) (now : Z) : op :=
  if filled =? 0 then st_fail InvalidFill else with_required a q (consume_fill filled now).

Definition release_unexposed (now : Z) (r : RiskReservation) : op :=
  match rv_state r with
  | Resv.Consumed | Resv.Released => st_ret r
  | _ => update r [Resv.Active; Resv.PartiallyConsumed; Resv.UnknownHeld; Resv.Orphaned] 0
           Resv.Released now
  end.

Definition broker_authoritative_no_remaining_exposure (a q : string) (now : Z) : op :=
  with_required a q (release_unexposed now).

Definition hold_orphan (now : Z) (r : RiskReservation) : op :=
  if bool_decide (rv_state r = Resv.Orphaned) then st_ret r
  else update r [Resv.Active; Resv.PartiallyConsumed] (rv_remaining_delta_lots r) Resv.Orphaned now.

Definition orphan_fail_closed (a q : string) (now : Z) : op := with_required a q (hold_orphan now).

Definition confirm_dispatch (r : RiskReservation) : op :=
  if negb (consumable (rv_state r)) then st_fail TerminalReservation else st_ret r.

Definition dispatch_acknowledged (a q : string) : op := with_required a q confirm_dispatch.

Definition release_rejected (now : Z) (r : RiskReservation) : op :=
  match rv_state r with
  | Resv.Consumed | Resv.Released => st_ret r
  | _ => update r [Resv.Active; Resv.PartiallyConsumed; Resv.UnknownHeld; Resv.Orphaned] 0
           Resv.Released now
  end.

Definition broker_authoritative_reject (a q : string) (now : Z) : op :=
  with_required a q (release_rejected now).

Definition reconcile_abs (v : Z) : result RiskReservationReconcileError Z :=
  ok_or (checked I64 (unsigned_abs v)) ReconcileArithmeticOverflow.

Definition adopt_remaining (runtime_remaining : Z) (now : Z) (r : RiskReservation) : op :=
  if negb (consumable (rv_state r)) then st_fail TerminalReservation
  else
    let original_sign := signum (rv_remaining_delta_lots r) in
    if original_sign =? 0 then st_fail InvalidFill
    else if negb (runtime_remaining =? 0) && negb (signum runtime_remaining =? original_sign)
    then st_fail FillDirectionMismatch
    else
      let! runtime_abs := st_lift (reconcile_abs runtime_remaining) in
      let! original_abs := st_lift (reconcile_abs (rv_remaining_delta_lots r)) in
      if original_abs <? runtime_abs then st_fail FillExceedsReservation
      else
        let target := if runtime_remaining =? 0 then Resv.Consumed else Resv.PartiallyConsumed in
        update r [Resv.Active; Resv.PartiallyConsumed; Resv.UnknownHeld] runtime_remaining target now.

Definition runtime_reconciliation (a q : string) (runtime_remaining : Z) (now : Z) : op :=
  with_required a q (adopt_remaining runtime_remaining now).

(** ** The operations as one type *)

(** The evidence an operation brings, and its part after the read. *)
Inductive evidence :=
| NotSent | UnknownOutcome | Fill (lots : Z) | NoExposure | Unmatched | Acknowledged | BrokerRejected
| Remaining (lots : Z).

Definition apply_evidence (e : evidence) (now : Z) (r : RiskReservation) : op :=
  match e with
  | NotSent => release_undispatched now r
  | UnknownOutcome => hold_unknown now r
  | Fill f => if f =? 0 then st_fail InvalidFill else consume_fill f now r
  | NoExposure => release_unexposed now r
  | Unmatched => hold_orphan now r
  | Acknowledged => confirm_dispatch r
  | BrokerRejected => release_rejected now r
  | Remaining n => adopt_remaining n now r
  end.

(** The reconciler's method for a piece of evidence. *)
Definition reconcile_with (e : evidence) (a q : string) (now : Z) : op :=
  match e with
  | NotSent => proven_pre_dispatch_failure a q now
  | UnknownOutcome => unknown_after_dispatch a q now
  | Fill f => authoritative_fill a q f now
  | NoExposure => broker_authoritative_no_remaining_exposure a q now
  | Unmatched => orphan_fail_closed a q now
  | Acknowledged => dispatch_acknowledged a q
  | BrokerRejected => broker_authoritative_reject a q now
  | Remaining n => runtime_reconciliation a q n now
  end.

(** A method is the read followed by the rest, and fails without a write otherwise. *)
Lemma reconcile_with_inv e a q now (s s' : S) res :
  reconcile_with e a q now s = (s', res) →
  (∃ err, res = Err err ∧ s' = s) ∨
  ∃ r, rs_reservation_for_request s a q = Ok (Some r) ∧ apply_evidence e now r s = (s', res).
Proof.
  assert (∀ k, with_required a q k s = (s', res) →
    (∃ err, res = Err err ∧ s' = s) ∨
    ∃ r, rs_reservation_for_request s a q = Ok (Some r) ∧ k r s = (s', res)) as Hwith.
  { intros k. unfold with_required, required. st_unfold.
    destruct (rs_reservation_for_request s a q) as [[r|]|e'] eqn:Hr; simpl; intros H.
    - right. by exists r.
    - left. simplify_eq. by eexists.
    - left. simplify_eq. by eexists. }
  destruct e; simpl; try apply Hwith.
  unfold authoritative_fill. destruct (lots =? 0); [|apply Hwith].
  intros H. left. unfold st_fail in H. simplify_eq. by eexists.
Qed.
End reconciler.

(** ** What an operation may write *)

(** The change of a reservation that a piece of evidence asks for. *)
Record change (e : evidence) (r : RiskReservation) (expected : list ReservationState) (rem : Z)
    (state : ReservationState) : Prop := {
  ch_expected : Forall (λ s, holds_capacity s = true) expected;
  ch_shrinks : partial_fill rem (rv_remaining_delta_lots r);
  ch_terminal : holds_capacity state = false → rem = 0;
  ch_exact :
    match e with
    | UnknownOutcome | Unmatched => rem = rv_remaining_delta_lots r ∧ holds_capacity state = true
    | Fill f => rem = rv_remaining_delta_lots r - f ∧ f ≠ 0 ∧ partial_fill f (rv_remaining_delta_lots r)
                ∧ (holds_capacity state = false ↔ rem = 0)
    | Remaining n => rem = n ∧ (holds_capacity state = false ↔ rem = 0)
    | NotSent | NoExposure | BrokerRejected => rem = 0 ∧ state = Resv.Released
    | Acknowledged => False
    end;
}.

(** ** Capacity as a sum over all reservations *)

Definition weight (a i : string) (r : RiskReservation) : Z :=
  if counts_instrument a i r then Z.abs (rv_remaining_delta_lots r) else 0.

Lemma reserved_lots_weight a i rs : reserved_lots a i rs = zsum (weight a i) rs.
Proof.
  unfold reserved_lots, weight. induction rs as [|r rs IH]; [done|]. simpl.
  unfold zsum in *. destruct (counts_instrument a i r); simpl; lia.
Qed.

Lemma counts_set_remaining a i rem st now r :
  holds_capacity (rv_state r) = true →
  counts_instrument a i (set_remaining rem st now r) = counts_instrument a i r && holds_capacity st.
Proof. unfold counts_instrument; simpl. intros ->. by rewrite andb_true_r. Qed.

(** A change never makes its reservation hold more, and fills free what they fill. *)
Lemma change_weight e r ex rem st a i now :
  change e r ex rem st → holds_capacity (rv_state r) = true →
  weight a i (set_remaining rem st now r) ≤ weight a i r ∧
  (e = UnknownOutcome ∨ e = Unmatched → weight a i (set_remaining rem st now r) = weight a i r) ∧
  (∀ f, e = Fill f → counts_instrument a i r = true →
     weight a i (set_remaining rem st now r) = weight a i r - Z.abs f).
Proof.
  intros [_ Hsh Ht Hex] Hh. unfold weight. rewrite (counts_set_remaining _ _ _ _ _ _ Hh). simpl.
  unfold partial_fill in Hsh. split_and!.
  - destruct (counts_instrument a i r), (holds_capacity st); simpl; lia.
  - intros [-> | ->]; destruct Hex as [-> ->]; by rewrite andb_true_r.
  - intros f -> ->. simpl. destruct Hex as (-> & _ & Hf & Hiff). unfold partial_fill in Hf.
    destruct (holds_capacity st); [lia|]. assert (rv_remaining_delta_lots r - f = 0) by (by apply Hiff). lia.
Qed.

Section lemmas.
Context {S : Type} `{!RiskStore S} `{!RiskStoreLaws S}.

(** Evidence that may find its work already done. *)
Definition idempotent (e : evidence) : bool :=
  match e with
  | UnknownOutcome | NoExposure | Unmatched | Acknowledged | BrokerRejected => true
  | NotSent | Fill _ | Remaining _ => false
  end.

(** Either nothing was written, or the store was asked for one admissible change. *)
Definition writes (e : evidence) (now : Z) (r : RiskReservation) (s : S)
    (out : S * result RiskReservationReconcileError RiskReservation) : Prop :=
  (out.1 = s ∧ match out.2 with Ok r' => r' = r ∧ idempotent e = true | Err _ => True end) ∨
  ∃ expected rem state, change e r expected rem state ∧ update r expected rem state now s = out.

Lemma change_release e r expected :
  e = NotSent ∨ e = NoExposure ∨ e = BrokerRejected →
  Forall (λ s, holds_capacity s = true) expected → change e r expected 0 Resv.Released.
Proof.
  intros He Hx. constructor; [done|unfold partial_fill; lia|done|].
  by destruct He as [->|[->| ->]].
Qed.

Lemma change_hold e r expected state :
  e = UnknownOutcome ∨ e = Unmatched → holds_capacity state = true →
  Forall (λ s, holds_capacity s = true) expected →
  change e r expected (rv_remaining_delta_lots r) state.
Proof.
  intros He Hs Hx. constructor; [done|unfold partial_fill; lia|congruence|]. by destruct He as [->| ->].
Qed.

Lemma consumed_state rem :
  holds_capacity (if rem =? 0 then Resv.Consumed else Resv.PartiallyConsumed) = false ↔ rem = 0.
Proof. destruct (rem =? 0) eqn:?; simpl; split; try done; lia. Qed.

Lemma consume_fill_writes f now r s : f ≠ 0 → writes (Fill f) now r s (consume_fill f now r s).
Proof.
  intros Hf. unfold writes, consume_fill. st_unfold.
  destruct (negb (consumable _)); [by left|]. destruct (negb (_ =? _)) eqn:Hs; [by left|].
  destruct (_ <? _) eqn:Hl; [by left|].
  destruct (checked_sub I64 _ _) as [rem|] eqn:Hr; [|by left]. simpl.
  prop_tests. subst. unfold unsigned_abs, signum in *. right. do 3 eexists. split; [|reflexivity].
  constructor; [by repeat constructor|unfold partial_fill; lia|apply consumed_state|].
  split_and!; [done|lia|unfold partial_fill; lia|apply consumed_state..].
Qed.

Lemma adopt_remaining_writes n now r s : writes (Remaining n) now r s (adopt_remaining n now r s).
Proof.
  unfold writes, adopt_remaining, reconcile_abs. st_unfold.
  destruct (negb (consumable _)); [by left|]. destruct (signum _ =? 0) eqn:Hz; [by left|].
  destruct (negb _ && _) eqn:Hs; [by left|].
  destruct (checked I64 (unsigned_abs n)) as [a|] eqn:Hn; [|by left]. simpl.
  destruct (checked I64 (unsigned_abs (rv_remaining_delta_lots r))) as [o|] eqn:Ho; [|by left]. simpl.
  destruct (o <? a) eqn:Hl; [by left|]. prop_tests. subst. unfold unsigned_abs, signum in *.
  right. do 3 eexists. split; [|reflexivity]. apply andb_false_iff in Hs.
  constructor; [by repeat constructor|unfold partial_fill; lia|apply consumed_state|].
  split; [done|apply consumed_state].
Qed.

Lemma apply_evidence_writes e now r s : writes e now r s (apply_evidence e now r s).
Proof.
  destruct e; simpl.
  - right. do 3 eexists. split; [|reflexivity]. apply change_release; [auto|by repeat constructor].
  - unfold hold_unknown. case_bool_decide; [by left|]. right. do 3 eexists.
    split; [|reflexivity]. apply change_hold; [auto|done|by repeat constructor].
  - destruct (lots =? 0) eqn:Hz; [by left|]. apply consume_fill_writes. lia.
  - unfold release_unexposed. destruct (rv_state r); try by left.
    all: right; do 3 eexists; (split; [|reflexivity]); apply change_release; [auto|by repeat constructor].
  - unfold hold_orphan. case_bool_decide; [by left|]. right. do 3 eexists.
    split; [|reflexivity]. apply change_hold; [auto|done|by repeat constructor].
  - left. unfold confirm_dispatch. by case_match.
  - unfold release_rejected. destruct (rv_state r); try by left.
    all: right; do 3 eexists; (split; [|reflexivity]); apply change_release; [auto|by repeat constructor].
  - apply adopt_remaining_writes.
Qed.

(** The effect of an operation on the reservations of the store: none, or the row
    that [r] names, still holding capacity, changed as the evidence asks. *)
Lemma apply_evidence_effect e now r (s s' : S) res :
  store_inv s → has_ty I64 (rv_remaining_delta_lots r) →
  apply_evidence e now r s = (s', res) →
  store_inv s' ∧
  (reservations s' = reservations s ∧
     match res with Ok r' => r' = r ∧ idempotent e = true | Err _ => True end ∨
   ∃ expected rem state r0, change e r expected rem state ∧
     List.find (by_key rv_reservation_id (rv_reservation_id r)) (reservations s) = Some r0 ∧
     holds_capacity (rv_state r0) = true ∧ res = Ok (set_remaining rem state now r0) ∧
     reservations s' = update_where (by_key rv_reservation_id (rv_reservation_id r))
                         (set_remaining rem state now) (reservations s)).
Proof.
  intros Hinv Hty H. destruct (apply_evidence_writes e now r s) as [[H1 H2]|(ex & rem & st & Hch & Hup)];
    rewrite H in *; simpl in *.
  - subst s'. split; [done|by left].
  - assert (has_ty I64 rem) as Hrem.
    { pose proof (ch_shrinks _ _ _ _ _ Hch). unfold partial_fill in *. int_lia. }
    unfold update, st_map_err in Hup.
    destruct (rs_update_reservation _ ex rem st now s) as [s1 [r'|err]] eqn:Hu; simplify_eq/=.
    + destruct (update_ok _ _ _ _ _ _ _ _ Hinv Hrem Hu) as (Hinv' & r0 & Hf & Hin & -> & Hres).
      split; [done|]. right. exists ex, rem, st, r0. split_and!; try done.
      pose proof (ch_expected _ _ _ _ _ Hch) as Hx. rewrite Forall_forall in Hx. auto.
    + destruct (update_err _ _ _ _ _ _ _ _ Hinv Hrem Hu). split; [done|by left].
Qed.

(** A method acts on the reservation it read. *)
Lemma reconcile_with_effect e a q now (s s' : S) res :
  store_inv s → Forall (λ r, has_ty I64 (rv_remaining_delta_lots r)) (reservations s) →
  reconcile_with e a q now s = (s', res) →
  store_inv s' ∧
  (reservations s' = reservations s ∧ (∀ r', res = Ok r' → idempotent e = true) ∨
   ∃ expected rem state r, change e r expected rem state ∧
     List.find (for_request a q) (reservations s) = Some r ∧
     List.find (by_key rv_reservation_id (rv_reservation_id r)) (reservations s) = Some r ∧
     holds_capacity (rv_state r) = true ∧ res = Ok (set_remaining rem state now r) ∧
     reservations s' = update_where (by_key rv_reservation_id (rv_reservation_id r))
                         (set_remaining rem state now) (reservations s)).
Proof.
  intros Hinv Hty H. apply reconcile_with_inv in H as [(err & -> & ->)|(r & Hr & H)];
    [split; [done|left; by split]|].
  apply (lookup_reservation _ _ _ _ Hinv) in Hr. symmetry in Hr.
  assert (r ∈ reservations s) as Hin by (by apply find_by_key in Hr as [? _]).
  assert (has_ty I64 (rv_remaining_delta_lots r)) as Htr by (rewrite Forall_forall in Hty; auto).
  destruct (apply_evidence_effect _ _ _ _ _ _ Hinv Htr H)
    as [Hinv' [[Heq Hid]|(ex & rem & st & r0 & Hch & Hf & Hh & -> & Hres)]]; (split; [done|]).
  { left. split; [done|]. intros r' ->. by destruct Hid. }
  right. pose proof (keyed_find _ _ _ _ (reservations_keyed _ Hinv) Hin eq_refl) as Hf'.
  rewrite Hf in Hf'. simplify_eq. by exists ex, rem, st, r.
Qed.

Lemma reserved_lots_update a i s r f :
  store_inv s → List.find (by_key rv_reservation_id (rv_reservation_id r)) (reservations s) = Some r →
  reserved_lots a i (update_where (by_key rv_reservation_id (rv_reservation_id r)) f (reservations s))
  = reserved_lots a i (reservations s) - weight a i r + weight a i (f r).
Proof.
  intros Hinv Hf. rewrite !reserved_lots_weight.
  by apply (zsum_update_key rv_reservation_id); [apply reservations_keyed|].
Qed.

(** ** Runs *)

(** A reservation as its lifecycle keeps it. *)
Definition resv_ok (r : RiskReservation) : Prop :=
  partial_fill (rv_remaining_delta_lots r) (rv_reserved_delta_lots r) ∧
  (holds_capacity (rv_state r) = false → rv_remaining_delta_lots r = 0) ∧
  has_ty I64 (rv_remaining_delta_lots r).

(** The part of a reservation that never changes. *)
Definition same_reservation (r r' : RiskReservation) : Prop :=
  rv_reservation_id r' = rv_reservation_id r ∧ request_key r' = request_key r ∧
  rv_instrument_id r' = rv_instrument_id r ∧
  rv_reserved_delta_lots r' = rv_reserved_delta_lots r ∧
  rv_reserved_notional_nanos r' = rv_reserved_notional_nanos r.

(** One store call of one process: an admission, or the update of a process that
    read [r], an earlier state of a stored reservation, at any time before. *)
Inductive risk_step : S → S → Prop :=
| step_admit d r cap s s' res :
    reservation_typed r → resv_ok r →
    rs_persist_approval_atomic d r cap s = (s', res) → risk_step s s'
| step_evidence e now r r0 s s' res :
    r0 ∈ reservations s → same_reservation r r0 → resv_ok r →
    apply_evidence e now r s = (s', res) → risk_step s s'.

Definition risk_inv (s : S) : Prop := store_inv s ∧ Forall resv_ok (reservations s).

Lemma risk_inv_typed s :
  risk_inv s → Forall (λ r, has_ty I64 (rv_remaining_delta_lots r)) (reservations s).
Proof. intros [_ Hok]. eapply Forall_impl; [exact Hok|by intros r (_ & _ & ?)]. Qed.

(** What a step may do to the reservation [r]: keep it, or, while it holds
    capacity, change its remaining lots, state and update time. *)
Definition evolves_to (r r' : RiskReservation) : Prop :=
  same_reservation r r' ∧ (holds_capacity (rv_state r) = false → r' = r).

#[export] Instance evolves_to_preorder : PreOrder evolves_to.
Proof.
  split.
  - intros r. by repeat split.
  - intros r1 r2 r3 [(A1 & B1 & C1 & D1 & E1) F1] [(A2 & B2 & C2 & D2 & E2) F2].
    split; [repeat split; congruence|]. intros Hh. specialize (F1 Hh). subst. by apply F2.
Qed.

(** Every reservation survives a step in an evolved form. *)
Definition preserved (s s' : S) : Prop :=
  risk_inv s' ∧ ∀ r, r ∈ reservations s → ∃ r', r' ∈ reservations s' ∧ evolves_to r r'.

Lemma preserved_same s s' :
  risk_inv s → store_inv s' → reservations s' = reservations s → preserved s s'.
Proof.
  intros [_ Hok] Hinv' Heq. split; [by split; [|rewrite Heq]|].
  intros r Hr. exists r. rewrite Heq. by split.
Qed.

Lemma admit_preserved d v cap s s' res :
  risk_inv s → reservation_typed v → resv_ok v →
  rs_persist_approval_atomic d v cap s = (s', res) → preserved s s'.
Proof.
  intros [Hinv Hok] Hty Hv H. destruct res as [a|err].
  - destruct (persist_ok _ _ _ _ _ _ Hinv Hty H) as (Hinv' & _ & [[Heq _]|[Heq _]]);
      [by apply preserved_same|]. split.
    + split; [done|]. rewrite Heq. apply Forall_app. by split; [|constructor].
    + intros r Hr. exists r. rewrite Heq. split; [set_solver|done].
  - destruct (persist_err _ _ _ _ _ _ Hinv Hty H). by apply preserved_same.
Qed.

Lemma evidence_preserved e now v v0 s s' res :
  risk_inv s → v0 ∈ reservations s → same_reservation v v0 → resv_ok v →
  apply_evidence e now v s = (s', res) → preserved s s'.
Proof.
  intros [Hinv Hok] Hv0 (Hid & _ & _ & Hresd & _) (Hpf & Hterm & Htv) H.
  destruct (apply_evidence_effect _ _ _ _ _ _ Hinv Htv H)
    as [Hinv' [[Heq _]|(ex & rem & st & r0 & Hch & Hf & Hh & _ & Heq)]]; [by apply preserved_same|].
  apply find_by_key in Hf as [Hin0 Hid0].
  assert (∀ x, x ∈ reservations s → by_key rv_reservation_id (rv_reservation_id v) x = true →
    x = v0 ∧ holds_capacity (rv_state x) = true) as Hone.
  { intros x Hx Hb. unfold by_key in Hb. apply bool_decide_eq_true in Hb.
    pose proof (keyed_unique rv_reservation_id _ x v0 (reservations_keyed _ Hinv) Hx Hv0 ltac:(congruence)).
    pose proof (keyed_unique rv_reservation_id _ x r0 (reservations_keyed _ Hinv) Hx Hin0 ltac:(congruence)).
    by subst. }
  pose proof (ch_shrinks _ _ _ _ _ Hch) as Hsh. pose proof (ch_terminal _ _ _ _ _ Hch) as Hte. split.
  - split; [done|]. rewrite Heq. apply Forall_forall. intros r (x & Hx & ->)%elem_of_update_where.
    rewrite Forall_forall in Hok. destruct (by_key _ _ x) eqn:Hb; [|by apply Hok].
    apply Hone in Hb as [-> _]; [|done].
    unfold resv_ok, partial_fill in *; simpl. rewrite Hresd. split_and!; [lia|done|int_lia].
  - intros r Hr. rewrite Heq.
    exists (if by_key rv_reservation_id (rv_reservation_id v) r then set_remaining rem st now r else r).
    split; [apply elem_of_update_where; by exists r|].
    destruct (by_key _ _ r) eqn:Hb; [|done]. split; [by repeat split|].
    apply Hone in Hb as [_ Hb]; [congruence|done].
Qed.

Lemma run_preserved s s' : rtc risk_step s s' → risk_inv s → preserved s s'.
Proof.
  induction 1 as [s|s s1 s2 Hstep _ IH]; intros Hinv; [by apply preserved_same; [|destruct Hinv|]|].
  assert (preserved s s1) as [Hinv1 Hev1].
  { destruct Hstep; [by eapply admit_preserved|by eapply evidence_preserved]. }
  destruct (IH Hinv1) as [Hinv2 Hev2]. split; [done|]. intros r Hr.
  destruct (Hev1 r Hr) as (r1 & Hr1 & E1). destruct (Hev2 r1 Hr1) as (r2 & Hr2 & E2).
  exists r2. split; [done|]. by transitivity r1.
Qed.
End lemmas.

(** ** Properties *)

Section claims.
Context {S : Type} `{!RiskStore S} `{!RiskStoreLaws S}.

(** C14. A reservation's life is monotone under any interleaving: after any
    sequence of admissions and evidence updates of any processes, each update
    computed from a copy of the reservation read at any earlier time, every
    reservation is still stored with the identity, request, instrument, quantity and
    notional it was given, its remaining lots lie between zero and that quantity,
    and one that was CONSUMED or RELEASED is unchanged to the last field. *)
Theorem reservation_lifecycle_monotone (s s' : S) r :
  risk_inv s → rtc risk_step s s' → r ∈ reservations s →
  ∃ r', r' ∈ reservations s' ∧ same_reservation r r' ∧ resv_ok r' ∧
    (holds_capacity (rv_state r) = false → r' = r).
Proof.
  intros Hinv Hrun Hr. destruct (run_preserved _ _ Hrun Hinv) as [[_ Hok] Hev].
  destruct (Hev r Hr) as (r' & Hr' & Hsame & Hfix). exists r'. split_and!; try done.
  rewrite Forall_forall in Hok. by apply Hok.
Qed.

(** Ambiguity never frees capacity: whether it succeeds or fails, recording an
    unknown dispatch outcome or an orphaned reservation leaves the lots reserved on
    every instrument of every account exactly as they were. *)
Theorem unknown_never_frees_capacity e q acct now (s s' : S) res :
  risk_inv s → e = UnknownOutcome ∨ e = Unmatched →
  reconcile_with e acct q now s = (s', res) →
  ∀ a i, reserved_lots a i (reservations s') = reserved_lots a i (reservations s).
Proof.
  intros Hi He H a i. pose proof Hi as [Hinv _].
  destruct (reconcile_with_effect _ _ _ _ _ _ _ Hinv (risk_inv_typed _ Hi) H)
    as [_ [[-> _]|(ex & rem & st & r & Hch & _ & Hf & Hh & _ & ->)]]; [done|].
  rewrite (reserved_lots_update _ _ _ _ _ Hinv Hf).
  destruct (change_weight _ _ _ _ _ a i now Hch Hh) as (_ & Hw & _). rewrite Hw by done. lia.
Qed.

(** Fills are conserved: a recorded fill has the direction of the reservation
    and at most its remaining lots, takes exactly its lots off them, frees exactly
    that capacity on the instrument and none elsewhere, and closes the reservation
    exactly when nothing remains. *)
Theorem fill_is_conserved acct q f now (s s' : S) r' :
  risk_inv s → authoritative_fill acct q f now s = (s', Ok r') →
  ∃ r, List.find (for_request acct q) (reservations s) = Some r ∧
    f ≠ 0 ∧ partial_fill f (rv_remaining_delta_lots r) ∧ same_reservation r r' ∧
    rv_remaining_delta_lots r' = rv_remaining_delta_lots r - f ∧
    (holds_capacity (rv_state r') = false ↔ rv_remaining_delta_lots r' = 0) ∧
    ∀ a i, reserved_lots a i (reservations s') =
      reserved_lots a i (reservations s) - (if counts_instrument a i r then Z.abs f else 0).
Proof.
  intros Hi H. pose proof Hi as [Hinv _].
  destruct (reconcile_with_effect (Fill f) _ _ _ _ _ _ Hinv (risk_inv_typed _ Hi) H)
    as [_ [[_ Hno]|(ex & rem & st & r & Hch & Hreq & Hf & Hh & [= ->] & Heq)]];
    [by specialize (Hno _ eq_refl)|].
  pose proof (ch_exact _ _ _ _ _ Hch) as (Hrem & Hf0 & Hpf & Hiff).
  exists r. split_and!; try done. intros a i. rewrite Heq, (reserved_lots_update _ _ _ _ _ Hinv Hf).
  destruct (change_weight _ _ _ _ _ a i now Hch Hh) as (_ & _ & Hw).
  destruct (counts_instrument a i r) eqn:Hc; [rewrite (Hw f eq_refl eq_refl); lia|].
  unfold weight. rewrite (counts_set_remaining _ _ _ _ _ _ Hh), Hc. simpl. lia.
Qed.

(** A run of whole operations on the instrument [i] of account [a], admissions on
    it granted against a capacity of at most [limit] lots. *)
Inductive managed_step (a i : string) (limit : Z) : S → S → Prop :=
| managed_admit d r cap s s' res lots :
    reservation_typed r → resv_ok r →
    cap_max_instrument_reserved_abs_lots cap = Some lots → lots ≤ limit →
    rs_persist_approval_atomic d r cap s = (s', res) → managed_step a i limit s s'
| managed_admit_elsewhere d r cap s s' res :
    reservation_typed r → resv_ok r → (rv_account_id r, rv_instrument_id r) ≠ (a, i) →
    rs_persist_approval_atomic d r cap s = (s', res) → managed_step a i limit s s'
| managed_evidence e acct q now s s' res :
    reconcile_with e acct q now s = (s', res) → managed_step a i limit s s'.

Lemma managed_evidence_capacity e acct q now s s' res a i :
  risk_inv s → reconcile_with e acct q now s = (s', res) →
  risk_inv s' ∧ reserved_lots a i (reservations s') ≤ reserved_lots a i (reservations s).
Proof.
  intros Hi H. pose proof Hi as [Hinv Hok].
  destruct (reconcile_with_effect _ _ _ _ _ _ _ Hinv (risk_inv_typed _ Hi) H)
    as [Hinv' [[Heq _]|(ex & rem & st & r & Hch & Hreq & Hf & Hh & _ & Heq)]].
  { split; [by split; [|rewrite Heq]|rewrite Heq; lia]. }
  split.
  - apply reconcile_with_inv in H as [(err & _ & ->)|(r1 & Hr1 & H)]; [done|].
    apply (lookup_reservation _ _ _ _ Hinv) in Hr1. symmetry in Hr1.
    apply find_by_key in Hr1 as [Hin _]. rewrite Forall_forall in Hok.
    eapply (evidence_preserved e now r1 r1); [exact Hi|done|by repeat split|by apply Hok|done].
  - rewrite Heq, (reserved_lots_update _ _ _ _ _ Hinv Hf).
    destruct (change_weight _ _ _ _ _ a i now Hch Hh) as (Hw & _). lia.
Qed.

(** C13. Capacity is an invariant of the whole reservation lifecycle: if every
    admission on an instrument is granted against at most [limit] lots, then no
    sequence of admissions, there or elsewhere, and of reconciliations of any
    reservation ever leaves more than [limit] lots reserved on it. *)
Theorem capacity_is_invariant a i limit (s s' : S) :
  risk_inv s → reserved_lots a i (reservations s) ≤ limit →
  rtc (managed_step a i limit) s s' →
  risk_inv s' ∧ reserved_lots a i (reservations s') ≤ limit.
Proof.
  intros Hi Hl Hrun.
  apply (rtc_invariant (managed_step a i limit)
    (λ s, risk_inv s ∧ reserved_lots a i (reservations s) ≤ limit) s); [|done|done].
  clear. intros s s' Hstep [Hi Hl].
  destruct Hstep as [d r cap s s' res lots Hty Hok Hcap Hle H|d r cap s s' res Hty Hok Hne H|e acct q now s s' res H].
  3: { destruct (managed_evidence_capacity _ _ _ _ _ _ _ a i Hi H). split; [done|lia]. }
  all: split; [by eapply admit_preserved|]; destruct res as [ap|err];
    [|by destruct (persist_err _ _ _ _ _ _ (proj1 Hi) Hty H) as [_ ->]];
    destruct (persist_ok _ _ _ _ _ _ (proj1 Hi) Hty H) as (_ & _ & [[-> _]|(-> & _ & _ & Hc & _)]); try done.
  - rewrite reserved_lots_snoc. destruct (counts_instrument a i r) eqn:Hcnt; [|lia].
    unfold counts_instrument in Hcnt. prop_tests. subst. specialize (Hc _ Hcap).
    rewrite reserved_lots_snoc in Hc. unfold counts_instrument in Hc.
    rewrite !bool_decide_eq_true_2, H1 in Hc by done. simpl in Hc. lia.
  - rewrite reserved_lots_snoc. destruct (counts_instrument a i r) eqn:Hcnt; [|lia].
    unfold counts_instrument in Hcnt. prop_tests. by subst.
Qed.
End claims.

(** ** On the SQLite store *)

Section sqlite.
Context `{!Serde RiskDecision} `{!SerdeLaws RiskDecision}.
Context `{!Serde RiskPolicySet} `{!SerdeLaws RiskPolicySet}.

(** A legitimate fill is never refused: on the SQLite store, a non-zero fill in
    the direction of the reservation and within its remaining lots is recorded
    whenever the reservation is ACTIVE, PARTIALLY_CONSUMED or UNKNOWN_HELD, with
    the lots it leaves and the state that goes with them. *)
Theorem legitimate_fill_recorded db rs acct q r f now :
  holds db rs → List.find (for_request acct q) rs = Some r →
  consumable (rv_state r) = true → f ≠ 0 → partial_fill f (rv_remaining_delta_lots r) →
  let left := rv_remaining_delta_lots r - f in
  let r' := set_remaining left (if left =? 0 then Resv.Consumed else Resv.PartiallyConsumed) now r in
  ∃ db', authoritative_fill acct q f now db = (db', Ok r') ∧
    holds db' (update_where (by_key rv_reservation_id (rv_reservation_id r)) (λ _, r') rs).
Proof.
  intros Hh Hf Hc Hf0 Hpf left r'.
  assert (r ∈ rs) as Hin by (by apply find_by_key in Hf as [? _]).
  assert (has_ty I64 (rv_remaining_delta_lots r)) as Hty.
  { pose proof (hold_typed _ _ Hh) as Ht. rewrite Forall_forall in Ht. by apply Ht. }
  assert (has_ty I64 left) as Hleft by (unfold partial_fill in Hpf; subst left; int_lia).
  unfold authoritative_fill. destruct (f =? 0) eqn:Hz; [lia|].
  unfold with_required, required, consume_fill, update. st_unfold. simpl.
  rewrite (reservation_for_request_holds _ _ _ _ Hh), Hf. simpl. rewrite Hc. simpl.
  unfold signum, unsigned_abs, partial_fill in *.
  destruct (Z.sgn _ =? Z.sgn _) eqn:Hs; [|lia]. simpl. destruct (_ <? _) eqn:Hl; [lia|].
  unfold checked_sub. rewrite checked_fits by done. simpl. fold left.
  rewrite (update_reservation_spec _ _ _ _ _ _ _ Hh Hleft).
  rewrite (keyed_find _ _ _ _ (hold_keyed _ _ Hh) Hin eq_refl).
  rewrite bool_decide_eq_true_2 by (destruct (rv_state r); set_solver).
  eexists. split; [reflexivity|].
  replace (update_where _ (λ _, r') rs) with (update_where (by_key rv_reservation_id (rv_reservation_id r))
    (set_remaining left (if left =? 0 then Resv.Consumed else Resv.PartiallyConsumed) now) rs).
  { by apply holds_update. }
  apply list_fmap_ext. intros k x Hx%list_elem_of_lookup_2.
  destruct (by_key _ _ x) eqn:Hb; [|done]. unfold by_key in Hb. apply bool_decide_eq_true in Hb.
  by rewrite (keyed_unique rv_reservation_id rs x r (hold_keyed _ _ Hh) Hx Hin Hb).
Qed.
End sqlite.

(** ** Witnesses *)

#[local] Existing Instances sample_decision_serde sample_decision_laws.
#[local] Existing Instances sample_policy_serde sample_policy_laws.

Definition sample_db : RiskDb := sample_persisted.1.

Lemma sample_db_holds : holds sample_db [sample_hold].
Proof.
  destruct (persist_approval_inv empty_db sample_db [] [] sample_link sample_hold sample_capacity
    {| ap_decision := sample_link; ap_reservation := sample_hold |}
    empty_holds empty_decides sample_hold_typed) as [_ [(r0 & d0 & H & _)|(_ & _ & _ & H & _)]];
    [vm_compute; reflexivity|discriminate H|exact H].
Qed.

Lemma sample_db_inv : risk_inv sample_db.
Proof.
  assert (reservations sample_db = [sample_hold]) as Hr by (vm_compute; reflexivity).
  split.
  - destruct (persist_ok empty_db sample_db sample_link sample_hold sample_capacity
      {| ap_decision := sample_link; ap_reservation := sample_hold |}) as (H & _);
      [exists [], []; split; [exact empty_holds|exact empty_decides] | exact sample_hold_typed
      | vm_compute; reflexivity | exact H].
  - rewrite Hr. constructor; [|done]. split_and!; [left; vm_compute; split; discriminate | done
    | split; vm_compute; discriminate].
Qed.

Definition sample_filled : RiskDb * result RiskReservationReconcileError RiskReservation :=
  authoritative_fill "a-1" "r-1" 2 20 sample_db.

Definition sample_after_fill : RiskReservation := set_remaining 1 Resv.PartiallyConsumed 20 sample_hold.

Lemma fill_is_conserved_witness :
  ∃ r, List.find (for_request "a-1" "r-1") (reservations sample_db) = Some r ∧
    rv_remaining_delta_lots sample_after_fill = rv_remaining_delta_lots r - 2.
Proof.
  destruct (fill_is_conserved "a-1" "r-1" 2 20 sample_db sample_filled.1 sample_after_fill sample_db_inv)
    as (r & H1 & _ & _ & _ & H2 & _); [vm_compute; reflexivity|].
  exists r. split; [exact H1 | exact H2].
Defined.

Lemma unknown_never_frees_capacity_witness :
  reserved_lots "a-1" "SBER"
    (reservations (reconcile_with UnknownOutcome "a-1" "r-1" 30 sample_db).1)
  = reserved_lots "a-1" "SBER" (reservations sample_db).
Proof.
  apply (unknown_never_frees_capacity UnknownOutcome "r-1" "a-1" 30 sample_db _
    (reconcile_with UnknownOutcome "a-1" "r-1" 30 sample_db).2 sample_db_inv (or_introl eq_refl)).
  vm_compute. reflexivity.
Defined.

Lemma reservation_lifecycle_monotone_witness :
  ∃ r', r' ∈ reservations (apply_evidence (Fill 2) 20 sample_hold sample_db).1 ∧
    same_reservation sample_hold r' ∧ resv_ok r' ∧
    (holds_capacity (rv_state sample_hold) = false → r' = sample_hold).
Proof.
  apply (reservation_lifecycle_monotone sample_db _ sample_hold sample_db_inv).
  - apply rtc_once. apply (step_evidence (Fill 2) 20 sample_hold sample_hold sample_db _
      (apply_evidence (Fill 2) 20 sample_hold sample_db).2).
    + vm_compute. left.
    + repeat split.
    + split_and!; [left; vm_compute; split; discriminate | done | split; vm_compute; discriminate].
    + exact (surjective_pairing (apply_evidence (Fill 2) 20 sample_hold sample_db)).
  - vm_compute. left.
Defined.

Lemma capacity_is_invariant_witness :
  risk_inv sample_filled.1 ∧ reserved_lots "a-1" "SBER" (reservations sample_filled.1) ≤ 5.
Proof.
  apply (capacity_is_invariant "a-1" "SBER" 5 sample_db sample_filled.1 sample_db_inv).
  - vm_compute. discriminate.
  - apply rtc_once. apply (managed_evidence "a-1" "SBER" 5 (Fill 2) "a-1" "r-1" 20 _ _ sample_filled.2).
    exact (surjective_pairing sample_filled).
Defined.

Lemma legitimate_fill_recorded_witness :
  ∃ db', authoritative_fill "a-1" "r-1" 2 20 sample_db = (db', Ok sample_after_fill) ∧
    holds db' [sample_after_fill].
Proof.
  apply (legitimate_fill_recorded sample_db [sample_hold] "a-1" "r-1" sample_hold 2 20 sample_db_holds);
    [reflexivity | reflexivity | discriminate | left; vm_compute; split; discriminate].
Defined.

(** The update compares the state of a reservation but not the lots it was computed
    from: a fill of one lot computed from a copy read before another process
    recorded a fill of two lots leaves two lots reserved instead of none. *)
Example stale_fill_overwrites :
  let s1 := sample_filled.1 in
  let stale := (apply_evidence (Fill 1) 30 sample_hold s1).1 in
  let fresh := (authoritative_fill "a-1" "r-1" 1 30 s1).1 in
  rv_remaining_delta_lots <$> reservations stale = [2] ∧
  rv_remaining_delta_lots <$> reservations fresh = [0].
Proof. vm_compute. done. Qed.
