(* ===== verification/RuntimeModel.v ===== *)
(** * Runtime data and readiness policy: [crates/vox-runtime/src/model.rs], [policy.rs]

    Scopes, journal records, broker facts and their validation, the readiness
    policy and the runtime state machine.  A [BTreeSet<String>] is its sorted list
    of elements.  Lengths are in bytes, as [str::len] counts them. *)
From S2P Require Import Prelude Money Domain.

(** ** Enumerations *)

Inductive Provider := TInvest.
Inductive RuntimeEnvironment := SandboxEnv | ProductionEnv.

Module Rt.
Inductive RuntimeState :=
| Starting | Connecting | Reconciling | Ready | Degraded | Halted | Stopping | Stopped.
#[global] Instance RuntimeState_eq_dec : EqDecision RuntimeState.
Proof. solve_decision. Defined.
End Rt.
Notation RuntimeState := Rt.RuntimeState.

Module Why.
Inductive ReasonCode :=
| Startup | Connecting | ReconciliationStarted | ReconciliationComplete | ReconciliationIncomplete
| UnknownMutation | BrokerPositionConflict | BrokerOrderConflict | BrokerStopConflict
| RequiredReadUnavailable | AccountUnavailable | CredentialRejected | ExecutionUnauthorized
| StreamDisconnected | StreamGap | StreamQueueOverflow | OptionalCapabilityUnavailable
| CheckpointRebuild | PersistenceFailure | OwnershipFailure | StaleEpoch | CorruptMutationEvidence
| ShutdownRequested | ShutdownComplete.
#[global] Instance ReasonCode_eq_dec : EqDecision ReasonCode.
Proof. solve_decision. Defined.
End Why.
Notation ReasonCode := Why.ReasonCode.

Module Kind.
Inductive MutationKind :=
| PostOrder | PostOrderAsync | ReplaceOrder | CancelOrder | PostStopOrder | CancelStopOrder
| ProtectionLeg.
#[global] Instance MutationKind_eq_dec : EqDecision MutationKind.
Proof. solve_decision. Defined.
End Kind.
Notation MutationKind := Kind.MutationKind.

Module Journal.
Inductive JournalState :=
| NotDispatched | Dispatching | Acknowledged | Rejected | UnknownAfterDispatch | Reconciled.
#[global] Instance JournalState_eq_dec : EqDecision JournalState.
Proof. solve_decision. Defined.

Definition safety_unresolved (s : JournalState) : bool :=
  match s with Dispatching | UnknownAfterDispatch => true | _ => false end.

Definition terminal (s : JournalState) : bool :=
  match s with Acknowledged | Rejected | Reconciled => true | _ => false end.
End Journal.
Notation JournalState := Journal.JournalState.

Module Disp.
Inductive ReconciliationDisposition :=
| OrderAccepted | OrderActiveNew | OrderActivePartial | OrderFilled | OrderCancelled | OrderRejected
| StopActive | StopExecuted | StopCanceled | StopExpired.
#[global] Instance ReconciliationDisposition_eq_dec : EqDecision ReconciliationDisposition.
Proof. solve_decision. Defined.
End Disp.
Notation ReconciliationDisposition := Disp.ReconciliationDisposition.

Module OrderSt.
Inductive OrderExecutionStatus :=
| New | PartiallyFilled | Filled | Cancelled | Rejected | UnknownProviderStatus (wire_value : Z).
#[global] Instance OrderExecutionStatus_eq_dec : EqDecision OrderExecutionStatus.
Proof. solve_decision. Defined.

Definition active (s : OrderExecutionStatus) : bool :=
  match s with New | PartiallyFilled => true | _ => false end.
End OrderSt.
Notation OrderExecutionStatus := OrderSt.OrderExecutionStatus.

Module StopSt.
Inductive StopExecutionStatus :=
| Active | Executed | Canceled | Expired | UnknownProviderStatus (wire_value : Z).
#[global] Instance StopExecutionStatus_eq_dec : EqDecision StopExecutionStatus.
Proof. solve_decision. Defined.

Definition active (s : StopExecutionStatus) : bool :=
  match s with Active => true | _ => false end.
End StopSt.
Notation StopExecutionStatus := StopSt.StopExecutionStatus.

Module EventCls.
Inductive BrokerEventClass := Order | Stop | Fill | Operation | Position | Portfolio.
#[global] Instance BrokerEventClass_eq_dec : EqDecision BrokerEventClass.
Proof. solve_decision. Defined.
End EventCls.
Notation BrokerEventClass := EventCls.BrokerEventClass.

Inductive ProtectionKind := StopLossKind | TakeProfitKind.
#[export] Instance ProtectionKind_eq_dec : EqDecision ProtectionKind.
Proof. solve_decision. Defined.

Definition new_exposure_allowed (s : RuntimeState) : bool :=
  match s with Rt.Ready => true | _ => false end.

Inductive ModelError :=
| EmptyText (field : string)
| SecretLikeOpaqueReference
| UnsafeRequestEvidence
| InvalidField (field : string).

(** ** Text validation *)

Definition required_text (value field : string) : result ModelError string :=
  if is_blank value then Err (EmptyText field) else Ok value.

Definition validate_redacted (value : string) : result ModelError string :=
  let lower := to_ascii_lowercase value in
  if is_blank value || (2048 <? Z.of_nat (String.length value))
     || contains "authorization" lower || contains "bearer " lower
     || contains "token=" lower || contains "secret=" lower
  then Err UnsafeRequestEvidence else Ok value.

Definition validate_safe_text (value field : string) (maximum_length : Z) : result ModelError () :=
  if is_blank value || (maximum_length <? Z.of_nat (String.length value))
  then Err (InvalidField field)
  else let? _ := validate_redacted value in Ok tt.

Definition validate_safe_text_owned (value field : string) (maximum_length : Z)
  : result ModelError string :=
  let? _ := validate_safe_text value field maximum_length in Ok value.

(** The newtype [OpaqueRef(String)]. *)
Definition OpaqueRef : Type := string.

Definition OpaqueRef_new (value : string) : result ModelError OpaqueRef :=
  let? value := required_text value "opaque_ref" in
  if (256 <? Z.of_nat (String.length value)) || has_whitespace value
     || existsb (λ needle, contains (to_ascii_lowercase needle) (to_ascii_lowercase value))
          ["Bearer"; "token="; "secret="; "t."]
  then Err SecretLikeOpaqueReference else Ok value.

(** ** Scope *)

Record RuntimeScope := {
  sc_provider : Provider;
  sc_environment : RuntimeEnvironment;
  sc_broker_account_id : string;
  sc_connection_ref : OpaqueRef;
  sc_credential_ref : OpaqueRef;
}.

Definition RuntimeScope_new (provider : Provider) (environment : RuntimeEnvironment)
    (broker_account_id : string) (connection_ref credential_ref : OpaqueRef)
  : result ModelError RuntimeScope :=
  let? broker_account_id := required_text broker_account_id "broker_account_id" in
  Ok {| sc_provider := provider; sc_environment := environment;
        sc_broker_account_id := broker_account_id; sc_connection_ref := connection_ref;
        sc_credential_ref := credential_ref |}.

Definition provider_debug (p : Provider) : string := match p with TInvest => "TInvest" end.
Definition environment_debug (e : RuntimeEnvironment) : string :=
  match e with SandboxEnv => "Sandbox" | ProductionEnv => "Production" end.

(** [format!("{:?}:{:?}:{}", ...)]. *)
Definition scope_key (s : RuntimeScope) : string :=
  provider_debug (sc_provider s) +:+ ":" +:+ environment_debug (sc_environment s) +:+ ":"
  +:+ sc_broker_account_id s.

(** ** Commands as mutations *)

Definition command_kind (c : RuntimeExecutionCommand) : MutationKind :=
  match c with
  | RegularOrder _ => Kind.PostOrder
  | PostOrderAsync _ => Kind.PostOrderAsync
  | ReplaceOrder _ => Kind.ReplaceOrder
  | CancelOrder _ => Kind.CancelOrder
  | PostStopOrder _ => Kind.PostStopOrder
  | CancelStopOrder _ => Kind.CancelStopOrder
  | ProtectionLegC _ => Kind.ProtectionLeg
  end.

Definition command_account_id (c : RuntimeExecutionCommand) : string :=
  match c with
  | RegularOrder c | PostOrderAsync c => ro_account_id c
  | ReplaceOrder c => rp_account_id c
  | CancelOrder c => co_account_id c
  | PostStopOrder c | ProtectionLegC c => pl_account_id c
  | CancelStopOrder c => cs_account_id c
  end.

Definition request_identity (c : RuntimeExecutionCommand) : option string :=
  match c with
  | RegularOrder c | PostOrderAsync c => Some (ro_client_request_id c)
  | ReplaceOrder c => Some (rp_replacement_request_id c)
  | PostStopOrder c | ProtectionLegC c => Some (pl_client_request_id c)
  | CancelOrder _ | CancelStopOrder _ => None
  end.

(** The journal's evidence of a command, distinct from [vox_domain]'s evidence. *)
Record MutationEvidence := {
  ev_command_kind : MutationKind;
  ev_instrument_ref : option string;
  ev_quantity_lots : option Z;
  ev_price_present : bool;
  ev_protection_kind : option ProtectionKind;
}.

#[export] Instance MutationEvidence_eq_dec : EqDecision MutationEvidence.
Proof. solve_decision. Defined.

Definition is_some {A} (o : option A) : bool := match o with Some _ => true | None => false end.

Definition leg_price_present (leg : ProtectionLeg) : bool :=
  match leg with
  | StopLoss (FixedStop _ _) => true
  | StopLoss (Trailing _ activation_price _ _) => is_some activation_price
  | TakeProfit tp => is_some (tp_trigger_price tp) || is_some (tp_limit_price tp)
  end.

Definition command_evidence (c : RuntimeExecutionCommand) : MutationEvidence :=
  let build i q p k := {| ev_command_kind := command_kind c; ev_instrument_ref := i;
                          ev_quantity_lots := q; ev_price_present := p; ev_protection_kind := k |} in
  match c with
  | RegularOrder o | PostOrderAsync o =>
      build (Some (ro_instrument_id o)) (Some (ro_quantity_lots o)) (is_some (ro_price o)) None
  | ReplaceOrder o => build None (Some (rp_quantity_lots o)) true None
  | CancelOrder _ | CancelStopOrder _ => build None None false None
  | PostStopOrder o | ProtectionLegC o =>
      build (Some (pl_instrument_id o)) (Some (pl_quantity_lots o)) (leg_price_present (pl_leg o))
        (Some (match pl_leg o with StopLoss _ => StopLossKind | TakeProfit _ => TakeProfitKind end))
  end.

(** ** Journal records *)

Record MutationRecord := {
  mr_scope_key : string;
  mr_logical_request_id : string;
  mr_kind : MutationKind;
  mr_state : JournalState;
  mr_request_evidence : MutationEvidence;
  mr_broker_evidence_ref : option string;
  mr_correlation_id : string;
  mr_reconciliation_disposition : option ReconciliationDisposition;
  mr_created_at_unix_ms : Z;
  mr_updated_at_unix_ms : Z;
  mr_runtime_epoch : Z;
}.

#[export] Instance MutationRecord_eq_dec : EqDecision MutationRecord.
Proof. solve_decision. Defined.

Section validation.
Context `{!Serde MutationEvidence}.

Definition validate_evidence (e : MutationEvidence) : result ModelError MutationEvidence :=
  let? _ := match ev_instrument_ref e with
            | Some value => validate_safe_text value "instrument_ref" 256
            | None => Ok tt
            end in
  if match ev_quantity_lots e with Some value => value <=? 0 | None => false end
  then Err (InvalidField "quantity_lots")
  else
    let? encoded := ok_or (to_text e) (InvalidField "mutation_evidence") in
    let? _ := validate_redacted encoded in
    Ok e.

Definition MutationRecord_prepared (scope : RuntimeScope) (logical_request_id : string)
    (kind : MutationKind) (request_evidence : MutationEvidence) (correlation_id : string)
    (runtime_epoch now_unix_ms : Z) : result ModelError MutationRecord :=
  let? request_evidence := validate_evidence request_evidence in
  if negb (bool_decide (ev_command_kind request_evidence = kind))
  then Err (InvalidField "request_evidence.command_kind")
  else
    let? key := required_text (scope_key scope) "scope_key" in
    let? logical_request_id := validate_safe_text_owned logical_request_id "logical_request_id" 256 in
    let? correlation_id := validate_safe_text_owned correlation_id "correlation_id" 256 in
    Ok {| mr_scope_key := key; mr_logical_request_id := logical_request_id; mr_kind := kind;
          mr_state := Journal.NotDispatched; mr_request_evidence := request_evidence;
          mr_broker_evidence_ref := None; mr_correlation_id := correlation_id;
          mr_reconciliation_disposition := None; mr_created_at_unix_ms := now_unix_ms;
          mr_updated_at_unix_ms := now_unix_ms; mr_runtime_epoch := runtime_epoch |}.

(** [TryFrom<MutationRecordUnchecked>], which [validated] runs on a record. *)
Definition MutationRecord_validated (r : MutationRecord) : result ModelError MutationRecord :=
  let? _ := validate_safe_text_owned (mr_scope_key r) "scope_key" 1024 in
  let? _ := validate_safe_text_owned (mr_logical_request_id r) "logical_request_id" 256 in
  let? _ := validate_safe_text_owned (mr_correlation_id r) "correlation_id" 256 in
  let? e := validate_evidence (mr_request_evidence r) in
  if negb (bool_decide (ev_command_kind e = mr_kind r))
  then Err (InvalidField "request_evidence.command_kind")
  else
    let? _ := transpose ((λ v, validate_safe_text_owned v "broker_evidence_ref" 2048)
                         <$> mr_broker_evidence_ref r) in
    Ok r.
End validation.

(** ** Broker facts *)

(** [BTreeSet::insert] and [BTreeSet::extend] on the sorted list of the elements. *)
Fixpoint btree_insert (x : string) (l : list string) : list string :=
  match l with
  | [] => [x]
  | y :: l' => match String.compare x y with
               | Eq => l
               | Lt => x :: l
               | Gt => y :: btree_insert x l'
               end
  end.

Definition btree_extend (l xs : list string) : list string := fold_left (λ s x, btree_insert x s) xs l.

Record BrokerIdentityLinks := {
  il_logical_request_id : string;
  il_broker_order_id : option string;
  il_replacement_broker_order_id : option string;
  il_broker_stop_order_id : option string;
  il_provider_operation_ids : list string;
  il_broker_fill_ids : list string;
}.

#[export] Instance BrokerIdentityLinks_eq_dec : EqDecision BrokerIdentityLinks.
Proof. solve_decision. Defined.

(** [BrokerIdentityLinks { logical_request_id, ..BrokerIdentityLinks::default() }]. *)
Definition links_for (logical_request_id : string) : BrokerIdentityLinks := {|
  il_logical_request_id := logical_request_id; il_broker_order_id := None;
  il_replacement_broker_order_id := None; il_broker_stop_order_id := None;
  il_provider_operation_ids := []; il_broker_fill_ids := [] |}.

Record BrokerAccount := {
  ba_account_id : string;
  ba_open : bool;
  ba_accessible : bool;
}.

Record PositionFact := {
  pf_account_id : string;
  pf_instrument_uid : string;
  pf_quantity_units : Z;
  pf_broker_observed_at_unix_ms : option Z;
}.

Record MoneyFact := { mo_currency : string; mo_amount_nanos : string }.

(** A [BTreeMap<String, String>] is its sorted list of entries. *)
Record PortfolioFact := {
  pt_account_id : string;
  pt_total_portfolio_valuation : option MoneyFact;
  pt_total_currency_valuation : option MoneyFact;
  pt_broker_daily_yield : option MoneyFact;
  pt_cash_balances : list (string * string);
  pt_broker_observed_at_unix_ms : option Z;
}.

Record PositionsFact := {
  ps_instruments : list PositionFact;
  ps_cash_balances : list (string * string);
}.

Record OrderFact := {
  of_account_id : string;
  of_broker_order_id : string;
  of_logical_request_id : option string;
  of_instrument_uid : string;
  of_side : option OrderSide;
  of_lots_requested : Z;
  of_lots_executed : Z;
  of_status : OrderExecutionStatus;
  of_status_cause : option Z;
}.

Definition remaining_lots (o : OrderFact) : result ModelError Z :=
  if (of_lots_requested o <? 0) || (of_lots_executed o <? 0)
     || (of_lots_requested o <? of_lots_executed o)
  then Err (InvalidField "order lot progress")
  else Ok (of_lots_requested o - of_lots_executed o).

Definition signed_remaining_lots (o : OrderFact) : result ModelError Z :=
  let? remaining := remaining_lots o in
  match of_side o with
  | Some Buy => Ok remaining
  | Some Sell => ok_or (checked_neg I64 remaining) (InvalidField "order lot progress")
  | None => Err (InvalidField "order direction")
  end.

Record StopFact := {
  sf_account_id : string;
  sf_broker_stop_order_id : string;
  sf_instrument_uid : string;
  sf_status : StopExecutionStatus;
  sf_status_cause : option Z;
  sf_quantity_lots : option Z;
  sf_direction : option Z;
}.

Record OperationFact := {
  op_account_id : string;
  op_cursor : string;
  op_provider_operation_id : option string;
  op_broker_order_id : option string;
  op_logical_request_id : option string;
  op_broker_fill_ids : list string;
}.

Record OperationsPage := {
  pg_items : list OperationFact;
  pg_next_cursor : option string;
}.

Inductive BrokerExecutionState :=
| OrderExecution (status : OrderExecutionStatus) (status_cause : option Z)
| StopExecution (status : StopExecutionStatus) (status_cause : option Z).

#[export] Instance BrokerExecutionState_eq_dec : EqDecision BrokerExecutionState.
Proof. solve_decision. Defined.

Record BrokerEvent := {
  be_account_id : string;
  be_event_class : BrokerEventClass;
  be_stable_event_id : string;
  be_broker_order_id : option string;
  be_broker_stop_order_id : option string;
  be_logical_request_id : option string;
  be_execution_state : option BrokerExecutionState;
  be_runtime_epoch : Z;
}.

#[export] Instance BrokerEvent_eq_dec : EqDecision BrokerEvent.
Proof. solve_decision. Defined.

Record BrokerSnapshot := {
  bs_accounts : list BrokerAccount;
  bs_portfolio : PortfolioFact;
  bs_positions : list PositionFact;
  bs_active_orders : list OrderFact;
  bs_stop_orders : list StopFact;
  bs_operations : list OperationFact;
  bs_stream_evidence : list BrokerEvent;
  bs_observed_at_unix_ms : Z;
}.

Record ReconciliationCheckpoint := {
  cp_scope_key : string;
  cp_reconciliation_id : string;
  cp_operations_cursor : option string;
  cp_snapshot_observed_at_unix_ms : Z;
  cp_completed_at_unix_ms : Z;
  cp_runtime_epoch : Z;
  cp_accounts_complete : bool;
  cp_portfolio_complete : bool;
  cp_positions_complete : bool;
  cp_orders_complete : bool;
  cp_stops_complete : bool;
  cp_operations_complete : bool;
}.

#[export] Instance ReconciliationCheckpoint_eq_dec : EqDecision ReconciliationCheckpoint.
Proof. solve_decision. Defined.

Definition checkpoint_complete (c : ReconciliationCheckpoint) : bool :=
  cp_accounts_complete c && cp_portfolio_complete c && cp_positions_complete c
  && cp_orders_complete c && cp_stops_complete c && cp_operations_complete c.

Record DerivedPositionExpectation := {
  dp_scope_key : string;
  dp_instrument_uid : string;
  dp_expected_quantity_units : Z;
  dp_based_on_logical_request_id : string;
  dp_runtime_epoch : Z;
  dp_updated_at_unix_ms : Z;
}.

#[export] Instance DerivedPositionExpectation_eq_dec : EqDecision DerivedPositionExpectation.
Proof. solve_decision. Defined.

(** ** Lemmas *)

Lemma btree_insert_elem x y l : y ∈ btree_insert x l ↔ y = x ∨ y ∈ l.
Proof.
  induction l as [|z l IH]; simpl; [set_solver|].
  destruct (String.compare x z) eqn:Hc; [|set_solver..].
  apply String.compare_eq_iff in Hc as ->. set_solver.
Qed.

Lemma btree_extend_elem l xs y : y ∈ btree_extend l xs ↔ y ∈ l ∨ y ∈ xs.
Proof.
  unfold btree_extend. revert l. induction xs as [|x xs IH]; intros l; simpl; [set_solver|].
  rewrite IH, btree_insert_elem. set_solver.
Qed.

(** A remaining quantity is between zero and the request, whatever the direction. *)
Lemma remaining_lots_bounds o n :
  remaining_lots o = Ok n →
  0 ≤ n ≤ of_lots_requested o ∧ n = of_lots_requested o - of_lots_executed o.
Proof. unfold remaining_lots. intros H. case_match eqn:Ht; simplify_eq. prop_tests. lia. Qed.

Lemma signed_remaining_lots_spec o n :
  signed_remaining_lots o = Ok n →
  ∃ r, remaining_lots o = Ok r ∧
       ((of_side o = Some Buy ∧ n = r) ∨ (of_side o = Some Sell ∧ n = - r)).
Proof.
  unfold signed_remaining_lots. destruct (remaining_lots o) as [r|e]; [|done].
  intros H. exists r. split; [done|]. destruct (of_side o) as [[]|]; [by simplify_eq; left| |done].
  right. apply ok_or_Ok, checked_Some in H as [-> _]. done.
Qed.
