(* ===== verification/RuntimePolicy.v ===== *)
(** * Readiness policy and runtime state machine: [crates/vox-runtime/src/policy.rs]

    Which runtime state each safety condition calls for, and which transitions
    the state machine of a runtime accepts. *)
From S2P Require Import Prelude RuntimeModel.

Module Safety.
Inductive SafetyCondition :=
| StartupBeforeReconciliation | UnresolvedUnknownMutation | PositionConflict
| OrderIdentityConflict | StopIdentityConflict | RequiredReadUnavailable | AccountUnavailable
| CredentialInvalid | ExecutionAuthorizationDisabled
| ProductionStreamDisconnectedAfterUnaryRecovery | OptionalAnalyticsUnavailable
| CheckpointCorruptSnapshotAvailable | PersistenceFailure | OwnershipFailure | Clear.
#[global] Instance SafetyCondition_eq_dec : EqDecision SafetyCondition.
Proof. solve_decision. Defined.
End Safety.
Notation SafetyCondition := Safety.SafetyCondition.

Record PolicyDecision := {
  pd_state : RuntimeState;
  pd_reason_code : ReasonCode;
  pd_new_exposure_allowed : bool;
  pd_requires_reconciliation : bool;
  pd_operator_intervention_required : bool;
}.

Definition decision (state : RuntimeState) (reason_code : ReasonCode) : PolicyDecision := {|
  pd_state := state; pd_reason_code := reason_code; pd_new_exposure_allowed := false;
  pd_requires_reconciliation := true; pd_operator_intervention_required := false |}.

Definition halt (reason_code : ReasonCode) : PolicyDecision := {|
  pd_state := Rt.Halted; pd_reason_code := reason_code; pd_new_exposure_allowed := false;
  pd_requires_reconciliation := true; pd_operator_intervention_required := true |}.

Definition readiness_policy (condition : SafetyCondition) : PolicyDecision :=
  match condition with
  | Safety.StartupBeforeReconciliation => decision Rt.Reconciling Why.Startup
  | Safety.UnresolvedUnknownMutation => halt Why.UnknownMutation
  | Safety.PositionConflict => halt Why.BrokerPositionConflict
  | Safety.OrderIdentityConflict => halt Why.BrokerOrderConflict
  | Safety.StopIdentityConflict => halt Why.BrokerStopConflict
  | Safety.RequiredReadUnavailable => halt Why.RequiredReadUnavailable
  | Safety.AccountUnavailable => halt Why.AccountUnavailable
  | Safety.CredentialInvalid => halt Why.CredentialRejected
  | Safety.ExecutionAuthorizationDisabled => {|
      pd_state := Rt.Ready; pd_reason_code := Why.ExecutionUnauthorized;
      pd_new_exposure_allowed := false; pd_requires_reconciliation := false;
      pd_operator_intervention_required := false |}
  | Safety.ProductionStreamDisconnectedAfterUnaryRecovery => {|
      pd_state := Rt.Degraded; pd_reason_code := Why.StreamDisconnected;
      pd_new_exposure_allowed := false; pd_requires_reconciliation := false;
      pd_operator_intervention_required := false |}
  | Safety.OptionalAnalyticsUnavailable => {|
      pd_state := Rt.Degraded; pd_reason_code := Why.OptionalCapabilityUnavailable;
      pd_new_exposure_allowed := false; pd_requires_reconciliation := false;
      pd_operator_intervention_required := false |}
  | Safety.CheckpointCorruptSnapshotAvailable => {|
      pd_state := Rt.Reconciling; pd_reason_code := Why.CheckpointRebuild;
      pd_new_exposure_allowed := false; pd_requires_reconciliation := true;
      pd_operator_intervention_required := false |}
  | Safety.PersistenceFailure => halt Why.PersistenceFailure
  | Safety.OwnershipFailure => halt Why.OwnershipFailure
  | Safety.Clear => {|
      pd_state := Rt.Ready; pd_reason_code := Why.ReconciliationComplete;
      pd_new_exposure_allowed := true; pd_requires_reconciliation := false;
      pd_operator_intervention_required := false |}
  end.

(** ** The state machine *)

Definition allowed (from to : RuntimeState) : bool :=
  match from, to with
  | Rt.Starting, (Rt.Connecting | Rt.Halted | Rt.Stopping)
  | Rt.Connecting, (Rt.Reconciling | Rt.Degraded | Rt.Halted | Rt.Stopping)
  | Rt.Reconciling, (Rt.Ready | Rt.Degraded | Rt.Halted | Rt.Stopping)
  | Rt.Ready, (Rt.Reconciling | Rt.Degraded | Rt.Halted | Rt.Stopping)
  | Rt.Degraded, (Rt.Connecting | Rt.Reconciling | Rt.Halted | Rt.Stopping)
  | Rt.Halted, (Rt.Connecting | Rt.Reconciling | Rt.Stopping)
  | Rt.Stopping, Rt.Stopped => true
  | _, _ => false
  end.

Record RuntimeStateMachine := { sm_state : RuntimeState }.

Definition RuntimeStateMachine_default : RuntimeStateMachine := {| sm_state := Rt.Starting |}.

Record TransitionError := { te_from : RuntimeState; te_to : RuntimeState }.

Definition transition (target : RuntimeState) : st RuntimeStateMachine TransitionError RuntimeState :=
  let! m := st_get in
  if negb (bool_decide (sm_state m = target)) && negb (allowed (sm_state m) target)
  then st_fail {| te_from := sm_state m; te_to := target |}
  else st_put {| sm_state := target |};;; st_ret (sm_state m).

(** A runtime drives its machine through a list of requested targets; a refused
    transition leaves the machine where it is. *)
Fixpoint run (m : RuntimeStateMachine) (targets : list RuntimeState) : RuntimeStateMachine :=
  match targets with
  | [] => m
  | t :: ts => run (fst (transition t m)) ts
  end.

(** ** Properties *)

Lemma transition_cases target m :
  transition target m =
    if bool_decide (sm_state m = target) || allowed (sm_state m) target
    then ({| sm_state := target |}, Ok (sm_state m))
    else (m, Err {| te_from := sm_state m; te_to := target |}).
Proof.
  unfold transition. st_unfold. case_bool_decide; [done|].
  destruct (allowed (sm_state m) target); done.
Qed.

Lemma run_app m ts us : run m (ts ++ us) = run (run m ts) us.
Proof. revert m. induction ts; simpl; auto. Qed.

Lemma stopped_absorbing target m :
  sm_state m = Rt.Stopped → fst (transition target m) = m.
Proof. destruct m as [s]; simpl; intros ->. rewrite transition_cases. by destruct target. Qed.

Lemma stopping_one_way target m :
  sm_state m = Rt.Stopping →
  sm_state (fst (transition target m)) = Rt.Stopping ∨ sm_state (fst (transition target m)) = Rt.Stopped.
Proof. destruct m as [s]; simpl; intros ->. rewrite transition_cases. destruct target; auto. Qed.

(** Once shutdown has begun, no sequence of requests leads anywhere but to its end. *)
Lemma shutdown_absorbing ts m :
  sm_state m = Rt.Stopping ∨ sm_state m = Rt.Stopped →
  sm_state (run m ts) = Rt.Stopping ∨ sm_state (run m ts) = Rt.Stopped.
Proof.
  revert m. induction ts as [|t ts IH]; simpl; [done|]. intros m [Hm|Hm]; apply IH.
  - by apply stopping_one_way.
  - rewrite stopped_absorbing; auto.
Qed.

(** The step into [Ready]: only from [Reconciling], or by staying in [Ready]. *)
Lemma ready_step t m :
  sm_state (fst (transition t m)) = Rt.Ready →
  sm_state m = Rt.Ready ∨ sm_state m = Rt.Reconciling ∧ t = Rt.Ready.
Proof. destruct m as [[]], t; rewrite transition_cases; simpl; auto; discriminate. Qed.

(** A runtime that is [Ready], and so admits new exposure, got there by an
    explicit request made while it was [Reconciling], and has made no request
    since but to stay [Ready] or ones the machine refused: from any non-[Ready]
    start, a run that ends [Ready] has a last entry into [Ready], and it leaves
    the [Reconciling] state. *)
Theorem ready_only_after_reconciling (ts : list RuntimeState) (m : RuntimeStateMachine) :
  sm_state m ≠ Rt.Ready → new_exposure_allowed (sm_state (run m ts)) = true →
  ∃ before after, ts = before ++ Rt.Ready :: after
    ∧ sm_state (run m before) = Rt.Reconciling
    ∧ ∀ k, sm_state (run m (before ++ Rt.Ready :: take k after)) = Rt.Ready.
Proof.
  intros Hm. induction ts as [|t ts IH] using rev_ind; simpl.
  - by destruct (sm_state m).
  - rewrite run_app. simpl. intros Hr.
    assert (Hready : sm_state (fst (transition t (run m ts))) = Rt.Ready)
      by (by destruct (sm_state (fst (transition t (run m ts))))).
    destruct (ready_step _ _ Hready) as [Hprev|[Hprev ->]].
    + destruct IH as (before & after & -> & Hb & Hall); [by rewrite Hprev|].
      exists before, (after ++ [t]). rewrite <-app_assoc. split_and!; [done..|]. intros k.
      destruct (decide (k ≤ length after)%nat) as [Hk|Hk].
      * rewrite take_app_le by done. apply Hall.
      * rewrite take_ge by (rewrite length_app; simpl; lia).
        change (before ++ Rt.Ready :: after ++ [t]) with (before ++ (Rt.Ready :: after) ++ [t]).
        rewrite app_assoc, run_app. done.
    + exists ts, []. split_and!; [done..|]. intros k. rewrite take_nil, run_app. done.
Qed.

Lemma ready_only_after_reconciling_witness :
  ∃ before after,
    [Rt.Ready; Rt.Connecting; Rt.Reconciling; Rt.Ready; Rt.Starting] = before ++ Rt.Ready :: after
    ∧ sm_state (run RuntimeStateMachine_default before) = Rt.Reconciling
    ∧ ∀ k, sm_state (run RuntimeStateMachine_default (before ++ Rt.Ready :: take k after)) = Rt.Ready.
Proof. apply ready_only_after_reconciling; [done|reflexivity]. Defined.

(** The readiness policy fails closed: only the [Clear] condition admits new
    exposure; every condition that asks for an operator halts the runtime; and
    the state a condition calls for can be requested from [Reconciling], where
    conditions are judged, without being refused. *)
Lemma policy_fails_closed (c : SafetyCondition) :
  (pd_new_exposure_allowed (readiness_policy c) = true ↔ c = Safety.Clear)
  ∧ (pd_operator_intervention_required (readiness_policy c) = true →
     pd_state (readiness_policy c) = Rt.Halted ∧ pd_requires_reconciliation (readiness_policy c) = true)
  ∧ (pd_state (readiness_policy c) = Rt.Ready →
     c = Safety.Clear ∨ c = Safety.ExecutionAuthorizationDisabled)
  ∧ snd (transition (pd_state (readiness_policy c)) {| sm_state := Rt.Reconciling |}) = Ok Rt.Reconciling.
Proof. destruct c; simpl; split_and!; (done || naive_solver). Qed.
