(* ===== verification/RuntimePorts.v ===== *)
(** * The runtime's ports: [crates/vox-runtime/src/ports.rs]

    The traits the runtime is written against, as classes over the state of their
    implementations, and the errors they report.  [BrokerReadPort] is the broker
    behind the network: any state machine, so that two reads of one reconciliation
    may answer from different moments.  [RuntimeStore] is the durable journal, and
    [RuntimeStoreLaws] what the reconciler relies on. *)
From S2P Require Import Prelude RuntimeModel.

Module Res.
Inductive BrokerResultClass := Success | RateLimited | Credential | Permission | Transient | Permanent.
#[global] Instance BrokerResultClass_eq_dec : EqDecision BrokerResultClass.
Proof. solve_decision. Defined.
End Res.
Notation BrokerResultClass := Res.BrokerResultClass.

(** [retry_after] is a [Duration], in nanoseconds. *)
Record BrokerPortError := {
  bp_service : string;
  bp_method : string;
  bp_class : BrokerResultClass;
  bp_message : string;
  bp_retry_after : option Z;
}.

Definition safe_read_retryable (e : BrokerPortError) : bool :=
  match bp_class e with Res.RateLimited | Res.Transient => true | _ => false end.

Inductive StoreError :=
| OwnershipUnavailable
| StaleEpoch
| DuplicateMutation
| InvalidMutationTransition
| Corrupt (what : string)
| UnsupportedSchema (version : Z)
| Persistence (what : string)
| BlockingTask (what : string).

Record StateTransition := {
  tr_scope_key : string;
  tr_runtime_epoch : Z;
  tr_from : RuntimeState;
  tr_to : RuntimeState;
  tr_reason_code : ReasonCode;
  tr_correlation_id : string;
  tr_detail : string;
  tr_observed_at_unix_ms : Z;
}.

Record RuntimeAuditRecord := {
  ra_scope_key : string;
  ra_runtime_epoch : Z;
  ra_event_type : string;
  ra_reason_code : ReasonCode;
  ra_correlation_id : string;
  ra_redacted_detail : string;
  ra_observed_at_unix_ms : Z;
}.

Record StoreCounts := {
  ct_unresolved_unknown_count : Z;
  ct_linked_open_order_count : Z;
  ct_linked_active_stop_count : Z;
}.

(** ** The broker *)

Class BrokerReadPort (B : Type) := {
  br_accounts : RuntimeScope → st B BrokerPortError (list BrokerAccount);
  br_portfolio : RuntimeScope → st B BrokerPortError PortfolioFact;
  br_positions : RuntimeScope → st B BrokerPortError PositionsFact;
  br_active_orders : RuntimeScope → st B BrokerPortError (list OrderFact);
  br_stop_orders : RuntimeScope → Z → st B BrokerPortError (list StopFact);
  br_order_state : RuntimeScope → option string → option string → st B BrokerPortError (option OrderFact);
  br_operations_page : RuntimeScope → option string → Z → Z → st B BrokerPortError OperationsPage;
}.

(** ** The store *)

Class RuntimeStore (D : Type) := {
  js_acquire_ownership : RuntimeScope → string → Z → st D StoreError Z;
  js_verify_epoch : D → string → Z → result StoreError ();
  js_release_ownership : string → Z → Z → st D StoreError ();
  js_record_transition : StateTransition → st D StoreError ();
  js_insert_mutation : MutationRecord → st D StoreError ();
  js_mutation : D → string → string → result StoreError (option MutationRecord);
  js_mutations : D → string → result StoreError (list MutationRecord);
  js_claim_dispatch_unknown : string → string → Z → Z → st D StoreError MutationRecord;
  js_transition_mutation :
    string → string → list JournalState → JournalState → option string →
    option ReconciliationDisposition → Z → Z → st D StoreError MutationRecord;
  js_unresolved_mutations : D → string → result StoreError (list MutationRecord);
  js_all_identity_links : D → string → result StoreError (list BrokerIdentityLinks);
  js_upsert_identity_links : string → BrokerIdentityLinks → Z → Z → st D StoreError ();
  js_load_checkpoint : D → string → result StoreError (option ReconciliationCheckpoint);
  js_discard_checkpoint : string → Z → st D StoreError ();
  js_commit_reconciliation :
    ReconciliationCheckpoint → list MutationRecord → list BrokerIdentityLinks →
    RuntimeState → ReasonCode → st D StoreError ();
  js_record_broker_event : string → BrokerEvent → Z → st D StoreError bool;
  js_expected_positions : D → string → result StoreError (list DerivedPositionExpectation);
  js_set_expected_position : DerivedPositionExpectation → st D StoreError ();
  js_append_audit : RuntimeAuditRecord → st D StoreError ();
  js_compact : string → Z → Z → Z → st D StoreError ();
  js_counts : D → string → result StoreError StoreCounts;
}.

(** ** What the reconciler relies on *)

(** The journal seen from outside: who owns a mutation and where it stands. *)
Record JournalEntry := { je_id : string; je_scope : string; je_state : JournalState }.

Definition entry_of (m : MutationRecord) : JournalEntry := {|
  je_id := mr_logical_request_id m; je_scope := mr_scope_key m; je_state := mr_state m |}.

(** An entry of the scope whose outcome is not known. *)
Definition pending (scope : string) (e : JournalEntry) : bool :=
  bool_decide (je_scope e = scope) && Journal.safety_unresolved (je_state e).

Definition set_entry (state : JournalState) (e : JournalEntry) : JournalEntry := {|
  je_id := je_id e; je_scope := je_scope e; je_state := state |}.

(** The effect of committing a settled mutation. *)
Definition settle_entry (scope : string) (es : list JournalEntry) (id : string) : list JournalEntry :=
  update_where (λ e, by_key je_id id e && pending scope e) (set_entry Journal.Reconciled) es.

(** An operation that fails, for a broken medium as for a refused request, leaves
    the journal as it was. *)
Class RuntimeStoreLaws (D : Type) `{!RuntimeStore D} := {
  journal_inv : D → Prop;
  entries : D → list JournalEntry;
  entries_keyed d : journal_inv d → keyed je_id (entries d);
  unresolved_ok d k l : journal_inv d → js_unresolved_mutations d k = Ok l →
    ∀ e, e ∈ entry_of <$> l ↔ e ∈ entries d ∧ pending k e = true;
  commit_ok d d' cp resolved links state why : journal_inv d →
    js_commit_reconciliation cp resolved links state why d = (d', Ok tt) →
    journal_inv d' ∧
    entries d' = fold_left (settle_entry (cp_scope_key cp)) (mr_logical_request_id <$> resolved)
                   (entries d);
  commit_err d d' cp resolved links state why e : journal_inv d →
    js_commit_reconciliation cp resolved links state why d = (d', Err e) →
    journal_inv d' ∧ entries d' = entries d;
  discard_frame d d' k epoch r : journal_inv d →
    js_discard_checkpoint k epoch d = (d', r) → journal_inv d' ∧ entries d' = entries d;
  event_frame d d' k event now r : journal_inv d →
    js_record_broker_event k event now d = (d', r) → journal_inv d' ∧ entries d' = entries d;
  compact_frame d d' k after events audit r : journal_inv d →
    js_compact k after events audit d = (d', r) → journal_inv d' ∧ entries d' = entries d;
}.

Lemma settle_entry_elem scope es id e :
  e ∈ settle_entry scope es id →
  e ∈ es ∨ ∃ e0, e0 ∈ es ∧ je_id e0 = id ∧ pending scope e0 = true ∧ e = set_entry Journal.Reconciled e0.
Proof.
  intros (e0 & Hin & ->)%elem_of_update_where.
  destruct (by_key je_id id e0 && pending scope e0) eqn:Hp; [|by left].
  apply andb_true_iff in Hp as [Hk Hp]. apply bool_decide_eq_true in Hk. right. by exists e0.
Qed.

(** Settling touches only pending entries, and moves them to [Reconciled]. *)
Lemma settle_all_elem scope ids es e :
  e ∈ fold_left (settle_entry scope) ids es →
  e ∈ es ∧ (pending scope e = true → je_id e ∉ ids)
  ∨ ∃ e0, e0 ∈ es ∧ je_id e0 ∈ ids ∧ pending scope e0 = true ∧ e = set_entry Journal.Reconciled e0.
Proof.
  revert es. induction ids as [|id ids IH]; simpl; intros es H; [left; set_solver|].
  destruct (IH _ H) as [[Hin Hp]|(e0 & Hin & Hid & Hp & ->)].
  - apply elem_of_update_where in Hin as (e0 & Hin & He).
    destruct (by_key je_id id e0 && pending scope e0) eqn:Hk.
    + apply andb_true_iff in Hk as [Hk Hp0]. apply bool_decide_eq_true in Hk.
      right. exists e0. set_solver.
    + subst e. left. split; [done|]. intros Hpe. rewrite Hpe, andb_true_r in Hk.
      apply bool_decide_eq_false in Hk. specialize (Hp Hpe). set_solver.
  - apply settle_entry_elem in Hin as [Hin|(e1 & _ & _ & _ & ->)].
    + right. exists e0. set_solver.
    + unfold pending in Hp. simpl in Hp. by rewrite andb_false_r in Hp.
Qed.
