(* ===== verification/RuntimeJournal.v ===== *)
(** * The durable runtime journal: [crates/vox-runtime/src/store.rs]

    [SqliteRuntimeStore] as pure functions on the tables of its schema (version 3).
    A table is the list of its rows in rowid order; primary keys, the [CHECK] and
    [REFERENCES] constraints that the statements can violate and the three triggers
    are written out.  JSON columns go through the class [Serde]; the texts of the
    database library's own errors are abbreviated.  The lock file, the PRAGMAs, the
    migrations of older schemas and the connection mutex are not modelled: a
    [RuntimeDb] is what the single connection sees. *)
From S2P Require Import Prelude Domain RuntimeModel RuntimePorts.

(** ** Tables *)

Record InstanceRow := {
  in_scope_key : string;
  in_provider : string;
  in_environment : string;
  in_broker_account_id : string;
  in_connection_ref : string;
  in_credential_ref : string;
  in_epoch : Z;
  in_owner_id : string;
  in_lease_active : bool;
  in_started_at_unix_ms : Z;
  in_clean_shutdown_at_unix_ms : option Z;
  in_software_version : string;
  in_schema_version : Z;
  in_last_state : string;
  in_last_reason : string;
}.

Record MutationRow := {
  mw_logical_request_id : string;
  mw_scope_key : string;
  mw_mutation_kind : string;
  mw_state : string;
  mw_redacted_request_evidence : string;
  mw_broker_evidence_ref : option string;
  mw_created_at_unix_ms : Z;
  mw_updated_at_unix_ms : Z;
  mw_correlation_id : string;
  mw_reconciliation_disposition : option string;
  mw_runtime_epoch : Z;
}.

Record LinkRow := {
  lk_logical_request_id : string;
  lk_scope_key : string;
  lk_broker_order_id : option string;
  lk_replacement_broker_order_id : option string;
  lk_broker_stop_order_id : option string;
  lk_updated_at_unix_ms : Z;
  lk_runtime_epoch : Z;
}.

(** [provider_operation_links] and [broker_fill_links]. *)
Record SetRow := { st_scope_key : string; st_logical_request_id : string; st_value : string }.

Record EventRow := {
  ew_scope_key : string;
  ew_event_class : string;
  ew_stable_event_id : string;
  ew_first_seen_at_unix_ms : Z;
  ew_runtime_epoch : Z;
}.

(** [reconciliation_checkpoint] and [derived_position_expectation] hold plain
    columns only: a row is the value with its epoch as an [i64]. *)
Record RuntimeDb := {
  rt_instances : list InstanceRow;
  rt_journal : list MutationRow;
  rt_links : list LinkRow;
  rt_operations : list SetRow;
  rt_fills : list SetRow;
  rt_checkpoints : list ReconciliationCheckpoint;
  rt_events : list EventRow;
  rt_expectations : list DerivedPositionExpectation;
  rt_audit : list RuntimeAuditRecord;
}.

Definition empty_journal : RuntimeDb := {|
  rt_instances := []; rt_journal := []; rt_links := []; rt_operations := []; rt_fills := [];
  rt_checkpoints := []; rt_events := []; rt_expectations := []; rt_audit := [] |}.

Definition set_instances (v : list InstanceRow) (db : RuntimeDb) : RuntimeDb := {|
  rt_instances := v; rt_journal := rt_journal db; rt_links := rt_links db;
  rt_operations := rt_operations db; rt_fills := rt_fills db; rt_checkpoints := rt_checkpoints db;
  rt_events := rt_events db; rt_expectations := rt_expectations db; rt_audit := rt_audit db |}.
Definition set_journal (v : list MutationRow) (db : RuntimeDb) : RuntimeDb := {|
  rt_instances := rt_instances db; rt_journal := v; rt_links := rt_links db;
  rt_operations := rt_operations db; rt_fills := rt_fills db; rt_checkpoints := rt_checkpoints db;
  rt_events := rt_events db; rt_expectations := rt_expectations db; rt_audit := rt_audit db |}.
Definition set_links (v : list LinkRow) (db : RuntimeDb) : RuntimeDb := {|
  rt_instances := rt_instances db; rt_journal := rt_journal db; rt_links := v;
  rt_operations := rt_operations db; rt_fills := rt_fills db; rt_checkpoints := rt_checkpoints db;
  rt_events := rt_events db; rt_expectations := rt_expectations db; rt_audit := rt_audit db |}.
Definition set_operations (v : list SetRow) (db : RuntimeDb) : RuntimeDb := {|
  rt_instances := rt_instances db; rt_journal := rt_journal db; rt_links := rt_links db;
  rt_operations := v; rt_fills := rt_fills db; rt_checkpoints := rt_checkpoints db;
  rt_events := rt_events db; rt_expectations := rt_expectations db; rt_audit := rt_audit db |}.
Definition set_fills (v : list SetRow) (db : RuntimeDb) : RuntimeDb := {|
  rt_instances := rt_instances db; rt_journal := rt_journal db; rt_links := rt_links db;
  rt_operations := rt_operations db; rt_fills := v; rt_checkpoints := rt_checkpoints db;
  rt_events := rt_events db; rt_expectations := rt_expectations db; rt_audit := rt_audit db |}.
Definition set_checkpoints (v : list ReconciliationCheckpoint) (db : RuntimeDb) : RuntimeDb := {|
  rt_instances := rt_instances db; rt_journal := rt_journal db; rt_links := rt_links db;
  rt_operations := rt_operations db; rt_fills := rt_fills db; rt_checkpoints := v;
  rt_events := rt_events db; rt_expectations := rt_expectations db; rt_audit := rt_audit db |}.
Definition set_events (v : list EventRow) (db : RuntimeDb) : RuntimeDb := {|
  rt_instances := rt_instances db; rt_journal := rt_journal db; rt_links := rt_links db;
  rt_operations := rt_operations db; rt_fills := rt_fills db; rt_checkpoints := rt_checkpoints db;
  rt_events := v; rt_expectations := rt_expectations db; rt_audit := rt_audit db |}.
Definition set_expectations (v : list DerivedPositionExpectation) (db : RuntimeDb) : RuntimeDb := {|
  rt_instances := rt_instances db; rt_journal := rt_journal db; rt_links := rt_links db;
  rt_operations := rt_operations db; rt_fills := rt_fills db; rt_checkpoints := rt_checkpoints db;
  rt_events := rt_events db; rt_expectations := v; rt_audit := rt_audit db |}.
Definition set_audit (v : list RuntimeAuditRecord) (db : RuntimeDb) : RuntimeDb := {|
  rt_instances := rt_instances db; rt_journal := rt_journal db; rt_links := rt_links db;
  rt_operations := rt_operations db; rt_fills := rt_fills db; rt_checkpoints := rt_checkpoints db;
  rt_events := rt_events db; rt_expectations := rt_expectations db; rt_audit := v |}.

(** ** Constraints and triggers *)

Definition SCHEMA_VERSION : Z := 3.
(** [env!("CARGO_PKG_VERSION")], from the workspace manifest. *)
Definition SOFTWARE_VERSION : string := "0.1.0".
Definition MAX_JOURNAL_ROWS : Z := 1000000.
Definition MAX_EVENT_ROWS : Z := 100000.
Definition MAX_AUDIT_ROWS : Z := 20000.

(** SQLite's [length] of a text: its characters, up to a NUL. *)
Fixpoint sql_length (s : string) : Z :=
  match s with
  | EmptyString => 0
  | String c s' =>
      if (byte_of c =? 0)%N then 0
      else (if ((128 <=? byte_of c) && (byte_of c <? 192))%N then 0 else 1) + sql_length s'
  end.

(** [DELETE ... WHERE rowid IN (SELECT ... WHERE scope_key=? ORDER BY time DESC,
    rowid DESC LIMIT -1 OFFSET n)]: of the rows of a scope, the [n] newest stay. *)
Section retention.
Context {R : Type} (scope_of : R → string) (time_of : R → Z).

(** The rows of the scope that the query lists before row [i]. *)
Definition newer_rows (scope : string) (l : list R) (i : nat) (r : R) : Z :=
  Z.of_nat (length (List.filter (λ x : nat * R,
    bool_decide (scope_of x.2 = scope)
    && ((time_of r <? time_of x.2) || (time_of r =? time_of x.2) && (i <? x.1)%nat))
    (imap pair l))).

Definition keep_newest (scope : string) (n : Z) (l : list R) : list R :=
  (List.filter (λ x : nat * R,
     negb (bool_decide (scope_of x.2 = scope)) || (newer_rows scope l x.1 x.2 <? n))
     (imap pair l)).*2.
End retention.

(** ** Texts *)

Definition model_error_text (e : ModelError) : string :=
  match e with
  | EmptyText field => field +:+ " cannot be empty"
  | SecretLikeOpaqueReference => "opaque reference resembles secret material"
  | UnsafeRequestEvidence => "request evidence must be bounded, structured and redacted"
  | InvalidField field => "invalid " +:+ field
  end.

Definition runtime_state_debug (s : RuntimeState) : string :=
  match s with
  | Rt.Starting => "Starting" | Rt.Connecting => "Connecting" | Rt.Reconciling => "Reconciling"
  | Rt.Ready => "Ready" | Rt.Degraded => "Degraded" | Rt.Halted => "Halted"
  | Rt.Stopping => "Stopping" | Rt.Stopped => "Stopped"
  end.

Definition journal_state_debug (s : JournalState) : string :=
  match s with
  | Journal.NotDispatched => "NotDispatched" | Journal.Dispatching => "Dispatching"
  | Journal.Acknowledged => "Acknowledged" | Journal.Rejected => "Rejected"
  | Journal.UnknownAfterDispatch => "UnknownAfterDispatch" | Journal.Reconciled => "Reconciled"
  end.

Definition disposition_debug (d : ReconciliationDisposition) : string :=
  match d with
  | Disp.OrderAccepted => "OrderAccepted" | Disp.OrderActiveNew => "OrderActiveNew"
  | Disp.OrderActivePartial => "OrderActivePartial" | Disp.OrderFilled => "OrderFilled"
  | Disp.OrderCancelled => "OrderCancelled" | Disp.OrderRejected => "OrderRejected"
  | Disp.StopActive => "StopActive" | Disp.StopExecuted => "StopExecuted"
  | Disp.StopCanceled => "StopCanceled" | Disp.StopExpired => "StopExpired"
  end.

Definition to_i64 (value : Z) : result StoreError Z :=
  if value <=? int_max I64 then Ok value else Err (Corrupt "integer exceeds SQLite i64").

Definition to_u64 (value : Z) : result StoreError Z :=
  if 0 <=? value then Ok value else Err (Corrupt "negative persisted integer").

(** A column that does not convert. *)
Definition to_u64_sql (value : Z) : result StoreError Z :=
  if 0 <=? value then Ok value else Err (Persistence "column conversion").

Definition changed_one (changed : Z) : result StoreError () :=
  if changed =? 1 then Ok tt else Err StaleEpoch.

Definition encode {T} `{!Serde T} (value : T) : result StoreError string :=
  ok_or (to_text value) (Persistence "serialization").

Definition decode_sql {T} `{!Serde T} (value : string) : result StoreError T :=
  ok_or (from_text value) (Persistence "column conversion").

Definition encode_option {T} `{!Serde T} (value : option T) : result StoreError (option string) :=
  transpose (encode <$> value).

Definition decode_option {T} `{!Serde T} (value : option string) : result StoreError (option T) :=
  transpose (decode_sql <$> value).

(** ** The operations of [SqliteRuntimeStore] *)

Section sqlite.
Context `{!Serde Provider} `{!Serde RuntimeEnvironment} `{!Serde RuntimeState} `{!Serde ReasonCode}
  `{!Serde MutationKind} `{!Serde JournalState} `{!Serde MutationEvidence}
  `{!Serde ReconciliationDisposition} `{!Serde BrokerEventClass}.
Notation store A := (st RuntimeDb StoreError A).

(** *** Ownership *)

Definition leased (scope_key : string) (epoch : Z) (row : InstanceRow) : bool :=
  by_key in_scope_key scope_key row && (in_epoch row =? epoch) && in_lease_active row.

Definition count {R} (p : R → bool) (l : list R) : Z := Z.of_nat (length (List.filter p l)).

Definition verify_epoch (db : RuntimeDb) (scope_key : string) (runtime_epoch : Z)
  : result StoreError () :=
  let? epoch := to_i64 runtime_epoch in
  if count (leased scope_key epoch) (rt_instances db) =? 1 then Ok tt else Err StaleEpoch.

Definition check_epoch (scope_key : string) (runtime_epoch : Z) : store () := λ db,
  (db, verify_epoch db scope_key runtime_epoch).

Definition known_scope (db : RuntimeDb) (scope_key : string) : bool :=
  existsb (by_key in_scope_key scope_key) (rt_instances db).

Definition known_mutation (db : RuntimeDb) (id : string) : bool :=
  existsb (by_key mw_logical_request_id id) (rt_journal db).

(** The insert and its capacity trigger. *)
Definition insert_audit (record : RuntimeAuditRecord) : store () :=
  if 2048 <? Z.of_nat (String.length (ra_redacted_detail record))
  then st_fail (Persistence "audit detail exceeds bounded size")
  else
    let! _ := st_lift (to_i64 (ra_runtime_epoch record)) in
    let! _ := st_lift (encode (ra_reason_code record)) in
    let! db := st_get in
    if negb (known_scope db (ra_scope_key record)) then st_fail (Persistence "constraint")
    else st_put (set_audit (keep_newest ra_scope_key ra_observed_at_unix_ms (ra_scope_key record)
                              MAX_AUDIT_ROWS (rt_audit db ++ [record])) db).

Definition instance_row (scope : RuntimeScope) (epoch : Z) (owner_id : string) (started_at_unix_ms : Z)
    (provider environment last_state last_reason : string) : InstanceRow := {|
  in_scope_key := scope_key scope;
  in_provider := provider;
  in_environment := environment;
  in_broker_account_id := sc_broker_account_id scope;
  in_connection_ref := sc_connection_ref scope;
  in_credential_ref := sc_credential_ref scope;
  in_epoch := epoch;
  in_owner_id := owner_id;
  in_lease_active := true;
  in_started_at_unix_ms := started_at_unix_ms;
  in_clean_shutdown_at_unix_ms := None;
  in_software_version := SOFTWARE_VERSION;
  in_schema_version := SCHEMA_VERSION;
  in_last_state := last_state;
  in_last_reason := last_reason |}.

(** [INSERT ... ON CONFLICT(scope_key) DO UPDATE SET] every other column. *)
Definition upsert_instance (row : InstanceRow) (l : list InstanceRow) : list InstanceRow :=
  if existsb (by_key in_scope_key (in_scope_key row)) l
  then update_where (by_key in_scope_key (in_scope_key row)) (λ _, row) l
  else l ++ [row].

Definition acquire_ownership (scope : RuntimeScope) (owner_id : string) (started_at_unix_ms : Z)
  : store Z :=
  transaction (
    let! db := st_get in
    let existing_epoch := from_option in_epoch 0
      (List.find (by_key in_scope_key (scope_key scope)) (rt_instances db)) in
    let! epoch := st_lift (ok_or (checked_add I64 existing_epoch 1) (Corrupt "runtime epoch overflow")) in
    let! provider := st_lift (encode (sc_provider scope)) in
    let! environment := st_lift (encode (sc_environment scope)) in
    let! last_state := st_lift (encode Rt.Starting) in
    let! last_reason := st_lift (encode Why.Startup) in
    if epoch <? 1 then st_fail (Persistence "constraint")
    else
      st_put (set_instances (upsert_instance
        (instance_row scope epoch owner_id started_at_unix_ms provider environment
           last_state last_reason) (rt_instances db)) db) ;;;
      let! audited_epoch := st_lift (to_u64 epoch) in
      insert_audit {|
        ra_scope_key := scope_key scope; ra_runtime_epoch := audited_epoch;
        ra_event_type := "OWNERSHIP_ACQUIRED"; ra_reason_code := Why.Startup;
        ra_correlation_id := owner_id;
        ra_redacted_detail := "single-writer lease acquired and epoch incremented";
        ra_observed_at_unix_ms := started_at_unix_ms |} ;;;
      st_lift (to_u64 epoch)).

Definition set_last (last_state last_reason : string) (row : InstanceRow) : InstanceRow := {|
  in_scope_key := in_scope_key row; in_provider := in_provider row;
  in_environment := in_environment row; in_broker_account_id := in_broker_account_id row;
  in_connection_ref := in_connection_ref row; in_credential_ref := in_credential_ref row;
  in_epoch := in_epoch row; in_owner_id := in_owner_id row;
  in_lease_active := in_lease_active row; in_started_at_unix_ms := in_started_at_unix_ms row;
  in_clean_shutdown_at_unix_ms := in_clean_shutdown_at_unix_ms row;
  in_software_version := in_software_version row; in_schema_version := in_schema_version row;
  in_last_state := last_state; in_last_reason := last_reason |}.

Definition release_row (shutdown_at : Z) (last_state last_reason : string) (row : InstanceRow)
  : InstanceRow := {|
  in_scope_key := in_scope_key row; in_provider := in_provider row;
  in_environment := in_environment row; in_broker_account_id := in_broker_account_id row;
  in_connection_ref := in_connection_ref row; in_credential_ref := in_credential_ref row;
  in_epoch := in_epoch row; in_owner_id := in_owner_id row;
  in_lease_active := false; in_started_at_unix_ms := in_started_at_unix_ms row;
  in_clean_shutdown_at_unix_ms := Some shutdown_at;
  in_software_version := in_software_version row; in_schema_version := in_schema_version row;
  in_last_state := last_state; in_last_reason := last_reason |}.

(** [UPDATE runtime_instance SET ... WHERE scope_key=? AND epoch=? AND lease_active=1],
    which must change one row. *)
Definition update_lease (scope_key : string) (epoch : Z) (f : InstanceRow → InstanceRow) : store () :=
  let! db := st_get in
  st_put (set_instances (update_where (leased scope_key epoch) f (rt_instances db)) db) ;;;
  st_lift (changed_one (count (leased scope_key epoch) (rt_instances db))).

Definition release_ownership (scope_key : string) (runtime_epoch clean_shutdown_at_unix_ms : Z)
  : store () :=
  transaction (
    let! epoch := st_lift (to_i64 runtime_epoch) in
    let! last_state := st_lift (encode Rt.Stopped) in
    let! last_reason := st_lift (encode Why.ShutdownComplete) in
    update_lease scope_key epoch (release_row clean_shutdown_at_unix_ms last_state last_reason) ;;;
    insert_audit {|
      ra_scope_key := scope_key; ra_runtime_epoch := runtime_epoch;
      ra_event_type := "OWNERSHIP_RELEASED"; ra_reason_code := Why.ShutdownComplete;
      ra_correlation_id := "shutdown-epoch-" +:+ int_to_string runtime_epoch;
      ra_redacted_detail := "clean shutdown marker committed before ownership release";
      ra_observed_at_unix_ms := clean_shutdown_at_unix_ms |}).

Definition record_transition (t : StateTransition) : store () :=
  transaction (
    check_epoch (tr_scope_key t) (tr_runtime_epoch t) ;;;
    let! epoch := st_lift (to_i64 (tr_runtime_epoch t)) in
    let! last_state := st_lift (encode (tr_to t)) in
    let! last_reason := st_lift (encode (tr_reason_code t)) in
    update_lease (tr_scope_key t) epoch (set_last last_state last_reason) ;;;
    insert_audit {|
      ra_scope_key := tr_scope_key t; ra_runtime_epoch := tr_runtime_epoch t;
      ra_event_type := "STATE_TRANSITION"; ra_reason_code := tr_reason_code t;
      ra_correlation_id := tr_correlation_id t;
      ra_redacted_detail := runtime_state_debug (tr_from t) +:+ "->" +:+ runtime_state_debug (tr_to t)
                            +:+ ": " +:+ tr_detail t;
      ra_observed_at_unix_ms := tr_observed_at_unix_ms t |}).

(** *** The mutation journal *)

Definition mutation_from_row (row : MutationRow) : result StoreError MutationRecord :=
  let? kind := decode_sql (mw_mutation_kind row) in
  let? state := decode_sql (mw_state row) in
  let? request_evidence := decode_sql (mw_redacted_request_evidence row) in
  let? disposition := decode_option (mw_reconciliation_disposition row) in
  let? runtime_epoch := to_u64_sql (mw_runtime_epoch row) in
  map_err (λ _, Persistence "column conversion") (MutationRecord_validated {|
    mr_scope_key := mw_scope_key row; mr_logical_request_id := mw_logical_request_id row;
    mr_kind := kind; mr_state := state; mr_request_evidence := request_evidence;
    mr_broker_evidence_ref := mw_broker_evidence_ref row; mr_correlation_id := mw_correlation_id row;
    mr_reconciliation_disposition := disposition;
    mr_created_at_unix_ms := mw_created_at_unix_ms row;
    mr_updated_at_unix_ms := mw_updated_at_unix_ms row; mr_runtime_epoch := runtime_epoch |}).

Definition load_mutation (db : RuntimeDb) (logical_request_id : string)
  : result StoreError (option MutationRecord) :=
  transpose (mutation_from_row
             <$> List.find (by_key mw_logical_request_id logical_request_id) (rt_journal db)).

Definition mutation (db : RuntimeDb) (scope_key logical_request_id : string)
  : result StoreError (option MutationRecord) :=
  let? record := load_mutation db logical_request_id in
  Ok (match record with
      | Some r => if bool_decide (mr_scope_key r = scope_key) then Some r else None
      | None => None
      end).

Definition mutations (db : RuntimeDb) (scope_key : string) : result StoreError (list MutationRecord) :=
  collect mutation_from_row
    (order_by (λ a b, mw_created_at_unix_ms a <=? mw_created_at_unix_ms b)
       (List.filter (λ row, bool_decide (mw_scope_key row = scope_key)) (rt_journal db))).

(** A violated key, [CHECK] or capacity trigger is one and the same error code. *)
Definition insert_mutation (record : MutationRecord) : store () :=
  check_epoch (mr_scope_key record) (mr_runtime_epoch record) ;;;
  let! request_evidence := st_lift (encode (mr_request_evidence record)) in
  let! disposition := st_lift (encode_option (mr_reconciliation_disposition record)) in
  let! kind := st_lift (encode (mr_kind record)) in
  let! state := st_lift (encode (mr_state record)) in
  let! epoch := st_lift (to_i64 (mr_runtime_epoch record)) in
  let! db := st_get in
  if (MAX_JOURNAL_ROWS <=? Z.of_nat (length (rt_journal db)))
     || known_mutation db (mr_logical_request_id record)
     || (sql_length request_evidence <? 1) || (2048 <? sql_length request_evidence)
     || negb (known_scope db (mr_scope_key record))
  then st_fail DuplicateMutation
  else st_put (set_journal (rt_journal db ++ [{|
         mw_logical_request_id := mr_logical_request_id record;
         mw_scope_key := mr_scope_key record; mw_mutation_kind := kind; mw_state := state;
         mw_redacted_request_evidence := request_evidence;
         mw_broker_evidence_ref := mr_broker_evidence_ref record;
         mw_created_at_unix_ms := mr_created_at_unix_ms record;
         mw_updated_at_unix_ms := mr_updated_at_unix_ms record;
         mw_correlation_id := mr_correlation_id record;
         mw_reconciliation_disposition := disposition; mw_runtime_epoch := epoch |}]) db).

(** [UPDATE mutation_journal SET state, broker_evidence_ref, reconciliation_disposition,
    updated_at_unix_ms, runtime_epoch]. *)
Definition set_outcome (state : string) (evidence_ref disposition : option string) (now epoch : Z)
    (row : MutationRow) : MutationRow := {|
  mw_logical_request_id := mw_logical_request_id row;
  mw_scope_key := mw_scope_key row;
  mw_mutation_kind := mw_mutation_kind row;
  mw_state := state;
  mw_redacted_request_evidence := mw_redacted_request_evidence row;
  mw_broker_evidence_ref := evidence_ref;
  mw_created_at_unix_ms := mw_created_at_unix_ms row;
  mw_updated_at_unix_ms := now;
  mw_correlation_id := mw_correlation_id row;
  mw_reconciliation_disposition := disposition;
  mw_runtime_epoch := epoch |}.

Definition with_outcome (target : JournalState) (evidence_ref : option string)
    (disposition : option ReconciliationDisposition) (now epoch : Z) (r : MutationRecord)
  : MutationRecord := {|
  mr_scope_key := mr_scope_key r;
  mr_logical_request_id := mr_logical_request_id r;
  mr_kind := mr_kind r;
  mr_state := target;
  mr_request_evidence := mr_request_evidence r;
  mr_broker_evidence_ref := evidence_ref;
  mr_correlation_id := mr_correlation_id r;
  mr_reconciliation_disposition := disposition;
  mr_created_at_unix_ms := mr_created_at_unix_ms r;
  mr_updated_at_unix_ms := now;
  mr_runtime_epoch := epoch |}.

Definition transition_reason (target : JournalState) : ReasonCode :=
  match target with
  | Journal.UnknownAfterDispatch => Why.UnknownMutation
  | _ => Why.ReconciliationComplete
  end.

Definition transition_mutation (scope_key logical_request_id : string) (expected : list JournalState)
    (target : JournalState) (broker_evidence_ref : option string)
    (disposition : option ReconciliationDisposition) (runtime_epoch now_unix_ms : Z)
  : store MutationRecord :=
  transaction (
    check_epoch scope_key runtime_epoch ;;;
    let! db := st_get in
    let! loaded := st_lift (load_mutation db logical_request_id) in
    let! record := st_lift (ok_or loaded InvalidMutationTransition) in
    if negb (bool_decide (mr_scope_key record = scope_key))
       || negb (bool_decide (mr_state record ∈ expected))
    then st_fail InvalidMutationTransition
    else
      let! record := st_lift (map_err (λ e, Corrupt (model_error_text e))
        (MutationRecord_validated
           (with_outcome target broker_evidence_ref disposition now_unix_ms runtime_epoch record))) in
      let! encoded_disposition := st_lift (encode_option disposition) in
      let! state := st_lift (encode target) in
      let! epoch := st_lift (to_i64 runtime_epoch) in
      st_put (set_journal (update_where (by_key mw_logical_request_id logical_request_id)
        (set_outcome state broker_evidence_ref encoded_disposition now_unix_ms epoch)
        (rt_journal db)) db) ;;;
      st_lift (changed_one (count (by_key mw_logical_request_id logical_request_id) (rt_journal db))) ;;;
      insert_audit {|
        ra_scope_key := scope_key; ra_runtime_epoch := runtime_epoch;
        ra_event_type := "MUTATION_" +:+ journal_state_debug target;
        ra_reason_code := transition_reason target;
        ra_correlation_id := mr_correlation_id record;
        ra_redacted_detail := "logical_request_id=" +:+ logical_request_id +:+ "; disposition="
                              +:+ from_option disposition_debug "none" disposition;
        ra_observed_at_unix_ms := now_unix_ms |} ;;;
      st_ret record).

Definition claim_dispatch_unknown (scope_key logical_request_id : string)
    (runtime_epoch now_unix_ms : Z) : store MutationRecord :=
  transition_mutation scope_key logical_request_id [Journal.NotDispatched]
    Journal.UnknownAfterDispatch None None runtime_epoch now_unix_ms.

(** [state IN (?, ?)] with the two unresolved states. *)
Definition in_states (states : list string) (row : MutationRow) : bool :=
  existsb (λ s, bool_decide (mw_state row = s)) states.

Definition unresolved_states : result StoreError (list string) :=
  let? dispatching := encode Journal.Dispatching in
  let? unknown := encode Journal.UnknownAfterDispatch in
  Ok [dispatching; unknown].

Definition mutation_order (a b : MutationRow) : bool :=
  (mw_created_at_unix_ms a <? mw_created_at_unix_ms b)
  || (mw_created_at_unix_ms a =? mw_created_at_unix_ms b)
     && String.leb (mw_logical_request_id a) (mw_logical_request_id b).

Definition unresolved_mutations (db : RuntimeDb) (scope_key : string)
  : result StoreError (list MutationRecord) :=
  let? states := unresolved_states in
  collect mutation_from_row (order_by mutation_order
    (List.filter (λ row, bool_decide (mw_scope_key row = scope_key) && in_states states row)
       (rt_journal db))).

(** *** Identity links *)

(** [query_map(..).collect::<BTreeSet<_>>()]. *)
Definition string_set (rows : list SetRow) (scope_key logical_request_id : string) : list string :=
  btree_extend [] (st_value <$> List.filter (λ row, bool_decide (st_scope_key row = scope_key)
    && bool_decide (st_logical_request_id row = logical_request_id)) rows).

Definition links_from_row (db : RuntimeDb) (scope_key : string) (row : LinkRow)
  : BrokerIdentityLinks := {|
  il_logical_request_id := lk_logical_request_id row;
  il_broker_order_id := lk_broker_order_id row;
  il_replacement_broker_order_id := lk_replacement_broker_order_id row;
  il_broker_stop_order_id := lk_broker_stop_order_id row;
  il_provider_operation_ids :=
    string_set (rt_operations db) scope_key (lk_logical_request_id row);
  il_broker_fill_ids := string_set (rt_fills db) scope_key (lk_logical_request_id row) |}.

Definition all_identity_links (db : RuntimeDb) (scope_key : string)
  : result StoreError (list BrokerIdentityLinks) :=
  Ok (links_from_row db scope_key
      <$> order_by (λ a b, String.leb (lk_logical_request_id a) (lk_logical_request_id b))
            (List.filter (λ row, bool_decide (lk_scope_key row = scope_key)) (rt_links db))).

Definition coalesce {A} (new old : option A) : option A :=
  match new with Some v => Some v | None => old end.

(** The [DO UPDATE SET] of the upsert: a known identity is never erased. *)
Definition merge_row (links : BrokerIdentityLinks) (now epoch : Z) (row : LinkRow) : LinkRow := {|
  lk_logical_request_id := lk_logical_request_id row;
  lk_scope_key := lk_scope_key row;
  lk_broker_order_id := coalesce (il_broker_order_id links) (lk_broker_order_id row);
  lk_replacement_broker_order_id :=
    coalesce (il_replacement_broker_order_id links) (lk_replacement_broker_order_id row);
  lk_broker_stop_order_id := coalesce (il_broker_stop_order_id links) (lk_broker_stop_order_id row);
  lk_updated_at_unix_ms := now;
  lk_runtime_epoch := epoch |}.

Definition new_link_row (scope_key : string) (links : BrokerIdentityLinks) (now epoch : Z)
  : LinkRow := {|
  lk_logical_request_id := il_logical_request_id links;
  lk_scope_key := scope_key;
  lk_broker_order_id := il_broker_order_id links;
  lk_replacement_broker_order_id := il_replacement_broker_order_id links;
  lk_broker_stop_order_id := il_broker_stop_order_id links;
  lk_updated_at_unix_ms := now;
  lk_runtime_epoch := epoch |}.

(** [INSERT OR IGNORE] into a link table; a dangling reference is an error, not ignored. *)
Definition insert_or_ignore (db : RuntimeDb) (same : SetRow → SetRow → bool) (row : SetRow)
    (l : list SetRow) : result StoreError (list SetRow) :=
  if existsb (same row) l then Ok l
  else if known_scope db (st_scope_key row) && known_mutation db (st_logical_request_id row)
  then Ok (l ++ [row])
  else Err (Persistence "constraint").

Definition same_operation (a b : SetRow) : bool :=
  bool_decide (st_scope_key a = st_scope_key b)
  && bool_decide (st_logical_request_id a = st_logical_request_id b)
  && bool_decide (st_value a = st_value b).

Definition same_fill (a b : SetRow) : bool :=
  bool_decide (st_scope_key a = st_scope_key b) && bool_decide (st_value a = st_value b).

Definition upsert_links (scope_key : string) (links : BrokerIdentityLinks)
    (runtime_epoch now_unix_ms : Z) : store () :=
  let! epoch := st_lift (to_i64 runtime_epoch) in
  let! db := st_get in
  let id := il_logical_request_id links in
  (if existsb (by_key lk_logical_request_id id) (rt_links db)
   then st_put (set_links (update_where (by_key lk_logical_request_id id)
          (merge_row links now_unix_ms epoch) (rt_links db)) db)
   else if known_scope db scope_key && known_mutation db id
   then st_put (set_links (rt_links db ++ [new_link_row scope_key links now_unix_ms epoch]) db)
   else st_fail (Corrupt "conflicting typed broker identity link")) ;;;
  let row v := {| st_scope_key := scope_key; st_logical_request_id := id; st_value := v |} in
  let! db := st_get in
  let! operations := st_lift (try_fold (λ l v, insert_or_ignore db same_operation (row v) l)
    (rt_operations db) (il_provider_operation_ids links)) in
  st_put (set_operations operations db) ;;;
  let! db := st_get in
  let! fills := st_lift (try_fold (λ l v, insert_or_ignore db same_fill (row v) l)
    (rt_fills db) (il_broker_fill_ids links)) in
  st_put (set_fills fills db).

Definition upsert_identity_links (scope_key : string) (links : BrokerIdentityLinks)
    (runtime_epoch now_unix_ms : Z) : store () :=
  transaction (
    check_epoch scope_key runtime_epoch ;;;
    upsert_links scope_key links runtime_epoch now_unix_ms).

(** *** Checkpoints and the commit of a reconciliation *)

Definition load_checkpoint (db : RuntimeDb) (scope_key : string)
  : result StoreError (option ReconciliationCheckpoint) :=
  match List.find (by_key cp_scope_key scope_key) (rt_checkpoints db) with
  | Some c => let? _ := to_u64_sql (cp_runtime_epoch c) in Ok (Some c)
  | None => Ok None
  end.

Definition discard_checkpoint (scope_key : string) (runtime_epoch : Z) : store () :=
  check_epoch scope_key runtime_epoch ;;;
  let! db := st_get in
  st_put (set_checkpoints
    (List.filter (λ c, negb (by_key cp_scope_key scope_key c)) (rt_checkpoints db)) db).

(** Inserts a row or replaces the one with its key. *)
Definition upsert_checkpoint (c : ReconciliationCheckpoint) (l : list ReconciliationCheckpoint)
  : list ReconciliationCheckpoint :=
  if existsb (by_key cp_scope_key (cp_scope_key c)) l
  then update_where (by_key cp_scope_key (cp_scope_key c)) (λ _, c) l
  else l ++ [c].

(** The row of a mutation of the scope that is still unresolved. *)
Definition pending_row (scope_key logical_request_id : string) (states : list string)
    (row : MutationRow) : bool :=
  by_key mw_logical_request_id logical_request_id row && bool_decide (mw_scope_key row = scope_key)
  && in_states states row.

Definition commit_record (checkpoint : ReconciliationCheckpoint) (record : MutationRecord) : store () :=
  let scope_key := cp_scope_key checkpoint in
  if negb (bool_decide (mr_scope_key record = scope_key))
     || negb (bool_decide (mr_state record = Journal.Reconciled))
  then st_fail InvalidMutationTransition
  else
    let! disposition := st_lift (encode_option (mr_reconciliation_disposition record)) in
    let! state := st_lift (encode (mr_state record)) in
    let! epoch := st_lift (to_i64 (cp_runtime_epoch checkpoint)) in
    let! states := st_lift unresolved_states in
    let! db := st_get in
    let target := pending_row scope_key (mr_logical_request_id record) states in
    st_put (set_journal (update_where target
      (set_outcome state (mr_broker_evidence_ref record) disposition
         (mr_updated_at_unix_ms record) epoch) (rt_journal db)) db) ;;;
    if negb (count target (rt_journal db) =? 1)
    then st_fail (Corrupt ("reconciliation target " +:+ mr_logical_request_id record
                           +:+ " is missing or no longer unresolved"))
    else insert_audit {|
      ra_scope_key := scope_key; ra_runtime_epoch := cp_runtime_epoch checkpoint;
      ra_event_type := "UNKNOWN_RESOLVED"; ra_reason_code := Why.ReconciliationComplete;
      ra_correlation_id := mr_correlation_id record;
      ra_redacted_detail := "logical_request_id=" +:+ mr_logical_request_id record
        +:+ "; disposition="
        +:+ from_option disposition_debug "authoritative broker evidence"
              (mr_reconciliation_disposition record);
      ra_observed_at_unix_ms := mr_updated_at_unix_ms record |}.

(** A [for] loop of fallible statements. *)
Fixpoint for_each {A} (f : A → store ()) (l : list A) : store () :=
  match l with
  | [] => st_ret tt
  | x :: l' => f x ;;; for_each f l'
  end.

Definition commit_reconciliation (checkpoint : ReconciliationCheckpoint)
    (resolved : list MutationRecord) (links : list BrokerIdentityLinks)
    (readiness_state : RuntimeState) (reason_code : ReasonCode) : store () :=
  transaction (
    check_epoch (cp_scope_key checkpoint) (cp_runtime_epoch checkpoint) ;;;
    for_each (commit_record checkpoint) resolved ;;;
    for_each (λ link, upsert_links (cp_scope_key checkpoint) link (cp_runtime_epoch checkpoint)
                        (cp_completed_at_unix_ms checkpoint)) links ;;;
    let! epoch := st_lift (to_i64 (cp_runtime_epoch checkpoint)) in
    let! db := st_get in
    st_put (set_checkpoints (upsert_checkpoint checkpoint (rt_checkpoints db)) db) ;;;
    let! last_state := st_lift (encode readiness_state) in
    let! last_reason := st_lift (encode reason_code) in
    update_lease (cp_scope_key checkpoint) epoch (set_last last_state last_reason) ;;;
    insert_audit {|
      ra_scope_key := cp_scope_key checkpoint; ra_runtime_epoch := cp_runtime_epoch checkpoint;
      ra_event_type := "RECONCILIATION_COMMITTED"; ra_reason_code := reason_code;
      ra_correlation_id := cp_reconciliation_id checkpoint;
      ra_redacted_detail := "readiness=" +:+ runtime_state_debug readiness_state +:+ "; complete="
        +:+ (if checkpoint_complete checkpoint then "true" else "false");
      ra_observed_at_unix_ms := cp_completed_at_unix_ms checkpoint |}).

(** *** Events, expectations, audit *)

Definition same_event (scope_key event_class stable_event_id : string) (row : EventRow) : bool :=
  bool_decide (ew_scope_key row = scope_key) && bool_decide (ew_event_class row = event_class)
  && bool_decide (ew_stable_event_id row = stable_event_id).

(** [INSERT OR IGNORE] with the capacity trigger; [true] when a row was inserted. *)
Definition record_broker_event (scope_key : string) (event : BrokerEvent) (first_seen_at_unix_ms : Z)
  : store bool :=
  check_epoch scope_key (be_runtime_epoch event) ;;;
  let! event_class := st_lift (encode (be_event_class event)) in
  let! epoch := st_lift (to_i64 (be_runtime_epoch event)) in
  let! db := st_get in
  if existsb (same_event scope_key event_class (be_stable_event_id event)) (rt_events db)
  then st_ret false
  else if negb (known_scope db scope_key) then st_fail (Persistence "constraint")
  else
    st_put (set_events (keep_newest ew_scope_key ew_first_seen_at_unix_ms scope_key MAX_EVENT_ROWS
      (rt_events db ++ [{|
         ew_scope_key := scope_key; ew_event_class := event_class;
         ew_stable_event_id := be_stable_event_id event;
         ew_first_seen_at_unix_ms := first_seen_at_unix_ms; ew_runtime_epoch := epoch |}])) db) ;;;
    st_ret true.

Definition expectation_key (e : DerivedPositionExpectation) : string * string :=
  (dp_scope_key e, dp_instrument_uid e).

Definition expected_positions (db : RuntimeDb) (scope_key : string)
  : result StoreError (list DerivedPositionExpectation) :=
  collect (λ e, let? _ := to_u64_sql (dp_runtime_epoch e) in Ok e)
    (order_by (λ a b, String.leb (dp_instrument_uid a) (dp_instrument_uid b))
       (List.filter (λ e, bool_decide (dp_scope_key e = scope_key)) (rt_expectations db))).

Definition set_expected_position (e : DerivedPositionExpectation) : store () :=
  check_epoch (dp_scope_key e) (dp_runtime_epoch e) ;;;
  let! _ := st_lift (to_i64 (dp_runtime_epoch e)) in
  let! db := st_get in
  if negb (known_scope db (dp_scope_key e) && known_mutation db (dp_based_on_logical_request_id e))
  then st_fail (Persistence "constraint")
  else st_put (set_expectations
    (if existsb (by_key expectation_key (expectation_key e)) (rt_expectations db)
     then update_where (by_key expectation_key (expectation_key e)) (λ _, e) (rt_expectations db)
     else rt_expectations db ++ [e]) db).

Definition append_audit (record : RuntimeAuditRecord) : store () :=
  check_epoch (ra_scope_key record) (ra_runtime_epoch record) ;;;
  insert_audit record.

(** [DELETE ... WHERE scope_key=? AND time < ?]. *)
Definition drop_older {R} (scope_of : R → string) (time_of : R → Z) (scope : string) (after : Z)
    (l : list R) : list R :=
  List.filter (λ r, negb (bool_decide (scope_of r = scope) && (time_of r <? after))) l.

Definition compact (scope_key : string) (retain_after_unix_ms max_events max_audit : Z) : store () :=
  transaction (
    let! db := st_get in
    st_put (set_events (keep_newest ew_scope_key ew_first_seen_at_unix_ms scope_key max_events
      (drop_older ew_scope_key ew_first_seen_at_unix_ms scope_key retain_after_unix_ms
         (rt_events db))) db) ;;;
    let! db := st_get in
    st_put (set_audit (keep_newest ra_scope_key ra_observed_at_unix_ms scope_key max_audit
      (drop_older ra_scope_key ra_observed_at_unix_ms scope_key retain_after_unix_ms
         (rt_audit db))) db)).

Definition counts (db : RuntimeDb) (scope_key : string) : result StoreError StoreCounts :=
  let? states := unresolved_states in
  let? unresolved := to_u64 (count (λ row, bool_decide (mw_scope_key row = scope_key)
    && in_states states row) (rt_journal db)) in
  let? orders := to_u64 (count (λ row, bool_decide (lk_scope_key row = scope_key)
    && (is_some (lk_broker_order_id row) || is_some (lk_replacement_broker_order_id row)))
    (rt_links db)) in
  let? stops := to_u64 (count (λ row, bool_decide (lk_scope_key row = scope_key)
    && is_some (lk_broker_stop_order_id row)) (rt_links db)) in
  Ok {| ct_unresolved_unknown_count := unresolved; ct_linked_open_order_count := orders;
        ct_linked_active_stop_count := stops |}.

#[export] Instance SqliteRuntimeStore : RuntimeStore RuntimeDb := {|
  js_acquire_ownership := acquire_ownership;
  js_verify_epoch := verify_epoch;
  js_release_ownership := release_ownership;
  js_record_transition := record_transition;
  js_insert_mutation := insert_mutation;
  js_mutation := mutation;
  js_mutations := mutations;
  js_claim_dispatch_unknown := claim_dispatch_unknown;
  js_transition_mutation := transition_mutation;
  js_unresolved_mutations := unresolved_mutations;
  js_all_identity_links := all_identity_links;
  js_upsert_identity_links := upsert_identity_links;
  js_load_checkpoint := load_checkpoint;
  js_discard_checkpoint := discard_checkpoint;
  js_commit_reconciliation := commit_reconciliation;
  js_record_broker_event := record_broker_event;
  js_expected_positions := expected_positions;
  js_set_expected_position := set_expected_position;
  js_append_audit := append_audit;
  js_compact := compact;
  js_counts := counts |}.
End sqlite.

(** ** Invariant and evolution *)

Section laws.
Context `{!Serde Provider} `{!Serde RuntimeEnvironment} `{!Serde RuntimeState} `{!Serde ReasonCode}
  `{!Serde MutationKind} `{!Serde JournalState} `{!Serde MutationEvidence}
  `{!Serde ReconciliationDisposition} `{!Serde BrokerEventClass} `{!SerdeLaws JournalState}.
Notation store A := (st RuntimeDb StoreError A).

Definition state_of (row : MutationRow) : JournalState :=
  default Journal.NotDispatched (from_text (mw_state row)).

Definition row_entry (row : MutationRow) : JournalEntry := {|
  je_id := mw_logical_request_id row; je_scope := mw_scope_key row; je_state := state_of row |}.

Definition journal_entries (db : RuntimeDb) : list JournalEntry := row_entry <$> rt_journal db.

(** The current epoch of a scope; 0 before the first owner. *)
Definition epoch_of (db : RuntimeDb) (scope : string) : Z :=
  from_option in_epoch 0 (List.find (by_key in_scope_key scope) (rt_instances db)).

Record db_ok (db : RuntimeDb) : Prop := {
  ok_instances : keyed in_scope_key (rt_instances db);
  ok_epochs : Forall (λ r, 1 ≤ in_epoch r ≤ int_max I64) (rt_instances db);
  ok_journal : keyed mw_logical_request_id (rt_journal db);
  ok_states : Forall (λ r, ∃ s : JournalState, to_text s = Some (mw_state r)) (rt_journal db);
}.

Lemma empty_journal_ok : db_ok empty_journal.
Proof. constructor; simpl; constructor. Qed.

(** How far a mutation has come: prepared, in doubt, settled. *)
Definition progress (s : JournalState) : Z :=
  match s with
  | Journal.NotDispatched => 0
  | Journal.Dispatching | Journal.UnknownAfterDispatch => 1
  | Journal.Acknowledged | Journal.Rejected | Journal.Reconciled => 2
  end.

(** An entry later on: the same mutation, never behind, and final once settled. *)
Definition advanced (e e' : JournalEntry) : Prop :=
  je_id e' = je_id e ∧ je_scope e' = je_scope e ∧ progress (je_state e) ≤ progress (je_state e')
  ∧ (Journal.terminal (je_state e) = true → e' = e).

Definition evolves (db db' : RuntimeDb) : Prop :=
  db_ok db → db_ok db' ∧ (∀ k, epoch_of db k ≤ epoch_of db' k)
  ∧ ∀ e, e ∈ journal_entries db → ∃ e', e' ∈ journal_entries db' ∧ advanced e e'.

#[export] Instance advanced_refl : Reflexive advanced.
Proof. intros e. split_and!; [done..|lia|done]. Qed.

#[export] Instance advanced_trans : Transitive advanced.
Proof.
  intros e1 e2 e3 (I1 & S1 & P1 & T1) (I2 & S2 & P2 & T2). split_and!; [congruence..|lia|].
  intros Ht. specialize (T1 Ht) as ->. auto.
Qed.

#[export] Instance evolves_refl : Reflexive evolves.
Proof. intros db Hok. split_and!; [done|done|]. intros e He. by exists e. Qed.

#[export] Instance evolves_trans : Transitive evolves.
Proof.
  intros db1 db2 db3 H1 H2 Hok. destruct (H1 Hok) as (Hok2 & He1 & Hj1).
  destruct (H2 Hok2) as (Hok3 & He2 & Hj2). split_and!; [done| |].
  - intros k. specialize (He1 k). specialize (He2 k). lia.
  - intros e (e' & Hin' & Ha)%Hj1. destruct (Hj2 _ Hin') as (e'' & ? & ?).
    exists e''. split; [done|by etrans].
Qed.

(** *** Steps that touch neither leases nor journal *)

Definition quiet (db db' : RuntimeDb) : Prop :=
  rt_instances db' = rt_instances db ∧ rt_journal db' = rt_journal db.

#[export] Instance quiet_refl : Reflexive quiet.
Proof. by split. Qed.
#[export] Instance quiet_trans : Transitive quiet.
Proof. intros ??? [??] [??]. split; congruence. Qed.

Lemma quiet_evolves db db' : quiet db db' → evolves db db'.
Proof.
  intros [Hi Hj] Hok. split_and!.
  - destruct Hok. constructor; by rewrite ?Hi, ?Hj.
  - intros k. unfold epoch_of. by rewrite Hi.
  - intros e He. exists e. unfold journal_entries in *. by rewrite Hj.
Qed.

Lemma effect_quiet_evolves {A} (m : store A) : st_effect quiet m → st_effect evolves m.
Proof. intros Hm s s' r H. by eapply quiet_evolves, Hm. Qed.

Lemma insert_audit_quiet r : st_effect quiet (insert_audit r).
Proof.
  unfold insert_audit. case_match; [apply (effect_fail quiet)|].
  apply (effect_bind quiet); [apply (effect_lift quiet)|intros _].
  apply (effect_bind quiet); [apply (effect_lift quiet)|intros _].
  apply (effect_update quiet). intros s s' res. case_match; intros H'; unfold st_fail, st_put in H'; by simplify_eq.
Qed.

Lemma check_epoch_effect R `{!Reflexive R} k e : st_effect R (check_epoch k e).
Proof. intros s s' r H. unfold check_epoch in H. by simplify_eq. Qed.

Lemma upsert_links_quiet k links e now : st_effect quiet (upsert_links k links e now).
Proof.
  intros s s' r H. unfold upsert_links in H. st_unfold. repeat case_match; by simplify_eq/=.
Qed.

Lemma for_each_effect {A} R `{!Reflexive R} `{!Transitive R} (f : A → store ()) l :
  (∀ x, st_effect R (f x)) → st_effect R (for_each f l).
Proof.
  intros Hf. induction l as [|x l IH]; simpl; [by apply (effect_ret R)|].
  by apply (effect_bind R); [apply Hf|].
Qed.

Lemma discard_quiet k e : st_effect quiet (discard_checkpoint k e).
Proof.
  intros s s' r H. unfold discard_checkpoint, check_epoch in H. st_unfold.
  repeat case_match; by simplify_eq/=.
Qed.

Lemma event_quiet k ev now : st_effect quiet (record_broker_event k ev now).
Proof.
  intros s s' r H. unfold record_broker_event, check_epoch in H. st_unfold.
  repeat case_match; by simplify_eq/=.
Qed.

Lemma expected_quiet e : st_effect quiet (set_expected_position e).
Proof.
  intros s s' r H. unfold set_expected_position, check_epoch in H. st_unfold.
  repeat case_match; by simplify_eq/=.
Qed.

Lemma compact_quiet k after n m : st_effect quiet (compact k after n m).
Proof. intros s s' r H. unfold compact in H. st_unfold. by simplify_eq/=. Qed.

Lemma append_audit_quiet r : st_effect quiet (append_audit r).
Proof.
  apply (effect_bind quiet); [by apply check_epoch_effect|intros _]. apply insert_audit_quiet.
Qed.

Lemma upsert_identity_quiet k links e now : st_effect quiet (upsert_identity_links k links e now).
Proof.
  apply (effect_transaction quiet), (effect_bind quiet); [by apply check_epoch_effect|intros _].
  apply upsert_links_quiet.
Qed.

(** *** Leases *)

(** An update of instance rows that keeps scopes and epochs. *)
Definition keeps_lease (f : InstanceRow → InstanceRow) : Prop :=
  ∀ r, in_scope_key (f r) = in_scope_key r ∧ in_epoch (f r) = in_epoch r.

Lemma update_rows_epoch p f l k :
  keeps_lease f →
  from_option in_epoch 0 (List.find (by_key in_scope_key k) (update_where p f l))
  = from_option in_epoch 0 (List.find (by_key in_scope_key k) l).
Proof.
  intros Hf. induction l as [|x l IH]; simpl; [done|].
  destruct (Hf x) as [Hs He]. unfold by_key.
  destruct (p x); rewrite ?Hs; case_bool_decide; simpl; auto.
Qed.

Lemma update_rows_evolves p f db :
  keeps_lease f → evolves db (set_instances (update_where p f (rt_instances db)) db).
Proof.
  intros Hf []. split_and!.
  - constructor; simpl; try done.
    + apply keyed_update; [|done]. intros r. apply Hf.
    + rewrite Forall_forall in *. intros r (r0 & Hin & ->)%elem_of_update_where.
      destruct (p r0); [|auto]. destruct (Hf r0) as [_ ->]. auto.
  - intros k. unfold epoch_of. simpl. by rewrite update_rows_epoch.
  - intros e He. by exists e.
Qed.

Lemma update_lease_evolves k e f : keeps_lease f → st_effect evolves (update_lease k e f).
Proof.
  intros Hf s s' r H. unfold update_lease in H. st_unfold. simpl in H. simplify_eq.
  by apply update_rows_evolves.
Qed.

Lemma set_last_keeps a b : keeps_lease (set_last a b).
Proof. by intros r. Qed.

Lemma release_row_keeps a b c : keeps_lease (release_row a b c).
Proof. by intros r. Qed.

Lemma to_i64_Ok v r : to_i64 v = Ok r ↔ r = v ∧ v ≤ int_max I64.
Proof. unfold to_i64. destruct (v <=? int_max I64) eqn:H; naive_solver lia. Qed.

(** Taking ownership raises the epoch of the scope by one, and no other. *)
Lemma upsert_instance_spec row l :
  keyed in_scope_key l → Forall (λ r, 1 ≤ in_epoch r ≤ int_max I64) l →
  1 ≤ in_epoch row ≤ int_max I64 →
  keyed in_scope_key (upsert_instance row l)
  ∧ Forall (λ r, 1 ≤ in_epoch r ≤ int_max I64) (upsert_instance row l)
  ∧ ∀ k, List.find (by_key in_scope_key k) (upsert_instance row l) =
         if bool_decide (in_scope_key row = k) then Some row
         else List.find (by_key in_scope_key k) l.
Proof.
  intros Hk He Hr. unfold upsert_instance.
  destruct (existsb (by_key in_scope_key (in_scope_key row)) l) eqn:Hex.
  - split_and!; [by apply keyed_replace| |].
    + rewrite Forall_forall in *. intros r (r0 & Hin & ->)%elem_of_update_where.
      destruct (by_key _ _ _); auto.
    + intros k. rewrite find_replace. case_bool_decide as Hkey; [|done]. subst k. by rewrite Hex.
  - assert (in_scope_key row ∉ in_scope_key <$> l) as Hfresh.
    { apply find_by_key_None, find_None_iff. by apply existsb_false. }
    split_and!; [by apply keyed_snoc|by apply Forall_app; split; [|constructor]|].
    intros k. rewrite find_snoc.
    destruct (List.find (by_key in_scope_key k) l) as [r|] eqn:Hf.
    + case_bool_decide as Hkey; [|done]. subst k. apply find_by_key in Hf as [Hin Hkey].
      exfalso. apply Hfresh. rewrite <-Hkey. by apply list_elem_of_fmap_2.
    + unfold by_key. by case_bool_decide.
Qed.

Lemma acquire_effect scope owner now db db' r :
  db_ok db → acquire_ownership scope owner now db = (db', r) →
  evolves db db' ∧ ∀ e, r = Ok e → e = epoch_of db (scope_key scope) + 1 ∧ epoch_of db' (scope_key scope) = e.
Proof.
  intros Hok H. pose proof (reflexivity db : evolves db db) as Hrefl.
  unfold acquire_ownership, transaction in H.
  destruct (st_bind _ _ db) as [db1 [e|e]] eqn:Hb; simplify_eq; [|split; [done|discriminate]].
  unfold st_bind at 1, st_get at 1 in Hb. change (from_option in_epoch 0 _) with (epoch_of db (scope_key scope)) in Hb.
  assert (0 ≤ epoch_of db (scope_key scope)) as Hpos.
  { unfold epoch_of. destruct (List.find _ _) as [row|] eqn:Hf; simpl; [|lia].
    apply find_by_key in Hf as [Hin _]. destruct Hok as [_ He _ _].
    rewrite Forall_forall in He. specialize (He _ Hin). lia. }
  unfold st_lift in Hb. unfold st_bind at 1 in Hb.
  destruct (checked_add I64 _ 1) as [ep|] eqn:Hep; [|done]. simpl in Hb.
  apply checked_Some in Hep as [-> Hty].
  do 4 (unfold st_bind at 1 in Hb; destruct (encode _); [|done]).
  destruct (_ <? 1); [done|]. unfold st_bind at 1, st_put in Hb.
  unfold st_bind at 1 in Hb. unfold to_u64 in Hb.
  assert ((0 <=? epoch_of db (scope_key scope) + 1) = true) as Hle by lia. rewrite Hle in Hb.
  apply st_bind_Ok in Hb as (db2 & [] & Ha & Hr). injection Hr as -> <-.
  apply insert_audit_quiet in Ha.
  match type of Ha with quiet (set_instances (upsert_instance ?row _) _) _ =>
    destruct (upsert_instance_spec row (rt_instances db)) as (Hk & He & Hf);
      [apply Hok|apply Hok|simpl; int_lia|] end.
  destruct Ha as [Hi Hj]. simpl in Hi, Hj. split.
  - intros _. split_and!.
    + destruct Hok. constructor; rewrite ?Hi, ?Hj; done.
    + intros k. unfold epoch_of. rewrite Hi, Hf. simpl. case_bool_decide as Hkk; [|done].
      subst k. unfold epoch_of in *. simpl. lia.
    + intros e He'. exists e. unfold journal_entries in *. by rewrite Hj.
  - intros e [= <-]. split; [done|]. unfold epoch_of at 1. rewrite Hi, Hf. simpl.
    by rewrite bool_decide_eq_true_2.
Qed.

(** *** Journal rows *)

Lemma state_of_text row s : to_text s = Some (mw_state row) → state_of row = s.
Proof. intros H. unfold state_of. by rewrite (from_to_text _ _ H). Qed.

Lemma encode_Ok {T} `{!Serde T} (v : T) s : encode v = Ok s ↔ to_text v = Some s.
Proof. unfold encode. by rewrite ok_or_Ok. Qed.

(** A row update that only moves forward. *)
Lemma update_journal_evolves p st text ev disp now ep db :
  to_text st = Some text →
  (∀ row, row ∈ rt_journal db → p row = true →
     progress (state_of row) ≤ progress st ∧ Journal.terminal (state_of row) = false) →
  evolves db (set_journal (update_where p (set_outcome text ev disp now ep) (rt_journal db)) db).
Proof.
  intros Ht Hp []. split_and!.
  - constructor; simpl; try done.
    + by apply keyed_update.
    + rewrite Forall_forall in *. intros r (r0 & Hin & ->)%elem_of_update_where.
      destruct (p r0); [by exists st|auto].
  - done.
  - intros e (row & -> & Hin)%list_elem_of_fmap.
    destruct (p row) eqn:Hpr.
    + exists (row_entry (set_outcome text ev disp now ep row)). split.
      * apply list_elem_of_fmap_2, elem_of_update_where. exists row. by rewrite Hpr.
      * destruct (Hp row Hin Hpr) as [Hle Hterm]. split_and!; simpl; try done.
        -- by rewrite (state_of_text (set_outcome text ev disp now ep row) st Ht).
        -- by rewrite Hterm.
    + exists (row_entry row). split; [|done].
      apply list_elem_of_fmap_2, elem_of_update_where. exists row. by rewrite Hpr.
Qed.

Lemma mutation_from_row_Ok row r :
  mutation_from_row row = Ok r →
  entry_of r = row_entry row ∧ from_text (mw_state row) = Some (mr_state r).
Proof.
  unfold mutation_from_row. intros H.
  destruct (decode_sql (mw_mutation_kind row)); [|done].
  destruct (decode_sql (mw_state row)) as [s|] eqn:Hs; [|done].
  destruct (decode_sql (mw_redacted_request_evidence row)); [|done].
  destruct (decode_option _); [|done]. destruct (to_u64_sql _); [|done].
  apply ok_or_Ok in Hs.
  destruct (MutationRecord_validated _) as [r'|] eqn:Hv; [|done]. injection H as <-.
  assert (∀ x y, MutationRecord_validated x = Ok y → y = x) as Hid.
  { clear. intros x y. unfold MutationRecord_validated. intros H.
    repeat (case_match; try discriminate). by simplify_eq. }
  apply Hid in Hv as ->. unfold entry_of, row_entry, state_of. simpl. by rewrite Hs.
Qed.

Lemma load_mutation_Ok db id r :
  load_mutation db id = Ok (Some r) →
  ∃ row, List.find (by_key mw_logical_request_id id) (rt_journal db) = Some row
    ∧ entry_of r = row_entry row.
Proof.
  unfold load_mutation. destruct (List.find _ _) as [row|]; simpl; [|done].
  destruct (mutation_from_row row) as [r'|] eqn:Hm; [|done]. intros [= <-].
  exists row. split; [done|]. by apply mutation_from_row_Ok.
Qed.

Lemma entries_update (p : MutationRow → bool) (q : JournalEntry → bool) f g l :
  (∀ row, row ∈ l → p row = q (row_entry row)) →
  (∀ row, row_entry (f row) = g (row_entry row)) →
  row_entry <$> update_where p f l = update_where q g (row_entry <$> l).
Proof.
  intros Hp Hf. unfold update_where. rewrite <-!list_fmap_compose.
  apply list_fmap_ext. intros i row Hi. simpl. apply list_elem_of_lookup_2 in Hi.
  rewrite <-(Hp _ Hi). by destruct (p row).
Qed.

Lemma set_outcome_entry st text ev disp now ep row :
  to_text st = Some text → row_entry (set_outcome text ev disp now ep row) = set_entry st (row_entry row).
Proof.
  intros Ht. unfold row_entry, set_entry. simpl. f_equal.
  by apply (state_of_text (set_outcome text ev disp now ep row)).
Qed.

(** [expected -> target] moves forward and never out of a settled state. *)
Definition forward (expected : list JournalState) (target : JournalState) : Prop :=
  ∀ s, s ∈ expected → progress s ≤ progress target ∧ Journal.terminal s = false.

Lemma transition_effect k id expected target ev disp ep now db db' r :
  db_ok db → transition_mutation k id expected target ev disp ep now db = (db', r) →
  (forward expected target → evolves db db') ∧
  match r with
  | Err _ => db' = db
  | Ok rec =>
      mr_logical_request_id rec = id ∧ mr_state rec = target ∧
      (∃ e, e ∈ journal_entries db ∧ je_id e = id ∧ je_scope e = k ∧ je_state e ∈ expected) ∧
      journal_entries db' = update_where (by_key je_id id) (set_entry target) (journal_entries db)
  end.
Proof.
  intros Hok H. unfold transition_mutation, transaction in H.
  destruct (st_bind _ _ db) as [db1 [rec|e]] eqn:Hb; simplify_eq; [|by split].
  apply st_bind_Ok in Hb as (s & [] & Hc & Hb). unfold check_epoch in Hc. injection Hc as <- _.
  unfold st_bind at 1, st_get in Hb. unfold st_lift in Hb. unfold st_bind at 1 in Hb.
  destruct (load_mutation db id) as [[r0|]|] eqn:Hl; [|done|done].
  apply load_mutation_Ok in Hl as (row & Hf & He).
  unfold st_bind at 1 in Hb. simpl in Hb. destruct (negb _ || negb _) eqn:Hg; [done|].
  prop_tests. unfold st_bind at 1 in Hb.
  destruct (MutationRecord_validated _) as [rec1|] eqn:Hv; [|done]. simpl in Hb.
  assert (rec1 = with_outcome target ev disp now ep r0) as ->.
  { clear -Hv. unfold MutationRecord_validated in Hv. repeat (case_match; try discriminate). by simplify_eq. }
  unfold st_bind at 1 in Hb. destruct (encode_option disp) as [dt|]; [|done].
  unfold st_bind at 1 in Hb. destruct (encode target) as [text|] eqn:Ht; [|done].
  apply encode_Ok in Ht.
  unfold st_bind at 1 in Hb. destruct (to_i64 ep) as [ep'|]; [|done].
  unfold st_bind at 1, st_put in Hb. unfold st_bind at 1 in Hb. destruct (changed_one _); [|done].
  apply st_bind_Ok in Hb as (s & [] & Ha & Hr). unfold st_ret in Hr. injection Hr as -> <-.
  apply insert_audit_quiet in Ha.
  apply find_by_key in Hf as [Hin Hid].
  assert (je_id (entry_of r0) = id ∧ je_scope (entry_of r0) = k ∧ je_state (entry_of r0) ∈ expected)
    as (Hid0 & Hk0 & Hs0).
  { split; [|by split]. by rewrite He. }
  split; [|split_and!].
  - intros Hfw. transitivity (set_journal (update_where (by_key mw_logical_request_id id)
      (set_outcome text ev dt now ep') (rt_journal db)) db); [|by apply quiet_evolves].
    apply (update_journal_evolves _ target); [done|]. intros row' Hin' Hk'%bool_decide_eq_true.
    assert (row' = row) as -> by (apply (keyed_unique mw_logical_request_id (rt_journal db)); [apply Hok|done..|congruence]).
    apply Hfw. rewrite He in Hs0. done.
  - done.
  - done.
  - exists (entry_of r0). split_and!; try done. rewrite He. by apply list_elem_of_fmap_2.
  - unfold journal_entries. destruct Ha as [_ ->]. simpl. apply entries_update.
    + by intros row' _.
    + intros row'. by apply set_outcome_entry.
Qed.

Lemma insert_effect rec db db' r :
  db_ok db → insert_mutation rec db = (db', r) →
  evolves db db' ∧
  match r with
  | Err _ => db' = db
  | Ok _ => (∀ e, e ∈ journal_entries db → je_id e ≠ mr_logical_request_id rec)
            ∧ journal_entries db' = journal_entries db ++ [entry_of rec]
  end.
Proof.
  intros Hok H. pose proof (reflexivity db : evolves db db) as Hrefl.
  unfold insert_mutation, check_epoch in H. unfold st_bind at 1 in H.
  destruct (verify_epoch _ _ _); [|by simplify_eq]. unfold st_lift in H.
  unfold st_bind at 1 in H. destruct (encode (mr_request_evidence rec)); [|by simplify_eq].
  unfold st_bind at 1 in H. destruct (encode_option _); [|by simplify_eq].
  unfold st_bind at 1 in H. destruct (encode (mr_kind rec)); [|by simplify_eq].
  unfold st_bind at 1 in H. destruct (encode (mr_state rec)) as [text|] eqn:Ht; [|by simplify_eq].
  apply encode_Ok in Ht.
  unfold st_bind at 1 in H. destruct (to_i64 _) as [ep|]; [|by simplify_eq].
  unfold st_bind, st_get in H. destruct (_ || _) eqn:Hg; [unfold st_fail in H; by simplify_eq|].
  unfold st_put in H. injection H as <- <-. prop_tests.
  assert (mr_logical_request_id rec ∉ mw_logical_request_id <$> rt_journal db) as Hfresh.
  { apply find_by_key_None, find_None_iff. by apply existsb_false. }
  assert (∀ row, mw_state row = text → state_of row = mr_state rec) as Hst.
  { intros row Hrow. apply state_of_text. by rewrite Hrow. }
  split.
  - intros [Hi Hep Hj Hs]. split_and!.
    + constructor; simpl; try done; [by apply keyed_snoc|].
      apply Forall_app. split; [done|]. constructor; [|constructor]. by exists (mr_state rec).
    + done.
    + intros e He. exists e. unfold journal_entries in *. simpl. rewrite fmap_app. set_solver.
  - split.
    + intros e (row & -> & Hin)%list_elem_of_fmap Heq. apply Hfresh. simpl in Heq. rewrite <-Heq.
      by apply list_elem_of_fmap_2.
    + unfold journal_entries. simpl. rewrite fmap_app. f_equal. simpl. unfold row_entry, entry_of. simpl.
      by rewrite Hst.
Qed.

(** *** Committing a reconciliation *)

Lemma in_states_pending states row :
  (∃ s : JournalState, to_text s = Some (mw_state row)) → unresolved_states = Ok states →
  in_states states row = Journal.safety_unresolved (state_of row).
Proof.
  intros [s Hs]. rewrite (state_of_text _ _ Hs). unfold unresolved_states.
  destruct (encode Journal.Dispatching) as [t1|] eqn:H1; [|done].
  destruct (encode Journal.UnknownAfterDispatch) as [t2|] eqn:H2; [|done].
  apply encode_Ok in H1, H2. intros [= <-]. unfold in_states. simpl. rewrite orb_false_r.
  assert (∀ (s' : JournalState) t, to_text s' = Some t → bool_decide (mw_state row = t) = bool_decide (s = s')) as Heq.
  { intros s' t Ht. apply bool_decide_ext. split; [|congruence].
    intros <-. apply from_to_text in Hs, Ht. congruence. }
  rewrite (Heq _ _ H1), (Heq _ _ H2). by destruct s.
Qed.

Lemma pending_row_entry k id states row :
  (∃ s : JournalState, to_text s = Some (mw_state row)) → unresolved_states = Ok states →
  pending_row k id states row = by_key je_id id (row_entry row) && pending k (row_entry row).
Proof.
  intros Hs Hst. unfold pending_row, pending, by_key. simpl.
  rewrite (in_states_pending states row Hs Hst). by rewrite andb_assoc.
Qed.

Lemma commit_record_effect cp rec db db' r :
  db_ok db → commit_record cp rec db = (db', r) →
  evolves db db' ∧
  (r = Ok tt → journal_entries db' =
     settle_entry (cp_scope_key cp) (journal_entries db) (mr_logical_request_id rec)).
Proof.
  intros Hok H. pose proof (reflexivity db : evolves db db) as Hrefl. unfold commit_record in H.
  destruct (negb _ || negb _) eqn:Hg; [unfold st_fail in H; by simplify_eq|]. prop_tests.
  unfold st_lift in H.
  unfold st_bind at 1 in H. destruct (encode_option _) as [dt|]; [|by simplify_eq].
  unfold st_bind at 1 in H. destruct (encode (mr_state rec)) as [text|] eqn:Ht; [|by simplify_eq].
  unfold st_bind at 1 in H. destruct (to_i64 _) as [ep|]; [|by simplify_eq].
  unfold st_bind at 1 in H. destruct unresolved_states as [states|] eqn:Hst; [|by simplify_eq].
  unfold st_bind at 1, st_get in H. unfold st_bind at 1, st_put in H.
  apply encode_Ok in Ht.
  match goal with Hr : mr_state rec = _ |- _ => rewrite Hr in Ht end.
  set (p := pending_row (cp_scope_key cp) (mr_logical_request_id rec) states) in H.
  assert (∀ row, row ∈ rt_journal db →
    p row = by_key je_id (mr_logical_request_id rec) (row_entry row) && pending (cp_scope_key cp) (row_entry row))
    as Hp.
  { intros row Hin. apply pending_row_entry; [|done]. destruct Hok as [_ _ _ Hs].
    rewrite Forall_forall in Hs. by apply Hs. }
  assert (evolves db (set_journal (update_where p (set_outcome text (mr_broker_evidence_ref rec) dt
    (mr_updated_at_unix_ms rec) ep) (rt_journal db)) db)) as Hev.
  { apply (update_journal_evolves _ Journal.Reconciled); [done|]. intros row Hin Hpr.
    rewrite Hp in Hpr by done. apply andb_true_iff in Hpr as [_ Hpe]. unfold pending in Hpe.
    apply andb_true_iff in Hpe as [_ Hpe]. simpl in Hpe. by destruct (state_of row). }
  destruct (negb _); [unfold st_fail in H; simplify_eq; done|].
  apply insert_audit_quiet in H as Hq. split; [by etrans; [|apply quiet_evolves]|].
  intros ->. unfold journal_entries, settle_entry. destruct Hq as [_ ->]. simpl.
  apply entries_update; [done|]. intros row. by apply set_outcome_entry.
Qed.

Lemma commit_records_effect cp recs db db' r :
  db_ok db → for_each (commit_record cp) recs db = (db', r) →
  evolves db db' ∧
  (r = Ok tt → journal_entries db' =
     fold_left (settle_entry (cp_scope_key cp)) (mr_logical_request_id <$> recs) (journal_entries db)).
Proof.
  revert db. induction recs as [|rec recs IH]; simpl; intros db Hok H.
  - unfold st_ret in H. by simplify_eq.
  - apply st_bind_cases in H as [(e & H & ->)|(db1 & [] & H1 & H2)].
    + destruct (commit_record_effect _ _ _ _ _ Hok H) as [Hev _]. by split.
    + destruct (commit_record_effect _ _ _ _ _ Hok H1) as [Hev Hent].
      destruct (Hev Hok) as [Hok1 _]. destruct (IH _ Hok1 H2) as [Hev2 Hent2].
      split; [by etrans|]. intros ->. by rewrite Hent2, Hent.
Qed.

Lemma update_lease_journal k e f db db' r :
  update_lease k e f db = (db', r) → rt_journal db' = rt_journal db.
Proof. intros H. unfold update_lease in H. st_unfold. simpl in H. by simplify_eq. Qed.

Lemma commit_effect cp recs links state why db db' r :
  db_ok db → commit_reconciliation cp recs links state why db = (db', r) →
  evolves db db' ∧
  match r with
  | Err _ => db' = db
  | Ok _ => journal_entries db' =
      fold_left (settle_entry (cp_scope_key cp)) (mr_logical_request_id <$> recs) (journal_entries db)
  end.
Proof.
  intros Hok H. pose proof (reflexivity db : evolves db db) as Hrefl.
  unfold commit_reconciliation, transaction in H.
  destruct (st_bind _ _ db) as [db1 [[]|e]] eqn:Hb; simplify_eq; [|done].
  apply st_bind_Ok in Hb as (s & [] & Hc & Hb). unfold check_epoch in Hc. injection Hc as <- _.
  apply st_bind_Ok in Hb as (s1 & [] & H1 & Hb).
  destruct (commit_records_effect _ _ _ _ _ Hok H1) as [Hev1 Hent1]. specialize (Hent1 eq_refl).
  apply st_bind_Ok in Hb as (s2 & [] & H2 & Hb).
  apply (for_each_effect quiet) in H2; [|intros ?; apply upsert_links_quiet].
  unfold st_lift in Hb. unfold st_bind at 1 in Hb. destruct (to_i64 _) as [ep|]; [|done].
  unfold st_bind at 1, st_get in Hb. unfold st_bind at 1, st_put in Hb.
  unfold st_bind at 1 in Hb. destruct (encode state) as [t1|]; [|done].
  unfold st_bind at 1 in Hb. destruct (encode why) as [t2|]; [|done].
  apply st_bind_Ok in Hb as (s3 & [] & H3 & H4). apply insert_audit_quiet in H4.
  pose proof (update_lease_journal _ _ _ _ _ _ H3) as J3. simpl in J3.
  apply (update_lease_evolves _ _ _ (set_last_keeps _ _)) in H3. split.
  - etrans; [exact Hev1|]. etrans; [exact (quiet_evolves _ _ H2)|].
    etrans; [|exact (quiet_evolves _ _ H4)]. etrans; [|exact H3]. by apply quiet_evolves.
  - rewrite <-Hent1. unfold journal_entries. destruct H4 as [_ ->]. rewrite J3. by destruct H2 as [_ ->].
Qed.

Lemma release_evolves k e now : st_effect evolves (release_ownership k e now).
Proof.
  apply (effect_transaction evolves). apply (effect_bind evolves); [apply (effect_lift evolves)|intros ?].
  apply (effect_bind evolves); [apply (effect_lift evolves)|intros ?].
  apply (effect_bind evolves); [apply (effect_lift evolves)|intros ?].
  apply (effect_bind evolves); [by apply update_lease_evolves, release_row_keeps|intros _].
  apply effect_quiet_evolves, insert_audit_quiet.
Qed.

Lemma record_transition_evolves t : st_effect evolves (record_transition t).
Proof.
  apply (effect_transaction evolves). apply (effect_bind evolves); [apply (check_epoch_effect evolves)|intros _].
  apply (effect_bind evolves); [apply (effect_lift evolves)|intros ?].
  apply (effect_bind evolves); [apply (effect_lift evolves)|intros ?].
  apply (effect_bind evolves); [apply (effect_lift evolves)|intros ?].
  apply (effect_bind evolves); [by apply update_lease_evolves, set_last_keeps|intros _].
  apply effect_quiet_evolves, insert_audit_quiet.
Qed.

(** ** The store obeys the laws of its interface *)

Lemma journal_entries_keyed db : db_ok db → keyed je_id (journal_entries db).
Proof. intros Hok. unfold keyed, journal_entries. rewrite <-list_fmap_compose. apply Hok. Qed.

Lemma unresolved_entries db k l :
  db_ok db → unresolved_mutations db k = Ok l →
  ∀ e, e ∈ entry_of <$> l ↔ e ∈ journal_entries db ∧ pending k e = true.
Proof.
  intros Hok H e. unfold unresolved_mutations in H.
  destruct unresolved_states as [states|] eqn:Hst; [|done].
  assert (∀ row, row ∈ rt_journal db →
    bool_decide (mw_scope_key row = k) && in_states states row = pending k (row_entry row)) as Hp.
  { intros row Hin. destruct Hok as [_ _ _ Hs]. rewrite Forall_forall in Hs.
    unfold pending. simpl. by rewrite (in_states_pending _ _ (Hs _ Hin) Hst). }
  assert (∀ row, row ∈ order_by mutation_order (List.filter (λ row, bool_decide (mw_scope_key row = k)
    && in_states states row) (rt_journal db)) ↔ row ∈ rt_journal db ∧ pending k (row_entry row) = true) as Hrow.
  { intros row. rewrite order_by_perm, list_elem_of_In, List.filter_In, <-list_elem_of_In.
    split; intros [Hin Hq]; (split; [done|]); by rewrite Hp in *. }
  rewrite list_elem_of_fmap. split.
  - intros (m & -> & Hm). apply (elem_of_collect _ _ _ _ H) in Hm as (row & Hin & Hr).
    apply mutation_from_row_Ok in Hr as [-> _]. apply Hrow in Hin as [Hin Hq].
    split; [by apply list_elem_of_fmap_2|done].
  - intros [(row & -> & Hin)%list_elem_of_fmap Hq].
    destruct (collect_read _ _ _ row H) as (m & Hm & Hmem); [by apply Hrow|].
    exists m. split; [|done]. by apply mutation_from_row_Ok in Hm as [-> _].
Qed.

#[export] Instance SqliteRuntimeStore_laws : RuntimeStoreLaws RuntimeDb.
Proof.
  refine {| journal_inv := db_ok; entries := journal_entries |}; simpl.
  - apply journal_entries_keyed.
  - apply unresolved_entries.
  - intros d d' cp resolved links state why Hok H.
    destruct (commit_effect _ _ _ _ _ _ _ _ Hok H) as [Hev Hent]. by destruct (Hev Hok).
  - intros d d' cp resolved links state why e Hok H.
    by destruct (commit_effect _ _ _ _ _ _ _ _ Hok H) as [_ ->].
  - intros d d' k ep r Hok H. pose proof (discard_quiet _ _ _ _ _ H) as Hq.
    split; [by apply (quiet_evolves _ _ Hq)|]. unfold journal_entries. by destruct Hq as [_ ->].
  - intros d d' k ev now r Hok H. pose proof (event_quiet _ _ _ _ _ _ H) as Hq.
    split; [by apply (quiet_evolves _ _ Hq)|]. unfold journal_entries. by destruct Hq as [_ ->].
  - intros d d' k a n m r Hok H. pose proof (compact_quiet _ _ _ _ _ _ _ H) as Hq.
    split; [by apply (quiet_evolves _ _ Hq)|]. unfold journal_entries. by destruct Hq as [_ ->].
Defined.
End laws.

(** ** Every call a runtime makes

    The operations as the coordinator and the reconciler call them: a mutation is
    journalled as prepared, its outcome is recorded on an UNKNOWN entry only. *)

Inductive call :=
| Acquire (scope : RuntimeScope) (owner_id : string) (now : Z)
| Release (scope_key : string) (epoch now : Z)
| RecordTransition (t : StateTransition)
| Prepare (record : MutationRecord)
| Claim (scope_key id : string) (epoch now : Z)
| Finish (scope_key id : string) (target : JournalState) (evidence_ref : option string)
    (disposition : option ReconciliationDisposition) (epoch now : Z)
| Link (scope_key : string) (links : BrokerIdentityLinks) (epoch now : Z)
| Discard (scope_key : string) (epoch : Z)
| Commit (checkpoint : ReconciliationCheckpoint) (resolved : list MutationRecord)
    (links : list BrokerIdentityLinks) (state : RuntimeState) (why : ReasonCode)
| Event (scope_key : string) (event : BrokerEvent) (now : Z)
| Expect (e : DerivedPositionExpectation)
| Audit (record : RuntimeAuditRecord)
| Compact (scope_key : string) (retain_after max_events max_audit : Z).

(** The scope and epoch a call is made under; taking ownership makes its own epoch
    and compaction carries none. *)
Definition made_under (c : call) : option (string * Z) :=
  match c with
  | Acquire _ _ _ | Compact _ _ _ _ => None
  | Release k e _ | Claim k _ e _ | Finish k _ _ _ _ e _ | Link k _ e _ | Discard k e => Some (k, e)
  | RecordTransition t => Some (tr_scope_key t, tr_runtime_epoch t)
  | Prepare r => Some (mr_scope_key r, mr_runtime_epoch r)
  | Commit cp _ _ _ _ => Some (cp_scope_key cp, cp_runtime_epoch cp)
  | Event k ev _ => Some (k, be_runtime_epoch ev)
  | Expect e => Some (dp_scope_key e, dp_runtime_epoch e)
  | Audit r => Some (ra_scope_key r, ra_runtime_epoch r)
  end.

Definition legal (c : call) : Prop :=
  match c with
  | Prepare r => mr_state r = Journal.NotDispatched
  | Finish _ _ target _ _ _ _ => progress target ≠ 0
  | _ => True
  end.

Section calls.
Context `{!Serde Provider} `{!Serde RuntimeEnvironment} `{!Serde RuntimeState} `{!Serde ReasonCode}
  `{!Serde MutationKind} `{!Serde JournalState} `{!Serde MutationEvidence}
  `{!Serde ReconciliationDisposition} `{!Serde BrokerEventClass}.

Definition run_call (c : call) : st RuntimeDb StoreError () :=
  match c with
  | Acquire scope owner now => acquire_ownership scope owner now ;;; st_ret tt
  | Release k e now => release_ownership k e now
  | RecordTransition t => record_transition t
  | Prepare r => insert_mutation r
  | Claim k id e now => claim_dispatch_unknown k id e now ;;; st_ret tt
  | Finish k id target ev d e now =>
      transition_mutation k id [Journal.UnknownAfterDispatch] target ev d e now ;;; st_ret tt
  | Link k links e now => upsert_identity_links k links e now
  | Discard k e => discard_checkpoint k e
  | Commit cp rs ls s why => commit_reconciliation cp rs ls s why
  | Event k ev now => record_broker_event k ev now ;;; st_ret tt
  | Expect e => set_expected_position e
  | Audit r => append_audit r
  | Compact k a n m => compact k a n m
  end.

(** One call, whatever its result. *)
Definition journal_step (db db' : RuntimeDb) : Prop := ∃ c, legal c ∧ fst (run_call c db) = db'.

Context `{!SerdeLaws JournalState}.

Lemma forward_claim : forward [Journal.NotDispatched] Journal.UnknownAfterDispatch.
Proof. by intros s ->%list_elem_of_singleton. Qed.

Lemma forward_finish target : progress target ≠ 0 → forward [Journal.UnknownAfterDispatch] target.
Proof. intros Ht s ->%list_elem_of_singleton. split; [|done]. by destruct target. Qed.

(** Forgetting the result of a call keeps its effect. *)
Lemma void_effect {A} (m : st RuntimeDb StoreError A) db db' r :
  (m ;;; st_ret tt) db = (db', r) → ∃ r', m db = (db', r').
Proof.
  intros [[e H]|(s1 & a & H & Hr)]%st_bind_inv; [eauto|].
  unfold st_ret in Hr. injection Hr as <- _. eauto.
Qed.

Lemma run_call_evolves c db : legal c → evolves db (fst (run_call c db)).
Proof.
  intros Hl. destruct (run_call c db) as [db' r] eqn:H. simpl.
  destruct c; cbn [run_call legal] in H, Hl.
  - apply void_effect in H as [r' H]. intros Hok. by eapply acquire_effect.
  - by eapply release_evolves.
  - by eapply record_transition_evolves.
  - intros Hok. by destruct (insert_effect _ _ _ _ Hok H) as [Hev _]; apply Hev.
  - apply void_effect in H as [r' H]. intros Hok.
    by apply (transition_effect _ _ _ _ _ _ _ _ _ _ _ Hok H); [apply forward_claim|].
  - apply void_effect in H as [r' H]. intros Hok.
    by apply (transition_effect _ _ _ _ _ _ _ _ _ _ _ Hok H); [apply forward_finish|].
  - by eapply quiet_evolves, upsert_identity_quiet.
  - by eapply quiet_evolves, discard_quiet.
  - intros Hok. by destruct (commit_effect _ _ _ _ _ _ _ _ Hok H) as [Hev _]; apply Hev.
  - apply void_effect in H as [r' H]. by eapply quiet_evolves, event_quiet.
  - by eapply quiet_evolves, expected_quiet.
  - by eapply quiet_evolves, append_audit_quiet.
  - by eapply quiet_evolves, compact_quiet.
Qed.

Lemma run_evolves db db' : rtc journal_step db db' → evolves db db'.
Proof.
  induction 1 as [db|db1 db2 db3 (c & Hl & <-) _ IH]; [done|].
  etrans; [by apply run_call_evolves|done].
Qed.

(** A call is accepted under the scope's current epoch only. *)
Lemma verify_epoch_current db k e :
  db_ok db → verify_epoch db k e = Ok tt → epoch_of db k = e.
Proof.
  intros Hok. unfold verify_epoch. destruct (to_i64 e) as [e'|] eqn:He; [|done].
  apply to_i64_Ok in He as [-> _]. unfold count.
  destruct (List.filter _ _) as [|row rows] eqn:Hf; simpl; [done|]. intros _.
  assert (row ∈ List.filter (leased k e) (rt_instances db)) as Hin by (rewrite Hf; set_solver).
  rewrite list_elem_of_In in Hin. apply List.filter_In in Hin as [Hin Hl]. rewrite <-list_elem_of_In in Hin.
  apply andb_true_iff in Hl as [[Hk He]%andb_true_iff _].
  apply bool_decide_eq_true in Hk. apply Z.eqb_eq in He. unfold epoch_of.
  by rewrite (keyed_find in_scope_key k _ row) by (done || apply Hok).
Qed.

Lemma stale_check db k e :
  db_ok db → 0 ≤ e < epoch_of db k → verify_epoch db k e = Err StaleEpoch.
Proof.
  intros Hok He. destruct (verify_epoch db k e) as [[]|err] eqn:Hv.
  - apply (verify_epoch_current _ _ _ Hok) in Hv. lia.
  - unfold verify_epoch in Hv. destruct (to_i64 e) as [e'|] eqn:Hi.
    + destruct (_ =? 1); by simplify_eq.
    + unfold to_i64 in Hi. destruct (e <=? int_max I64) eqn:Hm; [done|].
      unfold epoch_of in He. destruct (List.find _ _) as [row|] eqn:Hf; simpl in He; [|lia].
      apply find_by_key in Hf as [Hin _]. destruct Hok as [_ Hep _ _].
      rewrite Forall_forall in Hep. specialize (Hep _ Hin). lia.
Qed.

Lemma update_lease_stale db k e f :
  db_ok db → 0 ≤ e < epoch_of db k → snd (update_lease k e f db) = Err StaleEpoch.
Proof.
  intros Hok He. pose proof (stale_check _ _ _ Hok He) as Hs. unfold verify_epoch in Hs.
  destruct (to_i64 e) as [e'|] eqn:Hi; [apply to_i64_Ok in Hi as [-> _]|].
  - unfold update_lease. st_unfold. simpl. unfold changed_one. by destruct (_ =? 1).
  - unfold to_i64 in Hi. destruct (e <=? _); by simplify_eq.
Qed.

Lemma stale_call c k e db :
  db_ok db → made_under c = Some (k, e) → 0 ≤ e < epoch_of db k →
  ∃ err, run_call c db = (db, Err err).
Proof.
  intros Hok Hu He. pose proof (stale_check _ _ _ Hok He) as Hs.
  destruct c; simpl in Hu; simplify_eq; cbn [run_call];
    try (eexists; unfold claim_dispatch_unknown, transition_mutation, record_transition, insert_mutation,
           upsert_identity_links, discard_checkpoint, commit_reconciliation, record_broker_event,
           set_expected_position, append_audit, transaction, check_epoch, st_bind;
         rewrite Hs; reflexivity).
  unfold release_ownership, transaction.
  destruct (st_bind _ _ db) as [db' [[]|err]] eqn:Hb; [|by eexists].
  unfold st_lift in Hb. unfold st_bind at 1 in Hb. destruct (to_i64 e) as [e'|] eqn:Hi; [|done].
  apply to_i64_Ok in Hi as [-> _].
  do 2 (unfold st_bind at 1 in Hb; destruct (encode _); [|done]).
  apply st_bind_Ok in Hb as (s1 & [] & Hb & _).
  match type of Hb with update_lease ?k ?e ?f ?db = _ =>
    pose proof (update_lease_stale db k e f Hok He) as Hst end.
  by rewrite Hb in Hst.
Qed.

(** ** Properties *)

(** C36. A runtime that lost its scope is fenced out: once ownership is taken again,
    then in every journal that any sequence of calls, failed ones included, can
    reach, each call made for the scope under an older epoch fails and writes
    nothing, and no two epochs of a scope are accepted at once. *)
Theorem stale_owner_fenced scope owner now db db1 db2 e :
  db_ok db → acquire_ownership scope owner now db = (db1, Ok e) → rtc journal_step db1 db2 →
  epoch_of db (scope_key scope) < e ∧
  (∀ c e', made_under c = Some (scope_key scope, e') → 0 ≤ e' < e →
     ∃ err, run_call c db2 = (db2, Err err)) ∧
  (∀ k a b, verify_epoch db2 k a = Ok tt → verify_epoch db2 k b = Ok tt → a = b).
Proof.
  intros Hok Ha Hrun. destruct (acquire_effect _ _ _ _ _ _ Hok Ha) as [Hev He].
  destruct (He e eq_refl) as [-> He1]. destruct (Hev Hok) as [Hok1 _].
  destruct (run_evolves _ _ Hrun Hok1) as (Hok2 & Hmono & _). specialize (Hmono (scope_key scope)).
  split_and!; [lia| |].
  - intros c e' Hu He'. apply (stale_call _ _ _ _ Hok2 Hu). lia.
  - intros k a b Hva Hvb. apply (verify_epoch_current _ _ _ Hok2) in Hva, Hvb. congruence.
Qed.

(** C35. The dispatch fence is passed at most once: after a claim of a mutation
    succeeds, its entry reads UNKNOWN_AFTER_DISPATCH, and in every journal reachable
    afterwards no claim of that identity, by any owner of any scope, succeeds and
    no second mutation can be journalled under it. *)
Theorem journal_claim_at_most_once k id ep now db db1 db2 r :
  db_ok db → claim_dispatch_unknown k id ep now db = (db1, Ok r) → rtc journal_step db1 db2 →
  mr_state r = Journal.UnknownAfterDispatch ∧
  {| je_id := id; je_scope := k; je_state := Journal.UnknownAfterDispatch |} ∈ journal_entries db1 ∧
  (∀ k' ep' now', ∃ err, claim_dispatch_unknown k' id ep' now' db2 = (db2, Err err)) ∧
  (∀ record, mr_logical_request_id record = id →
     ∃ err, insert_mutation record db2 = (db2, Err err)).
Proof.
  intros Hok H Hrun.
  destruct (transition_effect _ _ _ _ _ _ _ _ _ _ _ Hok H) as [Hev (Hid & Hst & (e & Hin & Hie & Hke & Hse) & Hent)].
  destruct (Hev forward_claim Hok) as [Hok1 _].
  assert (set_entry Journal.UnknownAfterDispatch e ∈ journal_entries db1) as Hin1.
  { rewrite Hent. apply elem_of_update_where. exists e. split; [done|].
    unfold by_key. by rewrite bool_decide_eq_true_2. }
  destruct (run_evolves _ _ Hrun Hok1) as (Hok2 & _ & Hj).
  destruct (Hj _ Hin1) as (e2 & Hin2 & Hid2 & _ & Hp2 & _). simpl in Hid2, Hp2.
  split_and!; [done| | |].
  - by rewrite <-Hie, <-Hke.
  - intros k' ep' now'. destruct (claim_dispatch_unknown k' id ep' now' db2) as [db3 [r3|err]] eqn:Hc.
    + destruct (transition_effect _ _ _ _ _ _ _ _ _ _ _ Hok2 Hc) as [_ (_ & _ & (e3 & Hin3 & Hie3 & _ & Hse3) & _)].
      apply list_elem_of_singleton in Hse3.
      assert (e3 = e2) as -> by (apply (keyed_unique je_id (journal_entries db2));
        [by apply journal_entries_keyed|done..|congruence]).
      rewrite Hse3 in Hp2. simpl in Hp2. lia.
    + exists err. by destruct (transition_effect _ _ _ _ _ _ _ _ _ _ _ Hok2 Hc) as [_ ->].
  - intros record Hrec. destruct (insert_mutation record db2) as [db3 [[]|err]] eqn:Hi;
      destruct (insert_effect _ _ _ _ Hok2 Hi) as [_ Hr].
    + destruct Hr as [Hfresh _]. destruct (Hfresh _ Hin2). congruence.
    + exists err. by rewrite Hr.
Qed.

(** The journal only moves forward: through any sequence of calls every entry
    keeps its identity and scope, never returns to an earlier phase (prepared, in
    doubt, settled), is final once settled, and the epoch of no scope decreases. *)
Theorem journal_moves_forward db db' :
  db_ok db → rtc journal_step db db' →
  db_ok db' ∧ (∀ k, epoch_of db k ≤ epoch_of db' k) ∧
  ∀ e, e ∈ journal_entries db → ∃ e', e' ∈ journal_entries db' ∧ advanced e e'.
Proof. intros Hok Hrun. by apply run_evolves. Qed.
End calls.

(** ** A concrete run

    Serialisers for the values the run uses, and a journal in which one owner
    prepared and claimed a mutation. *)
Module JournalSample.
Definition order_evidence : MutationEvidence := {|
  ev_command_kind := Kind.PostOrder; ev_instrument_ref := Some "instrument-1";
  ev_quantity_lots := Some 1; ev_price_present := true; ev_protection_kind := None |}.

#[export] Instance provider_serde : Serde Provider := {|
  to_text _ := Some "TINVEST"; from_text _ := Some TInvest |}.
#[export] Instance environment_serde : Serde RuntimeEnvironment := {|
  to_text e := Some (environment_debug e); from_text _ := Some SandboxEnv |}.
#[export] Instance state_serde : Serde RuntimeState := table_serde
  [Rt.Starting; Rt.Connecting; Rt.Reconciling; Rt.Ready; Rt.Degraded; Rt.Halted; Rt.Stopping; Rt.Stopped].
#[export] Instance reason_serde : Serde ReasonCode := table_serde
  [Why.Startup; Why.UnknownMutation; Why.ReconciliationComplete; Why.ShutdownComplete;
   Why.BrokerOrderConflict; Why.Connecting; Why.ReconciliationStarted; Why.PersistenceFailure].
#[export] Instance kind_serde : Serde MutationKind := table_serde [Kind.PostOrder; Kind.CancelOrder].
#[export] Instance journal_serde : Serde JournalState := table_serde
  [Journal.NotDispatched; Journal.Dispatching; Journal.Acknowledged; Journal.Rejected;
   Journal.UnknownAfterDispatch; Journal.Reconciled].
#[export] Instance journal_serde_laws : SerdeLaws JournalState := table_serde_laws _.
#[export] Instance evidence_serde : Serde MutationEvidence := table_serde [order_evidence].
#[export] Instance disposition_serde : Serde ReconciliationDisposition := table_serde
  [Disp.OrderAccepted; Disp.OrderFilled; Disp.OrderCancelled].
#[export] Instance class_serde : Serde BrokerEventClass := table_serde [EventCls.Fill; EventCls.Order].

Definition scope : RuntimeScope := {|
  sc_provider := TInvest; sc_environment := SandboxEnv; sc_broker_account_id := "account-1";
  sc_connection_ref := "connection:1"; sc_credential_ref := "credential-1" |}.

Definition record : MutationRecord := {|
  mr_scope_key := scope_key scope; mr_logical_request_id := "request-1"; mr_kind := Kind.PostOrder;
  mr_state := Journal.NotDispatched; mr_request_evidence := order_evidence; mr_broker_evidence_ref := None;
  mr_correlation_id := "correlation-1"; mr_reconciliation_disposition := None;
  mr_created_at_unix_ms := 10; mr_updated_at_unix_ms := 10; mr_runtime_epoch := 1 |}.

Definition owned : RuntimeDb := fst (run_call (Acquire scope "owner-1" 5) empty_journal).
Definition prepared_db : RuntimeDb := fst (run_call (Prepare record) owned).
Definition claimed : RuntimeDb := fst (run_call (Claim (scope_key scope) "request-1" 1 20) prepared_db).
Definition reowned : RuntimeDb := fst (run_call (Acquire scope "owner-2" 30) claimed).

Lemma ok_of c db : db_ok db → legal c → db_ok (fst (run_call c db)).
Proof. intros Hok Hl. by apply (run_call_evolves c db Hl Hok). Qed.

Lemma owned_ok : db_ok owned.
Proof. by apply ok_of; [apply empty_journal_ok|]. Qed.
Lemma prepared_db_ok : db_ok prepared_db.
Proof. by apply ok_of; [apply owned_ok|]. Qed.
Lemma claimed_ok : db_ok claimed.
Proof. by apply ok_of; [apply prepared_db_ok|]. Qed.

(** The journal after the claim holds the one UNKNOWN entry. *)
Example claimed_entries : journal_entries claimed =
  [{| je_id := "request-1"; je_scope := scope_key scope; je_state := Journal.UnknownAfterDispatch |}].
Proof. reflexivity. Qed.

(** A commit stores the evidence text of a settled mutation as it is given, while
    every read validates it: evidence that a read refuses hides the mutation. *)
Definition opaque_cursor : MutationRecord :=
  with_outcome Journal.Reconciled (Some "GetOperationsByCursor cursor=token=1")
    (Some Disp.OrderAccepted) 50 1 record.

Definition checkpoint : ReconciliationCheckpoint := {|
  cp_scope_key := scope_key scope; cp_reconciliation_id := "reconciliation-1";
  cp_operations_cursor := None; cp_snapshot_observed_at_unix_ms := 50; cp_completed_at_unix_ms := 50;
  cp_runtime_epoch := 1; cp_accounts_complete := true; cp_portfolio_complete := true;
  cp_positions_complete := true; cp_orders_complete := true; cp_stops_complete := true;
  cp_operations_complete := true |}.

Lemma commit_stores_unreadable_evidence :
  let '(db, res) := run_call (Commit checkpoint [opaque_cursor] [] Rt.Reconciling
                                Why.ReconciliationComplete) claimed in
  res = Ok tt ∧ mutation db (scope_key scope) "request-1" = Err (Persistence "column conversion")
  ∧ mutations db (scope_key scope) = Err (Persistence "column conversion").
Proof. vm_compute. auto. Qed.
End JournalSample.
Import JournalSample.

Lemma stale_owner_fenced_witness :
  ∃ err, run_call (Finish (scope_key scope) "request-1" Journal.Acknowledged None None 1 40) reowned
         = (reowned, Err err).
Proof.
  destruct (stale_owner_fenced scope "owner-2" 30 claimed reowned reowned 2) as (_ & H & _).
  - exact claimed_ok.
  - reflexivity.
  - reflexivity.
  - apply (H _ 1); [reflexivity|lia].
Defined.

Lemma journal_claim_at_most_once_witness :
  ∃ err, claim_dispatch_unknown (scope_key scope) "request-1" 2 40 reowned = (reowned, Err err).
Proof.
  destruct (claim_dispatch_unknown (scope_key scope) "request-1" 1 20 prepared_db) as [db1 [r|e]] eqn:H;
    [|discriminate H].
  assert (db1 = claimed) as -> by (injection H as <- _; reflexivity).
  apply (journal_claim_at_most_once _ _ _ _ _ _ reowned _ prepared_db_ok H).
  apply rtc_once. by exists (Acquire scope "owner-2" 30).
Defined.

Lemma journal_moves_forward_witness :
  db_ok reowned ∧ (∀ k, epoch_of claimed k ≤ epoch_of reowned k) ∧
  ∀ e, e ∈ journal_entries claimed → ∃ e', e' ∈ journal_entries reowned ∧ advanced e e'.
Proof.
  apply journal_moves_forward; [exact claimed_ok|].
  apply rtc_once. by exists (Acquire scope "owner-2" 30).
Defined.
