(* ===== verification/RuntimeReconcile.v ===== *)
(** * Broker reconciliation: [crates/vox-runtime/src/reconcile.rs]

    A reconciliation reads the broker's whole state, tries to settle every mutation
    whose outcome is unknown from authoritative evidence, compares the two sides
    and commits the result to the journal.  The model runs over a pair of states,
    the broker's and the store's; the clock reading and the reconciliation uuid are
    arguments.  The four reads joined by [try_join!] run in the order written, the
    first error ending the reconciliation as there; metrics, sleeps between retries
    and their jitter have no effect on either state and are left out. *)
From S2P Require Import Prelude Domain RuntimeModel RuntimePorts RuntimeJournal.

Definition OPERATIONS_PAGE_LIMIT : Z := 1000.
Definition MAX_OPERATION_PAGES : nat := 100.
Definition MAX_UNRESOLVED_MUTATIONS : Z := 256.
Definition HISTORY_WINDOW_MS : Z := 7 * 24 * 60 * 60 * 1000.
Definition HISTORY_OVERLAP_MS : Z := 5 * 60 * 1000.
Definition RETENTION_MS : Z := 30 * 24 * 60 * 60 * 1000.
Definition MAX_DEDUPE_EVENTS : Z := 100000.
Definition MAX_AUDIT_EVENTS : Z := 20000.

(** The two durations only pace the retries. *)
Record ReconciliationConfig := {
  rc_max_safe_read_attempts : Z;
  rc_initial_backoff : Z;
  rc_maximum_backoff : Z;
}.

Definition ReconciliationConfig_default : ReconciliationConfig := {|
  rc_max_safe_read_attempts := 3;
  rc_initial_backoff := 250 * 1000000;
  rc_maximum_backoff := 5 * 1000000000 |}.

Record ReconciliationReport := {
  rr_reconciliation_id : string;
  rr_runtime_epoch : Z;
  rr_resulting_state : RuntimeState;
  rr_reason_code : ReasonCode;
  rr_resolved_logical_request_ids : list string;
  rr_unresolved_logical_request_ids : list string;
  rr_discrepancies : list string;
  rr_position_count : Z;
  rr_active_order_count : Z;
  rr_active_stop_count : Z;
  rr_deduplicated_event_count : Z;
  rr_completed_at_unix_ms : Z;
  rr_portfolio : PortfolioFact;
  rr_positions : list PositionFact;
  rr_active_orders : list OrderFact;
  rr_active_stops : list StopFact;
  rr_snapshot_observed_at_unix_ms : Z;
}.

Inductive ReconciliationError :=
| Broker (e : BrokerPortError)
| Store (e : StoreError)
| SafetyFailure (what : string).

(** ** Evidence *)

Definition order_disposition (mutation_kind : MutationKind) (status : OrderExecutionStatus)
  : option ReconciliationDisposition :=
  match mutation_kind, status with
  | Kind.CancelOrder, OrderSt.Cancelled => Some Disp.OrderCancelled
  | Kind.CancelOrder, OrderSt.Filled => Some Disp.OrderFilled
  | Kind.CancelOrder, OrderSt.Rejected => Some Disp.OrderRejected
  | Kind.CancelOrder, _ => None
  | _, OrderSt.New => Some Disp.OrderActiveNew
  | _, OrderSt.PartiallyFilled => Some Disp.OrderActivePartial
  | _, OrderSt.Filled => Some Disp.OrderFilled
  | _, OrderSt.Cancelled => Some Disp.OrderCancelled
  | _, OrderSt.Rejected => Some Disp.OrderRejected
  | _, OrderSt.UnknownProviderStatus _ => None
  end.

Definition stop_disposition (mutation_kind : MutationKind) (status : StopExecutionStatus)
  : option ReconciliationDisposition :=
  match mutation_kind, status with
  | Kind.CancelStopOrder, StopSt.Canceled => Some Disp.StopCanceled
  | Kind.CancelStopOrder, StopSt.Executed => Some Disp.StopExecuted
  | Kind.CancelStopOrder, StopSt.Expired => Some Disp.StopExpired
  | Kind.CancelStopOrder, _ => None
  | _, StopSt.Active => Some Disp.StopActive
  | _, StopSt.Executed => Some Disp.StopExecuted
  | _, StopSt.Canceled => Some Disp.StopCanceled
  | _, StopSt.Expired => Some Disp.StopExpired
  | _, StopSt.UnknownProviderStatus _ => None
  end.

Definition order_evidence_resolves (mutation : MutationRecord) (links : BrokerIdentityLinks)
    (order : OrderFact) : bool :=
  let logical_match :=
    bool_decide (of_logical_request_id order = Some (mr_logical_request_id mutation)) in
  let original_match := bool_decide (il_broker_order_id links = Some (of_broker_order_id order)) in
  let replacement_match :=
    bool_decide (il_replacement_broker_order_id links = Some (of_broker_order_id order)) in
  match mr_kind mutation with
  | Kind.PostOrder | Kind.PostOrderAsync => logical_match || original_match
  | Kind.ReplaceOrder => logical_match || replacement_match
  | Kind.CancelOrder =>
      (original_match || replacement_match)
      && is_some (order_disposition (mr_kind mutation) (of_status order))
  | _ => false
  end.

Definition operation_evidence_resolves (mutation : MutationRecord) (links : BrokerIdentityLinks)
    (operation : OperationFact) : bool :=
  match mr_kind mutation with
  | Kind.PostOrder | Kind.PostOrderAsync =>
      bool_decide (op_logical_request_id operation = Some (mr_logical_request_id mutation))
      || bool_decide (op_broker_order_id operation = il_broker_order_id links)
         && is_some (op_broker_order_id operation)
  | _ => false
  end.

Definition stream_evidence_resolves (mutation : MutationRecord) (links : BrokerIdentityLinks)
    (event : BrokerEvent) : bool :=
  let logical_match :=
    bool_decide (be_logical_request_id event = Some (mr_logical_request_id mutation)) in
  match mr_kind mutation with
  | Kind.PostOrder | Kind.PostOrderAsync =>
      match be_event_class event with EventCls.Order | EventCls.Fill => true | _ => false end
      && (logical_match
          || bool_decide (be_broker_order_id event = il_broker_order_id links)
             && is_some (be_broker_order_id event))
  | Kind.ReplaceOrder =>
      bool_decide (be_event_class event = EventCls.Order)
      && (logical_match
          || bool_decide (be_broker_order_id event = il_replacement_broker_order_id links)
             && is_some (be_broker_order_id event))
  | Kind.PostStopOrder | Kind.ProtectionLeg =>
      bool_decide (be_event_class event = EventCls.Stop)
      && (logical_match
          || bool_decide (be_broker_stop_order_id event = il_broker_stop_order_id links)
             && is_some (be_broker_stop_order_id event))
  | Kind.CancelOrder | Kind.CancelStopOrder => false
  end.

Definition reconcile_record (record : MutationRecord) (runtime_epoch now : Z)
    (disposition : ReconciliationDisposition) (evidence : string) : MutationRecord := {|
  mr_scope_key := mr_scope_key record;
  mr_logical_request_id := mr_logical_request_id record;
  mr_kind := mr_kind record;
  mr_state := Journal.Reconciled;
  mr_request_evidence := mr_request_evidence record;
  mr_broker_evidence_ref := Some evidence;
  mr_correlation_id := mr_correlation_id record;
  mr_reconciliation_disposition := Some disposition;
  mr_created_at_unix_ms := mr_created_at_unix_ms record;
  mr_updated_at_unix_ms := now;
  mr_runtime_epoch := runtime_epoch |}.

(** The assignments to the clone of the identity links. *)
Definition link_order (kind : MutationKind) (broker_order_id : string) (l : BrokerIdentityLinks)
  : BrokerIdentityLinks := {|
  il_logical_request_id := il_logical_request_id l;
  il_broker_order_id :=
    match kind with Kind.ReplaceOrder => il_broker_order_id l | _ => Some broker_order_id end;
  il_replacement_broker_order_id :=
    match kind with
    | Kind.ReplaceOrder => Some broker_order_id
    | _ => il_replacement_broker_order_id l
    end;
  il_broker_stop_order_id := il_broker_stop_order_id l;
  il_provider_operation_ids := il_provider_operation_ids l;
  il_broker_fill_ids := il_broker_fill_ids l |}.

Definition link_stop (broker_stop_order_id : string) (l : BrokerIdentityLinks)
  : BrokerIdentityLinks := {|
  il_logical_request_id := il_logical_request_id l;
  il_broker_order_id := il_broker_order_id l;
  il_replacement_broker_order_id := il_replacement_broker_order_id l;
  il_broker_stop_order_id := Some broker_stop_order_id;
  il_provider_operation_ids := il_provider_operation_ids l;
  il_broker_fill_ids := il_broker_fill_ids l |}.

Definition link_operation (operation : OperationFact) (l : BrokerIdentityLinks)
  : BrokerIdentityLinks := {|
  il_logical_request_id := il_logical_request_id l;
  il_broker_order_id := il_broker_order_id l;
  il_replacement_broker_order_id := il_replacement_broker_order_id l;
  il_broker_stop_order_id := il_broker_stop_order_id l;
  il_provider_operation_ids :=
    match op_provider_operation_id operation with
    | Some operation_id => btree_insert operation_id (il_provider_operation_ids l)
    | None => il_provider_operation_ids l
    end;
  il_broker_fill_ids := btree_extend (il_broker_fill_ids l) (op_broker_fill_ids operation) |}.

(** ** Comparing the two sides *)

(** [!seen.insert(identity)] for some identity: one of them occurs twice. *)
Fixpoint has_duplicate (seen identities : list string) : bool :=
  match identities with
  | [] => false
  | identity :: rest => bool_decide (identity ∈ seen) || has_duplicate (identity :: seen) rest
  end.

Definition duplicate_identity (identities : list string) (detail : string) : list string :=
  if has_duplicate [] identities then [detail] else [].

(** [push] of a message under a condition. *)
Definition push_if (b : bool) (detail : string) : list string := if b then [detail] else [].

Definition flatten_options {A} (l : list (option A)) : list A := omap id l.

Definition linked_orders (links : list BrokerIdentityLinks) : list string :=
  flatten_options (links ≫= λ link, [il_broker_order_id link; il_replacement_broker_order_id link]).

Definition linked_stops (links : list BrokerIdentityLinks) : list string :=
  omap il_broker_stop_order_id links.

(** [.collect::<BTreeMap<_, _>>()] and [.get(uid).copied().unwrap_or(0)]: the last entry wins. *)
Definition position_of (positions : list PositionFact) (uid : string) : Z :=
  match List.find (by_key pf_instrument_uid uid) (reverse positions) with
  | Some p => pf_quantity_units p
  | None => 0
  end.

Definition order_discrepancies (links : list BrokerIdentityLinks) (order : OrderFact) : list string :=
  push_if (negb (bool_decide (of_broker_order_id order ∈ linked_orders links)))
    ("unfamiliar broker order preserved: " +:+ of_broker_order_id order).

Definition stop_discrepancies (links : list BrokerIdentityLinks) (positions : list PositionFact)
    (stop : StopFact) : list string :=
  push_if (negb (bool_decide (sf_broker_stop_order_id stop ∈ linked_stops links)))
    ("unfamiliar broker stop preserved: " +:+ sf_broker_stop_order_id stop)
  ++ push_if (position_of positions (sf_instrument_uid stop) =? 0)
    ("active stop " +:+ sf_broker_stop_order_id stop
     +:+ " has no broker position; preserved for operator review").

Definition expectation_discrepancies (positions : list PositionFact)
    (e : DerivedPositionExpectation) : list string :=
  push_if (negb (position_of positions (dp_instrument_uid e) =? dp_expected_quantity_units e))
    ("derived local position expectation differs for instrument " +:+ dp_instrument_uid e).

Definition account_unavailable (scope : RuntimeScope) (accounts : list BrokerAccount) : bool :=
  match List.filter (λ a, bool_decide (ba_account_id a = sc_broker_account_id scope)) accounts with
  | [a] => negb (ba_open a) || negb (ba_accessible a)
  | _ => true
  end.

Definition validate_snapshot (scope : RuntimeScope) (snapshot : BrokerSnapshot)
    (links : list BrokerIdentityLinks) (expectations : list DerivedPositionExpectation)
  : list string :=
  let foreign account_id := negb (bool_decide (account_id = sc_broker_account_id scope)) in
  push_if (account_unavailable scope (bs_accounts snapshot))
    "broker account missing, closed or inaccessible"
  ++ push_if (foreign (pt_account_id (bs_portfolio snapshot))) "portfolio account identity mismatch"
  ++ push_if (existsb (λ p, foreign (pf_account_id p)) (bs_positions snapshot))
       "position account identity mismatch"
  ++ push_if (existsb (λ o, foreign (of_account_id o)) (bs_active_orders snapshot))
       "order account identity mismatch"
  ++ push_if (existsb (λ s, foreign (sf_account_id s)) (bs_stop_orders snapshot))
       "stop account identity mismatch"
  ++ push_if (existsb (λ o, foreign (op_account_id o)) (bs_operations snapshot))
       "operation account identity mismatch"
  ++ duplicate_identity (of_broker_order_id <$> bs_active_orders snapshot)
       "duplicate active broker order identity"
  ++ duplicate_identity (sf_broker_stop_order_id <$> bs_stop_orders snapshot)
       "duplicate broker stop identity"
  ++ duplicate_identity (pf_instrument_uid <$> bs_positions snapshot)
       "duplicate broker position identity"
  ++ (List.filter (λ o, OrderSt.active (of_status o)) (bs_active_orders snapshot)
      ≫= order_discrepancies links)
  ++ (List.filter (λ s, StopSt.active (sf_status s)) (bs_stop_orders snapshot)
      ≫= stop_discrepancies links (bs_positions snapshot))
  ++ (expectations ≫= expectation_discrepancies (bs_positions snapshot)).

Definition is_empty {A} (l : list A) : bool := match l with [] => true | _ => false end.

Definition discrepancy_reason (discrepancies unresolved : list string) : ReasonCode :=
  if negb (is_empty unresolved) then Why.UnknownMutation
  else if existsb (contains "account missing, closed or inaccessible") discrepancies
       then Why.AccountUnavailable
  else if existsb (contains "position") discrepancies then Why.BrokerPositionConflict
  else if existsb (contains "order") discrepancies then Why.BrokerOrderConflict
  else if existsb (contains "stop") discrepancies then Why.BrokerStopConflict
  else if is_empty discrepancies then Why.ReconciliationComplete
  else Why.ReconciliationIncomplete.

(** ** Settling one mutation *)

Definition existing_links_for (existing_links : list BrokerIdentityLinks) (mutation : MutationRecord)
  : BrokerIdentityLinks :=
  default (links_for (mr_logical_request_id mutation))
    (List.find (by_key il_logical_request_id (mr_logical_request_id mutation)) existing_links).

Definition order_kind (kind : MutationKind) : bool :=
  match kind with
  | Kind.PostOrder | Kind.PostOrderAsync | Kind.ReplaceOrder | Kind.CancelOrder => true
  | _ => false
  end.

(** The order to ask for: the replacement when there is one. *)
Definition known_broker_id (kind : MutationKind) (existing : BrokerIdentityLinks) : option string :=
  match kind with
  | Kind.ReplaceOrder => il_replacement_broker_order_id existing
  | _ => match il_replacement_broker_order_id existing with
         | Some id => Some id
         | None => il_broker_order_id existing
         end
  end.

Definition resolution : Type := option (MutationRecord * BrokerIdentityLinks).

Definition settle_order (runtime_epoch now : Z) (mutation : MutationRecord)
    (existing : BrokerIdentityLinks) (source : string) (order : OrderFact) : resolution :=
  match order_disposition (mr_kind mutation) (of_status order) with
  | None => None
  | Some disposition =>
      Some (reconcile_record mutation runtime_epoch now disposition
              (source +:+ of_broker_order_id order),
            link_order (mr_kind mutation) (of_broker_order_id order) existing)
  end.

Definition settle_from_stream (runtime_epoch now : Z) (mutation : MutationRecord)
    (existing : BrokerIdentityLinks) (snapshot : BrokerSnapshot) : resolution :=
  match List.find (stream_evidence_resolves mutation existing) (bs_stream_evidence snapshot) with
  | Some event =>
      Some (reconcile_record mutation runtime_epoch now Disp.OrderAccepted
              ("accepted stream event=" +:+ be_stable_event_id event), existing)
  | None => None
  end.

Definition settle_from_operations (runtime_epoch now : Z) (mutation : MutationRecord)
    (existing : BrokerIdentityLinks) (snapshot : BrokerSnapshot) : resolution :=
  match List.find (operation_evidence_resolves mutation existing) (bs_operations snapshot) with
  | Some operation =>
      Some (reconcile_record mutation runtime_epoch now Disp.OrderAccepted
              ("GetOperationsByCursor cursor=" +:+ op_cursor operation),
            link_operation operation existing)
  | None => settle_from_stream runtime_epoch now mutation existing snapshot
  end.

Definition settle_from_stops (runtime_epoch now : Z) (mutation : MutationRecord)
    (existing : BrokerIdentityLinks) (snapshot : BrokerSnapshot) : resolution :=
  let later := settle_from_operations runtime_epoch now mutation existing snapshot in
  match List.find (λ stop, bool_decide (il_broker_stop_order_id existing
                                        = Some (sf_broker_stop_order_id stop)))
          (bs_stop_orders snapshot) with
  | Some stop =>
      match stop_disposition (mr_kind mutation) (sf_status stop) with
      | Some disposition =>
          Some (reconcile_record mutation runtime_epoch now disposition
                  ("authoritative GetStopOrders broker=" +:+ sf_broker_stop_order_id stop),
                link_stop (sf_broker_stop_order_id stop) existing)
      | None => later
      end
  | None => later
  end.

Definition settle_from_snapshot (runtime_epoch now : Z) (mutation : MutationRecord)
    (existing : BrokerIdentityLinks) (snapshot : BrokerSnapshot) : resolution :=
  let later := settle_from_stops runtime_epoch now mutation existing snapshot in
  match List.find (order_evidence_resolves mutation existing) (bs_active_orders snapshot) with
  | Some order =>
      match mr_kind mutation with
      | Kind.CancelOrder => later
      | _ => settle_order runtime_epoch now mutation existing
               "authoritative active order broker=" order
      end
  | None => later
  end.

(** [reconciled_links]: each settled link replaces the first one of its request. *)
Fixpoint replace_links (resolved : BrokerIdentityLinks) (l : list BrokerIdentityLinks)
  : list BrokerIdentityLinks :=
  match l with
  | [] => [resolved]
  | existing :: rest =>
      if bool_decide (il_logical_request_id existing = il_logical_request_id resolved)
      then resolved :: rest else existing :: replace_links resolved rest
  end.

Definition merge_links (existing resolved : list BrokerIdentityLinks) : list BrokerIdentityLinks :=
  fold_left (λ l r, replace_links r l) resolved existing.

(** ** The reconciler *)

Section reconciler.
Context {B D : Type} `{!BrokerReadPort B} `{!RuntimeStore D}.
Notation run A := (st (B * D) ReconciliationError A).

(** The retry loop: [attempts] is the number of calls left. *)
Fixpoint safe_read_loop {A} (attempts : nat) (operation : st B BrokerPortError A) : run A :=
  match attempts with
  | O => st_fail (SafetyFailure "safe-read retry loop exhausted unexpectedly")
  | S n => λ s,
      match st_fst operation s with
      | (s', Ok value) => (s', Ok value)
      | (s', Err error) =>
          if (n =? 0)%nat || negb (safe_read_retryable error) then (s', Err (Broker error))
          else safe_read_loop n operation s'
      end
  end.

Definition safe_read {A} (config : ReconciliationConfig) (operation : st B BrokerPortError A) : run A :=
  safe_read_loop (Z.to_nat (Z.max 1 (rc_max_safe_read_attempts config))) operation.

(** [store_call] of an operation that writes and of one that reads. *)
Definition store_call {A} (operation : st D StoreError A) : run A :=
  st_snd (st_map_err Store operation).

Definition store_query {A} (query : D → result StoreError A) : run A := λ s,
  (s, map_err Store (query s.2)).

(** The page loop: [pages] is the number of requests left. *)
Fixpoint operations_loop (config : ReconciliationConfig) (scope : RuntimeScope) (from_unix_ms : Z)
    (pages : nat) (cursor : option string) (seen_cursors : list string)
    (operations : list OperationFact) : run (list OperationFact) :=
  match pages with
  | O => st_fail (SafetyFailure "operations history exceeds bounded page count")
  | S pages' =>
      let! page := safe_read config
        (br_operations_page scope cursor from_unix_ms OPERATIONS_PAGE_LIMIT) in
      let operations := operations ++ pg_items page in
      match pg_next_cursor page with
      | None => st_ret operations
      | Some next_cursor =>
          if is_blank next_cursor || bool_decide (next_cursor ∈ seen_cursors)
          then st_fail (SafetyFailure "operations cursor is empty or cyclic")
          else operations_loop config scope from_unix_ms pages' (Some next_cursor)
                 (next_cursor :: seen_cursors) operations
      end
  end.

Definition operations (config : ReconciliationConfig) (scope : RuntimeScope) (from_unix_ms : Z)
  : run (list OperationFact) :=
  operations_loop config scope from_unix_ms MAX_OPERATION_PAGES None [] [].
Definition resolve_mutation (config : ReconciliationConfig) (scope : RuntimeScope)
    (runtime_epoch : Z) (snapshot : BrokerSnapshot) (existing_links : list BrokerIdentityLinks)
    (mutation : MutationRecord) (now : Z) : run resolution :=
  let existing := existing_links_for existing_links mutation in
  let later := settle_from_snapshot runtime_epoch now mutation existing snapshot in
  if order_kind (mr_kind mutation) then
    let! direct := safe_read config
      (br_order_state scope (known_broker_id (mr_kind mutation) existing)
         (Some (mr_logical_request_id mutation))) in
    match direct with
    | Some order =>
        if order_evidence_resolves mutation existing order
        then st_ret (settle_order runtime_epoch now mutation existing
                       "direct GetOrderState broker=" order)
        else st_ret later
    | None => st_ret later
    end
  else st_ret later.

(** The loop over the unresolved mutations: what was settled, and the identities
    of the rest. *)
Fixpoint resolve_all (config : ReconciliationConfig) (scope : RuntimeScope)
    (runtime_epoch : Z) (snapshot : BrokerSnapshot) (existing_links : list BrokerIdentityLinks)
    (now : Z) (unresolved : list MutationRecord)
  : run (list (MutationRecord * BrokerIdentityLinks) * list string) :=
  match unresolved with
  | [] => st_ret ([], [])
  | mutation :: rest =>
      let! outcome :=
        resolve_mutation config scope runtime_epoch snapshot existing_links mutation now in
      let! tail := resolve_all config scope runtime_epoch snapshot existing_links now rest in
      st_ret (match outcome with
              | Some settled => (settled :: tail.1, tail.2)
              | None => (tail.1, mr_logical_request_id mutation :: tail.2)
              end)
  end.

Definition fill_event (scope : RuntimeScope) (runtime_epoch : Z) (operation : OperationFact)
    (fill_id : string) : BrokerEvent := {|
  be_account_id := sc_broker_account_id scope;
  be_event_class := EventCls.Fill;
  be_stable_event_id := fill_id;
  be_broker_order_id := op_broker_order_id operation;
  be_broker_stop_order_id := None;
  be_logical_request_id := op_logical_request_id operation;
  be_execution_state := None;
  be_runtime_epoch := runtime_epoch |}.

Definition fill_events (scope : RuntimeScope) (runtime_epoch : Z) (snapshot : BrokerSnapshot)
  : list BrokerEvent :=
  bs_operations snapshot ≫= λ operation,
    fill_event scope runtime_epoch operation <$> op_broker_fill_ids operation.

Fixpoint record_fills (scope : RuntimeScope) (now : Z) (events : list BrokerEvent) (duplicates : Z)
  : run Z :=
  match events with
  | [] => st_ret duplicates
  | event :: rest =>
      let! inserted := store_call (js_record_broker_event (scope_key scope) event now) in
      record_fills scope now rest
        (if inserted then duplicates else saturating_add U64 duplicates 1)
  end.

Definition persist_fill_dedupe (scope : RuntimeScope) (runtime_epoch : Z)
    (snapshot : BrokerSnapshot) (now : Z) : run Z :=
  record_fills scope now (fill_events scope runtime_epoch snapshot) 0.

(** The stored checkpoint, when it can be used; one that cannot is discarded. *)
Definition usable_checkpoint (scope : RuntimeScope) (runtime_epoch : Z)
  : run (option ReconciliationCheckpoint) :=
  let! checkpoint := store_query (λ d, js_load_checkpoint d (scope_key scope)) in
  match checkpoint with
  | Some c =>
      if bool_decide (cp_scope_key c = scope_key scope) && negb (is_blank (cp_reconciliation_id c))
         && (0 <? cp_snapshot_observed_at_unix_ms c)
      then st_ret (Some c)
      else store_call (js_discard_checkpoint (scope_key scope) runtime_epoch) ;;; st_ret None
  | None => st_ret None
  end.

Definition history_start (now : Z) (checkpoint : option ReconciliationCheckpoint) : Z :=
  match checkpoint with
  | Some c => saturating_sub I64 (cp_snapshot_observed_at_unix_ms c) HISTORY_OVERLAP_MS
  | None => saturating_sub I64 now HISTORY_WINDOW_MS
  end.

Definition read_snapshot (config : ReconciliationConfig) (scope : RuntimeScope)
    (from_unix_ms now : Z) : run BrokerSnapshot :=
  let! accounts := safe_read config (br_accounts scope) in
  let! portfolio := safe_read config (br_portfolio scope) in
  let! positions := safe_read config (br_positions scope) in
  let! active_orders := safe_read config (br_active_orders scope) in
  let! stop_orders := safe_read config (br_stop_orders scope from_unix_ms) in
  let! operations := operations config scope from_unix_ms in
  st_ret {|
    bs_accounts := accounts;
    bs_portfolio := {|
      pt_account_id := pt_account_id portfolio;
      pt_total_portfolio_valuation := pt_total_portfolio_valuation portfolio;
      pt_total_currency_valuation := pt_total_currency_valuation portfolio;
      pt_broker_daily_yield := pt_broker_daily_yield portfolio;
      pt_cash_balances := ps_cash_balances positions;
      pt_broker_observed_at_unix_ms := pt_broker_observed_at_unix_ms portfolio |};
    bs_positions := ps_instruments positions;
    bs_active_orders := active_orders;
    bs_stop_orders := stop_orders;
    bs_operations := operations;
    bs_stream_evidence := [];
    bs_observed_at_unix_ms := now |}.

Definition completed_checkpoint (scope : RuntimeScope) (runtime_epoch now : Z)
    (reconciliation_id : string) (snapshot : BrokerSnapshot) : ReconciliationCheckpoint := {|
  cp_scope_key := scope_key scope;
  cp_reconciliation_id := reconciliation_id;
  cp_operations_cursor := op_cursor <$> last (bs_operations snapshot);
  cp_snapshot_observed_at_unix_ms := bs_observed_at_unix_ms snapshot;
  cp_completed_at_unix_ms := now;
  cp_runtime_epoch := runtime_epoch;
  cp_accounts_complete := true;
  cp_portfolio_complete := true;
  cp_positions_complete := true;
  cp_orders_complete := true;
  cp_stops_complete := true;
  cp_operations_complete := true |}.

Definition length_z {A} (l : list A) : Z := Z.of_nat (length l).

Definition all_discrepancies (scope : RuntimeScope) (snapshot : BrokerSnapshot)
    (links : list BrokerIdentityLinks) (expectations : list DerivedPositionExpectation)
    (unresolved_ids : list string) : list string :=
  validate_snapshot scope snapshot links expectations
  ++ push_if (negb (is_empty unresolved_ids))
       (int_to_string (length_z unresolved_ids)
        +:+ " safety-critical mutation(s) remain UNKNOWN_AFTER_DISPATCH").

Definition reconcile (config : ReconciliationConfig) (scope : RuntimeScope) (runtime_epoch now : Z)
    (reconciliation_id : string) : run ReconciliationReport :=
  let! checkpoint := usable_checkpoint scope runtime_epoch in
  let! snapshot := read_snapshot config scope (history_start now checkpoint) now in
  let! unresolved := store_query (λ d, js_unresolved_mutations d (scope_key scope)) in
  if MAX_UNRESOLVED_MUTATIONS <? length_z unresolved
  then st_fail (SafetyFailure "unresolved mutation set exceeds bounded reconciliation capacity")
  else
    let! existing_links := store_query (λ d, js_all_identity_links d (scope_key scope)) in
    let! expectations := store_query (λ d, js_expected_positions d (scope_key scope)) in
    let! settled :=
      resolve_all config scope runtime_epoch snapshot existing_links now unresolved in
    let unresolved_ids := settled.2 in
    let resolved_records := settled.1.*1 in
    let resolved_links := settled.1.*2 in
    let discrepancies := all_discrepancies scope snapshot (merge_links existing_links resolved_links)
                           expectations unresolved_ids in
    let! deduplicated := persist_fill_dedupe scope runtime_epoch snapshot now in
    let resulting_state := if is_empty discrepancies then Rt.Ready else Rt.Halted in
    let reason_code := discrepancy_reason discrepancies unresolved_ids in
    store_call (js_commit_reconciliation
      (completed_checkpoint scope runtime_epoch now reconciliation_id snapshot)
      resolved_records resolved_links
      (if bool_decide (resulting_state = Rt.Ready) then Rt.Reconciling else resulting_state)
      reason_code) ;;;
    store_call (js_compact (scope_key scope) (saturating_sub I64 now RETENTION_MS)
      MAX_DEDUPE_EVENTS MAX_AUDIT_EVENTS) ;;;
    st_ret {|
      rr_reconciliation_id := reconciliation_id;
      rr_runtime_epoch := runtime_epoch;
      rr_resulting_state := resulting_state;
      rr_reason_code := reason_code;
      rr_resolved_logical_request_ids := mr_logical_request_id <$> resolved_records;
      rr_unresolved_logical_request_ids := unresolved_ids;
      rr_discrepancies := discrepancies;
      rr_position_count := length_z (bs_positions snapshot);
      rr_active_order_count := length_z (bs_active_orders snapshot);
      rr_active_stop_count :=
        length_z (List.filter (λ s, StopSt.active (sf_status s)) (bs_stop_orders snapshot));
      rr_deduplicated_event_count := deduplicated;
      rr_completed_at_unix_ms := now;
      rr_portfolio := bs_portfolio snapshot;
      rr_positions := bs_positions snapshot;
      rr_active_orders := bs_active_orders snapshot;
      rr_active_stops := bs_stop_orders snapshot;
      rr_snapshot_observed_at_unix_ms := bs_observed_at_unix_ms snapshot |}.
End reconciler.

(** ** What a consistent snapshot is

    Stated without the messages: [validate_snapshot] finds nothing to report
    exactly when the broker's facts and the local expectations agree. *)

Record consistent (scope : RuntimeScope) (snapshot : BrokerSnapshot)
    (links : list BrokerIdentityLinks) (expectations : list DerivedPositionExpectation) : Prop := {
  con_account : ∃ before a after,
    bs_accounts snapshot = before ++ a :: after
    ∧ ba_account_id a = sc_broker_account_id scope ∧ ba_open a = true ∧ ba_accessible a = true
    ∧ ∀ x, x ∈ before ++ after → ba_account_id x ≠ sc_broker_account_id scope;
  con_portfolio : pt_account_id (bs_portfolio snapshot) = sc_broker_account_id scope;
  con_positions : Forall (λ p, pf_account_id p = sc_broker_account_id scope) (bs_positions snapshot);
  con_orders : Forall (λ o, of_account_id o = sc_broker_account_id scope) (bs_active_orders snapshot);
  con_stops : Forall (λ s, sf_account_id s = sc_broker_account_id scope) (bs_stop_orders snapshot);
  con_operations : Forall (λ o, op_account_id o = sc_broker_account_id scope) (bs_operations snapshot);
  con_order_ids : NoDup (of_broker_order_id <$> bs_active_orders snapshot);
  con_stop_ids : NoDup (sf_broker_stop_order_id <$> bs_stop_orders snapshot);
  con_position_ids : NoDup (pf_instrument_uid <$> bs_positions snapshot);
  con_linked_orders : ∀ o, o ∈ bs_active_orders snapshot → OrderSt.active (of_status o) = true →
    ∃ l, l ∈ links ∧ (il_broker_order_id l = Some (of_broker_order_id o)
                      ∨ il_replacement_broker_order_id l = Some (of_broker_order_id o));
  con_linked_stops : ∀ s, s ∈ bs_stop_orders snapshot → StopSt.active (sf_status s) = true →
    (∃ l, l ∈ links ∧ il_broker_stop_order_id l = Some (sf_broker_stop_order_id s))
    ∧ ∃ p, p ∈ bs_positions snapshot ∧ pf_instrument_uid p = sf_instrument_uid s
           ∧ pf_quantity_units p ≠ 0;
  con_expected : ∀ e, e ∈ expectations →
    dp_expected_quantity_units e =
      from_option pf_quantity_units 0
        (List.find (by_key pf_instrument_uid (dp_instrument_uid e)) (bs_positions snapshot));
}.

Lemma push_if_nil b detail : push_if b detail = [] ↔ b = false.
Proof. by destruct b. Qed.

Lemma has_duplicate_spec seen ids :
  has_duplicate seen ids = false ↔ NoDup ids ∧ ∀ x, x ∈ ids → x ∉ seen.
Proof.
  revert seen. induction ids as [|id ids IH]; simpl; intros seen; [split; [|done]; intros _; split;
    [constructor|set_solver]|].
  rewrite orb_false_iff, IH, bool_decide_eq_false, NoDup_cons. set_solver.
Qed.

Lemma duplicate_identity_nil ids detail : duplicate_identity ids detail = [] ↔ NoDup ids.
Proof.
  unfold duplicate_identity. destruct (has_duplicate [] ids) eqn:H.
  - split; [done|]. intros Hn. assert (has_duplicate [] ids = false) as H'; [|congruence].
    apply has_duplicate_spec. set_solver.
  - split; [|done]. intros _. by apply has_duplicate_spec in H as [? _].
Qed.

Lemma bind_nil {A} (f : A → list string) l : (l ≫= f) = [] ↔ ∀ x, x ∈ l → f x = [].
Proof.
  induction l as [|x l IH]; simpl; [set_solver|]. rewrite app_nil, IH.
  split; [intros [? ?] y [->|?]%elem_of_cons; auto|intros H; split; set_solver].
Qed.

Lemma linked_orders_elem links o :
  o ∈ linked_orders links ↔
  ∃ l, l ∈ links ∧ (il_broker_order_id l = Some o ∨ il_replacement_broker_order_id l = Some o).
Proof.
  unfold linked_orders, flatten_options. rewrite list_elem_of_omap. split.
  - intros (x & Hx & Hid). apply list_elem_of_bind in Hx as (l & Hx & Hl).
    exists l. split; [done|]. unfold id in Hid. subst x. set_solver.
  - intros (l & Hl & H). exists (Some o). split; [|done]. apply list_elem_of_bind.
    exists l. split; [|done]. set_solver.
Qed.

Lemma linked_stops_elem links id :
  id ∈ linked_stops links ↔ ∃ l, l ∈ links ∧ il_broker_stop_order_id l = Some id.
Proof. unfold linked_stops. rewrite list_elem_of_omap. naive_solver. Qed.

Lemma position_of_find positions uid :
  NoDup (pf_instrument_uid <$> positions) →
  position_of positions uid =
    from_option pf_quantity_units 0 (List.find (by_key pf_instrument_uid uid) positions).
Proof.
  intros Hk. unfold position_of.
  assert (keyed pf_instrument_uid (reverse positions)) as Hk'.
  { unfold keyed. by rewrite fmap_reverse, reverse_Permutation. }
  destruct (List.find (by_key pf_instrument_uid uid) positions) as [p|] eqn:Hf.
  - apply find_by_key in Hf as [Hin Hu].
    by rewrite (keyed_find pf_instrument_uid uid _ p) by (rewrite ?elem_of_reverse; done).
  - apply find_by_key_None in Hf.
    destruct (List.find _ (reverse positions)) as [p|] eqn:Hr; [|done].
    apply find_by_key in Hr as [Hin <-]. rewrite elem_of_reverse in Hin. set_solver.
Qed.

Lemma filter_singleton {A} (p : A → bool) l a :
  List.filter p l = [a] →
  ∃ before after, l = before ++ a :: after ∧ p a = true ∧ ∀ x, x ∈ before ++ after → p x = false.
Proof.
  induction l as [|x l IH]; simpl; [done|]. destruct (p x) eqn:Hp; intros H.
  - injection H as <- H. exists [], l. split_and!; [done..|]. simpl. intros y Hy.
    destruct (p y) eqn:Hpy; [|done].
    assert (y ∈ List.filter p l) as Hin by (by apply elem_of_filter_bool).
    rewrite H in Hin. set_solver.
  - destruct (IH H) as (b & c & -> & Ha & Hall). exists (x :: b), c. set_solver.
Qed.

Lemma filter_singleton_rev {A} (p : A → bool) before a after :
  p a = true → (∀ x, x ∈ before ++ after → p x = false) →
  List.filter p (before ++ a :: after) = [a].
Proof.
  intros Ha Hall. rewrite List.filter_app. simpl. rewrite Ha.
  assert (∀ l, (∀ x, x ∈ l → p x = false) → List.filter p l = []) as Hn.
  { clear. induction l as [|x l IH]; simpl; [done|]. intros H.
    rewrite (H x) by set_solver. apply IH. set_solver. }
  rewrite !Hn by set_solver. done.
Qed.

Lemma account_unavailable_spec scope accounts :
  account_unavailable scope accounts = false ↔
  ∃ before a after, accounts = before ++ a :: after
    ∧ ba_account_id a = sc_broker_account_id scope ∧ ba_open a = true ∧ ba_accessible a = true
    ∧ ∀ x, x ∈ before ++ after → ba_account_id x ≠ sc_broker_account_id scope.
Proof.
  unfold account_unavailable. split.
  - destruct (List.filter _ accounts) as [|a [|]] eqn:Hf; try done. intros Ho.
    apply filter_singleton in Hf as (before & after & -> & Ha & Hall).
    prop_tests. exists before, a, after. split_and!; try done.
    intros x Hx. specialize (Hall x Hx). by apply bool_decide_eq_false in Hall.
  - intros (before & a & after & -> & Ha & Ho & Hac & Hall).
    rewrite filter_singleton_rev, Ho, Hac; [done|by rewrite bool_decide_eq_true|].
    intros x Hx. apply bool_decide_eq_false. auto.
Qed.

Lemma foreign_none {A} (account : A → string) l target :
  existsb (λ x, negb (bool_decide (account x = target))) l = false
  ↔ Forall (λ x, account x = target) l.
Proof.
  rewrite existsb_false, Forall_forall. setoid_rewrite negb_false_iff.
  setoid_rewrite bool_decide_eq_true. done.
Qed.

Lemma position_of_nonzero positions uid :
  NoDup (pf_instrument_uid <$> positions) →
  (position_of positions uid =? 0) = false ↔
  ∃ p, p ∈ positions ∧ pf_instrument_uid p = uid ∧ pf_quantity_units p ≠ 0.
Proof.
  intros Hn. rewrite position_of_find, Z.eqb_neq by done. split.
  - destruct (List.find _ positions) as [p|] eqn:Hf; simpl; [|done]. intros Hq.
    apply find_by_key in Hf as [Hin Hu]. by exists p.
  - intros (p & Hin & Hu & Hq). by rewrite (keyed_find pf_instrument_uid uid _ p).
Qed.

Lemma stop_discrepancies_nil links positions s :
  NoDup (pf_instrument_uid <$> positions) →
  stop_discrepancies links positions s = [] ↔
  (∃ l, l ∈ links ∧ il_broker_stop_order_id l = Some (sf_broker_stop_order_id s))
  ∧ ∃ p, p ∈ positions ∧ pf_instrument_uid p = sf_instrument_uid s ∧ pf_quantity_units p ≠ 0.
Proof.
  intros Hn. unfold stop_discrepancies.
  by rewrite app_nil, !push_if_nil, negb_false_iff, bool_decide_eq_true, linked_stops_elem,
    position_of_nonzero.
Qed.

Lemma order_discrepancies_nil links o :
  order_discrepancies links o = [] ↔
  ∃ l, l ∈ links ∧ (il_broker_order_id l = Some (of_broker_order_id o)
                    ∨ il_replacement_broker_order_id l = Some (of_broker_order_id o)).
Proof.
  unfold order_discrepancies.
  by rewrite push_if_nil, negb_false_iff, bool_decide_eq_true, linked_orders_elem.
Qed.

Lemma expectation_discrepancies_nil positions e :
  NoDup (pf_instrument_uid <$> positions) →
  expectation_discrepancies positions e = [] ↔
  dp_expected_quantity_units e =
    from_option pf_quantity_units 0 (List.find (by_key pf_instrument_uid (dp_instrument_uid e)) positions).
Proof.
  intros Hn. unfold expectation_discrepancies.
  rewrite push_if_nil, negb_false_iff, Z.eqb_eq, position_of_find by done. split; congruence.
Qed.

Lemma validate_snapshot_nil scope snapshot links expectations :
  validate_snapshot scope snapshot links expectations = [] ↔
  consistent scope snapshot links expectations.
Proof.
  unfold validate_snapshot.
  rewrite !app_nil, !push_if_nil, !duplicate_identity_nil, !bind_nil, account_unavailable_spec,
    !foreign_none, negb_false_iff, bool_decide_eq_true.
  setoid_rewrite elem_of_filter_bool. setoid_rewrite order_discrepancies_nil.
  split.
  - intros (Ha & Hp & H1 & H2 & H3 & H4 & N1 & N2 & N3 & Ho & Hs & He). constructor; auto.
    + intros s Hin Hact. apply stop_discrepancies_nil; auto.
    + intros e Hin. apply expectation_discrepancies_nil; auto.
  - intros []. split_and!; auto; [by intros o [? ?]; auto| |].
    + intros s [Hin Hact]. apply stop_discrepancies_nil; auto.
    + intros e Hin. apply expectation_discrepancies_nil; auto.
Qed.

(** ** The reason given *)

Lemma discrepancy_reason_complete ds us :
  discrepancy_reason ds us = Why.ReconciliationComplete ↔ ds = [] ∧ us = [].
Proof.
  unfold discrepancy_reason. destruct us; simpl; [|naive_solver].
  destruct ds as [|d ds]; [done|]. split; [|naive_solver]. simpl.
  repeat (case_match; [done|]); done.
Qed.

(** The reason is read off the text of the messages, identifiers included. *)
Lemma reason_depends_on_identifiers :
  discrepancy_reason ["unfamiliar broker stop preserved: stop-1"] [] = Why.BrokerStopConflict
  ∧ discrepancy_reason ["unfamiliar broker stop preserved: order-1"] [] = Why.BrokerOrderConflict.
Proof. by split. Qed.

(** ** Frames: what the steps of a reconciliation leave alone *)

Section frames.
Context {B D : Type} `{!BrokerReadPort B} `{!RuntimeStore D}.
Notation run A := (st (B * D) ReconciliationError A).

(** A step that only talks to the broker. *)
Definition broker_only {A} (m : run A) : Prop := ∀ s s' r, m s = (s', r) → s'.2 = s.2.

Lemma broker_only_ret {A} (a : A) : broker_only (st_ret a).
Proof. intros s s' r H. unfold st_ret in H. by simplify_eq. Qed.

Lemma broker_only_fail {A} e : broker_only (A:=A) (st_fail e).
Proof. intros s s' r H. unfold st_fail in H. by simplify_eq. Qed.

Lemma broker_only_bind {A C} (m : run A) (k : A → run C) :
  broker_only m → (∀ a, broker_only (k a)) → broker_only (st_bind m k).
Proof.
  intros Hm Hk s s' r [[e H]|(s1 & a & H1 & H2)]%st_bind_inv; [by eapply Hm|].
  by rewrite (Hk _ _ _ _ H2), (Hm _ _ _ H1).
Qed.

Lemma broker_only_loop {A} n (op : st B BrokerPortError A) : broker_only (safe_read_loop n op).
Proof.
  induction n as [|n IH]; [apply broker_only_fail|]. intros [b d] s' r. simpl.
  unfold st_fst. simpl. destruct (op b) as [b1 [v|e]]; [by intros; simplify_eq|].
  destruct (_ || _); [by intros; simplify_eq|]. intros H. by apply IH in H.
Qed.

Lemma broker_only_safe_read {A} config (op : st B BrokerPortError A) : broker_only (safe_read config op).
Proof. apply broker_only_loop. Qed.

Lemma broker_only_operations_loop config scope from n cursor seen acc :
  broker_only (operations_loop config scope from n cursor seen acc).
Proof.
  revert cursor seen acc. induction n as [|n IH]; intros; simpl; [apply broker_only_fail|].
  apply broker_only_bind; [apply broker_only_safe_read|]. intros page.
  destruct (pg_next_cursor page); [|apply broker_only_ret].
  destruct (_ || _); [apply broker_only_fail|apply IH].
Qed.

Lemma broker_only_read_snapshot config scope from now :
  broker_only (read_snapshot config scope from now).
Proof.
  unfold read_snapshot, operations.
  repeat (apply broker_only_bind; [apply broker_only_safe_read||apply broker_only_operations_loop|intros ?]).
  apply broker_only_ret.
Qed.

Lemma broker_only_resolve config scope epoch snapshot links m now :
  broker_only (resolve_mutation config scope epoch snapshot links m now).
Proof.
  unfold resolve_mutation. destruct (order_kind _); [|apply broker_only_ret].
  apply broker_only_bind; [apply broker_only_safe_read|]. intros [o|]; [|apply broker_only_ret].
  destruct (order_evidence_resolves _ _ _); apply broker_only_ret.
Qed.

Lemma broker_only_resolve_all config scope epoch snapshot links now ms :
  broker_only (resolve_all config scope epoch snapshot links now ms).
Proof.
  induction ms; simpl; [apply broker_only_ret|].
  apply broker_only_bind; [apply broker_only_resolve|intros ?].
  apply broker_only_bind; [done|intros ?]. apply broker_only_ret.
Qed.

Context `{!RuntimeStoreLaws D}.

(** A step that leaves the journal as it was. *)
Definition journal_kept {A} (m : run A) : Prop := ∀ s s' r,
  journal_inv s.2 → m s = (s', r) → journal_inv s'.2 ∧ entries s'.2 = entries s.2.

Lemma journal_kept_broker {A} (m : run A) : broker_only m → journal_kept m.
Proof. intros H s s' r Hi Hm. by rewrite (H _ _ _ Hm). Qed.

Lemma journal_kept_bind {A C} (m : run A) (k : A → run C) :
  journal_kept m → (∀ a, journal_kept (k a)) → journal_kept (st_bind m k).
Proof.
  intros Hm Hk s s' r Hi [[e H]|(s1 & a & H1 & H2)]%st_bind_inv; [by eapply Hm|].
  destruct (Hm _ _ _ Hi H1) as [Hi1 <-]. by eapply Hk.
Qed.

Lemma journal_kept_query {A} (q : D → result StoreError A) : journal_kept (store_query q).
Proof. intros s s' r Hi H. unfold store_query in H. by simplify_eq. Qed.

Lemma journal_kept_call {A} (op : st D StoreError A) :
  (∀ d d' r, journal_inv d → op d = (d', r) → journal_inv d' ∧ entries d' = entries d) →
  journal_kept (store_call op).
Proof.
  intros Hop [b d] s' r Hi. unfold store_call, st_snd, st_map_err. simpl in *.
  destruct (op d) as [d' r'] eqn:H. destruct (Hop _ _ _ Hi H).
  intros. by simplify_eq/=.
Qed.

Lemma journal_kept_checkpoint scope epoch : journal_kept (usable_checkpoint scope epoch).
Proof.
  apply journal_kept_bind; [apply journal_kept_query|]. intros [c|].
  - destruct (_ && _); [apply journal_kept_broker, broker_only_ret|].
    apply journal_kept_bind; [|intros _; apply journal_kept_broker, broker_only_ret].
    apply journal_kept_call. intros. by eapply discard_frame.
  - apply journal_kept_broker, broker_only_ret.
Qed.

Lemma journal_kept_record_fills scope now events n : journal_kept (record_fills scope now events n).
Proof.
  revert n. induction events as [|e events IH]; intros n; simpl;
    [apply journal_kept_broker, broker_only_ret|].
  apply journal_kept_bind; [|intros ?; apply IH].
  apply journal_kept_call. intros. by eapply event_frame.
Qed.
End frames.

(** ** What settles a mutation *)

(** The broker's order is the one the mutation is about.  A placed order is named by the
    client's request or by the broker identity linked to it; a replacement only by its own
    request or by the identity of the new order, never by the order it replaced; a
    cancellation by the identity of the order it is to cancel. *)
Definition names_order (m : MutationRecord) (links : BrokerIdentityLinks) (o : OrderFact) : Prop :=
  match mr_kind m with
  | Kind.PostOrder | Kind.PostOrderAsync =>
      of_logical_request_id o = Some (mr_logical_request_id m)
      ∨ il_broker_order_id links = Some (of_broker_order_id o)
  | Kind.ReplaceOrder =>
      of_logical_request_id o = Some (mr_logical_request_id m)
      ∨ il_replacement_broker_order_id links = Some (of_broker_order_id o)
  | Kind.CancelOrder =>
      il_broker_order_id links = Some (of_broker_order_id o)
      ∨ il_replacement_broker_order_id links = Some (of_broker_order_id o)
  | _ => False
  end.

Definition names_operation (m : MutationRecord) (links : BrokerIdentityLinks) (o : OperationFact)
  : Prop :=
  op_logical_request_id o = Some (mr_logical_request_id m)
  ∨ ∃ id, op_broker_order_id o = Some id ∧ il_broker_order_id links = Some id.

(** A stream event about the mutation: of the right class, and with the same identities. *)
Definition names_event (m : MutationRecord) (links : BrokerIdentityLinks) (e : BrokerEvent) : Prop :=
  match mr_kind m with
  | Kind.PostOrder | Kind.PostOrderAsync =>
      (be_event_class e = EventCls.Order ∨ be_event_class e = EventCls.Fill) ∧
      (be_logical_request_id e = Some (mr_logical_request_id m)
       ∨ ∃ id, be_broker_order_id e = Some id ∧ il_broker_order_id links = Some id)
  | Kind.ReplaceOrder =>
      be_event_class e = EventCls.Order ∧
      (be_logical_request_id e = Some (mr_logical_request_id m)
       ∨ ∃ id, be_broker_order_id e = Some id ∧ il_replacement_broker_order_id links = Some id)
  | Kind.PostStopOrder | Kind.ProtectionLeg =>
      be_event_class e = EventCls.Stop ∧
      (be_logical_request_id e = Some (mr_logical_request_id m)
       ∨ ∃ id, be_broker_stop_order_id e = Some id ∧ il_broker_stop_order_id links = Some id)
  | Kind.CancelOrder | Kind.CancelStopOrder => False
  end.

(** What the status of an order says about the mutation: the disposition of the same name.
    An order that is still active says nothing about a cancellation. *)
Inductive order_shows (kind : MutationKind) : OrderExecutionStatus → ReconciliationDisposition → Prop :=
| shows_new : kind ≠ Kind.CancelOrder → order_shows kind OrderSt.New Disp.OrderActiveNew
| shows_partial :
    kind ≠ Kind.CancelOrder → order_shows kind OrderSt.PartiallyFilled Disp.OrderActivePartial
| shows_filled : order_shows kind OrderSt.Filled Disp.OrderFilled
| shows_cancelled : order_shows kind OrderSt.Cancelled Disp.OrderCancelled
| shows_rejected : order_shows kind OrderSt.Rejected Disp.OrderRejected.

Inductive stop_shows (kind : MutationKind) : StopExecutionStatus → ReconciliationDisposition → Prop :=
| shows_active : kind ≠ Kind.CancelStopOrder → stop_shows kind StopSt.Active Disp.StopActive
| shows_executed : stop_shows kind StopSt.Executed Disp.StopExecuted
| shows_canceled : stop_shows kind StopSt.Canceled Disp.StopCanceled
| shows_expired : stop_shows kind StopSt.Expired Disp.StopExpired.

(** The identities an order adds: those of a replacement's new order are kept apart from
    those of the order it replaced. *)
Definition order_linked (kind : MutationKind) (id : string) (links l : BrokerIdentityLinks) : Prop :=
  (il_broker_order_id l, il_replacement_broker_order_id l) =
    (if decide (kind = Kind.ReplaceOrder) then (il_broker_order_id links, Some id)
     else (Some id, il_replacement_broker_order_id links)) ∧
  il_broker_stop_order_id l = il_broker_stop_order_id links ∧
  il_provider_operation_ids l = il_provider_operation_ids links ∧
  il_broker_fill_ids l = il_broker_fill_ids links.

(** The identities of the mutation's orders and stop stay as they were. *)
Definition identities_kept (links l : BrokerIdentityLinks) : Prop :=
  il_broker_order_id l = il_broker_order_id links ∧
  il_replacement_broker_order_id l = il_replacement_broker_order_id links ∧
  il_broker_stop_order_id l = il_broker_stop_order_id links.

(** Authoritative evidence, the disposition it supports and the identities it links: the
    answer to a direct question or the snapshot's orders, stops, operations and stream
    events.  Only the answer about the order itself settles its cancellation, and only a
    placed order is settled by the history of operations. *)
Inductive evidence (m : MutationRecord) (links : BrokerIdentityLinks) (direct : option OrderFact)
    (snapshot : BrokerSnapshot) : ReconciliationDisposition → BrokerIdentityLinks → Prop :=
| by_order o d l :
    direct = Some o ∨ o ∈ bs_active_orders snapshot ∧ mr_kind m ≠ Kind.CancelOrder →
    names_order m links o → order_shows (mr_kind m) (of_status o) d →
    order_linked (mr_kind m) (of_broker_order_id o) links l →
    evidence m links direct snapshot d l
| by_stop s d l :
    s ∈ bs_stop_orders snapshot → il_broker_stop_order_id links = Some (sf_broker_stop_order_id s) →
    stop_shows (mr_kind m) (sf_status s) d → identities_kept links l →
    evidence m links direct snapshot d l
| by_operation o l :
    mr_kind m = Kind.PostOrder ∨ mr_kind m = Kind.PostOrderAsync →
    o ∈ bs_operations snapshot → names_operation m links o → identities_kept links l →
    evidence m links direct snapshot Disp.OrderAccepted l
| by_stream e :
    e ∈ bs_stream_evidence snapshot → names_event m links e →
    evidence m links direct snapshot Disp.OrderAccepted links.

(** A settled record differs from the mutation in its outcome only. *)
Definition settled_as (m : MutationRecord) (epoch now : Z) (d : ReconciliationDisposition)
    (r : MutationRecord) (l : BrokerIdentityLinks) : Prop :=
  (mr_state r = Journal.Reconciled ∧ mr_reconciliation_disposition r = Some d ∧
   mr_runtime_epoch r = epoch ∧ mr_updated_at_unix_ms r = now) ∧
  (mr_scope_key r, mr_logical_request_id r, mr_kind r, mr_request_evidence r, mr_correlation_id r,
   mr_created_at_unix_ms r)
  = (mr_scope_key m, mr_logical_request_id m, mr_kind m, mr_request_evidence m, mr_correlation_id m,
     mr_created_at_unix_ms m) ∧
  il_logical_request_id l = mr_logical_request_id m.

(** The links of the mutation: stored ones, or none yet. *)
Definition links_of (stored : list BrokerIdentityLinks) (m : MutationRecord)
    (existing : BrokerIdentityLinks) : Prop :=
  (existing ∈ stored ∨ existing = links_for (mr_logical_request_id m)) ∧
  il_logical_request_id existing = mr_logical_request_id m.

(** The order the broker may be asked for: by the identity of the request and, for a
    replacement, by the new order and no other. *)
Definition asks_for (m : MutationRecord) (existing : BrokerIdentityLinks) (id : option string) : Prop :=
  ∀ x, id = Some x → il_replacement_broker_order_id existing = Some x
    ∨ mr_kind m ≠ Kind.ReplaceOrder ∧ il_broker_order_id existing = Some x.

Lemma existing_links_id links m : il_logical_request_id (existing_links_for links m) = mr_logical_request_id m.
Proof.
  unfold existing_links_for. destruct (List.find _ _) as [l|] eqn:H; simpl; [|done].
  by apply find_by_key in H as [_ ?].
Qed.

Lemma existing_links_of links m : links_of links m (existing_links_for links m).
Proof.
  split; [|apply existing_links_id]. unfold existing_links_for.
  destruct (List.find _ _) as [l|] eqn:H; simpl; [|by right]. left. by apply find_by_key in H as [? _].
Qed.

Lemma known_broker_id_asks m existing : asks_for m existing (known_broker_id (mr_kind m) existing).
Proof.
  unfold asks_for, known_broker_id. intros x.
  destruct (mr_kind m), (il_replacement_broker_order_id existing); naive_solver.
Qed.

Lemma order_resolves_names m links o : order_evidence_resolves m links o = true → names_order m links o.
Proof.
  unfold order_evidence_resolves, names_order.
  destruct (mr_kind m); rewrite ?andb_true_iff, ?orb_true_iff, ?bool_decide_eq_true; naive_solver.
Qed.

Lemma order_disposition_shows kind status d :
  order_disposition kind status = Some d → order_shows kind status d.
Proof. destruct kind, status; simpl; intros; simplify_eq; by constructor. Qed.

Lemma stop_disposition_shows kind status d :
  stop_disposition kind status = Some d → stop_shows kind status d.
Proof. destruct kind, status; simpl; intros; simplify_eq; by constructor. Qed.

Lemma same_identity (x y : option string) :
  bool_decide (x = y) && is_some x = true → ∃ id, x = Some id ∧ y = Some id.
Proof. rewrite andb_true_iff, bool_decide_eq_true. destruct x; naive_solver. Qed.

Lemma operation_resolves_names m links o :
  operation_evidence_resolves m links o = true →
  (mr_kind m = Kind.PostOrder ∨ mr_kind m = Kind.PostOrderAsync) ∧ names_operation m links o.
Proof.
  unfold operation_evidence_resolves, names_operation.
  destruct (mr_kind m); try done; rewrite orb_true_iff, bool_decide_eq_true;
    (intros H; split; [auto|]); destruct H as [H|H%same_identity]; auto.
Qed.

Lemma stream_resolves_names m links e : stream_evidence_resolves m links e = true → names_event m links e.
Proof.
  unfold stream_evidence_resolves, names_event.
  destruct (mr_kind m); try done; rewrite andb_true_iff, orb_true_iff, ?bool_decide_eq_true;
    intros [Hc [H|H%same_identity]]; (split; [|by auto]); try done; destruct (be_event_class e); naive_solver.
Qed.

Section settling.
Context (m : MutationRecord) (existing : BrokerIdentityLinks) (snapshot : BrokerSnapshot).
Context (epoch now : Z) (direct : option OrderFact).
Hypothesis existing_id : il_logical_request_id existing = mr_logical_request_id m.

Local Definition settled (res : resolution) : Prop :=
  ∀ r l, res = Some (r, l) →
  ∃ d, evidence m existing direct snapshot d l ∧ settled_as m epoch now d r l.

Lemma settle_order_evidence source o :
  direct = Some o ∨ o ∈ bs_active_orders snapshot ∧ mr_kind m ≠ Kind.CancelOrder →
  order_evidence_resolves m existing o = true →
  settled (settle_order epoch now m existing source o).
Proof.
  intros Ho Hn%order_resolves_names r l. unfold settle_order.
  destruct (order_disposition _ _) as [d|] eqn:Hd; [|done]. intros [= <- <-].
  exists d. split; [|done]. eapply by_order; try done; [by apply order_disposition_shows|].
  unfold order_linked. by destruct (mr_kind m).
Qed.

Lemma settle_from_stream_evidence : settled (settle_from_stream epoch now m existing snapshot).
Proof.
  intros r l. unfold settle_from_stream.
  destruct (List.find _ _) as [e|] eqn:H; [|done]. intros [= <- <-].
  apply find_elem in H as [Hin Hr%stream_resolves_names]. exists Disp.OrderAccepted.
  split; [by eapply by_stream|done].
Qed.

Lemma settle_from_operations_evidence : settled (settle_from_operations epoch now m existing snapshot).
Proof.
  unfold settle_from_operations. destruct (List.find _ _) as [o|] eqn:H;
    [|apply settle_from_stream_evidence]. intros r l [= <- <-].
  apply find_elem in H as [Hin [Hk Hn]%operation_resolves_names]. exists Disp.OrderAccepted.
  split; [by eapply by_operation|done].
Qed.

Lemma settle_from_stops_evidence : settled (settle_from_stops epoch now m existing snapshot).
Proof.
  unfold settle_from_stops. destruct (List.find _ _) as [s|] eqn:H;
    [|apply settle_from_operations_evidence].
  destruct (stop_disposition _ _) as [d|] eqn:Hd; [|apply settle_from_operations_evidence].
  intros r l [= <- <-]. apply find_elem in H as [Hin Hl%bool_decide_eq_true].
  exists d. split; [|done]. eapply by_stop; try done. by apply stop_disposition_shows.
Qed.

Lemma settle_from_snapshot_evidence : settled (settle_from_snapshot epoch now m existing snapshot).
Proof.
  unfold settle_from_snapshot. destruct (List.find _ _) as [o|] eqn:H;
    [|apply settle_from_stops_evidence].
  apply find_elem in H as [Hin Hr].
  destruct (mr_kind m) eqn:Hk; first [apply settle_from_stops_evidence
                              | apply settle_order_evidence; [right; by rewrite Hk|done]].
Qed.
End settling.

(** A cancellation is only ever settled by a terminal fact. *)
Definition terminal_disposition (d : ReconciliationDisposition) : bool :=
  match d with
  | Disp.OrderFilled | Disp.OrderCancelled | Disp.OrderRejected
  | Disp.StopExecuted | Disp.StopCanceled | Disp.StopExpired => true
  | _ => false
  end.

Lemma cancel_stop_terminal m links direct snapshot d l :
  mr_kind m = Kind.CancelStopOrder → evidence m links direct snapshot d l → terminal_disposition d = true.
Proof.
  intros Hk [o ? ? ? Hn _ _|s ? ? ? _ Hd _|? ? [?|?]|e ? Hn]; try congruence.
  - unfold names_order in Hn. by rewrite Hk in Hn.
  - destruct Hd; congruence || done.
  - unfold names_event in Hn. by rewrite Hk in Hn.
Qed.

Lemma cancel_order_terminal m links direct snapshot d l :
  mr_kind m = Kind.CancelOrder → il_broker_stop_order_id links = None →
  evidence m links direct snapshot d l → terminal_disposition d = true.
Proof.
  intros Hk Hs [o ? ? ? _ Hd _|s ? ? ? ? _ _|? ? [?|?]|e ? Hn]; try congruence.
  - destruct Hd; congruence || done.
  - unfold names_event in Hn. by rewrite Hk in Hn.
Qed.

(** A replacement is settled by what names its own request or the new order: the order it
    replaced and the history of operations say nothing about it. *)
Lemma replacement_by_itself m links direct snapshot d l :
  mr_kind m = Kind.ReplaceOrder → il_broker_stop_order_id links = None →
  evidence m links direct snapshot d l →
  (∃ o, (direct = Some o ∨ o ∈ bs_active_orders snapshot) ∧ order_shows Kind.ReplaceOrder (of_status o) d ∧
     (of_logical_request_id o = Some (mr_logical_request_id m)
      ∨ il_replacement_broker_order_id links = Some (of_broker_order_id o))) ∨
  (∃ e, e ∈ bs_stream_evidence snapshot ∧ d = Disp.OrderAccepted ∧
     (be_logical_request_id e = Some (mr_logical_request_id m)
      ∨ ∃ id, be_broker_order_id e = Some id ∧ il_replacement_broker_order_id links = Some id)).
Proof.
  intros Hk Hs [o ? ? ? Hn Hd _|s ? ? ? ? _ _|? ? [?|?]|e ? Hn]; try congruence.
  - unfold names_order in Hn. rewrite Hk in Hn, Hd. left. exists o. naive_solver.
  - unfold names_event in Hn. rewrite Hk in Hn. right. exists e. naive_solver.
Qed.

Section outcomes.
Context {B D : Type} `{!BrokerReadPort B} `{!RuntimeStore D}.
Notation run A := (st (B * D) ReconciliationError A).

(** The evidence that settles a mutation with links of its own: either nothing was asked
    of the broker, or it was asked for the mutation's order and for no other. *)
Definition grounded (scope : RuntimeScope) (stored : list BrokerIdentityLinks) (m : MutationRecord)
    (snapshot : BrokerSnapshot) (existing : BrokerIdentityLinks) (d : ReconciliationDisposition)
    (l : BrokerIdentityLinks) : Prop :=
  links_of stored m existing ∧
  ∃ direct,
    (direct = None ∨ ∃ id b b', asks_for m existing id ∧
       br_order_state scope id (Some (mr_logical_request_id m)) b = (b', Ok direct)) ∧
    evidence m existing direct snapshot d l.

(** A read that succeeds is an answer the broker gave at some moment. *)
Lemma safe_read_answer {A} config (op : st B BrokerPortError A) (s s' : B * D) a :
  safe_read config op s = (s', Ok a) → ∃ b b', op b = (b', Ok a).
Proof.
  unfold safe_read. generalize (Z.to_nat (Z.max 1 (rc_max_safe_read_attempts config))).
  intros n. revert s. induction n as [|n IH]; intros [b d]; simpl; [done|].
  unfold st_fst. simpl. destruct (op b) as [b1 [v|e]] eqn:Hop; [intros; simplify_eq; eauto|].
  destruct (_ || _); [done|apply IH].
Qed.

(** A read that fails reports the broker's error, never the loop's own. *)
Lemma safe_read_error {A} config (op : st B BrokerPortError A) (s s' : B * D) e :
  safe_read config op s = (s', Err e) → ∃ be, e = Broker be.
Proof.
  unfold safe_read.
  assert (1 ≤ Z.to_nat (Z.max 1 (rc_max_safe_read_attempts config)))%nat as Hn by lia. revert Hn.
  generalize (Z.to_nat (Z.max 1 (rc_max_safe_read_attempts config))).
  intros n. revert s. induction n as [|n IH]; intros [b d] Hn; simpl; [lia|].
  unfold st_fst. simpl. destruct (op b) as [b1 [v|be]] eqn:Hop; [done|].
  destruct (n =? 0)%nat eqn:H0; simpl; [intros; simplify_eq; eauto|].
  destruct (negb _); [intros; simplify_eq; eauto|]. apply IH.
  apply Nat.eqb_neq in H0. lia.
Qed.

Lemma resolve_mutation_evidence config scope epoch snapshot links m now (s s' : B * D) r l :
  resolve_mutation config scope epoch snapshot links m now s = (s', Ok (Some (r, l))) →
  ∃ existing d, grounded scope links m snapshot existing d l ∧ settled_as m epoch now d r l.
Proof.
  pose proof (existing_links_id links m) as Hid. unfold resolve_mutation, grounded.
  pose proof (existing_links_of links m) as Hl. pose proof (known_broker_id_asks m (existing_links_for links m)) as Ha.
  destruct (order_kind (mr_kind m)) eqn:Hk.
  - intros (s1 & direct & H1 & H2)%st_bind_Ok. apply safe_read_answer in H1.
    assert (settled m (existing_links_for links m) snapshot epoch now direct (Some (r, l))) as Hs.
    { destruct direct as [o|]; [destruct (order_evidence_resolves _ _ _) eqn:Ho|];
        unfold st_ret in H2; injection H2 as _ <-.
      - apply settle_order_evidence; auto.
      - by apply settle_from_snapshot_evidence.
      - by apply settle_from_snapshot_evidence. }
    destruct (Hs r l eq_refl) as (d & ? & ?). exists (existing_links_for links m), d.
    split; [|done]. split; [done|]. destruct H1 as (b & b' & H1). exists direct. split; [right; by eexists _, _, _|done].
  - intros H. unfold st_ret in H. injection H as _ H.
    destruct (settle_from_snapshot_evidence m _ snapshot epoch now None Hid r l H) as (d & ? & ?).
    exists (existing_links_for links m), d. split; [|done]. split; [done|]. exists None. auto.
Qed.

(** Every mutation is either settled or listed as unresolved, and what is settled was one
    of them, with links that its evidence supports. *)
Lemma resolve_all_covers config scope epoch snapshot links now ms (s s' : B * D) settled ids :
  resolve_all config scope epoch snapshot links now ms s = (s', Ok (settled, ids)) →
  (∀ m, m ∈ ms → mr_logical_request_id m ∈ mr_logical_request_id <$> settled.*1
                 ∨ mr_logical_request_id m ∈ ids)
  ∧ (∀ r l, (r, l) ∈ settled → ∃ m existing d, m ∈ ms ∧ grounded scope links m snapshot existing d l
                              ∧ settled_as m epoch now d r l).
Proof.
  revert s s' settled ids. induction ms as [|m ms IH]; simpl; intros s s' settled ids H.
  - unfold st_ret in H. simplify_eq/=. set_solver.
  - apply st_bind_Ok in H as (s1 & out & H1 & H).
    apply st_bind_Ok in H as (s2 & [settled' ids'] & H2 & H).
    destruct (IH _ _ _ _ H2) as [Hc Hr]. unfold st_ret in H.
    assert (∀ r l, (r, l) ∈ settled' → ∃ m' existing d, m' ∈ m :: ms ∧
      grounded scope links m' snapshot existing d l ∧ settled_as m' epoch now d r l) as Hr'.
    { intros r l (m' & ex & d & ? & ? & ?)%Hr. exists m', ex, d. set_solver. }
    destruct out as [[r l]|]; simplify_eq/=; [|split; [set_solver|done]].
    apply resolve_mutation_evidence in H1 as (ex & d & Hg & Hset). split.
    + destruct (Hset) as (_ & Hsame & _). injection Hsame as _ Hid _ _ _ _. set_solver.
    + intros r0 l0 [[= -> ->]|?]%elem_of_cons; [|by apply Hr']. exists m, ex, d. set_solver.
Qed.

(** ** What was read

    The broker's states between the reads are those the reads left behind: an answer may
    come after failures worth retrying, and the history is followed page by page from the
    first to the last. *)
Inductive answered {A} (op : st B BrokerPortError A) : B → A → B → Prop :=
| answered_now b b' a : op b = (b', Ok a) → answered op b a b'
| answered_later b b1 b' e a :
    op b = (b1, Err e) → safe_read_retryable e = true → answered op b1 a b' → answered op b a b'.

Inductive history_answered (scope : RuntimeScope) (from : Z)
  : option string → B → list OperationFact → B → Prop :=
| answered_last c b page b' :
    answered (br_operations_page scope c from OPERATIONS_PAGE_LIMIT) b page b' →
    pg_next_cursor page = None → history_answered scope from c b (pg_items page) b'
| answered_more c b page b1 next rest b' :
    answered (br_operations_page scope c from OPERATIONS_PAGE_LIMIT) b page b1 →
    pg_next_cursor page = Some next → history_answered scope from (Some next) b1 rest b' →
    history_answered scope from c b (pg_items page ++ rest) b'.

(** The snapshot is what the broker answered: its accounts, its portfolio with the cash of
    its positions, its positions, orders and stops, and its whole history since [from]. *)
Definition snapshot_answered (scope : RuntimeScope) (from now : Z) (b : B) (snapshot : BrokerSnapshot)
    (b' : B) : Prop :=
  ∃ b1 b2 b3 b4 b5 portfolio positions,
    answered (br_accounts scope) b (bs_accounts snapshot) b1 ∧
    answered (br_portfolio scope) b1 portfolio b2 ∧
    answered (br_positions scope) b2 positions b3 ∧
    answered (br_active_orders scope) b3 (bs_active_orders snapshot) b4 ∧
    answered (br_stop_orders scope from) b4 (bs_stop_orders snapshot) b5 ∧
    history_answered scope from None b5 (bs_operations snapshot) b' ∧
    bs_positions snapshot = ps_instruments positions ∧
    (let p := bs_portfolio snapshot in
     pt_account_id p = pt_account_id portfolio ∧
     pt_total_portfolio_valuation p = pt_total_portfolio_valuation portfolio ∧
     pt_total_currency_valuation p = pt_total_currency_valuation portfolio ∧
     pt_broker_daily_yield p = pt_broker_daily_yield portfolio ∧
     pt_cash_balances p = ps_cash_balances positions ∧
     pt_broker_observed_at_unix_ms p = pt_broker_observed_at_unix_ms portfolio) ∧
    bs_stream_evidence snapshot = [] ∧ bs_observed_at_unix_ms snapshot = now.

Lemma safe_read_answered {A} config (op : st B BrokerPortError A) (s s' : B * D) a :
  safe_read config op s = (s', Ok a) → answered op s.1 a s'.1.
Proof.
  unfold safe_read. generalize (Z.to_nat (Z.max 1 (rc_max_safe_read_attempts config))).
  intros n. revert s. induction n as [|n IH]; intros [b d]; simpl; [done|].
  unfold st_fst. simpl. destruct (op b) as [b1 [v|e]] eqn:Hop; [intros; simplify_eq; by constructor|].
  destruct (_ || _) eqn:Hr; [done|]. apply orb_false_iff in Hr as [_ Hr%negb_false_iff].
  intros H%IH. by eapply answered_later.
Qed.

Lemma operations_answered config scope from n c seen acc (s s' : B * D) ops :
  operations_loop config scope from n c seen acc s = (s', Ok ops) →
  ∃ rest, ops = acc ++ rest ∧ history_answered scope from c s.1 rest s'.1.
Proof.
  revert c seen acc s. induction n as [|n IH]; intros c seen acc s; simpl; [done|].
  intros (s1 & page & Hp%safe_read_answered & H)%st_bind_Ok.
  destruct (pg_next_cursor page) as [next|] eqn:Hn.
  - destruct (_ || _); [done|]. apply IH in H as (rest & -> & Hh).
    exists (pg_items page ++ rest). rewrite app_assoc. split; [done|by eapply answered_more].
  - unfold st_ret in H. simplify_eq. exists (pg_items page). split; [done|by eapply answered_last].
Qed.

Lemma read_snapshot_answered config scope from now (s s' : B * D) snapshot :
  read_snapshot config scope from now s = (s', Ok snapshot) →
  snapshot_answered scope from now s.1 snapshot s'.1.
Proof.
  unfold read_snapshot. intros H.
  apply st_bind_Ok in H as (s1 & accounts & H1%safe_read_answered & H).
  apply st_bind_Ok in H as (s2 & portfolio & H2%safe_read_answered & H).
  apply st_bind_Ok in H as (s3 & positions & H3%safe_read_answered & H).
  apply st_bind_Ok in H as (s4 & orders & H4%safe_read_answered & H).
  apply st_bind_Ok in H as (s5 & stops & H5%safe_read_answered & H).
  apply st_bind_Ok in H as (s6 & ops & (rest & Hops & H6)%operations_answered & H).
  simpl in Hops. subst ops. unfold st_ret in H. simplify_eq.
  exists s1.1, s2.1, s3.1, s4.1, s5.1, portfolio, positions. by split_and!.
Qed.

Lemma usable_checkpoint_broker scope epoch (s s' : B * D) cp :
  usable_checkpoint scope epoch s = (s', Ok cp) →
  s'.1 = s.1 ∧
  (∀ c, cp = Some c → s' = s ∧ js_load_checkpoint s.2 (scope_key scope) = Ok (Some c)
     ∧ cp_scope_key c = scope_key scope ∧ 0 < cp_snapshot_observed_at_unix_ms c).
Proof.
  unfold usable_checkpoint. intros (s1 & c & H1 & H)%st_bind_Ok. unfold store_query in H1.
  injection H1 as <- H1. destruct (js_load_checkpoint _ _) as [c'|]; [|done]. injection H1 as ->.
  destruct c as [c|]; [|unfold st_ret in H; by simplify_eq].
  destruct (_ && _) eqn:Hu.
  - unfold st_ret in H. simplify_eq. split; [done|]. intros c0 [= <-].
    apply andb_true_iff in Hu as [[Hk%bool_decide_eq_true _]%andb_true_iff Hp%Z.ltb_lt]. done.
  - apply st_bind_Ok in H as (s2 & [] & H2 & H). unfold st_ret in H. simplify_eq. split; [|done].
    unfold store_call, st_snd, st_map_err in H2. by destruct (js_discard_checkpoint _ _ _) as [? []]; simplify_eq.
Qed.

Context `{!RuntimeStoreLaws D}.

(** What a reconciliation compares.  The snapshot is what the broker answered from its
    state at the start; the history reaches back to the last checkpoint that can be used,
    or a week; the links are the store's or come from evidence that settles a mutation in
    doubt; the expectations are the store's. *)
Record compared (scope : RuntimeScope) (now : Z) (s : B * D) (snapshot : BrokerSnapshot)
    (links : list BrokerIdentityLinks) (expectations : list DerivedPositionExpectation) : Prop := {
  cmp_snapshot : ∃ from b, snapshot_answered scope from now s.1 snapshot b ∧
    (from = saturating_sub I64 now HISTORY_WINDOW_MS ∨
     ∃ c, js_load_checkpoint s.2 (scope_key scope) = Ok (Some c) ∧ cp_scope_key c = scope_key scope ∧
       from = saturating_sub I64 (cp_snapshot_observed_at_unix_ms c) HISTORY_OVERLAP_MS);
  cmp_store : ∃ d stored, entries d = entries s.2 ∧
    (d = s.2 ∨ ∃ epoch, js_discard_checkpoint (scope_key scope) epoch s.2 = (d, Ok tt)) ∧
    js_expected_positions d (scope_key scope) = Ok expectations ∧
    js_all_identity_links d (scope_key scope) = Ok stored ∧
    ∀ l, l ∈ links → l ∈ stored ∨
      ∃ m existing disposition, entry_of m ∈ entries s.2 ∧ pending (scope_key scope) (entry_of m) = true ∧
        grounded scope stored m snapshot existing disposition l;
}.

Lemma replace_links_elem r ls l : l ∈ replace_links r ls → l = r ∨ l ∈ ls.
Proof. induction ls as [|x ls IH]; simpl; [set_solver|]. destruct (bool_decide _); set_solver. Qed.

Lemma merge_links_elem stored fresh l : l ∈ merge_links stored fresh → l ∈ stored ∨ l ∈ fresh.
Proof.
  unfold merge_links. revert stored. induction fresh as [|f fresh IH]; intros stored; simpl; [auto|].
  intros [H|H]%IH; [apply replace_links_elem in H as [->|?]|]; set_solver.
Qed.

Lemma usable_checkpoint_store scope epoch (s s' : B * D) cp :
  usable_checkpoint scope epoch s = (s', Ok cp) →
  s'.2 = s.2 ∨ js_discard_checkpoint (scope_key scope) epoch s.2 = (s'.2, Ok tt).
Proof.
  unfold usable_checkpoint. intros (s1 & c & H1 & H)%st_bind_Ok. unfold store_query in H1. injection H1 as <- _.
  destruct c as [c|]; [|unfold st_ret in H; simplify_eq; by left].
  destruct (_ && _); [unfold st_ret in H; simplify_eq; by left|right].
  apply st_bind_Ok in H as (s2 & [] & H2 & H). unfold st_ret in H. simplify_eq.
  unfold store_call, st_snd, st_map_err in H2. destruct (js_discard_checkpoint _ _ _) as [? [[]|]]; by simplify_eq.
Qed.

(** A reconciliation that returns a report, step by step. *)
Lemma reconcile_Ok config scope epoch now id (s s' : B * D) rep :
  journal_inv s.2 → reconcile config scope epoch now id s = (s', Ok rep) →
  ∃ snapshot (ms : list MutationRecord) links expectations settled ids,
    compared scope now s snapshot links expectations
    ∧ (∀ e, e ∈ entry_of <$> ms ↔ e ∈ entries s.2 ∧ pending (scope_key scope) e = true)
    ∧ (∀ m, m ∈ ms → mr_logical_request_id m ∈ mr_logical_request_id <$> (settled : list MutationRecord)
                     ∨ mr_logical_request_id m ∈ ids)
    ∧ rr_discrepancies rep = all_discrepancies scope snapshot links expectations ids
    ∧ rr_unresolved_logical_request_ids rep = ids
    ∧ rr_resolved_logical_request_ids rep = (mr_logical_request_id <$> settled)
    ∧ rr_resulting_state rep = (if is_empty (rr_discrepancies rep) then Rt.Ready else Rt.Halted)
    ∧ rr_reason_code rep = discrepancy_reason (rr_discrepancies rep) ids
    ∧ (rr_portfolio rep = bs_portfolio snapshot
       ∧ rr_positions rep = bs_positions snapshot ∧ rr_active_orders rep = bs_active_orders snapshot
       ∧ rr_active_stops rep = bs_stop_orders snapshot ∧ rr_snapshot_observed_at_unix_ms rep = now)
    ∧ journal_inv s'.2
    ∧ entries s'.2 = fold_left (settle_entry (scope_key scope))
                       (rr_resolved_logical_request_ids rep) (entries s.2).
Proof.
  intros Hi H. unfold reconcile in H.
  apply st_bind_Ok in H as (s1 & cp & H1 & H).
  destruct (journal_kept_checkpoint _ _ _ _ _ Hi H1) as [Hi1 E1].
  destruct (usable_checkpoint_broker _ _ _ _ _ H1) as [B1 Hcp]. apply usable_checkpoint_store in H1 as Hd1.
  apply st_bind_Ok in H as (s2 & snapshot & H2 & H).
  apply read_snapshot_answered in H2 as Hsnap. rewrite B1 in Hsnap.
  apply broker_only_read_snapshot in H2. rewrite <-H2 in Hi1, E1, Hd1.
  apply st_bind_Ok in H as (s3 & ms & H3 & H). unfold store_query in H3. injection H3 as <- H3.
  destruct (js_unresolved_mutations _ _) as [ms'|] eqn:Hun; [|done]. injection H3 as ->.
  pose proof (unresolved_ok _ _ _ Hi1 Hun) as Hms. rewrite E1 in Hms.
  destruct (_ <? _); [done|].
  apply st_bind_Ok in H as (s4 & links & H4 & H). unfold store_query in H4. injection H4 as <- H4.
  destruct (js_all_identity_links _ _) as [links'|] eqn:Hlinks; [|done]. injection H4 as ->.
  apply st_bind_Ok in H as (s5 & exps & H5 & H). unfold store_query in H5. injection H5 as <- H5.
  destruct (js_expected_positions _ _) as [exps'|] eqn:Hexps; [|done]. injection H5 as ->.
  apply st_bind_Ok in H as (s6 & [settled ids] & H6 & H).
  destruct (resolve_all_covers _ _ _ _ _ _ _ _ _ _ _ H6) as [Hc Hr].
  apply broker_only_resolve_all in H6. rewrite <-H6 in Hi1.
  apply st_bind_Ok in H as (s7 & dup & H7 & H).
  destruct (journal_kept_record_fills _ _ _ _ _ _ _ Hi1 H7) as [Hi7 E7].
  apply st_bind_Ok in H as (s8 & [] & H8 & H). unfold store_call, st_snd, st_map_err in H8.
  destruct (js_commit_reconciliation _ _ _ _ _ _) as [d8 [[]|]] eqn:Hcom; [|done].
  injection H8 as <-. destruct (commit_ok _ _ _ _ _ _ _ Hi7 Hcom) as [Hi8 E8].
  apply st_bind_Ok in H as (s9 & [] & H9 & H). unfold store_call, st_snd, st_map_err in H9. simpl in H9.
  destruct (js_compact _ _ _ _ _) as [d9 r9] eqn:Hcomp. injection H9 as <- _.
  destruct (compact_frame _ _ _ _ _ _ _ Hi8 Hcomp) as [Hi9 E9].
  unfold st_ret in H. injection H as <- <-. simpl.
  exists snapshot, ms, (merge_links links settled.*2), exps, settled.*1, ids.
  split; [|split_and!; try done; [by destruct Hsnap as (? & ? & ? & ? & ? & ? & ? & ? & ? & ? & ? & ? & ? & ? & ? & ? & ?)
                                 |by rewrite E9, E8, E7, H6, E1]].
  split.
  - exists (history_start now cp), s2.1. split; [done|]. destruct cp as [c|]; [right|by left].
    destruct (Hcp c eq_refl) as (_ & ? & ? & _). by exists c.
  - exists s2.2, links. split_and!; [done|naive_solver|done|done|].
    intros l [Hl|Hl]%merge_links_elem; [by left|right].
    apply list_elem_of_fmap in Hl as ([r l'] & -> & Hl). destruct (Hr _ _ Hl) as (m & ex & d & Hm & Hg & _).
    destruct (Hms (entry_of m)) as [Hp _].
    destruct Hp as [? ?]; [by apply list_elem_of_fmap_2|]. by exists m, ex, d.
Qed.

(** A step that, whether it succeeds or fails, does nothing to the journal but
    settle pending entries of the scope. *)
Definition journal_settles {A} (scope : RuntimeScope) (m : run A) : Prop := ∀ s s' r,
  journal_inv s.2 → m s = (s', r) →
  journal_inv s'.2 ∧
  ∃ ids, entries s'.2 = fold_left (settle_entry (scope_key scope)) ids (entries s.2).

Lemma settles_kept {A} scope (m : run A) : journal_kept m → journal_settles scope m.
Proof. intros Hm s s' r Hi [? ?]%Hm; [|done]. split; [done|]. by exists []. Qed.

Lemma settles_bind {A C} scope (m : run A) (k : A → run C) :
  journal_settles scope m → (∀ a, journal_settles scope (k a)) → journal_settles scope (st_bind m k).
Proof.
  intros Hm Hk s s' r Hi [[e H]|(s1 & a & H1 & H2)]%st_bind_inv; [by eapply Hm|].
  destruct (Hm _ _ _ Hi H1) as [Hi1 [ids1 E1]]. destruct (Hk _ _ _ _ Hi1 H2) as [Hi2 [ids2 E2]].
  split; [done|]. exists (ids1 ++ ids2). by rewrite fold_left_app, <-E1.
Qed.

Lemma settles_commit scope cp resolved links state why :
  cp_scope_key cp = scope_key scope →
  journal_settles scope (store_call (js_commit_reconciliation cp resolved links state why)).
Proof.
  intros Hcp s s' r Hi. unfold store_call, st_snd, st_map_err.
  destruct (js_commit_reconciliation _ _ _ _ _ _) as [d' [[]|e]] eqn:H; intros; simplify_eq/=.
  - destruct (commit_ok _ _ _ _ _ _ _ Hi H) as [? ->]. rewrite Hcp. eauto.
  - destruct (commit_err _ _ _ _ _ _ _ _ Hi H) as [? ->]. split; [done|]. by exists [].
Qed.

Lemma reconcile_settles config scope epoch now id :
  journal_settles scope (reconcile config scope epoch now id).
Proof.
  unfold reconcile.
  apply settles_bind; [apply settles_kept, journal_kept_checkpoint|intros cp].
  apply settles_bind; [apply settles_kept, journal_kept_broker, broker_only_read_snapshot|intros snapshot].
  apply settles_bind; [apply settles_kept, journal_kept_query|intros ms].
  destruct (_ <? _); [apply settles_kept, journal_kept_broker, broker_only_fail|].
  apply settles_bind; [apply settles_kept, journal_kept_query|intros links].
  apply settles_bind; [apply settles_kept, journal_kept_query|intros exps].
  apply settles_bind; [apply settles_kept, journal_kept_broker, broker_only_resolve_all|intros settled].
  apply settles_bind; [apply settles_kept, journal_kept_record_fills|intros dup].
  apply settles_bind; [by apply settles_commit|intros _].
  apply settles_bind; [|intros _; apply settles_kept, journal_kept_broker, broker_only_ret].
  apply settles_kept, journal_kept_call. intros. by eapply compact_frame.
Qed.
End outcomes.

(** ** Reading the operations history *)

(** The pages a broker serves, followed from a cursor to the last one. *)
Inductive history (pages : option string → OperationsPage)
  : option string → list string → list OperationFact → Prop :=
| history_end c : pg_next_cursor (pages c) = None → history pages c [] (pg_items (pages c))
| history_next c next cursors ops :
    pg_next_cursor (pages c) = Some next → history pages (Some next) cursors ops →
    history pages c (next :: cursors) (pg_items (pages c) ++ ops).

(** Every cursor is new and not blank. *)
Definition proper_cursors (seen cursors : list string) : Prop :=
  NoDup cursors ∧ ∀ c, c ∈ cursors → c ∉ seen ∧ is_blank c = false.

Lemma proper_cursors_cons seen c cs :
  proper_cursors seen (c :: cs) ↔ (is_blank c = false ∧ c ∉ seen) ∧ proper_cursors (c :: seen) cs.
Proof. unfold proper_cursors. rewrite NoDup_cons. set_solver. Qed.

Section paging.
Context {B D : Type} `{!BrokerReadPort B} `{!RuntimeStore D}.
Context (config : ReconciliationConfig) (scope : RuntimeScope) (from : Z) (b : B) (d : D).
Context (pages : option string → OperationsPage).
Hypothesis stable : ∀ c,
  br_operations_page scope c from OPERATIONS_PAGE_LIMIT b = (b, Ok (pages c)).

Lemma safe_read_page c :
  safe_read (D:=D) config (br_operations_page scope c from OPERATIONS_PAGE_LIMIT) (b, d)
  = ((b, d), Ok (pages c)).
Proof.
  unfold safe_read. destruct (Z.to_nat _) as [|n] eqn:Hn; [lia|]. simpl.
  unfold st_fst. simpl. by rewrite stable.
Qed.

Lemma operations_loop_spec n c seen acc res :
  operations_loop (D:=D) config scope from n c seen acc (b, d) = ((b, d), Ok res) ↔
  ∃ cursors ops, res = acc ++ ops ∧ history pages c cursors ops ∧ proper_cursors seen cursors
    ∧ (length cursors < n)%nat.
Proof.
  revert c seen acc. induction n as [|n IH]; intros c seen acc; simpl.
  { split; [done|]. intros (cs & ops & _ & _ & _ & ?). lia. }
  unfold st_bind at 1. rewrite safe_read_page.
  destruct (pg_next_cursor (pages c)) as [next|] eqn:Hnext.
  - destruct (is_blank next || bool_decide (next ∈ seen)) eqn:Hbad.
    + split; [done|]. intros (cs & ops & _ & Hh & Hp & _). inversion Hh; simplify_eq.
      apply proper_cursors_cons in Hp as [[Hb Hn] _]. rewrite Hb in Hbad. simpl in Hbad.
      by apply bool_decide_eq_true in Hbad.
    + apply orb_false_iff in Hbad as [Hb Hn%bool_decide_eq_false]. rewrite IH. split.
      * intros (cs & ops & -> & Hh & Hp & Hl). exists (next :: cs), (pg_items (pages c) ++ ops).
        rewrite app_assoc. split_and!; [done|by constructor|by apply proper_cursors_cons|simpl; lia].
      * intros (cs & ops & -> & Hh & Hp & Hl). inversion Hh; simplify_eq. apply proper_cursors_cons in Hp as [_ Hp].
        eexists _, _. rewrite <-app_assoc. split_and!; [done..|simpl in Hl; lia].
  - split.
    + intros H. unfold st_ret in H. injection H as <-. exists [], (pg_items (pages c)).
      split_and!; [done|by constructor|split; [constructor|set_solver]|simpl; lia].
    + intros (cs & ops & -> & Hh & _). by inversion Hh; simplify_eq.
Qed.

(** Reading never changes a broker that serves fixed pages. *)
Lemma operations_loop_state n c seen acc :
  ∃ r, operations_loop (D:=D) config scope from n c seen acc (b, d) = ((b, d), r).
Proof.
  revert c seen acc. induction n as [|n IH]; intros c seen acc; simpl; [by eexists|].
  unfold st_bind at 1. rewrite safe_read_page.
  destruct (pg_next_cursor (pages c)); [|by eexists]. destruct (_ || _); [by eexists|apply IH].
Qed.
End paging.

(** ** Properties *)

Section claims.
Context {B D : Type} `{!BrokerReadPort B} `{!RuntimeStore D} `{!RuntimeStoreLaws D}.


(** A reconciliation settles and never disturbs: however it ends, an entry of
    the journal is afterwards either exactly what it was, or it was in doubt in the
    reconciled scope and is now RECONCILED; no entry appears or disappears. *)
Theorem reconcile_only_settles config scope epoch now id (s s' : B * D) res :
  journal_inv s.2 → reconcile config scope epoch now id s = (s', res) →
  journal_inv s'.2 ∧
  je_id <$> entries s'.2 = je_id <$> entries s.2 ∧
  ∀ e, e ∈ entries s'.2 → e ∈ entries s.2 ∨
    ∃ e0, e0 ∈ entries s.2 ∧ pending (scope_key scope) e0 = true ∧ e = set_entry Journal.Reconciled e0.
Proof.
  intros Hi H. destruct (reconcile_settles _ _ _ _ _ _ _ _ Hi H) as [Hi' [ids Hent]].
  split_and!; [done| |].
  - rewrite Hent. clear. generalize (entries s.2) as es. induction ids as [|i ids IH]; intros es; simpl; [done|].
    rewrite IH. unfold settle_entry. by rewrite update_where_keys.
  - intros e He. rewrite Hent in He. destruct (settle_all_elem _ _ _ _ He) as [[? _]|(e0 & ? & _ & ? & ?)];
      [by left|right; by exists e0].
Qed.


(** The operations history is read in full or refused: against a broker that
    serves fixed pages, [operations] returns exactly the items of all pages from the
    first to the last, in order, when their cursors are non-blank and distinct and
    there are at most 100 pages, and an error in every other case. *)
Theorem history_read_in_full config scope from (b : B) (d : D) pages :
  (∀ c, br_operations_page scope c from OPERATIONS_PAGE_LIMIT b = (b, Ok (pages c))) →
  ∃ r, operations config scope from (b, d) = ((b, d), r) ∧
  ∀ ops, r = Ok ops ↔
    ∃ cursors, history pages None cursors ops ∧ NoDup cursors
      ∧ Forall (λ c, is_blank c = false) cursors ∧ (length cursors < MAX_OPERATION_PAGES)%nat.
Proof.
  intros Hst. unfold operations.
  destruct (operations_loop_state (D:=D) config scope from b d pages Hst MAX_OPERATION_PAGES None [] [])
    as [r Hr].
  exists r. split; [done|]. intros ops.
  pose proof (operations_loop_spec (D:=D) config scope from b d pages Hst
    MAX_OPERATION_PAGES None [] [] ops) as Hspec. rewrite Hr in Hspec.
  transitivity (((b, d), r) = ((b, d), Ok ops)); [split; [by intros ->|by intros [= ->]]|].
  rewrite Hspec. setoid_rewrite Forall_forall. unfold proper_cursors. split.
  - intros (cs & ops' & -> & Hh & [Hn Hc] & Hl). exists cs. simpl. split_and!; try done.
    intros c Hin. by apply Hc.
  - intros (cs & Hh & Hn & Hc & Hl). exists cs, ops. split_and!; try done.
    intros c Hin. split; [apply not_elem_of_nil|auto].
Qed.
End claims.

(** ** A concrete reconciliation

    One order was claimed and its outcome lost; the broker knows it as filled. *)
Module BrokerSample.
Export JournalSample.

Definition order : OrderFact := {|
  of_account_id := "account-1"; of_broker_order_id := "broker-1";
  of_logical_request_id := Some "request-1"; of_instrument_uid := "instrument-1";
  of_side := Some Buy; of_lots_requested := 1; of_lots_executed := 1;
  of_status := OrderSt.Filled; of_status_cause := None |}.

Definition operation : OperationFact := {|
  op_account_id := "account-1"; op_cursor := "cursor-1"; op_provider_operation_id := Some "operation-1";
  op_broker_order_id := Some "broker-1"; op_logical_request_id := None;
  op_broker_fill_ids := ["fill-1"] |}.

Definition pages (c : option string) : OperationsPage :=
  match c with
  | None => {| pg_items := [operation]; pg_next_cursor := Some "cursor-1" |}
  | Some _ => {| pg_items := []; pg_next_cursor := None |}
  end.

Definition portfolio : PortfolioFact := {|
  pt_account_id := "account-1"; pt_total_portfolio_valuation := None;
  pt_total_currency_valuation := None; pt_broker_daily_yield := None; pt_cash_balances := [];
  pt_broker_observed_at_unix_ms := None |}.

#[export] Instance broker : BrokerReadPort () := {|
  br_accounts _ := st_ret [{| ba_account_id := "account-1"; ba_open := true; ba_accessible := true |}];
  br_portfolio _ := st_ret portfolio;
  br_positions _ := st_ret {| ps_instruments := []; ps_cash_balances := [] |};
  br_active_orders _ := st_ret [];
  br_stop_orders _ _ := st_ret [];
  br_order_state _ _ _ := st_ret (Some order);
  br_operations_page _ c _ _ := st_ret (pages c) |}.

Lemma claimed_inv : journal_inv ((tt, claimed).2).
Proof. exact claimed_ok. Qed.

(** The state and the report it ends with. *)
Definition outcome : (() * RuntimeDb) * result ReconciliationError ReconciliationReport :=
  Eval vm_compute in
    reconcile ReconciliationConfig_default scope 1 1000 "reconciliation-1" (tt, claimed).

Lemma reconcile_outcome :
  reconcile ReconciliationConfig_default scope 1 1000 "reconciliation-1" (tt, claimed) = outcome.
Proof. vm_compute. reflexivity. Qed.

Lemma reconciled_ready : ∃ s' rep,
  reconcile ReconciliationConfig_default scope 1 1000 "reconciliation-1" (tt, claimed) = (s', Ok rep)
  ∧ rr_resulting_state rep = Rt.Ready.
Proof. rewrite reconcile_outcome. do 2 eexists. split; reflexivity. Qed.
End BrokerSample.
Import BrokerSample.


Lemma reconcile_only_settles_witness :
  je_id <$> entries (outcome.1).2 = je_id <$> entries ((tt, claimed).2).
Proof.
  destruct (reconcile_only_settles _ _ _ _ _ (tt, claimed) (outcome.1) (outcome.2) claimed_inv
    reconcile_outcome) as (_ & Hids & _). exact Hids.
Defined.

Definition no_facts : BrokerSnapshot :=
  {| bs_accounts := []; bs_portfolio := portfolio; bs_positions := []; bs_active_orders := [];
     bs_stop_orders := []; bs_operations := []; bs_stream_evidence := []; bs_observed_at_unix_ms := 0 |}.


Lemma history_read_in_full_witness :
  ∃ r, operations ReconciliationConfig_default scope 0 (tt, claimed) = ((tt, claimed), r) ∧
  ∀ ops, r = Ok ops ↔
    ∃ cursors, history pages None cursors ops ∧ NoDup cursors
      ∧ Forall (λ c, is_blank c = false) cursors ∧ (length cursors < MAX_OPERATION_PAGES)%nat.
Proof. apply (history_read_in_full _ _ _ _ _ pages). reflexivity. Defined.
