(* ===== verification/RuntimeCoordinator.v ===== *)
(** * The runtime coordinator: [crates/vox-runtime/src/coordinator.rs]

    One coordinator owns one scope: it takes ownership of the journal, reconciles,
    opens the execution gate and sends commands through risk admission, the journal
    and the broker.  Its methods run over a [World]: the coordinator's own fields and
    the states of the ports behind it, each a class.  A method is modelled as one
    run; what other tasks do between its awaits is covered by the theorems on the
    journal, which hold under any interleaving.  The tasks the coordinator spawns
    appear as the bodies of their loops ([handle_stream_signal], [coalesced_round]).
    Metrics and logging are left out; the clock and uuids come from [Ambient]. *)
From S2P Require Import Prelude Money Domain RuntimeModel RuntimePolicy RuntimePorts RuntimeJournal RuntimeReconcile.

Definition EXECUTION_QUEUE_CAPACITY : Z := 256.

(** ** Streams and health *)

Module Stream.
Inductive StreamKind := OrderState | Trades | Positions | Portfolio | Operations.
#[global] Instance StreamKind_eq_dec : EqDecision StreamKind.
Proof. solve_decision. Defined.

Inductive StreamState := Disconnected | Connecting | Active | Stale | Failed.
End Stream.
Notation StreamKind := Stream.StreamKind.
Notation StreamState := Stream.StreamState.

Record StreamHealth := {
  sh_stream : StreamKind;
  sh_required_for_ready : bool;
  sh_state : StreamState;
  sh_queue_depth : Z;
  sh_last_event_at_unix_ms : option Z;
}.

Record RuntimeHealth := {
  he_state : RuntimeState;
  he_reason_code : ReasonCode;
  he_reason : string;
  he_provider : Provider;
  he_environment : RuntimeEnvironment;
  he_account_display : string;
  he_runtime_epoch : Z;
  he_connected : bool;
  he_last_successful_reconciliation_at_unix_ms : option Z;
  he_reconciliation_age_ms : option Z;
  he_unresolved_unknown_count : Z;
  he_open_order_count : Z;
  he_active_stop_count : Z;
  he_stream_states : list StreamHealth;
  he_persistence_healthy : bool;
  he_execution_authorized : bool;
  he_new_exposure_allowed : bool;
}.

(** [.chars().rev().take(4)]: the last characters of a UTF-8 text. *)
Definition continuation (c : Ascii.ascii) : bool := ((128 <=? byte_of c) && (byte_of c <? 192))%N.

Fixpoint char_count (s : string) : Z :=
  match s with
  | EmptyString => 0
  | String c s' => (if continuation c then 0 else 1) + char_count s'
  end.

Fixpoint last_chars (n : Z) (s : string) : string :=
  match s with
  | EmptyString => EmptyString
  | String c s' => if (char_count s <=? n) && negb (continuation c) then s else last_chars n s'
  end.

Definition redacted_account_id (scope : RuntimeScope) : string :=
  "***" +:+ last_chars 4 (sc_broker_account_id scope).

Definition required_stream (stream : StreamKind) : bool :=
  match stream with
  | Stream.OrderState | Stream.Positions | Stream.Portfolio | Stream.Operations => true
  | Stream.Trades => false
  end.

Definition required_streams : list StreamKind :=
  [Stream.OrderState; Stream.Positions; Stream.Portfolio; Stream.Operations].

Definition all_stream_health : list StreamHealth :=
  (λ stream, {| sh_stream := stream; sh_required_for_ready := required_stream stream;
                sh_state := Stream.Disconnected; sh_queue_depth := 0;
                sh_last_event_at_unix_ms := None |})
  <$> [Stream.OrderState; Stream.Trades; Stream.Positions; Stream.Portfolio; Stream.Operations].

Definition event_class_stream (class : BrokerEventClass) : StreamKind :=
  match class with
  | EventCls.Order | EventCls.Stop => Stream.OrderState
  | EventCls.Fill => Stream.Trades
  | EventCls.Operation => Stream.Operations
  | EventCls.Position => Stream.Positions
  | EventCls.Portfolio => Stream.Portfolio
  end.

(** ** Ports *)

Module Purpose.
Inductive RuntimeExecutionPurpose := SandboxMutation | ProductionManual | ProductionAutomated.
#[global] Instance RuntimeExecutionPurpose_eq_dec : EqDecision RuntimeExecutionPurpose.
Proof. solve_decision. Defined.
End Purpose.
Notation RuntimeExecutionPurpose := Purpose.RuntimeExecutionPurpose.

Record RiskAdmission := {
  ad_decision_id : string;
  ad_reservation_id : option string;
  ad_policy_revision : Z;
  ad_approved_delta_lots : Z;
}.

Module RiskOut.
Inductive RiskDispatchOutcome := Acknowledged | Rejected | UnknownAfterDispatch.
#[global] Instance RiskDispatchOutcome_eq_dec : EqDecision RiskDispatchOutcome.
Proof. solve_decision. Defined.
End RiskOut.
Notation RiskDispatchOutcome := RiskOut.RiskDispatchOutcome.

Inductive RiskAdmissionError :=
| Denied (code message : string)
| StaleAdmission (what : string)
| UnavailableAdmission (what : string).

Inductive ExecutionResult :=
| ExecutionAcknowledged (broker_evidence_ref : string) (links : BrokerIdentityLinks)
| ExecutionRejected (broker_evidence_ref : string)
| ExecutionUnknown (broker_evidence_ref : option string).

Inductive StreamSignal :=
| StreamConnected (stream : StreamKind)
| StreamEvent (event : BrokerEvent)
| StreamGap (stream : StreamKind) (reason : string)
| StreamDisconnected (stream : StreamKind) (reason : string).

(** An adapter reads the journal the coordinator writes: its operations see the
    store as it is when they are called. *)
Class RiskAdmissionPort (D K : Type) := {
  ri_admit : D → RuntimeScope → RuntimeExecutionPurpose → RuntimeExecutionCommand → string →
    st K RiskAdmissionError RiskAdmission;
  ri_record_dispatch_outcome : D → RuntimeScope → string → RiskDispatchOutcome → st K RiskAdmissionError ();
  ri_validate_before_dispatch : D → RuntimeScope → RuntimeExecutionPurpose → RuntimeExecutionCommand →
    string → RiskAdmission → st K RiskAdmissionError ();
  ri_reconcile : D → RuntimeScope → ReconciliationReport → st K RiskAdmissionError ();
}.

(** [CredentialResolution] is its one flag. *)
Class CredentialResolverPort (C : Type) := {
  cr_resolve : RuntimeScope → st C BrokerPortError bool;
  cr_authorize_execution : RuntimeScope → RuntimeExecutionPurpose → st C BrokerPortError ();
}.

Class ExecutionPort (X : Type) := {
  ex_dispatch_once : RuntimeScope → RuntimeExecutionPurpose → RuntimeExecutionCommand →
    MutationRecord → st X BrokerPortError ExecutionResult;
}.

Class ExecutionStreamPort (T : Type) := {
  es_connect : RuntimeScope → Z → st T BrokerPortError (list StreamKind);
  es_disconnect : st T BrokerPortError ();
}.

(** The clock, which may be out of range, and fresh uuids. *)
Class Ambient (E : Type) := {
  am_now : st E StoreError Z;
  am_uuid : E → E * string;
}.

(** ** Errors and receipts *)

Module Run.
Inductive RuntimeError :=
| Store (e : StoreError)
| Broker (e : BrokerPortError)
| RiskAdmission (e : RiskAdmissionError)
| Reconciliation (e : ReconciliationError)
| Transition (e : TransitionError)
| Model (e : ModelError)
| ExecutionGateClosed
| CommandQueueFull
| UnknownAfterDispatch (logical_request_id : string)
| UnknownTransport (logical_request_id : string) (source : BrokerPortError)
| Safety (what : string).
End Run.
Notation RuntimeError := Run.RuntimeError.

Record DispatchReceipt := {
  rc_logical_request_id : string;
  rc_state : JournalState;
  rc_broker_evidence_ref : option string;
}.

Definition receipt (record : MutationRecord) : DispatchReceipt := {|
  rc_logical_request_id := mr_logical_request_id record;
  rc_state := mr_state record;
  rc_broker_evidence_ref := mr_broker_evidence_ref record |}.

Definition reconciliation_error_reason (e : ReconciliationError) : ReasonCode :=
  match e with
  | Broker error =>
      match bp_class error with
      | Res.Credential => Why.CredentialRejected
      | _ => Why.RequiredReadUnavailable
      end
  | Store _ => Why.PersistenceFailure
  | SafetyFailure _ => Why.ReconciliationIncomplete
  end.

(** ** Commands *)

(** Commands that can add exposure, which the execution gate holds back unless the
    runtime is READY; the others clean up or protect. *)
Definition exposure_bearing (c : RuntimeExecutionCommand) : bool :=
  match c with
  | RegularOrder _ | PostOrderAsync _ | ReplaceOrder _ => true
  | CancelOrder _ | PostStopOrder _ | CancelStopOrder _ | ProtectionLegC _ => false
  end.

Definition with_quantity (lots : Z) (o : RegularOrderCommand) : RegularOrderCommand := {|
  ro_account_id := ro_account_id o; ro_instrument_id := ro_instrument_id o;
  ro_client_request_id := ro_client_request_id o; ro_quantity_lots := lots;
  ro_price := ro_price o; ro_price_convention := ro_price_convention o; ro_side := ro_side o;
  ro_order_type := ro_order_type o; ro_time_in_force := ro_time_in_force o;
  ro_confirm_margin_trade := ro_confirm_margin_trade o |}.

Definition with_replacement_quantity (lots : Z) (o : ReplaceOrderCommand) : ReplaceOrderCommand := {|
  rp_account_id := rp_account_id o; rp_existing_order_id := rp_existing_order_id o;
  rp_existing_order_id_kind := rp_existing_order_id_kind o;
  rp_replacement_request_id := rp_replacement_request_id o; rp_quantity_lots := lots;
  rp_price := rp_price o; rp_price_convention := rp_price_convention o;
  rp_confirm_margin_trade := rp_confirm_margin_trade o |}.

Definition stale_admission {A} (what : string) : result RuntimeError A :=
  Err (Run.RiskAdmission (StaleAdmission what)).

(** The quantity of a regular order, from the approval. *)
Definition approve_order (o : RegularOrderCommand) (approved_delta_lots : Z)
  : result RuntimeError RegularOrderCommand :=
  let expected_sign := match ro_side o with Buy => 1 | Sell => -1 end in
  if negb (signum approved_delta_lots =? expected_sign)
  then stale_admission "approved direction does not match execution command"
  else match checked I64 (unsigned_abs approved_delta_lots) with
       | Some lots => Ok (with_quantity lots o)
       | None => stale_admission "approved quantity is not representable"
       end.

Definition apply_risk_approval (c : RuntimeExecutionCommand) (approved_delta_lots : Z)
  : result RuntimeError RuntimeExecutionCommand :=
  match c with
  | RegularOrder o => let? o := approve_order o approved_delta_lots in Ok (RegularOrder o)
  | PostOrderAsync o => let? o := approve_order o approved_delta_lots in Ok (PostOrderAsync o)
  | ReplaceOrder o =>
      match checked I64 (unsigned_abs approved_delta_lots) with
      | Some lots => Ok (ReplaceOrder (with_replacement_quantity lots o))
      | None => stale_admission "approved replacement quantity is not representable"
      end
  | CancelOrder _ | PostStopOrder _ | CancelStopOrder _ | ProtectionLegC _ =>
      if negb (approved_delta_lots =? 0)
      then stale_admission "maintenance approval unexpectedly changes exposure"
      else Ok c
  end.

(** The approval is complete: an identity, and a reservation exactly for what bears
    exposure. *)
Definition incomplete_approval (c : RuntimeExecutionCommand) (a : RiskAdmission) : bool :=
  is_blank (ad_decision_id a)
  || exposure_bearing c
     && ((ad_approved_delta_lots a =? 0)
         || match ad_reservation_id a with None => true | Some id => bool_decide (id = ""%string) end)
  || negb (exposure_bearing c)
     && (negb (ad_approved_delta_lots a =? 0) || is_some (ad_reservation_id a)).

(** ** The coordinator *)

(** The fields that change; the scope, the owner id and the ports are arguments. *)
Record Coordinator := {
  co_epoch : Z;
  co_started : bool;
  co_connected : bool;
  co_execution_authorized : bool;
  co_state : RuntimeStateMachine;
  co_health : RuntimeHealth;
  co_command_slots : Z;
  co_reconciliation_dirty : bool;
  co_reconciliation_running : bool;
  co_stream_sender : bool;
}.

Definition Coordinator_new (scope : RuntimeScope) : Coordinator := {|
  co_epoch := 0; co_started := false; co_connected := false; co_execution_authorized := false;
  co_state := RuntimeStateMachine_default;
  co_health := {|
    he_state := Rt.Starting; he_reason_code := Why.Startup;
    he_reason := "runtime created; no broker reconciliation yet";
    he_provider := sc_provider scope; he_environment := sc_environment scope;
    he_account_display := redacted_account_id scope; he_runtime_epoch := 0; he_connected := false;
    he_last_successful_reconciliation_at_unix_ms := None; he_reconciliation_age_ms := None;
    he_unresolved_unknown_count := 0; he_open_order_count := 0; he_active_stop_count := 0;
    he_stream_states := all_stream_health; he_persistence_healthy := true;
    he_execution_authorized := false; he_new_exposure_allowed := false |};
  co_command_slots := EXECUTION_QUEUE_CAPACITY; co_reconciliation_dirty := false;
  co_reconciliation_running := false; co_stream_sender := false |}.

Definition set_epoch (v : Z) (c : Coordinator) : Coordinator := {|
  co_epoch := v; co_started := co_started c; co_connected := co_connected c;
  co_execution_authorized := co_execution_authorized c; co_state := co_state c;
  co_health := co_health c; co_command_slots := co_command_slots c;
  co_reconciliation_dirty := co_reconciliation_dirty c;
  co_reconciliation_running := co_reconciliation_running c; co_stream_sender := co_stream_sender c |}.
Definition set_started (v : bool) (c : Coordinator) : Coordinator := {|
  co_epoch := co_epoch c; co_started := v; co_connected := co_connected c;
  co_execution_authorized := co_execution_authorized c; co_state := co_state c;
  co_health := co_health c; co_command_slots := co_command_slots c;
  co_reconciliation_dirty := co_reconciliation_dirty c;
  co_reconciliation_running := co_reconciliation_running c; co_stream_sender := co_stream_sender c |}.
Definition set_connected (v : bool) (c : Coordinator) : Coordinator := {|
  co_epoch := co_epoch c; co_started := co_started c; co_connected := v;
  co_execution_authorized := co_execution_authorized c; co_state := co_state c;
  co_health := co_health c; co_command_slots := co_command_slots c;
  co_reconciliation_dirty := co_reconciliation_dirty c;
  co_reconciliation_running := co_reconciliation_running c; co_stream_sender := co_stream_sender c |}.
Definition set_authorized (v : bool) (c : Coordinator) : Coordinator := {|
  co_epoch := co_epoch c; co_started := co_started c; co_connected := co_connected c;
  co_execution_authorized := v; co_state := co_state c;
  co_health := co_health c; co_command_slots := co_command_slots c;
  co_reconciliation_dirty := co_reconciliation_dirty c;
  co_reconciliation_running := co_reconciliation_running c; co_stream_sender := co_stream_sender c |}.
Definition set_machine (v : RuntimeStateMachine) (c : Coordinator) : Coordinator := {|
  co_epoch := co_epoch c; co_started := co_started c; co_connected := co_connected c;
  co_execution_authorized := co_execution_authorized c; co_state := v;
  co_health := co_health c; co_command_slots := co_command_slots c;
  co_reconciliation_dirty := co_reconciliation_dirty c;
  co_reconciliation_running := co_reconciliation_running c; co_stream_sender := co_stream_sender c |}.
Definition set_health (v : RuntimeHealth) (c : Coordinator) : Coordinator := {|
  co_epoch := co_epoch c; co_started := co_started c; co_connected := co_connected c;
  co_execution_authorized := co_execution_authorized c; co_state := co_state c;
  co_health := v; co_command_slots := co_command_slots c;
  co_reconciliation_dirty := co_reconciliation_dirty c;
  co_reconciliation_running := co_reconciliation_running c; co_stream_sender := co_stream_sender c |}.
Definition set_slots (v : Z) (c : Coordinator) : Coordinator := {|
  co_epoch := co_epoch c; co_started := co_started c; co_connected := co_connected c;
  co_execution_authorized := co_execution_authorized c; co_state := co_state c;
  co_health := co_health c; co_command_slots := v;
  co_reconciliation_dirty := co_reconciliation_dirty c;
  co_reconciliation_running := co_reconciliation_running c; co_stream_sender := co_stream_sender c |}.
Definition set_flags (dirty running : bool) (c : Coordinator) : Coordinator := {|
  co_epoch := co_epoch c; co_started := co_started c; co_connected := co_connected c;
  co_execution_authorized := co_execution_authorized c; co_state := co_state c;
  co_health := co_health c; co_command_slots := co_command_slots c;
  co_reconciliation_dirty := dirty; co_reconciliation_running := running;
  co_stream_sender := co_stream_sender c |}.
Definition set_sender (v : bool) (c : Coordinator) : Coordinator := {|
  co_epoch := co_epoch c; co_started := co_started c; co_connected := co_connected c;
  co_execution_authorized := co_execution_authorized c; co_state := co_state c;
  co_health := co_health c; co_command_slots := co_command_slots c;
  co_reconciliation_dirty := co_reconciliation_dirty c;
  co_reconciliation_running := co_reconciliation_running c; co_stream_sender := v |}.

(** *** Updates of the health report *)

(** What an accepted transition writes. *)
Definition health_transition (target : RuntimeState) (reason_code : ReasonCode) (reason : string)
    (connected authorized : bool) (h : RuntimeHealth) : RuntimeHealth := {|
  he_state := target; he_reason_code := reason_code; he_reason := reason;
  he_provider := he_provider h; he_environment := he_environment h;
  he_account_display := he_account_display h; he_runtime_epoch := he_runtime_epoch h;
  he_connected := connected;
  he_last_successful_reconciliation_at_unix_ms := he_last_successful_reconciliation_at_unix_ms h;
  he_reconciliation_age_ms := he_reconciliation_age_ms h;
  he_unresolved_unknown_count := he_unresolved_unknown_count h;
  he_open_order_count := he_open_order_count h; he_active_stop_count := he_active_stop_count h;
  he_stream_states := he_stream_states h; he_persistence_healthy := true;
  he_execution_authorized := authorized;
  he_new_exposure_allowed := new_exposure_allowed target && authorized && connected |}.

(** What is written when a transition could not be recorded. *)
Definition health_unpersisted (reason_code : ReasonCode) (reason : string) (h : RuntimeHealth)
  : RuntimeHealth := {|
  he_state := Rt.Halted; he_reason_code := reason_code; he_reason := reason;
  he_provider := he_provider h; he_environment := he_environment h;
  he_account_display := he_account_display h; he_runtime_epoch := he_runtime_epoch h;
  he_connected := he_connected h;
  he_last_successful_reconciliation_at_unix_ms := he_last_successful_reconciliation_at_unix_ms h;
  he_reconciliation_age_ms := he_reconciliation_age_ms h;
  he_unresolved_unknown_count := he_unresolved_unknown_count h;
  he_open_order_count := he_open_order_count h; he_active_stop_count := he_active_stop_count h;
  he_stream_states := he_stream_states h; he_persistence_healthy := false;
  he_execution_authorized := he_execution_authorized h; he_new_exposure_allowed := false |}.

(** The four flags and the epoch, when they change on their own. *)
Definition health_flags (epoch : Z) (connected authorized allowed : bool) (h : RuntimeHealth)
  : RuntimeHealth := {|
  he_state := he_state h; he_reason_code := he_reason_code h; he_reason := he_reason h;
  he_provider := he_provider h; he_environment := he_environment h;
  he_account_display := he_account_display h; he_runtime_epoch := epoch; he_connected := connected;
  he_last_successful_reconciliation_at_unix_ms := he_last_successful_reconciliation_at_unix_ms h;
  he_reconciliation_age_ms := he_reconciliation_age_ms h;
  he_unresolved_unknown_count := he_unresolved_unknown_count h;
  he_open_order_count := he_open_order_count h; he_active_stop_count := he_active_stop_count h;
  he_stream_states := he_stream_states h; he_persistence_healthy := he_persistence_healthy h;
  he_execution_authorized := authorized; he_new_exposure_allowed := allowed |}.

Definition health_epoch (epoch : Z) (h : RuntimeHealth) : RuntimeHealth :=
  health_flags epoch (he_connected h) (he_execution_authorized h) (he_new_exposure_allowed h) h.
Definition health_authorized (v : bool) (h : RuntimeHealth) : RuntimeHealth :=
  health_flags (he_runtime_epoch h) (he_connected h) v (he_new_exposure_allowed h) h.
Definition health_unauthorized (h : RuntimeHealth) : RuntimeHealth :=
  health_flags (he_runtime_epoch h) (he_connected h) false false h.
Definition health_connected (h : RuntimeHealth) : RuntimeHealth :=
  health_flags (he_runtime_epoch h) true (he_execution_authorized h) (he_new_exposure_allowed h) h.
Definition health_disconnected (h : RuntimeHealth) : RuntimeHealth :=
  health_flags (he_runtime_epoch h) false (he_execution_authorized h) false h.

(** What a reconciliation report writes; the counts fit a [u64]. *)
Definition health_report (report : ReconciliationReport) (h : RuntimeHealth) : RuntimeHealth := {|
  he_state := he_state h; he_reason_code := he_reason_code h; he_reason := he_reason h;
  he_provider := he_provider h; he_environment := he_environment h;
  he_account_display := he_account_display h; he_runtime_epoch := he_runtime_epoch h;
  he_connected := he_connected h;
  he_last_successful_reconciliation_at_unix_ms := Some (rr_completed_at_unix_ms report);
  he_reconciliation_age_ms := Some 0;
  he_unresolved_unknown_count := length_z (rr_unresolved_logical_request_ids report);
  he_open_order_count := rr_active_order_count report;
  he_active_stop_count := rr_active_stop_count report;
  he_stream_states := he_stream_states h; he_persistence_healthy := he_persistence_healthy h;
  he_execution_authorized := he_execution_authorized h;
  he_new_exposure_allowed := he_new_exposure_allowed h |}.

(** The first entry of a stream, changed in place. *)
Fixpoint update_stream (stream : StreamKind) (f : StreamHealth → StreamHealth) (l : list StreamHealth)
  : list StreamHealth :=
  match l with
  | [] => []
  | x :: l' => if bool_decide (sh_stream x = stream) then f x :: l' else x :: update_stream stream f l'
  end.

Definition health_streams (f : list StreamHealth → list StreamHealth) (h : RuntimeHealth)
  : RuntimeHealth := {|
  he_state := he_state h; he_reason_code := he_reason_code h; he_reason := he_reason h;
  he_provider := he_provider h; he_environment := he_environment h;
  he_account_display := he_account_display h; he_runtime_epoch := he_runtime_epoch h;
  he_connected := he_connected h;
  he_last_successful_reconciliation_at_unix_ms := he_last_successful_reconciliation_at_unix_ms h;
  he_reconciliation_age_ms := he_reconciliation_age_ms h;
  he_unresolved_unknown_count := he_unresolved_unknown_count h;
  he_open_order_count := he_open_order_count h; he_active_stop_count := he_active_stop_count h;
  he_stream_states := f (he_stream_states h); he_persistence_healthy := he_persistence_healthy h;
  he_execution_authorized := he_execution_authorized h;
  he_new_exposure_allowed := he_new_exposure_allowed h |}.

Definition store_error_text (e : StoreError) : string :=
  match e with
  | OwnershipUnavailable => "runtime ownership unavailable"
  | StaleEpoch => "stale runtime epoch"
  | DuplicateMutation => "duplicate logical mutation identity"
  | InvalidMutationTransition => "invalid mutation transition"
  | Corrupt what => "runtime store corruption: " +:+ what
  | UnsupportedSchema version => "unsupported runtime schema version " +:+ int_to_string version
  | Persistence what => "runtime persistence failure: " +:+ what
  | BlockingTask what => "blocking store task failed: " +:+ what
  end.

(** [Vec<String>::join]. *)
Fixpoint join (separator : string) (l : list string) : string :=
  match l with
  | [] => ""
  | [x] => x
  | x :: l' => x +:+ separator +:+ join separator l'
  end.

(** ** Methods *)

Section coordinator.
Context {B D X T C K E : Type}.
Context `{!BrokerReadPort B} `{!RuntimeStore D} `{!ExecutionPort X} `{!ExecutionStreamPort T}
  `{!CredentialResolverPort C} `{!RiskAdmissionPort D K} `{!Ambient E} `{!Serde MutationEvidence}.

(** The coordinator and the states of its ports. *)
Record World := {
  w_co : Coordinator;
  w_broker : B;
  w_store : D;
  w_execution : X;
  w_streams : T;
  w_credentials : C;
  w_risk : K;
  w_ambient : E;
}.

Definition put_co (v : Coordinator) (w : World) : World := {|
  w_co := v; w_broker := w_broker w; w_store := w_store w; w_execution := w_execution w;
  w_streams := w_streams w; w_credentials := w_credentials w; w_risk := w_risk w;
  w_ambient := w_ambient w |}.
Definition put_broker_store (b : B) (d : D) (w : World) : World := {|
  w_co := w_co w; w_broker := b; w_store := d; w_execution := w_execution w;
  w_streams := w_streams w; w_credentials := w_credentials w; w_risk := w_risk w;
  w_ambient := w_ambient w |}.
Definition put_execution (v : X) (w : World) : World := {|
  w_co := w_co w; w_broker := w_broker w; w_store := w_store w; w_execution := v;
  w_streams := w_streams w; w_credentials := w_credentials w; w_risk := w_risk w;
  w_ambient := w_ambient w |}.
Definition put_streams (v : T) (w : World) : World := {|
  w_co := w_co w; w_broker := w_broker w; w_store := w_store w; w_execution := w_execution w;
  w_streams := v; w_credentials := w_credentials w; w_risk := w_risk w; w_ambient := w_ambient w |}.
Definition put_credentials (v : C) (w : World) : World := {|
  w_co := w_co w; w_broker := w_broker w; w_store := w_store w; w_execution := w_execution w;
  w_streams := w_streams w; w_credentials := v; w_risk := w_risk w; w_ambient := w_ambient w |}.
Definition put_risk (v : K) (w : World) : World := {|
  w_co := w_co w; w_broker := w_broker w; w_store := w_store w; w_execution := w_execution w;
  w_streams := w_streams w; w_credentials := w_credentials w; w_risk := v; w_ambient := w_ambient w |}.
Definition put_ambient (v : E) (w : World) : World := {|
  w_co := w_co w; w_broker := w_broker w; w_store := w_store w; w_execution := w_execution w;
  w_streams := w_streams w; w_credentials := w_credentials w; w_risk := w_risk w; w_ambient := v |}.

(** *** Access to the parts *)

Definition on_store {Er A} (m : st D Er A) : st World Er A := λ w,
  let '(d, r) := m (w_store w) in (put_broker_store (w_broker w) d w, r).
Definition on_broker_store {Er A} (m : st (B * D) Er A) : st World Er A := λ w,
  let '(bd, r) := m (w_broker w, w_store w) in (put_broker_store bd.1 bd.2 w, r).
Definition on_execution {Er A} (m : st X Er A) : st World Er A := λ w,
  let '(x, r) := m (w_execution w) in (put_execution x w, r).
Definition on_streams {Er A} (m : st T Er A) : st World Er A := λ w,
  let '(t, r) := m (w_streams w) in (put_streams t w, r).
Definition on_credentials {Er A} (m : st C Er A) : st World Er A := λ w,
  let '(c, r) := m (w_credentials w) in (put_credentials c w, r).
Definition on_risk {Er A} (m : D → st K Er A) : st World Er A := λ w,
  let '(k, r) := m (w_store w) (w_risk w) in (put_risk k w, r).

Notation co A := (st World RuntimeError A).

Definition query_store {A} (q : D → result StoreError A) : st World StoreError A := λ w,
  (w, q (w_store w)).

(** [now_unix_ms()] and [Uuid::new_v4()]. *)
Definition now_unix_ms_store : st World StoreError Z := λ w,
  let '(e, r) := am_now (w_ambient w) in (put_ambient e w, r).
Definition now_unix_ms : co Z := st_map_err Run.Store now_unix_ms_store.
Definition new_uuid : co string := λ w,
  let '(e, v) := am_uuid (w_ambient w) in (put_ambient e w, Ok v).

Definition get_co : co Coordinator := λ w, (w, Ok (w_co w)).
Definition modify_co (f : Coordinator → Coordinator) : co () := λ w, (put_co (f (w_co w)) w, Ok tt).
Definition update_health (f : RuntimeHealth → RuntimeHealth) : co () :=
  modify_co (λ c, set_health (f (co_health c)) c).

(** A result inspected instead of propagated. *)
Definition attempt {Er A} (m : st World Er A) : co (result Er A) := λ w,
  let '(w', r) := m w in (w', Ok r).

Definition current_epoch : co Z :=
  let! c := get_co in
  if co_epoch c =? 0 then st_fail Run.ExecutionGateClosed else st_ret (co_epoch c).

Section scope.
Context (scope : RuntimeScope) (owner_id : string) (config : ReconciliationConfig).

(** *** State transitions *)

Definition drive_machine (target : RuntimeState) : co RuntimeState := λ w,
  let '(m, r) := transition target (co_state (w_co w)) in
  (put_co (set_machine m (w_co w)) w, map_err Run.Transition r).

Definition persist_transition (epoch : Z) (from target : RuntimeState) (reason_code : ReasonCode)
    (detail : string) : co () :=
  if 0 <? epoch then
    let! uuid := new_uuid in
    let! now := now_unix_ms in
    st_map_err Run.Store (on_store (js_record_transition {|
      tr_scope_key := scope_key scope; tr_runtime_epoch := epoch; tr_from := from; tr_to := target;
      tr_reason_code := reason_code; tr_correlation_id := uuid; tr_detail := detail;
      tr_observed_at_unix_ms := now |}))
  else st_ret tt.

Definition transition_to (target : RuntimeState) (reason_code : ReasonCode) (detail : string) : co () :=
  let! c := get_co in
  let! from := drive_machine target in
  persist_transition (co_epoch c) from target reason_code detail ;;;
  let! c := get_co in
  update_health (health_transition target reason_code detail (co_connected c)
                   (co_execution_authorized c)).

(** A transition whose failure only marks the health report. *)
Definition halt_or_mark (reason_code : ReasonCode) (detail : string) : co () :=
  let! halted := attempt (transition_to Rt.Halted reason_code detail) in
  match halted with
  | Ok _ => st_ret tt
  | Err _ => update_health (health_unpersisted reason_code detail)
  end.

Definition require_store {A} (r : result StoreError A) (detail : string) : co A :=
  match r with
  | Ok value => st_ret value
  | Err DuplicateMutation => st_fail (Run.Store DuplicateMutation)
  | Err source => halt_or_mark Why.PersistenceFailure detail ;;; st_fail (Run.Store source)
  end.

Definition record_risk_dispatch_outcome (logical_request_id : string) (outcome : RiskDispatchOutcome)
  : co () :=
  let! r := attempt (on_risk (λ d, ri_record_dispatch_outcome d scope logical_request_id outcome)) in
  match r with
  | Ok _ => st_ret tt
  | Err error =>
      transition_to Rt.Halted Why.PersistenceFailure "risk reservation outcome persistence failed" ;;;
      st_fail (Run.RiskAdmission error)
  end.

(** *** Reconciliation *)

Definition reconcile_locked : co ReconciliationReport :=
  let! epoch := current_epoch in
  let! now := attempt now_unix_ms_store in
  let! r := match now with
            | Ok now =>
                let! id := new_uuid in
                attempt (on_broker_store (reconcile config scope epoch now id))
            | Err _ => st_ret (Err (SafetyFailure "system clock is outside i64 range"))
            end in
  match r with
  | Ok report => st_ret report
  | Err error =>
      halt_or_mark (reconciliation_error_reason error) "authoritative broker reconciliation failed" ;;;
      st_fail (Run.Reconciliation error)
  end.

Definition report_detail (report : ReconciliationReport) : string :=
  match rr_discrepancies report with
  | [] => "authoritative snapshot, stream handoff and checkpoint complete"
  | ds => join "; " ds
  end.

Definition apply_reconciliation_report (report : ReconciliationReport) : co () :=
  let! r := attempt (on_risk (λ d, ri_reconcile d scope report)) in
  match r with
  | Err error =>
      transition_to Rt.Halted Why.PersistenceFailure "risk reservation reconciliation failed" ;;;
      st_fail (Run.RiskAdmission error)
  | Ok _ =>
      update_health (health_report report) ;;;
      transition_to (rr_resulting_state report) (rr_reason_code report) (report_detail report)
  end.

Definition force_reconciliation (reason_code : ReasonCode) (detail : string) : co ReconciliationReport :=
  transition_to Rt.Reconciling reason_code detail ;;;
  let! report := reconcile_locked in
  apply_reconciliation_report report ;;;
  st_ret report.

Definition report_stream_overflow (stream : StreamKind) : co ReconciliationReport :=
  force_reconciliation Why.StreamQueueOverflow
    "safety-critical stream queue overflowed; broker snapshot required".

(** *** Dispatch *)

Definition gate_open (c : Coordinator) (command : RuntimeExecutionCommand) : bool :=
  co_connected c
  && (negb (exposure_bearing command)
      || bool_decide (sm_state (co_state c) = Rt.Ready)
         && negb (co_reconciliation_dirty c) && negb (co_reconciliation_running c)).

Definition ensure_execution_allowed (purpose : RuntimeExecutionPurpose)
    (command : RuntimeExecutionCommand) : co () :=
  let! c := get_co in
  if negb (gate_open c command) then st_fail Run.ExecutionGateClosed
  else
    let! authorized := attempt (on_credentials (cr_authorize_execution scope purpose)) in
    match authorized with
    | Err _ =>
        modify_co (set_authorized false) ;;;
        update_health health_unauthorized ;;;
        st_fail Run.ExecutionGateClosed
    | Ok _ =>
        (if bool_decide (purpose = Purpose.ProductionManual) then st_ret tt
         else modify_co (set_authorized true) ;;; update_health (health_authorized true)) ;;;
        let! epoch := current_epoch in
        let! verified := attempt (query_store (λ d, js_verify_epoch d (scope_key scope) epoch)) in
        require_store verified "runtime ownership/epoch verification failed"
    end.

Definition finish_mutation (logical_request_id : string) (target : JournalState)
    (broker_evidence_ref : option string) (disposition : option ReconciliationDisposition)
  : co MutationRecord :=
  let! epoch := current_epoch in
  let! r := attempt (let! now := now_unix_ms_store in
    on_store (js_transition_mutation (scope_key scope) logical_request_id
      [Journal.UnknownAfterDispatch] target broker_evidence_ref disposition epoch now)) in
  require_store r "mutation outcome persistence failed".

(** Before the fence a failure releases the reservation. *)
Definition or_reject {A} (logical_request_id : string) (m : co A) : co A :=
  let! r := attempt m in
  match r with
  | Ok value => st_ret value
  | Err error =>
      record_risk_dispatch_outcome logical_request_id RiskOut.Rejected ;;; st_fail error
  end.

(** What follows the single transport attempt. *)
Definition conclude_dispatch (logical_request_id : string) (epoch : Z)
    (outcome : result BrokerPortError ExecutionResult) : co DispatchReceipt :=
  match outcome with
  | Ok (ExecutionAcknowledged broker_evidence_ref links) =>
      let! linked := attempt (let! now := now_unix_ms_store in
        on_store (js_upsert_identity_links (scope_key scope) links epoch now)) in
      require_store linked "broker acknowledged mutation but identity-link persistence failed" ;;;
      let! record := finish_mutation logical_request_id Journal.Acknowledged
        (Some broker_evidence_ref) None in
      record_risk_dispatch_outcome logical_request_id RiskOut.Acknowledged ;;;
      st_ret (receipt record)
  | Ok (ExecutionRejected broker_evidence_ref) =>
      let! record := finish_mutation logical_request_id Journal.Rejected
        (Some broker_evidence_ref) None in
      record_risk_dispatch_outcome logical_request_id RiskOut.Rejected ;;;
      st_ret (receipt record)
  | Ok (ExecutionUnknown broker_evidence_ref) =>
      (if is_some broker_evidence_ref
       then let! _ := finish_mutation logical_request_id Journal.UnknownAfterDispatch
              broker_evidence_ref None in st_ret tt
       else st_ret tt) ;;;
      transition_to Rt.Halted Why.UnknownMutation "capital mutation remains UNKNOWN_AFTER_DISPATCH" ;;;
      let! _ := attempt (on_risk (λ d, ri_record_dispatch_outcome d scope logical_request_id
        RiskOut.UnknownAfterDispatch)) in
      st_fail (Run.UnknownAfterDispatch logical_request_id)
  | Err error =>
      transition_to Rt.Halted Why.UnknownMutation
        "mutation transport failed after durable dispatch fence" ;;;
      let! _ := attempt (on_risk (λ d, ri_record_dispatch_outcome d scope logical_request_id
        RiskOut.UnknownAfterDispatch)) in
      st_fail (Run.UnknownTransport logical_request_id error)
  end.

(** Journal the intent and pass the fence. *)
Definition fence_mutation (command : RuntimeExecutionCommand) (logical_request_id correlation_id : string)
  : co (Z * MutationRecord) :=
  let! epoch := or_reject logical_request_id current_epoch in
  let! now := or_reject logical_request_id now_unix_ms in
  let! prepared := or_reject logical_request_id (st_map_err Run.Model (st_lift
    (MutationRecord_prepared scope logical_request_id (command_kind command)
       (command_evidence command) correlation_id epoch now))) in
  or_reject logical_request_id (
    let! inserted := attempt (on_store (js_insert_mutation prepared)) in
    require_store inserted "failed to persist mutation intent") ;;;
  let! fenced := or_reject logical_request_id (
    let! claimed := attempt (on_store (js_claim_dispatch_unknown (scope_key scope)
      logical_request_id epoch now)) in
    require_store claimed "failed to persist pre-dispatch UNKNOWN fence") in
  st_ret (epoch, fenced).

Definition dispatch_with_permit (purpose : RuntimeExecutionPurpose) (command : RuntimeExecutionCommand)
    (logical_request_id correlation_id : string) : co DispatchReceipt :=
  let! fenced := fence_mutation command logical_request_id correlation_id in
  let! outcome := attempt (on_execution (ex_dispatch_once scope purpose command fenced.2)) in
  conclude_dispatch logical_request_id fenced.1 outcome.

(** Risk admission: the command with its approved quantity. *)
Definition admit_command (purpose : RuntimeExecutionPurpose) (command : RuntimeExecutionCommand)
    (logical_request_id : string) : co (RuntimeExecutionCommand * RiskAdmission) :=
  let! admission := st_map_err Run.RiskAdmission
    (on_risk (λ d, ri_admit d scope purpose command logical_request_id)) in
  if incomplete_approval command admission then
    (if is_some (ad_reservation_id admission)
     then record_risk_dispatch_outcome logical_request_id RiskOut.Rejected else st_ret tt) ;;;
    st_fail (Run.RiskAdmission (UnavailableAdmission "risk admission returned an incomplete approval"))
  else
    let! command := or_reject logical_request_id
      (st_lift (apply_risk_approval command (ad_approved_delta_lots admission))) in
    let! _ := current_epoch in
    st_ret (command, admission).

(** A slot of the semaphore, given back when the body ends. *)
Definition with_permit {A} (body : co A) : co A := λ w,
  let '(w', r) := body (put_co (set_slots (co_command_slots (w_co w) - 1) (w_co w)) w) in
  (put_co (set_slots (co_command_slots (w_co w') + 1) (w_co w')) w', r).

Definition dispatch_for_purpose (command : RuntimeExecutionCommand)
    (logical_request_id correlation_id : string) (purpose : RuntimeExecutionPurpose)
  : co DispatchReceipt :=
  ensure_execution_allowed purpose command ;;;
  if negb (bool_decide (command_account_id command = sc_broker_account_id scope))
  then st_fail (Run.Safety "execution command account does not match runtime scope")
  else if match request_identity command with
          | Some identity => negb (bool_decide (identity = logical_request_id))
          | None => false
          end
  then st_fail (Run.Safety
    "execution command request identity does not match runtime logical identity")
  else
    let! admitted := admit_command purpose command logical_request_id in
    let! c := get_co in
    if co_command_slots c <=? 0 then
      record_risk_dispatch_outcome logical_request_id RiskOut.Rejected ;;;
      st_fail Run.CommandQueueFull
    else with_permit (
      or_reject logical_request_id (st_map_err Run.RiskAdmission
        (on_risk (λ d, ri_validate_before_dispatch d scope purpose admitted.1 logical_request_id admitted.2))) ;;;
      dispatch_with_permit purpose admitted.1 logical_request_id correlation_id).

Definition dispatch (command : RuntimeExecutionCommand) (logical_request_id correlation_id : string)
  : co DispatchReceipt :=
  dispatch_for_purpose command logical_request_id correlation_id
    (match sc_environment scope with
     | SandboxEnv => Purpose.SandboxMutation
     | ProductionEnv => Purpose.ProductionAutomated
     end).

Definition dispatch_manual (command : RuntimeExecutionCommand)
    (logical_request_id correlation_id : string) : co DispatchReceipt :=
  dispatch_for_purpose command logical_request_id correlation_id
    (match sc_environment scope with
     | SandboxEnv => Purpose.SandboxMutation
     | ProductionEnv => Purpose.ProductionManual
     end).

(** *** Streams *)

Definition set_stream_state (stream : StreamKind) (state : StreamState) (queue_depth : Z) : co () :=
  update_health (health_streams (update_stream stream (λ h, {|
    sh_stream := sh_stream h; sh_required_for_ready := sh_required_for_ready h; sh_state := state;
    sh_queue_depth := queue_depth; sh_last_event_at_unix_ms := sh_last_event_at_unix_ms h |}))).

Fixpoint activate_streams (l : list StreamKind) : co () :=
  match l with
  | [] => st_ret tt
  | stream :: l' => set_stream_state stream Stream.Active 0 ;;; activate_streams l'
  end.

(** The missing required streams, in the order of the enumeration. *)
Definition missing_streams (active : list StreamKind) : list StreamKind :=
  List.filter (λ s, negb (bool_decide (s ∈ active))) required_streams.

Definition stream_debug (s : StreamKind) : string :=
  match s with
  | Stream.OrderState => "OrderState" | Stream.Trades => "Trades" | Stream.Positions => "Positions"
  | Stream.Portfolio => "Portfolio" | Stream.Operations => "Operations"
  end.

(** Three attempts; [remaining] counts those after this one. *)
Fixpoint connect_attempts (remaining : nat) (epoch : Z) : co () :=
  let! r := attempt (on_streams (es_connect scope epoch)) in
  match r with
  | Ok active =>
      match missing_streams active with
      | [] => activate_streams active ;;; modify_co (set_connected true)
      | missing => st_fail (Run.Safety ("required stream ACK set incomplete: "
                                        +:+ join "," (stream_debug <$> missing)))
      end
  | Err error =>
      match remaining with
      | S n => if safe_read_retryable error then connect_attempts n epoch
               else st_fail (Run.Broker error)
      | O => st_fail (Run.Broker error)
      end
  end.

Definition connect_streams : co () :=
  let! epoch := current_epoch in
  connect_attempts 2 epoch.

Definition recover_stream_gap (reason : string) : co () :=
  transition_to Rt.Reconciling Why.StreamGap reason ;;;
  let! first := reconcile_locked in
  if bool_decide (rr_resulting_state first = Rt.Halted) then apply_reconciliation_report first
  else
    let! c := get_co in
    if negb (co_stream_sender c) then st_fail (Run.Safety "stream sender unavailable")
    else
      let! r := attempt connect_streams in
      match r with
      | Err error =>
          transition_to Rt.Halted Why.StreamDisconnected
            "execution stream reconnect failed after bounded retries" ;;;
          st_fail error
      | Ok _ =>
          let! final_report := reconcile_locked in
          apply_reconciliation_report final_report
      end.

Definition links_known (event : BrokerEvent) (l : BrokerIdentityLinks) : bool :=
  match be_broker_order_id event with
  | Some id => bool_decide (il_broker_order_id l = Some id)
               || bool_decide (il_replacement_broker_order_id l = Some id)
  | None => false
  end
  || match be_broker_stop_order_id event with
     | Some id => bool_decide (il_broker_stop_order_id l = Some id)
     | None => false
     end.

Definition stream_event_has_local_provenance (event : BrokerEvent) : co bool :=
  let! links := st_map_err Run.Store (query_store (λ d, js_all_identity_links d (scope_key scope))) in
  if existsb (links_known event) links then st_ret true
  else
    let! unresolved := st_map_err Run.Store
      (query_store (λ d, js_unresolved_mutations d (scope_key scope))) in
    st_ret (match be_logical_request_id event with
            | Some id => existsb (λ m, bool_decide (mr_logical_request_id m = id)) unresolved
            | None => false
            end).

(** [request_coalesced_reconciliation] without the task it spawns, whose loop body
    is [coalesced_round]; the result says whether a task is spawned. *)
Definition request_coalesced_reconciliation (reason_code : ReasonCode) (detail : string) : co bool :=
  let! c := get_co in
  modify_co (set_flags true (co_reconciliation_running c)) ;;;
  if co_reconciliation_running c then st_ret false
  else
    modify_co (set_flags true true) ;;;
    transition_to Rt.Reconciling reason_code detail ;;;
    st_ret true.

Definition clear_running : co () :=
  modify_co (λ c, set_flags (co_reconciliation_dirty c) false c).

(** One turn of the spawned loop; [true] when it goes round again.  Between its
    steps other tasks may set the dirty flag, which [racing] stands for. *)
Definition coalesced_round (racing1 racing2 : bool) : co bool :=
  modify_co (λ c, set_flags false (co_reconciliation_running c) c) ;;;
  let! r := attempt reconcile_locked in
  match r with
  | Err _ => clear_running ;;; st_ret false
  | Ok report =>
      modify_co (λ c, set_flags (co_reconciliation_dirty c || racing1) (co_reconciliation_running c) c) ;;;
      let! c := get_co in
      if co_reconciliation_dirty c then st_ret true
      else
        let! applied := attempt (apply_reconciliation_report report) in
        match applied with
        | Err _ => clear_running ;;; st_ret false
        | Ok _ =>
            clear_running ;;;
            modify_co (λ c, set_flags (co_reconciliation_dirty c || racing2) (co_reconciliation_running c) c) ;;;
            let! c := get_co in
            if negb (co_reconciliation_dirty c) then st_ret false
            else
              modify_co (λ c, set_flags (co_reconciliation_dirty c) true c) ;;;
              let! t := attempt (transition_to Rt.Reconciling Why.ReconciliationStarted
                "capital state changed during authoritative refresh") in
              match t with
              | Ok _ => st_ret true
              | Err _ => clear_running ;;; st_ret false
              end
        end
  end.

(** An order or stop event that nothing local explains. *)
Definition unfamiliar_event (class : BrokerEventClass) : co () :=
  let reason := if bool_decide (class = EventCls.Order)
                then Why.BrokerOrderConflict else Why.BrokerStopConflict in
  let! report := force_reconciliation reason
    "unfamiliar capital-affecting stream identity requires broker snapshot" in
  if bool_decide (rr_resulting_state report = Rt.Ready)
  then transition_to Rt.Halted reason
         "unfamiliar stream identity not yet confirmed by unary snapshot"
  else st_ret tt.

Definition handle_stream_event (event : BrokerEvent) (queue_depth : Z) : co () :=
  let class := be_event_class event in
  let stream := event_class_stream class in
  set_stream_state stream Stream.Active queue_depth ;;;
  let! now := attempt now_unix_ms in
  update_health (health_streams (update_stream stream (λ h, {|
    sh_stream := sh_stream h; sh_required_for_ready := sh_required_for_ready h;
    sh_state := sh_state h; sh_queue_depth := sh_queue_depth h;
    sh_last_event_at_unix_ms := match now with Ok v => Some v | Err _ => None end |}))) ;;;
  let! epoch := current_epoch in
  if negb (be_runtime_epoch event =? epoch) then st_ret tt
  else
    let! inserted := st_map_err Run.Store (let! now := now_unix_ms_store in
      on_store (js_record_broker_event (scope_key scope) event now)) in
    if negb inserted then st_ret tt
    else match class with
         | EventCls.Order | EventCls.Stop =>
             let! known := stream_event_has_local_provenance event in
             if known then st_ret tt else unfamiliar_event class
         | EventCls.Fill | EventCls.Operation | EventCls.Position | EventCls.Portfolio =>
             let! _ := request_coalesced_reconciliation Why.ReconciliationStarted
               "capital-state stream event requires authoritative unary refresh" in
             st_ret tt
         end.

Definition stream_lost (stream : StreamKind) (reason : string) : co () :=
  set_stream_state stream Stream.Stale 0 ;;;
  if required_stream stream then
    modify_co (set_connected false) ;;;
    update_health health_disconnected ;;;
    recover_stream_gap reason
  else st_ret tt.

Definition handle_stream_signal (signal : StreamSignal) (queue_depth : Z) : co () :=
  match signal with
  | StreamConnected stream => set_stream_state stream Stream.Active 0
  | StreamEvent event => handle_stream_event event queue_depth
  | StreamGap stream reason | StreamDisconnected stream reason => stream_lost stream reason
  end.

(** *** Start and shutdown *)

Definition take_ownership : co Z :=
  let! now := now_unix_ms in
  let! ownership := attempt (on_store (js_acquire_ownership scope owner_id now)) in
  match ownership with
  | Ok epoch => st_ret epoch
  | Err source =>
      let reason := match source with
                    | OwnershipUnavailable => Why.OwnershipFailure
                    | _ => Why.PersistenceFailure
                    end in
      let! _ := drive_machine Rt.Halted in
      update_health (health_unpersisted reason (store_error_text source)) ;;;
      st_fail (Run.Store source)
  end.

Definition resolve_credentials (epoch : Z) : co () :=
  let! resolution := attempt (on_credentials (cr_resolve scope)) in
  match resolution with
  | Err error =>
      transition_to Rt.Halted Why.CredentialRejected "credential resolution failed" ;;;
      st_fail (Run.Broker error)
  | Ok authorized =>
      modify_co (set_authorized authorized) ;;;
      update_health (health_authorized authorized) ;;;
      if authorized then st_ret tt
      else
        let! uuid := new_uuid in
        let! now := now_unix_ms in
        st_map_err Run.Store (on_store (js_append_audit {|
          ra_scope_key := scope_key scope; ra_runtime_epoch := epoch;
          ra_event_type := "EXECUTION_AUTHORIZATION_REJECTED";
          ra_reason_code := Why.ExecutionUnauthorized; ra_correlation_id := uuid;
          ra_redacted_detail := "credential resolved for reads; execution authorization disabled";
          ra_observed_at_unix_ms := now |}))
  end.

Definition start : co ReconciliationReport :=
  let! c := get_co in
  if co_started c then st_fail (Run.Safety "runtime coordinator instance may start exactly once")
  else
    modify_co (set_started true) ;;;
    let! epoch := take_ownership in
    modify_co (set_epoch epoch) ;;;
    update_health (health_epoch epoch) ;;;
    transition_to Rt.Connecting Why.Connecting "resolving opaque credential reference" ;;;
    resolve_credentials epoch ;;;
    transition_to Rt.Reconciling Why.ReconciliationStarted "initial authoritative broker reconciliation" ;;;
    let! first := reconcile_locked in
    if bool_decide (rr_resulting_state first = Rt.Halted) then
      apply_reconciliation_report first ;;; st_ret first
    else
      let! r := attempt connect_streams in
      match r with
      | Err error =>
          transition_to Rt.Halted Why.StreamDisconnected
            "required execution stream connection failed after bounded retries" ;;;
          st_fail error
      | Ok _ =>
          modify_co (set_sender true) ;;;
          modify_co (set_connected true) ;;;
          update_health health_connected ;;;
          let! final_report := reconcile_locked in
          apply_reconciliation_report final_report ;;;
          st_ret final_report
      end.

(** The wait for running commands ends with them or with a timeout, and gives its
    permits back: it has no effect here. *)
Definition shutdown : co () :=
  transition_to Rt.Stopping Why.ShutdownRequested "new command admission closed" ;;;
  let! _ := attempt (on_streams es_disconnect) in
  modify_co (set_sender false) ;;;
  modify_co (set_connected false) ;;;
  transition_to Rt.Stopped Why.ShutdownComplete "stream tasks closed and final audit persisted" ;;;
  let! epoch := current_epoch in
  st_map_err Run.Store (let! now := now_unix_ms_store in
    on_store (js_release_ownership (scope_key scope) epoch now)) ;;;
  update_health health_disconnected.

(** The health report with the age of the last reconciliation. *)
Definition health : co RuntimeHealth :=
  let! c := get_co in
  let h := co_health c in
  let! age := match he_last_successful_reconciliation_at_unix_ms h with
              | None => st_ret None
              | Some last =>
                  let! now := attempt now_unix_ms in
                  st_ret (match now with
                          | Ok now => checked U64 (wrap I64 (now - last))
                          | Err _ => None
                          end)
              end in
  st_ret {|
    he_state := he_state h; he_reason_code := he_reason_code h; he_reason := he_reason h;
    he_provider := he_provider h; he_environment := he_environment h;
    he_account_display := he_account_display h; he_runtime_epoch := he_runtime_epoch h;
    he_connected := he_connected h;
    he_last_successful_reconciliation_at_unix_ms := he_last_successful_reconciliation_at_unix_ms h;
    he_reconciliation_age_ms := age;
    he_unresolved_unknown_count := he_unresolved_unknown_count h;
    he_open_order_count := he_open_order_count h; he_active_stop_count := he_active_stop_count h;
    he_stream_states := he_stream_states h; he_persistence_healthy := he_persistence_healthy h;
    he_execution_authorized := he_execution_authorized h;
    he_new_exposure_allowed := he_new_exposure_allowed h |}.
End scope.
End coordinator.

(** ** What leaves the execution port alone *)

Section quiet.
Context {B D X T C K E : Type}.
Context `{!BrokerReadPort B} `{!RuntimeStore D} `{!ExecutionPort X} `{!ExecutionStreamPort T}
  `{!CredentialResolverPort C} `{!RiskAdmissionPort D K} `{!Ambient E} `{!Serde MutationEvidence}.
Notation World := (@World B D X T C K E).

Definition nothing_sent (w w' : World) : Prop := w_execution w' = w_execution w.

#[export] Instance nothing_sent_refl : Reflexive nothing_sent.
Proof. done. Qed.
#[export] Instance nothing_sent_trans : Transitive nothing_sent.
Proof. intros ???. unfold nothing_sent. congruence. Qed.

Definition sends_nothing {Er A} (m : st World Er A) : Prop := st_effect nothing_sent m.

Lemma sends_nothing_bind {Er A F} (m : st World Er A) (k : A → st World Er F) :
  sends_nothing m → (∀ a, sends_nothing (k a)) → sends_nothing (st_bind m k).
Proof. apply (effect_bind nothing_sent). Qed.

Lemma sends_nothing_ret {Er A} (a : A) : sends_nothing (Er:=Er) (st_ret a).
Proof. apply (effect_ret nothing_sent). Qed.
Lemma sends_nothing_fail {Er A} (e : Er) : sends_nothing (A:=A) (st_fail e).
Proof. apply (effect_fail nothing_sent). Qed.
Lemma sends_nothing_lift {Er A} (x : result Er A) : sends_nothing (st_lift x).
Proof. apply (effect_lift nothing_sent). Qed.

Lemma sends_nothing_map_err {Er F A} (f : Er → F) (m : st World Er A) :
  sends_nothing m → sends_nothing (st_map_err f m).
Proof.
  intros Hm w w' r H. unfold st_map_err in H. destruct (m w) as [w1 r1] eqn:H1. simplify_eq.
  by eapply Hm.
Qed.

Lemma sends_nothing_attempt {Er A} (m : st World Er A) : sends_nothing m → sends_nothing (attempt m).
Proof.
  intros Hm w w' r H. unfold attempt in H. destruct (m w) as [w1 r1] eqn:H1. simplify_eq.
  by eapply Hm.
Qed.

Lemma sends_nothing_store {Er A} (m : st D Er A) : sends_nothing (on_store m).
Proof. intros w w' r H. unfold on_store in H. destruct (m _). by simplify_eq. Qed.
Lemma sends_nothing_broker {Er A} (m : st (B * D) Er A) : sends_nothing (on_broker_store m).
Proof. intros w w' r H. unfold on_broker_store in H. destruct (m _). by simplify_eq. Qed.
Lemma sends_nothing_risk {Er A} (m : D → st K Er A) : sends_nothing (on_risk m).
Proof. intros w w' r H. unfold on_risk in H. destruct (m _ _). by simplify_eq. Qed.
Lemma sends_nothing_credentials {Er A} (m : st C Er A) : sends_nothing (on_credentials m).
Proof. intros w w' r H. unfold on_credentials in H. destruct (m _). by simplify_eq. Qed.
Lemma sends_nothing_query {A} (q : D → result StoreError A) : sends_nothing (query_store q).
Proof. intros w w' r H. unfold query_store in H. by simplify_eq. Qed.
Lemma sends_nothing_now : sends_nothing now_unix_ms_store.
Proof. intros w w' r H. unfold now_unix_ms_store in H. destruct (am_now _). by simplify_eq. Qed.
Lemma sends_nothing_uuid : sends_nothing new_uuid.
Proof. intros w w' r H. unfold new_uuid in H. destruct (am_uuid _). by simplify_eq. Qed.
Lemma sends_nothing_get_co : sends_nothing get_co.
Proof. intros w w' r H. unfold get_co in H. by simplify_eq. Qed.
Lemma sends_nothing_modify f : sends_nothing (modify_co f).
Proof. intros w w' r H. unfold modify_co in H. by simplify_eq. Qed.
Lemma sends_nothing_machine target : sends_nothing (drive_machine target).
Proof. intros w w' r H. unfold drive_machine in H. destruct (transition _ _). by simplify_eq. Qed.
End quiet.

(** Walks a method that never reaches the execution port. *)
Create HintDb quiet discriminated.
#[export] Hint Resolve sends_nothing_ret sends_nothing_fail sends_nothing_lift sends_nothing_store
  sends_nothing_broker sends_nothing_risk sends_nothing_credentials sends_nothing_query
  sends_nothing_now sends_nothing_uuid sends_nothing_get_co sends_nothing_modify
  sends_nothing_machine : quiet.

Ltac walk_quiet :=
  repeat first
    [ solve [eauto 2 with quiet]
    | apply sends_nothing_bind; [|intros ?]
    | apply sends_nothing_map_err
    | apply sends_nothing_attempt
    | progress intros
    | case_match ].

Section quiet_methods.
Context {B D X T C K E : Type}.
Context `{!BrokerReadPort B} `{!RuntimeStore D} `{!ExecutionPort X} `{!ExecutionStreamPort T}
  `{!CredentialResolverPort C} `{!RiskAdmissionPort D K} `{!Ambient E} `{!Serde MutationEvidence}.
Notation World := (@World B D X T C K E).
Context (scope : RuntimeScope).

Lemma sends_nothing_epoch : sends_nothing (current_epoch : st World _ _).
Proof. unfold current_epoch. walk_quiet. Qed.
Hint Resolve sends_nothing_epoch : quiet.

Lemma sends_nothing_transition target why detail :
  sends_nothing (transition_to scope target why detail : st World _ _).
Proof. unfold transition_to, persist_transition, update_health, now_unix_ms. walk_quiet. Qed.
Hint Resolve sends_nothing_transition : quiet.

Lemma sends_nothing_require {A} (r : result StoreError A) detail :
  sends_nothing (require_store scope r detail : st World _ _).
Proof. unfold require_store, halt_or_mark, update_health. walk_quiet. Qed.
Hint Resolve sends_nothing_require : quiet.

Lemma sends_nothing_outcome id out :
  sends_nothing (record_risk_dispatch_outcome scope id out : st World _ _).
Proof. unfold record_risk_dispatch_outcome. walk_quiet. Qed.
Hint Resolve sends_nothing_outcome : quiet.

Lemma sends_nothing_or_reject {A} id (m : st World RuntimeError A) :
  sends_nothing m → sends_nothing (or_reject scope id m).
Proof. intros Hm. unfold or_reject. walk_quiet. Qed.

Lemma sends_nothing_finish id target ev d :
  sends_nothing (finish_mutation scope id target ev d : st World _ _).
Proof. unfold finish_mutation. walk_quiet. Qed.
Hint Resolve sends_nothing_finish : quiet.

Lemma sends_nothing_conclude id ep out :
  sends_nothing (conclude_dispatch scope id ep out : st World _ _).
Proof. unfold conclude_dispatch. walk_quiet. Qed.

Lemma sends_nothing_fence command id corr :
  sends_nothing (fence_mutation scope command id corr : st World _ _).
Proof.
  unfold fence_mutation, now_unix_ms.
  repeat (apply sends_nothing_bind; [apply sends_nothing_or_reject; walk_quiet|intros ?]). walk_quiet.
Qed.

Lemma sends_nothing_admit purpose command id :
  sends_nothing (admit_command scope purpose command id : st World _ _).
Proof.
  unfold admit_command. apply sends_nothing_bind; [walk_quiet|intros a].
  case_match; [walk_quiet|]. apply sends_nothing_bind; [apply sends_nothing_or_reject; walk_quiet|intros ?].
  walk_quiet.
Qed.

Lemma sends_nothing_ensure purpose command :
  sends_nothing (ensure_execution_allowed scope purpose command : st World _ _).
Proof. unfold ensure_execution_allowed, update_health. walk_quiet. Qed.
End quiet_methods.

(** ** Errors that leave a mutation in doubt *)

Definition unknown_error (e : RuntimeError) : bool :=
  match e with Run.UnknownAfterDispatch _ | Run.UnknownTransport _ _ => true | _ => false end.

Section plain.
Context {B D X T C K E : Type}.
Context `{!BrokerReadPort B} `{!RuntimeStore D} `{!ExecutionPort X} `{!ExecutionStreamPort T}
  `{!CredentialResolverPort C} `{!RiskAdmissionPort D K} `{!Ambient E} `{!Serde MutationEvidence}.
Notation World := (@World B D X T C K E).

(** A step whose errors are never of that kind. *)
Definition plain {A} (m : st World RuntimeError A) : Prop := ∀ w w' e,
  m w = (w', Err e) → unknown_error e = false.

Lemma plain_bind {A F} (m : st World RuntimeError A) (k : A → st World RuntimeError F) :
  plain m → (∀ a, plain (k a)) → plain (st_bind m k).
Proof.
  intros Hm Hk w w' e [(e' & H & [= ->])|(w1 & a & _ & H)]%st_bind_cases; [by eapply Hm|by eapply Hk].
Qed.

Lemma plain_ret {A} (a : A) : plain (st_ret a).
Proof. done. Qed.
Lemma plain_fail {A} e : unknown_error e = false → plain (A:=A) (st_fail e).
Proof. intros He w w' e' H. unfold st_fail in H. by simplify_eq. Qed.
Lemma plain_attempt {Er A} (m : st World Er A) : plain (attempt m).
Proof. intros w w' e H. unfold attempt in H. by destruct (m w). Qed.
Lemma plain_map_err {Er A} (f : Er → RuntimeError) (m : st World Er A) :
  (∀ e, unknown_error (f e) = false) → plain (st_map_err f m).
Proof.
  intros Hf w w' e H. unfold st_map_err in H. destruct (m w) as [w1 [a|e1]]; simpl in H; by simplify_eq.
Qed.
Lemma plain_uuid : plain new_uuid.
Proof. intros w w' e H. unfold new_uuid in H. by destruct (am_uuid _). Qed.
Lemma plain_get_co : plain get_co.
Proof. done. Qed.
Lemma plain_modify f : plain (modify_co f).
Proof. done. Qed.
Lemma plain_machine target : plain (drive_machine target).
Proof.
  intros w w' e H. unfold drive_machine in H. destruct (transition _ _) as [m [a|te]]; by simplify_eq/=.
Qed.
End plain.

Create HintDb plain discriminated.
#[export] Hint Resolve plain_ret plain_attempt plain_uuid plain_get_co plain_modify plain_machine : plain.

Ltac walk_plain :=
  repeat first
    [ solve [eauto 2 with plain]
    | apply plain_bind; [|intros ?]
    | apply plain_map_err; by intros ?
    | apply plain_fail; reflexivity
    | progress intros
    | case_match ].

Section plain_methods.
Context {B D X T C K E : Type}.
Context `{!BrokerReadPort B} `{!RuntimeStore D} `{!ExecutionPort X} `{!ExecutionStreamPort T}
  `{!CredentialResolverPort C} `{!RiskAdmissionPort D K} `{!Ambient E} `{!Serde MutationEvidence}.
Notation World := (@World B D X T C K E).
Context (scope : RuntimeScope).

Lemma plain_epoch : plain (current_epoch : st World _ _).
Proof. unfold current_epoch. walk_plain. Qed.
Hint Resolve plain_epoch : plain.

Lemma plain_transition target why detail : plain (transition_to scope target why detail : st World _ _).
Proof. unfold transition_to, persist_transition, update_health, now_unix_ms. walk_plain. Qed.
Hint Resolve plain_transition : plain.

Lemma plain_require {A} (r : result StoreError A) detail : plain (require_store scope r detail : st World _ _).
Proof. unfold require_store, halt_or_mark, update_health. walk_plain. Qed.
Hint Resolve plain_require : plain.

Lemma plain_outcome id out : plain (record_risk_dispatch_outcome scope id out : st World _ _).
Proof. unfold record_risk_dispatch_outcome. walk_plain. Qed.
Hint Resolve plain_outcome : plain.

Lemma plain_or_reject {A} id (m : st World RuntimeError A) : plain m → plain (or_reject scope id m).
Proof.
  intros Hm. unfold or_reject. intros w w' e [(e' & H & [= ->])|(w1 & r & H1 & H)]%st_bind_cases.
  { by apply plain_attempt in H. }
  unfold attempt in H1. destruct (m w) as [w2 r2] eqn:H2. injection H1 as -> ->.
  destruct r as [v|e1]; [by unfold st_ret in H|].
  refine (plain_bind _ _ _ _ _ _ _ H); [apply plain_outcome|intros _; apply plain_fail; by eapply Hm].
Qed.

Lemma plain_finish id target ev d : plain (finish_mutation scope id target ev d : st World _ _).
Proof. unfold finish_mutation. walk_plain. Qed.
Hint Resolve plain_finish : plain.

Lemma plain_fence command id corr : plain (fence_mutation scope command id corr : st World _ _).
Proof.
  unfold fence_mutation, now_unix_ms.
  repeat (apply plain_bind; [apply plain_or_reject; walk_plain|intros ?]). walk_plain.
Qed.

Lemma apply_risk_approval_plain command lots e :
  apply_risk_approval command lots = Err e → unknown_error e = false.
Proof.
  unfold apply_risk_approval, approve_order, stale_admission. intros H. repeat case_match; by simplify_eq.
Qed.

Lemma plain_admit purpose command id : plain (admit_command scope purpose command id : st World _ _).
Proof.
  unfold admit_command. apply plain_bind; [walk_plain|intros a].
  destruct (incomplete_approval command a); [walk_plain|].
  apply plain_bind; [|intros ?; walk_plain]. apply plain_or_reject. intros w w' e H.
  unfold st_lift in H. injection H as _ H. by eapply apply_risk_approval_plain.
Qed.

Lemma plain_ensure purpose command : plain (ensure_execution_allowed scope purpose command : st World _ _).
Proof. unfold ensure_execution_allowed, update_health. walk_plain. Qed.

(** *** Accepted transitions *)

Lemma transition_to_Ok target why detail (w w' : World) :
  transition_to scope target why detail w = (w', Ok tt) →
  w_co w' = set_health (health_transition target why detail (co_connected (w_co w))
              (co_execution_authorized (w_co w)) (co_health (w_co w)))
              (set_machine {| sm_state := target |} (w_co w)) ∧
  snd (transition target (co_state (w_co w))) = Ok (sm_state (co_state (w_co w))).
Proof.
  unfold transition_to. intros (w1 & c & H1 & H)%st_bind_Ok. unfold get_co in H1. injection H1 as <- <-.
  apply st_bind_Ok in H as (w2 & from & H2 & H). unfold drive_machine in H2.
  rewrite transition_cases in *. destruct (bool_decide _ || allowed _ _) eqn:Hok; simpl in H2; [|done].
  injection H2 as <- <-.
  apply st_bind_Ok in H as (w3 & [] & H3 & H).
  assert (w_co w3 = set_machine {| sm_state := target |} (w_co w)) as Hco.
  { unfold persist_transition in H3. destruct (0 <? _).
    - apply st_bind_Ok in H3 as (w4 & u & H4 & H3). unfold new_uuid in H4.
      destruct (am_uuid _); injection H4 as <- _.
      apply st_bind_Ok in H3 as (w5 & n & H5 & H3). unfold now_unix_ms, now_unix_ms_store, st_map_err in H5.
      destruct (am_now _) as [e1 r1]; injection H5 as <- _.
      unfold st_map_err, on_store in H3. destruct (js_record_transition _ _) as [d r]. by injection H3 as <- _.
    - unfold st_ret in H3. by injection H3 as <-. }
  apply st_bind_Ok in H as (w4 & c & H4 & H). unfold get_co in H4. injection H4 as <- <-.
  unfold update_health, modify_co in H. injection H as <-. simpl. by rewrite Hco.
Qed.

(** The machine moves before the transition is recorded: when the journal refuses
    the record, the new state stays in memory and the health report keeps the old. *)
Lemma transition_moves_before_recording target why detail (w : World) d e uuid now am1 am2 :
  0 < co_epoch (w_co w) → allowed (sm_state (co_state (w_co w))) target = true →
  am_uuid (w_ambient w) = (am1, uuid) → am_now am1 = (am2, Ok now) →
  js_record_transition {|
    tr_scope_key := scope_key scope; tr_runtime_epoch := co_epoch (w_co w);
    tr_from := sm_state (co_state (w_co w)); tr_to := target; tr_reason_code := why;
    tr_correlation_id := uuid; tr_detail := detail; tr_observed_at_unix_ms := now |} (w_store w)
    = (d, Err e) →
  ∃ w', transition_to scope target why detail w = (w', Err (Run.Store e)) ∧
    sm_state (co_state (w_co w')) = target ∧ co_health (w_co w') = co_health (w_co w).
Proof.
  intros Hep Hal Hu Hn Hr. eexists. split.
  - unfold transition_to, st_bind at 1, get_co. unfold st_bind at 1, drive_machine.
    rewrite transition_cases, Hal, orb_true_r. simpl. unfold st_bind at 1, persist_transition.
    assert ((0 <? co_epoch (w_co w)) = true) as -> by lia. unfold st_bind at 1, new_uuid. simpl. rewrite Hu.
    unfold st_bind at 1, now_unix_ms, now_unix_ms_store, st_map_err. simpl. rewrite Hn. simpl.
    unfold on_store. simpl. rewrite Hr. simpl. reflexivity.
  - done.
Qed.
End plain_methods.

(** ** What a dispatch does *)

Section dispatch.
Context {B D X T C K E : Type}.
Context `{!BrokerReadPort B} `{!RuntimeStore D} `{!ExecutionPort X} `{!ExecutionStreamPort T}
  `{!CredentialResolverPort C} `{!RiskAdmissionPort D K} `{!Ambient E} `{!Serde MutationEvidence}.
Notation World := (@World B D X T C K E).
Context (scope : RuntimeScope).
Notation co A := (st World RuntimeError A).

Lemma attempt_inv {Er A} (m : st World Er A) w w' r :
  attempt m w = (w', Ok r) → m w = (w', r).
Proof. unfold attempt. destruct (m w). by intros [= -> ->]. Qed.

Lemma or_reject_Ok {A} id (m : co A) w w' a : or_reject scope id m w = (w', Ok a) → m w = (w', Ok a).
Proof.
  unfold or_reject. intros (w1 & r & H1%attempt_inv & H2)%st_bind_Ok.
  destruct r as [v|e]; [unfold st_ret in H2; by simplify_eq|].
  apply st_bind_Ok in H2 as (? & ? & _ & H2). by unfold st_fail in H2.
Qed.

Lemma require_store_Ok {A} (r : result StoreError A) detail (w w' : World) a :
  require_store scope r detail w = (w', Ok a) → r = Ok a ∧ w' = w.
Proof.
  unfold require_store. destruct r as [v|[]]; try done;
    try (intros (? & ? & _ & H)%st_bind_Ok; by unfold st_fail in H).
  intros H. unfold st_ret in H. by simplify_eq.
Qed.

(** The step of the store that a successful, required call made. *)
Lemma required_call {A} (m : st D StoreError A) detail (w w' : World) a :
  (let! r := attempt (on_store m) in require_store scope r detail) w = (w', Ok a) →
  m (w_store w) = (w_store w', Ok a) ∧ w_co w' = w_co w.
Proof.
  intros (w1 & r & H1%attempt_inv & [-> ->]%require_store_Ok)%st_bind_Ok.
  unfold on_store in H1. destruct (m (w_store w)) as [d r]. by simplify_eq/=.
Qed.

Lemma current_epoch_Ok (w w' : World) epoch :
  current_epoch w = (w', Ok epoch) → w' = w ∧ epoch = co_epoch (w_co w) ∧ epoch ≠ 0.
Proof.
  unfold current_epoch. intros (w1 & c & H1 & H)%st_bind_Ok. unfold get_co in H1. injection H1 as <- <-.
  destruct (Z.eqb_spec (co_epoch (w_co w)) 0); [done|]. unfold st_ret in H. injection H as <- <-. done.
Qed.


(** A fenced mutation was journalled as prepared and then claimed. *)
Lemma fence_Ok command id corr (w w' : World) epoch fenced :
  fence_mutation scope command id corr w = (w', Ok (epoch, fenced)) →
  ∃ prepared now d1 d2 d3,
    MutationRecord_prepared scope id (command_kind command) (command_evidence command) corr epoch now
      = Ok prepared ∧
    js_insert_mutation prepared d1 = (d2, Ok tt) ∧
    js_claim_dispatch_unknown (scope_key scope) id epoch now d2 = (d3, Ok fenced) ∧
    w_store w' = d3 ∧ w_execution w' = w_execution w ∧ co_epoch (w_co w') ≠ 0.
Proof.
  intros H. pose proof (sends_nothing_fence scope command id corr _ _ _ H) as Hx.
  unfold fence_mutation in H.
  apply st_bind_Ok in H as (w1 & ep & (-> & Hep & He)%or_reject_Ok%current_epoch_Ok & H).
  apply st_bind_Ok in H as (w2 & now & Hn%or_reject_Ok & H).
  assert (w_co w2 = w_co w) as C2.
  { unfold now_unix_ms, now_unix_ms_store, st_map_err in Hn. destruct (am_now _) as [e1 r1]. by injection Hn as <- _. }
  apply st_bind_Ok in H as (w3 & prepared & Hp%or_reject_Ok & H).
  apply st_bind_Ok in H as (w4 & [] & [Hi C4]%or_reject_Ok%required_call & H).
  apply st_bind_Ok in H as (w5 & f & [Hc C5]%or_reject_Ok%required_call & H).
  unfold st_ret in H. injection H as <- <- <-.
  unfold st_map_err, st_lift in Hp. destruct (MutationRecord_prepared _ _ _ _ _ _ _) as [p|] eqn:Hpr; [|done].
  simplify_eq/=. exists prepared, now, (w_store w3), (w_store w4), (w_store w5). split_and!; try done.
  by rewrite C5, C4, C2.
Qed.

(** Admission that succeeds: an approval from the risk port, complete, and the
    command with the approved quantity. *)
Lemma admit_Ok purpose command id (w w' : World) command' a :
  admit_command scope purpose command id w = (w', Ok (command', a)) →
  ri_admit (w_store w) scope purpose command id (w_risk w) = (w_risk w', Ok a) ∧ w_store w' = w_store w
  ∧ incomplete_approval command a = false
  ∧ apply_risk_approval command (ad_approved_delta_lots a) = Ok command'.
Proof.
  unfold admit_command. intros (w1 & adm & H1 & H)%st_bind_Ok.
  destruct (incomplete_approval command adm) eqn:Hc.
  { apply st_bind_Ok in H as (? & ? & _ & H). by unfold st_fail in H. }
  apply st_bind_Ok in H as (w2 & cmd & H2%or_reject_Ok & H).
  apply st_bind_Ok in H as (w3 & ep & [-> _]%current_epoch_Ok & H). unfold st_ret in H. injection H as <- <- <-.
  unfold st_lift in H2. injection H2 as <- H2.
  unfold st_map_err, on_risk in H1. destruct (ri_admit _ _ _ _ _ (w_risk w)) as [k' r] eqn:Hadm.
  destruct r as [a0|]; by simplify_eq/=.
Qed.

(** The gate lets a command through only when it is open and the credentials agree. *)
Lemma ensure_Ok purpose command (w w' : World) :
  ensure_execution_allowed scope purpose command w = (w', Ok tt) →
  gate_open (w_co w) command = true ∧
  (∃ c', cr_authorize_execution scope purpose (w_credentials w) = (c', Ok tt)) ∧
  w_store w' = w_store w ∧ w_risk w' = w_risk w.
Proof.
  unfold ensure_execution_allowed. intros (w1 & c & H1 & H)%st_bind_Ok.
  unfold get_co in H1. injection H1 as <- <-.
  destruct (gate_open (w_co w) command) eqn:Hg; [|done]. split; [done|]. simpl in H.
  apply st_bind_Ok in H as (w2 & r & H2%attempt_inv & H).
  unfold on_credentials in H2. destruct (cr_authorize_execution _ _ _) as [c' r'] eqn:Hc.
  injection H2 as <- ->. destruct r as [[]|e].
  - split; [by eexists|]. apply st_bind_Ok in H as (w3 & [] & H3 & H).
    apply st_bind_Ok in H as (w4 & ep & [-> _]%current_epoch_Ok & H).
    apply st_bind_Ok in H as (w5 & v & H5%attempt_inv & H). unfold query_store in H5. injection H5 as <- _.
    apply require_store_Ok in H as [_ ->].
    case_bool_decide; [unfold st_ret in H3; by simplify_eq|].
    unfold update_health, modify_co, st_bind in H3. by simplify_eq/=.
  - apply st_bind_Ok in H as (? & ? & _ & H). apply st_bind_Ok in H as (? & ? & _ & H).
    by unfold st_fail in H.
Qed.

(** What the caller is told after the transport attempt.  A receipt is the journalled
    outcome the broker reported. *)
Definition journalled (id : string) (out : result BrokerPortError ExecutionResult) (rc : DispatchReceipt)
  : Prop := ∃ target evidence epoch now d d' record,
  match out with
  | Ok (ExecutionAcknowledged v _) => target = Journal.Acknowledged ∧ evidence = v
  | Ok (ExecutionRejected v) => target = Journal.Rejected ∧ evidence = v
  | _ => False
  end ∧
  js_transition_mutation (scope_key scope) id [Journal.UnknownAfterDispatch] target (Some evidence) None
    epoch now d = (d', Ok record) ∧
  rc = receipt record.

(** An outcome in doubt has halted the runtime. *)
Record in_doubt (id : string) (out : result BrokerPortError ExecutionResult) (e : RuntimeError)
    (c : Coordinator) : Prop := {
  doubt_outcome : match out with Ok (ExecutionUnknown _) | Err _ => True | _ => False end;
  doubt_identity : e = Run.UnknownAfterDispatch id ∨ ∃ source, e = Run.UnknownTransport id source;
  doubt_halted : sm_state (co_state c) = Rt.Halted;
  doubt_exposure : he_new_exposure_allowed (co_health c) = false;
}.

(** The broker's answer leaves open whether the mutation happened. *)
Definition doubtful (out : result BrokerPortError ExecutionResult) : bool :=
  match out with Ok (ExecutionUnknown _) | Err _ => true | _ => false end.

(** The error that says so. *)
Definition doubt_error (id : string) (out : result BrokerPortError ExecutionResult) : RuntimeError :=
  match out with Err source => Run.UnknownTransport id source | Ok _ => Run.UnknownAfterDispatch id end.

Definition shutting_down (c : Coordinator) : Prop :=
  sm_state (co_state c) = Rt.Stopping ∨ sm_state (co_state c) = Rt.Stopped.

(** The journal refuses what is recorded of an outcome in doubt, or the clock fails. *)
Definition recording_fails (failure : StoreError) : Prop :=
  (∃ e e' : E, am_now e = (e', Err failure)) ∨ (∃ t d d', js_record_transition t d = (d', Err failure)) ∨
  (∃ id evidence epoch now d d', js_transition_mutation (scope_key scope) id [Journal.UnknownAfterDispatch]
     Journal.UnknownAfterDispatch evidence None epoch now d = (d', Err failure)).

(** What an answer in doubt leads to: the error names the doubt, unless the journal or the
    clock failed or the runtime is shutting down, and in every case the runtime is halted or
    shutting down; a journal that calls the evidence a duplicate is passed on as it is. *)
Record unsettled (id : string) (out : result BrokerPortError ExecutionResult) (e : RuntimeError)
    (c : Coordinator) : Prop := {
  un_error : e = doubt_error id out ∨ (∃ failure, e = Run.Store failure ∧ recording_fails failure) ∨
    (∃ te, e = Run.Transition te ∧ shutting_down c);
  un_closed : sm_state (co_state c) = Rt.Halted ∨ shutting_down c ∨
    e = Run.Store DuplicateMutation ∧ recording_fails DuplicateMutation;
}.

Definition reported (id : string) (out : result BrokerPortError ExecutionResult)
    (r : result RuntimeError DispatchReceipt) (c : Coordinator) : Prop :=
  match r with
  | Ok rc => journalled id out rc
  | Err e => (unknown_error e = true → in_doubt id out e c) ∧ (doubtful out = true → unsettled id out e c)
  end.

(** Recording a transition leaves the coordinator alone, whatever the journal answers. *)
Lemma persist_inv epoch from target why detail (w w' : World) r :
  persist_transition scope epoch from target why detail w = (w', r) →
  w_co w' = w_co w ∧ ∀ e, r = Err e → ∃ failure, e = Run.Store failure ∧ recording_fails failure.
Proof.
  unfold persist_transition. destruct (0 <? _); [|by intros [= <- <-]].
  unfold st_bind at 1, new_uuid. destruct (am_uuid _) as [e1 u].
  unfold st_bind, now_unix_ms, now_unix_ms_store, st_map_err. cbn [w_ambient put_ambient].
  destruct (am_now e1) as [e2 [now|failure]] eqn:Hn; simpl; intros H; simplify_eq/=.
  - unfold on_store in H. simpl in H. destruct (js_record_transition _ _) as [d [v|failure]] eqn:Hr; simplify_eq/=;
      (split; [done|]); [done|]. intros e [= <-]. eexists. split; [done|right; left; eauto].
  - split; [done|]. intros e [= <-]. eexists. split; [done|left; eauto].
Qed.

(** The machine is halted first: it is halted, or shutting down, however the recording of
    the transition ends. *)
Lemma halting why detail (w w' : World) r :
  transition_to scope Rt.Halted why detail w = (w', r) →
  (sm_state (co_state (w_co w')) = Rt.Halted ∨ shutting_down (w_co w')) ∧
  ∀ e, r = Err e → (∃ failure, e = Run.Store failure ∧ recording_fails failure) ∨
    (∃ te, e = Run.Transition te ∧ shutting_down (w_co w')).
Proof.
  unfold transition_to, shutting_down. unfold st_bind at 1, get_co at 1. unfold st_bind at 1, drive_machine.
  rewrite transition_cases. destruct (bool_decide _ || allowed _ _) eqn:Hok; simpl.
  - intros [(e & [Hco Hf]%persist_inv & ->)|(w3 & [] & [Hco _]%persist_inv & H)]%st_bind_cases.
    + rewrite Hco. split; [by left|]. intros ? [= <-]. left. by apply Hf.
    + unfold st_bind, get_co, update_health, modify_co in H. simplify_eq/=. rewrite Hco. split; [by left|done].
  - intros H. simplify_eq/=. apply orb_false_iff in Hok as [Hne Hal]. apply bool_decide_eq_false in Hne.
    destruct (sm_state (co_state (w_co w))); try done; (split; [by auto|]); intros ? [= <-]; right; eauto.
Qed.

Lemma finish_Ok id target ev (w w' : World) record :
  finish_mutation scope id target ev None w = (w', Ok record) →
  ∃ epoch now d d', js_transition_mutation (scope_key scope) id [Journal.UnknownAfterDispatch] target ev
    None epoch now d = (d', Ok record).
Proof.
  unfold finish_mutation. intros (w1 & epoch & _ & H)%st_bind_Ok.
  apply st_bind_Ok in H as (w2 & r & H%attempt_inv & [-> _]%require_store_Ok).
  apply st_bind_Ok in H as (w3 & now & _ & H). unfold on_store in H.
  destruct (js_transition_mutation _ _ _ _ _ _ _ _ _) as [d r] eqn:Ht. injection H as _ ->. eauto.
Qed.

(** Recording the outcome, then the receipt. *)
Lemma finish_reported id target ev outcome (w w' : World) r :
  (let! record := finish_mutation scope id target (Some ev) None in
   record_risk_dispatch_outcome scope id outcome ;;; st_ret (receipt record)) w = (w', r) →
  match r with
  | Ok rc => ∃ epoch now d d' record,
      js_transition_mutation (scope_key scope) id [Journal.UnknownAfterDispatch] target (Some ev) None
        epoch now d = (d', Ok record) ∧ rc = receipt record
  | Err e => unknown_error e = false
  end.
Proof.
  intros H. destruct r as [rc|e].
  - apply st_bind_Ok in H as (w1 & record & (ep & now & d & d' & Hf)%finish_Ok & H).
    apply st_bind_Ok in H as (w2 & [] & _ & H). unfold st_ret in H. simplify_eq. eauto 10.
  - refine (plain_bind _ _ (plain_finish _ _ _ _ _) _ _ _ _ H). intros record.
    apply plain_bind; [apply plain_outcome|intros _; apply plain_ret].
Qed.

(** An error where the outcome is not in doubt. *)
Lemma reported_plain id out e c : unknown_error e = false → doubtful out = false → reported id out (Err e) c.
Proof. intros He Ho. by split; [rewrite He|rewrite Ho]. Qed.

(** A halt that leads to an error in doubt. *)
Lemma halt_in_doubt id out why detail outcome (w w' : World) r :
  doubtful out = true →
  (transition_to scope Rt.Halted why detail ;;;
   let! _ := attempt (on_risk (λ d, ri_record_dispatch_outcome d scope id outcome)) in
   st_fail (doubt_error id out)) w = (w', r) →
  reported id out r (w_co w').
Proof.
  intros Hout [(e' & H & ->)|(w1 & [] & H1 & H)]%st_bind_cases.
  { pose proof (plain_transition _ _ _ _ _ _ _ H) as He. apply halting in H as [Hc Hf]. split; [by rewrite He|].
    intros _. constructor; [right; by apply Hf|tauto]. }
  apply st_bind_cases in H as [(e' & H & ->)|(w2 & x & H2%attempt_inv & H)].
  { unfold attempt in H. by destruct (on_risk _ _). }
  unfold st_fail in H. injection H as <- <-.
  unfold on_risk in H2. destruct (ri_record_dispatch_outcome _ _ _ _ _) as [k x']. injection H2 as <- _.
  apply transition_to_Ok in H1 as [Hco _]. split; intros _.
  - constructor; simpl; rewrite ?Hco; try done; destruct out as [[]|]; try done; simpl; eauto.
  - constructor; [by left|]. simpl. rewrite Hco. by left.
Qed.

(** A store that fails where it must not halts the runtime. *)
Lemma require_store_halts {A} failure detail (w w' : World) (r : result RuntimeError A) :
  require_store scope (Err failure) detail w = (w', r) →
  r = Err (Run.Store failure) ∧
  (failure = DuplicateMutation ∨ sm_state (co_state (w_co w')) = Rt.Halted ∨ shutting_down (w_co w')).
Proof.
  assert ((halt_or_mark scope Why.PersistenceFailure detail ;;; st_fail (Run.Store failure)) w = (w', r) →
    r = Err (Run.Store failure) ∧ (sm_state (co_state (w_co w')) = Rt.Halted ∨ shutting_down (w_co w'))) as Hhalt.
  { unfold halt_or_mark, shutting_down. unfold st_bind at 1 2, attempt.
    destruct (transition_to _ _ _ _ w) as [w1 h] eqn:H1. apply halting in H1 as [Hc _].
    destruct h; unfold st_bind, st_ret, st_fail, update_health, modify_co; by intros [= <- <-]. }
  unfold require_store. destruct failure; try (intros [? ?]%Hhalt; by split; [|right]).
  unfold st_fail. intros [= <- <-]. split; [done|by left].
Qed.

(** Evidence of an outcome in doubt that could not be journalled halts as well. *)
Lemma doubt_unrecorded id ev (w w' : World) e :
  co_epoch (w_co w) ≠ 0 →
  (let! _ := finish_mutation scope id Journal.UnknownAfterDispatch ev None in st_ret tt) w = (w', Err e) →
  unsettled id (Ok (ExecutionUnknown ev)) e (w_co w').
Proof.
  intros Hep [(e' & H & [= <-])|(w1 & record & _ & H)]%st_bind_cases; [|by unfold st_ret in H].
  unfold finish_mutation, current_epoch in H. unfold st_bind at 1 2, get_co at 1 in H.
  destruct (Z.eqb_spec (co_epoch (w_co w)) 0) as [|_]; [done|]. unfold st_ret in H.
  apply st_bind_cases in H as [(e' & H & [= <-])|(w1 & r & H1%attempt_inv & H)].
  { unfold attempt in H. by destruct (st_bind _ _ _). }
  destruct r as [record|failure]; [by unfold require_store, st_ret in H|].
  assert (recording_fails failure) as Hf.
  { apply st_bind_cases in H1 as [(f & H1 & [= <-])|(w2 & now & _ & H1)].
    - unfold now_unix_ms_store in H1. destruct (am_now _) as [e1 r1] eqn:Hn. injection H1 as <- ->. left; eauto.
    - unfold on_store in H1. destruct (js_transition_mutation _ _ _ _ _ _ _ _ _) as [d r] eqn:Ht. injection H1 as <- ->.
      right; right; eauto 10. }
  apply require_store_halts in H as [[= ->] Hc]. constructor; [right; left; eauto|].
  destruct Hc as [->|?]; [by right; right|tauto].
Qed.

Lemma conclude_reported id ep out (w w' : World) r :
  co_epoch (w_co w) ≠ 0 → conclude_dispatch scope id ep out w = (w', r) → reported id out r (w_co w').
Proof.
  intros Hep. unfold conclude_dispatch. destruct out as [[ev links|ev|ev]|error].
  - intros [(e & H & ->)|(w1 & linked & _ & H)]%st_bind_cases.
    { apply plain_attempt in H. by apply reported_plain. }
    apply st_bind_cases in H as [(e & H & ->)|(w2 & [] & _ & H)].
    { apply plain_require in H. by apply reported_plain. }
    apply finish_reported in H. destruct r as [rc|e]; [|by apply reported_plain].
    destruct H as (epoch & now & d & d' & record & H & ->). by exists Journal.Acknowledged, ev, epoch, now, d, d', record.
  - intros H%finish_reported. destruct r as [rc|e]; [|by apply reported_plain].
    destruct H as (epoch & now & d & d' & record & H & ->). by exists Journal.Rejected, ev, epoch, now, d, d', record.
  - intros [(e & H & ->)|(w1 & [] & _ & H)]%st_bind_cases;
      [|by refine (halt_in_doubt id (Ok (ExecutionUnknown ev)) _ _ _ _ _ _ _ H)].
    destruct (is_some ev); [|by unfold st_ret in H]. split; [|intros _; by eapply doubt_unrecorded].
    assert (unknown_error e = false) as He; [|by rewrite He].
    refine (plain_bind _ _ (plain_finish _ _ _ _ _) _ _ _ _ H). intros record. apply plain_ret.
  - intros H. by refine (halt_in_doubt id (Err error) _ _ _ _ _ _ _ H).
Qed.

(** Nothing was sent, and the error says so. *)
Definition held_back {A} (w w' : World) (r : result RuntimeError A) : Prop :=
  nothing_sent w w' ∧ ∃ e, r = Err e ∧ unknown_error e = false.

Lemma held_back_by {A F} (m : co A) (w w' : World) e :
  sends_nothing m → plain m → m w = (w', Err e) → held_back (A:=F) w w' (Err e).
Proof. intros Hq Hp H. split; [by eapply Hq|]. exists e. split; [done|by eapply Hp]. Qed.

(** The one transport attempt: the record it is made under was journalled as
    prepared and claimed, and the caller is told its outcome. *)
Definition attempted (purpose : RuntimeExecutionPurpose) (command : RuntimeExecutionCommand)
    (id corr : string) (w w' : World) (r : result RuntimeError DispatchReceipt) : Prop :=
  ∃ prepared fenced epoch now d1 d2 d3,
    MutationRecord_prepared scope id (command_kind command) (command_evidence command) corr epoch now
      = Ok prepared ∧
    js_insert_mutation prepared d1 = (d2, Ok tt) ∧
    js_claim_dispatch_unknown (scope_key scope) id epoch now d2 = (d3, Ok fenced) ∧
    let '(x, out) := ex_dispatch_once scope purpose command fenced (w_execution w) in
    w_execution w' = x ∧ reported id out r (w_co w').

Lemma dispatch_with_permit_cases purpose command id corr (w w' : World) r :
  dispatch_with_permit scope purpose command id corr w = (w', r) →
  held_back w w' r ∨ attempted purpose command id corr w w' r.
Proof.
  unfold dispatch_with_permit. intros [(e & H & ->)|(w1 & [epoch fenced] & H1 & H)]%st_bind_cases.
  { left. exact (held_back_by _ _ _ _ (sends_nothing_fence _ _ _ _) (plain_fence _ _ _ _) H). }
  apply fence_Ok in H1 as (prepared & now & d1 & d2 & d3 & Hp & Hi & Hc & _ & Hx & Hep). right.
  exists prepared, fenced, epoch, now, d1, d2, d3. split_and!; try done.
  apply st_bind_inv in H as [[e H]|(w2 & out & H2%attempt_inv & H)].
  { unfold attempt in H. by destruct (on_execution _ _). }
  pose proof (sends_nothing_conclude _ _ _ _ _ _ _ H) as Hq. apply conclude_reported in H.
  2: { unfold on_execution in H2. destruct (ex_dispatch_once _ _ _ _ _). by injection H2 as <- _. }
  unfold on_execution in H2. simpl in H2. rewrite Hx in H2.
  destruct (ex_dispatch_once _ _ _ _ _) as [x out']. injection H2 as <- ->. by split.
Qed.

(** What a permit brackets: only the count of slots differs. *)
Lemma with_permit_inv {A} (m : co A) w w' r :
  with_permit m w = (w', r) →
  ∃ w0 w1, w_execution w0 = w_execution w ∧ w_store w0 = w_store w ∧ w_risk w0 = w_risk w ∧ m w0 = (w1, r) ∧
    w' = put_co (set_slots (co_command_slots (w_co w1) + 1) (w_co w1)) w1.
Proof.
  unfold with_permit. destruct (m _) as [w1 r1] eqn:Hm. intros [= <- <-].
  eexists _, w1. split; [|split; [|split; [|split; [exact Hm|done]]]]; done.
Qed.

Lemma reported_slots id out r c n : reported id out r c → reported id out r (set_slots n c).
Proof.
  destruct r as [rc|e]; simpl; [done|].
  intros [H1 H2]. split; intros H; [destruct (H1 H)|destruct (H2 H)]; by constructor.
Qed.

(** The risk port, as it is in [k], confirms the approval again. *)
Definition revalidated (purpose : RuntimeExecutionPurpose) (command : RuntimeExecutionCommand)
    (id : string) (a : RiskAdmission) (d : D) (k : K) : Prop :=
  ∃ k', ri_validate_before_dispatch d scope purpose command id a k = (k', Ok tt).

(** Everything a transport attempt rests on. *)
Record sent (purpose : RuntimeExecutionPurpose) (command : RuntimeExecutionCommand) (id corr : string)
    (w w' : World) (r : result RuntimeError DispatchReceipt) : Prop := {
  sent_gate : gate_open (w_co w) command = true;
  sent_authorized : ∃ c', cr_authorize_execution scope purpose (w_credentials w) = (c', Ok tt);
  sent_account : command_account_id command = sc_broker_account_id scope;
  sent_identity : ∀ i, request_identity command = Some i → i = id;
  sent_attempt : ∃ a k command',
    ri_admit (w_store w) scope purpose command id (w_risk w) = (k, Ok a) ∧
    incomplete_approval command a = false ∧
    apply_risk_approval command (ad_approved_delta_lots a) = Ok command' ∧
    revalidated purpose command' id a (w_store w) k ∧ attempted purpose command' id corr w w' r;
}.

(** A permitted dispatch whose approval still stands. *)
Lemma permitted_cases purpose command id corr a (w w' : World) r :
  with_permit (or_reject scope id (st_map_err Run.RiskAdmission
      (on_risk (λ d, ri_validate_before_dispatch d scope purpose command id a))) ;;;
    dispatch_with_permit scope purpose command id corr) w = (w', r) →
  held_back w w' r ∨
  revalidated purpose command id a (w_store w) (w_risk w) ∧ attempted purpose command id corr w w' r.
Proof.
  intros (w0 & w1 & X0 & D0 & K0 & H & ->)%with_permit_inv.
  assert (sends_nothing (or_reject scope id (st_map_err Run.RiskAdmission
    (on_risk (λ d, ri_validate_before_dispatch d scope purpose command id a))) : co ())) as Hq.
  { apply sends_nothing_or_reject, sends_nothing_map_err, sends_nothing_risk. }
  apply st_bind_cases in H as [(e & H & ->)|(w2 & [] & H2 & H)].
  { left. apply (held_back_by (F:=DispatchReceipt)) in H as [X3 H]; [by split; [unfold nothing_sent in *; simpl; congruence|]|done|].
    apply plain_or_reject, plain_map_err. done. }
  pose proof (Hq _ _ _ H2) as X2. unfold nothing_sent in X2.
  destruct (dispatch_with_permit_cases _ _ _ _ _ _ _ H) as [[X3 Hr]|(p & f & ep & now & d1 & d2 & d3 & Hp & Hi & Hc & Hx)].
  - left. split; [unfold nothing_sent in *; simpl; congruence|done].
  - right. split.
    { apply or_reject_Ok in H2. unfold st_map_err, on_risk in H2.
      destruct (ri_validate_before_dispatch _ _ _ _ _ _ _) as [k' [[]|e]] eqn:Hv; [|done].
      rewrite <- D0, <- K0. by eexists. }
    exists p, f, ep, now, d1, d2, d3. split_and!; try done. rewrite X2, X0 in Hx.
    destruct (ex_dispatch_once _ _ _ _ _) as [x out]. destruct Hx as [Hx Hr]. split; [done|].
    by apply reported_slots.
Qed.

Lemma held_back_after {A} (w w1 w' : World) (r : result RuntimeError A) :
  nothing_sent w w1 → held_back w1 w' r → held_back w w' r.
Proof. intros X1 [X2 H]. split; [by etrans|done]. Qed.

Lemma attempted_after purpose command id corr (w w1 w' : World) r :
  nothing_sent w w1 → attempted purpose command id corr w1 w' r → attempted purpose command id corr w w' r.
Proof. unfold nothing_sent, attempted. by intros ->. Qed.

(** Either the command was held back, or everything a transport attempt takes was in
    place and it was made. *)
Lemma dispatch_cases purpose command id corr (w w' : World) r :
  dispatch_for_purpose scope command id corr purpose w = (w', r) →
  held_back w w' r ∨ sent purpose command id corr w w' r.
Proof.
  unfold dispatch_for_purpose. intros [(e & H & ->)|(w1 & [] & H1 & H)]%st_bind_cases.
  { left. exact (held_back_by _ _ _ _ (sends_nothing_ensure _ _ _) (plain_ensure _ _ _) H). }
  pose proof (sends_nothing_ensure _ _ _ _ _ _ H1) as X1. apply ensure_Ok in H1 as (Hg & Hc & D1 & K1).
  destruct (negb _) eqn:Hacc.
  { left. unfold st_fail in H. injection H as <- <-. split; [done|eauto]. }
  destruct (match request_identity command with Some _ => _ | None => _ end) eqn:Hident.
  { left. unfold st_fail in H. injection H as <- <-. split; [done|eauto]. }
  apply st_bind_cases in H as [(e & H & ->)|(w2 & [command' a] & H2 & H)].
  { left. apply (held_back_after _ w1); [done|].
    exact (held_back_by _ _ _ _ (sends_nothing_admit _ _ _ _) (plain_admit _ _ _ _) H). }
  pose proof (sends_nothing_admit _ _ _ _ _ _ _ H2) as X2. 
  apply admit_Ok in H2 as (Ha & D2 & Hinc & Happ). rewrite D1, K1 in Ha.
  assert (nothing_sent w w2) as X3 by (by etrans). clear X1 X2.
  apply st_bind_inv in H as [[e H]|(w3 & c & H3 & H)]; [by unfold get_co in H|].
  unfold get_co in H3. injection H3 as <- <-.
  destruct (_ <=? 0).
  { left. apply (held_back_after _ w2); [done|].
    apply st_bind_cases in H as [(e & H & ->)|(w3 & [] & X4%sends_nothing_outcome & H)].
    - exact (held_back_by _ _ _ _ (sends_nothing_outcome _ _ _) (plain_outcome _ _ _) H).
    - unfold st_fail in H. injection H as <- <-. split; [done|eauto]. }
  destruct (permitted_cases _ _ _ _ _ _ _ _ H) as [Hb|[Hv Hs]].
  { left. by apply (held_back_after _ w2). }
  right. constructor; try done.
  - by apply negb_false_iff, bool_decide_eq_true in Hacc.
  - intros i Hi'. rewrite Hi' in Hident. by apply negb_false_iff, bool_decide_eq_true in Hident.
  - exists a, (w_risk w2), command'. split_and!; try done; [|by apply (attempted_after _ _ _ _ _ w2)].
    by rewrite <- D1, <- D2.
Qed.

(** A closed gate turns a command away before anything is touched. *)
Lemma gate_closed_refuses purpose command id corr (w : World) :
  gate_open (w_co w) command = false →
  dispatch_for_purpose scope command id corr purpose w = (w, Err Run.ExecutionGateClosed).
Proof.
  intros Hg. unfold dispatch_for_purpose, ensure_execution_allowed. unfold st_bind at 1 2, get_co. by rewrite Hg.
Qed.

(** ** Shutdown *)

Lemma persist_streams epoch from target why detail (w w' : World) r :
  persist_transition scope epoch from target why detail w = (w', r) → w_streams w' = w_streams w.
Proof.
  unfold persist_transition. destruct (0 <? _); [|by intros [= <- <-]].
  unfold st_bind at 1, new_uuid. destruct (am_uuid _) as [e1 u].
  unfold st_bind, now_unix_ms, now_unix_ms_store, st_map_err. cbn [w_ambient put_ambient].
  destruct (am_now e1) as [e2 [now|failure]]; simpl; [|by intros [= <- <-]].
  unfold on_store. simpl. destruct (js_record_transition _ _) as [d [v|failure]]; by intros [= <- <-].
Qed.

(** A transition that is allowed reaches its target, even when recording it fails, and
    touches nothing else of the coordinator's connection. *)
Lemma transition_reaches target why detail (w w' : World) r :
  transition_to scope target why detail w = (w', r) →
  w_streams w' = w_streams w ∧ co_connected (w_co w') = co_connected (w_co w) ∧
  co_stream_sender (w_co w') = co_stream_sender (w_co w) ∧ co_epoch (w_co w') = co_epoch (w_co w) ∧
  if bool_decide (sm_state (co_state (w_co w)) = target) || allowed (sm_state (co_state (w_co w))) target
  then sm_state (co_state (w_co w')) = target else co_state (w_co w') = co_state (w_co w) ∧ ∃ e, r = Err e.
Proof.
  unfold transition_to. unfold st_bind at 1, get_co at 1. unfold st_bind at 1, drive_machine.
  rewrite transition_cases. destruct (bool_decide _ || allowed _ _); simpl; [|intros [= <- <-]; split_and!; [done..|by eexists]].
  intros [(e & Hp & ->)|(w3 & [] & Hp & H)]%st_bind_cases;
    apply persist_streams in Hp as Hst; apply persist_inv in Hp as [Hco _].
  - by rewrite Hco, Hst.
  - unfold st_bind, get_co, update_health, modify_co in H. simplify_eq/=. by rewrite Hco, Hst.
Qed.

(** What a shutdown leaves.  However it ends, the runtime is stopping or stopped and turns
    every command away that can add exposure; one that succeeds has disconnected the streams,
    given its ownership of the scope back under its own epoch, and turns every command away. *)
Record closed (w w' : World) (r : result RuntimeError ()) : Prop := {
  cl_state : shutting_down (w_co w');
  cl_refuses : ∀ purpose command id corr, exposure_bearing command = true ∨ r = Ok tt →
    dispatch_for_purpose scope command id corr purpose w' = (w', Err Run.ExecutionGateClosed);
  cl_done : r = Ok tt →
    sm_state (co_state (w_co w')) = Rt.Stopped ∧ co_connected (w_co w') = false ∧
    co_stream_sender (w_co w') = false ∧ (∃ answer, es_disconnect (w_streams w) = (w_streams w', answer)) ∧
    he_new_exposure_allowed (co_health (w_co w')) = false ∧
    ∃ now d, js_release_ownership (scope_key scope) (co_epoch (w_co w)) now d = (w_store w', Ok tt);
}.

Lemma release_shape epoch (w w' : World) r :
  st_map_err Run.Store (let! now := now_unix_ms_store in
    on_store (js_release_ownership (scope_key scope) epoch now)) w = (w', r) →
  w_co w' = w_co w ∧ w_streams w' = w_streams w ∧
  (r = Ok tt → ∃ now d, js_release_ownership (scope_key scope) epoch now d = (w_store w', Ok tt)).
Proof.
  unfold st_map_err, st_bind, now_unix_ms_store, on_store. destruct (am_now _) as [e1 [now|e]]; simpl; [|by intros [= <- <-]].
  destruct (js_release_ownership _ _ _ _) as [d [[]|e]] eqn:H; intros [= <- <-]; simpl; (split_and!; [done..|]);
    [intros _; by eexists _, _|done].
Qed.

Lemma shutdown_ends (w w' : World) r : shutdown scope w = (w', r) →
  shutting_down (w_co w') ∧ (r = Ok tt →
    sm_state (co_state (w_co w')) = Rt.Stopped ∧ co_connected (w_co w') = false ∧
    co_stream_sender (w_co w') = false ∧ (∃ answer, es_disconnect (w_streams w) = (w_streams w', answer)) ∧
    he_new_exposure_allowed (co_health (w_co w')) = false ∧
    ∃ now d, js_release_ownership (scope_key scope) (co_epoch (w_co w)) now d = (w_store w', Ok tt)).
Proof.
  unfold shutdown. intros [(e & H & ->)|(w1 & [] & H & H')]%st_bind_cases; apply transition_reaches in H
    as (S1 & C1 & N1 & E1 & H).
  { split; [|done]. unfold shutting_down. destruct (_ || _) eqn:Hok; [by left|]. destruct H as [-> _].
    apply orb_false_iff in Hok as [_ Hal]. destruct (sm_state (co_state (w_co w))); auto; done. }
  destruct (_ || _); [|by destruct H as [_ [? ?]]].
  unfold st_bind at 1, attempt, on_streams in H'. destruct (es_disconnect (w_streams w1)) as [t answer] eqn:Ht.
  unfold st_bind at 1 2, modify_co in H'.
  apply st_bind_cases in H' as [(e & Hs & ->)|(w2 & [] & Hs & H')]; apply transition_reaches in Hs
    as (S2 & C2 & N2 & E2 & Hs); simpl in *; rewrite H in Hs; simpl in Hs; [split; [by right|done]|].
  rewrite S1 in Ht. apply st_bind_cases in H' as [(e & He & ->)|(w3 & epoch & (-> & -> & _)%current_epoch_Ok & H')].
  { split; [|done]. unfold current_epoch, st_bind, get_co in He. destruct (_ =? _); [|done]. injection He as <- _. by right. }
  apply st_bind_cases in H' as [(e & (Hc & _)%release_shape & ->)|(w4 & [] & (Hc & Hw & Hr)%release_shape & H')];
    [split; [right; by rewrite Hc|done]|].
  unfold update_health, modify_co in H'. injection H' as <- <-. split; [right; simpl; by rewrite Hc|].
  intros _. simpl. rewrite Hc, Hw, C2, N2, S2, <-E1, <-E2. split_and!; try done; eauto.
Qed.
Lemma shutdown_closes (w w' : World) r : shutdown scope w = (w', r) → closed w w' r.
Proof.
  intros [Hs Hd]%shutdown_ends. split; [done| |done]. intros purpose command id corr [He|Hr]; apply gate_closed_refuses;
    unfold gate_open.
  - rewrite He, bool_decide_eq_false_2; [by rewrite andb_false_r|]. destruct Hs as [->| ->]; done.
  - destruct (Hd Hr) as (_ & -> & _). done.
Qed.
End dispatch.

(** ** Start-up *)

Section startup.
Context {B D X T C K E : Type}.
Context `{!BrokerReadPort B} `{!RuntimeStore D} `{!ExecutionPort X} `{!ExecutionStreamPort T}
  `{!CredentialResolverPort C} `{!RiskAdmissionPort D K} `{!Ambient E} `{!Serde MutationEvidence}.
Notation World := (@World B D X T C K E).
Context (scope : RuntimeScope) (owner_id : string) (config : ReconciliationConfig).
Notation co A := (st World RuntimeError A).

(** A report comes from the reconciler, run under the current epoch. *)
Lemma reconcile_locked_Ok (w w' : World) report :
  reconcile_locked scope config w = (w', Ok report) →
  w_co w' = w_co w ∧ co_epoch (w_co w) ≠ 0 ∧
  ∃ now id bd bd', reconcile config scope (co_epoch (w_co w)) now id bd = (bd', Ok report).
Proof.
  unfold reconcile_locked. intros (w1 & epoch & [-> [-> Hep]]%current_epoch_Ok & H)%st_bind_Ok.
  apply st_bind_Ok in H as (w2 & rnow & H2%attempt_inv & H).
  unfold now_unix_ms_store in H2. destruct (am_now _) as [e1 r1]. injection H2 as <- ->.
  apply st_bind_Ok in H as (w3 & r & H3 & H).
  destruct r as [rep|err]; last first.
  { apply st_bind_Ok in H as (? & ? & _ & H). by unfold st_fail in H. }
  unfold st_ret in H. injection H as <- ->. destruct rnow as [now|]; [|by unfold st_ret in H3].
  apply st_bind_Ok in H3 as (w4 & id & H4 & H3%attempt_inv). unfold new_uuid in H4.
  destruct (am_uuid _) as [e2 v]. injection H4 as <- ->. unfold on_broker_store in H3.
  destruct (reconcile _ _ _ _ _ _) as [bd' r] eqn:Hr. injection H3 as <- ->. split_and!; eauto 10.
Qed.

(** An applied report decides the state and what is reported. *)
Lemma apply_report_Ok report (w w' : World) :
  apply_reconciliation_report scope report w = (w', Ok tt) →
  (∃ d k k', ri_reconcile d scope report k = (k', Ok tt)) ∧
  w_co w' = set_health (health_transition (rr_resulting_state report) (rr_reason_code report)
      (report_detail report) (co_connected (w_co w)) (co_execution_authorized (w_co w))
      (health_report report (co_health (w_co w))))
    (set_machine {| sm_state := rr_resulting_state report |} (w_co w)).
Proof.
  unfold apply_reconciliation_report. intros (w1 & r & H1%attempt_inv & H)%st_bind_Ok.
  unfold on_risk in H1. destruct (ri_reconcile _ _ _ _) as [k r'] eqn:Hk. injection H1 as <- ->.
  destruct r as [[]|err]; last first.
  { apply st_bind_Ok in H as (? & ? & _ & H). by unfold st_fail in H. }
  apply st_bind_Ok in H as (w2 & [] & H2 & H). unfold update_health, modify_co in H2. injection H2 as <-.
  apply transition_to_Ok in H as [-> _]. split; [eauto|done].
Qed.

Lemma activate_co l (w w' : World) r :
  activate_streams l w = (w', r) → ∃ f, w_co w' = set_health (health_streams f (co_health (w_co w))) (w_co w).
Proof.
  revert w. induction l as [|s l IH]; simpl; intros w H.
  - unfold st_ret in H. injection H as <- <-. exists id. destruct w as [[? ? ? ? ? []] ]; done.
  - unfold st_bind, set_stream_state, update_health, modify_co in H. apply IH in H as [f ->]. by eexists (_ ∘ _).
Qed.

(** Connected: the streams of one attempt, every required one among them. *)
Lemma connect_Ok n epoch (w w' : World) :
  connect_attempts scope n epoch w = (w', Ok tt) →
  (∃ t t' active, es_connect scope epoch t = (t', Ok active) ∧ missing_streams active = []) ∧
  ∃ f, w_co w' = set_connected true (set_health (health_streams f (co_health (w_co w))) (w_co w)).
Proof.
  revert w. induction n as [|n IH]; simpl; intros w (w1 & r & H1%attempt_inv & H)%st_bind_Ok;
    unfold on_streams in H1; destruct (es_connect _ _ _) as [t' r'] eqn:Hc; injection H1 as <- ->;
    destruct r as [active|err].
  2: done.
  3: { destruct (safe_read_retryable err); [|done]. by apply IH in H. }
  all: destruct (missing_streams active) eqn:Hm; [|done];
    apply st_bind_Ok in H as (w2 & [] & [f Hf]%activate_co & H);
    unfold modify_co in H; injection H as <-; split; [by eauto|]; exists f; simpl; by rewrite Hf.
Qed.

Lemma take_ownership_Ok (w w' : World) epoch :
  take_ownership scope owner_id w = (w', Ok epoch) →
  w_co w' = w_co w ∧ ∃ now d d', js_acquire_ownership scope owner_id now d = (d', Ok epoch).
Proof.
  unfold take_ownership. intros (w1 & now & H1 & H)%st_bind_Ok.
  unfold now_unix_ms, now_unix_ms_store, st_map_err in H1. destruct (am_now _) as [e1 r1].
  injection H1 as <- _. apply st_bind_Ok in H as (w2 & r & H2%attempt_inv & H).
  unfold on_store in H2. destruct (js_acquire_ownership _ _ _ _) as [d r2] eqn:Ha. injection H2 as <- ->.
  destruct r as [ep|err].
  - unfold st_ret in H. injection H as <- <-. eauto 10.
  - apply st_bind_Ok in H as (? & ? & _ & H). apply st_bind_Ok in H as (? & ? & _ & H).
    by unfold st_fail in H.
Qed.

(** What credentials authorise is remembered; reads go on without it. *)
Lemma resolve_credentials_Ok epoch (w w' : World) :
  resolve_credentials scope epoch w = (w', Ok tt) →
  ∃ authorized c c', cr_resolve scope c = (c', Ok authorized) ∧
    w_co w' = set_health (health_authorized authorized (co_health (w_co w))) (set_authorized authorized (w_co w)).
Proof.
  unfold resolve_credentials. intros (w1 & r & H1%attempt_inv & H)%st_bind_Ok.
  unfold on_credentials in H1. destruct (cr_resolve _ _) as [c r'] eqn:Hc. injection H1 as <- ->.
  destruct r as [a|err]; last first.
  { apply st_bind_Ok in H as (? & ? & _ & H). by unfold st_fail in H. }
  exists a, (w_credentials w), c. split; [done|].
  apply st_bind_Ok in H as (w2 & [] & H2 & H). unfold modify_co in H2. injection H2 as <-.
  apply st_bind_Ok in H as (w3 & [] & H3 & H). unfold update_health, modify_co in H3. injection H3 as <-.
  destruct a; [unfold st_ret in H; by injection H as <-|].
  apply st_bind_Ok in H as (w4 & u & H4 & H). unfold new_uuid in H4. destruct (am_uuid _). injection H4 as <- _.
  apply st_bind_Ok in H as (w5 & n & H5 & H). unfold now_unix_ms, now_unix_ms_store, st_map_err in H5.
  destruct (am_now _). injection H5 as <- _.
  unfold st_map_err, on_store in H. destruct (js_append_audit _ _). by injection H as <- _.
Qed.

(** The part of start-up that follows the first report. *)
Lemma start_tail_Ok first (w w' : World) report :
  co_epoch (w_co w) ≠ 0 →
  (∃ now id bd bd', reconcile config scope (co_epoch (w_co w)) now id bd = (bd', Ok first)) →
  (if bool_decide (rr_resulting_state first = Rt.Halted) then
     apply_reconciliation_report scope first ;;; st_ret first
   else
     let! r := attempt (connect_streams scope) in
     match r with
     | Err error =>
         transition_to scope Rt.Halted Why.StreamDisconnected
           "required execution stream connection failed after bounded retries" ;;;
         st_fail error
     | Ok _ =>
         modify_co (set_sender true) ;;;
         modify_co (set_connected true) ;;;
         update_health health_connected ;;;
         let! final_report := reconcile_locked scope config in
         apply_reconciliation_report scope final_report ;;;
         st_ret final_report
     end) w = (w', Ok report) →
  ∃ connected h, (∃ now id bd bd', reconcile config scope (co_epoch (w_co w)) now id bd = (bd', Ok report)) ∧
    (∃ d k k', ri_reconcile d scope report k = (k', Ok tt)) ∧
    (rr_resulting_state report = Rt.Halted ∨ connected = true ∧
      ∃ t t' active, es_connect scope (co_epoch (w_co w)) t = (t', Ok active) ∧ missing_streams active = []) ∧
    co_epoch (w_co w') = co_epoch (w_co w) ∧ co_started (w_co w') = co_started (w_co w) ∧
    sm_state (co_state (w_co w')) = rr_resulting_state report ∧
    co_connected (w_co w') = connected ∧
    co_health (w_co w') = health_transition (rr_resulting_state report) (rr_reason_code report)
      (report_detail report) connected (co_execution_authorized (w_co w)) (health_report report h).
Proof.
  intros Hep Hfirst H. case_bool_decide as Hh.
  - apply st_bind_Ok in H as (w1 & [] & [Hk Hco]%apply_report_Ok & H). unfold st_ret in H.
    injection H as <- <-. eexists _, _. rewrite Hco. split_and!; try done. by left.
  - apply st_bind_Ok in H as (w1 & r & H1%attempt_inv & H). destruct r as [[]|err]; last first.
    { apply st_bind_Ok in H as (? & ? & _ & H). by unfold st_fail in H. }
    unfold connect_streams in H1. apply st_bind_Ok in H1 as (w2 & ep & [-> [-> _]]%current_epoch_Ok & H1).
    apply connect_Ok in H1 as [Ht [f Hco]].
    do 3 (apply st_bind_Ok in H as (? & [] & Hm & H); unfold update_health, modify_co in Hm; injection Hm as <-).
    apply st_bind_Ok in H as (w3 & rep & (Hco3 & _ & Hrep)%reconcile_locked_Ok & H).
    apply st_bind_Ok in H as (w4 & [] & [Hk Hco4]%apply_report_Ok & H). unfold st_ret in H.
    injection H as <- <-. rewrite Hco3 in Hco4. simpl in *. rewrite Hco in Hrep, Hco4. simpl in Hrep.
    eexists true, _. rewrite Hco4. simpl. split_and!; try done. by right.
Qed.

(** Start-up, from the call to its report. *)
Record started (w w' : World) (epoch : Z) (report : ReconciliationReport) : Prop := {
  st_first_call : co_started (w_co w) = false ∧ co_started (w_co w') = true;
  st_owner : epoch ≠ 0 ∧ co_epoch (w_co w') = epoch ∧
    ∃ now d d', js_acquire_ownership scope owner_id now d = (d', Ok epoch);
  st_reconciled : ∃ now id bd bd', reconcile config scope epoch now id bd = (bd', Ok report);
  st_risk : ∃ d k k', ri_reconcile d scope report k = (k', Ok tt);
  st_state : sm_state (co_state (w_co w')) = rr_resulting_state report;
  st_streams : rr_resulting_state report = Rt.Halted ∨ co_connected (w_co w') = true ∧
    ∃ t t' active, es_connect scope epoch t = (t', Ok active) ∧ missing_streams active = [];
  st_exposure : ∃ authorized c c', cr_resolve scope c = (c', Ok authorized) ∧
    he_new_exposure_allowed (co_health (w_co w'))
      = new_exposure_allowed (rr_resulting_state report) && authorized && co_connected (w_co w');
}.

Lemma start_Ok (w w' : World) report :
  start scope owner_id config w = (w', Ok report) → started w w' (co_epoch (w_co w')) report.
Proof.
  unfold start. intros (w1 & c & H1 & H)%st_bind_Ok. unfold get_co in H1. injection H1 as <- <-.
  destruct (co_started (w_co w)) eqn:Hs; [done|].
  apply st_bind_Ok in H as (w2 & [] & H2 & H). unfold modify_co in H2. injection H2 as <-.
  apply st_bind_Ok in H as (w3 & epoch & [Hco3 Hown]%take_ownership_Ok & H).
  do 2 (apply st_bind_Ok in H as (? & [] & Hm & H); unfold update_health, modify_co in Hm; injection Hm as <-).
  apply st_bind_Ok in H as (w4 & [] & [Hco4 _]%transition_to_Ok & H).
  apply st_bind_Ok in H as (w5 & [] & (a & c & c' & Hc & Hco5)%resolve_credentials_Ok & H).
  apply st_bind_Ok in H as (w6 & [] & [Hco6 _]%transition_to_Ok & H).
  apply st_bind_Ok in H as (w7 & first & (Hco7 & Hep & Hfirst)%reconcile_locked_Ok & H).
  rewrite <-Hco7 in Hep, Hfirst.
  destruct (start_tail_Ok _ _ _ _ Hep Hfirst H)
    as (conn & h & Hrep & Hrisk & Hconn & Hep' & Hst & Hm & Hcn & Hhe).
  assert (co_epoch (w_co w7) = epoch ∧ co_started (w_co w7) = true ∧ co_execution_authorized (w_co w7) = a)
    as (E1 & E2 & E3).
  { rewrite Hco7, Hco6, Hco5, Hco4. simpl. by rewrite Hco3. }
  rewrite E1 in *. constructor; rewrite ?Hep'; try done.
  - by rewrite Hst.
  - by rewrite Hcn.
  - exists a, c, c'. split; [done|]. by rewrite Hhe, Hcn, E3.
Qed.
End startup.

(** ** A refused request for a reconciliation *)

Section coalesced.
Context {B D X T C K E : Type}.
Context `{!BrokerReadPort B} `{!RuntimeStore D} `{!ExecutionPort X} `{!ExecutionStreamPort T}
  `{!CredentialResolverPort C} `{!RiskAdmissionPort D K} `{!Ambient E} `{!Serde MutationEvidence}.
Notation World := (@World B D X T C K E).
Context (scope : RuntimeScope).

Lemma persist_keeps_co epoch from target why detail (w w' : World) r :
  persist_transition scope epoch from target why detail w = (w', r) → w_co w' = w_co w.
Proof.
  unfold persist_transition. destruct (0 <? epoch); [|unfold st_ret; by intros [= <- _]].
  unfold st_bind, new_uuid, now_unix_ms, now_unix_ms_store, st_map_err, on_store. simpl.
  destruct (am_uuid _) as [e1 u]. simpl. destruct (am_now e1) as [e2 [now|err]]; simpl; [|by intros [= <- _]].
  destruct (js_record_transition _ _) as [d r']. by intros [= <- _].
Qed.

Lemma transition_keeps_running target why detail (w w' : World) r :
  transition_to scope target why detail w = (w', r) →
  co_reconciliation_running (w_co w') = co_reconciliation_running (w_co w).
Proof.
  unfold transition_to. intros H. apply st_bind_inv in H as [[e H]|(w1 & c & H1 & H)]; [by unfold get_co in H|].
  unfold get_co in H1. injection H1 as <- <-. unfold st_bind at 1, drive_machine in H.
  destruct (transition target _) as [m [from|e]]; simpl in H; [|by injection H as <- _].
  apply st_bind_inv in H as [[e H]|(w2 & [] & H2 & H)].
  - apply persist_keeps_co in H. by rewrite H.
  - apply persist_keeps_co in H2. unfold st_bind, get_co, update_health, modify_co in H.
    injection H as <- _. simpl. by rewrite H2.
Qed.

(** A request whose transition fails spawns no task, and leaves the flag set that only
    the task clears: the gate stays closed to exposure, whatever state a later
    reconciliation reaches. *)
Lemma failed_request_leaves_running why detail (w w' : World) e :
  request_coalesced_reconciliation scope why detail w = (w', Err e) →
  co_reconciliation_running (w_co w') = true ∧
  ∀ command id corr purpose (w'' : World), exposure_bearing command = true →
    co_reconciliation_running (w_co w'') = true →
    dispatch_for_purpose scope command id corr purpose w'' = (w'', Err Run.ExecutionGateClosed).
Proof.
  intros H. split.
  - unfold request_coalesced_reconciliation, st_bind at 1 2, get_co, modify_co in H.
    destruct (co_reconciliation_running (w_co w)); [done|]. unfold st_bind at 1, modify_co in H.
    apply st_bind_cases in H as [(e' & H & _)|(w1 & [] & _ & H)]; [|done].
    by apply transition_keeps_running in H as ->.
  - intros command id corr purpose w'' He Hr. apply gate_closed_refuses. unfold gate_open.
    by rewrite He, Hr, !andb_false_r.
Qed.
End coalesced.

(** ** Properties *)

Section properties.
Context {B D X T C K E : Type}.
Context `{!BrokerReadPort B} `{!RuntimeStore D} `{!ExecutionPort X} `{!ExecutionStreamPort T}
  `{!CredentialResolverPort C} `{!RiskAdmissionPort D K} `{!Ambient E} `{!Serde MutationEvidence}.
Notation World := (@World B D X T C K E).
Context (scope : RuntimeScope).

(** C5. A command reaches the broker only through every gate.  Either the execution
    port was not touched, and the caller gets an error that does not put the outcome
    in doubt; or the port was called exactly once, on the command with the quantity
    the risk port approved, under a journal record that was first inserted as
    prepared and then claimed as UNKNOWN_AFTER_DISPATCH, with the runtime connected,
    the credentials agreeing, the account and the request identity those of the
    command, a complete approval that the risk port confirmed again, and, when the
    command can add exposure, a READY runtime with no reconciliation pending; and a
    receipt is then the journalled outcome the broker reported. *)
Theorem dispatch_passes_every_gate command id corr purpose (w w' : World) r :
  dispatch_for_purpose scope command id corr purpose w = (w', r) →
  held_back w w' r ∨
  sent scope purpose command id corr w w' r ∧ co_connected (w_co w) = true ∧
  (exposure_bearing command = true →
     sm_state (co_state (w_co w)) = Rt.Ready ∧ co_reconciliation_dirty (w_co w) = false
     ∧ co_reconciliation_running (w_co w) = false).
Proof.
  intros [H|H]%dispatch_cases; [by left|right]. split; [done|]. destruct H as [Hg _ _ _ _].
  unfold gate_open in Hg. apply andb_true_iff in Hg as [Hc Hg]. split; [done|]. intros He.
  rewrite He in Hg. simpl in Hg. apply andb_true_iff in Hg as [Hg Hrun].
  apply andb_true_iff in Hg as [Hs Hd]. apply bool_decide_eq_true in Hs.
  by apply negb_true_iff in Hd, Hrun.
Qed.

(** C10. An outcome in doubt stops trading.  A dispatch is held back, with nothing sent, or
    it passed every gate and was handed to the broker.  When the broker then answers that
    the outcome is unknown, or its transport fails, the dispatch fails: with the error that
    names the mutation and the doubt, a HALTED runtime and no new exposure allowed in its
    health, or, when the journal or the clock fails as well, with that failure.  In every
    case the runtime is halted or shutting down, and until its state changes every command
    that can add exposure is refused without touching anything; the one exception is a
    journal that calls the evidence a duplicate.  When the broker's answer is not in doubt,
    no error claims that it is. *)
Theorem unknown_outcome_halts command id corr purpose (w w' : World) r :
  dispatch_for_purpose scope command id corr purpose w = (w', r) →
  held_back w w' r ∨
  sent scope purpose command id corr w w' r ∧
  ∃ command' fenced out,
    ex_dispatch_once scope purpose command' fenced (w_execution w) = (w_execution w', out) ∧
    if doubtful out then
      ∃ e, r = Err e ∧
        (e = doubt_error id out ∧ sm_state (co_state (w_co w')) = Rt.Halted
           ∧ he_new_exposure_allowed (co_health (w_co w')) = false
         ∨ (∃ failure, e = Run.Store failure ∧ recording_fails (E:=E) scope failure)
         ∨ (∃ te, e = Run.Transition te ∧ shutting_down (w_co w'))) ∧
        (e = Run.Store DuplicateMutation ∧ recording_fails (E:=E) scope DuplicateMutation ∨
         (sm_state (co_state (w_co w')) = Rt.Halted ∨ shutting_down (w_co w')) ∧
         ∀ later id' corr' purpose' (w'' : World), exposure_bearing later = true →
           co_state (w_co w'') = co_state (w_co w') →
           dispatch_for_purpose scope later id' corr' purpose' w'' = (w'', Err Run.ExecutionGateClosed))
    else ∀ e, r = Err e → unknown_error e = false.
Proof.
  intros [H|Hs]%dispatch_cases; [by left|right]. split; [done|].
  destruct Hs as [_ _ _ _ (a & k & cmd & _ & _ & _ & _ & p & f & ep & now & d1 & d2 & d3 & _ & _ & _ & Hx)].
  exists cmd, f. destruct (ex_dispatch_once _ _ _ _ _) as [x out]. destruct Hx as [<- Hr]. exists out. split; [done|].
  destruct (doubtful out) eqn:Hout; last first.
  { intros e ->. destruct Hr as [Hr _]. destruct (unknown_error e); [|done]. destruct (Hr eq_refl) as [Hd _ _ _].
    by destruct out as [[]|]. }
  destruct r as [rc|e]; [destruct Hr as (? & ? & ? & ? & ? & ? & ? & Hm & _); by destruct out as [[]|]|].
  destruct Hr as [Hu Hun]. destruct (Hun Hout) as [He Hc]. exists e. split; [done|]. split.
  - destruct He as [->|He]; [left|by right]. assert (unknown_error (doubt_error id out) = true) as H by by destruct out.
    by destruct (Hu H).
  - assert (∀ c : Coordinator, sm_state (co_state c) = Rt.Halted ∨ shutting_down c → sm_state (co_state c) ≠ Rt.Ready) as Hne.
    { unfold shutting_down. intros c. destruct (sm_state (co_state c)); naive_solver. }
    apply or_assoc in Hc. destruct Hc as [Hc|Hc]; [right; split; [done|]|by left].
    intros later id' corr' purpose' w'' Hex Hst. apply gate_closed_refuses.
    unfold gate_open. rewrite Hex, Hst, bool_decide_eq_false_2 by by apply Hne. by rewrite andb_false_r.
Qed.

(** C37. READY is earned at start-up.  A start that returns a report was the first of
    its coordinator, took ownership under the epoch it runs with, had the report from
    a reconciliation under that epoch accepted by the risk port, and is in the state
    the report names; unless that is HALTED, every required stream of one connection
    attempt is acknowledged and the runtime connected; and new exposure is allowed
    only in READY, connected, with credentials that authorise execution.  A second
    start is refused. *)
Theorem start_earns_ready owner_id config (w w' : World) report :
  start scope owner_id config w = (w', Ok report) →
  started scope owner_id config w w' (co_epoch (w_co w')) report ∧
  (he_new_exposure_allowed (co_health (w_co w')) = true →
     rr_resulting_state report = Rt.Ready ∧ co_connected (w_co w') = true) ∧
  start scope owner_id config w'
    = (w', Err (Run.Safety "runtime coordinator instance may start exactly once")).
Proof.
  intros H%start_Ok. split; [done|]. destruct H as [[_ Hst] _ _ _ _ _ (a & c & c' & _ & Hexp)]. split.
  - intros Hal. rewrite Hal in Hexp. symmetry in Hexp. apply andb_true_iff in Hexp as [Hexp Hc].
    apply andb_true_iff in Hexp as [Hr _]. by destruct (rr_resulting_state report).
  - unfold start, st_bind at 1, get_co. by rewrite Hst.
Qed.
End properties.

(** ** A runtime on the sample journal and broker *)

Module CoordinatorSample.
Export BrokerSample.

(** The broker's answer to every command, and how often it was asked. *)
Record Desk := { dk_answer : result BrokerPortError ExecutionResult; dk_calls : Z }.

#[export] Instance desk : ExecutionPort Desk := {|
  ex_dispatch_once _ _ _ _ := λ d,
    ({| dk_answer := dk_answer d; dk_calls := dk_calls d + 1 |}, dk_answer d) |}.
#[export] Instance streams : ExecutionStreamPort () := {|
  es_connect _ _ := st_ret required_streams; es_disconnect := st_ret tt |}.
#[export] Instance credentials : CredentialResolverPort () := {|
  cr_resolve _ := st_ret true; cr_authorize_execution _ _ := st_ret tt |}.

(** Approves one lot, and keeps what it is told. *)
#[export] Instance approve_all : RiskAdmissionPort RuntimeDb (list (string * RiskDispatchOutcome)) := {|
  ri_admit _ _ _ _ _ := st_ret {| ad_decision_id := "decision-1"; ad_reservation_id := Some "reservation-1";
    ad_policy_revision := 1; ad_approved_delta_lots := 1 |};
  ri_record_dispatch_outcome _ _ id outcome := λ told, (told ++ [(id, outcome)], Ok tt);
  ri_validate_before_dispatch _ _ _ _ _ _ := st_ret tt;
  ri_reconcile _ _ _ := st_ret tt |}.
#[export] Instance ticks : Ambient Z := {|
  am_now e := (e + 1, Ok e); am_uuid e := (e + 1, int_to_string e) |}.

Notation SampleWorld :=
  (@World () RuntimeDb Desk () () (list (string * RiskDispatchOutcome)) Z).

Definition fresh (answer : result BrokerPortError ExecutionResult) : SampleWorld := {|
  w_co := Coordinator_new scope; w_broker := tt; w_store := empty_journal;
  w_execution := {| dk_answer := answer; dk_calls := 0 |}; w_streams := tt; w_credentials := tt;
  w_risk := []; w_ambient := 1000 |}.

Definition acknowledge : result BrokerPortError ExecutionResult :=
  Ok (ExecutionAcknowledged "broker-evidence-1" (links_for "request-1")).

Definition command : RuntimeExecutionCommand := RegularOrder {|
  ro_account_id := "account-1"; ro_instrument_id := "instrument-1"; ro_client_request_id := "request-1";
  ro_quantity_lots := 3; ro_price := Some (Fixed 10); ro_price_convention := SettlementCurrency; ro_side := Buy;
  ro_order_type := Limit; ro_time_in_force := None; ro_confirm_margin_trade := false |}.

Definition start_on (answer : result BrokerPortError ExecutionResult)
  : SampleWorld * result RuntimeError ReconciliationReport :=
  start scope "owner-1" ReconciliationConfig_default (fresh answer).

Definition ready (answer : result BrokerPortError ExecutionResult) : SampleWorld := fst (start_on answer).

Definition send (answer : result BrokerPortError ExecutionResult)
  : SampleWorld * result RuntimeError DispatchReceipt :=
  dispatch scope command "request-1" "correlation-1" (ready answer).

Definition dispatched : SampleWorld * result RuntimeError DispatchReceipt :=
  Eval vm_compute in send acknowledge.
Definition doubtful_run : SampleWorld * result RuntimeError DispatchReceipt :=
  Eval vm_compute in send (Ok (ExecutionUnknown None)).

Lemma dispatched_eq :
  dispatch_for_purpose scope command "request-1" "correlation-1" Purpose.SandboxMutation
    (ready acknowledge) = (fst dispatched, snd dispatched).
Proof. vm_compute. reflexivity. Qed.
Lemma doubtful_eq :
  dispatch_for_purpose scope command "request-1" "correlation-1" Purpose.SandboxMutation
    (ready (Ok (ExecutionUnknown None))) = (fst doubtful_run, Err (Run.UnknownAfterDispatch "request-1")).
Proof. vm_compute. reflexivity. Qed.

(** The order went out once, for the approved lot. *)
Example dispatched_once :
  dk_calls (w_execution dispatched.1) = 1 ∧
  snd dispatched = Ok {| rc_logical_request_id := "request-1"; rc_state := Journal.Acknowledged;
                         rc_broker_evidence_ref := Some "broker-evidence-1" |}.
Proof. done. Qed.

(** A repeated request is refused by the journal and not sent again; but the risk
    port, which knows the request only by its identity, is told that it was
    rejected, after it was told that it was acknowledged. *)
Lemma duplicate_reports_rejection :
  let '(w, r) := dispatch scope command "request-1" "correlation-2" (fst dispatched) in
  r = Err (Run.Store DuplicateMutation) ∧ dk_calls (w_execution w) = 1 ∧
  w_risk w = [("request-1"%string, RiskOut.Acknowledged); ("request-1"%string, RiskOut.Rejected)].
Proof. vm_compute. done. Qed.

Lemma started_ready : ∃ report,
  start scope "owner-1" ReconciliationConfig_default (fresh acknowledge)
    = (ready acknowledge, Ok report) ∧ rr_resulting_state report = Rt.Ready.
Proof. eexists. split; vm_compute; reflexivity. Qed.
End CoordinatorSample.
Import CoordinatorSample.

Lemma dispatch_passes_every_gate_witness :
  sm_state (co_state (w_co (ready acknowledge))) = Rt.Ready ∧ co_connected (w_co (ready acknowledge)) = true.
Proof.
  destruct (dispatch_passes_every_gate scope command "request-1" "correlation-1" Purpose.SandboxMutation
    (ready acknowledge) (fst dispatched) (snd dispatched)) as [[_ (e & He & _)]|(_ & Hc & Hg)].
  - exact dispatched_eq.
  - discriminate He.
  - split; [apply Hg; reflexivity|exact Hc].
Defined.

Lemma unknown_outcome_halts_witness :
  sm_state (co_state (w_co (fst doubtful_run))) = Rt.Halted ∧
  dispatch_for_purpose scope command "request-2" "correlation-2" Purpose.SandboxMutation (fst doubtful_run)
    = (fst doubtful_run, Err Run.ExecutionGateClosed).
Proof.
  destruct (unknown_outcome_halts scope command "request-1" "correlation-1" Purpose.SandboxMutation
    (ready (Ok (ExecutionUnknown None))) (fst doubtful_run) (Err (Run.UnknownAfterDispatch "request-1")) doubtful_eq)
    as [[_ (e & He & Hu)]|(_ & command' & fenced & out & _ & Hr)].
  - injection He as <-. discriminate Hu.
  - destruct (doubtful out); [|discriminate (Hr _ eq_refl)].
    destruct Hr as (e & He & _ & [[Hd _]|[_ Hg]]).
    + rewrite Hd in He. discriminate He.
    + split; [reflexivity|]. apply Hg; reflexivity.
Defined.

Lemma start_earns_ready_witness :
  start scope "owner-1" ReconciliationConfig_default (ready acknowledge)
    = (ready acknowledge, Err (Run.Safety "runtime coordinator instance may start exactly once")).
Proof.
  destruct started_ready as (report & H & _).
  exact (proj2 (proj2 (start_earns_ready scope "owner-1" ReconciliationConfig_default (fresh acknowledge)
    (ready acknowledge) report H))).
Defined.
