(* ===== verification/RuntimeMetrics.v ===== *)
(** * Metrics: [crates/vox-runtime/src/metrics.rs] and the metrics port of [ports.rs]

    A registry of metric series in memory, bounded in the number of series and of labels, so
    that no caller can grow it without limit.  Floating-point numbers are a parameter; a
    [BTreeMap] is the list of its entries, of which the order is not observed. *)
From stdpp Require Import sorting.
From S2P Require Import Prelude SortedVec RuntimeModel RuntimePorts RuntimeCoordinator.

Module Metric.
Inductive MetricName :=
| RuntimeState | RuntimeReady | ReconciliationTotal | ReconciliationDurationSeconds | UnresolvedUnknown
| BrokerRequestsTotal | BrokerRequestDurationSeconds | BrokerRateLimitedTotal | StreamConnections | StreamReconnectTotal
| StreamQueueDepth | StreamDroppedTotal | RuntimeCommandQueueDepth | PersistenceOperationDurationSeconds
| PersistenceErrorsTotal | EventDeduplicatedTotal | RuntimeEpochChanges.

Inductive StoreOperation := Open | Acquire | Mutation | Reconcile | Event | Audit | Compact | Shutdown.

Inductive BrokerService := Users | Operations | Orders | StopOrders | OrdersStream | Execution.
End Metric.
Notation MetricName := Metric.MetricName.
Notation StoreOperation := Metric.StoreOperation.
Notation BrokerService := Metric.BrokerService.

Module Method.
Inductive BrokerMethod :=
| GetAccounts | GetPortfolio | GetPositions | GetOrders | GetOrderState | GetStopOrders | GetOperationsByCursor
| StreamConnect | Mutation.
End Method.
Notation BrokerMethod := Method.BrokerMethod.

Definition service (self : BrokerMethod) : BrokerService :=
  match self with
  | Method.GetAccounts => Metric.Users
  | Method.GetPortfolio | Method.GetPositions | Method.GetOperationsByCursor => Metric.Operations
  | Method.GetOrders | Method.GetOrderState => Metric.Orders
  | Method.GetStopOrders => Metric.StopOrders
  | Method.StreamConnect => Metric.OrdersStream
  | Method.Mutation => Metric.Execution
  end.

Inductive MetricLabel :=
| Result (class : BrokerResultClass)
| StreamLabel (kind : StreamKind)
| Reason (code : ReasonCode)
| Operation (operation : StoreOperation)
| EventClass (class : BrokerEventClass)
| Service (service : BrokerService)
| MethodLabel (method : BrokerMethod).

#[export] Instance MetricName_eq_dec : EqDecision MetricName.
Proof. solve_decision. Defined.
#[export] Instance StoreOperation_eq_dec : EqDecision StoreOperation.
Proof. solve_decision. Defined.
#[export] Instance BrokerService_eq_dec : EqDecision BrokerService.
Proof. solve_decision. Defined.
#[export] Instance BrokerMethod_eq_dec : EqDecision BrokerMethod.
Proof. solve_decision. Defined.
#[export] Instance MetricLabel_eq_dec : EqDecision MetricLabel.
Proof. solve_decision. Defined.

(** ** The derived order of labels: by variant, then by its value *)

Definition label_rank (label : MetricLabel) : nat * nat :=
  match label with
  | Result class =>
      (0, match class with Res.Success => 0 | Res.RateLimited => 1 | Res.Credential => 2 | Res.Permission => 3
                         | Res.Transient => 4 | Res.Permanent => 5 end)
  | StreamLabel kind =>
      (1, match kind with Stream.OrderState => 0 | Stream.Trades => 1 | Stream.Positions => 2 | Stream.Portfolio => 3
                        | Stream.Operations => 4 end)
  | Reason code =>
      (2, match code with
          | Why.Startup => 0 | Why.Connecting => 1 | Why.ReconciliationStarted => 2 | Why.ReconciliationComplete => 3
          | Why.ReconciliationIncomplete => 4 | Why.UnknownMutation => 5 | Why.BrokerPositionConflict => 6
          | Why.BrokerOrderConflict => 7 | Why.BrokerStopConflict => 8 | Why.RequiredReadUnavailable => 9
          | Why.AccountUnavailable => 10 | Why.CredentialRejected => 11 | Why.ExecutionUnauthorized => 12
          | Why.StreamDisconnected => 13 | Why.StreamGap => 14 | Why.StreamQueueOverflow => 15
          | Why.OptionalCapabilityUnavailable => 16 | Why.CheckpointRebuild => 17 | Why.PersistenceFailure => 18
          | Why.OwnershipFailure => 19 | Why.StaleEpoch => 20 | Why.CorruptMutationEvidence => 21
          | Why.ShutdownRequested => 22 | Why.ShutdownComplete => 23
          end)
  | Operation operation =>
      (3, match operation with Metric.Open => 0 | Metric.Acquire => 1 | Metric.Mutation => 2 | Metric.Reconcile => 3
                             | Metric.Event => 4 | Metric.Audit => 5 | Metric.Compact => 6 | Metric.Shutdown => 7 end)
  | EventClass class =>
      (4, match class with EventCls.Order => 0 | EventCls.Stop => 1 | EventCls.Fill => 2 | EventCls.Operation => 3
                         | EventCls.Position => 4 | EventCls.Portfolio => 5 end)
  | Service service =>
      (5, match service with Metric.Users => 0 | Metric.Operations => 1 | Metric.Orders => 2 | Metric.StopOrders => 3
                           | Metric.OrdersStream => 4 | Metric.Execution => 5 end)
  | MethodLabel method =>
      (6, match method with Method.GetAccounts => 0 | Method.GetPortfolio => 1 | Method.GetPositions => 2
                          | Method.GetOrders => 3 | Method.GetOrderState => 4 | Method.GetStopOrders => 5
                          | Method.GetOperationsByCursor => 6 | Method.StreamConnect => 7 | Method.Mutation => 8 end)
  end%nat.

Definition label_le : relation MetricLabel := λ a b,
  let '(va, xa) := label_rank a in let '(vb, xb) := label_rank b in
  (va < vb ∨ va = vb ∧ xa ≤ xb)%nat.

#[export] Instance label_le_dec : RelDecision label_le.
Proof. intros a b. unfold label_le. destruct (label_rank a), (label_rank b). apply _. Defined.

Lemma label_rank_inj a b : label_rank a = label_rank b → a = b.
Proof.
  destruct a as [x|x|x|x|x|x|x], b as [y|y|y|y|y|y|y]; try (simpl; discriminate);
    simpl; intros [= H]; f_equal; destruct x, y; congruence.
Qed.

#[export] Instance label_le_order : PartialOrder label_le.
Proof.
  unfold label_le. split; [split|].
  - intros a. destruct (label_rank a). lia.
  - intros a b c. destruct (label_rank a), (label_rank b), (label_rank c). lia.
  - intros a b Hab Hba. apply label_rank_inj. destruct (label_rank a), (label_rank b). f_equal; lia.
Qed.

#[export] Instance label_le_total : Total label_le.
Proof. intros a b. unfold label_le. destruct (label_rank a), (label_rank b). lia. Qed.

(** ** The registry *)

Definition MAX_METRIC_SERIES : nat := 256.
Definition MAX_LABELS_PER_SERIES : nat := 4.

Section metrics.
Context {F : Type} (zero : F) (add : F → F → F).

Record MetricValue := {
  mv_gauge : option F;
  mv_counter : Z;
  mv_observation_count : Z;
  mv_observation_sum : F;
}.

Definition MetricValue_default : MetricValue := {|
  mv_gauge := None; mv_counter := 0; mv_observation_count := 0; mv_observation_sum := zero |}.

Notation Key := (MetricName * list MetricLabel)%type.

Record MetricsState := { ms_values : list (Key * MetricValue); ms_rejected_updates : Z }.

Definition MetricsState_default : MetricsState := {| ms_values := []; ms_rejected_updates := 0 |}.

Definition value_of (key : Key) (values : list (Key * MetricValue)) : option MetricValue :=
  snd <$> List.find (λ e, bool_decide (e.1 = key)) values.

Fixpoint apply_at (key : Key) (apply : MetricValue → MetricValue) (values : list (Key * MetricValue))
  : list (Key * MetricValue) :=
  match values with
  | [] => [(key, apply MetricValue_default)]
  | (k, v) :: values => if bool_decide (k = key) then (k, apply v) :: values else (k, v) :: apply_at key apply values
  end.

Definition reject (state : MetricsState) : MetricsState := {|
  ms_values := ms_values state; ms_rejected_updates := saturating_add U64 (ms_rejected_updates state) 1 |}.

Definition metric_key (metric : MetricName) (labels : list MetricLabel) : Key := (metric, sorted_set label_le labels).

(** [InMemoryMetrics::update], the lock held. *)
Definition update (metric : MetricName) (labels : list MetricLabel) (apply : MetricValue → MetricValue)
    (state : MetricsState) : MetricsState :=
  if (MAX_LABELS_PER_SERIES <? length labels)%nat then reject state
  else
    let key := metric_key metric labels in
    if bool_decide (value_of key (ms_values state) = None) && (MAX_METRIC_SERIES <=? length (ms_values state))%nat
    then reject state
    else {| ms_values := apply_at key apply (ms_values state); ms_rejected_updates := ms_rejected_updates state |}.

Definition gauge_set (value : F) (entry : MetricValue) : MetricValue := {|
  mv_gauge := Some value; mv_counter := mv_counter entry; mv_observation_count := mv_observation_count entry;
  mv_observation_sum := mv_observation_sum entry |}.
Definition counted_up (amount : Z) (entry : MetricValue) : MetricValue := {|
  mv_gauge := mv_gauge entry; mv_counter := saturating_add U64 (mv_counter entry) amount;
  mv_observation_count := mv_observation_count entry; mv_observation_sum := mv_observation_sum entry |}.
Definition observed (value : F) (entry : MetricValue) : MetricValue := {|
  mv_gauge := mv_gauge entry; mv_counter := mv_counter entry;
  mv_observation_count := saturating_add U64 (mv_observation_count entry) 1;
  mv_observation_sum := add (mv_observation_sum entry) value |}.

Definition set_gauge metric labels (value : F) := update metric labels (gauge_set value).
Definition increment metric labels (amount : Z) := update metric labels (counted_up amount).
Definition observe_seconds metric labels (value : F) := update metric labels (observed value).

(** ** What the registry guarantees *)

Lemma value_of_None key values : value_of key values = None ↔ key ∉ values.*1.
Proof.
  unfold value_of. induction values as [|[k v] values IH]; simpl; [set_solver|]. case_bool_decide as Hk; simpl.
  - split; [done|]. subst. set_solver.
  - rewrite IH. set_solver.
Qed.

Lemma apply_at_keys key apply values :
  (apply_at key apply values).*1 = if bool_decide (key ∈ values.*1) then values.*1 else values.*1 ++ [key].
Proof.
  induction values as [|[k v] values IH]; [done|]. cbn [apply_at].
  destruct (bool_decide_reflect (k = key)) as [->|Hk]; rewrite !fmap_cons; cbn [fst].
  - rewrite bool_decide_eq_true_2; [done|set_solver].
  - rewrite IH. do 2 case_bool_decide; set_solver.
Qed.

Lemma value_of_apply_at key apply values other :
  value_of other (apply_at key apply values) =
  if bool_decide (other = key) then Some (apply (default MetricValue_default (value_of key values)))
  else value_of other values.
Proof.
  unfold value_of. induction values as [|[k v] values IH]; simpl.
  - destruct (bool_decide_reflect (key = other)) as [->|]; [by rewrite bool_decide_eq_true_2|].
    by rewrite bool_decide_eq_false_2 by congruence.
  - destruct (bool_decide_reflect (k = key)) as [->|Hk]; simpl.
    + destruct (bool_decide_reflect (key = other)) as [->|]; [by rewrite bool_decide_eq_true_2|].
      by rewrite (bool_decide_eq_false_2 (other = key)) by congruence.
    + destruct (bool_decide_reflect (k = other)) as [->|]; [by rewrite bool_decide_eq_false_2|]. apply IH.
Qed.

(** The state never grows beyond its limits: its keys are distinct, at most 256, each with at
    most four labels in canonical order. *)
Definition metrics_bounded (state : MetricsState) : Prop :=
  NoDup (ms_values state).*1 ∧ (length (ms_values state) ≤ MAX_METRIC_SERIES)%nat ∧
  ∀ metric labels, (metric, labels) ∈ (ms_values state).*1 →
    (length labels ≤ MAX_LABELS_PER_SERIES)%nat ∧ StronglySorted (strictly label_le) labels.

Lemma update_bounded metric labels apply state :
  metrics_bounded state → metrics_bounded (update metric labels apply state).
Proof.
  intros (Hn & Hl & Hk). unfold update. destruct (Nat.ltb_spec MAX_LABELS_PER_SERIES (length labels)); [by split_and!|].
  destruct (_ && _) eqn:Hb; [by split_and!|]. unfold metrics_bounded. cbn [ms_values].
  set (key := metric_key metric labels) in *. pose proof (apply_at_keys key apply (ms_values state)) as Hkeys.
  rewrite <- (length_fmap fst), Hkeys. case_bool_decide as Hin; [by rewrite length_fmap|].
  rewrite (proj2 (value_of_None _ _) Hin), bool_decide_eq_true_2 in Hb by done. cbn [andb] in Hb. apply Nat.leb_gt in Hb.
  split_and!.
  - apply NoDup_app. split_and!; [done|set_solver|apply NoDup_singleton].
  - rewrite length_app, length_fmap. simpl. lia.
  - intros m l [Hin'|[= -> ->]%list_elem_of_singleton]%elem_of_app; [by apply (Hk m)|].
    split; [pose proof (sorted_set_length label_le labels); lia|apply sorted_set_sorted; apply _].
Qed.

(** What an update does: it is applied to the one series it names and to no other, or it is
    counted as rejected and changes no series. *)
Lemma update_spec metric labels apply state :
  let key := metric_key metric labels in
  update metric labels apply state = reject state ∨
  (ms_rejected_updates (update metric labels apply state) = ms_rejected_updates state ∧
   ∀ other, value_of other (ms_values (update metric labels apply state)) =
     if bool_decide (other = key) then Some (apply (default MetricValue_default (value_of key (ms_values state))))
     else value_of other (ms_values state)).
Proof.
  unfold update. destruct (_ <? _)%nat; [by left|]. destruct (_ && _); [by left|]. right. split; [done|].
  intros other. apply value_of_apply_at.
Qed.

(** The order in which labels are given makes no difference. *)
Lemma update_labels_perm metric labels labels' apply state :
  labels ≡ₚ labels' → update metric labels apply state = update metric labels' apply state.
Proof.
  intros H. unfold update, metric_key. rewrite H. rewrite (sorted_set_ext label_le labels labels'); [done|].
  intros x. by rewrite H.
Qed.

(** The calls of the port. *)
Inductive MetricCall :=
| SetGauge (metric : MetricName) (labels : list MetricLabel) (value : F)
| Increment (metric : MetricName) (labels : list MetricLabel) (amount : Z)
| ObserveSeconds (metric : MetricName) (labels : list MetricLabel) (value : F).

Definition run_call (state : MetricsState) (call : MetricCall) : MetricsState :=
  match call with
  | SetGauge metric labels value => set_gauge metric labels value state
  | Increment metric labels amount => increment metric labels amount state
  | ObserveSeconds metric labels value => observe_seconds metric labels value state
  end.

(** Whatever is reported, the registry stays within its limits. *)
Theorem metrics_stay_bounded calls : metrics_bounded (fold_left run_call calls MetricsState_default).
Proof.
  assert (metrics_bounded MetricsState_default) as H.
  { split_and!; simpl; [constructor|lia|set_solver]. }
  revert H. generalize MetricsState_default. induction calls as [|call calls IH]; intros state H; [done|].
  apply IH. destruct call; by apply update_bounded.
Qed.
End metrics.
