(* ===== verification/TInvestWire.v ===== *)
(** * The broker's wire contract: [crates/vox-tinvest/proto/tinkoff]

    The messages and enumerations of the provider that the execution adapter sends
    and reads, as the code generated from the [.proto] files presents them: a message
    field is an [option], a field of an enumeration type is its 32-bit number, a
    [oneof] is an optional sum and a repeated field a list.  Converting a number back
    to its enumeration fails on a number without a member; the class [WireEnum] gives
    both directions from the members of the enumeration and their numbers. *)
From S2P Require Import Prelude.

(** ** Enumerations *)

Class WireEnum (A : Type) := {
  as_i32 : A → Z;
  members : list A;
}.

(** [A::try_from(value)]. *)
Definition enum_try_from {A} `{!WireEnum A} (value : Z) : option A :=
  List.find (λ a, as_i32 a =? value) members.

(** Every member is listed and the numbers are distinct. *)
Class WireEnumLaws (A : Type) `{!WireEnum A} :=
  try_from_as_i32 (a : A) : enum_try_from (as_i32 a) = Some a.

Ltac wire_enum := by intros []; reflexivity.

Inductive OrderDirection :=
| OrderDirection_Unspecified | OrderDirection_Buy | OrderDirection_Sell.
#[export] Instance OrderDirection_wire : WireEnum OrderDirection := {
  as_i32 d := match d with
              | OrderDirection_Unspecified => 0 | OrderDirection_Buy => 1 | OrderDirection_Sell => 2
              end;
  members := [OrderDirection_Unspecified; OrderDirection_Buy; OrderDirection_Sell];
}.
#[export] Instance OrderDirection_laws : WireEnumLaws OrderDirection.
Proof. wire_enum. Qed.

Inductive OrderType :=
| OrderType_Unspecified | OrderType_Limit | OrderType_Market | OrderType_Bestprice.
#[export] Instance OrderType_wire : WireEnum OrderType := {
  as_i32 t := match t with
              | OrderType_Unspecified => 0 | OrderType_Limit => 1
              | OrderType_Market => 2 | OrderType_Bestprice => 3
              end;
  members := [OrderType_Unspecified; OrderType_Limit; OrderType_Market; OrderType_Bestprice];
}.
#[export] Instance OrderType_laws : WireEnumLaws OrderType.
Proof. wire_enum. Qed.

Inductive TimeInForceType :=
| TimeInForceUnspecified | TimeInForceDay | TimeInForceFillAndKill | TimeInForceFillOrKill.
#[export] Instance TimeInForceType_wire : WireEnum TimeInForceType := {
  as_i32 t := match t with
              | TimeInForceUnspecified => 0 | TimeInForceDay => 1
              | TimeInForceFillAndKill => 2 | TimeInForceFillOrKill => 3
              end;
  members := [TimeInForceUnspecified; TimeInForceDay; TimeInForceFillAndKill; TimeInForceFillOrKill];
}.
#[export] Instance TimeInForceType_laws : WireEnumLaws TimeInForceType.
Proof. wire_enum. Qed.

Inductive OrderIdType := OrderIdType_Unspecified | OrderIdType_Exchange | OrderIdType_Request.
#[export] Instance OrderIdType_wire : WireEnum OrderIdType := {
  as_i32 t := match t with
              | OrderIdType_Unspecified => 0 | OrderIdType_Exchange => 1 | OrderIdType_Request => 2
              end;
  members := [OrderIdType_Unspecified; OrderIdType_Exchange; OrderIdType_Request];
}.
#[export] Instance OrderIdType_laws : WireEnumLaws OrderIdType.
Proof. wire_enum. Qed.

Inductive PriceType := PriceType_Unspecified | PriceType_Point | PriceType_Currency.
#[export] Instance PriceType_wire : WireEnum PriceType := {
  as_i32 t := match t with
              | PriceType_Unspecified => 0 | PriceType_Point => 1 | PriceType_Currency => 2
              end;
  members := [PriceType_Unspecified; PriceType_Point; PriceType_Currency];
}.
#[export] Instance PriceType_laws : WireEnumLaws PriceType.
Proof. wire_enum. Qed.

Inductive StopOrderDirection :=
| StopOrderDirection_Unspecified | StopOrderDirection_Buy | StopOrderDirection_Sell.
#[export] Instance StopOrderDirection_wire : WireEnum StopOrderDirection := {
  as_i32 d := match d with
              | StopOrderDirection_Unspecified => 0
              | StopOrderDirection_Buy => 1 | StopOrderDirection_Sell => 2
              end;
  members := [StopOrderDirection_Unspecified; StopOrderDirection_Buy; StopOrderDirection_Sell];
}.
#[export] Instance StopOrderDirection_laws : WireEnumLaws StopOrderDirection.
Proof. wire_enum. Qed.

Inductive StopOrderExpirationType := Expiration_Unspecified | GoodTillCancel | GoodTillDate.
#[export] Instance StopOrderExpirationType_wire : WireEnum StopOrderExpirationType := {
  as_i32 t := match t with
              | Expiration_Unspecified => 0 | GoodTillCancel => 1 | GoodTillDate => 2
              end;
  members := [Expiration_Unspecified; GoodTillCancel; GoodTillDate];
}.
#[export] Instance StopOrderExpirationType_laws : WireEnumLaws StopOrderExpirationType.
Proof. wire_enum. Qed.

Inductive StopOrderType :=
| StopOrderType_Unspecified | StopOrderType_TakeProfit | StopOrderType_StopLoss
| StopOrderType_StopLimit.
#[export] Instance StopOrderType_wire : WireEnum StopOrderType := {
  as_i32 t := match t with
              | StopOrderType_Unspecified => 0 | StopOrderType_TakeProfit => 1
              | StopOrderType_StopLoss => 2 | StopOrderType_StopLimit => 3
              end;
  members := [StopOrderType_Unspecified; StopOrderType_TakeProfit; StopOrderType_StopLoss;
              StopOrderType_StopLimit];
}.
#[export] Instance StopOrderType_laws : WireEnumLaws StopOrderType.
Proof. wire_enum. Qed.

Inductive ExchangeOrderType :=
| ExchangeOrderType_Unspecified | ExchangeOrderType_Market | ExchangeOrderType_Limit.
#[export] Instance ExchangeOrderType_wire : WireEnum ExchangeOrderType := {
  as_i32 t := match t with
              | ExchangeOrderType_Unspecified => 0
              | ExchangeOrderType_Market => 1 | ExchangeOrderType_Limit => 2
              end;
  members := [ExchangeOrderType_Unspecified; ExchangeOrderType_Market; ExchangeOrderType_Limit];
}.
#[export] Instance ExchangeOrderType_laws : WireEnumLaws ExchangeOrderType.
Proof. wire_enum. Qed.

Inductive TakeProfitType :=
| TakeProfitType_Unspecified | TakeProfitType_Regular | TakeProfitType_Trailing.
#[export] Instance TakeProfitType_wire : WireEnum TakeProfitType := {
  as_i32 t := match t with
              | TakeProfitType_Unspecified => 0
              | TakeProfitType_Regular => 1 | TakeProfitType_Trailing => 2
              end;
  members := [TakeProfitType_Unspecified; TakeProfitType_Regular; TakeProfitType_Trailing];
}.
#[export] Instance TakeProfitType_laws : WireEnumLaws TakeProfitType.
Proof. wire_enum. Qed.

Inductive TrailingValueType :=
| TrailingValueUnspecified | TrailingValueAbsolute | TrailingValueRelative.
#[export] Instance TrailingValueType_wire : WireEnum TrailingValueType := {
  as_i32 t := match t with
              | TrailingValueUnspecified => 0
              | TrailingValueAbsolute => 1 | TrailingValueRelative => 2
              end;
  members := [TrailingValueUnspecified; TrailingValueAbsolute; TrailingValueRelative];
}.
#[export] Instance TrailingValueType_laws : WireEnumLaws TrailingValueType.
Proof. wire_enum. Qed.

(** ** Common messages *)

Record Quotation := { q_units : Z; q_nano : Z }.

Record MoneyValue := { mv_currency : string; mv_units : Z; mv_nano : Z }.

(** [prost_types::Timestamp]. *)
Record Timestamp := { ts_seconds : Z; ts_nanos : Z }.

Record ResponseMetadata := { rm_tracking_id : string; rm_server_time : option Timestamp }.

Record Ping := {
  pg_time : option Timestamp;
  pg_stream_id : string;
  pg_ping_request_time : option Timestamp;
}.

Record ErrorDetail := { ed_code : string; ed_message : string }.

#[export] Instance Quotation_eq_dec : EqDecision Quotation.
Proof. solve_decision. Defined.
#[export] Instance Timestamp_eq_dec : EqDecision Timestamp.
Proof. solve_decision. Defined.

(** ** Order messages *)

Record PostOrderRequest := {
  por_figi : option string;
  por_quantity : Z;
  por_price : option Quotation;
  por_direction : Z;
  por_account_id : string;
  por_order_type : Z;
  por_order_id : string;
  por_instrument_id : string;
  por_time_in_force : Z;
  por_price_type : Z;
  por_confirm_margin_trade : bool;
}.

Record PostOrderResponse := {
  pos_order_id : string;
  pos_execution_report_status : Z;
  pos_lots_requested : Z;
  pos_lots_executed : Z;
  pos_initial_order_price : option MoneyValue;
  pos_executed_order_price : option MoneyValue;
  pos_total_order_amount : option MoneyValue;
  pos_initial_commission : option MoneyValue;
  pos_executed_commission : option MoneyValue;
  pos_aci_value : option MoneyValue;
  pos_figi : string;
  pos_direction : Z;
  pos_initial_security_price : option MoneyValue;
  pos_order_type : Z;
  pos_message : string;
  pos_initial_order_price_pt : option Quotation;
  pos_instrument_uid : string;
  pos_ticker : string;
  pos_class_code : string;
  pos_order_request_id : string;
  pos_response_metadata : option ResponseMetadata;
}.

Record PostOrderAsyncRequest := {
  pa_instrument_id : string;
  pa_quantity : Z;
  pa_price : option Quotation;
  pa_direction : Z;
  pa_account_id : string;
  pa_order_type : Z;
  pa_order_id : string;
  pa_time_in_force : option Z;
  pa_price_type : option Z;
  pa_confirm_margin_trade : bool;
}.

Record PostOrderAsyncResponse := {
  par_order_request_id : string;
  par_execution_report_status : Z;
  par_trade_intent_id : option string;
}.

Record CancelOrderRequest := {
  cor_account_id : string;
  cor_order_id : string;
  cor_order_id_type : option Z;
}.

Record CancelOrderResponse := {
  cos_time : option Timestamp;
  cos_response_metadata : option ResponseMetadata;
}.

Record GetOrderStateRequest := {
  gos_account_id : string;
  gos_order_id : string;
  gos_price_type : Z;
  gos_order_id_type : option Z;
}.

Record OrderStage := {
  sg_price : option MoneyValue;
  sg_quantity : Z;
  sg_trade_id : string;
  sg_execution_time : option Timestamp;
}.

Record OrderState := {
  os_order_id : string;
  os_execution_report_status : Z;
  os_lots_requested : Z;
  os_lots_executed : Z;
  os_initial_order_price : option MoneyValue;
  os_executed_order_price : option MoneyValue;
  os_total_order_amount : option MoneyValue;
  os_average_position_price : option MoneyValue;
  os_initial_commission : option MoneyValue;
  os_executed_commission : option MoneyValue;
  os_figi : string;
  os_direction : Z;
  os_initial_security_price : option MoneyValue;
  os_stages : list OrderStage;
  os_service_commission : option MoneyValue;
  os_currency : string;
  os_order_type : Z;
  os_order_date : option Timestamp;
  os_instrument_uid : string;
  os_order_request_id : string;
  os_ticker : string;
  os_class_code : string;
}.

Record GetOrdersResponse := { gor_orders : list OrderState }.

Record ReplaceOrderRequest := {
  rr_account_id : string;
  rr_order_id_type : option Z;
  rr_order_id : string;
  rr_idempotency_key : string;
  rr_quantity : Z;
  rr_price : option Quotation;
  rr_price_type : option Z;
  rr_confirm_margin_trade : bool;
}.

Record BuyLimitsView := {
  bl_buy_money_amount : option Quotation;
  bl_buy_max_lots : Z;
  bl_buy_max_market_lots : Z;
}.

Record SellLimitsView := { sl_sell_max_lots : Z }.

Record GetMaxLotsResponse := {
  ml_currency : string;
  ml_buy_limits : option BuyLimitsView;
  ml_buy_margin_limits : option BuyLimitsView;
  ml_sell_limits : option SellLimitsView;
  ml_sell_margin_limits : option SellLimitsView;
}.

Inductive InstrumentExtra :=
| ExtraBond (aci_value : option MoneyValue) (nominal_conversion_rate : option Quotation)
| ExtraFuture (initial_margin : option MoneyValue).

Record GetOrderPriceResponse := {
  op_total_order_amount : option MoneyValue;
  op_initial_order_amount : option MoneyValue;
  op_lots_requested : Z;
  op_executed_commission : option MoneyValue;
  op_executed_commission_rub : option MoneyValue;
  op_service_commission : option MoneyValue;
  op_deal_commission : option MoneyValue;
  op_instrument_extra : option InstrumentExtra;
}.

(** ** Order streams *)

Record OrderTrade := {
  ot_date_time : option Timestamp;
  ot_price : option Quotation;
  ot_quantity : Z;
  ot_trade_id : string;
}.

Record OrderTrades := {
  ots_order_id : string;
  ots_created_at : option Timestamp;
  ots_direction : Z;
  ots_figi : string;
  ots_trades : list OrderTrade;
  ots_account_id : string;
  ots_instrument_uid : string;
}.

Record SubscriptionResponse := {
  sr_tracking_id : string;
  sr_status : Z;
  sr_stream_id : string;
  sr_accounts : list string;
  sr_error : option ErrorDetail;
}.

Inductive TradesPayload :=
| TradesPayload_OrderTrades (value : OrderTrades)
| TradesPayload_Ping (value : Ping)
| TradesPayload_Subscription (value : SubscriptionResponse).

Record TradesStreamResponse := { tsr_payload : option TradesPayload }.

(** [order_state_stream_response::OrderState]. *)
Record StreamOrderState := {
  so_order_id : string;
  so_order_request_id : option string;
  so_client_code : string;
  so_created_at : option Timestamp;
  so_execution_report_status : Z;
  so_status_info : option Z;
  so_ticker : string;
  so_class_code : string;
  so_lot_size : Z;
  so_direction : Z;
  so_time_in_force : Z;
  so_order_type : Z;
  so_account_id : string;
  so_trade_order_id : string;
  so_initial_order_price : option MoneyValue;
  so_order_price : option MoneyValue;
  so_amount : option MoneyValue;
  so_executed_order_price : option MoneyValue;
  so_currency : string;
  so_lots_requested : Z;
  so_lots_executed : Z;
  so_lots_left : Z;
  so_lots_cancelled : Z;
  so_marker : option Z;
  so_trades : list OrderTrade;
  so_completion_time : option Timestamp;
  so_exchange : string;
  so_instrument_uid : string;
}.

(** [order_state_stream_response::StopOrderState]. *)
Record StreamStopOrderState := {
  ss_stop_order_id : string;
  ss_account_id : string;
  ss_created_at : option Timestamp;
  ss_direction : Z;
  ss_price : option MoneyValue;
  ss_stop_price : option MoneyValue;
  ss_order_type : Z;
  ss_instrument_uid : string;
  ss_ticker : string;
  ss_class_code : string;
  ss_status : Z;
}.

Inductive OrderStatePayload :=
| OrderStatePayload_OrderState (value : StreamOrderState)
| OrderStatePayload_Ping (value : Ping)
| OrderStatePayload_Subscription (value : SubscriptionResponse)
| OrderStatePayload_StopOrderState (value : StreamStopOrderState).

Record OrderStateStreamResponse := { oss_payload : option OrderStatePayload }.

(** ** Stop-order messages *)

(** [post_stop_order_request::TrailingData]. *)
Record TrailingData := {
  tr_indent : option Quotation;
  tr_indent_type : Z;
  tr_spread : option Quotation;
  tr_spread_type : Z;
}.

Record PostStopOrderRequest := {
  ps_figi : option string;
  ps_quantity : Z;
  ps_price : option Quotation;
  ps_stop_price : option Quotation;
  ps_direction : Z;
  ps_account_id : string;
  ps_expiration_type : Z;
  ps_stop_order_type : Z;
  ps_expire_date : option Timestamp;
  ps_instrument_id : string;
  ps_exchange_order_type : Z;
  ps_take_profit_type : Z;
  ps_trailing_data : option TrailingData;
  ps_price_type : Z;
  ps_order_id : string;
  ps_confirm_margin_trade : bool;
  ps_instant_execution : option bool;
}.

Record PostStopOrderResponse := {
  psr_stop_order_id : string;
  psr_order_request_id : string;
  psr_response_metadata : option ResponseMetadata;
}.

Record CancelStopOrderRequest := { csr_account_id : string; csr_stop_order_id : string }.

Record CancelStopOrderResponse := { css_time : option Timestamp }.

(** [stop_order::TrailingData]. *)
Record StopTrailingData := {
  st_indent : option Quotation;
  st_indent_type : Z;
  st_spread : option Quotation;
  st_spread_type : Z;
  st_status : Z;
  st_price : option Quotation;
  st_extr : option Quotation;
}.

Record StopOrder := {
  sp_stop_order_id : string;
  sp_lots_requested : Z;
  sp_figi : string;
  sp_direction : Z;
  sp_currency : string;
  sp_order_type : Z;
  sp_create_date : option Timestamp;
  sp_activation_date_time : option Timestamp;
  sp_expiration_time : option Timestamp;
  sp_price : option MoneyValue;
  sp_stop_price : option MoneyValue;
  sp_instrument_uid : string;
  sp_take_profit_type : Z;
  sp_trailing_data : option StopTrailingData;
  sp_status : Z;
  sp_exchange_order_type : Z;
  sp_exchange_order_id : option string;
  sp_ticker : string;
  sp_class_code : string;
  sp_instant_execution : bool;
}.

Record GetStopOrdersResponse := { gsr_stop_orders : list StopOrder }.
