(* ===== verification/TInvestCanonical.v ===== *)
(** * Canonical broker values: [crates/vox-tinvest/src/canonical.rs], the timestamps of
    [account.rs] and the read models of [execution.rs]

    What the adapter keeps of the broker's messages.  An empty text is an absent one, an
    absent amount stays absent, an enumeration keeps its wire number; a malformed amount
    or timestamp fails the whole message.  The theorems say that a message is decoded
    exactly when every amount and timestamp in it is well formed, and that the decoded
    amounts are the ones on the wire. *)
From S2P Require Import Prelude Money TInvestWire.

(** ** Values *)

Definition optional_text (value : string) : option string :=
  if is_blank value then None else Some value.

(** [Option::filter(|value| !value.trim().is_empty())]. *)
Definition filter_text (value : option string) : option string :=
  match value with Some v => optional_text v | None => None end.

Inductive EconomicsError := EconomicsMissing (field : string) | InvalidUnitsNano.

Record CanonicalMoney := { mn_currency : option string; mn_amount : UnitsNano }.

Definition CanonicalMoney_try_from (value : MoneyValue) : result EconomicsError CanonicalMoney :=
  let? amount := map_err (λ _, InvalidUnitsNano) (UnitsNano_new (mv_units value) (mv_nano value)) in
  Ok {| mn_currency := optional_text (mv_currency value); mn_amount := amount |}.

Definition economics_quotation (value : option Quotation)
  : result EconomicsError (option UnitsNano) :=
  transpose ((λ v, map_err (λ _, InvalidUnitsNano) (UnitsNano_new (q_units v) (q_nano v))) <$> value).

Record GetFuturesMarginResponse := {
  fm_initial_margin_on_buy : option MoneyValue;
  fm_initial_margin_on_sell : option MoneyValue;
  fm_min_price_increment : option Quotation;
  fm_min_price_increment_amount : option Quotation;
}.

Record CanonicalFuturesMargin := {
  cfm_initial_margin_on_buy : option CanonicalMoney;
  cfm_initial_margin_on_sell : option CanonicalMoney;
  cfm_min_price_increment : option UnitsNano;
  cfm_min_price_increment_amount : option UnitsNano;
}.

Definition CanonicalFuturesMargin_try_from (value : GetFuturesMarginResponse)
  : result EconomicsError CanonicalFuturesMargin :=
  let? buy := transpose (CanonicalMoney_try_from <$> fm_initial_margin_on_buy value) in
  let? sell := transpose (CanonicalMoney_try_from <$> fm_initial_margin_on_sell value) in
  let? increment := economics_quotation (fm_min_price_increment value) in
  let? amount := economics_quotation (fm_min_price_increment_amount value) in
  Ok {| cfm_initial_margin_on_buy := buy; cfm_initial_margin_on_sell := sell;
        cfm_min_price_increment := increment; cfm_min_price_increment_amount := amount |}.

Definition require_complete (self : CanonicalFuturesMargin) : result EconomicsError () :=
  if negb (bool_decide (is_Some (cfm_initial_margin_on_buy self)))
  then Err (EconomicsMissing "initial_margin_on_buy")
  else if negb (bool_decide (is_Some (cfm_initial_margin_on_sell self)))
  then Err (EconomicsMissing "initial_margin_on_sell")
  else if negb (bool_decide (is_Some (cfm_min_price_increment self)))
  then Err (EconomicsMissing "min_price_increment")
  else if negb (bool_decide (is_Some (cfm_min_price_increment_amount self)))
  then Err (EconomicsMissing "min_price_increment_amount")
  else Ok tt.

Inductive AccountDataError :=
| MissingIdentity (field : string)
| AccountInvalidUnitsNano
| AccountInvalidTimestamp
| IdentityMismatch (field : string).

Record ProviderTimestamp := { pt_seconds : Z; pt_nanos : Z }.

(** [(0..1_000_000_000).contains(&nanos)]. *)
Definition nanos_in_second (nanos : Z) : bool := (0 <=? nanos) && (nanos <? 1000000000).

Definition ProviderTimestamp_try_from (value : Timestamp)
  : result AccountDataError ProviderTimestamp :=
  if negb (nanos_in_second (ts_nanos value)) then Err AccountInvalidTimestamp
  else Ok {| pt_seconds := ts_seconds value; pt_nanos := ts_nanos value |}.

(** ** Decoding an execution message *)

Inductive ExecutionDecodeError := MissingPayload | InvalidEconomics | InvalidTimestamp.

Definition decode_money (value : option MoneyValue)
  : result ExecutionDecodeError (option CanonicalMoney) :=
  map_err (λ _, InvalidEconomics) (transpose (CanonicalMoney_try_from <$> value)).

Definition decode_units_nano (value : option Quotation)
  : result ExecutionDecodeError (option UnitsNano) :=
  map_err (λ _, InvalidEconomics)
    (transpose ((λ v, UnitsNano_new (q_units v) (q_nano v)) <$> value)).

Definition decode_timestamp (value : option Timestamp)
  : result ExecutionDecodeError (option ProviderTimestamp) :=
  map_err (λ _, InvalidTimestamp) (transpose (ProviderTimestamp_try_from <$> value)).

Record CanonicalResponseMetadata := {
  crm_tracking_id : option string;
  crm_server_time : option ProviderTimestamp;
}.

Definition response_metadata (value : ResponseMetadata)
  : result ExecutionDecodeError CanonicalResponseMetadata :=
  let? server_time := decode_timestamp (rm_server_time value) in
  Ok {| crm_tracking_id := optional_text (rm_tracking_id value); crm_server_time := server_time |}.

Record CanonicalOrderResult := {
  cr_broker_order_id : option string;
  cr_client_request_id : option string;
  cr_execution_status : Z;
  cr_lots_requested : Z;
  cr_lots_executed : Z;
  cr_direction : Z;
  cr_order_type : Z;
  cr_instrument_uid : option string;
  cr_initial_order_price : option CanonicalMoney;
  cr_executed_order_price : option CanonicalMoney;
  cr_total_order_amount : option CanonicalMoney;
  cr_initial_commission : option CanonicalMoney;
  cr_executed_commission : option CanonicalMoney;
  cr_accrued_interest : option CanonicalMoney;
  cr_initial_security_price : option CanonicalMoney;
  cr_initial_order_price_points : option UnitsNano;
  cr_provider_message : option string;
  cr_figi : option string;
  cr_ticker : option string;
  cr_class_code : option string;
  cr_response_metadata : option CanonicalResponseMetadata;
}.

Definition CanonicalOrderResult_try_from (value : PostOrderResponse)
  : result ExecutionDecodeError CanonicalOrderResult :=
  let? initial_order_price := decode_money (pos_initial_order_price value) in
  let? executed_order_price := decode_money (pos_executed_order_price value) in
  let? total_order_amount := decode_money (pos_total_order_amount value) in
  let? initial_commission := decode_money (pos_initial_commission value) in
  let? executed_commission := decode_money (pos_executed_commission value) in
  let? accrued_interest := decode_money (pos_aci_value value) in
  let? initial_security_price := decode_money (pos_initial_security_price value) in
  let? initial_order_price_points := decode_units_nano (pos_initial_order_price_pt value) in
  let? metadata := transpose (response_metadata <$> pos_response_metadata value) in
  Ok {| cr_broker_order_id := optional_text (pos_order_id value);
        cr_client_request_id := optional_text (pos_order_request_id value);
        cr_execution_status := pos_execution_report_status value;
        cr_lots_requested := pos_lots_requested value;
        cr_lots_executed := pos_lots_executed value;
        cr_direction := pos_direction value;
        cr_order_type := pos_order_type value;
        cr_instrument_uid := optional_text (pos_instrument_uid value);
        cr_initial_order_price := initial_order_price;
        cr_executed_order_price := executed_order_price;
        cr_total_order_amount := total_order_amount;
        cr_initial_commission := initial_commission;
        cr_executed_commission := executed_commission;
        cr_accrued_interest := accrued_interest;
        cr_initial_security_price := initial_security_price;
        cr_initial_order_price_points := initial_order_price_points;
        cr_provider_message := optional_text (pos_message value);
        cr_figi := optional_text (pos_figi value);
        cr_ticker := optional_text (pos_ticker value);
        cr_class_code := optional_text (pos_class_code value);
        cr_response_metadata := metadata |}.

Record CanonicalAsyncOrderResult := {
  ca_client_request_id : option string;
  ca_execution_status : Z;
  ca_provider_operation_id : option string;
}.

Definition CanonicalAsyncOrderResult_from (value : PostOrderAsyncResponse)
  : CanonicalAsyncOrderResult :=
  {| ca_client_request_id := optional_text (par_order_request_id value);
     ca_execution_status := par_execution_report_status value;
     ca_provider_operation_id := filter_text (par_trade_intent_id value) |}.

Record CanonicalStopOrderResult := {
  cst_broker_stop_order_id : option string;
  cst_client_request_id : option string;
  cst_response_metadata : option CanonicalResponseMetadata;
}.

Definition CanonicalStopOrderResult_try_from (value : PostStopOrderResponse)
  : result ExecutionDecodeError CanonicalStopOrderResult :=
  let? metadata := transpose (response_metadata <$> psr_response_metadata value) in
  Ok {| cst_broker_stop_order_id := optional_text (psr_stop_order_id value);
        cst_client_request_id := optional_text (psr_order_request_id value);
        cst_response_metadata := metadata |}.

Record CanonicalCancellation := {
  cc_cancelled_at : option ProviderTimestamp;
  cc_response_metadata : option CanonicalResponseMetadata;
}.

Definition CanonicalCancellation_from_order (value : CancelOrderResponse)
  : result ExecutionDecodeError CanonicalCancellation :=
  let? cancelled_at := decode_timestamp (cos_time value) in
  let? metadata := transpose (response_metadata <$> cos_response_metadata value) in
  Ok {| cc_cancelled_at := cancelled_at; cc_response_metadata := metadata |}.

Definition CanonicalCancellation_from_stop (value : CancelStopOrderResponse)
  : result ExecutionDecodeError CanonicalCancellation :=
  let? cancelled_at := decode_timestamp (css_time value) in
  Ok {| cc_cancelled_at := cancelled_at; cc_response_metadata := None |}.

Record CanonicalBuyLimits := {
  cb_available_money : option UnitsNano;
  cb_max_lots : Z;
  cb_max_market_lots : Z;
}.
Record CanonicalSellLimits := { cl_max_lots : Z }.

Record CanonicalMaxLots := {
  cm_currency : option string;
  cm_buy : option CanonicalBuyLimits;
  cm_buy_with_margin : option CanonicalBuyLimits;
  cm_sell : option CanonicalSellLimits;
  cm_sell_with_margin : option CanonicalSellLimits;
}.

Definition buy_limits (value : BuyLimitsView) : result ExecutionDecodeError CanonicalBuyLimits :=
  let? available_money := decode_units_nano (bl_buy_money_amount value) in
  Ok {| cb_available_money := available_money; cb_max_lots := bl_buy_max_lots value;
        cb_max_market_lots := bl_buy_max_market_lots value |}.

Definition sell_limits (value : SellLimitsView) : CanonicalSellLimits :=
  {| cl_max_lots := sl_sell_max_lots value |}.

Definition CanonicalMaxLots_try_from (value : GetMaxLotsResponse)
  : result ExecutionDecodeError CanonicalMaxLots :=
  let? buy := transpose (buy_limits <$> ml_buy_limits value) in
  let? buy_with_margin := transpose (buy_limits <$> ml_buy_margin_limits value) in
  Ok {| cm_currency := optional_text (ml_currency value);
        cm_buy := buy; cm_buy_with_margin := buy_with_margin;
        cm_sell := sell_limits <$> ml_sell_limits value;
        cm_sell_with_margin := sell_limits <$> ml_sell_margin_limits value |}.

Inductive CanonicalOrderPriceExtra :=
| ExtraOfBond (accrued_interest : option CanonicalMoney) (nominal_conversion_rate : option UnitsNano)
| ExtraOfFuture (initial_margin : option CanonicalMoney).

Record CanonicalOrderPrice := {
  cp_total_order_amount : option CanonicalMoney;
  cp_initial_order_amount : option CanonicalMoney;
  cp_lots_requested : Z;
  cp_executed_commission : option CanonicalMoney;
  cp_executed_commission_rub : option CanonicalMoney;
  cp_service_commission : option CanonicalMoney;
  cp_deal_commission : option CanonicalMoney;
  cp_instrument_extra : option CanonicalOrderPriceExtra;
}.

Definition instrument_extra (value : option InstrumentExtra)
  : result ExecutionDecodeError (option CanonicalOrderPriceExtra) :=
  match value with
  | Some (ExtraBond aci rate) =>
      let? accrued_interest := decode_money aci in
      let? nominal_conversion_rate := decode_units_nano rate in
      Ok (Some (ExtraOfBond accrued_interest nominal_conversion_rate))
  | Some (ExtraFuture margin) =>
      let? initial_margin := decode_money margin in
      Ok (Some (ExtraOfFuture initial_margin))
  | None => Ok None
  end.

Definition CanonicalOrderPrice_try_from (value : GetOrderPriceResponse)
  : result ExecutionDecodeError CanonicalOrderPrice :=
  let? extra := instrument_extra (op_instrument_extra value) in
  let? total_order_amount := decode_money (op_total_order_amount value) in
  let? initial_order_amount := decode_money (op_initial_order_amount value) in
  let? executed_commission := decode_money (op_executed_commission value) in
  let? executed_commission_rub := decode_money (op_executed_commission_rub value) in
  let? service_commission := decode_money (op_service_commission value) in
  let? deal_commission := decode_money (op_deal_commission value) in
  Ok {| cp_total_order_amount := total_order_amount;
        cp_initial_order_amount := initial_order_amount;
        cp_lots_requested := op_lots_requested value;
        cp_executed_commission := executed_commission;
        cp_executed_commission_rub := executed_commission_rub;
        cp_service_commission := service_commission;
        cp_deal_commission := deal_commission;
        cp_instrument_extra := extra |}.

(** ** Order and stop-order states *)

Record CanonicalOrderStage := {
  cg_price : option CanonicalMoney;
  cg_quantity : Z;
  cg_trade_id : option string;
  cg_execution_time : option ProviderTimestamp;
}.

Record CanonicalOrderState := {
  co_broker_order_id : option string;
  co_client_request_id : option string;
  co_execution_status : Z;
  co_lots_requested : Z;
  co_lots_executed : Z;
  co_direction : Z;
  co_order_type : Z;
  co_stages : list CanonicalOrderStage;
  co_initial_order_price : option CanonicalMoney;
  co_executed_order_price : option CanonicalMoney;
  co_total_order_amount : option CanonicalMoney;
  co_initial_commission : option CanonicalMoney;
  co_executed_commission : option CanonicalMoney;
  co_average_position_price : option CanonicalMoney;
  co_initial_security_price : option CanonicalMoney;
  co_service_commission : option CanonicalMoney;
  co_currency : option string;
  co_order_date : option ProviderTimestamp;
  co_instrument_uid : option string;
  co_ticker : option string;
  co_class_code : option string;
}.

Definition order_stage (stage : OrderStage) : result ExecutionDecodeError CanonicalOrderStage :=
  let? price := decode_money (sg_price stage) in
  let? execution_time := decode_timestamp (sg_execution_time stage) in
  Ok {| cg_price := price; cg_quantity := sg_quantity stage;
        cg_trade_id := optional_text (sg_trade_id stage); cg_execution_time := execution_time |}.

Definition CanonicalOrderState_try_from (value : OrderState)
  : result ExecutionDecodeError CanonicalOrderState :=
  let? stages := collect order_stage (os_stages value) in
  let? initial_order_price := decode_money (os_initial_order_price value) in
  let? executed_order_price := decode_money (os_executed_order_price value) in
  let? total_order_amount := decode_money (os_total_order_amount value) in
  let? initial_commission := decode_money (os_initial_commission value) in
  let? executed_commission := decode_money (os_executed_commission value) in
  let? average_position_price := decode_money (os_average_position_price value) in
  let? initial_security_price := decode_money (os_initial_security_price value) in
  let? service_commission := decode_money (os_service_commission value) in
  let? order_date := decode_timestamp (os_order_date value) in
  Ok {| co_broker_order_id := optional_text (os_order_id value);
        co_client_request_id := optional_text (os_order_request_id value);
        co_execution_status := os_execution_report_status value;
        co_lots_requested := os_lots_requested value;
        co_lots_executed := os_lots_executed value;
        co_direction := os_direction value;
        co_order_type := os_order_type value;
        co_stages := stages;
        co_initial_order_price := initial_order_price;
        co_executed_order_price := executed_order_price;
        co_total_order_amount := total_order_amount;
        co_initial_commission := initial_commission;
        co_executed_commission := executed_commission;
        co_average_position_price := average_position_price;
        co_initial_security_price := initial_security_price;
        co_service_commission := service_commission;
        co_currency := optional_text (os_currency value);
        co_order_date := order_date;
        co_instrument_uid := optional_text (os_instrument_uid value);
        co_ticker := optional_text (os_ticker value);
        co_class_code := optional_text (os_class_code value) |}.

Definition canonical_orders (value : GetOrdersResponse)
  : result ExecutionDecodeError (list CanonicalOrderState) :=
  collect CanonicalOrderState_try_from (gor_orders value).

Record CanonicalTrailingState := {
  ct_indent : option UnitsNano;
  ct_indent_type : Z;
  ct_spread : option UnitsNano;
  ct_spread_type : Z;
  ct_status : Z;
  ct_execution_price : option UnitsNano;
  ct_favorable_extreme : option UnitsNano;
}.

Definition trailing_state (value : StopTrailingData)
  : result ExecutionDecodeError CanonicalTrailingState :=
  let? indent := decode_units_nano (st_indent value) in
  let? spread := decode_units_nano (st_spread value) in
  let? execution_price := decode_units_nano (st_price value) in
  let? favorable_extreme := decode_units_nano (st_extr value) in
  Ok {| ct_indent := indent; ct_indent_type := st_indent_type value;
        ct_spread := spread; ct_spread_type := st_spread_type value;
        ct_status := st_status value; ct_execution_price := execution_price;
        ct_favorable_extreme := favorable_extreme |}.

Record CanonicalStopOrder := {
  cs_broker_stop_id : option string;
  cs_exchange_order_id : option string;
  cs_lots_requested : Z;
  cs_direction : Z;
  cs_stop_order_type : Z;
  cs_take_profit_type : Z;
  cs_status : Z;
  cs_instrument_uid : option string;
  cs_figi : option string;
  cs_currency : option string;
  cs_ticker : option string;
  cs_class_code : option string;
  cs_exchange_order_type : Z;
  cs_price : option CanonicalMoney;
  cs_stop_price : option CanonicalMoney;
  cs_created_at : option ProviderTimestamp;
  cs_activated_at : option ProviderTimestamp;
  cs_expires_at : option ProviderTimestamp;
  cs_trailing : option CanonicalTrailingState;
  cs_instant_execution : bool;
}.

Definition CanonicalStopOrder_try_from (value : StopOrder)
  : result ExecutionDecodeError CanonicalStopOrder :=
  let? price := decode_money (sp_price value) in
  let? stop_price := decode_money (sp_stop_price value) in
  let? created_at := decode_timestamp (sp_create_date value) in
  let? activated_at := decode_timestamp (sp_activation_date_time value) in
  let? expires_at := decode_timestamp (sp_expiration_time value) in
  let? trailing := transpose (trailing_state <$> sp_trailing_data value) in
  Ok {| cs_broker_stop_id := optional_text (sp_stop_order_id value);
        cs_exchange_order_id := filter_text (sp_exchange_order_id value);
        cs_lots_requested := sp_lots_requested value;
        cs_direction := sp_direction value;
        cs_stop_order_type := sp_order_type value;
        cs_take_profit_type := sp_take_profit_type value;
        cs_status := sp_status value;
        cs_instrument_uid := optional_text (sp_instrument_uid value);
        cs_figi := optional_text (sp_figi value);
        cs_currency := optional_text (sp_currency value);
        cs_ticker := optional_text (sp_ticker value);
        cs_class_code := optional_text (sp_class_code value);
        cs_exchange_order_type := sp_exchange_order_type value;
        cs_price := price; cs_stop_price := stop_price; cs_created_at := created_at;
        cs_activated_at := activated_at; cs_expires_at := expires_at;
        cs_trailing := trailing; cs_instant_execution := sp_instant_execution value |}.

Definition canonical_stop_orders (value : GetStopOrdersResponse)
  : result ExecutionDecodeError (list CanonicalStopOrder) :=
  collect CanonicalStopOrder_try_from (gsr_stop_orders value).

(** ** Stream events *)

Record CanonicalTrade := {
  cd_occurred_at : option ProviderTimestamp;
  cd_price : option UnitsNano;
  cd_quantity : Z;
  cd_broker_fill_id : option string;
}.

Record CanonicalTradeBatch := {
  cdb_broker_order_id : option string;
  cdb_created_at : option ProviderTimestamp;
  cdb_direction : Z;
  cdb_account_id : option string;
  cdb_instrument_uid : option string;
  cdb_trades : list CanonicalTrade;
}.

Record CanonicalStreamOrderState := {
  cso_broker_order_id : option string;
  cso_client_request_id : option string;
  cso_account_id : option string;
  cso_execution_status : Z;
  cso_status_cause : option Z;
  cso_direction : Z;
  cso_order_type : Z;
  cso_lots_requested : Z;
  cso_lots_executed : Z;
  cso_lots_left : Z;
  cso_lots_cancelled : Z;
  cso_instrument_uid : option string;
}.

Record CanonicalStreamStopOrderState := {
  css_broker_stop_order_id : option string;
  css_account_id : option string;
  css_direction : Z;
  css_order_type : Z;
  css_status : Z;
  css_instrument_uid : option string;
  css_price : option CanonicalMoney;
  css_stop_price : option CanonicalMoney;
}.

Inductive CanonicalExecutionStreamEvent :=
| StreamTrades (batch : CanonicalTradeBatch)
| StreamOrder (state : CanonicalStreamOrderState)
| StreamStopOrder (state : CanonicalStreamStopOrderState)
| StreamSubscription (status : Z) (tracking_id stream_id : option string)
    (accounts : list string) (provider_error_code : option string)
| StreamPing (time : option ProviderTimestamp).

Definition trade (value : OrderTrade) : result ExecutionDecodeError CanonicalTrade :=
  let? occurred_at := decode_timestamp (ot_date_time value) in
  let? price := decode_units_nano (ot_price value) in
  Ok {| cd_occurred_at := occurred_at; cd_price := price; cd_quantity := ot_quantity value;
        cd_broker_fill_id := optional_text (ot_trade_id value) |}.

Definition trade_batch (value : OrderTrades) : result ExecutionDecodeError CanonicalTradeBatch :=
  let? created_at := decode_timestamp (ots_created_at value) in
  let? trades := collect trade (ots_trades value) in
  Ok {| cdb_broker_order_id := optional_text (ots_order_id value);
        cdb_created_at := created_at; cdb_direction := ots_direction value;
        cdb_account_id := optional_text (ots_account_id value);
        cdb_instrument_uid := optional_text (ots_instrument_uid value);
        cdb_trades := trades |}.

Definition stream_order_state (value : StreamOrderState) : CanonicalStreamOrderState :=
  {| cso_broker_order_id := optional_text (so_order_id value);
     cso_client_request_id := filter_text (so_order_request_id value);
     cso_account_id := optional_text (so_account_id value);
     cso_execution_status := so_execution_report_status value;
     cso_status_cause := so_status_info value;
     cso_direction := so_direction value;
     cso_order_type := so_order_type value;
     cso_lots_requested := so_lots_requested value;
     cso_lots_executed := so_lots_executed value;
     cso_lots_left := so_lots_left value;
     cso_lots_cancelled := so_lots_cancelled value;
     cso_instrument_uid := optional_text (so_instrument_uid value) |}.

Definition stream_stop_order_state (value : StreamStopOrderState)
  : result ExecutionDecodeError CanonicalStreamStopOrderState :=
  let? price := decode_money (ss_price value) in
  let? stop_price := decode_money (ss_stop_price value) in
  Ok {| css_broker_stop_order_id := optional_text (ss_stop_order_id value);
        css_account_id := optional_text (ss_account_id value);
        css_direction := ss_direction value; css_order_type := ss_order_type value;
        css_status := ss_status value;
        css_instrument_uid := optional_text (ss_instrument_uid value);
        css_price := price; css_stop_price := stop_price |}.

Definition subscription_event (value : SubscriptionResponse) : CanonicalExecutionStreamEvent :=
  StreamSubscription (sr_status value) (optional_text (sr_tracking_id value))
    (optional_text (sr_stream_id value)) (sr_accounts value)
    (match sr_error value with Some error => optional_text (ed_code error) | None => None end).

Definition decode_trades_stream (response : TradesStreamResponse)
  : result ExecutionDecodeError CanonicalExecutionStreamEvent :=
  let? payload := ok_or (tsr_payload response) MissingPayload in
  match payload with
  | TradesPayload_OrderTrades value => let? batch := trade_batch value in Ok (StreamTrades batch)
  | TradesPayload_Ping value => let? time := decode_timestamp (pg_time value) in Ok (StreamPing time)
  | TradesPayload_Subscription value => Ok (subscription_event value)
  end.

Definition decode_order_state_stream (response : OrderStateStreamResponse)
  : result ExecutionDecodeError CanonicalExecutionStreamEvent :=
  let? payload := ok_or (oss_payload response) MissingPayload in
  match payload with
  | OrderStatePayload_OrderState value => Ok (StreamOrder (stream_order_state value))
  | OrderStatePayload_StopOrderState value =>
      let? state := stream_stop_order_state value in Ok (StreamStopOrder state)
  | OrderStatePayload_Ping value =>
      let? time := decode_timestamp (pg_time value) in Ok (StreamPing time)
  | OrderStatePayload_Subscription value => Ok (subscription_event value)
  end.

Definition execution_decode_text (e : ExecutionDecodeError) : string :=
  match e with
  | MissingPayload => "execution stream response omitted payload"
  | InvalidEconomics => "provider execution economics invalid"
  | InvalidTimestamp => "provider execution timestamp invalid"
  end.

(** ** What decoding means

    A decoder reads exactly the well-formed messages, and what it returns stands in
    [rel] to the message; an option or a list of messages follows from one message. *)

Definition decodes {E W C} (d : W → result E C) (wf : W → bool) (rel : W → C → Prop) : Prop :=
  ∀ w, match d w with Ok c => wf w = true ∧ rel w c | Err _ => wf w = false end.

Definition option_wf {W} (wf : W → bool) (o : option W) : bool :=
  match o with Some w => wf w | None => true end.

Lemma decodes_map_err {E F W C} (f : E → F) (d : W → result E C) wf rel :
  decodes d wf rel → decodes (λ w, map_err f (d w)) wf rel.
Proof. intros H w. specialize (H w). by destruct (d w). Qed.

Lemma decodes_option {E W C} (d : W → result E C) wf rel :
  decodes d wf rel → decodes (λ o, transpose (d <$> o)) (option_wf wf) (option_Forall2 rel).
Proof.
  intros H [w|]; simpl; [|by repeat constructor]. specialize (H w).
  destruct (d w); [|done]. by destruct H; repeat constructor.
Qed.

Lemma decodes_collect {E W C} (d : W → result E C) wf rel :
  decodes d wf rel → decodes (collect d) (forallb wf) (Forall2 rel).
Proof.
  intros H l. induction l as [|w l IH]; simpl; [by repeat constructor|].
  specialize (H w). destruct (d w) as [c|]; [|by rewrite H]. destruct H as [-> Hr].
  destruct (collect d l) as [cs|]; simpl; [|done]. destruct IH. by repeat constructor.
Qed.

(** One field after the other. *)
Ltac decode_field H :=
  let Hw := fresh "Hw" in
  match goal with
  | |- context [match transpose (?d <$> ?w) with Ok _ => _ | Err _ => _ end] =>
      pose proof (H w) as Hw; cbv beta in Hw; revert Hw; destruct (transpose (d <$> w))
  | |- context [match ?d ?w with Ok _ => _ | Err _ => _ end] =>
      pose proof (H w) as Hw; cbv beta in Hw; revert Hw; destruct (d w)
  end; intros Hw; [destruct Hw as [?Hwf ?Hrel]|].

Definition in_nano_range (nano : Z) : bool := (-999999999 <=? nano) && (nano <=? 999999999).

Definition money_wf : option MoneyValue → bool := option_wf (λ m, in_nano_range (mv_nano m)).
Definition quotation_wf : option Quotation → bool := option_wf (λ q, in_nano_range (q_nano q)).
Definition time_wf : option Timestamp → bool := option_wf (λ t, nanos_in_second (ts_nanos t)).

(** The amount in nanos, exact. *)
Definition exact (units nano : Z) (u : UnitsNano) : Prop :=
  total_nanos (fixed_point u) = units * NANO_SCALE + nano.

Definition money_reads : option MoneyValue → option CanonicalMoney → Prop :=
  option_Forall2 (λ m c, mn_currency c = optional_text (mv_currency m) ∧
                         exact (mv_units m) (mv_nano m) (mn_amount c)).
Definition quotation_reads : option Quotation → option UnitsNano → Prop :=
  option_Forall2 (λ q u, exact (q_units q) (q_nano q) u).
Definition time_reads : option Timestamp → option ProviderTimestamp → Prop :=
  option_Forall2 (λ t c, pt_seconds c = ts_seconds t ∧ pt_nanos c = ts_nanos t).

Lemma units_nano_decodes (W : Type) (units nano : W → Z) :
  decodes (λ w, UnitsNano_new (units w) (nano w)) (λ w, in_nano_range (nano w))
    (λ w u, exact (units w) (nano w) u).
Proof.
  intros w. unfold UnitsNano_new, validate_nano, in_nano_range, exact, fixed_point.
  by destruct (_ && _).
Qed.

Lemma money_decodes : decodes decode_money money_wf money_reads.
Proof.
  apply decodes_map_err, decodes_option. intros m. unfold CanonicalMoney_try_from.
  pose proof (units_nano_decodes _ mv_units mv_nano m) as H. cbv beta in H.
  destruct (UnitsNano_new _ _); simpl; [|done]. by destruct H.
Qed.

Lemma quotation_decodes : decodes decode_units_nano quotation_wf quotation_reads.
Proof. apply decodes_map_err, decodes_option, (units_nano_decodes _ q_units q_nano). Qed.

Lemma timestamp_decodes : decodes decode_timestamp time_wf time_reads.
Proof.
  apply decodes_map_err, decodes_option. intros t. unfold ProviderTimestamp_try_from.
  by destruct (nanos_in_second _).
Qed.

(** *** Orders *)

Definition order_amounts (o : OrderState) : list (option MoneyValue) :=
  [os_initial_order_price o; os_executed_order_price o; os_total_order_amount o;
   os_initial_commission o; os_executed_commission o; os_average_position_price o;
   os_initial_security_price o; os_service_commission o].

Definition canonical_amounts (c : CanonicalOrderState) : list (option CanonicalMoney) :=
  [co_initial_order_price c; co_executed_order_price c; co_total_order_amount c;
   co_initial_commission c; co_executed_commission c; co_average_position_price c;
   co_initial_security_price c; co_service_commission c].

Definition stage_wf (s : OrderStage) : bool :=
  money_wf (sg_price s) && time_wf (sg_execution_time s).

Definition stage_reads (s : OrderStage) (c : CanonicalOrderStage) : Prop :=
  money_reads (sg_price s) (cg_price c) ∧ cg_quantity c = sg_quantity s ∧
  cg_trade_id c = optional_text (sg_trade_id s) ∧
  time_reads (sg_execution_time s) (cg_execution_time c).

Definition order_wf (o : OrderState) : bool :=
  forallb money_wf (order_amounts o) && time_wf (os_order_date o) && forallb stage_wf (os_stages o).

Definition order_reads (o : OrderState) (c : CanonicalOrderState) : Prop :=
  [co_broker_order_id c; co_client_request_id c; co_currency c; co_instrument_uid c; co_ticker c;
   co_class_code c]
  = optional_text <$> [os_order_id o; os_order_request_id o; os_currency o; os_instrument_uid o;
                       os_ticker o; os_class_code o] ∧
  [co_execution_status c; co_lots_requested c; co_lots_executed c; co_direction c; co_order_type c]
  = [os_execution_report_status o; os_lots_requested o; os_lots_executed o; os_direction o;
     os_order_type o] ∧
  Forall2 money_reads (order_amounts o) (canonical_amounts c) ∧
  time_reads (os_order_date o) (co_order_date c) ∧
  Forall2 stage_reads (os_stages o) (co_stages c).

Lemma stage_decodes : decodes order_stage stage_wf stage_reads.
Proof.
  intros s. unfold order_stage, stage_wf.
  decode_field money_decodes; [|by rewrite Hw]. rewrite Hwf.
  by decode_field timestamp_decodes.
Qed.

Lemma order_decodes : decodes CanonicalOrderState_try_from order_wf order_reads.
Proof.
  intros o. unfold CanonicalOrderState_try_from, order_wf, order_amounts. simpl.
  decode_field (decodes_collect _ _ _ stage_decodes); [|by rewrite Hw, andb_false_r].
  do 8 (decode_field money_decodes; [|by rewrite Hw, ?andb_false_r]; rewrite Hwf0; clear Hwf0; simpl).
  decode_field timestamp_decodes; [|by rewrite Hw]. rewrite Hwf0, Hwf. split; [done|].
  unfold order_reads, order_amounts, canonical_amounts. simpl. by repeat constructor.
Qed.

(** *** Stop orders *)

Definition trailing_wf (t : StopTrailingData) : bool :=
  quotation_wf (st_indent t) && quotation_wf (st_spread t)
  && quotation_wf (st_price t) && quotation_wf (st_extr t).

Definition trailing_reads (t : StopTrailingData) (c : CanonicalTrailingState) : Prop :=
  quotation_reads (st_indent t) (ct_indent c) ∧ quotation_reads (st_spread t) (ct_spread c) ∧
  quotation_reads (st_price t) (ct_execution_price c) ∧
  quotation_reads (st_extr t) (ct_favorable_extreme c) ∧
  [ct_indent_type c; ct_spread_type c; ct_status c] = [st_indent_type t; st_spread_type t; st_status t].

Definition stop_order_wf (s : StopOrder) : bool :=
  money_wf (sp_price s) && money_wf (sp_stop_price s) && time_wf (sp_create_date s)
  && time_wf (sp_activation_date_time s) && time_wf (sp_expiration_time s)
  && option_wf trailing_wf (sp_trailing_data s).

Definition stop_order_reads (s : StopOrder) (c : CanonicalStopOrder) : Prop :=
  [cs_broker_stop_id c; cs_instrument_uid c; cs_figi c; cs_currency c; cs_ticker c; cs_class_code c]
  = optional_text <$> [sp_stop_order_id s; sp_instrument_uid s; sp_figi s; sp_currency s;
                       sp_ticker s; sp_class_code s] ∧
  cs_exchange_order_id c = filter_text (sp_exchange_order_id s) ∧
  [cs_lots_requested c; cs_direction c; cs_stop_order_type c; cs_take_profit_type c; cs_status c;
   cs_exchange_order_type c]
  = [sp_lots_requested s; sp_direction s; sp_order_type s; sp_take_profit_type s; sp_status s;
     sp_exchange_order_type s] ∧
  Forall2 money_reads [sp_price s; sp_stop_price s] [cs_price c; cs_stop_price c] ∧
  Forall2 time_reads [sp_create_date s; sp_activation_date_time s; sp_expiration_time s]
    [cs_created_at c; cs_activated_at c; cs_expires_at c] ∧
  option_Forall2 trailing_reads (sp_trailing_data s) (cs_trailing c) ∧
  cs_instant_execution c = sp_instant_execution s.

Lemma trailing_decodes : decodes trailing_state trailing_wf trailing_reads.
Proof.
  intros t. unfold trailing_state, trailing_wf, trailing_reads.
  do 4 (decode_field quotation_decodes; [|by rewrite Hw, ?andb_false_r]; rewrite Hwf; clear Hwf).
  done.
Qed.

Lemma stop_order_decodes : decodes CanonicalStopOrder_try_from stop_order_wf stop_order_reads.
Proof.
  intros s. unfold CanonicalStopOrder_try_from, stop_order_wf.
  do 2 (decode_field money_decodes; [|by rewrite Hw, ?andb_false_r]; rewrite Hwf; clear Hwf).
  do 3 (decode_field timestamp_decodes; [|by rewrite Hw, ?andb_false_r]; rewrite Hwf; clear Hwf).
  decode_field (decodes_option _ _ _ trailing_decodes); [|by rewrite Hw].
  rewrite Hwf. split; [done|]. unfold stop_order_reads. simpl. by repeat constructor.
Qed.

(** *** Fills *)

Definition trade_wf (t : OrderTrade) : bool := time_wf (ot_date_time t) && quotation_wf (ot_price t).

Definition trade_reads (t : OrderTrade) (c : CanonicalTrade) : Prop :=
  time_reads (ot_date_time t) (cd_occurred_at c) ∧ quotation_reads (ot_price t) (cd_price c) ∧
  cd_quantity c = ot_quantity t ∧ cd_broker_fill_id c = optional_text (ot_trade_id t).

Definition batch_wf (b : OrderTrades) : bool :=
  time_wf (ots_created_at b) && forallb trade_wf (ots_trades b).

Definition batch_reads (b : OrderTrades) (c : CanonicalTradeBatch) : Prop :=
  [cdb_broker_order_id c; cdb_account_id c; cdb_instrument_uid c]
  = optional_text <$> [ots_order_id b; ots_account_id b; ots_instrument_uid b] ∧
  cdb_direction c = ots_direction b ∧ time_reads (ots_created_at b) (cdb_created_at c) ∧
  Forall2 trade_reads (ots_trades b) (cdb_trades c).

Lemma trade_decodes : decodes trade trade_wf trade_reads.
Proof.
  intros t. unfold trade, trade_wf.
  decode_field timestamp_decodes; [|by rewrite Hw]. rewrite Hwf.
  by decode_field quotation_decodes.
Qed.

Lemma batch_decodes : decodes trade_batch batch_wf batch_reads.
Proof.
  intros b. unfold trade_batch, batch_wf.
  decode_field timestamp_decodes; [|by rewrite Hw]. rewrite Hwf.
  by decode_field (decodes_collect _ _ _ trade_decodes).
Qed.

(** ** Properties *)

(** Broker state is read exactly or not at all.  The open orders, the stop orders
    and a batch of fills are decoded exactly when every amount and every timestamp in
    them is well formed, one malformed field of one order failing the whole answer;
    what is decoded has one entry per order, in order, with the identities, quantities
    and statuses of the wire, an absent or blank text absent, an absent amount absent
    and every amount exact to the nano. *)
Theorem broker_state_decoded_exactly :
  decodes canonical_orders (λ r, forallb order_wf (gor_orders r))
    (λ r, Forall2 order_reads (gor_orders r)) ∧
  decodes canonical_stop_orders (λ r, forallb stop_order_wf (gsr_stop_orders r))
    (λ r, Forall2 stop_order_reads (gsr_stop_orders r)) ∧
  decodes decode_trades_stream
    (λ r, match tsr_payload r with
          | Some (TradesPayload_OrderTrades b) => batch_wf b
          | Some (TradesPayload_Ping p) => time_wf (pg_time p)
          | Some (TradesPayload_Subscription _) => true
          | None => false
          end)
    (λ r e, match e with
            | StreamTrades c =>
                ∃ b, tsr_payload r = Some (TradesPayload_OrderTrades b) ∧ batch_reads b c
            | StreamPing t =>
                ∃ p, tsr_payload r = Some (TradesPayload_Ping p) ∧ time_reads (pg_time p) t
            | StreamSubscription status _ _ accounts _ =>
                ∃ v, tsr_payload r = Some (TradesPayload_Subscription v) ∧
                     status = sr_status v ∧ accounts = sr_accounts v
            | _ => False
            end).
Proof.
  split; [|split].
  - intros r. apply (decodes_collect _ _ _ order_decodes).
  - intros r. apply (decodes_collect _ _ _ stop_order_decodes).
  - intros [[[b|p|v]|]]; simpl; [| |eauto|done].
    + unfold decode_trades_stream. simpl. decode_field batch_decodes; eauto.
    + unfold decode_trades_stream. simpl. decode_field timestamp_decodes; eauto.
Qed.

(** An order with one stage, read back; and the same order with a nano part out of range. *)
Module DecodeSample.
Definition rub (units nano : Z) : option MoneyValue :=
  Some {| mv_currency := "rub"; mv_units := units; mv_nano := nano |}.

Definition order (nano : Z) : OrderState := {|
  os_order_id := "broker-1"; os_execution_report_status := 5; os_lots_requested := 3;
  os_lots_executed := 1; os_initial_order_price := rub 300 0; os_executed_order_price := None;
  os_total_order_amount := rub (-1) nano; os_average_position_price := None;
  os_initial_commission := None; os_executed_commission := None; os_figi := "";
  os_direction := 1; os_initial_security_price := None;
  os_stages := [{| sg_price := rub 100 500000000; sg_quantity := 1; sg_trade_id := " ";
                   sg_execution_time := Some {| ts_seconds := 7; ts_nanos := 1 |} |}];
  os_service_commission := None; os_currency := "rub"; os_order_type := 1;
  os_order_date := None; os_instrument_uid := "uid-1"; os_order_request_id := "request-1";
  os_ticker := ""; os_class_code := "" |}.

Example order_is_read :
  (λ l, map (λ c, (co_broker_order_id c, co_ticker c, cg_trade_id <$> co_stages c,
                   (λ m, total_nanos (fixed_point (mn_amount m))) <$> co_total_order_amount c)) l)
    <$> (match canonical_orders {| gor_orders := [order (-250000000)] |} with
         | Ok l => Some l | Err _ => None end)
  = Some [(Some "broker-1", None, [None], Some (-1250000000))].
Proof. vm_compute. reflexivity. Qed.

Example malformed_order_fails_the_answer :
  canonical_orders {| gor_orders := [order 0; order 1000000000] |} = Err InvalidEconomics.
Proof. vm_compute. reflexivity. Qed.
End DecodeSample.
