(* ===== verification/ConnectionModel.v ===== *)
(** * Broker connections, data: [crates/vox-connections/src/model.rs]

    The records and enumerations of the connection registry, the identity types and
    the text validation of everything that is stored next to a credential.  The
    identity newtypes over [String] are strings; [Uuid::parse_str] belongs to a
    third-party crate and is the class [UuidFormat] of the prelude. *)
From S2P Require Import Prelude.

Module Env.
Inductive BrokerEnvironment := Production | Sandbox.
#[global] Instance BrokerEnvironment_eq_dec : EqDecision BrokerEnvironment.
Proof. solve_decision. Defined.
End Env.
Notation BrokerEnvironment := Env.BrokerEnvironment.

Module Cred.
Inductive CredentialStatus :=
| PendingValidation | Valid | Invalid | ExpiredOrInactive | PendingDisable | Disabled | PendingDelete.
#[global] Instance CredentialStatus_eq_dec : EqDecision CredentialStatus.
Proof. solve_decision. Defined.

Inductive CredentialClass := Unknown | ReadOnly | FullAccess | TransferAccess | Sandbox.
#[global] Instance CredentialClass_eq_dec : EqDecision CredentialClass.
Proof. solve_decision. Defined.

Inductive CredentialScope := NotConfirmed | SingleAccountRestricted | AllAccessibleAccounts.
#[global] Instance CredentialScope_eq_dec : EqDecision CredentialScope.
Proof. solve_decision. Defined.
End Cred.
Notation CredentialStatus := Cred.CredentialStatus.
Notation CredentialClass := Cred.CredentialClass.
Notation CredentialScope := Cred.CredentialScope.

Module Cap.
Inductive ConnectionCapability :=
| AccountDiscovery | PortfolioRead | PositionsRead | OperationsRead | StreamHealth | SandboxOrders
| ProductionOrdersProviderAllowed.
#[global] Instance ConnectionCapability_eq_dec : EqDecision ConnectionCapability.
Proof. solve_decision. Defined.
End Cap.
Notation ConnectionCapability := Cap.ConnectionCapability.

Module HealthSt.
Inductive ConnectionHealthState :=
| Unknown | Validating | Healthy | InvalidCredential | InsufficientPermission | ProviderUnavailable
| AccountAccessChanged | Disabled.
#[global] Instance ConnectionHealthState_eq_dec : EqDecision ConnectionHealthState.
Proof. solve_decision. Defined.
End HealthSt.
Notation ConnectionHealthState := HealthSt.ConnectionHealthState.

Module HealthWhy.
Inductive ConnectionHealthReason :=
| NoReason | InvalidCredential | ExpiredOrInactive | PermissionDenied | WrongEnvironment
| ProviderUnavailable | AccountAccessChanged | DisabledByOperator.
#[global] Instance ConnectionHealthReason_eq_dec : EqDecision ConnectionHealthReason.
Proof. solve_decision. Defined.
End HealthWhy.
Notation ConnectionHealthReason := HealthWhy.ConnectionHealthReason.

Module AccType.
Inductive BrokerAccountType :=
| Unspecified | Brokerage | IndividualInvestment | InvestBox | MoneyMarketFund | Debit | Savings
| DigitalFinancialAssets | UnknownProviderValue (wire : Z).
End AccType.
Notation BrokerAccountType := AccType.BrokerAccountType.

Module AccStatus.
Inductive BrokerAccountStatus := Unspecified | New | Open | Closed | UnknownProviderValue (wire : Z).
#[global] Instance BrokerAccountStatus_eq_dec : EqDecision BrokerAccountStatus.
Proof. solve_decision. Defined.
End AccStatus.
Notation BrokerAccountStatus := AccStatus.BrokerAccountStatus.

Module Access.
Inductive BrokerAccessLevel := Unspecified | Full | ReadOnly | NoAccess | UnknownProviderValue (wire : Z).
#[global] Instance BrokerAccessLevel_eq_dec : EqDecision BrokerAccessLevel.
Proof. solve_decision. Defined.
End Access.
Notation BrokerAccessLevel := Access.BrokerAccessLevel.

Module Mode.
Inductive ExecutionAuthorizationMode := Disabled | ManualAllowed | AutomatedAllowed.
#[global] Instance ExecutionAuthorizationMode_eq_dec : EqDecision ExecutionAuthorizationMode.
Proof. solve_decision. Defined.
End Mode.
Notation ExecutionAuthorizationMode := Mode.ExecutionAuthorizationMode.

Module Perm.
Inductive Permission :=
| ViewConnectionMetadata | ManageCredentials | DisableDeleteConnection | DiscoverAccounts
| BindAccounts | ViewPortfolio | SubmitSandboxOrders | SubmitProductionManualOrders
| EnableAutomatedProductionExecution | ChangeRiskPolicy | EmergencyHalt | SecurityAdmin.
#[global] Instance Permission_eq_dec : EqDecision Permission.
Proof. solve_decision. Defined.
End Perm.
Notation Permission := Perm.Permission.

(** [ExecutionPurpose] of [service.rs]. *)
Module XPurpose.
Inductive ExecutionPurpose := SandboxMutation | ProductionManual | ProductionAutomated.
#[global] Instance ExecutionPurpose_eq_dec : EqDecision ExecutionPurpose.
Proof. solve_decision. Defined.
End XPurpose.
Notation ExecutionPurpose := XPurpose.ExecutionPurpose.

Record ConnectionHealth := {
  ch_state : ConnectionHealthState;
  ch_checked_at_unix_ms : option Z;
  ch_provider : string;
  ch_environment : BrokerEnvironment;
  ch_reason_code : ConnectionHealthReason;
  ch_safe_detail : option string;
  ch_retryable : bool;
}.

Record BrokerConnection := {
  bc_id : string;
  bc_provider : string;
  bc_environment : BrokerEnvironment;
  bc_credential_ref : string;
  bc_label : string;
  bc_credential_fingerprint : string;
  bc_credential_status : CredentialStatus;
  bc_credential_class : CredentialClass;
  bc_credential_scope : CredentialScope;
  bc_enabled : bool;
  bc_health : ConnectionHealth;
  bc_capabilities : list ConnectionCapability;
  bc_created_at_unix_ms : Z;
  bc_updated_at_unix_ms : Z;
}.

Record BrokerAccount := {
  ac_connection_id : string;
  ac_provider : string;
  ac_environment : BrokerEnvironment;
  ac_provider_account_id : string;
  ac_display_name : option string;
  ac_account_type : BrokerAccountType;
  ac_status : BrokerAccountStatus;
  ac_access_level : BrokerAccessLevel;
  ac_opened_at_unix_ms : option Z;
  ac_closed_at_unix_ms : option Z;
  ac_accessible : bool;
  ac_capabilities : list ConnectionCapability;
  ac_discovered_at_unix_ms : Z;
}.

Record BrokerAccountBinding := {
  bb_id : string;
  bb_connection_id : string;
  bb_provider : string;
  bb_environment : BrokerEnvironment;
  bb_provider_account_id : string;
  bb_vox_account_id : string;
  bb_enabled : bool;
  bb_created_at_unix_ms : Z;
  bb_updated_at_unix_ms : Z;
}.

Record AccountTarget := {
  at_connection_id : string;
  at_provider : string;
  at_environment : BrokerEnvironment;
  at_provider_account_id : string;
  at_vox_account_id : string;
}.

Record ExecutionAuthorization := {
  ea_connection_id : string;
  ea_provider_account_id : string;
  ea_mode : ExecutionAuthorizationMode;
  ea_authorization_revision : Z;
  ea_changed_by : string;
  ea_changed_at_unix_ms : Z;
}.

Record User := { us_id : string; us_display_name : string; us_enabled : bool }.
Record Role := { rl_id : string; rl_name : string; rl_permissions : list Permission }.

Record AuditRecord := {
  aud_actor : string;
  aud_action : string;
  aud_target_ref : string;
  aud_previous_state : option string;
  aud_new_state : option string;
  aud_correlation_id : string;
  aud_occurred_at_unix_ms : Z;
}.

Module Meta.
Inductive ModelError :=
| InvalidIdentity (what : string)
| InvalidProviderId
| Empty (field : string)
| UnsafeMetadata (field : string).

Definition text (e : ModelError) : string :=
  match e with
  | InvalidIdentity what => "invalid " +:+ what
  | InvalidProviderId => "provider id must be bounded SCREAMING_SNAKE_CASE"
  | Empty field => "required field " +:+ field +:+ " is empty"
  | UnsafeMetadata field => "unsafe metadata in " +:+ field
  end.
End Meta.

Definition ConnectionHealth_unknown (provider : string) (environment : BrokerEnvironment)
  : ConnectionHealth := {|
  ch_state := HealthSt.Unknown; ch_checked_at_unix_ms := None; ch_provider := provider;
  ch_environment := environment; ch_reason_code := HealthWhy.NoReason; ch_safe_detail := None;
  ch_retryable := false |}.

(** ** Identities *)

(** [strip_prefix]. *)
Definition strip_prefix (p s : string) : option string :=
  if String.prefix p s
  then Some (String.substring (String.length p) (String.length s - String.length p)%nat s) else None.

(** [parse] of the types that [uuid_id!] declares. *)
Definition parse_id `{!UuidFormat} (name prefix value : string) : result Meta.ModelError string :=
  match strip_prefix (prefix +:+ ":") value with
  | None => Err (Meta.InvalidIdentity name)
  | Some raw => if uuid_parses raw then Ok value else Err (Meta.InvalidIdentity name)
  end.

Definition ConnectionId_parse `{!UuidFormat} : string → result Meta.ModelError string :=
  parse_id "ConnectionId" "connection".

(** [new], from a fresh uuid. *)
Definition new_id (prefix uuid : string) : string := prefix +:+ ":" +:+ uuid.

Definition provider_byte (c : Ascii.ascii) : bool :=
  let b := byte_of c in
  (((65 <=? b) && (b <=? 90)) || ((48 <=? b) && (b <=? 57)) || (b =? 95))%N.

Fixpoint all_bytes (p : Ascii.ascii → bool) (s : string) : bool :=
  match s with EmptyString => true | String c s' => p c && all_bytes p s' end.

Definition ProviderId_new (value : string) : result Meta.ModelError string :=
  if bool_decide (value = ""%string) || (64 <? Z.of_nat (String.length value))
     || negb (all_bytes provider_byte value)
  then Err Meta.InvalidProviderId else Ok value.

Definition T_INVEST : string := "T_INVEST".

(** ** Text next to a credential *)

(** [trim_start]: Unicode white space, in UTF-8. *)
Fixpoint trim_start (s : string) : string :=
  match s with
  | EmptyString => EmptyString
  | String a s1 =>
      if ws1 (byte_of a) then trim_start s1
      else match s1 with
           | String b s2 =>
               if ws2 (byte_of a) (byte_of b) then trim_start s2
               else match s2 with
                    | String c s3 =>
                        if ws3 (byte_of a) (byte_of b) (byte_of c) then trim_start s3 else s
                    | EmptyString => s
                    end
           | EmptyString => s
           end
  end.

Definition safe_text (value field : string) (max_len : Z) : result Meta.ModelError string :=
  let lower := to_ascii_lowercase value in
  let trimmed_lower := trim_start lower in
  if is_blank value then Err (Meta.Empty field)
  else if (max_len <? Z.of_nat (String.length value))
          || contains "bearer " lower || contains "token=" lower || contains "secret=" lower
          || String.prefix "t." trimmed_lower || String.prefix "eyj" trimmed_lower
          || has_control value
       then Err (Meta.UnsafeMetadata field)
       else Ok value.

(** ** Lemmas *)

Lemma substring_all s : String.substring 0 (String.length s) s = s.
Proof. induction s as [|c s IH]; simpl; [done|]. by rewrite IH. Qed.

Lemma strip_prefix_app p s : strip_prefix p (p +:+ s) = Some s.
Proof.
  unfold strip_prefix.
  assert (String.prefix p (p +:+ s) = true) as ->.
  { induction p as [|c p IH]; [by destruct s|]. simpl. by destruct (Ascii.ascii_dec c c). }
  f_equal. induction p as [|c p IH]; simpl.
  - rewrite Nat.sub_0_r. apply substring_all.
  - exact IH.
Qed.

Lemma safe_text_Ok value field max_len v :
  safe_text value field max_len = Ok v →
  v = value ∧ is_blank value = false ∧ Z.of_nat (String.length value) ≤ max_len ∧
  contains "bearer " (to_ascii_lowercase value) = false ∧
  contains "token=" (to_ascii_lowercase value) = false ∧
  contains "secret=" (to_ascii_lowercase value) = false ∧ has_control value = false.
Proof.
  unfold safe_text. destruct (is_blank value); [done|].
  destruct (_ || _) eqn:H; [done|]. intros [= <-].
  repeat match goal with H : _ || _ = false |- _ => apply orb_false_iff in H as [? ?] end.
  split_and!; auto. lia.
Qed.

(** An accepted identity has its prefix and a uuid after it. *)
Lemma parse_id_Ok `{!UuidFormat} name prefix value v :
  parse_id name prefix value = Ok v →
  v = value ∧ ∃ raw, strip_prefix (prefix +:+ ":") value = Some raw ∧ uuid_parses raw = true.
Proof.
  unfold parse_id. destruct (strip_prefix _ _) as [raw|]; [|done].
  destruct (uuid_parses raw) eqn:Hu; [|done]. intros [= <-]. eauto.
Qed.
