(* ===== verification/ApiMoney.v ===== *)
(** * Exact money on the public interface: [crates/vox-api/src/contract/money.rs]

    A [Decimal] is the text of an exact amount with nine places.  The theorems say that
    the parser accepts exactly the texts of the grammar, that a decimal denotes the
    amount it was read from or rendered from, and where that stops. *)
From Stdlib Require Import Ascii DecimalString DecimalPos DecimalN DecimalZ DecimalFacts.
From S2P Require Import Prelude Money ConnectionModel.

Definition FRACTION_DIGITS : nat := 9.

(** The newtype [Decimal(String)]. *)
Record Decimal := DecimalText { decimal_text : string }.

Inductive DecimalError :=
| DecimalEmpty
| InvalidGrammar
| TooPrecise
| DecimalOutOfRange
| DecimalNanoOutOfRange (value : Z).

Definition decimal_error_text (e : DecimalError) : string :=
  match e with
  | DecimalEmpty => "decimal cannot be empty or whitespace"
  | InvalidGrammar =>
      "decimal must be a canonical fixed-point string, not exponent, NaN, Infinity, or free-form text"
  | TooPrecise => "decimal has more precision than the canonical nano scale of nine fraction digits"
  | DecimalOutOfRange => "decimal is outside the exact backend range"
  | DecimalNanoOutOfRange value => "nano out of range: " +:+ int_to_string value
  end.

Definition DecimalError_from (value : FixedPointError) : DecimalError :=
  match value with NanoOutOfRange nano => DecimalNanoOutOfRange nano end.

(** ** Rendering *)

Definition digit_char (d : Z) : ascii := ascii_of_N (Z.to_N (48 + d)).

(** [{n:0k}] for a number of at most [k] digits. *)
Fixpoint fixed_digits (k : nat) (n : Z) : string :=
  match k with
  | O => ""
  | S k => fixed_digits k (n / 10) +:+ String (digit_char (n mod 10)) ""
  end.

Definition render_nanos (total : Z) : string :=
  let magnitude := Z.abs total in
  (if total <? 0 then "-" else "") +:+ int_to_string (magnitude / NANO_SCALE)
  +:+ "." +:+ fixed_digits FRACTION_DIGITS (magnitude mod NANO_SCALE).

(** ** Parsing *)

Definition is_digit (c : ascii) : bool := ((48 <=? byte_of c) && (byte_of c <=? 57))%N.

Definition decimal_byte (c : ascii) : bool := is_digit c || bool_decide (c = "."%char) || bool_decide (c = "-"%char).

(** [split_once('.')]. *)
Fixpoint split_dot (s : string) : option (string * string) :=
  match s with
  | EmptyString => None
  | String c s =>
      if bool_decide (c = "."%char) then Some ("", s)
      else match split_dot s with Some (a, b) => Some (String c a, b) | None => None end
  end.

(** [ends_with('.')]. *)
Fixpoint ends_with_dot (s : string) : bool :=
  match s with
  | EmptyString => false
  | String c EmptyString => bool_decide (c = "."%char)
  | String _ s => ends_with_dot s
  end.

Fixpoint zeros (n : nat) : string := match n with O => "" | S n => String "0" (zeros n) end.

(** The fraction padded to nine places with zeros. *)
Definition padded (frac : string) : string := frac +:+ zeros (FRACTION_DIGITS - String.length frac).

Definition parse_magnitude (whole frac : string) : result DecimalError Z :=
  if bool_decide (whole = "") || negb (all_bytes is_digit whole) || negb (all_bytes is_digit frac)
     || ((1 <? String.length whole)%nat && String.prefix "0" whole)
  then Err InvalidGrammar
  else if (FRACTION_DIGITS <? String.length frac)%nat then Err TooPrecise
  else
    let? units := ok_or (parse_int I128 whole) DecimalOutOfRange in
    if int_max I64 <? units then Err DecimalOutOfRange
    else
      let? nano := ok_or (parse_int I32 (padded frac)) InvalidGrammar in
      let? scaled := ok_or (checked_mul I128 units NANO_SCALE) DecimalOutOfRange in
      ok_or (checked_add I128 scaled nano) DecimalOutOfRange.

Definition parse_nanos (input : string) : result DecimalError Z :=
  if bool_decide (input = "") || has_whitespace input then Err DecimalEmpty
  else
    let lower := to_ascii_lowercase input in
    if contains "e" lower || contains "nan" lower || contains "inf" lower || contains "+" input
       || negb (all_bytes decimal_byte input)
    then Err InvalidGrammar
    else
      let '(negative, rest) := match strip_prefix "-" input with
                               | Some rest => (true, rest)
                               | None => (false, input)
                               end in
      if bool_decide (rest = "") || String.prefix "." rest || ends_with_dot rest || contains "-" rest
      then Err InvalidGrammar
      else
        let '(whole, frac) := match split_dot rest with
                              | Some (whole, frac) => (whole, frac)
                              | None => (rest, "")
                              end in
        let? magnitude := parse_magnitude whole frac in
        Ok (if negative then - magnitude else magnitude).

(** ** Construction *)

Definition from_fixed_point (value : FixedPoint) : Decimal := DecimalText (render_nanos (total_nanos value)).

Definition decimal_from_units_nano (units nano : Z) : result DecimalError Decimal :=
  let? value := map_err DecimalError_from (from_units_nano units nano) in
  Ok (from_fixed_point value).

Definition Decimal_parse (value : string) : result DecimalError Decimal :=
  let? nanos := parse_nanos value in Ok (DecimalText (render_nanos nanos)).

Definition from_exact_string (value : string) : result DecimalError Decimal := Decimal_parse value.

Definition from_total_nanos_string (value : string) : result DecimalError Decimal :=
  if bool_decide (value = "") || has_whitespace value || String.prefix "+" value then Err InvalidGrammar
  else
    let? nanos := ok_or (parse_int I128 value) DecimalOutOfRange in
    if negb (bool_decide (int_to_string nanos = value)) then Err InvalidGrammar
    else Ok (DecimalText (render_nanos nanos)).

Definition to_fixed_point (self : Decimal) : result DecimalError FixedPoint :=
  let? nanos := parse_nanos (decimal_text self) in Ok (from_total_nanos nanos).

Example decimal_samples :
  Decimal_parse "272.55" = Ok (DecimalText "272.550000000") ∧
  Decimal_parse "-0.0" = Ok (DecimalText "0.000000000") ∧
  Decimal_parse "-3140.7" = Ok (DecimalText "-3140.700000000") ∧
  Decimal_parse "01.0" = Err InvalidGrammar ∧ Decimal_parse "1." = Err InvalidGrammar ∧
  Decimal_parse ".5" = Err InvalidGrammar ∧ Decimal_parse "1e20" = Err InvalidGrammar ∧
  Decimal_parse "1.0000000000" = Err TooPrecise ∧ Decimal_parse " 1" = Err DecimalEmpty ∧
  from_total_nanos_string "100000000001" = Ok (DecimalText "100.000000001") ∧
  from_total_nanos_string "01" = Err InvalidGrammar.
Proof. vm_compute. repeat split. Qed.

(** ** Digits *)

(** The number a text of digits continues [acc] to. *)
Fixpoint digits_from (acc : Z) (s : string) : Z :=
  match s with
  | EmptyString => acc
  | String c s => digits_from (10 * acc + (Z.of_N (byte_of c) - 48)) s
  end.

Notation digits s := (digits_from 0 s).

Lemma digits_from_app acc a b : digits_from acc (a +:+ b) = digits_from (digits_from acc a) b.
Proof. revert acc. induction a as [|c a IH]; intros acc; [done|]. apply IH. Qed.

Lemma digits_from_acc acc s : digits_from acc s = acc * 10 ^ Z.of_nat (String.length s) + digits s.
Proof.
  revert acc. induction s as [|c s IH]; intros acc; cbn [String.length]; [simpl; lia|].
  rewrite Nat2Z.inj_succ, Z.pow_succ_r by lia. cbn [digits_from]. rewrite IH, (IH (10 * 0 + _)). lia.
Qed.

Lemma all_bytes_app p a b : all_bytes p (a +:+ b) = all_bytes p a && all_bytes p b.
Proof. induction a as [|c a IH]; [done|]. simpl. by rewrite IH, andb_assoc. Qed.

Lemma append_nil (s : string) : s +:+ "" = s.
Proof. induction s as [|c s IH]; [done|]. apply (f_equal (String c) IH). Qed.

Lemma append_assoc (a b c : string) : (a +:+ b) +:+ c = a +:+ b +:+ c.
Proof. induction a as [|d a IH]; [done|]. apply (f_equal (String d) IH). Qed.

Lemma length_append a b : String.length (a +:+ b) = (String.length a + String.length b)%nat.
Proof. induction a as [|c a IH]; [done|]. simpl. by rewrite IH. Qed.

Lemma digits_bound s : all_bytes is_digit s = true → 0 ≤ digits s < 10 ^ Z.of_nat (String.length s).
Proof.
  induction s as [|c s IH]; cbn [all_bytes]; [simpl; lia|].
  intros [Hc Hs]%andb_true_iff. specialize (IH Hs). unfold is_digit in Hc.
  cbn [String.length]. rewrite Nat2Z.inj_succ, Z.pow_succ_r by lia. cbn [digits_from].
  rewrite digits_from_acc. apply andb_true_iff in Hc as [H1%N.leb_le H2%N.leb_le].
  set (k := 10 ^ Z.of_nat (String.length s)) in *. set (b := byte_of c) in *. assert (0 ≤ Z.of_N b - 48 ≤ 9) by lia. nia.
Qed.

(** Reading a text of digits as an integer. *)
Lemma uint_of_digits s :
  all_bytes is_digit s = true →
  ∃ d, NilEmpty.uint_of_string s = Some d ∧ Z.of_N (Pos.of_uint d) = digits s ∧
    ∀ p, Zpos (Pos.of_uint_acc d p) = digits_from (Zpos p) s.
Proof.
  induction s as [|c s IH]; intros H; [by exists Decimal.Nil|].
  simpl in H. apply andb_true_iff in H as [Hc Hs]. destruct (IH Hs) as (d & Hd & Hv & Ha).
  simpl. rewrite Hd.
  destruct c as [[] [] [] [] [] [] [] []]; try discriminate Hc; eexists; (split; [reflexivity|]);
    (split; [simpl; try (rewrite Ha); try (rewrite Hv); reflexivity|]); intros p; simpl;
    rewrite Ha; f_equal; lia.
Qed.

Lemma parse_int_digits t s :
  all_bytes is_digit s = true → s ≠ "" → parse_int t s = checked t (digits s).
Proof.
  intros Hs Hne. destruct (uint_of_digits s Hs) as (d & Hd & Hv & _).
  destruct s as [|c s]; [done|]. simpl in Hs. apply andb_true_iff in Hs as [Hc _].
  unfold parse_int.
  assert ((match c with "+"%char => Decimal.Pos <$> NilZero.uint_of_string s
           | _ => NilZero.int_of_string (String c s) end) = Some (Decimal.Pos d)) as ->.
  { destruct c as [[] [] [] [] [] [] [] []]; try discriminate Hc;
      unfold NilZero.int_of_string, NilZero.uint_of_string; by rewrite Hd. }
  unfold Z.of_int, Z.of_uint. by rewrite Hv.
Qed.

Lemma digit_char_digit d : 0 ≤ d < 10 → is_digit (digit_char d) = true ∧ Z.of_N (byte_of (digit_char d)) = 48 + d.
Proof.
  intros Hd. unfold is_digit, digit_char, byte_of. rewrite N_ascii_embedding by lia. split; [|lia].
  apply andb_true_iff. split; apply N.leb_le; lia.
Qed.

Lemma fixed_digits_spec k n :
  0 ≤ n < 10 ^ Z.of_nat k →
  all_bytes is_digit (fixed_digits k n) = true ∧ String.length (fixed_digits k n) = k ∧
  digits (fixed_digits k n) = n.
Proof.
  revert n. induction k as [|k IH]; intros n Hn; [simpl in *; split_and!; [done|done|lia]|].
  rewrite Nat2Z.inj_succ, Z.pow_succ_r in Hn by lia.
  pose proof (Z.div_mod n 10 ltac:(lia)). pose proof (Z.mod_pos_bound n 10 ltac:(lia)) as Hm.
  destruct (IH (n / 10)) as (Ha & Hl & Hd); [split; [apply Z.div_pos; lia|apply Z.div_lt_upper_bound; lia]|].
  destruct (digit_char_digit (n mod 10) Hm) as [Hc Hv]. simpl.
  rewrite all_bytes_app, length_append, digits_from_app, Ha, Hl, Hd. simpl. rewrite Hc, Hv.
  split_and!; [done|lia|lia].
Qed.

(** The text of a natural number: digits without a leading zero. *)
Definition canonical (whole : string) : Prop :=
  whole ≠ "" ∧ all_bytes is_digit whole = true ∧
  ((1 < String.length whole)%nat → String.prefix "0" whole = false).

Lemma string_of_uint_digits d : all_bytes is_digit (NilEmpty.string_of_uint d) = true.
Proof. induction d; simpl; done. Qed.

Lemma prefix_zero c s : String.prefix "0" (String c s) = bool_decide (c = "0"%char).
Proof.
  unfold String.prefix. destruct (Ascii.ascii_dec "0" c) as [<-|Hc]; [by destruct s|].
  by rewrite bool_decide_eq_false_2 by congruence.
Qed.

Lemma canonical_uint d : Decimal.unorm d = d → d ≠ Decimal.Nil → canonical (NilEmpty.string_of_uint d).
Proof.
  intros Hn Hd. split; [by destruct d|]. split; [apply string_of_uint_digits|]. intros Hlen.
  destruct d as [|d|d|d|d|d|d|d|d|d|d]; try done; [|by cbn [NilEmpty.string_of_uint]; rewrite prefix_zero; case_bool_decide..].
  exfalso. unfold Decimal.unorm in Hn. simpl in Hn.
  destruct (Decimal.nzhead d) eqn:Hz; try done.
  - injection Hn as <-. simpl in Hlen. lia.
  - assert (∀ e e', Decimal.nzhead e ≠ Decimal.D0 e') as Hnz by (induction e; simpl; try done).
    by destruct (Hnz d u).
Qed.

Lemma int_to_string_canonical n : 0 ≤ n → canonical (int_to_string n).
Proof.
  intros Hn. unfold int_to_string. destruct n as [|p|p]; [split_and!; [done|done|simpl; lia]|simpl|lia].
  assert (Pos.to_uint p ≠ Decimal.Nil) as Hnil by apply Unsigned.to_uint_nonnil.
  assert (NilZero.string_of_uint (Pos.to_uint p) = NilEmpty.string_of_uint (Pos.to_uint p)) as ->
    by (by destruct (Pos.to_uint p)).
  apply canonical_uint; [|done].
  pose proof (DecimalN.Unsigned.to_of (Pos.to_uint p)) as H.
  rewrite <- H. change (Pos.to_uint p) with (N.to_uint (N.pos p)). by rewrite DecimalN.Unsigned.of_to.
Qed.

Lemma digits_int_to_string n : 0 ≤ n → digits (int_to_string n) = n.
Proof.
  intros Hn. destruct (int_to_string_canonical n Hn) as (_ & Hd & _).
  destruct (uint_of_digits _ Hd) as (d & Hs & <- & _). unfold int_to_string in Hs.
  destruct n as [|p|p]; [by injection Hs as <-| |lia]. simpl in Hs.
  assert (NilZero.string_of_uint (Pos.to_uint p) = NilEmpty.string_of_uint (Pos.to_uint p)) as Heq.
  { pose proof (Unsigned.to_uint_nonnil p). by destruct (Pos.to_uint p). }
  rewrite Heq, NilEmpty.usu in Hs. injection Hs as <-.
  change (Pos.to_uint p) with (N.to_uint (N.pos p)). change (Pos.of_uint _) with (N.of_uint (N.to_uint (N.pos p))).
  by rewrite DecimalN.Unsigned.of_to.
Qed.

(** ** Magnitudes *)

Lemma zeros_digits n : all_bytes is_digit (zeros n) = true ∧ String.length (zeros n) = n ∧ digits (zeros n) = 0.
Proof. induction n as [|n (Ha & Hl & Hd)]; [done|]. simpl. rewrite Hl. split_and!; done. Qed.

Lemma padded_digits frac :
  all_bytes is_digit frac = true → (String.length frac ≤ FRACTION_DIGITS)%nat →
  all_bytes is_digit (padded frac) = true ∧ padded frac ≠ "" ∧
  digits (padded frac) = digits frac * 10 ^ Z.of_nat (FRACTION_DIGITS - String.length frac) ∧
  0 ≤ digits (padded frac) < NANO_SCALE.
Proof.
  intros Hd Hl. destruct (zeros_digits (FRACTION_DIGITS - String.length frac)) as (Ha & Hz & Hv).
  assert (all_bytes is_digit (padded frac) = true) as Hp by (unfold padded; by rewrite all_bytes_app, Hd, Ha).
  assert (String.length (padded frac) = 9%nat) as Hlen
    by (unfold padded; rewrite length_append, Hz; unfold FRACTION_DIGITS in *; lia).
  split_and!; [done|by destruct (padded frac)| |..].
  - unfold padded. rewrite digits_from_app, digits_from_acc, Hz, Hv. lia.
  - by apply digits_bound.
  - apply digits_bound in Hp. rewrite Hlen in Hp. unfold NANO_SCALE. simpl in Hp. lia.
Qed.

(** The magnitude a whole part and a fraction denote. *)
Definition magnitude_of (whole frac : string) : Z := digits whole * NANO_SCALE + digits (padded frac).

Lemma parse_magnitude_spec whole frac m :
  parse_magnitude whole frac = Ok m ↔
  canonical whole ∧ all_bytes is_digit frac = true ∧ (String.length frac ≤ FRACTION_DIGITS)%nat ∧
  digits whole ≤ int_max I64 ∧ m = magnitude_of whole frac.
Proof.
  unfold parse_magnitude, canonical. split.
  - destruct (_ || _) eqn:Hg; [done|]. prop_tests.
    destruct (Nat.ltb_spec FRACTION_DIGITS (String.length frac)) as [|Hl]; [done|]. rewrite parse_int_digits by done.
    destruct (checked I128 (digits whole)) as [units|] eqn:Hu; [|done]. apply checked_Some in Hu as [-> Hu].
    simpl. destruct (_ <? digits whole) eqn:Hr; [done|].
    destruct (padded_digits frac) as (Hp & Hpne & _ & Hpb); [done|done|].
    rewrite parse_int_digits by done. rewrite checked_fits by (unfold NANO_SCALE in Hpb; int_lia). simpl.
    destruct (checked_mul _ _ _) as [scaled|] eqn:Hm; [|done]. simpl.
    destruct (checked_add _ _ _) as [total|] eqn:Ha; [|done]. intros [= <-]. prop_tests. subst.
    split_and!; try done; [|lia].
    intros Hlen%Nat.ltb_lt. match goal with H : _ && _ = false |- _ => by rewrite Hlen in H end.
  - intros ((Hne & Hd & Hz) & Hf & Hl & Hr & ->).
    rewrite bool_decide_eq_false_2, Hd, Hf by done. simpl.
    replace ((1 <? String.length whole)%nat && String.prefix "0" whole) with false.
    2: { destruct (Nat.ltb_spec 1 (String.length whole)); [|done]. simpl. by rewrite Hz. }
    destruct (Nat.ltb_spec FRACTION_DIGITS (String.length frac)); [lia|].
    pose proof (digits_bound whole Hd). destruct (padded_digits frac Hf Hl) as (Hp & Hpne & _ & Hpb).
    rewrite (parse_int_digits I128) by done. rewrite (checked_fits I128 (digits whole)) by int_lia.
    simpl. destruct (Z.ltb_spec 9223372036854775807 (digits whole)); [int_lia|].
    rewrite (parse_int_digits I32) by done. rewrite (checked_fits I32) by (unfold NANO_SCALE in Hpb; int_lia).
    unfold checked_mul, checked_add. rewrite checked_fits by (unfold NANO_SCALE; int_lia). simpl.
    rewrite checked_fits by (unfold NANO_SCALE in *; int_lia). done.
Qed.

Lemma parse_magnitude_large whole frac :
  canonical whole → all_bytes is_digit frac = true → (String.length frac ≤ FRACTION_DIGITS)%nat →
  int_max I64 < digits whole → parse_magnitude whole frac = Err DecimalOutOfRange.
Proof.
  intros (Hne & Hd & Hz) Hf Hl Hr. unfold parse_magnitude. rewrite bool_decide_eq_false_2, Hd, Hf by done. simpl.
  replace ((1 <? String.length whole)%nat && String.prefix "0" whole) with false.
  2: { destruct (Nat.ltb_spec 1 (String.length whole)); [|done]. simpl. by rewrite Hz. }
  destruct (Nat.ltb_spec FRACTION_DIGITS (String.length frac)); [lia|]. rewrite parse_int_digits by done.
  destruct (checked I128 (digits whole)) as [units|] eqn:Hu; [|done]. apply checked_Some in Hu as [-> _]. simpl.
  destruct (Z.ltb_spec 9223372036854775807 (digits whole)); [done|int_lia].
Qed.

(** ** Texts *)

Lemma decimal_byte_plain c :
  decimal_byte c = true → lower_byte c = c ∧ ws1 (byte_of c) = false ∧
  (∀ b, ws2 (byte_of c) b = false) ∧ (∀ b d, ws3 (byte_of c) b d = false).
Proof. intros H. destruct c as [[] [] [] [] [] [] [] []]; try discriminate H; repeat split; reflexivity. Qed.

Lemma lowercase_decimal s : all_bytes decimal_byte s = true → to_ascii_lowercase s = s.
Proof.
  induction s as [|c s IH]; [done|]. cbn [all_bytes]. intros [Hc Hs]%andb_true_iff.
  simpl. rewrite IH by done. by rewrite (proj1 (decimal_byte_plain c Hc)).
Qed.

Lemma no_whitespace_decimal s : all_bytes decimal_byte s = true → has_whitespace s = false.
Proof.
  induction s as [|c s IH]; [done|]. cbn [all_bytes]. intros [Hc Hs]%andb_true_iff.
  destruct (decimal_byte_plain c Hc) as (_ & H1 & H2 & H3).
  cbn [has_whitespace]. rewrite IH, H1 by done. destruct s as [|b s]; [done|]. rewrite H2. destruct s; [done|].
  by rewrite H3.
Qed.

Lemma prefix_other c n d s : d ≠ c → String.prefix (String c n) (String d s) = false.
Proof. intros H. unfold String.prefix. destruct (Ascii.ascii_dec c d); [congruence|done]. Qed.

Lemma contains_none p c n s : all_bytes p s = true → p c = false → contains (String c n) s = false.
Proof.
  intros Hs Hc. induction s as [|d s IH]; [done|]. cbn [all_bytes] in Hs. apply andb_true_iff in Hs as [Hd Hs].
  cbn [contains]. rewrite IH by done. rewrite prefix_other; [done|]. congruence.
Qed.

Lemma all_bytes_mono (p q : ascii → bool) s :
  (∀ c, p c = true → q c = true) → all_bytes p s = true → all_bytes q s = true.
Proof.
  intros H. induction s as [|c s IH]; [done|]. cbn [all_bytes]. intros [Hc Hs]%andb_true_iff.
  by rewrite (H c Hc), IH.
Qed.

Lemma split_dot_Some s a b :
  split_dot s = Some (a, b) → s = a +:+ String "." b.
Proof.
  revert a. induction s as [|c s IH]; intros a; [done|]. cbn [split_dot]. case_bool_decide as Hc.
  - intros [= <- <-]. by rewrite Hc.
  - destruct (split_dot s) as [[x y]|]; [|done]. intros [= <- <-]. by rewrite (IH x).
Qed.

Lemma split_dot_digits s b :
  all_bytes is_digit s = true → split_dot (s +:+ String "." b) = Some (s, b) ∧ split_dot s = None.
Proof.
  induction s as [|c s IH]; intros H; [done|]. cbn [all_bytes] in H. apply andb_true_iff in H as [Hc Hs].
  destruct (IH Hs) as [H1 H2]. assert (c ≠ "."%char) by (intros ->; done).
  change (String c s +:+ String "." b) with (String c (s +:+ String "." b)). cbn [split_dot].
  rewrite bool_decide_eq_false_2 by done. by rewrite H1, H2.
Qed.

Lemma ends_with_dot_app s : ends_with_dot (s +:+ ".") = true.
Proof.
  induction s as [|c s IH]; [done|]. change (String c s +:+ ".") with (String c (s +:+ ".")).
  cbn [ends_with_dot]. rewrite IH. by destruct s.
Qed.

Lemma ends_with_dot_digits s d : all_bytes is_digit d = true → d ≠ "" → ends_with_dot (s +:+ d) = false.
Proof.
  intros Hd Hne. induction s as [|c s IH].
  - change ("" +:+ d) with d. induction d as [|c d IH]; [done|]. cbn [all_bytes] in Hd.
    apply andb_true_iff in Hd as [Hc Hd]. cbn [ends_with_dot]. destruct d as [|e d]; [|by apply IH].
    rewrite bool_decide_eq_false_2; [done|]. by intros ->.
  - change (String c s +:+ d) with (String c (s +:+ d)). cbn [ends_with_dot]. rewrite IH.
    destruct (s +:+ d) eqn:H; [|done]. destruct s; [by destruct d|done].
Qed.

Lemma strip_minus s :
  match strip_prefix "-" s with
  | Some rest => s = "-" +:+ rest
  | None => ∀ rest, s ≠ "-" +:+ rest
  end.
Proof.
  destruct s as [|c s]; [done|]. destruct (decide (c = "-"%char)) as [->|Hc].
  - change (String "-" s) with ("-" +:+ s). by rewrite strip_prefix_app.
  - unfold strip_prefix. rewrite prefix_other by done. intros rest [= ->]. done.
Qed.

(** ** The grammar *)

Definition written (negative : bool) (whole frac : string) : string :=
  (if negative then "-" else "") +:+ whole +:+ (if bool_decide (frac = "") then "" else String "." frac).

(** [s] writes the amount [n] in nanos: an optional minus, a whole part without leading
    zeros within [i64], and up to nine places. *)
Definition denotes (s : string) (n : Z) : Prop := ∃ negative whole frac,
  s = written negative whole frac ∧ canonical whole ∧ all_bytes is_digit frac = true ∧
  (String.length frac ≤ FRACTION_DIGITS)%nat ∧ digits whole ≤ int_max I64 ∧
  n = (if negative then - magnitude_of whole frac else magnitude_of whole frac).

(** The unsigned part. *)
Lemma unsigned_text whole frac :
  canonical whole → all_bytes is_digit frac = true →
  let rest := whole +:+ (if bool_decide (frac = "") then "" else String "." frac) in
  all_bytes (λ c, is_digit c || bool_decide (c = "."%char)) rest = true ∧
  rest ≠ "" ∧ String.prefix "." rest = false ∧ ends_with_dot rest = false ∧ contains "-" rest = false ∧
  (match split_dot rest with Some (w, f) => (w, f) | None => (rest, "") end) = (whole, frac) ∧
  (∀ r, rest ≠ "-" +:+ r).
Proof.
  intros (Hne & Hw & _) Hf rest.
  assert (all_bytes (λ c, is_digit c || bool_decide (c = "."%char)) rest = true) as Hall.
  { unfold rest. rewrite all_bytes_app. rewrite (all_bytes_mono is_digit) by (done || (intros c ->; done)).
    case_bool_decide; [done|]. simpl. apply (all_bytes_mono is_digit); [by intros c ->|done]. }
  destruct whole as [|c w]; [done|]. pose proof Hw as Hcw. cbn [all_bytes] in Hcw.
  apply andb_true_iff in Hcw as [Hc _].
  split_and!; [done|done| | | | |].
  - apply prefix_other. by intros ->.
  - unfold rest. case_bool_decide as Hfe.
    + rewrite append_nil. by apply (ends_with_dot_digits "" (String c w)).
    + change (String "." frac) with ("." +:+ frac). rewrite <- append_assoc. by apply ends_with_dot_digits.
  - by eapply contains_none.
  - unfold rest. destruct (split_dot_digits (String c w) frac Hw) as [H1 H2]. case_bool_decide as Hfe.
    + by rewrite append_nil, H2, Hfe.
    + by rewrite H1.
  - intros r [= ->]. done.
Qed.

Lemma written_decimal negative whole frac :
  canonical whole → all_bytes is_digit frac = true → all_bytes decimal_byte (written negative whole frac) = true.
Proof.
  intros Hw Hf. unfold written. rewrite all_bytes_app.
  destruct (unsigned_text whole frac Hw Hf) as (Hall & _).
  apply andb_true_iff. split; [by destruct negative|]. revert Hall. apply all_bytes_mono.
  intros c. unfold decimal_byte. by intros ->.
Qed.

(** What the parser makes of a text of the shape. *)
Lemma parse_nanos_written negative whole frac :
  canonical whole → all_bytes is_digit frac = true →
  parse_nanos (written negative whole frac) =
    (let? magnitude := parse_magnitude whole frac in Ok (if negative then - magnitude else magnitude)).
Proof.
  intros Hw Hf. pose proof (written_decimal negative whole frac Hw Hf) as Hall.
  destruct (unsigned_text whole frac Hw Hf) as (_ & Hne & Hp & Hend & Hc & Hsp & Hnm).
  unfold parse_nanos. rewrite no_whitespace_decimal, lowercase_decimal, Hall by done.
  rewrite !(contains_none decimal_byte) by done.
  rewrite bool_decide_eq_false_2 by (unfold written; by destruct negative).
  cbn [orb negb]. set (rest := whole +:+ _) in *.
  assert ((match strip_prefix "-" (written negative whole frac) with
           | Some rest => (true, rest) | None => (false, written negative whole frac) end)
          = (negative, rest)) as ->.
  { unfold written. fold rest. destruct negative; [by rewrite strip_prefix_app|].
    change ("" +:+ rest) with rest. pose proof (strip_minus rest) as Hs.
    destruct (strip_prefix "-" rest) as [r|]; [by destruct (Hnm r)|done]. }
  rewrite (bool_decide_eq_false_2 (rest = "")), Hp, Hend, Hc by done. cbn [orb]. by rewrite Hsp.
Qed.

Lemma parse_nanos_spec s n : parse_nanos s = Ok n ↔ denotes s n.
Proof.
  split.
  - unfold parse_nanos. destruct (bool_decide (s = "") || _); [done|].
    destruct (_ || _ || _ || _ || _); [done|].
    pose proof (strip_minus s) as Hs.
    set (nr := match strip_prefix "-" s with Some rest => (true, rest) | None => (false, s) end).
    assert (s = (if nr.1 then "-" else "") +:+ nr.2) as Heq by (unfold nr; by destruct (strip_prefix "-" s)).
    destruct nr as [negative rest]. simpl in Heq.
    destruct (_ || _ || _ || _) eqn:Hr; [done|]. prop_tests.
    destruct (match split_dot rest with Some (w, f) => (w, f) | None => (rest, "") end) as [whole frac] eqn:Hsp.
    destruct (parse_magnitude whole frac) as [m|] eqn:Hm; [|done]. intros [= <-].
    apply parse_magnitude_spec in Hm as (Hw & Hf & Hl & Hx & ->).
    exists negative, whole, frac. split_and!; try done. rewrite Heq. unfold written. f_equal.
    destruct (split_dot rest) as [[w f]|] eqn:Hd; simplify_eq.
    + apply split_dot_Some in Hd as ->. case_bool_decide as He; [|done]. subst.
      by rewrite ends_with_dot_app in *.
    + by rewrite append_nil.
  - intros (negative & whole & frac & -> & Hw & Hf & Hl & Hx & ->). rewrite parse_nanos_written by done.
    by rewrite (proj2 (parse_magnitude_spec whole frac (magnitude_of whole frac))).
Qed.

(** What a rendered amount is written with. *)
Lemma render_written n :
  render_nanos n = written (n <? 0) (int_to_string (Z.abs n / NANO_SCALE))
                     (fixed_digits FRACTION_DIGITS (Z.abs n mod NANO_SCALE)).
Proof.
  unfold render_nanos, written. rewrite bool_decide_eq_false_2; [done|].
  intros H%(f_equal String.length). pose proof (Z.mod_pos_bound (Z.abs n) NANO_SCALE ltac:(done)) as Hm.
  by rewrite (proj1 (proj2 (fixed_digits_spec FRACTION_DIGITS _ Hm))) in H.
Qed.

Lemma render_magnitude n :
  magnitude_of (int_to_string (Z.abs n / NANO_SCALE)) (fixed_digits FRACTION_DIGITS (Z.abs n mod NANO_SCALE)) = Z.abs n.
Proof.
  pose proof (Z.mod_pos_bound (Z.abs n) NANO_SCALE ltac:(done)) as Hm.
  destruct (fixed_digits_spec FRACTION_DIGITS _ Hm) as (_ & Hl & Hd).
  unfold magnitude_of, padded. rewrite Hl, Nat.sub_diag. cbn [zeros]. rewrite append_nil, Hd, digits_int_to_string.
  - pose proof (Z.div_mod (Z.abs n) NANO_SCALE ltac:(done)). lia.
  - apply Z.div_pos; [lia|done].
Qed.

(** Reading back a rendered amount. *)
Lemma render_denotes n : Z.abs n / NANO_SCALE ≤ int_max I64 → denotes (render_nanos n) n.
Proof.
  intros Hr. pose proof (Z.mod_pos_bound (Z.abs n) NANO_SCALE ltac:(done)) as Hm.
  assert (0 ≤ Z.abs n / NANO_SCALE) by (apply Z.div_pos; [lia|done]).
  destruct (fixed_digits_spec FRACTION_DIGITS _ Hm) as (Hd & Hl & _).
  rewrite render_written. eexists _, _, _. split; [done|]. rewrite render_magnitude, digits_int_to_string by done.
  split_and!; [by apply int_to_string_canonical|done|by rewrite Hl|done|].
  destruct (Z.ltb_spec n 0); lia.
Qed.

(** Two writings of one text agree, so the amount a text writes is one. *)
Lemma denotes_functional s n m : denotes s n → denotes s m → n = m.
Proof. intros Hn%parse_nanos_spec Hm%parse_nanos_spec. congruence. Qed.

Lemma denotes_range s n : denotes s n → Z.abs n / NANO_SCALE ≤ int_max I64.
Proof.
  intros (negative & whole & frac & _ & (_ & Hw & _) & Hf & Hl & Hx & ->).
  destruct (padded_digits frac Hf Hl) as (_ & _ & _ & Hp). pose proof (digits_bound whole Hw) as Hb.
  replace (Z.abs _) with (digits whole * NANO_SCALE + digits (padded frac)).
  - rewrite Z.div_add_l by done. rewrite (Z.div_small (digits (padded frac))) by done. lia.
  - unfold magnitude_of. unfold NANO_SCALE in *. destruct negative; lia.
Qed.

Lemma render_too_large n : int_max I64 < Z.abs n / NANO_SCALE → parse_nanos (render_nanos n) = Err DecimalOutOfRange.
Proof.
  intros Hr. pose proof (Z.mod_pos_bound (Z.abs n) NANO_SCALE ltac:(done)) as Hm.
  assert (0 ≤ Z.abs n / NANO_SCALE) by (apply Z.div_pos; [lia|done]).
  destruct (fixed_digits_spec FRACTION_DIGITS _ Hm) as (Hd & Hl & _).
  rewrite render_written, parse_nanos_written by (done || by apply int_to_string_canonical).
  rewrite parse_magnitude_large; [done|by apply int_to_string_canonical|done|by rewrite Hl|].
  by rewrite digits_int_to_string.
Qed.

(** C34. A text is read as a decimal exactly when it writes an amount in the grammar (an
    optional minus, a whole part without leading zeros within [i64], up to nine places);
    the decimal it becomes converts to exactly that amount.  A decimal rendered from an
    amount converts back to it, unless the amount's whole part is beyond [i64]: then the
    text exists but is refused as out of range. *)
Theorem decimal_roundtrip :
  (∀ s d, Decimal_parse s = Ok d ↔ ∃ n, denotes s n ∧ d = from_fixed_point (Fixed n)) ∧
  (∀ s n, denotes s n → ∀ d, Decimal_parse s = Ok d → to_fixed_point d = Ok (Fixed n)) ∧
  (∀ v, to_fixed_point (from_fixed_point v) =
        if Z.abs (total_nanos v) / NANO_SCALE <=? int_max I64 then Ok v else Err DecimalOutOfRange).
Proof.
  assert (∀ n, Z.abs n / NANO_SCALE ≤ int_max I64 → to_fixed_point (from_fixed_point (Fixed n)) = Ok (Fixed n)) as Hback.
  { intros n Hn. unfold to_fixed_point. simpl. by rewrite (proj2 (parse_nanos_spec _ _) (render_denotes n Hn)). }
  split_and!.
  - intros s d. unfold Decimal_parse. setoid_rewrite <- parse_nanos_spec. split.
    + destruct (parse_nanos s) as [n|]; [|done]. intros [= <-]. by exists n.
    + intros (n & -> & ->). done.
  - intros s n Hn d Hd. unfold Decimal_parse in Hd. rewrite (proj2 (parse_nanos_spec _ _) Hn) in Hd.
    injection Hd as <-. apply Hback. by eapply denotes_range.
  - intros [n]. simpl. destruct (Z.leb_spec (Z.abs n / NANO_SCALE) 9223372036854775807); [by apply Hback|].
    unfold to_fixed_point. simpl. by rewrite render_too_large.
Qed.

(** Decimals are ordered as the derived [Ord] orders their texts, and that is not the
    order of the amounts. *)
Definition decimal_lt (a b : Decimal) : bool :=
  match String.compare (decimal_text a) (decimal_text b) with Lt => true | _ => false end.

Example text_order_is_not_amount_order :
  let nine := from_fixed_point (Fixed (9 * NANO_SCALE)) in
  let ten := from_fixed_point (Fixed (10 * NANO_SCALE)) in
  decimal_lt ten nine = true.
Proof. reflexivity. Qed.

Lemma decimal_roundtrip_witness :
  to_fixed_point (DecimalText "272.550000000") = Ok (Fixed 272550000000).
Proof.
  apply (proj1 (proj2 decimal_roundtrip) "272.55"); [|reflexivity]. apply parse_nanos_spec. reflexivity.
Defined.
