(* ===== verification/ApiContract.v ===== *)
(** * The public contract: [crates/vox-api/src/error.rs], [binding.rs] and
      [contract/{auth,scope,execution,risk,capability,runtime}.rs]

    The error envelope, the scope every request names, account bindings, the requests and
    receipts of execution and risk, the capabilities a deployment advertises and the view
    of the runtime's health.  Serialisation is third-party: a request is the value it
    decodes to, an answer the value before it is encoded.  The theorems say that each view
    keeps what it shows apart, and that a cancellation names one target. *)
From S2P Require Import Prelude Money Domain RiskModel RuntimeModel RuntimePolicy RuntimePorts RuntimeJournal.
From S2P Require Import RuntimeCoordinator ConnectionModel ApiMoney.

(** [str::trim]: white space goes from both ends. *)
Fixpoint trim_end (s : string) : string :=
  match s with
  | EmptyString => EmptyString
  | String a s1 => if is_blank s then EmptyString else String a (trim_end s1)
  end.
Definition trim (s : string) : string := trim_end (trim_start s).

(** ** Errors *)

Module Cat.
Inductive ErrorCategory :=
| Validation | Authentication | Permission | NotFound | Conflict | Stale | UnresolvedUnknown
| CapabilityUnavailable | Transient | Internal.
#[global] Instance ErrorCategory_eq_dec : EqDecision ErrorCategory.
Proof. solve_decision. Defined.

(** The status code. *)
Definition status (c : ErrorCategory) : Z :=
  match c with
  | Validation => 400
  | Authentication => 401
  | Permission => 403
  | NotFound => 404
  | Conflict => 409
  | Stale => 409
  | UnresolvedUnknown => 202
  | CapabilityUnavailable => 503
  | Transient => 503
  | Internal => 500
  end.

Definition retryable (c : ErrorCategory) : bool := match c with Transient => true | _ => false end.
End Cat.
Notation ErrorCategory := Cat.ErrorCategory.

Record FieldError := { fe_field : string; fe_message : string }.

(** [details] is the one object the code puts there: a capability and its owner. *)
Record ApiError := {
  ae_code : string;
  ae_message : string;
  ae_correlation_id : string;
  ae_category : ErrorCategory;
  ae_retryable : bool;
  ae_field_errors : list FieldError;
  ae_details : option (string * string);
}.

(** The random identifier drawn for an error. *)
Class Correlation := new_correlation_id : string.

Section errors.
Context `{!Correlation}.

Definition ApiError_new (category : ErrorCategory) (code message : string) : ApiError := {|
  ae_code := code; ae_message := message; ae_correlation_id := new_correlation_id;
  ae_category := category; ae_retryable := Cat.retryable category; ae_field_errors := [];
  ae_details := None |}.

Definition capability_unavailable (capability owner : string) : ApiError := {|
  ae_code := "CAPABILITY_UNAVAILABLE";
  ae_message := capability +:+ " is not available in this deployment: its backend contract is owned by "
                +:+ owner +:+ " and has not landed.";
  ae_correlation_id := new_correlation_id;
  ae_category := Cat.CapabilityUnavailable; ae_retryable := false; ae_field_errors := [];
  ae_details := Some (capability, owner) |}.

Definition ApiError_validation (message : string) (field_errors : list FieldError) : ApiError := {|
  ae_code := "VALIDATION_FAILED"; ae_message := message; ae_correlation_id := new_correlation_id;
  ae_category := Cat.Validation; ae_retryable := false; ae_field_errors := field_errors;
  ae_details := None |}.
End errors.

Definition with_correlation_id (self : ApiError) (correlation_id : string) : ApiError := {|
  ae_code := ae_code self; ae_message := ae_message self; ae_correlation_id := correlation_id;
  ae_category := ae_category self; ae_retryable := ae_retryable self;
  ae_field_errors := ae_field_errors self; ae_details := ae_details self |}.

Definition api_error_text (e : ApiError) : string := ae_code e +:+ ": " +:+ ae_message e.

(** ** Operators *)

Module PermDto.
Inductive PermissionDto :=
| ViewConnectionMetadata | ManageCredentials | DisableDeleteConnection | DiscoverAccounts
| BindAccounts | ViewPortfolio | SubmitSandboxOrders | SubmitProductionManualOrders
| EnableAutomatedProductionExecution | ChangeRiskPolicy | EmergencyHalt | SecurityAdmin.
#[global] Instance PermissionDto_eq_dec : EqDecision PermissionDto.
Proof. solve_decision. Defined.
End PermDto.
Notation PermissionDto := PermDto.PermissionDto.

Record CreateSessionRequest := { csr_bootstrap_credential : string }.

Record AuthSessionDto := {
  as_user_id : string;
  as_effective_permissions : list PermissionDto;
  as_csrf_token : string;
  as_expires_at_unix_ms : Z;
}.

(** ** Scopes *)

Inductive ProviderDto := TInvestDto.
#[export] Instance ProviderDto_eq_dec : EqDecision ProviderDto.
Proof. solve_decision. Defined.

Module ApiEnv.
Inductive BrokerEnvironment := Sandbox | Production.
#[global] Instance BrokerEnvironment_eq_dec : EqDecision BrokerEnvironment.
Proof. solve_decision. Defined.
End ApiEnv.
Notation ApiEnvironment := ApiEnv.BrokerEnvironment.

Inductive TradingMode := LiveMode.
#[export] Instance TradingMode_eq_dec : EqDecision TradingMode.
Proof. solve_decision. Defined.

Inductive ScopeError := EmptyScopeAccount | EmptyScopeConnection | SecretLikeConnection.

Definition scope_error_text (e : ScopeError) : string :=
  match e with
  | EmptyScopeAccount => "account_id cannot be empty"
  | EmptyScopeConnection => "broker_connection_id cannot be empty"
  | SecretLikeConnection => "broker_connection_id resembles secret material"
  end.

Record ExecutionScope := {
  xs_provider : ProviderDto;
  xs_environment : ApiEnvironment;
  xs_broker_connection_id : string;
  xs_account_id : string;
  xs_trading_mode : TradingMode;
}.

#[export] Instance ExecutionScope_eq_dec : EqDecision ExecutionScope.
Proof. solve_decision. Defined.

Definition require_account_id (value : string) : result ScopeError string :=
  if is_blank value then Err EmptyScopeAccount else Ok value.

Definition require_connection_id (value : string) : result ScopeError string :=
  if is_blank value then Err EmptyScopeConnection
  else if (256 <? Z.of_nat (String.length value)) || has_whitespace value
          || existsb (λ needle, contains (to_ascii_lowercase needle) (to_ascii_lowercase value))
               ["Bearer"; "token="; "secret="; "t."]
  then Err SecretLikeConnection
  else Ok value.

Definition ExecutionScope_new (provider : ProviderDto) (environment : ApiEnvironment)
    (broker_connection_id account_id : string) (trading_mode : TradingMode) : result ScopeError ExecutionScope :=
  let? broker_connection_id := require_connection_id broker_connection_id in
  let? account_id := require_account_id account_id in
  Ok {| xs_provider := provider; xs_environment := environment;
        xs_broker_connection_id := broker_connection_id; xs_account_id := account_id;
        xs_trading_mode := trading_mode |}.

(** [{:?}] of the enumerations. *)
Definition provider_dto_debug (p : ProviderDto) : string := match p with TInvestDto => "TInvest" end.
Definition environment_dto_debug (e : ApiEnvironment) : string :=
  match e with ApiEnv.Sandbox => "Sandbox" | ApiEnv.Production => "Production" end.

Definition ExecutionScope_key (self : ExecutionScope) : string :=
  provider_dto_debug (xs_provider self) +:+ ":" +:+ environment_dto_debug (xs_environment self) +:+ ":"
  +:+ xs_broker_connection_id self +:+ ":" +:+ xs_account_id self.

Definition Provider_from_dto (value : ProviderDto) : Provider := match value with TInvestDto => TInvest end.
Definition ProviderDto_from (value : Provider) : ProviderDto := match value with TInvest => TInvestDto end.
Definition RuntimeEnvironment_from_dto (value : ApiEnvironment) : RuntimeEnvironment :=
  match value with ApiEnv.Sandbox => SandboxEnv | ApiEnv.Production => ProductionEnv end.
Definition BrokerEnvironment_from_runtime (value : RuntimeEnvironment) : ApiEnvironment :=
  match value with SandboxEnv => ApiEnv.Sandbox | ProductionEnv => ApiEnv.Production end.

(** ** Account bindings *)

Record AccountBinding := {
  abn_account_id : string;
  abn_broker_connection_id : string;
  abn_broker_account_id : string;
  abn_credential_ref : option OpaqueRef;
}.

Module Bind.
Inductive BindingError :=
| EmptyAccount
| EmptyConnection
| EmptyBrokerAccount
| UnknownAccount
| BoundToOtherConnection (account_id bound_connection_id requested_connection_id : string)
| DuplicateAccount (account_id : string)
| Unavailable.
End Bind.
Notation BindingError := Bind.BindingError.

Definition binding_error_text (e : BindingError) : string :=
  match e with
  | Bind.EmptyAccount => "account_id cannot be empty"
  | Bind.EmptyConnection => "broker_connection_id cannot be empty"
  | Bind.EmptyBrokerAccount => "broker_account_id cannot be empty"
  | Bind.UnknownAccount => "no binding exists for this account_id"
  | Bind.BoundToOtherConnection account bound requested =>
      "account " +:+ account +:+ " is bound to " +:+ bound +:+ ", not " +:+ requested
  | Bind.DuplicateAccount account => "account " +:+ account +:+ " is already bound"
  | Bind.Unavailable => "account binding repository unavailable"
  end.

Definition require_id (value : string) (empty : BindingError) : result BindingError string :=
  if is_blank value then Err empty else Ok value.

Definition AccountBinding_new (account_id broker_connection_id broker_account_id : string)
  : result BindingError AccountBinding :=
  let? account_id := require_id account_id Bind.EmptyAccount in
  let? broker_connection_id := require_id broker_connection_id Bind.EmptyConnection in
  let? broker_account_id := require_id broker_account_id Bind.EmptyBrokerAccount in
  Ok {| abn_account_id := account_id; abn_broker_connection_id := broker_connection_id;
        abn_broker_account_id := broker_account_id; abn_credential_ref := None |}.

Definition new_with_credential_ref (account_id broker_connection_id broker_account_id : string)
    (credential_ref : OpaqueRef) : result BindingError AccountBinding :=
  let? binding := AccountBinding_new account_id broker_connection_id broker_account_id in
  Ok {| abn_account_id := abn_account_id binding; abn_broker_connection_id := abn_broker_connection_id binding;
        abn_broker_account_id := abn_broker_account_id binding; abn_credential_ref := Some credential_ref |}.

(** The resolver the requests go through: a canonical account and a connection to the
    broker account they stand for. *)
Class AccountBindingResolver := resolve_binding : string → string → result BindingError AccountBinding.

(** The resolver over a map from canonical accounts, an association list without
    duplicates. *)
Record StaticAccountBindingResolver := { by_account : list (string * AccountBinding) }.

Definition static_new : StaticAccountBindingResolver := {| by_account := [] |}.

Definition static_get (self : StaticAccountBindingResolver) (account_id : string) : option AccountBinding :=
  snd <$> List.find (by_key fst account_id) (by_account self).

Definition static_bind (binding : AccountBinding) : st StaticAccountBindingResolver BindingError () := λ self,
  if bool_decide (is_Some (static_get self (abn_account_id binding)))
  then (self, Err (Bind.DuplicateAccount (abn_account_id binding)))
  else ({| by_account := by_account self ++ [(abn_account_id binding, binding)] |}, Ok tt).

Definition static_resolve (self : StaticAccountBindingResolver) (account_id broker_connection_id : string)
  : result BindingError AccountBinding :=
  match static_get self account_id with
  | None => Err Bind.UnknownAccount
  | Some binding =>
      if negb (bool_decide (abn_broker_connection_id binding = broker_connection_id))
      then Err (Bind.BoundToOtherConnection account_id (abn_broker_connection_id binding) broker_connection_id)
      else Ok binding
  end.

(** The error type has one constructor, [Invalid(ModelError)]. *)
Definition connection_identity_text (e : ModelError) : string :=
  "invalid broker_connection_id: " +:+ model_error_text e.

Definition connection_ref_from_broker_connection_id (broker_connection_id : string)
  : result ModelError OpaqueRef := OpaqueRef_new broker_connection_id.

Definition broker_connection_id_from_connection_ref (connection_ref : OpaqueRef) : string := connection_ref.

(** ** Execution *)

Module Dto.
Inductive OrderSideDto := Buy | Sell.
Inductive PositionSideDto := Long | Short.
Inductive OrderTypeDto := Limit | Market | BestPrice.
Inductive TimeInForceDto := Day | FillAndKill | FillOrKill.
Inductive PriceConventionDto := SettlementCurrency | Points.
Inductive TrailingModeDto := AbsolutePrice | RelativePercent.
Inductive MutationDecisionDto := Submit | Reconcile | DoNotSubmit.
End Dto.
Notation OrderSideDto := Dto.OrderSideDto.
Notation PositionSideDto := Dto.PositionSideDto.
Notation OrderTypeDto := Dto.OrderTypeDto.
Notation TimeInForceDto := Dto.TimeInForceDto.
Notation PriceConventionDto := Dto.PriceConventionDto.
Notation TrailingModeDto := Dto.TrailingModeDto.
Notation MutationDecisionDto := Dto.MutationDecisionDto.

Module JournalDto.
Inductive JournalStateDto :=
| NotDispatched | Dispatching | Acknowledged | Rejected | UnknownAfterDispatch | Reconciled.
End JournalDto.
Notation JournalStateDto := JournalDto.JournalStateDto.

Module KindDto.
Inductive MutationKindDto :=
| PostOrder | PostOrderAsync | ReplaceOrder | CancelOrder | PostStopOrder | CancelStopOrder
| ProtectionLeg.
End KindDto.
Notation MutationKindDto := KindDto.MutationKindDto.

Module ProtDto.
Inductive ProtectionStateDto :=
| AwaitingEntry
| EntryPartiallyFilled (filled_lots protected_lots : Z)
| Establishing
| Active
| FailedAfterEntry (reason : string)
| UnknownAfterDispatch
| ReconciliationRequired
| ClosingPosition
| Orphaned
| Terminal.
End ProtDto.
Notation ProtectionStateDto := ProtDto.ProtectionStateDto.

Definition PositionSide_from (value : PositionSideDto) : PositionSide :=
  match value with Dto.Long => Long | Dto.Short => Short end.
Definition OrderSide_from (value : OrderSideDto) : OrderSide :=
  match value with Dto.Buy => Buy | Dto.Sell => Sell end.
Definition OrderSideDto_from (value : OrderSide) : OrderSideDto :=
  match value with Buy => Dto.Buy | Sell => Dto.Sell end.
Definition RegularOrderType_from (value : OrderTypeDto) : RegularOrderType :=
  match value with Dto.Limit => Limit | Dto.Market => Market | Dto.BestPrice => BestPrice end.
Definition TimeInForce_from (value : TimeInForceDto) : TimeInForce :=
  match value with
  | Dto.Day => Day
  | Dto.FillAndKill => FillAndKill
  | Dto.FillOrKill => FillOrKill
  end.
Definition ExecutionPriceConvention_from (value : PriceConventionDto) : ExecutionPriceConvention :=
  match value with Dto.SettlementCurrency => SettlementCurrency | Dto.Points => Points end.
Definition TrailingDistanceMode_from (value : TrailingModeDto) : TrailingDistanceMode :=
  match value with Dto.AbsolutePrice => AbsolutePrice | Dto.RelativePercent => RelativePercent end.

Definition ProtectionStateDto_from (value : ProtectionEstablishmentState) : ProtectionStateDto :=
  match value with
  | AwaitingEntry => ProtDto.AwaitingEntry
  | EntryPartiallyFilled filled protected_lots => ProtDto.EntryPartiallyFilled filled protected_lots
  | Establishing => ProtDto.Establishing
  | ActiveProtection => ProtDto.Active
  | FailedAfterEntry reason => ProtDto.FailedAfterEntry reason
  | UnknownAfterDispatchProtection => ProtDto.UnknownAfterDispatch
  | ReconciliationRequired => ProtDto.ReconciliationRequired
  | ClosingPosition => ProtDto.ClosingPosition
  | OrphanedProtection => ProtDto.Orphaned
  | TerminalProtection => ProtDto.Terminal
  end.

Definition JournalStateDto_from (value : JournalState) : JournalStateDto :=
  match value with
  | Journal.NotDispatched => JournalDto.NotDispatched
  | Journal.Dispatching => JournalDto.Dispatching
  | Journal.Acknowledged => JournalDto.Acknowledged
  | Journal.Rejected => JournalDto.Rejected
  | Journal.UnknownAfterDispatch => JournalDto.UnknownAfterDispatch
  | Journal.Reconciled => JournalDto.Reconciled
  end.

Definition MutationKindDto_from (value : MutationKind) : MutationKindDto :=
  match value with
  | Kind.PostOrder => KindDto.PostOrder
  | Kind.PostOrderAsync => KindDto.PostOrderAsync
  | Kind.ReplaceOrder => KindDto.ReplaceOrder
  | Kind.CancelOrder => KindDto.CancelOrder
  | Kind.PostStopOrder => KindDto.PostStopOrder
  | Kind.CancelStopOrder => KindDto.CancelStopOrder
  | Kind.ProtectionLeg => KindDto.ProtectionLeg
  end.

Record TrailingDistanceDto := { tdd_value : Decimal; tdd_mode : TrailingModeDto }.

Record ProtectionPlanDto := {
  ppd_stop_loss_trigger_price : option Decimal;
  ppd_stop_loss_trailing : option TrailingDistanceDto;
  ppd_take_profit_trigger_price : option Decimal;
  ppd_take_profit_limit_price : option Decimal;
}.

Record SubmitOrderRequest := {
  sor_scope : ExecutionScope;
  sor_instrument_id : string;
  sor_client_request_id : string;
  sor_side : OrderSideDto;
  sor_order_type : OrderTypeDto;
  sor_quantity_lots : Z;
  sor_price : option Decimal;
  sor_price_convention : PriceConventionDto;
  sor_time_in_force : TimeInForceDto;
  sor_confirm_margin_trade : bool;
  sor_protection : option ProtectionPlanDto;
}.

Inductive CancelTarget :=
| CancelBrokerOrder (broker_order_id : string)
| CancelLogicalRequest (logical_request_id : string).

Module ApiReq.
Record CancelOrderRequest := {
  cor_scope : ExecutionScope;
  cor_client_request_id : string;
  cor_broker_order_id : option string;
  cor_logical_request_id : option string;
}.

Record ReplaceOrderRequest := {
  ror_scope : ExecutionScope;
  ror_instrument_id : string;
  ror_client_request_id : string;
  ror_broker_order_id : option string;
  ror_logical_request_id : option string;
  ror_quantity_lots : Z;
  ror_price : option Decimal;
  ror_price_convention : PriceConventionDto;
  ror_confirm_margin_trade : bool;
}.
End ApiReq.
Import ApiReq.

(** [nonempty]: trimmed, and nothing when only white space was there. *)
Definition nonempty (value : option string) : option string :=
  match trim <$> value with
  | Some v => if bool_decide (v = "") then None else Some v
  | None => None
  end.

Section targets.
Context `{!Correlation}.

Definition cancel_target_of (self : CancelOrderRequest) : result ApiError CancelTarget :=
  match nonempty (cor_broker_order_id self), nonempty (cor_logical_request_id self) with
  | Some broker_order_id, None => Ok (CancelBrokerOrder broker_order_id)
  | None, Some logical_request_id => Ok (CancelLogicalRequest logical_request_id)
  | Some _, Some _ =>
      Err (ApiError_validation "a cancel cannot name two targets; prove they are the same command first"
             [{| fe_field := "broker_order_id";
                 fe_message := "must be omitted when logical_request_id is set" |};
              {| fe_field := "logical_request_id";
                 fe_message := "must be omitted when broker_order_id is set" |}])
  | None, None =>
      Err (ApiError_validation "a cancel needs exactly one identifier for the order it cancels"
             [{| fe_field := "broker_order_id";
                 fe_message := "provide exactly one of broker_order_id or logical_request_id" |}])
  end.

Definition replace_target_of (self : ReplaceOrderRequest) : result ApiError CancelTarget :=
  cancel_target_of {| cor_scope := ror_scope self; cor_client_request_id := ror_client_request_id self;
                      cor_broker_order_id := ror_broker_order_id self;
                      cor_logical_request_id := ror_logical_request_id self |}.
End targets.

Record SubmitStopOrderRequest := {
  ssr_scope : ExecutionScope;
  ssr_instrument_id : string;
  ssr_client_request_id : string;
  ssr_side : OrderSideDto;
  ssr_position_side : PositionSideDto;
  ssr_quantity_lots : Z;
  ssr_reference_price : Decimal;
  ssr_trigger_price : Decimal;
  ssr_limit_price : option Decimal;
  ssr_price_convention : PriceConventionDto;
  ssr_confirm_margin_trade : bool;
}.

Record SubmitProtectionRequest := {
  spr_scope : ExecutionScope;
  spr_instrument_id : string;
  spr_client_request_id : string;
  spr_quantity_lots : Z;
  spr_position_side : PositionSideDto;
  spr_reference_price : Decimal;
  spr_price_convention : PriceConventionDto;
  spr_confirm_margin_trade : bool;
  spr_plan : ProtectionPlanDto;
}.

(** ** Risk *)

Module RiskDto.
Inductive RiskOutcomeDto := Approve | Resize | Reject | ReduceOnly | Halt.
Inductive RiskActionKindDto :=
| DirectionalOrder | ReplaceDirectionalOrder | CancelOrder | ProtectionMaintenance | CancelProtection.
Inductive ReservationStateDto :=
| Active | PartiallyConsumed | Consumed | Released | UnknownHeld | Orphaned.
End RiskDto.
Notation RiskOutcomeDto := RiskDto.RiskOutcomeDto.
Notation RiskActionKindDto := RiskDto.RiskActionKindDto.
Notation ReservationStateDto := RiskDto.ReservationStateDto.

Module RiskStDto.
Inductive RiskStateDto := Normal | Warning | ReduceOnly | Halted | KillSwitch.
End RiskStDto.
Notation RiskStateDto := RiskStDto.RiskStateDto.

Module ReasonDto.
Inductive RiskReasonCodeDto :=
| Approved | ResizedToProviderLimit | ResizedToPolicyLimit | InvalidQuantity
| InstrumentUnavailable | InstrumentNotTradable | PriceUnavailable | PositionLotMismatch
| CriticalInputMissing | RuntimeNotReady | ExecutionUnauthorized | AuthorizationRevisionChanged
| PolicyRevisionChanged | ReconciliationRevisionChanged | PositionRevisionChanged
| OrderRevisionChanged | InstrumentConstraintRevisionChanged | MarketDataMissing | MarketDataStale
| UnknownMutationConflict | ReduceOnly | Halted | MarginNotAllowed | MarginConfirmationRequired
| MarginUtilizationExceeded | ProviderLimitUnavailable | ProviderLimitExceeded
| MaxSingleOrderExceeded | MaxPositionExceeded | MaxGrossExposureExceeded | MaxNetExposureExceeded
| MaxInstrumentExposureExceeded | DailyLossExceeded | ProtectionRequired | KillSwitchActive
| PersistenceFailure.
End ReasonDto.
Notation RiskReasonCodeDto := ReasonDto.RiskReasonCodeDto.

Record RiskReasonDto := { rrd_code : RiskReasonCodeDto; rrd_message : string }.

Record RiskValidityDto := {
  rvd_runtime_epoch : Z;
  rvd_reconciliation_revision : Z;
  rvd_position_revision : Z;
  rvd_order_revision : Z;
  rvd_market_data_as_of_unix_ms : option Z;
  rvd_instrument_constraints_revision : Z;
  rvd_policy_revision : Z;
  rvd_execution_authorization_revision : Z;
}.

Record RiskDecisionDto := {
  rdd_decision_id : string;
  rdd_policy_revision : Z;
  rdd_action : RiskActionKindDto;
  rdd_requested_delta_lots : Z;
  rdd_approved_delta_lots : Z;
  rdd_outcome : RiskOutcomeDto;
  rdd_reasons : list RiskReasonDto;
  rdd_reservation_id : option string;
  rdd_validity : RiskValidityDto;
}.

Record RiskReservationDto := {
  rsd_reservation_id : string;
  rsd_scope : ExecutionScope;
  rsd_instrument_id : string;
  rsd_logical_request_id : string;
  rsd_remaining_delta_lots : Z;
  rsd_state : ReservationStateDto;
  rsd_updated_at_unix_ms : Z;
}.

Record RiskLimitUsageDto := {
  rlu_name : string;
  rlu_used : string;
  rlu_limit : option string;
  rlu_unit : string;
}.

Record RiskStatusDto := {
  rst_scope : ExecutionScope;
  rst_state : RiskStateDto;
  rst_policy_revision : Z;
  rst_limits : list RiskLimitUsageDto;
  rst_reasons : list RiskReasonDto;
  rst_updated_at_unix_ms : Z;
}.

Record ChangeRiskStateRequest := {
  crs_scope : ExecutionScope;
  crs_state : RiskStateDto;
  crs_expected_policy_revision : Z;
  crs_reason : string;
}.

(** ** Receipts *)

Record MutationReceiptDto := {
  mrd_logical_request_id : string;
  mrd_scope : ExecutionScope;
  mrd_kind : MutationKindDto;
  mrd_state : JournalStateDto;
  mrd_decision : MutationDecisionDto;
  mrd_risk_decision : option RiskDecisionDto;
  mrd_correlation_id : string;
  mrd_broker_order_id : option string;
  mrd_broker_stop_order_id : option string;
  mrd_reconciliation_disposition : option string;
  mrd_runtime_epoch : Z;
  mrd_created_at_unix_ms : Z;
  mrd_updated_at_unix_ms : Z;
}.

Definition unknown_after_dispatch_receipt (logical_request_id : string) (scope : ExecutionScope)
    (kind : MutationKindDto) (correlation_id : string)
    (runtime_epoch created_at_unix_ms updated_at_unix_ms : Z) : MutationReceiptDto := {|
  mrd_logical_request_id := logical_request_id; mrd_scope := scope; mrd_kind := kind;
  mrd_state := JournalDto.UnknownAfterDispatch; mrd_decision := Dto.Reconcile;
  mrd_risk_decision := None; mrd_correlation_id := correlation_id; mrd_broker_order_id := None;
  mrd_broker_stop_order_id := None; mrd_reconciliation_disposition := None;
  mrd_runtime_epoch := runtime_epoch; mrd_created_at_unix_ms := created_at_unix_ms;
  mrd_updated_at_unix_ms := updated_at_unix_ms |}.

Definition decision_for (state : JournalStateDto) : MutationDecisionDto :=
  match state with
  | JournalDto.NotDispatched => Dto.Submit
  | JournalDto.Dispatching | JournalDto.UnknownAfterDispatch => Dto.Reconcile
  | JournalDto.Acknowledged | JournalDto.Rejected | JournalDto.Reconciled => Dto.DoNotSubmit
  end.

(** ** Capabilities *)

Module Ability.
Inductive Capability :=
| RuntimeHealth | AccountReadSide | OrderExecution | ProtectionExecution | ProtectionDefaults
| BulkProtectionMigration | ConnectionManagement | Rbac | RiskVerdict | PortfolioValuation
| MarketData | Strategy | Decision | MachineLearning | Research | AggregateAccounts
| MultiProvider | NonLiveTradingMode.
#[global] Instance Capability_eq_dec : EqDecision Capability.
Proof. solve_decision. Defined.
End Ability.
Notation Capability := Ability.Capability.

Record UnavailableCapability := { uc_capability : Capability; uc_reason : string; uc_owner : string }.

Record CapabilitySet := {
  cps_provider : ProviderDto;
  cps_environment : ApiEnvironment;
  cps_account_id : option string;
  cps_supported : list Capability;
  cps_unavailable : list UnavailableCapability;
}.

Record AttachedBackends := {
  at_runtime : bool;
  at_accounts : bool;
  at_execution : bool;
  at_market_data : bool;
  at_connections : bool;
  at_risk : bool;
}.

(** One [if attached { supported.push(..) } else { unavailable.push(..) }]. *)
Definition advertise (attached : bool) (capabilities : list Capability) (reason owner : string)
    (set : list Capability * list UnavailableCapability) : list Capability * list UnavailableCapability :=
  if attached then (set.1 ++ capabilities, set.2)
  else (set.1, set.2 ++ ((λ c, {| uc_capability := c; uc_reason := reason; uc_owner := owner |}) <$> capabilities)).

Definition unowned_capabilities : list UnavailableCapability :=
  (λ '(c, reason, owner), {| uc_capability := c; uc_reason := reason; uc_owner := owner |})
  <$> [(Ability.ProtectionDefaults, "account-scoped default protection policy has no contract", "#10");
       (Ability.BulkProtectionMigration, "no bulk mutation contract exists; single mutations only", "#10");
       (Ability.Rbac, "role and permission read model has no contract", "#17");
       (Ability.PortfolioValuation, "valuation, P&L, exposure and margin have no contract", "#22");
       (Ability.Strategy, "strategy runtime has no contract", "#23");
       (Ability.Decision, "decision aggregation has no contract", "#27");
       (Ability.MachineLearning, "model registry and training have no contract", "#26");
       (Ability.Research, "backtest and research runs have no contract", "#29");
       (Ability.AggregateAccounts,
         "no aggregate read model exists; aggregate execution is not defined", "#22");
       (Ability.MultiProvider, "only the T-Invest adapter is registered", "#17");
       (Ability.NonLiveTradingMode, "PAPER and BACKTEST trading modes have no runtime", "#23/#29")].

Definition without_backend_owners (provider : ProviderDto) (environment : ApiEnvironment)
    (account_id : option string) (attached : AttachedBackends) : CapabilitySet :=
  let set := advertise (at_runtime attached) [Ability.RuntimeHealth]
               "no runtime health port is attached to this process" "#11" ([], []) in
  let set := advertise (at_accounts attached) [Ability.AccountReadSide]
               "no broker read port is attached to this process" "#17" set in
  let set := advertise (at_execution attached) [Ability.OrderExecution; Ability.ProtectionExecution]
               "no execution port is attached to this process" "#10" set in
  let set := advertise (at_market_data attached) [Ability.MarketData]
               "no market-data projection is attached to this process"
               "#38 projection over the accepted #8 layer" set in
  let set := advertise (at_connections attached) [Ability.ConnectionManagement]
               "no connection administration port is attached to this process" "#17" set in
  let set := advertise (at_risk attached) [Ability.RiskVerdict]
               "no risk engine contract exists; new_exposure_allowed is the only safety fact" "#21" set in
  {| cps_provider := provider; cps_environment := environment; cps_account_id := account_id;
     cps_supported := set.1; cps_unavailable := set.2 ++ unowned_capabilities |}.

(** ** Runtime health *)

Module RtDto.
Inductive RuntimeStateDto :=
| Starting | Connecting | Reconciling | Ready | Degraded | Halted | Stopping | Stopped.
End RtDto.
Notation RuntimeStateDto := RtDto.RuntimeStateDto.

Module WhyDto.
Inductive ReasonCodeDto :=
| Startup | Connecting | ReconciliationStarted | ReconciliationComplete | ReconciliationIncomplete
| UnknownMutation | BrokerPositionConflict | BrokerOrderConflict | BrokerStopConflict
| RequiredReadUnavailable | AccountUnavailable | CredentialRejected | ExecutionUnauthorized
| StreamDisconnected | StreamGap | StreamQueueOverflow | OptionalCapabilityUnavailable
| CheckpointRebuild | PersistenceFailure | OwnershipFailure | StaleEpoch | CorruptMutationEvidence
| ShutdownRequested | ShutdownComplete.
End WhyDto.
Notation ReasonCodeDto := WhyDto.ReasonCodeDto.

Module SafetyDto.
Inductive SafetyConditionDto :=
| StartupBeforeReconciliation | UnresolvedUnknownMutation | PositionConflict
| OrderIdentityConflict | StopIdentityConflict | RequiredReadUnavailable | AccountUnavailable
| CredentialInvalid | ExecutionAuthorizationDisabled
| ProductionStreamDisconnectedAfterUnaryRecovery | OptionalAnalyticsUnavailable
| CheckpointCorruptSnapshotAvailable | PersistenceFailure | OwnershipFailure | Clear.
End SafetyDto.
Notation SafetyConditionDto := SafetyDto.SafetyConditionDto.

Module StreamDto.
Inductive StreamKindDto := OrderState | Trades | Positions | Portfolio | Operations.
Inductive StreamStateDto := Disconnected | Connecting | Active | Stale | Failed.
End StreamDto.
Notation StreamKindDto := StreamDto.StreamKindDto.
Notation StreamStateDto := StreamDto.StreamStateDto.

Definition RuntimeStateDto_from_readiness (value : Readiness.ReadinessState) : RuntimeStateDto :=
  match value with
  | Readiness.Starting => RtDto.Starting
  | Readiness.Connecting => RtDto.Connecting
  | Readiness.Reconciling => RtDto.Reconciling
  | Readiness.Ready => RtDto.Ready
  | Readiness.Degraded => RtDto.Degraded
  | Readiness.Halted => RtDto.Halted
  end.

Definition RuntimeStateDto_from (value : RuntimeState) : RuntimeStateDto :=
  match value with
  | Rt.Starting => RtDto.Starting
  | Rt.Connecting => RtDto.Connecting
  | Rt.Reconciling => RtDto.Reconciling
  | Rt.Ready => RtDto.Ready
  | Rt.Degraded => RtDto.Degraded
  | Rt.Halted => RtDto.Halted
  | Rt.Stopping => RtDto.Stopping
  | Rt.Stopped => RtDto.Stopped
  end.

Definition ReasonCodeDto_from (value : ReasonCode) : ReasonCodeDto :=
  match value with
  | Why.Startup => WhyDto.Startup
  | Why.Connecting => WhyDto.Connecting
  | Why.ReconciliationStarted => WhyDto.ReconciliationStarted
  | Why.ReconciliationComplete => WhyDto.ReconciliationComplete
  | Why.ReconciliationIncomplete => WhyDto.ReconciliationIncomplete
  | Why.UnknownMutation => WhyDto.UnknownMutation
  | Why.BrokerPositionConflict => WhyDto.BrokerPositionConflict
  | Why.BrokerOrderConflict => WhyDto.BrokerOrderConflict
  | Why.BrokerStopConflict => WhyDto.BrokerStopConflict
  | Why.RequiredReadUnavailable => WhyDto.RequiredReadUnavailable
  | Why.AccountUnavailable => WhyDto.AccountUnavailable
  | Why.CredentialRejected => WhyDto.CredentialRejected
  | Why.ExecutionUnauthorized => WhyDto.ExecutionUnauthorized
  | Why.StreamDisconnected => WhyDto.StreamDisconnected
  | Why.StreamGap => WhyDto.StreamGap
  | Why.StreamQueueOverflow => WhyDto.StreamQueueOverflow
  | Why.OptionalCapabilityUnavailable => WhyDto.OptionalCapabilityUnavailable
  | Why.CheckpointRebuild => WhyDto.CheckpointRebuild
  | Why.PersistenceFailure => WhyDto.PersistenceFailure
  | Why.OwnershipFailure => WhyDto.OwnershipFailure
  | Why.StaleEpoch => WhyDto.StaleEpoch
  | Why.CorruptMutationEvidence => WhyDto.CorruptMutationEvidence
  | Why.ShutdownRequested => WhyDto.ShutdownRequested
  | Why.ShutdownComplete => WhyDto.ShutdownComplete
  end.

Definition SafetyConditionDto_from (value : SafetyCondition) : SafetyConditionDto :=
  match value with
  | Safety.StartupBeforeReconciliation => SafetyDto.StartupBeforeReconciliation
  | Safety.UnresolvedUnknownMutation => SafetyDto.UnresolvedUnknownMutation
  | Safety.PositionConflict => SafetyDto.PositionConflict
  | Safety.OrderIdentityConflict => SafetyDto.OrderIdentityConflict
  | Safety.StopIdentityConflict => SafetyDto.StopIdentityConflict
  | Safety.RequiredReadUnavailable => SafetyDto.RequiredReadUnavailable
  | Safety.AccountUnavailable => SafetyDto.AccountUnavailable
  | Safety.CredentialInvalid => SafetyDto.CredentialInvalid
  | Safety.ExecutionAuthorizationDisabled => SafetyDto.ExecutionAuthorizationDisabled
  | Safety.ProductionStreamDisconnectedAfterUnaryRecovery =>
      SafetyDto.ProductionStreamDisconnectedAfterUnaryRecovery
  | Safety.OptionalAnalyticsUnavailable => SafetyDto.OptionalAnalyticsUnavailable
  | Safety.CheckpointCorruptSnapshotAvailable => SafetyDto.CheckpointCorruptSnapshotAvailable
  | Safety.PersistenceFailure => SafetyDto.PersistenceFailure
  | Safety.OwnershipFailure => SafetyDto.OwnershipFailure
  | Safety.Clear => SafetyDto.Clear
  end.

Definition StreamKindDto_from (value : StreamKind) : StreamKindDto :=
  match value with
  | Stream.OrderState => StreamDto.OrderState
  | Stream.Trades => StreamDto.Trades
  | Stream.Positions => StreamDto.Positions
  | Stream.Portfolio => StreamDto.Portfolio
  | Stream.Operations => StreamDto.Operations
  end.

Definition StreamStateDto_from (value : StreamState) : StreamStateDto :=
  match value with
  | Stream.Disconnected => StreamDto.Disconnected
  | Stream.Connecting => StreamDto.Connecting
  | Stream.Active => StreamDto.Active
  | Stream.Stale => StreamDto.Stale
  | Stream.Failed => StreamDto.Failed
  end.

Record StreamHealthDto := {
  shd_stream : StreamKindDto;
  shd_state : StreamStateDto;
  shd_queue_depth : Z;
  shd_last_event_at_unix_ms : option Z;
}.

(** [u32::try_from(..).unwrap_or(u32::MAX)] of a [usize]. *)
Definition narrow_u32 (depth : Z) : Z := if depth <=? 4294967295 then depth else 4294967295.

Definition StreamHealthDto_from (value : StreamHealth) : StreamHealthDto := {|
  shd_stream := StreamKindDto_from (sh_stream value);
  shd_state := StreamStateDto_from (sh_state value);
  shd_queue_depth := narrow_u32 (sh_queue_depth value);
  shd_last_event_at_unix_ms := sh_last_event_at_unix_ms value |}.

Record RuntimeHealthDto := {
  rhd_state : RuntimeStateDto;
  rhd_reason_code : ReasonCodeDto;
  rhd_reason : string;
  rhd_provider : ProviderDto;
  rhd_environment : ApiEnvironment;
  rhd_account_display : string;
  rhd_runtime_epoch : Z;
  rhd_connected : bool;
  rhd_last_successful_reconciliation_at_unix_ms : option Z;
  rhd_reconciliation_age_ms : option Z;
  rhd_unresolved_unknown_count : Z;
  rhd_open_order_count : Z;
  rhd_active_stop_count : Z;
  rhd_stream_states : list StreamHealthDto;
  rhd_persistence_healthy : bool;
  rhd_execution_authorized : bool;
  rhd_new_exposure_allowed : bool;
}.

Definition RuntimeHealthDto_from (value : RuntimeHealth) : RuntimeHealthDto := {|
  rhd_state := RuntimeStateDto_from (he_state value);
  rhd_reason_code := ReasonCodeDto_from (he_reason_code value);
  rhd_reason := he_reason value;
  rhd_provider := ProviderDto_from (he_provider value);
  rhd_environment := BrokerEnvironment_from_runtime (he_environment value);
  rhd_account_display := he_account_display value;
  rhd_runtime_epoch := he_runtime_epoch value;
  rhd_connected := he_connected value;
  rhd_last_successful_reconciliation_at_unix_ms := he_last_successful_reconciliation_at_unix_ms value;
  rhd_reconciliation_age_ms := he_reconciliation_age_ms value;
  rhd_unresolved_unknown_count := he_unresolved_unknown_count value;
  rhd_open_order_count := he_open_order_count value;
  rhd_active_stop_count := he_active_stop_count value;
  rhd_stream_states := StreamHealthDto_from <$> he_stream_states value;
  rhd_persistence_healthy := he_persistence_healthy value;
  rhd_execution_authorized := he_execution_authorized value;
  rhd_new_exposure_allowed := he_new_exposure_allowed value |}.

(** ** What the contract keeps *)

(** A receipt says Submit, Reconcile or DoNotSubmit as the journal stands: only a mutation
    that was never dispatched may be submitted. *)
Lemma receipt_decision_follows_journal s :
  (decision_for (JournalStateDto_from s) = Dto.Submit ↔ s = Journal.NotDispatched) ∧
  (decision_for (JournalStateDto_from s) = Dto.Reconcile ↔ Journal.safety_unresolved s = true) ∧
  (decision_for (JournalStateDto_from s) = Dto.DoNotSubmit ↔ Journal.terminal s = true).
Proof. destruct s; repeat split; simpl; try done. Qed.

(** The views of the enumerations keep their values apart. *)
Lemma journal_view_injective : Inj (=) (=) JournalStateDto_from.
Proof. intros [] []; done. Qed.
Lemma kind_view_injective : Inj (=) (=) MutationKindDto_from.
Proof. intros [] []; done. Qed.
Lemma runtime_state_view_injective : Inj (=) (=) RuntimeStateDto_from.
Proof. intros [] []; done. Qed.
Lemma reason_view_injective : Inj (=) (=) ReasonCodeDto_from.
Proof. intros [] []; done. Qed.
Lemma protection_view_injective : Inj (=) (=) ProtectionStateDto_from.
Proof. intros [] [] [=]; by subst. Qed.

(** Every capability is advertised or listed as missing with an owner, and not both. *)
Lemma capability_once provider environment account attached c :
  let set := without_backend_owners provider environment account attached in
  (c ∈ cps_supported set ↔ c ∉ (uc_capability <$> cps_unavailable set)) ∧
  NoDup (cps_supported set ++ (uc_capability <$> cps_unavailable set)).
Proof.
  destruct attached as [[] [] [] [] [] []]; cbv zeta; (split; [|apply (bool_decide_unpack _); by vm_compute]);
    destruct c; split; intros H; try (apply (bool_decide_unpack _); by vm_compute);
    exfalso; revert H; apply (bool_decide_unpack _); by vm_compute.
Qed.
