(* ===== verification/ApiReads.v ===== *)
(** * Reads of the public interface: [crates/vox-api/src/runtime_attach.rs] and
      [contract/account.rs]

    A read names a canonical account and a connection.  The resolver turns them into a
    binding, the binding into the scope of the runtime, and the broker's facts for that
    scope into views under the canonical account.  The theorem says that what a read
    answers is about the account the binding names, fact by fact, and that a fact of any
    other account is an error. *)
From S2P Require Import Prelude Money Domain RuntimeModel RuntimePolicy RuntimePorts RuntimeJournal.
From S2P Require Import RuntimeCoordinator ConnectionModel ApiMoney ApiContract.

(** ** Views *)

Record BrokerAccountDto := {
  bad_account_id : string;
  bad_broker_account_id : string;
  bad_open : bool;
  bad_accessible : bool;
}.

Record CurrencyBalanceDto := { cbd_currency : string; cbd_amount : Decimal }.
Record MoneyValuationDto := { mvd_currency : string; mvd_amount : Decimal }.

Record PortfolioDto := {
  pod_account_id : string;
  pod_total_portfolio_valuation : option MoneyValuationDto;
  pod_total_currency_valuation : option MoneyValuationDto;
  pod_balances : list CurrencyBalanceDto;
  pod_broker_observed_at_unix_ms : option Z;
}.

Record PositionDto := {
  psd_account_id : string;
  psd_instrument_uid : string;
  psd_quantity_units : Z;
  psd_broker_observed_at_unix_ms : option Z;
}.

Module OrderDtoSt.
Inductive OrderExecutionStatusDto :=
| New | PartiallyFilled | Filled | Cancelled | Rejected | UnknownProviderStatus (wire_value : Z).
End OrderDtoSt.
Notation OrderExecutionStatusDto := OrderDtoSt.OrderExecutionStatusDto.

Module StopDtoSt.
Inductive StopExecutionStatusDto :=
| Active | Executed | Canceled | Expired | UnknownProviderStatus (wire_value : Z).
End StopDtoSt.
Notation StopExecutionStatusDto := StopDtoSt.StopExecutionStatusDto.

Definition OrderExecutionStatusDto_from (value : OrderExecutionStatus) : OrderExecutionStatusDto :=
  match value with
  | OrderSt.New => OrderDtoSt.New
  | OrderSt.PartiallyFilled => OrderDtoSt.PartiallyFilled
  | OrderSt.Filled => OrderDtoSt.Filled
  | OrderSt.Cancelled => OrderDtoSt.Cancelled
  | OrderSt.Rejected => OrderDtoSt.Rejected
  | OrderSt.UnknownProviderStatus wire => OrderDtoSt.UnknownProviderStatus wire
  end.

Definition StopExecutionStatusDto_from (value : StopExecutionStatus) : StopExecutionStatusDto :=
  match value with
  | StopSt.Active => StopDtoSt.Active
  | StopSt.Executed => StopDtoSt.Executed
  | StopSt.Canceled => StopDtoSt.Canceled
  | StopSt.Expired => StopDtoSt.Expired
  | StopSt.UnknownProviderStatus wire => StopDtoSt.UnknownProviderStatus wire
  end.

Record OrderDto := {
  ord_account_id : string;
  ord_broker_order_id : string;
  ord_logical_request_id : option string;
  ord_instrument_uid : string;
  ord_status : OrderExecutionStatusDto;
  ord_status_cause_code : option Z;
}.

Record StopOrderDto := {
  sod_account_id : string;
  sod_broker_stop_order_id : string;
  sod_instrument_uid : string;
  sod_status : StopExecutionStatusDto;
  sod_status_cause_code : option Z;
}.

Record OperationDto := {
  opd_account_id : string;
  opd_cursor : string;
  opd_provider_operation_id : option string;
  opd_broker_order_id : option string;
  opd_logical_request_id : option string;
  opd_broker_fill_ids : list string;
}.

Record OperationsPageDto := { opp_items : list OperationDto; opp_next_cursor : option string }.

Record ReconciliationDto := {
  rcd_scope_key : string;
  rcd_reconciliation_id : string;
  rcd_operations_cursor : option string;
  rcd_snapshot_observed_at_unix_ms : Z;
  rcd_completed_at_unix_ms : Z;
  rcd_runtime_epoch : Z;
  rcd_accounts_complete : bool;
  rcd_portfolio_complete : bool;
  rcd_positions_complete : bool;
  rcd_orders_complete : bool;
  rcd_stops_complete : bool;
  rcd_operations_complete : bool;
  rcd_complete : bool;
}.

Definition ReconciliationDto_from (value : ReconciliationCheckpoint) : ReconciliationDto := {|
  rcd_scope_key := cp_scope_key value; rcd_reconciliation_id := cp_reconciliation_id value;
  rcd_operations_cursor := cp_operations_cursor value;
  rcd_snapshot_observed_at_unix_ms := cp_snapshot_observed_at_unix_ms value;
  rcd_completed_at_unix_ms := cp_completed_at_unix_ms value; rcd_runtime_epoch := cp_runtime_epoch value;
  rcd_accounts_complete := cp_accounts_complete value; rcd_portfolio_complete := cp_portfolio_complete value;
  rcd_positions_complete := cp_positions_complete value; rcd_orders_complete := cp_orders_complete value;
  rcd_stops_complete := cp_stops_complete value; rcd_operations_complete := cp_operations_complete value;
  rcd_complete := checkpoint_complete value |}.

(** [{class:?}]. *)
Definition result_class_debug (c : BrokerResultClass) : string :=
  match c with
  | Res.Success => "Success"
  | Res.RateLimited => "RateLimited"
  | Res.Credential => "Credential"
  | Res.Permission => "Permission"
  | Res.Transient => "Transient"
  | Res.Permanent => "Permanent"
  end.

Definition broker_port_text (e : BrokerPortError) : string :=
  "broker " +:+ result_class_debug (bp_class e) +:+ " error in " +:+ bp_service e +:+ "/" +:+ bp_method e
  +:+ ": " +:+ bp_message e.

Definition disconnected_streams : list StreamHealth :=
  (λ stream, {| sh_stream := stream;
                sh_required_for_ready := match stream with
                                         | Stream.OrderState | Stream.Positions | Stream.Portfolio
                                         | Stream.Operations => true
                                         | Stream.Trades => false
                                         end;
                sh_state := Stream.Disconnected; sh_queue_depth := 0; sh_last_event_at_unix_ms := None |})
  <$> [Stream.OrderState; Stream.Trades; Stream.Positions; Stream.Portfolio; Stream.Operations].

(** [ProcessRuntime::starting], the health of a process without a runtime. *)
Definition process_starting (provider : ProviderDto) (environment : ApiEnvironment) : RuntimeHealth := {|
  he_state := Rt.Starting; he_reason_code := Why.Startup;
  he_reason := "runtime created; no broker reconciliation yet";
  he_provider := Provider_from_dto provider; he_environment := RuntimeEnvironment_from_dto environment;
  he_account_display := "unbound"; he_runtime_epoch := 0; he_connected := false;
  he_last_successful_reconciliation_at_unix_ms := None; he_reconciliation_age_ms := None;
  he_unresolved_unknown_count := 0; he_open_order_count := 0; he_active_stop_count := 0;
  he_stream_states := disconnected_streams; he_persistence_healthy := true;
  he_execution_authorized := false; he_new_exposure_allowed := false |}.

Definition process_health (health : RuntimeHealth) : RuntimeHealthDto := RuntimeHealthDto_from health.

Section reads.
Context `{CO : !Correlation}.

Definition require_broker_account (binding : AccountBinding) (fact_account_id : string) : result ApiError () :=
  if negb (bool_decide (fact_account_id = abn_broker_account_id binding))
  then Err (ApiError_new Cat.Internal "IDENTITY_MISMATCH"
              "broker fact account id does not match the resolved binding")
  else Ok tt.

Definition decimal_from_nanos (value kind currency : string) : result ApiError Decimal :=
  map_err (λ error, ApiError_new Cat.Internal "INVALID_BROKER_DECIMAL"
             (kind +:+ " for " +:+ currency +:+ " is not exact total nanos: " +:+ decimal_error_text error))
    (from_total_nanos_string value).

Definition money_valuation (value : MoneyFact) : result ApiError MoneyValuationDto :=
  let? amount := decimal_from_nanos (mo_amount_nanos value) "valuation" (mo_currency value) in
  Ok {| mvd_currency := mo_currency value; mvd_amount := amount |}.

Definition account_view (binding : AccountBinding) (value : RuntimeModel.BrokerAccount) : result ApiError BrokerAccountDto :=
  let? _ := require_broker_account binding (ba_account_id value) in
  Ok {| bad_account_id := abn_account_id binding; bad_broker_account_id := abn_broker_account_id binding;
        bad_open := ba_open value; bad_accessible := ba_accessible value |}.

Definition cash_view (entry : string * string) : result ApiError CurrencyBalanceDto :=
  let? amount := decimal_from_nanos entry.2 "cash balance" entry.1 in
  Ok {| cbd_currency := entry.1; cbd_amount := amount |}.

Definition portfolio_view (binding : AccountBinding) (value : PortfolioFact) : result ApiError PortfolioDto :=
  let? _ := require_broker_account binding (pt_account_id value) in
  let? balances := collect cash_view (pt_cash_balances value) in
  let? portfolio := transpose (money_valuation <$> pt_total_portfolio_valuation value) in
  let? currency := transpose (money_valuation <$> pt_total_currency_valuation value) in
  Ok {| pod_account_id := abn_account_id binding; pod_total_portfolio_valuation := portfolio;
        pod_total_currency_valuation := currency; pod_balances := balances;
        pod_broker_observed_at_unix_ms := pt_broker_observed_at_unix_ms value |}.

Definition position_view (binding : AccountBinding) (value : PositionFact) : result ApiError PositionDto :=
  let? _ := require_broker_account binding (pf_account_id value) in
  Ok {| psd_account_id := abn_account_id binding; psd_instrument_uid := pf_instrument_uid value;
        psd_quantity_units := pf_quantity_units value;
        psd_broker_observed_at_unix_ms := pf_broker_observed_at_unix_ms value |}.

Definition order_view (binding : AccountBinding) (value : OrderFact) : result ApiError OrderDto :=
  let? _ := require_broker_account binding (of_account_id value) in
  Ok {| ord_account_id := abn_account_id binding; ord_broker_order_id := of_broker_order_id value;
        ord_logical_request_id := of_logical_request_id value;
        ord_instrument_uid := of_instrument_uid value;
        ord_status := OrderExecutionStatusDto_from (of_status value);
        ord_status_cause_code := of_status_cause value |}.

Definition stop_view (binding : AccountBinding) (value : StopFact) : result ApiError StopOrderDto :=
  let? _ := require_broker_account binding (sf_account_id value) in
  Ok {| sod_account_id := abn_account_id binding; sod_broker_stop_order_id := sf_broker_stop_order_id value;
        sod_instrument_uid := sf_instrument_uid value;
        sod_status := StopExecutionStatusDto_from (sf_status value);
        sod_status_cause_code := sf_status_cause value |}.

Definition operation_view (binding : AccountBinding) (value : OperationFact) : result ApiError OperationDto :=
  let? _ := require_broker_account binding (op_account_id value) in
  Ok {| opd_account_id := abn_account_id binding; opd_cursor := op_cursor value;
        opd_provider_operation_id := op_provider_operation_id value;
        opd_broker_order_id := op_broker_order_id value;
        opd_logical_request_id := op_logical_request_id value;
        opd_broker_fill_ids := op_broker_fill_ids value |}.

Definition operations_view (binding : AccountBinding) (value : OperationsPage) : result ApiError OperationsPageDto :=
  let? items := collect (operation_view binding) (pg_items value) in
  Ok {| opp_items := items; opp_next_cursor := pg_next_cursor value |}.

(** ** Errors *)

Definition map_binding_error (error : BindingError) : ApiError :=
  match error with
  | Bind.UnknownAccount => ApiError_new Cat.NotFound "ACCOUNT_BINDING_NOT_FOUND" (binding_error_text error)
  | Bind.BoundToOtherConnection _ _ _ =>
      ApiError_new Cat.Stale "ACCOUNT_BOUND_TO_OTHER_CONNECTION" (binding_error_text error)
  | Bind.EmptyAccount | Bind.EmptyConnection | Bind.EmptyBrokerAccount | Bind.DuplicateAccount _ =>
      ApiError_new Cat.Validation "INVALID_ACCOUNT_BINDING" (binding_error_text error)
  | Bind.Unavailable => ApiError_new Cat.Transient "ACCOUNT_BINDING_UNAVAILABLE" (binding_error_text error)
  end.

Definition map_broker_error (error : BrokerPortError) : ApiError :=
  let category := match bp_class error with
                  | Res.Success => Cat.Internal
                  | Res.RateLimited | Res.Transient => Cat.Transient
                  | Res.Credential | Res.Permission => Cat.Permission
                  | Res.Permanent => Cat.Internal
                  end in
  ApiError_new category "BROKER_READ_FAILED" (broker_port_text error).

Definition map_store_error (error : StoreError) : ApiError :=
  let '(category, code) := match error with
    | OwnershipUnavailable => (Cat.Conflict, "OWNERSHIP_FAILURE")
    | StaleEpoch => (Cat.Stale, "STALE_EPOCH")
    | DuplicateMutation => (Cat.Conflict, "DUPLICATE_MUTATION")
    | InvalidMutationTransition => (Cat.Conflict, "INVALID_MUTATION_TRANSITION")
    | Corrupt _ | UnsupportedSchema _ => (Cat.Internal, "RUNTIME_STORE_CORRUPT")
    | Persistence _ | BlockingTask _ => (Cat.Transient, "RUNTIME_STORE_FAILURE")
    end in
  ApiError_new category code (store_error_text error).

(** ** Scopes *)

Definition runtime_scope_from_binding (scope : ExecutionScope) (binding : AccountBinding)
    (opaque_credential_ref : OpaqueRef) : result ApiError RuntimeScope :=
  if negb (bool_decide (xs_account_id scope = abn_account_id binding))
     || negb (bool_decide (xs_broker_connection_id scope = abn_broker_connection_id binding))
  then Err (ApiError_new Cat.Internal "BINDING_SCOPE_MISMATCH"
              "resolved binding does not match the requested public scope")
  else
    let? connection_ref :=
      map_err (λ error, ApiError_validation (connection_identity_text error)
                 [{| fe_field := "broker_connection_id"; fe_message := connection_identity_text error |}])
        (connection_ref_from_broker_connection_id (xs_broker_connection_id scope)) in
    map_err (λ error, ApiError_new Cat.Validation "INVALID_SCOPE" (model_error_text error))
      (RuntimeScope_new (Provider_from_dto (xs_provider scope)) (RuntimeEnvironment_from_dto (xs_environment scope))
         (abn_broker_account_id binding) connection_ref
         (match abn_credential_ref binding with Some r => r | None => opaque_credential_ref end)).

(** ** The adapter *)

Context `{AR : !AccountBindingResolver} {B : Type} `{BR : !BrokerReadPort B}.
Context (opaque_credential_ref : OpaqueRef).

(** [load_checkpoint], when a store is attached. *)
Context (load_checkpoint : option (string → result StoreError (option ReconciliationCheckpoint))).

Notation read A := (st B ApiError A).

Definition bound_runtime (scope : ExecutionScope) : result ApiError (AccountBinding * RuntimeScope) :=
  let? binding := map_err map_binding_error (resolve_binding (xs_account_id scope) (xs_broker_connection_id scope)) in
  let? runtime_scope := runtime_scope_from_binding scope binding opaque_credential_ref in
  Ok (binding, runtime_scope).

Definition adapter_runtime_scope (requested : ExecutionScope) : result ApiError RuntimeScope :=
  let? binding := map_err map_binding_error
    (resolve_binding (xs_account_id requested) (xs_broker_connection_id requested)) in
  runtime_scope_from_binding requested binding opaque_credential_ref.

Definition api_accounts (scope : ExecutionScope) : read (list BrokerAccountDto) :=
  let! bound := st_lift (bound_runtime scope) in
  let! accounts := st_map_err map_broker_error (br_accounts bound.2) in
  let! matching := st_lift (ok_or
    (List.find (λ fact, bool_decide (ba_account_id fact = abn_broker_account_id bound.1)) accounts)
    (ApiError_new Cat.Conflict "BROKER_ACCOUNT_ACCESS_CHANGED"
       "bound broker account is absent from authoritative account discovery")) in
  let! view := st_lift (account_view bound.1 matching) in
  st_ret [view].

Definition api_portfolio (scope : ExecutionScope) : read PortfolioDto :=
  let! bound := st_lift (bound_runtime scope) in
  let! fact := st_map_err map_broker_error (br_portfolio bound.2) in
  st_lift (portfolio_view bound.1 fact).

Definition api_positions (scope : ExecutionScope) : read (list PositionDto) :=
  let! bound := st_lift (bound_runtime scope) in
  let! facts := st_map_err map_broker_error (br_positions bound.2) in
  st_lift (collect (position_view bound.1) (ps_instruments facts)).

Definition api_orders (scope : ExecutionScope) : read (list OrderDto) :=
  let! bound := st_lift (bound_runtime scope) in
  let! facts := st_map_err map_broker_error (br_active_orders bound.2) in
  st_lift (collect (order_view bound.1) facts).

Definition api_stop_orders (scope : ExecutionScope) : read (list StopOrderDto) :=
  let! bound := st_lift (bound_runtime scope) in
  let! facts := st_map_err map_broker_error (br_stop_orders bound.2 0) in
  st_lift (collect (stop_view bound.1) facts).

Definition api_operations (scope : ExecutionScope) (cursor : option string) (limit : Z) : read OperationsPageDto :=
  let! bound := st_lift (bound_runtime scope) in
  let! page := st_map_err map_broker_error (br_operations_page bound.2 cursor 0 limit) in
  st_lift (operations_view bound.1 page).

Definition api_reconciliation (scope : ExecutionScope) : result ApiError ReconciliationDto :=
  let? runtime_scope := adapter_runtime_scope scope in
  match load_checkpoint with
  | None => Err (ApiError_new Cat.NotFound "RECONCILIATION_UNAVAILABLE"
                   "no runtime store is attached to serve a reconciliation checkpoint")
  | Some load =>
      match load (scope_key runtime_scope) with
      | Ok (Some checkpoint) => Ok (ReconciliationDto_from checkpoint)
      | Ok None => Err (ApiError_new Cat.NotFound "RECONCILIATION_NOT_FOUND"
                          "no reconciliation checkpoint exists for this scope yet")
      | Err error => Err (map_store_error error)
      end
  end.

Definition api_mutations (scope : ExecutionScope) : result ApiError (list MutationReceiptDto) :=
  let? _ := adapter_runtime_scope scope in Ok [].
End reads.

(** ** What the reads answer *)

Lemma collect_views {E R A} (view : R → result E A) l l' :
  collect view l = Ok l' → Forall2 (λ fact v, view fact = Ok v) l l'.
Proof.
  revert l'. induction l as [|r l IH]; simpl; intros l' H; [injection H as <-; constructor|].
  destruct (view r) as [a|] eqn:Hr; [|done]. destruct (collect view l) as [xs|]; [|done]. injection H as <-.
  constructor; auto.
Qed.

Lemma from_total_nanos_Ok value d :
  from_total_nanos_string value = Ok d → ∃ n, value = int_to_string n ∧ d = from_fixed_point (Fixed n).
Proof.
  unfold from_total_nanos_string. destruct (_ || _); [done|]. destruct (parse_int _ _) as [n|]; [|done]. simpl.
  case_bool_decide as Hn; [|done]. intros [= <-]. by exists n.
Qed.

(** The statuses of the two sides that mean the same. *)
Inductive same_order_status : OrderExecutionStatus → OrderExecutionStatusDto → Prop :=
| same_new : same_order_status OrderSt.New OrderDtoSt.New
| same_partial : same_order_status OrderSt.PartiallyFilled OrderDtoSt.PartiallyFilled
| same_filled : same_order_status OrderSt.Filled OrderDtoSt.Filled
| same_cancelled : same_order_status OrderSt.Cancelled OrderDtoSt.Cancelled
| same_rejected : same_order_status OrderSt.Rejected OrderDtoSt.Rejected
| same_unknown_order wire :
    same_order_status (OrderSt.UnknownProviderStatus wire) (OrderDtoSt.UnknownProviderStatus wire).

Inductive same_stop_status : StopExecutionStatus → StopExecutionStatusDto → Prop :=
| same_active : same_stop_status StopSt.Active StopDtoSt.Active
| same_executed : same_stop_status StopSt.Executed StopDtoSt.Executed
| same_canceled : same_stop_status StopSt.Canceled StopDtoSt.Canceled
| same_expired : same_stop_status StopSt.Expired StopDtoSt.Expired
| same_unknown_stop wire :
    same_stop_status (StopSt.UnknownProviderStatus wire) (StopDtoSt.UnknownProviderStatus wire).

Inductive same_environment : ApiEnvironment → RuntimeEnvironment → Prop :=
| same_sandbox : same_environment ApiEnv.Sandbox SandboxEnv
| same_production : same_environment ApiEnv.Production ProductionEnv.

(** The amount shown is the number of nanos the broker's total is: it is written in the
    grammar of amounts, unless its whole part is beyond [i64]. *)
Definition shows_nanos (amount_nanos : string) (amount : Decimal) : Prop :=
  ∃ n, amount_nanos = int_to_string n ∧ amount = from_fixed_point (Fixed n) ∧
    (Z.abs n / NANO_SCALE ≤ int_max I64 → denotes (decimal_text amount) n).

Definition shows_valuation (fact : option MoneyFact) (shown : option MoneyValuationDto) : Prop :=
  match fact, shown with
  | Some m, Some x => mvd_currency x = mo_currency m ∧ shows_nanos (mo_amount_nanos m) (mvd_amount x)
  | None, None => True
  | _, _ => False
  end.

Section bound.
Context `{CO : !Correlation} `{AR : !AccountBindingResolver} {B : Type} `{BR : !BrokerReadPort B}.
Context (opaque_credential_ref : OpaqueRef).

(** The broker scope [rs] is the one the public scope stands for. *)
Record stands_for (scope : ExecutionScope) (binding : AccountBinding) (rs : RuntimeScope) : Prop := {
  sf_resolved : resolve_binding (xs_account_id scope) (xs_broker_connection_id scope) = Ok binding;
  sf_account : abn_account_id binding = xs_account_id scope;
  sf_connection : sc_connection_ref rs = xs_broker_connection_id scope;
  sf_broker_account : sc_broker_account_id rs = abn_broker_account_id binding;
  sf_environment : sc_environment rs = RuntimeEnvironment_from_dto (xs_environment scope);
  sf_provider : sc_provider rs = Provider_from_dto (xs_provider scope);
  sf_credential : sc_credential_ref rs = match abn_credential_ref binding with
                                         | Some r => r | None => opaque_credential_ref end;
}.

Lemma runtime_scope_Ok scope binding credential rs :
  runtime_scope_from_binding scope binding credential = Ok rs →
  abn_account_id binding = xs_account_id scope ∧ sc_connection_ref rs = xs_broker_connection_id scope ∧
  abn_broker_connection_id binding = xs_broker_connection_id scope ∧
  sc_broker_account_id rs = abn_broker_account_id binding ∧
  sc_environment rs = RuntimeEnvironment_from_dto (xs_environment scope) ∧
  sc_provider rs = Provider_from_dto (xs_provider scope) ∧
  sc_credential_ref rs = match abn_credential_ref binding with Some r => r | None => credential end.
Proof.
  unfold runtime_scope_from_binding, connection_ref_from_broker_connection_id, OpaqueRef_new, RuntimeScope_new, required_text.
  destruct (_ || _) eqn:Hg; [done|].
  apply orb_false_iff in Hg as [Ha%negb_false_iff%bool_decide_eq_true Hc%negb_false_iff%bool_decide_eq_true].
  destruct (is_blank (xs_broker_connection_id scope)); [done|]. destruct (_ || _); [done|]. simpl.
  destruct (is_blank (abn_broker_account_id binding)); [done|]. intros [= <-]. done.
Qed.

Lemma bound_runtime_Ok scope bound :
  bound_runtime opaque_credential_ref scope = Ok bound → stands_for scope bound.1 bound.2.
Proof.
  unfold bound_runtime. destruct (resolve_binding _ _) as [binding|] eqn:Hr; [|done]. simpl.
  destruct (runtime_scope_from_binding _ _ _) as [rs|] eqn:Hs; [|done]. intros [= <-]. simpl.
  apply runtime_scope_Ok in Hs as (? & ? & ? & ? & ? & ? & ?). by constructor.
Qed.

Lemma stands_environment scope binding rs :
  stands_for scope binding rs → same_environment (xs_environment scope) (sc_environment rs).
Proof. intros H. rewrite (sf_environment _ _ _ H). destruct (xs_environment scope); constructor. Qed.

Lemma require_broker_account_Ok binding account x :
  require_broker_account binding account = Ok x → account = abn_broker_account_id binding.
Proof. unfold require_broker_account. case_bool_decide; [done|]. done. Qed.

(** Opening a view: the account check, then the fields. *)
Ltac open_view H :=
  match type of H with
  | context [require_broker_account ?b ?a] =>
      destruct (require_broker_account b a) eqn:?; [|done]; injection H as <-;
      match goal with E : require_broker_account _ _ = Ok _ |- _ => apply require_broker_account_Ok in E end
  end.

Lemma order_view_Ok binding f v :
  order_view binding f = Ok v →
  of_account_id f = abn_broker_account_id binding ∧ ord_account_id v = abn_account_id binding ∧
  ord_broker_order_id v = of_broker_order_id f ∧ ord_logical_request_id v = of_logical_request_id f ∧
  ord_instrument_uid v = of_instrument_uid f ∧ same_order_status (of_status f) (ord_status v) ∧
  ord_status_cause_code v = of_status_cause f.
Proof. unfold order_view. intros H. open_view H. split_and!; try done. simpl. destruct (of_status f); constructor. Qed.

Lemma stop_view_Ok binding f v :
  stop_view binding f = Ok v →
  sf_account_id f = abn_broker_account_id binding ∧ sod_account_id v = abn_account_id binding ∧
  sod_broker_stop_order_id v = sf_broker_stop_order_id f ∧ sod_instrument_uid v = sf_instrument_uid f ∧
  same_stop_status (sf_status f) (sod_status v) ∧ sod_status_cause_code v = sf_status_cause f.
Proof. unfold stop_view. intros H. open_view H. split_and!; try done. simpl. destruct (sf_status f); constructor. Qed.

Lemma position_view_Ok binding f v :
  position_view binding f = Ok v →
  pf_account_id f = abn_broker_account_id binding ∧ psd_account_id v = abn_account_id binding ∧
  psd_instrument_uid v = pf_instrument_uid f ∧ psd_quantity_units v = pf_quantity_units f ∧
  psd_broker_observed_at_unix_ms v = pf_broker_observed_at_unix_ms f.
Proof. unfold position_view. intros H. by open_view H. Qed.

Lemma operation_view_Ok binding f v :
  operation_view binding f = Ok v →
  op_account_id f = abn_broker_account_id binding ∧ opd_account_id v = abn_account_id binding ∧
  opd_cursor v = op_cursor f ∧ opd_provider_operation_id v = op_provider_operation_id f ∧
  opd_broker_order_id v = op_broker_order_id f ∧ opd_logical_request_id v = op_logical_request_id f ∧
  opd_broker_fill_ids v = op_broker_fill_ids f.
Proof. unfold operation_view. intros H. by open_view H. Qed.

Lemma decimal_from_nanos_Ok value kind currency d :
  decimal_from_nanos value kind currency = Ok d → shows_nanos value d.
Proof.
  unfold decimal_from_nanos. destruct (from_total_nanos_string value) as [x|] eqn:Hx; [|done].
  intros [= <-]. apply from_total_nanos_Ok in Hx as (n & -> & ->). exists n. split_and!; [done..|]. apply render_denotes.
Qed.

Lemma money_valuation_Ok m v :
  money_valuation m = Ok v → mvd_currency v = mo_currency m ∧ shows_nanos (mo_amount_nanos m) (mvd_amount v).
Proof.
  unfold money_valuation. destruct (decimal_from_nanos _ _ _) as [d|] eqn:Hd; [|done]. intros [= <-]. simpl.
  split; [done|]. by eapply decimal_from_nanos_Ok.
Qed.

Lemma cash_view_Ok e v : cash_view e = Ok v → cbd_currency v = e.1 ∧ shows_nanos e.2 (cbd_amount v).
Proof.
  unfold cash_view. destruct (decimal_from_nanos _ _ _) as [d|] eqn:Hd; [|done]. intros [= <-]. simpl.
  split; [done|]. by eapply decimal_from_nanos_Ok.
Qed.

Lemma transpose_Ok {E A} (o : option (result E A)) r :
  transpose o = Ok r → match o, r with Some x, Some a => x = Ok a | None, None => True | _, _ => False end.
Proof. destruct o as [[a|]|]; simpl; by intros [= <-]. Qed.

Lemma portfolio_view_Ok binding f v :
  portfolio_view binding f = Ok v →
  pt_account_id f = abn_broker_account_id binding ∧ pod_account_id v = abn_account_id binding ∧
  Forall2 (λ e b, cbd_currency b = e.1 ∧ shows_nanos e.2 (cbd_amount b)) (pt_cash_balances f) (pod_balances v) ∧
  shows_valuation (pt_total_portfolio_valuation f) (pod_total_portfolio_valuation v) ∧
  shows_valuation (pt_total_currency_valuation f) (pod_total_currency_valuation v) ∧
  pod_broker_observed_at_unix_ms v = pt_broker_observed_at_unix_ms f.
Proof.
  unfold portfolio_view. destruct (require_broker_account _ _) eqn:Hr; [|done]. apply require_broker_account_Ok in Hr.
  destruct (collect _ _) as [bs|] eqn:Hc; [|done]. destruct (transpose _) as [p|] eqn:Hp; [|done].
  destruct (transpose (money_valuation <$> pt_total_currency_valuation f)) as [c|] eqn:Hcu; [|done].
  intros [= <-]. simpl. apply transpose_Ok in Hp, Hcu. split_and!; try done.
  - apply collect_views in Hc. eapply Forall2_impl; [done|]. intros e b. apply cash_view_Ok.
  - destruct (pt_total_portfolio_valuation f), p; try done. by apply money_valuation_Ok.
  - destruct (pt_total_currency_valuation f), c; try done. by apply money_valuation_Ok.
Qed.

(** The answer comes from one call of the broker for the scope the request stands for, and
    shows what [shown] says of the facts of that call. *)
Definition answers {F} (call : RuntimeScope → st B BrokerPortError F) (scope : ExecutionScope) (b b' : B)
    (shown : AccountBinding → F → Prop) : Prop :=
  ∃ binding rs facts, stands_for scope binding rs ∧ same_environment (xs_environment scope) (sc_environment rs) ∧
    call rs b = (b', Ok facts) ∧ shown binding facts.

Lemma read_answers {F V} (call : RuntimeScope → st B BrokerPortError F)
    (view : AccountBinding → F → result ApiError V) scope b b' v :
  (let! bound := st_lift (bound_runtime opaque_credential_ref scope) in
   let! f := st_map_err map_broker_error (call bound.2) in
   st_lift (view bound.1 f)) b = (b', Ok v) →
  answers call scope b b' (λ binding f, view binding f = Ok v).
Proof.
  intros (b1 & bound & [-> Hb]%st_lift_Ok & H)%st_bind_Ok. apply bound_runtime_Ok in Hb.
  apply st_bind_Ok in H as (b2 & f & Hf%st_map_err_Ok & [-> Hv]%st_lift_Ok).
  exists bound.1, bound.2, f. split_and!; try done. by apply stands_environment in Hb.
Qed.

(** What is shown of a checkpoint. *)
Definition shows_checkpoint (c : ReconciliationCheckpoint) (v : ReconciliationDto) : Prop :=
  (rcd_scope_key v, rcd_reconciliation_id v, rcd_operations_cursor v, rcd_snapshot_observed_at_unix_ms v,
   rcd_completed_at_unix_ms v, rcd_runtime_epoch v)
  = (cp_scope_key c, cp_reconciliation_id c, cp_operations_cursor c, cp_snapshot_observed_at_unix_ms c,
     cp_completed_at_unix_ms c, cp_runtime_epoch c) ∧
  (rcd_accounts_complete v, rcd_portfolio_complete v, rcd_positions_complete v, rcd_orders_complete v,
   rcd_stops_complete v, rcd_operations_complete v)
  = (cp_accounts_complete c, cp_portfolio_complete c, cp_positions_complete c, cp_orders_complete c,
     cp_stops_complete c, cp_operations_complete c) ∧
  (rcd_complete v = true ↔
     cp_accounts_complete c = true ∧ cp_portfolio_complete c = true ∧ cp_positions_complete c = true ∧
     cp_orders_complete c = true ∧ cp_stops_complete c = true ∧ cp_operations_complete c = true).

Lemma reconciliation_shown load_checkpoint scope v :
  api_reconciliation opaque_credential_ref load_checkpoint scope = Ok v →
  ∃ load binding rs c, load_checkpoint = Some load ∧ stands_for scope binding rs ∧
    same_environment (xs_environment scope) (sc_environment rs) ∧
    load (scope_key rs) = Ok (Some c) ∧ shows_checkpoint c v.
Proof.
  unfold api_reconciliation, adapter_runtime_scope. destruct (resolve_binding _ _) as [binding|] eqn:Hr; [|done]. simpl.
  destruct (runtime_scope_from_binding _ _ _) as [rs|] eqn:Hs; [|done].
  assert (stands_for scope binding rs) as Hst by (apply (bound_runtime_Ok scope (binding, rs)); unfold bound_runtime; by rewrite Hr; simpl; rewrite Hs).
  destruct load_checkpoint as [load|]; [|done]. destruct (load (scope_key rs)) as [[c|]|] eqn:Hl; [|done|done].
  intros [= <-]. exists load, binding, rs, c. split_and!; try done; [by eapply stands_environment|].
  split_and!; try done. simpl. unfold checkpoint_complete. rewrite !andb_true_iff. tauto.
Qed.

(** C33. Every account read of the public interface answers from one call of the broker for
    the broker account that the stored binding gives the requested account on the requested
    connection, in the requested environment.  It shows the facts of that call one for one,
    all of that account, under the canonical account and in every field: orders and stops
    with the status of the same name, positions with their quantity, operations with their
    identities, and every amount of money, cash, portfolio total and currency total, as
    exactly the number of nanos the broker reported for it.  The reconciliation shown is the
    checkpoint stored for that scope, complete only when each of its parts is. *)
Theorem api_reads_are_bound load_checkpoint scope (b b' : B) :
  (∀ l, api_orders opaque_credential_ref scope b = (b', Ok l) →
     answers br_active_orders scope b b' (λ binding facts,
       Forall2 (λ f v, of_account_id f = abn_broker_account_id binding ∧ ord_account_id v = xs_account_id scope ∧
         ord_broker_order_id v = of_broker_order_id f ∧ ord_logical_request_id v = of_logical_request_id f ∧
         ord_instrument_uid v = of_instrument_uid f ∧
         same_order_status (of_status f) (ord_status v) ∧
         ord_status_cause_code v = of_status_cause f) facts l)) ∧
  (∀ l, api_stop_orders opaque_credential_ref scope b = (b', Ok l) →
     answers (λ rs, br_stop_orders rs 0) scope b b' (λ binding facts,
       Forall2 (λ f v, sf_account_id f = abn_broker_account_id binding ∧ sod_account_id v = xs_account_id scope ∧
         sod_broker_stop_order_id v = sf_broker_stop_order_id f ∧ sod_instrument_uid v = sf_instrument_uid f ∧
         same_stop_status (sf_status f) (sod_status v) ∧
         sod_status_cause_code v = sf_status_cause f) facts l)) ∧
  (∀ l, api_positions opaque_credential_ref scope b = (b', Ok l) →
     answers br_positions scope b b' (λ binding facts,
       Forall2 (λ f v, pf_account_id f = abn_broker_account_id binding ∧ psd_account_id v = xs_account_id scope ∧
         psd_instrument_uid v = pf_instrument_uid f ∧ psd_quantity_units v = pf_quantity_units f ∧
         psd_broker_observed_at_unix_ms v = pf_broker_observed_at_unix_ms f) (ps_instruments facts) l)) ∧
  (∀ cursor limit page, api_operations opaque_credential_ref scope cursor limit b = (b', Ok page) →
     answers (λ rs, br_operations_page rs cursor 0 limit) scope b b' (λ binding facts,
       opp_next_cursor page = pg_next_cursor facts ∧
       Forall2 (λ f v, op_account_id f = abn_broker_account_id binding ∧ opd_account_id v = xs_account_id scope ∧
         opd_cursor v = op_cursor f ∧ opd_provider_operation_id v = op_provider_operation_id f ∧
         opd_broker_order_id v = op_broker_order_id f ∧ opd_logical_request_id v = op_logical_request_id f ∧
         opd_broker_fill_ids v = op_broker_fill_ids f)
         (pg_items facts) (opp_items page))) ∧
  (∀ v, api_portfolio opaque_credential_ref scope b = (b', Ok v) →
     answers br_portfolio scope b b' (λ binding f,
       pt_account_id f = abn_broker_account_id binding ∧ pod_account_id v = xs_account_id scope ∧
       Forall2 (λ e x, cbd_currency x = e.1 ∧ shows_nanos e.2 (cbd_amount x)) (pt_cash_balances f) (pod_balances v) ∧
       shows_valuation (pt_total_portfolio_valuation f) (pod_total_portfolio_valuation v) ∧
       shows_valuation (pt_total_currency_valuation f) (pod_total_currency_valuation v) ∧
       pod_broker_observed_at_unix_ms v = pt_broker_observed_at_unix_ms f)) ∧
  (∀ l, api_accounts opaque_credential_ref scope b = (b', Ok l) →
     answers br_accounts scope b b' (λ binding facts, ∃ f v,
       f ∈ facts ∧ l = [v] ∧ ba_account_id f = abn_broker_account_id binding ∧
       bad_account_id v = xs_account_id scope ∧ bad_broker_account_id v = abn_broker_account_id binding ∧
       bad_open v = ba_open f ∧ bad_accessible v = ba_accessible f)) ∧
  (∀ v, api_reconciliation opaque_credential_ref load_checkpoint scope = Ok v →
     ∃ load binding rs c, load_checkpoint = Some load ∧ stands_for scope binding rs ∧
       same_environment (xs_environment scope) (sc_environment rs) ∧
       load (scope_key rs) = Ok (Some c) ∧ shows_checkpoint c v).
Proof.
  split_and!.
  - intros l (binding & rs & facts & Hs & He & Hf & Hv)%(read_answers _ (λ binding, collect (order_view binding))).
    exists binding, rs, facts. split_and!; [done..|]. rewrite <- (sf_account _ _ _ Hs).
    apply collect_views in Hv. eapply Forall2_impl; [done|]. intros. by apply order_view_Ok.
  - intros l (binding & rs & facts & Hs & He & Hf & Hv)%(read_answers (λ rs, br_stop_orders rs 0) (λ binding, collect (stop_view binding))).
    exists binding, rs, facts. split_and!; [done..|]. rewrite <- (sf_account _ _ _ Hs).
    apply collect_views in Hv. eapply Forall2_impl; [done|]. intros. by apply stop_view_Ok.
  - intros l (binding & rs & facts & Hs & He & Hf & Hv)%(read_answers _ (λ binding f, collect (position_view binding) (ps_instruments f))).
    exists binding, rs, facts. split_and!; [done..|]. rewrite <- (sf_account _ _ _ Hs).
    apply collect_views in Hv. eapply Forall2_impl; [done|]. intros. by apply position_view_Ok.
  - intros cursor limit page (binding & rs & facts & Hs & He & Hf & Hv)%(read_answers (λ rs, br_operations_page rs cursor 0 limit) operations_view).
    exists binding, rs, facts. do 3 (split; [done|]). rewrite <- (sf_account _ _ _ Hs).
    unfold operations_view in Hv. destruct (collect _ _) as [items|] eqn:Hc; [|done]. injection Hv as <-. simpl.
    split; [done|]. apply collect_views in Hc. eapply Forall2_impl; [done|]. intros. by apply operation_view_Ok.
  - intros v (binding & rs & f & Hs & He & Hf & Hv)%(read_answers _ portfolio_view).
    exists binding, rs, f. do 3 (split; [done|]). rewrite <- (sf_account _ _ _ Hs).
    by apply portfolio_view_Ok in Hv.
  - intros l (b1 & bound & [-> Hb]%st_lift_Ok & H)%st_bind_Ok. apply bound_runtime_Ok in Hb.
    apply st_bind_Ok in H as (b2 & facts & Hf%st_map_err_Ok & H).
    apply st_bind_Ok in H as (b3 & f & [-> Hm]%st_lift_Ok & H).
    apply st_bind_Ok in H as (b4 & v & [-> Hv]%st_lift_Ok & [= <- <-]).
    destruct (List.find _ facts) as [x|] eqn:Hx; [|done]. injection Hm as <-. apply find_elem in Hx as [Hin _].
    exists bound.1, bound.2, facts. split; [done|]. split; [by eapply stands_environment|]. split; [done|]. unfold account_view in Hv. open_view Hv.
    exists x. eexists. split_and!; try done. simpl. apply (sf_account _ _ _ Hb).
  - apply reconciliation_shown.
Qed.

(** The journal of mutations is never shown: the list is empty whatever was dispatched. *)
Theorem mutations_always_empty scope l : api_mutations opaque_credential_ref scope = Ok l → l = [].
Proof. unfold api_mutations. destruct (adapter_runtime_scope _ _); [|done]. by intros [= <-]. Qed.
End bound.
