(* ===== verification/SecretStore.v ===== *)
(** * The credential store: [crates/vox-connections/src/secret.rs]

    Credentials are sealed under a fresh data key, which is sealed under a versioned
    key of the key ring; both seals are bound to the credential, its broker and its
    environment.  The model has the key ring, the table of envelopes and every
    operation of [SqliteSecretStore].

    The cipher (AES-256-GCM), the digest (SHA-256), the source of random bytes and the
    database clock are third-party code: the classes [Cipher] and [Entropy], with the
    one law of a cipher that what was sealed opens under the same key, nonce and
    associated data.  Bytes are byte strings. *)
From stdpp Require Import gmap strings.
From S2P Require Import Prelude ConnectionModel RiskStore.

Definition ALGORITHM : string := "AES-256-GCM".
Definition NONCE_LEN : Z := 12.
Definition KEY_LEN : Z := 32.

Definition len (s : string) : Z := Z.of_nat (String.length s).

Record CredentialContext := { cx_provider : string; cx_environment : BrokerEnvironment }.

#[export] Instance CredentialContext_eq_dec : EqDecision CredentialContext.
Proof. solve_decision. Defined.

(** ** Errors *)

Module Keys.
Inductive KeyProviderError :=
| MissingVersion (version : Z)
| MissingExternalKey
| InvalidExternalKey
| NonMonotonicVersion
| Unavailable.
End Keys.
Notation KeyProviderError := Keys.KeyProviderError.

Module Sec.
Inductive SecretStoreError :=
| EmptySecret
| SecretTooLarge
| AlreadyExists
| NotFound
| ContextMismatch
| NotFoundOrContextMismatch
| Disabled
| UnsupportedEnvelope
| AuthenticationFailed
| CryptographicFailure
| Persistence (why : SqliteError)
| KeyProvider (e : KeyProviderError).
End Sec.
Notation SecretStoreError := Sec.SecretStoreError.

Definition SecretBytes_new (value : string) : result SecretStoreError string :=
  if bool_decide (value = ""%string) then Err Sec.EmptySecret
  else if 64 * 1024 <? len value then Err Sec.SecretTooLarge
  else Ok value.

(** ** The key ring *)

Record Keyring := { kr_active_version : Z; kr_keys : list (Z * string) }.

(** [BTreeMap::get] and [BTreeMap::insert]. *)
Definition key_of (version : Z) (k : Keyring) : option string :=
  snd <$> List.find (by_key fst version) (kr_keys k).

Definition StaticKeyProvider_new (current_version : Z) (keys : list (Z * string))
  : result KeyProviderError Keyring :=
  if (current_version =? 0) || negb (existsb (by_key fst current_version) keys)
  then Err (Keys.MissingVersion current_version)
  else Ok {| kr_active_version := current_version; kr_keys := keys |}.

Definition resolve_key_material (version : Z) (k : Keyring) : result KeyProviderError string :=
  ok_or (key_of version k) (Keys.MissingVersion version).

Definition rotate_key (version : Z) (material : string) (k : Keyring) : Keyring * result KeyProviderError () :=
  if (version =? 0) || (version <=? kr_active_version k) || existsb (by_key fst version) (kr_keys k)
  then (k, Err Keys.NonMonotonicVersion)
  else ({| kr_active_version := version; kr_keys := kr_keys k ++ [(version, material)] |}, Ok tt).

(** [u8::from_str_radix(_, 16)] of two characters: a sign is taken before a digit.  A
    slice that would cut a character of several bytes panics in the source. *)
Definition hex_digit (c : Ascii.ascii) : option N :=
  let b := byte_of c in
  if ((48 <=? b) && (b <=? 57))%N then Some (b - 48)%N
  else if ((97 <=? b) && (b <=? 102))%N then Some (b - 87)%N
  else if ((65 <=? b) && (b <=? 70))%N then Some (b - 55)%N
  else None.

Definition hex_byte (a b : Ascii.ascii) : option N :=
  match hex_digit a, hex_digit b with
  | Some x, Some y => Some (16 * x + y)%N
  | None, Some y => if (byte_of a =? 43)%N then Some y else None
  | _, _ => None
  end.

Fixpoint hex_bytes (s : string) : option string :=
  match s with
  | EmptyString => Some EmptyString
  | String a (String b s') =>
      match hex_byte a b, hex_bytes s' with
      | Some x, Some rest => Some (String (Ascii.ascii_of_N x) rest)
      | _, _ => None
      end
  | String _ EmptyString => None
  end.

Definition parse_hex_key (value : string) : result KeyProviderError string :=
  if negb (len value =? KEY_LEN * 2) then Err Keys.InvalidExternalKey
  else ok_or (hex_bytes value) Keys.InvalidExternalKey.

(** ** Envelopes *)

Class Cipher := {
  seal : string → string → string → string → option string;
  unseal : string → string → string → string → option string;
  sha256 : string → string;
}.

(** What is sealed opens, under the same key, nonce and associated data. *)
Class CipherLaws `{!Cipher} :=
  unseal_seal key nonce aad plain sealed : seal key nonce aad plain = Some sealed →
    unseal key nonce aad sealed = Some plain.

(** Random bytes of a length, and the clock of the database in seconds. *)
Class Entropy (E : Type) := {
  en_fill : Z → E → E * option string;
  en_clock : E → E * Z;
}.

Class EntropyLaws (E : Type) `{!Entropy E} :=
  fill_length n (e e' : E) bytes : en_fill n e = (e', Some bytes) → len bytes = n.

Record EncryptedEnvelope := {
  ee_key_version : Z;
  ee_data_nonce : string;
  ee_wrapped_dek : string;
  ee_wrap_nonce : string;
  ee_ciphertext : string;
}.

Record EnvelopeRow := {
  er_credential_ref : string;
  er_provider : string;
  er_environment : string;
  er_algorithm : string;
  er_key_version : Z;
  er_data_nonce : string;
  er_wrapped_dek : string;
  er_wrap_nonce : string;
  er_ciphertext : string;
  er_fingerprint : string;
  er_created_at_unix_ms : Z;
  er_rotated_at_unix_ms : option Z;
  er_disabled_at_unix_ms : option Z;
}.

Record SecretMetadata := {
  sm_credential_ref : string;
  sm_context : CredentialContext;
  sm_fingerprint : string;
  sm_key_version : Z;
  sm_disabled : bool;
}.

Definition environment_text (e : BrokerEnvironment) : string :=
  match e with Env.Production => "PRODUCTION" | Env.Sandbox => "SANDBOX" end.

Definition associated_data (credential_ref : string) (c : CredentialContext) (key_version : Z) : string :=
  "vox-credential-v1|" +:+ credential_ref +:+ "|" +:+ cx_provider c +:+ "|"
  +:+ environment_text (cx_environment c) +:+ "|" +:+ ALGORITHM +:+ "|" +:+ int_to_string key_version.
Definition payload_aad (aad : string) : string := aad +:+ "|PAYLOAD".
Definition dek_aad (aad : string) : string := aad +:+ "|DEK".

Definition hex_char (n : N) : Ascii.ascii :=
  Ascii.ascii_of_N (if (n <? 10)%N then 48 + n else 87 + n)%N.
Fixpoint to_hex (s : string) : string :=
  match s with
  | EmptyString => EmptyString
  | String c s' => String (hex_char (byte_of c / 16)) (String (hex_char (byte_of c mod 16)) (to_hex s'))
  end.

(** The first eight bytes of the digest, in hexadecimal. *)
Definition fingerprint `{!Cipher} (secret : string) : string :=
  to_hex (String.substring 0 8 (sha256 secret)).

(** ** The store *)

Section store.
Context {E : Type} `{!Cipher} `{!Entropy E} `{UF : !UuidFormat}.

Record SecretDb := {
  sd_rows : list EnvelopeRow;
  sd_keyring : Keyring;
  sd_fail_next_disable : bool;
  sd_fail_next_delete : bool;
  sd_entropy : E;
}.

Notation ss A := (st SecretDb SecretStoreError A).

Definition put_rows (v : list EnvelopeRow) (s : SecretDb) : SecretDb := {|
  sd_rows := v; sd_keyring := sd_keyring s; sd_fail_next_disable := sd_fail_next_disable s;
  sd_fail_next_delete := sd_fail_next_delete s; sd_entropy := sd_entropy s |}.
Definition put_entropy (v : E) (s : SecretDb) : SecretDb := {|
  sd_rows := sd_rows s; sd_keyring := sd_keyring s; sd_fail_next_disable := sd_fail_next_disable s;
  sd_fail_next_delete := sd_fail_next_delete s; sd_entropy := v |}.
Definition put_keyring (v : Keyring) (s : SecretDb) : SecretDb := {|
  sd_rows := sd_rows s; sd_keyring := v; sd_fail_next_disable := sd_fail_next_disable s;
  sd_fail_next_delete := sd_fail_next_delete s; sd_entropy := sd_entropy s |}.
Definition put_switches (disable delete : bool) (s : SecretDb) : SecretDb := {|
  sd_rows := sd_rows s; sd_keyring := sd_keyring s; sd_fail_next_disable := disable;
  sd_fail_next_delete := delete; sd_entropy := sd_entropy s |}.

Definition fail_next_disable : ss () := λ s, (put_switches true (sd_fail_next_delete s) s, Ok tt).
Definition fail_next_delete : ss () := λ s, (put_switches (sd_fail_next_disable s) true s, Ok tt).

Definition resolve (version : Z) : ss string := λ s,
  (s, map_err Sec.KeyProvider (resolve_key_material version (sd_keyring s))).

Definition rotate_active_key (version : Z) (material : string) : ss () := λ s,
  let '(k, r) := rotate_key version material (sd_keyring s) in (put_keyring k s, map_err Sec.KeyProvider r).

Definition fill (n : Z) : ss string := λ s,
  let '(e, r) := en_fill n (sd_entropy s) in (put_entropy e s, ok_or r Sec.CryptographicFailure).

(** [UnboundKey::new] takes a key of the length of the algorithm. *)
Definition unbound_key (key : string) : ss string :=
  if len key =? KEY_LEN then st_ret key else st_fail Sec.CryptographicFailure.

Definition encrypt (credential_ref : string) (c : CredentialContext) (secret : string) : ss EncryptedEnvelope :=
  let! s := st_get in
  let key_version := kr_active_version (sd_keyring s) in
  let! kek := resolve key_version in
  let! dek := fill KEY_LEN in
  let! data_key := unbound_key dek in
  let! data_nonce := fill NONCE_LEN in
  let aad := associated_data credential_ref c key_version in
  let! ciphertext := st_lift (ok_or (seal data_key data_nonce (payload_aad aad) secret) Sec.CryptographicFailure) in
  let! wrap_key := unbound_key kek in
  let! wrap_nonce := fill NONCE_LEN in
  let! wrapped_dek := st_lift (ok_or (seal wrap_key wrap_nonce (dek_aad aad) dek) Sec.CryptographicFailure) in
  st_ret {| ee_key_version := key_version; ee_data_nonce := data_nonce; ee_wrapped_dek := wrapped_dek;
            ee_wrap_nonce := wrap_nonce; ee_ciphertext := ciphertext |}.

Definition envelope_row (credential_ref : string) (c : CredentialContext) (e : EncryptedEnvelope)
    (mark : string) (created_at : Z) (rotated_at disabled_at : option Z) : EnvelopeRow := {|
  er_credential_ref := credential_ref; er_provider := cx_provider c;
  er_environment := environment_text (cx_environment c); er_algorithm := ALGORITHM;
  er_key_version := ee_key_version e; er_data_nonce := ee_data_nonce e; er_wrapped_dek := ee_wrapped_dek e;
  er_wrap_nonce := ee_wrap_nonce e; er_ciphertext := ee_ciphertext e; er_fingerprint := mark;
  er_created_at_unix_ms := created_at; er_rotated_at_unix_ms := rotated_at;
  er_disabled_at_unix_ms := disabled_at |}.

Definition secret_put (credential_ref : string) (c : CredentialContext) (secret : string) (now : Z) : ss string :=
  let mark := fingerprint secret in
  let! envelope := encrypt credential_ref c secret in
  let! s := st_get in
  if existsb (by_key er_credential_ref credential_ref) (sd_rows s) then st_fail Sec.AlreadyExists
  else
    st_put (put_rows (sd_rows s ++ [envelope_row credential_ref c envelope mark now None None]) s) ;;;
    st_ret mark.

(** Open the data key and then the payload. *)
Definition open_envelope (credential_ref : string) (c : CredentialContext) (row : EnvelopeRow) : ss string :=
  let! kek := resolve (er_key_version row) in
  let! wrap_key := unbound_key kek in
  let aad := associated_data credential_ref c (er_key_version row) in
  let! dek := st_lift (ok_or (unseal wrap_key (er_wrap_nonce row) (dek_aad aad) (er_wrapped_dek row))
                         Sec.AuthenticationFailed) in
  if negb (len dek =? KEY_LEN) then st_fail Sec.UnsupportedEnvelope
  else
    let! data_key := unbound_key dek in
    let! plaintext := st_lift (ok_or (unseal data_key (er_data_nonce row) (payload_aad aad) (er_ciphertext row))
                                 Sec.AuthenticationFailed) in
    st_lift (SecretBytes_new plaintext).

Definition secret_get (credential_ref : string) (expected : CredentialContext) : ss string :=
  let! s := st_get in
  let! row := st_lift (ok_or (List.find (by_key er_credential_ref credential_ref) (sd_rows s)) Sec.NotFound) in
  if bool_decide (is_Some (er_disabled_at_unix_ms row)) then st_fail Sec.Disabled
  else if negb (bool_decide (er_provider row = cx_provider expected))
          || negb (bool_decide (er_environment row = environment_text (cx_environment expected)))
  then st_fail Sec.ContextMismatch
  else if negb (bool_decide (er_algorithm row = ALGORITHM)) || negb (len (er_data_nonce row) =? NONCE_LEN)
          || negb (len (er_wrap_nonce row) =? NONCE_LEN)
  then st_fail Sec.UnsupportedEnvelope
  else open_envelope credential_ref expected row.

(** The row an update replaces. *)
Definition rotatable (credential_ref : string) (c : CredentialContext) (row : EnvelopeRow) : bool :=
  by_key er_credential_ref credential_ref row && bool_decide (er_provider row = cx_provider c)
  && bool_decide (er_environment row = environment_text (cx_environment c))
  && negb (bool_decide (is_Some (er_disabled_at_unix_ms row))).

Definition secret_rotate (credential_ref : string) (expected : CredentialContext) (secret : string) (now : Z)
  : ss string :=
  let! _ := secret_get credential_ref expected in
  let mark := fingerprint secret in
  let! envelope := encrypt credential_ref expected secret in
  let! s := st_get in
  if existsb (rotatable credential_ref expected) (sd_rows s) then
    st_put (put_rows (update_where (rotatable credential_ref expected) (λ row,
      envelope_row (er_credential_ref row) expected envelope mark (er_created_at_unix_ms row) (Some now)
        (er_disabled_at_unix_ms row)) (sd_rows s)) s) ;;;
    st_ret mark
  else st_fail Sec.NotFoundOrContextMismatch.

Definition rewrap (credential_ref : string) (expected : CredentialContext) (now : Z) : ss () :=
  let! secret := secret_get credential_ref expected in
  let! _ := secret_rotate credential_ref expected secret now in
  st_ret tt.

Definition set_disabled (at_ms : Z) (row : EnvelopeRow) : EnvelopeRow := {|
  er_credential_ref := er_credential_ref row; er_provider := er_provider row;
  er_environment := er_environment row; er_algorithm := er_algorithm row;
  er_key_version := er_key_version row; er_data_nonce := er_data_nonce row;
  er_wrapped_dek := er_wrapped_dek row; er_wrap_nonce := er_wrap_nonce row;
  er_ciphertext := er_ciphertext row; er_fingerprint := er_fingerprint row;
  er_created_at_unix_ms := er_created_at_unix_ms row; er_rotated_at_unix_ms := er_rotated_at_unix_ms row;
  er_disabled_at_unix_ms := Some (default at_ms (er_disabled_at_unix_ms row)) |}.

Definition secret_disable (credential_ref : string) : ss () := λ s,
  if sd_fail_next_disable s
  then (put_switches false (sd_fail_next_delete s) s, Err Sec.CryptographicFailure)
  else
    let '(e, now) := en_clock (sd_entropy s) in
    let s := put_entropy e s in
    if existsb (by_key er_credential_ref credential_ref) (sd_rows s)
    then (put_rows (update_where (by_key er_credential_ref credential_ref) (set_disabled (now * 1000))
                      (sd_rows s)) s, Ok tt)
    else (s, Err Sec.NotFound).

Definition secret_delete (credential_ref : string) : ss () := λ s,
  if sd_fail_next_delete s
  then (put_switches (sd_fail_next_disable s) false s, Err Sec.CryptographicFailure)
  else (put_rows (List.filter (λ row, negb (by_key er_credential_ref credential_ref row)) (sd_rows s)) s, Ok tt).

Definition read_environment (text : string) : result SecretStoreError BrokerEnvironment :=
  if bool_decide (text = "PRODUCTION"%string) then Ok Env.Production
  else if bool_decide (text = "SANDBOX"%string) then Ok Env.Sandbox
  else Err (Sec.Persistence InvalidQuery).

Definition read_metadata (row : EnvelopeRow) : result SecretStoreError SecretMetadata :=
  let? environment := read_environment (er_environment row) in
  let? credential_ref := map_err (λ _, Sec.Persistence FromSqlConversionFailure)
    (parse_id "CredentialRef" "credential" (er_credential_ref row)) in
  let? provider := map_err (λ _, Sec.Persistence FromSqlConversionFailure)
    (ProviderId_new (er_provider row)) in
  Ok {| sm_credential_ref := credential_ref;
        sm_context := {| cx_provider := provider; cx_environment := environment |};
        sm_fingerprint := er_fingerprint row; sm_key_version := er_key_version row;
        sm_disabled := bool_decide (is_Some (er_disabled_at_unix_ms row)) |}.

Definition secret_metadata : ss (list SecretMetadata) := λ s,
  (s, collect read_metadata
        (order_by (λ a b, String.leb (er_credential_ref a) (er_credential_ref b)) (sd_rows s))).
End store.
Arguments SecretDb : clear implicits.

(** ** A vault *)

(** What the store is meant to be: credentials with their context, and whether they
    have been disabled. *)
Notation vault := (gmap string (CredentialContext * string * bool)).

Definition vault_get (m : vault) (credential_ref : string) (c : CredentialContext)
  : result SecretStoreError string :=
  match m !! credential_ref with
  | None => Err Sec.NotFound
  | Some (_, _, true) => Err Sec.Disabled
  | Some (c', secret, false) => if bool_decide (c' = c) then Ok secret else Err Sec.ContextMismatch
  end.

Inductive secret_call :=
| CallPut (credential_ref : string) (c : CredentialContext) (secret : string) (now : Z)
| CallGet (credential_ref : string) (c : CredentialContext)
| CallRotate (credential_ref : string) (c : CredentialContext) (secret : string) (now : Z)
| CallRewrap (credential_ref : string) (c : CredentialContext) (now : Z)
| CallDisable (credential_ref : string)
| CallDelete (credential_ref : string)
| CallRotateKey (version : Z) (material : string).

(** A credential passed to a call is a [SecretBytes]. *)
Definition secret_call_typed (c : secret_call) : Prop :=
  match c with
  | CallPut _ _ secret _ | CallRotate _ _ secret _ => SecretBytes_new secret = Ok secret
  | _ => True
  end.

(** What a vault does at a call; [no_disable] and [no_delete] say that the next such call
    is made to fail. *)
Definition vault_spec (mark : string → string) (no_disable no_delete : bool) (c : secret_call) (m m' : vault)
    (r : result SecretStoreError string) : Prop :=
  match c with
  | CallPut ref c secret _ =>
      (∃ e, r = Err e) ∧ m' = m ∨
      m !! ref = None ∧ r = Ok (mark secret) ∧ m' = <[ref := (c, secret, false)]> m
  | CallGet ref c => r = vault_get m ref c ∧ m' = m
  | CallRotate ref c secret _ =>
      (∃ e, r = Err e) ∧ m' = m ∨
      (∃ old, vault_get m ref c = Ok old) ∧ r = Ok (mark secret) ∧ m' = <[ref := (c, secret, false)]> m
  | CallRewrap ref c _ => m' = m ∧ (is_ok r = true → ∃ secret, vault_get m ref c = Ok secret)
  | CallRotateKey _ _ => m' = m
  | CallDisable ref =>
      (∃ e, r = Err e) ∧ m' = m ∧ (no_disable = true ∨ m !! ref = None) ∨
      no_disable = false ∧ r = Ok ""%string ∧
      ∃ c secret b, m !! ref = Some (c, secret, b) ∧ m' = <[ref := (c, secret, true)]> m
  | CallDelete ref =>
      (∃ e, r = Err e) ∧ m' = m ∧ no_delete = true ∨
      no_delete = false ∧ r = Ok ""%string ∧ m' = delete ref m
  end.

Section refinement.
Context {E : Type} `{CI : !Cipher} `{CL : !CipherLaws} `{EN : !Entropy E} `{EL : !EntropyLaws E}
  `{UF : !UuidFormat}.
Notation SecretDb := (SecretDb E).

Definition run_secret (c : secret_call) : st SecretDb SecretStoreError string :=
  let quiet (m : st SecretDb SecretStoreError ()) := (m ;;; st_ret ""%string) in
  match c with
  | CallPut ref c secret now => secret_put ref c secret now
  | CallGet ref c => secret_get ref c
  | CallRotate ref c secret now => secret_rotate ref c secret now
  | CallRewrap ref c now => quiet (rewrap ref c now)
  | CallDisable ref => quiet (secret_disable ref)
  | CallDelete ref => quiet (secret_delete ref)
  | CallRotateKey version material => quiet (rotate_active_key version material)
  end.

(** An envelope that opens to [secret] under the keys of the ring. *)
Definition opens (k : Keyring) (ref : string) (c : CredentialContext) (row : EnvelopeRow) (secret : string)
  : Prop :=
  er_provider row = cx_provider c ∧ er_environment row = environment_text (cx_environment c) ∧
  er_algorithm row = ALGORITHM ∧ len (er_data_nonce row) = NONCE_LEN ∧ len (er_wrap_nonce row) = NONCE_LEN ∧
  SecretBytes_new secret = Ok secret ∧
  let aad := associated_data ref c (er_key_version row) in
  ∃ kek dek, key_of (er_key_version row) k = Some kek ∧ len kek = KEY_LEN ∧ len dek = KEY_LEN ∧
    unseal kek (er_wrap_nonce row) (dek_aad aad) (er_wrapped_dek row) = Some dek ∧
    unseal dek (er_data_nonce row) (payload_aad aad) (er_ciphertext row) = Some secret.

(** The rows are the entries of the vault. *)
Definition entry_of (k : Keyring) (ref : string) (row : option EnvelopeRow)
    (v : option (CredentialContext * string * bool)) : Prop :=
  match row, v with
  | None, None => True
  | Some row, Some (c, secret, disabled) =>
      opens k ref c row secret ∧ bool_decide (is_Some (er_disabled_at_unix_ms row)) = disabled
  | _, _ => False
  end.

Definition stores (s : SecretDb) (m : vault) : Prop :=
  keyed er_credential_ref (sd_rows s) ∧
  ∀ ref, entry_of (sd_keyring s) ref (List.find (by_key er_credential_ref ref) (sd_rows s)) (m !! ref).

Lemma environment_text_inj e1 e2 : environment_text e1 = environment_text e2 → e1 = e2.
Proof. by destruct e1, e2. Qed.

Lemma resolve_Ok v (s s' : SecretDb) kek :
  resolve v s = (s', Ok kek) ↔ s' = s ∧ key_of v (sd_keyring s) = Some kek.
Proof.
  unfold resolve, resolve_key_material. destruct (key_of v _); simpl; naive_solver.
Qed.

Lemma unbound_key_Ok key (s s' : SecretDb) k : unbound_key key s = (s', Ok k) → s' = s ∧ k = key ∧ len key = KEY_LEN.
Proof. unfold unbound_key, st_ret, st_fail. destruct (Z.eqb_spec (len key) KEY_LEN); naive_solver. Qed.

(** Only the entropy changes. *)
Definition same_store (s s' : SecretDb) : Prop := ∃ e, s' = put_entropy e s.

#[export] Instance same_store_refl : Reflexive same_store.
Proof. intros s. exists (sd_entropy s). by destruct s. Qed.
#[export] Instance same_store_trans : Transitive same_store.
Proof. intros s1 s2 s3 [e1 ->] [e2 ->]. by exists e2. Qed.

Lemma same_store_fill n : st_effect same_store (fill n).
Proof. intros s s' r H. unfold fill in H. destruct (en_fill _ _) as [e o]. simplify_eq. by exists e. Qed.

Lemma fill_Ok n (s s' : SecretDb) b : fill n s = (s', Ok b) → len b = n ∧ same_store s s'.
Proof.
  intros H. split; [|by eapply same_store_fill]. unfold fill in H.
  destruct (en_fill n (sd_entropy s)) as [e [b'|]] eqn:Hf; simplify_eq/=. by apply fill_length in Hf.
Qed.

Lemma same_store_encrypt ref c secret : st_effect same_store (encrypt ref c secret).
Proof.
  assert (∀ v, st_effect same_store (resolve v)) as Hr.
  { intros v s s' r H. unfold resolve in H. by simplify_eq. }
  assert (∀ k, st_effect same_store (unbound_key k)) as Hu.
  { intros k s s' r H. unfold unbound_key in H. case_match; unfold st_ret, st_fail in H; by simplify_eq. }
  unfold encrypt. repeat first [apply Hr|apply Hu|apply same_store_fill|apply (effect_get same_store)
    |apply (effect_ret same_store)|apply (effect_lift same_store)|apply (effect_bind same_store); [|intros ?]].
Qed.

(** A fresh envelope opens. *)
Lemma encrypt_opens ref c secret (s s' : SecretDb) e mark created rotated disabled :
  SecretBytes_new secret = Ok secret → encrypt ref c secret s = (s', Ok e) →
  opens (sd_keyring s) ref c (envelope_row ref c e mark created rotated disabled) secret.
Proof.
  intros Hs H. unfold encrypt in H. unfold st_bind at 1, st_get in H.
  apply st_bind_Ok in H as (s1 & kek & [-> Hk]%resolve_Ok & H).
  apply st_bind_Ok in H as (s2 & dek & [Hd _]%fill_Ok & H).
  apply st_bind_Ok in H as (s3 & dk & (-> & -> & _)%unbound_key_Ok & H).
  apply st_bind_Ok in H as (s4 & dn & [Hn _]%fill_Ok & H).
  apply st_bind_Ok in H as (s5 & ct & H1 & H). unfold st_lift in H1. injection H1 as -> H1%ok_or_Ok.
  apply st_bind_Ok in H as (s6 & wk & (-> & -> & Hw)%unbound_key_Ok & H).
  apply st_bind_Ok in H as (s7 & wn & [Hn2 _]%fill_Ok & H).
  apply st_bind_Ok in H as (s8 & wd & H2 & H). unfold st_lift in H2. injection H2 as -> H2%ok_or_Ok.
  unfold st_ret in H. injection H as _ <-. unfold opens; simpl. split_and!; try done.
  exists kek, dek. split_and!; try done; by apply unseal_seal.
Qed.

Lemma open_envelope_opens ref c row secret (s : SecretDb) :
  opens (sd_keyring s) ref c row secret → open_envelope ref c row s = (s, Ok secret).
Proof.
  intros (_ & _ & _ & _ & _ & Hs & kek & dek & Hk & Hlk & Hld & Hd & Hp).
  unfold open_envelope, st_bind at 1, resolve, resolve_key_material. rewrite Hk. simpl.
  unfold unbound_key at 1, st_bind at 1. rewrite (proj2 (Z.eqb_eq _ _) Hlk). unfold st_ret.
  unfold st_bind at 1, st_lift at 1. rewrite Hd. simpl. rewrite (proj2 (Z.eqb_eq _ _) Hld). simpl.
  unfold unbound_key, st_bind at 1. rewrite (proj2 (Z.eqb_eq _ _) Hld). unfold st_ret, st_bind, st_lift.
  rewrite Hp. simpl. by rewrite Hs.
Qed.

(** Reading is looking up in the vault. *)
Lemma get_refines ref c (s : SecretDb) m :
  stores s m → secret_get ref c s = (s, vault_get m ref c).
Proof.
  intros [_ Hm]. specialize (Hm ref). unfold secret_get, vault_get, st_bind, st_get, st_lift.
  destruct (List.find _ _) as [row|]; destruct (m !! ref) as [[[c' secret] dis]|]; try done. simpl.
  destruct Hm as [Ho <-]. destruct (bool_decide (is_Some _)); [done|].
  pose proof Ho as (Hp & He & Ha & Hn1 & Hn2 & _). rewrite Hp, He.
  destruct (bool_decide (c' = c)) eqn:Hc; [apply bool_decide_eq_true in Hc|apply bool_decide_eq_false in Hc].
  - subst. rewrite !bool_decide_eq_true_2 by done. simpl. rewrite (proj2 (Z.eqb_eq _ _) Hn1).
    rewrite (proj2 (Z.eqb_eq _ _) Hn2). simpl. by apply open_envelope_opens.
  - destruct (bool_decide (cx_provider c' = _)) eqn:H1; [|done].
    destruct (bool_decide (environment_text _ = _)) eqn:H2; [|done].
    apply bool_decide_eq_true in H1, H2. apply environment_text_inj in H2. destruct c, c'; simpl in *. by subst.
Qed.

Lemma stores_entropy s s' m : same_store s s' → stores s m → stores s' m.
Proof. by intros [e ->]. Qed.

Lemma opens_keyring k k' ref c row secret :
  (∀ v key, key_of v k = Some key → key_of v k' = Some key) → opens k ref c row secret → opens k' ref c row secret.
Proof.
  intros Hk (H1 & H2 & H3 & H4 & H5 & H6 & kek & dek & Hkey & Hrest). split_and!; try done.
  exists kek, dek. split; [by apply Hk|done].
Qed.

Lemma vault_lookup (s : SecretDb) m ref :
  stores s m → m !! ref = None ↔ List.find (by_key er_credential_ref ref) (sd_rows s) = None.
Proof.
  intros [_ Hm]. specialize (Hm ref). destruct (List.find _ _), (m !! ref) as [[[]]|]; simpl in Hm; naive_solver.
Qed.

Lemma put_refines no_disable no_delete ref c secret now (s s' : SecretDb) m r :
  SecretBytes_new secret = Ok secret → stores s m → secret_put ref c secret now s = (s', r) →
  ∃ m', stores s' m' ∧ vault_spec fingerprint no_disable no_delete (CallPut ref c secret now) m m' r.
Proof.
  intros Hsec Hm H. unfold secret_put in H.
  apply st_bind_cases in H as [(e & He & ->)|(s1 & env & He & H)];
    pose proof (same_store_encrypt _ _ _ _ _ _ He) as Hs; apply (stores_entropy _ _ _ Hs) in Hm as Hm1.
  { exists m. split; [done|left; by eauto]. }
  unfold st_bind at 1, st_get in H. destruct (existsb _ _) eqn:Hex.
  { unfold st_fail in H. simplify_eq. exists m. split; [done|left; by eauto]. }
  unfold st_put, st_bind, st_ret in H. simplify_eq. set (row := envelope_row _ _ _ _ _ _ _).
  assert (List.find (by_key er_credential_ref ref) (sd_rows s1) = None) as Hnone.
  { apply find_None_iff. by apply existsb_false. }
  exists (<[ref := (c, secret, false)]> m). destruct Hm1 as [Hk Hm1]. split; [split|].
  - simpl. apply keyed_snoc; [done|]. by apply find_by_key_None.
  - intros ref'. cbn [sd_rows sd_keyring put_rows]. rewrite find_snoc. specialize (Hm1 ref').
    destruct (decide (ref' = ref)) as [->|Hne].
    + rewrite Hnone, lookup_insert. unfold by_key; simpl. rewrite bool_decide_eq_true_2 by done.
      rewrite decide_True by done. split; [|done]. destruct Hs as [e' ->]. exact (encrypt_opens _ _ _ _ _ _ _ _ _ _ Hsec He).
    + rewrite lookup_insert_ne by done. destruct (List.find _ (sd_rows s1)) as [x|]; [done|].
      unfold by_key; simpl. by rewrite bool_decide_eq_false_2.
  - right. split; [|done]. destruct Hs as [e' ->]. by apply (vault_lookup s m ref).
Qed.

(** Updating the rows of one credential updates its entry. *)
Lemma stores_update ref p f v (s : SecretDb) m row :
  stores s m → List.find (by_key er_credential_ref ref) (sd_rows s) = Some row →
  (∀ x, p x = true → er_credential_ref x = ref) → (∀ x, p x = true → er_credential_ref (f x) = er_credential_ref x) →
  entry_of (sd_keyring s) ref (Some (if p row then f row else row)) (Some v) →
  stores (put_rows (update_where p f (sd_rows s)) s) (<[ref := v]> m).
Proof.
  intros [Hk Hm] Hrow Hp Hf Hv. split; cbn [sd_rows sd_keyring put_rows].
  - unfold keyed. by rewrite update_where_keys_at.
  - intros ref'. rewrite find_update_where by done. destruct (decide (ref' = ref)) as [->|Hne].
    + rewrite Hrow, lookup_insert, decide_True by done. done.
    + rewrite lookup_insert_ne by done. specialize (Hm ref').
      destruct (List.find (by_key _ ref') _) as [x|] eqn:Hx; [|done]. simpl.
      apply find_by_key in Hx as [_ Hx]. destruct (p x) eqn:Hpx; [|done]. apply Hp in Hpx. congruence.
Qed.

Lemma rotate_refines no_disable no_delete ref c secret now (s s' : SecretDb) m r :
  SecretBytes_new secret = Ok secret → stores s m → secret_rotate ref c secret now s = (s', r) →
  ∃ m', stores s' m' ∧ vault_spec fingerprint no_disable no_delete (CallRotate ref c secret now) m m' r.
Proof.
  intros Hsec Hm H. unfold secret_rotate in H. unfold st_bind at 1 in H. rewrite (get_refines _ _ _ _ Hm) in H.
  destruct (vault_get m ref c) as [old|e] eqn:Hget.
  2: { simplify_eq. exists m. split; [done|left; by eauto]. }
  apply st_bind_cases in H as [(e & He & ->)|(s1 & env & He & H)];
    pose proof (same_store_encrypt _ _ _ _ _ _ He) as Hs; apply (stores_entropy _ _ _ Hs) in Hm as Hm1.
  { exists m. split; [done|left; by eauto]. }
  unfold st_bind at 1, st_get in H.
  destruct (existsb _ _); [|unfold st_fail in H; simplify_eq; exists m; split; [done|left; by eauto]].
  unfold st_put, st_bind, st_ret in H. simplify_eq.
  exists (<[ref := (c, secret, false)]> m). split; [|right; by eauto].
  unfold vault_get in Hget. pose proof Hm1 as [_ He1]. specialize (He1 ref).
  destruct (m !! ref) as [[[c' old'] [|]]|]; [done| |done]. case_bool_decide; [|done]. simplify_eq.
  destruct (List.find _ (sd_rows s1)) as [row|] eqn:Hrow; [|done]. destruct He1 as [Ho Hdis].
  assert (rotatable ref c row = true) as Hrt.
  { unfold rotatable, by_key. apply find_by_key in Hrow as [_ ->]. destruct Ho as (-> & -> & _).
    rewrite Hdis, !bool_decide_eq_true_2 by done. done. }
  apply (stores_update _ _ _ _ _ _ row); try done.
  - intros x. unfold rotatable, by_key. intros Hx. prop_tests. done.
  - rewrite Hrt. split; [|done]. apply find_by_key in Hrow as [_ ->]. destruct Hs as [e' ->].
    exact (encrypt_opens _ _ _ _ _ _ _ _ _ _ Hsec He).
Qed.

Lemma rewrap_refines ref c now (s s' : SecretDb) m r :
  stores s m → rewrap ref c now s = (s', r) →
  stores s' m ∧ (is_ok r = true → ∃ secret, vault_get m ref c = Ok secret).
Proof.
  intros Hm H. unfold rewrap in H. unfold st_bind at 1 in H. rewrite (get_refines _ _ _ _ Hm) in H.
  destruct (vault_get m ref c) as [secret|e] eqn:Hget; [|by simplify_eq].
  split; [|by eauto]. unfold vault_get in Hget. destruct (m !! ref) as [[[c' sec] [|]]|] eqn:Hl; [done| |done].
  case_bool_decide; [|done]. simplify_eq.
  assert (SecretBytes_new secret = Ok secret) as Hsec.
  { destruct Hm as [_ Hm]. specialize (Hm ref). rewrite Hl in Hm.
    destruct (List.find _ _); [|done]. by destruct Hm as [(_ & _ & _ & _ & _ & ? & _) _]. }
  assert (∃ r1, secret_rotate ref c secret now s = (s', r1)) as [r1 Hr].
  { apply st_bind_cases in H as [(e & H & _)|(s1 & mark & H & Hret)]; [by eauto|].
    unfold st_ret in Hret. simplify_eq. by eauto. }
  destruct (rotate_refines false false _ _ _ _ _ _ _ _ Hsec Hm Hr) as (m' & Hm' & [[_ ->]|(_ & _ & ->)]); [done|].
  by rewrite insert_id in Hm'.
Qed.

Lemma disable_refines ref (s s' : SecretDb) m r :
  stores s m → secret_disable ref s = (s', r) →
  (∃ e, r = Err e) ∧ stores s' m ∧ (sd_fail_next_disable s = true ∨ m !! ref = None) ∨
  sd_fail_next_disable s = false ∧ r = Ok tt ∧
  ∃ c secret b, m !! ref = Some (c, secret, b) ∧ stores s' (<[ref := (c, secret, true)]> m).
Proof.
  intros Hm H. unfold secret_disable in H. destruct (sd_fail_next_disable s).
  { simplify_eq. left. split_and!; [by eauto|done|by left]. }
  destruct (en_clock _) as [e now]. cbn [put_entropy sd_rows] in H.
  destruct (List.find (by_key er_credential_ref ref) (sd_rows s)) as [row|] eqn:Hrow.
  - rewrite (proj2 (List.existsb_exists _ _)) in H.
    2: { apply List.find_some in Hrow as [? ?]. by exists row. }
    simplify_eq. right. split_and!; [done|done|]. pose proof Hm as [_ He]. specialize (He ref). rewrite Hrow in He.
    destruct (m !! ref) as [[[c secret] b]|]; [|done]. destruct He as [Ho _]. exists c, secret, b. split; [done|].
    apply (stores_update _ _ _ _ (put_entropy e s) m row); try done.
    + intros x. unfold by_key. by intros ?%bool_decide_eq_true.
    + destruct (by_key _ _ row) eqn:Hb; [done|]. by rewrite (proj2 (List.find_some _ _ Hrow)) in Hb.
  - rewrite (proj2 (existsb_false _ _)) in H by (by apply find_None_iff). simplify_eq.
    left. split_and!; [by eauto|done|right]. by apply (vault_lookup s m ref).
Qed.

Lemma delete_refines ref (s s' : SecretDb) m r :
  stores s m → secret_delete ref s = (s', r) →
  (∃ e, r = Err e) ∧ stores s' m ∧ sd_fail_next_delete s = true ∨
  sd_fail_next_delete s = false ∧ r = Ok tt ∧ stores s' (delete ref m).
Proof.
  intros Hm H. unfold secret_delete in H. destruct (sd_fail_next_delete s).
  { simplify_eq. left. split_and!; [by eauto|done..]. }
  simplify_eq. right. split_and!; [done|done|]. destruct Hm as [Hk Hm]. split; cbn [sd_rows sd_keyring put_rows].
  - by apply keyed_filter.
  - intros ref'. rewrite find_filter by done. specialize (Hm ref'). destruct (decide (ref' = ref)) as [->|Hne].
    + rewrite lookup_delete_eq. destruct (List.find _ _) as [row|] eqn:Hrow; [|done].
      by rewrite (proj2 (List.find_some _ _ Hrow)).
    + rewrite lookup_delete_ne by done. destruct (List.find _ _) as [row|] eqn:Hrow; [|done].
      apply find_by_key in Hrow as [_ Hrow]. unfold by_key. by rewrite bool_decide_eq_false_2 by congruence.
Qed.

(** New keys are added to the ring and none is removed. *)
Lemma rotate_key_refines version material (s s' : SecretDb) m r :
  stores s m → rotate_active_key version material s = (s', r) → stores s' m.
Proof.
  intros [Hk Hm] H. unfold rotate_active_key, rotate_key in H. destruct (_ || _); simplify_eq; [done|].
  split; [done|]. intros ref. cbn [sd_rows sd_keyring put_keyring]. specialize (Hm ref).
  destruct (List.find _ (sd_rows s)) as [row|], (m !! ref) as [[[c secret] b]|]; try done.
  destruct Hm as [Ho Hd]. split; [|done]. eapply opens_keyring; [|exact Ho].
  intros v key. unfold key_of; simpl. rewrite find_snoc. by destruct (List.find _ (kr_keys _)).
Qed.

End refinement.

(** ** A toy cipher *)

Module SecretSample.
(** Sealing puts the key, the nonce and the associated data in front. *)
Definition header (key nonce aad : string) : string := key +:+ nonce +:+ aad.
#[export] Instance toy : Cipher := {|
  seal key nonce aad plain := Some (header key nonce aad +:+ plain);
  unseal key nonce aad sealed := strip_prefix (header key nonce aad) sealed;
  sha256 s := s |}.

#[export] Instance toy_laws : CipherLaws.
Proof. intros key nonce aad plain sealed [= <-]. apply strip_prefix_app. Qed.

Fixpoint zeros (n : nat) : string := match n with O => "" | S n => String (Ascii.ascii_of_N 48) (zeros n) end.
#[export] Instance counter : Entropy Z := {|
  en_fill n e := (e + 1, if 0 <=? n then Some (zeros (Z.to_nat n)) else None); en_clock e := (e + 1, e) |}.
Lemma zeros_length n : String.length (zeros n) = n.
Proof. induction n as [|n IH]; simpl; [done|]. by rewrite IH. Qed.
#[export] Instance counter_laws : EntropyLaws Z.
Proof.
  intros n e e' bytes H. simpl in H. destruct (Z.leb_spec 0 n); simplify_eq. unfold len. rewrite zeros_length. lia.
Qed.
Definition store : SecretDb Z := {|
  sd_rows := []; sd_keyring := {| kr_active_version := 1; kr_keys := [(1, zeros 32)] |};
  sd_fail_next_disable := false; sd_fail_next_delete := false; sd_entropy := 1 |}.
Definition context : CredentialContext := {| cx_provider := "T_INVEST"; cx_environment := Env.Sandbox |}.
Definition put_one : SecretDb Z * result SecretStoreError string :=
  Eval vm_compute in secret_put "credential:1" context "bearer" 5 store.
Lemma put_one_eq : run_secret (CallPut "credential:1" context "bearer" 5) store = (fst put_one, snd put_one).
Proof. vm_compute. reflexivity. Qed.
Lemma store_empty : stores store ∅.
Proof. split; [apply NoDup_nil_2|]. intros ref. by rewrite lookup_empty. Qed.

(** Read back; refused under another environment. *)
Example read_back :
  snd (secret_get "credential:1" context (fst put_one)) = Ok "bearer"%string ∧
  snd (secret_get "credential:1" {| cx_provider := "T_INVEST"; cx_environment := Env.Production |} (fst put_one))
    = Err Sec.ContextMismatch.
Proof. split; vm_compute; reflexivity. Qed.
End SecretSample.
Import SecretSample.

