(* ===== verification/ConnectionRepository.v ===== *)
(** * The connection repository: [crates/vox-connections/src/repository.rs]

    The SQLite tables of users, roles, connections, discovered accounts, bindings,
    execution authorisations and the audit trail, with their keys, unique columns and
    foreign keys, and every operation of [SqliteConnectionRepository].

    A row holds the value it was written from: its JSON and identity columns are read
    back as they were written.  The two switches that make the next audit or the next
    onboarding fail belong to the repository and not to the database, so a rollback
    does not restore them.  An operation that is not in a transaction of the source is
    one statement. *)
From S2P Require Import Prelude ConnectionModel RiskStore.

(** ** Errors and tables *)

Module Repo.
(** What [Persistence] reports: an error of the database or an injected one. *)
Inductive fault := Database (e : SqliteError) | Injected (what : string).

Inductive RepositoryError :=
| Persistence (why : fault)
| NotFound
| IdentityMismatch
| StaleAuthorizationRevision
| Corrupt (what : string).
End Repo.
Notation RepositoryError := Repo.RepositoryError.

Record RoleRow := { ro_id : string; ro_name : string }.

Record Tables := {
  tb_users : list User;
  tb_roles : list RoleRow;
  tb_role_permissions : list (string * Permission);
  tb_user_roles : list (string * string);
  tb_bootstrap : option (Z * string);
  tb_connections : list BrokerConnection;
  tb_accounts : list BrokerAccount;
  tb_bindings : list BrokerAccountBinding;
  tb_authorizations : list ExecutionAuthorization;
  tb_audit : list AuditRecord;
}.

Definition empty_tables : Tables := {|
  tb_users := []; tb_roles := []; tb_role_permissions := []; tb_user_roles := []; tb_bootstrap := None;
  tb_connections := []; tb_accounts := []; tb_bindings := []; tb_authorizations := []; tb_audit := [] |}.

Definition put_users v t := {|
  tb_users := v; tb_roles := tb_roles t; tb_role_permissions := tb_role_permissions t;
  tb_user_roles := tb_user_roles t; tb_bootstrap := tb_bootstrap t; tb_connections := tb_connections t;
  tb_accounts := tb_accounts t; tb_bindings := tb_bindings t; tb_authorizations := tb_authorizations t;
  tb_audit := tb_audit t |}.
Definition put_roles v p t := {|
  tb_users := tb_users t; tb_roles := v; tb_role_permissions := p;
  tb_user_roles := tb_user_roles t; tb_bootstrap := tb_bootstrap t; tb_connections := tb_connections t;
  tb_accounts := tb_accounts t; tb_bindings := tb_bindings t; tb_authorizations := tb_authorizations t;
  tb_audit := tb_audit t |}.
Definition put_grants v t := {|
  tb_users := tb_users t; tb_roles := tb_roles t; tb_role_permissions := tb_role_permissions t;
  tb_user_roles := v; tb_bootstrap := tb_bootstrap t; tb_connections := tb_connections t;
  tb_accounts := tb_accounts t; tb_bindings := tb_bindings t; tb_authorizations := tb_authorizations t;
  tb_audit := tb_audit t |}.
Definition put_bootstrap v t := {|
  tb_users := tb_users t; tb_roles := tb_roles t; tb_role_permissions := tb_role_permissions t;
  tb_user_roles := tb_user_roles t; tb_bootstrap := v; tb_connections := tb_connections t;
  tb_accounts := tb_accounts t; tb_bindings := tb_bindings t; tb_authorizations := tb_authorizations t;
  tb_audit := tb_audit t |}.
Definition put_connections v t := {|
  tb_users := tb_users t; tb_roles := tb_roles t; tb_role_permissions := tb_role_permissions t;
  tb_user_roles := tb_user_roles t; tb_bootstrap := tb_bootstrap t; tb_connections := v;
  tb_accounts := tb_accounts t; tb_bindings := tb_bindings t; tb_authorizations := tb_authorizations t;
  tb_audit := tb_audit t |}.
Definition put_accounts v t := {|
  tb_users := tb_users t; tb_roles := tb_roles t; tb_role_permissions := tb_role_permissions t;
  tb_user_roles := tb_user_roles t; tb_bootstrap := tb_bootstrap t; tb_connections := tb_connections t;
  tb_accounts := v; tb_bindings := tb_bindings t; tb_authorizations := tb_authorizations t;
  tb_audit := tb_audit t |}.
Definition put_bindings v t := {|
  tb_users := tb_users t; tb_roles := tb_roles t; tb_role_permissions := tb_role_permissions t;
  tb_user_roles := tb_user_roles t; tb_bootstrap := tb_bootstrap t; tb_connections := tb_connections t;
  tb_accounts := tb_accounts t; tb_bindings := v; tb_authorizations := tb_authorizations t;
  tb_audit := tb_audit t |}.
Definition put_authorizations v t := {|
  tb_users := tb_users t; tb_roles := tb_roles t; tb_role_permissions := tb_role_permissions t;
  tb_user_roles := tb_user_roles t; tb_bootstrap := tb_bootstrap t; tb_connections := tb_connections t;
  tb_accounts := tb_accounts t; tb_bindings := tb_bindings t; tb_authorizations := v;
  tb_audit := tb_audit t |}.
Definition put_audit v t := {|
  tb_users := tb_users t; tb_roles := tb_roles t; tb_role_permissions := tb_role_permissions t;
  tb_user_roles := tb_user_roles t; tb_bootstrap := tb_bootstrap t; tb_connections := tb_connections t;
  tb_accounts := tb_accounts t; tb_bindings := tb_bindings t; tb_authorizations := tb_authorizations t;
  tb_audit := v |}.

Notation tx A := (st Tables RepositoryError A).

Definition sqlite_fault {A} (e : SqliteError) : result RepositoryError A :=
  Err (Repo.Persistence (Repo.Database e)).

(** A constraint of a statement. *)
Definition holding (ok : bool) : tx () :=
  if ok then st_ret tt else st_lift (sqlite_fault ConstraintViolation).

(** A [u64] as a column. *)
Definition bind_u64 (v : Z) : tx Z :=
  st_lift (ok_or (checked I64 v) (Repo.Persistence (Repo.Database ToSqlConversionFailure))).

Definition user_exists (id : string) (t : Tables) : bool := existsb (by_key us_id id) (tb_users t).

(** ** Users and roles *)

(** [INSERT ... ON CONFLICT ... DO UPDATE]. *)
Definition upsert {R K} `{!EqDecision K} (key : R → K) (merge : R → R → R) (row : R) (l : list R) : list R :=
  if existsb (by_key key (key row)) l
  then update_where (by_key key (key row)) (λ old, merge old row) l else l ++ [row].

Definition write_user (user : User) : tx () :=
  let! t := st_get in st_put (put_users (upsert us_id (λ _ new, new) user (tb_users t)) t).

Definition write_permission (role_id : string) (p : Permission) : tx () :=
  let! t := st_get in
  holding (negb (bool_decide ((role_id, p) ∈ tb_role_permissions t))) ;;;
  st_put (put_roles (tb_roles t) (tb_role_permissions t ++ [(role_id, p)]) t).

Fixpoint each {S E A} (f : A → st S E ()) (l : list A) : st S E () :=
  match l with [] => st_ret tt | x :: l' => f x ;;; each f l' end.

Definition write_role (role : Role) : tx () :=
  let! t := st_get in
  holding (negb (existsb (λ r, bool_decide (ro_name r = rl_name role) && negb (bool_decide (ro_id r = rl_id role)))
                   (tb_roles t))) ;;;
  st_put (put_roles (upsert ro_id (λ _ new, new) {| ro_id := rl_id role; ro_name := rl_name role |} (tb_roles t))
            (List.filter (λ rp, negb (bool_decide (rp.1 = rl_id role))) (tb_role_permissions t)) t) ;;;
  each (write_permission (rl_id role)) (rl_permissions role).

(** [INSERT OR IGNORE] ignores a duplicate, not a missing parent. *)
Definition write_grant (user_id role_id : string) : tx () :=
  let! t := st_get in
  if bool_decide ((user_id, role_id) ∈ tb_user_roles t) then st_ret tt
  else
    holding (user_exists user_id t && existsb (by_key ro_id role_id) (tb_roles t)) ;;;
    st_put (put_grants (tb_user_roles t ++ [(user_id, role_id)]) t).

Definition append_audit_row (record : AuditRecord) : tx () :=
  let! t := st_get in
  holding (user_exists (aud_actor record) t) ;;; st_put (put_audit (tb_audit t ++ [record]) t).

(** ** Connections *)

(** The columns [UPDATE] sets; the others keep their values. *)
Definition overwrite (old value : BrokerConnection) : BrokerConnection := {|
  bc_id := bc_id old; bc_provider := bc_provider old; bc_environment := bc_environment old;
  bc_credential_ref := bc_credential_ref old; bc_label := bc_label value;
  bc_credential_fingerprint := bc_credential_fingerprint value;
  bc_credential_status := bc_credential_status value; bc_credential_class := bc_credential_class value;
  bc_credential_scope := bc_credential_scope value; bc_enabled := bc_enabled value;
  bc_health := bc_health value; bc_capabilities := bc_capabilities value;
  bc_created_at_unix_ms := bc_created_at_unix_ms old; bc_updated_at_unix_ms := bc_updated_at_unix_ms value |}.

Definition write_connection (value : BrokerConnection) (update : bool) : tx () :=
  let! t := st_get in
  if update then
    if existsb (by_key bc_id (bc_id value)) (tb_connections t)
    then st_put (put_connections (update_where (by_key bc_id (bc_id value)) (λ old, overwrite old value)
                                    (tb_connections t)) t)
    else st_fail Repo.NotFound
  else
    holding (negb (existsb (λ c, by_key bc_id (bc_id value) c
                                 || by_key bc_credential_ref (bc_credential_ref value) c) (tb_connections t))) ;;;
    st_put (put_connections (tb_connections t ++ [value]) t).

(** The row of an account. *)
Definition account_key (a : BrokerAccount) : string * string := (ac_connection_id a, ac_provider_account_id a).
Definition binding_key (b : BrokerAccountBinding) : string * string :=
  (bb_connection_id b, bb_provider_account_id b).
Definition authorization_key (e : ExecutionAuthorization) : string * string :=
  (ea_connection_id e, ea_provider_account_id e).

Definition parent_account (key : string * string) (t : Tables) : bool :=
  existsb (by_key account_key key) (tb_accounts t).

Definition insert_account (connection_id : string) (a : BrokerAccount) : tx () :=
  if negb (bool_decide (ac_connection_id a = connection_id)) then st_fail Repo.IdentityMismatch
  else
    let! t := st_get in
    holding (negb (parent_account (account_key a) t) && existsb (by_key bc_id connection_id) (tb_connections t)) ;;;
    st_put (put_accounts (tb_accounts t ++ [a]) t).

Definition insert_authorization (connection_id : string) (e : ExecutionAuthorization) : tx () :=
  if negb (bool_decide (ea_connection_id e = connection_id)) then st_fail Repo.IdentityMismatch
  else
    let! _ := bind_u64 (ea_authorization_revision e) in
    let! t := st_get in
    holding (negb (existsb (by_key authorization_key (authorization_key e)) (tb_authorizations t))
             && parent_account (authorization_key e) t && user_exists (ea_changed_by e) t) ;;;
    st_put (put_authorizations (tb_authorizations t ++ [e]) t).

(** The update of an account that conflicts with a stored one. *)
Definition upsert_account (connection_id : string) (a : BrokerAccount) : tx () :=
  if negb (bool_decide (ac_connection_id a = connection_id)) then st_fail Repo.IdentityMismatch
  else
    let! t := st_get in
    holding (existsb (by_key bc_id connection_id) (tb_connections t)) ;;;
    st_put (put_accounts (upsert account_key (λ _ new, new) a (tb_accounts t)) t).

Definition set_accessible (v : bool) (a : BrokerAccount) : BrokerAccount := {|
  ac_connection_id := ac_connection_id a; ac_provider := ac_provider a; ac_environment := ac_environment a;
  ac_provider_account_id := ac_provider_account_id a; ac_display_name := ac_display_name a;
  ac_account_type := ac_account_type a; ac_status := ac_status a; ac_access_level := ac_access_level a;
  ac_opened_at_unix_ms := ac_opened_at_unix_ms a; ac_closed_at_unix_ms := ac_closed_at_unix_ms a;
  ac_accessible := v; ac_capabilities := ac_capabilities a;
  ac_discovered_at_unix_ms := ac_discovered_at_unix_ms a |}.

Definition replace_accounts_tx (connection_id : string) (accounts : list BrokerAccount) : tx () :=
  let! t := st_get in
  st_put (put_accounts (update_where (by_key ac_connection_id connection_id) (set_accessible false)
                          (tb_accounts t)) t) ;;;
  each (upsert_account connection_id) accounts.

(** ** Bindings and authorisations *)

Definition write_binding (b : BrokerAccountBinding) : tx () :=
  let! t := st_get in
  holding (negb (existsb (λ x, by_key bb_id (bb_id b) x || by_key bb_vox_account_id (bb_vox_account_id b) x
                               || by_key binding_key (binding_key b) x) (tb_bindings t))
           && parent_account (binding_key b) t) ;;;
  st_put (put_bindings (tb_bindings t ++ [b]) t).

Definition write_delete_binding (binding_id : string) : tx () :=
  let! t := st_get in
  if existsb (by_key bb_id binding_id) (tb_bindings t)
  then st_put (put_bindings (List.filter (λ b, negb (by_key bb_id binding_id b)) (tb_bindings t)) t)
  else st_fail Repo.NotFound.

Definition set_enabled (enabled : bool) (now : Z) (b : BrokerAccountBinding) : BrokerAccountBinding := {|
  bb_id := bb_id b; bb_connection_id := bb_connection_id b; bb_provider := bb_provider b;
  bb_environment := bb_environment b; bb_provider_account_id := bb_provider_account_id b;
  bb_vox_account_id := bb_vox_account_id b; bb_enabled := enabled;
  bb_created_at_unix_ms := bb_created_at_unix_ms b; bb_updated_at_unix_ms := now |}.

Definition write_binding_enabled (binding_id : string) (enabled : bool) (now : Z) : tx () :=
  let! t := st_get in
  if existsb (by_key bb_id binding_id) (tb_bindings t)
  then st_put (put_bindings (update_where (by_key bb_id binding_id) (set_enabled enabled now) (tb_bindings t)) t)
  else st_fail Repo.NotFound.

Definition write_authorization (e : ExecutionAuthorization) : tx () :=
  let! _ := bind_u64 (ea_authorization_revision e) in
  let! t := st_get in
  holding (parent_account (authorization_key e) t && user_exists (ea_changed_by e) t) ;;;
  st_put (put_authorizations (upsert authorization_key (λ _ new, new) e (tb_authorizations t)) t).

(** The update is made before its revision is compared, and is undone by the rollback. *)
Definition write_authorization_cas (e : ExecutionAuthorization) (expected_revision : Z) : tx () :=
  let! _ := bind_u64 (ea_authorization_revision e) in
  let! _ := bind_u64 expected_revision in
  let! t := st_get in
  let matches x := by_key authorization_key (authorization_key e) x
                   && (ea_authorization_revision x =? expected_revision) in
  let changed := existsb matches (tb_authorizations t) in
  holding (negb changed || user_exists (ea_changed_by e) t) ;;;
  st_put (put_authorizations (update_where matches (λ _, e) (tb_authorizations t)) t) ;;;
  if negb changed || negb (ea_authorization_revision e =? saturating_add U64 expected_revision 1)
  then st_fail Repo.StaleAuthorizationRevision else st_ret tt.

Definition advance (actor : string) (now : Z) (e : ExecutionAuthorization) : ExecutionAuthorization := {|
  ea_connection_id := ea_connection_id e; ea_provider_account_id := ea_provider_account_id e;
  ea_mode := ea_mode e; ea_authorization_revision := ea_authorization_revision e + 1;
  ea_changed_by := actor; ea_changed_at_unix_ms := now |}.

(** A revision that leaves the range of the column becomes a real number, which the
    STRICT table refuses. *)
Definition invalidate_tx (connection_id actor : string) (now : Z) : tx () :=
  let! t := st_get in
  let mine := by_key ea_connection_id connection_id in
  let rows := List.filter mine (tb_authorizations t) in
  holding (forallb (λ e, fits I64 (ea_authorization_revision e + 1)) rows
           && (match rows with [] => true | _ => user_exists actor t end)) ;;;
  st_put (put_authorizations (update_where mine (advance actor now) (tb_authorizations t)) t).

(** Deleting a connection deletes its accounts, and with them their bindings and
    authorisations. *)
Definition cascade_delete (id : string) (t : Tables) : Tables :=
  let keep {R} (f : R → string) (l : list R) := List.filter (λ r, negb (by_key f id r)) l in
  put_authorizations (keep ea_connection_id (tb_authorizations t))
    (put_bindings (keep bb_connection_id (tb_bindings t))
       (put_accounts (keep ac_connection_id (tb_accounts t))
          (put_connections (keep bc_id (tb_connections t)) t))).

Definition delete_row (id : string) : tx () :=
  let! t := st_get in
  if existsb (by_key bc_id id) (tb_connections t) then st_put (cascade_delete id t) else st_fail Repo.NotFound.

(** ** The repository *)

Record Repository := {
  re_tables : Tables;
  re_fail_next_audit : bool;
  re_fail_next_onboarding : bool;
}.

Notation repo A := (st Repository RepositoryError A).

Definition with_tables (t : Tables) (r : Repository) : Repository := {|
  re_tables := t; re_fail_next_audit := re_fail_next_audit r;
  re_fail_next_onboarding := re_fail_next_onboarding r |}.
Definition with_audit_switch (v : bool) (r : Repository) : Repository := {|
  re_tables := re_tables r; re_fail_next_audit := v; re_fail_next_onboarding := re_fail_next_onboarding r |}.
Definition with_onboarding_switch (v : bool) (r : Repository) : Repository := {|
  re_tables := re_tables r; re_fail_next_audit := re_fail_next_audit r; re_fail_next_onboarding := v |}.

Definition fail_next_audit : repo () := λ r, (with_audit_switch true r, Ok tt).
Definition fail_next_onboarding_finalize : repo () := λ r, (with_onboarding_switch true r, Ok tt).

(** A transaction, or a single statement: all of its writes or none. *)
Definition commit {A} (m : tx A) : repo A := λ r,
  match m (re_tables r) with
  | (t, Ok a) => (with_tables t r, Ok a)
  | (_, Err e) => (r, Err e)
  end.

(** [mutate_with_audits]: the switch is cleared when it is tested. *)
Definition mutate_with_audits (audits : list AuditRecord) (mutation : tx ()) : repo () := λ r,
  match mutation (re_tables r) with
  | (_, Err e) => (r, Err e)
  | (t, Ok _) =>
      if re_fail_next_audit r
      then (with_audit_switch false r, Err (Repo.Persistence (Repo.Injected "injected audit failure")))
      else match each append_audit_row audits t with
           | (_, Err e) => (r, Err e)
           | (t', Ok _) => (with_tables t' r, Ok tt)
           end
  end.

Definition read {A} (q : Tables → A) : repo A := λ r, (r, Ok (q (re_tables r))).

Definition provision_bootstrap_identity (user : User) (role : Role) (provisioning : list AuditRecord)
    (adoption : AuditRecord) : repo bool := λ r,
  let t := re_tables r in
  if bool_decide (is_Some (tb_bootstrap t)) then (r, Ok false)
  else
    let user_known := user_exists (us_id user) t in
    let role_known := existsb (λ x, bool_decide (ro_id x = rl_id role) || bool_decide (ro_name x = rl_name role))
                        (tb_roles t) in
    let adopting := user_known || role_known in
    let write := (if adopting then st_ret tt
                  else write_user user ;;; write_role role ;;; write_grant (us_id user) (rl_id role)) ;;;
                 (let! t := st_get in
                  st_put (put_bootstrap
                    (Some (aud_occurred_at_unix_ms adoption, aud_correlation_id adoption)) t)) in
    match write t with
    | (_, Err e) => (r, Err e)
    | (t', Ok _) =>
        if re_fail_next_audit r
        then (with_audit_switch false r, Err (Repo.Persistence (Repo.Injected "injected audit failure")))
        else match each append_audit_row
                     (if adopting then (if user_known then [adoption] else []) else provisioning) t' with
             | (_, Err e) => (r, Err e)
             | (t'', Ok _) => (with_tables t'' r, Ok (negb adopting))
             end
    end.

Definition find_user (id : string) : repo (option User) :=
  read (λ t, List.find (by_key us_id id) (tb_users t)).
Definition put_user (user : User) : repo () := commit (write_user user).
Definition put_user_with_audit (user : User) (audit : AuditRecord) : repo () :=
  mutate_with_audits [audit] (write_user user).
Definition put_role (role : Role) : repo () := commit (write_role role).
Definition put_role_with_audit (role : Role) (audit : AuditRecord) : repo () :=
  mutate_with_audits [audit] (write_role role).
Definition grant_role_row (user_id role_id : string) : repo () := commit (write_grant user_id role_id).
Definition grant_role_with_audit (user_id role_id : string) (audit : AuditRecord) : repo () :=
  mutate_with_audits [audit] (write_grant user_id role_id).

(** The join of the grants with the permissions of their roles, for an enabled user. *)
Definition permissions_of (user_id : string) (t : Tables) : list Permission :=
  if existsb (λ u, by_key us_id user_id u && us_enabled u) (tb_users t)
  then flat_map (λ ur, snd <$> List.filter (λ rp, bool_decide (rp.1 = ur.2)) (tb_role_permissions t))
         (List.filter (λ ur, bool_decide (ur.1 = user_id)) (tb_user_roles t))
  else [].
Definition permissions (user_id : string) : repo (list Permission) := read (permissions_of user_id).

Definition insert_connection (c : BrokerConnection) : repo () := commit (write_connection c false).
Definition insert_connection_with_audit (c : BrokerConnection) (audit : AuditRecord) : repo () :=
  mutate_with_audits [audit] (write_connection c false).

Definition insert_onboarding (c : BrokerConnection) (accounts : list BrokerAccount)
    (authorizations : list ExecutionAuthorization) (audits : list AuditRecord) : repo () := λ r,
  if re_fail_next_onboarding r
  then (with_onboarding_switch false r,
        Err (Repo.Persistence (Repo.Injected "injected onboarding finalization failure")))
  else commit (write_connection c true ;;; each (insert_account (bc_id c)) accounts ;;;
               each (insert_authorization (bc_id c)) authorizations ;;; each append_audit_row audits) r.

Definition update_connection (c : BrokerConnection) : repo () := commit (write_connection c true).
Definition update_connection_with_audits (c : BrokerConnection) (audits : list AuditRecord) : repo () :=
  mutate_with_audits audits (write_connection c true).
Definition update_connection_with_audit (c : BrokerConnection) (audit : AuditRecord) : repo () :=
  update_connection_with_audits c [audit].

Definition find_connection (id : string) (t : Tables) : option BrokerConnection :=
  List.find (by_key bc_id id) (tb_connections t).
Definition connection_by_id (id : string) : repo (option BrokerConnection) := read (find_connection id).
Definition list_connections : repo (list BrokerConnection) :=
  read (λ t, order_by (λ a b, bc_created_at_unix_ms a <=? bc_created_at_unix_ms b) (tb_connections t)).

Definition replace_accounts (connection_id : string) (accounts : list BrokerAccount) : repo () :=
  commit (replace_accounts_tx connection_id accounts).
Definition accounts_of (connection_id : string) (t : Tables) : list BrokerAccount :=
  order_by (λ a b, String.leb (ac_provider_account_id a) (ac_provider_account_id b))
    (List.filter (by_key ac_connection_id connection_id) (tb_accounts t)).
Definition accounts (connection_id : string) : repo (list BrokerAccount) := read (accounts_of connection_id).

Definition put_binding (b : BrokerAccountBinding) : repo () := commit (write_binding b).
Definition put_binding_with_audit (b : BrokerAccountBinding) (audit : AuditRecord) : repo () :=
  mutate_with_audits [audit] (write_binding b).
Definition delete_binding (id : string) : repo () := commit (write_delete_binding id).
Definition delete_binding_with_audit (id : string) (audit : AuditRecord) : repo () :=
  mutate_with_audits [audit] (write_delete_binding id).
Definition set_binding_enabled (id : string) (enabled : bool) (now : Z) : repo () :=
  commit (write_binding_enabled id enabled now).
Definition set_binding_enabled_with_audit (id : string) (enabled : bool) (now : Z) (audit : AuditRecord)
  : repo () := mutate_with_audits [audit] (write_binding_enabled id enabled now).
Definition bindings_of (connection_id : string) (t : Tables) : list BrokerAccountBinding :=
  order_by (λ a b, bb_created_at_unix_ms a <=? bb_created_at_unix_ms b)
    (List.filter (by_key bb_connection_id connection_id) (tb_bindings t)).
Definition bindings (connection_id : string) : repo (list BrokerAccountBinding) :=
  read (bindings_of connection_id).

Definition find_authorization (connection_id provider_account_id : string) (t : Tables)
  : option ExecutionAuthorization :=
  List.find (by_key authorization_key (connection_id, provider_account_id)) (tb_authorizations t).
Definition authorization (connection_id provider_account_id : string) : repo (option ExecutionAuthorization) :=
  read (find_authorization connection_id provider_account_id).
Definition put_authorization (e : ExecutionAuthorization) : repo () := commit (write_authorization e).
Definition put_authorization_with_audit (e : ExecutionAuthorization) (expected_revision : Z)
    (audit : AuditRecord) : repo () :=
  mutate_with_audits [audit] (write_authorization_cas e expected_revision).
Definition invalidate_connection_authorizations_with_audit (connection_id actor : string) (now : Z)
    (audit : AuditRecord) : repo () :=
  mutate_with_audits [audit] (invalidate_tx connection_id actor now).

Definition append_audit (record : AuditRecord) : repo () := commit (append_audit_row record).
Definition audit_records : repo (list AuditRecord) := read tb_audit.

(** A plain delete does not ask whether there was a row. *)
Definition delete_connection_row (id : string) : repo () :=
  commit (let! t := st_get in st_put (cascade_delete id t)).
Definition delete_connection_with_audit (id : string) (audit : AuditRecord) : repo () :=
  commit (append_audit_row audit ;;; delete_row id).
Definition begin_connection_delete_with_audit (c : BrokerConnection) (audit : AuditRecord) : repo () :=
  update_connection_with_audit c audit.
Definition finalize_connection_delete (id : string) (audit : AuditRecord) : repo () :=
  mutate_with_audits [audit] (delete_row id).
