(* ===== verification/ConnectionService.v ===== *)
(** * Connection management: [crates/vox-connections/src/service.rs]

    Onboarding, revalidation, rotation, disabling and deletion of broker connections,
    bindings of accounts, execution authorisations with their revisions, the access
    checks a runtime session passes, and the recovery of the lifecycle at start-up.

    The service is written against its three traits: the repository, the secret store
    and the provider are the classes [ConnectionRepository], [SecretStore] and
    [BrokerProviderPort]; [ConnectionSafety.v] instantiates the first two with the
    SQLite repository and the encrypted store.  Fresh uuids are the class [Uuids].  A
    method runs as one sequence of calls. *)
From S2P Require Import Prelude ConnectionModel RiskStore ConnectionRepository SecretStore.

(** ** Data *)

Record SecurityContext := { sx_actor : string; sx_correlation_id : string; sx_now_unix_ms : Z }.

Definition SecurityContext_new (actor correlation_id : string) (now_unix_ms : Z)
  : result Meta.ModelError SecurityContext :=
  let? correlation_id := safe_text correlation_id "correlation_id" 256 in
  Ok {| sx_actor := actor; sx_correlation_id := correlation_id; sx_now_unix_ms := now_unix_ms |}.

Record CreateConnectionRequest := {
  cq_provider : string;
  cq_environment : BrokerEnvironment;
  cq_label : string;
}.

Record ProviderAccountFact := {
  fa_provider_account_id : string;
  fa_display_name : option string;
  fa_account_type : BrokerAccountType;
  fa_status : BrokerAccountStatus;
  fa_access_level : BrokerAccessLevel;
  fa_opened_at_unix_ms : option Z;
  fa_closed_at_unix_ms : option Z;
  fa_accessible : bool;
  fa_capabilities : list ConnectionCapability;
}.

Record ProviderDiscovery := {
  di_credential_class : CredentialClass;
  di_credential_scope : CredentialScope;
  di_connection_capabilities : list ConnectionCapability;
  di_accounts : list ProviderAccountFact;
}.

Module Kind.
Inductive ProviderErrorKind :=
| InvalidCredential | InsufficientPermission | WrongEnvironment | ProviderUnavailable | ExpiredOrInactive
| AccountAccessChanged | UnsupportedProvider.
#[global] Instance ProviderErrorKind_eq_dec : EqDecision ProviderErrorKind.
Proof. solve_decision. Defined.
End Kind.
Notation ProviderErrorKind := Kind.ProviderErrorKind.

Record ProviderError := { pe_kind : ProviderErrorKind; pe_safe_message : string }.

Definition ProviderError_new (kind : ProviderErrorKind) (message : string) : ProviderError := {|
  pe_kind := kind;
  pe_safe_message := match safe_text message "provider_error" 256 with
                     | Ok v => v
                     | Err _ => "provider validation failed"
                     end |}.

Record ReadAccessGrant := {
  rg_target : AccountTarget;
  rg_credential_ref : string;
  rg_capabilities : list ConnectionCapability;
}.

Record ExecutionAccessGrant := {
  xg_target : AccountTarget;
  xg_credential_ref : string;
  xg_capabilities : list ConnectionCapability;
  xg_mode : ExecutionAuthorizationMode;
  xg_authorization_revision : Z;
}.

Record CredentialRotationOutcome := { rt_connection : BrokerConnection; rt_reconnect_required : bool }.

Record LifecycleRecoveryReport := {
  lr_onboarding_finalized : Z;
  lr_onboarding_disabled : Z;
  lr_deletes_finalized : Z;
  lr_disables_finalized : Z;
  lr_orphan_secrets_quarantined : Z;
}.

Definition empty_report : LifecycleRecoveryReport := {|
  lr_onboarding_finalized := 0; lr_onboarding_disabled := 0; lr_deletes_finalized := 0;
  lr_disables_finalized := 0; lr_orphan_secrets_quarantined := 0 |}.

(** Add to the five counters. *)
Definition count (finalized disabled deletes disables orphans : Z) (r : LifecycleRecoveryReport)
  : LifecycleRecoveryReport := {|
  lr_onboarding_finalized := lr_onboarding_finalized r + finalized;
  lr_onboarding_disabled := lr_onboarding_disabled r + disabled;
  lr_deletes_finalized := lr_deletes_finalized r + deletes;
  lr_disables_finalized := lr_disables_finalized r + disables;
  lr_orphan_secrets_quarantined := lr_orphan_secrets_quarantined r + orphans |}.

Record BoundTarget := {
  bt_connection : BrokerConnection;
  bt_target : AccountTarget;
  bt_capabilities : list ConnectionCapability;
}.

Module Svc.
Inductive ServiceError :=
| PermissionDenied (p : Permission)
| ConnectionNotFound
| AccountNotFound
| AccountUnavailable
| ConnectionDisabled
| ConnectionUnavailable
| DisableBeforeDelete
| AccountBindingMismatch
| ProviderDoesNotAllowProductionOrders
| ExecutionUnauthorized
| StaleExecutionAuthorization
| AuthorizationRevisionOverflow
| CredentialRotationCompensationFailed
| DuplicateProviderAccount
| Model (e : Meta.ModelError)
| Repository (e : RepositoryError)
| SecretStore (e : SecretStoreError)
| Provider (e : ProviderError).
End Svc.
Notation ServiceError := Svc.ServiceError.

(** ** Traits *)

Class ConnectionRepository (R : Type) := {
  cn_put_role_with_audit : Role → AuditRecord → st R RepositoryError ();
  cn_grant_role_with_audit : string → string → AuditRecord → st R RepositoryError ();
  cn_permissions : string → st R RepositoryError (list Permission);
  cn_insert_connection_with_audit : BrokerConnection → AuditRecord → st R RepositoryError ();
  cn_insert_onboarding : BrokerConnection → list BrokerAccount → list ExecutionAuthorization →
    list AuditRecord → st R RepositoryError ();
  cn_update_connection : BrokerConnection → st R RepositoryError ();
  cn_update_connection_with_audit : BrokerConnection → AuditRecord → st R RepositoryError ();
  cn_update_connection_with_audits : BrokerConnection → list AuditRecord → st R RepositoryError ();
  cn_connection : string → st R RepositoryError (option BrokerConnection);
  cn_list_connections : st R RepositoryError (list BrokerConnection);
  cn_replace_accounts : string → list BrokerAccount → st R RepositoryError ();
  cn_accounts : string → st R RepositoryError (list BrokerAccount);
  cn_put_binding_with_audit : BrokerAccountBinding → AuditRecord → st R RepositoryError ();
  cn_set_binding_enabled_with_audit : string → bool → Z → AuditRecord → st R RepositoryError ();
  cn_delete_binding_with_audit : string → AuditRecord → st R RepositoryError ();
  cn_bindings : string → st R RepositoryError (list BrokerAccountBinding);
  cn_authorization : string → string → st R RepositoryError (option ExecutionAuthorization);
  cn_put_authorization_with_audit : ExecutionAuthorization → Z → AuditRecord → st R RepositoryError ();
  cn_invalidate_connection_authorizations_with_audit :
    string → string → Z → AuditRecord → st R RepositoryError ();
  cn_append_audit : AuditRecord → st R RepositoryError ();
  cn_begin_connection_delete_with_audit : BrokerConnection → AuditRecord → st R RepositoryError ();
  cn_finalize_connection_delete : string → AuditRecord → st R RepositoryError ();
}.

Class SecretStore (S : Type) := {
  se_put : string → CredentialContext → string → Z → st S SecretStoreError string;
  se_get : string → CredentialContext → st S SecretStoreError string;
  se_rotate : string → CredentialContext → string → Z → st S SecretStoreError string;
  se_disable : string → st S SecretStoreError ();
  se_delete : string → st S SecretStoreError ();
  se_metadata : st S SecretStoreError (list SecretMetadata);
}.

Class BrokerProviderPort (P : Type) := {
  bp_validate_and_discover : string → BrokerEnvironment → string → st P ProviderError ProviderDiscovery;
}.

Class BrokerCredentialClientFactory (ReadClient ExecutionClient : Type) := {
  build_read_client : AccountTarget → string → result ProviderError ReadClient;
  build_execution_client : AccountTarget → string → Z → result ProviderError ExecutionClient;
}.

Class Uuids (E : Type) := { next_uuid : E → E * string }.

(** ** Pure helpers *)

Fixpoint check_facts (seen : list string) (l : list ProviderAccountFact) : result ServiceError () :=
  match l with
  | [] => Ok tt
  | a :: l' =>
      let? _ := map_err Svc.Model (safe_text (fa_provider_account_id a) "provider_account_id" 256) in
      if bool_decide (fa_provider_account_id a ∈ seen) then Err Svc.DuplicateProviderAccount
      else
        let? _ := map_err Svc.Model (match fa_display_name a with
          | Some name => let? _ := safe_text name "account_display_name" 256 in Ok tt
          | None => Ok tt
          end) in
        check_facts (fa_provider_account_id a :: seen) l'
  end.

Definition validate_discovery (d : ProviderDiscovery) : result ServiceError () :=
  check_facts [] (di_accounts d).

Definition materialize_account (c : BrokerConnection) (now : Z) (a : ProviderAccountFact) : BrokerAccount := {|
  ac_connection_id := bc_id c; ac_provider := bc_provider c; ac_environment := bc_environment c;
  ac_provider_account_id := fa_provider_account_id a; ac_display_name := fa_display_name a;
  ac_account_type := fa_account_type a; ac_status := fa_status a; ac_access_level := fa_access_level a;
  ac_opened_at_unix_ms := fa_opened_at_unix_ms a; ac_closed_at_unix_ms := fa_closed_at_unix_ms a;
  ac_accessible := fa_accessible a; ac_capabilities := fa_capabilities a; ac_discovered_at_unix_ms := now |}.
Definition materialize_accounts (c : BrokerConnection) (l : list ProviderAccountFact) (now : Z)
  : list BrokerAccount := materialize_account c now <$> l.

Definition same_account (a b : BrokerAccount) : bool :=
  bool_decide (ac_provider_account_id a = ac_provider_account_id b).

Definition access_removed (previous current : list BrokerAccount) : bool :=
  existsb (λ old, negb (existsb (λ new, same_account new old && ac_accessible new) current))
    (List.filter ac_accessible previous).

Definition disappeared (a : BrokerAccount) : BrokerAccount := {|
  ac_connection_id := ac_connection_id a; ac_provider := ac_provider a; ac_environment := ac_environment a;
  ac_provider_account_id := ac_provider_account_id a; ac_display_name := ac_display_name a;
  ac_account_type := ac_account_type a; ac_status := ac_status a; ac_access_level := ac_access_level a;
  ac_opened_at_unix_ms := ac_opened_at_unix_ms a; ac_closed_at_unix_ms := ac_closed_at_unix_ms a;
  ac_accessible := false; ac_capabilities := []; ac_discovered_at_unix_ms := ac_discovered_at_unix_ms a |}.

Definition with_disappeared_accounts (previous current : list BrokerAccount) : list BrokerAccount :=
  current ++ (disappeared <$>
    List.filter (λ old, negb (existsb (λ new, same_account new old) current)) previous).

Definition credential_context (c : BrokerConnection) : CredentialContext :=
  {| cx_provider := bc_provider c; cx_environment := bc_environment c |}.

Definition provider_error_detail (k : ProviderErrorKind) : string :=
  match k with
  | Kind.InvalidCredential => "provider rejected credential"
  | Kind.InsufficientPermission => "provider permission denied"
  | Kind.WrongEnvironment => "credential environment mismatch"
  | Kind.ProviderUnavailable => "provider unavailable"
  | Kind.ExpiredOrInactive => "credential expired or inactive"
  | Kind.AccountAccessChanged => "account access changed"
  | Kind.UnsupportedProvider => "provider unsupported"
  end.

Definition health_from_provider_error (e : ProviderError) (provider : string) (environment : BrokerEnvironment)
    (now : Z) : ConnectionHealth := {|
  ch_state := match pe_kind e with
    | Kind.InvalidCredential | Kind.ExpiredOrInactive => HealthSt.InvalidCredential
    | Kind.InsufficientPermission => HealthSt.InsufficientPermission
    | Kind.AccountAccessChanged => HealthSt.AccountAccessChanged
    | Kind.WrongEnvironment | Kind.ProviderUnavailable | Kind.UnsupportedProvider => HealthSt.ProviderUnavailable
    end;
  ch_checked_at_unix_ms := Some now; ch_provider := provider; ch_environment := environment;
  ch_reason_code := match pe_kind e with
    | Kind.InvalidCredential => HealthWhy.InvalidCredential
    | Kind.ExpiredOrInactive => HealthWhy.ExpiredOrInactive
    | Kind.InsufficientPermission => HealthWhy.PermissionDenied
    | Kind.WrongEnvironment => HealthWhy.WrongEnvironment
    | Kind.ProviderUnavailable | Kind.UnsupportedProvider => HealthWhy.ProviderUnavailable
    | Kind.AccountAccessChanged => HealthWhy.AccountAccessChanged
    end;
  ch_safe_detail := Some (provider_error_detail (pe_kind e));
  ch_retryable := bool_decide (pe_kind e = Kind.ProviderUnavailable) |}.

Definition authorization_rank (m : ExecutionAuthorizationMode) : Z :=
  match m with Mode.Disabled => 0 | Mode.ManualAllowed => 1 | Mode.AutomatedAllowed => 2 end.

Definition execution_purpose_allowed (environment : BrokerEnvironment) (mode : ExecutionAuthorizationMode)
    (purpose : ExecutionPurpose) : bool :=
  match environment, purpose, mode with
  | Env.Sandbox, XPurpose.SandboxMutation, (Mode.ManualAllowed | Mode.AutomatedAllowed)
  | Env.Production, XPurpose.ProductionManual, (Mode.ManualAllowed | Mode.AutomatedAllowed)
  | Env.Production, XPurpose.ProductionAutomated, Mode.AutomatedAllowed => true
  | _, _, _ => false
  end.

Definition authorization_name (m : ExecutionAuthorizationMode) : string :=
  match m with
  | Mode.Disabled => "DISABLED"
  | Mode.ManualAllowed => "MANUAL_ALLOWED"
  | Mode.AutomatedAllowed => "AUTOMATED_ALLOWED"
  end.

Definition required_order_capability (e : BrokerEnvironment) : ConnectionCapability :=
  match e with
  | Env.Production => Cap.ProductionOrdersProviderAllowed
  | Env.Sandbox => Cap.SandboxOrders
  end.

Definition health_name (s : ConnectionHealthState) : string :=
  match s with
  | HealthSt.Unknown => "UNKNOWN"
  | HealthSt.Validating => "VALIDATING"
  | HealthSt.Healthy => "HEALTHY"
  | HealthSt.InvalidCredential => "INVALID_CREDENTIAL"
  | HealthSt.InsufficientPermission => "INSUFFICIENT_PERMISSION"
  | HealthSt.ProviderUnavailable => "PROVIDER_UNAVAILABLE"
  | HealthSt.AccountAccessChanged => "ACCOUNT_ACCESS_CHANGED"
  | HealthSt.Disabled => "DISABLED"
  end.

(** The provider can take orders for the account. *)
Definition orders_allowed (a : BrokerAccount) : bool :=
  ac_accessible a && bool_decide (required_order_capability (ac_environment a) ∈ ac_capabilities a).

Definition health_of (provider : string) (environment : BrokerEnvironment) (state : ConnectionHealthState)
    (now : Z) (reason : ConnectionHealthReason) (detail : option string) : ConnectionHealth := {|
  ch_state := state; ch_checked_at_unix_ms := Some now; ch_provider := provider; ch_environment := environment;
  ch_reason_code := reason; ch_safe_detail := detail; ch_retryable := false |}.

(** Health after a discovery. *)
Definition discovered_health (c : BrokerConnection) (access_changed : bool) (now : Z) : ConnectionHealth :=
  if access_changed
  then health_of (bc_provider c) (bc_environment c) HealthSt.AccountAccessChanged now
         HealthWhy.AccountAccessChanged None
  else health_of (bc_provider c) (bc_environment c) HealthSt.Healthy now HealthWhy.NoReason None.

(** Assignments to the fields of a connection. *)
Definition set_state (status : CredentialStatus) (enabled : bool) (health : ConnectionHealth) (now : Z)
    (c : BrokerConnection) : BrokerConnection := {|
  bc_id := bc_id c; bc_provider := bc_provider c; bc_environment := bc_environment c;
  bc_credential_ref := bc_credential_ref c; bc_label := bc_label c;
  bc_credential_fingerprint := bc_credential_fingerprint c; bc_credential_status := status;
  bc_credential_class := bc_credential_class c; bc_credential_scope := bc_credential_scope c;
  bc_enabled := enabled; bc_health := health; bc_capabilities := bc_capabilities c;
  bc_created_at_unix_ms := bc_created_at_unix_ms c; bc_updated_at_unix_ms := now |}.

Definition set_discovered (d : ProviderDiscovery) (c : BrokerConnection) : BrokerConnection := {|
  bc_id := bc_id c; bc_provider := bc_provider c; bc_environment := bc_environment c;
  bc_credential_ref := bc_credential_ref c; bc_label := bc_label c;
  bc_credential_fingerprint := bc_credential_fingerprint c; bc_credential_status := bc_credential_status c;
  bc_credential_class := di_credential_class d; bc_credential_scope := di_credential_scope d;
  bc_enabled := bc_enabled c; bc_health := bc_health c; bc_capabilities := di_connection_capabilities d;
  bc_created_at_unix_ms := bc_created_at_unix_ms c; bc_updated_at_unix_ms := bc_updated_at_unix_ms c |}.

Definition set_fingerprint (v : string) (c : BrokerConnection) : BrokerConnection := {|
  bc_id := bc_id c; bc_provider := bc_provider c; bc_environment := bc_environment c;
  bc_credential_ref := bc_credential_ref c; bc_label := bc_label c; bc_credential_fingerprint := v;
  bc_credential_status := bc_credential_status c; bc_credential_class := bc_credential_class c;
  bc_credential_scope := bc_credential_scope c; bc_enabled := bc_enabled c; bc_health := bc_health c;
  bc_capabilities := bc_capabilities c; bc_created_at_unix_ms := bc_created_at_unix_ms c;
  bc_updated_at_unix_ms := bc_updated_at_unix_ms c |}.

(** ** The service *)

Section service.
Context {R S P E : Type}.
Context `{CR : !ConnectionRepository R} `{SS : !SecretStore S} `{BP : !BrokerProviderPort P} `{UU : !Uuids E}.

Record Service := { sv_repository : R; sv_secrets : S; sv_provider : P; sv_uuids : E }.

Notation sv A := (st Service ServiceError A).

Definition put_repository (v : R) (s : Service) : Service := {|
  sv_repository := v; sv_secrets := sv_secrets s; sv_provider := sv_provider s; sv_uuids := sv_uuids s |}.
Definition put_secrets (v : S) (s : Service) : Service := {|
  sv_repository := sv_repository s; sv_secrets := v; sv_provider := sv_provider s; sv_uuids := sv_uuids s |}.
Definition put_provider (v : P) (s : Service) : Service := {|
  sv_repository := sv_repository s; sv_secrets := sv_secrets s; sv_provider := v; sv_uuids := sv_uuids s |}.
Definition put_uuids (v : E) (s : Service) : Service := {|
  sv_repository := sv_repository s; sv_secrets := sv_secrets s; sv_provider := sv_provider s; sv_uuids := v |}.

Definition try_repository {A} (m : st R RepositoryError A) : sv (result RepositoryError A) := λ s,
  let '(r, x) := m (sv_repository s) in (put_repository r s, Ok x).
Definition try_secrets {A} (m : st S SecretStoreError A) : sv (result SecretStoreError A) := λ s,
  let '(x, y) := m (sv_secrets s) in (put_secrets x s, Ok y).
Definition try_provider {A} (m : st P ProviderError A) : sv (result ProviderError A) := λ s,
  let '(x, y) := m (sv_provider s) in (put_provider x s, Ok y).

(** The [?] of a call, with the conversion of its error. *)
Definition on_repository {A} (m : st R RepositoryError A) : sv A :=
  let! r := try_repository m in st_lift (map_err Svc.Repository r).
Definition on_secrets {A} (m : st S SecretStoreError A) : sv A :=
  let! r := try_secrets m in st_lift (map_err Svc.SecretStore r).
Definition on_provider {A} (m : st P ProviderError A) : sv A :=
  let! r := try_provider m in st_lift (map_err Svc.Provider r).

Definition fresh_id (prefix : string) : sv string := λ s,
  let '(e, u) := next_uuid (sv_uuids s) in (put_uuids e s, Ok (new_id prefix u)).

(** A result inspected instead of propagated. *)
Definition attempt {A} (m : sv A) : sv (result ServiceError A) := λ s, let '(s', r) := m s in (s', Ok r).

Definition model {A} (r : result Meta.ModelError A) : sv A := st_lift (map_err Svc.Model r).

(** *** Guards *)

Definition audit_record (security : SecurityContext) (action target_ref : string)
    (previous_state new_state : option string) : sv AuditRecord :=
  let! previous_state := model (transpose ((λ v, safe_text v "audit_previous_state" 256) <$> previous_state)) in
  let! new_state := model (transpose ((λ v, safe_text v "audit_new_state" 256) <$> new_state)) in
  let! action := model (safe_text action "audit_action" 128) in
  let! target_ref := model (safe_text target_ref "audit_target" 256) in
  st_ret {| aud_actor := sx_actor security; aud_action := action; aud_target_ref := target_ref;
            aud_previous_state := previous_state; aud_new_state := new_state;
            aud_correlation_id := sx_correlation_id security;
            aud_occurred_at_unix_ms := sx_now_unix_ms security |}.

Definition audit (security : SecurityContext) (action target_ref : string)
    (previous_state new_state : option string) : sv () :=
  let! record := audit_record security action target_ref previous_state new_state in
  on_repository (cn_append_audit record).

Definition has (security : SecurityContext) (p : Permission) : sv bool :=
  let! l := on_repository (cn_permissions (sx_actor security)) in st_ret (bool_decide (p ∈ l)).

Definition require (security : SecurityContext) (p : Permission) : sv () :=
  let! ok := has security p in if ok then st_ret tt else st_fail (Svc.PermissionDenied p).

Definition connection (id : string) : sv BrokerConnection :=
  let! found := on_repository (cn_connection id) in st_lift (ok_or found Svc.ConnectionNotFound).

Definition find_account (provider_account_id : string) (l : list BrokerAccount) : option BrokerAccount :=
  List.find (by_key ac_provider_account_id provider_account_id) l.

Definition bound_healthy_target (connection_id provider_account_id vox_account_id : string) : sv BoundTarget :=
  let! c := connection connection_id in
  if negb (bc_enabled c) || negb (bool_decide (ch_state (bc_health c) = HealthSt.Healthy))
     || bool_decide (bc_credential_status c = Cred.PendingDelete)
  then st_fail Svc.ConnectionUnavailable
  else
    let! l := on_repository (cn_accounts connection_id) in
    let! a := st_lift (ok_or (find_account provider_account_id l) Svc.AccountNotFound) in
    if negb (ac_accessible a) then st_fail Svc.AccountUnavailable
    else
      let! bs := on_repository (cn_bindings connection_id) in
      if negb (existsb (λ b, bool_decide (bb_provider_account_id b = provider_account_id)
                             && bool_decide (bb_vox_account_id b = vox_account_id) && bb_enabled b) bs)
      then st_fail Svc.AccountBindingMismatch
      else st_ret {| bt_connection := c;
        bt_target := {| at_connection_id := connection_id; at_provider := ac_provider a;
                        at_environment := ac_environment a; at_provider_account_id := provider_account_id;
                        at_vox_account_id := vox_account_id |};
        bt_capabilities := ac_capabilities a |}.

Definition bound_vox_account (connection_id provider_account_id : string) : sv string :=
  let! bs := on_repository (cn_bindings connection_id) in
  st_lift (ok_or (bb_vox_account_id <$> List.find (λ b,
    bool_decide (bb_provider_account_id b = provider_account_id) && bb_enabled b) bs) Svc.AccountBindingMismatch).

(** The disjunction stops at the first permission the actor has. *)
Definition may_lower (security : SecurityContext) : sv bool :=
  let! halt := has security Perm.EmergencyHalt in
  if halt then st_ret true
  else
    let! disable := has security Perm.DisableDeleteConnection in
    if disable then st_ret true else has security Perm.SecurityAdmin.

Definition required_permission (environment : BrokerEnvironment) (previous mode : ExecutionAuthorizationMode)
  : Permission :=
  match environment, previous, mode with
  | Env.Production, _, Mode.AutomatedAllowed => Perm.EnableAutomatedProductionExecution
  | Env.Production, _, Mode.ManualAllowed => Perm.SubmitProductionManualOrders
  | _, Mode.Disabled, Mode.Disabled => Perm.BindAccounts
  | Env.Sandbox, _, _ => Perm.SubmitSandboxOrders
  | Env.Production, _, Mode.Disabled => Perm.EmergencyHalt
  end.

Definition require_authorization_transition (security : SecurityContext) (environment : BrokerEnvironment)
    (previous mode : ExecutionAuthorizationMode) : sv () :=
  let! lowered := (if authorization_rank mode <? authorization_rank previous
                   then may_lower security else st_ret false) in
  if lowered then st_ret tt else require security (required_permission environment previous mode).

(** *** Onboarding *)

Definition disabled_authorization (security : SecurityContext) (connection_id : string) (a : BrokerAccount)
  : ExecutionAuthorization := {|
  ea_connection_id := connection_id; ea_provider_account_id := ac_provider_account_id a;
  ea_mode := Mode.Disabled; ea_authorization_revision := 1; ea_changed_by := sx_actor security;
  ea_changed_at_unix_ms := sx_now_unix_ms security |}.

(** The connection before its credential is stored. *)
Definition pending_connection (security : SecurityContext) (request : CreateConnectionRequest)
    (label connection_id credential_ref : string) : BrokerConnection := {|
  bc_id := connection_id; bc_provider := cq_provider request; bc_environment := cq_environment request;
  bc_credential_ref := credential_ref; bc_label := label; bc_credential_fingerprint := "PENDING";
  bc_credential_status := Cred.PendingValidation; bc_credential_class := Cred.Unknown;
  bc_credential_scope := Cred.NotConfirmed; bc_enabled := false;
  bc_health := health_of (cq_provider request) (cq_environment request) HealthSt.Validating
                 (sx_now_unix_ms security) HealthWhy.NoReason None;
  bc_capabilities := []; bc_created_at_unix_ms := sx_now_unix_ms security;
  bc_updated_at_unix_ms := sx_now_unix_ms security |}.

Definition create_connection (security : SecurityContext) (request : CreateConnectionRequest)
    (credential : string) : sv BrokerConnection :=
  require security Perm.ManageCredentials ;;;
  let! label := model (safe_text (cq_label request) "connection_label" 128) in
  let context := {| cx_provider := cq_provider request; cx_environment := cq_environment request |} in
  let! discovery := on_provider
    (bp_validate_and_discover (cq_provider request) (cq_environment request) credential) in
  st_lift (validate_discovery discovery) ;;;
  let now := sx_now_unix_ms security in
  let! connection_id := fresh_id "connection" in
  let! credential_ref := fresh_id "credential" in
  let pending := pending_connection security request label connection_id credential_ref in
  let! pending_audit := audit_record security "CONNECTION_ONBOARDING_STARTED" connection_id None
    (Some "PENDING_VALIDATION"%string) in
  on_repository (cn_insert_connection_with_audit pending pending_audit) ;;;
  let! fingerprint := on_secrets (se_put credential_ref context credential now) in
  let c := set_state Cred.Valid true
    (health_of (cq_provider request) (cq_environment request) HealthSt.Healthy now HealthWhy.NoReason None) now
    (set_discovered discovery (set_fingerprint fingerprint pending)) in
  let accounts := materialize_accounts c (di_accounts discovery) now in
  let authorizations := disabled_authorization security connection_id <$> accounts in
  let! created := audit_record security "CONNECTION_CREATED" connection_id None (Some "ENABLED"%string) in
  let! added := audit_record security "CREDENTIAL_ADDED" credential_ref None (Some "VALID"%string) in
  let! stored := try_repository (cn_insert_onboarding c accounts authorizations [created; added]) in
  match stored with
  | Err e =>
      let! _ := try_secrets (se_delete credential_ref) in
      st_fail (Svc.Repository e)
  | Ok _ => st_ret c
  end.

(** *** Views *)

Definition list_connections (security : SecurityContext) : sv (list BrokerConnection) :=
  require security Perm.ViewConnectionMetadata ;;; on_repository cn_list_connections.
Definition discovered_accounts (security : SecurityContext) (connection_id : string) : sv (list BrokerAccount) :=
  require security Perm.ViewConnectionMetadata ;;;
  let! _ := connection connection_id in on_repository (cn_accounts connection_id).
Definition account_bindings (security : SecurityContext) (connection_id : string)
  : sv (list BrokerAccountBinding) :=
  require security Perm.ViewConnectionMetadata ;;;
  let! _ := connection connection_id in on_repository (cn_bindings connection_id).
Definition execution_authorization (security : SecurityContext) (connection_id provider_account_id : string)
  : sv ExecutionAuthorization :=
  require security Perm.ViewConnectionMetadata ;;;
  let! _ := connection connection_id in
  let! found := on_repository (cn_authorization connection_id provider_account_id) in
  st_lift (ok_or found Svc.AccountNotFound).

(** *** Revalidation and rotation *)

Fixpoint authorization_conflict (connection_id : string) (l : list BrokerAccount) : sv bool :=
  match l with
  | [] => st_ret false
  | a :: l' =>
      let! found := on_repository (cn_authorization connection_id (ac_provider_account_id a)) in
      if negb (bool_decide (from_option ea_mode Mode.Disabled found = Mode.Disabled)) && negb (orders_allowed a)
      then st_ret true else authorization_conflict connection_id l'
  end.

Definition revoked (security : SecurityContext) (connection_id : string) (a : BrokerAccount) (revision : Z)
  : ExecutionAuthorization := {|
  ea_connection_id := connection_id; ea_provider_account_id := ac_provider_account_id a;
  ea_mode := Mode.Disabled; ea_authorization_revision := revision; ea_changed_by := sx_actor security;
  ea_changed_at_unix_ms := sx_now_unix_ms security |}.

(** Revoke one authorisation the provider no longer supports. *)
Definition revoke_one (security : SecurityContext) (c : BrokerConnection) (a : BrokerAccount) : sv () :=
  let! found := on_repository (cn_authorization (bc_id c) (ac_provider_account_id a)) in
  match found with
  | None => st_ret tt
  | Some previous =>
      if bool_decide (ea_mode previous = Mode.Disabled) || orders_allowed a then st_ret tt
      else
        let! bs := on_repository (cn_bindings (bc_id c)) in
        let target := from_option bb_id (bc_id c)
          (List.find (by_key bb_provider_account_id (ac_provider_account_id a)) bs) in
        let! record := audit_record security "EXECUTION_AUTHORIZATION_REVOKED_PROVIDER_DOWNGRADE" target
          (Some (authorization_name (ea_mode previous))) (Some "DISABLED"%string) in
        let! revision := st_lift (ok_or (checked_add U64 (ea_authorization_revision previous) 1)
          Svc.AuthorizationRevisionOverflow) in
        on_repository (cn_put_authorization_with_audit (revoked security (bc_id c) a revision)
          (ea_authorization_revision previous) record)
  end.

Definition revoke_invalid_authorizations (security : SecurityContext) (c : BrokerConnection)
    (l : list BrokerAccount) : sv () := each (revoke_one security c) l.

(** The credential status after a failed validation. *)
Definition failed_status (k : ProviderErrorKind) (old : CredentialStatus) : CredentialStatus :=
  match k with
  | Kind.ExpiredOrInactive => Cred.ExpiredOrInactive
  | Kind.InvalidCredential | Kind.WrongEnvironment => Cred.Invalid
  | _ => old
  end.

Definition revalidate (security : SecurityContext) (connection_id : string) : sv BrokerConnection :=
  require security Perm.DiscoverAccounts ;;;
  let! c := connection connection_id in
  let now := sx_now_unix_ms security in
  if negb (bc_enabled c) then st_fail Svc.ConnectionDisabled
  else
    let! credential := on_secrets (se_get (bc_credential_ref c) (credential_context c)) in
    let! outcome := try_provider (bp_validate_and_discover (bc_provider c) (bc_environment c) credential) in
    match outcome with
    | Ok discovery =>
        st_lift (validate_discovery discovery) ;;;
        let accounts := materialize_accounts c (di_accounts discovery) now in
        let! old_accounts := on_repository (cn_accounts connection_id) in
        let! access_changed := (if access_removed old_accounts accounts then st_ret true
          else authorization_conflict connection_id (with_disappeared_accounts old_accounts accounts)) in
        let c := set_state Cred.Valid (bc_enabled c) (discovered_health c access_changed now) now
                   (set_discovered discovery c) in
        on_repository (cn_update_connection c) ;;;
        on_repository (cn_replace_accounts connection_id accounts) ;;;
        let! persisted := on_repository (cn_accounts connection_id) in
        revoke_invalid_authorizations security c persisted ;;;
        on_repository (cn_update_connection c) ;;;
        audit security "CONNECTION_REVALIDATED" connection_id None
          (Some (health_name (ch_state (bc_health c)))) ;;;
        st_ret c
    | Err e =>
        let c := set_state (failed_status (pe_kind e) (bc_credential_status c)) (bc_enabled c)
                   (health_from_provider_error e (bc_provider c) (bc_environment c) now) now c in
        on_repository (cn_update_connection c) ;;;
        audit security "CONNECTION_REVALIDATION_FAILED" connection_id None
          (Some (health_name (ch_state (bc_health c)))) ;;;
        st_fail (Svc.Provider e)
    end.

(** What a rotation writes after the new credential is stored. *)
Definition persist_rotation (security : SecurityContext) (connection_id : string) (previous c : BrokerConnection)
    (accounts : list BrokerAccount) : sv () :=
  on_repository (cn_replace_accounts connection_id accounts) ;;;
  on_repository (cn_update_connection c) ;;;
  let! persisted := on_repository (cn_accounts connection_id) in
  revoke_invalid_authorizations security c persisted ;;;
  audit security "CREDENTIAL_ROTATED_RECONNECT_REQUIRED" connection_id
    (Some (bc_credential_fingerprint previous)) (Some (bc_credential_fingerprint c)).

(** Put the previous credential, accounts and connection back. *)
Definition compensate (connection_id : string) (previous : BrokerConnection) (context : CredentialContext)
    (previous_credential : string) (old_accounts : list BrokerAccount) (now : Z) (error : ServiceError)
  : sv CredentialRotationOutcome :=
  let! secret_restored := try_secrets (se_rotate (bc_credential_ref previous) context previous_credential now) in
  let! accounts_restored := try_repository (cn_replace_accounts connection_id old_accounts) in
  let! connection_restored := try_repository (cn_update_connection previous) in
  if negb (is_ok secret_restored) || negb (is_ok accounts_restored) || negb (is_ok connection_restored) then
    let! _ := try_secrets (se_disable (bc_credential_ref previous)) in
    st_fail Svc.CredentialRotationCompensationFailed
  else st_fail error.

Definition rotate_credential (security : SecurityContext) (connection_id new_credential : string)
  : sv CredentialRotationOutcome :=
  require security Perm.ManageCredentials ;;;
  let! previous := connection connection_id in
  let now := sx_now_unix_ms security in
  let! discovery := on_provider
    (bp_validate_and_discover (bc_provider previous) (bc_environment previous) new_credential) in
  st_lift (validate_discovery discovery) ;;;
  let context := credential_context previous in
  let! previous_credential := on_secrets (se_get (bc_credential_ref previous) context) in
  let! old_accounts := on_repository (cn_accounts connection_id) in
  let accounts := materialize_accounts previous (di_accounts discovery) now in
  let! access_changed := (if access_removed old_accounts accounts then st_ret true
    else authorization_conflict connection_id (with_disappeared_accounts old_accounts accounts)) in
  let gate := set_state (bc_credential_status previous) (bc_enabled previous)
    (health_of (bc_provider previous) (bc_environment previous) HealthSt.Validating now HealthWhy.NoReason
       (Some "credential rotation in progress"%string)) now previous in
  on_repository (cn_update_connection gate) ;;;
  let! invalidated := audit_record security "CREDENTIAL_ROTATION_SESSIONS_INVALIDATED" connection_id
    (Some "PREVIOUS_CREDENTIAL"%string) (Some "RECONNECT_REQUIRED"%string) in
  on_repository (cn_invalidate_connection_authorizations_with_audit connection_id (sx_actor security) now
    invalidated) ;;;
  let! rotated := try_secrets (se_rotate (bc_credential_ref previous) context new_credential now) in
  match rotated with
  | Err e =>
      let! _ := try_repository (cn_update_connection previous) in
      st_fail (Svc.SecretStore e)
  | Ok new_fingerprint =>
      let c := set_state Cred.Valid (bc_enabled previous) (discovered_health previous access_changed now) now
                 (set_discovered discovery (set_fingerprint new_fingerprint previous)) in
      let! persistence := attempt (persist_rotation security connection_id previous c accounts) in
      match persistence with
      | Err error => compensate connection_id previous context previous_credential old_accounts now error
      | Ok _ => st_ret {| rt_connection := c; rt_reconnect_required := true |}
      end
  end.

(** *** Disabling and deleting *)

Definition operator_disabled (c : BrokerConnection) (detail : string) (now : Z) : ConnectionHealth :=
  health_of (bc_provider c) (bc_environment c) HealthSt.Disabled now HealthWhy.DisabledByOperator (Some detail).

Definition disable_connection (security : SecurityContext) (connection_id : string) : sv BrokerConnection :=
  require security Perm.DisableDeleteConnection ;;;
  let now := sx_now_unix_ms security in
  let! c := connection connection_id in
  let! c := (if negb (bool_decide (bc_credential_status c = Cred.PendingDisable)) then
      let c := set_state Cred.PendingDisable false
                 (operator_disabled c "credential disable in progress" now) now c in
      let! started := audit_record security "CONNECTION_DISABLE_STARTED" connection_id (Some "ENABLED"%string)
        (Some "PENDING_DISABLE"%string) in
      on_repository (cn_update_connection_with_audit c started) ;;; st_ret c
    else st_ret c) in
  on_secrets (se_disable (bc_credential_ref c)) ;;;
  let c := set_state Cred.Disabled (bc_enabled c)
             (operator_disabled c "disabled by authorized operator" now) now c in
  let! first := audit_record security "CREDENTIAL_DISABLED" (bc_credential_ref c) (Some "VALID"%string)
    (Some "DISABLED"%string) in
  let! second := audit_record security "CONNECTION_DISABLED" connection_id (Some "ENABLED"%string)
    (Some "DISABLED"%string) in
  on_repository (cn_update_connection_with_audits c [first; second]) ;;;
  st_ret c.

(** A deletion that finds nothing is as good as one that deletes. *)
Definition discard_secret (credential_ref : string) : sv () :=
  let! deleted := try_secrets (se_delete credential_ref) in
  match deleted with
  | Ok _ | Err Sec.NotFound => st_ret tt
  | Err e => st_fail (Svc.SecretStore e)
  end.

Definition delete_connection (security : SecurityContext) (connection_id : string) : sv () :=
  require security Perm.DisableDeleteConnection ;;;
  let now := sx_now_unix_ms security in
  let! c := connection connection_id in
  if bc_enabled c && negb (bool_decide (bc_credential_status c = Cred.PendingDelete))
  then st_fail Svc.DisableBeforeDelete
  else
    let tombstone := set_state Cred.PendingDelete false (operator_disabled c "delete in progress" now) now c in
    let! started := audit_record security "CONNECTION_DELETE_STARTED" connection_id (Some "DISABLED"%string)
      (Some "PENDING_DELETE"%string) in
    on_repository (cn_begin_connection_delete_with_audit tombstone started) ;;;
    discard_secret (bc_credential_ref c) ;;;
    let! deleted := audit_record security "CONNECTION_DELETED" connection_id (Some "PENDING_DELETE"%string)
      (Some "DELETED"%string) in
    on_repository (cn_finalize_connection_delete connection_id deleted).

(** *** Bindings and roles *)

Definition bind_account (security : SecurityContext) (connection_id provider_account_id vox_account_id : string)
  : sv BrokerAccountBinding :=
  require security Perm.BindAccounts ;;;
  let! c := connection connection_id in
  let! provider_account_id := model (safe_text provider_account_id "provider_account_id" 256) in
  let! l := on_repository (cn_accounts connection_id) in
  let! a := st_lift (ok_or (find_account provider_account_id l) Svc.AccountNotFound) in
  if negb (ac_accessible a) then st_fail Svc.AccountUnavailable
  else
    let! id := fresh_id "binding" in
    let binding := {|
      bb_id := id; bb_connection_id := connection_id; bb_provider := bc_provider c;
      bb_environment := bc_environment c; bb_provider_account_id := provider_account_id;
      bb_vox_account_id := vox_account_id; bb_enabled := true;
      bb_created_at_unix_ms := sx_now_unix_ms security;
      bb_updated_at_unix_ms := sx_now_unix_ms security |} in
    let! record := audit_record security "ACCOUNT_BOUND" id None (Some connection_id) in
    on_repository (cn_put_binding_with_audit binding record) ;;;
    st_ret binding.

Definition unbind_account (security : SecurityContext) (binding_id : string) : sv () :=
  require security Perm.BindAccounts ;;;
  let! record := audit_record security "ACCOUNT_UNBOUND" binding_id (Some "BOUND"%string)
    (Some "UNBOUND"%string) in
  on_repository (cn_delete_binding_with_audit binding_id record).

Definition replace_role (security : SecurityContext) (role : Role) : sv () :=
  require security Perm.SecurityAdmin ;;;
  let! name := model (safe_text (rl_name role) "role_name" 128) in
  let! record := audit_record security "ROLE_PERMISSIONS_CHANGED" (rl_id role) None (Some "REPLACED"%string) in
  on_repository (cn_put_role_with_audit
    {| rl_id := rl_id role; rl_name := name; rl_permissions := rl_permissions role |} record).

Definition grant_role (security : SecurityContext) (user_id role_id : string) : sv () :=
  require security Perm.SecurityAdmin ;;;
  let! record := audit_record security "ROLE_ASSIGNED" user_id None (Some role_id) in
  on_repository (cn_grant_role_with_audit user_id role_id record).

Definition disable_binding (security : SecurityContext) (binding_id : string) : sv () :=
  require security Perm.BindAccounts ;;;
  let! record := audit_record security "ACCOUNT_BINDING_DISABLED" binding_id (Some "ENABLED"%string)
    (Some "DISABLED"%string) in
  on_repository (cn_set_binding_enabled_with_audit binding_id false (sx_now_unix_ms security) record).

(** *** Execution authorisation *)

(** What a mode other than DISABLED takes. *)
Definition check_executable (c : BrokerConnection) (a : BrokerAccount) (mode : ExecutionAuthorizationMode)
  : result ServiceError () :=
  if bool_decide (mode = Mode.Disabled) then Ok tt
  else if negb (bc_enabled c) || negb (bool_decide (ch_state (bc_health c) = HealthSt.Healthy))
  then Err Svc.ConnectionUnavailable
  else if negb (ac_accessible a) then Err Svc.AccountUnavailable
  else if negb (bool_decide (required_order_capability (bc_environment c) ∈ ac_capabilities a))
  then Err Svc.ProviderDoesNotAllowProductionOrders
  else Ok tt.

Definition set_execution_authorization_cas (security : SecurityContext)
    (connection_id provider_account_id : string) (mode : ExecutionAuthorizationMode) (expected_revision : Z)
  : sv ExecutionAuthorization :=
  let! c := connection connection_id in
  let! found := on_repository (cn_authorization connection_id provider_account_id) in
  let! previous := st_lift (ok_or found Svc.AccountNotFound) in
  if negb (ea_authorization_revision previous =? expected_revision)
  then st_fail Svc.StaleExecutionAuthorization
  else
    require_authorization_transition security (bc_environment c) (ea_mode previous) mode ;;;
    let! l := on_repository (cn_accounts connection_id) in
    let! a := st_lift (ok_or (find_account provider_account_id l) Svc.AccountNotFound) in
    let! bs := on_repository (cn_bindings connection_id) in
    let! binding := st_lift (ok_or (List.find (λ b,
      bool_decide (bb_provider_account_id b = provider_account_id) && bb_enabled b) bs)
      Svc.AccountBindingMismatch) in
    st_lift (check_executable c a mode) ;;;
    let! revision := st_lift (ok_or (checked_add U64 (ea_authorization_revision previous) 1)
      Svc.AuthorizationRevisionOverflow) in
    let authorization := {|
      ea_connection_id := connection_id; ea_provider_account_id := provider_account_id; ea_mode := mode;
      ea_authorization_revision := revision; ea_changed_by := sx_actor security;
      ea_changed_at_unix_ms := sx_now_unix_ms security |} in
    let! record := audit_record security "EXECUTION_AUTHORIZATION_CHANGED" (bb_id binding)
      (Some (authorization_name (ea_mode previous))) (Some (authorization_name mode)) in
    on_repository (cn_put_authorization_with_audit authorization (ea_authorization_revision previous) record) ;;;
    st_ret authorization.

Definition set_execution_authorization (security : SecurityContext)
    (connection_id provider_account_id : string) (mode : ExecutionAuthorizationMode)
  : sv ExecutionAuthorization :=
  let! found := on_repository (cn_authorization connection_id provider_account_id) in
  let! current := st_lift (ok_or found Svc.AccountNotFound) in
  set_execution_authorization_cas security connection_id provider_account_id mode
    (ea_authorization_revision current).

(** *** Access *)

Definition validate_read_access (connection_id provider_account_id vox_account_id : string)
  : sv ReadAccessGrant :=
  let! bound := bound_healthy_target connection_id provider_account_id vox_account_id in
  let c := bt_connection bound in
  let! _ := on_secrets (se_get (bc_credential_ref c) (credential_context c)) in
  st_ret {| rg_target := bt_target bound; rg_credential_ref := bc_credential_ref c;
            rg_capabilities := bt_capabilities bound |}.

Definition validate_execution_access (connection_id provider_account_id vox_account_id : string)
    (purpose : ExecutionPurpose) (expected_revision : option Z) : sv ExecutionAccessGrant :=
  let! bound := bound_healthy_target connection_id provider_account_id vox_account_id in
  let c := bt_connection bound in
  let! found := on_repository (cn_authorization connection_id provider_account_id) in
  let! e := st_lift (ok_or found Svc.ExecutionUnauthorized) in
  if match expected_revision with
     | Some revision => negb (revision =? ea_authorization_revision e)
     | None => false
     end
  then st_fail Svc.StaleExecutionAuthorization
  else if negb (execution_purpose_allowed (bc_environment c) (ea_mode e) purpose)
  then st_fail Svc.ExecutionUnauthorized
  else if negb (bool_decide (required_order_capability (bc_environment c) ∈ bt_capabilities bound))
  then st_fail Svc.ProviderDoesNotAllowProductionOrders
  else
    let! _ := on_secrets (se_get (bc_credential_ref c) (credential_context c)) in
    st_ret {| xg_target := bt_target bound; xg_credential_ref := bc_credential_ref c;
              xg_capabilities := bt_capabilities bound; xg_mode := ea_mode e;
              xg_authorization_revision := ea_authorization_revision e |}.

Definition validate_runtime_read_access (connection_id provider_account_id : string) : sv ReadAccessGrant :=
  let! vox_account_id := bound_vox_account connection_id provider_account_id in
  validate_read_access connection_id provider_account_id vox_account_id.

Definition validate_runtime_execution_access (connection_id provider_account_id : string)
    (purpose : ExecutionPurpose) (expected_revision : option Z) : sv ExecutionAccessGrant :=
  let! vox_account_id := bound_vox_account connection_id provider_account_id in
  validate_execution_access connection_id provider_account_id vox_account_id purpose expected_revision.

Definition open_runtime_read_client {RC XC} `{!BrokerCredentialClientFactory RC XC}
    (connection_id provider_account_id : string) : sv RC :=
  let! vox_account_id := bound_vox_account connection_id provider_account_id in
  let! bound := bound_healthy_target connection_id provider_account_id vox_account_id in
  let c := bt_connection bound in
  let! credential := on_secrets (se_get (bc_credential_ref c) (credential_context c)) in
  st_lift (map_err Svc.Provider (build_read_client (bt_target bound) credential)).

Definition open_runtime_execution_client {RC XC} `{!BrokerCredentialClientFactory RC XC}
    (connection_id provider_account_id : string) (purpose : ExecutionPurpose) (expected_revision : Z) : sv XC :=
  let! grant := validate_runtime_execution_access connection_id provider_account_id purpose
    (Some expected_revision) in
  let! c := connection connection_id in
  let! credential := on_secrets (se_get (bc_credential_ref c) (credential_context c)) in
  st_lift (map_err Svc.Provider
    (build_execution_client (xg_target grant) credential (xg_authorization_revision grant))).

(** *** Recovery *)

(** A credential that is missing: the connection is switched off. *)
Definition mark_invalid (security : SecurityContext) (action previous detail : string) (c : BrokerConnection)
  : sv BrokerConnection :=
  let now := sx_now_unix_ms security in
  let c := set_state Cred.Invalid false
    (health_of (bc_provider c) (bc_environment c) HealthSt.InvalidCredential now HealthWhy.InvalidCredential
       (Some detail)) now c in
  let! record := audit_record security action (bc_id c) (Some previous) (Some "DISABLED"%string) in
  on_repository (cn_update_connection_with_audit c record) ;;; st_ret c.

Definition fail_pending_onboarding (security : SecurityContext) (detail : string) : BrokerConnection → sv BrokerConnection :=
  mark_invalid security "CONNECTION_ONBOARDING_FAILED_RECOVERY" "PENDING_VALIDATION" detail.
Definition disable_inconsistent_connection (security : SecurityContext) (detail : string)
  : BrokerConnection → sv BrokerConnection :=
  mark_invalid security "CONNECTION_DISABLED_INCONSISTENT_CREDENTIAL" "ENABLED" detail.

Definition fingerprint_of (credential_ref : string) (metadata : list SecretMetadata) : sv string :=
  st_lift (ok_or (sm_fingerprint <$> List.find (by_key sm_credential_ref credential_ref) metadata)
    (Svc.SecretStore Sec.NotFound)).

(** PENDING_VALIDATION: finish the onboarding, defer it or switch the connection off. *)
Definition recover_onboarding (security : SecurityContext) (metadata : list SecretMetadata)
    (report : LifecycleRecoveryReport) (c : BrokerConnection) : sv (BrokerConnection * LifecycleRecoveryReport) :=
  let now := sx_now_unix_ms security in
  let! credential := try_secrets (se_get (bc_credential_ref c) (credential_context c)) in
  match credential with
  | Err Sec.NotFound =>
      let! c := fail_pending_onboarding security "encrypted credential missing during startup recovery" c in
      st_ret (c, count 0 1 0 0 0 report)
  | Err e => st_fail (Svc.SecretStore e)
  | Ok credential =>
      let! outcome := try_provider (bp_validate_and_discover (bc_provider c) (bc_environment c) credential) in
      match outcome with
      | Ok discovery =>
          st_lift (validate_discovery discovery) ;;;
          let! fingerprint := fingerprint_of (bc_credential_ref c) metadata in
          let c := set_state Cred.Valid true
            (health_of (bc_provider c) (bc_environment c) HealthSt.Healthy now HealthWhy.NoReason None) now
            (set_discovered discovery (set_fingerprint fingerprint c)) in
          let accounts := materialize_accounts c (di_accounts discovery) now in
          let authorizations := disabled_authorization security (bc_id c) <$> accounts in
          let! record := audit_record security "CONNECTION_ONBOARDING_RECOVERED" (bc_id c)
            (Some "PENDING_VALIDATION"%string) (Some "ENABLED"%string) in
          on_repository (cn_insert_onboarding c accounts authorizations [record]) ;;;
          st_ret (c, count 1 0 0 0 0 report)
      | Err e =>
          let c := set_state (bc_credential_status c) false
            (health_from_provider_error e (bc_provider c) (bc_environment c) now) now c in
          let! record := audit_record security "CONNECTION_ONBOARDING_RECOVERY_DEFERRED" (bc_id c)
            (Some "PENDING_VALIDATION"%string) (Some (health_name (ch_state (bc_health c)))) in
          on_repository (cn_update_connection_with_audit c record) ;;;
          st_ret (c, report)
      end
  end.

Definition recover_delete (security : SecurityContext) (report : LifecycleRecoveryReport) (c : BrokerConnection)
  : sv (BrokerConnection * LifecycleRecoveryReport) :=
  discard_secret (bc_credential_ref c) ;;;
  let! record := audit_record security "CONNECTION_DELETE_RECOVERED" (bc_id c) (Some "PENDING_DELETE"%string)
    (Some "DELETED"%string) in
  on_repository (cn_finalize_connection_delete (bc_id c) record) ;;;
  st_ret (c, count 0 0 1 0 0 report).

Definition recover_disable (security : SecurityContext) (report : LifecycleRecoveryReport) (c : BrokerConnection)
  : sv (BrokerConnection * LifecycleRecoveryReport) :=
  let! disabled := try_secrets (se_disable (bc_credential_ref c)) in
  match disabled with
  | Ok _ | Err Sec.Disabled =>
      let c := set_state Cred.Disabled false (bc_health c) (sx_now_unix_ms security) c in
      let! record := audit_record security "CONNECTION_DISABLE_RECOVERED" (bc_id c)
        (Some "PENDING_DISABLE"%string) (Some "DISABLED"%string) in
      on_repository (cn_update_connection_with_audit c record) ;;;
      st_ret (c, count 0 0 0 1 0 report)
  | Err e => st_fail (Svc.SecretStore e)
  end.

(** A rotation that was interrupted: validate the credential that is now stored. *)
Definition recover_rotation (security : SecurityContext) (metadata : list SecretMetadata)
    (report : LifecycleRecoveryReport) (c : BrokerConnection) : sv (BrokerConnection * LifecycleRecoveryReport) :=
  let! outcome := attempt (revalidate security (bc_id c)) in
  match outcome with
  | Ok recovered =>
      let! fingerprint := fingerprint_of (bc_credential_ref recovered) metadata in
      let recovered := set_fingerprint fingerprint recovered in
      let! record := audit_record security "CREDENTIAL_ROTATION_RECOVERED" (bc_id recovered)
        (Some "VALIDATING"%string) (Some "VALID"%string) in
      on_repository (cn_update_connection_with_audit recovered record) ;;;
      st_ret (recovered, report)
  | Err (Svc.Provider _) => st_ret (c, report)
  | Err e => st_fail e
  end.

Definition verify_credential (security : SecurityContext) (report : LifecycleRecoveryReport) (c : BrokerConnection)
  : sv (BrokerConnection * LifecycleRecoveryReport) :=
  let! credential := try_secrets (se_get (bc_credential_ref c) (credential_context c)) in
  match credential with
  | Ok _ => st_ret (c, report)
  | Err (Sec.NotFound | Sec.Disabled) =>
      let! c := disable_inconsistent_connection security "credential unavailable during startup verification" c in
      st_ret (c, report)
  | Err e => st_fail (Svc.SecretStore e)
  end.

Definition recover_one (security : SecurityContext) (metadata : list SecretMetadata)
    (report : LifecycleRecoveryReport) (c : BrokerConnection) : sv (BrokerConnection * LifecycleRecoveryReport) :=
  match bc_credential_status c with
  | Cred.PendingValidation => recover_onboarding security metadata report c
  | Cred.PendingDelete => recover_delete security report c
  | Cred.PendingDisable => recover_disable security report c
  | Cred.Valid =>
      if bc_enabled c then
        if bool_decide (ch_state (bc_health c) = HealthSt.Validating)
        then recover_rotation security metadata report c
        else verify_credential security report c
      else st_ret (c, report)
  | _ => st_ret (c, report)
  end.

(** The connections as the loop leaves them, with the report. *)
Fixpoint recover_all (security : SecurityContext) (metadata : list SecretMetadata)
    (report : LifecycleRecoveryReport) (l : list BrokerConnection)
  : sv (list BrokerConnection * LifecycleRecoveryReport) :=
  match l with
  | [] => st_ret ([], report)
  | c :: l' =>
      let! one := recover_one security metadata report c in
      let! rest := recover_all security metadata one.2 l' in
      st_ret (one.1 :: rest.1, rest.2)
  end.

(** Secrets no connection owns are disabled. *)
Fixpoint quarantine (security : SecurityContext) (connections : list BrokerConnection)
    (report : LifecycleRecoveryReport) (l : list SecretMetadata) : sv LifecycleRecoveryReport :=
  match l with
  | [] => st_ret report
  | m :: l' =>
      if existsb (by_key bc_credential_ref (sm_credential_ref m)) connections
      then quarantine security connections report l'
      else
        (if negb (sm_disabled m) then on_secrets (se_disable (sm_credential_ref m)) else st_ret tt) ;;;
        let! record := audit_record security "ORPHAN_CREDENTIAL_QUARANTINED" (sm_credential_ref m)
          (Some "UNOWNED"%string) (Some "DISABLED"%string) in
        on_repository (cn_append_audit record) ;;;
        quarantine security connections (count 0 0 0 0 1 report) l'
  end.

Definition recover_connection_lifecycle (security : SecurityContext) : sv LifecycleRecoveryReport :=
  let! connections := on_repository cn_list_connections in
  let! metadata := on_secrets se_metadata in
  let! recovered := recover_all security metadata empty_report connections in
  quarantine security recovered.1 recovered.2 metadata.
End service.
Arguments Service : clear implicits.
