(* ===== verification/ConnectionSafety.v ===== *)
(** * What connection management guarantees

    The service of [ConnectionService.v] over the SQLite repository of
    [ConnectionRepository.v] and any store of credentials that is a vault, which the
    encrypted store of [SecretStore.v] is.  Every method is a sequence of transactions
    of the repository ([committed]), so what each transaction keeps, every method
    keeps. *)
From stdpp Require Import gmap strings.
From S2P Require Import Prelude ConnectionModel RiskStore ConnectionRepository SecretStore ConnectionService.

(** ** Instances *)

#[export] Instance sqlite_repository : ConnectionRepository Repository := {|
  cn_put_role_with_audit := put_role_with_audit;
  cn_grant_role_with_audit := grant_role_with_audit;
  cn_permissions := permissions;
  cn_insert_connection_with_audit := insert_connection_with_audit;
  cn_insert_onboarding := insert_onboarding;
  cn_update_connection := update_connection;
  cn_update_connection_with_audit := update_connection_with_audit;
  cn_update_connection_with_audits := update_connection_with_audits;
  cn_connection := connection_by_id;
  cn_list_connections := ConnectionRepository.list_connections;
  cn_replace_accounts := replace_accounts;
  cn_accounts := accounts;
  cn_put_binding_with_audit := put_binding_with_audit;
  cn_set_binding_enabled_with_audit := set_binding_enabled_with_audit;
  cn_delete_binding_with_audit := delete_binding_with_audit;
  cn_bindings := bindings;
  cn_authorization := ConnectionRepository.authorization;
  cn_put_authorization_with_audit := put_authorization_with_audit;
  cn_invalidate_connection_authorizations_with_audit := invalidate_connection_authorizations_with_audit;
  cn_append_audit := append_audit;
  cn_begin_connection_delete_with_audit := begin_connection_delete_with_audit;
  cn_finalize_connection_delete := finalize_connection_delete |}.

#[export] Instance encrypted_secrets {E} `{CI : !Cipher} `{EN : !Entropy E} `{UF : !UuidFormat}
  : SecretStore (SecretDb E) := {|
  se_put := secret_put; se_get := secret_get; se_rotate := secret_rotate; se_disable := secret_disable;
  se_delete := secret_delete; se_metadata := secret_metadata |}.

(** What the service may rely on of its store of credentials. *)
Class SecretVault (S : Type) `{SS : !SecretStore S} := {
  holds : S → vault → Prop;
  holds_get ref c s m : holds s m → se_get ref c s = (s, vault_get m ref c);
  holds_put ref c secret now s s' m r :
    SecretBytes_new secret = Ok secret → holds s m → se_put ref c secret now s = (s', r) →
    ∃ m', holds s' m' ∧ ((∃ e, r = Err e) ∧ m' = m ∨ m !! ref = None ∧ is_ok r ∧ m' = <[ref := (c, secret, false)]> m);
  holds_rotate ref c secret now s s' m r :
    SecretBytes_new secret = Ok secret → holds s m → se_rotate ref c secret now s = (s', r) →
    ∃ m', holds s' m' ∧ ((∃ e, r = Err e) ∧ m' = m ∨
      (∃ old, vault_get m ref c = Ok old) ∧ is_ok r ∧ m' = <[ref := (c, secret, false)]> m);
  holds_disable ref s s' m r :
    holds s m → se_disable ref s = (s', r) →
    ∃ m', holds s' m' ∧ ((∃ e, r = Err e) ∧ m' = m ∨
      ∃ c secret b, m !! ref = Some (c, secret, b) ∧ m' = <[ref := (c, secret, true)]> m);
  holds_delete ref s s' m r :
    holds s m → se_delete ref s = (s', r) →
    ∃ m', holds s' m' ∧ ((∃ e, r = Err e ∧ (e = Sec.NotFound → m !! ref = None)) ∧ m' = m ∨ m' = delete ref m);
  holds_typed s m ref c secret b : holds s m → m !! ref = Some (c, secret, b) → SecretBytes_new secret = Ok secret;
  holds_metadata s s' m r :
    holds s m → se_metadata s = (s', r) →
    holds s' m ∧ ∀ l ref c secret b, r = Ok l → m !! ref = Some (c, secret, b) →
      ∃ md, md ∈ l ∧ sm_credential_ref md = ref ∧ sm_disabled md = b;
}.

#[export] Instance encrypted_vault {E} `{CI : !Cipher} `{CL : !CipherLaws} `{EN : !Entropy E} `{EL : !EntropyLaws E}
  `{UF : !UuidFormat} : SecretVault (SecretDb E).
Proof.
  refine {| holds := stores |}.
  - intros ref c s m Hm. by apply get_refines.
  - intros ref c secret now s s' m r Hsec Hm H.
    destruct (put_refines false false _ _ _ _ _ _ _ _ Hsec Hm H) as (m' & Hm' & [?|(? & -> & ?)]); exists m'; eauto 10.
  - intros ref c secret now s s' m r Hsec Hm H.
    destruct (rotate_refines false false _ _ _ _ _ _ _ _ Hsec Hm H) as (m' & Hm' & [?|(? & -> & ?)]); exists m'; eauto 10.
  - intros ref s s' m r Hm H. destruct (disable_refines _ _ _ _ _ Hm H) as [(? & ? & ?)|(_ & ? & c & secret & b & ? & ?)]; eauto 12.
  - intros ref s s' m r Hm H. destruct (delete_refines _ _ _ _ _ Hm H) as [([e ->] & ? & _)|(_ & _ & ?)]; [|by eauto].
    exists m. split; [done|]. left. split; [|done]. exists e. split; [done|]. intros ->. exfalso.
    simpl in H. unfold secret_delete in H. by destruct (sd_fail_next_delete s).
  - intros s m ref c secret b [_ Hm] Hl. specialize (Hm ref). rewrite Hl in Hm.
    destruct (List.find _ _); [|done]. by destruct Hm as [(_ & _ & _ & _ & _ & ? & _) _].
  - intros s s' m r Hm H. simpl in H. unfold secret_metadata in H. simplify_eq. split; [done|].
    intros l ref c secret b Hl Href. destruct Hm as [_ Hm]. specialize (Hm ref). rewrite Href in Hm.
    destruct (List.find _ _) as [row|] eqn:Hrow; [|done]. destruct Hm as [_ Hb]. apply find_by_key in Hrow as [Hin Hk].
    destruct (collect_read _ _ _ row Hl) as (md & Hr & Hmd); [by rewrite order_by_perm|].
    exists md. split; [done|]. unfold read_metadata in Hr.
    destruct (read_environment _); simpl in Hr; [|done]. unfold parse_id in Hr.
    destruct (strip_prefix _ _); simpl in Hr; [|done]. destruct (uuid_parses _); simpl in Hr; [|done].
    destruct (ProviderId_new _); simpl in Hr; [|done]. by simplify_eq.
Defined.

(** ** Transactions *)

(** A mutation and the records of it, committed together. *)
Definition audited (m : st Tables RepositoryError ()) (audits : list AuditRecord) : st Tables RepositoryError () :=
  m ;;; each append_audit_row audits.

(** Whether a transaction adds a connection, removes one, or does neither. *)
Inductive kind := Inserts | Deletes | Edits.

(** The transactions the service commits. *)
Inductive committed : kind → Tables → Tables → Prop :=
| committed_role role a t t' : audited (write_role role) [a] t = (t', Ok tt) → committed Edits t t'
| committed_grant u r a t t' : audited (write_grant u r) [a] t = (t', Ok tt) → committed Edits t t'
| committed_insert c a t t' : audited (write_connection c false) [a] t = (t', Ok tt) → committed Inserts t t'
| committed_onboarding c l es audits t t' :
    (write_connection c true ;;; each (insert_account (bc_id c)) l ;;;
     each (insert_authorization (bc_id c)) es ;;; each append_audit_row audits) t = (t', Ok tt) →
    committed Edits t t'
| committed_update c audits t t' : audited (write_connection c true) audits t = (t', Ok tt) → committed Edits t t'
| committed_accounts id l t t' : replace_accounts_tx id l t = (t', Ok tt) → committed Edits t t'
| committed_binding b a t t' : audited (write_binding b) [a] t = (t', Ok tt) → committed Edits t t'
| committed_switch id v now a t t' :
    audited (write_binding_enabled id v now) [a] t = (t', Ok tt) → committed Edits t t'
| committed_unbind id a t t' : audited (write_delete_binding id) [a] t = (t', Ok tt) → committed Edits t t'
| committed_cas e expected a t t' :
    audited (write_authorization_cas e expected) [a] t = (t', Ok tt) → committed Edits t t'
| committed_invalidate id actor now a t t' :
    audited (invalidate_tx id actor now) [a] t = (t', Ok tt) → committed Edits t t'
| committed_audit a t t' : append_audit_row a t = (t', Ok tt) → committed Edits t t'
| committed_delete id a t t' : audited (delete_row id) [a] t = (t', Ok tt) → committed Deletes t t'.

(** Transactions of the kinds [K], one after the other. *)
Definition evolves (K : kind → Prop) : Tables → Tables → Prop := rtc (λ t t', ∃ k, K k ∧ committed k t t').

#[export] Instance evolves_refl K : Reflexive (evolves K).
Proof. intros t. apply rtc_refl. Qed.
#[export] Instance evolves_trans K : Transitive (evolves K).
Proof. intros t1 t2 t3 H1 H2. unfold evolves in *. by etrans. Qed.

Lemma evolves_once (K : kind → Prop) k t t' : K k → committed k t t' → evolves K t t'.
Proof. intros HK Hc. apply rtc_once. by exists k. Qed.

(** A reflexive and transitive relation every transaction of the kinds satisfies. *)
Lemma evolves_ind_preorder (K : kind → Prop) (Q : Tables → Tables → Prop) t t' :
  Reflexive Q → Transitive Q → (∀ k t t', K k → committed k t t' → Q t t') → evolves K t t' → Q t t'.
Proof. intros HR HT Hc. induction 1 as [t|t1 t2 t3 (k & Hk & H12) _ IH]; [done|]. transitivity t2; eauto. Qed.

(** *** The repository's operations *)

(** An operation leaves the tables alone or commits a transaction. *)
Definition op_path {A} (K : kind → Prop) (m : st Repository RepositoryError A) : Prop :=
  st_effect (λ r r', evolves K (re_tables r) (re_tables r')) m.

Lemma op_read {A} K (q : Tables → A) : op_path K (read q).
Proof. intros r r' x H. unfold read in H. by simplify_eq. Qed.

Lemma op_commit {A} (K : kind → Prop) (m : st Tables RepositoryError A) :
  (∀ t t' a, m t = (t', Ok a) → evolves K t t') → op_path K (commit m).
Proof.
  intros Hm r r' x H. unfold commit in H. destruct (m (re_tables r)) as [t [a|e]] eqn:Hr; simplify_eq; [|done].
  by eapply Hm.
Qed.

Lemma op_mutate (K : kind → Prop) audits m :
  (∀ t t', audited m audits t = (t', Ok tt) → evolves K t t') → op_path K (mutate_with_audits audits m).
Proof.
  intros Hm r r' x H. unfold mutate_with_audits in H.
  destruct (m (re_tables r)) as [t [[]|e]] eqn:H1; [|by simplify_eq].
  destruct (re_fail_next_audit r); [by simplify_eq|].
  destruct (each append_audit_row audits t) as [t' [[]|e]] eqn:H2; simplify_eq; [|done].
  apply Hm. unfold audited, st_bind. by rewrite H1, H2.
Qed.

Create HintDb paths.
#[export] Hint Resolve op_read : paths.

Ltac op_leaf := intros; eapply evolves_once; [done|by econstructor; eauto].

Section operations.
Context (K : kind → Prop) (KE : K Edits).

Lemma op_put_role role a : op_path K (put_role_with_audit role a).
Proof. apply op_mutate. op_leaf. Qed.
Lemma op_grant u r a : op_path K (grant_role_with_audit u r a).
Proof. apply op_mutate. op_leaf. Qed.
Lemma op_insert c a : K Inserts → op_path K (insert_connection_with_audit c a).
Proof. intros HK. apply op_mutate. op_leaf. Qed.
Lemma op_onboarding c l es audits : op_path K (insert_onboarding c l es audits).
Proof.
  intros r r' x H. unfold insert_onboarding in H. destruct (re_fail_next_onboarding r); [by simplify_eq|].
  revert H. apply op_commit. intros t t' []. op_leaf.
Qed.
Lemma op_update_audits c audits : op_path K (update_connection_with_audits c audits).
Proof. apply op_mutate. op_leaf. Qed.
Lemma op_update c : op_path K (update_connection c).
Proof.
  apply op_commit. intros t t' [] H. eapply evolves_once; [done|].
  apply (committed_update c []). unfold audited, st_bind. by rewrite H.
Qed.
Lemma op_replace id l : op_path K (replace_accounts id l).
Proof. apply op_commit. intros t t' []. op_leaf. Qed.
Lemma op_bind b a : op_path K (put_binding_with_audit b a).
Proof. apply op_mutate. op_leaf. Qed.
Lemma op_switch id v now a : op_path K (set_binding_enabled_with_audit id v now a).
Proof. apply op_mutate. op_leaf. Qed.
Lemma op_unbind id a : op_path K (delete_binding_with_audit id a).
Proof. apply op_mutate. op_leaf. Qed.
Lemma op_cas e expected a : op_path K (put_authorization_with_audit e expected a).
Proof. apply op_mutate. op_leaf. Qed.
Lemma op_invalidate id actor now a : op_path K (invalidate_connection_authorizations_with_audit id actor now a).
Proof. apply op_mutate. op_leaf. Qed.
Lemma op_audit a : op_path K (append_audit a).
Proof. apply op_commit. intros t t' []. op_leaf. Qed.
Lemma op_delete id a : K Deletes → op_path K (finalize_connection_delete id a).
Proof. intros HK. apply op_mutate. op_leaf. Qed.
End operations.
#[export] Hint Resolve op_put_role op_grant op_insert op_onboarding op_update_audits op_update op_replace op_bind
  op_switch op_unbind op_cas op_invalidate op_audit op_delete : paths.

(** *** The service's methods *)

(** What a caller can ask of the service, and of what kind its transactions are. *)
Inductive ServiceCall :=
| CreateConnection (request : CreateConnectionRequest) (credential : string)
| Revalidate (connection_id : string)
| RotateCredential (connection_id new_credential : string)
| DisableConnection (connection_id : string)
| DeleteConnection (connection_id : string)
| BindAccount (connection_id provider_account_id vox_account_id : string)
| UnbindAccount (binding_id : string)
| DisableBinding (binding_id : string)
| ReplaceRole (role : Role)
| GrantRole (user_id role_id : string)
| SetAuthorization (connection_id provider_account_id : string) (mode : ExecutionAuthorizationMode)
| SetAuthorizationCas (connection_id provider_account_id : string) (mode : ExecutionAuthorizationMode) (expected : Z)
| ValidateRead (connection_id provider_account_id : string)
| ValidateExecution (connection_id provider_account_id : string) (purpose : ExecutionPurpose) (expected : option Z)
| RecoverLifecycle.

Definition kinds_of (call : ServiceCall) (k : kind) : Prop :=
  match call, k with
  | _, Edits | CreateConnection _ _, Inserts | (DeleteConnection _ | RecoverLifecycle), Deletes => True
  | _, _ => False
  end.

Section paths.
Context {S P E : Type} `{SS : !SecretStore S} `{BP : !BrokerProviderPort P} `{UU : !Uuids E}.
Notation Svc := (Service Repository S P E).
Notation sv A := (st Svc ServiceError A).

Definition run_service (security : SecurityContext) (call : ServiceCall) : sv () :=
  match call with
  | CreateConnection request credential => create_connection security request credential ;;; st_ret tt
  | Revalidate id => revalidate security id ;;; st_ret tt
  | RotateCredential id credential => rotate_credential security id credential ;;; st_ret tt
  | DisableConnection id => disable_connection security id ;;; st_ret tt
  | DeleteConnection id => delete_connection security id
  | BindAccount id account vox => bind_account security id account vox ;;; st_ret tt
  | UnbindAccount id => unbind_account security id
  | DisableBinding id => disable_binding security id
  | ReplaceRole role => replace_role security role
  | GrantRole user role => grant_role security user role
  | SetAuthorization id account mode => set_execution_authorization security id account mode ;;; st_ret tt
  | SetAuthorizationCas id account mode expected =>
      set_execution_authorization_cas security id account mode expected ;;; st_ret tt
  | ValidateRead id account => validate_runtime_read_access id account ;;; st_ret tt
  | ValidateExecution id account purpose expected =>
      validate_runtime_execution_access id account purpose expected ;;; st_ret tt
  | RecoverLifecycle => recover_connection_lifecycle security ;;; st_ret tt
  end.

Definition tables (s : Svc) : Tables := re_tables (sv_repository s).

Definition sv_path {A} (K : kind → Prop) (m : sv A) : Prop := st_effect (λ s s', evolves K (tables s) (tables s')) m.

Section kinds.
Context (K : kind → Prop).

Lemma path_ret {A} (a : A) : sv_path K (st_ret a).
Proof. apply effect_ret. intros s. done. Qed.
Lemma path_fail {A} e : sv_path (A:=A) K (st_fail e).
Proof. apply effect_fail. intros s. done. Qed.
Lemma path_lift {A} (x : result _ A) : sv_path K (st_lift x).
Proof. apply effect_lift. intros s. done. Qed.
Lemma path_bind {A B} (m : sv A) (k : A → sv B) :
  sv_path K m → (∀ a, sv_path K (k a)) → sv_path K (st_bind m k).
Proof. apply effect_bind. intros s1 s2 s3. apply transitivity. Qed.
Lemma path_attempt {A} (m : sv A) : sv_path K m → sv_path K (attempt m).
Proof.
  intros Hm s s' r H. unfold attempt in H. destruct (m s) as [s1 r1] eqn:H1. simplify_eq. by eapply Hm.
Qed.

Lemma path_try_repository {A} (m : st Repository RepositoryError A) : op_path K m → sv_path K (try_repository m).
Proof.
  intros Hm s s' r H. unfold try_repository in H. destruct (m _) as [r1 x] eqn:H1. simplify_eq. by eapply Hm.
Qed.
Lemma path_on_repository {A} (m : st Repository RepositoryError A) : op_path K m → sv_path K (on_repository m).
Proof. intros Hm. apply path_bind; [by apply path_try_repository|]. intros a. apply path_lift. Qed.
Lemma path_try_secrets {A} (m : st S SecretStoreError A) : sv_path K (try_secrets m).
Proof. intros s s' r H. unfold try_secrets in H. destruct (m _). by simplify_eq. Qed.
Lemma path_on_secrets {A} (m : st S SecretStoreError A) : sv_path K (on_secrets m).
Proof. apply path_bind; [apply path_try_secrets|]. intros a. apply path_lift. Qed.
Lemma path_try_provider {A} (m : st P ProviderError A) : sv_path K (try_provider m).
Proof. intros s s' r H. unfold try_provider in H. destruct (m _). by simplify_eq. Qed.
Lemma path_on_provider {A} (m : st P ProviderError A) : sv_path K (on_provider m).
Proof. apply path_bind; [apply path_try_provider|]. intros a. apply path_lift. Qed.
Lemma path_fresh prefix : sv_path K (fresh_id prefix).
Proof. intros s s' r H. unfold fresh_id in H. destruct (next_uuid _). by simplify_eq. Qed.
Lemma path_each {A} (f : A → sv ()) l : (∀ a, sv_path K (f a)) → sv_path K (each f l).
Proof. intros Hf. induction l as [|a l IH]; simpl; [apply path_ret|]. apply path_bind; [apply Hf|done]. Qed.
End kinds.

Hint Resolve path_ret path_fail path_lift path_attempt path_try_secrets path_on_secrets path_try_provider
  path_on_provider path_fresh path_each : paths.

(** Walk through a method, call by call. *)
Ltac walk_path :=
  repeat match goal with
  | |- ∀ _, _ => intro
  | |- sv_path _ (let _ := _ in _) => cbv zeta
  | |- sv_path _ (st_bind _ _) => apply path_bind
  | |- sv_path _ (on_repository _) => apply path_on_repository; simpl
  | |- sv_path _ (try_repository _) => apply path_try_repository; simpl
  | |- sv_path _ (if ?b then _ else _) => destruct b
  | |- sv_path _ (match ?x with _ => _ end) => destruct x
  end; eauto 4 with paths.

Section methods.
Context (K : kind → Prop) (KE : K Edits).

Lemma path_audit_record x action target old new : sv_path K (audit_record x action target old new).
Proof. unfold audit_record, model. walk_path. Qed.
Hint Resolve path_audit_record : paths.
Lemma path_audit x action target old new : sv_path K (audit x action target old new).
Proof. unfold audit. walk_path. Qed.
Lemma path_has x p : sv_path K (has x p).
Proof. unfold has. walk_path. Qed.
Hint Resolve path_audit path_has : paths.
Lemma path_require x p : sv_path K (require x p).
Proof. unfold require. walk_path. Qed.
Lemma path_connection id : sv_path K (connection id).
Proof. unfold connection. walk_path. Qed.
Lemma path_may_lower x : sv_path K (may_lower x).
Proof. unfold may_lower. walk_path. Qed.
Hint Resolve path_require path_connection path_may_lower : paths.
Lemma path_transition x env old new : sv_path K (require_authorization_transition x env old new).
Proof. unfold require_authorization_transition. walk_path. Qed.
Lemma path_bound id account vox : sv_path K (bound_healthy_target id account vox).
Proof. unfold bound_healthy_target. walk_path. Qed.
Lemma path_bound_vox id account : sv_path K (bound_vox_account id account).
Proof. unfold bound_vox_account. walk_path. Qed.
Lemma path_conflict id l : sv_path K (authorization_conflict id l).
Proof. induction l as [|a l IH]; simpl; walk_path. Qed.
Lemma path_revoke_one x c a : sv_path K (revoke_one x c a).
Proof. unfold revoke_one. walk_path. Qed.
Hint Resolve path_transition path_bound path_bound_vox path_conflict path_revoke_one : paths.
Lemma path_revoke x c l : sv_path K (revoke_invalid_authorizations x c l).
Proof. unfold revoke_invalid_authorizations. walk_path. Qed.
Hint Resolve path_revoke : paths.

Lemma path_create x request credential : K Inserts → sv_path K (create_connection x request credential).
Proof. intros HK. unfold create_connection, model. walk_path. Qed.
Lemma path_revalidate x id : sv_path K (revalidate x id).
Proof. unfold revalidate. walk_path. Qed.
Lemma path_persist x id old c l : sv_path K (persist_rotation x id old c l).
Proof. unfold persist_rotation. walk_path. Qed.
Lemma path_compensate id old c credential l now e : sv_path K (compensate id old c credential l now e).
Proof. unfold compensate. walk_path. Qed.
Hint Resolve path_revalidate path_persist path_compensate : paths.
Lemma path_rotate x id credential : sv_path K (rotate_credential x id credential).
Proof. unfold rotate_credential. walk_path. Qed.
Lemma path_disable x id : sv_path K (disable_connection x id).
Proof. unfold disable_connection. walk_path. Qed.
Lemma path_discard ref : sv_path K (discard_secret ref).
Proof. unfold discard_secret. walk_path. Qed.
Hint Resolve path_discard : paths.
Lemma path_delete x id : K Deletes → sv_path K (delete_connection x id).
Proof. intros HK. unfold delete_connection, cn_begin_connection_delete_with_audit. walk_path. Qed.
Lemma path_bind_account x id account vox : sv_path K (bind_account x id account vox).
Proof. unfold bind_account, model. walk_path. Qed.
Lemma path_cas x id account mode expected :
  sv_path K (set_execution_authorization_cas x id account mode expected).
Proof. unfold set_execution_authorization_cas. walk_path. Qed.
Hint Resolve path_cas : paths.
Lemma path_set x id account mode : sv_path K (set_execution_authorization x id account mode).
Proof. unfold set_execution_authorization. walk_path. Qed.
Lemma path_read_access id account vox : sv_path K (validate_read_access id account vox).
Proof. unfold validate_read_access. walk_path. Qed.
Lemma path_execution_access id account vox purpose expected :
  sv_path K (validate_execution_access id account vox purpose expected).
Proof. unfold validate_execution_access. walk_path. Qed.
Hint Resolve path_read_access path_execution_access : paths.

Lemma path_mark_invalid x action old detail c : sv_path K (mark_invalid x action old detail c).
Proof. unfold mark_invalid. walk_path. Qed.
Lemma path_fingerprint ref l : sv_path K (fingerprint_of ref l).
Proof. unfold fingerprint_of. walk_path. Qed.
Hint Resolve path_mark_invalid path_fingerprint : paths.
Lemma path_recover_one x l report c : K Deletes → sv_path K (recover_one x l report c).
Proof.
  intros HK. unfold recover_one, recover_onboarding, recover_delete, recover_disable, recover_rotation,
    verify_credential, fail_pending_onboarding, disable_inconsistent_connection. walk_path.
Qed.
Hint Resolve path_recover_one : paths.
Lemma path_recover_all x l report cs : K Deletes → sv_path K (recover_all x l report cs).
Proof. intros HK. revert report. induction cs as [|c cs IH]; intros report; simpl; walk_path. Qed.
Lemma path_quarantine x cs report l : sv_path K (quarantine x cs report l).
Proof. revert report. induction l as [|m l IH]; intros report; simpl; walk_path. Qed.
End methods.

Hint Resolve path_create path_revalidate path_rotate path_disable path_delete path_bind_account path_cas path_set
  path_read_access path_execution_access path_bound_vox path_require path_audit_record path_recover_all
  path_quarantine : paths.

(** Every call is a sequence of transactions of its kinds. *)
Lemma path_run x call : sv_path (kinds_of call) (run_service x call).
Proof.
  assert (kinds_of call Edits) as HE by by destruct call.
  destruct call; simpl; walk_path; try done; unfold unbind_account, disable_binding, replace_role, model, grant_role,
    validate_runtime_read_access, validate_runtime_execution_access, recover_connection_lifecycle; walk_path.
Qed.
End paths.

(** ** Consistent tables *)

(** The keys are keys, the unique columns are unique, and every row has its parents. *)
Record consistent (t : Tables) : Prop := {
  users_keyed : keyed us_id (tb_users t);
  roles_keyed : keyed ro_id (tb_roles t);
  roles_named : keyed ro_name (tb_roles t);
  permissions_distinct : NoDup (tb_role_permissions t);
  permissions_owned : ∀ rp, rp ∈ tb_role_permissions t → rp.1 ∈ ro_id <$> tb_roles t;
  grants_distinct : NoDup (tb_user_roles t);
  grants_owned : ∀ ur, ur ∈ tb_user_roles t → ur.1 ∈ us_id <$> tb_users t ∧ ur.2 ∈ ro_id <$> tb_roles t;
  connections_keyed : keyed bc_id (tb_connections t);
  credentials_unshared : keyed bc_credential_ref (tb_connections t);
  accounts_keyed : keyed account_key (tb_accounts t);
  accounts_owned : ∀ a, a ∈ tb_accounts t → ac_connection_id a ∈ bc_id <$> tb_connections t;
  bindings_keyed : keyed bb_id (tb_bindings t);
  vox_accounts_bound_once : keyed bb_vox_account_id (tb_bindings t);
  accounts_bound_once : keyed binding_key (tb_bindings t);
  bindings_owned : ∀ b, b ∈ tb_bindings t → binding_key b ∈ account_key <$> tb_accounts t;
  authorizations_keyed : keyed authorization_key (tb_authorizations t);
  authorizations_owned : ∀ e, e ∈ tb_authorizations t →
    authorization_key e ∈ account_key <$> tb_accounts t ∧ ea_changed_by e ∈ us_id <$> tb_users t;
  revisions_fit : ∀ e, e ∈ tb_authorizations t → ea_authorization_revision e ≤ int_max I64;
  audit_signed : ∀ r, r ∈ tb_audit t → aud_actor r ∈ us_id <$> tb_users t;
}.

(** A write that succeeds keeps the tables consistent. *)
Definition keeps {A} (m : st Tables RepositoryError A) : Prop :=
  ∀ t t' a, m t = (t', Ok a) → consistent t → consistent t'.

Lemma keeps_bind {A B} (m : st Tables RepositoryError A) (k : A → st Tables RepositoryError B) :
  keeps m → (∀ a, keeps (k a)) → keeps (st_bind m k).
Proof. intros Hm Hk t t' b (t1 & a & H1 & H2)%st_bind_Ok Ht. eapply Hk; [done|]. by eapply Hm. Qed.

Lemma keeps_each {A} (f : A → st Tables RepositoryError ()) l : (∀ a, keeps (f a)) → keeps (each f l).
Proof.
  intros Hf. induction l as [|a l IH]; simpl; [|by apply keeps_bind].
  intros t t' u H. unfold st_ret in H. by simplify_eq.
Qed.

(** A checked write, read off. *)
Lemma holding_Ok ok {A} (k : st Tables RepositoryError A) t t' a :
  (holding ok ;;; k) t = (t', Ok a) → ok = true ∧ k t = (t', Ok a).
Proof. unfold holding, st_bind. by destruct ok. Qed.

Lemma bind_u64_Ok v {A} (k : Z → st Tables RepositoryError A) t t' a :
  st_bind (bind_u64 v) k t = (t', Ok a) → has_ty I64 v ∧ k v t = (t', Ok a).
Proof.
  unfold bind_u64, st_bind, st_lift. destruct (checked I64 v) as [w|] eqn:Hc; simpl; [|done].
  by apply checked_Some in Hc as [-> ?].
Qed.

Ltac open_write H :=
  repeat first
    [ apply holding_Ok in H as [? H]
    | apply bind_u64_Ok in H as [? H]
    | progress cbv zeta in H
    | match type of H with (if ?b then _ else _) _ = _ => destruct b eqn:? end
    | match type of H with st_bind st_get _ _ = _ => unfold st_bind at 1, st_get at 1 in H end
    | match type of H with st_bind (st_put _) _ _ = _ => unfold st_bind at 1, st_put at 1 in H end ];
  unfold st_put, st_fail, st_ret in H; simplify_eq.

Lemma existsb_key {R K} `{!EqDecision K} (key : R → K) k l : existsb (by_key key k) l = true ↔ k ∈ key <$> l.
Proof.
  rewrite List.existsb_exists, list_elem_of_fmap. split.
  - intros (x & Hx & Hk). apply bool_decide_eq_true in Hk. exists x. split; [done|by apply list_elem_of_In].
  - intros (x & -> & Hx). exists x. split; [by apply list_elem_of_In|]. by apply bool_decide_eq_true.
Qed.
Lemma existsb_key_not {R K} `{!EqDecision K} (key : R → K) k l : existsb (by_key key k) l = false ↔ k ∉ key <$> l.
Proof. rewrite <- existsb_key. by destruct (existsb _ _). Qed.

(** *** [ON CONFLICT DO UPDATE] *)

Section upserts.
Context {R K : Type} `{!EqDecision K} (key : R → K).

Lemma upsert_keys row l :
  key <$> upsert key (λ _ new, new) row l =
    if existsb (by_key key (key row)) l then key <$> l else (key <$> l) ++ [key row].
Proof.
  unfold upsert. destruct (existsb _ l); [|by rewrite fmap_app].
  apply update_where_keys_at. intros r Hr. by apply bool_decide_eq_true in Hr.
Qed.

Lemma keyed_upsert row l : keyed key l → keyed key (upsert key (λ _ new, new) row l).
Proof.
  intros Hk. unfold keyed. rewrite upsert_keys. destruct (existsb _ l) eqn:Hx; [done|].
  apply existsb_key_not in Hx. apply NoDup_app. split; [done|]. split; [|apply NoDup_singleton].
  intros k Hin ->%list_elem_of_singleton. done.
Qed.

Lemma elem_of_upsert_keys row l k : k ∈ key <$> upsert key (λ _ new, new) row l ↔ k = key row ∨ k ∈ key <$> l.
Proof.
  rewrite upsert_keys. destruct (existsb _ l) eqn:Hx.
  - apply existsb_key in Hx. naive_solver.
  - rewrite elem_of_app, list_elem_of_singleton. naive_solver.
Qed.

Lemma elem_of_upsert row l r :
  r ∈ upsert key (λ _ new, new) row l → r = row ∨ r ∈ l ∧ key r ≠ key row.
Proof.
  unfold upsert. destruct (existsb _ l) eqn:Hx.
  - intros (x & Hin & ->)%elem_of_update_where. unfold by_key. case_bool_decide; eauto.
  - apply existsb_key_not in Hx. intros [Hin|Hin%list_elem_of_singleton]%elem_of_app; [|by left].
    right. split; [done|]. intros Hr. apply Hx. rewrite <- Hr. by apply list_elem_of_fmap_2.
Qed.

(** A second unique column stays unique when no other row has the new value. *)
Lemma keyed_upsert_other {N} `{!EqDecision N} (name : R → N) row l :
  keyed key l → keyed name l → (∀ r, r ∈ l → name r = name row → key r = key row) →
  keyed name (upsert key (λ _ new, new) row l).
Proof.
  intros Hk Hn Hrow. unfold upsert. destruct (existsb _ l) eqn:Hx.
  - unfold keyed, update_where. rewrite <- list_fmap_compose. apply NoDup_fmap_2_strong.
    + intros x y Hx1 Hy1. unfold by_key; simpl. repeat case_bool_decide; intros Heq.
      * by apply (keyed_unique key l); [| | |congruence].
      * destruct H0. by apply Hrow.
      * destruct H. by apply Hrow.
      * by apply (keyed_unique name l).
    + by apply (NoDup_fmap_1 key).
  - apply keyed_snoc; [done|]. apply existsb_key_not in Hx. intros (r & Hr & Hin)%list_elem_of_fmap.
    apply Hx. rewrite <- (Hrow r Hin) by done. by apply list_elem_of_fmap_2.
Qed.
End upserts.

Lemma NoDup_filter_bool {A} (p : A → bool) l : NoDup l → NoDup (List.filter p l).
Proof. rewrite !NoDup_ListNoDup. apply List.NoDup_filter. Qed.
Lemma elem_of_snoc {A} (l : list A) x y : x ∈ l ++ [y] ↔ x ∈ l ∨ x = y.
Proof. by rewrite elem_of_app, list_elem_of_singleton. Qed.

(** *** Each write *)

(** The fields of [consistent] that a write does not concern. *)
Ltac frame Ht := destruct Ht; constructor; cbn; try done.

Lemma user_known id t : user_exists id t = true ↔ id ∈ us_id <$> tb_users t.
Proof. apply existsb_key. Qed.
Lemma account_known key t : parent_account key t = true ↔ key ∈ account_key <$> tb_accounts t.
Proof. apply existsb_key. Qed.

Lemma keeps_audit a : keeps (append_audit_row a).
Proof.
  intros t t' u H Ht. unfold append_audit_row in H. open_write H. rewrite user_known in H0.
  frame Ht. intros r [Hr| ->]%elem_of_snoc; auto.
Qed.

Lemma keeps_permission id p t t' u :
  write_permission id p t = (t', Ok u) → consistent t → id ∈ ro_id <$> tb_roles t →
  consistent t' ∧ tb_roles t' = tb_roles t.
Proof.
  intros H Ht Hid. unfold write_permission in H. open_write H. apply negb_true_iff, bool_decide_eq_false in H0.
  split; [|done]. frame Ht.
  - apply NoDup_app. split; [done|]. split; [|apply NoDup_singleton]. by intros x Hx ->%list_elem_of_singleton.
  - intros rp [Hr| ->]%elem_of_snoc; auto.
Qed.

Lemma keeps_role role : keeps (write_role role).
Proof.
  intros t t' u H Ht. unfold write_role in H. open_write H. rename H0 into Hname.
  apply negb_true_iff in Hname. rewrite existsb_false in Hname.
  set (t1 := put_roles _ _ t) in H.
  assert (consistent t1 ∧ rl_id role ∈ ro_id <$> tb_roles t1) as [Ht1 Hin].
  { split; [|unfold t1; cbn; apply elem_of_upsert_keys; by left].
    pose proof Ht as Ht'. frame Ht'; intros.
    - by apply keyed_upsert.
    - apply (keyed_upsert_other ro_id ro_name); [done|done|]. intros r Hr Hn. specialize (Hname r Hr). cbn in *.
      rewrite bool_decide_eq_true_2 in Hname by done. by apply negb_false_iff, bool_decide_eq_true in Hname.
    - by apply NoDup_filter_bool.
    - apply elem_of_upsert_keys. right. apply permissions_owned0. by eapply elem_of_filter_bool.
    - destruct (grants_owned0 _ H0). split; [done|]. apply elem_of_upsert_keys. by right. }
  clearbody t1. revert t1 H Ht1 Hin. induction (rl_permissions role) as [|p l IH]; simpl; intros t1 H Ht1 Hin.
  { unfold st_ret in H. by simplify_eq. }
  apply st_bind_Ok in H as (t2 & v & H1 & H2).
  destruct (keeps_permission _ _ _ _ _ H1 Ht1 Hin) as [Ht2 Hr]. apply (IH t2); try done. by rewrite Hr.
Qed.

Lemma keeps_grant u r : keeps (write_grant u r).
Proof.
  intros t t' v H Ht. unfold write_grant in H. open_write H; [done|].
  apply andb_true_iff in H0 as [Hu Hr]. rewrite user_known in Hu. rewrite existsb_key in Hr.
  apply bool_decide_eq_false in Heqb. frame Ht.
  - apply NoDup_app. split; [done|]. split; [|apply NoDup_singleton]. by intros x Hx ->%list_elem_of_singleton.
  - intros ur [Hur| ->]%elem_of_snoc; auto.
Qed.

Lemma keeps_connection c update : keeps (write_connection c update).
Proof.
  intros t t' v H Ht. unfold write_connection in H. open_write H.
  - assert (∀ K (key : BrokerConnection → K), (∀ old, key (overwrite old c) = key old) →
      key <$> update_where (by_key bc_id (bc_id c)) (λ old, overwrite old c) (tb_connections t)
      = key <$> tb_connections t) as Hkeys by (intros; by apply update_where_keys).
    frame Ht; unfold keyed in *; by rewrite Hkeys.
  - apply negb_true_iff in H0. rewrite existsb_false in H0.
    assert (∀ K `{!EqDecision K} (key : BrokerConnection → K),
      (∀ x, by_key key (key c) x = true → by_key bc_id (bc_id c) x || by_key bc_credential_ref (bc_credential_ref c) x = true) →
      keyed key (tb_connections t) → keyed key (tb_connections t ++ [c])) as Hsnoc.
    { intros K ? key Hkey Hk. apply keyed_snoc; [done|]. intros (x & Hx & Hin)%list_elem_of_fmap.
      specialize (H0 x Hin). rewrite Hkey in H0; [done|]. by apply bool_decide_eq_true. }
    frame Ht.
    + apply (Hsnoc _ _ bc_id); [|done]. by intros x ->.
    + apply (Hsnoc _ _ bc_credential_ref); [|done]. intros x ->. by rewrite orb_true_r.
    + intros a Ha. rewrite fmap_app. apply elem_of_app. auto.
Qed.

Lemma keeps_insert_account id a : keeps (insert_account id a).
Proof.
  intros t t' v H Ht. unfold insert_account in H. open_write H.
  apply negb_false_iff, bool_decide_eq_true in Heqb. apply andb_true_iff in H0 as [Hn Hc].
  apply negb_true_iff in Hn. unfold parent_account in Hn. rewrite existsb_key_not in Hn. rewrite existsb_key in Hc.
  frame Ht.
  - by apply keyed_snoc.
  - intros x [Hx| ->]%elem_of_snoc; [auto|by rewrite Heqb].
  - intros b Hb. rewrite fmap_app. apply elem_of_app. auto.
  - intros e He. rewrite fmap_app. split; [apply elem_of_app; left|]; by apply authorizations_owned0.
Qed.

Lemma keeps_upsert_account id a : keeps (upsert_account id a).
Proof.
  intros t t' v H Ht. unfold upsert_account in H. open_write H.
  apply negb_false_iff, bool_decide_eq_true in Heqb. rewrite existsb_key in H0. frame Ht.
  - by apply keyed_upsert.
  - intros x [->|[Hx _]]%elem_of_upsert; [by rewrite Heqb|auto].
  - intros b Hb. apply elem_of_upsert_keys. auto.
  - intros e He. split; [apply elem_of_upsert_keys; right|]; by apply authorizations_owned0.
Qed.

Lemma keeps_replace id l : keeps (replace_accounts_tx id l).
Proof.
  intros t t' v H Ht. unfold replace_accounts_tx in H. open_write H.
  eapply (keeps_each (upsert_account id) l); [apply keeps_upsert_account|exact H|].
  set (p := by_key ac_connection_id id).
  assert (∀ K (key : BrokerAccount → K), (∀ a, key (set_accessible false a) = key a) →
    key <$> update_where p (set_accessible false) (tb_accounts t) = key <$> tb_accounts t) as Hkeys
    by (intros; by apply update_where_keys).
  frame Ht; fold p; unfold keyed in *; rewrite ?Hkeys by done; try done.
  intros a (x & Hx & ->)%elem_of_update_where. destruct (p x); exact (accounts_owned0 x Hx).
Qed.

Lemma keeps_insert_authorization id e : keeps (insert_authorization id e).
Proof.
  intros t t' v H Ht. unfold insert_authorization in H. open_write H.
  apply andb_true_iff in H1 as [[Hn Ha]%andb_true_iff Hu].
  apply negb_true_iff in Hn. rewrite existsb_key_not in Hn. rewrite account_known in Ha. rewrite user_known in Hu.
  frame Ht.
  - by apply keyed_snoc.
  - intros x [Hx| ->]%elem_of_snoc; auto.
  - intros x [Hx| ->]%elem_of_snoc; [auto|]. int_lia.
Qed.

Lemma keeps_binding b : keeps (write_binding b).
Proof.
  intros t t' v H Ht. unfold write_binding in H. open_write H. apply andb_true_iff in H0 as [Hn Ha].
  apply negb_true_iff in Hn. rewrite existsb_false in Hn. rewrite account_known in Ha.
  assert (∀ K `{!EqDecision K} (key : BrokerAccountBinding → K),
    (∀ x, key x = key b → by_key bb_id (bb_id b) x || by_key bb_vox_account_id (bb_vox_account_id b) x
                               || by_key binding_key (binding_key b) x = true) →
    keyed key (tb_bindings t) → keyed key (tb_bindings t ++ [b])) as Hsnoc.
  { intros K ? key Hkey Hk. apply keyed_snoc; [done|]. intros (x & Hx & Hin)%list_elem_of_fmap.
    specialize (Hn x Hin). by rewrite Hkey in Hn. }
  frame Ht.
  1-3: first [apply (Hsnoc _ _ bb_id)|apply (Hsnoc _ _ bb_vox_account_id)|apply (Hsnoc _ _ binding_key)]; [|done];
    intros x Hx; unfold by_key;
    rewrite (bool_decide_eq_true_2 _ Hx), ?orb_true_r; done.
  intros x [Hx| ->]%elem_of_snoc; auto.
Qed.

Lemma keeps_unbind id : keeps (write_delete_binding id).
Proof.
  intros t t' v H Ht. unfold write_delete_binding in H. open_write H.
  frame Ht; try by apply keyed_filter. intros b [Hb _]%elem_of_filter_bool. auto.
Qed.

Lemma keeps_switch id enabled now : keeps (write_binding_enabled id enabled now).
Proof.
  intros t t' v H Ht. unfold write_binding_enabled in H. open_write H.
  frame Ht; try by apply keyed_update. intros b (x & Hx & ->)%elem_of_update_where.
  destruct (by_key bb_id id x); exact (bindings_owned0 x Hx).
Qed.

Lemma keeps_cas e expected : keeps (write_authorization_cas e expected).
Proof.
  intros t t' v H Ht. unfold write_authorization_cas in H. open_write H.
  apply orb_false_iff in Heqb as [Hc _]. apply negb_false_iff in Hc. rewrite Hc in *. simpl in *.
  rewrite user_known in *.
  set (p := λ x, _ && _) in *. frame Ht; fold p.
  - unfold keyed. rewrite update_where_keys_at; [done|]. intros r [Hr _]%andb_true_iff. by apply bool_decide_eq_true in Hr.
  - intros x (y & Hy & ->)%elem_of_update_where. destruct (p y) eqn:Hp; [|auto].
    split; [|done]. unfold p in Hp. apply andb_true_iff in Hp as [Hp _]. apply bool_decide_eq_true in Hp.
    rewrite <- Hp. by apply authorizations_owned0.
  - intros x (y & Hy & ->)%elem_of_update_where. destruct (p y); [int_lia|auto].
Qed.

Lemma keeps_invalidate id actor now : keeps (invalidate_tx id actor now).
Proof.
  intros t t' v H Ht. unfold invalidate_tx in H. open_write H. apply andb_true_iff in H0 as [Hfit Hu].
  rewrite List.forallb_forall in Hfit. set (p := by_key ea_connection_id id) in *.
  assert (∀ x, x ∈ tb_authorizations t → p x = true →
    actor ∈ us_id <$> tb_users t ∧ ea_authorization_revision x + 1 ≤ int_max I64) as Hrow.
  { intros x Hx Hp. assert (x ∈ List.filter p (tb_authorizations t)) as Hf by by apply elem_of_filter_bool.
    apply list_elem_of_In in Hf. specialize (Hfit _ Hf). apply fits_spec in Hfit. split; [|int_lia].
    apply user_known. by destruct (List.filter _ _). }
  frame Ht; fold p.
  - by apply keyed_update.
  - intros x (y & Hy & ->)%elem_of_update_where. destruct (p y) eqn:Hp; [|auto].
    split; [exact (proj1 (authorizations_owned0 y Hy))|]. by apply Hrow in Hp as [? _].
  - intros x (y & Hy & ->)%elem_of_update_where. destruct (p y) eqn:Hp; [|auto]. by apply Hrow in Hp as [_ ?].
Qed.

(** The rows of a deleted connection go with it. *)
Lemma keeps_delete id : keeps (delete_row id).
Proof.
  intros t t' v H Ht. unfold delete_row in H. open_write H.
  assert (∀ e, e ∈ List.filter (λ r, negb (by_key ac_connection_id id r)) (tb_accounts t) ↔
    e ∈ tb_accounts t ∧ ac_connection_id e ≠ id) as Hacc.
  { intros a. rewrite elem_of_filter_bool, negb_true_iff. unfold by_key. by rewrite bool_decide_eq_false. }
  assert (∀ k, k.1 ≠ id → k ∈ account_key <$> tb_accounts t →
    k ∈ account_key <$> List.filter (λ r, negb (by_key ac_connection_id id r)) (tb_accounts t)) as Hown.
  { intros k Hk (a & -> & Ha)%list_elem_of_fmap. apply list_elem_of_fmap_2. by apply Hacc. }
  unfold cascade_delete. frame Ht; try by apply keyed_filter.
  - intros a [Ha Hne]%Hacc. apply accounts_owned0, list_elem_of_fmap in Ha as (c & Hc & Hin).
    rewrite Hc. apply list_elem_of_fmap_2, elem_of_filter_bool. split; [done|].
    apply negb_true_iff, bool_decide_eq_false. congruence.
  - intros b [Hb Hne]%elem_of_filter_bool. apply Hown; [|auto]. by apply negb_true_iff, bool_decide_eq_false in Hne.
  - intros e [He Hne]%elem_of_filter_bool. apply authorizations_owned0 in He as [He Hu]. split; [|done].
    apply Hown; [|done]. by apply negb_true_iff, bool_decide_eq_false in Hne.
  - intros e [He Hne]%elem_of_filter_bool. auto.
Qed.

Create HintDb keeping.
#[export] Hint Resolve keeps_audit keeps_role keeps_grant keeps_connection keeps_insert_account keeps_replace
  keeps_insert_authorization keeps_binding keeps_unbind keeps_switch keeps_cas keeps_invalidate keeps_delete
  keeps_bind keeps_each : keeping.

Lemma committed_consistent k t t' : committed k t t' → consistent t → consistent t'.
Proof.
  destruct 1; revert H; unfold audited; match goal with |- ?m _ = _ → _ => enough (keeps m) by eauto end;
    eauto 8 with keeping.
Qed.

Lemma evolves_consistent (K : kind → Prop) t t' : evolves K t t' → consistent t → consistent t'.
Proof.
  apply (evolves_ind_preorder _ (λ t t', consistent t → consistent t')); [by intros t0|intros t1 t2 t3; auto|].
  intros k t1 t2 _ Hc. by eapply committed_consistent.
Qed.

(** ** Revisions of execution authorisations *)

Definition authorization_at (k : string * string) (t : Tables) : option ExecutionAuthorization :=
  List.find (by_key authorization_key k) (tb_authorizations t).

(** An authorisation and what it has become: any change of the mode has a new revision,
    and a revision is never taken back. *)
Definition newer (e e' : ExecutionAuthorization) : Prop :=
  ea_authorization_revision e ≤ ea_authorization_revision e' ∧
  (ea_mode e' ≠ ea_mode e → ea_authorization_revision e < ea_authorization_revision e').

#[export] Instance newer_refl : Reflexive newer.
Proof. intros e. split; [done|]. by intros []. Qed.
#[export] Instance newer_trans : Transitive newer.
Proof.
  intros e1 e2 e3 [H1 H2] [H3 H4]. split; [lia|]. intros Hne.
  destruct (decide (ea_mode e2 = ea_mode e1)) as [Heq|Hne2]; [|specialize (H2 Hne2); lia].
  rewrite <- Heq in Hne. specialize (H4 Hne). lia.
Qed.

(** Every authorisation of a connection that is still there has moved forward. *)
Definition forward (live : string → Prop) (t t' : Tables) : Prop :=
  ∀ k e, live k.1 → authorization_at k t = Some e → ∃ e', authorization_at k t' = Some e' ∧ newer e e'.
Notation forward_all := (forward (λ _, True)).

#[export] Instance forward_refl live : Reflexive (forward live).
Proof. intros t k e _ He. by exists e. Qed.
#[export] Instance forward_trans live : Transitive (forward live).
Proof.
  intros t1 t2 t3 H12 H23 k e Hk (e2 & He2 & Hn)%H12; [|done].
  destruct (H23 k e2 Hk He2) as (e3 & He3 & Hn'). exists e3. split; [done|]. by etrans.
Qed.

(** Tables that agree on the authorisations and on which connections there are. *)
Definition same_grants (t t' : Tables) : Prop :=
  tb_authorizations t' = tb_authorizations t ∧ bc_id <$> tb_connections t' = bc_id <$> tb_connections t.
#[export] Instance same_grants_refl : Reflexive same_grants.
Proof. by intros t. Qed.
#[export] Instance same_grants_trans : Transitive same_grants.
Proof. intros t1 t2 t3 [] []. split; congruence. Qed.

(** Writes, by their effect on the authorisations. *)
Definition writes {A} (Q : Tables → Tables → Prop) (m : st Tables RepositoryError A) : Prop :=
  ∀ t t' a, m t = (t', Ok a) → Q t t'.

Lemma writes_bind {A B} Q `{!Transitive Q} (m : st Tables RepositoryError A) (k : A → st Tables RepositoryError B) :
  writes Q m → (∀ a, writes Q (k a)) → writes Q (st_bind m k).
Proof. intros Hm Hk t t' b (t1 & a & H1 & H2)%st_bind_Ok. transitivity t1; [by eapply Hm|by eapply Hk]. Qed.
Lemma writes_each {A} Q `{!Reflexive Q} `{!Transitive Q} (f : A → st Tables RepositoryError ()) l :
  (∀ a, writes Q (f a)) → writes Q (each f l).
Proof.
  intros Hf. induction l as [|a l IH]; simpl; [|by apply writes_bind].
  intros t t' u H. unfold st_ret in H. by simplify_eq.
Qed.

Create HintDb writing.
Ltac other_table := intros t t' v H; open_write H; done.

Lemma same_audit a : writes same_grants (append_audit_row a).
Proof. unfold append_audit_row. other_table. Qed.
Lemma same_grant u r : writes same_grants (write_grant u r).
Proof. unfold write_grant. other_table. Qed.
Lemma same_permission id p : writes same_grants (write_permission id p).
Proof. unfold write_permission. other_table. Qed.
#[export] Hint Resolve same_permission : writing.
Lemma same_role role : writes same_grants (write_role role).
Proof.
  intros t t' v H. unfold write_role in H. open_write H.
  apply (writes_each same_grants) in H; [|eauto with writing]. by destruct H.
Qed.
Lemma same_connection c : writes same_grants (write_connection c true).
Proof.
  intros t t' v H. unfold write_connection in H. open_write H. split; [done|]. cbn. by apply update_where_keys.
Qed.
Lemma same_insert_account id a : writes same_grants (insert_account id a).
Proof. unfold insert_account. other_table. Qed.
Lemma same_upsert_account id a : writes same_grants (upsert_account id a).
Proof. unfold upsert_account. other_table. Qed.
#[export] Hint Resolve same_upsert_account : writing.
Lemma same_replace id l : writes same_grants (replace_accounts_tx id l).
Proof.
  intros t t' v H. unfold replace_accounts_tx in H. open_write H.
  apply (writes_each same_grants) in H; [|eauto with writing]. by destruct H.
Qed.
Lemma same_binding b : writes same_grants (write_binding b).
Proof. unfold write_binding. other_table. Qed.
Lemma same_unbind id : writes same_grants (write_delete_binding id).
Proof. unfold write_delete_binding. other_table. Qed.
Lemma same_switch id enabled now : writes same_grants (write_binding_enabled id enabled now).
Proof. unfold write_binding_enabled. other_table. Qed.
#[export] Hint Resolve same_audit same_grant same_role same_connection same_insert_account same_replace
  same_binding same_unbind same_switch : writing.

(** Every authorisation moves forward and no connection is added or removed. *)
Definition progress_of (t t' : Tables) : Prop :=
  forward_all t t' ∧ bc_id <$> tb_connections t' = bc_id <$> tb_connections t.
#[export] Instance progress_refl : Reflexive progress_of.
Proof. by intros t. Qed.
#[export] Instance progress_trans : Transitive progress_of.
Proof. intros t1 t2 t3 [] []. split; [by etrans|congruence]. Qed.

Lemma same_progress {A} (m : st Tables RepositoryError A) : writes same_grants m → writes progress_of m.
Proof.
  intros Hm t t' a H. destruct (Hm _ _ _ H) as [He Hc]. split; [|done].
  intros k e _ Hk. exists e. split; [|done]. unfold authorization_at. by rewrite He.
Qed.

Lemma progress_insert id e : writes progress_of (insert_authorization id e).
Proof.
  intros t t' v H. unfold insert_authorization in H. open_write H. split; [|done].
  intros k x _ Hk. exists x. split; [|done]. unfold authorization_at in *. cbn. by rewrite find_snoc, Hk.
Qed.

(** Rows rewritten under their keys into newer ones. *)
Lemma forward_update p f t :
  (∀ e, p e = true → authorization_key (f e) = authorization_key e ∧ newer e (f e)) →
  progress_of t (put_authorizations (update_where p f (tb_authorizations t)) t).
Proof.
  intros Hf. split; [|done]. intros k e _ Hk. unfold authorization_at in *. cbn.
  rewrite find_update_where by (intros; by apply Hf). rewrite Hk. cbn.
  exists (if p e then f e else e). split; [done|]. destruct (p e) eqn:Hp; [by apply Hf|done].
Qed.

Lemma progress_cas e expected : writes progress_of (write_authorization_cas e expected).
Proof.
  intros t t' v H. unfold write_authorization_cas in H. open_write H.
  apply orb_false_iff in Heqb as [_ Hrev]. apply negb_false_iff, Z.eqb_eq in Hrev.
  apply forward_update. intros x [Hk Hx]%andb_true_iff. apply bool_decide_eq_true in Hk. apply Z.eqb_eq in Hx.
  split; [done|]. unfold saturating_add, saturate in Hrev. int_unfold. split; [lia|intros _; lia].
Qed.

Lemma progress_invalidate id actor now : writes progress_of (invalidate_tx id actor now).
Proof.
  intros t t' v H. unfold invalidate_tx in H. open_write H. apply forward_update.
  intros e _. split; [done|]. split; cbn; [lia|done].
Qed.
#[export] Hint Resolve same_progress progress_insert progress_cas progress_invalidate writes_bind writes_each : writing.

(** What a transaction does to the authorisations. *)
Lemma committed_edits t t' : committed Edits t t' → progress_of t t'.
Proof.
  inversion 1; subst; match goal with H : ?m t = (t', Ok tt) |- _ => revert H; generalize t t' end; unfold audited;
    match goal with |- ∀ t t', ?m t = _ → _ => enough (writes progress_of m) by (intros; eauto) end;
    repeat match goal with
    | |- writes _ (st_bind _ _) => apply writes_bind; [apply _| |intros _]
    | |- writes _ (each _ _) => apply writes_each; [apply _|apply _|intros ?]
    end;
    eauto 3 with writing.
Qed.

Lemma committed_inserts t t' : committed Inserts t t' → forward_all t t'.
Proof.
  inversion 1; subst. match goal with H : audited _ _ _ = _ |- _ => rename H into Hc end.
  apply st_bind_Ok in Hc as (t1 & [] & H1 & H2). apply (writes_each same_grants) in H2 as [H2 _]; [|eauto with writing].
  unfold write_connection in H1. open_write H1. intros k e _ He. exists e. split; [|done].
  unfold authorization_at in *. by rewrite H2.
Qed.

Lemma committed_deletes t t' :
  committed Deletes t t' → consistent t →
  forward (λ id, id ∈ bc_id <$> tb_connections t') t t' ∧
  ∀ id, id ∈ bc_id <$> tb_connections t' → id ∈ bc_id <$> tb_connections t.
Proof.
  inversion 1; subst. intros Ht. match goal with H : audited _ _ _ = _ |- _ => rename H into Hc end.
  apply st_bind_Ok in Hc as (t1 & [] & H1 & H2).
  apply (writes_each same_grants) in H2 as [H2 H3]; [|eauto with writing].
  unfold delete_row in H1. open_write H1. cbn in H3. rewrite H3.
  assert (∀ k, k ∈ bc_id <$> List.filter (λ r, negb (by_key bc_id id r)) (tb_connections t) →
    k ≠ id ∧ k ∈ bc_id <$> tb_connections t) as Hids.
  { intros k (c & -> & [Hc Hne]%elem_of_filter_bool)%list_elem_of_fmap.
    apply negb_true_iff, bool_decide_eq_false in Hne. split; [done|]. by apply list_elem_of_fmap_2. }
  split; [|by intros k [_ Hk]%Hids]. intros k e [Hne _]%Hids He. exists e. split; [|done].
  unfold authorization_at in *. rewrite H2. cbn. rewrite find_filter by apply Ht. rewrite He.
  apply find_by_key in He as [_ Hk]. unfold by_key. rewrite bool_decide_eq_false_2; [done|]. by rewrite <- Hk in Hne.
Qed.

(** Without deletions every authorisation moves forward; without insertions those of the
    connections that are left do. *)
Lemma evolves_forward (K : kind → Prop) t t' : ¬ K Deletes → evolves K t t' → forward_all t t'.
Proof.
  intros HK. apply evolves_ind_preorder; [apply _..|]. intros [] t1 t2 Hk H; [by apply committed_inserts|done|].
  by apply committed_edits in H as [? _].
Qed.

Lemma evolves_shrinking (K : kind → Prop) t t' :
  ¬ K Inserts → evolves K t t' → consistent t →
  consistent t' ∧ (∀ id, id ∈ bc_id <$> tb_connections t' → id ∈ bc_id <$> tb_connections t) ∧
  forward (λ id, id ∈ bc_id <$> tb_connections t') t t'.
Proof.
  intros HK. apply (evolves_ind_preorder K (λ t t', consistent t → consistent t' ∧
    (∀ id, id ∈ bc_id <$> tb_connections t' → id ∈ bc_id <$> tb_connections t) ∧
    forward (λ id, id ∈ bc_id <$> tb_connections t') t t')).
  - intros t1 Ht. split_and!; [done..|]. apply forward_refl.
  - intros t1 t2 t3 H12 H23 (Ht2 & Hs2 & Hf2)%H12. destruct (H23 Ht2) as (Ht3 & Hs3 & Hf3). split_and!; [done|auto|].
    intros k e Hk He. destruct (Hf2 k e (Hs3 _ Hk) He) as (e2 & He2 & Hn2).
    destruct (Hf3 k e2 Hk He2) as (e3 & He3 & Hn3). exists e3. split; [done|]. by etrans.
  - intros k t1 t2 Hk Hc Ht1. split; [by eapply committed_consistent|]. destruct k; [done| |].
    + destruct (committed_deletes _ _ Hc Ht1) as [??]. done.
    + apply committed_edits in Hc as [Hf Hids]. rewrite Hids. split; [done|]. intros k e _ He. by apply Hf.
Qed.

Lemma authorization_has_connection k e t :
  consistent t → authorization_at k t = Some e → k.1 ∈ bc_id <$> tb_connections t.
Proof.
  intros Ht [He Hk]%find_by_key. apply (authorizations_owned t Ht) in He as [He _].
  apply list_elem_of_fmap in He as (a & Ha & Hin). rewrite <- Hk, Ha. by apply (accounts_owned t Ht).
Qed.

Section guarantees.
Context {S P E : Type} `{SS : !SecretStore S} `{BP : !BrokerProviderPort P} `{UU : !Uuids E}.
Notation Svc := (Service Repository S P E).
Notation sv A := (st Svc ServiceError A).

(** C21. The tables stay consistent.  Whatever a caller asks of the service, and whether
    it succeeds, fails half-way or meets an injected failure, unique columns stay
    unique (one Vox account is bound once, no two connections share a credential),
    every row keeps its parents, revisions stay within their column, and every audit
    record and authorisation names a known user. *)
Theorem tables_stay_consistent x call (s s' : Svc) r :
  consistent (tables s) → run_service x call s = (s', r) → consistent (tables s').
Proof. intros Ht H. apply path_run in H. by eapply evolves_consistent. Qed.

(** Authorisation revisions tell authorisations apart.  Across any call, the
    authorisation of an account keeps or raises its revision, and raises it whenever
    its mode changes: a session that holds a revision can detect every change. *)
Theorem authorization_revisions_advance x call (s s' : Svc) r k e e' :
  consistent (tables s) → run_service x call s = (s', r) →
  authorization_at k (tables s) = Some e → authorization_at k (tables s') = Some e' → newer e e'.
Proof.
  intros Ht H He He'. apply path_run in H. assert (¬ kinds_of call Deletes ∨ ¬ kinds_of call Inserts) as [HK|HK]
    by (destruct call; simpl; auto).
  - destruct (evolves_forward _ _ _ HK H k e I He) as (e2 & He2 & Hn). by simplify_eq.
  - destruct (evolves_shrinking _ _ _ HK H Ht) as (Ht' & _ & Hf).
    destruct (Hf k e) as (e2 & He2 & Hn); [by eapply authorization_has_connection|done|]. by simplify_eq.
Qed.

(** *** Reads *)

Lemma put_same_repository (s : Svc) : put_repository (sv_repository s) s = s.
Proof. by destruct s. Qed.

Lemma on_read {A B} (q : Tables → A) (k : A → sv B) (s : Svc) :
  st_bind (on_repository (read q)) k s = k (q (tables s)) s.
Proof. unfold on_repository, try_repository, read, st_bind, st_lift; cbn. by rewrite put_same_repository. Qed.

Lemma lift_Ok {A B} (x : A) (k : A → sv B) (s : Svc) : st_bind (st_lift (Ok x)) k s = k x s.
Proof. done. Qed.
Lemma lift_Err {A B} e (k : A → sv B) (s : Svc) : st_bind (st_lift (Err e)) k s = (s, Err e).
Proof. done. Qed.

Lemma elem_of_ordered {A} (le : A → A → bool) p l x : x ∈ order_by le (List.filter p l) ↔ x ∈ l ∧ p x = true.
Proof. rewrite order_by_perm. apply elem_of_filter_bool. Qed.

Lemma connection_found id t c :
  consistent t → find_connection id t = Some c ↔ c ∈ tb_connections t ∧ bc_id c = id.
Proof.
  intros Ht. split; [apply find_by_key|]. intros [? ?]. apply keyed_find; [apply Ht|done|done].
Qed.

Lemma account_found id account t a :
  consistent t → find_account account (accounts_of id t) = Some a ↔ a ∈ tb_accounts t ∧ account_key a = (id, account).
Proof.
  intros Ht. unfold find_account, accounts_of, account_key. split.
  - intros [[Ha Hid]%elem_of_ordered Hk]%find_by_key. apply bool_decide_eq_true in Hid. split; [done|congruence].
  - intros [Ha Hk]. simplify_eq. apply find_unique.
    + apply elem_of_ordered. split; [done|]. by apply bool_decide_eq_true.
    + by apply bool_decide_eq_true.
    + intros y [Hy Hid]%elem_of_ordered Hky. apply bool_decide_eq_true in Hid, Hky.
      apply (keyed_unique account_key (tb_accounts t)); [apply Ht|done..|]. unfold account_key. congruence.
Qed.

Lemma binding_found id account t b :
  consistent t →
  List.find (λ b, bool_decide (bb_provider_account_id b = account) && bb_enabled b) (bindings_of id t) = Some b ↔
  b ∈ tb_bindings t ∧ binding_key b = (id, account) ∧ bb_enabled b = true.
Proof.
  intros Ht. unfold bindings_of, binding_key. split.
  - intros [Hb Hp]%List.find_some. apply list_elem_of_In, elem_of_ordered in Hb as [Hb Hid].
    apply andb_true_iff in Hp as [Hp He]. apply bool_decide_eq_true in Hid, Hp. split_and!; [done|congruence|done].
  - intros (Hb & Hk & He). simplify_eq. apply find_unique.
    + apply elem_of_ordered. split; [done|]. by apply bool_decide_eq_true.
    + rewrite He, bool_decide_eq_true_2 by done. done.
    + intros y [Hy Hid]%elem_of_ordered [Hky _]%andb_true_iff. apply bool_decide_eq_true in Hid, Hky.
      apply (keyed_unique binding_key (tb_bindings t)); [apply Ht|done..|]. unfold binding_key. congruence.
Qed.

Lemma bound_vox_account_eq id account (s : Svc) :
  bound_vox_account id account s =
    (s, ok_or (bb_vox_account_id <$> List.find (λ b, bool_decide (bb_provider_account_id b = account) && bb_enabled b)
                 (bindings_of id (tables s))) Svc.AccountBindingMismatch).
Proof. unfold bound_vox_account; simpl. unfold bindings. by rewrite on_read. Qed.

Lemma connection_eq id (s : Svc) : connection id s = (s, ok_or (find_connection id (tables s)) Svc.ConnectionNotFound).
Proof. unfold connection; simpl. unfold connection_by_id. by rewrite on_read. Qed.

(** A connection, an account of it and a binding that a session may be opened on. *)
Record open_target (t : Tables) (id account vox : string) (c : BrokerConnection) (a : BrokerAccount)
    (b : BrokerAccountBinding) : Prop := {
  ot_connection : c ∈ tb_connections t;
  ot_id : bc_id c = id;
  ot_enabled : bc_enabled c = true;
  ot_healthy : ch_state (bc_health c) = HealthSt.Healthy;
  ot_kept : bc_credential_status c ≠ Cred.PendingDelete;
  ot_account : a ∈ tb_accounts t;
  ot_account_key : account_key a = (id, account);
  ot_accessible : ac_accessible a = true;
  ot_binding : b ∈ tb_bindings t;
  ot_binding_key : binding_key b = (id, account);
  ot_bound : bb_enabled b = true;
  ot_vox : bb_vox_account_id b = vox;
}.

Definition target_of (id account vox : string) (c : BrokerConnection) (a : BrokerAccount) : BoundTarget := {|
  bt_connection := c;
  bt_target := {| at_connection_id := id; at_provider := ac_provider a; at_environment := ac_environment a;
                  at_provider_account_id := account; at_vox_account_id := vox |};
  bt_capabilities := ac_capabilities a |}.

Lemma bound_healthy_target_Ok id account vox (s s' : Svc) bound :
  consistent (tables s) →
  bound_healthy_target id account vox s = (s', Ok bound) ↔
  s' = s ∧ ∃ c a b, open_target (tables s) id account vox c a b ∧ bound = target_of id account vox c a.
Proof.
  intros Ht. unfold bound_healthy_target; simpl. unfold accounts, bindings.
  assert (∀ (k : BrokerConnection → sv BoundTarget),
    st_bind (connection id) k s = match find_connection id (tables s) with Some c => k c s
                                  | None => (s, Err Svc.ConnectionNotFound) end) as Hc.
  { intros k. unfold st_bind. rewrite connection_eq. by destruct (find_connection _ _). }
  rewrite Hc. clear Hc. split.
  - intros H. destruct (find_connection id (tables s)) as [c|] eqn:Hc; [|done].
    apply connection_found in Hc as [Hc Hid]; [|done].
    destruct (_ || _ || _) eqn:Hg; [done|]. apply orb_false_iff in Hg as [[Hen Hh]%orb_false_iff Hd].
    apply negb_false_iff in Hen, Hh. apply bool_decide_eq_true in Hh. apply bool_decide_eq_false in Hd.
    rewrite on_read in H. destruct (find_account _ _) as [a|] eqn:Ha; [|done]. simpl in H. rewrite lift_Ok in H.
    apply account_found in Ha as [Ha Hak]; [|done]. destruct (ac_accessible a) eqn:Hacc; [|done]. simpl in H.
    rewrite on_read in H. destruct (existsb _ _) eqn:Hb; [|done]. unfold st_ret in H; simpl in H. simplify_eq.
    split; [done|]. apply List.existsb_exists in Hb as (b & Hb & [[Hp Hv]%andb_true_iff He]%andb_true_iff).
    apply list_elem_of_In, elem_of_ordered in Hb as [Hb Hbid]. apply bool_decide_eq_true in Hp, Hv, Hbid.
    exists c, a, b. split; [|done]. constructor; try done. unfold binding_key. congruence.
  - intros (-> & c & a & b & [] & ->). rewrite (proj2 (connection_found id (tables s) c Ht)) by done.
    rewrite ot_enabled0, (bool_decide_eq_true_2 _ ot_healthy0), (bool_decide_eq_false_2 _ ot_kept0). simpl.
    rewrite on_read, (proj2 (account_found id account (tables s) a Ht)) by done. simpl. rewrite lift_Ok, ot_accessible0.
    simpl. rewrite on_read. rewrite (proj2 (List.existsb_exists _ _)); [done|]. unfold binding_key in *. simplify_eq.
    exists b. split.
    + apply list_elem_of_In, elem_of_ordered. split; [done|]. by apply bool_decide_eq_true.
    + by rewrite ot_bound0, !bool_decide_eq_true_2 by done.
Qed.
End guarantees.

(** ** Access *)

(** Everything a grant of execution access stands for. *)
Record earned (t : Tables) (m : vault) (id account : string) (purpose : ExecutionPurpose) (expected : option Z)
    (g : ExecutionAccessGrant) (c : BrokerConnection) (a : BrokerAccount) (b : BrokerAccountBinding)
    (e : ExecutionAuthorization) (secret : string) : Prop := {
  ed_target : open_target t id account (bb_vox_account_id b) c a b;
  ed_authorized : authorization_at (id, account) t = Some e;
  ed_current : expected = None ∨ expected = Some (ea_authorization_revision e);
  ed_purpose : execution_purpose_allowed (bc_environment c) (ea_mode e) purpose = true;
  ed_provider : required_order_capability (bc_environment c) ∈ ac_capabilities a;
  ed_credential : vault_get m (bc_credential_ref c) (credential_context c) = Ok secret;
  ed_grant : g = {| xg_target := bt_target (target_of id account (bb_vox_account_id b) c a);
    xg_credential_ref := bc_credential_ref c; xg_capabilities := ac_capabilities a;
    xg_mode := ea_mode e; xg_authorization_revision := ea_authorization_revision e |};
}.

Section access.
Context {S P E : Type} `{SS : !SecretStore S} `{SV : !SecretVault S} `{BP : !BrokerProviderPort P} `{UU : !Uuids E}.
Notation Svc := (Service Repository S P E).
Notation sv A := (st Svc ServiceError A).

Lemma put_same_secrets (s : Svc) : put_secrets (sv_secrets s) s = s.
Proof. by destruct s. Qed.

Lemma on_secret_get {B} ref c (k : string → sv B) (s : Svc) m :
  holds (sv_secrets s) m →
  st_bind (on_secrets (se_get ref c)) k s =
    match vault_get m ref c with Ok secret => k secret s | Err e => (s, Err (Svc.SecretStore e)) end.
Proof.
  intros Hm. unfold on_secrets, try_secrets, st_bind, st_lift. rewrite (holds_get _ _ _ _ Hm), put_same_secrets.
  by destruct (vault_get _ _ _).
Qed.

Lemma granted_Ok id account vox purpose expected (s s' : Svc) m g :
  consistent (tables s) → holds (sv_secrets s) m →
  validate_execution_access id account vox purpose expected s = (s', Ok g) ↔
  s' = s ∧ ∃ c a b e secret, earned (tables s) m id account purpose expected g c a b e secret ∧
    bb_vox_account_id b = vox.
Proof.
  intros Ht Hm. unfold validate_execution_access; simpl. unfold ConnectionRepository.authorization. split.
  - intros (s1 & bound & Hb & H)%st_bind_Ok.
    apply bound_healthy_target_Ok in Hb as (-> & c & a & b & Ho & ->); [|done]. simpl in H. rewrite on_read in H.
    destruct (find_authorization _ _ _) as [e|] eqn:He; [|done]. simpl in H. rewrite lift_Ok in H.
    destruct (match expected with Some _ => _ | None => _ end) eqn:Hexp; [done|].
    destruct (execution_purpose_allowed _ _ _) eqn:Hp; [|done].
    destruct (bool_decide _) eqn:Hcap; [|done]. apply bool_decide_eq_true in Hcap. simpl in H.
    rewrite (on_secret_get _ _ _ _ _ Hm) in H. destruct (vault_get _ _ _) as [secret|] eqn:Hg; [|done].
    unfold st_ret in H. simplify_eq. split; [done|]. exists c, a, b, e, secret. destruct Ho as [] eqn:Hot.
    rewrite ot_vox0 in *. split; [|done]. constructor; try done; rewrite ?ot_vox0; try done.
    destruct expected as [v|]; [right|by left]. apply negb_false_iff, Z.eqb_eq in Hexp. by subst.
  - intros (-> & c & a & b & e & secret & [] & <-). unfold st_bind at 1.
    rewrite (proj2 (bound_healthy_target_Ok id account (bb_vox_account_id b) s s
      (target_of id account (bb_vox_account_id b) c a) Ht)) by eauto 10.
    simpl. rewrite on_read. unfold authorization_at in ed_authorized0. unfold find_authorization.
    rewrite ed_authorized0. simpl. rewrite lift_Ok.
    replace (match expected with Some _ => _ | None => _ end) with false.
    2: { destruct ed_current0 as [->| ->]; [done|]. by rewrite Z.eqb_refl. }
    rewrite ed_purpose0, bool_decide_eq_true_2 by done. simpl.
    rewrite (on_secret_get _ _ _ _ _ Hm), ed_credential0. by subst.
Qed.

(** C16. Execution access is earned, and what has earned it gets it.  A session is granted
    execution access exactly when the connection is enabled, healthy and not being
    deleted, the account is one the provider still lets it use and take orders on, the
    account is bound, its authorisation allows the purpose and has the expected
    revision, and the credential can be read; the grant names that account, credential
    and revision, and asking changes nothing. *)
Theorem execution_access_is_earned id account purpose expected (s s' : Svc) m g :
  consistent (tables s) → holds (sv_secrets s) m →
  validate_runtime_execution_access id account purpose expected s = (s', Ok g) ↔
  s' = s ∧ ∃ c a b e secret, earned (tables s) m id account purpose expected g c a b e secret.
Proof.
  intros Ht Hm. unfold validate_runtime_execution_access, st_bind at 1. rewrite bound_vox_account_eq. split.
  - destruct (List.find _ _) as [b0|]; [|done]. simpl.
    intros (-> & c & a & b & e & secret & He & _)%(granted_Ok _ _ _ _ _ _ _ m); eauto 10.
  - intros (-> & c & a & b & e & secret & He). pose proof (ed_target _ _ _ _ _ _ _ _ _ _ _ _ He) as Ho.
    rewrite (proj2 (binding_found id account (tables s) b Ht)) by (split_and!; apply Ho). simpl.
    apply (granted_Ok _ _ _ _ _ _ _ m); eauto 10.
Qed.
End access.

(** ** Revocation *)

Definition disabled_at (k : string * string) (t : Tables) : Prop :=
  ∀ e, authorization_at k t = Some e → ea_mode e = Mode.Disabled.

(** No account the provider takes no orders on is authorised. *)
Definition revoked_on (id : string) (l : list BrokerAccount) (t : Tables) : Prop :=
  ∀ a, a ∈ l → orders_allowed a = false → disabled_at (id, ac_provider_account_id a) t.

(** The accounts stay, and what is disabled stays disabled. *)
Definition settling (t t' : Tables) : Prop :=
  tb_accounts t' = tb_accounts t ∧ ∀ k, disabled_at k t → disabled_at k t'.
#[export] Instance settling_refl : Reflexive settling.
Proof. by intros t. Qed.
#[export] Instance settling_trans : Transitive settling.
Proof. intros t1 t2 t3 [H1 H2] [H3 H4]. split; [congruence|auto]. Qed.

Lemma settling_audit a : writes settling (append_audit_row a).
Proof. intros t t' v H. unfold append_audit_row in H. by open_write H. Qed.
Lemma settling_update c : writes settling (write_connection c true).
Proof. intros t t' v H. unfold write_connection in H. by open_write H. Qed.
#[export] Hint Resolve settling_audit settling_update : writing.

(** What the compare-and-set writes. *)
Lemma cas_Ok e expected t t' v :
  write_authorization_cas e expected t = (t', Ok v) →
  t' = put_authorizations (update_where (λ x, by_key authorization_key (authorization_key e) x
         && (ea_authorization_revision x =? expected)) (λ _, e) (tb_authorizations t)) t.
Proof. intros H. unfold write_authorization_cas in H. by open_write H. Qed.

Lemma cas_at e expected k t :
  authorization_at k (put_authorizations (update_where (λ x, by_key authorization_key (authorization_key e) x
         && (ea_authorization_revision x =? expected)) (λ _, e) (tb_authorizations t)) t) =
  (λ x, if by_key authorization_key (authorization_key e) x && (ea_authorization_revision x =? expected)
        then e else x) <$> authorization_at k t.
Proof.
  unfold authorization_at. cbn. rewrite find_update_where; [done|].
  intros r [Hr _]%andb_true_iff. by apply bool_decide_eq_true in Hr.
Qed.

Lemma cas_stored e expected t t' v previous :
  write_authorization_cas e expected t = (t', Ok v) → authorization_at (authorization_key e) t = Some previous →
  ea_authorization_revision previous = expected → authorization_at (authorization_key e) t' = Some e.
Proof.
  intros ->%cas_Ok Hp <-. rewrite cas_at, Hp. simpl. apply find_by_key in Hp as [_ Hk].
  unfold by_key. by rewrite (bool_decide_eq_true_2 _ Hk), Z.eqb_refl.
Qed.

Lemma settling_cas e expected : ea_mode e = Mode.Disabled → writes settling (write_authorization_cas e expected).
Proof.
  intros He t t' v ->%cas_Ok. split; [done|]. intros k Hk x Hx. rewrite cas_at in Hx.
  destruct (authorization_at k t) as [y|] eqn:Hy; simplify_eq/=. destruct (_ && _); [done|by apply Hk].
Qed.

(** *** Calls that succeed *)

Section successes.
Context {S P E : Type} `{SS : !SecretStore S} `{BP : !BrokerProviderPort P} `{UU : !Uuids E}.
Notation Svc := (Service Repository S P E).
Notation sv A := (st Svc ServiceError A).

Lemma on_repository_Ok {A} (m : st Repository RepositoryError A) (s s' : Svc) a :
  on_repository m s = (s', Ok a) → ∃ r', m (sv_repository s) = (r', Ok a) ∧ s' = put_repository r' s.
Proof.
  unfold on_repository, try_repository, st_bind, st_lift. destruct (m _) as [r' [v|e]]; simpl; intros; simplify_eq.
  by exists r'.
Qed.

Lemma mutate_Ok audits m r r' :
  mutate_with_audits audits m r = (r', Ok tt) → audited m audits (re_tables r) = (re_tables r', Ok tt).
Proof.
  unfold mutate_with_audits, audited, st_bind. destruct (m _) as [t [[]|e]]; [|done].
  destruct (re_fail_next_audit r); [done|]. by destruct (each _ _ t) as [t' [[]|e]]; intros; simplify_eq/=.
Qed.

Lemma commit_Ok {A} (m : st Tables RepositoryError A) r r' a :
  commit m r = (r', Ok a) → m (re_tables r) = (re_tables r', Ok a).
Proof. unfold commit. by destruct (m _) as [t [v|e]]; intros; simplify_eq/=. Qed.

Lemma audited_settling m audits t t' :
  writes settling m → audited m audits t = (t', Ok tt) → settling t t'.
Proof.
  intros Hm (t1 & [] & H1 & H2)%st_bind_Ok. transitivity t1; [by eapply Hm|].
  by apply (writes_each settling) in H2; [|eauto with writing].
Qed.

Lemma audit_record_same x action target old new (s s' : Svc) r :
  audit_record x action target old new s = (s', r) → s' = s.
Proof.
  unfold audit_record, model. revert s s' r.
  match goal with |- ∀ s s' r, ?m s = _ → _ => change (st_effect (λ s s' : Svc, s' = s) m) end.
  repeat (apply effect_bind; [intros ?????; congruence|apply effect_lift; done|intros ?]).
  by apply effect_ret.
Qed.

Lemma read_Ok {A} (q : Tables → A) (s s' : Svc) a :
  on_repository (read q) s = (s', Ok a) → s' = s ∧ a = q (tables s).
Proof.
  intros (r' & H & ->)%on_repository_Ok. unfold read in H. simplify_eq. by rewrite put_same_repository.
Qed.

Lemma update_settles c (s s' : Svc) : on_repository (update_connection c) s = (s', Ok tt) → settling (tables s) (tables s').
Proof. intros (r' & H%commit_Ok & ->)%on_repository_Ok. by eapply settling_update. Qed.

Lemma audit_settles x action target old new (s s' : Svc) :
  audit x action target old new s = (s', Ok tt) → settling (tables s) (tables s').
Proof.
  intros (s1 & record & ->%audit_record_same & (r' & H%commit_Ok & ->)%on_repository_Ok)%st_bind_Ok.
  by eapply settling_audit.
Qed.

Lemma revoke_one_Ok x c a (s s' : Svc) :
  revoke_one x c a s = (s', Ok tt) →
  settling (tables s) (tables s') ∧
  (orders_allowed a = false → disabled_at (bc_id c, ac_provider_account_id a) (tables s')).
Proof.
  unfold revoke_one; simpl. intros (s1 & found & [-> ->]%read_Ok & H)%st_bind_Ok.
  assert (find_authorization (bc_id c) (ac_provider_account_id a) (tables s) =
          authorization_at (bc_id c, ac_provider_account_id a) (tables s)) as Hat by done.
  destruct (find_authorization _ _ _) as [previous|] eqn:Hp.
  2: { unfold st_ret in H. simplify_eq. split; [done|]. intros _ e He. by rewrite <- Hat in He. }
  destruct (_ || _) eqn:Hskip.
  { unfold st_ret in H. simplify_eq. split; [done|]. intros Ho e He. rewrite <- Hat in He. simplify_eq.
    rewrite Ho, orb_false_r in Hskip. by apply bool_decide_eq_true in Hskip. }
  apply st_bind_Ok in H as (s1 & bs & [-> ->]%read_Ok & H).
  apply st_bind_Ok in H as (s1 & record & ->%audit_record_same & H).
  apply st_bind_Ok in H as (s1 & revision & Hrev & H). injection Hrev as <- _.
  apply on_repository_Ok in H as (r' & H%mutate_Ok & ->). split.
  { eapply audited_settling; [|exact H]. by apply settling_cas. }
  intros _ e He. apply st_bind_Ok in H as (t1 & [] & Hcas & H).
  apply (writes_each same_grants) in H as [H _]; [|eauto with writing].
  apply (cas_stored _ _ _ _ _ previous) in Hcas; [|done|done].
  unfold authorization_at in He, Hcas. change (tables _) with (re_tables r') in He. rewrite H in He.
  change (bc_id c, _) with (authorization_key (revoked x (bc_id c) a revision)) in He. by simplify_eq.
Qed.

Lemma revoke_Ok x c l (s s' : Svc) :
  revoke_invalid_authorizations x c l s = (s', Ok tt) →
  settling (tables s) (tables s') ∧ revoked_on (bc_id c) l (tables s').
Proof.
  unfold revoke_invalid_authorizations. revert s. induction l as [|a l IH]; simpl; intros s H.
  { unfold st_ret in H. simplify_eq. split; [done|]. by intros a Ha%elem_of_nil. }
  apply st_bind_Ok in H as (s1 & [] & [H1 H2]%revoke_one_Ok & [H3 H4]%IH). split; [by etrans|].
  intros b [->|Hb]%elem_of_cons Ho; [|by apply H4]. by apply H3, H2.
Qed.

(** *** Fresh accounts *)

(** Of the accounts of a connection, those in [l] alone can be reached. *)
Definition reachable_in (id : string) (l : list BrokerAccount) (t : Tables) : Prop :=
  ∀ a, a ∈ accounts_of id t → ac_accessible a = true → a ∈ l.

(** Stored accounts agree with what the provider said: the others cannot be reached, and
    none it takes no orders on is authorised. *)
Definition refreshed (id : string) (l : list BrokerAccount) (t : Tables) : Prop :=
  reachable_in id l t ∧ revoked_on id (accounts_of id t) t.

Lemma upsert_all id l done t t' :
  each (upsert_account id) l t = (t', Ok tt) → reachable_in id done t → reachable_in id (done ++ l) t'.
Proof.
  revert done t. induction l as [|a l IH]; simpl; intros done t H Ht.
  { unfold st_ret in H. simplify_eq. by rewrite app_nil_r. }
  apply st_bind_Ok in H as (t1 & [] & H1 & H2). rewrite (app_assoc done [a] l : done ++ a :: l = _).
  apply (IH _ _ H2). unfold upsert_account in H1. open_write H1.
  intros b [Hb Hid]%elem_of_ordered Hacc. cbn in Hb. apply elem_of_snoc.
  apply elem_of_upsert in Hb as [->|[Hb _]]; [by right|left]. apply Ht; [|done]. by apply elem_of_ordered.
Qed.

Lemma replace_reachable id l t t' : replace_accounts_tx id l t = (t', Ok tt) → reachable_in id l t'.
Proof.
  intros H. unfold replace_accounts_tx in H. open_write H. apply (upsert_all id l [] _ _ H).
  intros a [Ha Hid]%elem_of_ordered Hacc. cbn in Ha. apply elem_of_update_where in Ha as (b & _ & ->).
  destruct (by_key ac_connection_id id b) eqn:Hb; [done|]. by rewrite Hid in Hb.
Qed.

Lemma settling_refreshed id l t t' : settling t t' → refreshed id l t → refreshed id l t'.
Proof.
  intros [Ha Hd] [Hr Ho]. unfold refreshed, reachable_in, revoked_on, accounts_of in *. rewrite Ha.
  split; [done|]. intros a Hin Hn. apply Hd. by apply Ho.
Qed.

(** The accounts are written, read back and their authorisations revoked. *)
Lemma revoke_refreshes x c id l (s s' : Svc) :
  bc_id c = id → reachable_in id l (tables s) →
  revoke_invalid_authorizations x c (accounts_of id (tables s)) s = (s', Ok tt) → refreshed id l (tables s').
Proof.
  intros <- Hl [Hs Hr]%revoke_Ok. pose proof Hs as [Ha _]. unfold refreshed, reachable_in, accounts_of in *.
  rewrite Ha. done.
Qed.

(** *** Permissions *)

Lemma has_eq x p (s : Svc) : has x p s = (s, Ok (bool_decide (p ∈ permissions_of (sx_actor x) (tables s)))).
Proof. unfold has; simpl. unfold permissions. by rewrite on_read. Qed.

Lemma require_eq x p (s : Svc) :
  require x p s = (s, if bool_decide (p ∈ permissions_of (sx_actor x) (tables s)) then Ok tt
                      else Err (Svc.PermissionDenied p)).
Proof. unfold require, st_bind. rewrite has_eq. by case_bool_decide. Qed.

Lemma require_Ok x p (s s' : Svc) v :
  require x p s = (s', Ok v) → s' = s ∧ p ∈ permissions_of (sx_actor x) (tables s).
Proof. rewrite require_eq. case_bool_decide; intros; by simplify_eq. Qed.

Lemma refused {A} x p (k : () → sv A) (s : Svc) :
  p ∉ permissions_of (sx_actor x) (tables s) → (let! v := require x p in k v) s = (s, Err (Svc.PermissionDenied p)).
Proof. intros Hp. unfold st_bind. by rewrite require_eq, bool_decide_eq_false_2. Qed.

Lemma connection_Ok id (s s' : Svc) c :
  connection id s = (s', Ok c) → s' = s ∧ find_connection id (tables s) = Some c.
Proof. rewrite connection_eq. destruct (find_connection _ _); simpl; intros; by simplify_eq. Qed.
End successes.

(** The permissions one of which a call takes; the access checks and the recovery are
    the system's own. *)
Definition needed (call : ServiceCall) : list Permission :=
  match call with
  | CreateConnection _ _ | RotateCredential _ _ => [Perm.ManageCredentials]
  | Revalidate _ => [Perm.DiscoverAccounts]
  | DisableConnection _ | DeleteConnection _ => [Perm.DisableDeleteConnection]
  | BindAccount _ _ _ | UnbindAccount _ | DisableBinding _ => [Perm.BindAccounts]
  | ReplaceRole _ | GrantRole _ _ => [Perm.SecurityAdmin]
  | SetAuthorization _ _ _ | SetAuthorizationCas _ _ _ _ =>
      [Perm.EnableAutomatedProductionExecution; Perm.SubmitProductionManualOrders; Perm.BindAccounts;
       Perm.SubmitSandboxOrders; Perm.EmergencyHalt; Perm.DisableDeleteConnection; Perm.SecurityAdmin]
  | ValidateRead _ _ | ValidateExecution _ _ _ _ | RecoverLifecycle => []
  end.

Section permitted.
Context {S P E : Type} `{SS : !SecretStore S} `{BP : !BrokerProviderPort P} `{UU : !Uuids E}.
Notation Svc := (Service Repository S P E).
Notation sv A := (st Svc ServiceError A).

Lemma transition_refused x env old new (s : Svc) :
  (∀ p, p ∈ needed (SetAuthorization "" "" Mode.Disabled) → p ∉ permissions_of (sx_actor x) (tables s)) →
  ∃ e, require_authorization_transition x env old new s = (s, Err e).
Proof.
  intros Hn. unfold require_authorization_transition.
  assert ((if authorization_rank new <? authorization_rank old then may_lower x else st_ret false) s = (s, Ok false)) as Hl.
  { destruct (_ <? _); [|done]. unfold may_lower, st_bind.
    do 3 (rewrite has_eq, bool_decide_eq_false_2 by (apply Hn; set_solver); cbn iota beta). done. }
  unfold st_bind. rewrite Hl, require_eq, bool_decide_eq_false_2; [by eauto|].
  apply Hn. destruct env, old, new; simpl; set_solver.
Qed.

Lemma cas_refused x id account mode expected (s : Svc) :
  (∀ p, p ∈ needed (SetAuthorization "" "" Mode.Disabled) → p ∉ permissions_of (sx_actor x) (tables s)) →
  ∃ e, set_execution_authorization_cas x id account mode expected s = (s, Err e).
Proof.
  intros Hn. unfold set_execution_authorization_cas; simpl. unfold st_bind at 1. rewrite connection_eq.
  destruct (find_connection _ _) as [c|]; simpl; [|by eauto]. unfold ConnectionRepository.authorization.
  rewrite on_read. destruct (find_authorization _ _ _) as [e|]; simpl; [|by eauto]. rewrite lift_Ok.
  destruct (negb _); [by eauto|]. unfold st_bind at 1.
  destruct (transition_refused x (bc_environment c) (ea_mode e) mode s Hn) as [err ->]. by eauto.
Qed.

(** C19. Nobody changes anything without permission.  A call by an actor who has none of the
    permissions it takes, as a disabled user never has, is refused and leaves the
    database, the credentials, the provider and even the supply of identifiers exactly
    as they were. *)
Theorem unpermitted_calls_change_nothing x call (s : Svc) :
  needed call ≠ [] → (∀ p, p ∈ needed call → p ∉ permissions_of (sx_actor x) (tables s)) →
  ∃ e, run_service x call s = (s, Err e).
Proof.
  intros Hcall Hn. destruct call; simpl in *; try done;
    try (eexists; unfold create_connection, revalidate, rotate_credential, disable_connection, delete_connection,
      bind_account, unbind_account, disable_binding, replace_role, grant_role;
      first [apply refused; apply Hn; set_solver | unfold st_bind at 1; rewrite refused by (apply Hn; set_solver); done]).
  - unfold set_execution_authorization; simpl. unfold ConnectionRepository.authorization.
    unfold st_bind at 1. rewrite on_read.
    destruct (find_authorization _ _ _) as [e|]; simpl; [|by eauto]. rewrite lift_Ok.
    destruct (cas_refused x connection_id provider_account_id mode (ea_authorization_revision e) s) as [err ->]; eauto.
  - unfold st_bind at 1. destruct (cas_refused x connection_id provider_account_id mode expected s) as [err ->]; eauto.
Qed.
End permitted.

(** ** Revalidation and rotation *)

(** *** Calls that leave the credentials alone *)

Section hands_off.
Context {S P E : Type} `{SS : !SecretStore S} `{BP : !BrokerProviderPort P} `{UU : !Uuids E}.
Notation Svc := (Service Repository S P E).
Notation sv A := (st Svc ServiceError A).

Definition hands_off {A} (m : sv A) : Prop := st_effect (λ s s' : Svc, sv_secrets s' = sv_secrets s) m.

Lemma hands_ret {A} (a : A) : hands_off (st_ret a).
Proof. by apply effect_ret. Qed.
Lemma hands_fail {A} e : hands_off (A:=A) (st_fail e).
Proof. by apply effect_fail. Qed.
Lemma hands_lift {A} (x : result _ A) : hands_off (st_lift x).
Proof. by apply effect_lift. Qed.
Lemma hands_bind {A B} (m : sv A) (k : A → sv B) : hands_off m → (∀ a, hands_off (k a)) → hands_off (st_bind m k).
Proof. apply effect_bind. intros s1 s2 s3 H1 H2. congruence. Qed.
Lemma hands_try_repository {A} (m : st Repository RepositoryError A) : hands_off (try_repository m).
Proof. intros s s' r H. unfold try_repository in H. destruct (m _). by simplify_eq. Qed.
Lemma hands_on_repository {A} (m : st Repository RepositoryError A) : hands_off (on_repository m).
Proof. apply hands_bind; [apply hands_try_repository|intros a; apply hands_lift]. Qed.
Lemma hands_try_provider {A} (m : st P ProviderError A) : hands_off (try_provider m).
Proof. intros s s' r H. unfold try_provider in H. destruct (m _). by simplify_eq. Qed.
Lemma hands_on_provider {A} (m : st P ProviderError A) : hands_off (on_provider m).
Proof. apply hands_bind; [apply hands_try_provider|intros a; apply hands_lift]. Qed.
Lemma hands_attempt {A} (m : sv A) : hands_off m → hands_off (attempt m).
Proof. intros Hm s s' r H. unfold attempt in H. destruct (m s) eqn:H1. simplify_eq. by eapply Hm. Qed.
Lemma hands_each {A} (f : A → sv ()) l : (∀ a, hands_off (f a)) → hands_off (each f l).
Proof. intros Hf. induction l as [|a l IH]; simpl; [apply hands_ret|]. by apply hands_bind. Qed.
Lemma hands_audit_record x action target old new : hands_off (audit_record x action target old new).
Proof. intros s s' r H. apply audit_record_same in H. by subst. Qed.
Lemma hands_require x p : hands_off (require x p).
Proof. intros s s' r H. rewrite require_eq in H. by simplify_eq. Qed.
Lemma hands_connection id : hands_off (connection id).
Proof. intros s s' r H. rewrite connection_eq in H. by simplify_eq. Qed.

Create HintDb hands.
#[local] Hint Resolve hands_ret hands_fail hands_lift hands_try_repository hands_on_repository hands_try_provider
  hands_on_provider hands_attempt hands_each hands_audit_record hands_require hands_connection : hands.

Ltac walk_hands :=
  repeat match goal with
  | |- ∀ _, _ => intro
  | |- hands_off (let _ := _ in _) => cbv zeta
  | |- hands_off (st_bind _ _) => apply hands_bind
  | |- hands_off (if ?b then _ else _) => destruct b
  | |- hands_off (match ?x with _ => _ end) => destruct x
  end; eauto 4 with hands.

Lemma hands_audit x action target old new : hands_off (audit x action target old new).
Proof. unfold audit. walk_hands. Qed.
Lemma hands_conflict id l : hands_off (authorization_conflict id l).
Proof. induction l as [|a l IH]; simpl; walk_hands. Qed.
Lemma hands_revoke_one x c a : hands_off (revoke_one x c a).
Proof. unfold revoke_one. walk_hands. Qed.
#[local] Hint Resolve hands_audit hands_conflict hands_revoke_one : hands.
Lemma hands_revoke x c l : hands_off (revoke_invalid_authorizations x c l).
Proof. unfold revoke_invalid_authorizations. walk_hands. Qed.
#[local] Hint Resolve hands_revoke : hands.
Lemma hands_persist x id old c l : hands_off (persist_rotation x id old c l).
Proof. unfold persist_rotation. walk_hands. Qed.
End hands_off.
#[export] Hint Resolve hands_ret hands_fail hands_lift hands_try_repository hands_on_repository hands_try_provider
  hands_on_provider hands_attempt hands_each hands_audit_record hands_require hands_connection hands_audit
  hands_conflict hands_revoke_one hands_revoke hands_persist : hands.

Section rotation.
Context {S P E : Type} `{SS : !SecretStore S} `{SV : !SecretVault S} `{BP : !BrokerProviderPort P} `{UU : !Uuids E}.
Notation Svc := (Service Repository S P E).
Notation sv A := (st Svc ServiceError A).

Lemma secret_get_Ok ref c (s s' : Svc) m secret :
  holds (sv_secrets s) m → on_secrets (se_get ref c) s = (s', Ok secret) → s' = s ∧ vault_get m ref c = Ok secret.
Proof.
  intros Hm. unfold on_secrets, try_secrets, st_bind, st_lift. rewrite (holds_get _ _ _ _ Hm), put_same_secrets.
  destruct (vault_get _ _ _); simpl; intros; by simplify_eq.
Qed.

(** The connection a successful validation stores. *)
Definition validated (x : SecurityContext) (old : BrokerConnection) (discovery : ProviderDiscovery) (changed : bool)
  : BrokerConnection :=
  let now := sx_now_unix_ms x in
  set_state Cred.Valid (bc_enabled old) (discovered_health old changed now) now (set_discovered discovery old).

(** The calls of a revalidation that succeeds. *)
Lemma revalidate_Ok x id (s s' : Svc) m c :
  holds (sv_secrets s) m → revalidate x id s = (s', Ok c) →
  ∃ old credential p' discovery changed s1 s2 s3 s4 s5,
    let accounts := materialize_accounts old (di_accounts discovery) (sx_now_unix_ms x) in
    find_connection id (tables s) = Some old ∧ bc_enabled old = true ∧ c = validated x old discovery changed ∧
    vault_get m (bc_credential_ref old) (credential_context old) = Ok credential ∧
    bp_validate_and_discover (bc_provider old) (bc_environment old) credential (sv_provider s) = (p', Ok discovery) ∧
    (if access_removed (accounts_of id (tables s)) accounts then st_ret true
     else authorization_conflict id (with_disappeared_accounts (accounts_of id (tables s)) accounts))
      (put_provider p' s) = (s1, Ok changed) ∧
    on_repository (update_connection c) s1 = (s2, Ok tt) ∧
    on_repository (replace_accounts id accounts) s2 = (s3, Ok tt) ∧
    revoke_invalid_authorizations x c (accounts_of id (tables s3)) s3 = (s4, Ok tt) ∧
    on_repository (update_connection c) s4 = (s5, Ok tt) ∧
    audit x "CONNECTION_REVALIDATED" id None (Some (health_name (ch_state (bc_health c)))) s5 = (s', Ok tt).
Proof.
  intros Hm. unfold revalidate; simpl.
  intros (s1 & [] & [-> _]%require_Ok & (s2 & old & [-> Hold]%connection_Ok & H)%st_bind_Ok)%st_bind_Ok.
  destruct (bc_enabled old) eqn:Hen; [|done]. simpl in H.
  apply st_bind_Ok in H as (s2 & credential & [-> Hc]%(secret_get_Ok _ _ _ _ m) & H); [|done].
  apply st_bind_Ok in H as (s2 & outcome & Ho & H). unfold try_provider in Ho.
  destruct (bp_validate_and_discover _ _ _ _) as [p' y] eqn:Hp. injection Ho as <- <-.
  destruct y as [discovery|e]; cycle 1.
  { by repeat (apply st_bind_Ok in H as (? & ? & _ & H)). }
  apply st_bind_Ok in H as (s2 & [] & Hv & H). injection Hv as <- _.
  apply st_bind_Ok in H as (s2 & l & [-> ->]%read_Ok & H).
  apply st_bind_Ok in H as (s1 & changed & H1 & H). apply st_bind_Ok in H as (s2 & [] & H2 & H).
  apply st_bind_Ok in H as (s3 & [] & H3 & H). apply st_bind_Ok in H as (s3' & l & [-> ->]%read_Ok & H).
  apply st_bind_Ok in H as (s4 & [] & H4 & H). apply st_bind_Ok in H as (s5 & [] & H5 & H).
  apply st_bind_Ok in H as (s6 & [] & H6 & H). unfold st_ret in H. injection H as <- <-.
  exists old, credential, p', discovery, changed, s1, s2, s3, s4, s5. unfold validated. rewrite Hen.
  split_and!; done.
Qed.

(** Revalidation believes the provider.  When it succeeds, the provider was shown the
    stored credential and answered; the accounts of the connection that can be reached
    afterwards are among those of the answer; and no account the provider does not let
    it trade is left authorised, also not one that has disappeared from the answer. *)
Theorem revalidation_follows_provider x id (s s' : Svc) m c :
  holds (sv_secrets s) m → revalidate x id s = (s', Ok c) →
  ∃ old credential p' discovery,
    find_connection id (tables s) = Some old ∧
    vault_get m (bc_credential_ref old) (credential_context old) = Ok credential ∧
    bp_validate_and_discover (bc_provider old) (bc_environment old) credential (sv_provider s) = (p', Ok discovery) ∧
    refreshed id (materialize_accounts old (di_accounts discovery) (sx_now_unix_ms x)) (tables s').
Proof.
  intros Hm (old & credential & p' & discovery & changed & s1 & s2 & s3 & s4 & s5 & Hold & _ & -> & Hc & Hp & _ & _ &
    (r & H3%commit_Ok & ->)%on_repository_Ok & H4 & H5%update_settles & H6%audit_settles)%(revalidate_Ok _ _ _ _ m); [|done].
  exists old, credential, p', discovery. split_and!; try done.
  apply (settling_refreshed _ _ _ _ H6), (settling_refreshed _ _ _ _ H5). apply find_by_key in Hold as [_ Hid].
  eapply revoke_refreshes; [exact Hid| |exact H4]. by apply replace_reachable in H3.
Qed.

(** *** Rotation *)

Lemma vault_get_Ok (m : vault) ref c secret : vault_get m ref c = Ok secret → m !! ref = Some (c, secret, false).
Proof.
  unfold vault_get. destruct (m !! ref) as [[[c' x] []]|]; [done| |done]. case_bool_decide; [|done].
  intros. by simplify_eq.
Qed.

Lemma try_rotate_cases ref c secret now (s s' : Svc) m r :
  SecretBytes_new secret = Ok secret → holds (sv_secrets s) m → try_secrets (se_rotate ref c secret now) s = (s', r) →
  tables s' = tables s ∧ ∃ y m', r = Ok y ∧ holds (sv_secrets s') m' ∧
    ((∃ e, y = Err e) ∧ m' = m ∨ is_ok y ∧ m' = <[ref := (c, secret, false)]> m).
Proof.
  intros Hsec Hm H. unfold try_secrets in H. destruct (se_rotate _ _ _ _ _) as [x y] eqn:Hr. simplify_eq.
  split; [done|]. destruct (holds_rotate _ _ _ _ _ _ _ _ Hsec Hm Hr) as (m' & Hm' & [?|(_ & ? & ?)]); eauto 10.
Qed.

(** A credential that is disabled is the same credential. *)
Lemma try_disable_others ref (s s' : Svc) m r :
  holds (sv_secrets s) m → try_secrets (se_disable ref) s = (s', r) →
  ∃ m', holds (sv_secrets s') m' ∧ ∀ ref', ref' ≠ ref → m' !! ref' = m !! ref'.
Proof.
  intros Hm H. unfold try_secrets in H. destruct (se_disable _ _) as [x y] eqn:Hd. simplify_eq.
  destruct (holds_disable _ _ _ _ _ Hm Hd) as (m' & Hm' & [[_ ->]|(c & secret & b & _ & ->)]); [by exists m|].
  exists (<[ref := (c, secret, true)]> m). split; [done|]. intros ref' Hne. by rewrite lookup_insert_ne.
Qed.

(** After the compensation the previous credential is back, or the failure is told. *)
Lemma compensate_cases id old ctx credential l now error (s s' : Svc) m r :
  SecretBytes_new credential = Ok credential → holds (sv_secrets s) m →
  compensate id old ctx credential l now error s = (s', r) →
  ∃ m', holds (sv_secrets s') m' ∧ (∃ e, r = Err e) ∧
    (m' = <[bc_credential_ref old := (ctx, credential, false)]> m ∨
     r = Err Svc.CredentialRotationCompensationFailed ∧ ∀ ref', ref' ≠ bc_credential_ref old → m' !! ref' = m !! ref').
Proof.
  intros Hsec Hm H. unfold compensate in H.
  apply st_bind_cases in H as [(e & H & _)|(s1 & y & H1 & H)];
    [by apply (try_rotate_cases _ _ _ _ _ _ m) in H as (_ & ? & ? & ? & _)|].
  apply (try_rotate_cases _ _ _ _ _ _ m) in H1 as (_ & y' & m1 & [= <-] & Hm1 & Hcase); [|done|done].
  apply st_bind_cases in H as [(e & H & _)|(s2 & z & H2 & H)]; [by unfold try_repository in H; case_match|].
  apply st_bind_cases in H as [(e & H & _)|(s3 & w & H3 & H)]; [by unfold try_repository in H; case_match|].
  assert (sv_secrets s3 = sv_secrets s1) as Hs.
  { etrans; [by eapply hands_try_repository|by eapply hands_try_repository]. }
  rewrite <- Hs in Hm1. destruct (negb (is_ok y) || negb (is_ok z) || negb (is_ok w)) eqn:Hfail.
  - apply st_bind_cases in H as [(e & H & _)|(s4 & d & Hd & H)]; [by unfold try_secrets in H; case_match|].
    destruct (try_disable_others _ _ _ _ _ Hm1 Hd) as (m2 & Hm2 & Hothers). unfold st_fail in H. simplify_eq.
    exists m2. split; [done|]. split; [by eauto|]. right. split; [done|]. intros ref' Hne. rewrite Hothers by done.
    destruct Hcase as [[_ ->]|[_ ->]]; [done|]. by rewrite lookup_insert_ne.
  - unfold st_fail in H. simplify_eq. exists m1. split; [done|]. split; [by eauto|]. left.
    destruct Hcase as [[[e ->] _]|[_ ->]]; [done|done].
Qed.

(** The invalidation raises every revision of the connection. *)
Lemma invalidate_raises id actor now record (s s' : Svc) account e :
  on_repository (cn_invalidate_connection_authorizations_with_audit id actor now record) s = (s', Ok tt) →
  authorization_at (id, account) (tables s) = Some e →
  ∃ e', authorization_at (id, account) (tables s') = Some e' ∧
    ea_authorization_revision e < ea_authorization_revision e'.
Proof.
  intros (r' & H%mutate_Ok & ->)%on_repository_Ok He. apply st_bind_Ok in H as (t1 & [] & H1 & H2).
  apply (writes_each same_grants) in H2 as [H2 _]; [|eauto with writing].
  unfold invalidate_tx in H1. open_write H1. unfold authorization_at in *.
  change (tables (put_repository r' s)) with (re_tables r'). rewrite H2. cbn [put_authorizations tb_authorizations].
  rewrite find_update_where by done. change (re_tables (sv_repository s)) with (tables s). rewrite He. cbn.
  apply find_by_key in He as [_ Hk]. unfold by_key. rewrite bool_decide_eq_true_2 by (by injection Hk).
  eexists. split; [done|]. cbn. lia.
Qed.

(** What is left of a method after the credentials, up to here, have not been touched. *)
Lemma untouched_bind {A B} (m0 : sv A) (k : A → sv B) (s s' : Svc) m r (Q : vault → Prop) :
  hands_off m0 → holds (sv_secrets s) m → st_bind m0 k s = (s', r) →
  (∃ m', holds (sv_secrets s') m' ∧ ((∃ e, r = Err e) ∧ m' = m ∨ Q m')) ∨
  ∃ s1 a, m0 s = (s1, Ok a) ∧ holds (sv_secrets s1) m ∧ k a s1 = (s', r).
Proof.
  intros Ho Hm [(e & H & ->)|(s1 & a & H & Hk)]%st_bind_cases; pose proof (Ho _ _ _ H) as Hs; rewrite <- Hs in Hm.
  - left. exists m. split; [done|]. left. by eauto.
  - right. eauto.
Qed.

Lemma forward_path {A} (m0 : sv A) (s s' : Svc) r :
  sv_path (λ k, k = Edits) m0 → m0 s = (s', r) → forward_all (tables s) (tables s').
Proof. intros Hp H. apply (evolves_forward (λ k, k = Edits)); [done|]. by eapply Hp. Qed.

(** A rotation that went through. *)
Definition rotated (id : string) (c : BrokerConnection) (new : string) (t t' : Tables) (m m' : vault) : Prop :=
  m' = <[bc_credential_ref c := (credential_context c, new, false)]> m ∧
  (∀ account e, authorization_at (id, account) t = Some e →
     ∃ e', authorization_at (id, account) t' = Some e' ∧ ea_authorization_revision e < ea_authorization_revision e') ∧
  revoked_on id (accounts_of id t') t'.

Lemma persist_refreshes x id old c l (s s' : Svc) :
  bc_id c = id → persist_rotation x id old c l s = (s', Ok tt) → refreshed id l (tables s').
Proof.
  intros Hid H. unfold persist_rotation in H; simpl in H.
  apply st_bind_Ok in H as (s1 & [] & (r & Hrep%commit_Ok & ->)%on_repository_Ok & H).
  apply replace_reachable in Hrep. apply st_bind_Ok in H as (s2 & [] & Hu%update_settles & H).
  apply st_bind_Ok in H as (s3 & persisted & [-> ->]%read_Ok & H). apply st_bind_Ok in H as (s4 & [] & Hr & Ha%audit_settles).
  eapply revoke_refreshes in Hr; [by apply (settling_refreshed _ _ _ _ Ha)|done|].
  destruct Hu as [Hu _]. unfold reachable_in, accounts_of in *. by rewrite Hu.
Qed.

(** The part of a rotation from the exchange of the credential on. *)
Lemma exchange_cases x id (old : BrokerConnection) new discovery accounts changed credential (s s' : Svc) m r :
  let now := sx_now_unix_ms x in
  let context := credential_context old in
  bc_id old = id → SecretBytes_new new = Ok new → holds (sv_secrets s) m →
  vault_get m (bc_credential_ref old) context = Ok credential →
  (let! rotated := try_secrets (se_rotate (bc_credential_ref old) context new now) in
   match rotated with
   | Err e =>
       let! _ := try_repository (cn_update_connection old) in
       st_fail (Svc.SecretStore e)
   | Ok new_fingerprint =>
       let c := set_state Cred.Valid (bc_enabled old) (discovered_health old changed now) now
                  (set_discovered discovery (set_fingerprint new_fingerprint old)) in
       let! persistence := attempt (persist_rotation x id old c (materialize_accounts old (di_accounts discovery) now)) in
       match persistence with
       | Err error => compensate id old context credential accounts now error
       | Ok _ => st_ret {| rt_connection := c; rt_reconnect_required := true |}
       end
   end) s = (s', r) →
  ∃ m', holds (sv_secrets s') m' ∧
    ((∃ e, r = Err e) ∧ m' = m ∨
     r = Err Svc.CredentialRotationCompensationFailed ∧ (∀ ref, ref ≠ bc_credential_ref old → m' !! ref = m !! ref) ∨
     (∃ o, r = Ok o) ∧ m' = <[bc_credential_ref old := (context, new, false)]> m ∧
     revoked_on id (accounts_of id (tables s')) (tables s') ∧ forward_all (tables s) (tables s')).
Proof.
  intros now context Hid Hsec Hm Hget H.
  apply st_bind_cases in H as [(e & H & _)|(s1 & y & H1 & H)];
    [by apply (try_rotate_cases _ _ _ _ _ _ m) in H as (_ & ? & ? & ? & _)|].
  apply (try_rotate_cases _ _ _ _ _ _ m) in H1 as (Ht1 & y' & m1 & [= <-] & Hm1 & [[[e ->] ->]|[Hok ->]]); [| |done|done].
  { assert (sv_secrets s' = sv_secrets s1 ∧ ∃ e, r = Err e) as [Hs' He].
    { apply st_bind_cases in H as [(e' & H & ->)|(s2 & v & H2 & H)].
      - split; [by eapply hands_try_repository|by eauto].
      - unfold st_fail in H. simplify_eq. split; [by eapply hands_try_repository|by eauto]. }
    exists m. rewrite Hs'. eauto. }
  destruct y as [fingerprint|]; [|done]. apply st_bind_cases in H as [(e & H & _)|(s2 & p & H2 & H)].
  { unfold attempt in H. by destruct (persist_rotation _ _ _ _ _ _). }
  unfold attempt in H2. destruct (persist_rotation _ _ _ _ _ _) as [s2' p'] eqn:Hp. injection H2 as -> ->.
  pose proof (hands_persist _ _ _ _ _ _ _ _ Hp) as Hs2. rewrite <- Hs2 in Hm1.
  destruct p as [[]|error].
  - unfold st_ret in H. simplify_eq. eexists. split; [exact Hm1|]. right; right. split_and!; [by eauto|done| |].
    + by apply persist_refreshes in Hp as [_ ?].
    + rewrite <- Ht1. eapply forward_path; [|exact Hp]. by apply path_persist.
  - pose proof (vault_get_Ok _ _ _ _ Hget) as Hl.
    destruct (compensate_cases _ _ _ _ _ _ _ _ _ _ _ (holds_typed _ _ _ _ _ _ Hm Hl) Hm1 H)
      as (m' & Hm' & He & [->|[-> Ho]]).
    + eexists. split; [exact Hm'|]. left. split; [done|]. by rewrite insert_insert_eq, insert_id.
    + exists m'. split; [done|]. right; left. split; [done|]. intros ref Hne. rewrite Ho by done.
      by rewrite lookup_insert_ne.
Qed.

(** C17. A rotation happens or is undone.  When it succeeds, the new credential is the one
    stored, every authorisation of the connection has a higher revision, so that no
    session opened before can go on, and no account the provider does not let it trade
    is authorised.  When it fails, wherever that happens, the previous credential is the
    one stored; only if putting it back fails too is that said, and then no credential
    but this one is concerned. *)
Theorem rotation_happens_or_is_undone x id new (s s' : Svc) m r :
  SecretBytes_new new = Ok new → holds (sv_secrets s) m → rotate_credential x id new s = (s', r) →
  ∃ m', holds (sv_secrets s') m' ∧
    ((∃ e, r = Err e) ∧ m' = m ∨
     ∃ c, find_connection id (tables s) = Some c ∧
       (r = Err Svc.CredentialRotationCompensationFailed ∧
          (∀ ref, ref ≠ bc_credential_ref c → m' !! ref = m !! ref) ∨
        (∃ o, r = Ok o) ∧ rotated id c new (tables s) (tables s') m m')).
Proof.
  intros Hsec Hm H. unfold rotate_credential in H.
  eapply untouched_bind in H as [H|(s1 & [] & [-> _]%require_Ok & _ & H)]; [exact H| |apply hands_require|exact Hm].
  eapply untouched_bind in H as [H|(s1 & c & [-> Hc]%connection_Ok & _ & H)]; [exact H| |apply hands_connection|exact Hm].
  eapply untouched_bind in H as [H|(s1 & discovery & H1 & Hm1 & H)]; [exact H| |apply hands_on_provider|exact Hm].
  assert (tables s1 = tables s) as Ht1.
  { clear H. apply st_bind_Ok in H1 as (s2 & v & H1 & H2). unfold try_provider in H1. unfold st_lift in H2.
    case_match. by simplify_eq. }
  eapply untouched_bind in H as [H|(s2 & [] & H2 & _ & H)]; [exact H| |apply hands_lift|exact Hm1].
  injection H2 as <- _. cbv zeta in H. rewrite (on_secret_get _ _ _ _ _ Hm1) in H.
  destruct (vault_get m _ _) as [credential|] eqn:Hget; [|simplify_eq; eauto 8].
  simpl in H. unfold accounts in H. rewrite on_read in H.
  eapply untouched_bind in H as [H|(s3 & changed & H3 & Hm3 & H)]; [exact H| |by case_match; eauto with hands|exact Hm1].
  eapply untouched_bind in H as [H|(s4 & [] & H4 & Hm4 & H)]; [exact H| |apply hands_on_repository|exact Hm3].
  eapply untouched_bind in H as [H|(s5 & record & ->%audit_record_same & _ & H)]; [exact H| |apply hands_audit_record|exact Hm4].
  eapply untouched_bind in H as [H|(s6 & [] & H6 & Hm6 & H)]; [exact H| |apply hands_on_repository|exact Hm4].
  pose proof Hc as [_ Hid]%find_by_key.
  destruct (exchange_cases _ _ _ _ _ _ _ _ _ _ _ _ Hid Hsec Hm6 Hget H) as (m' & Hm' & Hcase).
  exists m'. split; [done|]. destruct Hcase as [?|Hcase]; [by left|]. right. exists c. split; [done|].
  destruct Hcase as [?|(Ho & -> & Hr & Hf)]; [by left|]. right. split; [done|]. split_and!; [done| |done].
  intros account e He. rewrite <- Ht1 in He.
  apply forward_path in H3; [|case_match; [apply path_ret|apply path_conflict]].
  apply forward_path in H4; [|by apply path_on_repository, op_update].
  destruct (H3 _ _ I He) as (e1 & He1 & [Hn1 _]). destruct (H4 _ _ I He1) as (e2 & He2 & [Hn2 _]).
  destruct (invalidate_raises _ _ _ _ _ _ _ _ H6 He2) as (e3 & He3 & Hn3).
  destruct (Hf _ _ I He3) as (e4 & He4 & [Hn4 _]). exists e4. split; [done|lia].
Qed.
End rotation.

(** ** Authorising execution *)

(** What has been checked when a mode is set. *)
Record authorised (t : Tables) (actor id account : string) (mode : ExecutionAuthorizationMode)
    (c : BrokerConnection) (previous : ExecutionAuthorization) : Prop := {
  au_connection : find_connection id t = Some c;
  au_previous : authorization_at (id, account) t = Some previous;
  au_permitted :
    required_permission (bc_environment c) (ea_mode previous) mode ∈ permissions_of actor t ∨
    authorization_rank mode < authorization_rank (ea_mode previous) ∧
    ∃ p, p ∈ [Perm.EmergencyHalt; Perm.DisableDeleteConnection; Perm.SecurityAdmin] ∧ p ∈ permissions_of actor t;
  au_bound : ∃ b, b ∈ tb_bindings t ∧ binding_key b = (id, account) ∧ bb_enabled b = true;
  au_executable : mode = Mode.Disabled ∨
    bc_enabled c = true ∧ ch_state (bc_health c) = HealthSt.Healthy ∧
    ∃ a, a ∈ tb_accounts t ∧ account_key a = (id, account) ∧ ac_accessible a = true ∧
      required_order_capability (bc_environment c) ∈ ac_capabilities a;
}.

Section authorising.
Context {S P E : Type} `{SS : !SecretStore S} `{BP : !BrokerProviderPort P} `{UU : !Uuids E}.
Notation Svc := (Service Repository S P E).
Notation sv A := (st Svc ServiceError A).

Lemma transition_Ok x env old new (s s' : Svc) :
  require_authorization_transition x env old new s = (s', Ok tt) →
  s' = s ∧ (required_permission env old new ∈ permissions_of (sx_actor x) (tables s) ∨
    authorization_rank new < authorization_rank old ∧
    ∃ p, p ∈ [Perm.EmergencyHalt; Perm.DisableDeleteConnection; Perm.SecurityAdmin] ∧
      p ∈ permissions_of (sx_actor x) (tables s)).
Proof.
  unfold require_authorization_transition. intros (s1 & lowered & H1 & H)%st_bind_Ok.
  assert (s1 = s ∧ (lowered = true → authorization_rank new < authorization_rank old ∧
    ∃ p, p ∈ [Perm.EmergencyHalt; Perm.DisableDeleteConnection; Perm.SecurityAdmin] ∧
      p ∈ permissions_of (sx_actor x) (tables s))) as [-> Hl].
  { destruct (Z.ltb_spec (authorization_rank new) (authorization_rank old)); [|unfold st_ret in H1; by simplify_eq].
    unfold may_lower, st_bind in H1. do 3 (rewrite has_eq in H1; case_bool_decide; cbn iota beta in H1;
      [unfold st_ret in H1; simplify_eq; split; [done|]; intros _; split; [done|]; eexists; split; [|done]; set_solver|]).
    by simplify_eq. }
  destruct lowered; [unfold st_ret in H; simplify_eq; auto|].
  apply require_Ok in H as [-> Hp]. auto.
Qed.

Lemma executable_Ok c a mode v :
  check_executable c a mode = Ok v →
  mode = Mode.Disabled ∨ bc_enabled c = true ∧ ch_state (bc_health c) = HealthSt.Healthy ∧
    ac_accessible a = true ∧ required_order_capability (bc_environment c) ∈ ac_capabilities a.
Proof.
  unfold check_executable. case_bool_decide; [by left|]. destruct (bc_enabled c); [|done]. simpl.
  case_bool_decide; [|done]. simpl. destruct (ac_accessible a); [|done]. simpl. case_bool_decide; [|done]. auto.
Qed.

(** Authorising execution is a checked compare-and-set.  When it succeeds, the
    expected revision was the stored one, the actor may make this change (only lowering
    an authorisation is open to those who may halt or disable), the account is bound,
    and any mode but DISABLED was given on an enabled, healthy connection to an
    accessible account the provider takes orders on; what is stored is the mode under
    the next revision, and the last audit record tells who changed it.  With another
    revision it changes nothing. *)
Theorem authorisation_is_checked_cas x id account mode expected (s s' : Svc) r :
  consistent (tables s) → set_execution_authorization_cas x id account mode expected s = (s', r) →
  (∀ e, authorization_at (id, account) (tables s) = Some e → ea_authorization_revision e ≠ expected →
     s' = s ∧ ∃ err, r = Err err) ∧
  (∀ e', r = Ok e' → ∃ c previous record,
     authorised (tables s) (sx_actor x) id account mode c previous ∧
     ea_authorization_revision previous = expected ∧
     authorization_at (id, account) (tables s') = Some e' ∧
     ea_mode e' = mode ∧ ea_authorization_revision e' = expected + 1 ∧
     tb_audit (tables s') = tb_audit (tables s) ++ [record] ∧ aud_actor record = sx_actor x).
Proof.
  intros Ht H. split.
  - intros e He Hne. unfold set_execution_authorization_cas in H; simpl in H. unfold st_bind at 1 in H.
    rewrite connection_eq in H. destruct (find_connection _ _); simpl in H; [|by simplify_eq; eauto].
    unfold ConnectionRepository.authorization in H. rewrite on_read in H.
    unfold authorization_at in He. unfold find_authorization in H. rewrite He in H. simpl in H. rewrite lift_Ok in H.
    rewrite (proj2 (Z.eqb_neq _ _) Hne) in H. unfold st_fail in H. simpl in H. simplify_eq. eauto.
  - intros e' ->. unfold set_execution_authorization_cas in H; simpl in H.
    apply st_bind_Ok in H as (s1 & c & [-> Hc]%connection_Ok & H).
    apply st_bind_Ok in H as (s1 & found & [-> ->]%read_Ok & H).
    apply st_bind_Ok in H as (s1 & previous & Hp & H). injection Hp as <- Hp%ok_or_Ok.
    destruct (Z.eqb_spec (ea_authorization_revision previous) expected) as [Hrev|]; [|done]. simpl in H.
    apply st_bind_Ok in H as (s1 & [] & [-> Hperm]%transition_Ok & H).
    apply st_bind_Ok in H as (s1 & l & [-> ->]%read_Ok & H).
    apply st_bind_Ok in H as (s1 & a & Ha & H). injection Ha as <- [Ha Hak]%ok_or_Ok%account_found; [|done].
    apply st_bind_Ok in H as (s1 & bs & [-> ->]%read_Ok & H).
    apply st_bind_Ok in H as (s1 & b & Hb & H). injection Hb as <- Hb%ok_or_Ok%binding_found; [|done].
    apply st_bind_Ok in H as (s1 & [] & Hx & H). injection Hx as <- Hx%executable_Ok.
    apply st_bind_Ok in H as (s1 & revision & Hr & H). injection Hr as <- Hr%ok_or_Ok.
    apply checked_Some in Hr as [-> _].
    apply st_bind_Ok in H as (s1 & record & Hrec & H). pose proof (audit_record_same _ _ _ _ _ _ _ _ Hrec) as ->.
    apply st_bind_Ok in H as (s1 & [] & (r' & Hw%mutate_Ok & ->)%on_repository_Ok & H).
    unfold st_ret in H. simplify_eq. apply st_bind_Ok in Hw as (t1 & [] & Hcas & Haud).
    exists c, previous, record. split_and!; try done.
    + constructor; try done; [by eauto|]. destruct Hx as [?|(? & ? & ? & ?)]; [by left|right]. by eauto 10.
    + apply (writes_each same_grants) in Haud as [Haud _]; [|eauto with writing].
      eapply cas_stored in Hcas; [|exact Hp|done]. unfold authorization_at in *.
      change (tables (put_repository r' s)) with (re_tables r'). rewrite Haud. exact Hcas.
    + apply cas_Ok in Hcas. subst t1. simpl in Haud.
      apply st_bind_Ok in Haud as (t2 & [] & Haud & Hret).
      unfold st_ret in Hret. injection Hret as Hret. unfold append_audit_row in Haud.
      change (tables (put_repository r' s)) with (re_tables r'). rewrite <- Hret. clear Hret. by open_write Haud.
    + unfold audit_record in Hrec. repeat (apply st_bind_Ok in Hrec as (? & ? & _ & Hrec)).
      unfold st_ret in Hrec. by simplify_eq.
Qed.
End authorising.

(** ** A service *)

Module ConnectionSample.
Import SecretSample.
#[export] Instance any_uuid : UuidFormat := {| uuid_parses _ := true |}.
#[export] Instance serial : Uuids Z := {| next_uuid n := (n + 1, int_to_string n) |}.

Definition account_fact (id : string) : ProviderAccountFact := {|
  fa_provider_account_id := id; fa_display_name := None; fa_account_type := AccType.Brokerage;
  fa_status := AccStatus.Open; fa_access_level := Access.Full; fa_opened_at_unix_ms := None;
  fa_closed_at_unix_ms := None; fa_accessible := true; fa_capabilities := [Cap.SandboxOrders] |}.
Definition fact : ProviderAccountFact := account_fact "2000".
(** A provider that lists its accounts. *)
#[export] Instance sample_broker : BrokerProviderPort (list ProviderAccountFact) := {|
  bp_validate_and_discover _ _ _ := λ l : list ProviderAccountFact, (l, Ok {|
    di_credential_class := Cred.Sandbox; di_credential_scope := Cred.AllAccessibleAccounts;
    di_connection_capabilities := []; di_accounts := l |}) |}.

Definition everything : list Permission :=
  [Perm.ManageCredentials; Perm.BindAccounts; Perm.DiscoverAccounts; Perm.SubmitSandboxOrders;
   Perm.DisableDeleteConnection].
Definition initial_tables : Tables := put_grants [("user:1", "role:1")]%string
  (put_roles [{| ro_id := "role:1"; ro_name := "operator" |}] ((λ p, ("role:1"%string, p)) <$> everything)
    (put_users [{| us_id := "user:1"; us_display_name := "operator"; us_enabled := true |};
                {| us_id := "user:2"; us_display_name := "guest"; us_enabled := true |}] empty_tables)).
Notation service := (Service Repository (SecretDb Z) (list ProviderAccountFact) Z).
Definition fresh_service : service := {|
  sv_repository := {| re_tables := initial_tables; re_fail_next_audit := false; re_fail_next_onboarding := false |};
  sv_secrets := SecretSample.store; sv_provider := [fact]; sv_uuids := 1 |}.
Definition operator : SecurityContext := {| sx_actor := "user:1"; sx_correlation_id := "corr"; sx_now_unix_ms := 7 |}.
Definition guest : SecurityContext := {| sx_actor := "user:2"; sx_correlation_id := "corr"; sx_now_unix_ms := 8 |}.

Definition opening : ServiceCall :=
  CreateConnection {| cq_provider := T_INVEST; cq_environment := Env.Sandbox; cq_label := "desk" |} "bearer".
Definition binding : ServiceCall := BindAccount "connection:1" "2000" "vox:1".
Definition authorising : ServiceCall := SetAuthorization "connection:1" "2000" Mode.ManualAllowed.
Definition opened : service := Eval vm_compute in fst (run_service operator opening fresh_service).
Definition bound : service := Eval vm_compute in fst (run_service operator binding opened).
Definition trading : service := Eval vm_compute in fst (run_service operator authorising bound).
Definition closed : service := Eval vm_compute in put_provider [] trading.

Lemma initial_consistent : consistent (tables fresh_service).
Proof.
  constructor; cbn; try (by apply NoDup_nil_2); try (by intros ? ?%elem_of_nil);
    try (apply (bool_decide_unpack _); vm_compute; exact I).
  - intros rp Hrp. assert (Forall (λ rp, rp.1 = "role:1"%string) ((λ p, ("role:1"%string, p)) <$> everything)) as Hall
      by (apply Forall_fmap, Forall_true; done).
    rewrite Forall_forall in Hall. rewrite (Hall rp Hrp). set_solver.
  - intros ur ->%list_elem_of_singleton. split; set_solver.
Qed.
Lemma run_eq x call (s s' : service) r : run_service x call s = (s', r) → consistent (tables s) → consistent (tables s').
Proof. intros H. apply path_run in H. by eapply evolves_consistent. Qed.
Lemma trading_consistent : consistent (tables trading).
Proof.
  apply (run_eq operator authorising bound trading (Ok tt)); [vm_compute; reflexivity|].
  apply (run_eq operator binding opened bound (Ok tt)); [vm_compute; reflexivity|].
  apply (run_eq operator opening fresh_service opened (Ok tt)); [vm_compute; reflexivity|]. exact initial_consistent.
Qed.
Definition sandbox : CredentialContext := {| cx_provider := T_INVEST; cx_environment := Env.Sandbox |}.
Definition stored : vault := <["credential:2" := (sandbox, "bearer", false)]> ∅.
Lemma trading_holds : holds (sv_secrets trading) stored.
Proof.
  destruct (put_refines false false "credential:2" sandbox "bearer" 7 SecretSample.store (sv_secrets trading) ∅ (Ok (fingerprint "bearer")))
    as (m' & Hm & [[[e He] _]|(_ & _ & ->)]); [reflexivity|apply SecretSample.store_empty|vm_compute; reflexivity|done|exact Hm].
Qed.
End ConnectionSample.
Import SecretSample ConnectionSample.

(** Disabled at its first revision, allowed at its second. *)
Definition before_and_after : option ExecutionAuthorization * option ExecutionAuthorization :=
  Eval vm_compute in (authorization_at ("connection:1", "2000")%string (tables bound),
                      authorization_at ("connection:1", "2000")%string (tables trading)).

Lemma tables_stay_consistent_witness : consistent (tables opened).
Proof.
  apply (tables_stay_consistent operator opening fresh_service opened (Ok tt)); [exact initial_consistent|].
  vm_compute. reflexivity.
Defined.

Lemma bound_consistent : consistent (tables bound).
Proof.
  apply (run_eq operator binding opened bound (Ok tt)); [vm_compute; reflexivity|].
  apply (run_eq operator opening fresh_service opened (Ok tt)); [vm_compute; reflexivity|]. exact initial_consistent.
Qed.

Lemma authorization_revisions_advance_witness :
  match before_and_after with (Some e, Some e') => newer e e' | _ => False end.
Proof.
  apply (authorization_revisions_advance operator authorising bound trading (Ok tt) ("connection:1", "2000")%string);
    [exact bound_consistent|vm_compute; reflexivity|vm_compute; reflexivity|vm_compute; reflexivity].
Defined.

Definition granted : ExecutionAccessGrant := Eval vm_compute in
  match snd (validate_runtime_execution_access "connection:1" "2000" XPurpose.SandboxMutation (Some 2) trading) with
  | Ok g => g
  | Err _ => {| xg_target := {| at_connection_id := ""; at_provider := ""; at_environment := Env.Sandbox;
                                at_provider_account_id := ""; at_vox_account_id := "" |};
                xg_credential_ref := ""; xg_capabilities := []; xg_mode := Mode.Disabled;
                xg_authorization_revision := 0 |}
  end.

Lemma execution_access_is_earned_witness :
  ∃ c a b e secret, earned (tables trading) stored "connection:1" "2000" XPurpose.SandboxMutation (Some 2) granted c a b e secret.
Proof.
  apply (proj2 (proj1 (execution_access_is_earned "connection:1" "2000" XPurpose.SandboxMutation (Some 2) trading trading
    stored granted trading_consistent trading_holds) ltac:(vm_compute; reflexivity))).
Defined.

(** The revision before the last change is refused. *)
Example stale_revision_refused :
  snd (validate_runtime_execution_access "connection:1" "2000" XPurpose.SandboxMutation (Some 1) trading)
  = Err Svc.StaleExecutionAuthorization.
Proof. vm_compute. reflexivity. Qed.

Lemma unpermitted_calls_change_nothing_witness : ∃ e, run_service guest binding trading = (trading, Err e).
Proof.
  apply (unpermitted_calls_change_nothing guest binding trading); [discriminate|].
  intros p _. vm_compute. intros H. inversion H.
Defined.

Definition revalidated : Service Repository (SecretDb Z) (list ProviderAccountFact) Z * result ServiceError BrokerConnection :=
  Eval vm_compute in revalidate operator "connection:1" closed.
Lemma revalidation_follows_provider_witness :
  ∃ old credential p' discovery, find_connection "connection:1" (tables closed) = Some old ∧
    vault_get stored (bc_credential_ref old) (credential_context old) = Ok credential ∧
    bp_validate_and_discover (bc_provider old) (bc_environment old) credential [] = (p', Ok discovery) ∧
    refreshed "connection:1" (materialize_accounts old (di_accounts discovery) 7) (tables (fst revalidated)).
Proof.
  destruct (snd revalidated) as [c|e] eqn:Hc; [|vm_compute in Hc; discriminate].
  exact (revalidation_follows_provider operator "connection:1" closed (fst revalidated) stored c trading_holds
    ltac:(rewrite <- Hc; vm_compute; reflexivity)).
Defined.

Definition rotated_once : Service Repository (SecretDb Z) (list ProviderAccountFact) Z * result ServiceError CredentialRotationOutcome :=
  Eval vm_compute in rotate_credential operator "connection:1" "bearer two" trading.
Lemma rotated_once_eq :
  rotate_credential operator "connection:1" "bearer two" trading = (fst rotated_once, snd rotated_once).
Proof. vm_compute. reflexivity. Qed.
Lemma rotation_happens_or_is_undone_witness :
  ∃ m' c, holds (sv_secrets (fst rotated_once)) m' ∧ find_connection "connection:1" (tables trading) = Some c ∧
    rotated "connection:1" c "bearer two" (tables trading) (tables (fst rotated_once)) stored m'.
Proof.
  destruct (rotation_happens_or_is_undone operator "connection:1" "bearer two" trading (fst rotated_once) stored
    (snd rotated_once) eq_refl trading_holds rotated_once_eq)
    as (m' & Hm & [[[e He] _]|(c & Hc & [[He _]|[_ Hr]])]); [discriminate He| |].
  - discriminate He.
  - exists m', c. split; [exact Hm|]. split; [exact Hc|exact Hr].
Defined.

Definition authorised_once : Service Repository (SecretDb Z) (list ProviderAccountFact) Z * result ServiceError ExecutionAuthorization :=
  Eval vm_compute in set_execution_authorization_cas operator "connection:1" "2000" Mode.ManualAllowed 1 bound.
Lemma authorised_once_eq :
  set_execution_authorization_cas operator "connection:1" "2000" Mode.ManualAllowed 1 bound
  = (fst authorised_once, snd authorised_once).
Proof. vm_compute. reflexivity. Qed.
Lemma authorisation_is_checked_cas_witness :
  match snd authorised_once with
  | Ok e' => authorization_at ("connection:1", "2000")%string (tables (fst authorised_once)) = Some e' ∧
             ea_authorization_revision e' = 2
  | Err _ => False
  end.
Proof.
  destruct (authorisation_is_checked_cas operator "connection:1" "2000" Mode.ManualAllowed 1 bound (fst authorised_once)
    (snd authorised_once) bound_consistent authorised_once_eq) as [_ H].
  destruct (snd authorised_once) as [e'|e] eqn:Hr; [|vm_compute in Hr; discriminate Hr].
  destruct (H e' eq_refl) as (c & previous & record & _ & _ & Hat & _ & Hrev & _). split; [exact Hat|exact Hrev].
Defined.

(** An account opened at the broker after the onboarding is found by a revalidation and
    can be bound, but has no authorisation, and none can be given to it. *)
Example later_account_cannot_be_authorised :
  let grown := put_provider [fact; account_fact "3000"] trading in
  let seen := fst (run_service operator (Revalidate "connection:1") grown) in
  let bound := fst (run_service operator (BindAccount "connection:1" "3000" "vox:2") seen) in
  snd (run_service operator (Revalidate "connection:1") grown) = Ok tt ∧
  snd (run_service operator (BindAccount "connection:1" "3000" "vox:2") seen) = Ok tt ∧
  snd (run_service operator (SetAuthorization "connection:1" "3000" Mode.ManualAllowed) bound) = Err Svc.AccountNotFound.
Proof. vm_compute. split_and!; reflexivity. Qed.
