(* ===== verification/ConnectionRecovery.v ===== *)
(** * Recovery of the connection lifecycle

    [recover_connection_lifecycle] of [ConnectionService.v], run at start-up: what it
    leaves behind when it returns.  Each connection is recovered by touching its own
    row and its own credential alone, so what holds of one after its turn holds at the
    end. *)
From stdpp Require Import gmap strings.
From S2P Require Import Prelude ConnectionModel RiskStore ConnectionRepository SecretStore ConnectionService.
From S2P Require Import ConnectionSafety.

(** ** Touching one connection *)

(** The same connection, perhaps in another state. *)
Definition kin (c c' : BrokerConnection) : Prop :=
  bc_id c' = bc_id c ∧ bc_credential_ref c' = bc_credential_ref c ∧ credential_context c' = credential_context c.
#[export] Instance kin_refl : Reflexive kin.
Proof. by intros c. Qed.
#[export] Instance kin_trans : Transitive kin.
Proof. intros c1 c2 c3 (? & ? & ?) (? & ? & ?). split_and!; congruence. Qed.

(** Only the row of [id] changes, and it is not made up. *)
Definition touches (id : string) (t t' : Tables) : Prop :=
  (∀ id', id' ≠ id → find_connection id' t' = find_connection id' t) ∧
  (∀ c', find_connection id t' = Some c' → ∃ c, find_connection id t = Some c ∧ kin c c').
#[export] Instance touches_refl id : Reflexive (touches id).
Proof. intros t. split; [done|]. intros c Hc. by exists c. Qed.
#[export] Instance touches_trans id : Transitive (touches id).
Proof.
  intros t1 t2 t3 [H1 H2] [H3 H4]. split; [intros id' Hne; by rewrite H3, H1|].
  intros c3 (c2 & (c1 & Hc1 & ?)%H2 & ?)%H4. exists c1. split; [done|]. by etrans.
Qed.

Lemma same_connections_touches id t t' : tb_connections t' = tb_connections t → touches id t t'.
Proof. intros H. unfold touches, find_connection. rewrite H. apply touches_refl. Qed.

Lemma find_filter_other {A} (p q : A → bool) l : (∀ x, q x = true → p x = true) → List.find q (List.filter p l) = List.find q l.
Proof.
  intros H. induction l as [|x l IH]; simpl; [done|]. destruct (q x) eqn:Hq.
  - rewrite H by done. simpl. by rewrite Hq.
  - destruct (p x); simpl; [by rewrite Hq|done].
Qed.

(** What the writes of a recovery do to the connections. *)
Lemma update_stored c t t' v old :
  write_connection c true t = (t', Ok v) → find_connection (bc_id c) t = Some old →
  touches (bc_id c) t t' ∧ find_connection (bc_id c) t' = Some (overwrite old c).
Proof.
  intros H Hold. unfold write_connection in H. open_write H. unfold touches, find_connection in *. cbn.
  assert (∀ id, List.find (by_key bc_id id) (update_where (by_key bc_id (bc_id c)) (λ old, overwrite old c) (tb_connections t))
    = (λ r, if by_key bc_id (bc_id c) r then overwrite r c else r) <$> List.find (by_key bc_id id) (tb_connections t)) as Hf.
  { intros id. by apply find_update_where. }
  assert (by_key bc_id (bc_id c) old = true) as Hk by (apply find_by_key in Hold as [_ ?]; by apply bool_decide_eq_true).
  split; [split|].
  - intros id' Hne. rewrite Hf. destruct (List.find (by_key bc_id id') _) as [r|] eqn:Hr; [|done]. cbn.
    apply find_by_key in Hr as [_ Hr]. unfold by_key. rewrite bool_decide_eq_false_2; [done|congruence].
  - intros c'. rewrite Hf, Hold. cbn. rewrite Hk. intros [= <-]. by exists old.
  - rewrite Hf, Hold. cbn. by rewrite Hk.
Qed.

Definition same_connections (t t' : Tables) : Prop := tb_connections t' = tb_connections t.
#[export] Instance same_connections_refl : Reflexive same_connections.
Proof. by intros t. Qed.
#[export] Instance same_connections_trans : Transitive same_connections.
Proof. intros t1 t2 t3. unfold same_connections. congruence. Qed.

Ltac other_rows := intros t t' v H; open_write H; done.

Lemma rows_audit a : writes same_connections (append_audit_row a).
Proof. unfold append_audit_row. other_rows. Qed.
Lemma rows_insert_account id a : writes same_connections (insert_account id a).
Proof. unfold insert_account. other_rows. Qed.
Lemma rows_insert_authorization id e : writes same_connections (insert_authorization id e).
Proof. unfold insert_authorization. other_rows. Qed.
Lemma rows_upsert_account id a : writes same_connections (upsert_account id a).
Proof. unfold upsert_account. other_rows. Qed.
Lemma rows_cas e expected : writes same_connections (write_authorization_cas e expected).
Proof. unfold write_authorization_cas. other_rows. Qed.
#[export] Hint Resolve rows_audit rows_insert_account rows_insert_authorization rows_upsert_account rows_cas : writing.
Lemma rows_replace id l : writes same_connections (replace_accounts_tx id l).
Proof.
  intros t t' [] H. unfold replace_accounts_tx in H. open_write H.
  by apply (writes_each same_connections) in H; [|eauto with writing].
Qed.
Lemma rows_audits l t t' : each append_audit_row l t = (t', Ok tt) → same_connections t t'.
Proof. apply (writes_each same_connections). eauto with writing. Qed.

Lemma find_same id t t' : same_connections t t' → find_connection id t' = find_connection id t.
Proof. intros H. unfold find_connection. by rewrite H. Qed.

(** *** Calls of the service *)

Section calls.
Context {S P E : Type} `{SS : !SecretStore S} `{BP : !BrokerProviderPort P} `{UU : !Uuids E}.
Notation Svc := (Service Repository S P E).
Notation sv A := (st Svc ServiceError A).

(** A stored connection after its row was updated, with or without records. *)
Lemma update_audits_Ok c audits (s s' : Svc) old :
  on_repository (update_connection_with_audits c audits) s = (s', Ok tt) →
  find_connection (bc_id c) (tables s) = Some old →
  touches (bc_id c) (tables s) (tables s') ∧ find_connection (bc_id c) (tables s') = Some (overwrite old c).
Proof.
  intros (r & H%mutate_Ok & ->)%on_repository_Ok Hold. apply st_bind_Ok in H as (t1 & [] & H1 & H2%rows_audits).
  destruct (update_stored _ _ _ _ _ H1 Hold) as [Ht Hf]. change (tables (put_repository r s)) with (re_tables r).
  rewrite (find_same _ _ _ H2). split; [|done]. etrans; [exact Ht|by apply same_connections_touches].
Qed.

Lemma update_Ok c (s s' : Svc) old :
  on_repository (update_connection c) s = (s', Ok tt) → find_connection (bc_id c) (tables s) = Some old →
  touches (bc_id c) (tables s) (tables s') ∧ find_connection (bc_id c) (tables s') = Some (overwrite old c).
Proof. intros (r & H%commit_Ok & ->)%on_repository_Ok Hold. exact (update_stored _ _ _ _ _ H Hold). Qed.

Lemma onboarding_Ok c l es audits (s s' : Svc) old :
  on_repository (insert_onboarding c l es audits) s = (s', Ok tt) → find_connection (bc_id c) (tables s) = Some old →
  touches (bc_id c) (tables s) (tables s') ∧ find_connection (bc_id c) (tables s') = Some (overwrite old c).
Proof.
  intros (r & H & ->)%on_repository_Ok Hold. unfold insert_onboarding in H.
  destruct (re_fail_next_onboarding _); [done|]. apply commit_Ok in H.
  apply st_bind_Ok in H as (t1 & [] & H1 & H). destruct (update_stored _ _ _ _ _ H1 Hold) as [Ht Hf].
  assert (same_connections t1 (re_tables r)) as Hs.
  { apply st_bind_Ok in H as (t2 & [] & H2 & H). apply st_bind_Ok in H as (t3 & [] & H3 & H4%rows_audits).
    apply (writes_each same_connections) in H2; [|eauto with writing].
    apply (writes_each same_connections) in H3; [|eauto with writing]. etrans; [exact H2|]. by etrans. }
  change (tables (put_repository r s)) with (re_tables r). rewrite (find_same _ _ _ Hs). split; [|done].
  etrans; [exact Ht|by apply same_connections_touches].
Qed.

Lemma finalize_Ok id record (s s' : Svc) :
  on_repository (finalize_connection_delete id record) s = (s', Ok tt) →
  touches id (tables s) (tables s') ∧ find_connection id (tables s') = None.
Proof.
  intros (r & H%mutate_Ok & ->)%on_repository_Ok. apply st_bind_Ok in H as (t1 & [] & H1 & H2%rows_audits).
  change (tables (put_repository r s)) with (re_tables r). rewrite (find_same _ _ _ H2).
  unfold delete_row in H1. open_write H1.
  assert (find_connection id (cascade_delete id (re_tables (sv_repository s))) = None) as Hnone.
  { apply find_None_iff. intros c [_ Hc]%elem_of_filter_bool. by apply negb_true_iff in Hc. }
  split; [|done]. etrans; [|by apply same_connections_touches]. split; [|by rewrite Hnone].
  intros id' Hne. apply find_filter_other. intros c Hc%bool_decide_eq_true.
  apply negb_true_iff, bool_decide_eq_false. congruence.
Qed.

Lemma audit_rows x action target old new (s s' : Svc) :
  audit x action target old new s = (s', Ok tt) → same_connections (tables s) (tables s').
Proof.
  intros (s1 & record & ->%audit_record_same & (r' & H%commit_Ok & ->)%on_repository_Ok)%st_bind_Ok.
  by eapply rows_audit.
Qed.

Lemma revoke_one_rows x c a (s s' : Svc) :
  revoke_one x c a s = (s', Ok tt) → same_connections (tables s) (tables s').
Proof.
  unfold revoke_one; simpl. intros (s1 & found & [-> ->]%read_Ok & H)%st_bind_Ok.
  destruct (find_authorization _ _ _) as [previous|]; [|unfold st_ret in H; by simplify_eq].
  destruct (_ || _); [unfold st_ret in H; by simplify_eq|].
  apply st_bind_Ok in H as (s1 & bs & [-> ->]%read_Ok & H).
  apply st_bind_Ok in H as (s1 & record & ->%audit_record_same & H).
  apply st_bind_Ok in H as (s1 & revision & Hrev & H). injection Hrev as <- _.
  apply on_repository_Ok in H as (r' & H%mutate_Ok & ->). apply st_bind_Ok in H as (t1 & [] & H1%rows_cas & H2%rows_audits).
  by etrans.
Qed.

Lemma revoke_rows x c l (s s' : Svc) :
  revoke_invalid_authorizations x c l s = (s', Ok tt) → same_connections (tables s) (tables s').
Proof.
  unfold revoke_invalid_authorizations. revert s. induction l as [|a l IH]; simpl; intros s H.
  { unfold st_ret in H. by simplify_eq. }
  apply st_bind_Ok in H as (s1 & [] & H1%revoke_one_rows & H2%IH). by etrans.
Qed.

Lemma conflict_same id l (s s' : Svc) r : authorization_conflict id l s = (s', r) → s' = s.
Proof.
  induction l as [|a l IH]; simpl; intros H; [unfold st_ret in H; by simplify_eq|].
  unfold ConnectionRepository.authorization in H. rewrite on_read in H.
  destruct (_ && _); [unfold st_ret in H; by simplify_eq|by apply IH].
Qed.
End calls.

(** ** One connection *)

(** Nothing is left half-done, and an enabled connection has a credential that can be
    read. *)
Definition at_rest (m : vault) (c : BrokerConnection) : Prop :=
  bc_credential_status c ≠ Cred.PendingDelete ∧ bc_credential_status c ≠ Cred.PendingDisable ∧
  (bc_credential_status c = Cred.Valid → bc_enabled c = true →
   ∃ secret, vault_get m (bc_credential_ref c) (credential_context c) = Ok secret).

(** A connection [c] after its turn: at rest, or gone with its credential. *)
Definition settled (c : BrokerConnection) (t : Tables) (m : vault) : Prop :=
  match find_connection (bc_id c) t with
  | Some c' => kin c c' ∧ at_rest m c'
  | None => m !! bc_credential_ref c = None
  end.

(** Only the credential of [c] may have changed. *)
Definition others_kept (ref : string) (m m' : vault) : Prop := ∀ ref', ref' ≠ ref → m' !! ref' = m !! ref'.

Lemma overwrite_kin old c : kin old (overwrite old c).
Proof. done. Qed.

(** An updated row whose credential is readable, or which is not in use. *)
Lemma settled_overwrite c new t m :
  find_connection (bc_id c) t = Some (overwrite c new) →
  bc_credential_status new ≠ Cred.PendingDelete → bc_credential_status new ≠ Cred.PendingDisable →
  (bc_credential_status new = Cred.Valid → bc_enabled new = true →
   ∃ secret, vault_get m (bc_credential_ref c) (credential_context c) = Ok secret) → settled c t m.
Proof. intros Hf H1 H2 H3. unfold settled. by rewrite Hf. Qed.

Section one.
Context {S P E : Type} `{SS : !SecretStore S} `{SV : !SecretVault S} `{BP : !BrokerProviderPort P} `{UU : !Uuids E}.
Notation Svc := (Service Repository S P E).
Notation sv A := (st Svc ServiceError A).

(** What recovering [c] may do. *)
Definition recovers (c c' : BrokerConnection) (s s' : Svc) (m : vault) : Prop :=
  ∃ m', holds (sv_secrets s') m' ∧ touches (bc_id c) (tables s) (tables s') ∧
    others_kept (bc_credential_ref c) m m' ∧ bc_credential_ref c' = bc_credential_ref c ∧ settled c (tables s') m'.

Lemma try_get ref c (s s' : Svc) m r :
  holds (sv_secrets s) m → try_secrets (se_get ref c) s = (s', r) → s' = s ∧ r = Ok (vault_get m ref c).
Proof.
  intros Hm H. unfold try_secrets in H. rewrite (holds_get _ _ _ _ Hm) in H. simplify_eq. by rewrite put_same_secrets.
Qed.

(** A row updated under an audit record, the credentials left alone. *)
Lemma update_recovers c new audits (s s' : Svc) m :
  bc_id new = bc_id c → holds (sv_secrets s) m → find_connection (bc_id c) (tables s) = Some c →
  bc_credential_ref new = bc_credential_ref c →
  bc_credential_status new ≠ Cred.PendingDelete → bc_credential_status new ≠ Cred.PendingDisable →
  (bc_credential_status new = Cred.Valid → bc_enabled new = true →
   ∃ secret, vault_get m (bc_credential_ref c) (credential_context c) = Ok secret) →
  on_repository (update_connection_with_audits new audits) s = (s', Ok tt) → recovers c new s s' m.
Proof.
  intros Hid Hm Hc Href H1 H2 H3 H. rewrite <- Hid in Hc.
  destruct (update_audits_Ok _ _ _ _ _ H Hc) as [Ht Hf]. rewrite Hid in *. exists m.
  rewrite (hands_on_repository _ _ _ _ H). split_and!; try done. by eapply settled_overwrite.
Qed.

Lemma mark_invalid_recovers x action old detail c c' (s s' : Svc) m :
  holds (sv_secrets s) m → find_connection (bc_id c) (tables s) = Some c →
  mark_invalid x action old detail c s = (s', Ok c') → recovers c c' s s' m.
Proof.
  intros Hm Hc H. unfold mark_invalid in H; simpl in H.
  apply st_bind_Ok in H as (s1 & record & ->%audit_record_same & H). apply st_bind_Ok in H as (s1 & [] & H & Hret).
  unfold st_ret in Hret. simplify_eq. by eapply update_recovers.
Qed.

Lemma verify_recovers x report report' c c' (s s' : Svc) m :
  bc_credential_status c = Cred.Valid → holds (sv_secrets s) m → find_connection (bc_id c) (tables s) = Some c →
  verify_credential x report c s = (s', Ok (c', report')) → recovers c c' s s' m.
Proof.
  intros Hst Hm Hc H. unfold verify_credential in H.
  apply st_bind_Ok in H as (s1 & y & [-> [= ->]]%(try_get _ _ _ _ m) & H); [|done].
  destruct (vault_get m _ _) as [secret|e] eqn:Hget.
  - unfold st_ret in H. simplify_eq. exists m. split_and!; try done. unfold settled. rewrite Hc.
    split; [done|]. unfold at_rest. rewrite Hst, Hget. split_and!; try done. eauto.
  - destruct e; try done; apply st_bind_Ok in H as (s1 & c1 & H & Hret); unfold st_ret in Hret; simplify_eq;
      by eapply mark_invalid_recovers.
Qed.

Lemma disable_recovers x report report' c c' (s s' : Svc) m :
  holds (sv_secrets s) m → find_connection (bc_id c) (tables s) = Some c →
  recover_disable x report c s = (s', Ok (c', report')) → recovers c c' s s' m.
Proof.
  intros Hm Hc H. unfold recover_disable in H; simpl in H. apply st_bind_Ok in H as (s1 & y & Hd & H).
  assert (tables s1 = tables s) as Ht1 by (unfold try_secrets in Hd; destruct (se_disable _ _); by simplify_eq).
  destruct (try_disable_others _ _ _ _ _ Hm Hd) as (m1 & Hm1 & Hothers).
  assert ((let! record := audit_record x "CONNECTION_DISABLE_RECOVERED" (bc_id c) (Some "PENDING_DISABLE"%string)
             (Some "DISABLED"%string) in
           on_repository (update_connection_with_audit (set_state Cred.Disabled false (bc_health c) (sx_now_unix_ms x) c) record) ;;;
           st_ret (set_state Cred.Disabled false (bc_health c) (sx_now_unix_ms x) c, count 0 0 0 1 0 report)) s1
          = (s', Ok (c', report'))) as H'.
  { destruct y as [[]|e]; [done|]. destruct e; done. }
  apply st_bind_Ok in H' as (s2 & record & ->%audit_record_same & H'). apply st_bind_Ok in H' as (s2 & [] & H1 & Hret).
  unfold st_ret in Hret. simplify_eq. rewrite <- Ht1 in Hc.
  eapply (update_recovers c) in H1 as (m2 & Hm2 & Htouch & Hk & _ & Hs); [|done..].
  exists m2. rewrite <- Ht1. split_and!; try done. intros ref Hne. rewrite Hk by done. by apply Hothers.
Qed.

Lemma delete_recovers x report report' c c' (s s' : Svc) m :
  holds (sv_secrets s) m → find_connection (bc_id c) (tables s) = Some c →
  recover_delete x report c s = (s', Ok (c', report')) → recovers c c' s s' m.
Proof.
  intros Hm Hc H. unfold recover_delete, discard_secret in H; simpl in H.
  apply st_bind_Ok in H as (s1 & [] & Hd & H). apply st_bind_Ok in Hd as (s2 & y & Hd & Hy).
  assert (s1 = s2 ∧ (y = Ok tt ∨ y = Err Sec.NotFound)) as [-> Hy'].
  { destruct y as [[]|[]]; unfold st_ret in Hy; simplify_eq; auto. }
  unfold try_secrets in Hd. destruct (se_delete _ _) as [x1 y1] eqn:Hdel. simplify_eq.
  destruct (holds_delete _ _ _ _ _ Hm Hdel) as (m1 & Hm1 & Hcase).
  assert (m1 !! bc_credential_ref c = None ∧ others_kept (bc_credential_ref c) m m1) as [Hgone Hothers].
  { destruct Hcase as [[(e & -> & He) ->]| ->].
    - split; [|done]. apply He. destruct Hy' as [|[= ->]]; done.
    - split; [by rewrite lookup_delete_eq|]. intros ref Hne. by rewrite lookup_delete_ne. }
  apply st_bind_Ok in H as (s2 & record & ->%audit_record_same & H). apply st_bind_Ok in H as (s2 & [] & H1 & Hret).
  unfold st_ret in Hret. simplify_eq. destruct (finalize_Ok _ _ _ _ H1) as [Htouch Hnone].
  exists m1. rewrite (hands_on_repository _ _ _ _ H1). split_and!; try done. unfold settled. by rewrite Hnone.
Qed.

Lemma onboarding_recovers x metadata report report' c c' (s s' : Svc) m :
  holds (sv_secrets s) m → find_connection (bc_id c) (tables s) = Some c → bc_credential_status c = Cred.PendingValidation →
  recover_onboarding x metadata report c s = (s', Ok (c', report')) → recovers c c' s s' m.
Proof.
  intros Hm Hc Hst H. unfold recover_onboarding in H; simpl in H.
  apply st_bind_Ok in H as (s1 & y & [-> [= ->]]%(try_get _ _ _ _ m) & H); [|done].
  destruct (vault_get m _ _) as [credential|e] eqn:Hget; cycle 1.
  { destruct e; try done. apply st_bind_Ok in H as (s1 & c1 & H & Hret). unfold st_ret in Hret. simplify_eq.
    by eapply mark_invalid_recovers. }
  apply st_bind_Ok in H as (s1 & outcome & Hp & H). unfold try_provider in Hp. destruct (bp_validate_and_discover _ _ _ _) as [p y].
  injection Hp as <- <-. destruct y as [discovery|e].
  - apply st_bind_Ok in H as (s1 & [] & Hv & H). injection Hv as <- _.
    apply st_bind_Ok in H as (s1 & fingerprint & Hf & H). injection Hf as <- _.
    apply st_bind_Ok in H as (s1 & record & ->%audit_record_same & H). apply st_bind_Ok in H as (s1 & [] & H1 & Hret).
    unfold st_ret in Hret. simplify_eq. destruct (onboarding_Ok _ _ _ _ _ _ c H1 Hc) as [Ht Hf1].
    exists m. rewrite (hands_on_repository _ _ _ _ H1). split_and!; try done. eapply settled_overwrite; [exact Hf1|done|done|].
    eauto.
  - apply st_bind_Ok in H as (s1 & record & ->%audit_record_same & H). apply st_bind_Ok in H as (s1 & [] & H1 & Hret).
    unfold st_ret in Hret. simplify_eq.
    eapply (update_recovers c _ _ (put_provider p s) s' m) in H1; [exact H1|cbn; rewrite ?Hst; done..].
Qed.

(** *** An interrupted rotation *)

Lemma revalidate_recovers x c c1 (s s' : Svc) m :
  holds (sv_secrets s) m → find_connection (bc_id c) (tables s) = Some c → revalidate x (bc_id c) s = (s', Ok c1) →
  holds (sv_secrets s') m ∧ touches (bc_id c) (tables s) (tables s') ∧
  (∃ c2, find_connection (bc_id c) (tables s') = Some c2 ∧ kin c c2) ∧ kin c c1 ∧
  bc_credential_status c1 = Cred.Valid ∧
  ∃ secret, vault_get m (bc_credential_ref c) (credential_context c) = Ok secret.
Proof.
  intros Hm Hc (old & credential & p' & discovery & changed & s1 & s2 & s3 & s4 & s5 & Hold & _ & -> & Hget & _ & H1 & H2 &
    H3 & H4 & H5 & H6)%(revalidate_Ok _ _ _ _ m); [|done].
  rewrite Hc in Hold. injection Hold as <-.
  assert (s1 = put_provider p' s) as ->.
  { destruct (access_removed _ _); [unfold st_ret in H1; by simplify_eq|by apply conflict_same in H1]. }
  assert (sv_secrets s' = sv_secrets s) as ->.
  { rewrite (hands_audit _ _ _ _ _ _ _ _ H6), (hands_on_repository _ _ _ _ H5), (hands_revoke _ _ _ _ _ _ H4).
    by rewrite (hands_on_repository _ _ _ _ H3), (hands_on_repository _ _ _ _ H2). }
  destruct (update_Ok _ _ _ c H2 Hc) as [T2 F2].
  apply on_repository_Ok in H3 as (r & H3%commit_Ok%rows_replace & ->). apply revoke_rows in H4.
  assert (same_connections (tables s2) (tables s4)) as H24 by (etrans; [exact H3|exact H4]).
  rewrite <- (find_same _ _ _ H24) in F2. destruct (update_Ok _ _ _ _ H5 F2) as [T5 F5]. apply audit_rows in H6.
  rewrite <- (find_same _ _ _ H6) in F5. split_and!; try done; [|by eexists; split; [exact F5|]|by eauto].
  etrans; [exact T2|]. etrans; [by apply same_connections_touches|]. etrans; [exact T5|].
  by apply same_connections_touches.
Qed.

(** Calls whose failures are not the provider's. *)
Definition blameless {A} (m : sv A) : Prop := ∀ s s' e, m s ≠ (s', Err (Svc.Provider e)).

Lemma blameless_bind {A B} (m : sv A) (k : A → sv B) : blameless m → (∀ a, blameless (k a)) → blameless (st_bind m k).
Proof.
  intros Hm Hk s s' e [(e' & H & [= <-])|(s1 & a & _ & H)]%st_bind_cases; [by eapply Hm|by eapply Hk].
Qed.
Lemma blameless_ret {A} (a : A) : blameless (st_ret a).
Proof. by intros s s' e H. Qed.
Lemma blameless_model {A} (x : result Meta.ModelError A) : blameless (model x).
Proof. intros s s' e H. unfold model, st_lift in H. by destruct x. Qed.
Lemma blameless_option {A} (o : option A) err : (∀ e, err ≠ Svc.Provider e) → blameless (st_lift (ok_or o err)).
Proof. intros Herr s s' e H. unfold st_lift in H. destruct o; [done|]. simplify_eq/=. by destruct (Herr e). Qed.
Lemma blameless_on_repository {A} (m : st Repository RepositoryError A) : blameless (on_repository m).
Proof.
  intros s s' e H. unfold on_repository, try_repository, st_bind, st_lift in H. destruct (m _) as [r []]; simplify_eq/=.
Qed.
Lemma blameless_audit_record x action target old new : blameless (audit_record x action target old new).
Proof. unfold audit_record. repeat (apply blameless_bind; [apply blameless_model|intros ?]). apply blameless_ret. Qed.
Lemma blameless_audit x action target old new : blameless (audit x action target old new).
Proof. unfold audit. apply blameless_bind; [apply blameless_audit_record|]. intros a. apply blameless_on_repository. Qed.
Lemma blameless_conflict id l : blameless (authorization_conflict id l).
Proof.
  induction l as [|a l IH]; simpl; [apply blameless_ret|]. apply blameless_bind; [apply blameless_on_repository|].
  intros found. destruct (_ && _); [apply blameless_ret|done].
Qed.
Lemma blameless_revoke_one x c a : blameless (revoke_one x c a).
Proof.
  unfold revoke_one. apply blameless_bind; [apply blameless_on_repository|]. intros [previous|]; [|apply blameless_ret].
  destruct (_ || _); [apply blameless_ret|]. repeat first
    [ apply blameless_on_repository | apply blameless_audit_record | by apply blameless_option
    | apply blameless_bind; [|intros ?] ].
Qed.
Lemma blameless_revoke x c l : blameless (revoke_invalid_authorizations x c l).
Proof.
  unfold revoke_invalid_authorizations. induction l as [|a l IH]; simpl; [apply blameless_ret|].
  apply blameless_bind; [apply blameless_revoke_one|done].
Qed.
Lemma blameless_facts seen l err : check_facts seen l = Err err → ∀ e, err ≠ Svc.Provider e.
Proof.
  revert seen. induction l as [|a l IH]; simpl; intros seen H e ->; [done|].
  destruct (safe_text _ _ _); simpl in H; [|done]. destruct (bool_decide _); [done|].
  destruct (fa_display_name a) as [n|]; simpl in H; [destruct (safe_text n _ _); simpl in H; [|done]|]; by eapply IH.
Qed.
Lemma blameless_discovery d : blameless (st_lift (validate_discovery d)).
Proof. intros s s' e H. unfold st_lift in H. simplify_eq. by eapply blameless_facts. Qed.

(** The provider refused: its answer to the stored credential is what is stored. *)
Lemma refused_recovers x c e (s s' : Svc) m :
  bc_credential_status c = Cred.Valid → holds (sv_secrets s) m → find_connection (bc_id c) (tables s) = Some c →
  revalidate x (bc_id c) s = (s', Err (Svc.Provider e)) → recovers c c s s' m.
Proof.
  intros Hst Hm Hc H. unfold revalidate in H; simpl in H.
  apply st_bind_cases in H as [(err & H & [= <-])|(s1 & [] & [-> _]%require_Ok & H)].
  { rewrite require_eq in H. by case_bool_decide. }
  unfold st_bind at 1 in H. rewrite connection_eq, Hc in H. simpl in H. destruct (bc_enabled c); [|done]. simpl in H.
  rewrite (on_secret_get _ _ _ _ _ Hm) in H. destruct (vault_get m _ _) as [credential|] eqn:Hget; [|done].
  unfold st_bind at 1, try_provider in H. destruct (bp_validate_and_discover _ _ _ _) as [p y]. destruct y as [discovery|err].
  { exfalso. revert H. match goal with |- ?m ?s = _ → _ => enough (blameless m) as Hb by (intros H; by eapply Hb) end.
    repeat first [ apply blameless_on_repository | apply blameless_revoke | apply blameless_audit | apply blameless_ret
      | apply blameless_discovery | apply blameless_conflict | apply blameless_bind; [|intros ?] | case_match ]. }
  apply st_bind_cases in H as [(err' & H & [= <-])|(s1 & [] & H1 & H)]; [by apply blameless_on_repository in H|].
  apply st_bind_cases in H as [(err' & H & [= <-])|(s2 & [] & H2 & H)]; [by apply blameless_audit in H|].
  unfold st_fail in H. simplify_eq. destruct (update_Ok _ _ _ c H1 Hc) as [T1 F1].
  exists m. rewrite (hands_audit _ _ _ _ _ _ _ _ H2), (hands_on_repository _ _ _ _ H1). apply audit_rows in H2.
  split_and!; try done; [etrans; [exact T1|by apply same_connections_touches]|].
  eapply settled_overwrite; [by rewrite (find_same _ _ _ H2)| | |by eauto]; cbn; rewrite Hst; by destruct (pe_kind e).
Qed.

Lemma rotation_recovers x metadata report report' c c' (s s' : Svc) m :
  bc_credential_status c = Cred.Valid → holds (sv_secrets s) m → find_connection (bc_id c) (tables s) = Some c →
  recover_rotation x metadata report c s = (s', Ok (c', report')) → recovers c c' s s' m.
Proof.
  intros Hst Hm Hc H. unfold recover_rotation in H; simpl in H. apply st_bind_Ok in H as (s1 & outcome & Ho & H).
  unfold attempt in Ho. destruct (revalidate _ _ _) as [s1' o] eqn:Hr. injection Ho as -> ->.
  destruct outcome as [c1|err]; cycle 1.
  { destruct err; try done. unfold st_ret in H. simplify_eq. by eapply refused_recovers. }
  destruct (revalidate_recovers _ _ _ _ _ _ Hm Hc Hr) as (Hm1 & T1 & (c2 & F2 & K2) & K1 & Hst1 & Hsecret).
  apply st_bind_Ok in H as (s2 & fingerprint & Hf & H). injection Hf as <- _.
  apply st_bind_Ok in H as (s2 & record & ->%audit_record_same & H). apply st_bind_Ok in H as (s2 & [] & H1 & Hret).
  unfold st_ret in Hret. simplify_eq. destruct K1 as (Hid & Href & _).
  assert (find_connection (bc_id (set_fingerprint fingerprint c1)) (tables s1) = Some c2) as F by (cbn; by rewrite Hid).
  destruct (update_audits_Ok _ _ _ _ _ H1 F) as [T2 F3]. cbn in T2, F3. rewrite Hid in T2, F3.
  exists m. rewrite (hands_on_repository _ _ _ _ H1). split_and!; try done; [by etrans|].
  unfold settled. rewrite F3. destruct K2 as (? & Hr2 & Hc2). split; [done|]. unfold at_rest; cbn. rewrite Hst1.
  split_and!; try done. intros _ _. rewrite Hr2. unfold credential_context in *; cbn in *. by rewrite Hc2.
Qed.

Lemma recover_one_Ok x metadata report report' c c' (s s' : Svc) m :
  holds (sv_secrets s) m → find_connection (bc_id c) (tables s) = Some c →
  recover_one x metadata report c s = (s', Ok (c', report')) → recovers c c' s s' m.
Proof.
  intros Hm Hc H. unfold recover_one in H.
  assert (bc_credential_status c ≠ Cred.PendingDelete → bc_credential_status c ≠ Cred.PendingDisable →
    (bc_credential_status c = Cred.Valid → bc_enabled c = false) →
    (st_ret (c, report) : sv _) s = (s', Ok (c', report')) → recovers c c' s s' m) as Hkeep.
  { intros H1 H2 H3 Hret. unfold st_ret in Hret. simplify_eq. exists m. split_and!; try done.
    unfold settled. rewrite Hc. split; [done|]. split_and!; try done. intros Hv He. by rewrite H3 in He. }
  destruct (bc_credential_status c) eqn:Hst; try by apply Hkeep.
  - by eapply onboarding_recovers.
  - destruct (bc_enabled c) eqn:Hen; [|by apply Hkeep].
    destruct (bool_decide _); [by eapply rotation_recovers|by eapply verify_recovers].
  - by eapply disable_recovers.
  - by eapply delete_recovers.
Qed.

(** ** All of them *)

(** Rows outside [l] are as they were, and so are credentials. *)
Definition only (l : list BrokerConnection) (s s' : Svc) (m m' : vault) : Prop :=
  (∀ id, id ∉ bc_id <$> l → find_connection id (tables s') = find_connection id (tables s)) ∧
  (∀ id c', find_connection id (tables s') = Some c' → is_Some (find_connection id (tables s))) ∧
  (∀ ref, ref ∉ bc_credential_ref <$> l → m' !! ref = m !! ref).

Lemma settled_kept c t t' m m' :
  find_connection (bc_id c) t' = find_connection (bc_id c) t → m' !! bc_credential_ref c = m !! bc_credential_ref c →
  settled c t m → settled c t' m'.
Proof.
  intros Hf Hm. unfold settled. rewrite Hf. destruct (find_connection _ t) as [c'|]; [|by rewrite Hm].
  intros [Hk (H1 & H2 & H3)]. split; [done|]. split_and!; try done. intros Hv He. destruct (H3 Hv He) as [secret Hs].
  exists secret. destruct Hk as (_ & Hr & _). unfold vault_get in *. rewrite Hr in *. by rewrite Hm.
Qed.

Lemma recover_all_Ok x metadata l report l' report' (s s' : Svc) m :
  keyed bc_id l → keyed bc_credential_ref l → holds (sv_secrets s) m →
  (∀ c, c ∈ l → find_connection (bc_id c) (tables s) = Some c) →
  recover_all x metadata report l s = (s', Ok (l', report')) →
  ∃ m', holds (sv_secrets s') m' ∧ only l s s' m m' ∧ bc_credential_ref <$> l' = bc_credential_ref <$> l ∧
    ∀ c, c ∈ l → settled c (tables s') m'.
Proof.
  revert report l' s m. induction l as [|c l IH]; simpl; intros report l' s m Hk Hr Hm Hall H.
  { unfold st_ret in H. simplify_eq. exists m. split; [done|]. split; [|split; [done|by intros c Hc%elem_of_nil]].
    split; [done|]. split; [|done]. by intros id c' ->. }
  apply NoDup_cons in Hk as [Hid Hk]. apply NoDup_cons in Hr as [Href Hr].
  apply st_bind_Ok in H as (s1 & [c1 report1] & H1 & H). apply st_bind_Ok in H as (s2 & [l2 report2] & H2 & Hret).
  unfold st_ret in Hret. simplify_eq/=.
  apply (recover_one_Ok _ _ _ _ _ _ _ _ m) in H1 as (m1 & Hm1 & [Hothers Hown] & Hkept & Hr1 & Hs); [|done|apply Hall; set_solver].
  assert (∀ d, d ∈ l → bc_id d ≠ bc_id c) as Hne.
  { intros d Hd Heq. apply Hid. rewrite <- Heq. by apply list_elem_of_fmap_2. }
  edestruct IH as (m2 & Hm2 & (O1 & O2 & O3) & Hl2 & Hall2); [exact Hk|exact Hr|exact Hm1| |exact H2|].
  { intros d Hd. rewrite Hothers by by apply Hne. apply Hall. set_solver. }
  exists m2. split; [done|]. split; [|split; [cbn in *; congruence|]].
  - split_and!.
    + intros id Hni. apply not_elem_of_cons in Hni as [? ?]. by rewrite O1, Hothers.
    + intros id c' Hc'. destruct (O2 _ _ Hc') as [c2 Hc2]. destruct (decide (id = bc_id c)) as [->|Hne'].
      * destruct (Hown _ Hc2) as (c0 & ? & _). by eauto.
      * rewrite Hothers in Hc2 by done. by eauto.
    + intros ref Hni. apply not_elem_of_cons in Hni as [? ?]. by rewrite O3, Hkept.
  - intros d [->|Hd]%elem_of_cons; [|by apply Hall2]. by eapply settled_kept; [apply O1|apply O3|].
Qed.

(** *** Orphans *)

(** No usable credential is stored under [ref]. *)
Definition unusable (ref : string) (m : vault) : Prop := ∀ c secret b, m !! ref = Some (c, secret, b) → b = true.

Lemma quarantine_Ok x owners report l report' (s s' : Svc) m :
  holds (sv_secrets s) m → quarantine x owners report l s = (s', Ok report') →
  ∃ m', holds (sv_secrets s') m' ∧ same_connections (tables s) (tables s') ∧
    (∀ ref, ref ∈ bc_credential_ref <$> owners → m' !! ref = m !! ref) ∧
    (∀ ref, m !! ref = None → m' !! ref = None) ∧ (∀ ref, unusable ref m → unusable ref m') ∧
    ∀ md, md ∈ l → sm_credential_ref md ∉ bc_credential_ref <$> owners →
      (sm_disabled md = true → unusable (sm_credential_ref md) m) → unusable (sm_credential_ref md) m'.
Proof.
  revert report s m. induction l as [|md l IH]; simpl; intros report s m Hm H.
  { unfold st_ret in H. simplify_eq. exists m. split_and!; try done. by intros md Hmd%elem_of_nil. }
  destruct (existsb _ owners) eqn:Hown.
  { apply existsb_key in Hown. destruct (IH _ _ _ Hm H) as (m' & Hm' & H1 & H2 & H3 & H4 & H5).
    exists m'. split_and!; try done. intros md' [->|Hmd]%elem_of_cons Hno; [done|by apply H5]. }
  apply existsb_key_not in Hown. apply st_bind_Ok in H as (s1 & [] & H1 & H).
  apply st_bind_Ok in H as (s2 & record & ->%audit_record_same & H). apply st_bind_Ok in H as (s2 & [] & H2 & H).
  pose proof (hands_on_repository _ _ _ _ H2) as Hs2. apply on_repository_Ok in H2 as (r & H2%commit_Ok%rows_audit & ->).
  assert (tables s1 = tables s ∧ ∃ m1, holds (sv_secrets s1) m1 ∧ others_kept (sm_credential_ref md) m m1 ∧
    (∀ ref, m !! ref = None → m1 !! ref = None) ∧ (∀ ref, unusable ref m → unusable ref m1) ∧
    ((sm_disabled md = true → unusable (sm_credential_ref md) m) → unusable (sm_credential_ref md) m1))
    as (Ht1 & m1 & Hm1 & K1 & K2 & K3 & K4).
  { destruct (sm_disabled md); simpl in H1; [unfold st_ret in H1; simplify_eq; split; [done|]; exists m; split_and!; by auto|].
    apply st_bind_Ok in H1 as (s3 & y & Hd & Hy). unfold st_lift in Hy. simplify_eq.
    unfold try_secrets in Hd. destruct (se_disable _ _) as [z w] eqn:Hdis. simplify_eq. split; [done|].
    destruct (holds_disable _ _ _ _ _ Hm Hdis) as (m1 & Hm1 & [[[e ->] _]|(c & secret & b & Hl & ->)]); [done|].
    eexists. split; [exact Hm1|]. split_and!.
    - intros ref Hne. by rewrite lookup_insert_ne.
    - intros ref Hn. rewrite lookup_insert. case_decide; [congruence|done].
    - intros ref Hu c' s'' b'. rewrite lookup_insert. case_decide; [naive_solver|apply Hu].
    - intros _ c' s'' b'. rewrite lookup_insert_eq. naive_solver. }
  rewrite <- Hs2 in Hm1. destruct (IH _ _ _ Hm1 H) as (m' & Hm' & Q1 & Q2 & Q3 & Q4 & Q5).
  exists m'. split_and!; [done|rewrite <- Ht1; by etrans| |by auto|by auto|].
  - intros ref Hin. rewrite Q2 by done. apply K1. intros ->. done.
  - intros md' [->|Hmd]%elem_of_cons Hno Hdis; [by apply Q4, K4|]. apply Q5; [done..|]. auto.
Qed.

(** C18. Recovery leaves nothing half-done.  When it returns, whatever state the previous
    run was stopped in: no connection is still being deleted or disabled; every enabled
    connection with a valid credential has one that can be read under its own broker
    and environment; and every credential that can still be used belongs to a
    connection, so that an orphan is out of use. *)
Theorem recovery_leaves_nothing_half_done x report (s s' : Svc) m :
  consistent (tables s) → holds (sv_secrets s) m → recover_connection_lifecycle x s = (s', Ok report) →
  ∃ m', holds (sv_secrets s') m' ∧
    (∀ c, c ∈ tb_connections (tables s') → at_rest m' c) ∧
    (∀ ref ctx secret, m' !! ref = Some (ctx, secret, false) →
       ref ∈ bc_credential_ref <$> tb_connections (tables s')).
Proof.
  intros Ht Hm H. assert (run_service x RecoverLifecycle s = (s', Ok tt)) as Hrun.
  { simpl. unfold st_bind. by rewrite H. }
  assert (consistent (tables s')) as Ht'.
  { apply path_run in Hrun. by destruct (evolves_shrinking _ _ _ (λ H, H) Hrun Ht). }
  unfold recover_connection_lifecycle in H; simpl in H. apply st_bind_Ok in H as (s1 & l & [-> ->]%read_Ok & H).
  set (l := order_by _ _) in H. assert (l ≡ₚ tb_connections (tables s)) as Hl by apply order_by_perm.
  apply st_bind_Ok in H as (s1 & metadata & H1 & H). apply st_bind_Ok in H as (s2 & [l' report2] & H2 & H3).
  unfold on_secrets, try_secrets, st_bind, st_lift in H1. destruct (se_metadata _) as [z w] eqn:Hmd.
  destruct w as [w|]; simplify_eq/=. destruct (holds_metadata _ _ _ _ Hm Hmd) as [Hz Hlisted].
  edestruct (recover_all_Ok x metadata l empty_report l' report2 (put_secrets z s) s2 m)
    as (m2 & Hm2 & (O1 & O2 & O3) & Hrefs & Hsettled); [| |exact Hz| |exact H2|].
  { unfold keyed. rewrite Hl. apply Ht. }
  { unfold keyed. rewrite Hl. apply Ht. }
  { intros c Hc. rewrite Hl in Hc. apply keyed_find; [apply Ht|done|done]. }
  destruct (quarantine_Ok _ _ _ _ _ _ _ _ Hm2 H3) as (m' & Hm' & Q1 & Q2 & Q3 & Q4 & Q5).
  rewrite Hrefs in Q2, Q5. exists m'. split; [done|].
  assert (∀ c, c ∈ l → settled c (tables s') m') as Hend.
  { intros c Hc. eapply settled_kept; [by apply find_same| |by apply Hsettled]. apply Q2. by apply list_elem_of_fmap_2. }
  split.
  - intros c Hc. assert (find_connection (bc_id c) (tables s') = Some c) as Hf by (apply keyed_find; [apply Ht'|done..]).
    rewrite (find_same _ _ _ Q1) in Hf. destruct (O2 _ _ Hf) as [c0 [H0 Hid]%find_by_key].
    assert (settled c0 (tables s') m') as Hs by (apply Hend; by rewrite Hl).
    unfold settled in Hs. rewrite Hid, (find_same _ _ _ Q1), Hf in Hs. by destruct Hs.
  - intros ref ctx secret Href. destruct (decide (ref ∈ bc_credential_ref <$> l)) as [Hin|Hout].
    + apply list_elem_of_fmap in Hin as (c & -> & Hc). specialize (Hend c Hc). unfold settled in Hend.
      destruct (find_connection _ _) as [c'|] eqn:Hf; [|congruence]. destruct Hend as [(_ & <- & _) _].
      apply find_by_key in Hf as [? _]. by apply list_elem_of_fmap_2.
    + exfalso. destruct (m !! ref) as [[[c0 s0] b0]|] eqn:Hm0.
      * destruct (Hlisted _ _ _ _ _ eq_refl Hm0) as (md & Hin & <- & Hb).
        enough (unusable (sm_credential_ref md) m') as Hu by (by specialize (Hu _ _ _ Href)).
        apply Q5; [done..|]. intros Hd c1 s1 b1. rewrite O3, Hm0 by done. naive_solver.
      * rewrite (Q3 ref) in Href; [done|]. by rewrite O3.
Qed.
End one.

(** ** A deletion that was interrupted *)

Module RecoverySample.
Import SecretSample ConnectionSample.
Definition tombstone : BrokerConnection → BrokerConnection :=
  λ c, set_state Cred.PendingDelete false (bc_health c) 7 c.
Definition crashed : Service Repository (SecretDb Z) (list ProviderAccountFact) Z := Eval vm_compute in
  match find_connection "connection:1" (tables trading) with
  | Some c => fst (on_repository (update_connection (tombstone c)) trading)
  | None => trading
  end.
Definition recovered : Service Repository (SecretDb Z) (list ProviderAccountFact) Z * result ServiceError LifecycleRecoveryReport :=
  Eval vm_compute in recover_connection_lifecycle operator crashed.

Lemma crashed_consistent : consistent (tables crashed).
Proof.
  destruct (find_connection "connection:1" (tables trading)) as [c|] eqn:Hc; [|vm_compute in Hc; discriminate].
  refine (evolves_consistent (λ k, k = Edits) (tables trading) _ _ trading_consistent).
  refine (path_on_repository _ (update_connection (tombstone c)) (op_update _ eq_refl _) trading crashed (Ok tt) _).
  vm_compute in Hc. injection Hc as <-. vm_compute. reflexivity.
Qed.
End RecoverySample.
Import SecretSample ConnectionSample RecoverySample.

Lemma recovery_leaves_nothing_half_done_witness :
  ∃ m', holds (sv_secrets (fst recovered)) m' ∧ tb_connections (tables (fst recovered)) = [] ∧
    ∀ ref ctx secret, m' !! ref = Some (ctx, secret, false) → ref ∈ (@nil string).
Proof.
  destruct (snd recovered) as [report|e] eqn:Hr; [|vm_compute in Hr; discriminate Hr].
  destruct (recovery_leaves_nothing_half_done operator report crashed (fst recovered) stored crashed_consistent trading_holds
    ltac:(rewrite <- Hr; vm_compute; reflexivity)) as (m' & Hm & _ & Ho).
  exists m'. split; [exact Hm|]. split; [reflexivity|exact Ho].
Defined.

(** ** Where recovery gives up

    A connection left Valid, enabled and VALIDATING by a rotation whose compensation
    failed has had its credential disabled.  Recovery revalidates it, the credential
    cannot be read, and the whole recovery fails, today and at the next start: the arm
    for other enabled connections switches them off instead. *)
Definition half_rotated : Service Repository (SecretDb Z) (list ProviderAccountFact) Z := Eval vm_compute in
  match find_connection "connection:1" (tables trading) with
  | Some c =>
      let gate := set_state Cred.Valid true (health_of T_INVEST Env.Sandbox HealthSt.Validating 7 HealthWhy.NoReason None) 7 c in
      fst ((on_repository (update_connection gate) ;;; on_secrets (se_disable (bc_credential_ref c))) trading)
  | None => trading
  end.
Example disabled_credential_stops_recovery :
  recover_connection_lifecycle operator half_rotated = (half_rotated, Err (Svc.SecretStore Sec.Disabled)).
Proof. vm_compute. reflexivity. Qed.

(** A connection whose onboarding failed has no credential.  Asking to disable it leaves
    it PENDING_DISABLE, because there is nothing to disable, and from then on every
    recovery fails with the same error. *)
Definition never_onboarded : Service Repository (SecretDb Z) (list ProviderAccountFact) Z := Eval vm_compute in
  match find_connection "connection:1" (tables trading) with
  | Some c =>
      let failed := set_state Cred.Invalid false (bc_health c) 7 c in
      fst ((on_repository (update_connection failed) ;;; on_secrets (se_delete (bc_credential_ref c))) trading)
  | None => trading
  end.
Example missing_credential_stops_recovery :
  let stuck := fst (disable_connection operator "connection:1" never_onboarded) in
  snd (disable_connection operator "connection:1" never_onboarded) = Err (Svc.SecretStore Sec.NotFound) ∧
  bc_credential_status <$> find_connection "connection:1" (tables stuck) = Some Cred.PendingDisable ∧
  snd (recover_connection_lifecycle operator stuck) = Err (Svc.SecretStore Sec.NotFound) ∧
  tables (fst (recover_connection_lifecycle operator stuck)) = tables stuck.
Proof. vm_compute. split_and!; reflexivity. Qed.
