(* ===== verification/OperatorAuth.v ===== *)
(** * Operator authentication: [crates/vox-core/src/auth.rs]

    Sessions are rows of the platform database, keyed by the digest of their token.  The
    model has the provisioning of the bootstrap operator, the exchange of the bootstrap
    credential for a session, and the middleware every request passes.

    The clock, the database and the users can answer differently at every call, or fail:
    a [Moment] is what they do during one request.  Random bytes are an argument; the
    digest is [sha256].  A request is what the middleware reads of it: its method, its
    path, the cookie headers that are text and the value of the CSRF header. *)
From Stdlib Require Import Ascii.
From stdpp Require Import strings.
From S2P Require Import Prelude ConnectionModel RiskStore SecretStore ConnectionRepository ApiMoney ApiContract.

Definition SESSION_COOKIE : string := "vox_session".
Definition CSRF_HEADER : string := "x-vox-csrf".

(** ** Requests *)

Module Http.
Inductive Method := GET | HEAD | OPTIONS | POST | PUT | DELETE | PATCH | CONNECT | TRACE | Extension (name : string).
#[global] Instance Method_eq_dec : EqDecision Method.
Proof. solve_decision. Defined.
End Http.
Notation Method := Http.Method.

Record Request := {
  hr_method : Method;
  hr_path : string;
  hr_cookies : list (option string);
  hr_csrf : option string;
}.

(** [value.split(c)]. *)
Fixpoint split_on (c : Ascii.ascii) (s : string) : list string :=
  match s with
  | EmptyString => [""%string]
  | String a s1 =>
      if bool_decide (a = c) then ""%string :: split_on c s1
      else match split_on c s1 with
           | part :: parts => String a part :: parts
           | [] => [String a ""]
           end
  end.

(** [value.split_once('=')]. *)
Fixpoint split_equals (s : string) : option (string * string) :=
  match s with
  | EmptyString => None
  | String a s1 =>
      if bool_decide (a = "="%char) then Some (""%string, s1)
      else match split_equals s1 with Some (name, value) => Some (String a name, value) | None => None end
  end.

Definition cookie_value (request : Request) (name : string) : option string :=
  let pairs := omap split_equals (trim <$> flat_map (split_on ";"%char) (omap id (hr_cookies request))) in
  snd <$> List.find (λ pair, bool_decide (pair.1 = name)) pairs.

Definition requires_csrf (method : Method) : bool :=
  match method with Http.GET | Http.HEAD | Http.OPTIONS => false | _ => true end.

Definition portfolio_paths : list string :=
  ["/api/v1/runtime"; "/api/v1/runtime/scoped"; "/api/v1/runtime/scopes"; "/api/v1/reconciliation";
   "/api/v1/accounts"; "/api/v1/portfolio"; "/api/v1/positions"; "/api/v1/orders"; "/api/v1/stop-orders";
   "/api/v1/operations"; "/api/v1/mutations"; "/api/v1/risk/status"; "/api/v1/risk/reservations";
   "/api/v1/stream"]%string.

Definition required_permission (method : Method) (path : string) (manual_execution_permission : Permission)
  : option Permission :=
  if bool_decide (method = Http.POST) && String.prefix "/api/v1/commands/" path
  then Some manual_execution_permission
  else if bool_decide (method = Http.POST) && bool_decide (path = "/api/v1/risk/state"%string)
  then Some Perm.ChangeRiskPolicy
  else if bool_decide (path ∈ portfolio_paths) then Some Perm.ViewPortfolio
  else None.

Definition permission_dto (permission : Permission) : PermissionDto :=
  match permission with
  | Perm.ViewConnectionMetadata => PermDto.ViewConnectionMetadata
  | Perm.ManageCredentials => PermDto.ManageCredentials
  | Perm.DisableDeleteConnection => PermDto.DisableDeleteConnection
  | Perm.DiscoverAccounts => PermDto.DiscoverAccounts
  | Perm.BindAccounts => PermDto.BindAccounts
  | Perm.ViewPortfolio => PermDto.ViewPortfolio
  | Perm.SubmitSandboxOrders => PermDto.SubmitSandboxOrders
  | Perm.SubmitProductionManualOrders => PermDto.SubmitProductionManualOrders
  | Perm.EnableAutomatedProductionExecution => PermDto.EnableAutomatedProductionExecution
  | Perm.ChangeRiskPolicy => PermDto.ChangeRiskPolicy
  | Perm.EmergencyHalt => PermDto.EmergencyHalt
  | Perm.SecurityAdmin => PermDto.SecurityAdmin
  end.

(** In the order of the set. *)
Definition bootstrap_permissions : list Permission :=
  [Perm.ViewConnectionMetadata; Perm.ManageCredentials; Perm.DisableDeleteConnection;
   Perm.DiscoverAccounts; Perm.BindAccounts; Perm.ViewPortfolio; Perm.SubmitSandboxOrders;
   Perm.SubmitProductionManualOrders; Perm.EnableAutomatedProductionExecution;
   Perm.ChangeRiskPolicy; Perm.EmergencyHalt; Perm.SecurityAdmin].

(** The elements of a [BTreeSet<Permission>] in its order, the one of the declaration. *)
Definition permission_set (l : list Permission) : list Permission :=
  List.filter (λ p, bool_decide (p ∈ l)) bootstrap_permissions.

(** ** Errors *)

Module Fail.
Inductive AuthFailure := MissingSession | InvalidSession | RevokedUser | MissingCsrf | InvalidCsrf | Unavailable.
#[global] Instance AuthFailure_eq_dec : EqDecision AuthFailure.
Proof. solve_decision. Defined.
End Fail.
Notation AuthFailure := Fail.AuthFailure.

Module AuthErr.
Inductive AuthError :=
| InvalidTokenLength
| ExpiredBootstrapSession
| Clock
| StaticIdentity
| Persistence (e : SqliteError)
| Repository (e : RepositoryError).
End AuthErr.
Notation AuthError := AuthErr.AuthError.

(** ** Sessions *)

Record SessionRow := {
  se_session_hash : string;
  se_user_id : string;
  se_csrf_hash : string;
  se_created_at_unix_ms : Z;
  se_expires_at_unix_ms : Z;
  se_revoked_at_unix_ms : option Z;
}.

Record SessionRecord := { sr_user_id : string; sr_csrf_hash : string }.

(** The platform database: the tables of the connection repository and the sessions. *)
Record Platform := { pl_repository : Repository; pl_sessions : list SessionRow }.

(** What the clock and the databases do during one request: the milliseconds since the
    epoch, and where the sessions, the user and its permissions are read from. *)
Record Moment := {
  mt_clock : option Z;
  mt_sessions : result AuthError (list SessionRow);
  mt_user_read : result RepositoryError Repository;
  mt_permission_read : result RepositoryError Repository;
}.

Definition now_unix_ms (clock : option Z) : result AuthError Z :=
  match clock with
  | None => Err AuthErr.Clock
  | Some millis => ok_or (checked I64 millis) AuthErr.Clock
  end.

Record SessionBootstrap := {
  sb_user_id : string;
  sb_display_name : string;
  sb_permissions : list Permission;
  sb_bootstrap_credential : string;
  sb_expires_at_unix_ms : Z;
  sb_cookie_secure : bool;
}.

(** The stores it shares with the rest of the process are the [Platform]. *)
Record AuthState := {
  au_manual_execution_permission : Permission;
  au_bootstrap_hash : string;
  au_bootstrap_user_id : string;
  au_bootstrap_expires_at_unix_ms : Z;
  au_cookie_secure : bool;
}.

Record VerifiedSession := { vs_actor : string; vs_permissions : list Permission }.

Record EstablishedSession := {
  es_user_id : string;
  es_effective_permissions : list PermissionDto;
  es_session_token : string;
  es_csrf_token : string;
  es_expires_at_unix_ms : Z;
  es_cookie_secure : bool;
}.

(** What becomes of a request: the handlers run, with the actor when there is one, or an
    error is answered. *)
Inductive Passage := Forwarded (actor : option string) | Answered (e : ApiError).

Definition public_request (request : Request) : bool :=
  bool_decide (hr_path request = "/api/v1/system/health"%string)
  || bool_decide (hr_method request = Http.POST) && bool_decide (hr_path request = "/api/v1/auth/session"%string).

Definition validate_token (token : string) : result AuthError () :=
  if negb ((32 <=? len token) && (len token <=? 4096)) then Err AuthErr.InvalidTokenLength else Ok tt.

Definition bootstrap_provisioning_audits (user : User) (role : Role) (correlation_id : string)
    (occurred_at_unix_ms : Z) : list AuditRecord * AuditRecord :=
  let record action target previous new := {|
    aud_actor := us_id user; aud_action := action; aud_target_ref := target; aud_previous_state := previous;
    aud_new_state := Some new; aud_correlation_id := correlation_id;
    aud_occurred_at_unix_ms := occurred_at_unix_ms |} in
  ([record "BOOTSTRAP_USER_PROVISIONED" (us_id user) None "ENABLED";
    record "BOOTSTRAP_ROLE_PROVISIONED" (rl_id role) None "SERVER_BOOTSTRAP";
    record "BOOTSTRAP_ROLE_ASSIGNED" (us_id user) None (rl_id role)],
   record "BOOTSTRAP_SECURITY_STATE_ADOPTED" (us_id user) (Some "PERSISTED") "AUTHORITATIVE")%string.

Section auth.
Context `{!UuidFormat, !Cipher, !Correlation}.

Definition UserId_parse : string → result Meta.ModelError string := parse_id "UserId" "user".

(** The 32 random bytes of a token. *)
Definition random_token (bytes : option string) : option string := to_hex <$> bytes.

Definition digest_hex (value : string) : string := to_hex (sha256 value).

Definition deterministic_bootstrap_role_id : result AuthError string :=
  map_err (λ _, AuthErr.StaticIdentity)
    (parse_id "RoleId" "role" "role:00000000-0000-4000-8000-000000000017").

(** [SessionStore::resolve]: the live row of the digest of the token. *)
Definition live_session (token : string) (now_unix_ms : Z) (row : SessionRow) : bool :=
  bool_decide (se_session_hash row = digest_hex token)
  && negb (bool_decide (is_Some (se_revoked_at_unix_ms row)))
  && (now_unix_ms <? se_expires_at_unix_ms row).

Definition resolve_session (connection : result AuthError (list SessionRow)) (token : string) (now_unix_ms : Z)
  : result AuthFailure (option SessionRecord) :=
  let? rows := map_err (λ _, Fail.Unavailable) connection in
  match List.find (live_session token now_unix_ms) rows with
  | None => Ok None
  | Some row =>
      let? user_id := map_err (λ _, Fail.Unavailable) (UserId_parse (se_user_id row)) in
      Ok (Some {| sr_user_id := user_id; sr_csrf_hash := se_csrf_hash row |})
  end.

(** [SessionStore::upsert]: one row per digest, whose creation time stays. *)
Definition upsert_session (user_id token csrf : string) (expires_at_unix_ms now_unix_ms : Z)
  : st Platform AuthError () := λ s,
  if user_exists user_id (re_tables (pl_repository s))
  then ({| pl_repository := pl_repository s;
           pl_sessions :=
             upsert se_session_hash
               (λ old new, {| se_session_hash := se_session_hash new; se_user_id := se_user_id new;
                              se_csrf_hash := se_csrf_hash new;
                              se_created_at_unix_ms := se_created_at_unix_ms old;
                              se_expires_at_unix_ms := se_expires_at_unix_ms new;
                              se_revoked_at_unix_ms := None |})
               {| se_session_hash := digest_hex token; se_user_id := user_id;
                  se_csrf_hash := digest_hex csrf; se_created_at_unix_ms := now_unix_ms;
                  se_expires_at_unix_ms := expires_at_unix_ms; se_revoked_at_unix_ms := None |}
               (pl_sessions s) |}, Ok tt)
  else (s, Err (AuthErr.Persistence ConstraintViolation)).

(** The enabled user of a read. *)
Definition enabled_user (repository : Repository) (user_id : string) : option User :=
  match snd (find_user user_id repository) with
  | Ok (Some user) => if us_enabled user then Some user else None
  | _ => None
  end.

Definition authenticate (moment : Moment) (request : Request) : result AuthFailure VerifiedSession :=
  let? token := ok_or (cookie_value request SESSION_COOKIE) Fail.MissingSession in
  let? now := map_err (λ _, Fail.Unavailable) (now_unix_ms (mt_clock moment)) in
  let? found := resolve_session (mt_sessions moment) token now in
  let? session := ok_or found Fail.InvalidSession in
  let? users := map_err (λ _, Fail.Unavailable) (mt_user_read moment) in
  let? user := ok_or (enabled_user users (sr_user_id session)) Fail.RevokedUser in
  let? _ := if requires_csrf (hr_method request) then
              let? supplied := ok_or (hr_csrf request) Fail.MissingCsrf in
              if bool_decide (digest_hex supplied = sr_csrf_hash session) then Ok tt else Err Fail.InvalidCsrf
            else Ok tt in
  let? grants := map_err (λ _, Fail.Unavailable) (mt_permission_read moment) in
  Ok {| vs_actor := us_id user; vs_permissions := permissions_of (us_id user) (re_tables grants) |}.

Definition auth_error (category : ErrorCategory) (code message : string) : Passage :=
  Answered (ApiError_new category code message).

Definition authenticated_actor_middleware (auth : AuthState) (moment : Moment) (request : Request) : Passage :=
  if public_request request then Forwarded None
  else match authenticate moment request with
       | Ok session =>
           match required_permission (hr_method request) (hr_path request) (au_manual_execution_permission auth) with
           | Some required =>
               if negb (bool_decide (required ∈ vs_permissions session))
               then auth_error Cat.Permission "RBAC_PERMISSION_DENIED"
                      "authenticated principal lacks required permission"
               else Forwarded (Some (vs_actor session))
           | None => Forwarded (Some (vs_actor session))
           end
       | Err (Fail.MissingSession | Fail.InvalidSession | Fail.RevokedUser) =>
           auth_error Cat.Authentication "AUTHENTICATION_REQUIRED" "valid server-side session required"
       | Err (Fail.MissingCsrf | Fail.InvalidCsrf) =>
           auth_error Cat.Permission "CSRF_VALIDATION_FAILED" "state-changing request requires valid CSRF token"
       | Err Fail.Unavailable =>
           auth_error Cat.Transient "AUTHENTICATION_UNAVAILABLE" "authentication subsystem unavailable"
       end.

Definition auth_unavailable : ApiError :=
  ApiError_new Cat.Transient "AUTHENTICATION_UNAVAILABLE" "authentication subsystem unavailable".

(** [session_bytes] and [csrf_bytes] are the random draws. *)
Definition establish_session (auth : AuthState) (moment : Moment) (session_bytes csrf_bytes : option string)
    (request : CreateSessionRequest) : st Platform ApiError EstablishedSession :=
  let! now := st_lift (map_err (λ _, auth_unavailable) (now_unix_ms (mt_clock moment))) in
  if (au_bootstrap_expires_at_unix_ms auth <=? now)
     || negb (bool_decide (digest_hex (csr_bootstrap_credential request) = au_bootstrap_hash auth))
  then st_fail (ApiError_new Cat.Authentication "BOOTSTRAP_CREDENTIAL_REJECTED"
                  "trusted bootstrap credential rejected")
  else
    let! users := st_lift (map_err (λ _, auth_unavailable) (mt_user_read moment)) in
    let! user := st_lift (ok_or (enabled_user users (au_bootstrap_user_id auth))
                   (ApiError_new Cat.Authentication "BOOTSTRAP_PRINCIPAL_REVOKED"
                      "bootstrap principal is disabled or revoked")) in
    let! session_token := st_lift (ok_or (random_token session_bytes) auth_unavailable) in
    let! csrf_token := st_lift (ok_or (random_token csrf_bytes) auth_unavailable) in
    let! grants := st_lift (map_err (λ _, auth_unavailable) (mt_permission_read moment)) in
    st_lift (map_err (λ _, auth_unavailable) (mt_sessions moment)) ;;;
    st_map_err (λ _, auth_unavailable)
      (upsert_session (us_id user) session_token csrf_token (au_bootstrap_expires_at_unix_ms auth) now) ;;;
    st_ret {| es_user_id := us_id user;
              es_effective_permissions := permission_dto <$> permission_set (permissions_of (us_id user) (re_tables grants));
              es_session_token := session_token; es_csrf_token := csrf_token;
              es_expires_at_unix_ms := au_bootstrap_expires_at_unix_ms auth;
              es_cookie_secure := au_cookie_secure auth |}.

(** [AuthState::open]; [uuid] is the fresh part of the correlation identity, and
    [session_table] how opening the session store ends. *)
Definition auth_open (uuid : string) (session_table : result AuthError ()) (bootstrap : SessionBootstrap)
    (now_unix_ms : Z) (manual_execution_permission : Permission) : st Platform AuthError AuthState :=
  if sb_expires_at_unix_ms bootstrap <=? now_unix_ms then st_fail AuthErr.ExpiredBootstrapSession
  else
    st_lift (validate_token (sb_bootstrap_credential bootstrap)) ;;;
    let user := {| us_id := sb_user_id bootstrap; us_display_name := sb_display_name bootstrap; us_enabled := true |} in
    let! role_id := st_lift deterministic_bootstrap_role_id in
    let role := {| rl_id := role_id; rl_name := "SERVER_BOOTSTRAP"; rl_permissions := sb_permissions bootstrap |} in
    let audits := bootstrap_provisioning_audits user role ("bootstrap-provisioning-" +:+ uuid) now_unix_ms in
    (λ s, match provision_bootstrap_identity user role audits.1 audits.2 (pl_repository s) with
          | (r, Ok _) => ({| pl_repository := r; pl_sessions := pl_sessions s |}, Ok tt)
          | (r, Err e) => ({| pl_repository := r; pl_sessions := pl_sessions s |}, Err (AuthErr.Repository e))
          end) ;;;
    st_lift session_table ;;;
    st_ret {| au_manual_execution_permission := manual_execution_permission;
              au_bootstrap_hash := digest_hex (sb_bootstrap_credential bootstrap);
              au_bootstrap_user_id := us_id user;
              au_bootstrap_expires_at_unix_ms := sb_expires_at_unix_ms bootstrap;
              au_cookie_secure := sb_cookie_secure bootstrap |}.
End auth.

(** ** Lemmas *)

Lemma enabled_user_Some r id u :
  enabled_user r id = Some u → u ∈ tb_users (re_tables r) ∧ us_id u = id ∧ us_enabled u = true.
Proof.
  unfold enabled_user. simpl. destruct (List.find _ _) as [x|] eqn:Hf; [|done].
  apply find_elem in Hf as [Hin Hk]. apply bool_decide_eq_true in Hk.
  destruct (us_enabled x) eqn:He; [|done]. by intros [= ->].
Qed.

Lemma enabled_user_keyed r u :
  keyed us_id (tb_users (re_tables r)) → u ∈ tb_users (re_tables r) → us_enabled u = true →
  enabled_user r (us_id u) = Some u.
Proof.
  intros Hk Hin He. unfold enabled_user. simpl.
  rewrite (keyed_find us_id (us_id u) _ u) by done. by rewrite He.
Qed.

Lemma required_permission_spec method path manual p :
  required_permission method path manual = Some p ↔
  (method = Http.POST ∧ String.prefix "/api/v1/commands/" path = true ∧ p = manual) ∨
  (method = Http.POST ∧ path = "/api/v1/risk/state"%string ∧ p = Perm.ChangeRiskPolicy) ∨
  (path ∈ portfolio_paths ∧ p = Perm.ViewPortfolio).
Proof.
  assert (∀ q, q ∈ portfolio_paths → String.prefix "/api/v1/commands/" q = false ∧ q ≠ "/api/v1/risk/state"%string) as Hp.
  { intros q Hq. unfold portfolio_paths in Hq. repeat (apply elem_of_cons in Hq as [->|Hq]; [done|]). by apply elem_of_nil in Hq. }
  unfold required_permission. split.
  - destruct (bool_decide (method = Http.POST) && String.prefix _ path) eqn:H1.
    { apply andb_true_iff in H1 as [H1%bool_decide_eq_true H2]. intros [= <-]. by left. }
    destruct (bool_decide (method = Http.POST) && bool_decide (path = _)) eqn:H2.
    { apply andb_true_iff in H2 as [H2%bool_decide_eq_true H3%bool_decide_eq_true]. intros [= <-]. by right; left. }
    destruct (bool_decide (path ∈ portfolio_paths)) eqn:H3; [|done]. apply bool_decide_eq_true in H3.
    intros [= <-]. by right; right.
  - intros [(-> & -> & ->)|[(-> & -> & ->)|(Hin & ->)]]; [reflexivity|reflexivity|].
    destruct (Hp path Hin) as [-> Hne]. rewrite andb_false_r, (bool_decide_eq_false_2 _ Hne), andb_false_r.
    by rewrite bool_decide_eq_true_2.
Qed.

Section spec.
Context `{UF : !UuidFormat, CI : !Cipher, CO : !Correlation}.

Lemma live_session_spec token now row :
  live_session token now row = true ↔
  se_session_hash row = digest_hex token ∧ se_revoked_at_unix_ms row = None ∧ now < se_expires_at_unix_ms row.
Proof.
  unfold live_session. rewrite !andb_true_iff, bool_decide_eq_true, negb_true_iff, bool_decide_eq_false, Z.ltb_lt.
  rewrite <- eq_None_not_Some. tauto.
Qed.

(** The operator [user] may make the request: a live session of the presented token, of an
    enabled user, with the matching CSRF token where the method changes state, and the
    permissions the route takes. *)
Definition admitted (auth : AuthState) (moment : Moment) (request : Request) (user : string) : Prop :=
  ∃ token now rows row users account grants,
    cookie_value request SESSION_COOKIE = Some token ∧ now_unix_ms (mt_clock moment) = Ok now ∧
    mt_sessions moment = Ok rows ∧ row ∈ rows ∧ se_session_hash row = digest_hex token ∧
    se_revoked_at_unix_ms row = None ∧ now < se_expires_at_unix_ms row ∧
    UserId_parse (se_user_id row) = Ok user ∧
    mt_user_read moment = Ok users ∧ account ∈ tb_users (re_tables users) ∧ us_id account = user ∧
    us_enabled account = true ∧
    (requires_csrf (hr_method request) = true →
     ∃ csrf, hr_csrf request = Some csrf ∧ digest_hex csrf = se_csrf_hash row) ∧
    mt_permission_read moment = Ok grants ∧
    (hr_method request = Http.POST → String.prefix "/api/v1/commands/" (hr_path request) = true →
     au_manual_execution_permission auth ∈ permissions_of user (re_tables grants)) ∧
    (hr_method request = Http.POST → hr_path request = "/api/v1/risk/state"%string →
     Perm.ChangeRiskPolicy ∈ permissions_of user (re_tables grants)) ∧
    (hr_path request ∈ portfolio_paths → Perm.ViewPortfolio ∈ permissions_of user (re_tables grants)).

Lemma authenticate_Ok moment request session :
  authenticate moment request = Ok session → ∃ token now rows row users account grants,
    cookie_value request SESSION_COOKIE = Some token ∧ now_unix_ms (mt_clock moment) = Ok now ∧
    mt_sessions moment = Ok rows ∧ row ∈ rows ∧ live_session token now row = true ∧
    UserId_parse (se_user_id row) = Ok (us_id account) ∧ mt_user_read moment = Ok users ∧
    account ∈ tb_users (re_tables users) ∧ us_enabled account = true ∧
    (requires_csrf (hr_method request) = true →
     ∃ csrf, hr_csrf request = Some csrf ∧ digest_hex csrf = se_csrf_hash row) ∧
    mt_permission_read moment = Ok grants ∧
    session = {| vs_actor := us_id account;
                 vs_permissions := permissions_of (us_id account) (re_tables grants) |}.
Proof.
  unfold authenticate. destruct (cookie_value _ _) as [token|] eqn:Hc; [|done]. simpl.
  destruct (now_unix_ms _) as [now|] eqn:Hn; [|done]. simpl. unfold resolve_session.
  destruct (mt_sessions moment) as [rows|] eqn:Hrows; [|done]. simpl.
  destruct (List.find _ rows) as [row|] eqn:Hf; [|done]. apply find_elem in Hf as [Hin Hlive].
  destruct (UserId_parse _) as [id|] eqn:Hid; [|done]. simpl.
  destruct (mt_user_read moment) as [users|] eqn:Hu; [|done]. simpl.
  destruct (enabled_user users id) as [account|] eqn:He; [|done]. simpl.
  apply enabled_user_Some in He as (Hacc & <- & Hen).
  intros H. assert (∃ x, (if requires_csrf (hr_method request) then
      match ok_or (hr_csrf request) Fail.MissingCsrf with
      | Ok supplied => if bool_decide (digest_hex supplied = se_csrf_hash row) then Ok tt else Err Fail.InvalidCsrf
      | Err e => Err e end else Ok tt) = (Ok x : result AuthFailure ())) as [x Hx].
  { revert H. destruct (if requires_csrf _ then _ else _) as [y|]; [by exists y|done]. }
  rewrite Hx in H. destruct (mt_permission_read moment) as [grants|] eqn:Hg; [|done]. injection H as <-.
  exists token, now, rows, row, users, account, grants. split_and!; try done.
  intros Hcs. rewrite Hcs in Hx. destruct (hr_csrf request) as [csrf|]; [|done]. simpl in Hx.
  case_bool_decide; [|done]. eauto.
Qed.

Lemma parse_id_value name prefix value v : parse_id name prefix value = Ok v → v = value.
Proof. unfold parse_id. destruct (strip_prefix _ _); [|done]. destruct (uuid_parses _); [|done]. by intros [= ->]. Qed.

(** What the middleware asks of a session it found. *)
Lemma authenticate_complete moment request token now rows row users account grants :
  (∀ x y, x ∈ rows → y ∈ rows → se_session_hash x = se_session_hash y → x = y) →
  keyed us_id (tb_users (re_tables users)) →
  cookie_value request SESSION_COOKIE = Some token → now_unix_ms (mt_clock moment) = Ok now →
  mt_sessions moment = Ok rows → row ∈ rows → live_session token now row = true →
  UserId_parse (se_user_id row) = Ok (us_id account) → mt_user_read moment = Ok users →
  account ∈ tb_users (re_tables users) → us_enabled account = true →
  (requires_csrf (hr_method request) = true →
   ∃ csrf, hr_csrf request = Some csrf ∧ digest_hex csrf = se_csrf_hash row) →
  mt_permission_read moment = Ok grants →
  authenticate moment request =
    Ok {| vs_actor := us_id account; vs_permissions := permissions_of (us_id account) (re_tables grants) |}.
Proof.
  intros Hrk Huk Hc Hn Hrows Hin Hlive Hid Hu Hacc Hen Hcsrf Hg.
  unfold authenticate. rewrite Hc, Hn, Hrows, Hu, Hg. simpl. unfold resolve_session. simpl.
  rewrite (find_unique _ rows row); [|done|done|].
  2: { intros y Hy Hly. apply live_session_spec in Hlive as (Hh & _), Hly as (Hh' & _). apply Hrk; congruence. }
  rewrite Hid. simpl. rewrite (enabled_user_keyed users account) by done. simpl.
  destruct (requires_csrf _); [|done]. destruct (Hcsrf eq_refl) as (csrf & -> & Hd). simpl.
  by rewrite bool_decide_eq_true_2.
Qed.

(** A request reaches the handlers exactly when it is public (liveness, or the exchange
    of the bootstrap credential), without an actor, or when it presents the token of a
    session that is neither expired nor revoked, of a user that is enabled, with the CSRF
    token of that session when the method can change state, and that user holds the
    permission of the route: manual execution for every command, the change of the risk
    policy, or the view of the portfolio; the handlers get that user as the actor. *)
Theorem requests_are_authenticated auth moment request actor :
  (∀ rows, mt_sessions moment = Ok rows → keyed se_session_hash rows) →
  (∀ users, mt_user_read moment = Ok users → keyed us_id (tb_users (re_tables users))) →
  authenticated_actor_middleware auth moment request = Forwarded actor ↔
  (public_request request = true ∧ actor = None) ∨
  (public_request request = false ∧ ∃ user, actor = Some user ∧ admitted auth moment request user).
Proof.
  intros Hrk Huk. unfold authenticated_actor_middleware. split.
  - destruct (public_request request); [intros [= <-]; by left|]. intros H. right. split; [done|].
    destruct (authenticate moment request) as [session|[]] eqn:Ha; try done.
    apply authenticate_Ok in Ha as (token & now & rows & row & users & account & grants & Hc & Hn & Hrows & Hin & Hl & Hid & Hu & Hacc & Hen & Hcsrf & Hg & ->).
    apply live_session_spec in Hl as (Hh & Hrev & Hexp). simpl in H.
    assert (actor = Some (us_id account) ∧ ∀ p, required_permission (hr_method request) (hr_path request)
      (au_manual_execution_permission auth) = Some p → p ∈ permissions_of (us_id account) (re_tables grants)) as [-> Hp].
    { destruct (required_permission _ _ _) as [p|]; [|by injection H as <-].
      case_bool_decide as Hm; [|done]. injection H as <-. split; [done|]. by intros q [= <-]. }
    exists (us_id account). split; [done|]. exists token, now, rows, row, users, account, grants.
    split_and!; try done; intros; apply Hp, required_permission_spec; auto.
  - intros [(-> & ->)|(-> & user & -> & H)]; [done|].
    destruct H as (token & now & rows & row & users & account & grants & Hc & Hn & Hrows & Hin & Hh & Hrev & Hexp & Hid & Hu & Hacc & <- & Hen & Hcsrf & Hg & H1 & H2 & H3).
    rewrite (authenticate_complete _ _ token now rows row users account grants); try done.
    2: { intros x y Hx Hy Hxy. apply (keyed_unique se_session_hash rows); auto. }
    2: by apply Huk.
    2: by apply live_session_spec.
    simpl. destruct (required_permission _ _ _) as [p|] eqn:Hp; [|done].
    rewrite bool_decide_eq_true_2; [done|].
    apply required_permission_spec in Hp as [(? & ? & ->)|[(? & ? & ->)|(? & ->)]]; auto.
Qed.

(** ** The life of a session *)

(** Printable bytes that do not separate cookies. *)
Definition cookie_byte (c : Ascii.ascii) : bool :=
  ((33 <=? byte_of c) && (byte_of c <=? 126))%N && negb (bool_decide (c = ";"%char)).

Lemma cookie_byte_text s :
  all_bytes cookie_byte s = true → trim_end s = s ∧ split_on ";"%char s = [s].
Proof.
  induction s as [|c s IH]; [done|]. cbn [all_bytes]. intros [Hc Hs]%andb_true_iff.
  destruct (IH Hs) as [Ht Hsp]. unfold cookie_byte in Hc.
  apply andb_true_iff in Hc as [Hb Hne%negb_true_iff%bool_decide_eq_false].
  apply andb_true_iff in Hb as [H1%N.leb_le H2%N.leb_le]. set (b := byte_of c) in *.
  assert (ws1 b = false ∧ (∀ x, ws2 b x = false) ∧ (∀ x y, ws3 b x y = false)) as (W1 & W2 & W3).
  { unfold ws1, ws2, ws3. replace (b =? 194)%N with false by (symmetry; apply N.eqb_neq; lia).
    replace (b =? 225)%N with false by (symmetry; apply N.eqb_neq; lia).
    replace (b =? 226)%N with false by (symmetry; apply N.eqb_neq; lia).
    replace (b =? 227)%N with false by (symmetry; apply N.eqb_neq; lia). split_and!; [|done|done].
    replace (b =? 32)%N with false by (symmetry; apply N.eqb_neq; lia).
    replace (b <=? 13)%N with false by (symmetry; apply N.leb_gt; lia). by rewrite andb_false_r. }
  assert (is_blank (String c s) = false) as Hblank.
  { cbn [is_blank]. fold b. rewrite W1. destruct s as [|d s]; [done|]. rewrite W2. destruct s; [done|]. by rewrite W3. }
  cbn [trim_end split_on]. rewrite Hblank, Ht, Hsp, bool_decide_eq_false_2 by done. done.
Qed.

Lemma to_hex_cookie s : all_bytes cookie_byte (to_hex s) = true.
Proof.
  induction s as [|c s IH]; [done|]. cbn [to_hex all_bytes]. rewrite IH, andb_true_r.
  destruct c as [[] [] [] [] [] [] [] []]; reflexivity.
Qed.

(** A browser that sends the cookie back presents the token. *)
Lemma cookie_presented method path bytes csrf :
  cookie_value {| hr_method := method; hr_path := path;
                  hr_cookies := [Some ("vox_session=" +:+ to_hex bytes)]; hr_csrf := csrf |} SESSION_COOKIE
  = Some (to_hex bytes).
Proof.
  assert (all_bytes cookie_byte ("vox_session=" +:+ to_hex bytes) = true) as Hall
    by (rewrite all_bytes_app, to_hex_cookie; reflexivity).
  destruct (cookie_byte_text _ Hall) as [Ht Hs]. unfold cookie_value. cbn [hr_cookies].
  change (omap id [Some ("vox_session=" +:+ to_hex bytes)]) with ["vox_session=" +:+ to_hex bytes].
  cbn [flat_map]. rewrite Hs.
  change (trim <$> ["vox_session=" +:+ to_hex bytes] ++ []) with [trim_end ("vox_session=" +:+ to_hex bytes)].
  rewrite Ht. reflexivity.
Qed.

Lemma upsert_session_rows user token csrf expires now s s' :
  upsert_session user token csrf expires now s = (s', Ok tt) →
  pl_repository s' = pl_repository s ∧
  (∃ r, r ∈ pl_sessions s' ∧ se_session_hash r = digest_hex token) ∧
  (∀ r, r ∈ pl_sessions s' → se_session_hash r = digest_hex token →
   se_user_id r = user ∧ se_csrf_hash r = digest_hex csrf ∧ se_expires_at_unix_ms r = expires ∧
   se_revoked_at_unix_ms r = None) ∧
  (∀ r, se_session_hash r ≠ digest_hex token → r ∈ pl_sessions s' ↔ r ∈ pl_sessions s).
Proof.
  unfold upsert_session. destruct (user_exists _ _); [|done]. intros [= <-]. simpl. split; [done|].
  unfold upsert. simpl. destruct (existsb _ _) eqn:He.
  - apply existsb_exists in He as (old & Hin%list_elem_of_In & Hk%bool_decide_eq_true). split_and!.
    + eexists. split; [apply elem_of_update_where; exists old; split; [done|reflexivity]|].
      unfold by_key. by rewrite Hk, bool_decide_eq_true_2.
    + intros r (o & Ho & ->)%elem_of_update_where Hr. unfold by_key in *. case_bool_decide; [done|]. congruence.
    + intros r Hr. rewrite elem_of_update_where. split.
      * intros (o & Ho & ->). unfold by_key in *. case_bool_decide; [done|done].
      * intros Hr'. exists r. split; [done|]. unfold by_key. by rewrite bool_decide_eq_false_2.
  - split_and!.
    + eexists. split; [apply elem_of_app; right; by apply list_elem_of_singleton|done].
    + intros r [Hr| ->%list_elem_of_singleton]%elem_of_app Hh; [|done].
      exfalso. rewrite <- not_true_iff_false, existsb_exists in He. apply He. exists r.
      split; [by apply list_elem_of_In|]. unfold by_key. by rewrite bool_decide_eq_true_2.
    + intros r Hr. rewrite elem_of_app, list_elem_of_singleton. split; [|auto]. intros [?| ->]; [done|]. done.
Qed.

Lemma establish_session_Ok auth moment session_bytes csrf_bytes request s s' established :
  establish_session auth moment session_bytes csrf_bytes request s = (s', Ok established) →
  ∃ now user token csrf,
    now_unix_ms (mt_clock moment) = Ok now ∧ now < au_bootstrap_expires_at_unix_ms auth ∧
    digest_hex (csr_bootstrap_credential request) = au_bootstrap_hash auth ∧
    us_id user = au_bootstrap_user_id auth ∧ us_enabled user = true ∧
    session_bytes = Some token ∧ csrf_bytes = Some csrf ∧
    es_session_token established = to_hex token ∧ es_csrf_token established = to_hex csrf ∧
    es_user_id established = us_id user ∧
    upsert_session (us_id user) (to_hex token) (to_hex csrf) (au_bootstrap_expires_at_unix_ms auth) now s = (s', Ok tt).
Proof.
  unfold establish_session. intros (? & now & [-> Hn]%st_lift_Ok & Hk)%st_bind_Ok.
  destruct (now_unix_ms _) as [now0|]; [|done]. injection Hn as ->.
  destruct (_ || _) eqn:Hg; [done|]. apply orb_false_iff in Hg as [Hexp%Z.leb_gt Hd%negb_false_iff%bool_decide_eq_true].
  apply st_bind_Ok in Hk as (? & users & [-> Hu]%st_lift_Ok & Hk).
  apply st_bind_Ok in Hk as (? & user & [-> He]%st_lift_Ok & Hk).
  apply st_bind_Ok in Hk as (? & token & [-> Ht]%st_lift_Ok & Hk).
  apply st_bind_Ok in Hk as (? & csrf & [-> Hc]%st_lift_Ok & Hk).
  apply st_bind_Ok in Hk as (? & grants & [-> Hp]%st_lift_Ok & Hk).
  apply st_bind_Ok in Hk as (? & ? & [-> _]%st_lift_Ok & Hk).
  apply st_bind_Ok in Hk as (? & [] & Hup%st_map_err_Ok & [= <- <-]).
  destruct (enabled_user users _) as [u|] eqn:Heu; [|done]. injection He as ->.
  apply enabled_user_Some in Heu as (_ & Hid & Hen).
  destruct session_bytes as [tb|]; [|done]. destruct csrf_bytes as [cb|]; [|done].
  injection Ht as <-. injection Hc as <-. exists now, user, tb, cb. split_and!; done.
Qed.

Lemma establish_session_Err auth moment session_bytes csrf_bytes request s s' e :
  establish_session auth moment session_bytes csrf_bytes request s = (s', Err e) → s' = s.
Proof.
  unfold establish_session, st_bind, st_lift, st_fail, st_map_err, st_ret.
  destruct (map_err _ (now_unix_ms _)); [|by intros [= <-]]. destruct (_ || _); [by intros [= <-]|].
  destruct (map_err _ (mt_user_read _)); [|by intros [= <-]].
  destruct (ok_or (enabled_user _ _) _); [|by intros [= <-]].
  destruct (ok_or (random_token session_bytes) _); [|by intros [= <-]].
  destruct (ok_or (random_token csrf_bytes) _); [|by intros [= <-]].
  destruct (map_err _ (mt_permission_read _)); [|by intros [= <-]].
  destruct (map_err _ (mt_sessions _)); [|by intros [= <-]].
  unfold upsert_session. destruct (user_exists _ _); simpl; [done|by intros [= <-]].
Qed.

(** C20. Only the bootstrap credential, before its expiry and while its user is enabled, is
    exchanged for a session, and a refused exchange changes nothing.  From then on the
    session's cookie and CSRF token make every request authentic, whatever the method, as
    the user of the bootstrap with the permissions that user has at that moment, until the
    expiry; afterwards the session is refused, as it is while the user is disabled.  Other
    sessions are not touched. *)
Theorem sessions_last_until_expiry auth moment session_bytes csrf_bytes request s :
  UserId_parse (au_bootstrap_user_id auth) = Ok (au_bootstrap_user_id auth) →
  match establish_session auth moment session_bytes csrf_bytes request s with
  | (s', Err _) => s' = s
  | (s', Ok established) =>
      digest_hex (csr_bootstrap_credential request) = au_bootstrap_hash auth ∧
      (∃ now, now_unix_ms (mt_clock moment) = Ok now ∧ now < au_bootstrap_expires_at_unix_ms auth) ∧
      es_user_id established = au_bootstrap_user_id auth ∧ pl_repository s' = pl_repository s ∧
      (∀ row, se_session_hash row ≠ digest_hex (es_session_token established) →
              row ∈ pl_sessions s' ↔ row ∈ pl_sessions s) ∧
      ∀ later now users grants method path,
        now_unix_ms (mt_clock later) = Ok now → mt_sessions later = Ok (pl_sessions s') →
        mt_user_read later = Ok users → mt_permission_read later = Ok grants →
        authenticate later
          {| hr_method := method; hr_path := path;
             hr_cookies := [Some ("vox_session=" +:+ es_session_token established)];
             hr_csrf := Some (es_csrf_token established) |} =
        if au_bootstrap_expires_at_unix_ms auth <=? now then Err Fail.InvalidSession
        else if bool_decide (is_Some (enabled_user users (au_bootstrap_user_id auth)))
        then Ok {| vs_actor := au_bootstrap_user_id auth;
                   vs_permissions := permissions_of (au_bootstrap_user_id auth) (re_tables grants) |}
        else Err Fail.RevokedUser
  end.
Proof.
  intros Hid. destruct (establish_session _ _ _ _ _ _) as [s' [established|e]] eqn:Hs.
  2: by eapply establish_session_Err.
  apply establish_session_Ok in Hs as (now & user & token & csrf & Hn & Hexp & Hd & Hu & Hen & _ & _ & -> & -> & -> & Hup).
  apply upsert_session_rows in Hup as (Hrepo & (row & Hin & Hrow) & Hrows & Hother). rewrite Hu in *.
  split_and!; [done|by exists now|done|done|done|].
  intros later now' users grants method path Hn' Hss Hur Hpr. unfold authenticate.
  rewrite cookie_presented, Hn', Hss, Hur, Hpr. simpl. unfold resolve_session. simpl.
  destruct (Z.leb_spec (au_bootstrap_expires_at_unix_ms auth) now') as [Hle|Hlt].
  - replace (List.find _ _) with (@None SessionRow); [done|]. symmetry. apply find_None_iff. intros r Hr.
    apply not_true_iff_false. intros (Hh & _ & Hl)%live_session_spec.
    destruct (Hrows r Hr Hh) as (_ & _ & He & _). lia.
  - destruct (List.find _ _) as [r|] eqn:Hf.
    2: { rewrite find_None_iff in Hf. specialize (Hf row Hin). destruct (Hrows row Hin Hrow) as (_ & _ & He & Hr).
         apply not_true_iff_false in Hf. destruct Hf. apply live_session_spec. rewrite He. done. }
    apply find_elem in Hf as [Hr (Hh & _)%live_session_spec].
    destruct (Hrows r Hr Hh) as (-> & -> & _). rewrite Hid. simpl.
    destruct (enabled_user users (au_bootstrap_user_id auth)) as [u|] eqn:Heu; simpl.
    + apply enabled_user_Some in Heu as (_ & Hui & _). rewrite Hui.
      by destruct (requires_csrf method); [rewrite bool_decide_eq_true_2|].
    + done.
Qed.
End spec.

(** ** A concrete operator *)

Section samples.
#[local] Instance sample_uuid : UuidFormat := {| uuid_parses _ := true |}.
#[local] Instance sample_digest : Cipher := {|
  seal _ _ _ plain := Some plain; unseal _ _ _ sealed := Some sealed; sha256 value := value |}.
#[local] Instance sample_correlation : Correlation := "correlation"%string.

Definition sample_bootstrap : SessionBootstrap := {|
  sb_user_id := "user:operator"; sb_display_name := "Vox bootstrap operator";
  sb_permissions := bootstrap_permissions;
  sb_bootstrap_credential := "0123456789abcdef0123456789abcdef"; sb_expires_at_unix_ms := 1000;
  sb_cookie_secure := true |}.

Definition sample_empty : Platform := {|
  pl_repository := {| re_tables := empty_tables; re_fail_next_audit := false; re_fail_next_onboarding := false |};
  pl_sessions := [] |}.

Definition sample_opened : Platform * result AuthError AuthState :=
  auth_open "u" (Ok tt) sample_bootstrap 10 Perm.SubmitSandboxOrders sample_empty.

Definition sample_auth : AuthState :=
  match snd sample_opened with
  | Ok a => a
  | Err _ => {| au_manual_execution_permission := Perm.ViewPortfolio; au_bootstrap_hash := "";
                au_bootstrap_user_id := ""; au_bootstrap_expires_at_unix_ms := 0; au_cookie_secure := false |}
  end.

Definition sample_moment (now : Z) (p : Platform) : Moment := {|
  mt_clock := Some now; mt_sessions := Ok (pl_sessions p); mt_user_read := Ok (pl_repository p);
  mt_permission_read := Ok (pl_repository p) |}.

Definition sample_session : Platform * result ApiError EstablishedSession :=
  establish_session sample_auth (sample_moment 20 (fst sample_opened)) (Some "tok") (Some "csrf")
    {| csr_bootstrap_credential := "0123456789abcdef0123456789abcdef" |} (fst sample_opened).

Definition sample_request (csrf : option string) : Request := {|
  hr_method := Http.POST; hr_path := "/api/v1/commands/order";
  hr_cookies := [Some ("theme=dark; vox_session=" +:+ to_hex "tok")]; hr_csrf := csrf |}.

(** The provisioned operator may submit an order with its session and its CSRF token, and
    not without the CSRF token or after the expiry. *)
Example operator_session_samples :
  authenticated_actor_middleware sample_auth (sample_moment 30 (fst sample_session))
    (sample_request (Some (to_hex "csrf"))) = Forwarded (Some "user:operator"%string) ∧
  (∃ e, authenticated_actor_middleware sample_auth (sample_moment 30 (fst sample_session))
    (sample_request None) = Answered e ∧ ae_category e = Cat.Permission) ∧
  (∃ e, authenticated_actor_middleware sample_auth (sample_moment 1000 (fst sample_session))
    (sample_request (Some (to_hex "csrf"))) = Answered e ∧ ae_category e = Cat.Authentication).
Proof. split_and!; [vm_compute; reflexivity|eexists; split; vm_compute; reflexivity..]. Qed.

Lemma sample_keyed :
  keyed se_session_hash (pl_sessions (fst sample_session)) ∧
  keyed us_id (tb_users (re_tables (pl_repository (fst sample_session)))).
Proof.
  split; unfold keyed.
  - replace (se_session_hash <$> pl_sessions (fst sample_session)) with ["373436663662"%string]; [|vm_compute; reflexivity].
    apply NoDup_singleton.
  - replace (us_id <$> _) with ["user:operator"%string]; [|vm_compute; reflexivity]. apply NoDup_singleton.
Qed.

Lemma sample_moment_keyed now p :
  keyed se_session_hash (pl_sessions p) ∧ keyed us_id (tb_users (re_tables (pl_repository p))) →
  (∀ rows, mt_sessions (sample_moment now p) = Ok rows → keyed se_session_hash rows) ∧
  (∀ users, mt_user_read (sample_moment now p) = Ok users → keyed us_id (tb_users (re_tables users))).
Proof. intros [H1 H2]. split; [by intros rows [= <-]|by intros users [= <-]]. Qed.

Lemma requests_are_authenticated_witness :
  admitted sample_auth (sample_moment 30 (fst sample_session)) (sample_request (Some (to_hex "csrf")))
    "user:operator".
Proof.
  destruct (proj1 (requests_are_authenticated sample_auth (sample_moment 30 (fst sample_session))
    (sample_request (Some (to_hex "csrf"))) (Some "user:operator"%string)
    (proj1 (sample_moment_keyed 30 _ sample_keyed)) (proj2 (sample_moment_keyed 30 _ sample_keyed)))
    (proj1 operator_session_samples)) as [[Hp _]|(_ & user & Hu & Hadm)].
  - discriminate Hp.
  - injection Hu as <-. exact Hadm.
Defined.

Lemma sample_user_parses : UserId_parse (au_bootstrap_user_id sample_auth) = Ok (au_bootstrap_user_id sample_auth).
Proof. vm_compute. reflexivity. Qed.

Lemma sessions_last_until_expiry_witness :
  ∃ s' established,
    establish_session sample_auth (sample_moment 20 (fst sample_opened)) (Some "tok") (Some "csrf")
      {| csr_bootstrap_credential := "0123456789abcdef0123456789abcdef" |} (fst sample_opened)
    = (s', Ok established) ∧
    es_user_id established = au_bootstrap_user_id sample_auth ∧
    pl_repository s' = pl_repository (fst sample_opened).
Proof.
  pose proof (sessions_last_until_expiry sample_auth (sample_moment 20 (fst sample_opened)) (Some "tok") (Some "csrf")
    {| csr_bootstrap_credential := "0123456789abcdef0123456789abcdef" |} (fst sample_opened)
    sample_user_parses) as Hlast.
  destruct (establish_session _ _ _ _ _ _) as [s' [established|e]] eqn:Hs.
  - destruct Hlast as (_ & _ & Hu & Hr & _). exists s', established. split; [reflexivity|]. split; [exact Hu|exact Hr].
  - exfalso. vm_compute in Hs. discriminate Hs.
Defined.
End samples.
