(* ===== verification/RuntimeCredentials.v ===== *)
(** * The runtime's credential gate: [crates/vox-runtime/src/connection_credentials.rs]

    [StoredCredentialResolver] answers the coordinator's questions about credentials from
    the connection service: whether the scope's credential may be used for reading, and
    whether a command may be sent for a purpose.  Every question reads the stored
    authorisation again.  It implements the coordinator's [CredentialResolverPort]; the
    theorem says that what it grants was granted by the service for exactly the scope. *)
From S2P Require Import Prelude ConnectionModel RiskStore ConnectionRepository SecretStore ConnectionService RuntimeModel RuntimePorts RuntimeCoordinator.

(** ** Errors and names *)

Definition credential_error (message : string) : BrokerPortError := {|
  bp_service := "ConnectionService"; bp_method := "ResolveCredential"; bp_class := Res.Credential;
  bp_message := message; bp_retry_after := None |}.

Definition authorization_error : BrokerPortError := {|
  bp_service := "ConnectionService"; bp_method := "AuthorizeExecution"; bp_class := Res.Permission;
  bp_message := "execution authorization denied for exact connection/account/purpose";
  bp_retry_after := None |}.

Definition stored_provider (provider : Provider) : string := match provider with TInvest => T_INVEST end.

Definition stored_environment (environment : RuntimeEnvironment) : BrokerEnvironment :=
  match environment with SandboxEnv => Env.Sandbox | ProductionEnv => Env.Production end.

Definition default_execution_purpose (environment : RuntimeEnvironment) : RuntimeExecutionPurpose :=
  match environment with
  | SandboxEnv => Purpose.SandboxMutation
  | ProductionEnv => Purpose.ProductionAutomated
  end.

Definition stored_execution_purpose (value : RuntimeExecutionPurpose) : ExecutionPurpose :=
  match value with
  | Purpose.SandboxMutation => XPurpose.SandboxMutation
  | Purpose.ProductionManual => XPurpose.ProductionManual
  | Purpose.ProductionAutomated => XPurpose.ProductionAutomated
  end.

Definition CredentialRef_parse `{!UuidFormat} : string → result Meta.ModelError string :=
  parse_id "CredentialRef" "credential".

Definition parse_scope `{!UuidFormat} (scope : RuntimeScope) : result BrokerPortError (string * string) :=
  let? connection_id := map_err (λ _, credential_error "invalid connection reference")
                          (ConnectionId_parse (sc_connection_ref scope)) in
  let? credential_ref := map_err (λ _, credential_error "invalid credential reference")
                           (CredentialRef_parse (sc_credential_ref scope)) in
  Ok (connection_id, credential_ref).

Definition validate_scope (scope : RuntimeScope) (expected_credential_ref : string)
    (target : AccountTarget) (actual_credential_ref : string) : result BrokerPortError () :=
  if negb (bool_decide (actual_credential_ref = expected_credential_ref))
     || negb (bool_decide (at_provider target = stored_provider (sc_provider scope)))
     || negb (bool_decide (at_environment target = stored_environment (sc_environment scope)))
     || negb (bool_decide (at_provider_account_id target = sc_broker_account_id scope))
  then Err (credential_error "runtime scope does not match stored connection binding")
  else Ok tt.

(** ** The resolver *)

Section resolver.
Context {R S P E : Type}.
Context `{CR : !ConnectionRepository R} `{SS : !SecretStore S} `{BP : !BrokerProviderPort P} `{UU : !Uuids E}.
Context `{UF : !UuidFormat}.

Notation service := (@Service R S P E).
Notation cx := (st service BrokerPortError).

Definition authorize_execution (scope : RuntimeScope) (purpose : RuntimeExecutionPurpose) : cx () :=
  let! ids := st_lift (parse_scope scope) in
  let! resolved := st_map_err (λ _, authorization_error)
    (validate_runtime_execution_access ids.1 (sc_broker_account_id scope)
       (stored_execution_purpose purpose) None) in
  st_lift (validate_scope scope ids.2 (xg_target resolved) (xg_credential_ref resolved)).

(** [.await.is_ok()]. *)
Definition succeeds {A} (m : cx A) : cx bool := λ s, let '(s', r) := m s in (s', Ok (is_ok r)).

Definition resolve_scope (scope : RuntimeScope) : cx bool :=
  let! ids := st_lift (parse_scope scope) in
  let! resolved := st_map_err (λ _, credential_error "connection read credential unavailable")
    (validate_runtime_read_access ids.1 (sc_broker_account_id scope)) in
  st_lift (validate_scope scope ids.2 (rg_target resolved) (rg_credential_ref resolved)) ;;;
  succeeds (authorize_execution scope (default_execution_purpose (sc_environment scope))).

#[export] Instance StoredCredentialResolver : CredentialResolverPort service := {
  cr_resolve := resolve_scope;
  cr_authorize_execution := authorize_execution;
}.

(** ** What is granted *)

(** The stored target and credential are the scope's own. *)
Definition of_scope (scope : RuntimeScope) (target : AccountTarget) (credential_ref : string) : Prop :=
  at_provider target = stored_provider (sc_provider scope) ∧
  at_environment target = stored_environment (sc_environment scope) ∧
  at_provider_account_id target = sc_broker_account_id scope ∧
  credential_ref = sc_credential_ref scope.

(** An error the coordinator neither retries nor takes for a lost connection. *)
Definition refused (e : BrokerPortError) : Prop :=
  bp_class e = Res.Credential ∨ bp_class e = Res.Permission.

Lemma parse_scope_Ok scope ids :
  parse_scope scope = Ok ids →
  ConnectionId_parse (sc_connection_ref scope) = Ok ids.1 ∧ ids.2 = sc_credential_ref scope.
Proof.
  unfold parse_scope. destruct (ConnectionId_parse _) as [id|]; [|done]. simpl.
  destruct (CredentialRef_parse _) as [ref|] eqn:Hc; [|done]. simpl. intros [= <-]. split; [done|].
  unfold CredentialRef_parse, parse_id in Hc. branches.
Qed.

Lemma validate_scope_Ok scope expected target actual u :
  expected = sc_credential_ref scope → validate_scope scope expected target actual = Ok u →
  of_scope scope target actual.
Proof.
  intros ->. unfold validate_scope, of_scope. destruct (_ || _) eqn:H; [done|]. intros _.
  prop_tests. naive_solver.
Qed.

Lemma authorize_execution_granted scope purpose (s : service) :
  match authorize_execution scope purpose s with
  | (s', Ok _) => ∃ connection_id grant,
      ConnectionId_parse (sc_connection_ref scope) = Ok connection_id ∧
      validate_runtime_execution_access connection_id (sc_broker_account_id scope)
        (stored_execution_purpose purpose) None s = (s', Ok grant) ∧
      of_scope scope (xg_target grant) (xg_credential_ref grant)
  | (_, Err e) => refused e
  end.
Proof.
  unfold authorize_execution, st_bind, st_lift, st_map_err.
  destruct (parse_scope scope) as [ids|e] eqn:Hp.
  - destruct (validate_runtime_execution_access _ _ _ _ s) as [s1 [grant|]] eqn:Hv; simpl; [|by right].
    apply parse_scope_Ok in Hp as [Hid Href].
    destruct (validate_scope _ _ _ _) as [u|e] eqn:Hs.
    + exists ids.1, grant. split_and!; [done|done|]. by eapply validate_scope_Ok.
    + left. unfold validate_scope in Hs. destruct (_ || _); by simplify_eq.
  - left. unfold parse_scope in Hp. destruct (ConnectionId_parse _); simpl in Hp; [|by simplify_eq].
    destruct (CredentialRef_parse _); by simplify_eq/=.
Qed.

(** The credential gate grants what the service granted for exactly the scope.  An
    execution is authorised only when the connection service grants it, as it is stored
    at that moment, for the scope's connection and account and for the purpose, and the
    stored provider, environment, account and credential are the scope's own.  A
    credential is resolved only when reading is granted in the same way, and it is
    reported as authorised for execution exactly when the authorisation for the
    environment's own purpose succeeds.  Every refusal has the class of a credential or
    a permission failure. *)
Theorem credential_gate_grants_scope scope (s : service) :
  (∀ purpose,
    match cr_authorize_execution scope purpose s with
    | (s', Ok _) => ∃ connection_id grant,
        ConnectionId_parse (sc_connection_ref scope) = Ok connection_id ∧
        validate_runtime_execution_access connection_id (sc_broker_account_id scope)
          (stored_execution_purpose purpose) None s = (s', Ok grant) ∧
        of_scope scope (xg_target grant) (xg_credential_ref grant)
    | (_, Err e) => refused e
    end) ∧
  match cr_resolve scope s with
  | (s', Ok authorised) => ∃ connection_id grant s1,
      ConnectionId_parse (sc_connection_ref scope) = Ok connection_id ∧
      validate_runtime_read_access connection_id (sc_broker_account_id scope) s = (s1, Ok grant) ∧
      of_scope scope (rg_target grant) (rg_credential_ref grant) ∧
      (let '(s2, r) := cr_authorize_execution scope
                         (default_execution_purpose (sc_environment scope)) s1 in
       s2 = s' ∧ authorised = is_ok r)
  | (_, Err e) => refused e
  end.
Proof.
  split; [intros purpose; apply authorize_execution_granted|].
  simpl. unfold resolve_scope, st_bind, st_lift, st_map_err, succeeds.
  destruct (parse_scope scope) as [ids|e] eqn:Hp.
  - destruct (validate_runtime_read_access _ _ s) as [s1 [grant|]] eqn:Hv; simpl; [|by left].
    apply parse_scope_Ok in Hp as [Hid Href].
    destruct (validate_scope _ _ _ _) as [u|e] eqn:Hs.
    + destruct (authorize_execution _ _ s1) as [s2 r] eqn:Ha.
      exists ids.1, grant, s1. split_and!; [done|done|by eapply validate_scope_Ok|]. by rewrite Ha.
    + left. unfold validate_scope in Hs. destruct (_ || _); by simplify_eq.
  - left. unfold parse_scope in Hp. destruct (ConnectionId_parse _); simpl in Hp; [|by simplify_eq].
    destruct (CredentialRef_parse _); by simplify_eq/=.
Qed.
End resolver.
