(* ===== verification/ProductionRisk.v ===== *)
(** * Production risk admission: [crates/vox-core/src/production_risk.rs]

    The adapter that stands between the coordinator and the risk engine: it builds a
    risk request from the last reconciliation report, broker reads and the durable
    stores, has the engine decide, persists the approval with its reservation, and
    checks it again just before dispatch.  It implements [RiskAdmissionPort].

    Its state is the report, the cache of instrument constraints and the risk store;
    the journal is read where it is called.  The client factory and the broker reads
    behind it are the class [ClientFactory]; a read fails with the text of its error.
    The semaphore around the reads only delays them.  Texts of third-party errors are
    the class [ErrorText]. *)
From Stdlib Require Import Ascii.
From stdpp Require Import gmap strings.
From S2P Require Import Prelude ConnectionModel Money Domain TInvestWire TInvestCanonical RiskModel RiskEngine RiskStore RiskReconcile RuntimeModel RuntimePolicy RuntimePorts RuntimeJournal RuntimeReconcile RuntimeCoordinator.

(** ** Broker facts *)

Record CanonicalRiskInstrument := {
  ci_uid : string;
  ci_lot_size : Z;
  ci_api_trade_available : bool;
  ci_buy_available : bool;
  ci_sell_available : bool;
  ci_limit_order_available : bool;
  ci_market_order_available : bool;
  ci_best_price_order_available : bool;
}.

Record CanonicalMarginAttributes := {
  ma_liquid_portfolio : option CanonicalMoney;
  ma_starting_margin : option CanonicalMoney;
  ma_minimal_margin : option CanonicalMoney;
  ma_funds_sufficiency_level : option UnitsNano;
  ma_amount_of_missing_funds : option CanonicalMoney;
  ma_corrected_margin : option CanonicalMoney;
  ma_guarantee_for_futures : option CanonicalMoney;
}.

(** Sessions, each with the revision of its authorisation, and the reads they offer.
    Of an order-price estimate the adapter uses [total_order_amount]. *)
Class ClientFactory (F : Type) := {
  cf_execution_session : F → string → string → ExecutionPurpose → result string Z;
  cf_read_session : F → string → string → result string ();
  cf_instrument_constraints : string → st F string CanonicalRiskInstrument;
  cf_max_lots : string → string → option FixedPoint → st F string CanonicalMaxLots;
  cf_limit_order_total :
    string → string → FixedPoint → OrderSide → Z → st F string (option CanonicalMoney);
  cf_margin_attributes : string → st F string CanonicalMarginAttributes;
}.

(** ** Errors *)

Class ErrorText := {
  sqlite_text : SqliteError → string;
  serialization_text : string;
  numeric_text : string;
}.

Definition risk_store_error_text `{!ErrorText} (e : RiskStoreError) : string :=
  match e with
  | Sqlite e => "risk sqlite persistence failed: " +:+ sqlite_text e
  | Serialization => "risk serialization failed: " +:+ serialization_text
  | CapacityExceeded => "risk reservation capacity exceeded"
  | InvalidCapacity => "risk reservation capacity is invalid"
  | ReservationNotFound => "risk reservation not found"
  | InvalidTransition => "invalid risk reservation transition"
  | StoreArithmeticOverflow => "risk arithmetic overflow"
  | ApprovalInvariantViolation what => "risk approval invariant violated: " +:+ what
  | StoredNumeric => "stored risk numeric value is invalid: " +:+ numeric_text
  | PolicyRevisionConflict => "risk policy revision changed"
  | InvalidPolicyMutation => "risk policy mutation is invalid"
  end.

Definition reconcile_error_text `{!ErrorText} (e : RiskReservationReconcileError) : string :=
  match e with
  | ReconcileReservationNotFound => "risk reservation not found"
  | InvalidFill => "fill quantity must be non-zero"
  | FillDirectionMismatch => "fill direction does not match the reservation"
  | FillExceedsReservation => "fill exceeds remaining reserved quantity"
  | TerminalReservation => "terminal reservation cannot consume another fill"
  | ReconcileArithmeticOverflow => "risk reservation arithmetic overflow"
  | RiskReconcile.Store e => "risk store failure: " +:+ risk_store_error_text e
  end.

Definition engine_error_text (e : RiskEngineError) : string :=
  match e with
  | ArithmeticOverflow => "risk arithmetic overflow"
  | InvalidPolicy what => "invalid risk policy: " +:+ what
  | InvalidProviderFact what => "invalid provider risk fact: " +:+ what
  end.

Definition store_unavailable `{!ErrorText} (e : RiskStoreError) : RiskAdmissionError :=
  UnavailableAdmission (risk_store_error_text e).

(** [serde_json::to_value] of the unit variants, renamed to SCREAMING_SNAKE_CASE. *)
Definition risk_reason_code (code : RiskReasonCode) : string :=
  match code with
  | Reason.Approved => "APPROVED"
  | Reason.ResizedToProviderLimit => "RESIZED_TO_PROVIDER_LIMIT"
  | Reason.ResizedToPolicyLimit => "RESIZED_TO_POLICY_LIMIT"
  | Reason.InvalidQuantity => "INVALID_QUANTITY"
  | Reason.InstrumentUnavailable => "INSTRUMENT_UNAVAILABLE"
  | Reason.InstrumentNotTradable => "INSTRUMENT_NOT_TRADABLE"
  | Reason.PriceUnavailable => "PRICE_UNAVAILABLE"
  | Reason.PositionLotMismatch => "POSITION_LOT_MISMATCH"
  | Reason.CriticalInputMissing => "CRITICAL_INPUT_MISSING"
  | Reason.RuntimeNotReady => "RUNTIME_NOT_READY"
  | Reason.ExecutionUnauthorized => "EXECUTION_UNAUTHORIZED"
  | Reason.AuthorizationRevisionChanged => "AUTHORIZATION_REVISION_CHANGED"
  | Reason.PolicyRevisionChanged => "POLICY_REVISION_CHANGED"
  | Reason.ReconciliationRevisionChanged => "RECONCILIATION_REVISION_CHANGED"
  | Reason.PositionRevisionChanged => "POSITION_REVISION_CHANGED"
  | Reason.OrderRevisionChanged => "ORDER_REVISION_CHANGED"
  | Reason.InstrumentConstraintRevisionChanged => "INSTRUMENT_CONSTRAINT_REVISION_CHANGED"
  | Reason.MarketDataMissing => "MARKET_DATA_MISSING"
  | Reason.MarketDataStale => "MARKET_DATA_STALE"
  | Reason.UnknownMutationConflict => "UNKNOWN_MUTATION_CONFLICT"
  | Reason.ReduceOnly => "REDUCE_ONLY"
  | Reason.Halted => "HALTED"
  | Reason.MarginNotAllowed => "MARGIN_NOT_ALLOWED"
  | Reason.MarginConfirmationRequired => "MARGIN_CONFIRMATION_REQUIRED"
  | Reason.MarginUtilizationExceeded => "MARGIN_UTILIZATION_EXCEEDED"
  | Reason.ProviderLimitUnavailable => "PROVIDER_LIMIT_UNAVAILABLE"
  | Reason.ProviderLimitExceeded => "PROVIDER_LIMIT_EXCEEDED"
  | Reason.MaxSingleOrderExceeded => "MAX_SINGLE_ORDER_EXCEEDED"
  | Reason.MaxPositionExceeded => "MAX_POSITION_EXCEEDED"
  | Reason.MaxGrossExposureExceeded => "MAX_GROSS_EXPOSURE_EXCEEDED"
  | Reason.MaxNetExposureExceeded => "MAX_NET_EXPOSURE_EXCEEDED"
  | Reason.MaxInstrumentExposureExceeded => "MAX_INSTRUMENT_EXPOSURE_EXCEEDED"
  | Reason.DailyLossExceeded => "DAILY_LOSS_EXCEEDED"
  | Reason.ProtectionRequired => "PROTECTION_REQUIRED"
  | Reason.KillSwitchActive => "KILL_SWITCH_ACTIVE"
  | Reason.PersistenceFailure => "PERSISTENCE_FAILURE"
  end.

(** The text of the [ParseIntError] of [str::parse::<i128>], when it fails. *)
Definition digit_of (c : Ascii.ascii) : option Z :=
  let b := Z.of_N (byte_of c) in if (48 <=? b) && (b <=? 57) then Some (b - 48) else None.

Fixpoint parse_error_from (negative : bool) (acc : Z) (s : string) : string :=
  match s with
  | EmptyString => ""
  | String c s' =>
      match digit_of c with
      | None => "invalid digit found in string"
      | Some d =>
          let acc := if negative then acc * 10 - d else acc * 10 + d in
          if fits I128 acc then parse_error_from negative acc s'
          else if negative then "number too small to fit in target type"
          else "number too large to fit in target type"
      end
  end.

Definition parse_error_text (s : string) : string :=
  match s with
  | EmptyString => "cannot parse integer from empty string"
  | String "+"%char EmptyString | String "-"%char EmptyString => "invalid digit found in string"
  | String "-"%char s' => parse_error_from true 0 s'
  | String "+"%char s' => parse_error_from false 0 s'
  | _ => parse_error_from false 0 s
  end.

(** ** Pure helpers *)

Definition denied {A} (code message : string) : result RiskAdmissionError A := Err (Denied code message).
Definition unavailable {A} (message : string) : result RiskAdmissionError A :=
  Err (UnavailableAdmission message).

Definition signed_lots (side : OrderSide) (lots : Z) : result RiskAdmissionError Z :=
  if lots <=? 0 then denied "INVALID_QUANTITY" "quantity must be positive"
  else match side with
       | Buy => Ok lots
       | Sell => ok_or (checked_neg I64 lots)
                   (Denied "INVALID_QUANTITY" "quantity is not representable")
       end.

Record CommandDescription := {
  cd_action : RiskActionKind;
  cd_instrument_id : string;
  cd_delta_lots : Z;
  cd_price : option FixedPoint;
  cd_order_type : option RegularOrderType;
  cd_confirm_margin_trade : bool;
  cd_replaced_order_id : option string;
}.

(** An open order named by its broker identity or by its request. *)
Definition names_order (id : string) (o : OrderFact) : bool :=
  bool_decide (of_broker_order_id o = id) || bool_decide (of_logical_request_id o = Some id).

Definition describe_order (o : RegularOrderCommand) : result RiskAdmissionError CommandDescription :=
  let? delta := signed_lots (ro_side o) (ro_quantity_lots o) in
  Ok {| cd_action := Action.DirectionalOrder; cd_instrument_id := ro_instrument_id o;
        cd_delta_lots := delta; cd_price := ro_price o; cd_order_type := Some (ro_order_type o);
        cd_confirm_margin_trade := ro_confirm_margin_trade o; cd_replaced_order_id := None |}.

(** The description of a command that only maintains. *)
Definition maintenance (action : RiskActionKind) (instrument_id : string) (confirm_margin_trade : bool)
  : CommandDescription := {|
  cd_action := action; cd_instrument_id := instrument_id; cd_delta_lots := 0; cd_price := None;
  cd_order_type := None; cd_confirm_margin_trade := confirm_margin_trade;
  cd_replaced_order_id := None |}.

Definition command_description (command : RuntimeExecutionCommand) (report : ReconciliationReport)
  : result RiskAdmissionError CommandDescription :=
  match command with
  | RegularOrder o | PostOrderAsync o => describe_order o
  | ReplaceOrder o =>
      let? existing := ok_or (List.find (names_order (rp_existing_order_id o)) (rr_active_orders report))
        (Denied "ORDER_NOT_FOUND" "replacement target absent from authoritative open orders") in
      let? side := ok_or (of_side existing)
        (Denied "ORDER_DIRECTION_UNKNOWN" "replacement target direction is unavailable") in
      let? delta := signed_lots side (rp_quantity_lots o) in
      Ok {| cd_action := Action.ReplaceDirectionalOrder;
            cd_instrument_id := of_instrument_uid existing; cd_delta_lots := delta;
            cd_price := Some (rp_price o); cd_order_type := Some Limit;
            cd_confirm_margin_trade := rp_confirm_margin_trade o;
            cd_replaced_order_id := Some (rp_existing_order_id o) |}
  | CancelOrder o =>
      Ok (maintenance Action.CancelOrder
            (match List.find (names_order (co_order_id o)) (rr_active_orders report) with
             | Some order => of_instrument_uid order
             | None => "maintenance:cancel-order"
             end) false)
  | PostStopOrder o | ProtectionLegC o =>
      Ok (maintenance Action.ProtectionMaintenance (pl_instrument_id o) (pl_confirm_margin_trade o))
  | CancelStopOrder _ => Ok (maintenance Action.CancelProtection "maintenance:cancel-protection" false)
  end.

Definition lots_of (v : Z) : result RiskAdmissionError Z :=
  ok_or (checked I64 (unsigned_abs v)) (UnavailableAdmission "risk quantity overflow").

Definition increasing_portion (base delta : Z) : result RiskAdmissionError Z :=
  if delta =? 0 then Ok 0
  else if (base =? 0) || (signum base =? signum delta) then lots_of delta
  else
    let? base_abs := lots_of base in
    let? delta_abs := lots_of delta in
    Ok (saturating_sub I64 delta_abs base_abs).

Definition required_margin_money (value : option CanonicalMoney) (field : string)
  : result RiskAdmissionError (option string * Z) :=
  match value with
  | Some money => Ok (mn_currency money, total_nanos (fixed_point (mn_amount money)))
  | None => denied "CRITICAL_INPUT_MISSING" ("broker margin field " +:+ field +:+ " is missing")
  end.

Definition broker_margin_facts (value : CanonicalMarginAttributes) (broker_as_of_unix_ms : Z)
  : result RiskAdmissionError BrokerMarginFacts :=
  let? liquid := required_margin_money (ma_liquid_portfolio value) "liquid_portfolio" in
  let? starting := required_margin_money (ma_starting_margin value) "starting_margin" in
  let? minimal := required_margin_money (ma_minimal_margin value) "minimal_margin" in
  let? corrected := required_margin_money (ma_corrected_margin value) "corrected_margin" in
  let? missing := required_margin_money (ma_amount_of_missing_funds value) "amount_of_missing_funds" in
  let? futures := required_margin_money (ma_guarantee_for_futures value) "guarantee_for_futures" in
  if negb (bool_decide (liquid.1 = corrected.1))
  then denied "CRITICAL_INPUT_MISSING" "broker margin currencies are inconsistent"
  else
    let? ppm := transpose ((λ level,
      ok_or (checked I64 (Z.quot (total_nanos (fixed_point level)) 1000))
        (Denied "CRITICAL_INPUT_MISSING" "funds sufficiency level is out of range"))
      <$> ma_funds_sufficiency_level value) in
    Ok {| mf_liquid_portfolio_nanos := liquid.2; mf_starting_margin_nanos := starting.2;
          mf_minimal_margin_nanos := minimal.2; mf_corrected_margin_nanos := corrected.2;
          mf_funds_sufficiency_ppm := ppm; mf_amount_of_missing_funds_nanos := missing.2;
          mf_guarantee_for_futures_nanos := futures.2;
          mf_broker_as_of_unix_ms := broker_as_of_unix_ms |}.

Definition map_lot_limits (value : CanonicalMaxLots) : BrokerLotLimits :=
  let buy l := {| bl_max_lots := cb_max_lots l; bl_max_market_lots := cb_max_market_lots l |} in
  let sell l := {| sl_max_lots := cl_max_lots l |} in
  {| ll_buy_own := buy <$> cm_buy value; ll_buy_margin := buy <$> cm_buy_with_margin value;
     ll_sell_own := sell <$> cm_sell value; ll_sell_margin := sell <$> cm_sell_with_margin value |}.

Definition initial_policy : RiskPolicySet := {|
  po_revision := 1; po_state := State.ReduceOnly; po_allow_margin := false;
  po_require_provider_lot_limit := true; po_max_market_data_age_ms := None;
  po_max_single_order_lots := None; po_max_position_abs_lots := None;
  po_max_gross_exposure_nanos := None; po_max_net_exposure_abs_nanos := None;
  po_max_instrument_exposure_nanos := None; po_max_margin_utilization_ppm := None;
  po_max_daily_loss_nanos := None; po_protection_required_for_new_exposure := false;
  po_max_unprotected_duration_ms := None |}.

Definition notional_policy_enabled (p : RiskPolicySet) : bool :=
  is_some (po_max_gross_exposure_nanos p) || is_some (po_max_net_exposure_abs_nanos p)
  || is_some (po_max_instrument_exposure_nanos p).

Definition scaled_notional (requested_notional requested_delta approved_delta : Z)
  : result RiskAdmissionError Z :=
  let? requested_abs := ok_or (checked_abs I128 requested_delta)
    (UnavailableAdmission "requested quantity overflow") in
  let? approved_abs := ok_or (checked_abs I128 approved_delta)
    (UnavailableAdmission "approved quantity overflow") in
  if requested_abs =? 0 then Ok 0
  else ok_or (match checked_mul I128 requested_notional approved_abs with
              | Some value => checked_div I128 value requested_abs
              | None => None
              end) (UnavailableAdmission "approved notional overflow").

Definition map_purpose (p : RuntimeExecutionPurpose) : ExecutionPurpose :=
  match p with
  | Purpose.SandboxMutation => XPurpose.SandboxMutation
  | Purpose.ProductionManual => XPurpose.ProductionManual
  | Purpose.ProductionAutomated => XPurpose.ProductionAutomated
  end.

Definition risk_revision (unix_ms : Z) : result RiskAdmissionError Z :=
  ok_or (checked U64 unix_ms) (UnavailableAdmission "risk revision is out of range").

(** [max(0)] makes the conversion succeed. *)
Definition snapshot_revision (report : ReconciliationReport) : result RiskAdmissionError Z :=
  ok_or (checked U64 (Z.max 0 (rr_snapshot_observed_at_unix_ms report)))
    (UnavailableAdmission "snapshot revision invalid").

(** [max_by_key]: the last of the greatest. *)
Definition latest_plan (plans : list RiskProtectionPlanRow) : option RiskProtectionPlanRow :=
  fold_left (λ best p,
    match best with
    | Some b => if pn_created_at_unix_ms b <=? pn_created_at_unix_ms p then Some p else best
    | None => Some p
    end) (List.filter (λ p, negb (Plan.terminal (pn_state p))) plans) None.

(** ** The adapter *)

Section adapter.
Context {D F E : Type}.
Context `{!RuntimeStore D} `{!ClientFactory F} `{!Ambient E} `{UF : !UuidFormat} `{ET : !ErrorText}
  `{SD : !Serde RiskDecision} `{SP : !Serde RiskPolicySet}.

(** The fields that change, the broker behind the factory and the environment. *)
Record Adapter := {
  pa_snapshot : option ReconciliationReport;
  pa_instrument_cache : gmap string (Z * CanonicalRiskInstrument);
  pa_risk_store : RiskDb;
  pa_factory : F;
  pa_ambient : E;
}.

Definition put_snapshot (v : option ReconciliationReport) (a : Adapter) : Adapter := {|
  pa_snapshot := v; pa_instrument_cache := pa_instrument_cache a; pa_risk_store := pa_risk_store a;
  pa_factory := pa_factory a; pa_ambient := pa_ambient a |}.
Definition put_cache (v : gmap string (Z * CanonicalRiskInstrument)) (a : Adapter) : Adapter := {|
  pa_snapshot := pa_snapshot a; pa_instrument_cache := v; pa_risk_store := pa_risk_store a;
  pa_factory := pa_factory a; pa_ambient := pa_ambient a |}.
Definition put_store (v : RiskDb) (a : Adapter) : Adapter := {|
  pa_snapshot := pa_snapshot a; pa_instrument_cache := pa_instrument_cache a; pa_risk_store := v;
  pa_factory := pa_factory a; pa_ambient := pa_ambient a |}.
Definition put_factory (v : F) (a : Adapter) : Adapter := {|
  pa_snapshot := pa_snapshot a; pa_instrument_cache := pa_instrument_cache a;
  pa_risk_store := pa_risk_store a; pa_factory := v; pa_ambient := pa_ambient a |}.
Definition put_clock (v : E) (a : Adapter) : Adapter := {|
  pa_snapshot := pa_snapshot a; pa_instrument_cache := pa_instrument_cache a;
  pa_risk_store := pa_risk_store a; pa_factory := pa_factory a; pa_ambient := v |}.

Notation ad A := (st Adapter RiskAdmissionError A).

Definition with_store {Er A} (m : st RiskDb Er A) : st Adapter Er A := λ a,
  let '(db, r) := m (pa_risk_store a) in (put_store db a, r).
Definition with_broker {Er A} (m : st F Er A) : st Adapter Er A := λ a,
  let '(f, r) := m (pa_factory a) in (put_factory f a, r).
Definition query_risk {A} (q : RiskDb → result RiskStoreError A) : ad A := λ a,
  (a, map_err store_unavailable (q (pa_risk_store a))).

Definition risk_now : ad Z := λ a,
  let '(e, r) := am_now (pa_ambient a) in
  (put_clock e a, map_err (λ _, UnavailableAdmission "system clock is out of range") r).
Definition risk_uuid : ad string := λ a,
  let '(e, v) := am_uuid (pa_ambient a) in (put_clock e a, Ok v).

Context (canonical_account_id broker_connection_id : string).

Definition adapter_policy : ad RiskPolicySet :=
  let! found := query_risk (λ db, policy db canonical_account_id) in
  match found with
  | Some p => st_ret p
  | None =>
      let! now := risk_now in
      let! uuid := risk_uuid in
      st_map_err store_unavailable (with_store (put_policy uuid canonical_account_id None initial_policy
        "initialize fail-closed account policy" now))
  end.

Definition set_policy (revision : Z) (state : RiskState) (p : RiskPolicySet) : RiskPolicySet := {|
  po_revision := revision; po_state := state; po_allow_margin := po_allow_margin p;
  po_require_provider_lot_limit := po_require_provider_lot_limit p;
  po_max_market_data_age_ms := po_max_market_data_age_ms p;
  po_max_single_order_lots := po_max_single_order_lots p;
  po_max_position_abs_lots := po_max_position_abs_lots p;
  po_max_gross_exposure_nanos := po_max_gross_exposure_nanos p;
  po_max_net_exposure_abs_nanos := po_max_net_exposure_abs_nanos p;
  po_max_instrument_exposure_nanos := po_max_instrument_exposure_nanos p;
  po_max_margin_utilization_ppm := po_max_margin_utilization_ppm p;
  po_max_daily_loss_nanos := po_max_daily_loss_nanos p;
  po_protection_required_for_new_exposure := po_protection_required_for_new_exposure p;
  po_max_unprotected_duration_ms := po_max_unprotected_duration_ms p |}.

Definition replace_state (expected_revision : Z) (state : RiskState) (reason : string)
  : ad RiskPolicySet :=
  let! p := adapter_policy in
  if negb (po_revision p =? expected_revision)
  then st_fail (StaleAdmission "risk policy revision changed")
  else
    let! revision := st_lift (ok_or (checked_add U64 (po_revision p) 1)
      (UnavailableAdmission "policy revision overflow")) in
    let! now := risk_now in
    let! uuid := risk_uuid in
    st_map_err (λ e, match e with
                     | PolicyRevisionConflict => StaleAdmission "risk policy revision changed"
                     | other => store_unavailable other
                     end)
      (with_store (put_policy uuid canonical_account_id (Some expected_revision)
        (set_policy revision state p) reason now)).

Definition adapter_reservations : ad (list RiskReservation) :=
  query_risk (λ db, active_reservations db canonical_account_id).

Definition adapter_decision_for_request (logical_request_id : string) : ad (option RiskDecision) :=
  query_risk (λ db, decision_for_request_connection db canonical_account_id logical_request_id).

(** *** Facts of a request *)

(** The sum of the stops is a plain [sum::<i64>], which wraps. *)
Definition protection_status (report : ReconciliationReport) (instrument_id : string)
  : ad RiskProtectionStatus :=
  let position := List.find (λ p, bool_decide (pf_instrument_uid p = instrument_id))
                    (rr_positions report) in
  let stops := List.filter (λ s, bool_decide (sf_instrument_uid s = instrument_id)
                                 && StopSt.active (sf_status s)) (rr_active_stops report) in
  let! plans := query_risk (λ db, protection_plans_for_instrument db canonical_account_id instrument_id) in
  let plan := latest_plan plans in
  st_ret {|
    ps_active_stop_lots := wrap I64 (zsum (λ s, default 0 (sf_quantity_lots s)) stops);
    ps_position_lots := from_option pf_quantity_units 0 position;
    ps_position_entered_at_unix_ms := position ≫= pf_broker_observed_at_unix_ms;
    ps_plan_id := pn_plan_id <$> plan; ps_plan_state := pn_state <$> plan |}.

Definition instrument_constraints (instrument_id : string) (now : Z)
  : ad (CanonicalRiskInstrument * Z) :=
  let! a := st_get in
  let read :=
    let! value := st_map_err (Denied "INSTRUMENT_UNAVAILABLE")
      (with_broker (cf_instrument_constraints instrument_id)) in
    let! a := st_get in
    st_put (put_cache (<[instrument_id := (now, value)]> (pa_instrument_cache a)) a) ;;;
    let! revision := st_lift (risk_revision now) in
    st_ret (value, revision) in
  match pa_instrument_cache a !! instrument_id with
  | Some (cached_at, value) =>
      if saturating_sub I64 now cached_at <=? 1000 then
        let! revision := st_lift (risk_revision cached_at) in st_ret (value, revision)
      else read
  | None => read
  end.

Definition side_allowed (c : CanonicalRiskInstrument) (delta : Z) : bool :=
  let s := signum delta in
  if s =? 1 then ci_buy_available c else if s =? -1 then ci_sell_available c else false.

Definition order_type_allowed (c : CanonicalRiskInstrument) (t : option RegularOrderType) : bool :=
  match t with
  | Some Limit => ci_limit_order_available c
  | Some Market => ci_market_order_available c
  | Some BestPrice => ci_best_price_order_available c
  | None => true
  end.

(** The units held in an instrument. *)
Definition position_units (report : ReconciliationReport) (instrument_id : string)
  : result RiskAdmissionError Z :=
  try_fold (λ total p, ok_or (checked_add I64 total (pf_quantity_units p))
              (UnavailableAdmission "position quantity overflow")) 0
    (List.filter (λ p, bool_decide (pf_instrument_uid p = instrument_id)) (rr_positions report)).

Record InstrumentFacts := {
  if_tradable : bool;
  if_lot_size : Z;
  if_broker_lot_limits : option BrokerLotLimits;
  if_current_position_lots : Z;
  if_constraints_revision : Z;
}.

(** The read adapter refuses a lot size that is not positive, so the division is
    defined. *)
Definition directional_facts (scope : RuntimeScope) (report : ReconciliationReport)
    (description : CommandDescription) (now : Z) : ad InstrumentFacts :=
  let! constraints := instrument_constraints (cd_instrument_id description) now in
  let c := constraints.1 in
  let! units := st_lift (position_units report (cd_instrument_id description)) in
  if negb (Z.rem units (ci_lot_size c) =? 0)
  then st_fail (Denied "POSITION_LOT_MISMATCH" "broker position is not exactly divisible by instrument lot")
  else
    let! limits := st_map_err (Denied "PROVIDER_LIMIT_UNAVAILABLE") (with_broker
      (cf_max_lots (sc_broker_account_id scope) (cd_instrument_id description) (cd_price description))) in
    st_ret {|
      if_tradable := ci_api_trade_available c && side_allowed c (cd_delta_lots description)
                     && order_type_allowed c (cd_order_type description);
      if_lot_size := ci_lot_size c; if_broker_lot_limits := Some (map_lot_limits limits);
      if_current_position_lots := Z.quot units (ci_lot_size c);
      if_constraints_revision := constraints.2 |}.

Definition maintenance_facts : InstrumentFacts := {|
  if_tradable := true; if_lot_size := 1; if_broker_lot_limits := None; if_current_position_lots := 0;
  if_constraints_revision := 0 |}.

(** Open orders of the instrument, without the one that is replaced. *)
Definition open_order_delta (report : ReconciliationReport) (description : CommandDescription)
  : result RiskAdmissionError Z :=
  try_fold (λ total o,
      let? remaining := map_err (λ e, UnavailableAdmission
        ("broker open-order direction unavailable: " +:+ model_error_text e)) (signed_remaining_lots o) in
      ok_or (checked_add I64 total remaining) (UnavailableAdmission "open-order exposure overflow")) 0
    (List.filter (λ o, match cd_replaced_order_id description with
                       | None => true
                       | Some target => negb (names_order target o)
                       end)
       (List.filter (λ o, bool_decide (of_instrument_uid o = cd_instrument_id description))
          (rr_active_orders report))).

(** A mutation in doubt on the instrument. *)
Definition conflicts (instrument_id : string) (m : MutationRecord) : bool :=
  Journal.safety_unresolved (mr_state m)
  && bool_decide (ev_instrument_ref (mr_request_evidence m) = Some instrument_id).

Definition unresolved_of (d : D) (scope : RuntimeScope) : ad (list MutationRecord) :=
  st_lift (map_err (λ e, UnavailableAdmission (store_error_text e))
             (js_unresolved_mutations d (scope_key scope))).

Definition requested_notional (scope : RuntimeScope) (description : CommandDescription)
    (priced : bool) : ad Z :=
  match cd_price description with
  | Some price =>
      if priced then
        let! lots := st_lift (ok_or (checked I64 (unsigned_abs (cd_delta_lots description)))
          (Denied "INVALID_QUANTITY" "order quantity is not representable")) in
        let! estimate := st_map_err (Denied "PRICE_UNAVAILABLE") (with_broker
          (cf_limit_order_total (sc_broker_account_id scope) (cd_instrument_id description) price
             (if 0 <? cd_delta_lots description then Buy else Sell) lots)) in
        let! money := st_lift (ok_or estimate
          (Denied "PRICE_UNAVAILABLE" "broker limit-order estimate omitted total amount")) in
        let total := total_nanos (fixed_point (mn_amount money)) in
        if cd_delta_lots description <? 0
        then st_lift (ok_or (checked_neg I128 total) (UnavailableAdmission "order notional overflow"))
        else st_ret total
      else st_ret 0
  | None =>
      if priced
      then st_fail (Denied "PRICE_UNAVAILABLE" "price-dependent policy cannot validate this order type")
      else st_ret 0
  end.

Definition daily_pnl (report : ReconciliationReport) : result RiskAdmissionError (option Z) :=
  transpose ((λ m, ok_or (parse_int I128 (mo_amount_nanos m))
      (UnavailableAdmission ("broker daily_yield is invalid: " +:+ parse_error_text (mo_amount_nanos m))))
    <$> pt_broker_daily_yield (rr_portfolio report)).

Definition margin_facts (scope : RuntimeScope) (p : RiskPolicySet) (description : CommandDescription)
    (increasing_lots now : Z) : ad (option BrokerMarginFacts) :=
  if (0 <? increasing_lots)
     && (is_some (po_max_margin_utilization_ppm p)
         || po_allow_margin p && cd_confirm_margin_trade description)
  then
    let! attributes := st_map_err (Denied "CRITICAL_INPUT_MISSING")
      (with_broker (cf_margin_attributes (sc_broker_account_id scope))) in
    let! facts := st_lift (broker_margin_facts attributes now) in
    st_ret (Some facts)
  else st_ret None.

Definition require_snapshot (e : RiskAdmissionError) : ad ReconciliationReport :=
  let! a := st_get in st_lift (ok_or (pa_snapshot a) e).

Definition parse_connection (scope : RuntimeScope) : ad string :=
  st_lift (map_err (λ e, UnavailableAdmission (Meta.text e)) (ConnectionId_parse (sc_connection_ref scope))).

Definition execution_session (scope : RuntimeScope) (connection_id : string)
    (purpose : RuntimeExecutionPurpose) : ad Z :=
  let! a := st_get in
  st_lift (map_err (Denied "EXECUTION_UNAUTHORIZED")
    (cf_execution_session (pa_factory a) connection_id (sc_broker_account_id scope) (map_purpose purpose))).

Definition read_session (scope : RuntimeScope) (connection_id : string) : ad () :=
  let! a := st_get in
  st_lift (map_err UnavailableAdmission
    (cf_read_session (pa_factory a) connection_id (sc_broker_account_id scope))).

Definition build_request (d : D) (scope : RuntimeScope) (purpose : RuntimeExecutionPurpose)
    (command : RuntimeExecutionCommand) (logical_request_id : string) (p : RiskPolicySet)
  : ad RiskRequest :=
  let! report := require_snapshot
    (UnavailableAdmission "risk has no broker-authoritative reconciliation snapshot") in
  if rr_runtime_epoch report =? 0
  then st_fail (UnavailableAdmission "risk snapshot runtime epoch is invalid")
  else
    let! connection_id := parse_connection scope in
    let! authorization_revision := execution_session scope connection_id purpose in
    let! description := st_lift (command_description command report) in
    let! now := risk_now in
    let is_directional := directional (cd_action description) in
    read_session scope connection_id ;;;
    let! facts := (if is_directional then directional_facts scope report description now
                   else st_ret maintenance_facts) in
    let! open_delta := st_lift (open_order_delta report description) in
    let! unresolved := unresolved_of d scope in
    let! reserved := query_risk (λ db,
      active_reserved_delta db canonical_account_id (cd_instrument_id description)) in
    let! base := st_lift (ok_or (match checked_add I64 (if_current_position_lots facts) open_delta with
                                 | Some v => checked_add I64 v reserved
                                 | None => None
                                 end) (UnavailableAdmission "risk position overflow")) in
    let! increasing_lots := st_lift (increasing_portion base (cd_delta_lots description)) in
    let! notional := requested_notional scope description
      (is_directional && (0 <? increasing_lots) && notional_policy_enabled p) in
    let! revision := st_lift (snapshot_revision report) in
    let! pnl := st_lift (daily_pnl report) in
    let! margin := margin_facts scope p description increasing_lots now in
    let! protection := protection_status report (cd_instrument_id description) in
    st_ret {|
      rq_request_id := logical_request_id; rq_account_id := canonical_account_id;
      rq_broker_connection_id := broker_connection_id;
      rq_instrument_id := cd_instrument_id description; rq_strategy_id := None;
      rq_source := match purpose with
                   | Purpose.ProductionAutomated => Source.Strategy
                   | Purpose.SandboxMutation | Purpose.ProductionManual => Source.Manual
                   end;
      rq_action := cd_action description; rq_requested_delta_lots := cd_delta_lots description;
      rq_requested_notional_nanos := notional;
      rq_is_market_order := match cd_order_type description with Some Market => true | _ => false end;
      rq_confirm_margin_trade := cd_confirm_margin_trade description;
      rq_emergency_reduction := false; rq_now_unix_ms := now;
      rq_snapshot := {|
        sn_runtime_ready := bool_decide (rr_resulting_state report = Rt.Ready);
        sn_execution_authorized := true; sn_instrument_tradable := if_tradable facts;
        sn_instrument_lot_size := if_lot_size facts;
        sn_unresolved_unknown_conflict := existsb (conflicts (cd_instrument_id description)) unresolved;
        sn_current_position_lots := if_current_position_lots facts;
        sn_open_order_delta_lots := open_delta; sn_unresolved_unknown_delta_lots := 0;
        sn_active_reservation_delta_lots := reserved; sn_gross_exposure_nanos := None;
        sn_net_exposure_nanos := None; sn_instrument_exposure_nanos := None;
        sn_broker_daily_pnl_nanos := pnl; sn_broker_lot_limits := if_broker_lot_limits facts;
        sn_margin := margin; sn_protection := protection;
        sn_validity := {|
          vc_runtime_epoch := rr_runtime_epoch report; vc_reconciliation_revision := revision;
          vc_position_revision := revision; vc_order_revision := revision;
          vc_market_data_as_of_unix_ms := None;
          vc_instrument_constraints_revision := if_constraints_revision facts;
          vc_policy_revision := po_revision p;
          vc_execution_authorization_revision := authorization_revision |} |} |}.

(** *** The port *)

Definition admission_of (d : RiskDecision) (reservation : option RiskReservation) : RiskAdmission := {|
  ad_decision_id := rd_decision_id d; ad_reservation_id := rv_reservation_id <$> reservation;
  ad_policy_revision := rd_policy_revision d; ad_approved_delta_lots := rd_approved_delta_lots d |}.

(** An approval of the request that is already stored. *)
Definition replay (d : D) (scope : RuntimeScope) (command : RuntimeExecutionCommand)
    (logical_request_id : string) (existing : PersistedRiskApproval) : ad RiskAdmission :=
  if negb (bool_decide (rv_state (ap_reservation existing) = Resv.Active))
  then st_fail (StaleAdmission "logical request reservation is no longer dispatchable")
  else
    let! journalled := st_lift (map_err (λ e, UnavailableAdmission (store_error_text e))
      (js_mutation d (scope_key scope) logical_request_id)) in
    if is_some journalled
    then st_fail (StaleAdmission "logical request already entered runtime journal")
    else
      let! report := require_snapshot (StaleAdmission "risk snapshot disappeared") in
      let! description := st_lift (command_description command report) in
      if negb (bool_decide (cd_action description = rd_action (ap_decision existing)))
         || negb (bool_decide (cd_instrument_id description
                               = rv_instrument_id (ap_reservation existing)))
         || negb (cd_delta_lots description =? rd_requested_delta_lots (ap_decision existing))
      then st_fail (StaleAdmission "logical request replay changed risk semantics")
      else st_ret (admission_of (ap_decision existing) (Some (ap_reservation existing))).

Definition with_reservation (id : string) (d : RiskDecision) : RiskDecision := {|
  rd_decision_id := rd_decision_id d; rd_request_id := rd_request_id d;
  rd_policy_revision := rd_policy_revision d; rd_account_id := rd_account_id d;
  rd_action := rd_action d; rd_requested_delta_lots := rd_requested_delta_lots d;
  rd_approved_delta_lots := rd_approved_delta_lots d; rd_outcome := rd_outcome d;
  rd_reasons := rd_reasons d; rd_reservation_id := Some id;
  rd_expires_at_unix_ms := rd_expires_at_unix_ms d; rd_validity := rd_validity d |}.

Definition reservation_for (id : string) (request : RiskRequest) (d : RiskDecision) (notional : Z)
  : RiskReservation := {|
  rv_reservation_id := id; rv_account_id := rq_account_id request;
  rv_instrument_id := rq_instrument_id request; rv_strategy_id := rq_strategy_id request;
  rv_source := rq_source request; rv_logical_request_id := rq_request_id request;
  rv_reserved_delta_lots := rd_approved_delta_lots d;
  rv_remaining_delta_lots := rd_approved_delta_lots d; rv_reserved_notional_nanos := notional;
  rv_state := Resv.Active; rv_created_at_unix_ms := rq_now_unix_ms request;
  rv_updated_at_unix_ms := rq_now_unix_ms request; rv_expires_at_unix_ms := rd_expires_at_unix_ms d |}.

Definition capacity_of (p : RiskPolicySet) : ReservationCapacity := {|
  cap_max_account_reserved_notional_nanos := po_max_gross_exposure_nanos p;
  cap_max_instrument_reserved_abs_lots := po_max_position_abs_lots p |}.

(** A denial is recorded and reported with its first reason. *)
Definition deny (d : RiskDecision) : ad RiskAdmission :=
  st_map_err store_unavailable (with_store (put_decision d)) ;;;
  let reason := match rd_reasons d with
                | r :: _ => r
                | [] => RiskReason_new Reason.PersistenceFailure "risk denied"
                end in
  st_fail (Denied (risk_reason_code (rr_code reason)) (rr_message reason)).

(** A directional approval is stored with its reservation, against the capacity the
    policy leaves. *)
Definition reserve (p : RiskPolicySet) (request : RiskRequest) (d : RiskDecision) : ad RiskAdmission :=
  let! uuid := risk_uuid in
  let id := RiskReservation_new_id uuid in
  let! notional := st_lift (scaled_notional (rq_requested_notional_nanos request)
    (rq_requested_delta_lots request) (rd_approved_delta_lots d)) in
  let! persisted := st_map_err (λ e, match e with
      | CapacityExceeded => Denied "RESERVATION_CAPACITY_EXCEEDED"
                              "concurrent reservations consumed remaining capacity"
      | other => store_unavailable other
      end)
    (with_store (persist_approval_atomic (with_reservation id d) (reservation_for id request d notional)
       (capacity_of p))) in
  st_ret (admission_of (ap_decision persisted) (Some (ap_reservation persisted))).

Definition risk_admit (d : D) (scope : RuntimeScope) (purpose : RuntimeExecutionPurpose)
    (command : RuntimeExecutionCommand) (logical_request_id : string) : ad RiskAdmission :=
  let! existing := query_risk (λ db, approval_for_request db canonical_account_id logical_request_id) in
  match existing with
  | Some existing => replay d scope command logical_request_id existing
  | None =>
      let! p := adapter_policy in
      let! request := build_request d scope purpose command logical_request_id p in
      let! uuid := risk_uuid in
      let! decision := st_lift (map_err (λ e, UnavailableAdmission (engine_error_text e))
        (evaluate uuid p request)) in
      if negb (permits_dispatch decision) then deny decision
      else if directional (rq_action request) then reserve p request decision
      else
        st_map_err store_unavailable (with_store (put_decision decision)) ;;;
        st_ret (admission_of decision None)
  end.

(** The stored decision is the one the admission names. *)
Definition same_approval (logical_request_id : string) (admission : RiskAdmission) (decision : RiskDecision)
  : bool :=
  bool_decide (rd_request_id decision = logical_request_id)
  && bool_decide (rd_account_id decision = canonical_account_id)
  && (rd_policy_revision decision =? ad_policy_revision admission)
  && (rd_approved_delta_lots decision =? ad_approved_delta_lots admission)
  && bool_decide (rd_reservation_id decision = ad_reservation_id admission).

(** The approval has no deadline or it has not passed. *)
Definition check_expiry (decision : RiskDecision) : ad () :=
  match rd_expires_at_unix_ms decision with
  | None => st_ret tt
  | Some expires_at =>
      let! now := risk_now in
      if expires_at <? now then st_fail (StaleAdmission "risk approval expired") else st_ret tt
  end.

Definition same_watermark (report : ReconciliationReport) (revision : Z) (v : RiskValidityContext) : bool :=
  (rr_runtime_epoch report =? vc_runtime_epoch v) && (revision =? vc_reconciliation_revision v)
  && (revision =? vc_position_revision v) && (revision =? vc_order_revision v).

(** The instrument constraints of a directional command are the ones decided on. *)
Definition check_constraints (description : CommandDescription) (decision : RiskDecision) : ad () :=
  if directional (cd_action description) then
    let! a := st_get in
    let! cached := st_lift (transpose
      ((λ c, risk_revision c.1) <$> (pa_instrument_cache a !! cd_instrument_id description))) in
    let! current := st_lift (ok_or cached (StaleAdmission "instrument constraints disappeared")) in
    if negb (current =? vc_instrument_constraints_revision (rd_validity decision))
    then st_fail (StaleAdmission "instrument constraint revision changed") else st_ret tt
  else st_ret tt.

Definition validate_before_dispatch (d : D) (scope : RuntimeScope) (purpose : RuntimeExecutionPurpose)
    (command : RuntimeExecutionCommand) (logical_request_id : string) (admission : RiskAdmission) : ad () :=
  let! found := query_risk (λ db, decision_by_id_connection db (ad_decision_id admission)) in
  let! decision := st_lift (ok_or found (StaleAdmission "risk decision disappeared")) in
  if negb (same_approval logical_request_id admission decision)
  then st_fail (StaleAdmission "persisted risk approval does not match dispatch")
  else
    check_expiry decision ;;;
    let! p := adapter_policy in
    if negb (po_revision p =? vc_policy_revision (rd_validity decision))
    then st_fail (StaleAdmission "risk policy revision changed")
    else
      let! connection_id := parse_connection scope in
      let! authorization_revision := execution_session scope connection_id purpose in
      if negb (authorization_revision =? vc_execution_authorization_revision (rd_validity decision))
      then st_fail (StaleAdmission "execution authorization revision changed")
      else
        let! report := require_snapshot (StaleAdmission "risk snapshot disappeared") in
        let! revision := st_lift (snapshot_revision report) in
        if negb (same_watermark report revision (rd_validity decision))
        then st_fail (StaleAdmission "broker account-state watermark changed")
        else
          let! description := st_lift (command_description command report) in
          if negb (cd_delta_lots description =? rd_approved_delta_lots decision)
             || negb (bool_decide (cd_action description = rd_action decision))
          then st_fail (StaleAdmission "approved command semantics changed")
          else
            check_constraints description decision ;;;
            let! unresolved := unresolved_of d scope in
            if existsb (λ m, negb (bool_decide (mr_logical_request_id m = logical_request_id))
                             && conflicts (cd_instrument_id description) m) unresolved
            then st_fail (StaleAdmission "conflicting UNKNOWN_AFTER_DISPATCH mutation appeared")
            else st_ret tt.

Definition record_dispatch_outcome (logical_request_id : string) (outcome : RiskDispatchOutcome) : ad () :=
  let! now := risk_now in
  let operation := match outcome with
    | RiskOut.Acknowledged => dispatch_acknowledged canonical_account_id logical_request_id
    | RiskOut.Rejected => broker_authoritative_reject canonical_account_id logical_request_id now
    | RiskOut.UnknownAfterDispatch => unknown_after_dispatch canonical_account_id logical_request_id now
    end in
  λ a, let '(a', r) := with_store operation a in
       (a', match r with
            | Ok _ | Err ReconcileReservationNotFound => Ok tt
            | Err e => Err (UnavailableAdmission (reconcile_error_text e))
            end).

(** What the report says of one reservation. *)
Definition reconcile_reservation (report : ReconciliationReport) (r : RiskReservation) : ad () :=
  let q := rv_logical_request_id r in
  let now := rr_completed_at_unix_ms report in
  let apply m := (let! _ := st_map_err (λ e, UnavailableAdmission (reconcile_error_text e))
                    (with_store m) in st_ret tt) in
  if bool_decide (q ∈ rr_unresolved_logical_request_ids report)
  then apply (unknown_after_dispatch canonical_account_id q now)
  else match List.find (λ o, bool_decide (of_logical_request_id o = Some q)) (rr_active_orders report) with
       | Some order =>
           let! lots := st_lift (map_err (λ e, UnavailableAdmission (model_error_text e))
             (signed_remaining_lots order)) in
           apply (runtime_reconciliation canonical_account_id q lots now)
       | None => apply (broker_authoritative_no_remaining_exposure canonical_account_id q now)
       end.

Fixpoint reconcile_reservations (report : ReconciliationReport) (l : list RiskReservation) : ad () :=
  match l with
  | [] => st_ret tt
  | r :: l' => reconcile_reservation report r ;;; reconcile_reservations report l'
  end.

Definition risk_reconcile (report : ReconciliationReport) : ad () :=
  let! a := st_get in
  st_put (put_snapshot (Some report) a) ;;;
  let! active := adapter_reservations in
  reconcile_reservations report active.

#[export] Instance ProductionRiskAdapter : RiskAdmissionPort D Adapter := {|
  ri_admit := risk_admit;
  ri_record_dispatch_outcome _ _ := record_dispatch_outcome;
  ri_validate_before_dispatch := validate_before_dispatch;
  ri_reconcile _ _ := risk_reconcile |}.
End adapter.
Arguments Adapter : clear implicits.

(** ** What leaves the store alone *)

Section quiet.
Context {F E : Type}.
Notation Adapter := (Adapter F E).

(** A relation of states that the cache, the broker and the clock do not enter. *)
Class Outward (R : Adapter → Adapter → Prop) := {
  out_refl :: Reflexive R;
  out_trans :: Transitive R;
  out_cache : ∀ v a, R a (put_cache v a);
  out_factory : ∀ v a, R a (put_factory v a);
  out_clock : ∀ v a, R a (put_clock v a);
}.

(** The store and the report are as they were. *)
Definition untouched (a a' : Adapter) : Prop :=
  pa_risk_store a' = pa_risk_store a ∧ pa_snapshot a' = pa_snapshot a.

(** The reservations, the decisions and the report are as they were. *)
Definition at_rest (a a' : Adapter) : Prop :=
  db_reservations (pa_risk_store a') = db_reservations (pa_risk_store a) ∧
  db_decisions (pa_risk_store a') = db_decisions (pa_risk_store a) ∧
  pa_snapshot a' = pa_snapshot a.

#[export] Instance untouched_outward : Outward untouched.
Proof.
  constructor; try by constructor.
  intros a b c [H1 H2] [H3 H4]. split; congruence.
Qed.
#[export] Instance at_rest_outward : Outward at_rest.
Proof.
  constructor; try by constructor.
  intros a b c (H1 & H2 & H3) (H4 & H5 & H6). split_and!; congruence.
Qed.

Lemma untouched_at_rest a a' : untouched a a' → at_rest a a'.
Proof. intros [H1 H2]. unfold at_rest. by rewrite H1, H2. Qed.

Context (R : Adapter → Adapter → Prop) `{!Outward R} `{!Ambient E} `{ET : !ErrorText}.

Lemma quiet_bind {Er A B} (m : st Adapter Er A) (k : A → st Adapter Er B) :
  st_effect R m → (∀ a, st_effect R (k a)) → st_effect R (st_bind m k).
Proof. apply effect_bind, _. Qed.
Lemma quiet_ret {Er A} (a : A) : st_effect (E:=Er) R (st_ret a).
Proof. apply effect_ret, _. Qed.
Lemma quiet_fail {Er A} (e : Er) : st_effect (A:=A) R (st_fail e).
Proof. apply effect_fail, _. Qed.
Lemma quiet_lift {Er A} (x : result Er A) : st_effect R (st_lift x).
Proof. apply effect_lift, _. Qed.
Lemma quiet_get {Er} : st_effect (E:=Er) R st_get.
Proof. apply effect_get, _. Qed.
Lemma quiet_map_err {Er G A} (f : Er → G) (m : st Adapter Er A) :
  st_effect R m → st_effect R (st_map_err f m).
Proof.
  intros Hm w w' r H. unfold st_map_err in H. destruct (m w) as [w1 r1] eqn:H1. simplify_eq. by eapply Hm.
Qed.
Lemma quiet_query {A} (q : RiskDb → result RiskStoreError A) : st_effect R (query_risk q).
Proof. intros a a' r H. unfold query_risk in H. by simplify_eq. Qed.
Lemma quiet_broker {Er A} (m : st F Er A) : st_effect R (with_broker m).
Proof. intros a a' r H. unfold with_broker in H. destruct (m _). simplify_eq. apply out_factory. Qed.
Lemma quiet_now : st_effect R risk_now.
Proof. intros a a' r H. unfold risk_now in H. destruct (am_now _). simplify_eq. apply out_clock. Qed.
Lemma quiet_uuid : st_effect R risk_uuid.
Proof. intros a a' r H. unfold risk_uuid in H. destruct (am_uuid _). simplify_eq. apply out_clock. Qed.
Lemma quiet_cache {Er} f : st_effect (E:=Er) R (let! a := st_get in st_put (put_cache (f a) a)).
Proof. intros a a' r H. unfold st_put, st_bind, st_get in H. simplify_eq. apply out_cache. Qed.
End quiet.

Create HintDb quiet discriminated.
#[export] Hint Resolve quiet_ret quiet_fail quiet_lift quiet_get quiet_query quiet_broker quiet_now
  quiet_uuid quiet_cache : quiet.
#[export] Hint Extern 1 (Outward _) => exact _ : quiet.

Ltac walk_outward :=
  repeat first
    [ solve [eauto 3 with quiet]
    | apply quiet_bind; [exact _| |intros ?]
    | apply quiet_map_err
    | progress intros
    | case_match ].

Section quiet_methods.
Context {D F E : Type}.
Context `{!RuntimeStore D} `{!ClientFactory F} `{!Ambient E} `{UF : !UuidFormat} `{ET : !ErrorText}
  `{SD : !Serde RiskDecision} `{SP : !Serde RiskPolicySet}.
Notation Adapter := (Adapter F E).
Context (account connection : string) (R : Adapter → Adapter → Prop) `{!Outward R}.

Lemma quiet_snapshot e : st_effect R (require_snapshot e).
Proof. unfold require_snapshot. walk_outward. Qed.
Lemma quiet_connection scope : st_effect R (parse_connection scope).
Proof. unfold parse_connection. walk_outward. Qed.
Lemma quiet_execution scope c p : st_effect R (execution_session scope c p).
Proof. unfold execution_session. walk_outward. Qed.
Lemma quiet_unresolved (d : D) scope : st_effect R (unresolved_of d scope).
Proof. unfold unresolved_of. walk_outward. Qed.
Hint Resolve quiet_snapshot quiet_connection quiet_execution quiet_unresolved : quiet.

Lemma quiet_constraints i now : st_effect R (instrument_constraints i now).
Proof.
  unfold instrument_constraints. apply quiet_bind; [exact _|walk_outward|intros a].
  assert (st_effect R (let! value := st_map_err (Denied "INSTRUMENT_UNAVAILABLE")
      (with_broker (cf_instrument_constraints i)) in
    let! a := st_get in
    st_put (put_cache (<[i := (now, value)]> (pa_instrument_cache a)) a) ;;;
    let! revision := st_lift (risk_revision now) in
    st_ret (value, revision) : st Adapter RiskAdmissionError _)) as Hread.
  { apply quiet_bind; [exact _|walk_outward|intros value]. intros s s' r H.
    unfold st_put, st_bind, st_get, st_lift, st_ret in H.
    destruct (risk_revision now); injection H as <- _; apply out_cache. }
  destruct (_ !! i) as [[c v]|]; [|exact Hread]. destruct (_ <=? _); [walk_outward|exact Hread].
Qed.
Hint Resolve quiet_constraints : quiet.

Lemma quiet_build (d : D) scope purpose command id p :
  st_effect R (build_request account connection d scope purpose command id p).
Proof.
  unfold build_request, directional_facts, requested_notional, margin_facts, protection_status,
    read_session. walk_outward.
Qed.

Lemma quiet_replay (d : D) scope command id existing : st_effect R (replay d scope command id existing).
Proof. unfold replay. walk_outward. Qed.

Lemma quiet_expiry decision : st_effect R (check_expiry decision).
Proof. unfold check_expiry. walk_outward. Qed.
Lemma quiet_check_constraints desc decision : st_effect R (check_constraints desc decision).
Proof. unfold check_constraints. walk_outward. Qed.
End quiet_methods.

#[export] Hint Resolve quiet_snapshot quiet_connection quiet_execution quiet_unresolved quiet_build
  quiet_replay quiet_expiry quiet_check_constraints : quiet.

Section policy.
Context {D F E : Type}.
Context `{!RuntimeStore D} `{!ClientFactory F} `{!Ambient E} `{UF : !UuidFormat} `{ET : !ErrorText}
  `{SD : !Serde RiskDecision} `{SP : !Serde RiskPolicySet}.
Notation Adapter := (Adapter F E).
Context (account connection : string).

Lemma put_policy_tables uuid acct expected p reason now db db' r :
  put_policy uuid acct expected p reason now db = (db', r) →
  db_reservations db' = db_reservations db ∧ db_decisions db' = db_decisions db.
Proof.
  unfold put_policy. destruct (_ || _); [unfold st_fail; by intros [= <- _]|].
  unfold put_policy_tx, insert_policy_audit. st_unfold. intros H. simpl in H.
  repeat case_match; by simplify_eq/=.
Qed.

Lemma rests_put_policy uuid acct expected p reason now :
  st_effect at_rest (with_store (put_policy uuid acct expected p reason now) : st Adapter _ _).
Proof.
  intros a a' r H. unfold with_store in H. destruct (put_policy _ _ _ _ _ _ _) as [db r'] eqn:Hp.
  injection H as <- _. destruct (put_policy_tables _ _ _ _ _ _ _ _ _ Hp). by split.
Qed.
Hint Resolve rests_put_policy : quiet.

Lemma rests_policy : st_effect at_rest (adapter_policy account : st Adapter _ _).
Proof. unfold adapter_policy. walk_outward. Qed.
Hint Resolve rests_policy : quiet.

Lemma rests_validate (d : D) scope purpose command id adm :
  st_effect at_rest (validate_before_dispatch account d scope purpose command id adm : st Adapter _ _).
Proof. unfold validate_before_dispatch. walk_outward. Qed.
End policy.

(** ** What a permitted decision says *)

Lemma evaluate_fields uuid p r d :
  evaluate uuid p r = Ok d → permits_dispatch d = true →
  rd_decision_id d = RiskDecision_new_id uuid ∧ rd_request_id d = rq_request_id r ∧
  rd_account_id d = rq_account_id r ∧ rd_action d = rq_action r ∧ rd_reservation_id d = None ∧
  (if directional (rq_action r)
   then rd_requested_delta_lots d = rq_requested_delta_lots r ∧
        partial_fill (rd_approved_delta_lots d) (rq_requested_delta_lots r)
   else rd_approved_delta_lots d = 0).
Proof.
  intros He Hp. destruct (directional (rq_action r)) eqn:Hd.
  - destruct (evaluate_directional _ _ _ _ He Hp Hd) as (base & proj & inc & _ & _ & Hpf & Hs & _).
    unfold size_and_decide in Hs. destruct (abs_lots _) as [q|]; [|done].
    destruct (size_to_policy _ _) as [s1|]; [|done].
    destruct (size_to_provider _ _ _ _ _) as [[dd|[n why]]|] eqn:Hsz; [| |done].
    + injection Hs as ->. unfold size_to_provider in Hsz. branches; by unfold permits_dispatch in Hp.
    + unfold final_decision in Hs. destruct (n =? 0); [injection Hs as <-; by unfold permits_dispatch in Hp|].
      destruct (ok_or _ _) as [lots|]; [|done].
      match type of Hs with match ?x with _ => _ end = _ => destruct x; [|done] end. by injection Hs as <-.
  - destruct (evaluate_permitted _ _ _ _ He Hp) as (base & proj & inc & _ & [[_ Hm]|[Hd' _]]); [|congruence].
    unfold approve_maintenance in Hm. rewrite Hd in Hm. by injection Hm as <-.
Qed.

(** ** Commands and their descriptions *)

(** The quantity of a command is an [i64]. *)
Definition command_typed (c : RuntimeExecutionCommand) : Prop :=
  match c with
  | RegularOrder o | PostOrderAsync o => has_ty I64 (ro_quantity_lots o)
  | ReplaceOrder o => has_ty I64 (rp_quantity_lots o)
  | _ => True
  end.

(** The same command with a quantity of at most what was asked for. *)
Definition reduced_to (approved : Z) (c c' : RuntimeExecutionCommand) : Prop :=
  match c with
  | RegularOrder o => c' = RegularOrder (with_quantity (Z.abs approved) o)
                      ∧ 0 < Z.abs approved ≤ ro_quantity_lots o
  | PostOrderAsync o => c' = PostOrderAsync (with_quantity (Z.abs approved) o)
                        ∧ 0 < Z.abs approved ≤ ro_quantity_lots o
  | ReplaceOrder o => c' = ReplaceOrder (with_replacement_quantity (Z.abs approved) o)
                      ∧ 0 < Z.abs approved ≤ rp_quantity_lots o
  | _ => c' = c ∧ approved = 0
  end.

Lemma signed_lots_Ok side lots v :
  signed_lots side lots = Ok v →
  0 < lots ∧ v = match side with Buy => lots | Sell => - lots end.
Proof.
  unfold signed_lots. destruct (Z.leb_spec lots 0); [done|].
  destruct side; [by intros [= <-]|]. intros H1%ok_or_Ok%checked_Some. lia.
Qed.

Lemma signed_lots_again side lots approved v :
  has_ty I64 lots → signed_lots side lots = Ok v → partial_fill approved v → approved ≠ 0 →
  signed_lots side (Z.abs approved) = Ok approved ∧ checked I64 (unsigned_abs approved) = Some (Z.abs approved)
  ∧ 0 < Z.abs approved ≤ lots ∧ signum approved = match side with Buy => 1 | Sell => -1 end.
Proof.
  intros Hty [Hpos ->]%signed_lots_Ok Hpf Hnz. unfold partial_fill in Hpf.
  unfold signed_lots. assert (Z.abs approved <=? 0 = false) as -> by lia.
  destruct side; split_and!; try (apply checked_Some; int_lia); try (int_lia).
  - f_equal. lia.
  - apply ok_or_Ok, checked_Some. int_lia.
Qed.

(** A description is directional exactly for the commands that bear exposure. *)
Lemma description_directional command report desc :
  command_description command report = Ok desc →
  directional (cd_action desc) = exposure_bearing command ∧
  (exposure_bearing command = false → cd_delta_lots desc = 0).
Proof.
  destruct command as [o|o|o|o|o|o|o]; simpl; unfold describe_order; intros H; branches.
Qed.

(** The approved command is accepted, and described again it moves what was approved. *)
Lemma approval_applies command report desc approved :
  command_typed command → command_description command report = Ok desc →
  (if exposure_bearing command then partial_fill approved (cd_delta_lots desc) ∧ approved ≠ 0
   else approved = 0) →
  ∃ command' desc', apply_risk_approval command approved = Ok command' ∧
    reduced_to approved command command' ∧ command_description command' report = Ok desc' ∧
    cd_delta_lots desc' = approved ∧ cd_action desc' = cd_action desc.
Proof.
  destruct command as [o|o|o|o|o|o|o]; simpl; intros Hty H Hap.
  1,2: unfold describe_order in H; destruct (signed_lots _ _) as [delta|] eqn:Hs; [|done]; simplify_eq/=;
    destruct Hap as [Hpf Hnz]; destruct (signed_lots_again _ _ _ _ Hty Hs Hpf Hnz) as (Ha & Hc & Hb & Hsg);
    unfold approve_order; rewrite Hsg, Hc; unfold describe_order; destruct (ro_side o) eqn:Hside; simpl;
    eexists _, _; (split; [reflexivity|]); simpl; (split; [done|]); unfold describe_order; simpl;
    rewrite Hside, Ha; done.
  - destruct (ok_or (List.find _ _) _) as [ex|] eqn:Hf; [|done]. destruct (of_side ex) as [side|] eqn:Hsd; [|done].
    simpl in H. destruct (signed_lots _ _) as [delta|] eqn:Hs; [|done]. simplify_eq/=.
    destruct Hap as [Hpf Hnz]. destruct (signed_lots_again _ _ _ _ Hty Hs Hpf Hnz) as (Ha & Hc & Hb & Hsg).
    rewrite Hc. eexists _, _. split; [done|]. split; [done|]. simpl. rewrite Hf, Hsd. simpl. by rewrite Ha.
  - subst. simpl. eexists _, _. split_and!; try done. by simplify_eq.
  - subst. simpl. eexists _, _. split_and!; try done. by simplify_eq.
  - subst. simpl. eexists _, _. split_and!; try done. by simplify_eq.
  - subst. simpl. eexists _, _. split_and!; try done. by simplify_eq.
Qed.

(** ** The ledger behind the adapter *)

(** An approval the adapter stores. *)
Definition decision_sound (d : RiskDecision) : Prop := ∀ id,
  permits_dispatch d = true → rd_reservation_id d = Some id →
  is_blank (rd_decision_id d) = false ∧ id ≠ ""%string ∧ directional (rd_action d) = true ∧
  partial_fill (rd_approved_delta_lots d) (rd_requested_delta_lots d).

(** A change of one open reservation of the account, by evidence there is of its
    request. *)
Inductive ledger_step (account : string) (known : string → RiskReconcile.evidence → Prop)
  : list RiskReservation → list RiskReservation → Prop :=
| ledger_evidence e expected rem state now r rs :
    rv_account_id r = account → known (rv_logical_request_id r) e → change e r expected rem state →
    r ∈ rs → holds_capacity (rv_state r) = true →
    ledger_step account known rs (update_where (by_key rv_reservation_id (rv_reservation_id r))
                              (set_remaining rem state now) rs).

(** A new reservation, for a request that had none, within the limits of the policy. *)
Record granted (account id : string) (p : RiskPolicySet) (r : RiskReservation)
    (rs rs' : list RiskReservation) : Prop := {
  gr_ledger : rs' = rs ++ [r];
  gr_request : rv_account_id r = account ∧ rv_logical_request_id r = id ∧
    List.find (for_request account id) rs = None;
  gr_active : rv_state r = Resv.Active ∧ rv_remaining_delta_lots r = rv_reserved_delta_lots r
    ∧ rv_reserved_delta_lots r ≠ 0;
  gr_lots : ∀ lots, po_max_position_abs_lots p = Some lots →
    reserved_lots account (rv_instrument_id r) rs' ≤ lots;
  gr_notional : ∀ amount, po_max_gross_exposure_nanos p = Some amount →
    reserved_notional account rs' ≤ amount;
}.

Section ledger.
Context {D F E : Type}.
Context `{!RuntimeStore D} `{!ClientFactory F} `{!Ambient E} `{UF : !UuidFormat} `{ET : !ErrorText}
  `{SD : !Serde RiskDecision} `{SP : !Serde RiskPolicySet}
  `{LD : !SerdeLaws RiskDecision} `{LP : !SerdeLaws RiskPolicySet}.
Notation Adapter := (Adapter F E).
Context (account connection : string).

(** The reservations of the adapter's store. *)
Definition ledger (a : Adapter) : list RiskReservation := reservations (pa_risk_store a).

Definition sound (db : RiskDb) (rs : list RiskReservation) (ds : list RiskDecision) : Prop :=
  holds db rs ∧ decides db ds ∧ Forall resv_ok rs ∧ Forall decision_sound ds.

Definition adapter_inv (a : Adapter) : Prop := ∃ rs ds, sound (pa_risk_store a) rs ds.

Lemma ledger_holds (a : Adapter) rs : holds (pa_risk_store a) rs → ledger a = rs.
Proof. apply table_reservations_holds. Qed.

Lemma sound_tables db db' rs ds :
  db_reservations db' = db_reservations db → db_decisions db' = db_decisions db →
  sound db rs ds → sound db' rs ds.
Proof.
  intros H1 H2 ([] & [] & ? & ?). split; [constructor; congruence|split; [constructor; congruence|done]].
Qed.

(** A step at rest keeps the invariant and the ledger. *)
Lemma rest_kept (a a' : Adapter) : at_rest a a' → adapter_inv a → adapter_inv a' ∧ ledger a' = ledger a.
Proof.
  intros (H1 & H2 & _) (rs & ds & Hs). pose proof (sound_tables _ _ _ _ H1 H2 Hs) as Hs'.
  split; [by exists rs, ds|]. destruct Hs as [Hh _], Hs' as [Hh' _].
  by rewrite (ledger_holds _ _ Hh), (ledger_holds _ _ Hh').
Qed.

Lemma sound_risk_inv db rs ds : sound db rs ds → risk_inv db.
Proof.
  intros (Hh & Hd & Hok & _). split; [by exists rs, ds|].
  change (reservations db) with (table_reservations db). by rewrite (table_reservations_holds _ _ Hh).
Qed.

(** *** Evidence *)

Lemma update_decisions id expected rem state now (db db' : RiskDb) r :
  update_reservation id expected rem state now db = (db', r) → db_decisions db' = db_decisions db.
Proof. unfold update_reservation. st_unfold. intros H. simpl in H. repeat case_match; by simplify_eq/=. Qed.

Lemma evidence_decisions e q now (db db' : RiskDb) r :
  reconcile_with e account q now db = (db', r) → db_decisions db' = db_decisions db.
Proof.
  intros [(err & _ & ->)|(v & _ & H)]%reconcile_with_inv; [done|].
  destruct (apply_evidence_writes e now v db) as [[H1 _]|(ex & rem & st & _ & Hu)]; rewrite H in *.
  - simpl in H1. by subst.
  - unfold update, st_map_err in Hu. simpl in Hu.
    destruct (update_reservation _ _ _ _ _ _) as [db1 r1] eqn:H1. injection Hu as <- _.
    by apply update_decisions in H1.
Qed.

(** An operation of the reconciler is at most one change of the reservation of its
    request, by its evidence. *)
Lemma evidence_kept e q now (a a' : Adapter) r :
  with_store (reconcile_with e account q now) a = (a', r) → adapter_inv a →
  adapter_inv a' ∧ pa_snapshot a' = pa_snapshot a ∧
  (ledger a' = ledger a ∨ ledger_step account (λ q' e', q' = q ∧ e' = e) (ledger a) (ledger a')).
Proof.
  unfold with_store. destruct (reconcile_with e account q now (pa_risk_store a)) as [db1 r1] eqn:H1.
  intros [= <- <-] (rs & ds & Hs). pose proof (sound_risk_inv _ _ _ Hs) as Hi.
  pose proof (evidence_decisions _ _ _ _ _ _ H1) as Hdec.
  destruct (managed_evidence_capacity _ _ _ _ _ _ _ account account Hi H1) as [[Hinv' Hok'] _].
  destruct (reconcile_with_effect _ _ _ _ _ _ _ (proj1 Hi) (risk_inv_typed _ Hi) H1) as [_ Heff].
  destruct Hinv' as (rs' & ds' & Hh' & Hd'). split; [|split; [done|]].
  - exists rs', ds. destruct Hs as (_ & Hd & _ & Hds). split; [done|]. split.
    { destruct Hd. constructor; [|done..]. simpl. by rewrite Hdec. }
    split; [|done]. change (reservations db1) with (table_reservations db1) in Hok'.
    by rewrite (table_reservations_holds _ _ Hh') in Hok'.
  - unfold ledger. cbn [pa_risk_store put_store]. destruct Heff as [[Heq _]|(ex & rem & st & v & Hch & Hreq & Hf & Hh & _ & Heq)].
    + by left.
    + right. rewrite Heq. apply find_by_key in Hreq as [Hin Hk]. injection Hk as Hka Hkq.
      by apply (ledger_evidence _ _ e ex rem st now v).
Qed.

Lemma ledger_step_weaken (known known' : string → RiskReconcile.evidence → Prop) rs rs' :
  (∀ q e, known q e → known' q e) → ledger_step account known rs rs' → ledger_step account known' rs rs'.
Proof. intros Hpq H. destruct H. econstructor; eauto. Qed.
End ledger.

(** ** Admission *)

Ltac run_Ok H := repeat (apply st_bind_Ok in H as (? & ? & ? & H)).

(** What an admission of [command] promises: a named decision, and for a command that
    bears exposure an active reservation of exactly the approved lots, at most what
    was asked for and in its direction. *)
Definition honours (account id : string) (command : RuntimeExecutionCommand) (report : ReconciliationReport)
    (rs : list RiskReservation) (adm : RiskAdmission) : Prop :=
  ∃ desc, command_description command report = Ok desc ∧ is_blank (ad_decision_id adm) = false ∧
    if exposure_bearing command
    then partial_fill (ad_approved_delta_lots adm) (cd_delta_lots desc) ∧ ad_approved_delta_lots adm ≠ 0 ∧
      ∃ v, v ∈ rs ∧ request_key v = (account, id) ∧ rv_state v = Resv.Active ∧
        ad_reservation_id adm = Some (rv_reservation_id v) ∧ rv_reservation_id v ≠ ""%string ∧
        rv_reserved_delta_lots v = ad_approved_delta_lots adm
    else ad_approved_delta_lots adm = 0 ∧ ad_reservation_id adm = None.

Lemma permits_directional d :
  permits_dispatch d = true → directional (rd_action d) = true → rd_approved_delta_lots d ≠ 0.
Proof. unfold permits_dispatch, directional. intros H1 H2. repeat case_match; try done; lia. Qed.

Lemma description_typed command report desc :
  command_typed command → command_description command report = Ok desc → has_ty I64 (cd_delta_lots desc).
Proof.
  assert (∀ side lots v, has_ty I64 lots → signed_lots side lots = Ok v → has_ty I64 v) as Hs.
  { intros side lots v Hty [Hp ->]%signed_lots_Ok. destruct side; int_lia. }
  destruct command as [o|o|o|o|o|o|o]; simpl; unfold describe_order; intros Hty H.
  1,2: destruct (signed_lots _ _) eqn:H1; simplify_eq/=; by eapply Hs.
  - destruct (ok_or _ _); [|done]. destruct (ok_or _ _); [|done]. simpl in H.
    destruct (signed_lots _ _) eqn:H1; simplify_eq/=. by eapply Hs.
  - by simplify_eq/=.
  - by simplify_eq/=.
  - by simplify_eq/=.
  - by simplify_eq/=.
Qed.

Lemma scaled_notional_typed n r q v : scaled_notional n r q = Ok v → has_ty I128 v.
Proof.
  unfold scaled_notional. intros H. destruct (ok_or _ _); [|done]. simpl in H.
  destruct (ok_or _ _); [|done]. simpl in H. destruct (_ =? 0); [by simplify_eq|].
  apply ok_or_Ok in H. destruct (checked_mul _ _ _); [|done]. unfold checked_div in H.
  destruct (_ =? 0); [done|]. by apply checked_Some in H as [-> ?].
Qed.

Section admission.
Context {D F E : Type}.
Context `{!RuntimeStore D} `{!ClientFactory F} `{!Ambient E} `{UF : !UuidFormat} `{ET : !ErrorText}
  `{SD : !Serde RiskDecision} `{SP : !Serde RiskPolicySet}
  `{LD : !SerdeLaws RiskDecision} `{LP : !SerdeLaws RiskPolicySet}.
Notation Adapter := (Adapter F E).
Context (account connection : string).

Lemma require_snapshot_Ok e (a a' : Adapter) report :
  require_snapshot e a = (a', Ok report) → a' = a ∧ pa_snapshot a = Some report.
Proof.
  unfold require_snapshot, st_get, st_bind, st_lift. intros [= <- H]. split; [done|].
  by apply ok_or_Ok in H.
Qed.

(** A request says of the command what its description against the report says. *)
Lemma build_request_Ok (d : D) scope purpose command id p (a a' : Adapter) r :
  build_request account connection d scope purpose command id p a = (a', Ok r) →
  ∃ report desc, pa_snapshot a = Some report ∧ command_description command report = Ok desc ∧
    rq_request_id r = id ∧ rq_account_id r = account ∧ rq_instrument_id r = cd_instrument_id desc ∧
    rq_action r = cd_action desc ∧ rq_requested_delta_lots r = cd_delta_lots desc.
Proof.
  unfold build_request. intros H. apply st_bind_Ok in H as (a1 & report & [-> Hr]%require_snapshot_Ok & H).
  destruct (rr_runtime_epoch report =? 0); [done|].
  do 2 (apply st_bind_Ok in H as (? & ? & _ & H)).
  apply st_bind_Ok in H as (? & desc & Hd & H). run_Ok H.
  unfold st_lift in Hd. unfold st_ret in H. simplify_eq. by exists report, desc.
Qed.

(** No request asks for an emergency reduction, so the engine's emergency branches
    are never taken. *)
Lemma build_request_never_emergency (d : D) scope purpose command id p (a a' : Adapter) r :
  build_request account connection d scope purpose command id p a = (a', Ok r) →
  rq_emergency_reduction r = false.
Proof.
  unfold build_request. intros H. apply st_bind_Ok in H as (a1 & report & _ & H).
  destruct (rr_runtime_epoch report =? 0); [done|]. run_Ok H. unfold st_ret in H. by simplify_eq.
Qed.

(** The policy an admission uses is the one stored. *)
Lemma put_policy_reads uuid acct expected p reason now db db' p' :
  put_policy uuid acct expected p reason now db = (db', Ok p') → policy db' acct = Ok (Some p').
Proof.
  unfold put_policy. destruct (_ || _); [done|]. intros H%transaction_ok.
  unfold put_policy_tx, insert_policy_audit in H. st_unfold. simpl in H.
  destruct (policy_cas _ _); [|done]. destruct (match List.find _ _ with Some _ => _ | None => _ end); [|done].
  destruct (to_text p) as [payload|] eqn:Hp; [|done]. simpl in H. destruct (to_sql_u64 _); [|done].
  destruct (existsb _ _); simplify_eq/=. unfold policy, query_optional; simpl.
  rewrite find_upsert_policy. simpl. rewrite bool_decide_eq_true_2 by done. simpl.
  by rewrite (from_to_text _ _ Hp).
Qed.

Lemma adapter_policy_Ok (a a' : Adapter) p :
  adapter_policy account a = (a', Ok p) → policy (pa_risk_store a') account = Ok (Some p).
Proof.
  unfold adapter_policy, query_risk. unfold st_bind at 1.
  destruct (policy (pa_risk_store a) account) as [[q|]|] eqn:Hp; [| |done]; simpl.
  - unfold st_ret. intros [= <- <-]. done.
  - intros H. run_Ok H. unfold st_map_err, with_store in H.
    destruct (put_policy _ _ _ _ _ _ _) as [db [q|]] eqn:Hput; [|done]. simplify_eq/=.
    by apply put_policy_reads in Hput.
Qed.

Lemma put_decision_sound d db db' rs ds r :
  put_decision d db = (db', r) → sound db rs ds → decision_sound d →
  db_reservations db' = db_reservations db ∧ ∃ ds', sound db' rs ds'.
Proof.
  unfold put_decision. st_unfold. intros H Hs Hd.
  destruct (ok_or (to_text d) _); [|simplify_eq; by eauto].
  destruct (to_sql_u64 _); [|simplify_eq; by eauto].
  destruct (existsb _ _); [simplify_eq; by eauto|].
  destruct r as [[]|e]; [|unfold insert_decision in H; branches; by eauto].
  destruct Hs as (Hh & Hdec & Hok & Hds).
  destruct (insert_decision_Ok _ _ _ _ Hdec H) as (Hd' & E1 & _). split; [done|].
  exists (ds ++ [d]). split; [destruct Hh; constructor; congruence|].
  split_and!; [done..|]. apply Forall_app. by split; [|constructor].
Qed.

Lemma with_put_decision d (a a' : Adapter) r :
  with_store (put_decision d) a = (a', r) → adapter_inv a → decision_sound d →
  adapter_inv a' ∧ ledger a' = ledger a ∧ pa_snapshot a' = pa_snapshot a.
Proof.
  unfold with_store. destruct (put_decision _ _) as [db r1] eqn:H1. intros [= <- _] (rs & ds & Hs) Hd.
  destruct (put_decision_sound _ _ _ _ _ _ H1 Hs Hd) as [_ (ds' & Hs')].
  split; [by exists rs, ds'|]. split; [|done]. destruct Hs as [Hh _], Hs' as [Hh' _].
  by rewrite (ledger_holds a rs Hh), (ledger_holds (put_store db a) rs Hh').
Qed.

Lemma link_fields id request d n :
  rd_account_id d = rq_account_id request → rd_request_id d = rq_request_id request →
  permits_dispatch d = true →
  validate_approval_link (with_reservation id d) (reservation_for id request d n) = Ok tt.
Proof. intros. apply validate_approval_link_Ok. by split_and!. Qed.

(** A reservation is granted as a whole or nothing is written. *)
Lemma reserve_effect uuid0 p request d (a a' : Adapter) r :
  evaluate uuid0 p request = Ok d → permits_dispatch d = true → directional (rq_action request) = true →
  has_ty I64 (rq_requested_delta_lots request) → rq_account_id request = account →
  List.find (for_request account (rq_request_id request)) (ledger a) = None →
  adapter_inv a → reserve p request d a = (a', r) →
  adapter_inv a' ∧ pa_snapshot a' = pa_snapshot a ∧
  ((∃ e, r = Err e) ∧ pa_risk_store a' = pa_risk_store a ∨
   ∃ id n, let v := reservation_for id request d n in
     r = Ok (admission_of (with_reservation id d) (Some v)) ∧ id ≠ ""%string ∧
     granted account (rq_request_id request) p v (ledger a) (ledger a') ∧
     db_policies (pa_risk_store a') = db_policies (pa_risk_store a)).
Proof.
  intros He Hp Hdir Hty Hacc Hfree Hinv H.
  destruct (evaluate_fields _ _ _ _ He Hp) as (Hid & Hreq & Hda & Hact & _ & Hsz). rewrite Hdir in Hsz.
  destruct Hsz as [Hrl Hpf]. assert (rd_approved_delta_lots d ≠ 0) as Hnz.
  { apply permits_directional; [done|]. by rewrite Hact. }
  assert (has_ty I64 (rd_approved_delta_lots d)) as Hat by (unfold partial_fill in Hpf; int_lia).
  unfold reserve in H. apply st_bind_cases in H as [(e & Hu & ->)|(a1 & uuid & Hu & H)].
  { unfold risk_uuid in Hu. destruct (am_uuid _). done. }
  apply (quiet_uuid untouched) in Hu as [Es Esn].
  assert (ledger a1 = ledger a) as El by (unfold ledger; by rewrite Es).
  assert (adapter_inv a1) as Hinv1 by (unfold adapter_inv in *; by rewrite Es).
  apply st_bind_cases in H as [(e & Hn & ->)|(a2 & n & Hn & H)]; unfold st_lift in Hn; simplify_eq.
  { split_and!; [done|done|]. left. split; [by eexists|done]. }
  set (id := RiskReservation_new_id uuid) in *. set (v := reservation_for id request d n) in *.
  assert (reservation_typed v) as Hv.
  { split; [by eapply scaled_notional_typed|exact Hat]. }
  apply st_bind_cases in H as [(e & Hs & ->)|(a3 & ap & Hs & H)];
    unfold st_map_err, with_store in Hs; destruct (persist_approval_atomic _ _ _ _) as [db [ap'|e']] eqn:Hper;
    simplify_eq/=.
  { apply persist_approval_Err in Hper as ->. split_and!; [done|done|]. left. split; [by eexists|done]. }
  unfold st_ret in H. simplify_eq. destruct Hinv1 as (rs & ds & Hsound). pose proof Hsound as (Hh & Hd & Hok & Hds).
  rewrite (ledger_holds _ _ Hh) in El.
  destruct (persist_approval_inv _ _ _ _ _ _ _ _ Hh Hd Hv Hper)
    as [_ [(r0 & d0 & Hf & _)|(_ & Hcap & -> & Hh' & Hd' & Hpol & _)]].
  { simpl in Hf. rewrite <- El in Hfree. congruence. }
  rewrite (hold_rows _ _ Hh) in Hcap.
  destruct (enforce_capacity_after _ _ _ (hold_typed _ _ Hh) Hcap) as [Hlots Hnot].
  split; [|split; [done|]].
  - exists (rs ++ [v]), (ds ++ [with_reservation id d]). split_and!; [done|done| |].
    + apply Forall_app. split; [done|]. constructor; [|done]. split_and!; [|done|exact Hat].
      unfold partial_fill; simpl. lia.
    + apply Forall_app. split; [done|]. constructor; [|done]. intros id' _ [= <-]. simpl.
      rewrite Hid, Hact, Hrl. by split_and!.
  - right. exists id, n. fold v. split; [done|]. split; [done|]. split; [|simpl; rewrite Hpol; by rewrite Es].
    rewrite <- El, (ledger_holds (put_store db a2) _ Hh'). constructor; try done.
    split_and!; try done. simpl. congruence.
Qed.

Lemma approval_none db rs ds id :
  sound db rs ds → approval_for_request db account id = Ok None →
  List.find (for_request account id) rs = None.
Proof.
  intros (Hh & _) H. unfold approval_for_request in H.
  rewrite (reservation_for_request_holds _ _ _ _ Hh) in H. simpl in H.
  destruct (decision_for_request_connection _ _ _) as [[d|]|]; [| |done]; simpl in H;
    destruct (List.find _ rs); [|done..]. by destruct (validate_approval_link _ _).
Qed.

Lemma approval_some db rs ds id ex :
  sound db rs ds → approval_for_request db account id = Ok (Some ex) →
  ap_decision ex ∈ ds ∧ ap_reservation ex ∈ rs ∧ request_key (ap_reservation ex) = (account, id) ∧
  validate_approval_link (ap_decision ex) (ap_reservation ex) = Ok tt.
Proof.
  intros (Hh & Hd & _) H. unfold approval_for_request in H.
  rewrite (reservation_for_request_holds _ _ _ _ Hh), (decision_for_request_decides _ _ _ _ Hd) in H.
  simpl in H. destruct (List.find (by_key decision_key _) ds) as [d0|] eqn:H1;
    destruct (List.find (for_request _ _) rs) as [r0|] eqn:H2; try done.
  destruct (validate_approval_link d0 r0) as [[]|] eqn:Hl; [|done]. simplify_eq/=.
  apply find_by_key in H1 as [? _], H2 as [? ?]. by split_and!.
Qed.

Lemma replay_Ok (d : D) scope command id ex (a a' : Adapter) adm :
  replay d scope command id ex a = (a', Ok adm) →
  rv_state (ap_reservation ex) = Resv.Active ∧ adm = admission_of (ap_decision ex) (Some (ap_reservation ex)) ∧
  ∃ report desc, pa_snapshot a = Some report ∧ command_description command report = Ok desc ∧
    cd_action desc = rd_action (ap_decision ex) ∧ cd_delta_lots desc = rd_requested_delta_lots (ap_decision ex).
Proof.
  unfold replay. case_bool_decide as Hact; simpl; [|done]. intros H.
  apply st_bind_Ok in H as (a1 & j & Hj & H). unfold st_lift in Hj. injection Hj as -> _.
  destruct (is_some j); [done|]. apply st_bind_Ok in H as (a2 & report & [-> Hs]%require_snapshot_Ok & H).
  apply st_bind_Ok in H as (a3 & desc & Hd & H). unfold st_lift in Hd. injection Hd as -> Hd.
  destruct (_ || _) eqn:Ht; [done|]. unfold st_ret in H. simplify_eq. split; [done|]. split; [done|].
  exists report, desc. prop_tests. split_and!; try done. lia.
Qed.

Lemma replay_effect (d : D) scope command id ex (a a' : Adapter) adm :
  adapter_inv a → approval_for_request (pa_risk_store a) account id = Ok (Some ex) →
  replay d scope command id ex a = (a', Ok adm) →
  ∃ report, pa_snapshot a = Some report ∧ honours account id command report (ledger a) adm.
Proof.
  intros (rs & ds & Hs) Hex H. destruct (approval_some _ _ _ _ _ Hs Hex) as (Hd & Hv & Hk & Hl).
  destruct (replay_Ok _ _ _ _ _ _ _ _ H) as (Hact & -> & report & desc & Hsn & Hdesc & Ha & Hq).
  exists report. split; [done|]. exists desc. split; [done|]. simpl.
  apply validate_approval_link_Ok in Hl as (_ & _ & Hr & Hp & Hlots).
  destruct Hs as (Hh & _ & _ & Hds). rewrite (ledger_holds _ _ Hh).
  rewrite Forall_forall in Hds. destruct (Hds _ Hd _ Hp Hr) as (Hb & Hne & Hdir & Hpf).
  split; [done|]. destruct (description_directional _ _ _ Hdesc) as [He _]. rewrite <- He, Ha, Hdir.
  rewrite Hq. split; [done|]. split; [by apply permits_directional|]. by exists (ap_reservation ex).
Qed.

(** What an admission may do: nothing to the reservations, or grant one within the
    policy; and what it returns is honoured. *)
Definition admitted (id : string) (command : RuntimeExecutionCommand) (a a' : Adapter)
    (r : result RiskAdmissionError RiskAdmission) : Prop :=
  adapter_inv a' ∧ pa_snapshot a' = pa_snapshot a ∧
  (ledger a' = ledger a ∨
   ∃ p v, policy (pa_risk_store a') account = Ok (Some p) ∧ granted account id p v (ledger a) (ledger a')) ∧
  ∀ adm, r = Ok adm →
    ∃ report, pa_snapshot a = Some report ∧ honours account id command report (ledger a') adm.

Lemma admitted_after_rest id command (a a1 a' : Adapter) r :
  at_rest a a1 → adapter_inv a → admitted id command a1 a' r → admitted id command a a' r.
Proof.
  intros Hr Hinv. pose proof Hr as (_ & _ & Es). destruct (rest_kept _ _ Hr Hinv) as [_ El].
  unfold admitted. by rewrite El, Es.
Qed.

Lemma admitted_err id command (a a' : Adapter) e :
  at_rest a a' → adapter_inv a → admitted id command a a' (Err e).
Proof.
  intros Hr Hinv. destruct (rest_kept _ _ Hr Hinv) as [Hi El]. destruct Hr as (_ & _ & Es).
  split_and!; [done|done|by left|done].
Qed.

(** Recording a decision that holds no reservation. *)
Lemma record_decision dec id command (a a' : Adapter) r (k : () → st Adapter RiskAdmissionError RiskAdmission)
    (o : result RiskAdmissionError RiskAdmission) :
  adapter_inv a → decision_sound dec → (∀ u b, k u b = (b, o)) →
  st_bind (st_map_err store_unavailable (with_store (put_decision dec))) k a = (a', r) →
  (∀ adm, o = Ok adm → ∃ report, pa_snapshot a = Some report ∧ honours account id command report (ledger a) adm) →
  admitted id command a a' r.
Proof.
  intros Hinv Hd Hk H Ho. apply st_bind_cases in H as [(e & Hput & ->)|(a2 & u & Hput & H)];
    [|rewrite Hk in H; simplify_eq]; unfold st_map_err in Hput;
    destruct (with_store _ a) as [a3 r3] eqn:Hw; simplify_eq/=;
    destruct (with_put_decision _ _ _ _ Hw Hinv Hd) as (Hi & Hl & Hs).
  - split_and!; [done|done|by left|done].
  - split_and!; [done|done|by left|]. by rewrite Hl.
Qed.

(** A fresh decision is recorded, and honoured when it permits. *)
Lemma decide_effect command id p (a a' : Adapter) report desc request r uuid dec :
  adapter_inv a → command_typed command → List.find (for_request account id) (ledger a) = None →
  policy (pa_risk_store a) account = Ok (Some p) → pa_snapshot a = Some report →
  command_description command report = Ok desc → rq_request_id request = id →
  rq_account_id request = account → rq_action request = cd_action desc →
  rq_requested_delta_lots request = cd_delta_lots desc → evaluate uuid p request = Ok dec →
  (if negb (permits_dispatch dec) then deny dec
   else if directional (rq_action request) then reserve p request dec
   else st_map_err store_unavailable (with_store (put_decision dec)) ;;; st_ret (admission_of dec None)) a
    = (a', r) →
  admitted id command a a' r.
Proof.
  intros Hinv Hty Hfree Hpol Hsn Hdesc Hid Hacc Hact Hq He H.
  destruct (description_directional _ _ _ Hdesc) as [Hexp _].
  destruct (permits_dispatch dec) eqn:Hp; simpl in H.
  2: { eapply (record_decision dec); [done| |intros u b; reflexivity|exact H|done]. intros ? ?; congruence. }
  destruct (evaluate_fields _ _ _ _ He Hp) as (Hdid & _ & _ & Hda & Hnr & Hsz).
  destruct (directional (rq_action request)) eqn:Hdir.
  2: { eapply (record_decision dec); [done| |intros u b; reflexivity|exact H|]; [intros ? _; congruence|].
       intros adm [= <-]. exists report. split; [done|]. exists desc.
       rewrite <- Hexp, <- Hact, Hdir. simpl. by rewrite Hdid, Hsz. }
  subst id. destruct (reserve_effect uuid p request dec a a' r) as (Hi & Hs & Hcase); try done.
  { rewrite Hq. by eapply description_typed. }
  destruct Hcase as [[[e ->] Hst]|(rid & n & -> & Hne & Hg & Hpols)].
  - apply admitted_err; [|done]. apply untouched_at_rest. by split.
  - split_and!; [done|done| |].
    + right. exists p, (reservation_for rid request dec n). split; [|done]. unfold policy in *. by rewrite Hpols.
    + intros adm [= <-]. exists report. split; [done|]. exists desc. rewrite <- Hexp, <- Hact, Hdir. simpl.
      rewrite Hdid. destruct Hsz as [_ Hpf]. split; [done|]. split; [done|]. rewrite <- Hq. split; [done|].
      split; [apply permits_directional; [done|by rewrite Hda]|].
      exists (reservation_for rid request dec n). split; [rewrite (gr_ledger _ _ _ _ _ _ Hg); set_solver|].
      split_and!; try done. unfold request_key; simpl. by rewrite Hacc.
Qed.

Lemma query_risk_cases {A} (q : RiskDb → result RiskStoreError A) (a a' : Adapter) r :
  query_risk q a = (a', r) → a' = a ∧ ∀ v, r = Ok v → q (pa_risk_store a) = Ok v.
Proof.
  unfold query_risk. intros [= <- <-]. split; [done|]. intros v H. destruct (q _); by simplify_eq/=.
Qed.

Lemma admit_effect (d : D) scope purpose command id (a a' : Adapter) r :
  adapter_inv a → command_typed command → risk_admit account connection d scope purpose command id a = (a', r) →
  admitted id command a a' r.
Proof.
  intros Hinv Hty H. unfold risk_admit in H.
  apply st_bind_cases in H as [(e & Hq & ->)|(a1 & ex & Hq & H)];
    apply query_risk_cases in Hq as [-> Hex]; [by apply admitted_err|].
  specialize (Hex _ eq_refl). destruct ex as [ex|].
  { pose proof (quiet_replay at_rest _ _ _ _ _ _ _ _ H) as Hr. destruct r as [adm|]; [|by apply admitted_err].
    destruct (rest_kept _ _ Hr Hinv) as [Hi El]. split_and!; [done|apply Hr|by left|].
    rewrite El. intros ? [= <-]. by eapply replay_effect. }
  assert (List.find (for_request account id) (ledger a) = None) as Hfree.
  { destruct Hinv as (rs & ds & Hs). rewrite (ledger_holds _ _ (proj1 Hs)). by eapply approval_none. }
  apply st_bind_cases in H as [(e & Hpol & ->)|(a1 & p & Hpol & H)];
    pose proof (rests_policy account _ _ _ Hpol) as Hr1; [by apply admitted_err|].
  destruct (rest_kept _ _ Hr1 Hinv) as [Hinv1 El1]. apply (admitted_after_rest _ _ _ a1); [done..|].
  apply st_bind_cases in H as [(e & Hb & ->)|(a2 & request & Hb & H)];
    pose proof (quiet_build account connection untouched _ _ _ _ _ _ _ _ _ Hb) as Hr2;
    [apply admitted_err; [by apply untouched_at_rest|done]|].
  apply st_bind_cases in H as [(e & Hu & ->)|(a3 & uuid & Hu & H)];
    apply (quiet_uuid untouched) in Hu as Hr3; pose proof (transitivity Hr2 Hr3) as Hr;
    [apply admitted_err; [by apply untouched_at_rest|done]|].
  apply st_bind_cases in H as [(e & Hd & ->)|(a4 & dec & Hd & H)]; unfold st_lift in Hd; injection Hd as <- Hd;
    [apply admitted_err; [by apply untouched_at_rest|done]|].
  destruct (evaluate uuid p request) as [dec'|] eqn:He; simplify_eq/=.
  destruct (build_request_Ok _ _ _ _ _ _ _ _ _ Hb) as (report & desc & Hsn & Hdesc & Hid & Hacc & _ & Hact & Hq).
  apply untouched_at_rest in Hr as Hra. destruct Hr as [Es Esn].
  apply (admitted_after_rest _ _ _ a3); [done..|]. destruct (rest_kept _ _ Hra Hinv1) as [Hinv3 El3].
  eapply decide_effect; eauto; try congruence.
  rewrite Es. by eapply adapter_policy_Ok.
Qed.
End admission.

(** ** The other calls *)

(** What a dispatch outcome says of the reservation of its request. *)
Definition outcome_evidence (o : RiskDispatchOutcome) : RiskReconcile.evidence :=
  match o with
  | RiskOut.Acknowledged => RiskReconcile.Acknowledged
  | RiskOut.Rejected => BrokerRejected
  | RiskOut.UnknownAfterDispatch => UnknownOutcome
  end.

(** What a report says of a request. *)
Definition reported_evidence (report : ReconciliationReport) (q : string) (e : RiskReconcile.evidence) : Prop :=
  if bool_decide (q ∈ rr_unresolved_logical_request_ids report) then e = UnknownOutcome
  else match List.find (λ o, bool_decide (of_logical_request_id o = Some q)) (rr_active_orders report) with
       | Some order => ∃ lots, signed_remaining_lots order = Ok lots ∧ e = Remaining lots
       | None => e = NoExposure
       end.

Section calls.
Context {D F E : Type}.
Context `{!RuntimeStore D} `{!ClientFactory F} `{!Ambient E} `{UF : !UuidFormat} `{ET : !ErrorText}
  `{SD : !Serde RiskDecision} `{SP : !Serde RiskPolicySet}
  `{LD : !SerdeLaws RiskDecision} `{LP : !SerdeLaws RiskPolicySet}.
Notation Adapter := (Adapter F E).
Context (account connection : string).

Lemma outcome_effect id o (a a' : Adapter) r :
  adapter_inv a → record_dispatch_outcome account id o a = (a', r) →
  adapter_inv a' ∧
  (ledger a' = ledger a ∨ ledger_step account (λ q e, q = id ∧ e = outcome_evidence o) (ledger a) (ledger a')).
Proof.
  intros Hinv H. unfold record_dispatch_outcome in H.
  apply st_bind_cases in H as [(e & Hn & _)|(a1 & now & Hn & H)];
    apply (quiet_now at_rest) in Hn; destruct (rest_kept _ _ Hn Hinv) as [Hinv1 El]; [by eauto|].
  rewrite <- El. destruct (with_store _ a1) as [a2 r2] eqn:Hw in H. injection H as <- _.
  assert (∃ now', with_store (reconcile_with (outcome_evidence o) account id now') a1 = (a2, r2)) as [now' Hw'].
  { exists now. destruct o; exact Hw. }
  destruct (evidence_kept _ _ _ _ _ _ _ Hw' Hinv1) as (? & _ & ?). done.
Qed.

Lemma apply_reported (report : ReconciliationReport) q e now (a a' : Adapter) r :
  adapter_inv a → reported_evidence report q e →
  (let! _ := st_map_err (λ e, UnavailableAdmission (reconcile_error_text e))
     (with_store (reconcile_with e account q now)) in st_ret tt) a = (a', r) →
  adapter_inv a' ∧ rtc (ledger_step account (reported_evidence report)) (ledger a) (ledger a').
Proof.
  intros Hinv He H.
  assert (∃ r1, with_store (reconcile_with e account q now) a = (a', r1)) as [r1 Hw].
  { apply st_bind_cases in H as [(e1 & H & _)|(a1 & v & H & Hret)]; unfold st_map_err in H;
      destruct (with_store _ a) as [a2 r2]; [|unfold st_ret in Hret]; simplify_eq; by eexists. }
  destruct (evidence_kept _ _ _ _ _ _ _ Hw Hinv) as (Hi & _ & [->|Hs]); split; try done.
  apply rtc_once. eapply ledger_step_weaken; [|exact Hs]. by intros q' e' [-> ->].
Qed.

Lemma reconcile_one report v (a a' : Adapter) r :
  adapter_inv a → reconcile_reservation account report v a = (a', r) →
  adapter_inv a' ∧ rtc (ledger_step account (reported_evidence report)) (ledger a) (ledger a').
Proof.
  intros Hinv H. set (q := rv_logical_request_id v).
  assert (∀ e, reported_evidence report q e → _) as Happly
    by exact (λ e He, apply_reported report q e (rr_completed_at_unix_ms report) a a' r Hinv He).
  unfold reconcile_reservation in H. fold q in H. unfold reported_evidence in Happly at 1.
  destruct (bool_decide (q ∈ _)); [exact (Happly _ eq_refl H)|].
  destruct (List.find _ _) as [order|]; [|exact (Happly _ eq_refl H)].
  destruct (signed_remaining_lots order) as [lots|e] eqn:Hl; [|].
  - apply (Happly _ (ex_intro _ lots (conj eq_refl eq_refl))). exact H.
  - unfold st_bind at 1, st_lift in H. simpl in H. by simplify_eq.
Qed.

Lemma reconcile_all report l (a a' : Adapter) r :
  adapter_inv a → reconcile_reservations account report l a = (a', r) →
  adapter_inv a' ∧ rtc (ledger_step account (reported_evidence report)) (ledger a) (ledger a').
Proof.
  revert a. induction l as [|v l IH]; intros a Hinv H; simpl in H; [unfold st_ret in H; by simplify_eq|].
  apply st_bind_cases in H as [(e & H & _)|(a1 & [] & H1 & H)]; [by eapply reconcile_one|].
  destruct (reconcile_one _ _ _ _ _ Hinv H1) as [Hinv1 Hs1]. destruct (IH _ Hinv1 H) as [Hinv2 Hs2].
  split; [done|by etrans].
Qed.

Lemma reconcile_effect report (a a' : Adapter) r :
  adapter_inv a → risk_reconcile account report a = (a', r) →
  adapter_inv a' ∧ rtc (ledger_step account (reported_evidence report)) (ledger a) (ledger a').
Proof.
  intros Hinv H. unfold risk_reconcile in H. unfold st_bind at 1, st_get at 1 in H. unfold st_bind at 1, st_put in H.
  apply st_bind_cases in H as [(e & Hq & _)|(a1 & l & Hq & H)]; unfold adapter_reservations in Hq;
    apply query_risk_cases in Hq as [-> _]; [done|].
  by apply (reconcile_all _ _ (put_snapshot (Some report) a)) in H.
Qed.
End calls.

(** ** Before dispatch *)

Section cleared.
Context {D F E : Type}.
Context `{!RuntimeStore D} `{!ClientFactory F} `{!Ambient E} `{UF : !UuidFormat} `{ET : !ErrorText}
  `{SD : !Serde RiskDecision} `{SP : !Serde RiskPolicySet}
  `{LD : !SerdeLaws RiskDecision} `{LP : !SerdeLaws RiskPolicySet}.
Notation Adapter := (Adapter F E).
Context (account connection : string).

(** What the last check before dispatch establishes: the stored decision is the
    approval, it has not expired, and everything it was decided on is as it was. *)
Record cleared (d : D) (scope : RuntimeScope) (purpose : RuntimeExecutionPurpose)
    (command : RuntimeExecutionCommand) (id : string) (adm : RiskAdmission) (a : Adapter)
    (decision : RiskDecision) (report : ReconciliationReport) (desc : CommandDescription) : Prop := {
  cl_stored : decision_by_id_connection (pa_risk_store a) (ad_decision_id adm) = Ok (Some decision);
  cl_request : rd_request_id decision = id ∧ rd_account_id decision = account;
  cl_approved : rd_approved_delta_lots decision = ad_approved_delta_lots adm ∧
    rd_reservation_id decision = ad_reservation_id adm;
  cl_expiry : ∀ t, rd_expires_at_unix_ms decision = Some t →
    ∃ e now, am_now (pa_ambient a) = (e, Ok now) ∧ now ≤ t;
  cl_policy : ∃ a' p, at_rest a a' ∧ policy (pa_risk_store a') account = Ok (Some p) ∧
    po_revision p = vc_policy_revision (rd_validity decision) ∧
    (∀ q, policy (pa_risk_store a) account = Ok (Some q) → p = q);
  cl_authorization : ∃ c, ConnectionId_parse (sc_connection_ref scope) = Ok c ∧
    cf_execution_session (pa_factory a) c (sc_broker_account_id scope) (map_purpose purpose)
      = Ok (vc_execution_authorization_revision (rd_validity decision));
  cl_report : pa_snapshot a = Some report;
  cl_watermark : rr_runtime_epoch report = vc_runtime_epoch (rd_validity decision) ∧
    Z.max 0 (rr_snapshot_observed_at_unix_ms report) = vc_reconciliation_revision (rd_validity decision);
  cl_semantics : command_description command report = Ok desc ∧
    cd_delta_lots desc = ad_approved_delta_lots adm ∧ cd_action desc = rd_action decision;
  cl_constraints : directional (cd_action desc) = true →
    ∃ c, pa_instrument_cache a !! cd_instrument_id desc = Some c ∧
      c.1 = vc_instrument_constraints_revision (rd_validity decision);
  cl_no_conflict : ∃ l, js_unresolved_mutations d (scope_key scope) = Ok l ∧
    ∀ m, m ∈ l → mr_logical_request_id m ≠ id → conflicts (cd_instrument_id desc) m = false;
}.

(** The broker, the cache and the report are as they were. *)
Definition same_reads (a a' : Adapter) : Prop :=
  pa_factory a' = pa_factory a ∧ pa_instrument_cache a' = pa_instrument_cache a ∧ pa_snapshot a' = pa_snapshot a.

Lemma adapter_policy_reads (a a' : Adapter) r :
  adapter_policy account a = (a', r) → same_reads a a' ∧
  ∀ p q, r = Ok p → policy (pa_risk_store a) account = Ok (Some q) → p = q.
Proof.
  unfold adapter_policy, query_risk, st_bind, st_ret. intros H.
  destruct (policy _ _) as [[q|]|]; simplify_eq/=; try (split; [done|]; naive_solver).
  split; [|done]. unfold risk_now, risk_uuid in H. destruct (am_now _) as [e1 [n|]]; simplify_eq/=; [|done].
  destruct (am_uuid e1). simpl in H. unfold st_map_err, with_store in H. simpl in H.
  destruct (put_policy _ _ _ _ _ _ _); by simplify_eq/=.
Qed.

Lemma check_expiry_Ok dec (a a' : Adapter) :
  check_expiry dec a = (a', Ok tt) →
  same_reads a a' ∧ pa_risk_store a' = pa_risk_store a ∧
  ∀ t, rd_expires_at_unix_ms dec = Some t → ∃ e now, am_now (pa_ambient a) = (e, Ok now) ∧ now ≤ t.
Proof.
  unfold check_expiry. destruct (rd_expires_at_unix_ms dec) as [t|].
  - unfold risk_now, st_bind. destruct (am_now _) as [e [now|]]; [|done]. simpl.
    destruct (Z.ltb_spec t now); [done|]. unfold st_ret. intros [= <-]. split; [done|]. split; [done|].
    intros ? [= <-]. by eauto.
  - unfold st_ret. intros [= <-]. split; [done|]. split; [done|]. done.
Qed.

Lemma check_constraints_Ok desc dec (a a' : Adapter) :
  check_constraints desc dec a = (a', Ok tt) → directional (cd_action desc) = true →
  ∃ c, pa_instrument_cache a !! cd_instrument_id desc = Some c ∧
    c.1 = vc_instrument_constraints_revision (rd_validity dec).
Proof.
  intros H Hd. unfold check_constraints in H. rewrite Hd in H. unfold st_get, st_bind, st_lift in H.
  destruct (_ !! _) as [c|]; [|done]. simpl in H.
  destruct (risk_revision c.1) as [v|] eqn:Hr; [|done]. simpl in H.
  unfold risk_revision in Hr. apply ok_or_Ok, checked_Some in Hr as [-> _].
  destruct (_ =? _) eqn:Heq in H; [|done]. exists c. split; [done|lia].
Qed.

Lemma validate_Ok (d : D) scope purpose command id adm (a a' : Adapter) :
  validate_before_dispatch account d scope purpose command id adm a = (a', Ok tt) →
  ∃ decision report desc, cleared d scope purpose command id adm a decision report desc.
Proof.
  unfold validate_before_dispatch. intros H.
  apply st_bind_Ok in H as (a1 & found & [-> Hf]%query_risk_cases & H). specialize (Hf _ eq_refl).
  apply st_bind_Ok in H as (a1 & dec & Hl & H). unfold st_lift in Hl. injection Hl as <- Hdec%ok_or_Ok. subst found.
  destruct (same_approval account id adm dec) eqn:Hsame; [|done]. simpl in H.
  apply st_bind_Ok in H as (a1 & [] & He & H). apply check_expiry_Ok in He as ((F1 & C1 & S1) & R1 & Hexp).
  apply st_bind_Ok in H as (a2 & p & Hp & H).
  destruct (adapter_policy_reads _ _ _ Hp) as [(F2 & C2 & S2) Hcur].
  destruct (_ =? _) eqn:Hrev in H; [|done]. simpl in H.
  apply st_bind_Ok in H as (a3 & c & Hc & H). unfold parse_connection, st_lift in Hc. injection Hc as <- Hc.
  destruct (ConnectionId_parse _) as [c'|] eqn:Hparse; [|done]. simplify_eq/=.
  apply st_bind_Ok in H as (a3 & auth & Hau & H). unfold execution_session, st_get, st_bind, st_lift in Hau.
  injection Hau as <- Hau. destruct (cf_execution_session _ _ _ _) as [auth'|] eqn:Hsess; [|done]. simplify_eq/=.
  destruct (_ =? _) eqn:Haurev in H; [|done]. simpl in H.
  apply st_bind_Ok in H as (a3 & report & [-> Hrep]%require_snapshot_Ok & H).
  apply st_bind_Ok in H as (a3 & rev & Hrv & H). unfold st_lift in Hrv. injection Hrv as <- Hrv.
  unfold snapshot_revision in Hrv. apply ok_or_Ok, checked_Some in Hrv as [-> _].
  destruct (same_watermark _ _ _) eqn:Hw; [|done]. simpl in H.
  apply st_bind_Ok in H as (a3 & desc & Hd & H). unfold st_lift in Hd. injection Hd as <- Hd.
  destruct (_ || _) eqn:Hsem in H; [done|].
  apply st_bind_Ok in H as (a3 & [] & Hcc & H). pose proof (check_constraints_Ok _ _ _ _ Hcc) as Hcons.
  apply st_bind_Ok in H as (a4 & l & Hu & H). unfold unresolved_of, st_lift in Hu. injection Hu as <- Hu.
  destruct (js_unresolved_mutations _ _) as [l'|] eqn:Hun; [|done]. simplify_eq/=.
  destruct (existsb _ l) eqn:Hno; [done|]. rewrite existsb_false in Hno.
  unfold same_approval in Hsame. unfold same_watermark in Hw. prop_tests.
  exists dec, report, desc. constructor; try congruence; try done.
  - split; [lia|done].
  - exists a2, p. split; [|split_and!].
    + transitivity a1; [apply untouched_at_rest; by split|by eapply rests_policy].
    + by eapply adapter_policy_Ok.
    + lia.
    + intros q. rewrite <- R1. by apply Hcur.
  - exists c. split; [done|]. rewrite <- F1, <- F2, Hsess. f_equal. lia.
  - split; lia.
  - split_and!; [done|lia|done].
  - rewrite <- C1, <- C2. exact Hcons.
  - exists l. split; [done|]. intros m Hm Hne. specialize (Hno m Hm).
    by rewrite bool_decide_eq_false_2 in Hno.
Qed.
End cleared.

(** *** What honouring gives the coordinator *)

Lemma honours_complete account id command report rs adm :
  honours account id command report rs adm → incomplete_approval command adm = false.
Proof.
  intros (desc & _ & Hid & Hcase). unfold incomplete_approval. rewrite Hid.
  destruct (exposure_bearing command); simpl.
  - destruct Hcase as (_ & Hnz & v & _ & _ & _ & -> & Hne & _).
    apply orb_false_iff. split; [|done]. rewrite bool_decide_eq_false_2 by done. apply Z.eqb_neq in Hnz.
    by rewrite Hnz.
  - by destruct Hcase as [-> ->].
Qed.

Lemma honours_applies account id command report rs adm :
  command_typed command → honours account id command report rs adm →
  ∃ command' desc, apply_risk_approval command (ad_approved_delta_lots adm) = Ok command' ∧
    reduced_to (ad_approved_delta_lots adm) command command' ∧
    command_description command' report = Ok desc ∧ cd_delta_lots desc = ad_approved_delta_lots adm ∧
    (exposure_bearing command = true →
       ∃ v, v ∈ rs ∧ request_key v = (account, id) ∧ rv_state v = Resv.Active ∧
         ad_reservation_id adm = Some (rv_reservation_id v) ∧
         rv_reserved_delta_lots v = ad_approved_delta_lots adm).
Proof.
  intros Hty (desc & Hdesc & _ & Hcase).
  destruct (approval_applies command report desc (ad_approved_delta_lots adm)) as
    (command' & desc' & Happ & Hred & Hd' & Hq & _); [done|done| |].
  { destruct (exposure_bearing command); naive_solver. }
  exists command', desc'. split_and!; try done.
  intros He. rewrite He in Hcase. destruct Hcase as (_ & _ & v & ? & ? & ? & ? & _ & ?). by exists v.
Qed.

(** ** Properties *)

Section properties.
Context {D F E : Type}.
Context `{!RuntimeStore D} `{!ClientFactory F} `{!Ambient E} `{UF : !UuidFormat} `{ET : !ErrorText}
  `{SD : !Serde RiskDecision} `{SP : !Serde RiskPolicySet}
  `{LD : !SerdeLaws RiskDecision} `{LP : !SerdeLaws RiskPolicySet}.
Notation Adapter := (Adapter F E).
Context (account connection : string).

(** An admission of the production adapter is always one that the coordinator can
    use: it is complete, it applies to the command, what it leaves is the same command
    with at most the quantity asked for, and the adapter, describing that command
    against the same report, finds exactly the lots it approved.  When the command
    bears exposure, those lots are reserved for the request by an active reservation. *)
Theorem admission_meets_contract (d : D) scope purpose command id (a a' : Adapter) adm :
  adapter_inv a → command_typed command →
  risk_admit account connection d scope purpose command id a = (a', Ok adm) →
  adapter_inv a' ∧ incomplete_approval command adm = false ∧
  ∃ report command' desc,
    pa_snapshot a' = Some report ∧ apply_risk_approval command (ad_approved_delta_lots adm) = Ok command' ∧
    reduced_to (ad_approved_delta_lots adm) command command' ∧
    command_description command' report = Ok desc ∧ cd_delta_lots desc = ad_approved_delta_lots adm ∧
    (exposure_bearing command = true →
       ∃ v, v ∈ ledger a' ∧ request_key v = (account, id) ∧ rv_state v = Resv.Active ∧
         ad_reservation_id adm = Some (rv_reservation_id v) ∧
         rv_reserved_delta_lots v = ad_approved_delta_lots adm).
Proof.
  intros Hinv Hty H. apply admit_effect in H as (Hinv' & Esn & _ & Hh); try done.
  destruct (Hh _ eq_refl) as (report & Hsn & Hhon). split; [done|].
  split; [by eapply honours_complete|].
  destruct (honours_applies _ _ _ _ _ _ Hty Hhon) as (command' & desc & Happ & Hred & Hd & Hq & Hres).
  exists report, command', desc. by rewrite Esn.
Qed.

(** A decision without a reservation closes its request.  Once a denial or the
    approval of a maintenance command is stored, every later admission under the same
    identity, of whatever command, fails as unavailable, with the text of a broken
    invariant, and changes nothing: such a request can neither be retried nor resumed. *)
Theorem unreserved_decision_blocks (d : D) scope purpose command id (a : Adapter) rs ds dec :
  sound (pa_risk_store a) rs ds → dec ∈ ds → decision_key dec = (account, id) →
  List.find (for_request account id) rs = None →
  risk_admit account connection d scope purpose command id a
    = (a, Err (UnavailableAdmission
                 "risk approval invariant violated: risk request has incomplete persisted approval")).
Proof.
  intros (Hh & Hd & _) Hin Hkey Hnone. unfold risk_admit, query_risk, st_bind at 1, approval_for_request.
  rewrite (reservation_for_request_holds _ _ _ _ Hh), (decision_for_request_decides _ _ _ _ Hd), Hnone.
  by rewrite (keyed_find _ _ _ _ (dec_requests _ _ Hd) Hin Hkey).
Qed.

(** A call of the port. *)
Inductive port_call :=
| CallAdmit (d : D) (scope : RuntimeScope) (purpose : RuntimeExecutionPurpose)
    (command : RuntimeExecutionCommand) (id : string)
| CallValidate (d : D) (scope : RuntimeScope) (purpose : RuntimeExecutionPurpose)
    (command : RuntimeExecutionCommand) (id : string) (adm : RiskAdmission)
| CallOutcome (d : D) (scope : RuntimeScope) (id : string) (o : RiskDispatchOutcome)
| CallReconcile (d : D) (scope : RuntimeScope) (report : ReconciliationReport).

Definition call_typed (c : port_call) : Prop :=
  match c with CallAdmit _ _ _ command _ => command_typed command | _ => True end.

(** The adapter after a call. *)
Definition run_call (c : port_call) (a : Adapter) : Adapter :=
  let port := ProductionRiskAdapter account connection in
  match c with
  | CallAdmit d scope purpose command id =>
      fst (ri_admit (RiskAdmissionPort:=port) d scope purpose command id a)
  | CallValidate d scope purpose command id adm =>
      fst (ri_validate_before_dispatch (RiskAdmissionPort:=port) d scope purpose command id adm a)
  | CallOutcome d scope id o =>
      fst (ri_record_dispatch_outcome (RiskAdmissionPort:=port) d scope id o a)
  | CallReconcile d scope report => fst (ri_reconcile (RiskAdmissionPort:=port) d scope report a)
  end.

(** What the abstract ledger, a list of reservations, does at a call. *)
Definition ledger_spec (c : port_call) (policy_after : option RiskPolicySet)
    (rs rs' : list RiskReservation) : Prop :=
  match c with
  | CallAdmit _ _ _ _ id => rs' = rs ∨ ∃ p v, policy_after = Some p ∧ granted account id p v rs rs'
  | CallValidate _ _ _ _ _ _ => rs' = rs
  | CallOutcome _ _ id o =>
      rs' = rs ∨ ledger_step account (λ q e, q = id ∧ e = outcome_evidence o) rs rs'
  | CallReconcile _ _ report => rtc (ledger_step account (reported_evidence report)) rs rs'
  end.

Definition stored_policy (a : Adapter) : option RiskPolicySet :=
  match policy (pa_risk_store a) account with Ok p => p | Err _ => None end.

(** C15. The adapter refines a ledger of reservations, whatever its callers, the broker
    and the journal do.  An admission leaves the ledger as it is or adds one active
    reservation, for a request of the account that had none, within the limits of the
    stored policy; the check before dispatch changes nothing; a dispatch outcome changes
    at most the open reservation of its request, as that outcome allows; and a
    reconciliation changes only open reservations of the account, each as the report's
    evidence of its own request allows.  The store stays well formed throughout. *)
Theorem adapter_refines_ledger c (a : Adapter) :
  adapter_inv a → call_typed c →
  adapter_inv (run_call c a) ∧
  ledger_spec c (stored_policy (run_call c a)) (ledger a) (ledger (run_call c a)).
Proof.
  intros Hinv Hty. destruct c as [d scope purpose command id|d scope purpose command id adm|d scope id o|d scope report];
    simpl in *.
  - destruct (risk_admit _ _ _ _ _ _ _ a) as [a' r] eqn:H. apply admit_effect in H as (? & _ & Hc & _); try done.
    split; [done|]. simpl. destruct Hc as [->|(p & v & Hp & Hg)]; [by left|right]. exists p, v.
    unfold stored_policy. simpl. by rewrite Hp.
  - destruct (validate_before_dispatch _ _ _ _ _ _ _ a) as [a' r] eqn:H. apply rests_validate in H.
    by destruct (rest_kept _ _ H Hinv).
  - destruct (record_dispatch_outcome _ _ _ a) as [a' r] eqn:H. by apply outcome_effect in H.
  - destruct (risk_reconcile _ _ a) as [a' r] eqn:H. by apply reconcile_effect in H.
Qed.
End properties.

Section dispatch.
Context {B D X T C F E E' : Type}.
Context `{!BrokerReadPort B} `{!RuntimeStore D} `{!ExecutionPort X} `{!ExecutionStreamPort T}
  `{!CredentialResolverPort C} `{!Ambient E} `{SM : !Serde MutationEvidence}.
Context `{!ClientFactory F} `{!Ambient E'} `{UF : !UuidFormat} `{ET : !ErrorText}
  `{SD : !Serde RiskDecision} `{SP : !Serde RiskPolicySet}
  `{LD : !SerdeLaws RiskDecision} `{LP : !SerdeLaws RiskPolicySet}.
Context (account connection : string) (scope : RuntimeScope).
Notation World := (@World B D X T C (Adapter F E') E).

#[local] Instance production_port : RiskAdmissionPort D (Adapter F E') :=
  ProductionRiskAdapter account connection.

(** C6. What production sends is what risk approved, and the approval is current.  With
    the coordinator running on the production adapter, a command that is not held back
    was sent with at most the quantity asked for, and when it was sent the stored
    decision was for this request and account and for exactly those lots, had not
    expired, and had been taken at the current policy revision, execution
    authorisation, runtime epoch, account snapshot and instrument constraints, with no
    other mutation in doubt on the instrument; and if the command bears exposure, an
    active reservation of the request held exactly the lots that were sent. *)
Theorem production_dispatch_is_current command id corr purpose (w w' : World) r :
  adapter_inv (w_risk w) → command_typed command →
  dispatch_for_purpose scope command id corr purpose w = (w', r) →
  held_back w w' r ∨
  ∃ adm k command' decision report desc,
    ri_admit (w_store w) scope purpose command id (w_risk w) = (k, Ok adm) ∧ adapter_inv k ∧
    attempted scope purpose command' id corr w w' r ∧
    reduced_to (ad_approved_delta_lots adm) command command' ∧
    cleared account (w_store w) scope purpose command' id adm k decision report desc ∧
    (exposure_bearing command = true →
       ∃ v, v ∈ ledger k ∧ request_key v = (account, id) ∧ rv_state v = Resv.Active ∧
         rd_reservation_id decision = Some (rv_reservation_id v) ∧
         rv_reserved_delta_lots v = cd_delta_lots desc).
Proof.
  intros Hinv Hty [H|H]%dispatch_cases; [by left|right].
  destruct H as [_ _ _ _ (adm & k & command' & Hadm & _ & Happ & [k' Hv] & Hat)].
  pose proof (admit_effect _ _ _ _ _ _ _ _ _ _ Hinv Hty Hadm) as (Hinv' & Esn & _ & Hh).
  destruct (Hh _ eq_refl) as (report & Hsn & Hhon).
  destruct (honours_applies _ _ _ _ _ _ Hty Hhon) as (command0 & desc0 & Happ0 & Hred & _ & _ & Hres).
  rewrite Happ in Happ0. injection Happ0 as <-.
  apply validate_Ok in Hv as (decision & report' & desc & Hcl).
  exists adm, k, command', decision, report', desc. split_and!; try done.
  intros He. destruct (Hres He) as (v & Hin & Hk & Hact & Hid & Hlots). exists v. split_and!; try done.
  - destruct (cl_approved _ _ _ _ _ _ _ _ _ _ _ Hcl) as [_ ->]. done.
  - destruct (cl_semantics _ _ _ _ _ _ _ _ _ _ _ Hcl) as (_ & -> & _). done.
Qed.
End dispatch.

(** ** A production desk *)

Module ProductionSample.
Export CoordinatorSample.

#[export] Instance uuid_any : UuidFormat := {| uuid_parses _ := true |}.
#[export] Instance texts : ErrorText := {|
  sqlite_text _ := "database error"; serialization_text := "json error"; numeric_text := "number error" |}.

Definition share : CanonicalRiskInstrument := {|
  ci_uid := "instrument-1"; ci_lot_size := 10; ci_api_trade_available := true; ci_buy_available := true;
  ci_sell_available := true; ci_limit_order_available := true; ci_market_order_available := true;
  ci_best_price_order_available := true |}.

(** A broker that allows one lot to be bought. *)
#[export] Instance client : ClientFactory () := {|
  cf_execution_session _ _ _ _ := Ok 7;
  cf_read_session _ _ _ := Ok tt;
  cf_instrument_constraints _ := st_ret share;
  cf_max_lots _ _ _ := st_ret {| cm_currency := Some "RUB";
    cm_buy := Some {| cb_available_money := None; cb_max_lots := 1; cb_max_market_lots := 1 |};
    cm_buy_with_margin := None; cm_sell := Some {| cl_max_lots := 9 |}; cm_sell_with_margin := None |};
  cf_limit_order_total _ _ _ _ _ := st_ret None;
  cf_margin_attributes _ := st_fail "not available" |}.

Definition trading : RiskPolicySet := set_policy 1 State.Normal initial_policy.
#[export] Instance trading_serde : Serde RiskPolicySet := table_serde [trading].
#[export] Instance trading_laws : SerdeLaws RiskPolicySet := table_serde_laws [trading].

Definition desk_store : RiskDb :=
  Eval vm_compute in fst (put_policy "audit-1" "account-1" None trading "open the desk" 900 empty_db).

Definition desk_adapter : Adapter () Z := {|
  pa_snapshot := None; pa_instrument_cache := ∅; pa_risk_store := desk_store; pa_factory := tt;
  pa_ambient := 2000 |}.

Notation DeskWorld := (@World () RuntimeDb Desk () () (Adapter () Z) Z).

(** Start the runtime, with a table of the decisions that serialise. *)
Definition open_desk (table : list RiskDecision) : DeskWorld :=
  let _ := table_serde table in
  let _ := ProductionRiskAdapter "account-1" "connection:1" in
  fst (start scope "owner-1" ReconciliationConfig_default {|
    w_co := Coordinator_new scope; w_broker := tt; w_store := empty_journal;
    w_execution := {| dk_answer := acknowledge; dk_calls := 0 |}; w_streams := tt; w_credentials := tt;
    w_risk := desk_adapter; w_ambient := 1000 |}).

Definition opened : DeskWorld := Eval vm_compute in open_desk [].

(** The decision the adapter takes on a command, with the reservation it makes. *)
Definition decide_on (p : RiskPolicySet) (command : RuntimeExecutionCommand) (id : string) (d : RuntimeDb)
    (a : Adapter () Z) : option RiskDecision :=
  let '(_, r) :=
    (let! request := build_request "account-1" "connection:1" d scope Purpose.SandboxMutation command id p in
     let! u := risk_uuid in
     let! dec := st_lift (map_err (λ _, UnavailableAdmission "") (evaluate u p request)) in
     let! v := risk_uuid in
     st_ret (if permits_dispatch dec && directional (rd_action dec)
             then with_reservation (RiskReservation_new_id v) dec else dec)) a in
  match r with Ok dec => Some dec | Err _ => None end.

Definition cancel : RuntimeExecutionCommand := CancelOrder {|
  co_account_id := "account-1"; co_order_id := "broker-1"; co_order_id_kind := None |}.

Definition approval : option RiskDecision :=
  Eval vm_compute in decide_on trading command "request-1" (w_store opened) (w_risk opened).
Definition cancellation : option RiskDecision :=
  Eval vm_compute in decide_on trading cancel "cancel-1" (w_store opened) (w_risk opened).

Definition decisions : list RiskDecision :=
  Eval vm_compute in option_list approval ++ option_list cancellation.
#[export] Instance decisions_serde : Serde RiskDecision := table_serde decisions.
#[export] Instance decisions_laws : SerdeLaws RiskDecision := table_serde_laws decisions.
#[export] Instance desk_port : RiskAdmissionPort RuntimeDb (Adapter () Z) :=
  ProductionRiskAdapter "account-1" "connection:1".

Definition traded : DeskWorld * result RuntimeError DispatchReceipt :=
  Eval vm_compute in dispatch scope command "request-1" "correlation-1" opened.

Lemma traded_eq :
  dispatch_for_purpose scope command "request-1" "correlation-1" Purpose.SandboxMutation opened
    = (fst traded, snd traded).
Proof. vm_compute. reflexivity. Qed.

(** The adapter as the coordinator leaves it after the start, and after an admission. *)
Definition idle : Adapter () Z := Eval vm_compute in w_risk opened.
Definition admit_one : Adapter () Z * result RiskAdmissionError RiskAdmission :=
  Eval vm_compute in
    risk_admit "account-1" "connection:1" (w_store opened) scope Purpose.SandboxMutation command "request-1" idle.
Definition admit_cancel : Adapter () Z * result RiskAdmissionError RiskAdmission :=
  Eval vm_compute in
    risk_admit "account-1" "connection:1" (w_store opened) scope Purpose.SandboxMutation cancel "cancel-1" idle.

Definition granted_one : RiskAdmission := {|
  ad_decision_id := "risk-decision:2001"; ad_reservation_id := Some "risk-reservation:2002";
  ad_policy_revision := 1; ad_approved_delta_lots := 1 |}.

Lemma admit_one_eq :
  risk_admit "account-1" "connection:1" (w_store opened) scope Purpose.SandboxMutation command "request-1" idle
    = (fst admit_one, Ok granted_one).
Proof. vm_compute. reflexivity. Qed.

Lemma tables_inv (a : Adapter () Z) :
  db_reservations (pa_risk_store a) = [] → db_decisions (pa_risk_store a) = [] → adapter_inv a.
Proof.
  intros H1 H2. exists [], []. destruct empty_holds as [h1 h2 h3 h4]. destruct (empty_decides) as [d1 d2 d3].
  split; [constructor; [by rewrite H1|done..]|]. split; [constructor; [by rewrite H2|done..]|]. done.
Qed.
Lemma idle_inv : adapter_inv idle.
Proof. by apply tables_inv. Qed.
Lemma opened_inv : adapter_inv (w_risk opened).
Proof. by apply tables_inv. Qed.
Lemma command_fits : command_typed command.
Proof. split; vm_compute; discriminate. Qed.

(** The approved cancellation is stored without a reservation. *)
Lemma cancel_sound : ∃ dec, sound (pa_risk_store (fst admit_cancel)) [] [dec] ∧
  decision_key dec = ("account-1", "cancel-1")%string.
Proof.
  destruct cancellation as [dec|] eqn:Hc; [|discriminate Hc]. exists dec. injection Hc as <-.
  split; [|reflexivity]. split; [|split; [|split]].
  - constructor; [reflexivity|constructor|apply NoDup_nil_2|apply NoDup_nil_2].
  - constructor.
    + constructor; [|constructor]. repeat split; vm_compute; reflexivity.
    + apply NoDup_singleton.
    + apply NoDup_singleton.
  - constructor.
  - constructor; [|constructor]. intros id _ Hid. discriminate Hid.
Qed.

Definition admit_call : port_call (D:=RuntimeDb) :=
  CallAdmit (w_store opened) scope Purpose.SandboxMutation command "request-1".
Lemma admit_call_grants :
  ledger (run_call "account-1" "connection:1" admit_call idle) ≠ ledger idle.
Proof. vm_compute. discriminate. Qed.

(** *** What the source does not settle *)

(** The order of [request-1], still open. *)
Definition open_order : OrderFact := {|
  of_account_id := "account-1"; of_broker_order_id := "broker-1";
  of_logical_request_id := Some "request-1"; of_instrument_uid := "instrument-1"; of_side := Some Buy;
  of_lots_requested := 1; of_lots_executed := 0; of_status := OrderSt.New; of_status_cause := None |}.

Definition report_of (positions : list PositionFact) (orders : list OrderFact) (stops : list StopFact)
  : ReconciliationReport := {|
  rr_reconciliation_id := "reconciliation-2"; rr_runtime_epoch := 1; rr_resulting_state := Rt.Ready;
  rr_reason_code := Why.ReconciliationComplete; rr_resolved_logical_request_ids := [];
  rr_unresolved_logical_request_ids := []; rr_discrepancies := [];
  rr_position_count := Z.of_nat (length positions); rr_active_order_count := Z.of_nat (length orders);
  rr_active_stop_count := Z.of_nat (length stops); rr_deduplicated_event_count := 0;
  rr_completed_at_unix_ms := 3000; rr_portfolio := portfolio; rr_positions := positions;
  rr_active_orders := orders; rr_active_stops := stops; rr_snapshot_observed_at_unix_ms := 3000 |}.

Definition sell_two : RuntimeExecutionCommand := RegularOrder {|
  ro_account_id := "account-1"; ro_instrument_id := "instrument-1"; ro_client_request_id := "request-2";
  ro_quantity_lots := 2; ro_price := Some (Fixed 10); ro_price_convention := SettlementCurrency; ro_side := Sell;
  ro_order_type := Limit; ro_time_in_force := None; ro_confirm_margin_trade := false |}.

(** An open order of the runtime is counted twice, as an open order of the broker and
    as the reservation it still holds: with nothing held and one lot on order, a sale
    of two lots passes for a reduction under a REDUCE_ONLY policy. *)
Example open_order_counted_twice :
  let a := fst (risk_reconcile "account-1" (report_of [] [open_order] []) (fst admit_one)) in
  (λ d, (rd_outcome d, rd_approved_delta_lots d)) <$> decide_on initial_policy sell_two "request-2" (w_store opened) a
  = Some (Outcome.Approve, -2).
Proof. vm_compute. reflexivity. Qed.

(** A position of one lot of ten units is compared with its stops in units: a stop of
    one lot, which covers it, leaves nine more to protect. *)
Example position_units_taken_for_lots :
  let position := {| pf_account_id := "account-1"; pf_instrument_uid := "instrument-1";
                     pf_quantity_units := 10; pf_broker_observed_at_unix_ms := None |} in
  let stop := {| sf_account_id := "account-1"; sf_broker_stop_order_id := "stop-1";
                 sf_instrument_uid := "instrument-1"; sf_status := StopSt.Active; sf_status_cause := None;
                 sf_quantity_lots := Some 1; sf_direction := None |} in
  snd (protection_status "account-1" (report_of [position] [] [stop]) "instrument-1" idle) =
  Ok {| ps_active_stop_lots := 1; ps_position_lots := 10; ps_position_entered_at_unix_ms := None;
        ps_plan_id := None; ps_plan_state := None |}.
Proof. vm_compute. reflexivity. Qed.
End ProductionSample.
Import ProductionSample.

(** ** Witnesses *)

Lemma admission_meets_contract_witness :
  incomplete_approval command granted_one = false ∧
  ∃ v, v ∈ ledger (fst admit_one) ∧ rv_reserved_delta_lots v = 1.
Proof.
  destruct (admission_meets_contract "account-1" "connection:1" (w_store opened) scope Purpose.SandboxMutation
    command "request-1" idle (fst admit_one) granted_one idle_inv command_fits admit_one_eq)
    as (_ & Hc & report & command' & desc & _ & _ & _ & _ & _ & Hres).
  split; [exact Hc|]. destruct (Hres eq_refl) as (v & Hv & _ & _ & _ & Hl). exists v. split; [exact Hv|exact Hl].
Defined.

Lemma unreserved_decision_blocks_witness :
  snd admit_cancel = Ok {| ad_decision_id := "risk-decision:2001"; ad_reservation_id := None;
                           ad_policy_revision := 1; ad_approved_delta_lots := 0 |} ∧
  risk_admit "account-1" "connection:1" (w_store opened) scope Purpose.SandboxMutation cancel "cancel-1" (fst admit_cancel)
    = (fst admit_cancel, Err (UnavailableAdmission
         "risk approval invariant violated: risk request has incomplete persisted approval")).
Proof.
  split; [reflexivity|]. destruct cancel_sound as (dec & Hs & Hk).
  apply (unreserved_decision_blocks "account-1" "connection:1" (w_store opened) scope Purpose.SandboxMutation
    cancel "cancel-1" (fst admit_cancel) [] [dec] dec Hs); [apply list_elem_of_singleton; reflexivity|exact Hk|reflexivity].
Defined.

Lemma adapter_refines_ledger_witness :
  ∃ p v, stored_policy "account-1" (run_call "account-1" "connection:1" admit_call idle) = Some p ∧
    granted "account-1" "request-1" p v (ledger idle)
      (ledger (run_call "account-1" "connection:1" admit_call idle)).
Proof.
  destruct (adapter_refines_ledger "account-1" "connection:1" admit_call idle idle_inv command_fits)
    as [_ [H|(p & v & Hp & H)]]; [destruct (admit_call_grants H)|]. exists p, v. split; [exact Hp|exact H].
Defined.

Lemma production_dispatch_is_current_witness :
  ∃ (k : Adapter () Z) decision v, v ∈ ledger k ∧ rd_reservation_id decision = Some (rv_reservation_id v) ∧
    rd_request_id decision = "request-1".
Proof.
  destruct (production_dispatch_is_current "account-1" "connection:1" scope command "request-1" "correlation-1"
    Purpose.SandboxMutation opened (fst traded) (snd traded) opened_inv command_fits traded_eq)
    as [[_ (e & He & _)]|(adm & k & command' & decision & report & desc & _ & _ & _ & _ & Hcl & Hres)].
  - discriminate He.
  - destruct (Hres eq_refl) as (v & Hv & _ & _ & Hr & _). exists k, decision, v.
    split; [exact Hv|]. split; [exact Hr|]. apply (cl_request _ _ _ _ _ _ _ _ _ _ _ Hcl).
Defined.
