(* ===== verification/TInvestExecution.v ===== *)
(** * Execution requests: [crates/vox-tinvest/src/execution.rs]

    Commands of the domain become wire messages of the broker.  Every builder checks the
    command, converts its exact prices to units and nanos and numbers its enumerations;
    a stop-order message is audited once more as a whole before it is handed on.

    The theorems read the built messages back, the way the wire contract documents its
    fields: an order message determines its command, a protection message determines its
    leg up to the one meaning the wire has for a trailing order, and the direction of a
    protection message closes the position it protects. *)
From S2P Require Import Prelude Money Domain TInvestWire TInvestCanonical.

(** ** Errors *)

Inductive ExecutionValidationError :=
| Missing (field : string)
| NonPositiveQuantity
| NonPositive (field : string)
| LimitPriceRequired
| PriceForbidden
| TimeInForceRequiresLimit
| InvalidRequestId
| MissingProtectionRequestId (leg : string)
| MissingTakeProfitTrigger
| TrailingActivationRequired
| ConflictingTrailingActivation
| TrailingActivationAlreadyReached
| InvalidStopWire (invariant : string)
| TimestampError
| NumericOverflow
| Capability (error : ProtectionCapabilityError).

Definition TINVEST_PROTECTION_CAPABILITY : ProtectionCapability := {|
  pc_fixed_stop := true; pc_native_trailing_relative := true;
  pc_native_trailing_absolute := true; pc_take_profit := true; pc_stop_limit := true |}.

Notation checkedv := (result ExecutionValidationError).

(** ** Price conventions *)

Inductive TInvestInstrumentKind := KindShare | KindEtf | KindCurrency | KindBond | KindFuture.
Inductive ExecutionPriceOperation := RegularOrderPrice | StopOrderPrice.
Inductive TInvestExecutionEnvironment := ProductionEnvironment | SandboxEnvironment.

Definition execution_price_convention (instrument : TInvestInstrumentKind)
    (operation : ExecutionPriceOperation) (environment : TInvestExecutionEnvironment)
  : ExecutionPriceConvention :=
  match environment, operation, instrument with
  | ProductionEnvironment, RegularOrderPrice, KindFuture => Points
  | _, _, _ => SettlementCurrency
  end.

(** ** Checks and conversions *)

Section requests.
Context `{UF : !UuidFormat}.

Definition validate_text (field value : string) : checkedv () :=
  if is_blank value then Err (Missing field) else Ok tt.

Definition validate_request_id (value : string) : checkedv () :=
  if (36 <? String.length value)%nat || negb (uuid_parses value) then Err InvalidRequestId else Ok tt.

Definition positive_quantity (value : Z) : checkedv () :=
  if 0 <? value then Ok tt else Err NonPositiveQuantity.

Definition positive_fixed (field : string) (value : FixedPoint) : checkedv () :=
  if 0 <? total_nanos value then Ok tt else Err (NonPositive field).

Definition positive_wire_quotation (field : string) (value : Quotation) : checkedv () :=
  let? fixed := map_err (λ _, InvalidStopWire field)
                  (from_units_nano (q_units value) (q_nano value)) in
  positive_fixed field fixed.

Definition quotation (value : FixedPoint) : checkedv Quotation :=
  let? _ := positive_fixed "price/distance" value in
  let '(units, nano) := units_nano value in
  let? units := ok_or (checked I64 units) NumericOverflow in
  Ok {| q_units := units; q_nano := nano |}.

(** [price.map(quotation).transpose()]. *)
Definition optional_quotation (value : option FixedPoint) : checkedv (option Quotation) :=
  transpose (quotation <$> value).

Definition order_direction (value : OrderSide) : Z :=
  match value with Buy => as_i32 OrderDirection_Buy | Sell => as_i32 OrderDirection_Sell end.

Definition order_type (value : RegularOrderType) : Z :=
  match value with
  | Limit => as_i32 OrderType_Limit
  | Market => as_i32 OrderType_Market
  | BestPrice => as_i32 OrderType_Bestprice
  end.

Definition time_in_force (value : TimeInForce) : Z :=
  match value with
  | Day => as_i32 TimeInForceDay
  | FillAndKill => as_i32 TimeInForceFillAndKill
  | FillOrKill => as_i32 TimeInForceFillOrKill
  end.

Definition price_type (value : ExecutionPriceConvention) : Z :=
  match value with
  | SettlementCurrency => as_i32 PriceType_Currency
  | Points => as_i32 PriceType_Point
  end.

Definition trailing_mode (value : TrailingDistanceMode) : Z :=
  match value with
  | AbsolutePrice => as_i32 TrailingValueAbsolute
  | RelativePercent => as_i32 TrailingValueRelative
  end.

Definition order_id_type (value : ProviderOrderIdentityKind) : Z :=
  match value with
  | BrokerOrder => as_i32 OrderIdType_Exchange
  | ClientRequest => as_i32 OrderIdType_Request
  end.

Definition validate_regular_price (order_type : RegularOrderType) (price : option FixedPoint)
  : checkedv () :=
  match order_type, price with
  | Limit, None => Err LimitPriceRequired
  | (Market | BestPrice), Some _ => Err PriceForbidden
  | _, Some price => positive_fixed "price" price
  | _, None => Ok tt
  end.

(** ** Regular orders *)

Definition regular_order_request (command : RegularOrderCommand) : checkedv PostOrderRequest :=
  let? _ := validate_text "account_id" (ro_account_id command) in
  let? _ := validate_text "instrument_id" (ro_instrument_id command) in
  let? _ := validate_request_id (ro_client_request_id command) in
  let? _ := positive_quantity (ro_quantity_lots command) in
  let? _ := validate_regular_price (ro_order_type command) (ro_price command) in
  if negb (bool_decide (ro_order_type command = Limit))
     && bool_decide (is_Some (ro_time_in_force command))
  then Err TimeInForceRequiresLimit
  else
    let? price := optional_quotation (ro_price command) in
    Ok {| por_figi := None;
          por_quantity := ro_quantity_lots command;
          por_price := price;
          por_direction := order_direction (ro_side command);
          por_account_id := ro_account_id command;
          por_order_type := order_type (ro_order_type command);
          por_order_id := ro_client_request_id command;
          por_instrument_id := ro_instrument_id command;
          por_time_in_force := match ro_time_in_force command with
                               | Some t => time_in_force t
                               | None => 0
                               end;
          por_price_type := price_type (ro_price_convention command);
          por_confirm_margin_trade := ro_confirm_margin_trade command |}.

Definition async_regular_order_request (command : RegularOrderCommand)
  : checkedv PostOrderAsyncRequest :=
  let? validated := regular_order_request command in
  Ok {| pa_instrument_id := por_instrument_id validated;
        pa_quantity := por_quantity validated;
        pa_price := por_price validated;
        pa_direction := por_direction validated;
        pa_account_id := por_account_id validated;
        pa_order_type := por_order_type validated;
        pa_order_id := por_order_id validated;
        pa_time_in_force := time_in_force <$> ro_time_in_force command;
        pa_price_type := Some (price_type (ro_price_convention command));
        pa_confirm_margin_trade := por_confirm_margin_trade validated |}.

(** [if matches!(kind, Some(ClientRequest)) { validate_request_id(id)?; }]. *)
Definition validate_named_order (kind : option ProviderOrderIdentityKind) (id : string)
  : checkedv () :=
  if bool_decide (kind = Some ClientRequest) then validate_request_id id else Ok tt.

Definition replace_order_request (command : ReplaceOrderCommand) : checkedv ReplaceOrderRequest :=
  let? _ := validate_text "account_id" (rp_account_id command) in
  let? _ := validate_text "existing_order_id" (rp_existing_order_id command) in
  let? _ := validate_request_id (rp_replacement_request_id command) in
  let? _ := validate_named_order (rp_existing_order_id_kind command) (rp_existing_order_id command) in
  let? _ := positive_quantity (rp_quantity_lots command) in
  let? price := quotation (rp_price command) in
  Ok {| rr_account_id := rp_account_id command;
        rr_order_id_type := order_id_type <$> rp_existing_order_id_kind command;
        rr_order_id := rp_existing_order_id command;
        rr_idempotency_key := rp_replacement_request_id command;
        rr_quantity := rp_quantity_lots command;
        rr_price := Some price;
        rr_price_type := Some (price_type (rp_price_convention command));
        rr_confirm_margin_trade := rp_confirm_margin_trade command |}.

Record OrderStateRequestContext := {
  oc_account_id : string;
  oc_order_id : string;
  oc_order_id_kind : option ProviderOrderIdentityKind;
  oc_price_convention : ExecutionPriceConvention;
}.

Definition order_state_request (context : OrderStateRequestContext) : checkedv GetOrderStateRequest :=
  let? _ := validate_text "account_id" (oc_account_id context) in
  let? _ := validate_text "order_id" (oc_order_id context) in
  let? _ := validate_named_order (oc_order_id_kind context) (oc_order_id context) in
  Ok {| gos_account_id := oc_account_id context;
        gos_order_id := oc_order_id context;
        gos_price_type := price_type (oc_price_convention context);
        gos_order_id_type := order_id_type <$> oc_order_id_kind context |}.

Definition cancel_order_request (command : CancelOrderCommand) : checkedv CancelOrderRequest :=
  let? _ := validate_text "account_id" (co_account_id command) in
  let? _ := validate_text "order_id" (co_order_id command) in
  let? _ := validate_named_order (co_order_id_kind command) (co_order_id command) in
  Ok {| cor_account_id := co_account_id command;
        cor_order_id := co_order_id command;
        cor_order_id_type := order_id_type <$> co_order_id_kind command |}.

Definition cancel_stop_order_request (command : CancelStopOrderCommand)
  : checkedv CancelStopOrderRequest :=
  let? _ := validate_text "account_id" (cs_account_id command) in
  let? _ := validate_text "broker_stop_order_id" (cs_broker_stop_order_id command) in
  Ok {| csr_account_id := cs_account_id command;
        csr_stop_order_id := cs_broker_stop_order_id command |}.

(** ** Stop orders *)

Record ProtectionRequestIds := { ids_stop_loss : option string; ids_take_profit : option string }.

Record ProtectionRequestContext := {
  pc_account_id : string;
  pc_instrument_id : string;
  pc_quantity_lots : Z;
  pc_position_side : PositionSide;
  pc_price_convention : ExecutionPriceConvention;
  pc_reference_price : FixedPoint;
  pc_expire_at : option ProviderTimestamp;
  pc_confirm_margin_trade : bool;
  pc_request_ids : ProtectionRequestIds;
}.

Definition validate_pending_trailing_activation (position_side : PositionSide)
    (reference_price activation_price : FixedPoint) : checkedv () :=
  let? _ := positive_fixed "reference_price" reference_price in
  let? _ := positive_fixed "activation_price" activation_price in
  let pending := match position_side with
                 | Long => total_nanos reference_price <? total_nanos activation_price
                 | Short => total_nanos activation_price <? total_nanos reference_price
                 end in
  if pending : bool then Ok tt else Err TrailingActivationAlreadyReached.

Definition trailing_request (distance : TrailingDistance) (spread : option TrailingDistance)
  : checkedv TrailingData :=
  let? _ := positive_fixed "trailing distance" (td_value distance) in
  let? _ := match spread with
            | Some spread => positive_fixed "trailing spread" (td_value spread)
            | None => Ok tt
            end in
  let? indent := quotation (td_value distance) in
  let? spread_value := transpose ((λ s, quotation (td_value s)) <$> spread) in
  Ok {| tr_indent := Some indent;
        tr_indent_type := trailing_mode (td_mode distance);
        tr_spread := spread_value;
        tr_spread_type := match spread with Some s => trailing_mode (td_mode s) | None => 0 end |}.

(** [matches!(T::try_from(value), Ok(a) | Ok(b))]. *)
Definition one_of {A} `{!WireEnum A} (value : Z) (allowed : A → bool) : bool :=
  match enum_try_from value with Some a => allowed a | None => false end.

Definition trailing_value (t : TrailingValueType) : bool :=
  match t with TrailingValueAbsolute | TrailingValueRelative => true | _ => false end.

(** The checks of [audit_stop_order_request] on a trailing message. *)
Definition audit_trailing (request : PostStopOrderRequest) : checkedv () :=
  if negb (ps_stop_order_type request =? as_i32 StopOrderType_TakeProfit)
  then Err (InvalidStopWire "trailing_stop_order_type")
  else if negb (ps_exchange_order_type request =? as_i32 ExchangeOrderType_Market)
          || bool_decide (is_Some (ps_price request))
  then Err (InvalidStopWire "trailing_exchange_order")
  else if bool_decide (ps_stop_price request = None)
          && negb (bool_decide (ps_instant_execution request = Some true))
  then Err TrailingActivationRequired
  else if bool_decide (is_Some (ps_stop_price request))
          && bool_decide (ps_instant_execution request = Some true)
  then Err ConflictingTrailingActivation
  else
    let? data := ok_or (ps_trailing_data request) (InvalidStopWire "trailing_data") in
    match tr_indent data, one_of (tr_indent_type data) trailing_value with
    | Some indent, true =>
        let? _ := positive_wire_quotation "trailing_indent" indent in
        if negb (Bool.eqb (bool_decide (is_Some (tr_spread data)))
                          (one_of (tr_spread_type data) trailing_value))
        then Err (InvalidStopWire "trailing_spread")
        else match tr_spread data with
             | Some spread => positive_wire_quotation "trailing_spread" spread
             | None => Ok tt
             end
    | _, _ => Err (InvalidStopWire "trailing_indent")
    end.

Definition audit_expiration (request : PostStopOrderRequest) : bool :=
  match enum_try_from (ps_expiration_type request), ps_expire_date request with
  | Some GoodTillCancel, None => true
  | Some GoodTillDate, Some date => nanos_in_second (ts_nanos date)
  | _, _ => false
  end.

Definition audit_stop_order_request (request : PostStopOrderRequest) : checkedv () :=
  let? _ := positive_quantity (ps_quantity request) in
  let? _ := validate_text "account_id" (ps_account_id request) in
  let? _ := validate_text "instrument_id" (ps_instrument_id request) in
  let? _ := validate_request_id (ps_order_id request) in
  if bool_decide (is_Some (ps_figi request)) then Err (InvalidStopWire "deprecated_figi")
  else if negb (one_of (ps_direction request) (λ d, match d with
                  | StopOrderDirection_Buy | StopOrderDirection_Sell => true | _ => false end))
  then Err (InvalidStopWire "direction")
  else if negb (audit_expiration request) then Err (InvalidStopWire "expiration")
  else
    let? _ := match ps_price request with
              | Some price => positive_wire_quotation "price" price
              | None => Ok tt
              end in
    let? _ := match ps_stop_price request with
              | Some stop_price => positive_wire_quotation "stop_price" stop_price
              | None => Ok tt
              end in
    let trailing := ps_take_profit_type request =? as_i32 TakeProfitType_Trailing in
    if negb (one_of (ps_price_type request) (λ t, match t with
               | PriceType_Currency | PriceType_Point => true | _ => false end))
    then Err (InvalidStopWire "price_type")
    else if bool_decide (is_Some (ps_instant_execution request)) && negb trailing
    then Err (InvalidStopWire "instant_execution_without_trailing")
    else if negb trailing
    then if bool_decide (is_Some (ps_trailing_data request))
         then Err (InvalidStopWire "trailing_data_without_trailing") else Ok tt
    else audit_trailing request.

Definition take_profit_request (protection : TakeProfitProtection)
    (context : ProtectionRequestContext) (request_id : string)
    (direction expiration_type : Z) (expire_date : option Timestamp)
  : checkedv PostStopOrderRequest :=
  if bool_decide (tp_trailing protection = None) && bool_decide (tp_trigger_price protection = None)
  then Err MissingTakeProfitTrigger
  else
    let? _ := if bool_decide (is_Some (tp_trailing protection))
              then let? activation_price :=
                     ok_or (tp_trigger_price protection) TrailingActivationRequired in
                   validate_pending_trailing_activation (pc_position_side context)
                     (pc_reference_price context) activation_price
              else Ok tt in
    let? trailing_data :=
      transpose ((λ distance, trailing_request distance None) <$> tp_trailing protection) in
    let? price := optional_quotation (tp_limit_price protection) in
    let? stop_price := optional_quotation (tp_trigger_price protection) in
    let request := {|
      ps_figi := None;
      ps_quantity := pc_quantity_lots context;
      ps_price := price;
      ps_stop_price := stop_price;
      ps_direction := direction;
      ps_account_id := pc_account_id context;
      ps_expiration_type := expiration_type;
      ps_stop_order_type := as_i32 StopOrderType_TakeProfit;
      ps_expire_date := expire_date;
      ps_instrument_id := pc_instrument_id context;
      ps_exchange_order_type := if bool_decide (is_Some (tp_limit_price protection))
                                then as_i32 ExchangeOrderType_Limit
                                else as_i32 ExchangeOrderType_Market;
      ps_take_profit_type := if bool_decide (is_Some (tp_trailing protection))
                             then as_i32 TakeProfitType_Trailing
                             else as_i32 TakeProfitType_Regular;
      ps_trailing_data := trailing_data;
      ps_price_type := price_type (pc_price_convention context);
      ps_order_id := request_id;
      ps_confirm_margin_trade := pc_confirm_margin_trade context;
      ps_instant_execution := None |} in
    let? _ := audit_stop_order_request request in
    Ok request.

(** The fields of a stop-loss message that depend on the kind of protection. *)
Record StopLossFields := {
  slf_price : option Quotation;
  slf_stop_price : option Quotation;
  slf_stop_order_type : Z;
  slf_exchange_order_type : Z;
  slf_take_profit_type : Z;
  slf_trailing_data : option TrailingData;
  slf_instant_execution : option bool;
}.

Definition stop_loss_fields (context : ProtectionRequestContext) (stop_loss : StopLossProtection)
  : checkedv StopLossFields :=
  match stop_loss with
  | FixedStop trigger_price limit_price =>
      let? price := optional_quotation limit_price in
      let? stop_price := quotation trigger_price in
      Ok {| slf_price := price; slf_stop_price := Some stop_price;
            slf_stop_order_type := if bool_decide (is_Some limit_price)
                                   then as_i32 StopOrderType_StopLimit
                                   else as_i32 StopOrderType_StopLoss;
            slf_exchange_order_type := if bool_decide (is_Some limit_price)
                                       then as_i32 ExchangeOrderType_Limit
                                       else as_i32 ExchangeOrderType_Market;
            slf_take_profit_type := as_i32 TakeProfitType_Unspecified;
            slf_trailing_data := None; slf_instant_execution := None |}
  | Trailing distance activation_price protective_spread instant_execution =>
      if bool_decide (activation_price = None) && negb (bool_decide (instant_execution = Some true))
      then Err TrailingActivationRequired
      else if bool_decide (is_Some activation_price) && bool_decide (instant_execution = Some true)
      then Err ConflictingTrailingActivation
      else
        let? _ := match activation_price with
                  | Some activation_price =>
                      validate_pending_trailing_activation (pc_position_side context)
                        (pc_reference_price context) activation_price
                  | None => Ok tt
                  end in
        let? stop_price := optional_quotation activation_price in
        let? data := trailing_request distance protective_spread in
        Ok {| slf_price := None; slf_stop_price := stop_price;
              slf_stop_order_type := as_i32 StopOrderType_TakeProfit;
              slf_exchange_order_type := as_i32 ExchangeOrderType_Market;
              slf_take_profit_type := as_i32 TakeProfitType_Trailing;
              slf_trailing_data := Some data; slf_instant_execution := instant_execution |}
  end.

Definition stop_loss_request (stop_loss : StopLossProtection) (context : ProtectionRequestContext)
    (request_id : string) (direction expiration_type : Z) (expire_date : option Timestamp)
  : checkedv PostStopOrderRequest :=
  let? fields := stop_loss_fields context stop_loss in
  let request := {|
    ps_figi := None;
    ps_quantity := pc_quantity_lots context;
    ps_price := slf_price fields;
    ps_stop_price := slf_stop_price fields;
    ps_direction := direction;
    ps_account_id := pc_account_id context;
    ps_expiration_type := expiration_type;
    ps_stop_order_type := slf_stop_order_type fields;
    ps_expire_date := expire_date;
    ps_instrument_id := pc_instrument_id context;
    ps_exchange_order_type := slf_exchange_order_type fields;
    ps_take_profit_type := slf_take_profit_type fields;
    ps_trailing_data := slf_trailing_data fields;
    ps_price_type := price_type (pc_price_convention context);
    ps_order_id := request_id;
    ps_confirm_margin_trade := pc_confirm_margin_trade context;
    ps_instant_execution := slf_instant_execution fields |} in
  let? _ := audit_stop_order_request request in
  Ok request.

Definition protection_expiration (expire_at : option ProviderTimestamp)
  : checkedv (Z * option Timestamp) :=
  match expire_at with
  | Some value =>
      if nanos_in_second (pt_nanos value)
      then Ok (as_i32 GoodTillDate,
               Some {| ts_seconds := pt_seconds value; ts_nanos := pt_nanos value |})
      else Err TimestampError
  | None => Ok (as_i32 GoodTillCancel, None)
  end.

Definition closing_direction (side : PositionSide) : Z :=
  match side with
  | Long => as_i32 StopOrderDirection_Sell
  | Short => as_i32 StopOrderDirection_Buy
  end.

Definition protection_requests (plan : ProtectionPlan) (context : ProtectionRequestContext)
  : checkedv (list PostStopOrderRequest) :=
  let? _ := map_err Capability (validate TINVEST_PROTECTION_CAPABILITY plan) in
  let? _ := validate_text "account_id" (pc_account_id context) in
  let? _ := validate_text "instrument_id" (pc_instrument_id context) in
  let? _ := positive_quantity (pc_quantity_lots context) in
  let? (expiration_type, expire_date) := protection_expiration (pc_expire_at context) in
  let direction := closing_direction (pc_position_side context) in
  let? stop :=
    match pp_stop_loss plan with
    | Some stop_loss =>
        let? request_id := ok_or (ids_stop_loss (pc_request_ids context))
                             (MissingProtectionRequestId "stop_loss") in
        let? _ := validate_request_id request_id in
        let? request := stop_loss_request stop_loss context request_id direction
                          expiration_type expire_date in
        Ok [request]
    | None => Ok []
    end in
  match pp_take_profit plan with
  | Some take_profit =>
      let? request_id := ok_or (ids_take_profit (pc_request_ids context))
                           (MissingProtectionRequestId "take_profit") in
      let? _ := validate_request_id request_id in
      let? request := take_profit_request take_profit context request_id direction
                        expiration_type expire_date in
      Ok (stop ++ [request])
  | None => Ok stop
  end.

Definition leg_expire_at (command : ProtectionLegCommand) : checkedv (option ProviderTimestamp) :=
  match pl_expire_at_unix_seconds command, pl_expire_at_nanos command with
  | None, None => Ok None
  | Some seconds, nanos => Ok (Some {| pt_seconds := seconds; pt_nanos := default 0 nanos |})
  | None, Some _ => Err TimestampError
  end.

Definition leg_plan (command : ProtectionLegCommand) : ProtectionPlan * ProtectionRequestIds :=
  match pl_leg command with
  | StopLoss stop_loss =>
      ({| pp_stop_loss := Some stop_loss; pp_take_profit := None |},
       {| ids_stop_loss := Some (pl_client_request_id command); ids_take_profit := None |})
  | TakeProfit take_profit =>
      ({| pp_stop_loss := None; pp_take_profit := Some take_profit |},
       {| ids_stop_loss := None; ids_take_profit := Some (pl_client_request_id command) |})
  end.

Definition leg_context (command : ProtectionLegCommand) (expire_at : option ProviderTimestamp)
    (request_ids : ProtectionRequestIds) : ProtectionRequestContext := {|
  pc_account_id := pl_account_id command;
  pc_instrument_id := pl_instrument_id command;
  pc_quantity_lots := pl_quantity_lots command;
  pc_position_side := pl_position_side command;
  pc_price_convention := pl_price_convention command;
  pc_reference_price := pl_reference_price command;
  pc_expire_at := expire_at;
  pc_confirm_margin_trade := pl_confirm_margin_trade command;
  pc_request_ids := request_ids |}.

Definition protection_leg_request (command : ProtectionLegCommand) : checkedv PostStopOrderRequest :=
  let? expire_at := leg_expire_at command in
  let '(plan, request_ids) := leg_plan command in
  let? requests := protection_requests plan (leg_context command expire_at request_ids) in
  match requests with
  | [request] => Ok request
  | _ => Err (InvalidStopWire "protection leg must map to exactly one request")
  end.
End requests.

(** ** Reading a message back

    What the documented fields of a message say, as a command. *)

Definition read_price (q : Quotation) : option FixedPoint :=
  match from_units_nano (q_units q) (q_nano q) with Ok f => Some f | Err _ => None end.

Definition read_prices (o : option Quotation) : option (option FixedPoint) :=
  match o with Some q => Some <$> read_price q | None => Some None end.

Definition read_side (z : Z) : option OrderSide :=
  match enum_try_from z with
  | Some OrderDirection_Buy => Some Buy
  | Some OrderDirection_Sell => Some Sell
  | _ => None
  end.

Definition read_order_type (z : Z) : option RegularOrderType :=
  match enum_try_from z with
  | Some OrderType_Limit => Some Limit
  | Some OrderType_Market => Some Market
  | Some OrderType_Bestprice => Some BestPrice
  | _ => None
  end.

(** An unspecified time in force is an absent one. *)
Definition read_time_in_force (z : Z) : option (option TimeInForce) :=
  match enum_try_from z with
  | Some TimeInForceUnspecified => Some None
  | Some TimeInForceDay => Some (Some Day)
  | Some TimeInForceFillAndKill => Some (Some FillAndKill)
  | Some TimeInForceFillOrKill => Some (Some FillOrKill)
  | None => None
  end.

Definition read_price_type (z : Z) : option ExecutionPriceConvention :=
  match enum_try_from z with
  | Some PriceType_Currency => Some SettlementCurrency
  | Some PriceType_Point => Some Points
  | _ => None
  end.

Definition read_order_id_type (o : option Z) : option (option ProviderOrderIdentityKind) :=
  match o with
  | None => Some None
  | Some z => match enum_try_from z with
              | Some OrderIdType_Exchange => Some (Some BrokerOrder)
              | Some OrderIdType_Request => Some (Some ClientRequest)
              | _ => None
              end
  end.

Definition read_regular (r : PostOrderRequest) : option RegularOrderCommand :=
  side ← read_side (por_direction r);
  type ← read_order_type (por_order_type r);
  price ← read_prices (por_price r);
  tif ← read_time_in_force (por_time_in_force r);
  convention ← read_price_type (por_price_type r);
  Some {| ro_account_id := por_account_id r; ro_instrument_id := por_instrument_id r;
          ro_client_request_id := por_order_id r; ro_quantity_lots := por_quantity r;
          ro_price := price; ro_price_convention := convention; ro_side := side;
          ro_order_type := type; ro_time_in_force := tif;
          ro_confirm_margin_trade := por_confirm_margin_trade r |}.

Definition read_async (r : PostOrderAsyncRequest) : option RegularOrderCommand :=
  side ← read_side (pa_direction r);
  type ← read_order_type (pa_order_type r);
  price ← read_prices (pa_price r);
  tif ← match pa_time_in_force r with Some z => read_time_in_force z | None => Some None end;
  number ← pa_price_type r;
  convention ← read_price_type number;
  Some {| ro_account_id := pa_account_id r; ro_instrument_id := pa_instrument_id r;
          ro_client_request_id := pa_order_id r; ro_quantity_lots := pa_quantity r;
          ro_price := price; ro_price_convention := convention; ro_side := side;
          ro_order_type := type; ro_time_in_force := tif;
          ro_confirm_margin_trade := pa_confirm_margin_trade r |}.

Definition read_replace (r : ReplaceOrderRequest) : option ReplaceOrderCommand :=
  kind ← read_order_id_type (rr_order_id_type r);
  q ← rr_price r;
  price ← read_price q;
  number ← rr_price_type r;
  convention ← read_price_type number;
  Some {| rp_account_id := rr_account_id r; rp_existing_order_id := rr_order_id r;
          rp_existing_order_id_kind := kind; rp_replacement_request_id := rr_idempotency_key r;
          rp_quantity_lots := rr_quantity r; rp_price := price; rp_price_convention := convention;
          rp_confirm_margin_trade := rr_confirm_margin_trade r |}.

Definition read_cancel (r : CancelOrderRequest) : option CancelOrderCommand :=
  kind ← read_order_id_type (cor_order_id_type r);
  Some {| co_account_id := cor_account_id r; co_order_id := cor_order_id r;
          co_order_id_kind := kind |}.

(** ** What is admissible *)

(** Positive, with whole units that fit the provider's [int64]. *)
Definition price_ok (v : FixedPoint) : bool :=
  (0 <? total_nanos v) && (total_nanos v <? 2 ^ 63 * NANO_SCALE).

Section admissible.
Context `{UF : !UuidFormat}.

Definition request_id_ok (id : string) : bool := (String.length id <=? 36)%nat && uuid_parses id.

Definition named_order_ok (kind : option ProviderOrderIdentityKind) (id : string) : bool :=
  negb (bool_decide (kind = Some ClientRequest)) || request_id_ok id.

Definition regular_ok (c : RegularOrderCommand) : bool :=
  negb (is_blank (ro_account_id c)) && negb (is_blank (ro_instrument_id c))
  && request_id_ok (ro_client_request_id c) && (0 <? ro_quantity_lots c)
  && match ro_order_type c with
     | Limit => match ro_price c with Some p => price_ok p | None => false end
     | _ => bool_decide (ro_price c = None) && bool_decide (ro_time_in_force c = None)
     end.

Definition replace_ok (c : ReplaceOrderCommand) : bool :=
  negb (is_blank (rp_account_id c)) && negb (is_blank (rp_existing_order_id c))
  && request_id_ok (rp_replacement_request_id c)
  && named_order_ok (rp_existing_order_id_kind c) (rp_existing_order_id c)
  && (0 <? rp_quantity_lots c) && price_ok (rp_price c).

Definition cancel_ok (c : CancelOrderCommand) : bool :=
  negb (is_blank (co_account_id c)) && negb (is_blank (co_order_id c))
  && named_order_ok (co_order_id_kind c) (co_order_id c).

(** ** Lemmas *)

Lemma wire_positive field q v :
  read_price q = Some v → 0 < total_nanos v → positive_wire_quotation field q = Ok tt.
Proof.
  unfold read_price, positive_wire_quotation, positive_fixed.
  destruct (from_units_nano _ _); [intros [= ->] Hp|done]. simpl. by apply Z.ltb_lt in Hp as ->.
Qed.

(** A price on the wire: it reads as the price and passes the audit of every field. *)
Definition wire_price (v : FixedPoint) (q : Quotation) : Prop :=
  read_price q = Some v ∧ ∀ field, positive_wire_quotation field q = Ok tt.

Definition wire_prices (v : option FixedPoint) (o : option Quotation) : Prop :=
  read_prices o = Some v ∧ (bool_decide (is_Some o) = bool_decide (is_Some v)) ∧
  ∀ field, match o with Some q => positive_wire_quotation field q | None => Ok tt end = Ok tt.

Lemma quotation_encodes : decodes quotation price_ok wire_price.
Proof.
  intros v. unfold quotation, positive_fixed, price_ok.
  pose proof (units_nano_value v) as Hv. destruct (units_nano v) as [units nano].
  destruct Hv as (Hv & Hn & Hs). destruct (0 <? total_nanos v) eqn:Hp; simpl; [|done]. unfold checked, fits, NANO_SCALE in *.
  destruct (_ && _) eqn:Hfit; simpl.
  - apply andb_true_iff in Hfit as [Hlo Hhi]. int_unfold. split; [lia|].
    assert (read_price {| q_units := units; q_nano := nano |} = Some v) as Hread;
      [|split; [done|intros f; eapply wire_positive; [done|lia]]].
    unfold read_price, from_units_nano. simpl.
    destruct (UnitsNano_new units nano) as [u|] eqn:Hu.
    + apply UnitsNano_new_Ok in Hu as [_ ->]. destruct v as [t]. simpl in *.
      unfold fixed_point, NANO_SCALE. simpl. by rewrite Hv.
    + exfalso. unfold UnitsNano_new in Hu.
      assert (validate_nano nano = Ok tt) as Hok by by apply validate_nano_ok.
      by rewrite Hok in Hu.
  - int_unfold. apply andb_false_iff in Hfit as [Hl|Hh]; lia.
Qed.

Lemma prices_encode :
  decodes optional_quotation (option_wf price_ok) wire_prices.
Proof.
  intros [v|]; unfold optional_quotation; simpl; [|done].
  pose proof (quotation_encodes v) as H. destruct (quotation v) as [q|]; simpl; [|done].
  destruct H as [-> [Hread Hpos]]. split; [done|]. split; [simpl; by rewrite Hread|done].
Qed.

Lemma validate_text_ok field : decodes (validate_text field) (λ v, negb (is_blank v)) (λ _ _, True).
Proof. intros v. unfold validate_text. by destruct (is_blank v). Qed.

Lemma validate_request_id_ok : decodes validate_request_id request_id_ok (λ _ _, True).
Proof.
  intros v. unfold validate_request_id, request_id_ok.
  destruct (36 <? _)%nat eqn:H1, (uuid_parses v) eqn:H2; simpl; rewrite ?andb_false_r, ?andb_true_r; try done.
  all: rewrite ?Nat.ltb_lt, ?Nat.ltb_ge in H1; try (split; [|done]).
  - by apply Nat.leb_gt.
  - by apply Nat.leb_le.
Qed.

Lemma positive_quantity_ok : decodes positive_quantity (λ v, 0 <? v) (λ _ _, True).
Proof. intros v. unfold positive_quantity. by destruct (0 <? v). Qed.

Lemma validate_named_order_ok kind : decodes (validate_named_order kind) (named_order_ok kind) (λ _ _, True).
Proof.
  intros id. unfold validate_named_order, named_order_ok. case_bool_decide; simpl; [|done].
  apply validate_request_id_ok.
Qed.

Lemma read_side_direction s : read_side (order_direction s) = Some s.
Proof. by destruct s. Qed.
Lemma read_order_type_number t : read_order_type (order_type t) = Some t.
Proof. by destruct t. Qed.
Lemma read_time_in_force_number t : read_time_in_force (time_in_force t) = Some (Some t).
Proof. by destruct t. Qed.
Lemma read_price_type_number c : read_price_type (price_type c) = Some c.
Proof. by destruct c. Qed.
Lemma read_order_id_type_number k : read_order_id_type (order_id_type <$> k) = Some k.
Proof. by destruct k as [[]|]. Qed.
End admissible.

#[export] Hint Rewrite read_side_direction read_order_type_number read_time_in_force_number
  read_price_type_number read_order_id_type_number : wire.

(** One check after the other: the failing branch refutes admissibility. *)
Ltac check_field H :=
  decode_field H;
  [ match goal with E : _ = true |- _ => rewrite E; clear E end;
    repeat match goal with E : True |- _ => clear E end; cbn [andb]
  | match goal with E : _ = false |- _ => by rewrite E, ?andb_false_r end ].

Section orders.
Context `{UF : !UuidFormat}.

(** A builder of messages from commands: it succeeds exactly on the admissible ones,
    and the message reads back as the command. *)
Lemma regular_builds : decodes regular_order_request regular_ok (λ c r, read_regular r = Some c).
Proof.
  intros c. unfold regular_order_request, regular_ok.
  check_field (validate_text_ok "account_id"). check_field (validate_text_ok "instrument_id").
  check_field validate_request_id_ok. check_field positive_quantity_ok.
  destruct c as [acc ins id lots price conv side [] tif confirm];
    unfold validate_regular_price; simpl in *; destruct price as [p|]; simpl; try done.
  1: unfold positive_fixed; destruct (0 <? total_nanos p) eqn:Hp;
     [|by unfold price_ok; rewrite Hp].
  all: destruct tif as [t|]; simpl; try done.
  all: try (pose proof (prices_encode (Some p)) as Hq; simpl in Hq;
            destruct (optional_quotation (Some p)); [destruct Hq as [? [Hq _]]; split; [done|]|done]).
  all: try split; try done; unfold read_regular; simpl;
    by autorewrite with wire; simpl; try rewrite Hq; simpl; autorewrite with wire.
Qed.

Lemma async_builds :
  decodes async_regular_order_request regular_ok (λ c r, read_async r = Some c).
Proof.
  intros c. unfold async_regular_order_request.
  pose proof (regular_builds c) as H. destruct (regular_order_request c) as [r|] eqn:Hr; [|done].
  destruct H as [Hok Hread]. split; [done|].
  unfold read_regular in Hread. unfold read_async. simpl.
  destruct (read_side _), (read_order_type _), (read_prices _); try done; simpl in *.
  destruct (read_time_in_force (por_time_in_force r)) as [tif|]; [|done]. simpl in Hread.
  destruct (read_price_type _); [|done]. simpl in Hread. injection Hread as <-. simpl.
  autorewrite with wire. simpl. destruct tif as [t|]; simpl; by autorewrite with wire.
Qed.

Lemma replace_builds : decodes replace_order_request replace_ok (λ c r, read_replace r = Some c).
Proof.
  intros c. unfold replace_order_request, replace_ok.
  check_field (validate_text_ok "account_id"). check_field (validate_text_ok "existing_order_id").
  check_field validate_request_id_ok.
  check_field (validate_named_order_ok (rp_existing_order_id_kind c)).
  check_field positive_quantity_ok. decode_field quotation_encodes; [|done].
  destruct Hrel as [Hread _]. split; [done|]. unfold read_replace. simpl.
  autorewrite with wire. simpl. rewrite Hread. simpl. autorewrite with wire. by destruct c.
Qed.

Lemma cancel_builds : decodes cancel_order_request cancel_ok (λ c r, read_cancel r = Some c).
Proof.
  intros c. unfold cancel_order_request, cancel_ok.
  check_field (validate_text_ok "account_id"). check_field (validate_text_ok "order_id").
  decode_field (validate_named_order_ok (co_order_id_kind c)); [|done]. split; [done|].
  unfold read_cancel. simpl. autorewrite with wire. by destruct c.
Qed.

(** C4. Order messages say exactly what the command says.  A regular order (posted or
    posted asynchronously), a replacement and a cancellation become a message exactly
    when the command is admissible: its texts are present, its request identity is a
    uuid of at most 36 bytes, its lots are positive, a limit order has a price and any
    other order neither a price nor a time in force, and every price is positive with
    whole units that fit the wire.  The message reads back as the very command: account,
    instrument, side, type, lots, idempotency key, price exact to the nano, price
    convention, time in force and margin consent. *)
Theorem order_messages_roundtrip :
  decodes regular_order_request regular_ok (λ c r, read_regular r = Some c) ∧
  decodes async_regular_order_request regular_ok (λ c r, read_async r = Some c) ∧
  decodes replace_order_request replace_ok (λ c r, read_replace r = Some c) ∧
  decodes cancel_order_request cancel_ok (λ c r, read_cancel r = Some c).
Proof. eauto using regular_builds, async_builds, replace_builds, cancel_builds. Qed.
End orders.

(** ** Protection messages *)

(** What a stop-order message orders: a stop, a take-profit, or a trailing order.  The
    wire has one trailing order for trailing stop-losses and trailing take-profits. *)
Inductive StopMeaning :=
| MeansStop (trigger : FixedPoint) (limit : option FixedPoint)
| MeansTakeProfit (trigger : FixedPoint) (limit : option FixedPoint)
| MeansTrailing (distance : TrailingDistance) (activation : option FixedPoint)
    (spread : option TrailingDistance) (instant : option bool).

Definition leg_meaning (leg : ProtectionLeg) : option StopMeaning :=
  match leg with
  | StopLoss (FixedStop trigger limit) => Some (MeansStop trigger limit)
  | StopLoss (Trailing distance activation spread instant) =>
      Some (MeansTrailing distance activation spread instant)
  | TakeProfit t =>
      match tp_trailing t, tp_trigger_price t, tp_limit_price t with
      | None, Some trigger, limit => Some (MeansTakeProfit trigger limit)
      | Some distance, Some trigger, None => Some (MeansTrailing distance (Some trigger) None None)
      | _, _, _ => None
      end
  end.

Definition read_mode (z : Z) : option TrailingDistanceMode :=
  match enum_try_from z with
  | Some TrailingValueAbsolute => Some AbsolutePrice
  | Some TrailingValueRelative => Some RelativePercent
  | _ => None
  end.

Definition read_distance (o : option Quotation) (mode : Z) : option TrailingDistance :=
  q ← o; value ← read_price q; mode ← read_mode mode;
  Some {| td_value := value; td_mode := mode |}.

Definition read_trailing (data : TrailingData)
  : option (TrailingDistance * option TrailingDistance) :=
  distance ← read_distance (tr_indent data) (tr_indent_type data);
  match tr_spread data with
  | None => Some (distance, None)
  | Some _ => spread ← read_distance (tr_spread data) (tr_spread_type data);
              Some (distance, Some spread)
  end.

Definition read_meaning (r : PostStopOrderRequest) : option StopMeaning :=
  price ← read_prices (ps_price r);
  stop_price ← read_prices (ps_stop_price r);
  match enum_try_from (ps_stop_order_type r), enum_try_from (ps_take_profit_type r),
        enum_try_from (ps_exchange_order_type r), price with
  | Some StopOrderType_TakeProfit, Some TakeProfitType_Trailing, Some ExchangeOrderType_Market, None =>
      data ← ps_trailing_data r; trailing ← read_trailing data;
      Some (MeansTrailing trailing.1 stop_price trailing.2 (ps_instant_execution r))
  | Some StopOrderType_TakeProfit, Some TakeProfitType_Regular, Some ExchangeOrderType_Limit, Some _
  | Some StopOrderType_TakeProfit, Some TakeProfitType_Regular, Some ExchangeOrderType_Market, None =>
      trigger ← stop_price; Some (MeansTakeProfit trigger price)
  | Some StopOrderType_StopLimit, _, Some ExchangeOrderType_Limit, Some _
  | Some StopOrderType_StopLoss, _, Some ExchangeOrderType_Market, None =>
      trigger ← stop_price; Some (MeansStop trigger price)
  | _, _, _, _ => None
  end.

(** When the message expires, as far as the wire says it. *)
Definition read_expiration (r : PostStopOrderRequest) : option (option ProviderTimestamp) :=
  match enum_try_from (ps_expiration_type r), ps_expire_date r with
  | Some GoodTillCancel, None => Some None
  | Some GoodTillDate, Some t => Some (Some {| pt_seconds := ts_seconds t; pt_nanos := ts_nanos t |})
  | _, _ => None
  end.

(** The direction that reduces a position. *)
Definition closes (side : PositionSide) (d : StopOrderDirection) : bool :=
  match side, d with
  | Long, StopOrderDirection_Sell | Short, StopOrderDirection_Buy => true
  | _, _ => false
  end.

Definition distance_ok (d : TrailingDistance) : bool := price_ok (td_value d).

(** An activation price still ahead of the market. *)
Definition pending (side : PositionSide) (reference activation : FixedPoint) : bool :=
  (0 <? total_nanos reference) && price_ok activation
  && match side with
     | Long => total_nanos reference <? total_nanos activation
     | Short => total_nanos activation <? total_nanos reference
     end.

Definition stop_loss_ok (side : PositionSide) (reference : FixedPoint) (s : StopLossProtection)
  : bool :=
  match s with
  | FixedStop trigger limit => price_ok trigger && option_wf price_ok limit
  | Trailing distance activation spread instant =>
      distance_ok distance && option_wf distance_ok spread
      && match activation, bool_decide (instant = Some true) with
         | Some p, false => pending side reference p
         | None, true => true
         | _, _ => false
         end
  end.

Definition take_profit_ok (side : PositionSide) (reference : FixedPoint) (t : TakeProfitProtection)
  : bool :=
  match tp_trailing t, tp_trigger_price t, tp_limit_price t with
  | None, Some trigger, limit => price_ok trigger && option_wf price_ok limit
  | Some distance, Some trigger, None => distance_ok distance && pending side reference trigger
  | _, _, _ => false
  end.

Section protection.
Context `{UF : !UuidFormat}.

Lemma read_mode_number m : read_mode (trailing_mode m) = Some m.
Proof. by destruct m. Qed.

Lemma trailing_mode_is_trailing m : one_of (trailing_mode m) trailing_value = true.
Proof. by destruct m. Qed.

Lemma read_distance_of d q :
  wire_price (td_value d) q → read_distance (Some q) (trailing_mode (td_mode d)) = Some d.
Proof.
  intros [Hq _]. unfold read_distance. simpl. rewrite Hq. simpl. rewrite read_mode_number. by destruct d.
Qed.

(** The trailing part of a message: it reads back and its own audit accepts it. *)
Definition wire_trailing (d : TrailingDistance) (s : option TrailingDistance) (t : TrailingData) : Prop :=
  read_trailing t = Some (d, s) ∧
  match tr_indent t, one_of (tr_indent_type t) trailing_value with
  | Some indent, true =>
      positive_wire_quotation "trailing_indent" indent = Ok tt ∧
      Bool.eqb (bool_decide (is_Some (tr_spread t))) (one_of (tr_spread_type t) trailing_value) = true ∧
      match tr_spread t with
      | Some spread => positive_wire_quotation "trailing_spread" spread
      | None => Ok tt
      end = Ok tt
  | _, _ => False
  end.

Lemma trailing_builds d s :
  match trailing_request d s with
  | Ok t => distance_ok d && option_wf distance_ok s = true ∧ wire_trailing d s t
  | Err _ => distance_ok d && option_wf distance_ok s = false
  end.
Proof.
  unfold trailing_request, distance_ok, positive_fixed.
  destruct (0 <? total_nanos (td_value d)) eqn:Hd; [|unfold price_ok; by rewrite Hd].
  destruct s as [s|]; simpl.
  - destruct (0 <? total_nanos (td_value s)) eqn:Hs;
      [|unfold price_ok; by rewrite Hs, andb_false_r].
    pose proof (quotation_encodes (td_value d)) as Hq.
    destruct (quotation (td_value d)) as [q|]; [destruct Hq as [-> Hq]|by rewrite Hq].
    pose proof (quotation_encodes (td_value s)) as Hp.
    destruct (quotation (td_value s)) as [p|]; [destruct Hp as [-> Hp]|by rewrite Hp].
    simpl. split; [done|]. split.
    + unfold read_trailing. cbn [tr_indent tr_spread tr_indent_type tr_spread_type].
      rewrite (read_distance_of d q), (read_distance_of s p) by done. done.
    + simpl. rewrite !trailing_mode_is_trailing. by repeat split; try apply Hq; try apply Hp.
  - pose proof (quotation_encodes (td_value d)) as Hq.
    destruct (quotation (td_value d)) as [q|]; [destruct Hq as [-> Hq]|by rewrite Hq].
    simpl. split; [done|]. split.
    + unfold read_trailing. cbn [tr_indent tr_spread tr_indent_type tr_spread_type].
      by rewrite (read_distance_of d q).
    + simpl. rewrite trailing_mode_is_trailing. by repeat split; try apply Hq.
Qed.

Lemma pending_activation side reference p :
  match validate_pending_trailing_activation side reference p with
  | Ok _ => option_wf price_ok (Some p) = true → pending side reference p = true
  | Err _ => pending side reference p = false
  end.
Proof.
  unfold validate_pending_trailing_activation, positive_fixed, pending.
  destruct (0 <? total_nanos reference); simpl; [|done].
  unfold price_ok. destruct (0 <? total_nanos p); simpl; [|done].
  destruct side, (_ <? _) eqn:Hlt; simpl; rewrite ?andb_false_r; try done;
    intros ->; by rewrite ?Hlt.
Qed.

(** ** One message *)

Section message.
Context (context : ProtectionRequestContext) (request_id : string).
Context (expiration_type : Z) (expire_date : option Timestamp).
Context (account_present : is_blank (pc_account_id context) = false).
Context (instrument_present : is_blank (pc_instrument_id context) = false).
Context (lots_positive : (0 <? pc_quantity_lots context) = true).
Context (id_valid : request_id_ok request_id = true).
Context (expiration_valid :
  match enum_try_from expiration_type, expire_date with
  | Some GoodTillCancel, None => true
  | Some GoodTillDate, Some date => nanos_in_second (ts_nanos date)
  | _, _ => false
  end = true).

(** What every message of the context shares. *)
Definition envelope (r : PostStopOrderRequest) : Prop :=
  ps_figi r = None ∧ ps_quantity r = pc_quantity_lots context ∧
  ps_direction r = closing_direction (pc_position_side context) ∧
  ps_account_id r = pc_account_id context ∧ ps_instrument_id r = pc_instrument_id context ∧
  ps_expiration_type r = expiration_type ∧ ps_expire_date r = expire_date ∧
  ps_price_type r = price_type (pc_price_convention context) ∧ ps_order_id r = request_id ∧
  ps_confirm_margin_trade r = pc_confirm_margin_trade context.

(** With the envelope in order, the audit is about the prices and the trailing part. *)
Lemma audit_of_envelope r limit stop :
  envelope r → wire_prices limit (ps_price r) → wire_prices stop (ps_stop_price r) →
  audit_stop_order_request r =
  if bool_decide (is_Some (ps_instant_execution r))
     && negb (ps_take_profit_type r =? as_i32 TakeProfitType_Trailing)
  then Err (InvalidStopWire "instant_execution_without_trailing")
  else if negb (ps_take_profit_type r =? as_i32 TakeProfitType_Trailing)
  then if bool_decide (is_Some (ps_trailing_data r))
       then Err (InvalidStopWire "trailing_data_without_trailing") else Ok tt
  else audit_trailing r.
Proof.
  intros (Hf & Hq & Hd & Ha & Hi & He & Hx & Ht & Ho & _) (_ & _ & Hp) (_ & _ & Hs).
  unfold audit_stop_order_request, audit_expiration, positive_quantity, validate_text.
  rewrite Hf, Hq, Hd, Ha, Hi, He, Hx, Ht, Ho, lots_positive, account_present, instrument_present.
  pose proof (validate_request_id_ok request_id) as Hid. rewrite id_valid in Hid.
  destruct (validate_request_id request_id) as [[]|]; [|done].
  rewrite expiration_valid, (Hp "price"), (Hs "stop_price").
  by destruct (pc_position_side context), (pc_price_convention context).
Qed.

(** A trailing message that reads back passes the audit of its trailing part. *)
Lemma audit_trailing_accepts r d s t :
  ps_stop_order_type r = as_i32 StopOrderType_TakeProfit →
  ps_exchange_order_type r = as_i32 ExchangeOrderType_Market → ps_price r = None →
  bool_decide (is_Some (ps_stop_price r)) = negb (bool_decide (ps_instant_execution r = Some true)) →
  ps_trailing_data r = Some t → wire_trailing d s t → audit_trailing r = Ok tt.
Proof.
  intros Hst Hex Hp Hact Ht [_ Hw]. unfold audit_trailing. rewrite Hst, Hex, Hp, Ht. simpl.
  destruct (tr_indent t) as [indent|], (one_of (tr_indent_type t) trailing_value); try done.
  destruct Hw as (Hi & He & Hs). rewrite Hi, He, Hs.
  destruct (ps_stop_price r), (bool_decide (ps_instant_execution r = Some true)); done.
Qed.

(** The message of a leg: in the envelope, read as the leg, accepted by the audit. *)
Definition message_of (leg : ProtectionLeg) (r : PostStopOrderRequest) : Prop :=
  envelope r ∧ read_meaning r = leg_meaning leg ∧ is_Some (leg_meaning leg) ∧
  audit_stop_order_request r = Ok tt.


Lemma plain_message leg r trigger limit :
  envelope r → wire_prices limit (ps_price r) → wire_prices (Some trigger) (ps_stop_price r) →
  ps_take_profit_type r ≠ as_i32 TakeProfitType_Trailing → ps_instant_execution r = None →
  ps_trailing_data r = None → read_meaning r = leg_meaning leg → is_Some (leg_meaning leg) →
  message_of leg r.
Proof.
  intros Henv Hl Hs Htp Hi Ht Hm Hsome. split; [done|]. split; [done|]. split; [done|].
  rewrite (audit_of_envelope r limit (Some trigger)) by done. rewrite Hi, Ht. simpl.
  apply Z.eqb_neq in Htp. unfold as_i32 in Htp. simpl in Htp. by rewrite Htp.
Qed.

Lemma trailing_message leg r d act sp t :
  envelope r → ps_price r = None → wire_prices act (ps_stop_price r) →
  ps_stop_order_type r = as_i32 StopOrderType_TakeProfit →
  ps_exchange_order_type r = as_i32 ExchangeOrderType_Market →
  ps_take_profit_type r = as_i32 TakeProfitType_Trailing →
  ps_trailing_data r = Some t → wire_trailing d sp t →
  bool_decide (is_Some act) = negb (bool_decide (ps_instant_execution r = Some true)) →
  leg_meaning leg = Some (MeansTrailing d act sp (ps_instant_execution r)) → message_of leg r.
Proof.
  intros Henv Hp Hs Hst Hex Htp Hdata Htr Hact Hleg.
  split; [done|]. split; [|split; [by rewrite Hleg|]].
  - unfold read_meaning. destruct Hs as (Hs & _). rewrite Hp, Hs, Hst, Htp, Hex, Hdata, Hleg. simpl.
    destruct Htr as [-> _]. done.
  - rewrite (audit_of_envelope r None act); [|done|by rewrite Hp|done].
    rewrite Htp. simpl. rewrite andb_false_r.
    eapply audit_trailing_accepts; [done..| |done|done].
    destruct Hs as (_ & -> & _). done.
Qed.

(** The final audit hands the message on. *)
Lemma accepted_message (ok : bool) leg r :
  ok = true → message_of leg r →
  match (let? _ := audit_stop_order_request r in Ok r) with
  | Ok r => ok = true ∧ message_of leg r
  | Err _ => ok = false
  end.
Proof. intros Hok Hm. pose proof Hm as (_ & _ & _ & ->). done. Qed.

Lemma stop_loss_builds sl :
  match stop_loss_request sl context request_id (closing_direction (pc_position_side context))
          expiration_type expire_date with
  | Ok r => stop_loss_ok (pc_position_side context) (pc_reference_price context) sl = true ∧
            message_of (StopLoss sl) r
  | Err _ => stop_loss_ok (pc_position_side context) (pc_reference_price context) sl = false
  end.
Proof.
  unfold stop_loss_request, stop_loss_fields. destruct sl as [trigger limit|d act sp inst].
  - pose proof (prices_encode limit) as Hl. simpl.
    destruct (optional_quotation limit) as [price|]; [destruct Hl as [-> Hl]|by rewrite Hl, andb_false_r].
    pose proof (quotation_encodes trigger) as Ht.
    destruct (quotation trigger) as [q|]; [destruct Ht as [-> Ht]|by rewrite Ht].
    destruct Ht as [Hr Hpos].
    apply accepted_message, (plain_message _ _ trigger limit); try done.
    + split; [simpl; by rewrite Hr|done].
    + unfold read_meaning. simpl. destruct Hl as (-> & _). rewrite Hr. by destruct limit.
  - pose proof (trailing_builds d sp) as Htr. pose proof (prices_encode act) as Hact.
    cbn [stop_loss_ok].
    destruct (decide (is_Some act)) as [[p ->]|Hno%eq_None_not_Some]; [|subst act];
      destruct (bool_decide (inst = Some true)) eqn:Hi; simpl;
      rewrite ?andb_false_r; try done.
    + pose proof (pending_activation (pc_position_side context) (pc_reference_price context) p) as Hp.
      destruct (validate_pending_trailing_activation _ _ _); [|by rewrite Hp, andb_false_r].
      destruct (optional_quotation (Some p)) as [o|];
        [|unfold pending; simpl in Hact; by rewrite Hact, !andb_false_r].
      destruct Hact as [Hok Hact]. rewrite (Hp Hok).
      destruct (trailing_request d sp) as [t|]; [destruct Htr as [-> Htr]|by rewrite Htr].
      eapply accepted_message, (trailing_message _ _ d (Some p) sp t); try done; simpl; by rewrite Hi.
    + destruct (trailing_request d sp) as [t|]; [destruct Htr as [-> Htr]|by rewrite Htr].
      eapply accepted_message, (trailing_message _ _ d None sp t); try done; simpl; by rewrite Hi.
Qed.

Lemma take_profit_builds tp :
  match take_profit_request tp context request_id (closing_direction (pc_position_side context))
          expiration_type expire_date with
  | Ok r => take_profit_ok (pc_position_side context) (pc_reference_price context) tp = true ∧
            message_of (TakeProfit tp) r
  | Err _ => take_profit_ok (pc_position_side context) (pc_reference_price context) tp = false
  end.
Proof.
  destruct tp as [trigger limit [d|]]; unfold take_profit_request, take_profit_ok; simpl;
    (destruct trigger as [p|]; [simpl|done]).
  - pose proof (pending_activation (pc_position_side context) (pc_reference_price context) p) as Hp.
    destruct (validate_pending_trailing_activation _ _ _);
      [|destruct limit; [done|by rewrite Hp, andb_false_r]].
    pose proof (trailing_builds d None) as Htr. simpl in Htr. rewrite andb_true_r in Htr.
    destruct (trailing_request d None) as [t|];
      [destruct Htr as [Hd Htr]|destruct limit; [done|by rewrite Htr]]. simpl.
    pose proof (prices_encode limit) as Hl. pose proof (prices_encode (Some p)) as Hact.
    destruct (optional_quotation limit) as [price|]; [|by destruct limit].
    destruct (optional_quotation (Some p)) as [o|];
      [|destruct limit; [done|unfold pending; simpl in Hact; by rewrite Hact, !andb_false_r]].
    destruct Hact as [Hok Hact], Hl as [_ Hl]. destruct limit as [l|].
    + match goal with |- context [audit_stop_order_request ?r] =>
        rewrite (audit_of_envelope r (Some l) (Some p)) end; done.
    + rewrite Hd, (Hp Hok). destruct price as [q|]; [by destruct Hl as (_ & ? & _)|].
      by eapply accepted_message, (trailing_message _ _ d (Some p) None t).
  - pose proof (prices_encode limit) as Hl.
    destruct (optional_quotation limit) as [price|]; [destruct Hl as [-> Hl]|by rewrite Hl, andb_false_r].
    pose proof (prices_encode (Some p)) as Ht. simpl in Ht.
    destruct (optional_quotation (Some p)) as [o|]; [destruct Ht as [-> Ht]|by rewrite Ht].
    apply accepted_message, (plain_message _ _ p limit); try done.
    unfold read_meaning. simpl. destruct Hl as (-> & _), Ht as (-> & _). by destruct limit.
Qed.
End message.

(** ** A plan *)

Definition expire_ok (t : option ProviderTimestamp) : bool :=
  option_wf (λ t, nanos_in_second (pt_nanos t)) t.

(** The legs of a plan, each with the identity it is to be sent under. *)
Definition plan_legs (plan : ProtectionPlan) (ids : ProtectionRequestIds)
  : list (ProtectionLeg * option string) :=
  match pp_stop_loss plan with Some s => [(StopLoss s, ids_stop_loss ids)] | None => [] end ++
  match pp_take_profit plan with Some t => [(TakeProfit t, ids_take_profit ids)] | None => [] end.

Definition leg_protects (side : PositionSide) (reference : FixedPoint) (leg : ProtectionLeg) : bool :=
  match leg with
  | StopLoss s => stop_loss_ok side reference s
  | TakeProfit t => take_profit_ok side reference t
  end.

Definition leg_sendable (context : ProtectionRequestContext) (leg : ProtectionLeg * option string)
  : bool :=
  match leg.2 with Some id => request_id_ok id | None => false end
  && leg_protects (pc_position_side context) (pc_reference_price context) leg.1.

Definition plan_ok (plan : ProtectionPlan) (context : ProtectionRequestContext) : bool :=
  negb (is_blank (pc_account_id context)) && negb (is_blank (pc_instrument_id context))
  && (0 <? pc_quantity_lots context) && expire_ok (pc_expire_at context)
  && forallb (leg_sendable context) (plan_legs plan (pc_request_ids context)).

(** A message that carries out one leg under its identity. *)
Definition protects (context : ProtectionRequestContext) (leg : ProtectionLeg * option string)
    (r : PostStopOrderRequest) : Prop :=
  read_meaning r = leg_meaning leg.1 ∧ is_Some (leg_meaning leg.1) ∧
  (∃ d, enum_try_from (ps_direction r) = Some d ∧ closes (pc_position_side context) d = true) ∧
  ps_quantity r = pc_quantity_lots context ∧ ps_account_id r = pc_account_id context ∧
  ps_instrument_id r = pc_instrument_id context ∧ leg.2 = Some (ps_order_id r) ∧
  read_price_type (ps_price_type r) = Some (pc_price_convention context) ∧
  ps_confirm_margin_trade r = pc_confirm_margin_trade context ∧
  read_expiration r = Some (pc_expire_at context) ∧ audit_stop_order_request r = Ok tt.

Lemma tinvest_supports_plan plan : validate TINVEST_PROTECTION_CAPABILITY plan = Ok tt.
Proof.
  unfold validate, validate_stop_loss, validate_take_profit, validate_trailing. simpl.
  repeat case_match; simplify_eq; prop_tests; done.
Qed.

Lemma message_protects context id expire_type date leg r :
  protection_expiration (pc_expire_at context) = Ok (expire_type, date) →
  message_of context id expire_type date leg r → protects context (leg, Some id) r.
Proof.
  intros Hexp ((_ & Hq & Hd & Ha & Hi & He & Hx & Ht & Ho & Hc) & Hm & Hs & Hau).
  unfold protects. rewrite Hd, Ht, read_price_type_number. simpl.
  split; [done|]. split; [done|]. split.
  { destruct (pc_position_side context);
      [exists StopOrderDirection_Sell|exists StopOrderDirection_Buy]; done. }
  split_and!; try done; [by rewrite Ho|].
  unfold read_expiration. rewrite He, Hx. unfold protection_expiration in Hexp.
  destruct (pc_expire_at context) as [[sec nan]|]; cbn -[as_i32] in Hexp;
    [|by injection Hexp as <- <-].
  destruct (nanos_in_second nan); [by injection Hexp as <- <-|done].
Qed.

Lemma expiration_checked t :
  match protection_expiration t with
  | Ok (expire_type, date) =>
      expire_ok t = true ∧
      match enum_try_from expire_type, date with
      | Some GoodTillCancel, None => true
      | Some GoodTillDate, Some date => nanos_in_second (ts_nanos date)
      | _, _ => false
      end = true
  | Err _ => expire_ok t = false
  end.
Proof. destruct t as [t|]; simpl; [|done]. by destruct (nanos_in_second (pt_nanos t)) eqn:H. Qed.

(** One leg under its identity, whatever builds its message. *)
Lemma leg_builds context leg (id : option string) e (build : string → checkedv PostStopOrderRequest) :
  (∀ rid, request_id_ok rid = true →
    match build rid with
    | Ok r => leg_protects (pc_position_side context) (pc_reference_price context) leg = true ∧
              protects context (leg, Some rid) r
    | Err _ => leg_protects (pc_position_side context) (pc_reference_price context) leg = false
    end) →
  match (let? rid := ok_or id e in let? _ := validate_request_id rid in build rid) with
  | Ok r => leg_sendable context (leg, id) = true ∧ protects context (leg, id) r
  | Err _ => leg_sendable context (leg, id) = false
  end.
Proof.
  intros Hb. unfold leg_sendable. destruct id as [rid|]; simpl; [|done].
  pose proof (validate_request_id_ok rid) as Hid.
  destruct (validate_request_id rid) as [[]|]; [destruct Hid as [Hid _]|by rewrite Hid].
  rewrite Hid. simpl. specialize (Hb rid Hid). by destruct (build rid).
Qed.

Section legs.
Context (context : ProtectionRequestContext) (expire_type : Z) (date : option Timestamp).
Context (account_present : is_blank (pc_account_id context) = false).
Context (instrument_present : is_blank (pc_instrument_id context) = false).
Context (lots_positive : (0 <? pc_quantity_lots context) = true).
Context (expires : protection_expiration (pc_expire_at context) = Ok (expire_type, date)).

Notation sends leg id computation :=
  (match computation with
   | Ok r => leg_sendable context (leg, id) = true ∧ protects context (leg, id) r
   | Err _ => leg_sendable context (leg, id) = false
   end) (only parsing).

Lemma stop_leg s id e :
  sends (StopLoss s) id
    (let? rid := ok_or id e in let? _ := validate_request_id rid in
     stop_loss_request s context rid (closing_direction (pc_position_side context)) expire_type date).
Proof.
  pose proof (expiration_checked (pc_expire_at context)) as He. rewrite expires in He.
  apply leg_builds. intros rid Hid.
  pose proof (stop_loss_builds context rid expire_type date account_present instrument_present
                lots_positive Hid (proj2 He) s) as H.
  destruct (stop_loss_request _ _ _ _ _ _); [destruct H; eauto using message_protects|exact H].
Qed.

Lemma take_leg t id e :
  sends (TakeProfit t) id
    (let? rid := ok_or id e in let? _ := validate_request_id rid in
     take_profit_request t context rid (closing_direction (pc_position_side context)) expire_type date).
Proof.
  pose proof (expiration_checked (pc_expire_at context)) as He. rewrite expires in He.
  apply leg_builds. intros rid Hid.
  pose proof (take_profit_builds context rid expire_type date account_present instrument_present
                lots_positive Hid (proj2 He) t) as H.
  destruct (take_profit_request _ _ _ _ _ _); [destruct H; eauto using message_protects|exact H].
Qed.
End legs.

Lemma plan_builds plan context :
  match protection_requests plan context with
  | Ok rs => plan_ok plan context = true ∧
             Forall2 (protects context) (plan_legs plan (pc_request_ids context)) rs
  | Err _ => plan_ok plan context = false
  end.
Proof.
  unfold protection_requests, plan_ok. rewrite tinvest_supports_plan. simpl.
  decode_field (validate_text_ok "account_id"); [|by rewrite Hw].
  decode_field (validate_text_ok "instrument_id"); [|by rewrite Hw, andb_false_r].
  decode_field positive_quantity_ok; [|by rewrite Hw, andb_false_r].
  rewrite Hwf, Hwf0, Hwf1. simpl.
  pose proof (expiration_checked (pc_expire_at context)) as Hexp.
  destruct (protection_expiration (pc_expire_at context)) as [[expire_type date]|] eqn:He;
    [destruct Hexp as [-> Hexp]; simpl|by rewrite Hexp].
  apply negb_true_iff in Hwf, Hwf0.
  pose proof (λ s, stop_leg context expire_type date Hwf Hwf0 Hwf1 He s
                     (ids_stop_loss (pc_request_ids context))
                     (MissingProtectionRequestId "stop_loss")) as Hstop.
  pose proof (λ t, take_leg context expire_type date Hwf Hwf0 Hwf1 He t
                     (ids_take_profit (pc_request_ids context))
                     (MissingProtectionRequestId "take_profit")) as Htake.
  clear He Hexp Hwf Hwf0 Hwf1. unfold plan_legs.
  destruct (pp_stop_loss plan) as [s|], (pp_take_profit plan) as [t|];
    try specialize (Hstop s); try specialize (Htake t); cbn [app forallb].
  all: repeat match goal with
  | H : context [ok_or ?o _] |- _ => destruct o; cbn [ok_or] in *
  | H : context [validate_request_id ?x] |- _ => destruct (validate_request_id x)
  | H : context [stop_loss_request ?a ?b ?c ?d ?e ?f] |- _ => destruct (stop_loss_request a b c d e f)
  | H : context [take_profit_request ?a ?b ?c ?d ?e ?f] |- _ => destruct (take_profit_request a b c d e f)
  end.
  all: destruct_and?; repeat match goal with E : leg_sendable _ _ = _ |- _ => rewrite E; clear E end.
  all: cbn [andb app]; try done; split; try done; auto using List.Forall2_nil, List.Forall2_cons.
Qed.

(** ** A single leg *)

Definition leg_ok (c : ProtectionLegCommand) : bool :=
  match leg_expire_at c with
  | Ok expire_at =>
      let '(plan, ids) := leg_plan c in plan_ok plan (leg_context c expire_at ids)
  | Err _ => false
  end.

Lemma leg_plan_single c :
  plan_legs (leg_plan c).1 (leg_plan c).2 = [(pl_leg c, Some (pl_client_request_id c))].
Proof. unfold leg_plan. by destruct (pl_leg c). Qed.

Lemma protection_leg_builds c :
  match protection_leg_request c with
  | Ok r => leg_ok c = true ∧ ∃ expire_at, leg_expire_at c = Ok expire_at ∧
      protects (leg_context c expire_at (leg_plan c).2) (pl_leg c, Some (pl_client_request_id c)) r
  | Err _ => leg_ok c = false
  end.
Proof.
  unfold protection_leg_request, leg_ok. destruct (leg_expire_at c) as [expire_at|]; [|done].
  pose proof (leg_plan_single c) as Hlegs. destruct (leg_plan c) as [plan ids]. simpl in *.
  pose proof (plan_builds plan (leg_context c expire_at ids)) as H. simpl in H.
  destruct (protection_requests plan _) as [rs|]; [|done]. destruct H as [Hok Hrs].
  rewrite Hlegs in Hrs.
  apply Forall2_cons_inv_l in Hrs as (r & rest & Hr & ->%Forall2_nil_inv_l & ->). eauto.
Qed.

(** C3. Protection messages protect.  The stop orders of a protection plan are built
    exactly when the plan can be sent: the account and the instrument are named, the
    lots positive, the expiry well formed, and each leg has a valid identity and sound
    prices, a trailing leg either starting at once or waiting for a price the market has
    not reached.  There is then one message per leg, in order, and each reads back as
    its leg with its exact prices, closes the position it protects, carries the plan's
    account, instrument, lots, price convention, margin consent and expiry, is sent
    under its own identity and passes the final audit.  A single-leg command builds
    the message of its leg. *)
Theorem protection_messages_protect :
  (∀ plan context,
    match protection_requests plan context with
    | Ok rs => plan_ok plan context = true ∧
               Forall2 (protects context) (plan_legs plan (pc_request_ids context)) rs
    | Err _ => plan_ok plan context = false
    end) ∧
  (∀ c,
    match protection_leg_request c with
    | Ok r => leg_ok c = true ∧ ∃ expire_at, leg_expire_at c = Ok expire_at ∧
        protects (leg_context c expire_at (leg_plan c).2) (pl_leg c, Some (pl_client_request_id c)) r
    | Err _ => leg_ok c = false
    end).
Proof. split; [exact plan_builds|exact protection_leg_builds]. Qed.
End protection.

(** ** Samples *)

Module ExecutionSample.
#[local] Instance uuid36 : UuidFormat := {| uuid_parses s := bool_decide (String.length s = 36%nat) |}.

Definition id1 : string := "0b0c6a06-7f4f-4f6d-9f5c-2a3f6c1f2a01".

Definition rub (units nano : Z) : FixedPoint := Fixed (units * NANO_SCALE + nano).

Definition limit_buy : RegularOrderCommand := {|
  ro_account_id := "acc"; ro_instrument_id := "uid"; ro_client_request_id := id1;
  ro_quantity_lots := 2; ro_price := Some (rub 101 250000000);
  ro_price_convention := SettlementCurrency; ro_side := Buy; ro_order_type := Limit;
  ro_time_in_force := Some FillOrKill; ro_confirm_margin_trade := false |}.

Example limit_buy_message :
  (λ r, (por_price r, por_direction r, por_order_type r, por_time_in_force r, por_price_type r))
    <$> (match regular_order_request limit_buy with Ok r => Some r | Err _ => None end)
  = Some (Some {| q_units := 101; q_nano := 250000000 |}, 1, 1, 3, 2).
Proof. vm_compute. reflexivity. Qed.

Definition trailing_leg (activation : Z) : ProtectionLegCommand := {|
  pl_account_id := "acc"; pl_instrument_id := "uid"; pl_client_request_id := id1;
  pl_quantity_lots := 2; pl_position_side := Long; pl_price_convention := SettlementCurrency;
  pl_reference_price := rub 100 0; pl_expire_at_unix_seconds := Some 1000; pl_expire_at_nanos := None;
  pl_confirm_margin_trade := false;
  pl_leg := StopLoss (Trailing {| td_value := rub 1 0; td_mode := RelativePercent |}
                        (Some (rub activation 0)) None None) |}.

Example trailing_leg_message :
  (λ r, (ps_direction r, ps_stop_order_type r, ps_take_profit_type r, ps_stop_price r,
         ps_expire_date r))
    <$> (match protection_leg_request (trailing_leg 105) with Ok r => Some r | Err _ => None end)
  = Some (2, 1, 2, Some {| q_units := 105; q_nano := 0 |},
          Some {| ts_seconds := 1000; ts_nanos := 0 |}).
Proof. vm_compute. reflexivity. Qed.

Example reached_activation_is_refused :
  protection_leg_request (trailing_leg 100) = Err TrailingActivationAlreadyReached.
Proof. vm_compute. reflexivity. Qed.

(** Both legs of a plan may be sent under one identity: nothing compares them. *)
Definition both_legs : ProtectionPlan := {|
  pp_stop_loss := Some (FixedStop (rub 95 0) None);
  pp_take_profit := Some {| tp_trigger_price := Some (rub 110 0); tp_limit_price := None; tp_trailing := None |} |}.

Example same_identity_for_both_legs :
  (map ps_order_id) <$> (match protection_requests both_legs
      (leg_context (trailing_leg 105) None
         {| ids_stop_loss := Some id1; ids_take_profit := Some id1 |}) with
    | Ok rs => Some rs | Err _ => None end)
  = Some [id1; id1].
Proof. vm_compute. reflexivity. Qed.
End ExecutionSample.
