(* ===== verification/TInvestGrpc.v ===== *)
(** * The gRPC transport: [crates/vox-tinvest/src/grpc.rs], [retry.rs] and [secret.rs]

    A client is a token, a configuration and a channel.  A read is attempted until it
    succeeds, fails for good or the retry policy is exhausted, with bounded exponential
    delays in between; a mutation is attempted once, and only in the environment it is
    authorised for.

    The network is the class [Network]: fresh request identities, the delays and the
    retry observer.  What a generated client sends is a function of the request and
    the network; [tonic], [prost] and [url] appear as the class [Grpc].  A [Duration]
    is its nanoseconds, a request identity the 128-bit number of its uuid. *)
From Stdlib Require Import Ascii.
From S2P Require Import Prelude Domain TInvestWire.

(** ** Retry policy *)

Definition U32_MAX : Z := 4294967295.
Definition U128_MAX : Z := 340282366920938463463374607431768211455.

(** [Duration::MAX]: [u64::MAX] seconds and 999 999 999 nanoseconds. *)
Definition DURATION_MAX : Z := 18446744073709551615 * 1000000000 + 999999999.

Definition duration_mul (d k : Z) : Z := Z.min (d * k) DURATION_MAX.
Definition duration_add (d k : Z) : Z := Z.min (d + k) DURATION_MAX.

Record RetryPolicy := {
  rt_max_attempts : Z;
  rt_initial_delay : Z;
  rt_max_delay : Z;
  rt_jitter_basis_points : Z;
}.

Inductive RetryPolicyError := ZeroAttempts | ZeroInitialDelay | MaxDelayBelowInitial | InvalidJitter.

Definition RetryPolicy_new (max_attempts initial_delay max_delay jitter_basis_points : Z)
  : result RetryPolicyError RetryPolicy :=
  if max_attempts =? 0 then Err ZeroAttempts
  else if initial_delay =? 0 then Err ZeroInitialDelay
  else if max_delay <? initial_delay then Err MaxDelayBelowInitial
  else if 10000 <? jitter_basis_points then Err InvalidJitter
  else Ok {| rt_max_attempts := max_attempts; rt_initial_delay := initial_delay;
             rt_max_delay := max_delay; rt_jitter_basis_points := jitter_basis_points |}.

Definition RetryPolicy_default : RetryPolicy := {|
  rt_max_attempts := 3; rt_initial_delay := 250000000; rt_max_delay := 5000000000;
  rt_jitter_basis_points := 2000 |}.

Definition duration_from_nanos_saturating (nanos : Z) : Z :=
  let seconds := nanos / 1000000000 in
  let subsecond_nanos := nanos mod 1000000000 in
  let seconds := match checked U64 seconds with Some s => s | None => int_max U64 end in
  seconds * 1000000000 + subsecond_nanos.

(** The loop [for _ in 1..failed_attempt]: doubling up to the maximum. *)
Fixpoint backoff (max_delay : Z) (rounds : nat) (delay : Z) : Z :=
  match rounds with
  | O => delay
  | S rounds =>
      if max_delay <=? delay then delay
      else backoff max_delay rounds (Z.min (duration_mul delay 2) max_delay)
  end.

Definition delay_for (self : RetryPolicy) (failed_attempt request_id : Z) : Z :=
  let delay := backoff (rt_max_delay self) (Z.to_nat (failed_attempt - 1)) (rt_initial_delay self) in
  if (rt_jitter_basis_points self =? 0) || (rt_max_delay self <=? delay) then delay
  else
    let max_jitter_nanos := Z.min (delay * rt_jitter_basis_points self) U128_MAX / 10000 in
    if max_jitter_nanos =? 0 then delay
    else
      let mixed := Z.lxor request_id ((failed_attempt * 2654435769) mod (U128_MAX + 1)) in
      let jitter_nanos := mixed mod (max_jitter_nanos + 1) in
      let jitter := duration_from_nanos_saturating jitter_nanos in
      Z.min (duration_add delay jitter) (rt_max_delay self).

(** [RestOperation], [RetryReason] and the event an observer is told. *)
Inductive RestOperation := SafeRead | MutationOperation.
Inductive RetryReason :=
| HttpStatus (status : Z) | ConnectReason | TimeoutReason | ResponseBody | TransportReason.

Record RetryEvent := {
  re_operation : RestOperation;
  re_request_id : Z;
  re_failed_attempt : Z;
  re_next_attempt : Z;
  re_delay : Z;
  re_server_retry_after : option Z;
  re_server_retry_after_raw : option string;
  re_reason : RetryReason;
}.

(** ** Credentials *)

Inductive SecretTokenError := TokenEmpty | InvalidBearerValue.

Definition SecretToken : Type := string.

Definition SecretToken_new (value : string) : result SecretTokenError SecretToken :=
  if is_blank value then Err TokenEmpty
  else if has_whitespace value || has_control value then Err InvalidBearerValue
  else Ok value.

Inductive GrpcCredential :=
| ProductionCredential (token : SecretToken)
| SandboxCredential (token : SecretToken).

Definition credential_environment (c : GrpcCredential) : Environment :=
  match c with ProductionCredential _ => Live | SandboxCredential _ => Sandbox end.

Definition credential_token (c : GrpcCredential) : SecretToken :=
  match c with ProductionCredential token | SandboxCredential token => token end.

(** ** Configuration *)

(** A parsed URL, as its accessors present it. *)
Record Url := {
  ur_scheme : string;
  ur_host : option string;
  ur_username : string;
  ur_password : option string;
  ur_path : string;
  ur_query : option string;
  ur_fragment : option string;
}.

Inductive GrpcConfigError :=
| InsecureUrl
| InvalidUrl
| ZeroTimeout
| ZeroMessageLimit
| ChannelFailed (what : string)
| CredentialEnvironmentMismatch (credential endpoint : Environment).

Record GrpcConfig := {
  gc_endpoint : Url;
  gc_environment : Environment;
  gc_connect_timeout : Z;
  gc_request_timeout : Z;
  gc_max_request_bytes : Z;
  gc_max_response_bytes : Z;
  gc_retry_policy : RetryPolicy;
}.

Definition validate_endpoint (endpoint : Url) : result GrpcConfigError () :=
  if negb (bool_decide (ur_scheme endpoint = "https")) then Err InsecureUrl
  else if bool_decide (ur_host endpoint = None)
          || negb (bool_decide (ur_username endpoint = ""))
          || bool_decide (is_Some (ur_password endpoint))
          || bool_decide (is_Some (ur_query endpoint))
          || bool_decide (is_Some (ur_fragment endpoint))
          || (negb (bool_decide (ur_path endpoint = "/")) && negb (bool_decide (ur_path endpoint = "")))
  then Err InvalidUrl
  else Ok tt.

Definition with_endpoint (self : GrpcConfig) (endpoint : Url) (environment : Environment)
  : result GrpcConfigError GrpcConfig :=
  let? _ := validate_endpoint endpoint in
  Ok {| gc_endpoint := endpoint; gc_environment := environment;
        gc_connect_timeout := gc_connect_timeout self;
        gc_request_timeout := gc_request_timeout self;
        gc_max_request_bytes := gc_max_request_bytes self;
        gc_max_response_bytes := gc_max_response_bytes self;
        gc_retry_policy := gc_retry_policy self |}.

Definition with_timeouts (self : GrpcConfig) (connect_timeout request_timeout : Z)
  : result GrpcConfigError GrpcConfig :=
  if (connect_timeout =? 0) || (request_timeout =? 0) then Err ZeroTimeout
  else Ok {| gc_endpoint := gc_endpoint self; gc_environment := gc_environment self;
             gc_connect_timeout := connect_timeout; gc_request_timeout := request_timeout;
             gc_max_request_bytes := gc_max_request_bytes self;
             gc_max_response_bytes := gc_max_response_bytes self;
             gc_retry_policy := gc_retry_policy self |}.

Definition with_message_limits (self : GrpcConfig) (max_request_bytes max_response_bytes : Z)
  : result GrpcConfigError GrpcConfig :=
  if (max_request_bytes =? 0) || (max_response_bytes =? 0) then Err ZeroMessageLimit
  else Ok {| gc_endpoint := gc_endpoint self; gc_environment := gc_environment self;
             gc_connect_timeout := gc_connect_timeout self;
             gc_request_timeout := gc_request_timeout self;
             gc_max_request_bytes := max_request_bytes;
             gc_max_response_bytes := max_response_bytes;
             gc_retry_policy := gc_retry_policy self |}.

Definition with_retry_policy (self : GrpcConfig) (retry_policy : RetryPolicy) : GrpcConfig :=
  {| gc_endpoint := gc_endpoint self; gc_environment := gc_environment self;
     gc_connect_timeout := gc_connect_timeout self;
     gc_request_timeout := gc_request_timeout self;
     gc_max_request_bytes := gc_max_request_bytes self;
     gc_max_response_bytes := gc_max_response_bytes self;
     gc_retry_policy := retry_policy |}.

(** What the transport takes from third-party crates: the parse of a built-in URL,
    which the code takes not to fail; building a channel, which may fail with a text;
    whether a text may be a metadata value; the text of a uuid; the decoding of the
    provider's error detail from the bytes of a status. *)
Class Grpc := {
  built_in_url : string → Url;
  connect_lazy : Url → Z → result string ();
  metadata_value : string → bool;
  uuid_text : Z → string;
  decode_error_detail : string → option ErrorDetail;
}.

Definition DEFAULT_GRPC_ENDPOINT : string := "https://invest-public-api.tbank.ru:443".
Definition DEFAULT_SANDBOX_GRPC_ENDPOINT : string := "https://sandbox-invest-public-api.tbank.ru:443".

Definition built_in `{!Grpc} (endpoint : string) (environment : Environment) : GrpcConfig := {|
  gc_endpoint := built_in_url endpoint; gc_environment := environment;
  gc_connect_timeout := 10 * 1000000000; gc_request_timeout := 20 * 1000000000;
  gc_max_request_bytes := 2 * 1024 * 1024; gc_max_response_bytes := 8 * 1024 * 1024;
  gc_retry_policy := RetryPolicy_default |}.

Definition production_config `{!Grpc} : GrpcConfig := built_in DEFAULT_GRPC_ENDPOINT Live.
Definition sandbox_config `{!Grpc} : GrpcConfig := built_in DEFAULT_SANDBOX_GRPC_ENDPOINT Sandbox.

Record TInvestGrpcClient := { cli_token : SecretToken; cli_config : GrpcConfig }.

Definition TInvestGrpcClient_new `{!Grpc} (credential : GrpcCredential) (config : GrpcConfig)
  : result GrpcConfigError TInvestGrpcClient :=
  let? _ := validate_endpoint (gc_endpoint config) in
  if negb (bool_decide (credential_environment credential = gc_environment config))
  then Err (CredentialEnvironmentMismatch (credential_environment credential) (gc_environment config))
  else
    let? _ := map_err ChannelFailed (connect_lazy (gc_endpoint config) (gc_connect_timeout config)) in
    Ok {| cli_token := credential_token credential; cli_config := config |}.

Definition client_production `{!Grpc} (credential : GrpcCredential)
  : result GrpcConfigError TInvestGrpcClient := TInvestGrpcClient_new credential production_config.

Definition client_sandbox `{!Grpc} (credential : GrpcCredential)
  : result GrpcConfigError TInvestGrpcClient := TInvestGrpcClient_new credential sandbox_config.

Definition client_environment (client : TInvestGrpcClient) : Environment :=
  gc_environment (cli_config client).

(** ** Statuses and errors *)

(** [tonic::Code]. *)
Inductive Code :=
| CodeOk | Cancelled | CodeUnknown | InvalidArgument | DeadlineExceeded | NotFound | AlreadyExists
| PermissionDenied | ResourceExhausted | FailedPrecondition | Aborted | OutOfRange | Unimplemented
| Internal | Unavailable | DataLoss | Unauthenticated.

#[export] Instance Code_eq_dec : EqDecision Code.
Proof. solve_decision. Defined.

(** The entries of a metadata map; a value that is not text is [None]. *)
Definition MetadataMap : Type := list (string * option string).

Definition metadata_text (metadata : MetadataMap) (key : string) : option string :=
  match List.find (by_key fst key) metadata with Some (_, value) => value | None => None end.

(** [str::parse::<u64>]: a minus sign is no digit. *)
Definition parse_u64 (s : string) : option Z :=
  match s with
  | String "-" _ => None
  | _ => parse_int U64 s
  end.

Definition metadata_u64 (metadata : MetadataMap) (key : string) : option Z :=
  match metadata_text metadata key with Some text => parse_u64 text | None => None end.

Record GrpcRateLimitMetadata := {
  rl_limit : option Z;
  rl_remaining : option Z;
  rl_reset_seconds : option Z;
}.

Definition rate_limit_metadata (metadata : MetadataMap) : GrpcRateLimitMetadata := {|
  rl_limit := metadata_u64 metadata "x-ratelimit-limit";
  rl_remaining := metadata_u64 metadata "x-ratelimit-remaining";
  rl_reset_seconds := metadata_u64 metadata "x-ratelimit-reset" |}.

(** [tonic::Status]; the details are bytes. *)
Record Status := {
  sx_code : Code;
  sx_message : string;
  sx_details : string;
  sx_metadata : MetadataMap;
}.

Record GrpcProviderError := {
  gp_code : Code;
  gp_message : string;
  gp_details : string;
  gp_tracking_id : option string;
  gp_rate_limit : GrpcRateLimitMetadata;
}.

Definition provider_from_status (status : Status) : GrpcProviderError := {|
  gp_code := sx_code status; gp_message := sx_message status; gp_details := sx_details status;
  gp_tracking_id := metadata_text (sx_metadata status) "x-tracking-id";
  gp_rate_limit := rate_limit_metadata (sx_metadata status) |}.

Definition ascii_digit (c : ascii) : bool := ((48 <=? byte_of c) && (byte_of c <=? 57))%N.

Definition token_of (current : string) : list string :=
  if bool_decide (current = "") then [] else [current].

Fixpoint digit_tokens_from (current s : string) : list string :=
  match s with
  | EmptyString => token_of current
  | String c s =>
      if ascii_digit c then digit_tokens_from (current +:+ String c "") s
      else token_of current ++ digit_tokens_from "" s
  end.

(** The runs of ASCII digits.  On details, which may not be UTF-8, every other byte
    separates, and so does the character that replaces an invalid sequence. *)
Definition digit_tokens (value : string) : list string := digit_tokens_from "" value.

Definition has_provider_code `{!Grpc} (self : GrpcProviderError) (expected : string) : bool :=
  existsb (λ token, bool_decide (token = expected)) (digit_tokens (gp_message self))
  || match decode_error_detail (gp_details self) with
     | Some detail => bool_decide (ed_code detail = expected)
     | None => false
     end
  || existsb (λ token, bool_decide (token = expected)) (digit_tokens (gp_details self)).

Definition five_digits (value : string) : option string :=
  List.find (λ token, (String.length token =? 5)%nat) (digit_tokens value).

Definition scanned_code (self : GrpcProviderError) : option string :=
  match five_digits (gp_message self) with
  | Some token => Some token
  | None => five_digits (gp_details self)
  end.

Definition provider_code `{!Grpc} (self : GrpcProviderError) : option string :=
  match decode_error_detail (gp_details self) with
  | Some detail => if bool_decide (ed_code detail = "") then scanned_code self else Some (ed_code detail)
  | None => scanned_code self
  end.

Definition retryable_status `{!Grpc} (status : Status) : bool :=
  match sx_code status with
  | Unavailable | ResourceExhausted | DeadlineExceeded => true
  | Internal => match provider_code (provider_from_status status) with
                | Some code => bool_decide (code ∈ ["70001"; "70002"; "70003"])
                | None => false
                end
  | _ => false
  end.

Record GrpcRequestMetadata := {
  qm_request_id : Z;
  qm_method : string;
  qm_attempt : Z;
  qm_mutation : bool;
}.

Inductive GrpcErrorKind :=
| InvalidAuthorizationMetadata
| InvalidRequestMetadata
| InvalidStreamCapacity
| InvalidInitialStreamRequests
| MarketDataRequest (what : string)
| MutationEnvironmentMismatch (authorized configured : Environment)
| ProviderKind (provider : GrpcProviderError).

Record GrpcError := { ge_metadata : GrpcRequestMetadata; ge_kind : GrpcErrorKind }.

(** The texts of errors; [{:?}] of a code, an environment and an optional number. *)
Definition code_text (code : Code) : string :=
  match code with
  | CodeOk => "Ok" | Cancelled => "Cancelled" | CodeUnknown => "Unknown"
  | InvalidArgument => "InvalidArgument" | DeadlineExceeded => "DeadlineExceeded"
  | NotFound => "NotFound" | AlreadyExists => "AlreadyExists"
  | PermissionDenied => "PermissionDenied" | ResourceExhausted => "ResourceExhausted"
  | FailedPrecondition => "FailedPrecondition" | Aborted => "Aborted" | OutOfRange => "OutOfRange"
  | Unimplemented => "Unimplemented" | Internal => "Internal" | Unavailable => "Unavailable"
  | DataLoss => "DataLoss" | Unauthenticated => "Unauthenticated"
  end.

Definition grpc_environment_text (environment : Environment) : string :=
  match environment with Sandbox => "Sandbox" | Paper => "Paper" | Live => "Live" end.

Definition number_text (n : option Z) : string :=
  match n with Some z => "Some(" +:+ int_to_string z +:+ ")" | None => "None" end.

Definition rate_limit_text (r : GrpcRateLimitMetadata) : string :=
  "limit=" +:+ number_text (rl_limit r) +:+ "; remaining=" +:+ number_text (rl_remaining r)
  +:+ "; reset_seconds=" +:+ number_text (rl_reset_seconds r).

Definition provider_error_text (e : GrpcProviderError) : string :=
  "provider gRPC " +:+ code_text (gp_code e) +:+ ": " +:+ gp_message e +:+ "; rate_limit=["
  +:+ rate_limit_text (gp_rate_limit e) +:+ "]".

Definition kind_text (kind : GrpcErrorKind) : string :=
  match kind with
  | InvalidAuthorizationMetadata => "failed to encode authorization metadata"
  | InvalidRequestMetadata => "failed to encode request correlation metadata"
  | InvalidStreamCapacity => "market-data stream outbound capacity must be positive"
  | InvalidInitialStreamRequests =>
      "initial market-data stream requests must fit non-empty outbound capacity"
  | MarketDataRequest what => "invalid market-data request: " +:+ what
  | MutationEnvironmentMismatch authorized configured =>
      "mutation authorization environment " +:+ grpc_environment_text authorized
      +:+ " does not match gRPC client environment " +:+ grpc_environment_text configured
  | ProviderKind provider => provider_error_text provider
  end.

Definition grpc_error_text (e : GrpcError) : string :=
  "T-Invest gRPC " +:+ qm_method (ge_metadata e) +:+ " failed on attempt "
  +:+ int_to_string (qm_attempt (ge_metadata e)) +:+ ": " +:+ kind_text (ge_kind e).

Inductive GrpcStreamError :=
| OutboundClosed
| NoActiveSubscriptions (provider : GrpcProviderError)
| StreamProvider (provider : GrpcProviderError).

Definition stream_error_from_status `{!Grpc} (status : Status) : GrpcStreamError :=
  let provider := provider_from_status status in
  if bool_decide (gp_code provider = ResourceExhausted) && has_provider_code provider "80004"
  then NoActiveSubscriptions provider else StreamProvider provider.

(** ** Requests and responses *)

(** [tonic::Request<T>] with the metadata the client sets. *)
Record Request (T : Type) := {
  rq_body : T;
  rq_authorization : string;
  rq_request_id : string;
  rq_app_name : string;
  rq_timeout : option Z;
}.
Arguments rq_body {T}. Arguments rq_authorization {T}. Arguments rq_request_id {T}.
Arguments rq_app_name {T}. Arguments rq_timeout {T}.

Record Response (T : Type) := { rs_body : T; rs_metadata : MetadataMap }.
Arguments rs_body {T}. Arguments rs_metadata {T}.

Record GrpcResponseMetadata := {
  rx_request_id : Z;
  rx_tracking_id : option string;
  rx_attempt : Z;
  rx_rate_limit : GrpcRateLimitMetadata;
}.

Record GrpcResponse (T : Type) := { gr_body : T; gr_metadata : GrpcResponseMetadata }.
Arguments gr_body {T}. Arguments gr_metadata {T}.

Definition from_tonic {T} (request_id attempt : Z) (response : Response T) : GrpcResponse T := {|
  gr_body := rs_body response;
  gr_metadata := {| rx_request_id := request_id;
                    rx_tracking_id := metadata_text (rs_metadata response) "x-tracking-id";
                    rx_attempt := attempt;
                    rx_rate_limit := rate_limit_metadata (rs_metadata response) |} |}.

(** The network: fresh request identities, delays and the retry observer. *)
Class Network (W : Type) := {
  nw_request_id : W → W * Z;
  nw_on_retry : RetryEvent → W → W;
  nw_sleep : Z → W → W;
}.

(** One call of a generated client method. *)
Notation rpc W Req Resp := (Request Req → st W Status (Response Resp)).

Section client.
Context {W : Type} `{NW : !Network W} `{GR : !Grpc}.

Definition authenticated_request {T} (self : TInvestGrpcClient) (body : T) (request_id : Z)
  : result GrpcErrorKind (Request T) :=
  let bearer := "Bearer " +:+ cli_token self in
  if negb (metadata_value bearer) then Err InvalidAuthorizationMetadata
  else if negb (metadata_value (uuid_text request_id)) then Err InvalidRequestMetadata
  else Ok {| rq_body := body; rq_authorization := bearer; rq_request_id := uuid_text request_id;
             rq_app_name := "ultima-vox.trader"; rq_timeout := None |}.

Definition unary_request {T} (self : TInvestGrpcClient) (body : T) (request_id : Z)
  : result GrpcErrorKind (Request T) :=
  let? request := authenticated_request self body request_id in
  Ok {| rq_body := rq_body request; rq_authorization := rq_authorization request;
        rq_request_id := rq_request_id request; rq_app_name := rq_app_name request;
        rq_timeout := Some (gc_request_timeout (cli_config self)) |}.

Definition stream_request {T} (self : TInvestGrpcClient) (body : T) (request_id : Z)
  : result GrpcErrorKind (Request T) := authenticated_request self body request_id.

(** ** Reads *)

Definition retry_event (request_id attempt delay : Z) (status : Status) : RetryEvent := {|
  re_operation := SafeRead; re_request_id := request_id;
  re_failed_attempt := attempt; re_next_attempt := attempt + 1;
  re_delay := delay; re_server_retry_after := None; re_server_retry_after_raw := None;
  re_reason := match sx_code status with
               | DeadlineExceeded => TimeoutReason
               | _ => TransportReason
               end |}.

(** The attempts of a read; [None] is the [unreachable!] after the last one. *)
Fixpoint read_attempts {Req Resp} (self : TInvestGrpcClient) (method : string) (body : Req)
    (dispatch : rpc W Req Resp) (request_id attempts : Z) (remaining : nat) (attempt : Z) (w : W)
  : W * option (result GrpcError (GrpcResponse Resp)) :=
  match remaining with
  | O => (w, None)
  | S remaining =>
      let metadata := {| qm_request_id := request_id; qm_method := method; qm_attempt := attempt;
                         qm_mutation := false |} in
      match unary_request self body request_id with
      | Err kind => (w, Some (Err {| ge_metadata := metadata; ge_kind := kind |}))
      | Ok request =>
          match dispatch request w with
          | (w, Ok response) => (w, Some (Ok (from_tonic request_id attempt response)))
          | (w, Err status) =>
              if (attempt <? attempts) && retryable_status status
              then
                let delay := delay_for (gc_retry_policy (cli_config self)) attempt request_id in
                read_attempts self method body dispatch request_id attempts remaining (attempt + 1)
                  (nw_sleep delay (nw_on_retry (retry_event request_id attempt delay status) w))
              else (w, Some (Err {| ge_metadata := metadata;
                                    ge_kind := ProviderKind (provider_from_status status) |}))
          end
      end
  end.

Definition service_read {Req Resp} (self : TInvestGrpcClient) (method : string) (body : Req)
    (dispatch : rpc W Req Resp) (retry : bool) (w : W)
  : W * option (result GrpcError (GrpcResponse Resp)) :=
  let '(w, request_id) := nw_request_id w in
  let attempts := if retry then rt_max_attempts (gc_retry_policy (cli_config self)) else 1 in
  read_attempts self method body dispatch request_id attempts (Z.to_nat attempts) 1 w.

(** The same loop over the instruments and the market-data clients. *)
Definition safe_read {Req Resp} (self : TInvestGrpcClient) (method : string) (body : Req)
    (dispatch : rpc W Req Resp) (w : W) : W * option (result GrpcError (GrpcResponse Resp)) :=
  let '(w, request_id) := nw_request_id w in
  let attempts := rt_max_attempts (gc_retry_policy (cli_config self)) in
  read_attempts self method body dispatch request_id attempts (Z.to_nat attempts) 1 w.

Definition safe_market_read {Req Resp} (self : TInvestGrpcClient) (method : string) (body : Req)
    (dispatch : rpc W Req Resp) (w : W) : W * option (result GrpcError (GrpcResponse Resp)) :=
  let '(w, request_id) := nw_request_id w in
  let attempts := rt_max_attempts (gc_retry_policy (cli_config self)) in
  read_attempts self method body dispatch request_id attempts (Z.to_nat attempts) 1 w.

(** A read with retries as a call.  The last branch is the [unreachable!] of the loop,
    which a policy with an attempt does not reach; it is given a failed attempt 0. *)
Definition returned {Resp} (method : string)
    (run : W → W * option (result GrpcError (GrpcResponse Resp))) : st W GrpcError (GrpcResponse Resp) :=
  λ w, match run w with
       | (w, Some r) => (w, r)
       | (w, None) =>
           (w, Err {| ge_metadata := {| qm_request_id := 0; qm_method := method; qm_attempt := 0;
                                        qm_mutation := false |};
                      ge_kind := InvalidRequestMetadata |})
       end.

(** The reads the macros define over each generated client. *)
Definition safe_service_read {Req Resp} (self : TInvestGrpcClient) (method : string)
    (dispatch : rpc W Req Resp) (body : Req) : st W GrpcError (GrpcResponse Resp) :=
  returned method (service_read self method body dispatch true).

Definition safe_instruments_read {Req Resp} (self : TInvestGrpcClient) (method : string)
    (dispatch : rpc W Req Resp) (body : Req) : st W GrpcError (GrpcResponse Resp) :=
  returned method (safe_read self method body dispatch).

Definition safe_market_call {Req Resp} (self : TInvestGrpcClient) (method : string)
    (dispatch : rpc W Req Resp) (body : Req) : st W GrpcError (GrpcResponse Resp) :=
  returned method (safe_market_read self method body dispatch).

(** ** Mutations *)

Definition service_mutation {Req Resp} (self : TInvestGrpcClient)
    (authorization : MutationAuthorization) (method : string) (body : Req)
    (dispatch : rpc W Req Resp) : st W GrpcError (GrpcResponse Resp) := λ w,
  let '(w, request_id) := nw_request_id w in
  let metadata := {| qm_request_id := request_id; qm_method := method; qm_attempt := 1;
                     qm_mutation := true |} in
  if negb (bool_decide (ma_environment authorization = client_environment self))
     || bool_decide (client_environment self = Paper)
  then (w, Err {| ge_metadata := metadata;
                  ge_kind := MutationEnvironmentMismatch (ma_environment authorization)
                               (client_environment self) |})
  else
    match unary_request self body request_id with
    | Err kind => (w, Err {| ge_metadata := metadata; ge_kind := kind |})
    | Ok request =>
        match dispatch request w with
        | (w, Ok response) => (w, Ok (from_tonic request_id 1 response))
        | (w, Err status) =>
            (w, Err {| ge_metadata := metadata;
                       ge_kind := ProviderKind (provider_from_status status) |})
        end
    end.

(** The mutations of the instruments client: the same body. *)
Definition mutation {Req Resp} : TInvestGrpcClient → MutationAuthorization → string → Req →
    rpc W Req Resp → st W GrpcError (GrpcResponse Resp) := service_mutation.
End client.

(** ** Delays *)

(** Doubling up to the maximum is the least of the exponential and the maximum. *)
Lemma backoff_exact max_delay rounds delay :
  0 < delay → delay ≤ max_delay → max_delay ≤ DURATION_MAX →
  backoff max_delay rounds delay = Z.min (delay * 2 ^ Z.of_nat rounds) max_delay.
Proof.
  revert delay. induction rounds as [|n IH]; intros delay Hpos Hle Hmax; simpl backoff.
  - rewrite Z.pow_0_r. lia.
  - rewrite Nat2Z.inj_succ, Z.pow_succ_r by lia.
    assert (0 < 2 ^ Z.of_nat n) by (apply Z.pow_pos_nonneg; lia).
    destruct (max_delay <=? delay) eqn:Hd.
    + assert (delay = max_delay) as -> by lia. nia.
    + unfold duration_mul. rewrite IH by lia.
      destruct (Z.le_gt_cases (delay * 2) max_delay).
      * rewrite (Z.min_l (delay * 2) DURATION_MAX), (Z.min_l (delay * 2) max_delay) by lia.
        f_equal. ring.
      * replace (Z.min (Z.min (delay * 2) DURATION_MAX) max_delay) with max_delay by lia.
        rewrite !Z.min_r; [done| |]; nia.
Qed.

Definition base_delay (p : RetryPolicy) (failed_attempt : Z) : Z :=
  Z.min (rt_initial_delay p * 2 ^ (failed_attempt - 1)) (rt_max_delay p).

(** Retry delays are bounded.  For a policy that [RetryPolicy::new] accepts, the delay
    after the n-th failure is the exponential [initial * 2^(n-1)] capped at the maximum,
    plus a jitter of at most the policy's share of it; it never exceeds the maximum and
    is never shorter than the capped exponential, whatever the request identity. *)
Theorem retry_delay_bounded max_attempts initial max_delay jitter p n request_id :
  RetryPolicy_new max_attempts initial max_delay jitter = Ok p →
  0 ≤ initial → max_delay ≤ DURATION_MAX → 0 ≤ jitter → 1 ≤ n → 0 ≤ request_id →
  base_delay p n ≤ delay_for p n request_id ≤
  Z.min max_delay (base_delay p n + base_delay p n * jitter / 10000).
Proof.
  unfold RetryPolicy_new. intros Hp Hi Hm Hj Hn Hid. pass_tests Hp. injection Hp as <-.
  unfold delay_for, base_delay; simpl. rewrite backoff_exact by lia. rewrite Z2Nat.id by lia.
  set (base := Z.min _ max_delay).
  assert (0 < 2 ^ (n - 1)) by (apply Z.pow_pos_nonneg; lia).
  assert (0 < base ≤ max_delay) by (unfold base; nia).
  assert (0 ≤ base * jitter / 10000) by (apply Z.div_pos; nia).
  destruct (_ || _) eqn:Hd; [lia|].
  assert (base * jitter ≤ U128_MAX) as Hfit.
  { assert (base * jitter ≤ DURATION_MAX * 10000) by (apply Z.mul_le_mono_nonneg; lia).
    unfold DURATION_MAX, U128_MAX in *. lia. }
  rewrite (Z.min_l _ U128_MAX) by done.
  set (mixed := Z.lxor _ _). set (top := base * jitter / 10000) in *.
  destruct (top =? 0) eqn:Hz; [lia|].
  pose proof (Z.mod_pos_bound mixed (top + 1) ltac:(lia)) as Hmod.
  set (jit := mixed mod (top + 1)) in *.
  assert (top ≤ base) as Htop.
  { unfold top. apply Z.div_le_upper_bound; [lia|]. nia. }
  assert (duration_from_nanos_saturating jit = jit) as ->.
  { unfold duration_from_nanos_saturating.
    pose proof (Z.div_mod jit 1000000000 ltac:(lia)).
    pose proof (Z.mod_pos_bound jit 1000000000 ltac:(lia)).
    rewrite checked_fits; [lia|]. unfold DURATION_MAX in *. int_lia. }
  unfold duration_add. clearbody jit top base. lia.
Qed.

Lemma retry_delay_bounded_witness : 250000000 ≤ delay_for RetryPolicy_default 1 12345 ≤ 300000000.
Proof.
  pose proof (retry_delay_bounded 3 250000000 5000000000 2000 RetryPolicy_default 1 12345
    ltac:(reflexivity) ltac:(lia) ltac:(vm_compute; discriminate) ltac:(lia) ltac:(lia) ltac:(lia)) as H.
  exact H.
Defined.

(** ** Runs *)

Section runs.
Context {W : Type} `{NW : !Network W} `{GR : !Grpc}.
Context {Req Resp : Type} (self : TInvestGrpcClient) (method : string) (body : Req).
Context (dispatch : Request Req → st W Status (Response Resp)).

(** Rounds of a read: from one attempt to a later one, every attempt in between sent,
    failed with a status that may be retried, reported to the observer and followed by
    the delay of the policy. *)
Inductive retry_rounds (request_id attempts : Z) : Z → W → Z → W → Prop :=
| rounds_none n w : retry_rounds request_id attempts n w n w
| rounds_more n w request w1 status delay m w2 :
    unary_request self body request_id = Ok request →
    dispatch request w = (w1, Err status) → n < attempts → retryable_status status = true →
    delay = delay_for (gc_retry_policy (cli_config self)) n request_id →
    retry_rounds request_id attempts (n + 1)
      (nw_sleep delay (nw_on_retry (retry_event request_id n delay status) w1)) m w2 →
    retry_rounds request_id attempts n w m w2.

(** How a read ends: at attempt [n], with an answer, with a status that is not to be
    retried, or before anything is sent because the request cannot be formed. *)
Inductive read_ends (request_id attempts n : Z) (w : W)
  : W → result GrpcError (GrpcResponse Resp) → Prop :=
| ends_answered request w' response :
    unary_request self body request_id = Ok request → dispatch request w = (w', Ok response) →
    read_ends request_id attempts n w w' (Ok (from_tonic request_id n response))
| ends_failed request w' status :
    unary_request self body request_id = Ok request → dispatch request w = (w', Err status) →
    n = attempts ∨ retryable_status status = false →
    read_ends request_id attempts n w w'
      (Err {| ge_metadata := {| qm_request_id := request_id; qm_method := method;
                                qm_attempt := n; qm_mutation := false |};
              ge_kind := ProviderKind (provider_from_status status) |})
| ends_unformed kind :
    unary_request self body request_id = Err kind →
    read_ends request_id attempts n w w
      (Err {| ge_metadata := {| qm_request_id := request_id; qm_method := method;
                                qm_attempt := n; qm_mutation := false |};
              ge_kind := kind |}).

Lemma read_attempts_run request_id attempts remaining n w :
  attempts = n + Z.of_nat remaining - 1 → (0 < remaining)%nat →
  ∃ m w1 w' r,
    read_attempts self method body dispatch request_id attempts remaining n w = (w', Some r) ∧
    n ≤ m ≤ attempts ∧ retry_rounds request_id attempts n w m w1 ∧
    read_ends request_id attempts m w1 w' r.
Proof.
  revert n w. induction remaining as [|k IH]; intros n w Hn Hk; [lia|]. simpl.
  destruct (unary_request self body request_id) as [request|kind] eqn:Hreq;
    [|exists n, w; do 2 eexists; split_and!; [done|lia..|constructor|by constructor]].
  destruct (dispatch request w) as [w1 [response|status]] eqn:Hd.
  { exists n, w. do 2 eexists. split_and!; [done|lia..|constructor|by econstructor]. }
  destruct ((n <? attempts) && retryable_status status) eqn:Hretry.
  - apply andb_true_iff in Hretry as [Hlt Hr]. apply Z.ltb_lt in Hlt.
    destruct (IH (n + 1) (nw_sleep (delay_for (gc_retry_policy (cli_config self)) n request_id)
      (nw_on_retry (retry_event request_id n (delay_for (gc_retry_policy (cli_config self)) n request_id)
         status) w1))) as (m & w2 & w' & r & -> & Hm & Hrounds & Hend); [lia|lia|].
    exists m, w2, w', r. split_and!; [done|lia..| |done]. by econstructor.
  - exists n, w. do 2 eexists. split_and!; [done|lia..|constructor|]. econstructor; [done|done|].
    apply andb_false_iff in Hretry as [Hge|Hr]; [left; lia|by right].
Qed.

(** C23. A read ends within the retry policy.  Under a policy with at least one attempt,
    as [RetryPolicy::new] guarantees, a read always returns: after some number of rounds,
    each an attempt under the same request identity that failed with a status the
    provider lets be retried, reported and waited for, it ends at an attempt no later
    than the last, with the provider's answer marked with that attempt, or with the
    status of that attempt, which is then not retryable or the last allowed.  A read
    without retries is attempted once. *)
Theorem read_ends_within_policy retry w :
  1 ≤ rt_max_attempts (gc_retry_policy (cli_config self)) →
  ∃ n w1 w' r,
    service_read self method body dispatch retry w = (w', Some r) ∧
    let '(w0, request_id) := nw_request_id w in
    let attempts := if retry then rt_max_attempts (gc_retry_policy (cli_config self)) else 1 in
    1 ≤ n ≤ attempts ∧ retry_rounds request_id attempts 1 w0 n w1 ∧
    read_ends request_id attempts n w1 w' r.
Proof.
  intros Hp. unfold service_read. destruct (nw_request_id w) as [w0 request_id].
  set (attempts := if retry then _ else 1). assert (1 ≤ attempts) by (unfold attempts; case_match; lia).
  destruct (read_attempts_run request_id attempts (Z.to_nat attempts) 1 w0)
    as (n & w1 & w' & r & Hrun & Hn & Hrounds & Hend); [lia|lia|].
  by exists n, w1, w', r.
Qed.

(** A mutation: refused before anything is sent, or sent exactly once in the environment
    it is authorised for. *)
Inductive mutation_run (authorization : MutationAuthorization) (w : W)
  : W → result GrpcError (GrpcResponse Resp) → Prop :=
| mutation_refused w0 request_id kind :
    nw_request_id w = (w0, request_id) → (∀ provider, kind ≠ ProviderKind provider) →
    mutation_run authorization w w0
      (Err {| ge_metadata := {| qm_request_id := request_id; qm_method := method;
                                qm_attempt := 1; qm_mutation := true |};
              ge_kind := kind |})
| mutation_sent w0 request_id request w' answer :
    nw_request_id w = (w0, request_id) →
    ma_environment authorization = client_environment self → client_environment self ≠ Paper →
    unary_request self body request_id = Ok request → dispatch request w0 = (w', answer) →
    mutation_run authorization w w'
      (match answer with
       | Ok response => Ok (from_tonic request_id 1 response)
       | Err status =>
           Err {| ge_metadata := {| qm_request_id := request_id; qm_method := method;
                                    qm_attempt := 1; qm_mutation := true |};
                  ge_kind := ProviderKind (provider_from_status status) |}
       end).

Lemma unary_request_kind request_id kind provider :
  unary_request self body request_id = Err kind → kind ≠ ProviderKind provider.
Proof. unfold unary_request, authenticated_request. intros H ->. branches. Qed.

Lemma service_mutation_run authorization w w' r :
  service_mutation self authorization method body dispatch w = (w', r) →
  mutation_run authorization w w' r.
Proof.
  unfold service_mutation. destruct (nw_request_id w) as [w0 request_id] eqn:Hid.
  destruct (_ || _) eqn:Henv; [intros [= <- <-]; by eapply mutation_refused|].
  prop_tests. destruct (unary_request self body request_id) as [request|kind] eqn:Hreq.
  - destruct (dispatch request w0) as [w1 [response|status]] eqn:Hd; intros [= <- <-].
    + by eapply (mutation_sent _ _ _ _ _ _ (Ok response)).
    + by eapply (mutation_sent _ _ _ _ _ _ (Err status)).
  - intros [= <- <-]. eapply mutation_refused; [done|]. intros provider. by eapply unary_request_kind.
Qed.

(** A mutation is transmitted at most once and only where it is authorised.  Every call
    of the mutation path either returns without sending, with an error that is not the
    provider's, or sends one request carrying the client's token, a fresh request
    identity and a deadline, in the environment that authorised it, which is not the
    paper environment, and returns the outcome of that one request: there is no retry. *)
Theorem mutation_sent_at_most_once authorization w w' r :
  service_mutation self authorization method body dispatch w = (w', r) →
  mutation_run authorization w w' r ∧
  ∀ request_id request, unary_request self body request_id = Ok request →
    rq_body request = body ∧ rq_authorization request = "Bearer " +:+ cli_token self ∧
    rq_request_id request = uuid_text request_id ∧
    rq_timeout request = Some (gc_request_timeout (cli_config self)).
Proof.
  intros H. split; [by apply service_mutation_run|].
  unfold unary_request, authenticated_request. intros request_id request Hr. branches.
Qed.
End runs.

(** ** A sample run *)

Module GrpcSample.

(** A network that logs the delays, and third-party code at its simplest. *)
#[export] Instance delays : Network (list Z) := {|
  nw_request_id w := (w, 42); nw_on_retry _ w := w; nw_sleep delay w := delay :: w |}.

#[export] Instance plain : Grpc := {|
  built_in_url _ := {| ur_scheme := "https"; ur_host := Some "broker"; ur_username := "";
                       ur_password := None; ur_path := "/"; ur_query := None; ur_fragment := None |};
  connect_lazy _ _ := Ok tt; metadata_value _ := true; uuid_text _ := "42";
  decode_error_detail _ := None |}.

Definition client : TInvestGrpcClient := {| cli_token := "token"; cli_config := sandbox_config |}.

Definition lost : Status := {|
  sx_code := Unavailable; sx_message := "unavailable"; sx_details := ""; sx_metadata := [] |}.

(** Unavailable once, then answering. *)
Definition flaky (request : Request ()) (w : list Z) : list Z * result Status (Response Z) :=
  match w with
  | [] => (w, Err lost)
  | _ => (w, Ok {| rs_body := 7; rs_metadata := [("x-ratelimit-remaining", Some "19")] |})
  end.

Example flaky_read_retried :
  (λ r, (gr_body r, rx_attempt (gr_metadata r), rl_remaining (rx_rate_limit (gr_metadata r))))
    <$> (match (service_read client "GetAccounts" tt flaky true []).2 with Some (Ok r) => Some r | _ => None end)
  = Some (7, 2, Some 19).
Proof. vm_compute. reflexivity. Qed.

Lemma read_ends_within_policy_witness :
  ∃ w' r, service_read client "GetAccounts" tt flaky true [] = (w', Some r).
Proof.
  destruct (read_ends_within_policy client "GetAccounts" tt flaky true [])
    as (n & w1 & w' & r & Hrun & _); [vm_compute; discriminate|].
  exists w', r. exact Hrun.
Defined.
End GrpcSample.
