(* ===== verification/Nautilus.v ===== *)
(** * Values for the trading engine: [crates/vox-nautilus/src/]

    The projections of instruments, orders and market data into the types of the Nautilus
    engine.  The engine is third-party: its types and checked constructors are the classes
    [Engine] and [EngineValues], and what the mapping relies on of them are the laws of
    [EngineLaws].  Fields the code always leaves out ([None]) are left out here. *)
From S2P Require Import Prelude Money Domain TInvestGrpc.

(** ** Specifications: [spec.rs], [market_spec.rs], [lib.rs] *)

Record InstrumentSpec := {
  sp_identity : InstrumentIdentity;
  sp_instrument_id : string;
  sp_raw_symbol : string;
  sp_currency : string;
  sp_lot_size : Z;
  sp_price_increment : FixedPoint;
  sp_ts_event_ns : Z;
  sp_ts_init_ns : Z;
}.

Record EquitySpec := { eq_instrument : InstrumentSpec }.

Inductive FutureAssetClass := Fx | EquityClass | Commodity | Debt | Index | Cryptocurrency | Alternative.

Record FutureSpec := {
  fs_instrument : InstrumentSpec;
  fs_asset_class : FutureAssetClass;
  fs_exchange : option string;
  fs_underlying_id : string;
  fs_provider_underlying_name : option string;
  fs_activation_ns : Z;
  fs_expiration_ns : Z;
  fs_economics : FuturesEconomics;
}.

Inductive TradeAggressor := TradeBuy | TradeSell.

Record TradeTickSpec := {
  tt_instrument_id : string;
  tt_price : FixedPoint;
  tt_quantity_lots : Z;
  tt_lot_size : Z;
  tt_aggressor : TradeAggressor;
  tt_trade_id : string;
  tt_ts_event_ns : Z;
  tt_ts_init_ns : Z;
}.

Inductive TimeBarInterval :=
| Second (step : Z) | Minute (step : Z) | Hour (step : Z) | DayInterval (step : Z) | Week (step : Z) | Month (step : Z).

Record BarSpec := {
  bs_instrument_id : string;
  bs_interval : TimeBarInterval;
  bs_open : FixedPoint;
  bs_high : FixedPoint;
  bs_low : FixedPoint;
  bs_close : FixedPoint;
  bs_volume_lots : Z;
  bs_lot_size : Z;
  bs_is_complete : bool;
  bs_ts_event_ns : Z;
  bs_ts_init_ns : Z;
}.

Record BookLevelSpec := { bl_price : FixedPoint; bl_quantity_lots : Z }.

Record OrderBookSnapshotSpec := {
  ob_instrument_id : string;
  ob_bids : list BookLevelSpec;
  ob_asks : list BookLevelSpec;
  ob_lot_size : Z;
  ob_is_consistent : bool;
  ob_ts_event_ns : Z;
  ob_ts_init_ns : Z;
}.

Inductive MappingError :=
| MapNonPositive (field : string) (total_nanos : Z)
| MapTickMismatch (instrument_tick_nanos economics_tick_nanos : Z)
| ArithmeticOverflow (field : string)
| InvalidLifecycle (activation_ns expiration_ns : Z)
| InvalidNautilusValue (field reason : string)
| IncompleteBar
| InconsistentOrderBook
| UnsupportedExecutionSemantic (semantic : string).

Notation mapped := (result MappingError).

(** ** The engine *)

Inductive EngineAssetClass := AFx | AEquity | ACommodity | ADebt | AIndex | ACryptocurrency | AAlternative.
Inductive EngineSide := EBuy | ESell.
Inductive AggressorSide := AggressorBuy | AggressorSell.
Inductive EngineOrderType := ELimit | EMarket.
Inductive EngineTimeInForce := EDay | EIoc | EFok.
Inductive BarAggregation := BySecond | ByMinute | ByHour | ByDay | ByWeek | ByMonth.

Class Engine := {
  Price : Type;
  Quantity : Type;
  InstrumentId : Type;
  Symbol : Type;
  Currency : Type;
  TradeId : Type;
  price_from_raw_checked : Z → Z → result string Price;
  price_raw : Price → Z;
  price_precision : Price → Z;
  quantity_from_raw_checked : Z → Z → result string Quantity;
  quantity_raw : Quantity → Z;
  instrument_id_from_str : string → result string InstrumentId;
  symbol_new_checked : string → result string Symbol;
  currency_from_str : string → result string Currency;
  trade_id_new_checked : string → result string TradeId;
}.

(** What the checked constructors are given. *)
Section fields.
Context `{EN : !Engine}.

Record EquityFields := {
  ef_id : InstrumentId;
  ef_raw_symbol : Symbol;
  ef_currency : Currency;
  ef_price_precision : Z;
  ef_price_increment : Price;
  ef_lot_size : Quantity;
  ef_ts_event : Z;
  ef_ts_init : Z;
}.

Record FutureFields := {
  ff_id : InstrumentId;
  ff_raw_symbol : Symbol;
  ff_asset_class : EngineAssetClass;
  ff_exchange : option string;
  ff_underlying : string;
  ff_activation_ns : Z;
  ff_expiration_ns : Z;
  ff_currency : Currency;
  ff_price_precision : Z;
  ff_price_increment : Price;
  ff_multiplier : Quantity;
  ff_lot_size : Quantity;
  ff_ts_event : Z;
  ff_ts_init : Z;
}.

Record TradeFields := {
  tf_instrument_id : InstrumentId;
  tf_price : Price;
  tf_size : Quantity;
  tf_aggressor_side : AggressorSide;
  tf_trade_id : TradeId;
  tf_ts_event : Z;
  tf_ts_init : Z;
}.

Record BookOrder := { bo_side : EngineSide; bo_price : Price; bo_size : Quantity; bo_order_id : Z }.

(** A level that is added: [BookAction::Add]. *)
Record DeltaFields := {
  dl_instrument_id : InstrumentId;
  dl_order : BookOrder;
  dl_flags : Z;
  dl_sequence : Z;
  dl_ts_event : Z;
  dl_ts_init : Z;
}.
End fields.

Class EngineValues `{EN : !Engine} := {
  Equity : Type;
  FuturesContract : Type;
  TradeTick : Type;
  BarSpecification : Type;
  BarType : Type;
  Bar : Type;
  OrderBookDelta : Type;
  OrderBookDeltas : Type;
  equity_new_checked : EquityFields → result string Equity;
  future_new_checked : FutureFields → result string FuturesContract;
  trade_tick_new_checked : TradeFields → result string TradeTick;
  bar_specification_last_new_checked : Z → BarAggregation → result string BarSpecification;
  bar_type_external : InstrumentId → BarSpecification → BarType;
  bar_new_checked : BarType → Price → Price → Price → Price → Quantity → Z → Z → result string Bar;
  F_LAST : Z;
  F_SNAPSHOT : Z;
  F_MBP : Z;
  delta_clear : InstrumentId → Z → Z → Z → OrderBookDelta;
  delta_flags : OrderBookDelta → Z;
  delta_set_flags : Z → OrderBookDelta → OrderBookDelta;
  delta_new_checked : DeltaFields → result string OrderBookDelta;
  deltas_new_checked : InstrumentId → list OrderBookDelta → result string OrderBookDeltas;
}.

(** ** Exact values: [exact.rs] *)

Definition FIXED_PRECISION : Z := 16.
Definition NANO_PRECISION : nat := 9.

Record ExactDecimal := { ed_coefficient : Z; ed_scale : nat }.

(** The loop of [ExactDecimal::normalized] and of [fixed_point_precision]: at most one round
    for every digit of the scale. *)
Fixpoint normalized (coefficient : Z) (scale : nat) : ExactDecimal :=
  match scale with
  | O => {| ed_coefficient := coefficient; ed_scale := 0 |}
  | S k => if coefficient mod 10 =? 0 then normalized (coefficient / 10) k
           else {| ed_coefficient := coefficient; ed_scale := scale |}
  end.

Definition fixed_point_precision (total_nanos : Z) : Z :=
  Z.of_nat (ed_scale (normalized (unsigned_abs total_nanos) NANO_PRECISION)).

Definition exact_text (self : ExactDecimal) : string :=
  let digits := int_to_string (ed_coefficient self) in
  let n := String.length digits in
  match ed_scale self with
  | O => digits
  | scale =>
      if (scale <? n)%nat
      then String.substring 0 (n - scale) digits +:+ "." +:+ String.substring (n - scale) scale digits
      else "0." +:+ String.concat "" (repeat "0"%string (scale - n)) +:+ digits
  end.

Definition invalid {A} (field : string) (outcome : result string A) : mapped A :=
  map_err (InvalidNautilusValue field) outcome.

Definition positive_nanos (value : FixedPoint) (field : string) : mapped Z :=
  if total_nanos value <=? 0 then Err (MapNonPositive field (total_nanos value)) else Ok (total_nanos value).

Definition exact_decimal_from_positive (value : FixedPoint) (field : string) : mapped ExactDecimal :=
  let? nanos := positive_nanos value field in
  Ok (normalized nanos NANO_PRECISION).

Definition future_money_per_point (spec : FutureSpec) : mapped ExactDecimal :=
  let? instrument_tick := positive_nanos (sp_price_increment (fs_instrument spec)) "instrument price increment" in
  let? economics_tick := positive_nanos (fe_min_price_increment (fs_economics spec)) "economics price increment" in
  if negb (instrument_tick =? economics_tick) then Err (MapTickMismatch instrument_tick economics_tick)
  else exact_decimal_from_positive (fe_money_per_point (fs_economics spec)) "money per point".

Definition remap_invalid_field (field : string) (error : MappingError) : MappingError :=
  match error with
  | InvalidNautilusValue _ reason => InvalidNautilusValue field reason
  | ArithmeticOverflow _ => ArithmeticOverflow field
  | other => other
  end.

Section exact.
Context `{EN : !Engine}.

Definition to_nautilus_quantity (self : ExactDecimal) : mapped Quantity :=
  let raw := ed_coefficient self * 10 ^ (FIXED_PRECISION - Z.of_nat (ed_scale self)) in
  if U128_MAX <? raw then Err (ArithmeticOverflow "Nautilus quantity")
  else invalid "quantity" (quantity_from_raw_checked raw (Z.of_nat (ed_scale self))).

Definition to_nautilus_price_named (value : FixedPoint) (field : string) : mapped Price :=
  let precision := fixed_point_precision (total_nanos value) in
  let? raw := ok_or (checked_mul I128 (total_nanos value) (10 ^ (FIXED_PRECISION - Z.of_nat NANO_PRECISION)))
                (ArithmeticOverflow field) in
  invalid field (price_from_raw_checked raw precision).

Definition to_nautilus_price (value : FixedPoint) : mapped Price := to_nautilus_price_named value "price".

Definition to_nautilus_positive_price (value : FixedPoint) (field : string) : mapped Price :=
  let? _ := positive_nanos value field in to_nautilus_price_named value field.

Definition quantity_from_nonnegative_whole (value : Z) (field : string) : mapped Quantity :=
  map_err (remap_invalid_field field) (to_nautilus_quantity {| ed_coefficient := value; ed_scale := 0 |}).

Definition quantity_from_whole (value : Z) (field : string) : mapped Quantity :=
  if value =? 0 then Err (MapNonPositive field 0) else quantity_from_nonnegative_whole value field.
End exact.

(** ** Instruments: [mapping.rs] *)

Definition map_asset_class (value : FutureAssetClass) : EngineAssetClass :=
  match value with
  | Fx => AFx | EquityClass => AEquity | Commodity => ACommodity | Debt => ADebt | Index => AIndex
  | Cryptocurrency => ACryptocurrency | Alternative => AAlternative
  end.

Definition is_ascii (s : string) : bool := forallb (λ c, (byte_of c <? 128)%N) (String.list_ascii_of_string s).

Section values.
Context `{EN : !Engine} `{EV : !EngineValues}.

Record MappedEquity := { me_instrument : Equity; me_identity : InstrumentIdentity }.

Record MappedFuture := {
  mf_instrument : FuturesContract;
  mf_identity : InstrumentIdentity;
  mf_provider_underlying_name : option string;
  mf_money_per_point : ExactDecimal;
  mf_price_increment_amount : FixedPoint;
}.

Definition parse_instrument_id (value : string) : mapped InstrumentId := invalid "instrument ID" (instrument_id_from_str value).
Definition parse_symbol (value : string) : mapped Symbol := invalid "raw symbol" (symbol_new_checked value).
Definition parse_currency (value : string) : mapped Currency := invalid "currency" (currency_from_str value).

Definition equity_fields (spec : EquitySpec) : mapped EquityFields :=
  let common := eq_instrument spec in
  let? id := parse_instrument_id (sp_instrument_id common) in
  let? raw_symbol := parse_symbol (sp_raw_symbol common) in
  let? currency := parse_currency (sp_currency common) in
  let? price_increment := to_nautilus_positive_price (sp_price_increment common) "price increment" in
  let? lot_size := quantity_from_whole (sp_lot_size common) "lot size" in
  Ok {| ef_id := id; ef_raw_symbol := raw_symbol; ef_currency := currency;
        ef_price_precision := price_precision price_increment; ef_price_increment := price_increment;
        ef_lot_size := lot_size; ef_ts_event := sp_ts_event_ns common; ef_ts_init := sp_ts_init_ns common |}.

Definition to_nautilus_equity (spec : EquitySpec) : mapped MappedEquity :=
  let? fields := equity_fields spec in
  let? instrument := invalid "equity" (equity_new_checked fields) in
  Ok {| me_instrument := instrument; me_identity := sp_identity (eq_instrument spec) |}.

(** Up to the call of [FuturesContract::new_checked], with the money per point. *)
Definition future_fields (spec : FutureSpec) : mapped (FutureFields * ExactDecimal) :=
  if fs_expiration_ns spec <=? fs_activation_ns spec
  then Err (InvalidLifecycle (fs_activation_ns spec) (fs_expiration_ns spec))
  else if bool_decide (fs_underlying_id spec = ""%string) || negb (is_ascii (fs_underlying_id spec))
  then Err (InvalidNautilusValue "future underlying adapter token" "adapter token must be non-empty ASCII")
  else
    let common := fs_instrument spec in
    let? id := parse_instrument_id (sp_instrument_id common) in
    let? raw_symbol := parse_symbol (sp_raw_symbol common) in
    let? currency := parse_currency (sp_currency common) in
    let? price_increment := to_nautilus_positive_price (sp_price_increment common) "price increment" in
    let? lot_size := quantity_from_whole (sp_lot_size common) "lot size" in
    let? money_per_point := future_money_per_point spec in
    let? multiplier := to_nautilus_quantity money_per_point in
    Ok ({| ff_id := id; ff_raw_symbol := raw_symbol; ff_asset_class := map_asset_class (fs_asset_class spec);
           ff_exchange := fs_exchange spec; ff_underlying := fs_underlying_id spec;
           ff_activation_ns := fs_activation_ns spec; ff_expiration_ns := fs_expiration_ns spec;
           ff_currency := currency; ff_price_precision := price_precision price_increment;
           ff_price_increment := price_increment; ff_multiplier := multiplier; ff_lot_size := lot_size;
           ff_ts_event := sp_ts_event_ns common; ff_ts_init := sp_ts_init_ns common |}, money_per_point).

Definition to_nautilus_future (spec : FutureSpec) : mapped MappedFuture :=
  let? parts := future_fields spec in
  let? instrument := invalid "future" (future_new_checked parts.1) in
  Ok {| mf_instrument := instrument; mf_identity := sp_identity (fs_instrument spec);
        mf_provider_underlying_name := fs_provider_underlying_name spec; mf_money_per_point := parts.2;
        mf_price_increment_amount := fe_min_price_increment_amount (fs_economics spec) |}.

(** ** Market data: [market_mapping.rs] *)

Definition lot_units (lots lot_size : Z) (field : string) : mapped Z :=
  if (lots <=? 0) || (lot_size =? 0) then Err (MapNonPositive field lots)
  else ok_or (checked_mul U64 lots lot_size) (ArithmeticOverflow field).

Definition trade_fields (spec : TradeTickSpec) : mapped TradeFields :=
  let? instrument_id := parse_instrument_id (tt_instrument_id spec) in
  let? price := to_nautilus_positive_price (tt_price spec) "trade price" in
  let? units := lot_units (tt_quantity_lots spec) (tt_lot_size spec) "trade quantity" in
  let? size := quantity_from_whole units "trade quantity" in
  let? trade_id := invalid "trade ID" (trade_id_new_checked (tt_trade_id spec)) in
  Ok {| tf_instrument_id := instrument_id; tf_price := price; tf_size := size;
        tf_aggressor_side := match tt_aggressor spec with TradeBuy => AggressorBuy | TradeSell => AggressorSell end;
        tf_trade_id := trade_id; tf_ts_event := tt_ts_event_ns spec; tf_ts_init := tt_ts_init_ns spec |}.

Definition to_nautilus_trade (spec : TradeTickSpec) : mapped TradeTick :=
  let? fields := trade_fields spec in invalid "trade tick" (trade_tick_new_checked fields).

(** [usize::try_from] of a [u32] succeeds on every platform the crate is built for. *)
Definition bar_interval (value : TimeBarInterval) : Z * BarAggregation :=
  match value with
  | Second step => (step, BySecond) | Minute step => (step, ByMinute) | Hour step => (step, ByHour)
  | DayInterval step => (step, ByDay) | Week step => (step, ByWeek) | Month step => (step, ByMonth)
  end.

Definition to_nautilus_bar (spec : BarSpec) : mapped Bar :=
  if negb (bs_is_complete spec) then Err IncompleteBar
  else
    let? instrument_id := parse_instrument_id (bs_instrument_id spec) in
    let '(step, aggregation) := bar_interval (bs_interval spec) in
    let? bar_specification := invalid "bar interval" (bar_specification_last_new_checked step aggregation) in
    let bar_type := bar_type_external instrument_id bar_specification in
    let? volume_lots := ok_or (checked U64 (bs_volume_lots spec)) (MapNonPositive "bar volume" (bs_volume_lots spec)) in
    let? volume_units := ok_or (checked_mul U64 volume_lots (bs_lot_size spec)) (ArithmeticOverflow "bar volume") in
    let? open := to_nautilus_positive_price (bs_open spec) "bar open" in
    let? high := to_nautilus_positive_price (bs_high spec) "bar high" in
    let? low := to_nautilus_positive_price (bs_low spec) "bar low" in
    let? close := to_nautilus_positive_price (bs_close spec) "bar close" in
    let? volume := quantity_from_nonnegative_whole volume_units "bar volume" in
    invalid "bar" (bar_new_checked bar_type open high low close volume (bs_ts_event_ns spec) (bs_ts_init_ns spec)).

Definition book_level_delta (instrument_id : InstrumentId) (side : EngineSide) (level : BookLevelSpec) (lot_size : Z)
    (is_last : bool) (ts_event_ns ts_init_ns : Z) : mapped OrderBookDelta :=
  let? units := lot_units (bl_quantity_lots level) lot_size "book quantity" in
  let? price := to_nautilus_positive_price (bl_price level) "book price" in
  let? size := quantity_from_whole units "book quantity" in
  let flags := Z.lor F_SNAPSHOT F_MBP in
  let flags := if is_last then Z.lor flags F_LAST else flags in
  invalid "book level" (delta_new_checked {|
    dl_instrument_id := instrument_id;
    dl_order := {| bo_side := side; bo_price := price; bo_size := size; bo_order_id := 0 |};
    dl_flags := flags; dl_sequence := 0; dl_ts_event := ts_event_ns; dl_ts_init := ts_init_ns |}).

(** The levels of one side, the last of them marked when the side ends the book. *)
Fixpoint side_deltas (spec : OrderBookSnapshotSpec) (instrument_id : InstrumentId) (side : EngineSide) (ends : bool)
    (levels : list BookLevelSpec) : mapped (list OrderBookDelta) :=
  match levels with
  | [] => Ok []
  | level :: rest =>
      let is_last := ends && bool_decide (rest = []) in
      let? delta := book_level_delta instrument_id side level (ob_lot_size spec) is_last
                      (ob_ts_event_ns spec) (ob_ts_init_ns spec) in
      let? deltas := side_deltas spec instrument_id side ends rest in
      Ok (delta :: deltas)
  end.

Definition is_empty {A} (l : list A) : bool := match l with [] => true | _ => false end.

Definition snapshot_deltas (spec : OrderBookSnapshotSpec) (instrument_id : InstrumentId) : mapped (list OrderBookDelta) :=
  let clear := delta_clear instrument_id 0 (ob_ts_event_ns spec) (ob_ts_init_ns spec) in
  let clear := if is_empty (ob_bids spec) && is_empty (ob_asks spec)
               then delta_set_flags (Z.lor (delta_flags clear) F_LAST) clear else clear in
  let? bids := side_deltas spec instrument_id EBuy (is_empty (ob_asks spec)) (ob_bids spec) in
  let? asks := side_deltas spec instrument_id ESell true (ob_asks spec) in
  Ok (clear :: bids ++ asks).

Definition to_nautilus_order_book_snapshot (spec : OrderBookSnapshotSpec) : mapped OrderBookDeltas :=
  if negb (ob_is_consistent spec) then Err InconsistentOrderBook
  else
    let? instrument_id := parse_instrument_id (ob_instrument_id spec) in
    let? deltas := snapshot_deltas spec instrument_id in
    invalid "order-book snapshot" (deltas_new_checked instrument_id deltas).

(** ** Orders: [execution_mapping.rs] *)

Record NautilusRegularOrderCommand := {
  nc_side : EngineSide;
  nc_order_type : EngineOrderType;
  nc_quantity : Quantity;
  nc_price : option Price;
  nc_time_in_force : option EngineTimeInForce;
}.

Definition to_nautilus_regular_order (command : RegularOrderCommand) : mapped NautilusRegularOrderCommand :=
  let? quantity := ok_or (checked U64 (ro_quantity_lots command))
                     (MapNonPositive "order quantity lots" (ro_quantity_lots command * 1000000000)) in
  let? order_type := match ro_order_type command with
                     | Limit => Ok ELimit
                     | Market => Ok EMarket
                     | BestPrice => Err (UnsupportedExecutionSemantic "T-Invest BESTPRICE order")
                     end in
  let? price := transpose (to_nautilus_price <$> ro_price command) in
  match order_type, price with
  | ELimit, None => Err (InvalidNautilusValue "limit order price" "missing exact price")
  | EMarket, Some _ => Err (InvalidNautilusValue "market order price" "market command must not carry price")
  | _, _ =>
      let? quantity := quantity_from_whole quantity "order quantity lots" in
      Ok {| nc_side := match ro_side command with Buy => EBuy | Sell => ESell end; nc_order_type := order_type; nc_quantity := quantity; nc_price := price;
            nc_time_in_force := (λ v, match v with Day => EDay | FillAndKill => EIoc | FillOrKill => EFok end)
                                  <$> ro_time_in_force command |}
  end.
End values.

(** ** What the projections preserve *)

(** What the mapping relies on: a checked constructor keeps the raw value, the precision and
    the flags it is given, and the flags are different bits, of which a fresh clear has not
    the one that ends a book. *)
Class EngineLaws `{EN : !Engine} `{EV : !EngineValues} : Prop := {
  price_keeps raw precision v : price_from_raw_checked raw precision = Ok v → price_raw v = raw ∧ price_precision v = precision;
  quantity_keeps raw precision v : quantity_from_raw_checked raw precision = Ok v → quantity_raw v = raw;
  delta_keeps fields d : delta_new_checked fields = Ok d → delta_flags d = dl_flags fields;
  flags_set flags d : delta_flags (delta_set_flags flags d) = flags;
  clear_goes_on id sequence ts_event ts_init : Z.land (delta_flags (delta_clear id sequence ts_event ts_init)) F_LAST = 0;
  last_is_a_flag : F_LAST ≠ 0;
  last_is_apart : Z.land (Z.lor F_SNAPSHOT F_MBP) F_LAST = 0;
}.

Lemma normalized_exact coefficient scale :
  let d := normalized coefficient scale in
  ed_coefficient d * 10 ^ (Z.of_nat scale - Z.of_nat (ed_scale d)) = coefficient ∧ (ed_scale d ≤ scale)%nat ∧
  (ed_scale d = 0%nat ∨ ed_coefficient d mod 10 ≠ 0).
Proof.
  revert coefficient. induction scale as [|k IH]; intros c; simpl; [split_and!; [rewrite Z.pow_0_r; lia|lia|by left]|].
  destruct (Z.eqb_spec (c mod 10) 0) as [Hc|Hc].
  - destruct (IH (c / 10)) as (He & Hle & Hm). split_and!; [|lia|done].
    replace (Z.of_nat (S k) - _) with (Z.succ (Z.of_nat k - Z.of_nat (ed_scale (normalized (c / 10) k)))) by lia.
    rewrite Z.pow_succ_r by lia. pose proof (Z.div_mod c 10 ltac:(lia)). lia.
  - simpl. split_and!; [|lia|by right]. rewrite Z.sub_diag. lia.
Qed.

Section laws.
Context `{EN : !Engine} `{EV : !EngineValues} `{EL : !EngineLaws}.

Lemma invalid_Ok {A} field (outcome : result string A) v : invalid field outcome = Ok v → outcome = Ok v.
Proof. unfold invalid. by destruct outcome; intros [= <-]. Qed.

Lemma price_named_exact value field p :
  to_nautilus_price_named value field = Ok p →
  price_raw p = total_nanos value * 10 ^ 7 ∧ price_precision p = fixed_point_precision (total_nanos value).
Proof.
  unfold to_nautilus_price_named. destruct (checked_mul _ _ _) as [raw|] eqn:Hr; [|done].
  apply checked_Some in Hr as [-> _]. intros Hp%invalid_Ok. by apply price_keeps in Hp.
Qed.

Lemma positive_price_exact value field p :
  to_nautilus_positive_price value field = Ok p → 0 < total_nanos value ∧ price_raw p = total_nanos value * 10 ^ 7.
Proof.
  unfold to_nautilus_positive_price, positive_nanos. destruct (Z.leb_spec (total_nanos value) 0); [done|].
  intros Hp%price_named_exact. naive_solver.
Qed.

Lemma quantity_exact d q :
  to_nautilus_quantity d = Ok q → quantity_raw q = ed_coefficient d * 10 ^ (16 - Z.of_nat (ed_scale d)).
Proof.
  unfold to_nautilus_quantity. destruct (_ <? _); [done|]. intros Hq%invalid_Ok. by apply quantity_keeps in Hq.
Qed.

Lemma whole_exact value field q :
  quantity_from_whole value field = Ok q → value ≠ 0 ∧ quantity_raw q = value * 10 ^ 16.
Proof.
  unfold quantity_from_whole, quantity_from_nonnegative_whole. destruct (Z.eqb_spec value 0); [done|].
  destruct (to_nautilus_quantity _) as [q'|] eqn:Hq; [|done]. intros [= <-]. split; [done|].
  by apply quantity_exact in Hq.
Qed.

Lemma exact_from_positive value field d :
  exact_decimal_from_positive value field = Ok d →
  ed_coefficient d * 10 ^ (16 - Z.of_nat (ed_scale d)) = total_nanos value * 10 ^ 7.
Proof.
  unfold exact_decimal_from_positive, positive_nanos. destruct (_ <=? 0); [done|].
  pose proof (normalized_exact (total_nanos value) NANO_PRECISION) as He. revert He.
  generalize (normalized (total_nanos value) NANO_PRECISION). intros n (He & Hle & _) [= <-].
  change (Z.of_nat NANO_PRECISION) with 9 in He. unfold NANO_PRECISION in Hle. rewrite <- He.
  rewrite <- Z.mul_assoc, <- Z.pow_add_r by lia. do 2 f_equal. lia.
Qed.

Lemma money_per_point_exact spec d :
  future_money_per_point spec = Ok d →
  ed_coefficient d * 10 ^ (16 - Z.of_nat (ed_scale d)) = total_nanos (fe_money_per_point (fs_economics spec)) * 10 ^ 7 ∧
  total_nanos (sp_price_increment (fs_instrument spec)) = total_nanos (fe_min_price_increment (fs_economics spec)).
Proof.
  unfold future_money_per_point, positive_nanos. destruct (_ <=? 0); [done|]. destruct (_ <=? 0); [done|].
  destruct (Z.eqb_spec (total_nanos (sp_price_increment (fs_instrument spec)))
    (total_nanos (fe_min_price_increment (fs_economics spec)))) as [->|]; [|done].
  intros Hd%exact_from_positive. done.
Qed.

(** The multiplier of a mapped future values its tick at exactly the amount the broker
    states: multiplier times price increment is the amount of one increment, with nothing
    rounded. *)
Theorem future_multiplier_exact spec fields money :
  economics_wf (fs_economics spec) → future_fields spec = Ok (fields, money) →
  quantity_raw (ff_multiplier fields) * price_raw (ff_price_increment fields)
  = total_nanos (fe_min_price_increment_amount (fs_economics spec)) * 10 ^ 23 ∧
  fs_activation_ns spec < fs_expiration_ns spec.
Proof.
  intros (Ht & Ha & Hm & Hprod). unfold future_fields. destruct (Z.leb_spec (fs_expiration_ns spec) (fs_activation_ns spec)); [done|].
  destruct (_ || _); [done|]. destruct (parse_instrument_id _); [|done]. destruct (parse_symbol _); [|done].
  destruct (parse_currency _); [|done]. destruct (to_nautilus_positive_price _ _) as [tick|] eqn:Hp; [|done].
  destruct (quantity_from_whole _ _); [|done]. destruct (future_money_per_point spec) as [d|] eqn:Hd; [|done].
  destruct (to_nautilus_quantity d) as [q|] eqn:Hq; [|done]. intros [= <- <-]. simpl. split; [|done].
  apply positive_price_exact in Hp as [Hpos ->]. apply quantity_exact in Hq as ->.
  apply money_per_point_exact in Hd as [-> ->]. unfold NANO_SCALE in Hprod.
  change (10 ^ 23) with (1000000000 * 10 ^ 7 * 10 ^ 7). nia.
Qed.

(** An order keeps its side, lots, type and price exactly, or is refused. *)
Theorem regular_order_exact command mapped_order :
  to_nautilus_regular_order command = Ok mapped_order →
  0 < ro_quantity_lots command ∧ quantity_raw (nc_quantity mapped_order) = ro_quantity_lots command * 10 ^ 16 ∧
  nc_side mapped_order = (match ro_side command with Buy => EBuy | Sell => ESell end) ∧
  match ro_order_type command with
  | Limit => nc_order_type mapped_order = ELimit ∧
             ∃ value p, ro_price command = Some value ∧ nc_price mapped_order = Some p ∧ price_raw p = total_nanos value * 10 ^ 7
  | Market => nc_order_type mapped_order = EMarket ∧ ro_price command = None ∧ nc_price mapped_order = None
  | BestPrice => False
  end.
Proof.
  unfold to_nautilus_regular_order. destruct (checked U64 _) as [lots|] eqn:Hl; [|done].
  apply checked_Some in Hl as [-> Hl]. simpl.
  destruct (ro_order_type command); simpl; [| |done];
    (destruct (ro_price command) as [value|]; simpl;
      [destruct (to_nautilus_price value) as [p|] eqn:Hp; simpl; [|done]|]); try done;
    (destruct (quantity_from_whole _ _) as [q|] eqn:Hq; [|done]); intros [= <-]; apply whole_exact in Hq as [Hne Hq];
    (split; [int_lia|]); split_and!; try done.
  exists value, p. split_and!; try done. by apply price_named_exact in Hp as [-> _].
Qed.

(** ** The book *)

Definition ends_book (d : OrderBookDelta) : bool := negb (Z.land (delta_flags d) F_LAST =? 0).

Lemma marked_ends flags d : delta_flags d = Z.lor flags F_LAST → ends_book d = true.
Proof.
  unfold ends_book. intros ->. destruct (Z.eqb_spec (Z.land (Z.lor flags F_LAST) F_LAST) 0) as [H|]; [|done].
  exfalso. apply last_is_a_flag. rewrite <- H. apply Z.bits_inj'. intros n Hn. rewrite Z.land_spec, Z.lor_spec.
  by destruct (Z.testbit flags n), (Z.testbit F_LAST n).
Qed.

Lemma level_marked id side level lot_size is_last a b d :
  book_level_delta id side level lot_size is_last a b = Ok d → ends_book d = is_last.
Proof.
  unfold book_level_delta. destruct (lot_units _ _ _); [|done]. destruct (to_nautilus_positive_price _ _); [|done].
  destruct (quantity_from_whole _ _); [|done]. intros Hd%invalid_Ok. apply delta_keeps in Hd. simpl in Hd.
  destruct is_last; [by eapply marked_ends|]. unfold ends_book. by rewrite Hd, last_is_apart.
Qed.

Lemma side_marked spec id side ends levels ds :
  side_deltas spec id side ends levels = Ok ds →
  length ds = length levels ∧
  if ends then levels = [] ∨ ∃ front e, ds = front ++ [e] ∧ ends_book e = true ∧ Forall (λ d, ends_book d = false) front
  else Forall (λ d, ends_book d = false) ds.
Proof.
  revert ds. induction levels as [|level rest IH]; intros ds; simpl.
  { intros [= <-]. split; [done|]. destruct ends; [by left|constructor]. }
  destruct (book_level_delta _ _ _ _ _ _ _) as [d|] eqn:Hd; [|done].
  destruct (side_deltas _ _ _ _ rest) as [tail|]; [|done]. intros [= <-]. apply level_marked in Hd.
  destruct (IH _ eq_refl) as [Hn Hm]. split; [simpl; lia|]. destruct ends; simpl in Hd; [|by constructor].
  right. destruct Hm as [->|(front & e & -> & He & Hf)].
  - destruct tail; [|done]. by exists [], d.
  - exists (d :: front), e. split_and!; [done..|]. constructor; [|done]. rewrite Hd.
    destruct rest; [by destruct front|done].
Qed.

(** A snapshot of a book is one clear, then its bids, then its asks, one delta for every
    level, and exactly the last delta ends it. *)
Theorem snapshot_ends_once spec id deltas :
  snapshot_deltas spec id = Ok deltas →
  length deltas = S (length (ob_bids spec) + length (ob_asks spec)) ∧
  ∃ front e, deltas = front ++ [e] ∧ ends_book e = true ∧ Forall (λ d, ends_book d = false) front.
Proof.
  unfold snapshot_deltas. set (clear := delta_clear _ _ _ _).
  assert (ends_book clear = false) as Hclear by (unfold ends_book, clear; by rewrite clear_goes_on).
  destruct (side_deltas _ _ EBuy _ _) as [bids|] eqn:Hb; [|done].
  destruct (side_deltas _ _ ESell _ _) as [asks|] eqn:Ha; [|done]. intros [= <-].
  apply side_marked in Hb as [Hbn Hb]. apply side_marked in Ha as [Han Ha].
  split; [simpl; rewrite length_app; lia|].
  destruct Ha as [Hnone|(front & e & -> & He & Hf)].
  - rewrite Hnone in Hb, Han |- *. destruct asks; [|done]. rewrite app_nil_r. simpl is_empty in *.
    destruct Hb as [Hnb|(front & e & -> & He & Hf)].
    + rewrite Hnb in Hbn |- *. destruct bids; [|done]. simpl. eexists [], _. split_and!; [done| |constructor].
      eapply marked_ends, flags_set.
    + destruct (ob_bids spec) eqn:Hbs; [by destruct front|]. simpl. exists (clear :: front), e. split_and!; [done..|].
      by constructor.
  - destruct (ob_asks spec) as [|x l] eqn:Has; [by destruct front|]. simpl is_empty in *. rewrite andb_false_r.
    exists (clear :: bids ++ front), e. split_and!; [by rewrite app_assoc|done|].
    constructor; [done|]. by apply Forall_app.
Qed.
End laws.

(** ** An engine that accepts every value *)

Module EngineSample.
#[export] Instance open_engine : Engine := {|
  Price := Z * Z; Quantity := Z * Z; InstrumentId := string; Symbol := string; Currency := string; TradeId := string;
  price_from_raw_checked raw precision := Ok (raw, precision); price_raw := fst; price_precision := snd;
  quantity_from_raw_checked raw precision := Ok (raw, precision); quantity_raw := fst;
  instrument_id_from_str := Ok; symbol_new_checked := Ok; currency_from_str := Ok; trade_id_new_checked := Ok |}.

#[export] Instance open_values : EngineValues := {|
  Equity := EquityFields; FuturesContract := FutureFields; TradeTick := TradeFields;
  BarSpecification := Z * BarAggregation; BarType := string * (Z * BarAggregation); Bar := ();
  OrderBookDelta := option DeltaFields * Z; OrderBookDeltas := list (option DeltaFields * Z);
  equity_new_checked := Ok; future_new_checked := Ok; trade_tick_new_checked := Ok;
  bar_specification_last_new_checked step aggregation := Ok (step, aggregation); bar_type_external := pair;
  bar_new_checked _ _ _ _ _ _ _ _ := Ok tt; F_LAST := 128; F_SNAPSHOT := 32; F_MBP := 16;
  delta_clear _ _ _ _ := (None, 32); delta_flags := snd; delta_set_flags flags d := (d.1, flags);
  delta_new_checked fields := Ok (Some fields, dl_flags fields); deltas_new_checked _ := Ok |}.

#[export] Instance open_laws : EngineLaws.
Proof.
  split; simpl; [by intros ? ? ? [= <-]..| | | |done|done]; [by intros ? ? [= <-]|done|done].
Qed.

Definition sample_instrument : InstrumentSpec := {|
  sp_identity := {| ii_provider := "p"; ii_uid := "u"; ii_figi := None; ii_ticker := "t"; ii_class_code := "c" |};
  sp_instrument_id := "SiZ5.MOEX"; sp_raw_symbol := "SiZ5"; sp_currency := "RUB"; sp_lot_size := 1;
  sp_price_increment := Fixed 10000000; sp_ts_event_ns := 0; sp_ts_init_ns := 0 |}%string.

Definition sample_future : FutureSpec := {|
  fs_instrument := sample_instrument; fs_asset_class := Fx; fs_exchange := None; fs_underlying_id := "USD";
  fs_provider_underlying_name := None; fs_activation_ns := 1; fs_expiration_ns := 2;
  fs_economics := {| fe_min_price_increment := Fixed 10000000; fe_min_price_increment_amount := Fixed 8335500000;
                     fe_money_per_point := Fixed 833550000000 |} |}%string.

Example future_is_mapped :
  match to_nautilus_future sample_future with Ok f => exact_text (mf_money_per_point f) | Err _ => "" end = "833.55"%string.
Proof. reflexivity. Qed.

Example empty_book_ends :
  match snapshot_deltas {| ob_instrument_id := "i"; ob_bids := []; ob_asks := []; ob_lot_size := 1;
                           ob_is_consistent := true; ob_ts_event_ns := 0; ob_ts_init_ns := 0 |} "i"%string with
  | Ok deltas => ends_book <$> deltas
  | Err _ => []
  end = [true].
Proof. reflexivity. Qed.
End EngineSample.
