(* ===== verification/TInvestSupervisor.v ===== *)
(** * Supervised execution streams: [crates/vox-tinvest/src/execution_stream.rs]

    A supervisor keeps one execution stream open: it connects, checks the subscription,
    turns each response into ordered evidence, and reconnects after a failure under the
    retry policy.  [run] is an asynchronous loop; here it is a state machine with a state
    per suspension point, driven by what may happen there: a timer, a response, a result
    of the connector, a change of one of the handle's channels.  A run is a list of such
    inputs, so the theorems hold for every interleaving and every behaviour of the
    provider.

    An event is sent in one step with what the loop does next: the bounded channel may
    delay it and the events stay in order.  A failed send means the handle is gone. *)
From stdpp Require Import gmap strings.
From S2P Require Import Prelude Domain TInvestWire TInvestCanonical TInvestGrpc.

(** ** Configuration *)

Definition DEFAULT_EXECUTION_PING_DELAY_MS : Z := 120000.
Definition MIN_TRADES_PING_DELAY_MS : Z := 5000.
Definition MAX_TRADES_PING_DELAY_MS : Z := 180000.
Definition MIN_ORDER_STATE_PING_DELAY_MS : Z := 1000.
Definition MAX_ORDER_STATE_PING_DELAY_MS : Z := 120000.

Inductive ExecutionStreamKind := TradesKind | OrderStateKind.

Record ExecutionStreamConfig := {
  sg_event_capacity : Z;
  sg_stale_timeout : Z;
  sg_subscription_ack_timeout : Z;
  sg_reconnect_policy : RetryPolicy;
  sg_ping_delay_ms : Z;
}.

Definition ExecutionStreamConfig_default : ExecutionStreamConfig := {|
  sg_event_capacity := 1024; sg_stale_timeout := 150 * 1000000000;
  sg_subscription_ack_timeout := 30 * 1000000000; sg_reconnect_policy := RetryPolicy_default;
  sg_ping_delay_ms := DEFAULT_EXECUTION_PING_DELAY_MS |}.

Inductive ExecutionStreamError :=
| ZeroCapacity
| ZeroStaleTimeout
| ZeroSubscriptionAckTimeout
| InvalidPingDelay
| NoAccounts
| InvalidAccounts
| ConnectFault (e : GrpcError)
| StreamFault (e : GrpcStreamError)
| DecodeFault (e : ExecutionDecodeError)
| StaleStream
| ClosedStream
| SubscriptionRejected (status : Z)
| SubscriptionAckTimeout
| UnexpectedAccountIdentity
| WrongWireStream
| ReconnectExhausted.

Definition config_validate (self : ExecutionStreamConfig) : result ExecutionStreamError () :=
  if sg_event_capacity self =? 0 then Err ZeroCapacity
  else if sg_stale_timeout self =? 0 then Err ZeroStaleTimeout
  else if sg_subscription_ack_timeout self =? 0 then Err ZeroSubscriptionAckTimeout
  else Ok tt.

Definition validate_for (self : ExecutionStreamConfig) (kind : ExecutionStreamKind)
  : result ExecutionStreamError () :=
  let? _ := config_validate self in
  let '(low, high) := match kind with
                      | TradesKind => (MIN_TRADES_PING_DELAY_MS, MAX_TRADES_PING_DELAY_MS)
                      | OrderStateKind => (MIN_ORDER_STATE_PING_DELAY_MS, MAX_ORDER_STATE_PING_DELAY_MS)
                      end in
  if (low <=? sg_ping_delay_ms self) && (sg_ping_delay_ms self <=? high) then Ok tt
  else Err InvalidPingDelay.

Fixpoint unique_accounts (seen : gset string) (accounts : list string) : bool :=
  match accounts with
  | [] => true
  | account :: accounts =>
      negb (is_blank account) && negb (bool_decide (account ∈ seen))
      && unique_accounts ({[account]} ∪ seen) accounts
  end.

Definition validate_accounts (accounts : list string) : result ExecutionStreamError (list string) :=
  match accounts with
  | [] => Err NoAccounts
  | _ => if unique_accounts ∅ accounts then Ok accounts else Err InvalidAccounts
  end.

Definition stream_error_text (e : GrpcStreamError) : string :=
  match e with
  | OutboundClosed => "market-data stream outbound channel closed"
  | NoActiveSubscriptions provider =>
      "provider error 80004: no active market-data subscriptions: " +:+ provider_error_text provider
  | StreamProvider provider => provider_error_text provider
  end.

Definition execution_stream_text (e : ExecutionStreamError) : string :=
  match e with
  | ZeroCapacity => "execution stream event capacity must be positive"
  | ZeroStaleTimeout => "execution stream stale timeout must be positive"
  | ZeroSubscriptionAckTimeout => "execution stream subscription ACK timeout must be positive"
  | InvalidPingDelay => "execution stream ping delay is outside selected stream's documented range"
  | NoAccounts => "execution stream requires at least one account"
  | InvalidAccounts => "execution stream account IDs must be non-empty and unique"
  | ConnectFault e => grpc_error_text e
  | StreamFault e => stream_error_text e
  | DecodeFault e => execution_decode_text e
  | StaleStream => "execution stream became stale"
  | ClosedStream => "execution stream closed"
  | SubscriptionRejected status =>
      "execution stream subscription rejected with status " +:+ int_to_string status
  | SubscriptionAckTimeout => "execution stream subscription ACK timed out"
  | UnexpectedAccountIdentity => "execution stream delivered an unsubscribed account identity"
  | WrongWireStream => "execution connector returned response for wrong stream"
  | ReconnectExhausted => "execution stream reconnect attempts exhausted"
  end.

Definition transient_code (code : Code) : bool :=
  match code with Unavailable | ResourceExhausted | DeadlineExceeded => true | _ => false end.

Definition reconnectable (self : ExecutionStreamError) : bool :=
  match self with
  | ConnectFault e =>
      match ge_kind e with ProviderKind provider => transient_code (gp_code provider) | _ => false end
  | StreamFault (StreamProvider provider) => transient_code (gp_code provider)
  | StreamFault (NoActiveSubscriptions _) | StaleStream | ClosedStream | SubscriptionAckTimeout => true
  | _ => false
  end.

(** ** Events *)

Record ExecutionStreamConnectionEvidence := {
  cv_kind : ExecutionStreamKind;
  cv_account_count : Z;
  cv_ping_delay_ms : Z;
  cv_request_id : option Z;
  cv_tracking_id : option string;
}.

Inductive ExecutionStreamEvent :=
| Connected (evidence : ExecutionStreamConnectionEvidence)
| Reconnecting (attempt delay : Z)
| Evidence (event : CanonicalExecutionStreamEvent)
| Fault (error : ExecutionStreamError)
| Stopped.

Inductive ExecutionWireResponse :=
| WireTrades (response : TradesStreamResponse)
| WireOrderState (response : OrderStateStreamResponse).

Inductive ResultSubscriptionStatus := SubscriptionUnspecified | SubscriptionOk | SubscriptionError.
#[export] Instance ResultSubscriptionStatus_wire : WireEnum ResultSubscriptionStatus := {
  as_i32 s := match s with
              | SubscriptionUnspecified => 0 | SubscriptionOk => 1 | SubscriptionError => 13
              end;
  members := [SubscriptionUnspecified; SubscriptionOk; SubscriptionError];
}.
#[export] Instance ResultSubscriptionStatus_laws : WireEnumLaws ResultSubscriptionStatus.
Proof. wire_enum. Qed.

Definition decode_response (kind : ExecutionStreamKind) (response : ExecutionWireResponse)
  : result ExecutionStreamError CanonicalExecutionStreamEvent :=
  match kind, response with
  | TradesKind, WireTrades response => map_err DecodeFault (decode_trades_stream response)
  | OrderStateKind, WireOrderState response => map_err DecodeFault (decode_order_state_stream response)
  | _, _ => Err WrongWireStream
  end.

Definition expected_account (expected : gset string) (account : option string)
  : result ExecutionStreamError () :=
  match account with
  | Some account => if bool_decide (account ∈ expected) then Ok tt else Err UnexpectedAccountIdentity
  | None => Err UnexpectedAccountIdentity
  end.

(** The event and the new value of [subscribed]. *)
Definition process_response (kind : ExecutionStreamKind) (response : ExecutionWireResponse)
    (expected : gset string) (subscribed : bool)
  : result ExecutionStreamError (CanonicalExecutionStreamEvent * bool) :=
  let? event := decode_response kind response in
  match event with
  | StreamSubscription status _ _ accounts _ =>
      if negb (status =? as_i32 SubscriptionOk)
         || negb (bool_decide (list_to_set accounts = expected))
      then Err (SubscriptionRejected status)
      else Ok (event, true)
  | StreamTrades batch => let? _ := expected_account expected (cdb_account_id batch) in Ok (event, subscribed)
  | StreamOrder state => let? _ := expected_account expected (cso_account_id state) in Ok (event, subscribed)
  | StreamStopOrder state =>
      let? _ := expected_account expected (css_account_id state) in Ok (event, subscribed)
  | StreamPing _ => Ok (event, subscribed)
  end.

(** ** The handle's channels *)

(** The two watch channels of a handle with whether the loop has seen their last value,
    and whether the handle is still there.  A handle holds the receiver of the events. *)
Record Channels := {
  ch_stop : bool;
  ch_stop_seen : bool;
  ch_reconnect : Z;
  ch_reconnect_seen : bool;
  ch_alive : bool;
}.

Definition Channels_new : Channels := {|
  ch_stop := false; ch_stop_seen := true; ch_reconnect := 0; ch_reconnect_seen := true;
  ch_alive := true |}.

(** [ExecutionStreamHandle::stop], [force_reconnect] and dropping the handle. *)
Definition handle_stop (c : Channels) : Channels := {|
  ch_stop := true; ch_stop_seen := false; ch_reconnect := ch_reconnect c;
  ch_reconnect_seen := ch_reconnect_seen c; ch_alive := ch_alive c |}.

Definition handle_force_reconnect (c : Channels) : Channels := {|
  ch_stop := ch_stop c; ch_stop_seen := ch_stop_seen c;
  ch_reconnect := (ch_reconnect c + 1) mod (int_max U64 + 1);
  ch_reconnect_seen := false; ch_alive := ch_alive c |}.

Definition handle_drop (c : Channels) : Channels := {|
  ch_stop := ch_stop c; ch_stop_seen := ch_stop_seen c; ch_reconnect := ch_reconnect c;
  ch_reconnect_seen := ch_reconnect_seen c; ch_alive := false |}.

(** [changed()] of a watch receiver: a value not seen yet, an error once the sender is
    gone, otherwise it waits. *)
Inductive Change := Waits | Changed | SenderGone.

Definition changed (seen alive : bool) : Change :=
  if negb seen then Changed else if negb alive then SenderGone else Waits.

Definition see_stop (c : Channels) : Channels := {|
  ch_stop := ch_stop c; ch_stop_seen := true; ch_reconnect := ch_reconnect c;
  ch_reconnect_seen := ch_reconnect_seen c; ch_alive := ch_alive c |}.

Definition see_reconnect (c : Channels) : Channels := {|
  ch_stop := ch_stop c; ch_stop_seen := ch_stop_seen c; ch_reconnect := ch_reconnect c;
  ch_reconnect_seen := true; ch_alive := ch_alive c |}.

(** ** The loop *)

(** Where [run] is suspended: before an iteration, in the delay before a reconnection,
    in the connector, in the inner loop, or returned. *)
Inductive Phase :=
| AtTop
| Delaying
| Connecting
| Streaming (subscribed : bool)
| Returned.

(** The events sent so far, the oldest first. *)
Record Run := {
  ru_phase : Phase;
  ru_failed_attempts : Z;
  ru_channels : Channels;
  ru_events : list ExecutionStreamEvent;
}.

Definition Run_start : Run := {|
  ru_phase := AtTop; ru_failed_attempts := 0; ru_channels := Channels_new; ru_events := [] |}.

Definition go (phase : Phase) (r : Run) : Run := {|
  ru_phase := phase; ru_failed_attempts := ru_failed_attempts r; ru_channels := ru_channels r;
  ru_events := ru_events r |}.

Definition set_failed (n : Z) (r : Run) : Run := {|
  ru_phase := ru_phase r; ru_failed_attempts := n; ru_channels := ru_channels r;
  ru_events := ru_events r |}.

Definition set_channels (c : Channels) (r : Run) : Run := {|
  ru_phase := ru_phase r; ru_failed_attempts := ru_failed_attempts r; ru_channels := c;
  ru_events := ru_events r |}.

(** [events.send(event).await]; [let _ =] and [is_err]. *)
Definition emit (event : ExecutionStreamEvent) (r : Run) : Run :=
  if ch_alive (ru_channels r)
  then {| ru_phase := ru_phase r; ru_failed_attempts := ru_failed_attempts r;
          ru_channels := ru_channels r; ru_events := ru_events r ++ [event] |}
  else r.

Definition emit_or_return (event : ExecutionStreamEvent) (phase : Phase) (r : Run) : Run :=
  if ch_alive (ru_channels r) then go phase (emit event r) else go Returned r.

(** [failed_attempts.saturating_add(1)]. *)
Definition count_failure (r : Run) : Run :=
  set_failed (Z.min (ru_failed_attempts r + 1) U32_MAX) r.

Definition stopped (r : Run) : Run := go Returned (emit Stopped r).

(** A failure: counted and reported; the loop goes on only when it may reconnect. *)
Definition failed (error : ExecutionStreamError) (r : Run) : Run :=
  go (if reconnectable error then AtTop else Returned) (emit (Fault error) (count_failure r)).

(** What may happen while the loop is suspended, and what the owner of the handle does. *)
Inductive Input :=
| Resume
| DelayElapsed
| ConnectorReturned (outcome : result ExecutionStreamError (option GrpcResponseMetadata))
| AckDeadline
| StopChanged
| ReconnectChanged
| MessageTimeout
| MessageReturned (outcome : result ExecutionStreamError (option ExecutionWireResponse))
| CallStop
| CallForceReconnect
| DropHandle.

Section supervisor.
Context (config : ExecutionStreamConfig) (kind : ExecutionStreamKind) (accounts : list string).
Context (connection_id : Z).

Definition expected : gset string := list_to_set accounts.

(** The start of an iteration up to the delay or the connector. *)
Definition at_top (r : Run) : Run :=
  if ch_stop (ru_channels r) then stopped r
  else if 0 <? ru_failed_attempts r then
    if rt_max_attempts (sg_reconnect_policy config) <=? ru_failed_attempts r
    then go Returned (emit (Fault ReconnectExhausted) r)
    else
      emit_or_return
        (Reconnecting (ru_failed_attempts r)
           (delay_for (sg_reconnect_policy config) (ru_failed_attempts r) connection_id))
        Delaying r
  else go Connecting r.

(** [changed = stop.changed()]: the loop stops, or [next] goes on. *)
Definition on_stop (next : Run → Run) (r : Run) : option Run :=
  match changed (ch_stop_seen (ru_channels r)) (ch_alive (ru_channels r)) with
  | Waits => None
  | Changed =>
      let r := set_channels (see_stop (ru_channels r)) r in
      Some (if ch_stop (ru_channels r) then stopped r else next r)
  | SenderGone => Some (stopped r)
  end.

Definition on_reconnect (r : Run) : option Run :=
  match changed (ch_reconnect_seen (ru_channels r)) (ch_alive (ru_channels r)) with
  | Waits => None
  | Changed => Some (go AtTop (set_failed 1 (set_channels (see_reconnect (ru_channels r)) r)))
  | SenderGone => Some (stopped r)
  end.

Definition connection_evidence (metadata : option GrpcResponseMetadata)
  : ExecutionStreamConnectionEvidence := {|
  cv_kind := kind; cv_account_count := Z.of_nat (length accounts);
  cv_ping_delay_ms := sg_ping_delay_ms config;
  cv_request_id := rx_request_id <$> metadata;
  cv_tracking_id := metadata ≫= rx_tracking_id |}.

Definition on_connector (outcome : result ExecutionStreamError (option GrpcResponseMetadata))
    (r : Run) : Run :=
  match outcome with
  | Ok metadata => emit_or_return (Connected (connection_evidence metadata)) (Streaming false) r
  | Err error => failed error r
  end.

Definition is_subscription (event : CanonicalExecutionStreamEvent) : bool :=
  match event with StreamSubscription _ _ _ _ _ => true | _ => false end.

Definition on_message (subscribed : bool)
    (outcome : result ExecutionStreamError (option ExecutionWireResponse)) (r : Run) : Run :=
  let processed := match outcome with
                   | Err error => Err error
                   | Ok None => Err ClosedStream
                   | Ok (Some response) => process_response kind response expected subscribed
                   end in
  match processed with
  | Ok (event, subscribed) =>
      let r := if is_subscription event then set_failed 0 r else r in
      emit_or_return (Evidence event) (Streaming subscribed) r
  | Err error => failed error r
  end.

(** The time limit of the subscription: [break] without asking whether to reconnect. *)
Definition on_ack_deadline (r : Run) : Run :=
  go AtTop (emit (Fault SubscriptionAckTimeout) (count_failure r)).

Definition on_handle (call : Channels → Channels) (r : Run) : option Run :=
  if ch_alive (ru_channels r) then Some (set_channels (call (ru_channels r)) r) else None.

(** One step; [None] when the input cannot happen here. *)
Definition step (input : Input) (r : Run) : option Run :=
  match input, ru_phase r with
  | CallStop, _ => on_handle handle_stop r
  | CallForceReconnect, _ => on_handle handle_force_reconnect r
  | DropHandle, _ => on_handle handle_drop r
  | Resume, AtTop => Some (at_top r)
  | DelayElapsed, Delaying => Some (go Connecting r)
  | StopChanged, Delaying => on_stop (go Connecting) r
  | ConnectorReturned outcome, Connecting => Some (on_connector outcome r)
  | AckDeadline, Streaming false => Some (on_ack_deadline r)
  | StopChanged, Streaming _ => on_stop (λ r, r) r
  | ReconnectChanged, Streaming _ => on_reconnect r
  | MessageTimeout, Streaming _ => Some (failed StaleStream r)
  | MessageReturned outcome, Streaming subscribed => Some (on_message subscribed outcome r)
  | _, _ => None
  end.

Fixpoint steps (inputs : list Input) (r : Run) : option Run :=
  match inputs with
  | [] => Some r
  | input :: inputs => match step input r with Some r => steps inputs r | None => None end
  end.

(** [start]: the configuration and the accounts are checked before anything runs. *)
Definition stream_start : result ExecutionStreamError Run :=
  let? _ := validate_for config kind in
  let? _ := validate_accounts accounts in
  Ok Run_start.

(** ** What a run reports *)

(** Evidence is about the accounts the stream was started for; a subscription names
    exactly them. *)
Definition concerns (event : CanonicalExecutionStreamEvent) : Prop :=
  let of_expected account := ∃ a, account = Some a ∧ a ∈ accounts in
  match event with
  | StreamTrades batch => of_expected (cdb_account_id batch)
  | StreamOrder state => of_expected (cso_account_id state)
  | StreamStopOrder state => of_expected (css_account_id state)
  | StreamSubscription status _ _ subscribed _ =>
      status = as_i32 SubscriptionOk ∧ ∀ a, a ∈ subscribed ↔ a ∈ accounts
  | StreamPing _ => True
  end.

(** What an event says is so: the connection is the one asked for, a reconnection comes
    within the policy and after the policy's delay. *)
Definition legitimate (event : ExecutionStreamEvent) : Prop :=
  match event with
  | Connected evidence =>
      cv_kind evidence = kind ∧ cv_account_count evidence = Z.of_nat (length accounts) ∧
      cv_ping_delay_ms evidence = sg_ping_delay_ms config
  | Reconnecting attempt delay =>
      1 ≤ attempt < rt_max_attempts (sg_reconnect_policy config) ∧
      delay = delay_for (sg_reconnect_policy config) attempt connection_id
  | Evidence event => concerns event
  | Fault _ | Stopped => True
  end.

(** The event with which a run ends. *)
Definition terminal (event : ExecutionStreamEvent) : bool :=
  match event with
  | Fault error => negb (reconnectable error)
  | Stopped => true
  | _ => false
  end.

Lemma expected_account_Ok account u :
  expected_account expected account = Ok u → ∃ a, account = Some a ∧ a ∈ accounts.
Proof.
  unfold expected_account, expected. destruct account as [a|]; [|done].
  case_bool_decide as H; [|done]. intros _. exists a. split; [done|]. by apply elem_of_list_to_set in H.
Qed.

Lemma process_response_concerns response subscribed event subscribed' :
  process_response kind response expected subscribed = Ok (event, subscribed') → concerns event.
Proof.
  unfold process_response. destruct (decode_response _ _) as [ev|]; [|done]. simpl.
  destruct ev as [batch|state|state|status t i subs c|time]; simpl.
  1-3: destruct (expected_account _ _) as [u|] eqn:He; [|done]; simpl; intros [= <- _];
       by eapply expected_account_Ok.
  - destruct (_ || _) eqn:H; [done|]. intros [= <- _]. prop_tests. simpl.
    split; [by apply Z.eqb_eq|]. intros a. unfold expected in *.
    rewrite <- (elem_of_list_to_set (C:=gset string)). rewrite <- (elem_of_list_to_set (C:=gset string) a accounts).
    set_solver.
  - by intros [= <- _].
Qed.

(** A connection that has been reported and not been lost since. *)
Definition live (events : list ExecutionStreamEvent) : bool :=
  fold_left (λ up event, match event with Connected _ => true | Fault _ => false | _ => up end)
    events false.

(** Failures since the last accepted subscription. *)
Definition faults_since (events : list ExecutionStreamEvent) : Z :=
  fold_left (λ n event, match event with
                        | Evidence event => if is_subscription event then 0 else n
                        | Fault _ => n + 1
                        | _ => n
                        end) events 0.

(** A connection is reported only when none is up, evidence only of one that is. *)
Definition in_order (events : list ExecutionStreamEvent) : Prop := ∀ l1 event l2,
  events = l1 ++ event :: l2 →
  match event with
  | Connected _ => live l1 = false
  | Evidence _ => live l1 = true
  | _ => True
  end.

Lemma live_snoc events event :
  live (events ++ [event]) =
  match event with Connected _ => true | Fault _ => false | _ => live events end.
Proof. unfold live. rewrite fold_left_app. by destruct event. Qed.

Lemma faults_since_snoc events event :
  faults_since (events ++ [event]) =
  match event with
  | Evidence event => if is_subscription event then 0 else faults_since events
  | Fault _ => faults_since events + 1
  | _ => faults_since events
  end.
Proof. unfold faults_since. rewrite fold_left_app. by destruct event. Qed.

Lemma in_order_snoc events event :
  in_order events →
  match event with
  | Connected _ => live events = false
  | Evidence _ => live events = true
  | _ => True
  end →
  in_order (events ++ [event]).
Proof.
  intros Hl He l1 ev l2 Heq. destruct l2 as [|x l2 _] using rev_ind.
  - apply app_inj_tail in Heq as [<- <-]. done.
  - rewrite app_comm_cons, app_assoc in Heq. apply app_inj_tail in Heq as [Heq _]. by eapply Hl.
Qed.

(** A connection that is up was reported and nothing failed since. *)
Lemma live_reported events :
  live events = true →
  ∃ l1 c l2, events = l1 ++ Connected c :: l2 ∧ ∀ error, Fault error ∉ l2.
Proof.
  induction events as [|event events IH] using rev_ind; [done|]. rewrite live_snoc.
  destruct event as [c| | |e|].
  1: { intros _. exists events, c, []. split; [done|]. set_solver. }
  3: done.
  all: intros (l1 & c & l2 & -> & Hl2)%IH; exists l1, c; eexists (l2 ++ [_]);
    rewrite <- app_assoc; split; [done|]; intros error; rewrite elem_of_app, list_elem_of_singleton;
    naive_solver.
Qed.

(** Two connections are never reported without a failure between them. *)
Lemma in_order_separated events l1 a l2 b l3 :
  in_order events → events = l1 ++ Connected a :: l2 ++ Connected b :: l3 →
  ∃ error, Fault error ∈ l2.
Proof.
  intros Ho ->. specialize (Ho (l1 ++ Connected a :: l2) (Connected b) l3).
  rewrite <- app_assoc in Ho. specialize (Ho eq_refl). simpl in Ho. clear b l3.
  induction l2 as [|event l2 IH] using rev_ind.
  - by rewrite live_snoc in Ho.
  - rewrite app_comm_cons, app_assoc, live_snoc in Ho.
    destruct event as [c| | |error|]; [done|..]; try (destruct (IH Ho) as [e He]; exists e; set_solver).
    exists error. set_solver.
Qed.

(** ** The invariants of a run *)

Notation max_attempts := (rt_max_attempts (sg_reconnect_policy config)).
Context (Hmax : 1 ≤ max_attempts ≤ U32_MAX).

(** Every event is legitimate; the loop goes on until a terminal event, which ends it
    and is reported unless the handle is gone; the failures counted leave an attempt
    wherever the loop is about to make one or has made it. *)
Record supervised (r : Run) : Prop := {
  sup_legitimate : Forall legitimate (ru_events r);
  sup_stop : Stopped ∈ ru_events r → ch_stop (ru_channels r) = true;
  sup_end : match ru_phase r with
            | Returned => ch_alive (ru_channels r) = true →
                ∃ l event, ru_events r = l ++ [event] ∧ terminal event = true ∧
                  Forall (λ event, terminal event = false) l
            | _ => Forall (λ event, terminal event = false) (ru_events r)
            end;
  sup_failed : 0 ≤ ru_failed_attempts r ∧
               match ru_phase r with
               | AtTop => ru_failed_attempts r ≤ max_attempts
               | Returned => True
               | _ => ru_failed_attempts r < max_attempts
               end;
}.

(** Without a forced reconnection: connections and evidence are in order, and no more
    failures are reported than counted. *)
Record orderly (r : Run) : Prop := {
  ord_unforced : ch_reconnect_seen (ru_channels r) = true;
  ord_order : in_order (ru_events r);
  ord_phase : match ru_phase r with
              | Returned => faults_since (ru_events r) ≤ max_attempts + 1
              | Streaming _ => live (ru_events r) = true ∧ faults_since (ru_events r) ≤ ru_failed_attempts r
              | _ => (ch_alive (ru_channels r) = true → live (ru_events r) = false) ∧
                     faults_since (ru_events r) ≤ ru_failed_attempts r
              end;
}.

Lemma supervised_start : supervised Run_start.
Proof. split; simpl; [constructor|set_solver|constructor|lia]. Qed.

Lemma orderly_start : orderly Run_start.
Proof. split; simpl; [done| |done]. intros l1 event l2 H. by destruct l1. Qed.

Ltac run_simpl :=
  unfold at_top, on_stop, on_reconnect, on_connector, on_ack_deadline, on_handle, emit_or_return,
    failed, stopped, count_failure, go, set_failed, set_channels, emit, changed, see_stop,
    see_reconnect, handle_stop, handle_force_reconnect, handle_drop in *; simpl in *.

(** A message either yields evidence about the accounts or fails. *)
Lemma on_message_cases subscribed outcome r :
  (∃ error, on_message subscribed outcome r = failed error r) ∨
  (∃ event subscribed', concerns event ∧
     on_message subscribed outcome r =
     emit_or_return (Evidence event) (Streaming subscribed')
       (if is_subscription event then set_failed 0 r else r)).
Proof.
  unfold on_message. destruct outcome as [[response|]|error]; [|by left; eexists..].
  destruct (process_response _ _ _ _) as [[event subscribed']|error] eqn:Hp; [|by left; eexists].
  right. exists event, subscribed'. split; [|done]. by eapply process_response_concerns.
Qed.

(** A step from a running state that sends one event, or none when the handle is gone. *)
Lemma supervised_emit r event phase n channels :
  supervised r → ru_phase r ≠ Returned → legitimate event →
  (event = Stopped → ch_stop channels = true) →
  (ch_stop (ru_channels r) = true → ch_stop channels = true) →
  (phase = Returned → terminal event = true) → (phase ≠ Returned → terminal event = false) →
  0 ≤ n → (match phase with AtTop => n ≤ max_attempts | Returned => True | _ => n < max_attempts end) →
  supervised {| ru_phase := phase; ru_failed_attempts := n; ru_channels := channels;
                ru_events := ru_events r ++ [event] |}.
Proof.
  intros [Hl Hs He _] Hphase Hlegit Hstop Hmono Hret Hcont Hn Hp. split; simpl.
  - apply Forall_app. by repeat constructor.
  - rewrite elem_of_app, list_elem_of_singleton. naive_solver.
  - assert (Forall (λ event, terminal event = false) (ru_events r)) by (by destruct (ru_phase r)).
    destruct phase; try (apply Forall_app; repeat constructor; by auto). intros _. eauto 10.
  - split; [done|]. by destruct phase.
Qed.

(** A step that sends nothing; it ends the run only when the handle is gone. *)
Lemma supervised_silent r phase n channels :
  supervised r → ru_phase r ≠ Returned →
  (ch_stop (ru_channels r) = true → ch_stop channels = true) →
  (phase = Returned → ch_alive channels = false) →
  0 ≤ n → (match phase with AtTop => n ≤ max_attempts | Returned => True | _ => n < max_attempts end) →
  supervised {| ru_phase := phase; ru_failed_attempts := n; ru_channels := channels;
                ru_events := ru_events r |}.
Proof.
  intros [Hl Hs He _] Hphase Hmono Hret Hn Hp. split; simpl; [done|by auto| |].
  - assert (Forall (λ event, terminal event = false) (ru_events r)) by (by destruct (ru_phase r)).
    destruct phase; try done. intros Ha. by rewrite (Hret eq_refl) in Ha.
  - split; [done|]. by destruct phase.
Qed.

(** The calls of the handle's owner. *)
Lemma supervised_handle r call r' :
  (∀ c, ch_stop c = true → ch_stop (call c) = true) → (∀ c, ch_alive (call c) = true → ch_alive c = true) →
  supervised r → on_handle call r = Some r' → supervised r'.
Proof.
  intros Hcall Halive [Hl Hs He Hf] H. unfold on_handle in H. destruct (ch_alive _) eqn:Ha; [|done].
  injection H as <-. split; simpl; [done|by auto| |done]. destruct (ru_phase r); auto.
Qed.

Ltac advance :=
  match goal with
  | |- supervised {| ru_events := ru_events _ ++ [_] |} => apply supervised_emit
  | |- supervised {| ru_events := ru_events _ |} => apply supervised_silent
  end; try done; simpl; try lia; try congruence.

Lemma step_failed error r :
  supervised r → (∃ b, ru_phase r = Streaming b) ∨ ru_phase r = Connecting → supervised (failed error r).
Proof.
  intros H Hphase.
  assert (ru_phase r ≠ Returned) by (destruct Hphase as [[b ->] | ->]; done).
  assert (0 ≤ ru_failed_attempts r < max_attempts).
  { destruct H as [_ _ _ [? Hf]]. destruct Hphase as [[b Hb] | Hb]; rewrite Hb in Hf; lia. }
  unfold failed, emit, go, count_failure, set_failed. simpl. unfold U32_MAX in *.
  destruct (ch_alive _) eqn:Ha, (reconnectable error) eqn:Hr; simpl; advance; simpl; by rewrite Hr.
Qed.

Lemma step_stopped r :
  supervised r → ru_phase r ≠ Returned → ch_stop (ru_channels r) = true ∨ ch_alive (ru_channels r) = false →
  supervised (stopped r).
Proof.
  intros H Hphase Hwhy. destruct (sup_failed _ H) as [Hf _].
  unfold stopped, emit, go. destruct (ch_alive _) eqn:Ha; simpl; advance. naive_solver.
Qed.

Lemma step_on_stop r next r' :
  supervised r → ru_phase r ≠ Returned → ru_phase r ≠ AtTop →
  (∀ c, (ch_stop (ru_channels r) = true → ch_stop c = true) → supervised (next (set_channels c r))) →
  on_stop next r = Some r' → supervised r'.
Proof.
  intros H Hphase Htop Hnext. unfold on_stop, changed.
  destruct (ch_stop_seen _) eqn:Hseen; simpl.
  - destruct (ch_alive _) eqn:Ha; [done|]. intros [= <-]. apply step_stopped; auto.
  - intros [= <-]. destruct (ch_stop _) eqn:Hs; [|by apply Hnext].
    destruct (sup_failed _ H) as [Hf Hfp]. apply step_stopped; [|done|by left].
    unfold set_channels. destruct (ru_phase r) eqn:Hp; try done; advance.
Qed.

Lemma step_supervised input r r' :
  supervised r → step input r = Some r' → supervised r'.
Proof.
  intros H Hstep. destruct (sup_failed _ H) as [Hf Hfp]. unfold step in Hstep.
  destruct input; try (revert Hstep; apply supervised_handle; by try (intros []; simpl; auto));
    destruct (ru_phase r) as [| | |b|] eqn:Hp; try done.
  - injection Hstep as <-. unfold at_top, emit_or_return, go.
    destruct (ch_stop _) eqn:Hs; [apply step_stopped; [done|congruence|by left]|].
    destruct (0 <? _) eqn:H0; [|advance].
    destruct (_ <=? _) eqn:Hge; unfold emit; destruct (ch_alive _) eqn:Ha; simpl; advance.
  - injection Hstep as <-. unfold go. advance.
  - destruct outcome as [metadata|error]; injection Hstep as <-; [|apply step_failed; auto].
    simpl. unfold emit_or_return, emit, go. destruct (ch_alive _) eqn:Ha; simpl; rewrite ?Ha; advance.
  - destruct b; [done|]. injection Hstep as <-.
    unfold on_ack_deadline, emit, go, count_failure, set_failed. simpl. unfold U32_MAX in *.
    destruct (ch_alive _) eqn:Ha; simpl; advance.
  - revert Hstep. apply step_on_stop; try congruence; try done. intros c Hc. unfold go, set_channels. simpl. advance.
  - revert Hstep. apply step_on_stop; try congruence; try done. intros c Hc. unfold set_channels. simpl.
    rewrite Hp. advance.
  - unfold on_reconnect, changed in Hstep. destruct (ch_reconnect_seen _); simpl in Hstep.
    + destruct (ch_alive _) eqn:Ha; [done|]. injection Hstep as <-. apply step_stopped; [done|congruence|by right].
    + injection Hstep as <-. unfold go, set_failed, set_channels. simpl. advance.
  - injection Hstep as <-. apply step_failed; eauto.
  - injection Hstep as <-.
    destruct (on_message_cases b outcome r) as [[error ->] | (event & b' & Hc & ->)]; [apply step_failed; eauto|].
    unfold emit_or_return, emit, go, set_failed.
    destruct (is_subscription event), (ch_alive (ru_channels r)) eqn:Ha; simpl; rewrite ?Ha; simpl; advance.
Qed.

(** *** Order *)

(** Evidence leaves a live connection live, a connection makes one, a failure ends it. *)
Lemma orderly_failed error r :
  supervised r → orderly r → (∃ b, ru_phase r = Streaming b) ∨ ru_phase r = Connecting →
  orderly (failed error r).
Proof.
  intros Hs [Hu Ho Hp] Hphase.
  assert (faults_since (ru_events r) ≤ ru_failed_attempts r < max_attempts) as Hb.
  { destruct (sup_failed _ Hs) as [_ Hf]. destruct Hphase as [[b Hb] | Hb]; rewrite Hb in Hf, Hp; lia. }
  unfold failed, emit, go, count_failure, set_failed, U32_MAX in *. simpl.
  destruct (ch_alive _) eqn:Ha; split; simpl; rewrite ?Ha; auto.
  - by apply in_order_snoc.
  - rewrite faults_since_snoc, live_snoc. destruct (reconnectable error); [split; [done|]|]; lia.
  - destruct (reconnectable error); [split; [done|]|]; lia.
Qed.

Lemma orderly_stopped r : supervised r → orderly r → ru_phase r ≠ Returned → orderly (stopped r).
Proof.
  intros Hs [Hu Ho Hp] Hphase.
  assert (faults_since (ru_events r) ≤ max_attempts) as Hb.
  { destruct (sup_failed _ Hs) as [_ Hf]. destruct (ru_phase r); try done; lia. }
  unfold stopped, emit, go. destruct (ch_alive _) eqn:Ha; split; simpl; auto; [|rewrite faults_since_snoc|]; try lia.
  by apply in_order_snoc.
Qed.

Lemma orderly_on_stop r next r' :
  supervised r → orderly r → ru_phase r ≠ Returned → ru_phase r ≠ AtTop →
  (∀ c, ch_alive c = ch_alive (ru_channels r) → ch_reconnect_seen c = true → orderly (next (set_channels c r))) →
  on_stop next r = Some r' → orderly r'.
Proof.
  intros Hs Ho Hphase Htop Hnext. pose proof (ord_unforced _ Ho) as Hu. unfold on_stop, changed.
  destruct (ch_stop_seen _); simpl.
  - destruct (ch_alive _) eqn:Ha; [done|]. intros [= <-]. by apply orderly_stopped.
  - intros [= <-]. destruct (ch_stop _) eqn:Hst; [|by apply Hnext].
    apply orderly_stopped; [|split; simpl; by destruct Ho|done].
    destruct (sup_failed _ Hs) as [Hf Hfp]. unfold set_channels. destruct (ru_phase r) eqn:Hp; try done; advance.
Qed.

Lemma orderly_handle r call r' :
  (∀ c, ch_reconnect_seen (call c) = ch_reconnect_seen c) →
  orderly r → on_handle call r = Some r' → orderly r'.
Proof.
  intros Hcall [Hu Ho Hp] H. unfold on_handle in H. destruct (ch_alive _) eqn:Ha; [|done].
  injection H as <-. split; simpl; [by rewrite Hcall|done|]. destruct (ru_phase r); naive_solver.
Qed.

Lemma orderly_top r : supervised r → orderly r → ru_phase r = AtTop → orderly (at_top r).
Proof.
  intros Hs Ho Hp. unfold at_top, emit_or_return, emit, go.
  destruct (ch_stop _); [apply orderly_stopped; congruence|].
  destruct Ho as [Hu Ho Hph]. destruct (sup_failed _ Hs) as [Hf Hfp]. rewrite Hp in Hph, Hfp.
  destruct (0 <? _) eqn:H0; [|by split; simpl].
  destruct (_ <=? _) eqn:Hge; destruct (ch_alive _) eqn:Ha; split; simpl; auto;
    rewrite ?faults_since_snoc, ?live_snoc; try (by apply in_order_snoc); try lia; naive_solver.
Qed.

Lemma step_orderly input r r' :
  input ≠ CallForceReconnect → supervised r → orderly r → step input r = Some r' → orderly r'.
Proof.
  intros Hin Hs Ho Hstep. unfold step in Hstep.
  destruct input; try done; try (revert Hstep; apply orderly_handle; done);
    destruct (ru_phase r) as [| | |b|] eqn:Hp; try done.
  - injection Hstep as <-. by apply orderly_top.
  - injection Hstep as <-. destruct Ho as [Hu Ho Hph]. rewrite Hp in Hph. by split.
  - destruct outcome as [metadata|error]; injection Hstep as <-; [|apply orderly_failed; auto].
    destruct Ho as [Hu Ho Hph]. rewrite Hp in Hph.
    destruct (sup_failed _ Hs) as [Hf Hfp]. rewrite Hp in Hfp.
    simpl. unfold emit_or_return, emit, go. destruct (ch_alive _) eqn:Ha; simpl; rewrite ?Ha; split; simpl; auto;
      rewrite ?faults_since_snoc, ?live_snoc; [apply in_order_snoc; naive_solver|naive_solver|lia].
  - destruct b; [done|]. injection Hstep as <-.
    by apply (orderly_failed SubscriptionAckTimeout); [..|eauto].
  - revert Hstep. apply orderly_on_stop; try congruence; try done. intros c Ha Hc.
    destruct Ho as [Hu Ho Hph]. rewrite Hp in Hph. split; simpl; rewrite ?Ha; done.
  - revert Hstep. apply orderly_on_stop; try congruence; try done. intros c Ha Hc.
    destruct Ho as [Hu Ho Hph]. rewrite Hp in Hph. split; simpl; rewrite ?Hp; done.
  - unfold on_reconnect, changed in Hstep. rewrite (ord_unforced _ Ho) in Hstep. simpl in Hstep.
    destruct (ch_alive _); [done|]. injection Hstep as <-. apply orderly_stopped; congruence.
  - injection Hstep as <-. apply orderly_failed; eauto.
  - injection Hstep as <-.
    destruct (on_message_cases b outcome r) as [[error ->] | (event & b' & Hc & ->)]; [apply orderly_failed; eauto|].
    destruct Ho as [Hu Ho Hph]. rewrite Hp in Hph. destruct (sup_failed _ Hs) as [Hf Hfp]. rewrite Hp in Hfp.
    unfold emit_or_return, emit, go, set_failed.
    destruct (is_subscription event) eqn:Hsub, (ch_alive (ru_channels r)) eqn:Ha; simpl; rewrite ?Ha; split; simpl; auto;
      rewrite ?faults_since_snoc, ?live_snoc, ?Hsub; try (apply in_order_snoc; naive_solver); try lia; naive_solver.
Qed.

(** *** Runs *)

Lemma stream_start_Ok r : stream_start = Ok r → r = Run_start.
Proof.
  unfold stream_start. destruct (validate_for _ _); [|done]. destruct (validate_accounts _); [|done]. by intros [= <-].
Qed.

Lemma steps_supervised inputs r r' : supervised r → steps inputs r = Some r' → supervised r'.
Proof.
  revert r. induction inputs as [|input inputs IH]; intros r H; simpl; [by intros [= <-]|].
  destruct (step input r) as [r1|] eqn:Hs; [|done]. apply IH. by eapply step_supervised.
Qed.

Lemma steps_orderly inputs r r' :
  Forall (λ input, input ≠ CallForceReconnect) inputs → supervised r → orderly r →
  steps inputs r = Some r' → orderly r'.
Proof.
  intros Hin. revert r. induction Hin as [|input inputs Hi _ IH]; intros r H Ho; simpl; [by intros [= <-]|].
  destruct (step input r) as [r1|] eqn:Hs; [|done]. apply IH; [by eapply step_supervised|by eapply step_orderly].
Qed.

(** C24. What a supervised stream reports is so, and it never ends in silence.  Whatever
    the provider sends and whenever the handle is used, every piece of evidence is about
    an account the stream was started for and an accepted subscription names exactly
    those accounts; a connection is reported as the one asked for; a reconnection is
    announced within the policy's attempts and with the policy's delay.  The run goes on
    until a terminal event, a failure that cannot be retried or a stop, which is its last
    event and is reported unless the handle is gone; and it reports that it was stopped
    only when a stop was asked for. *)
Theorem stream_run_is_accounted inputs r0 r :
  stream_start = Ok r0 → steps inputs r0 = Some r →
  Forall legitimate (ru_events r) ∧
  (Stopped ∈ ru_events r → ch_stop (ru_channels r) = true) ∧
  match ru_phase r with
  | Returned => ch_alive (ru_channels r) = true →
      ∃ l event, ru_events r = l ++ [event] ∧ terminal event = true ∧
        Forall (λ event, terminal event = false) l
  | _ => Forall (λ event, terminal event = false) (ru_events r)
  end.
Proof. intros ->%stream_start_Ok H. apply steps_supervised in H; [by destruct H|apply supervised_start]. Qed.

(** Losing the stream is reported every time.  Unless a reconnection is forced, two
    connections are never reported without a failure between them, and evidence comes
    only from a connection that was reported and has not failed since: what may have been
    missed is always announced before the stream is used again.  No more failures are
    reported since the last accepted subscription than the policy has attempts, and one
    that says they are exhausted. *)
Lemma stream_losses_are_reported inputs r0 r :
  stream_start = Ok r0 → Forall (λ input, input ≠ CallForceReconnect) inputs → steps inputs r0 = Some r →
  (∀ l1 a l2 b l3, ru_events r = l1 ++ Connected a :: l2 ++ Connected b :: l3 → ∃ error, Fault error ∈ l2) ∧
  (∀ l1 event l2, ru_events r = l1 ++ Evidence event :: l2 →
     ∃ l c l', l1 = l ++ Connected c :: l' ∧ ∀ error, Fault error ∉ l') ∧
  faults_since (ru_events r) ≤ max_attempts + 1.
Proof.
  intros ->%stream_start_Ok Hin H.
  pose proof (steps_supervised _ _ _ supervised_start H) as Hs.
  apply steps_orderly in H as [_ Ho Hp]; [|done|apply supervised_start|apply orderly_start].
  split_and!.
  - intros l1 a l2 b l3. by apply in_order_separated.
  - intros l1 event l2 Heq. by apply live_reported, (Ho _ _ _ Heq).
  - destruct (sup_failed _ Hs) as [_ Hf]. destruct (ru_phase r); lia.
Qed.
End supervisor.

(** ** A run *)

Module StreamSample.
Definition accounts : list string := ["2000"].

Definition subscription : OrderStateStreamResponse := {|
  oss_payload := Some (OrderStatePayload_Subscription {|
    sr_tracking_id := "t"; sr_status := 1; sr_stream_id := "s"; sr_accounts := accounts;
    sr_error := None |}) |}.

(** A subscription, silence, a reconnection and a response of the wrong stream. *)
Definition inputs : list Input :=
  [Resume; ConnectorReturned (Ok None); MessageReturned (Ok (Some (WireOrderState subscription)));
   MessageTimeout; Resume; DelayElapsed; ConnectorReturned (Ok None);
   MessageReturned (Ok (Some (WireTrades {| tsr_payload := None |})))].

Definition evidence : ExecutionStreamConnectionEvidence := {|
  cv_kind := OrderStateKind; cv_account_count := 1; cv_ping_delay_ms := 120000;
  cv_request_id := None; cv_tracking_id := None |}.

Definition final : Run := {|
  ru_phase := Returned; ru_failed_attempts := 2; ru_channels := Channels_new;
  ru_events := [Connected evidence; Evidence (StreamSubscription 1 (Some "t") (Some "s") accounts None);
                Fault StaleStream; Reconnecting 1 (delay_for RetryPolicy_default 1 7); Connected evidence;
                Fault WrongWireStream] |}.

Example sample_run :
  steps ExecutionStreamConfig_default OrderStateKind accounts 7 inputs Run_start = Some final.
Proof. vm_compute. reflexivity. Qed.
End StreamSample.

Lemma stream_run_is_accounted_witness :
  Forall (legitimate ExecutionStreamConfig_default OrderStateKind StreamSample.accounts 7)
    (ru_events StreamSample.final).
Proof.
  exact (proj1 (stream_run_is_accounted ExecutionStreamConfig_default OrderStateKind
    StreamSample.accounts 7 ltac:(vm_compute; split; discriminate) StreamSample.inputs Run_start
    StreamSample.final ltac:(reflexivity) ltac:(vm_compute; reflexivity))).
Defined.
