(* ===== verification/TInvestWebSocket.v ===== *)
(** * The supervised WebSocket stream: [crates/vox-tinvest/src/websocket.rs]

    A registry keeps the subscriptions that are wanted; a supervisor keeps a socket open,
    replays the registry on every connection, checks the acknowledgements and reports what
    happens as a stream of events.  The loop [run] is a state machine with a phase per
    suspension point, driven by what may happen there: a command, a result of the
    connector, a frame, a timer; the registry may change at any time.  A run is a list of
    such happenings.

    JSON is serde's: a message is a [Value], encoding and decoding are the class [Json].
    The receiver of the events may go away after any number of them.  A report of a failure
    carries the error itself where the source carries its text.  The network and the
    handshake are not modelled.

    The theorem reads the events as a client does: they follow a protocol in which every
    connection has a new generation, what is reported of a connection is reported while it
    is up, and READY is reported once all its subscriptions were confirmed. *)
From stdpp Require Import gmap strings sorting.
From S2P Require Import Prelude Domain TInvestGrpc.

Definition DEFAULT_MAX_MESSAGE_BYTES : Z := 4 * 1024 * 1024.
Definition DEFAULT_COMMAND_CAPACITY : Z := 8.
Definition DEFAULT_ACKNOWLEDGEMENT_TIMEOUT : Z := 20 * 1000000000.
Definition MAX_LABEL_BYTES : Z := 256.

(** ** JSON *)

Inductive Value :=
| JNull
| JBool (b : bool)
| JNumber (text : string)
| JString (text : string)
| JArray (items : list Value)
| JObject (fields : list (string * Value)).

Definition field (fields : list (string * Value)) (key : string) : option Value := snd <$> List.find (by_key fst key) fields.
Definition json_get (v : Value) (key : string) : option Value :=
  match v with JObject fields => field fields key | _ => None end.
Definition as_array (v : Value) : option (list Value) := match v with JArray items => Some items | _ => None end.
Definition as_str (v : Value) : option string := match v with JString text => Some text | _ => None end.

Class Json := { json_decode : string → result string Value; json_encode : Value → result string string }.

(** ** Labels, subscriptions and errors *)

Inductive SubscriptionRegistryError :=
| ZeroRegistryCapacity
| CapacityExceeded (capacity : Z)
| InvalidLabel
| DuplicateAcknowledgement (key : string).

Definition validate_label (value : string) : result SubscriptionRegistryError () :=
  if is_blank value || (MAX_LABEL_BYTES <? Z.of_nat (String.length value)) || has_control value
  then Err InvalidLabel else Ok tt.

Definition SubscriptionId_new (value : string) : result SubscriptionRegistryError string :=
  let? _ := validate_label value in Ok value.
Definition AckKey_new (value : string) : result SubscriptionRegistryError string :=
  let? _ := validate_label value in Ok value.

Record DesiredSubscription := {
  ds_id : string;
  ds_request : Value;
  ds_acknowledgement : option string;
  ds_expected_instrument_uid : option string;
}.

Definition DesiredSubscription_new (id : string) (request : Value) (acknowledgement : string) : DesiredSubscription := {|
  ds_id := id; ds_request := request; ds_acknowledgement := Some acknowledgement; ds_expected_instrument_uid := None |}.
Definition without_ack (id : string) (request : Value) : DesiredSubscription := {|
  ds_id := id; ds_request := request; ds_acknowledgement := None; ds_expected_instrument_uid := None |}.
Definition with_expected_instrument_uid (self : DesiredSubscription) (instrument_uid : string) : DesiredSubscription := {|
  ds_id := ds_id self; ds_request := ds_request self; ds_acknowledgement := ds_acknowledgement self;
  ds_expected_instrument_uid := Some instrument_uid |}.

Inductive AcknowledgementError :=
| MissingStatuses (key : string)
| StatusRejected (acknowledgement : string) (statuses : list string)
| UnexpectedInstrument (acknowledgement expected : string) (reported : option string).

Inductive WebSocketError :=
| InvalidConfig (what : string)
| InvalidCredential
| Handshake (what : string)
| ConnectTimeout (after : Z)
| ConnectFailed (what : string)
| EncodeFailed (what : string)
| MessageTooLarge (actual limit : Z)
| SendFailed (what : string)
| ReceiveFailed (what : string)
| DecodeFailed (what : string)
| SubscriptionAcknowledgement (e : AcknowledgementError)
| SubscriptionAcknowledgementTimeout (after : Z)
| SocketClosed (reason : option string)
| CloseTimeout (after : Z)
| CloseFailed (what : string)
| ZeroChannelCapacity
| NoRuntime
| SupervisorTask (what : string)
| SupervisorStopped.

(** ** Configuration *)

Record WebSocketConfig := {
  wc_endpoint : Url;
  wc_connect_timeout : Z;
  wc_close_timeout : Z;
  wc_max_message_bytes : Z;
}.

Definition validate_wss_url (url : Url) : result WebSocketError () :=
  if negb (bool_decide (ur_scheme url = "wss"))
  then Err (InvalidConfig "T-Invest WebSocket endpoint must use WSS")
  else if bool_decide (ur_host url = None) || negb (bool_decide (ur_username url = ""))
          || bool_decide (is_Some (ur_password url)) || bool_decide (is_Some (ur_query url))
          || bool_decide (is_Some (ur_fragment url))
  then Err (InvalidConfig "T-Invest WebSocket endpoint must contain a host and no credentials")
  else Ok tt.

(** [endpoint] is the built-in address, parsed. *)
Definition websocket_production (endpoint : Url) : WebSocketConfig := {|
  wc_endpoint := endpoint; wc_connect_timeout := 20 * 1000000000; wc_close_timeout := 5 * 1000000000;
  wc_max_message_bytes := DEFAULT_MAX_MESSAGE_BYTES |}.

Definition websocket_with_endpoint (self : WebSocketConfig) (endpoint : Url) : result WebSocketError WebSocketConfig :=
  let? _ := validate_wss_url endpoint in
  Ok {| wc_endpoint := endpoint; wc_connect_timeout := wc_connect_timeout self;
        wc_close_timeout := wc_close_timeout self; wc_max_message_bytes := wc_max_message_bytes self |}.

Definition websocket_with_timeouts (self : WebSocketConfig) (connect_timeout close_timeout : Z)
  : result WebSocketError WebSocketConfig :=
  if (connect_timeout =? 0) || (close_timeout =? 0) then Err (InvalidConfig "WebSocket timeouts must be positive")
  else Ok {| wc_endpoint := wc_endpoint self; wc_connect_timeout := connect_timeout;
             wc_close_timeout := close_timeout; wc_max_message_bytes := wc_max_message_bytes self |}.

Definition with_max_message_bytes (self : WebSocketConfig) (limit : Z) : result WebSocketError WebSocketConfig :=
  if limit =? 0 then Err (InvalidConfig "WebSocket message limit must be positive")
  else Ok {| wc_endpoint := wc_endpoint self; wc_connect_timeout := wc_connect_timeout self;
             wc_close_timeout := wc_close_timeout self; wc_max_message_bytes := limit |}.

Definition TInvestWebSocket_new (config : WebSocketConfig) : result WebSocketError WebSocketConfig :=
  let? _ := validate_wss_url (wc_endpoint config) in Ok config.

(** ** A session *)

Inductive Frame :=
| TextFrame (bytes : string)
| BinaryFrame (bytes : string)
| CloseFrame (reason : option string)
| ControlFrame.

Section session.
Context `{JS : !Json} (max_message_bytes : Z).

(** The text that is sent, or why nothing is. *)
Definition send_json (payload : Value) : result WebSocketError string :=
  let? encoded := map_err EncodeFailed (json_encode payload) in
  if max_message_bytes <? Z.of_nat (String.length encoded)
  then Err (MessageTooLarge (Z.of_nat (String.length encoded)) max_message_bytes)
  else Ok encoded.

Definition decode_bytes (bytes : string) : result WebSocketError Value :=
  if max_message_bytes <? Z.of_nat (String.length bytes)
  then Err (MessageTooLarge (Z.of_nat (String.length bytes)) max_message_bytes)
  else map_err DecodeFailed (json_decode bytes).

(** What the next message is, given what the socket yields from now on; the rest stays on
    the socket. *)
Fixpoint receive_json (frames : list (result string Frame)) : result WebSocketError Value * list (result string Frame) :=
  match frames with
  | [] => (Err (SocketClosed None), [])
  | Err what :: frames => (Err (ReceiveFailed what), frames)
  | Ok (TextFrame bytes) :: frames | Ok (BinaryFrame bytes) :: frames => (decode_bytes bytes, frames)
  | Ok (CloseFrame reason) :: frames => (Err (SocketClosed reason), frames)
  | Ok ControlFrame :: frames => receive_json frames
  end.
End session.

(** ** The registry *)

(** [BTreeMap] keyed by identity; [ack_owner] says which subscription a key belongs to. *)
Record SubscriptionRegistry := {
  sr_capacity : Z;
  sr_by_id : gmap string DesiredSubscription;
  sr_ack_owner : gmap string string;
}.

Definition SubscriptionRegistry_new (capacity : Z) : result SubscriptionRegistryError SubscriptionRegistry :=
  if capacity =? 0 then Err ZeroRegistryCapacity
  else Ok {| sr_capacity := capacity; sr_by_id := ∅; sr_ack_owner := ∅ |}.

Definition with_key {A} (key : option string) (f : string → A → A) (a : A) : A :=
  match key with Some k => f k a | None => a end.

Definition registry_upsert (subscription : DesiredSubscription) (self : SubscriptionRegistry)
  : SubscriptionRegistry * result SubscriptionRegistryError () :=
  let previous := sr_by_id self !! ds_id subscription in
  if bool_decide (previous = None) && (sr_capacity self <=? Z.of_nat (size (sr_by_id self)))
  then (self, Err (CapacityExceeded (sr_capacity self)))
  else
    match (k ← ds_acknowledgement subscription; owner ← sr_ack_owner self !! k;
           if bool_decide (owner ≠ ds_id subscription) then Some k else None) with
    | Some k => (self, Err (DuplicateAcknowledgement k))
    | None =>
        let owners := with_key (previous ≫= ds_acknowledgement) (λ k m, delete k m) (sr_ack_owner self) in
        let owners := with_key (ds_acknowledgement subscription) (λ k m, <[k := ds_id subscription]> m) owners in
        ({| sr_capacity := sr_capacity self; sr_by_id := <[ds_id subscription := subscription]> (sr_by_id self);
            sr_ack_owner := owners |}, Ok tt)
    end.

Definition registry_remove (id : string) (self : SubscriptionRegistry) : SubscriptionRegistry * option DesiredSubscription :=
  let removed := sr_by_id self !! id in
  ({| sr_capacity := sr_capacity self; sr_by_id := delete id (sr_by_id self);
      sr_ack_owner := with_key (removed ≫= ds_acknowledgement) (λ k m, delete k m) (sr_ack_owner self) |}, removed).

(** The order of [BTreeMap] and [BTreeSet]. *)
Definition text_le (a b : string) : Prop := Is_true (String.leb a b).
#[export] Instance text_le_dec : RelDecision text_le.
Proof. intros a b. unfold text_le. apply _. Defined.

Definition registry_snapshot (self : SubscriptionRegistry) : list DesiredSubscription :=
  snd <$> merge_sort (λ a b, text_le a.1 b.1) (map_to_list (sr_by_id self)).

(** ** Acknowledgements *)

Record AcknowledgementTracker := {
  at_expected : gset string;
  at_expected_instrument_uids : gmap string string;
  at_acknowledged : gset string;
}.

Definition from_subscriptions (subscriptions : list DesiredSubscription) : AcknowledgementTracker := {|
  at_expected := list_to_set (omap ds_acknowledgement subscriptions);
  at_expected_instrument_uids := foldl (λ m s,
    match ds_acknowledgement s, ds_expected_instrument_uid s with
    | Some k, Some uid => <[k := uid]> m
    | _, _ => m
    end) ∅ subscriptions;
  at_acknowledged := ∅ |}.

Definition in_order (keys : gset string) : list string := merge_sort text_le (elements keys).

Definition observe (self : AcknowledgementTracker) (message : Value) : AcknowledgementTracker * list string :=
  match message with
  | JObject fields =>
      let newly := List.filter (λ k, bool_decide (is_Some (field fields k)) && negb (bool_decide (k ∈ at_acknowledged self)))
                     (in_order (at_expected self)) in
      ({| at_expected := at_expected self; at_expected_instrument_uids := at_expected_instrument_uids self;
          at_acknowledged := at_acknowledged self ∪ list_to_set newly |}, newly)
  | _ => (self, [])
  end.

Definition known_status_field (acknowledgement : string) : option string :=
  if bool_decide (acknowledgement = "subscribe_trades_response"%string) then Some "trade_subscriptions"%string
  else if bool_decide (acknowledgement = "subscribe_order_book_response"%string) then Some "order_book_subscriptions"%string
  else if bool_decide (acknowledgement = "subscribe_info_response"%string) then Some "info_subscriptions"%string
  else if bool_decide (acknowledgement = "subscribe_last_price_response"%string) then Some "last_price_subscriptions"%string
  else None.

Definition reported_uid (status : Value) : option string :=
  match json_get status "instrument_uid" with
  | Some v => as_str v
  | None => json_get status "instrumentUid" ≫= as_str
  end.

Definition reported_status (status : Value) : string :=
  match json_get status "subscription_status" ≫= as_str with Some text => text | None => "<missing>" end.

Definition SUCCESS : string := "SUBSCRIPTION_STATUS_SUCCESS".

Definition check_statuses (key : string) (expected : option string) (statuses : list Value)
  : result AcknowledgementError () :=
  match statuses with
  | [] => Err (MissingStatuses key)
  | _ =>
      let? _ := match expected with
                | Some uid =>
                    try_fold (λ _ status,
                      if bool_decide (reported_uid status = Some uid) then Ok tt
                      else Err (UnexpectedInstrument key uid (reported_uid status))) tt statuses
                | None => Ok tt
                end in
      let reported := reported_status <$> statuses in
      if existsb (λ status, negb (bool_decide (status = SUCCESS))) reported
      then Err (StatusRejected key reported)
      else Ok tt
  end.

Definition check_key (self : AcknowledgementTracker) (fields : list (string * Value)) (key : string)
  : result AcknowledgementError () :=
  match field fields key, known_status_field key with
  | Some response, Some status_field =>
      let? statuses := ok_or (json_get response status_field ≫= as_array) (MissingStatuses key) in
      check_statuses key (at_expected_instrument_uids self !! key) statuses
  | _, _ => Ok tt
  end.

Definition observe_checked (self : AcknowledgementTracker) (message : Value)
  : result AcknowledgementError (AcknowledgementTracker * list string) :=
  match message with
  | JObject fields =>
      let? _ := try_fold (λ _ key, check_key self fields key) tt (in_order (at_expected self)) in
      Ok (observe self message)
  | _ => Ok (self, [])
  end.

Definition tracker_complete (self : AcknowledgementTracker) : bool := bool_decide (at_acknowledged self = at_expected self).
Definition remaining (self : AcknowledgementTracker) : list string := in_order (at_expected self ∖ at_acknowledged self).

(** ** The supervisor *)

(** [ReconnectPolicy] is a retry policy whose attempts are consecutive failures. *)
Definition ReconnectPolicy_new : Z → Z → Z → Z → result RetryPolicyError RetryPolicy := RetryPolicy_new.
Definition max_consecutive_failures (self : RetryPolicy) : Z := rt_max_attempts self.

Record ConnectionMetadata := { cn_connection_id : Z; cn_generation : Z }.

#[export] Instance ConnectionMetadata_eq_dec : EqDecision ConnectionMetadata.
Proof. solve_decision. Defined.

Inductive StreamStopReason := StopShutdown | StopReceiverDropped | StopReconnectExhausted.
Inductive StreamCommand := ForceReconnect | RefreshSubscriptions | ShutdownStream.
Inductive DisconnectReason := ReconnectRequested | ConnectionLost (e : WebSocketError).

Inductive WsEvent :=
| Connected (connection : ConnectionMetadata) (desired_subscriptions : Z)
| SubscriptionAcknowledged (connection : ConnectionMetadata) (acknowledgement : string) (remaining : Z)
| SubscriptionsReady (connection : ConnectionMetadata)
| MessageReceived (connection : ConnectionMetadata) (message : Value)
| Disconnected (connection : option ConnectionMetadata) (reason : DisconnectReason)
| ReconnectScheduled (consecutive_failure delay : Z)
| StreamStopped (reason : StreamStopReason).

Record StreamSupervisor := {
  sv_reconnect_policy : RetryPolicy;
  sv_event_capacity : Z;
  sv_command_capacity : Z;
  sv_acknowledgement_timeout : Z;
}.

Definition StreamSupervisor_new (reconnect_policy : RetryPolicy) (event_capacity : Z)
  : result WebSocketError StreamSupervisor :=
  if event_capacity =? 0 then Err ZeroChannelCapacity
  else Ok {| sv_reconnect_policy := reconnect_policy; sv_event_capacity := event_capacity;
             sv_command_capacity := DEFAULT_COMMAND_CAPACITY;
             sv_acknowledgement_timeout := DEFAULT_ACKNOWLEDGEMENT_TIMEOUT |}.

Definition with_command_capacity (self : StreamSupervisor) (capacity : Z) : result WebSocketError StreamSupervisor :=
  if capacity =? 0 then Err ZeroChannelCapacity
  else Ok {| sv_reconnect_policy := sv_reconnect_policy self; sv_event_capacity := sv_event_capacity self;
             sv_command_capacity := capacity; sv_acknowledgement_timeout := sv_acknowledgement_timeout self |}.

Definition with_acknowledgement_timeout (self : StreamSupervisor) (timeout : Z) : result WebSocketError StreamSupervisor :=
  if timeout =? 0 then Err (InvalidConfig "subscription acknowledgement timeout must be positive")
  else Ok {| sv_reconnect_policy := sv_reconnect_policy self; sv_event_capacity := sv_event_capacity self;
             sv_command_capacity := sv_command_capacity self; sv_acknowledgement_timeout := timeout |}.

(** Where the loop is suspended. *)
Inductive Phase :=
| Connecting
| Receiving (connection : ConnectionMetadata) (desired : list DesiredSubscription) (tracker : AcknowledgementTracker)
| WaitingToReconnect
| SupervisionEnded.

(** [sn_sent] is what was sent on each connection, [sn_accepts] how many more events the
    receiver takes before it is dropped. *)
Record Supervision := {
  sn_registry : SubscriptionRegistry;
  sn_generation : Z;
  sn_failures : Z;
  sn_phase : Phase;
  sn_sent : list (ConnectionMetadata * Value);
  sn_events : list WsEvent;
  sn_accepts : option nat;
}.

Definition put_phase (p : Phase) (s : Supervision) : Supervision := {|
  sn_registry := sn_registry s; sn_generation := sn_generation s; sn_failures := sn_failures s; sn_phase := p;
  sn_sent := sn_sent s; sn_events := sn_events s; sn_accepts := sn_accepts s |}.
Definition put_failures (n : Z) (s : Supervision) : Supervision := {|
  sn_registry := sn_registry s; sn_generation := sn_generation s; sn_failures := n; sn_phase := sn_phase s;
  sn_sent := sn_sent s; sn_events := sn_events s; sn_accepts := sn_accepts s |}.
Definition put_generation (n : Z) (s : Supervision) : Supervision := {|
  sn_registry := sn_registry s; sn_generation := n; sn_failures := sn_failures s; sn_phase := sn_phase s;
  sn_sent := sn_sent s; sn_events := sn_events s; sn_accepts := sn_accepts s |}.
Definition put_registry (r : SubscriptionRegistry) (s : Supervision) : Supervision := {|
  sn_registry := r; sn_generation := sn_generation s; sn_failures := sn_failures s; sn_phase := sn_phase s;
  sn_sent := sn_sent s; sn_events := sn_events s; sn_accepts := sn_accepts s |}.
Definition put_sent (l : list (ConnectionMetadata * Value)) (s : Supervision) : Supervision := {|
  sn_registry := sn_registry s; sn_generation := sn_generation s; sn_failures := sn_failures s; sn_phase := sn_phase s;
  sn_sent := l; sn_events := sn_events s; sn_accepts := sn_accepts s |}.

(** The event reaches the receiver, or the receiver is gone. *)
Definition ws_emit (event : WsEvent) (s : Supervision) : Supervision * bool :=
  match sn_accepts s with
  | Some O => (s, false)
  | accepts => ({| sn_registry := sn_registry s; sn_generation := sn_generation s; sn_failures := sn_failures s;
                   sn_phase := sn_phase s; sn_sent := sn_sent s; sn_events := sn_events s ++ [event];
                   sn_accepts := pred <$> accepts |}, true)
  end.

(** [if !emit(event).await { return; }] before [next]. *)
Definition emitting (event : WsEvent) (next : Supervision → Supervision) (s : Supervision) : Supervision :=
  let '(s, sent) := ws_emit event s in if sent then next s else put_phase SupervisionEnded s.

(** [let _ = emit(event).await; return;]. *)
Definition ending_with (event : WsEvent) (s : Supervision) : Supervision := put_phase SupervisionEnded (fst (ws_emit event s)).

Fixpoint emitting_all (events : list WsEvent) (next : Supervision → Supervision) (s : Supervision) : Supervision :=
  match events with
  | [] => next s
  | event :: events => emitting event (emitting_all events next) s
  end.

(** [saturating_add(1)] of a [u32]. *)
Definition next_failure (n : Z) : Z := Z.min (n + 1) 4294967295.

Section supervisor.
Context (self : StreamSupervisor).
Notation policy := (sv_reconnect_policy self).

Definition wait_before_reconnect (connection_id : Z) (s : Supervision) : Supervision :=
  if max_consecutive_failures policy <=? sn_failures s
  then ending_with (StreamStopped StopReconnectExhausted) s
  else emitting (ReconnectScheduled (sn_failures s) (delay_for policy (sn_failures s) connection_id))
         (put_phase WaitingToReconnect) s.

(** A connection that failed or could not be made. *)
Definition connection_lost (connection : option ConnectionMetadata) (error : WebSocketError) (connection_id : Z)
    (s : Supervision) : Supervision :=
  emitting (Disconnected connection (ConnectionLost error)) (wait_before_reconnect connection_id)
    (put_failures (next_failure (sn_failures s)) s).

Definition subscriptions_ready (metadata : ConnectionMetadata) (next : Supervision → Supervision) (s : Supervision)
  : Supervision := emitting (SubscriptionsReady metadata) next (put_failures 0 s).

(** The connector gave a connection; [fault] is the first request that cannot be sent, by
    its position, and why. *)
Definition connection_opened (connection_id : Z) (fault : option (nat * WebSocketError)) (s : Supervision) : Supervision :=
  let s := put_generation (saturating_add U64 (sn_generation s) 1) s in
  let metadata := {| cn_connection_id := connection_id; cn_generation := sn_generation s |} in
  let desired := registry_snapshot (sn_registry s) in
  emitting (Connected metadata (Z.of_nat (length desired))) (λ s,
    let accepted := match fault with Some f => take f.1 desired | None => desired end in
    let s := put_sent (sn_sent s ++ ((λ d, (metadata, ds_request d)) <$> accepted)) s in
    match (f ← fault; if bool_decide (f.1 < length desired)%nat then Some f.2 else None) with
    | Some error => connection_lost (Some metadata) error connection_id s
    | None =>
        let tracker := from_subscriptions desired in
        if tracker_complete tracker
        then subscriptions_ready metadata (put_phase (Receiving metadata desired tracker)) s
        else put_phase (Receiving metadata desired tracker) s
    end) s.

Definition message_received (metadata : ConnectionMetadata) (desired : list DesiredSubscription)
    (tracker : AcknowledgementTracker) (message : Value) (s : Supervision) : Supervision :=
  match observe_checked tracker message with
  | Err error =>
      connection_lost (Some metadata) (SubscriptionAcknowledgement error) (cn_connection_id metadata) s
  | Ok (after, observed) =>
      let pass := emitting (MessageReceived metadata message) (put_phase (Receiving metadata desired after)) in
      emitting_all
        ((λ k, SubscriptionAcknowledged metadata k (Z.of_nat (length (remaining after)))) <$> observed)
        (if negb (tracker_complete tracker) && tracker_complete after then subscriptions_ready metadata pass else pass) s
  end.

(** What can happen while the loop is suspended: a command, or [None] when every handle is
    gone; the connector answers; the timers; the socket yields; the registry changes. *)
Inductive Happening :=
| Commanded (command : option StreamCommand)
| ConnectorFailed (error : WebSocketError) (uuid : Z)
| ConnectorOpened (connection_id : Z) (fault : option (nat * WebSocketError))
| AcknowledgementsTimedOut
| Received (message : result WebSocketError Value)
| DelayOver
| RegistryUpsert (subscription : DesiredSubscription)
| RegistryRemove (id : string).

Definition ws_step (s : Supervision) (h : Happening) : Supervision :=
  match h, sn_phase s with
  | RegistryUpsert subscription, _ => put_registry (fst (registry_upsert subscription (sn_registry s))) s
  | RegistryRemove id, _ => put_registry (fst (registry_remove id (sn_registry s))) s
  | Commanded (Some ShutdownStream | None), (Connecting | Receiving _ _ _ | WaitingToReconnect) =>
      ending_with (StreamStopped StopShutdown) s
  | Commanded (Some (ForceReconnect | RefreshSubscriptions)), Connecting => s
  | Commanded (Some (ForceReconnect | RefreshSubscriptions)), WaitingToReconnect => put_phase Connecting s
  | Commanded (Some (ForceReconnect | RefreshSubscriptions)), Receiving metadata _ _ =>
      emitting (Disconnected (Some metadata) ReconnectRequested) (put_phase Connecting) s
  | ConnectorFailed error uuid, Connecting => connection_lost None error uuid s
  | ConnectorOpened connection_id fault, Connecting => connection_opened connection_id fault s
  | AcknowledgementsTimedOut, Receiving metadata _ tracker =>
      if tracker_complete tracker then s
      else connection_lost (Some metadata) (SubscriptionAcknowledgementTimeout (sv_acknowledgement_timeout self))
             (cn_connection_id metadata) s
  | Received (Ok message), Receiving metadata desired tracker => message_received metadata desired tracker message s
  | Received (Err error), Receiving metadata _ _ =>
      connection_lost (Some metadata) error (cn_connection_id metadata) s
  | DelayOver, WaitingToReconnect => put_phase Connecting s
  | _, _ => s
  end.

Definition supervise (capacity : Z) (accepts : option nat) (happenings : list Happening) : Supervision :=
  fold_left ws_step happenings {|
    sn_registry := {| sr_capacity := capacity; sr_by_id := ∅; sr_ack_owner := ∅ |}; sn_generation := 0;
    sn_failures := 0; sn_phase := Connecting; sn_sent := []; sn_events := []; sn_accepts := accepts |}.
End supervisor.

(** ** What a client reads *)

Inductive Link :=
| LinkDown
| LinkUp (connection : ConnectionMetadata) (acknowledged : list string) (ready : bool)
| LinkLost
| LinkOver.

Record Watch := { wt_generation : Z; wt_failures : Z; wt_link : Link }.

Definition watching : Watch := {| wt_generation := 0; wt_failures := 0; wt_link := LinkDown |}.

(** The protocol: what may follow what. *)
Definition watch_event (policy : RetryPolicy) (v : Watch) (event : WsEvent) : option Watch :=
  let on link := Some {| wt_generation := wt_generation v; wt_failures := wt_failures v; wt_link := link |} in
  let lost := Some {| wt_generation := wt_generation v; wt_failures := next_failure (wt_failures v); wt_link := LinkLost |} in
  match event, wt_link v with
  | Connected connection _, LinkDown =>
      if bool_decide (cn_generation connection = saturating_add U64 (wt_generation v) 1)
      then Some {| wt_generation := cn_generation connection; wt_failures := wt_failures v;
                   wt_link := LinkUp connection [] false |}
      else None
  | SubscriptionAcknowledged connection k _, LinkUp c acknowledged false =>
      if bool_decide (connection = c) && negb (bool_decide (k ∈ acknowledged))
      then on (LinkUp c (acknowledged ++ [k]) false) else None
  | SubscriptionsReady connection, LinkUp c acknowledged false =>
      if bool_decide (connection = c)
      then Some {| wt_generation := wt_generation v; wt_failures := 0; wt_link := LinkUp c acknowledged true |} else None
  | MessageReceived connection _, LinkUp c acknowledged ready =>
      if bool_decide (connection = c) then Some v else None
  | Disconnected (Some connection) ReconnectRequested, LinkUp c _ _ =>
      if bool_decide (connection = c) then on LinkDown else None
  | Disconnected (Some connection) (ConnectionLost _), LinkUp c _ _ => if bool_decide (connection = c) then lost else None
  | Disconnected None (ConnectionLost _), LinkDown => lost
  | ReconnectScheduled failure _, LinkLost =>
      if bool_decide (failure = wt_failures v) && (failure <? max_consecutive_failures policy) then on LinkDown else None
  | StreamStopped StopReconnectExhausted, LinkLost =>
      if max_consecutive_failures policy <=? wt_failures v then on LinkOver else None
  | StreamStopped StopShutdown, (LinkDown | LinkUp _ _ _) => on LinkOver
  | _, _ => None
  end.

Fixpoint watch_all (policy : RetryPolicy) (v : Watch) (events : list WsEvent) : option Watch :=
  match events with
  | [] => Some v
  | event :: events => v' ← watch_event policy v event; watch_all policy v' events
  end.

(** A message that confirms a subscription: it has the field of its acknowledgement, and
    where the provider reports statuses there, there is one, all are successes and all are
    for the instrument that is expected. *)
Definition confirms (subscription : DesiredSubscription) (key : string) (message : Value) : Prop :=
  ∃ fields response, message = JObject fields ∧ field fields key = Some response ∧
  ∀ status_field, known_status_field key = Some status_field →
    ∃ statuses, json_get response status_field = Some (JArray statuses) ∧ statuses ≠ [] ∧
      Forall (λ status, reported_status status = SUCCESS ∧
        ∀ uid, ds_expected_instrument_uid subscription = Some uid → reported_uid status = Some uid) statuses.

(** The subscriptions that are wanted after a run: those put in and not taken out since.
    One is put in when its identity is known already or there is room, and its key is not
    that of another. *)
Definition key_taken (m : gmap string DesiredSubscription) (subscription : DesiredSubscription) : Prop :=
  ∃ id other k, m !! id = Some other ∧ id ≠ ds_id subscription ∧
    ds_acknowledgement other = Some k ∧ ds_acknowledgement subscription = Some k.

Inductive wanted (capacity : Z) : list Happening → gmap string DesiredSubscription → Prop :=
| wanted_none : wanted capacity [] ∅
| wanted_put happenings m subscription :
    wanted capacity happenings m →
    is_Some (m !! ds_id subscription) ∨ Z.of_nat (size m) < capacity → ¬ key_taken m subscription →
    wanted capacity (happenings ++ [RegistryUpsert subscription]) (<[ds_id subscription := subscription]> m)
| wanted_refused happenings m subscription :
    wanted capacity happenings m →
    m !! ds_id subscription = None ∧ capacity ≤ Z.of_nat (size m) ∨ key_taken m subscription →
    wanted capacity (happenings ++ [RegistryUpsert subscription]) m
| wanted_out happenings m id :
    wanted capacity happenings m → wanted capacity (happenings ++ [RegistryRemove id]) (delete id m)
| wanted_same happenings m h :
    wanted capacity happenings m →
    match h with RegistryUpsert _ | RegistryRemove _ => False | _ => True end →
    wanted capacity (happenings ++ [h]) m.

(** ** The registry keeps each key with one subscription *)

Record keyed_registry (r : SubscriptionRegistry) : Prop := {
  kr_id id s : sr_by_id r !! id = Some s → ds_id s = id;
  kr_owner id s k : sr_by_id r !! id = Some s → ds_acknowledgement s = Some k → sr_ack_owner r !! k = Some id;
  kr_owned id k : sr_ack_owner r !! k = Some id →
    ∃ s, sr_by_id r !! id = Some s ∧ ds_acknowledgement s = Some k;
}.

Lemma upsert_keyed subscription r : keyed_registry r → keyed_registry (fst (registry_upsert subscription r)).
Proof.
  intros [Hid Ho Hw]. unfold registry_upsert. destruct (_ && _); [done|].
  set (id := ds_id subscription).
  destruct (k ← ds_acknowledgement subscription; _) as [k|] eqn:Hdup; [done|]. simpl. split; simpl.
  - intros id' s. destruct (decide (id = id')) as [<-|Hne]; [rewrite lookup_insert_eq; by intros [= <-]|].
    rewrite lookup_insert_ne by done. apply Hid.
  - intros id' s k'. destruct (decide (id = id')) as [<-|Hne].
    + rewrite lookup_insert_eq. intros [= <-] Hk. rewrite Hk. simpl. by rewrite lookup_insert_eq.
    + rewrite lookup_insert_ne by done. intros Hs Hk'. pose proof (Ho _ _ _ Hs Hk') as Hown.
      assert (with_key (sr_by_id r !! id ≫= ds_acknowledgement) (λ k m, delete k m) (sr_ack_owner r) !! k' = Some id') as Hdel.
      { destruct (sr_by_id r !! id) as [prev|] eqn:Hprev; [|done]. simpl.
        destruct (ds_acknowledgement prev) as [kp|] eqn:Hkp; [|done]. simpl.
        pose proof (Ho _ _ _ Hprev Hkp) as Hp. rewrite lookup_delete_ne by congruence. done. }
      destruct (ds_acknowledgement subscription) as [k|] eqn:Hk; [|done]. simpl in *.
      destruct (decide (k = k')) as [->|?]; [|by rewrite lookup_insert_ne by done].
      rewrite Hown in Hdup. simpl in Hdup. by rewrite bool_decide_eq_true_2 in Hdup by congruence.
  - intros id' k' Hown.
    assert (ds_acknowledgement subscription = Some k' ∧ id' = id ∨
      with_key (sr_by_id r !! id ≫= ds_acknowledgement) (λ k m, delete k m) (sr_ack_owner r) !! k' = Some id') as [[Hk ->]|Hdel].
    { destruct (ds_acknowledgement subscription) as [k|]; [|by right]. simpl in Hown.
      apply lookup_insert_Some in Hown as [[-> ->]|[_ ?]]; auto. }
    { exists subscription. by rewrite lookup_insert_eq. }
    assert (sr_ack_owner r !! k' = Some id' ∧ sr_by_id r !! id ≫= ds_acknowledgement ≠ Some k') as [Hold Hne].
    { destruct (sr_by_id r !! id ≫= ds_acknowledgement) as [kp|]; simpl in Hdel; [|done].
      apply lookup_delete_Some in Hdel as [? ?]. split; congruence. }
    destruct (Hw _ _ Hold) as (s & Hs & Hk). exists s. split; [|done]. rewrite lookup_insert_ne; [done|].
    intros <-. by rewrite Hs in Hne.
Qed.

Lemma remove_keyed id r : keyed_registry r → keyed_registry (fst (registry_remove id r)).
Proof.
  intros [Hid Ho Hw]. unfold registry_remove. split; simpl.
  - intros id' s [_ Hs]%lookup_delete_Some. by apply Hid.
  - intros id' s k [Hne Hs]%lookup_delete_Some Hk. pose proof (Ho _ _ _ Hs Hk) as Hown.
    destruct (sr_by_id r !! id) as [prev|] eqn:Hprev; [|done]. simpl.
    destruct (ds_acknowledgement prev) as [kp|] eqn:Hkp; [|done]. simpl.
    pose proof (Ho _ _ _ Hprev Hkp). by rewrite lookup_delete_ne by congruence.
  - intros id' k Hown.
    assert (sr_ack_owner r !! k = Some id' ∧ sr_by_id r !! id ≫= ds_acknowledgement ≠ Some k) as [Hold Hne].
    { destruct (sr_by_id r !! id ≫= ds_acknowledgement) as [kp|]; simpl in Hown; [|done].
      apply lookup_delete_Some in Hown as [? ?]. split; congruence. }
    destruct (Hw _ _ Hold) as (s & Hs & Hk). exists s. split; [|done]. rewrite lookup_delete_ne; [done|].
    intros <-. by rewrite Hs in Hne.
Qed.

(** Every key of a list of subscriptions belongs to one of them. *)
Definition distinct_keys (l : list DesiredSubscription) : Prop :=
  ∀ s1 s2 k, s1 ∈ l → s2 ∈ l → ds_acknowledgement s1 = Some k → ds_acknowledgement s2 = Some k → s1 = s2.

Lemma elem_of_snapshot r s : s ∈ registry_snapshot r ↔ ∃ id, sr_by_id r !! id = Some s.
Proof.
  unfold registry_snapshot. rewrite list_elem_of_fmap. split.
  - intros ([id s'] & -> & Hin). exists id. rewrite merge_sort_Permutation in Hin. by apply elem_of_map_to_list in Hin.
  - intros [id Hs]. exists (id, s). split; [done|]. rewrite merge_sort_Permutation. by apply elem_of_map_to_list.
Qed.

Lemma snapshot_distinct r : keyed_registry r → distinct_keys (registry_snapshot r).
Proof.
  intros [Hid Ho _] s1 s2 k [id1 H1]%elem_of_snapshot [id2 H2]%elem_of_snapshot Hk1 Hk2.
  pose proof (Ho _ _ _ H1 Hk1). pose proof (Ho _ _ _ H2 Hk2). by simplify_eq.
Qed.

(** ** What the tracker accepts *)

Lemma elem_of_in_order X k : k ∈ in_order X ↔ k ∈ X.
Proof. unfold in_order. rewrite merge_sort_Permutation. apply elem_of_elements. Qed.

Lemma NoDup_in_order X : NoDup (in_order X).
Proof. unfold in_order. rewrite merge_sort_Permutation. apply NoDup_elements. Qed.

Definition put_uid (m : gmap string string) (s : DesiredSubscription) : gmap string string :=
  match ds_acknowledgement s, ds_expected_instrument_uid s with Some k, Some uid => <[k := uid]> m | _, _ => m end.

Lemma put_uid_other m s k :
  (ds_acknowledgement s = Some k → ds_expected_instrument_uid s = None) → put_uid m s !! k = m !! k.
Proof.
  intros H. unfold put_uid. destruct (ds_acknowledgement s) as [k'|]; [|done].
  destruct (ds_expected_instrument_uid s) as [uid|]; [|done]. apply lookup_insert_ne. intros ->. by specialize (H eq_refl).
Qed.

Lemma uids_other l m k :
  (∀ s, s ∈ l → ds_acknowledgement s = Some k → ds_expected_instrument_uid s = None) → foldl put_uid m l !! k = m !! k.
Proof.
  induction l as [|s l IH] using rev_ind; intros Hl; [done|]. rewrite foldl_app. simpl.
  rewrite put_uid_other by (apply Hl; set_solver). apply IH. intros x Hx. apply Hl. set_solver.
Qed.

Lemma uids_lookup l s k :
  distinct_keys l → s ∈ l → ds_acknowledgement s = Some k → foldl put_uid ∅ l !! k = ds_expected_instrument_uid s.
Proof.
  intros Hd Hs Hk. destruct (ds_expected_instrument_uid s) as [uid|] eqn:Hu.
  2: { rewrite uids_other; [apply lookup_empty|]. intros x Hx Hkx. by rewrite (Hd x s k Hx Hs Hkx Hk). }
  induction l as [|x l IH] using rev_ind; [by apply elem_of_nil in Hs|]. rewrite foldl_app. simpl.
  destruct (decide (ds_acknowledgement x = Some k)) as [Hx|Hx].
  - rewrite (Hd x s k) by (done || set_solver). unfold put_uid. rewrite Hk, Hu. apply lookup_insert_eq.
  - rewrite put_uid_other by done. apply IH; [intros s1 s2 k' ? ?; apply Hd; set_solver|].
    apply elem_of_app in Hs as [? | ->%list_elem_of_singleton]; [done|]. by rewrite Hk in Hx.
Qed.

Lemma try_fold_each {A X} (f : A → result X ()) l :
  try_fold (λ _ a, f a) tt l = Ok tt → Forall (λ a, f a = Ok tt) l.
Proof.
  induction l as [|a l IH]; simpl; [constructor|]. destruct (f a) as [[]|] eqn:Ha; [|done]. intros H. constructor; auto.
Qed.

Lemma check_statuses_Ok key expected statuses :
  check_statuses key expected statuses = Ok tt →
  statuses ≠ [] ∧
  Forall (λ status, reported_status status = SUCCESS ∧ ∀ uid, expected = Some uid → reported_uid status = Some uid) statuses.
Proof.
  unfold check_statuses. destruct statuses as [|x l]; [done|]. intros H. split; [done|].
  assert (∀ uid, expected = Some uid → Forall (λ status, reported_uid status = Some uid) (x :: l)) as Huid.
  { intros uid ->. destruct (try_fold _ _ _) as [[]|] eqn:Hf; [|done]. apply try_fold_each in Hf.
    eapply Forall_impl; [done|]. intros status Hs. simpl in Hs. by case_bool_decide. }
  destruct (match expected with Some _ => _ | None => _ end) as [[]|]; [|done]. cbv beta iota zeta in H.
  destruct (existsb _ _) eqn:He; [done|]. apply Forall_forall. intros status Hin. split.
  - destruct (bool_decide_reflect (reported_status status = SUCCESS)) as [|Hne]; [done|].
    assert (existsb (λ status, negb (bool_decide (status = SUCCESS))) (reported_status <$> x :: l) = true) as Ht; [|by rewrite Ht in He].
    apply existsb_exists. exists (reported_status status). split; [|by rewrite bool_decide_eq_false_2].
    apply list_elem_of_In, list_elem_of_fmap. by exists status.
  - intros uid Hu. specialize (Huid uid Hu). rewrite Forall_forall in Huid. by apply Huid.
Qed.

(** The tracker of a connection: what it expects, and that everything it has taken was
    confirmed by one of the messages. *)
Record tracks (desired : list DesiredSubscription) (messages : Value → Prop) (t : AcknowledgementTracker) : Prop := {
  tk_expected : at_expected t = list_to_set (omap ds_acknowledgement desired);
  tk_uids : at_expected_instrument_uids t = foldl put_uid ∅ desired;
  tk_within : at_acknowledged t ⊆ at_expected t;
  tk_confirmed s k : s ∈ desired → ds_acknowledgement s = Some k → k ∈ at_acknowledged t →
    ∃ message, messages message ∧ confirms s k message;
}.

Lemma tracks_start desired messages : tracks desired messages (from_subscriptions desired).
Proof. split; simpl; [done|done|set_solver|set_solver]. Qed.

Lemma tracks_more desired (messages messages' : Value → Prop) t :
  (∀ m, messages m → messages' m) → tracks desired messages t → tracks desired messages' t.
Proof. intros Hm [H1 H2 H3 H4]. split; try done. intros s k Hs Hk Ha. destruct (H4 s k Hs Hk Ha) as (m & ? & ?). eauto. Qed.

Lemma check_key_confirms desired messages t fields s k :
  distinct_keys desired → tracks desired messages t → s ∈ desired → ds_acknowledgement s = Some k →
  is_Some (field fields k) → check_key t fields k = Ok tt → confirms s k (JObject fields).
Proof.
  intros Hd Ht Hs Hk [response Hf] Hc. exists fields, response. split_and!; [done..|]. intros sf Hsf.
  unfold check_key in Hc. rewrite Hf, Hsf in Hc.
  destruct (json_get response sf) as [v|] eqn:Hg; [|done]. simpl in Hc. destruct v as [| | | |items|]; try done. simpl in Hc.
  exists items. split; [done|]. rewrite (tk_uids _ _ _ Ht), (uids_lookup desired s k) in Hc by done.
  by apply check_statuses_Ok in Hc.
Qed.

Lemma observe_tracks desired (messages : Value → Prop) t message t' observed :
  distinct_keys desired → tracks desired messages t → observe_checked t message = Ok (t', observed) → messages message →
  tracks desired messages t' ∧ at_acknowledged t' = at_acknowledged t ∪ list_to_set observed ∧
  NoDup observed ∧ (∀ k, k ∈ observed → k ∉ at_acknowledged t) ∧
  (tracker_complete t = true → observed = [] ∧ tracker_complete t' = true).
Proof.
  intros Hd Ht Ho Hm. unfold observe_checked in Ho.
  destruct message as [| | | | |fields];
    try (injection Ho as <- <-; split_and!; [done|set_solver|constructor|set_solver|done]).
  destruct (try_fold _ _ _) as [[]|] eqn:Hf; [|done]. apply try_fold_each in Hf. rewrite Forall_forall in Hf.
  unfold observe in Ho. injection Ho as <- <-. cbn [at_acknowledged].
  set (newly := List.filter _ _).
  assert (∀ k, k ∈ newly ↔ k ∈ at_expected t ∧ is_Some (field fields k) ∧ k ∉ at_acknowledged t) as Hn.
  { intros k. subst newly. rewrite elem_of_filter_bool, elem_of_in_order, andb_true_iff, negb_true_iff, bool_decide_eq_true, bool_decide_eq_false.
    naive_solver. }
  split_and!; try done.
  - split; simpl; try apply Ht.
    + intros k [Hk%(tk_within _ _ _ Ht)|Hk]%elem_of_union; [done|]. apply elem_of_list_to_set, Hn in Hk. by apply Hk.
    + intros s k Hs Hk [Ha|Ha]%elem_of_union; [by apply (tk_confirmed _ _ _ Ht)|].
      apply elem_of_list_to_set, Hn in Ha as (He & Hfield & _). exists (JObject fields). split; [done|].
      apply (check_key_confirms desired messages t); try done. apply Hf. by apply elem_of_in_order.
  - subst newly. apply NoDup_ListNoDup, List.NoDup_filter, NoDup_ListNoDup, NoDup_in_order.
  - intros k Hk%Hn. naive_solver.
  - unfold tracker_complete. simpl. intros Hc%bool_decide_eq_true.
    assert (newly = []) as ->. { apply elem_of_nil_inv. intros k Hk%Hn. rewrite Hc in Hk. naive_solver. }
    split; [done|]. apply bool_decide_eq_true. rewrite Hc. set_solver.
Qed.

(** ** Runs follow the protocol *)

Section protocol.
Context (self : StreamSupervisor).
Notation policy := (sv_reconnect_policy self).

Lemma watch_all_snoc v events event :
  watch_all policy v (events ++ [event]) = (v' ← watch_all policy v events; watch_event policy v' event).
Proof.
  revert v. induction events as [|e events IH]; intros v; simpl; [by destruct (watch_event _ _ _)|].
  destruct (watch_event _ _ _); simpl; [apply IH|done].
Qed.

(** The client has read [v] from the events so far and knows the counters of the loop. *)
Record tuned (s : Supervision) (v : Watch) : Prop := {
  tn_read : watch_all policy watching (sn_events s) = Some v;
  tn_generation : wt_generation v = sn_generation s;
  tn_failures : wt_failures v = sn_failures s;
  tn_registry : keyed_registry (sn_registry s);
}.

(** The messages that were passed on from a connection. *)
Definition passed (s : Supervision) (connection : ConnectionMetadata) (message : Value) : Prop :=
  MessageReceived connection message ∈ sn_events s.

(** What the phase of the loop means for the client. *)
Definition phase_ok (s : Supervision) (v : Watch) : Prop :=
  match sn_phase s with
  | Connecting | WaitingToReconnect => wt_link v = LinkDown
  | Receiving c desired tracker =>
      distinct_keys desired ∧ tracks desired (passed s c) tracker ∧
      ∃ acknowledged, wt_link v = LinkUp c acknowledged (tracker_complete tracker) ∧
        ∀ k, k ∈ acknowledged ↔ k ∈ at_acknowledged tracker
  | SupervisionEnded => wt_link v = LinkOver
  end.

Definition within_policy (s : Supervision) : Prop :=
  sn_failures s = 0 ∨ sn_failures s < max_consecutive_failures policy.

Definition supervised (s : Supervision) : Prop :=
  keyed_registry (sn_registry s) ∧
  ∃ v, watch_all policy watching (sn_events s) = Some v ∧
    ((sn_phase s = SupervisionEnded ∧ (wt_link v = LinkOver ∨ sn_accepts s = Some O)) ∨
     tuned s v ∧ phase_ok s v ∧ within_policy s).

(** An event the protocol allows; what follows starts from the state that has sent it. *)
Lemma emitting_supervised event next s v v' :
  keyed_registry (sn_registry s) → watch_all policy watching (sn_events s) = Some v →
  watch_event policy v event = Some v' → wt_generation v' = sn_generation s → wt_failures v' = sn_failures s →
  (∀ s1, tuned s1 v' → sn_events s1 = sn_events s ++ [event] → sn_generation s1 = sn_generation s →
         sn_failures s1 = sn_failures s → sn_registry s1 = sn_registry s → supervised (next s1)) →
  supervised (emitting event next s).
Proof.
  intros Hr Hv He Hg Hf Hnext. unfold emitting, ws_emit. destruct (sn_accepts s) as [[|n]|] eqn:Ha.
  - split; [done|]. exists v. split; [done|]. left. split; [done|]. by right.
  - apply Hnext; simpl; try done. split; simpl; try done. by rewrite watch_all_snoc, Hv.
  - apply Hnext; simpl; try done. split; simpl; try done. by rewrite watch_all_snoc, Hv.
Qed.

Lemma ending_supervised event s v v' :
  keyed_registry (sn_registry s) → watch_all policy watching (sn_events s) = Some v →
  watch_event policy v event = Some v' → wt_link v' = LinkOver → supervised (ending_with event s).
Proof.
  intros Hr Hv He Hl. unfold ending_with, ws_emit. destruct (sn_accepts s) as [[|n]|] eqn:Ha; (split; [done|]).
  - exists v. split; [done|]. left. split; [done|]. by right.
  - exists v'. split; [simpl; by rewrite watch_all_snoc, Hv|]. left. split; [done|]. by left.
  - exists v'. split; [simpl; by rewrite watch_all_snoc, Hv|]. left. split; [done|]. by left.
Qed.

Lemma wait_supervised id s v : tuned s v → wt_link v = LinkLost → supervised (wait_before_reconnect self id s).
Proof.
  intros [Hv Hg Hf Hr] Hl. unfold wait_before_reconnect. destruct (Z.leb_spec (max_consecutive_failures policy) (sn_failures s)) as [Hm|Hm].
  - apply (ending_supervised _ s v {| wt_generation := wt_generation v; wt_failures := wt_failures v; wt_link := LinkOver |});
      try done.
    unfold watch_event. rewrite Hl, Hf. by rewrite (proj2 (Z.leb_le _ _)).
  - apply (emitting_supervised _ _ s v {| wt_generation := wt_generation v; wt_failures := wt_failures v; wt_link := LinkDown |});
      try done.
    { unfold watch_event. rewrite Hl, Hf. by rewrite bool_decide_eq_true_2, (proj2 (Z.ltb_lt _ _)). }
    intros s1 H1 _ _ Hf1 _. split; [apply H1|]. eexists. split; [apply H1|]. right. split_and!; [by destruct H1|done|].
    right. simpl. by rewrite Hf1.
Qed.

(** A connection that is up, or could not be made, is reported as lost. *)
Definition up_or_down (connection : option ConnectionMetadata) (v : Watch) : Prop :=
  match connection with
  | Some c => ∃ acknowledged ready, wt_link v = LinkUp c acknowledged ready
  | None => wt_link v = LinkDown
  end.

Lemma lost_supervised connection error id s v :
  tuned s v → up_or_down connection v → supervised (connection_lost self connection error id s).
Proof.
  intros [Hv Hg Hf Hr] Hl. unfold connection_lost.
  apply (emitting_supervised _ _ _ v {| wt_generation := wt_generation v; wt_failures := next_failure (wt_failures v);
                                        wt_link := LinkLost |}); simpl; try done; [|by rewrite Hf|].
  - unfold watch_event. destruct connection as [c|]; simpl in Hl; [destruct Hl as (l & ready & ->)|by rewrite Hl].
    by rewrite bool_decide_eq_true_2.
  - intros s1 H1 _ _ _ _. by eapply wait_supervised.
Qed.

Lemma ready_supervised c next s v acknowledged :
  tuned s v → wt_link v = LinkUp c acknowledged false →
  (∀ s1, tuned s1 {| wt_generation := wt_generation v; wt_failures := 0; wt_link := LinkUp c acknowledged true |} →
         sn_failures s1 = 0 → sn_events s1 = sn_events s ++ [SubscriptionsReady c] → supervised (next s1)) →
  supervised (subscriptions_ready c next s).
Proof.
  intros [Hv Hg Hf Hr] Hl Hnext. unfold subscriptions_ready.
  apply (emitting_supervised _ _ _ v {| wt_generation := wt_generation v; wt_failures := 0;
                                        wt_link := LinkUp c acknowledged true |}); simpl; try done.
  - unfold watch_event. rewrite Hl. by rewrite bool_decide_eq_true_2.
  - intros s1 H1 He _ Hf1 _. by apply Hnext.
Qed.

(** The loop goes on to receive. *)
Lemma receiving_supervised c desired tracker s v acknowledged :
  tuned s v → wt_link v = LinkUp c acknowledged (tracker_complete tracker) →
  (∀ k, k ∈ acknowledged ↔ k ∈ at_acknowledged tracker) → distinct_keys desired →
  tracks desired (passed s c) tracker → within_policy s → supervised (put_phase (Receiving c desired tracker) s).
Proof.
  intros [Hv Hg Hf Hr] Hl Ha Hd Ht Hw. split; [done|]. exists v. split; [done|]. right.
  split; [by split|]. split; [|done]. split; [done|]. split; [done|]. by exists acknowledged.
Qed.

Lemma opened_supervised id fault s v :
  tuned s v → wt_link v = LinkDown → within_policy s → supervised (connection_opened self id fault s).
Proof.
  intros [Hv Hg Hf Hr] Hl Hw. unfold connection_opened. cbn [sn_generation put_generation sn_registry].
  set (gen := saturating_add U64 (sn_generation s) 1). set (c := {| cn_connection_id := id; cn_generation := gen |}).
  set (desired := registry_snapshot (sn_registry s)).
  assert (distinct_keys desired) as Hd by by apply snapshot_distinct.
  apply (emitting_supervised _ _ _ v {| wt_generation := gen; wt_failures := wt_failures v; wt_link := LinkUp c [] false |});
    simpl; try done.
  { unfold watch_event. rewrite Hl. rewrite bool_decide_eq_true_2; [done|]. simpl. by rewrite Hg. }
  intros s1 H1 He Hg1 Hf1 Hr1.
  assert (within_policy s1) as Hw1 by (unfold within_policy; rewrite Hf1; exact Hw).
  set (s1' := put_sent _ s1).
  assert (tuned s1' {| wt_generation := gen; wt_failures := wt_failures v; wt_link := LinkUp c [] false |}) as H1'
    by (destruct H1; by split).
  destruct (f ← fault; _) as [error|]; [eapply lost_supervised; [done|]; by exists [], false|].
  destruct (tracker_complete (from_subscriptions desired)) eqn:Hc.
  - eapply ready_supervised; [done|done|]. intros s2 H2 Hf2 _.
    eapply receiving_supervised; [done|by rewrite Hc|set_solver|done|apply tracks_start|by left].
  - eapply receiving_supervised; [done|by rewrite Hc|set_solver|done|apply tracks_start|done].
Qed.

(** The acknowledgements of one message, one after the other. *)
Lemma acknowledged_supervised c n next keys s v acknowledged :
  tuned s v → wt_link v = LinkUp c acknowledged false → NoDup keys → (∀ k, k ∈ keys → k ∉ acknowledged) →
  (∀ s1 v1, tuned s1 v1 → wt_link v1 = LinkUp c (acknowledged ++ keys) false → sn_failures s1 = sn_failures s →
     (∀ e, e ∈ sn_events s → e ∈ sn_events s1) → supervised (next s1)) →
  supervised (emitting_all ((λ k, SubscriptionAcknowledged c k n) <$> keys) next s).
Proof.
  revert s v acknowledged. induction keys as [|k keys IH]; intros s v acknowledged Ht Hl Hnd Hnew Hnext; simpl.
  { apply (Hnext s v); try done. by rewrite app_nil_r. }
  apply NoDup_cons in Hnd as [Hk Hnd]. destruct Ht as [Hv Hg Hf Hr].
  apply (emitting_supervised _ _ _ v {| wt_generation := wt_generation v; wt_failures := wt_failures v;
                                        wt_link := LinkUp c (acknowledged ++ [k]) false |}); simpl; try done.
  { unfold watch_event. rewrite Hl, bool_decide_eq_true_2, bool_decide_eq_false_2 by (done || apply Hnew; by left). done. }
  intros s1 H1 He _ Hf1 _. eapply IH; [done|done|done| |].
  - intros k' Hk' [?|?%list_elem_of_singleton]%elem_of_app; [by apply (Hnew k'); [right|]|by subst].
  - intros s2 v2 H2 Hl2 Hf2 Hin. apply (Hnext s2 v2); [done| |congruence|].
    + by rewrite <- app_assoc in Hl2.
    + intros e Hin'. apply Hin. rewrite He. set_solver.
Qed.

(** A message is passed on and the loop goes on. *)
Lemma pass_supervised c desired message tracker s v acknowledged :
  tuned s v → wt_link v = LinkUp c acknowledged (tracker_complete tracker) →
  (∀ k, k ∈ acknowledged ↔ k ∈ at_acknowledged tracker) → distinct_keys desired → within_policy s →
  tracks desired (λ m, m = message ∨ passed s c m) tracker →
  supervised (emitting (MessageReceived c message) (put_phase (Receiving c desired tracker)) s).
Proof.
  intros [Hv Hg Hf Hr] Hl Ha Hd Hw Ht. apply (emitting_supervised _ _ _ v v); try done.
  { unfold watch_event. rewrite Hl. by rewrite bool_decide_eq_true_2. }
  intros s1 H1 He _ Hf1 _. eapply receiving_supervised; [done..| |unfold within_policy; by rewrite Hf1].
  eapply tracks_more; [|done]. intros m Hm. unfold passed in *. rewrite He. set_solver.
Qed.

Lemma message_supervised c desired tracker message s v :
  tuned s v → within_policy s → sn_phase s = Receiving c desired tracker → phase_ok s v →
  supervised (message_received self c desired tracker message s).
Proof.
  intros Ht Hw Hph Hok. unfold phase_ok in Hok. rewrite Hph in Hok. destruct Hok as (Hd & Htr & acknowledged & Hl & Ha).
  unfold message_received. destruct (observe_checked tracker message) as [[after observed]|error] eqn:Ho;
    [|eapply lost_supervised; [done|]; by eexists _, _].
  assert (tracks desired (λ m, m = message ∨ passed s c m) tracker) as Htr' by (eapply tracks_more; [|done]; auto).
  destruct (observe_tracks _ _ _ _ _ _ Hd Htr' Ho (or_introl eq_refl)) as (Hafter & Hack & Hnd & Hnew & Hcomplete).
  destruct (tracker_complete tracker) eqn:Hc.
  - destruct (Hcomplete eq_refl) as [-> Hc']. simpl. eapply pass_supervised; [done|by rewrite Hc'|..]; try done.
    intros k. rewrite Ha, Hack. set_solver.
  - apply (acknowledged_supervised c _ _ observed s v acknowledged); [done|done|done|intros k Hk; rewrite Ha; by apply Hnew|].
    intros s1 v1 H1 Hl1 Hf1 Hin.
    assert (∀ k, k ∈ acknowledged ++ observed ↔ k ∈ at_acknowledged after) as Ha' by (intros k; rewrite Hack, elem_of_app, Ha; set_solver).
    assert (∀ s2, (∀ e, e ∈ sn_events s1 → e ∈ sn_events s2) → tracks desired (λ m, m = message ∨ passed s2 c m) after) as Hpass.
    { intros s2 Hin2. eapply tracks_more; [|exact Hafter]. intros m [->|Hm]; [by left|]. right. by apply Hin2, Hin. }
    destruct (tracker_complete after) eqn:Hc'; simpl.
    + eapply ready_supervised; [done|done|]. intros s2 H2 Hf2 He2. eapply pass_supervised; [done|by rewrite Hc'|done|done|by left|].
      apply Hpass. intros e. rewrite He2. set_solver.
    + eapply pass_supervised; [done|by rewrite Hc'|done|done|unfold within_policy; by rewrite Hf1|by apply Hpass].
Qed.

Lemma registry_supervised r s : keyed_registry r → supervised s → supervised (put_registry r s).
Proof.
  intros Hr [_ (v & Hv & H)]. split; [done|]. exists v. split; [done|]. destruct H as [H|([] & Hp & Hw)]; [by left|].
  right. split_and!; [by split|done|done].
Qed.

(** The loop is at the top, or asleep before it. *)
Lemma at_top_supervised phase s v :
  tuned s v → wt_link v = LinkDown → within_policy s → phase = Connecting ∨ phase = WaitingToReconnect →
  supervised (put_phase phase s).
Proof.
  intros [Hv Hg Hf Hr] Hl Hw Hp. split; [done|]. exists v. split; [done|]. right. split_and!; [by split| |done].
  unfold phase_ok. destruct Hp as [-> | ->]; exact Hl.
Qed.

Lemma stopped_supervised s v :
  tuned s v → (wt_link v = LinkDown ∨ ∃ c l ready, wt_link v = LinkUp c l ready) →
  supervised (ending_with (StreamStopped StopShutdown) s).
Proof.
  intros [Hv Hg Hf Hr] Hl.
  apply (ending_supervised _ s v {| wt_generation := wt_generation v; wt_failures := wt_failures v; wt_link := LinkOver |});
    try done.
  unfold watch_event. by destruct Hl as [-> | (c & l & ready & ->)].
Qed.

Lemma reconnect_supervised c l ready s v :
  tuned s v → wt_link v = LinkUp c l ready → within_policy s →
  supervised (emitting (Disconnected (Some c) ReconnectRequested) (put_phase Connecting) s).
Proof.
  intros [Hv Hg Hf Hr] Hl Hw.
  apply (emitting_supervised _ _ s v {| wt_generation := wt_generation v; wt_failures := wt_failures v; wt_link := LinkDown |});
    try done.
  { unfold watch_event. rewrite Hl. by rewrite bool_decide_eq_true_2. }
  intros s1 H1 _ _ Hf1 _. eapply at_top_supervised; [done|done| |by left]. unfold within_policy. by rewrite Hf1.
Qed.

Lemma ws_step_supervised s h : supervised s → supervised (ws_step self s h).
Proof.
  intros Hs. pose proof Hs as [Hr (v & Hv & H)]. unfold ws_step.
  destruct h as [command|error uuid|id fault| |message| |sub|id].
  7: by apply registry_supervised; [apply upsert_keyed|].
  7: by apply registry_supervised; [apply remove_keyed|].
  all: destruct H as [[-> _]|(Ht & Hok & Hw)]; [by repeat case_match|].
  all: pose proof Hok as Hlink; unfold phase_ok in Hlink.
  all: destruct (sn_phase s) as [|c desired tracker| |] eqn:Hph; try done; try (by repeat case_match).
  all: try destruct Hlink as (Hd & Htr & l & Hl & Ha).
  - destruct command as [[]|]; try done; eapply stopped_supervised; eauto.
  - destruct command as [[]|]; try (by eapply reconnect_supervised); eapply stopped_supervised; eauto 6.
  - destruct command as [[]|]; first [by eapply at_top_supervised; eauto | by eapply stopped_supervised; eauto].
  - by eapply lost_supervised.
  - by eapply opened_supervised.
  - destruct (tracker_complete tracker); [done|]. eapply lost_supervised; [done|]. by eexists _, _.
  - destruct message as [message|error]; [by eapply message_supervised|]. eapply lost_supervised; [done|]. by eexists _, _.
  - eapply at_top_supervised; eauto.
Qed.

Lemma supervise_supervised capacity accepts happenings : supervised (supervise self capacity accepts happenings).
Proof.
  unfold supervise. induction happenings as [|h happenings IH] using rev_ind.
  - assert (keyed_registry {| sr_capacity := capacity; sr_by_id := ∅; sr_ack_owner := ∅ |}) as Hk.
    { split; simpl; intros *; by rewrite lookup_empty. }
    split; [done|]. exists watching. split; [done|]. right. split; [by split|]. split; [done|]. by left.
  - rewrite fold_left_app. by apply ws_step_supervised.
Qed.

(** ** A connection replays what is wanted *)

(** The parts of the loop's state that an event leaves alone. *)
Definition same_registry (s s' : Supervision) : Prop := sn_registry s' = sn_registry s.

Lemma emitting_registry event next s :
  (∀ s1, same_registry s1 (next s1)) → same_registry s (emitting event next s).
Proof.
  intros Hn. unfold emitting, ws_emit, same_registry. destruct (sn_accepts s) as [[|n]|]; [done| |]; by rewrite Hn.
Qed.

Lemma ending_registry event s : same_registry s (ending_with event s).
Proof. unfold ending_with, ws_emit, same_registry. by destruct (sn_accepts s) as [[|n]|]. Qed.

Lemma lost_registry connection error id s : same_registry s (connection_lost self connection error id s).
Proof.
  unfold connection_lost.
  apply (emitting_registry _ _ (put_failures _ s)). intros s1. unfold wait_before_reconnect.
  destruct (_ <=? _); [apply ending_registry|by apply emitting_registry].
Qed.

Lemma ready_registry c next s :
  (∀ s1, same_registry s1 (next s1)) → same_registry s (subscriptions_ready c next s).
Proof. intros Hn. by apply (emitting_registry _ _ (put_failures 0 s)). Qed.

Lemma emitting_all_registry events next s :
  (∀ s1, same_registry s1 (next s1)) → same_registry s (emitting_all events next s).
Proof.
  intros Hn. revert s. induction events as [|e events IH]; intros s; simpl; [apply Hn|]. by apply emitting_registry.
Qed.

Lemma ws_step_registry s h :
  sn_registry (ws_step self s h) =
    match h with
    | RegistryUpsert subscription => fst (registry_upsert subscription (sn_registry s))
    | RegistryRemove id => fst (registry_remove id (sn_registry s))
    | _ => sn_registry s
    end.
Proof.
  unfold ws_step. destruct h as [command|error uuid|id fault| |message| |sub|id]; try done;
    destruct (sn_phase s) as [|c desired tracker| |]; try done;
    try (destruct command as [[]|]; try done; apply ending_registry || by apply emitting_registry);
    try (by destruct message).
  - apply lost_registry.
  - unfold connection_opened. cbn [sn_generation put_generation sn_registry].
    apply (emitting_registry _ _ (put_generation _ s)). intros s1.
    set (s2 := put_sent _ s1). change (same_registry s2 _) with (same_registry s1 _).
    destruct (f ← fault; _); [apply (lost_registry _ _ _ s2)|].
    destruct (tracker_complete _); [by apply (ready_registry _ _ s2)|done].
  - destruct (tracker_complete tracker); [done|apply lost_registry].
  - destruct message as [message|error]; [|apply lost_registry]. unfold message_received.
    destruct (observe_checked tracker message) as [[after observed]|error]; [|apply lost_registry].
    apply emitting_all_registry. intros s1.
    destruct (_ && _); [apply ready_registry; intros s2|]; by apply emitting_registry.
Qed.

Lemma upsert_wanted capacity happenings r subscription :
  keyed_registry r → sr_capacity r = capacity → wanted capacity happenings (sr_by_id r) →
  let r' := fst (registry_upsert subscription r) in
  sr_capacity r' = capacity ∧ wanted capacity (happenings ++ [RegistryUpsert subscription]) (sr_by_id r').
Proof.
  intros [Hid Ho Hw] <- H. unfold registry_upsert. destruct (_ && _) eqn:Hfull.
  { apply andb_true_iff in Hfull as [?%bool_decide_eq_true ?%Z.leb_le]. split; [done|]. apply wanted_refused; auto. }
  assert (is_Some (sr_by_id r !! ds_id subscription) ∨ Z.of_nat (size (sr_by_id r)) < sr_capacity r) as Hroom.
  { destruct (sr_by_id r !! ds_id subscription) eqn:Hp; [left; by eexists|right].
    rewrite bool_decide_eq_true_2 in Hfull by done. simpl in Hfull. lia. }
  destruct (k ← ds_acknowledgement subscription; _) as [k|] eqn:Hdup; simpl.
  - split; [done|]. apply wanted_refused; [done|right].
    destruct (ds_acknowledgement subscription) as [k0|] eqn:Hk; [|done]. simpl in Hdup.
    destruct (sr_ack_owner r !! k0) as [owner|] eqn:Hown; [|done]. simpl in Hdup. case_bool_decide; [|done].
    destruct (Hw _ _ Hown) as (other & Hother & Hkey). by exists owner, other, k0.
  - split; [done|]. apply wanted_put; [done..|]. intros (id & other & k & Hother & Hne & Hk1 & Hk2).
    rewrite Hk2 in Hdup. simpl in Hdup. rewrite (Ho _ _ _ Hother Hk1) in Hdup. simpl in Hdup. by rewrite bool_decide_eq_true_2 in Hdup.
Qed.

(** The registry of the loop holds what is wanted. *)
Lemma supervise_wanted capacity accepts happenings :
  let r := sn_registry (supervise self capacity accepts happenings) in
  keyed_registry r ∧ sr_capacity r = capacity ∧ wanted capacity happenings (sr_by_id r).
Proof.
  split; [apply supervise_supervised|]. induction happenings as [|h happenings [IHc IHw]] using rev_ind.
  { split; [done|constructor]. }
  pose proof (supervise_supervised capacity accepts happenings) as [Hk _]. revert Hk IHc IHw. unfold supervise.
  rewrite fold_left_app. simpl. rewrite ws_step_registry. generalize (fold_left (ws_step self) happenings).
  intros run Hk IHc IHw. destruct h as [| | | | | |sub|id]; try (split; [done|by apply wanted_same]).
  - by apply upsert_wanted.
  - split; [done|by apply wanted_out].
Qed.

(** An event that was sent: what follows starts from the same loop. *)
Lemma emitting_receiving event next s c desired tracker :
  sn_phase (emitting event next s) = Receiving c desired tracker →
  ∃ s1, emitting event next s = next s1 ∧ sn_registry s1 = sn_registry s ∧ sn_sent s1 = sn_sent s ∧
    sn_generation s1 = sn_generation s ∧ sn_phase s1 = sn_phase s.
Proof. unfold emitting, ws_emit. destruct (sn_accepts s) as [[|n]|]; [done|by eexists..]. Qed.

Lemma lost_not_receiving connection error id s c desired tracker :
  sn_phase (connection_lost self connection error id s) ≠ Receiving c desired tracker.
Proof.
  unfold connection_lost. intros H. pose proof H as (s1 & Hs & _)%emitting_receiving. rewrite Hs in H.
  unfold wait_before_reconnect in H. destruct (_ <=? _); [done|].
  pose proof H as (s2 & Hs2 & _)%emitting_receiving. by rewrite Hs2 in H.
Qed.

Lemma ready_receiving c0 c0' desired0 tracker0 s c desired tracker :
  sn_phase (subscriptions_ready c0 (put_phase (Receiving c0' desired0 tracker0)) s) = Receiving c desired tracker →
  c = c0' ∧ desired = desired0 ∧ sn_sent (subscriptions_ready c0 (put_phase (Receiving c0' desired0 tracker0)) s) = sn_sent s
  ∧ sn_generation (subscriptions_ready c0 (put_phase (Receiving c0' desired0 tracker0)) s) = sn_generation s.
Proof.
  unfold subscriptions_ready. intros H. pose proof H as (s1 & Hs & _ & Hsent & Hg & _)%emitting_receiving.
  rewrite Hs in *. simpl in *. by simplify_eq.
Qed.

Lemma opened_receiving id fault s c desired tracker :
  sn_phase (connection_opened self id fault s) = Receiving c desired tracker →
  c = {| cn_connection_id := id; cn_generation := saturating_add U64 (sn_generation s) 1 |} ∧
  desired = registry_snapshot (sn_registry s) ∧
  sn_sent (connection_opened self id fault s) = sn_sent s ++ ((λ d, (c, ds_request d)) <$> desired) ∧
  sn_generation (connection_opened self id fault s) = cn_generation c.
Proof.
  unfold connection_opened. intros H. pose proof H as (s1 & Hs & Hr & Hsent & Hg & _)%emitting_receiving. rewrite Hs in *.
  cbn [put_generation sn_registry sn_sent sn_generation] in *.
  destruct (f ← fault; _) as [error|] eqn:Hf; [by apply lost_not_receiving in H|].
  assert ((match fault with Some f => take f.1 (registry_snapshot (sn_registry s)) | None => registry_snapshot (sn_registry s) end)
          = registry_snapshot (sn_registry s)) as Hall.
  { destruct fault as [[n error]|]; [|done]. simpl in *. case_bool_decide; [done|]. apply take_ge. lia. }
  rewrite Hall in *. destruct (tracker_complete _).
  - apply ready_receiving in H as (-> & -> & Hs1 & Hg1). rewrite Hs1, Hg1. simpl. by rewrite Hsent, Hg.
  - simpl in *. simplify_eq. by rewrite Hsent, Hg.
Qed.

Lemma pass_receiving c0 message desired0 tracker0 s c desired tracker :
  let s' := emitting (MessageReceived c0 message) (put_phase (Receiving c0 desired0 tracker0)) s in
  sn_phase s' = Receiving c desired tracker →
  c = c0 ∧ desired = desired0 ∧ sn_sent s' = sn_sent s ∧ sn_generation s' = sn_generation s.
Proof.
  intros s' H. pose proof H as (s1 & Hs & _ & Hsent & Hg & _)%emitting_receiving. subst s'. rewrite Hs in *.
  simpl in *. by simplify_eq.
Qed.

Lemma message_receiving c0 desired0 tracker0 message s c desired tracker :
  let s' := message_received self c0 desired0 tracker0 message s in
  sn_phase s' = Receiving c desired tracker →
  c = c0 ∧ desired = desired0 ∧ sn_sent s' = sn_sent s ∧ sn_generation s' = sn_generation s.
Proof.
  intros s'. subst s'. unfold message_received.
  destruct (observe_checked tracker0 message) as [[after observed]|error]; [|by intros ?%lost_not_receiving].
  generalize (length (remaining after)). intros n. revert s.
  induction observed as [|k observed IH]; intros s; simpl.
  - destruct (_ && _); [|apply pass_receiving]. unfold subscriptions_ready. intros H.
    pose proof H as (s1 & Hs & _ & Hsent & Hg & _)%emitting_receiving. rewrite Hs in *.
    apply pass_receiving in H. simpl in *. by rewrite <-Hsent, <-Hg.
  - intros H. pose proof H as (s1 & Hs & _ & Hsent & Hg & _)%emitting_receiving. rewrite Hs in *. rewrite <-Hsent, <-Hg.
    by apply IH.
Qed.

(** The loop receives because it did before, or because a connection was just opened. *)
Lemma step_receiving s h c desired tracker :
  sn_phase (ws_step self s h) = Receiving c desired tracker →
  (∃ tracker', sn_phase s = Receiving c desired tracker' ∧ sn_sent (ws_step self s h) = sn_sent s ∧
     sn_generation (ws_step self s h) = sn_generation s) ∨
  (∃ fault, h = ConnectorOpened (cn_connection_id c) fault ∧ sn_phase s = Connecting ∧
     desired = registry_snapshot (sn_registry s) ∧
     sn_sent (ws_step self s h) = sn_sent s ++ ((λ d, (c, ds_request d)) <$> desired) ∧
     sn_generation (ws_step self s h) = cn_generation c).
Proof.
  unfold ws_step. destruct h as [command|error uuid|id fault| |message| |sub|id];
    destruct (sn_phase s) as [|c0 desired0 tracker0| |] eqn:Hph; simpl;
    try (rewrite ?Hph; intros; simplify_eq; left; by eexists);
    try (by destruct message; rewrite ?Hph).
  - destruct command as [[]|]; rewrite ?Hph; try done; intros H;
      by first [apply emitting_receiving in H as (? & ? & ?)|unfold ending_with in H; simpl in H].
  - destruct command as [[]|]; try done; intros H; pose proof H as (s1 & Hs & _)%emitting_receiving; by rewrite Hs in H.
  - by destruct command as [[]|].
  - by destruct command as [[]|]; rewrite ?Hph.
  - by intros ?%lost_not_receiving.
  - intros (-> & -> & Hs & Hg)%opened_receiving. right. exists fault. by rewrite Hs, Hg.
  - destruct (tracker_complete tracker0); [rewrite Hph; intros; simplify_eq; left; by eexists|by intros ?%lost_not_receiving].
  - destruct message as [message|error]; [|by intros ?%lost_not_receiving].
    intros (-> & -> & Hs & Hg)%message_receiving. left. by eexists.
Qed.

(** A connection the loop receives from was opened at a moment of the run; the
    subscriptions it works for are those that were wanted then, and each of their requests
    was sent on it, and nothing else since. *)
Definition replays (capacity : Z) (accepts : option nat) (happenings : list Happening)
    (c : ConnectionMetadata) (desired : list DesiredSubscription) : Prop :=
  ∃ before fault after m,
    happenings = before ++ ConnectorOpened (cn_connection_id c) fault :: after ∧
    wanted capacity before m ∧ desired ≡ₚ (map_to_list m).*2 ∧
    let s0 := supervise self capacity accepts before in
    let s := supervise self capacity accepts happenings in
    sn_phase s0 = Connecting ∧ sn_generation s = cn_generation c ∧
    sn_sent s = sn_sent s0 ++ ((λ d, (c, ds_request d)) <$> desired).

Lemma receiving_replays capacity accepts happenings c desired tracker :
  sn_phase (supervise self capacity accepts happenings) = Receiving c desired tracker →
  replays capacity accepts happenings c desired.
Proof.
  revert tracker. induction happenings as [|h happenings IH] using rev_ind; intros tracker H; [done|].
  assert (supervise self capacity accepts (happenings ++ [h]) = ws_step self (supervise self capacity accepts happenings) h)
    as Hstep by (unfold supervise; by rewrite fold_left_app).
  rewrite Hstep in H. apply step_receiving in H as [(t' & Hph & Hs & Hg)|(fault & -> & Hph & -> & Hs & Hg)].
  - destruct (IH _ Hph) as (before & fault & after & m & -> & Hw & Hd & Hp & Hgen & Hsent).
    exists before, fault, (after ++ [h]), m. cbv zeta. rewrite Hstep, Hs, Hg, <-app_assoc. done.
  - destruct (supervise_wanted capacity accepts happenings) as (_ & _ & Hw).
    exists happenings, fault, [], (sr_by_id (sn_registry (supervise self capacity accepts happenings))).
    rewrite Hstep. split_and!; try done. unfold registry_snapshot. by rewrite merge_sort_Permutation.
Qed.

End protocol.

(** ** A run *)

Section sample.
Definition trades (uid : string) : DesiredSubscription :=
  with_expected_instrument_uid (DesiredSubscription_new "trades" JNull "subscribe_trades_response") uid.
Definition confirmation (uid : string) : Value :=
  JObject [("subscribe_trades_response", JObject [("trade_subscriptions", JArray [JObject [
    ("instrument_uid", JString uid); ("subscription_status", JString SUCCESS)]])])]%string.
Definition two_attempts : StreamSupervisor := {|
  sv_reconnect_policy := {| rt_max_attempts := 2; rt_initial_delay := 1; rt_max_delay := 1; rt_jitter_basis_points := 0 |};
  sv_event_capacity := 8; sv_command_capacity := 8; sv_acknowledgement_timeout := 20 |}.

(** The wrong instrument is a loss; the right one makes the stream ready; two failures in a
    row end it. *)
Example websocket_sample :
  sn_events (supervise two_attempts 4 None
    [RegistryUpsert (trades "uid-1"); ConnectorOpened 7 None; Received (Ok (confirmation "uid-2")); DelayOver;
     ConnectorOpened 8 None; Received (Ok (confirmation "uid-1")); Received (Err (SocketClosed None)); DelayOver;
     ConnectorFailed (ConnectTimeout 20) 9])
  = let one := {| cn_connection_id := 7; cn_generation := 1 |} in
    let two := {| cn_connection_id := 8; cn_generation := 2 |} in
    [Connected one 1;
     Disconnected (Some one) (ConnectionLost (SubscriptionAcknowledgement
       (UnexpectedInstrument "subscribe_trades_response" "uid-1" (Some "uid-2"))));
     ReconnectScheduled 1 1; Connected two 1; SubscriptionAcknowledged two "subscribe_trades_response" 0;
     SubscriptionsReady two; MessageReceived two (confirmation "uid-1");
     Disconnected (Some two) (ConnectionLost (SocketClosed None)); ReconnectScheduled 1 1;
     Disconnected None (ConnectionLost (ConnectTimeout 20)); StreamStopped StopReconnectExhausted]%string.
Proof. vm_compute. reflexivity. Qed.
End sample.
