(* ===== verification/TInvestMarketWire.v ===== *)
(** * Messages of the market-data services:
    [crates/vox-tinvest/proto/tinkoff/marketdata.proto]

    The records the generated code has for the messages of the market-data service and of
    the market-data stream, with the fields the adapter reads and writes.  Enumerations are
    their wire numbers; an absent message is [None]. *)
From S2P Require Import Prelude TInvestWire.

(** ** Facts *)

Record CandleMessage := {
  cm_figi : string;
  cm_interval : Z;
  cm_open : option Quotation;
  cm_high : option Quotation;
  cm_low : option Quotation;
  cm_close : option Quotation;
  cm_volume : Z;
  cm_time : option Timestamp;
  cm_last_trade_ts : option Timestamp;
  cm_instrument_uid : string;
  cm_ticker : string;
  cm_class_code : string;
  cm_volume_buy : Z;
  cm_volume_sell : Z;
  cm_candle_source_type : Z;
}.

Record OrderLevel := { ol_price : option Quotation; ol_quantity : Z }.

Record OrderBookMessage := {
  bm_figi : string;
  bm_depth : Z;
  bm_is_consistent : bool;
  bm_bids : list OrderLevel;
  bm_asks : list OrderLevel;
  bm_time : option Timestamp;
  bm_limit_up : option Quotation;
  bm_limit_down : option Quotation;
  bm_instrument_uid : string;
  bm_order_book_type : Z;
  bm_ticker : string;
  bm_class_code : string;
}.

Record TradeMessage := {
  tm_figi : string;
  tm_direction : Z;
  tm_price : option Quotation;
  tm_quantity : Z;
  tm_time : option Timestamp;
  tm_instrument_uid : string;
  tm_trade_source : Z;
  tm_ticker : string;
  tm_class_code : string;
}.

Record TradingStatusMessage := {
  sm_figi : string;
  sm_trading_status : Z;
  sm_time : option Timestamp;
  sm_limit_order_available_flag : bool;
  sm_market_order_available_flag : bool;
  sm_instrument_uid : string;
  sm_ticker : string;
  sm_class_code : string;
}.

Record LastPriceMessage := {
  lm_figi : string;
  lm_price : option Quotation;
  lm_time : option Timestamp;
  lm_ticker : string;
  lm_class_code : string;
  lm_instrument_uid : string;
  lm_last_price_type : Z;
}.

Record OpenInterestMessage := {
  om_instrument_uid : string;
  om_time : option Timestamp;
  om_open_interest : Z;
  om_ticker : string;
  om_class_code : string;
}.

(** [GetCandlesRequest] and [HistoricCandle]. *)
Record GetCandlesRequest := {
  gcq_figi : option string;
  gcq_from : option Timestamp;
  gcq_to : option Timestamp;
  gcq_interval : Z;
  gcq_instrument_id : option string;
  gcq_candle_source_type : option Z;
  gcq_limit : option Z;
}.

Record HistoricCandle := {
  hc_open : option Quotation;
  hc_high : option Quotation;
  hc_low : option Quotation;
  hc_close : option Quotation;
  hc_volume : Z;
  hc_time : option Timestamp;
  hc_is_complete : bool;
  hc_candle_source : Z;
  hc_volume_buy : Z;
  hc_volume_sell : Z;
}.

#[export] Instance market_timestamp_eq_dec : EqDecision Timestamp.
Proof. solve_decision. Defined.
#[export] Instance HistoricCandle_eq_dec : EqDecision HistoricCandle.
Proof. solve_decision. Defined.

Record GetOrderBookResponse := {
  gob_figi : string;
  gob_depth : Z;
  gob_bids : list OrderLevel;
  gob_asks : list OrderLevel;
  gob_last_price : option Quotation;
  gob_close_price : option Quotation;
  gob_limit_up : option Quotation;
  gob_limit_down : option Quotation;
  gob_instrument_uid : string;
  gob_ticker : string;
  gob_class_code : string;
  gob_last_price_ts : option Timestamp;
  gob_close_price_ts : option Timestamp;
  gob_orderbook_ts : option Timestamp;
}.

(** [GetTradingStatusResponse]. *)
Record TradingStatusAnswer := {
  gts_figi : string;
  gts_trading_status : Z;
  gts_limit_order_available_flag : bool;
  gts_market_order_available_flag : bool;
  gts_api_trade_available_flag : bool;
  gts_instrument_uid : string;
  gts_bestprice_order_available_flag : bool;
  gts_only_best_price : bool;
  gts_ticker : string;
  gts_class_code : string;
}.

Record InstrumentClosePriceResponse := {
  icp_figi : string;
  icp_instrument_uid : string;
  icp_ticker : string;
  icp_class_code : string;
  icp_price : option Quotation;
  icp_evening_session_price : option Quotation;
  icp_time : option Timestamp;
  icp_evening_session_price_time : option Timestamp;
}.

Record TechAnalysisItem := {
  tai_timestamp : option Timestamp;
  tai_middle_band : option Quotation;
  tai_upper_band : option Quotation;
  tai_lower_band : option Quotation;
  tai_signal : option Quotation;
  tai_macd : option Quotation;
}.

Record MarketValue := { mvl_type : option Z; mvl_value : option Quotation; mvl_time : option Timestamp }.

Record MarketValueInstrument := {
  mvi_instrument_uid : string;
  mvi_values : list MarketValue;
  mvi_ticker : string;
  mvi_class_code : string;
}.

(** ** Subscriptions *)

Record CandleInstrument := { cin_figi : string; cin_interval : Z; cin_instrument_id : string }.
Record OrderBookInstrument := {
  bin_figi : string;
  bin_depth : Z;
  bin_instrument_id : string;
  bin_order_book_type : Z;
}.
Record TradeInstrument := { tin_figi : string; tin_instrument_id : string }.
Record InfoInstrument := { iin_figi : string; iin_instrument_id : string }.
Record LastPriceInstrument := { lin_figi : string; lin_instrument_id : string }.

Record SubscribeCandlesRequest := {
  scq_subscription_action : Z;
  scq_instruments : list CandleInstrument;
  scq_waiting_close : bool;
  scq_candle_source_type : option Z;
}.
Record SubscribeOrderBookRequest := { sbq_subscription_action : Z; sbq_instruments : list OrderBookInstrument }.
Record SubscribeTradesRequest := {
  stq_subscription_action : Z;
  stq_instruments : list TradeInstrument;
  stq_trade_source : Z;
  stq_with_open_interest : bool;
}.
Record SubscribeInfoRequest := { siq_subscription_action : Z; siq_instruments : list InfoInstrument }.
Record SubscribeLastPriceRequest := { slq_subscription_action : Z; slq_instruments : list LastPriceInstrument }.
Record PingDelaySettings := { pds_ping_delay_ms : option Z }.

Inductive RequestPayload :=
| SubscribeCandlesPayload (request : SubscribeCandlesRequest)
| SubscribeOrderBookPayload (request : SubscribeOrderBookRequest)
| SubscribeTradesPayload (request : SubscribeTradesRequest)
| SubscribeInfoPayload (request : SubscribeInfoRequest)
| SubscribeLastPricePayload (request : SubscribeLastPriceRequest)
| GetMySubscriptionsPayload
| PingRequestPayload (time : option Timestamp)
| PingSettingsPayload (settings : PingDelaySettings).

Record MarketDataRequest := { mdq_payload : option RequestPayload }.

Record CandleSubscription := {
  csb_figi : string;
  csb_interval : Z;
  csb_subscription_status : Z;
  csb_instrument_uid : string;
  csb_waiting_close : bool;
  csb_stream_id : string;
  csb_subscription_id : string;
  csb_subscription_action : Z;
  csb_candle_source_type : option Z;
  csb_ticker : string;
  csb_class_code : string;
}.

Record OrderBookSubscription := {
  bsb_figi : string;
  bsb_depth : Z;
  bsb_subscription_status : Z;
  bsb_instrument_uid : string;
  bsb_stream_id : string;
  bsb_subscription_id : string;
  bsb_order_book_type : Z;
  bsb_subscription_action : Z;
  bsb_ticker : string;
  bsb_class_code : string;
}.

Record TradeSubscription := {
  tsb_figi : string;
  tsb_subscription_status : Z;
  tsb_instrument_uid : string;
  tsb_stream_id : string;
  tsb_subscription_id : string;
  tsb_with_open_interest : bool;
  tsb_subscription_action : Z;
  tsb_ticker : string;
  tsb_class_code : string;
}.

(** [InfoSubscription] and [LastPriceSubscription] have the same fields. *)
Record InfoSubscription := {
  isb_figi : string;
  isb_subscription_status : Z;
  isb_instrument_uid : string;
  isb_stream_id : string;
  isb_subscription_id : string;
  isb_subscription_action : Z;
  isb_ticker : string;
  isb_class_code : string;
}.

Record LastPriceSubscription := {
  lsb_figi : string;
  lsb_subscription_status : Z;
  lsb_instrument_uid : string;
  lsb_stream_id : string;
  lsb_subscription_id : string;
  lsb_subscription_action : Z;
  lsb_ticker : string;
  lsb_class_code : string;
}.

Record SubscribeCandlesResponse := { scr_tracking_id : string; scr_candles_subscriptions : list CandleSubscription }.
Record SubscribeOrderBookResponse := {
  sbr_tracking_id : string;
  sbr_order_book_subscriptions : list OrderBookSubscription;
}.
Record SubscribeTradesResponse := {
  str_tracking_id : string;
  str_trade_subscriptions : list TradeSubscription;
  str_trade_source : Z;
}.
Record SubscribeInfoResponse := { sir_tracking_id : string; sir_info_subscriptions : list InfoSubscription }.
Record SubscribeLastPriceResponse := {
  slr_tracking_id : string;
  slr_last_price_subscriptions : list LastPriceSubscription;
}.

Inductive ResponsePayload :=
| SubscribeCandlesAnswer (response : SubscribeCandlesResponse)
| SubscribeOrderBookAnswer (response : SubscribeOrderBookResponse)
| SubscribeTradesAnswer (response : SubscribeTradesResponse)
| SubscribeInfoAnswer (response : SubscribeInfoResponse)
| CandlePayload (value : CandleMessage)
| TradePayload (value : TradeMessage)
| OrderBookPayload (value : OrderBookMessage)
| TradingStatusPayload (value : TradingStatusMessage)
| PingPayload (value : Ping)
| SubscribeLastPriceAnswer (response : SubscribeLastPriceResponse)
| LastPricePayload (value : LastPriceMessage)
| OpenInterestPayload (value : OpenInterestMessage).

Record MarketDataResponse := { mdr_payload : option ResponsePayload }.

Inductive SubscriptionAction :=
| SubscriptionAction_Unspecified | SubscriptionAction_Subscribe | SubscriptionAction_Unsubscribe.
#[export] Instance SubscriptionAction_wire : WireEnum SubscriptionAction := {
  as_i32 a := match a with
              | SubscriptionAction_Unspecified => 0 | SubscriptionAction_Subscribe => 1
              | SubscriptionAction_Unsubscribe => 2
              end;
  members := [SubscriptionAction_Unspecified; SubscriptionAction_Subscribe; SubscriptionAction_Unsubscribe];
}.
#[export] Instance SubscriptionAction_laws : WireEnumLaws SubscriptionAction.
Proof. wire_enum. Qed.

(** The members the adapter compares with: [SubscriptionStatus::Success] and
    [OrderBookType::OrderbookTypeAll]. *)
Definition SubscriptionStatus_Success : Z := 1.
Definition OrderbookTypeAll : Z := 3.
