(* ===== verification/TInvestMarketData.v ===== *)
(** * Market data: [crates/vox-tinvest/src/market_data.rs]

    Where the provider's market-data messages enter: the facts the adapter keeps of them,
    with exact prices and times in nanoseconds; the plan of requests for a candle history
    and the merge of their answers; and the registry of stream subscriptions, which is what
    the adapter wants and what the provider has confirmed.

    [Uuid::parse_str] is the class of [ConnectionModel].  A [BTreeMap] is a finite map, and
    where its order can be seen the keys are sorted by the derived order. *)
From stdpp Require Import gmap strings sorting.
From S2P Require Import Prelude ConnectionModel Money TInvestWire TInvestMarketWire.

Definition MAX_LIMITED_SUBSCRIPTIONS : Z := 300.
Definition MAX_SUBSCRIPTION_REQUESTS_PER_MINUTE : Z := 100.
Definition MIN_PING_DELAY_MS : Z := 5000.
Definition MAX_PING_DELAY_MS : Z := 180000.
Definition DEFAULT_PING_DELAY_MS : Z := 120000.

(** ** Facts *)

Record CanonicalCandle := {
  cc_instrument_uid : string;
  cc_figi : string;
  cc_ticker : string;
  cc_class_code : string;
  cc_interval : Z;
  cc_open : FixedPoint;
  cc_high : FixedPoint;
  cc_low : FixedPoint;
  cc_close : FixedPoint;
  cc_volume_lots : Z;
  cc_volume_buy_lots : Z;
  cc_volume_sell_lots : Z;
  cc_event_time_ns : Z;
  cc_last_trade_time_ns : option Z;
  cc_candle_source : Z;
  cc_is_complete : option bool;
}.

Record CanonicalTrade := {
  ct_instrument_uid : string;
  ct_figi : string;
  ct_ticker : string;
  ct_class_code : string;
  ct_direction : Z;
  ct_price : FixedPoint;
  ct_quantity_lots : Z;
  ct_event_time_ns : Z;
  ct_trade_source : Z;
}.

Record CanonicalLastPrice := {
  cl_instrument_uid : string;
  cl_figi : string;
  cl_ticker : string;
  cl_class_code : string;
  cl_price : FixedPoint;
  cl_event_time_ns : Z;
  cl_last_price_type : Z;
}.

Record CanonicalTradingStatus := {
  cs_instrument_uid : string;
  cs_figi : string;
  cs_ticker : string;
  cs_class_code : string;
  cs_status : Z;
  cs_event_time_ns : Z;
  cs_limit_order_available : bool;
  cs_market_order_available : bool;
}.

Record CanonicalOpenInterest := {
  coi_instrument_uid : string;
  coi_ticker : string;
  coi_class_code : string;
  coi_value : Z;
  coi_event_time_ns : Z;
}.

Record CanonicalBookLevel := { cbl_price : FixedPoint; cbl_quantity_lots : Z }.

Record CanonicalOrderBook := {
  cob_instrument_uid : string;
  cob_figi : string;
  cob_ticker : string;
  cob_class_code : string;
  cob_depth : Z;
  cob_bids : list CanonicalBookLevel;
  cob_asks : list CanonicalBookLevel;
  cob_event_time_ns : Z;
  cob_is_consistent : bool;
  cob_order_book_type : Z;
}.

Record CanonicalUnaryOrderBook := {
  cub_instrument_uid : string;
  cub_figi : string;
  cub_ticker : string;
  cub_class_code : string;
  cub_depth : Z;
  cub_bids : list CanonicalBookLevel;
  cub_asks : list CanonicalBookLevel;
  cub_last_price : option FixedPoint;
  cub_close_price : option FixedPoint;
  cub_limit_up : option FixedPoint;
  cub_limit_down : option FixedPoint;
  cub_last_price_time_ns : option Z;
  cub_close_price_time_ns : option Z;
  cub_orderbook_time_ns : option Z;
}.

Record CanonicalTradingStatusFact := {
  ctf_instrument_uid : string;
  ctf_figi : string;
  ctf_ticker : string;
  ctf_class_code : string;
  ctf_status : Z;
  ctf_limit_order_available : bool;
  ctf_market_order_available : bool;
  ctf_api_trade_available : bool;
  ctf_bestprice_order_available : bool;
  ctf_only_best_price : bool;
}.

Record CanonicalClosePrice := {
  ccp_instrument_uid : string;
  ccp_figi : string;
  ccp_ticker : string;
  ccp_class_code : string;
  ccp_price : option FixedPoint;
  ccp_evening_session_price : option FixedPoint;
  ccp_time_ns : option Z;
  ccp_evening_session_time_ns : option Z;
}.

Record CanonicalTechAnalysisValue := {
  cta_timestamp_ns : Z;
  cta_middle_band : option FixedPoint;
  cta_upper_band : option FixedPoint;
  cta_lower_band : option FixedPoint;
  cta_signal : option FixedPoint;
  cta_macd : option FixedPoint;
}.

Record CanonicalMarketValue := { cmv_value_type : option Z; cmv_value : option FixedPoint; cmv_time_ns : option Z }.

Record CanonicalMarketValueInstrument := {
  cmi_instrument_uid : string;
  cmi_ticker : string;
  cmi_class_code : string;
  cmi_values : list CanonicalMarketValue;
}.

Inductive SubscriptionFamily := FamilyCandle | FamilyOrderBook | FamilyTrade | FamilyInfo | FamilyLastPrice.

Inductive MarketDataError :=
| Missing (field : string)
| DecimalError (field : string) (source : FixedPointError)
| TimestampError (field : string)
| NonPositive (field : string)
| LotOverflow
| InconsistentOrderBook
| UnsupportedCandleInterval (interval : Z)
| InvalidHistoryRange
| ConflictingHistoricalCandle (timestamp_ns : Z)
| EmptyInstrumentId
| InvalidOrderBookDepth
| SubscriptionLimit
| InvalidPingDelay
| UnknownAcknowledgement
| UnexpectedAcknowledgementAction (action : Z)
| UnexpectedSubscriptionResponse
| InvalidAcknowledgementIdentity
| InvalidActiveSnapshotIdentity
| SubscriptionRejected (family : SubscriptionFamily) (instrument_uid : string) (provider_status : Z) (tracking_id : string).

Notation market A := (result MarketDataError A).

Definition require_authoritative (self : CanonicalOrderBook) : market () :=
  if cob_is_consistent self then Ok tt else Err InconsistentOrderBook.

Inductive MarketDataRequestError := CandleSourceWithLimit.

Definition request_error_code (self : MarketDataRequestError) : Z := match self with CandleSourceWithLimit => 30220 end.

Definition validate_get_candles_request (request : GetCandlesRequest) : result MarketDataRequestError () :=
  if bool_decide (is_Some (gcq_limit request)) && bool_decide (is_Some (gcq_candle_source_type request))
  then Err CandleSourceWithLimit else Ok tt.

(** ** Decoding *)

Definition quotation (value : option Quotation) (field : string) : market FixedPoint :=
  let? value := ok_or value (Missing field) in
  map_err (DecimalError field) (from_units_nano (q_units value) (q_nano value)).

Definition optional_quotation (value : option Quotation) (field : string) : market (option FixedPoint) :=
  transpose ((λ value, map_err (DecimalError field) (from_units_nano (q_units value) (q_nano value))) <$> value).

Definition timestamp_ns (value : option Timestamp) (field : string) : market Z :=
  let? value := ok_or value (Missing field) in
  if negb ((0 <=? ts_seconds value) && (ts_seconds value <=? 253402300799))
     || negb ((0 <=? ts_nanos value) && (ts_nanos value <? 1000000000))
  then Err (TimestampError field)
  else ok_or (base ← checked_mul U64 (ts_seconds value) 1000000000; checked_add U64 base (ts_nanos value))
         (TimestampError field).

Definition optional_timestamp_ns (value : option Timestamp) (field : string) : market (option Z) :=
  transpose ((λ value, timestamp_ns (Some value) field) <$> value).

Definition lots_to_units (lots lot_size : Z) : market Z :=
  if lots <=? 0 then Err (NonPositive "lots")
  else if lot_size =? 0 then Err (NonPositive "lot_size")
  else ok_or (checked_mul U64 lots lot_size) LotOverflow.

(** [is_empty] of the identity. *)
Definition identified (instrument_uid field : string) : market () :=
  if bool_decide (instrument_uid = ""%string) then Err (Missing field) else Ok tt.

Definition trade_try_from (value : TradeMessage) : market CanonicalTrade :=
  let? _ := identified (tm_instrument_uid value) "trade.instrument_uid" in
  if tm_quantity value <=? 0 then Err (NonPositive "trade.quantity")
  else
    let? price := quotation (tm_price value) "trade.price" in
    let? time := timestamp_ns (tm_time value) "trade.time" in
    Ok {| ct_instrument_uid := tm_instrument_uid value; ct_figi := tm_figi value; ct_ticker := tm_ticker value;
          ct_class_code := tm_class_code value; ct_direction := tm_direction value; ct_price := price;
          ct_quantity_lots := tm_quantity value; ct_event_time_ns := time; ct_trade_source := tm_trade_source value |}.

Definition last_price_try_from (value : LastPriceMessage) : market CanonicalLastPrice :=
  let? _ := identified (lm_instrument_uid value) "last_price.instrument_uid" in
  let? price := quotation (lm_price value) "last_price.price" in
  let? time := timestamp_ns (lm_time value) "last_price.time" in
  Ok {| cl_instrument_uid := lm_instrument_uid value; cl_figi := lm_figi value; cl_ticker := lm_ticker value;
        cl_class_code := lm_class_code value; cl_price := price; cl_event_time_ns := time;
        cl_last_price_type := lm_last_price_type value |}.

Definition trading_status_try_from (value : TradingStatusMessage) : market CanonicalTradingStatus :=
  let? _ := identified (sm_instrument_uid value) "trading_status.instrument_uid" in
  let? time := timestamp_ns (sm_time value) "trading_status.time" in
  Ok {| cs_instrument_uid := sm_instrument_uid value; cs_figi := sm_figi value; cs_ticker := sm_ticker value;
        cs_class_code := sm_class_code value; cs_status := sm_trading_status value; cs_event_time_ns := time;
        cs_limit_order_available := sm_limit_order_available_flag value;
        cs_market_order_available := sm_market_order_available_flag value |}.

Definition open_interest_try_from (value : OpenInterestMessage) : market CanonicalOpenInterest :=
  let? _ := identified (om_instrument_uid value) "open_interest.instrument_uid" in
  let? time := timestamp_ns (om_time value) "open_interest.time" in
  Ok {| coi_instrument_uid := om_instrument_uid value; coi_ticker := om_ticker value;
        coi_class_code := om_class_code value; coi_value := om_open_interest value; coi_event_time_ns := time |}.

Definition candle_try_from (value : CandleMessage) : market CanonicalCandle :=
  let? _ := identified (cm_instrument_uid value) "candle.instrument_uid" in
  if (cm_volume value <? 0) || (cm_volume_buy value <? 0) || (cm_volume_sell value <? 0)
  then Err (NonPositive "candle.volume")
  else
    let? last_trade := optional_timestamp_ns (cm_last_trade_ts value) "candle.last_trade_ts" in
    let? o := quotation (cm_open value) "candle.open" in
    let? h := quotation (cm_high value) "candle.high" in
    let? l := quotation (cm_low value) "candle.low" in
    let? c := quotation (cm_close value) "candle.close" in
    let? time := timestamp_ns (cm_time value) "candle.time" in
    Ok {| cc_instrument_uid := cm_instrument_uid value; cc_figi := cm_figi value; cc_ticker := cm_ticker value;
          cc_class_code := cm_class_code value; cc_interval := cm_interval value; cc_open := o; cc_high := h;
          cc_low := l; cc_close := c; cc_volume_lots := cm_volume value; cc_volume_buy_lots := cm_volume_buy value;
          cc_volume_sell_lots := cm_volume_sell value; cc_event_time_ns := time;
          cc_last_trade_time_ns := last_trade; cc_candle_source := cm_candle_source_type value;
          cc_is_complete := None |}.

Definition from_historic (value : HistoricCandle) (instrument_uid : string) (interval : Z) : market CanonicalCandle :=
  if bool_decide (instrument_uid = ""%string) then Err EmptyInstrumentId
  else if (hc_volume value <? 0) || (hc_volume_buy value <? 0) || (hc_volume_sell value <? 0)
  then Err (NonPositive "candle.volume")
  else
    let? o := quotation (hc_open value) "candle.open" in
    let? h := quotation (hc_high value) "candle.high" in
    let? l := quotation (hc_low value) "candle.low" in
    let? c := quotation (hc_close value) "candle.close" in
    let? time := timestamp_ns (hc_time value) "candle.time" in
    Ok {| cc_instrument_uid := instrument_uid; cc_figi := ""; cc_ticker := ""; cc_class_code := "";
          cc_interval := interval; cc_open := o; cc_high := h; cc_low := l; cc_close := c;
          cc_volume_lots := hc_volume value; cc_volume_buy_lots := hc_volume_buy value;
          cc_volume_sell_lots := hc_volume_sell value; cc_event_time_ns := time; cc_last_trade_time_ns := None;
          cc_candle_source := hc_candle_source value; cc_is_complete := Some (hc_is_complete value) |}.

Definition level (field : string) (value : OrderLevel) : market CanonicalBookLevel :=
  if ol_quantity value <=? 0 then Err (NonPositive field)
  else
    let? price := quotation (ol_price value) field in
    Ok {| cbl_price := price; cbl_quantity_lots := ol_quantity value |}.

Definition levels (values : list OrderLevel) (field : string) : market (list CanonicalBookLevel) :=
  collect (level field) values.

Definition order_book_try_from (value : OrderBookMessage) : market CanonicalOrderBook :=
  let? _ := identified (bm_instrument_uid value) "orderbook.instrument_uid" in
  let? bids := levels (bm_bids value) "orderbook.bid" in
  let? asks := levels (bm_asks value) "orderbook.ask" in
  let? time := timestamp_ns (bm_time value) "orderbook.time" in
  Ok {| cob_instrument_uid := bm_instrument_uid value; cob_figi := bm_figi value; cob_ticker := bm_ticker value;
        cob_class_code := bm_class_code value; cob_depth := bm_depth value; cob_bids := bids; cob_asks := asks;
        cob_event_time_ns := time; cob_is_consistent := bm_is_consistent value;
        cob_order_book_type := bm_order_book_type value |}.

Definition unary_order_book_try_from (value : GetOrderBookResponse) : market CanonicalUnaryOrderBook :=
  let? _ := identified (gob_instrument_uid value) "orderbook.instrument_uid" in
  let? bids := levels (gob_bids value) "orderbook.bid" in
  let? asks := levels (gob_asks value) "orderbook.ask" in
  let? last := optional_quotation (gob_last_price value) "orderbook.last_price" in
  let? close := optional_quotation (gob_close_price value) "orderbook.close_price" in
  let? up := optional_quotation (gob_limit_up value) "orderbook.limit_up" in
  let? down := optional_quotation (gob_limit_down value) "orderbook.limit_down" in
  let? last_time := optional_timestamp_ns (gob_last_price_ts value) "orderbook.last_price_ts" in
  let? close_time := optional_timestamp_ns (gob_close_price_ts value) "orderbook.close_price_ts" in
  let? time := optional_timestamp_ns (gob_orderbook_ts value) "orderbook.orderbook_ts" in
  Ok {| cub_instrument_uid := gob_instrument_uid value; cub_figi := gob_figi value; cub_ticker := gob_ticker value;
        cub_class_code := gob_class_code value; cub_depth := gob_depth value; cub_bids := bids; cub_asks := asks;
        cub_last_price := last; cub_close_price := close; cub_limit_up := up; cub_limit_down := down;
        cub_last_price_time_ns := last_time; cub_close_price_time_ns := close_time; cub_orderbook_time_ns := time |}.

Definition trading_status_fact_try_from (value : TradingStatusAnswer) : market CanonicalTradingStatusFact :=
  let? _ := identified (gts_instrument_uid value) "trading_status.instrument_uid" in
  Ok {| ctf_instrument_uid := gts_instrument_uid value; ctf_figi := gts_figi value; ctf_ticker := gts_ticker value;
        ctf_class_code := gts_class_code value; ctf_status := gts_trading_status value;
        ctf_limit_order_available := gts_limit_order_available_flag value;
        ctf_market_order_available := gts_market_order_available_flag value;
        ctf_api_trade_available := gts_api_trade_available_flag value;
        ctf_bestprice_order_available := gts_bestprice_order_available_flag value;
        ctf_only_best_price := gts_only_best_price value |}.

Definition close_price_try_from (value : InstrumentClosePriceResponse) : market CanonicalClosePrice :=
  let? _ := identified (icp_instrument_uid value) "close_price.instrument_uid" in
  let? price := optional_quotation (icp_price value) "close_price.price" in
  let? evening := optional_quotation (icp_evening_session_price value) "close_price.evening_session_price" in
  let? time := optional_timestamp_ns (icp_time value) "close_price.time" in
  let? evening_time := optional_timestamp_ns (icp_evening_session_price_time value) "close_price.evening_session_price_time" in
  Ok {| ccp_instrument_uid := icp_instrument_uid value; ccp_figi := icp_figi value; ccp_ticker := icp_ticker value;
        ccp_class_code := icp_class_code value; ccp_price := price; ccp_evening_session_price := evening;
        ccp_time_ns := time; ccp_evening_session_time_ns := evening_time |}.

Definition tech_analysis_try_from (value : TechAnalysisItem) : market CanonicalTechAnalysisValue :=
  let? time := timestamp_ns (tai_timestamp value) "technical_analysis.timestamp" in
  let? middle := optional_quotation (tai_middle_band value) "technical_analysis.middle_band" in
  let? upper := optional_quotation (tai_upper_band value) "technical_analysis.upper_band" in
  let? lower := optional_quotation (tai_lower_band value) "technical_analysis.lower_band" in
  let? signal := optional_quotation (tai_signal value) "technical_analysis.signal" in
  let? macd := optional_quotation (tai_macd value) "technical_analysis.macd" in
  Ok {| cta_timestamp_ns := time; cta_middle_band := middle; cta_upper_band := upper; cta_lower_band := lower;
        cta_signal := signal; cta_macd := macd |}.

Definition market_value_try_from (value : MarketValue) : market CanonicalMarketValue :=
  let? v := optional_quotation (mvl_value value) "market_value.value" in
  let? time := optional_timestamp_ns (mvl_time value) "market_value.time" in
  Ok {| cmv_value_type := mvl_type value; cmv_value := v; cmv_time_ns := time |}.

Definition market_value_instrument_try_from (value : MarketValueInstrument) : market CanonicalMarketValueInstrument :=
  let? _ := identified (mvi_instrument_uid value) "market_value.instrument_uid" in
  let? values := collect market_value_try_from (mvi_values value) in
  Ok {| cmi_instrument_uid := mvi_instrument_uid value; cmi_ticker := mvi_ticker value;
        cmi_class_code := mvi_class_code value; cmi_values := values |}.

(** ** The derived trade identity *)

(** FNV-1a of 128 bits. *)
Definition FNV_OFFSET : Z := 0x6c62272e07bb014262b821756295c58d.
Definition FNV_PRIME : Z := 0x0000000001000000000000000000013b.

Definition wrapping_mul_u128 (a b : Z) : Z := (a * b) mod (2 ^ 128).
Definition feed_byte (hash byte : Z) : Z := wrapping_mul_u128 (Z.lxor hash byte) FNV_PRIME.
Definition feed (hash : Z) (bytes : list Z) : Z := feed_byte (foldl feed_byte hash bytes) 0xff.

Fixpoint as_bytes (s : string) : list Z :=
  match s with EmptyString => [] | String c s => Z.of_N (byte_of c) :: as_bytes s end.

(** [to_le_bytes] of an integer of [n] bytes, two's complement. *)
Fixpoint to_le_bytes (n : nat) (z : Z) : list Z :=
  match n with
  | O => []
  | S n => z mod 256 :: to_le_bytes n (z / 256)
  end.

Definition hex_lower (n : Z) : Ascii.ascii := Ascii.ascii_of_N (Z.to_N (if n <? 10 then 48 + n else 87 + n)).

(** [{hash:0nx}] of a number of at most [n] digits. *)
Fixpoint hex_padded (n : nat) (z : Z) (suffix : string) : string :=
  match n with
  | O => suffix
  | S n => hex_padded n (z / 16) (String (hex_lower (z mod 16)) suffix)
  end.

Definition derived_trade_hash (trade : CanonicalTrade) : Z :=
  foldl feed FNV_OFFSET
    [as_bytes (ct_instrument_uid trade); as_bytes (ct_figi trade); as_bytes (ct_ticker trade);
     as_bytes (ct_class_code trade); to_le_bytes 4 (ct_direction trade);
     to_le_bytes 16 (total_nanos (ct_price trade)); to_le_bytes 8 (ct_quantity_lots trade);
     to_le_bytes 8 (ct_event_time_ns trade); to_le_bytes 4 (ct_trade_source trade)].

Definition derived_trade_compatibility_id (trade : CanonicalTrade) : string :=
  "TI-" +:+ hex_padded 32 (derived_trade_hash trade) "".

(** ** Candle history *)

Record CandleRequestConstraint := { cr_max_span_seconds : Z; cr_max_limit : Z }.

Definition DAY : Z := 86400.

Definition candle_request_constraint (interval : Z) : market CandleRequestConstraint :=
  let allow span limit := Ok {| cr_max_span_seconds := span; cr_max_limit := limit |} in
  match interval with
  | 1 => allow DAY 2400
  | 2 => allow (7 * DAY) 2400
  | 3 => allow (21 * DAY) 2400
  | 4 => allow (92 * DAY) 2400
  | 5 => allow (366 * DAY) 2400
  | 6 => allow DAY 1200
  | 7 => allow DAY 750
  | 8 => allow (7 * DAY) 1200
  | 9 => allow (21 * DAY) 1200
  | 10 => allow (92 * DAY) 2400
  | 11 => allow (92 * DAY) 700
  | 12 => allow (366 * DAY) 300
  | 13 => allow (366 * DAY) 120
  | 14 => allow (200 * 60) 2500
  | 15 => allow (200 * 60) 1250
  | 16 => allow (20 * 60 * 60) 2500
  | other => Err (UnsupportedCandleInterval other)
  end.

Record HistoryWindow := { hw_from_seconds : Z; hw_to_seconds : Z; hw_limit : Z }.

(** The loop of [plan_candle_history]; [fuel] bounds the number of windows. *)
Fixpoint history_windows (fuel : nat) (constraint : CandleRequestConstraint) (cursor to_seconds : Z) : list HistoryWindow :=
  match fuel with
  | O => []
  | S fuel =>
      if cursor <? to_seconds then
        let stop := Z.min (default (int_max I64) (checked_add I64 cursor (cr_max_span_seconds constraint))) to_seconds in
        {| hw_from_seconds := cursor; hw_to_seconds := stop; hw_limit := cr_max_limit constraint |}
        :: history_windows fuel constraint stop to_seconds
      else []
  end.

Definition plan_candle_history (from_seconds to_seconds interval : Z) : market (list HistoryWindow) :=
  if to_seconds <=? from_seconds then Err InvalidHistoryRange
  else
    let? constraint := candle_request_constraint interval in
    Ok (history_windows (Z.to_nat ((to_seconds - from_seconds) / cr_max_span_seconds constraint + 1))
          constraint from_seconds to_seconds).

Definition keyed_candle (candle : HistoricCandle) : market (Z * HistoricCandle) :=
  let? time := timestamp_ns (hc_time candle) "candle.time" in Ok (time, candle).

Definition merge_candle (merged : list (Z * HistoricCandle)) (keyed : Z * HistoricCandle)
  : market (list (Z * HistoricCandle)) :=
  match last merged with
  | Some (previous_time, previous) =>
      if previous_time =? keyed.1 then
        if bool_decide (previous = keyed.2) then Ok merged else Err (ConflictingHistoricalCandle keyed.1)
      else Ok (merged ++ [keyed])
  | None => Ok (merged ++ [keyed])
  end.

Definition merge_historic_candles (chunks : list (list HistoricCandle)) : market (list HistoricCandle) :=
  let? keyed := collect keyed_candle (concat chunks) in
  let? merged := try_fold merge_candle [] (order_by (λ a b, a.1 <=? b.1) keyed) in
  Ok (snd <$> merged).

(** ** Subscriptions *)

Inductive SubscriptionKind :=
| CandleKind (interval : Z) (waiting_close : bool) (source : option Z)
| OrderBookKind (depth order_book_type : Z)
| TradeKind (source : Z) (with_open_interest : bool)
| InfoKind
| LastPriceKind.

Record MarketSubscription := { ms_instrument_id : string; ms_kind : SubscriptionKind }.

#[export] Instance SubscriptionKind_eq_dec : EqDecision SubscriptionKind.
Proof. solve_decision. Defined.
#[export] Instance MarketSubscription_eq_dec : EqDecision MarketSubscription.
Proof. solve_decision. Defined.
#[export] Instance SubscriptionFamily_eq_dec : EqDecision SubscriptionFamily.
Proof. solve_decision. Defined.

#[export] Instance SubscriptionKind_countable : Countable SubscriptionKind.
Proof.
  refine (inj_countable'
    (λ k, match k with
          | CandleKind i w s => inl (inl (i, w, s))
          | OrderBookKind d t => inl (inr (d, t))
          | TradeKind s w => inr (inl (s, w))
          | InfoKind => inr (inr false)
          | LastPriceKind => inr (inr true)
          end)
    (λ c, match c with
          | inl (inl (i, w, s)) => CandleKind i w s
          | inl (inr (d, t)) => OrderBookKind d t
          | inr (inl (s, w)) => TradeKind s w
          | inr (inr false) => InfoKind
          | inr (inr true) => LastPriceKind
          end) _).
  by intros [].
Defined.
#[export] Instance MarketSubscription_countable : Countable MarketSubscription.
Proof.
  refine (inj_countable' (λ s, (ms_instrument_id s, ms_kind s))
            (λ p, {| ms_instrument_id := p.1; ms_kind := p.2 |}) _).
  by intros [].
Defined.

(** The derived [Ord]: the variant, then its fields; [None] and [false] come first. *)
Definition kind_rank (kind : SubscriptionKind) : list Z :=
  match kind with
  | CandleKind interval waiting_close source =>
      [0; interval; Z.b2z waiting_close] ++ match source with None => [0] | Some s => [1; s] end
  | OrderBookKind depth order_book_type => [1; depth; order_book_type]
  | TradeKind source with_open_interest => [2; source; Z.b2z with_open_interest]
  | InfoKind => [3]
  | LastPriceKind => [4]
  end.

Fixpoint rank_le (a b : list Z) : bool :=
  match a, b with
  | [], _ => true
  | _ :: _, [] => false
  | x :: a, y :: b => (x <? y) || (x =? y) && rank_le a b
  end.

Definition kind_le (a b : SubscriptionKind) : bool := rank_le (kind_rank a) (kind_rank b).
Definition subscription_le (a b : MarketSubscription) : bool :=
  match String.compare (ms_instrument_id a) (ms_instrument_id b) with
  | Lt => true
  | Eq => kind_le (ms_kind a) (ms_kind b)
  | Gt => false
  end.

Inductive SubscriptionCommand := Subscribe | Unsubscribe.

Definition wire_action (self : SubscriptionCommand) : Z :=
  match self with
  | Subscribe => as_i32 SubscriptionAction_Subscribe
  | Unsubscribe => as_i32 SubscriptionAction_Unsubscribe
  end.

Record SubscriptionAcknowledgement := {
  sa_subscription : MarketSubscription;
  sa_family : SubscriptionFamily;
  sa_instrument_uid : string;
  sa_provider_status : Z;
  sa_provider_action : Z;
  sa_tracking_id : string;
  sa_stream_id : string;
  sa_subscription_id : string;
}.

Record ActiveSubscriptionSnapshot := {
  as_subscription : MarketSubscription;
  as_family : SubscriptionFamily;
  as_instrument_uid : string;
  as_provider_status : Z;
  as_tracking_id : string;
  as_stream_id : string;
  as_subscription_id : string;
}.

Inductive SubscriptionResponseContext := CommandContext (expected_action : Z) | ActiveSnapshotContext.

Record SubscriptionResponseFields := {
  sf_family : SubscriptionFamily;
  sf_tracking_id : string;
  sf_provider_status : Z;
  sf_provider_action : Z;
  sf_stream_id : string;
  sf_subscription_id : string;
}.

Inductive ConfirmationState :=
| Pending
| Confirmed (stream_id subscription_id : string)
| Rejected (provider_status : Z).

#[export] Instance ConfirmationState_eq_dec : EqDecision ConfirmationState.
Proof. solve_decision. Defined.

Record MarketSubscriptionRegistry := {
  mr_entries : gmap MarketSubscription ConfirmationState;
  mr_authoritative_books : gset string;
}.

Definition registry_default : MarketSubscriptionRegistry := {| mr_entries := ∅; mr_authoritative_books := ∅ |}.

Definition put_entries (entries : gmap MarketSubscription ConfirmationState) (self : MarketSubscriptionRegistry)
  : MarketSubscriptionRegistry := {| mr_entries := entries; mr_authoritative_books := mr_authoritative_books self |}.
Definition put_books (books : gset string) (self : MarketSubscriptionRegistry) : MarketSubscriptionRegistry := {|
  mr_entries := mr_entries self; mr_authoritative_books := books |}.

(** The keys in the order of the map. *)
Definition desired (self : MarketSubscriptionRegistry) : list MarketSubscription :=
  merge_sort (λ a b, Is_true (subscription_le a b)) ((map_to_list (mr_entries self)).*1).

Definition limited (kind : SubscriptionKind) : bool :=
  match kind with CandleKind _ _ _ | OrderBookKind _ _ | TradeKind _ _ => true | InfoKind | LastPriceKind => false end.

Definition validate_subscription (subscription : MarketSubscription) : market () :=
  if is_blank (ms_instrument_id subscription) then Err EmptyInstrumentId
  else
    match ms_kind subscription with
    | CandleKind interval _ _ =>
        if negb ((1 <=? interval) && (interval <=? 13)) then Err (UnsupportedCandleInterval interval) else Ok tt
    | OrderBookKind depth _ =>
        if bool_decide (depth ∈ [1; 10; 20; 30; 40; 50]) then Ok tt else Err InvalidOrderBookDepth
    | _ => Ok tt
    end.

Definition canonicalize_provider_defaults (kind : SubscriptionKind) : SubscriptionKind :=
  match kind with
  | CandleKind interval waiting_close (Some 0) => CandleKind interval waiting_close None
  | OrderBookKind depth 0 => OrderBookKind depth OrderbookTypeAll
  | kind => kind
  end.

Definition market_insert (subscription : MarketSubscription) : st MarketSubscriptionRegistry MarketDataError () := λ self,
  let subscription := {| ms_instrument_id := ms_instrument_id subscription;
                         ms_kind := canonicalize_provider_defaults (ms_kind subscription) |} in
  match validate_subscription subscription with
  | Err e => (self, Err e)
  | Ok _ =>
      let adding_limited := limited (ms_kind subscription) && bool_decide (mr_entries self !! subscription = None) in
      let count := Z.of_nat (length (List.filter (λ s, limited (ms_kind s)) (desired self))) in
      if adding_limited && (MAX_LIMITED_SUBSCRIPTIONS <=? count) then (self, Err SubscriptionLimit)
      else (put_entries (<[subscription := Pending]> (mr_entries self)) self, Ok tt)
  end.

Definition entry_state (self : MarketSubscriptionRegistry) (subscription : MarketSubscription) : option ConfirmationState :=
  mr_entries self !! subscription.

Definition same_event_family (left right : SubscriptionKind) : bool :=
  match left, right with
  | CandleKind _ _ _, CandleKind _ _ _ | OrderBookKind _ _, OrderBookKind _ _ | TradeKind _ _, TradeKind _ _
  | InfoKind, InfoKind | LastPriceKind, LastPriceKind => true
  | _, _ => false
  end.

Definition accepts_event_before_ack (self : MarketSubscriptionRegistry) (instrument_id : string) (kind : SubscriptionKind)
  : bool :=
  existsb (λ s, bool_decide (ms_instrument_id s = instrument_id) && same_event_family (ms_kind s) kind) (desired self).

Definition observe_book (instrument_id : string) (is_consistent : bool) (self : MarketSubscriptionRegistry)
  : MarketSubscriptionRegistry :=
  put_books (if is_consistent then {[instrument_id]} ∪ mr_authoritative_books self
             else mr_authoritative_books self ∖ {[instrument_id]}) self.

Definition book_is_authoritative (self : MarketSubscriptionRegistry) (instrument_id : string) : bool :=
  bool_decide (instrument_id ∈ mr_authoritative_books self).

Definition disconnected (self : MarketSubscriptionRegistry) : MarketSubscriptionRegistry := {|
  mr_entries := (λ _, Pending) <$> mr_entries self; mr_authoritative_books := ∅ |}.

Definition all_confirmed (self : MarketSubscriptionRegistry) : bool :=
  negb (bool_decide (mr_entries self = ∅))
  && forallb (λ entry, match entry.2 with Confirmed _ _ => true | _ => false end) (map_to_list (mr_entries self)).

Section acknowledgements.
Context `{UF : !UuidFormat}.

Definition apply_subscription_status (subscription : MarketSubscription) (fields : SubscriptionResponseFields)
    (context : SubscriptionResponseContext) : st MarketSubscriptionRegistry MarketDataError SubscriptionAcknowledgement := λ self,
  let set state := put_entries (<[subscription := state]> (mr_entries self)) self in
  let acknowledgement := {|
    sa_subscription := subscription; sa_family := sf_family fields; sa_instrument_uid := ms_instrument_id subscription;
    sa_provider_status := sf_provider_status fields; sa_provider_action := sf_provider_action fields;
    sa_tracking_id := sf_tracking_id fields; sa_stream_id := sf_stream_id fields;
    sa_subscription_id := sf_subscription_id fields |} in
  match mr_entries self !! subscription with
  | None => (self, Err UnknownAcknowledgement)
  | Some state =>
      if negb (sf_provider_status fields =? SubscriptionStatus_Success) then
        (set (Rejected (sf_provider_status fields)),
         Err (SubscriptionRejected (sf_family fields) (ms_instrument_id subscription) (sf_provider_status fields)
                (sf_tracking_id fields)))
      else if match context with
              | CommandContext expected_action => negb (sf_provider_action fields =? expected_action)
              | ActiveSnapshotContext => false
              end then (self, Err (UnexpectedAcknowledgementAction (sf_provider_action fields)))
      else if bool_decide (sf_stream_id fields = ""%string) || negb (uuid_parses (sf_subscription_id fields))
      then (self, Err InvalidAcknowledgementIdentity)
      else
        match context with
        | ActiveSnapshotContext =>
            if bool_decide (state = Confirmed (sf_stream_id fields) (sf_subscription_id fields))
            then (self, Ok acknowledgement) else (self, Err InvalidActiveSnapshotIdentity)
        | CommandContext expected_action =>
            (set (if expected_action =? as_i32 SubscriptionAction_Subscribe
                  then Confirmed (sf_stream_id fields) (sf_subscription_id fields) else Pending), Ok acknowledgement)
        end
  end.

(** What a response reports: the subscription and the fields of each entry. *)
Definition response_entries (payload : option ResponsePayload) : list (MarketSubscription * SubscriptionResponseFields) :=
  let entry instrument_uid kind family tracking_id status action stream_id subscription_id :=
    ({| ms_instrument_id := instrument_uid; ms_kind := kind |},
     {| sf_family := family; sf_tracking_id := tracking_id; sf_provider_status := status; sf_provider_action := action;
        sf_stream_id := stream_id; sf_subscription_id := subscription_id |}) in
  match payload with
  | Some (SubscribeCandlesAnswer response) =>
      (λ a, entry (csb_instrument_uid a)
              (CandleKind (csb_interval a) (csb_waiting_close a) (csb_candle_source_type a)) FamilyCandle
              (scr_tracking_id response) (csb_subscription_status a) (csb_subscription_action a)
              (csb_stream_id a) (csb_subscription_id a)) <$> scr_candles_subscriptions response
  | Some (SubscribeOrderBookAnswer response) =>
      (λ a, entry (bsb_instrument_uid a) (OrderBookKind (bsb_depth a) (bsb_order_book_type a)) FamilyOrderBook
              (sbr_tracking_id response) (bsb_subscription_status a) (bsb_subscription_action a)
              (bsb_stream_id a) (bsb_subscription_id a)) <$> sbr_order_book_subscriptions response
  | Some (SubscribeTradesAnswer response) =>
      (λ a, entry (tsb_instrument_uid a) (TradeKind (str_trade_source response) (tsb_with_open_interest a)) FamilyTrade
              (str_tracking_id response) (tsb_subscription_status a) (tsb_subscription_action a)
              (tsb_stream_id a) (tsb_subscription_id a)) <$> str_trade_subscriptions response
  | Some (SubscribeInfoAnswer response) =>
      (λ a, entry (isb_instrument_uid a) InfoKind FamilyInfo
              (sir_tracking_id response) (isb_subscription_status a) (isb_subscription_action a)
              (isb_stream_id a) (isb_subscription_id a)) <$> sir_info_subscriptions response
  | Some (SubscribeLastPriceAnswer response) =>
      (λ a, entry (lsb_instrument_uid a) LastPriceKind FamilyLastPrice
              (slr_tracking_id response) (lsb_subscription_status a) (lsb_subscription_action a)
              (lsb_stream_id a) (lsb_subscription_id a)) <$> slr_last_price_subscriptions response
  | _ => []
  end.

(** The loop over the entries: what was applied before an error stays applied. *)
Fixpoint apply_entries (entries : list (MarketSubscription * SubscriptionResponseFields))
    (context : SubscriptionResponseContext)
  : st MarketSubscriptionRegistry MarketDataError (list SubscriptionAcknowledgement) :=
  match entries with
  | [] => st_ret []
  | (subscription, fields) :: entries =>
      let! acknowledgement := apply_subscription_status subscription fields context in
      let! applied := apply_entries entries context in
      st_ret (acknowledgement :: applied)
  end.

Definition apply_subscription_response (response : MarketDataResponse) (context : SubscriptionResponseContext)
  : st MarketSubscriptionRegistry MarketDataError (list SubscriptionAcknowledgement) :=
  apply_entries (response_entries (mdr_payload response)) context.

Definition apply_command_response (response : MarketDataResponse) (command : SubscriptionCommand)
  : st MarketSubscriptionRegistry MarketDataError (list SubscriptionAcknowledgement) :=
  apply_subscription_response response (CommandContext (wire_action command)).

Definition snapshot_of (a : SubscriptionAcknowledgement) : ActiveSubscriptionSnapshot := {|
  as_subscription := sa_subscription a; as_family := sa_family a; as_instrument_uid := sa_instrument_uid a;
  as_provider_status := sa_provider_status a; as_tracking_id := sa_tracking_id a; as_stream_id := sa_stream_id a;
  as_subscription_id := sa_subscription_id a |}.

Definition parse_active_snapshot_response (response : MarketDataResponse)
  : st MarketSubscriptionRegistry MarketDataError (list ActiveSubscriptionSnapshot) :=
  let! entries := apply_subscription_response response ActiveSnapshotContext in
  st_ret (snapshot_of <$> entries).
End acknowledgements.

(** ** Requests *)

(** [slice::chunks]. *)
Fixpoint chunks_from {A} (fuel : nat) (n : nat) (l : list A) : list (list A) :=
  match fuel, l with
  | O, _ | _, [] => []
  | S fuel, l => take n l :: chunks_from fuel n (drop n l)
  end.
Definition chunks {A} (n : nat) (l : list A) : list (list A) := chunks_from (length l) n l.

Definition group (groups : gmap SubscriptionKind (list string)) (entry : MarketSubscription)
  : gmap SubscriptionKind (list string) :=
  <[ms_kind entry := default [] (groups !! ms_kind entry) ++ [ms_instrument_id entry]]> groups.

Definition request_payload (kind : SubscriptionKind) (chunk : list string) : RequestPayload :=
  let action := as_i32 SubscriptionAction_Subscribe in
  match kind with
  | CandleKind interval waiting_close source =>
      SubscribeCandlesPayload {|
        scq_subscription_action := action;
        scq_instruments := (λ id, {| cin_figi := ""; cin_interval := interval; cin_instrument_id := id |}) <$> chunk;
        scq_waiting_close := waiting_close; scq_candle_source_type := source |}
  | OrderBookKind depth order_book_type =>
      SubscribeOrderBookPayload {|
        sbq_subscription_action := action;
        sbq_instruments := (λ id, {| bin_figi := ""; bin_depth := depth; bin_instrument_id := id;
                                     bin_order_book_type := order_book_type |}) <$> chunk |}
  | TradeKind source with_open_interest =>
      SubscribeTradesPayload {|
        stq_subscription_action := action;
        stq_instruments := (λ id, {| tin_figi := ""; tin_instrument_id := id |}) <$> chunk;
        stq_trade_source := source; stq_with_open_interest := with_open_interest |}
  | InfoKind =>
      SubscribeInfoPayload {|
        siq_subscription_action := action;
        siq_instruments := (λ id, {| iin_figi := ""; iin_instrument_id := id |}) <$> chunk |}
  | LastPriceKind =>
      SubscribeLastPricePayload {|
        slq_subscription_action := action;
        slq_instruments := (λ id, {| lin_figi := ""; lin_instrument_id := id |}) <$> chunk |}
  end.

Definition grouped (self : MarketSubscriptionRegistry) : list (SubscriptionKind * list string) :=
  merge_sort (λ a b, Is_true (kind_le a.1 b.1)) (map_to_list (foldl group ∅ (desired self))).

Definition subscribe_requests (self : MarketSubscriptionRegistry) : list MarketDataRequest :=
  g ← grouped self;
  chunk ← chunks (Z.to_nat MAX_LIMITED_SUBSCRIPTIONS) g.2;
  [{| mdq_payload := Some (request_payload g.1 chunk) |}].

Definition validate_ping_delay (delay_ms : Z) : market () :=
  if (MIN_PING_DELAY_MS <=? delay_ms) && (delay_ms <=? MAX_PING_DELAY_MS) then Ok tt else Err InvalidPingDelay.

Definition get_my_subscriptions_request : MarketDataRequest := {| mdq_payload := Some GetMySubscriptionsPayload |}.

(** ** Decoding is exact *)

Lemma quotation_exact value field p :
  quotation value field = Ok p →
  ∃ q, value = Some q ∧ total_nanos p = q_units q * NANO_SCALE + q_nano q ∧ -999999999 ≤ q_nano q ≤ 999999999.
Proof.
  unfold quotation. destruct value as [q|]; [|done]. simpl. intros H%map_err_Ok.
  unfold from_units_nano, UnitsNano_new, validate_nano in H. exists q. split; [done|].
  destruct (_ && _) eqn:Hn; [|done]. injection H as <-. simpl. unfold NANO_SCALE in *. lia.
Qed.

Lemma timestamp_ns_exact value field n :
  timestamp_ns value field = Ok n ↔
  ∃ t, value = Some t ∧ 0 ≤ ts_seconds t ≤ 253402300799 ∧ 0 ≤ ts_nanos t < 1000000000 ∧
    n = ts_seconds t * 1000000000 + ts_nanos t ∧ n ≤ int_max U64.
Proof.
  unfold timestamp_ns. destruct value as [t|]; simpl; [|naive_solver].
  destruct (_ || _) eqn:Hr.
  { split; [done|]. intros (t' & [= <-] & H). lia. }
  rewrite ok_or_Ok, bind_Some. unfold checked_mul, checked_add. setoid_rewrite checked_Some. split.
  - intros (base & [-> _] & -> & [_ Hn]). exists t. split_and!; try done; lia.
  - intros (t' & [= <-] & ? & ? & -> & ?). exists (ts_seconds t * 1000000000). unfold has_ty. simpl in *. split_and!; lia.
Qed.

(** ** The plan of a history covers it *)

(** The windows follow one another from [from] to [to], none longer than a request may ask
    for, and all but the last as long. *)
Fixpoint tiles (c : CandleRequestConstraint) (from to : Z) (windows : list HistoryWindow) : Prop :=
  match windows with
  | [] => from = to
  | w :: windows =>
      hw_from_seconds w = from ∧ from < hw_to_seconds w ∧ hw_limit w = cr_max_limit c ∧
      hw_to_seconds w = Z.min (from + cr_max_span_seconds c) to ∧ tiles c (hw_to_seconds w) to windows
  end.

(** What the provider's contract allows a request of an interval: a span by the size of its
    candles, and never more than a calendar year, and a number of candles. *)
Definition documented (interval : Z) : CandleRequestConstraint :=
  let week := 7 * DAY in let quarter := 92 * DAY in let year := 366 * DAY in
  let within longest := Z.min longest year in
  let '(longest, candles) :=
    match interval with
    | 1 => (DAY, 2400)
    | 2 => (week, 2400)
    | 3 => (3 * week, 2400)
    | 4 => (quarter, 2400)
    | 5 => (6 * year, 2400)
    | 6 => (DAY, 1200)
    | 7 => (DAY, 750)
    | 8 => (week, 1200)
    | 9 => (3 * week, 1200)
    | 10 => (quarter, 2400)
    | 11 => (quarter, 700)
    | 12 => (5 * year, 300)
    | 13 => (10 * year, 120)
    | 14 => (12000, 2500)
    | 15 => (12000, 1250)
    | _ => (72000, 2500)
    end in
  {| cr_max_span_seconds := within longest; cr_max_limit := candles |}.

Lemma history_windows_tile c fuel cursor to :
  0 < cr_max_span_seconds c → int_min I64 ≤ cursor ≤ to → to ≤ int_max I64 →
  to - cursor ≤ Z.of_nat fuel * cr_max_span_seconds c → tiles c cursor to (history_windows fuel c cursor to).
Proof.
  intros Hs. revert cursor. induction fuel as [|fuel IH]; intros cursor Hc Ht Hf; cbn [history_windows]; [simpl; lia|].
  destruct (Z.ltb_spec cursor to) as [Hlt|Hge]; cbn [tiles]; [|lia].
  cbn [hw_from_seconds hw_to_seconds hw_limit].
  assert (Z.min (default (int_max I64) (checked_add I64 cursor (cr_max_span_seconds c))) to
          = Z.min (cursor + cr_max_span_seconds c) to) as ->.
  { unfold checked_add. destruct (checked _ _) as [s|] eqn:Hk; simpl.
    - by apply checked_Some in Hk as [-> _].
    - apply checked_None in Hk. unfold has_ty in Hk. simpl in *. lia. }
  split_and!; try done; [lia|]. apply IH; simpl in *; lia.
Qed.

Lemma tiles_cover c from to windows t :
  tiles c from to windows → from ≤ t < to →
  ∃ w, w ∈ windows ∧ hw_from_seconds w ≤ t < hw_to_seconds w.
Proof.
  revert from. induction windows as [|w windows IH]; simpl; intros from; [lia|].
  intros (Hf & Hlt & _ & Hto & H) Ht. destruct (Z.ltb_spec t (hw_to_seconds w)).
  - exists w. split; [set_solver|lia].
  - destruct (IH _ H) as (w' & Hw & ?); [lia|]. exists w'. split; [set_solver|done].
Qed.

Lemma constraint_positive interval c :
  candle_request_constraint interval = Ok c → 1 ≤ interval ≤ 16 ∧ 0 < cr_max_span_seconds c.
Proof.
  unfold candle_request_constraint, DAY. destruct interval as [|p|]; try done.
  do 5 (try destruct p as [p|p|]; try done); intros [= <-]; simpl; lia.
Qed.

Lemma plan_tiles from to interval windows :
  has_ty I64 from → has_ty I64 to → plan_candle_history from to interval = Ok windows →
  from < to ∧ ∃ c, candle_request_constraint interval = Ok c ∧ tiles c from to windows.
Proof.
  unfold plan_candle_history, has_ty. intros Hf Ht. destruct (Z.leb_spec to from); [done|].
  destruct (candle_request_constraint interval) as [c|] eqn:Hc; [|done]. intros [= <-]. split; [done|].
  exists c. split; [done|]. pose proof (proj2 (constraint_positive _ _ Hc)) as Hs.
  apply history_windows_tile; [done|lia|lia|].
  pose proof (Z.div_pos (to - from) (cr_max_span_seconds c)). rewrite Z2Nat.id by lia.
  pose proof (Z.mul_succ_div_gt (to - from) (cr_max_span_seconds c)). lia.
Qed.

Lemma constraint_documented interval c : candle_request_constraint interval = Ok c → c = documented interval.
Proof.
  unfold candle_request_constraint. destruct interval as [|p|]; try done.
  do 5 (try destruct p as [p|p|]; try done); by intros [= <-].
Qed.

(** ** Merging keeps every candle *)

Definition in_time (a b : Z * HistoricCandle) : Prop := a.1 ≤ b.1.
Definition before (a b : Z * HistoricCandle) : Prop := a.1 < b.1.

Lemma insert_by_sorted x l :
  StronglySorted in_time l → StronglySorted in_time (insert_by (λ a b, a.1 <=? b.1) x l).
Proof.
  induction 1 as [|y l Hl IH Hy]; simpl; [by repeat constructor|].
  destruct (Z.leb_spec x.1 y.1) as [Hle|Hgt].
  - constructor; [by constructor|]. constructor; [done|]. eapply Forall_impl; [done|]. unfold in_time. lia.
  - constructor; [done|]. apply Forall_forall. intros z Hz. rewrite (insert_by_perm _ x l) in Hz.
    apply elem_of_cons in Hz as [->|Hz]; [unfold in_time; lia|]. rewrite Forall_forall in Hy. by apply Hy.
Qed.

Lemma order_by_time_sorted l : StronglySorted in_time (order_by (λ a b, a.1 <=? b.1) l).
Proof. induction l as [|x l IH]; simpl; [constructor|by apply insert_by_sorted]. Qed.

Lemma strictly_snoc merged x :
  StronglySorted before merged → (∀ y, last merged = Some y → y.1 < x.1) → StronglySorted before (merged ++ [x]).
Proof.
  intros Hs Hl. apply StronglySorted_app_2; [|done|by repeat constructor].
  intros y z Hy ->%list_elem_of_singleton.
  destruct merged as [|w merged _] using rev_ind; [by apply elem_of_nil in Hy|].
  rewrite last_snoc in Hl. specialize (Hl w eq_refl). unfold before.
  apply elem_of_app in Hy as [Hy| ->%list_elem_of_singleton]; [|done].
  pose proof (StronglySorted_app_1_elem_of _ _ _ y w Hs Hy ltac:(set_solver)) as Hyw. unfold before in Hyw. lia.
Qed.

Lemma merge_fold merged l :
  StronglySorted before merged → StronglySorted in_time l → (∀ x y, x ∈ merged → y ∈ l → x.1 ≤ y.1) →
  match try_fold merge_candle merged l with
  | Ok r => StronglySorted before r ∧ ∀ x, x ∈ r ↔ x ∈ merged ∨ x ∈ l
  | Err e => ∃ x y, x ∈ merged ++ l ∧ y ∈ merged ++ l ∧ x.1 = y.1 ∧ x ≠ y ∧ e = ConflictingHistoricalCandle x.1
  end.
Proof.
  intros Hm Hl. revert merged Hm. induction Hl as [|k l Hl IH Hk]; intros merged Hm Hle; simpl; [set_solver|].
  assert (∀ y, last merged = Some y → y ∈ merged) as Hin by (intros y; apply last_Some_elem_of).
  rewrite Forall_forall in Hk.
  assert (merge_candle merged k = Ok (merged ++ [k]) → (∀ y, last merged = Some y → y.1 < k.1) →
    match try_fold merge_candle (merged ++ [k]) l with
    | Ok r => StronglySorted before r ∧ ∀ x, x ∈ r ↔ x ∈ merged ∨ x ∈ k :: l
    | Err e => ∃ x y, x ∈ merged ++ k :: l ∧ y ∈ merged ++ k :: l ∧ x.1 = y.1 ∧ x ≠ y ∧ e = ConflictingHistoricalCandle x.1
    end) as Hpush.
  { intros _ Hlast. specialize (IH (merged ++ [k]) (strictly_snoc _ _ Hm Hlast)).
    rewrite <- app_assoc in IH. simpl in IH.
    destruct (try_fold _ _ _); [|apply IH].
    - destruct IH as [Hr Hx]; [|split; [done|]; intros x; rewrite Hx; set_solver].
      intros x y [Hx| ->%list_elem_of_singleton]%elem_of_app Hy; [apply Hle; set_solver|by apply Hk].
    - intros x y [Hx| ->%list_elem_of_singleton]%elem_of_app Hy; [apply Hle; set_solver|by apply Hk]. }
  unfold merge_candle at 1. destruct (last merged) as [[pt p]|] eqn:Hlast; simpl.
  2: { apply Hpush; [unfold merge_candle; by rewrite Hlast|done]. }
  pose proof (Hin _ eq_refl) as Hp. destruct (Z.eqb_spec pt k.1) as [Heq|Hne].
  - case_bool_decide as Hpk; simpl.
    + assert ((pt, p) = k) as Hk' by (destruct k; naive_solver).
      clear Hpush Hin. specialize (IH merged Hm). destruct (try_fold _ _ _).
      * destruct IH as [Hr Hx]; [intros; apply Hle; by rewrite ?elem_of_cons; auto|]. split; [done|].
        intros x. rewrite Hx, elem_of_cons, <- Hk'. split; [by intros [?|?]; auto|by intros [?|[->|?]]; auto].
      * destruct IH as (x & y & Hx & Hy & H); [intros; apply Hle; by rewrite ?elem_of_cons; auto|].
        exists x, y. rewrite !elem_of_app, !elem_of_cons in *. split_and!; [tauto|tauto|apply H..].
    + exists (pt, p), k. split_and!; [set_solver|set_solver|done| |by rewrite Heq]. intros <-. done.
  - apply Hpush.
    + unfold merge_candle. rewrite Hlast. by destruct (Z.eqb_spec pt k.1).
    + intros y [= <-]. pose proof (Hle _ k Hp ltac:(set_solver)). simpl in *. lia.
Qed.

(** ** A planned history is complete *)

(** The shortest time between two candles of an interval. *)
Definition interval_seconds (interval : Z) : Z :=
  match interval with
  | 1 => 60 | 2 => 300 | 3 => 900 | 4 => 3600 | 5 => DAY | 6 => 120 | 7 => 180 | 8 => 600 | 9 => 1800
  | 10 => 7200 | 11 => 14400 | 12 => 7 * DAY | 13 => 28 * DAY | 14 => 5 | 15 => 10 | _ => 30
  end.

Definition candle_time (c : HistoricCandle) : market Z := timestamp_ns (hc_time c) "candle.time".
Definition candle_ns (c : HistoricCandle) : Z := match candle_time c with Ok n => n | Err _ => 0 end.

Definition in_window (w : HistoryWindow) (c : HistoricCandle) : bool :=
  (hw_from_seconds w * 1000000000 <=? candle_ns c) && (candle_ns c <? hw_to_seconds w * 1000000000).

(** The candles of an instrument: distinct, with valid times an interval apart. *)
Record candle_series (interval : Z) (series : list HistoricCandle) : Prop := {
  se_distinct : NoDup series;
  se_timed c : c ∈ series → candle_time c = Ok (candle_ns c);
  se_spaced c c' : c ∈ series → c' ∈ series →
    c = c' ∨ interval_seconds interval * 1000000000 ≤ Z.abs (candle_ns c - candle_ns c');
}.

(** The provider answers a window with candles of the series, and with all of the window
    when they are not more than the limit of the request. *)
Record answers_windows (series : list HistoricCandle) (answer : HistoryWindow → list HistoricCandle) : Prop := {
  aw_only w c : c ∈ answer w → c ∈ series;
  aw_all w c : c ∈ series → in_window w c = true →
    Z.of_nat (length (List.filter (in_window w) series)) ≤ hw_limit w → c ∈ answer w;
}.

Lemma spaced_count d lo hi (l : list HistoricCandle) :
  0 < d → lo < hi → NoDup l → (∀ c c', c ∈ l → c' ∈ l → c = c' ∨ d ≤ Z.abs (candle_ns c - candle_ns c')) →
  (∀ c, c ∈ l → lo ≤ candle_ns c < hi) → Z.of_nat (length l) ≤ (hi - lo) / d + 2.
Proof.
  intros Hd Hlh Hn Hs Hr. set (q c := candle_ns c / d).
  assert (NoDup (q <$> l)) as Hq.
  { apply NoDup_fmap_2_strong; [|done]. intros c c' Hc Hc' Heq. destruct (Hs c c' Hc Hc') as [|Hfar]; [done|].
    unfold q in Heq. pose proof (Z.div_mod (candle_ns c) d). pose proof (Z.div_mod (candle_ns c') d).
    pose proof (Z.mod_pos_bound (candle_ns c) d). pose proof (Z.mod_pos_bound (candle_ns c') d). nia. }
  assert (lo / d ≤ (hi - 1) / d) by (apply Z.div_le_mono; lia).
  assert ((q <$> l) ⊆ seqZ (lo / d) ((hi - 1) / d - lo / d + 1)) as Hsub.
  { intros x (c & -> & Hc)%list_elem_of_fmap. apply elem_of_seqZ. unfold q. specialize (Hr c Hc).
    pose proof (Z.div_le_mono lo (candle_ns c) d). pose proof (Z.div_le_mono (candle_ns c) (hi - 1) d). lia. }
  pose proof (submseteq_length _ _ (NoDup_submseteq _ _ Hq Hsub)) as Hlen. rewrite length_fmap, length_seqZ in Hlen.
  pose proof (Z.div_mod lo d). pose proof (Z.div_mod (hi - 1) d). pose proof (Z.div_mod (hi - lo) d).
  pose proof (Z.mod_pos_bound lo d). pose proof (Z.mod_pos_bound (hi - 1) d). pose proof (Z.mod_pos_bound (hi - lo) d).
  assert ((hi - 1) / d - lo / d ≤ (hi - lo) / d + 1) by nia. lia.
Qed.

Lemma limit_suffices interval c :
  candle_request_constraint interval = Ok c →
  0 < interval_seconds interval ∧ cr_max_span_seconds c / interval_seconds interval + 2 ≤ cr_max_limit c.
Proof.
  unfold candle_request_constraint, interval_seconds, DAY. destruct interval as [|p|]; try done.
  do 5 (try destruct p as [p|p|]; try done); intros [= <-]; vm_compute; split; congruence.
Qed.

Lemma tiles_window c from to windows w :
  tiles c from to windows → w ∈ windows →
  hw_from_seconds w < hw_to_seconds w ≤ hw_from_seconds w + cr_max_span_seconds c ∧ hw_limit w = cr_max_limit c.
Proof.
  revert from. induction windows as [|x windows IH]; simpl; intros from; [by intros _ ?%elem_of_nil|].
  intros (Hf & Hlt & Hl & Hto & H) [->|Hw]%elem_of_cons; [split; [lia|done]|by eapply IH].
Qed.

Lemma window_answered interval c series answer w x :
  candle_request_constraint interval = Ok c → candle_series interval series → answers_windows series answer →
  hw_from_seconds w < hw_to_seconds w ≤ hw_from_seconds w + cr_max_span_seconds c → hw_limit w = cr_max_limit c →
  x ∈ series → in_window w x = true → x ∈ answer w.
Proof.
  intros Hc Hse Ha Hw Hl Hx Hin. apply (aw_all _ _ Ha); [done..|]. rewrite Hl.
  destruct (limit_suffices _ _ Hc) as [Hpos Hlim].
  assert (∀ y, y ∈ List.filter (in_window w) series ↔ y ∈ series ∧ in_window w y = true) as Hf by (intros; apply elem_of_filter_bool).
  etrans; [apply (spaced_count (interval_seconds interval * 1000000000) (hw_from_seconds w * 1000000000)
                    (hw_to_seconds w * 1000000000))|]; [lia|lia| | | |].
  - apply NoDup_ListNoDup, List.NoDup_filter, NoDup_ListNoDup, Hse.
  - intros y y' [Hy _]%Hf [Hy' _]%Hf. by apply Hse.
  - intros y [_ Hy]%Hf. unfold in_window in Hy. lia.
  - rewrite <- Z.mul_sub_distr_r, Z.div_mul_cancel_r by lia.
    pose proof (Z.div_le_mono (hw_to_seconds w - hw_from_seconds w) (cr_max_span_seconds c) (interval_seconds interval)). lia.
Qed.

Lemma merge_Ok interval series chunks :
  candle_series interval series → 0 < interval_seconds interval → (∀ c, c ∈ concat chunks → c ∈ series) →
  ∃ merged, merge_historic_candles chunks = Ok merged ∧
    StronglySorted (λ a b, candle_ns a < candle_ns b) merged ∧ ∀ c, c ∈ merged ↔ c ∈ concat chunks.
Proof.
  intros Hse Hpos Hin. unfold merge_historic_candles.
  assert (collect keyed_candle (concat chunks) = Ok ((λ c, (candle_ns c, c)) <$> concat chunks)) as ->.
  { revert Hin. generalize (concat chunks). intros l. induction l as [|c l IH]; intros Hin; [done|]. simpl.
    unfold keyed_candle at 1. fold (candle_time c). pose proof (se_timed _ _ Hse c ltac:(set_solver)) as ->.
    rewrite IH by set_solver. done. }
  cbv beta iota zeta. set (l := order_by _ _). assert (∀ x, x ∈ l ↔ ∃ c, x = (candle_ns c, c) ∧ c ∈ concat chunks) as Hl.
  { intros x. subst l. rewrite order_by_perm, list_elem_of_fmap. done. }
  pose proof (merge_fold [] l ltac:(constructor) (order_by_time_sorted _) ltac:(set_solver)) as Hm.
  destruct (try_fold merge_candle [] l) as [merged|e].
  - destruct Hm as [Hs Hx]. exists (snd <$> merged). split; [done|].
    assert (∀ x, x ∈ merged → x.1 = candle_ns x.2 ∧ x.2 ∈ concat chunks) as Hkey.
    { intros x [?%elem_of_nil|(c & -> & Hc)%Hl]%Hx; done. }
    split.
    + clear Hx Hl l. induction Hs as [|x merged Hs IH Hb]; simpl; [constructor|].
      constructor; [apply IH; set_solver|]. apply Forall_forall. intros c (y & -> & Hy)%list_elem_of_fmap.
      rewrite Forall_forall in Hb. pose proof (Hb y Hy) as H. unfold before in H.
      rewrite <- (proj1 (Hkey x ltac:(set_solver))), <- (proj1 (Hkey y ltac:(set_solver))). done.
    + intros c. rewrite list_elem_of_fmap. split; [intros (y & -> & Hy); by apply Hkey|].
      intros Hc. exists (candle_ns c, c). split; [done|]. apply Hx. right. apply Hl. eauto.
  - destruct Hm as (x & y & Hx & Hy & Ht & Hne & _). apply Hl in Hx as (c & -> & Hc). apply Hl in Hy as (c' & -> & Hc').
    simpl in Ht. destruct (se_spaced _ _ Hse c c') as [->|Hfar]; [by apply Hin|by apply Hin|done|]. rewrite Ht in Hfar. lia.
Qed.

Lemma elem_of_chunks {A} (x : A) ls : x ∈ concat ls ↔ ∃ l, x ∈ l ∧ l ∈ ls.
Proof. induction ls as [|l ls IH]; simpl; set_solver. Qed.


Definition sample_candle (seconds : Z) : HistoricCandle := {|
  hc_open := None; hc_high := None; hc_low := None; hc_close := None; hc_volume := 0;
  hc_time := Some {| ts_seconds := seconds; ts_nanos := 0 |}; hc_is_complete := true; hc_candle_source := 0;
  hc_volume_buy := 0; hc_volume_sell := 0 |}.
Definition sample_series : list HistoricCandle := [sample_candle 86460; sample_candle 60].
Definition sample_answer (w : HistoryWindow) : list HistoricCandle := List.filter (in_window w) sample_series.

Lemma sample_series_ok : candle_series 1 sample_series.
Proof.
  split.
  - apply (bool_decide_unpack _). by vm_compute.
  - intros c [->|[->|?%elem_of_nil]%elem_of_cons]%elem_of_cons; done.
  - intros c c' [->|[->|?%elem_of_nil]%elem_of_cons]%elem_of_cons [->|[->|?%elem_of_nil]%elem_of_cons]%elem_of_cons;
      first [by left|by right; vm_compute|done].
Qed.

Lemma sample_answer_ok : answers_windows sample_series sample_answer.
Proof.
  split; intros w c; unfold sample_answer; rewrite elem_of_filter_bool; [by intros [? _]|by intros ? ? _].
Qed.


(** ** The requests are what is desired *)

(** The subscriptions a request asks for. *)
Definition requested (request : MarketDataRequest) : list MarketSubscription :=
  match mdq_payload request with
  | Some (SubscribeCandlesPayload r) =>
      (λ i, {| ms_instrument_id := cin_instrument_id i;
               ms_kind := CandleKind (cin_interval i) (scq_waiting_close r) (scq_candle_source_type r) |}) <$> scq_instruments r
  | Some (SubscribeOrderBookPayload r) =>
      (λ i, {| ms_instrument_id := bin_instrument_id i;
               ms_kind := OrderBookKind (bin_depth i) (bin_order_book_type i) |}) <$> sbq_instruments r
  | Some (SubscribeTradesPayload r) =>
      (λ i, {| ms_instrument_id := tin_instrument_id i;
               ms_kind := TradeKind (stq_trade_source r) (stq_with_open_interest r) |}) <$> stq_instruments r
  | Some (SubscribeInfoPayload r) => (λ i, {| ms_instrument_id := iin_instrument_id i; ms_kind := InfoKind |}) <$> siq_instruments r
  | Some (SubscribeLastPricePayload r) =>
      (λ i, {| ms_instrument_id := lin_instrument_id i; ms_kind := LastPriceKind |}) <$> slq_instruments r
  | _ => []
  end.

Definition of_kind (kind : SubscriptionKind) (id : string) : MarketSubscription := {| ms_instrument_id := id; ms_kind := kind |}.

Lemma requested_payload kind chunk :
  requested {| mdq_payload := Some (request_payload kind chunk) |} = of_kind kind <$> chunk.
Proof. destruct kind; unfold requested; simpl; by rewrite <- list_fmap_compose. Qed.

Lemma chunks_concat {A} (n : nat) (l : list A) : (0 < n)%nat → concat (chunks n l) = l.
Proof.
  intros Hn. unfold chunks. assert (length l ≤ length l)%nat as Hf by lia. revert Hf.
  generalize (length l) at 2 3. intros fuel. revert l. induction fuel as [|fuel IH]; intros [|x l] Hf; simpl in *; try done; [lia|].
  destruct n as [|n]; [lia|]. simpl. rewrite IH; [by rewrite take_drop|]. rewrite length_drop. lia.
Qed.

Lemma chunks_bounded {A} (n : nat) (l c : list A) : (0 < n)%nat → c ∈ chunks n l → c ≠ [] ∧ (length c ≤ n)%nat.
Proof.
  intros Hn. unfold chunks. generalize (length l). intros fuel. revert l. induction fuel as [|fuel IH]; intros [|x l]; simpl;
    try by intros ?%elem_of_nil.
  intros [->|Hc]%elem_of_cons; [|by eapply IH]. destruct n; [lia|]. simpl. split; [done|]. rewrite length_take. lia.
Qed.

Definition ungroup (groups : list (SubscriptionKind * list string)) : list MarketSubscription :=
  g ← groups; of_kind g.1 <$> g.2.

Lemma group_ungroup groups entry : ungroup (map_to_list (group groups entry)) ≡ₚ entry :: ungroup (map_to_list groups).
Proof.
  unfold group, ungroup. destruct entry as [id kind]. simpl. destruct (groups !! kind) as [l|] eqn:Hk; simpl.
  - rewrite <- insert_delete_eq, map_to_list_insert by apply lookup_delete_eq.
    rewrite <- (map_to_list_delete groups kind l Hk). rewrite !bind_cons. simpl. rewrite fmap_app. simpl.
    rewrite <- app_assoc. simpl. by rewrite <- Permutation_middle.
  - by rewrite map_to_list_insert.
Qed.

Lemma groups_ungroup l : ungroup (map_to_list (foldl group ∅ l)) ≡ₚ l.
Proof.
  induction l as [|x l IH] using rev_ind; [by unfold ungroup; simpl; rewrite map_to_list_empty|].
  rewrite foldl_app. simpl. rewrite group_ungroup, IH. by rewrite Permutation_cons_append.
Qed.

(** The subscribe requests of a registry are what it desires: together they ask for
    every desired subscription once and for nothing else, each is a SUBSCRIBE request for at
    least one and at most three hundred instruments. *)
Theorem subscribe_requests_cover self :
  (requests ← subscribe_requests self; requested requests) ≡ₚ (map_to_list (mr_entries self)).*1 ∧
  Forall (λ r, (1 ≤ length (requested r))%nat ∧ Z.of_nat (length (requested r)) ≤ MAX_LIMITED_SUBSCRIPTIONS)
    (subscribe_requests self).
Proof.
  assert ((requests ← subscribe_requests self; requested requests) = ungroup (grouped self)) as ->.
  { unfold subscribe_requests, ungroup. induction (grouped self) as [|[kind ids] l IH]; [done|]. rewrite bind_cons, bind_app, IH.
    rewrite bind_cons. f_equal. simpl. rewrite <- (chunks_concat (Z.to_nat MAX_LIMITED_SUBSCRIPTIONS) ids) at 2 by (vm_compute; lia).
    induction (chunks _ ids) as [|c cs IHc]; [done|]. rewrite bind_cons, bind_app, IHc. simpl.
    rewrite requested_payload, app_nil_r, fmap_app. done. }
  split.
  - unfold grouped, ungroup. rewrite merge_sort_Permutation. fold (ungroup (map_to_list (foldl group ∅ (desired self)))).
    rewrite groups_ungroup. unfold desired. by rewrite merge_sort_Permutation.
  - apply Forall_forall. intros r (g & (c & ->%list_elem_of_singleton & Hc)%list_elem_of_bind & _)%list_elem_of_bind.
    rewrite requested_payload, length_fmap. apply chunks_bounded in Hc as [Hne Hle]; [|vm_compute; lia].
    destruct c; [done|]. simpl in *. lia.
Qed.
