(* ===== verification/TInvestMarketStream.v ===== *)
(** * The supervised market-data stream: [crates/vox-tinvest/src/market_stream.rs]

    A supervisor keeps a market-data stream open for the subscriptions of a registry: it
    sends them with every connection, waits for their acknowledgements, asks the provider
    for its own list and compares, and passes the facts on through a gate that lets none of
    an instrument through twice or out of order.  The loop [run] is a state machine with a
    phase per suspension point; a run is the list of what happens to it.

    [encode_to_vec] belongs to a third-party library, the class [Prost].  The bytes decide
    whether two messages are the same.  A run also keeps, for the statements, the response
    every event was made of and the responses of the current connection. *)
From stdpp Require Import gmap strings sorting.
From S2P Require Import Prelude ConnectionModel Money TInvestWire TInvestGrpc TInvestMarketWire TInvestMarketData.

(** ** Configuration and errors *)

(** Durations in nanoseconds. *)
Record MarketDataSupervisorConfig := {
  mc_outbound_capacity : Z;
  mc_event_capacity : Z;
  mc_stale_timeout : Z;
  mc_reconnect_initial_delay : Z;
  mc_reconnect_max_delay : Z;
  mc_max_reconnect_attempts : Z;
  mc_ping_delay_ms : Z;
}.

Definition market_config_default : MarketDataSupervisorConfig := {|
  mc_outbound_capacity := 64; mc_event_capacity := 1024; mc_stale_timeout := 150 * 1000000000;
  mc_reconnect_initial_delay := 250 * 1000000; mc_reconnect_max_delay := 15 * 1000000000;
  mc_max_reconnect_attempts := 8; mc_ping_delay_ms := DEFAULT_PING_DELAY_MS |}.

Inductive MarketDataSupervisorError :=
| ZeroCapacity
| InvalidReconnectPolicy
| SubscriptionRequestRate
| InitialRequestsExceedCapacity
| MarketDataFault (e : MarketDataError)
| ConnectFault (e : GrpcError)
| StreamFault (e : GrpcStreamError)
| StaleStream
| ClosedStream
| UndesiredEvent
| ReconnectExhausted.

Definition market_config_validate (self : MarketDataSupervisorConfig) : result MarketDataSupervisorError () :=
  if (mc_outbound_capacity self =? 0) || (mc_event_capacity self =? 0) then Err ZeroCapacity
  else if (mc_stale_timeout self =? 0) || (mc_reconnect_initial_delay self =? 0)
          || (mc_reconnect_max_delay self <? mc_reconnect_initial_delay self) || (mc_max_reconnect_attempts self =? 0)
  then Err InvalidReconnectPolicy
  else map_err MarketDataFault (validate_ping_delay (mc_ping_delay_ms self)).

Inductive MarketDataStreamEvent :=
| Connected
| Reconnecting (attempt delay : Z)
| Acknowledged (count : Z)
| BrokerConfirmed (count : Z)
| CandleEvent (candle : CanonicalCandle)
| TradeEvent (trade : CanonicalTrade)
| OrderBookEvent (book : CanonicalOrderBook)
| TradingStatusEvent (status : CanonicalTradingStatus)
| LastPriceEvent (price : CanonicalLastPrice)
| OpenInterestEvent (interest : CanonicalOpenInterest)
| PingEvent (stream_id : string) (event_time_ns : option Z)
| Dropped (instrument_uid family : string) (out_of_order : bool)
| Fault (e : MarketDataSupervisorError)
| Stopped.

(** ** The sequence gate *)

Inductive EventFamily := EvCandle | EvTrade | EvTradingStatus | EvLastPrice | EvOpenInterest.
Inductive EventDisposition := Accept | Duplicate | OutOfOrder.

#[export] Instance EventFamily_eq_dec : EqDecision EventFamily.
Proof. solve_decision. Defined.
#[export] Instance EventDisposition_eq_dec : EqDecision EventDisposition.
Proof. solve_decision. Defined.
#[export] Instance EventFamily_countable : Countable EventFamily.
Proof.
  refine (inj_countable'
    (λ f, match f with EvCandle => 0 | EvTrade => 1 | EvTradingStatus => 2 | EvLastPrice => 3 | EvOpenInterest => 4 end)
    (λ n, match n with 0 => EvCandle | 1 => EvTrade | 2 => EvTradingStatus | 3 => EvLastPrice | _ => EvOpenInterest end) _).
  by intros [].
Defined.

(** The latest time of an instrument and family, and the messages seen at it. *)
Notation EventSequenceGate := (gmap (string * EventFamily) (Z * gset string)).

Definition gate_observe (instrument_uid : string) (family : EventFamily) (event_time_ns : Z) (fingerprint : string)
    (seen : EventSequenceGate) : EventSequenceGate * EventDisposition :=
  let key := (instrument_uid, family) in
  match seen !! key with
  | None => (<[key := (event_time_ns, {[fingerprint]})]> seen, Accept)
  | Some (latest, fingerprints) =>
      if event_time_ns <? latest then (seen, OutOfOrder)
      else if event_time_ns =? latest then
        if bool_decide (fingerprint ∈ fingerprints) then (seen, Duplicate)
        else (<[key := (latest, {[fingerprint]} ∪ fingerprints)]> seen, Accept)
      else (<[key := (event_time_ns, {[fingerprint]})]> seen, Accept)
  end.

Definition dropped_event (disposition : EventDisposition) (instrument_uid family : string)
  : option MarketDataStreamEvent :=
  match disposition with
  | Accept => None
  | Duplicate | OutOfOrder => Some (Dropped instrument_uid family (bool_decide (disposition = OutOfOrder)))
  end.

(** ** Responses *)

(** [encode_to_vec] of the messages. *)
Class Prost := {
  encode_candle : CandleMessage → string;
  encode_trade : TradeMessage → string;
  encode_trading_status : TradingStatusMessage → string;
  encode_last_price : LastPriceMessage → string;
  encode_open_interest : OpenInterestMessage → string;
}.

Inductive StreamControlPhase := AwaitingSubscribeAcks | AwaitingActiveSnapshot | Active.

#[export] Instance StreamControlPhase_eq_dec : EqDecision StreamControlPhase.
Proof. solve_decision. Defined.

(** What [process_response] has by reference. *)
Record Control := {
  ck_registry : MarketSubscriptionRegistry;
  ck_gate : EventSequenceGate;
  ck_phase : StreamControlPhase;
  ck_confirmed : gset MarketSubscription;
}.

Definition put_registry (r : MarketSubscriptionRegistry) (k : Control) : Control := {|
  ck_registry := r; ck_gate := ck_gate k; ck_phase := ck_phase k; ck_confirmed := ck_confirmed k |}.
Definition put_gate (g : EventSequenceGate) (k : Control) : Control := {|
  ck_registry := ck_registry k; ck_gate := g; ck_phase := ck_phase k; ck_confirmed := ck_confirmed k |}.
Definition put_control_phase (p : StreamControlPhase) (k : Control) : Control := {|
  ck_registry := ck_registry k; ck_gate := ck_gate k; ck_phase := p; ck_confirmed := ck_confirmed k |}.
Definition put_confirmed (c : gset MarketSubscription) (k : Control) : Control := {|
  ck_registry := ck_registry k; ck_gate := ck_gate k; ck_phase := ck_phase k; ck_confirmed := c |}.

Notation control A := (st Control MarketDataSupervisorError A).

Section responses.
Context `{UF : !UuidFormat} `{PR : !Prost}.

Definition on_registry {A} (m : st MarketSubscriptionRegistry MarketDataError A) : control A := λ k,
  let '(r, outcome) := m (ck_registry k) in (put_registry r k, map_err MarketDataFault outcome).

Definition decoded {A} (outcome : market A) : control A := st_lift (map_err MarketDataFault outcome).

Definition require_desired (instrument_uid : string) (kind : SubscriptionKind) : control () := λ k,
  (k, if accepts_event_before_ack (ck_registry k) instrument_uid kind then Ok tt else Err UndesiredEvent).

(** [sequence_gate.observe], [dropped_event] and the event that passes. *)
Definition sequenced (instrument_uid : string) (family : EventFamily) (name : string) (event_time_ns : Z)
    (fingerprint : string) (event : MarketDataStreamEvent) : control (option MarketDataStreamEvent) := λ k,
  let '(gate, disposition) := gate_observe instrument_uid family event_time_ns fingerprint (ck_gate k) in
  (put_gate gate k,
   Ok (Some (match dropped_event disposition instrument_uid name with Some dropped => dropped | None => event end))).

Definition process_acknowledgement (expected : gset MarketSubscription) (response : MarketDataResponse)
  : control (option MarketDataStreamEvent) := λ k,
  match ck_phase k with
  | AwaitingSubscribeAcks =>
      (let! acknowledgements := on_registry (apply_command_response response Subscribe) in
       st_ret (Some (Acknowledged (Z.of_nat (length acknowledgements))))) k
  | AwaitingActiveSnapshot =>
      (let! snapshots := on_registry (parse_active_snapshot_response response) in
       let! k := st_get in
       let confirmed := ck_confirmed k ∪ list_to_set (as_subscription <$> snapshots) in
       st_put (put_confirmed confirmed k) ;;;
       if bool_decide (expected ⊆ confirmed) then
         st_put (put_control_phase Active (put_confirmed confirmed k)) ;;;
         st_ret (Some (BrokerConfirmed (Z.of_nat (size expected))))
       else st_ret None) k
  | Active => (k, Err (MarketDataFault UnexpectedSubscriptionResponse))
  end.

Definition process_response (expected : gset MarketSubscription) (response : MarketDataResponse)
  : control (option MarketDataStreamEvent) :=
  match mdr_payload response with
  | Some (SubscribeCandlesAnswer _ | SubscribeOrderBookAnswer _ | SubscribeTradesAnswer _ | SubscribeInfoAnswer _
          | SubscribeLastPriceAnswer _) => process_acknowledgement expected response
  | Some (CandlePayload value) =>
      require_desired (cm_instrument_uid value)
        (CandleKind (cm_interval value) false (Some (cm_candle_source_type value))) ;;;
      let! canonical := decoded (candle_try_from value) in
      sequenced (cc_instrument_uid canonical) EvCandle "candle" (cc_event_time_ns canonical) (encode_candle value)
        (CandleEvent canonical)
  | Some (TradePayload value) =>
      require_desired (tm_instrument_uid value) (TradeKind (tm_trade_source value) false) ;;;
      let! canonical := decoded (trade_try_from value) in
      sequenced (ct_instrument_uid canonical) EvTrade "trade" (ct_event_time_ns canonical) (encode_trade value)
        (TradeEvent canonical)
  | Some (OrderBookPayload value) =>
      require_desired (bm_instrument_uid value) (OrderBookKind (bm_depth value) (bm_order_book_type value)) ;;;
      let! k := st_get in
      st_put (put_registry (observe_book (bm_instrument_uid value) (bm_is_consistent value) (ck_registry k)) k) ;;;
      let! canonical := decoded (order_book_try_from value) in
      st_ret (Some (OrderBookEvent canonical))
  | Some (TradingStatusPayload value) =>
      require_desired (sm_instrument_uid value) InfoKind ;;;
      let! canonical := decoded (trading_status_try_from value) in
      sequenced (cs_instrument_uid canonical) EvTradingStatus "trading_status" (cs_event_time_ns canonical)
        (encode_trading_status value) (TradingStatusEvent canonical)
  | Some (LastPricePayload value) =>
      require_desired (lm_instrument_uid value) LastPriceKind ;;;
      let! canonical := decoded (last_price_try_from value) in
      sequenced (cl_instrument_uid canonical) EvLastPrice "last_price" (cl_event_time_ns canonical)
        (encode_last_price value) (LastPriceEvent canonical)
  | Some (OpenInterestPayload value) =>
      require_desired (om_instrument_uid value) (TradeKind 0 true) ;;;
      let! canonical := decoded (open_interest_try_from value) in
      sequenced (coi_instrument_uid canonical) EvOpenInterest "open_interest" (coi_event_time_ns canonical)
        (encode_open_interest value) (OpenInterestEvent canonical)
  | Some (PingPayload value) =>
      let! time := decoded (optional_timestamp_ns (pg_time value) "ping.time") in
      st_ret (Some (PingEvent (pg_stream_id value) time))
  | None => st_fail (MarketDataFault (Missing "market_data_response.payload"))
  end.

(** ** Reconnection *)

(** [1_u32.checked_shl(attempt.saturating_sub(1).min(20))]: the shift is below 32. *)
Definition reconnect_delay (initial maximum attempt : Z) : Z :=
  Z.min (duration_mul initial (Z.shiftl 1 (Z.min (Z.max (attempt - 1) 0) 20))) maximum.

Definition should_reconnect (error : MarketDataSupervisorError) (has_desired_subscriptions : bool) : bool :=
  match error with
  | StreamFault (NoActiveSubscriptions _) => has_desired_subscriptions
  | MarketDataFault (SubscriptionRejected _ _ _ _ | UnexpectedAcknowledgementAction _ | UnexpectedSubscriptionResponse
                     | InvalidAcknowledgementIdentity | InvalidActiveSnapshotIdentity | UnknownAcknowledgement)
  | ZeroCapacity | InvalidReconnectPolicy | SubscriptionRequestRate | InitialRequestsExceedCapacity | UndesiredEvent
  | ReconnectExhausted => false
  | _ => true
  end.

(** ** The loop *)

(** Where the loop is suspended: before an iteration; in the delay; in the connector; in the
    inner loop; sending the request for the provider's list; or returned. *)
Inductive Phase :=
| AtTop
| Delaying
| Connecting (initial_requests : list MarketDataRequest)
| Streaming (expected : gset MarketSubscription) (phase : StreamControlPhase) (confirmed : gset MarketSubscription)
| Requesting (expected confirmed : gset MarketSubscription)
| Returned.

(** [mk_reported]: the events that were sent, each with the response it was made of.
    [mk_heard]: the responses of the current connection. *)
Record MarketRun := {
  mk_phase : Phase;
  mk_attempt : Z;
  mk_registry : MarketSubscriptionRegistry;
  mk_gate : EventSequenceGate;
  mk_stop : bool;
  mk_stop_seen : bool;
  mk_alive : bool;
  mk_reported : list (option ResponsePayload * MarketDataStreamEvent);
  mk_heard : list MarketDataResponse;
}.

Definition market_start (registry : MarketSubscriptionRegistry) : MarketRun := {|
  mk_phase := AtTop; mk_attempt := 0; mk_registry := registry; mk_gate := ∅; mk_stop := false; mk_stop_seen := true;
  mk_alive := true; mk_reported := []; mk_heard := [] |}.

Definition go (p : Phase) (r : MarketRun) : MarketRun := {|
  mk_phase := p; mk_attempt := mk_attempt r; mk_registry := mk_registry r; mk_gate := mk_gate r; mk_stop := mk_stop r;
  mk_stop_seen := mk_stop_seen r; mk_alive := mk_alive r; mk_reported := mk_reported r; mk_heard := mk_heard r |}.
Definition set_attempt (n : Z) (r : MarketRun) : MarketRun := {|
  mk_phase := mk_phase r; mk_attempt := n; mk_registry := mk_registry r; mk_gate := mk_gate r; mk_stop := mk_stop r;
  mk_stop_seen := mk_stop_seen r; mk_alive := mk_alive r; mk_reported := mk_reported r; mk_heard := mk_heard r |}.
Definition set_state (registry : MarketSubscriptionRegistry) (gate : EventSequenceGate) (heard : list MarketDataResponse)
    (r : MarketRun) : MarketRun := {|
  mk_phase := mk_phase r; mk_attempt := mk_attempt r; mk_registry := registry; mk_gate := gate; mk_stop := mk_stop r;
  mk_stop_seen := mk_stop_seen r; mk_alive := mk_alive r; mk_reported := mk_reported r; mk_heard := heard |}.
Definition set_stop (stop seen alive : bool) (r : MarketRun) : MarketRun := {|
  mk_phase := mk_phase r; mk_attempt := mk_attempt r; mk_registry := mk_registry r; mk_gate := mk_gate r; mk_stop := stop;
  mk_stop_seen := seen; mk_alive := alive; mk_reported := mk_reported r; mk_heard := mk_heard r |}.

(** [events.send(event).await]: it is lost when the handle is gone. *)
Definition send (payload : option ResponsePayload) (event : MarketDataStreamEvent) (r : MarketRun) : MarketRun :=
  if mk_alive r then {|
    mk_phase := mk_phase r; mk_attempt := mk_attempt r; mk_registry := mk_registry r; mk_gate := mk_gate r;
    mk_stop := mk_stop r; mk_stop_seen := mk_stop_seen r; mk_alive := mk_alive r;
    mk_reported := mk_reported r ++ [(payload, event)]; mk_heard := mk_heard r |}
  else r.

Definition ending (event : MarketDataStreamEvent) (r : MarketRun) : MarketRun := go Returned (send None event r).

Context (config : MarketDataSupervisorConfig).

(** [run_connection] returned an error; [+= 1] of a [u32]. *)
Definition connection_failed (error : MarketDataSupervisorError) (r : MarketRun) : MarketRun :=
  if negb (should_reconnect error (negb (bool_decide (desired (mk_registry r) = [])))) then ending (Fault error) r
  else
    let r := set_attempt ((mk_attempt r + 1) mod 4294967296) r in
    if mc_max_reconnect_attempts config <? mk_attempt r
    then ending (Fault ReconnectExhausted) (send None (Fault error) r)
    else go AtTop r.

(** [registry.disconnected()] and [run_connection] up to the connector. *)
Definition begin_connection (r : MarketRun) : MarketRun :=
  let r := set_state (disconnected (mk_registry r)) (mk_gate r) [] r in
  let requests := subscribe_requests (mk_registry r) in
  if MAX_SUBSCRIPTION_REQUESTS_PER_MINUTE <? Z.of_nat (length requests) then connection_failed SubscriptionRequestRate r
  else
    match checked I32 (mc_ping_delay_ms config) with
    | None => connection_failed (MarketDataFault InvalidPingDelay) r
    | Some ping_delay_ms =>
        let initial_requests :=
          {| mdq_payload := Some (PingSettingsPayload {| pds_ping_delay_ms := Some ping_delay_ms |}) |} :: requests in
        if mc_outbound_capacity config <? Z.of_nat (length initial_requests)
        then connection_failed InitialRequestsExceedCapacity r
        else go (Connecting initial_requests) r
    end.

Definition at_top (r : MarketRun) : MarketRun :=
  if mk_stop r then ending Stopped r
  else if 0 <? mk_attempt r then
    if mc_max_reconnect_attempts config <? mk_attempt r then ending (Fault ReconnectExhausted) r
    else
      let delay := reconnect_delay (mc_reconnect_initial_delay config) (mc_reconnect_max_delay config) (mk_attempt r) in
      if mk_alive r then go Delaying (send None (Reconnecting (mk_attempt r) delay) r) else go Returned r
  else begin_connection r.

(** [changed = stop.changed()] resolves when there is a value not seen yet or the sender is
    gone; [next] is what follows when the loop is not to stop. *)
Definition on_stop_changed (next : MarketRun → MarketRun) (r : MarketRun) : MarketRun :=
  if negb (mk_stop_seen r) then
    let r := set_stop (mk_stop r) true (mk_alive r) r in
    if mk_stop r then ending Stopped r else next r
  else if mk_alive r then r
  else ending Stopped r.

Definition on_connector (outcome : result MarketDataSupervisorError ()) (r : MarketRun) : MarketRun :=
  match outcome with
  | Err error => connection_failed error r
  | Ok _ =>
      if mk_alive r then
        go (Streaming (list_to_set (desired (mk_registry r))) AwaitingSubscribeAcks ∅)
          (set_attempt 0 (send None Connected r))
      else connection_failed ClosedStream r
  end.

(** After a response: the request for the provider's list once all is acknowledged. *)
Definition after_response (expected : gset MarketSubscription) (k : Control) (r : MarketRun) : MarketRun :=
  if bool_decide (ck_phase k = AwaitingSubscribeAcks) && all_confirmed (ck_registry k)
  then go (Requesting expected (ck_confirmed k)) r
  else go (Streaming expected (ck_phase k) (ck_confirmed k)) r.

Definition on_response (expected : gset MarketSubscription) (phase : StreamControlPhase)
    (confirmed : gset MarketSubscription) (response : MarketDataResponse) (r : MarketRun) : MarketRun :=
  let '(k, outcome) := process_response expected response
    {| ck_registry := mk_registry r; ck_gate := mk_gate r; ck_phase := phase; ck_confirmed := confirmed |} in
  let r := set_state (ck_registry k) (ck_gate k) (mk_heard r ++ [response]) r in
  match outcome with
  | Err error => connection_failed error r
  | Ok None => after_response expected k r
  | Ok (Some event) =>
      if mk_alive r then after_response expected k (send (mdr_payload response) event r)
      else connection_failed ClosedStream r
  end.

(** [timeout(..., stream.message())]. *)
Definition on_message (expected : gset MarketSubscription) (phase : StreamControlPhase)
    (confirmed : gset MarketSubscription)
    (outcome : result MarketDataSupervisorError (option MarketDataResponse)) (r : MarketRun) : MarketRun :=
  match outcome with
  | Err error => connection_failed error r
  | Ok None => connection_failed ClosedStream r
  | Ok (Some response) => on_response expected phase confirmed response r
  end.

Inductive Input :=
| Resume
| DelayElapsed
| StopChanged
| ConnectorReturned (outcome : result MarketDataSupervisorError ())
| MessageReturned (outcome : result MarketDataSupervisorError (option MarketDataResponse))
| MessageTimeout
| SendReturned (outcome : result MarketDataSupervisorError ())
| CallStop
| DropHandle.

(** What cannot happen in a phase changes nothing. *)
Definition market_step (r : MarketRun) (input : Input) : MarketRun :=
  match input, mk_phase r with
  | CallStop, _ => if mk_alive r then set_stop true false true r else r
  | DropHandle, _ => set_stop (mk_stop r) (mk_stop_seen r) false r
  | Resume, AtTop => at_top r
  | DelayElapsed, Delaying => begin_connection r
  | StopChanged, Delaying => on_stop_changed begin_connection r
  | ConnectorReturned outcome, Connecting _ => on_connector outcome r
  | StopChanged, Streaming _ _ _ => on_stop_changed (λ r, r) r
  | MessageReturned outcome, Streaming expected phase confirmed => on_message expected phase confirmed outcome r
  | MessageTimeout, Streaming _ _ _ => connection_failed StaleStream r
  | SendReturned (Ok _), Requesting expected confirmed => go (Streaming expected AwaitingActiveSnapshot confirmed) r
  | SendReturned (Err error), Requesting _ _ => connection_failed error r
  | _, _ => r
  end.

Definition market_run (registry : MarketSubscriptionRegistry) (inputs : list Input) : MarketRun :=
  fold_left market_step inputs (market_start registry).
End responses.

(** ** What a run reports *)

(** The facts that go through the gate. *)
Record Fact := { ft_key : string * EventFamily; ft_time : Z; ft_bytes : string }.

Definition fact_of `{!Prost} (payload : ResponsePayload) : option Fact :=
  let fact {A} (outcome : market A) uid family time bytes :=
    match outcome with Ok a => Some {| ft_key := (uid a, family); ft_time := time a; ft_bytes := bytes |} | Err _ => None end in
  match payload with
  | CandlePayload v => fact (candle_try_from v) cc_instrument_uid EvCandle cc_event_time_ns (encode_candle v)
  | TradePayload v => fact (trade_try_from v) ct_instrument_uid EvTrade ct_event_time_ns (encode_trade v)
  | TradingStatusPayload v =>
      fact (trading_status_try_from v) cs_instrument_uid EvTradingStatus cs_event_time_ns (encode_trading_status v)
  | LastPricePayload v => fact (last_price_try_from v) cl_instrument_uid EvLastPrice cl_event_time_ns (encode_last_price v)
  | OpenInterestPayload v =>
      fact (open_interest_try_from v) coi_instrument_uid EvOpenInterest coi_event_time_ns (encode_open_interest v)
  | _ => None
  end.

Definition passed_on (event : MarketDataStreamEvent) : bool :=
  match event with
  | CandleEvent _ | TradeEvent _ | TradingStatusEvent _ | LastPriceEvent _ | OpenInterestEvent _ => true
  | _ => false
  end.

(** The fact an event passes on. *)
Definition delivered `{!Prost} (x : option ResponsePayload * MarketDataStreamEvent) : option Fact :=
  if passed_on x.2 then x.1 ≫= fact_of else None.

(** Facts of one instrument and family come in the order of their times and no message
    comes twice. *)
Definition follows `{!Prost} (x y : option ResponsePayload * MarketDataStreamEvent) : Prop :=
  ∀ f g, delivered x = Some f → delivered y = Some g → ft_key f = ft_key g →
    ft_time f < ft_time g ∨ ft_time f = ft_time g ∧ ft_bytes f ≠ ft_bytes g.

(** A message is dropped because a later fact, or the same message, was passed on. *)
Definition dropped_rightly `{!Prost} (earlier : list (option ResponsePayload * MarketDataStreamEvent))
    (x : option ResponsePayload * MarketDataStreamEvent) : Prop :=
  ∀ uid name out_of_order, x.2 = Dropped uid name out_of_order →
    ∃ f y g, x.1 ≫= fact_of = Some f ∧ y ∈ earlier ∧ delivered y = Some g ∧ ft_key g = ft_key f ∧
      if out_of_order then ft_time f < ft_time g else ft_time f = ft_time g ∧ ft_bytes f = ft_bytes g.

Definition family_of (kind : SubscriptionKind) : SubscriptionFamily :=
  match kind with
  | CandleKind _ _ _ => FamilyCandle | OrderBookKind _ _ => FamilyOrderBook | TradeKind _ _ => FamilyTrade
  | InfoKind => FamilyInfo | LastPriceKind => FamilyLastPrice
  end.

Definition subject (event : MarketDataStreamEvent) : option (string * SubscriptionFamily) :=
  match event with
  | CandleEvent c => Some (cc_instrument_uid c, FamilyCandle)
  | TradeEvent t => Some (ct_instrument_uid t, FamilyTrade)
  | OrderBookEvent b => Some (cob_instrument_uid b, FamilyOrderBook)
  | TradingStatusEvent s => Some (cs_instrument_uid s, FamilyInfo)
  | LastPriceEvent p => Some (cl_instrument_uid p, FamilyLastPrice)
  | OpenInterestEvent i => Some (coi_instrument_uid i, FamilyTrade)
  | _ => None
  end.

(** Market data is of instruments that are subscribed to; reconnections are within the
    policy. *)
Definition legitimate (config : MarketDataSupervisorConfig) (registry : MarketSubscriptionRegistry)
    (event : MarketDataStreamEvent) : Prop :=
  (∀ uid family, subject event = Some (uid, family) →
     ∃ s, s ∈ dom (mr_entries registry) ∧ ms_instrument_id s = uid ∧ family_of (ms_kind s) = family) ∧
  match event with
  | Reconnecting attempt delay =>
      1 ≤ attempt ≤ mc_max_reconnect_attempts config ∧
      delay = reconnect_delay (mc_reconnect_initial_delay config) (mc_reconnect_max_delay config) attempt
  | BrokerConfirmed count => count = Z.of_nat (size (dom (mr_entries registry)))
  | _ => True
  end.

Definition terminal (event : MarketDataStreamEvent) : bool := match event with Stopped | Fault _ => true | _ => false end.

(** An entry of a response of the connection reports success under this identity. *)
Definition reports (heard : list MarketDataResponse) (s : MarketSubscription) (stream_id subscription_id : string)
    (action : option Z) : Prop :=
  ∃ response fields, response ∈ heard ∧ (s, fields) ∈ response_entries (mdr_payload response) ∧
    sf_provider_status fields = SubscriptionStatus_Success ∧ sf_stream_id fields = stream_id ∧
    sf_subscription_id fields = subscription_id ∧ (∀ a, action = Some a → sf_provider_action fields = a).

(** Acknowledged as subscribed, under an identity that is one. *)
Definition acknowledged `{!UuidFormat} (heard : list MarketDataResponse) (s : MarketSubscription)
    (stream_id subscription_id : string) : Prop :=
  reports heard s stream_id subscription_id (Some (as_i32 SubscriptionAction_Subscribe)) ∧
  stream_id ≠ ""%string ∧ uuid_parses subscription_id = true.

(** Acknowledged, and listed by the provider under the same identity. *)
Definition broker_confirmed `{!UuidFormat} (heard : list MarketDataResponse) (s : MarketSubscription) : Prop :=
  ∃ stream_id subscription_id,
    acknowledged heard s stream_id subscription_id ∧ reports heard s stream_id subscription_id None.

(** What a message of the market is about, the event it makes, and the name it is dropped
    under when the gate holds it back; an order book does not go through the gate. *)
Definition content (payload : ResponsePayload)
  : option (string * SubscriptionFamily * market MarketDataStreamEvent * option string) :=
  let made {A} (outcome : market A) (event : A → MarketDataStreamEvent) : market MarketDataStreamEvent :=
    let? a := outcome in Ok (event a) in
  match payload with
  | CandlePayload v => Some (cm_instrument_uid v, FamilyCandle, made (candle_try_from v) CandleEvent, Some "candle"%string)
  | TradePayload v => Some (tm_instrument_uid v, FamilyTrade, made (trade_try_from v) TradeEvent, Some "trade"%string)
  | OrderBookPayload v => Some (bm_instrument_uid v, FamilyOrderBook, made (order_book_try_from v) OrderBookEvent, None)
  | TradingStatusPayload v =>
      Some (sm_instrument_uid v, FamilyInfo, made (trading_status_try_from v) TradingStatusEvent, Some "trading_status"%string)
  | LastPricePayload v =>
      Some (lm_instrument_uid v, FamilyLastPrice, made (last_price_try_from v) LastPriceEvent, Some "last_price"%string)
  | OpenInterestPayload v =>
      Some (om_instrument_uid v, FamilyTrade, made (open_interest_try_from v) OpenInterestEvent, Some "open_interest"%string)
  | _ => None
  end.

Definition subscribed (registry : MarketSubscriptionRegistry) (uid : string) (family : SubscriptionFamily) : Prop :=
  ∃ s, s ∈ dom (mr_entries registry) ∧ ms_instrument_id s = uid ∧ family_of (ms_kind s) = family.

(** What a response leads to.  Market data that is subscribed to and can be decoded makes
    its event, or is reported as dropped; a ping makes an event; an acknowledgement makes
    one with the number of its entries, and the provider's list one when it is complete.
    Everything else is an error. *)
Definition due (registry : MarketSubscriptionRegistry) (phase : StreamControlPhase) (response : MarketDataResponse)
    (outcome : result MarketDataSupervisorError (option MarketDataStreamEvent)) : Prop :=
  let fails := is_ok outcome = false in
  match mdr_payload response with
  | None => fails
  | Some payload =>
      match content payload, payload with
      | Some (uid, family, Ok event, name), _ =>
          (subscribed registry uid family → outcome = Ok (Some event) ∨
             ∃ n out_of_order, name = Some n ∧ outcome = Ok (Some (Dropped uid n out_of_order))) ∧
          (¬ subscribed registry uid family → fails)
      | Some (_, _, Err _, _), _ => fails
      | None, PingPayload v =>
          match optional_timestamp_ns (pg_time v) "ping.time" with
          | Ok time => outcome = Ok (Some (PingEvent (pg_stream_id v) time))
          | Err _ => fails
          end
      | None, _ =>
          match phase with
          | AwaitingSubscribeAcks =>
              fails ∨ outcome = Ok (Some (Acknowledged (Z.of_nat (length (response_entries (Some payload))))))
          | AwaitingActiveSnapshot => fails ∨ outcome = Ok None ∨ ∃ n, outcome = Ok (Some (BrokerConfirmed n))
          | Active => fails
          end
      end
  end.

(** What becomes of it: the event reaches the client and the connection goes on, or the
    connection is given up, with a reconnection to come or a fault that ends the run. *)
Definition taken (r : MarketRun) (response : MarketDataResponse)
    (outcome : result MarketDataSupervisorError (option MarketDataStreamEvent)) (r1 : MarketRun) : Prop :=
  match outcome with
  | Ok event =>
      mk_reported r1 = mk_reported r ++ match event with Some e => [(mdr_payload response, e)] | None => [] end ∧
      match mk_phase r1 with Streaming _ _ _ | Requesting _ _ => True | _ => False end
  | Err _ =>
      mk_phase r1 = AtTop ∧ mk_reported r1 = mk_reported r ∧ mk_attempt r1 = (mk_attempt r + 1) mod 4294967296 ∨
      mk_phase r1 = Returned ∧ ∃ faults, faults ≠ [] ∧ Forall (λ x, ∃ e, x = (None, Fault e)) faults ∧
        mk_reported r1 = mk_reported r ++ faults
  end.

(** ** Responses *)

Section facts.
Context `{UF : !UuidFormat} `{PR : !Prost}.

Ltac decode := repeat (case_match; simplify_eq/=; try done).

Lemma candle_uid v c : candle_try_from v = Ok c → cc_instrument_uid c = cm_instrument_uid v.
Proof. unfold candle_try_from. intros H. decode. Qed.
Lemma trade_uid v c : trade_try_from v = Ok c → ct_instrument_uid c = tm_instrument_uid v.
Proof. unfold trade_try_from. intros H. decode. Qed.
Lemma status_uid v c : trading_status_try_from v = Ok c → cs_instrument_uid c = sm_instrument_uid v.
Proof. unfold trading_status_try_from. intros H. decode. Qed.
Lemma price_uid v c : last_price_try_from v = Ok c → cl_instrument_uid c = lm_instrument_uid v.
Proof. unfold last_price_try_from. intros H. decode. Qed.
Lemma interest_uid v c : open_interest_try_from v = Ok c → coi_instrument_uid c = om_instrument_uid v.
Proof. unfold open_interest_try_from. intros H. decode. Qed.
Lemma book_uid v c : order_book_try_from v = Ok c → cob_instrument_uid c = bm_instrument_uid v.
Proof. unfold order_book_try_from. intros H. decode. Qed.

Lemma elem_of_desired s registry : s ∈ desired registry ↔ s ∈ dom (mr_entries registry).
Proof.
  unfold desired. rewrite merge_sort_Permutation, list_elem_of_fmap, elem_of_dom. split.
  - intros ([s' st] & -> & H%elem_of_map_to_list). by exists st.
  - intros [st H%elem_of_map_to_list]. by exists (s, st).
Qed.

Lemma accepts_wanted registry uid kind :
  accepts_event_before_ack registry uid kind = true →
  ∃ s, s ∈ dom (mr_entries registry) ∧ ms_instrument_id s = uid ∧ family_of (ms_kind s) = family_of kind.
Proof.
  unfold accepts_event_before_ack. intros (s & Hs%list_elem_of_In & H)%existsb_exists. apply andb_true_iff in H as [Hu Hk].
  exists s. split; [by apply elem_of_desired|]. split; [by apply bool_decide_eq_true in Hu|].
  by destruct (ms_kind s), kind.
Qed.

Lemma accepts_subscribed registry uid kind :
  if accepts_event_before_ack registry uid kind then subscribed registry uid (family_of kind)
  else ¬ subscribed registry uid (family_of kind).
Proof.
  destruct (accepts_event_before_ack _ _ _) eqn:H; [by apply accepts_wanted|]. intros (s & Hs & Hu & Hk).
  unfold accepts_event_before_ack in H. rewrite existsb_false in H.
  specialize (H s (proj2 (elem_of_desired s registry) Hs)). rewrite bool_decide_eq_true_2 in H by done.
  by destruct (ms_kind s), kind.
Qed.

Lemma apply_entries_length entries context registry registry' l :
  apply_entries entries context registry = (registry', Ok l) → length l = length entries.
Proof.
  revert registry registry' l. induction entries as [|[x fields] entries IH]; simpl; intros registry registry' l.
  { by intros [= _ <-]. }
  intros (r1 & a & _ & H)%st_bind_Ok. apply st_bind_Ok in H as (r2 & l2 & H2 & H). injection H as _ <-.
  simpl. f_equal. by eapply IH.
Qed.

Lemma acknowledgement_due expected response payload k k' outcome :
  mdr_payload response = Some payload → process_acknowledgement expected response k = (k', outcome) →
  match ck_phase k with
  | AwaitingSubscribeAcks =>
      is_ok outcome = false ∨ outcome = Ok (Some (Acknowledged (Z.of_nat (length (response_entries (Some payload))))))
  | AwaitingActiveSnapshot => is_ok outcome = false ∨ outcome = Ok None ∨ ∃ n, outcome = Ok (Some (BrokerConfirmed n))
  | Active => is_ok outcome = false
  end.
Proof.
  intros Hp. unfold process_acknowledgement. destruct (ck_phase k); [| |by intros [= _ <-]]; unfold st_bind, on_registry.
  - unfold apply_command_response, apply_subscription_response. rewrite Hp.
    destruct (apply_entries _ _ _) as [reg [l|e]] eqn:Ha; simpl; intros [= _ <-]; [right|by left].
    by rewrite (apply_entries_length _ _ _ _ _ Ha).
  - destruct (parse_active_snapshot_response _ _) as [reg [l|e]]; simpl; [|intros [= _ <-]; by left].
    case_bool_decide; intros [= _ <-]; right; [right; by eexists|by left].
Qed.

(** A message the gate holds back is reported under its name, any other as it is. *)
Lemma sequenced_due uid family name time bytes event k k' outcome :
  sequenced uid family name time bytes event k = (k', outcome) →
  outcome = Ok (Some event) ∨ ∃ n b, Some name = Some n ∧ outcome = Ok (Some (Dropped uid n b)).
Proof.
  unfold sequenced. destruct (gate_observe _ _ _ _ _) as [g d]. intros [= _ <-].
  destruct d; simpl; [by left|right; by eexists _, _..].
Qed.

Lemma response_due expected response k k' outcome :
  process_response expected response k = (k', outcome) → due (ck_registry k) (ck_phase k) response outcome.
Proof.
  unfold process_response, due. destruct (mdr_payload response) as [payload|] eqn:Hp; [|by intros [= _ <-]].
  destruct payload; cbn [content]; try (by apply acknowledgement_due);
    unfold require_desired, decoded, st_lift, st_bind, st_get, st_put, st_ret;
    try (match goal with |- context[accepts_event_before_ack ?r ?u ?kd] =>
           pose proof (accepts_subscribed r u kd) as Hs; destruct (accepts_event_before_ack r u kd) end;
         [|intros [= _ <-]; by case_match]; simpl in Hs);
    match goal with |- context[map_err _ ?d] => destruct d as [c|] eqn:Hd end; simpl;
    try (by intros [= _ <-]);
    try (intros [= _ <-]; split; [by left|done]).
  all: try (intros H%sequenced_due;
    first [rewrite (candle_uid _ _ Hd) in H|rewrite (trade_uid _ _ Hd) in H|rewrite (status_uid _ _ Hd) in H
          |rewrite (price_uid _ _ Hd) in H|rewrite (interest_uid _ _ Hd) in H]; by split).
Qed.

(** What a response does to the gate and what it yields. *)
Inductive processed (response : MarketDataResponse) (k k' : Control)
  : result MarketDataSupervisorError (option MarketDataStreamEvent) → Prop :=
| processed_failed e : ck_gate k' = ck_gate k → processed response k k' (Err e)
| processed_nothing : ck_gate k' = ck_gate k → processed response k k' (Ok None)
| processed_plain event :
    ck_gate k' = ck_gate k → passed_on event = false → terminal event = false →
    (∀ uid name b, event ≠ Dropped uid name b) → (∀ a d, event ≠ Reconnecting a d) →
    processed response k k' (Ok (Some event))
| processed_fact f event name :
    mdr_payload response ≫= fact_of = Some f → passed_on event = true →
    ck_gate k' = fst (gate_observe (ft_key f).1 (ft_key f).2 (ft_time f) (ft_bytes f) (ck_gate k)) →
    processed response k k' (Ok (Some (match dropped_event
      (snd (gate_observe (ft_key f).1 (ft_key f).2 (ft_time f) (ft_bytes f) (ck_gate k))) (ft_key f).1 name with
      | Some dropped => dropped | None => event end))).

Lemma sequenced_processed response k k0 uid family name time bytes event outcome k' f :
  mdr_payload response ≫= fact_of = Some f → f = {| ft_key := (uid, family); ft_time := time; ft_bytes := bytes |} →
  passed_on event = true → ck_gate k0 = ck_gate k →
  sequenced uid family name time bytes event k0 = (k', outcome) → processed response k k' outcome.
Proof.
  intros Hf -> He Hg. unfold sequenced. destruct (gate_observe _ _ _ _ _) as [gate d] eqn:Ho. intros [= <- <-].
  rewrite Hg in Ho. pose proof (processed_fact response k (put_gate gate k0) _ event name Hf He) as H. simpl in H.
  rewrite Ho in H. simpl in H. by apply H.
Qed.

Lemma on_registry_gate {A} (m : st MarketSubscriptionRegistry MarketDataError A) k k' outcome :
  on_registry m k = (k', outcome) →
  ck_gate k' = ck_gate k ∧ ck_phase k' = ck_phase k ∧ ck_confirmed k' = ck_confirmed k ∧
  ck_registry k' = fst (m (ck_registry k)) ∧
  outcome = map_err MarketDataFault (snd (m (ck_registry k))).
Proof. unfold on_registry. destruct (m _) as [r o]. by intros [= <- <-]. Qed.

Lemma acknowledgement_processed expected response k k' outcome :
  process_acknowledgement expected response k = (k', outcome) → processed response k k' outcome.
Proof.
  unfold process_acknowledgement. destruct (ck_phase k).
  - unfold st_bind. destruct (on_registry _ _) as [k1 o] eqn:Ho. apply on_registry_gate in Ho as (Hg & _).
    destruct o; intros [= <- <-]; [by constructor|by constructor].
  - unfold st_bind. destruct (on_registry _ _) as [k1 o] eqn:Ho. apply on_registry_gate in Ho as (Hg & _).
    destruct o as [l|]; [|intros [= <- <-]; by constructor]. simpl. case_bool_decide; intros [= <- <-]; by constructor.
  - intros [= <- <-]. by constructor.
Qed.

(** A response that carries a fact: it is wanted, decoded and goes through the gate. *)
Lemma response_processed expected response k k' outcome :
  process_response expected response k = (k', outcome) → processed response k k' outcome.
Proof.
  unfold process_response. destruct (mdr_payload response) as [payload|] eqn:Hp; [|intros [= <- <-]; by constructor].
  destruct payload; try apply acknowledgement_processed;
    unfold require_desired, decoded, st_lift, st_bind, st_get, st_put, st_ret;
    try (destruct (accepts_event_before_ack _ _ _); [|intros [= <- <-]; by constructor]);
    match goal with |- context[map_err _ ?d] => destruct d as [c|] eqn:Hd end; simpl;
    try (intros [= <- <-]; by constructor);
    (eapply sequenced_processed; [rewrite Hp; simpl; by rewrite Hd|done|done|done]).
Qed.

(** ** Acknowledgements *)

(** What the registry says is confirmed was acknowledged on this connection. *)
Definition earned (heard : list MarketDataResponse) (registry : MarketSubscriptionRegistry) : Prop :=
  ∀ s stream_id subscription_id, mr_entries registry !! s = Some (Confirmed stream_id subscription_id) →
    acknowledged heard s stream_id subscription_id.

Lemma reports_more heard heard' s stream_id subscription_id action :
  (∀ r, r ∈ heard → r ∈ heard') → reports heard s stream_id subscription_id action →
  reports heard' s stream_id subscription_id action.
Proof. intros Hh (r & f & Hr & H). exists r, f. split; [auto|done]. Qed.

Lemma earned_more heard heard' registry :
  (∀ r, r ∈ heard → r ∈ heard') → earned heard registry → earned heard' registry.
Proof. intros Hh He s a b Hs. destruct (He s a b Hs) as [Hr Hv]. split; [by eapply reports_more|done]. Qed.

Lemma broker_confirmed_more heard heard' s :
  (∀ r, r ∈ heard → r ∈ heard') → broker_confirmed heard s → broker_confirmed heard' s.
Proof.
  intros Hh (a & b & [Ha Hv] & Hl). exists a, b. split; [split; [by eapply reports_more|done]|by eapply reports_more].
Qed.

Definition admissible (context : SubscriptionResponseContext) : Prop :=
  context = CommandContext (as_i32 SubscriptionAction_Subscribe) ∨ context = ActiveSnapshotContext.

Lemma apply_status_earned heard response s fields context registry registry' outcome :
  response ∈ heard → (s, fields) ∈ response_entries (mdr_payload response) → admissible context → earned heard registry →
  apply_subscription_status s fields context registry = (registry', outcome) →
  dom (mr_entries registry') = dom (mr_entries registry) ∧ earned heard registry' ∧
  (∀ a, outcome = Ok a → sa_subscription a = s ∧ (context = ActiveSnapshotContext → broker_confirmed heard s)).
Proof.
  intros Hr Hin Hc He. unfold apply_subscription_status.
  destruct (mr_entries registry !! s) as [state|] eqn:Hs; [|by intros [= <- <-]].
  assert (∀ st, dom (<[s:=st]> (mr_entries registry)) = dom (mr_entries registry)) as Hdom.
  { intros st. apply dom_insert_lookup_L. by eexists. }
  destruct (Z.eqb_spec (sf_provider_status fields) SubscriptionStatus_Success) as [Hok|_]; simpl.
  2: { intros [= <- <-]. simpl. split_and!; [apply Hdom| |done]. intros s' a b. simpl.
       destruct (decide (s = s')) as [<-|]; [by rewrite lookup_insert_eq|rewrite lookup_insert_ne by done; apply He]. }
  destruct (match context with CommandContext _ => _ | ActiveSnapshotContext => _ end) eqn:Ha; [by intros [= <- <-]|].
  destruct (_ || _) eqn:Hid; [by intros [= <- <-]|]. apply orb_false_iff in Hid as [Hsid%bool_decide_eq_false Huuid%negb_false_iff].
  destruct Hc as [-> | ->].
  - rewrite Z.eqb_refl. intros [= <- <-]. simpl. split_and!; [apply Hdom| |by intros a [= <-]].
    intros s' a b. simpl. destruct (decide (s = s')) as [<-|]; [|rewrite lookup_insert_ne by done; apply He].
    rewrite lookup_insert_eq. intros [= <- <-]. split; [|done]. exists response, fields. split_and!; try done.
    intros a [= <-]. by apply negb_false_iff, Z.eqb_eq in Ha.
  - case_bool_decide as Hst; intros [= <- <-]; [|done]. split_and!; [done|done|]. intros a [= <-]. split; [done|].
    intros _. exists (sf_stream_id fields), (sf_subscription_id fields). split; [by apply He; rewrite Hs, Hst|].
    exists response, fields. split_and!; done.
Qed.

Lemma apply_entries_earned heard response entries context registry registry' outcome :
  response ∈ heard → (∀ e, e ∈ entries → e ∈ response_entries (mdr_payload response)) → admissible context →
  earned heard registry → apply_entries entries context registry = (registry', outcome) →
  dom (mr_entries registry') = dom (mr_entries registry) ∧ earned heard registry' ∧
  (∀ l a, outcome = Ok l → a ∈ l → context = ActiveSnapshotContext → broker_confirmed heard (sa_subscription a)).
Proof.
  intros Hr Hin Hc. revert registry registry' outcome. induction entries as [|[s fields] entries IH]; intros registry registry' outcome He; simpl.
  { intros [= <- <-]. split_and!; [done|done|]. by intros l a [= <-] ?%elem_of_nil. }
  unfold st_bind at 1. destruct (apply_subscription_status _ _ _ _) as [r1 o1] eqn:H1.
  apply (apply_status_earned heard response) in H1 as (Hd1 & He1 & Ha1); [|done|apply Hin; set_solver|done|done].
  destruct o1 as [a1|e]; [|by intros [= <- <-]].
  unfold st_bind. destruct (apply_entries _ _ _) as [r2 o2] eqn:H2.
  destruct (IH ltac:(set_solver) r1 r2 o2 He1 H2) as (Hd2 & He2 & Ha2).
  destruct o2 as [l2|e]; intros [= <- <-]; (split_and!; [by rewrite Hd2|done|]); [|done].
  intros l a [= <-] [->|Ha]%elem_of_cons Hctx; [|by eapply Ha2].
  destruct (Ha1 a1 eq_refl) as [-> Hb]. by apply Hb.
Qed.

Definition is_acknowledgement (response : MarketDataResponse) : bool :=
  match mdr_payload response with
  | Some (SubscribeCandlesAnswer _ | SubscribeOrderBookAnswer _ | SubscribeTradesAnswer _ | SubscribeInfoAnswer _
          | SubscribeLastPriceAnswer _) => true
  | _ => false
  end.

Lemma sequenced_control uid family name time bytes event k k' outcome :
  passed_on event = true → sequenced uid family name time bytes event k = (k', outcome) →
  ck_registry k' = ck_registry k ∧ ck_confirmed k' = ck_confirmed k ∧ ck_phase k' = ck_phase k ∧
  (∀ n, outcome ≠ Ok (Some (BrokerConfirmed n))).
Proof.
  intros He. unfold sequenced. destruct (gate_observe _ _ _ _ _) as [g d]. intros [= <- <-]. split_and!; try done.
  intros n. by destruct d; destruct event.
Qed.

(** Market data leaves the subscriptions as they are. *)
Lemma data_keeps_entries expected response k k' outcome :
  is_acknowledgement response = false → process_response expected response k = (k', outcome) →
  mr_entries (ck_registry k') = mr_entries (ck_registry k) ∧ ck_confirmed k' = ck_confirmed k ∧
  ck_phase k' = ck_phase k ∧ ∀ n, outcome ≠ Ok (Some (BrokerConfirmed n)).
Proof.
  unfold process_response, is_acknowledgement.
  destruct (mdr_payload response) as [payload|] eqn:Hp; [|by intros _ [= <- <-]].
  destruct payload; try done; intros _;
    unfold require_desired, decoded, st_lift, st_bind, st_get, st_put, st_ret;
    try (destruct (accepts_event_before_ack _ _ _); [|by intros [= <- <-]]);
    match goal with |- context[map_err _ ?d] => destruct d as [c|] eqn:Hd end; simpl;
    try (by intros [= <- <-]); (intros (-> & -> & -> & ?)%sequenced_control; done).
Qed.

Lemma acknowledgement_confirms heard expected response k k' outcome :
  response ∈ heard → earned heard (ck_registry k) → (∀ s, s ∈ ck_confirmed k → broker_confirmed heard s) →
  process_acknowledgement expected response k = (k', outcome) →
  dom (mr_entries (ck_registry k')) = dom (mr_entries (ck_registry k)) ∧ earned heard (ck_registry k') ∧
  (∀ s, s ∈ ck_confirmed k' → broker_confirmed heard s) ∧
  (is_ok outcome = true → ck_phase k' = Active → expected ⊆ ck_confirmed k') ∧
  (∀ n, outcome = Ok (Some (BrokerConfirmed n)) → n = Z.of_nat (size expected)).
Proof.
  intros Hh He Hc. unfold process_acknowledgement.
  destruct (ck_phase k) eqn:Hph; [| |by intros [= <- <-]]; unfold st_bind, st_get, st_put, st_ret;
    destruct (on_registry _ _) as [k1 o1] eqn:Ho; apply on_registry_gate in Ho as (_ & Hp1 & Hc1 & Hr1 & Ho1).
  - unfold apply_command_response, apply_subscription_response in Hr1, Ho1.
    destruct (apply_entries _ _ _) as [reg o] eqn:Ha.
    apply (apply_entries_earned heard response) in Ha as (Hd & He' & _); [|done|done|by left|done].
    simpl in Hr1. subst reg. rewrite Hph in Hp1.
    destruct o1; intros [= <- <-]; (split_and!; [done|done|by rewrite Hc1|by rewrite Hp1|done]).
  - unfold parse_active_snapshot_response, apply_subscription_response, st_bind in Hr1, Ho1.
    destruct (apply_entries _ _ _) as [reg o] eqn:Ha.
    apply (apply_entries_earned heard response) in Ha as (Hd & He' & Hl); [|done|done|by right|done].
    assert (reg = ck_registry k1) as -> by (by destruct o).
    destruct o as [l|e]; simpl in Ho1; subst o1; simpl.
    2: { intros [= <- <-]. split_and!; try done; by rewrite ?Hc1. }
    rewrite Hc1. assert (∀ s, s ∈ ck_confirmed k ∪ list_to_set (as_subscription <$> (snapshot_of <$> l)) → broker_confirmed heard s) as Hall.
    { intros s [?|Hs]%elem_of_union; [by apply Hc|]. apply elem_of_list_to_set in Hs.
      rewrite <- list_fmap_compose in Hs. apply list_elem_of_fmap in Hs as (a & -> & Hin). by eapply Hl. }
    case_bool_decide; intros [= <- <-]; simpl; (split_and!; [done|done|done| |]); try done.
    + by intros n [= <-].
    + by rewrite Hp1, Hph.
Qed.

(** Market data is of what is subscribed to. *)
Lemma response_wanted expected response k k' event :
  process_response expected response k = (k', Ok (Some event)) →
  ∀ uid family, subject event = Some (uid, family) →
  ∃ s, s ∈ dom (mr_entries (ck_registry k)) ∧ ms_instrument_id s = uid ∧ family_of (ms_kind s) = family.
Proof.
  intros H uid family Hs. unfold process_response in H. destruct (mdr_payload response) as [payload|]; [|done].
  assert (process_acknowledgement expected response k = (k', Ok (Some event)) → False) as Hno.
  { clear H. unfold process_acknowledgement. destruct (ck_phase k); [| |done]; unfold st_bind;
      destruct (on_registry _ _) as [k1 [l|]]; simpl; try done; [|case_bool_decide]; intros [= _ <-]; done. }
  destruct payload; try done;
    unfold require_desired, decoded, st_lift, st_bind, st_get, st_put, st_ret in H;
    try (destruct (accepts_event_before_ack _ _ _) eqn:Hw; [|done]);
    match goal with H : context[map_err _ ?d] |- _ => destruct d as [c|] eqn:Hd end; simpl in H; try done;
    try (unfold sequenced in H; destruct (gate_observe _ _ _ _ _) as [g []]; simpl in H);
    injection H as _ <-; try done; injection Hs as <- <-; apply accepts_wanted in Hw;
    first [rewrite (candle_uid _ _ Hd)|rewrite (trade_uid _ _ Hd)|rewrite (status_uid _ _ Hd)|rewrite (price_uid _ _ Hd)
          |rewrite (interest_uid _ _ Hd)|rewrite (book_uid _ _ Hd)]; done.
Qed.

(** ** The gate and the trace *)

Notation trace := (list (option ResponsePayload * MarketDataStreamEvent)).

(** The gate knows the latest of what was passed on, and while the client is there nothing
    else. *)
Record trace_ok (gate : EventSequenceGate) (alive : bool) (T : trace) : Prop := {
  tr_sorted : StronglySorted follows T;
  tr_dropped l1 x l2 : T = l1 ++ x :: l2 → dropped_rightly l1 x;
  tr_knows x f : x ∈ T → delivered x = Some f →
    ∃ latest seen, gate !! ft_key f = Some (latest, seen) ∧
      (ft_time f < latest ∨ ft_time f = latest ∧ ft_bytes f ∈ seen);
  tr_earned key latest seen : alive = true → gate !! key = Some (latest, seen) →
    (∃ b, b ∈ seen) ∧ ∀ b, b ∈ seen → ∃ x f, x ∈ T ∧ delivered x = Some f ∧ ft_key f = key ∧ ft_time f = latest ∧ ft_bytes f = b;
}.

Lemma trace_snoc gate alive T x :
  trace_ok gate alive T → delivered x = None → dropped_rightly T x → trace_ok gate alive (T ++ [x]).
Proof.
  intros Ht Hx Hd. split.
  - apply StronglySorted_app_2; [|apply Ht|by repeat constructor].
    intros y z Hy ->%list_elem_of_singleton f g _ Hg. by rewrite Hx in Hg.
  - intros l1 y l2 Heq. destruct l2 as [|z l2 _] using rev_ind.
    + apply app_inj_tail in Heq as [<- <-]. done.
    + rewrite app_comm_cons, app_assoc in Heq. apply app_inj_tail in Heq as [-> _]. by eapply (tr_dropped _ _ _ Ht).
  - intros y f [Hy| ->%list_elem_of_singleton]%elem_of_app Hf; [by apply (tr_knows _ _ _ Ht y)|by rewrite Hx in Hf].
  - intros key latest seen Ha Hk. destruct (tr_earned _ _ _ Ht key latest seen Ha Hk) as [Hne Hs]. split; [done|].
    intros b (y & f & Hy & H)%Hs. exists y, f. split; [set_solver|done].
Qed.

Lemma plain_delivered payload event :
  passed_on event = false → delivered (payload, event) = None.
Proof. unfold delivered. simpl. by intros ->. Qed.

(** What the gate lets through follows everything that was passed on. *)
Lemma gate_accepts gate gate' alive T f :
  trace_ok gate alive T →
  gate_observe (ft_key f).1 (ft_key f).2 (ft_time f) (ft_bytes f) gate = (gate', Accept) →
  (∀ x g, x ∈ T → delivered x = Some g → ft_key g = ft_key f →
     ft_time g < ft_time f ∨ ft_time g = ft_time f ∧ ft_bytes g ≠ ft_bytes f) ∧
  ∃ seen, (seen = ∅ ∨ gate !! ft_key f = Some (ft_time f, seen)) ∧
    gate' = <[ft_key f := (ft_time f, {[ft_bytes f]} ∪ seen)]> gate ∧
    (∀ latest s, gate !! ft_key f = Some (latest, s) → latest < ft_time f ∨ latest = ft_time f ∧ s = seen).
Proof.
  intros Ht Ho. unfold gate_observe in Ho. rewrite <- surjective_pairing in Ho.
  destruct (gate !! ft_key f) as [[latest seen]|] eqn:Hg.
  - destruct (Z.ltb_spec (ft_time f) latest); [done|]. destruct (Z.eqb_spec (ft_time f) latest) as [<-|Hne].
    + case_bool_decide as Hb; [done|]. injection Ho as <-. split.
      * intros x g Hx Hd Hk. destruct (tr_knows _ _ _ Ht x g Hx Hd) as (l & s & Hs & Hor). rewrite Hk, Hg in Hs.
        injection Hs as <- <-. destruct Hor as [|[-> Hin]]; [by left|]. right. split; [done|]. intros Heq. by rewrite Heq in Hin.
      * exists seen. split_and!; [by right|done|]. intros l s [= <- <-]. by right.
    + injection Ho as <-. split.
      * intros x g Hx Hd Hk. destruct (tr_knows _ _ _ Ht x g Hx Hd) as (l & s & Hs & Hor). rewrite Hk, Hg in Hs.
        injection Hs as <- <-. left. lia.
      * exists ∅. split_and!; [by left|by rewrite (right_id_L ∅ (∪))|]. intros l s [= <- <-]. left. lia.
  - injection Ho as <-. split.
    + intros x g Hx Hd Hk. destruct (tr_knows _ _ _ Ht x g Hx Hd) as (l & s & Hs & _). by rewrite Hk, Hg in Hs.
    + exists ∅. split_and!; [by left|by rewrite (right_id_L ∅ (∪))|done].
Qed.

Lemma gate_refuses gate gate' alive T payload f d uid name :
  trace_ok gate alive T → payload ≫= fact_of = Some f → d ≠ Accept →
  gate_observe (ft_key f).1 (ft_key f).2 (ft_time f) (ft_bytes f) gate = (gate', d) →
  gate' = gate ∧ (alive = true → dropped_rightly T (payload, Dropped uid name (bool_decide (d = OutOfOrder)))).
Proof.
  intros Ht Hf Hd Ho. unfold gate_observe in Ho. rewrite <- surjective_pairing in Ho.
  destruct (gate !! ft_key f) as [[latest seen]|] eqn:Hg; [|by injection Ho as <- <-].
  destruct (Z.ltb_spec (ft_time f) latest) as [Hlt|].
  - injection Ho as <- <-. split; [done|]. intros Ha. intros ? ? ? [= <- <- <-].
    destruct (tr_earned _ _ _ Ht _ _ _ Ha Hg) as [[b Hb] Hs]. destruct (Hs b Hb) as (y & g & Hy & Hdy & Hk & Htm & _).
    exists f, y, g. split_and!; [done..|]. simpl. lia.
  - destruct (Z.eqb_spec (ft_time f) latest) as [<-|]; [|by injection Ho as <- <-].
    case_bool_decide as Hb; [|by injection Ho as <- <-]. injection Ho as <- <-. split; [done|]. intros Ha ? ? ? [= <- <- <-].
    destruct (tr_earned _ _ _ Ht _ _ _ Ha Hg) as [_ Hs]. destruct (Hs _ Hb) as (y & g & Hy & Hdy & Hk & Htm & Hby).
    exists f, y, g. split_and!; done.
Qed.

Lemma gate_moved gate alive T f seen :
  trace_ok gate alive T →
  (∀ latest s, gate !! ft_key f = Some (latest, s) → latest < ft_time f ∨ latest = ft_time f ∧ s = seen) →
  ∀ x g, x ∈ T → delivered x = Some g →
  ∃ latest s, (<[ft_key f := (ft_time f, {[ft_bytes f]} ∪ seen)]> gate) !! ft_key g = Some (latest, s) ∧
    (ft_time g < latest ∨ ft_time g = latest ∧ ft_bytes g ∈ s).
Proof.
  intros Ht Hl x g Hx Hg. destruct (tr_knows _ _ _ Ht x g Hx Hg) as (latest & s & Hs & Hor).
  destruct (decide (ft_key f = ft_key g)) as [Hk|Hk].
  - rewrite Hk, lookup_insert_eq. eexists _, _. split; [done|]. rewrite <- Hk in Hs.
    destruct (Hl _ _ Hs) as [|[-> ->]]; [left; lia|]. destruct Hor as [|[-> Hin]]; [by left|]. right. set_solver.
  - rewrite lookup_insert_ne by done. eauto.
Qed.

Lemma trace_accept gate gate' alive T payload event f :
  trace_ok gate alive T → payload ≫= fact_of = Some f → passed_on event = true →
  gate_observe (ft_key f).1 (ft_key f).2 (ft_time f) (ft_bytes f) gate = (gate', Accept) →
  trace_ok gate' alive (T ++ [(payload, event)]) ∧ (alive = false → trace_ok gate' alive T).
Proof.
  intros Ht Hf He Ho. destruct (gate_accepts _ _ _ _ _ Ht Ho) as (Hafter & seen & Hseen & -> & Hlat).
  assert (delivered (payload, event) = Some f) as Hd by (unfold delivered; simpl; by rewrite He).
  pose proof (gate_moved _ _ _ _ _ Ht Hlat) as Hmoved.
  assert (∀ l1 x l2, T ++ [(payload, event)] = l1 ++ x :: l2 → dropped_rightly l1 x) as Hdr.
  { intros l1 y l2 Heq. destruct l2 as [|z l2 _] using rev_ind.
    - apply app_inj_tail in Heq as [<- <-]. intros u n b Hev. simpl in Hev. by rewrite Hev in He.
    - rewrite app_comm_cons, app_assoc in Heq. apply app_inj_tail in Heq as [-> _]. by eapply (tr_dropped _ _ _ Ht). }
  split; [|intros ->; split; [apply Ht|apply Ht|done|done]]. split; [|done| |].
  - apply StronglySorted_app_2; [|apply Ht|by repeat constructor].
    intros y z Hy ->%list_elem_of_singleton g f' Hg Hf' Hk. rewrite Hd in Hf'. injection Hf' as <-. by eapply Hafter.
  - intros y g [Hy| ->%list_elem_of_singleton]%elem_of_app Hg; [by eapply Hmoved|].
    rewrite Hd in Hg. injection Hg as <-. rewrite lookup_insert_eq. eexists _, _. split; [done|]. right. set_solver.
  - intros key latest s Ha. destruct (decide (ft_key f = key)) as [<-|Hk].
    + rewrite lookup_insert_eq. intros [= <- <-]. split; [exists (ft_bytes f); set_solver|].
      intros b [->%elem_of_singleton|Hb]%elem_of_union.
      { exists (payload, event), f. split_and!; [set_solver|done..]. }
      destruct Hseen as [->|Hg]; [set_solver|]. destruct (tr_earned _ _ _ Ht _ _ _ Ha Hg) as [_ Hs].
      destruct (Hs b Hb) as (y & g & Hy & H). exists y, g. split; [set_solver|done].
    + rewrite lookup_insert_ne by done. intros Hg. destruct (tr_earned _ _ _ Ht _ _ _ Ha Hg) as [Hne Hs]. split; [done|].
      intros b (y & g & Hy & H)%Hs. exists y, g. split; [set_solver|done].
Qed.

(** ** The invariant of a run *)

Context (config : MarketDataSupervisorConfig) (registry0 : MarketSubscriptionRegistry).
Notation wanted := (dom (mr_entries registry0)).

(** What holds wherever the loop is. *)
Record solid (r : MarketRun) : Prop := {
  so_entries : dom (mr_entries (mk_registry r)) = wanted;
  so_trace : trace_ok (mk_gate r) (mk_alive r) (mk_reported r);
  so_events : Forall (λ x, legitimate config registry0 x.2) (mk_reported r);
  so_attempt : 0 ≤ mk_attempt r;
  so_stop payload : (payload, Stopped) ∈ mk_reported r → mk_stop r = true;
}.

Definition quiet (r : MarketRun) : Prop := Forall (λ x, terminal x.2 = false) (mk_reported r).

(** The provider's confirmations so far. *)
Definition confirming (r : MarketRun) (expected confirmed : gset MarketSubscription) : Prop :=
  expected = wanted ∧ earned (mk_heard r) (mk_registry r) ∧ ∀ s, s ∈ confirmed → broker_confirmed (mk_heard r) s.

Definition phase_ok (r : MarketRun) : Prop :=
  match mk_phase r with
  | AtTop | Delaying => quiet r
  | Connecting _ => quiet r ∧ earned (mk_heard r) (mk_registry r)
  | Streaming expected phase confirmed =>
      quiet r ∧ confirming r expected confirmed ∧ (phase = Active → expected ⊆ confirmed)
  | Requesting expected confirmed => quiet r ∧ confirming r expected confirmed
  | Returned => mk_alive r = true → ∃ l x, mk_reported r = l ++ [x] ∧ terminal x.2 = true
  end.

Definition orderly (r : MarketRun) : Prop := solid r ∧ phase_ok r.

Lemma solid_send payload event r :
  solid r → passed_on event = false → (∀ uid name b, event ≠ Dropped uid name b) →
  legitimate config registry0 event → (event = Stopped → mk_alive r = true → mk_stop r = true) →
  solid (send payload event r).
Proof.
  intros Hs Hp Hd Hl Hst. unfold send. destruct (mk_alive r) eqn:Ha; [|done]. destruct Hs as [H1 H2 H3 H4 H5].
  split; simpl; try done.
  - rewrite Ha in H2. rewrite ?Ha. apply trace_snoc; [done|by apply plain_delivered|]. intros u n b Hev. by destruct (Hd u n b).
  - apply Forall_app. split; [done|]. by apply Forall_singleton.
  - intros p [Hin|[= -> <-]%list_elem_of_singleton]%elem_of_app; [by eapply H5|by apply Hst].
Qed.

Lemma ending_orderly event r :
  solid r → terminal event = true → (event = Stopped → mk_alive r = true → mk_stop r = true) → orderly (ending event r).
Proof.
  intros Hs He Hst. assert (solid (send None event r)) as Hs'.
  { apply solid_send; try done; destruct event; try done; split; done. }
  split; [by destruct Hs'; split|]. unfold phase_ok, ending, send. simpl. destruct (mk_alive r) eqn:Ha; simpl; [|by rewrite Ha].
  intros _. eexists _, _. split; [done|]. done.
Qed.

Lemma solid_go p r : solid r → solid (go p r).
Proof. intros [H1 H2 H3 H4 H5]. by split. Qed.
Lemma solid_attempt n r : 0 ≤ n → solid r → solid (set_attempt n r).
Proof. intros Hn [H1 H2 H3 H4 H5]. by split. Qed.
Lemma quiet_send payload event r : quiet r → terminal event = false → quiet (send payload event r).
Proof.
  unfold quiet, send. intros Hq He. destruct (mk_alive r); [|done]. simpl. apply Forall_app. split; [done|]. by apply Forall_singleton.
Qed.

Lemma failed_orderly error r : solid r → quiet r → orderly (connection_failed config error r).
Proof.
  intros Hs Hq. unfold connection_failed. destruct (negb _); [by apply ending_orderly|].
  assert (solid (set_attempt ((mk_attempt r + 1) mod 4294967296) r)) as Hs'.
  { apply solid_attempt; [|done]. by apply Z.mod_pos_bound. }
  case_match; [|by split; [apply solid_go|]].
  apply ending_orderly; [|done|done]. apply solid_send; try done.
Qed.

Lemma begin_orderly r : solid r → quiet r → orderly (begin_connection config r).
Proof.
  intros Hs Hq. unfold begin_connection.
  set (r1 := set_state _ _ _ r). assert (solid r1) as Hs1.
  { destruct Hs as [H1 H2 H3 H4 H5]. split; try done. subst r1. simpl. by rewrite dom_fmap_L. }
  assert (quiet r1) as Hq1 by done.
  destruct (_ <? _); [by apply failed_orderly|]. destruct (checked _ _); [|by apply failed_orderly].
  destruct (_ <? _); [by apply failed_orderly|]. split; [by apply solid_go|]. split; [done|].
  intros s a b. subst r1. simpl. rewrite lookup_fmap. by destruct (mr_entries (mk_registry r) !! s).
Qed.

Lemma at_top_orderly r : solid r → quiet r → orderly (at_top config r).
Proof.
  intros Hs Hq. unfold at_top. destruct (mk_stop r) eqn:Hst; [by apply ending_orderly|].
  destruct (Z.ltb_spec 0 (mk_attempt r)) as [Hpos|]; [|by apply begin_orderly].
  destruct (Z.ltb_spec (mc_max_reconnect_attempts config) (mk_attempt r)) as [|Hle]; [by apply ending_orderly|].
  destruct (mk_alive r) eqn:Ha.
  - split; [|by apply quiet_send]. apply solid_go, solid_send; try done. split; [done|]. split; [lia|done].
  - split; [by apply solid_go|]. unfold phase_ok. simpl. by rewrite Ha.
Qed.

Lemma solid_stop_seen r : solid r → solid (set_stop (mk_stop r) true (mk_alive r) r).
Proof. intros [H1 H2 H3 H4 H5]. by split. Qed.

Lemma stop_changed_orderly next r :
  solid r → orderly r → (solid (set_stop (mk_stop r) true (mk_alive r) r) →
    orderly (next (set_stop (mk_stop r) true (mk_alive r) r))) →
  orderly (on_stop_changed next r).
Proof.
  intros Hs Ho Hn. pose proof (solid_stop_seen r Hs) as Hs'. unfold on_stop_changed. destruct (negb _).
  - simpl. destruct (mk_stop r) eqn:Hst; [by apply ending_orderly|by apply Hn].
  - destruct (mk_alive r) eqn:Ha; [done|]. apply ending_orderly; [done|done|]. by rewrite Ha.
Qed.

Lemma connector_orderly outcome r :
  solid r → quiet r → earned (mk_heard r) (mk_registry r) → orderly (on_connector config outcome r).
Proof.
  intros Hs Hq He. destruct outcome as [[]|error]; simpl; [|by apply failed_orderly].
  destruct (mk_alive r) eqn:Ha; [|by apply failed_orderly]. split.
  - apply solid_go, solid_attempt; [done|]. by apply solid_send.
  - unfold phase_ok. simpl. split; [by apply (quiet_send None Connected)|]. unfold send. rewrite Ha.
    split; [|done]. split_and!; [|done|set_solver].
    apply set_eq. intros s. by rewrite elem_of_list_to_set, elem_of_desired, (so_entries _ Hs).
Qed.

Lemma after_response_orderly expected k r :
  solid r → quiet r → mk_registry r = ck_registry k → confirming r expected (ck_confirmed k) →
  (ck_phase k = Active → expected ⊆ ck_confirmed k) → orderly (after_response expected k r).
Proof.
  intros Hs Hq Hr Hc Ha. unfold after_response. by destruct (_ && _); (split; [by apply solid_go|]).
Qed.

(** A response: the event it yields is reported, or the connection fails. *)
Lemma response_trace expected response k k' outcome alive T :
  trace_ok (ck_gate k) alive T → process_response expected response k = (k', outcome) →
  (alive = false ∨ (∀ event, outcome ≠ Ok (Some event)) → trace_ok (ck_gate k') alive T) ∧
  (∀ event, outcome = Ok (Some event) → alive = true →
     trace_ok (ck_gate k') alive (T ++ [(mdr_payload response, event)]) ∧ terminal event = false ∧
     ∀ a d, event ≠ Reconnecting a d).
Proof.
  intros Ht Hp. apply response_processed in Hp as [e Hg|Hg|event Hg Hpl Htm Hdr Hre|f event name Hf He Hg]; rewrite ?Hg.
  1,2: by split.
  - split; [done|]. intros ? [= <-] _. split_and!; [|done|done]. apply trace_snoc; [done|by apply plain_delivered|].
    intros u n b Hev. by destruct (Hdr u n b).
  - destruct (gate_observe _ _ _ _ _) as [gate d] eqn:Ho. simpl. destruct (decide (d = Accept)) as [->|Hne].
    + destruct (trace_accept _ _ _ _ _ event _ Ht Hf He Ho) as [H1 H2]. split.
      * intros [->|Hno]; [by apply H2|]. by destruct (Hno event).
      * intros ? [= <-] _. split; [done|]. by destruct event.
    + destruct (gate_refuses _ _ _ _ _ _ _ (ft_key f).1 name Ht Hf Hne Ho) as [-> H2]. split; [done|].
      intros ev [= <-] Ha. assert (dropped_event d (ft_key f).1 name = Some (Dropped (ft_key f).1 name (bool_decide (d = OutOfOrder)))) as ->
        by (by destruct d). split; [|done]. by apply trace_snoc; [|apply plain_delivered|apply H2].
Qed.

Lemma response_connection heard expected response k k' outcome :
  dom (mr_entries (ck_registry k)) = wanted → expected = wanted →
  earned heard (ck_registry k) → (∀ s, s ∈ ck_confirmed k → broker_confirmed heard s) →
  (ck_phase k = Active → expected ⊆ ck_confirmed k) → process_response expected response k = (k', outcome) →
  dom (mr_entries (ck_registry k')) = wanted ∧ earned (heard ++ [response]) (ck_registry k') ∧
  (∀ s, s ∈ ck_confirmed k' → broker_confirmed (heard ++ [response]) s) ∧
  (is_ok outcome = true → ck_phase k' = Active → expected ⊆ ck_confirmed k') ∧
  (∀ n, outcome = Ok (Some (BrokerConfirmed n)) → n = Z.of_nat (size wanted)).
Proof.
  intros Hd -> He Hc Ha Hp.
  assert (earned (heard ++ [response]) (ck_registry k)) as He' by (eapply earned_more; [|done]; set_solver).
  assert (∀ s, s ∈ ck_confirmed k → broker_confirmed (heard ++ [response]) s) as Hc'.
  { intros s Hs. eapply broker_confirmed_more; [|by apply Hc]. set_solver. }
  destruct (is_acknowledgement response) eqn:Hack.
  - assert (process_acknowledgement wanted response k = (k', outcome)) as Hp'.
    { unfold process_response in Hp. unfold is_acknowledgement in Hack. destruct (mdr_payload response) as [[]|]; done. }
    apply (acknowledgement_confirms (heard ++ [response])) in Hp' as (H1 & H2 & H3 & H4 & H5); [|set_solver|done|done].
    split_and!; try done. by rewrite H1.
  - destruct (data_keeps_entries _ _ _ _ _ Hack Hp) as (H1 & H2 & H3 & H4). unfold earned. rewrite H1, H2, H3.
    split_and!; try done. intros n Hn. by destruct (H4 n).
Qed.

Lemma response_orderly expected phase confirmed response r :
  solid r → quiet r → confirming r expected confirmed → (phase = Active → expected ⊆ confirmed) →
  orderly (on_response config expected phase confirmed response r).
Proof.
  intros Hs Hq (Hex & He & Hc) Ha. unfold on_response. set (k := {| ck_registry := _ |}).
  destruct (process_response expected response k) as [k' outcome] eqn:Hp.
  pose proof (response_trace _ _ _ _ _ _ _ (so_trace _ Hs : trace_ok (ck_gate k) _ _) Hp) as [Hquiet Hsent].
  destruct (response_connection (mk_heard r) _ _ k _ _ (so_entries _ Hs) Hex He Hc Ha Hp) as (Hdom & He' & Hc' & Hact & Hn).
  assert (∀ T, trace_ok (ck_gate k') (mk_alive r) T → Forall (λ x, legitimate config registry0 x.2) T →
    (∀ p, (p, Stopped) ∈ T → mk_stop r = true) →
    solid {| mk_phase := mk_phase r; mk_attempt := mk_attempt r; mk_registry := ck_registry k'; mk_gate := ck_gate k';
             mk_stop := mk_stop r; mk_stop_seen := mk_stop_seen r; mk_alive := mk_alive r; mk_reported := T;
             mk_heard := mk_heard r ++ [response] |}) as Hsolid.
  { intros T HT Hl Hst. split; try done. apply Hs. }
  destruct outcome as [[event|]|error]; simpl.
  - destruct (mk_alive r) eqn:Hal.
    2: { apply failed_orderly; [|done]. unfold set_state. rewrite Hal. apply Hsolid; [apply Hquiet; by left|apply Hs..]. }
    destruct (Hsent event eq_refl eq_refl) as (HT & Hterm & Hre).
    assert (legitimate config registry0 event) as Hlegit.
    { split; [|destruct event; try done; [by destruct (Hre attempt delay)|by apply Hn]].
      intros uid family Hsub. destruct (response_wanted _ _ _ _ _ Hp uid family Hsub) as (s & Hin & H).
      exists s. split; [|done]. by rewrite <- (so_entries _ Hs). }
    assert (∀ p, (p, Stopped) ∈ mk_reported r ++ [(mdr_payload response, event)] → mk_stop r = true) as Hst.
    { intros p [Hin|[= _ Hev]%list_elem_of_singleton]%elem_of_app; [by eapply (so_stop _ Hs)|]. by subst event. }
    unfold send. simpl. rewrite Hal. apply after_response_orderly; simpl; [| |done|by split|by apply Hact].
    + apply Hsolid; [done| |done]. apply Forall_app. split; [apply Hs|by apply Forall_singleton].
    + unfold quiet. simpl. apply Forall_app. split; [done|by apply Forall_singleton].
  - apply after_response_orderly; simpl; try done; [|by apply Hact]. apply Hsolid; [apply Hquiet; by right|apply Hs..].
  - apply failed_orderly; [|done]. apply Hsolid; [apply Hquiet; by right|apply Hs..].
Qed.

(** Nothing is swallowed: a response leads to what is due. *)
Lemma failed_taken error r response :
  mk_alive r = true → taken r response (Err error) (connection_failed config error r).
Proof.
  intros Ha. unfold taken, connection_failed. destruct (negb _).
  - right. unfold ending, send. rewrite Ha. split; [done|]. exists [(None, Fault error)]. split_and!; [done| |done].
    repeat constructor. by eexists.
  - case_match; [right|by left]. unfold ending, send. simpl. rewrite Ha. simpl. rewrite ?Ha. split; [done|].
    exists [(None, Fault error); (None, Fault ReconnectExhausted)]. split_and!; [done| |by rewrite <-app_assoc].
    repeat constructor; by eexists.
Qed.

Lemma response_taken expected phase confirmed response r :
  dom (mr_entries (mk_registry r)) = wanted → mk_alive r = true →
  ∃ outcome, due registry0 phase response outcome ∧
    taken r response outcome (on_response config expected phase confirmed response r).
Proof.
  intros Hdom Ha. unfold on_response. set (k := {| ck_registry := _ |}).
  destruct (process_response expected response k) as [k' outcome] eqn:Hp. exists outcome.
  apply response_due in Hp. split.
  - unfold due, subscribed in *. simpl in Hp. by rewrite Hdom in Hp.
  - destruct outcome as [[event|]|error]; simpl.
    + rewrite Ha. unfold send. simpl. rewrite Ha. unfold after_response. by destruct (_ && _).
    + rewrite app_nil_r. unfold after_response. by destruct (_ && _).
    + set (r1 := set_state _ _ _ r). by apply (failed_taken error r1 response).
Qed.

Lemma market_step_orderly r input : orderly r → orderly (market_step config r input).
Proof.
  intros Ho. pose proof Ho as [Hs Hp]. unfold market_step, phase_ok in *.
  assert (orderly (set_stop (mk_stop r) (mk_stop_seen r) false r)) as Hdrop.
  { split; [|unfold phase_ok; simpl; by destruct (mk_phase r)]. destruct Hs as [H1 H2 H3 H4 H5]. split; try done.
    simpl. destruct H2. by split. }
  assert (mk_alive r = true → orderly (set_stop true false true r)) as Hcall.
  { intros Ha. split; [|unfold phase_ok; simpl; rewrite Ha in Hp; by destruct (mk_phase r)].
    destruct Hs as [H1 H2 H3 H4 H5]. rewrite Ha in H2. by split. }
  destruct input as [| | |outcome|outcome| |[[]|error]| |]; try done; try (destruct (mk_alive r) eqn:Ha; [by apply Hcall|done]);
    destruct (mk_phase r) as [| |reqs|expected phase confirmed|expected confirmed|] eqn:Hph; try done.
  - by apply at_top_orderly.
  - by apply begin_orderly.
  - apply stop_changed_orderly; [done|done|]. intros H. by apply begin_orderly.
  - apply stop_changed_orderly; [done|done|]. intros H. split; [done|]. unfold phase_ok. simpl. by rewrite Hph.
  - apply connector_orderly; [done|by apply Hp..].
  - destruct Hp as (Hq & Hc & Ha). destruct outcome as [[response|]|error]; simpl.
    + by apply response_orderly.
    + by apply failed_orderly.
    + by apply failed_orderly.
  - by apply failed_orderly; [|apply Hp].
  - split; [by apply solid_go|]. destruct Hp as [Hq Hc]. split_and!; done.
  - by apply failed_orderly; [|apply Hp].
Qed.

Lemma market_run_orderly inputs : orderly (market_run config registry0 inputs).
Proof.
  unfold market_run. induction inputs as [|input inputs IH] using rev_ind.
  - split; [|by constructor]. split; simpl; [done| |constructor|done|by intros p ?%elem_of_nil].
    split; [constructor|by intros [] ? ?|by intros ? ? ?%elem_of_nil|by intros ? ? ? _; rewrite lookup_empty].
  - rewrite fold_left_app. by apply market_step_orderly.
Qed.

End facts.

(** ** A run *)

Section sample.
#[local] Instance sample_uuid : UuidFormat := {| uuid_parses value := String.prefix "id-" value |}.
#[local] Instance sample_prost : Prost := {|
  encode_candle c := int_to_string (cm_interval c) +:+ int_to_string (cm_volume c); encode_trade _ := "";
  encode_trading_status _ := ""; encode_last_price _ := ""; encode_open_interest _ := "" |}.

Definition candles_of (interval : Z) : MarketSubscription := {|
  ms_instrument_id := "uid"; ms_kind := CandleKind interval false None |}.
Definition two_intervals : MarketSubscriptionRegistry :=
  fst (market_insert (candles_of 4) (fst (market_insert (candles_of 1) registry_default))).
Definition entry_for (interval : Z) : CandleSubscription := {|
  csb_figi := ""; csb_interval := interval; csb_subscription_status := SubscriptionStatus_Success;
  csb_instrument_uid := "uid"; csb_waiting_close := false; csb_stream_id := "stream";
  csb_subscription_id := "id-" +:+ int_to_string interval; csb_subscription_action := as_i32 SubscriptionAction_Subscribe;
  csb_candle_source_type := None; csb_ticker := ""; csb_class_code := "" |}.
Definition both_entries : MarketDataResponse := {|
  mdr_payload := Some (SubscribeCandlesAnswer {| scr_tracking_id := ""; scr_candles_subscriptions := [entry_for 1; entry_for 4] |}) |}.
Definition candle_at (interval seconds volume : Z) : MarketDataResponse :=
  let price := Some {| q_units := 1; q_nano := 0 |} in {|
  mdr_payload := Some (CandlePayload {|
    cm_figi := ""; cm_interval := interval; cm_open := price; cm_high := price; cm_low := price; cm_close := price;
    cm_volume := volume; cm_time := Some {| ts_seconds := seconds; ts_nanos := 0 |}; cm_last_trade_ts := None;
    cm_instrument_uid := "uid"; cm_ticker := ""; cm_class_code := ""; cm_volume_buy := 0; cm_volume_sell := 0;
    cm_candle_source_type := 0 |}) |}.

Definition hears (response : MarketDataResponse) : Input := MessageReturned (Ok (Some response)).

Definition summary (event : MarketDataStreamEvent) : MarketDataStreamEvent + (Z * Z) :=
  match event with CandleEvent c => inr (cc_interval c, cc_volume_lots c) | event => inl event end.

(** Subscribed to the candles of a minute and of an hour, confirmed by the provider; the
    same candle twice is passed on once.  The candle of the hour, whose time is the start of
    the hour, comes after a candle of a later minute: it is dropped as out of order, for the
    gate keeps one sequence for all intervals of an instrument. *)
Example hour_candle_is_dropped :
  summary <$> (mk_reported (market_run market_config_default two_intervals
    [Resume; ConnectorReturned (Ok tt); hears both_entries; SendReturned (Ok tt); hears both_entries;
     hears (candle_at 1 36300 5); hears (candle_at 1 36300 5); hears (candle_at 4 36000 9); CallStop; StopChanged])).*2
  = [inl Connected; inl (Acknowledged 2); inl (BrokerConfirmed 2); inr (1, 5); inl (Dropped "uid" "candle" false);
     inl (Dropped "uid" "candle" true); inl Stopped].
Proof. vm_compute. reflexivity. Qed.
End sample.
