(* ===== verification/TInvestAccount.v ===== *)
(** * Accounts, portfolios and positions: [crates/vox-tinvest/src/account.rs]

    The messages of the users and operations services, the read models the adapter keeps
    of them, and the client that reads them.  An optional amount stays optional, an
    enumeration keeps its wire number, a missing account identity or a malformed amount
    or timestamp fails the answer.  A portfolio and the positions are accepted only for
    the account that was asked for. *)
From S2P Require Import Prelude Money Domain TInvestWire TInvestCanonical TInvestGrpc.

(** ** Messages *)

Record AccountMessage := {
  am_id : string;
  am_type : Z;
  am_name : string;
  am_status : Z;
  am_opened_date : option Timestamp;
  am_closed_date : option Timestamp;
  am_access_level : Z;
}.

Inductive AccountStatus :=
| AccountStatus_Unspecified | AccountStatus_New | AccountStatus_Open | AccountStatus_Closed
| AccountStatus_All.
#[export] Instance AccountStatus_wire : WireEnum AccountStatus := {
  as_i32 s := match s with
              | AccountStatus_Unspecified => 0 | AccountStatus_New => 1 | AccountStatus_Open => 2
              | AccountStatus_Closed => 3 | AccountStatus_All => 4
              end;
  members := [AccountStatus_Unspecified; AccountStatus_New; AccountStatus_Open; AccountStatus_Closed;
              AccountStatus_All];
}.
#[export] Instance AccountStatus_laws : WireEnumLaws AccountStatus.
Proof. wire_enum. Qed.

Inductive AccessLevel :=
| AccessLevel_Unspecified | AccessLevel_FullAccess | AccessLevel_ReadOnly | AccessLevel_NoAccess.
#[export] Instance AccessLevel_wire : WireEnum AccessLevel := {
  as_i32 l := match l with
              | AccessLevel_Unspecified => 0 | AccessLevel_FullAccess => 1
              | AccessLevel_ReadOnly => 2 | AccessLevel_NoAccess => 3
              end;
  members := [AccessLevel_Unspecified; AccessLevel_FullAccess; AccessLevel_ReadOnly;
              AccessLevel_NoAccess];
}.
#[export] Instance AccessLevel_laws : WireEnumLaws AccessLevel.
Proof. wire_enum. Qed.

Record GetAccountsRequest := { gaq_status : option Z }.
Record GetAccountsResponse := { gar_accounts : list AccountMessage }.

Record GetMarginAttributesRequest := { gmq_account_id : string }.

Record GetMarginAttributesResponse := {
  gm_liquid_portfolio : option MoneyValue;
  gm_starting_margin : option MoneyValue;
  gm_minimal_margin : option MoneyValue;
  gm_funds_sufficiency_level : option Quotation;
  gm_amount_of_missing_funds : option MoneyValue;
  gm_corrected_margin : option MoneyValue;
  gm_guarantee_for_futures : option MoneyValue;
}.

Record UnaryLimitMessage := {
  ulm_limit_per_minute : Z; ulm_methods : list string; ulm_limit_per_second : option Z;
}.
Record StreamLimitMessage := { slm_limit : Z; slm_streams : list string; slm_open : Z }.

Record GetUserTariffResponse := {
  gut_unary_limits : list UnaryLimitMessage;
  gut_stream_limits : list StreamLimitMessage;
}.

Record GetInfoResponse := {
  gir_prem_status : bool;
  gir_qual_status : bool;
  gir_qualified_for_work_with : list string;
  gir_tariff : string;
  gir_user_id : string;
  gir_risk_level_code : string;
}.

Record BankAccountMessage := {
  bam_id : string;
  bam_name : string;
  bam_money : list MoneyValue;
  bam_opened_date : option Timestamp;
  bam_type : Z;
}.
Record GetBankAccountsResponse := { gbr_bank_accounts : list BankAccountMessage }.

Record InstrumentParameter := { ip_name : Z; ip_value : option MoneyValue }.
Record AccountValuesWithParameters := {
  avp_account_id : string; avp_values : list InstrumentParameter;
}.
Record GetAccountValuesRequest := { gvq_accounts : list string; gvq_values : list Z }.
Record GetAccountValuesResponse := { gvr_accounts : list AccountValuesWithParameters }.

Record PortfolioRequest := { pq_account_id : string; pq_currency : option Z }.

Record PortfolioPositionMessage := {
  ppm_figi : string;
  ppm_instrument_type : string;
  ppm_quantity : option Quotation;
  ppm_average_position_price : option MoneyValue;
  ppm_expected_yield : option Quotation;
  ppm_current_nkd : option MoneyValue;
  ppm_average_position_price_pt : option Quotation;
  ppm_current_price : option MoneyValue;
  ppm_average_position_price_fifo : option MoneyValue;
  ppm_quantity_lots : option Quotation;
  ppm_blocked : bool;
  ppm_blocked_lots : option Quotation;
  ppm_position_uid : string;
  ppm_instrument_uid : string;
  ppm_var_margin : option MoneyValue;
  ppm_expected_yield_fifo : option Quotation;
  ppm_daily_yield : option MoneyValue;
  ppm_ticker : string;
  ppm_class_code : string;
  ppm_var_margin_settled : option MoneyValue;
}.

Record VirtualPortfolioPositionMessage := {
  vpm_position_uid : string;
  vpm_instrument_uid : string;
  vpm_figi : string;
  vpm_instrument_type : string;
  vpm_quantity : option Quotation;
  vpm_average_position_price : option MoneyValue;
  vpm_expected_yield : option Quotation;
  vpm_expected_yield_fifo : option Quotation;
  vpm_expire_date : option Timestamp;
  vpm_current_price : option MoneyValue;
  vpm_average_position_price_fifo : option MoneyValue;
  vpm_daily_yield : option MoneyValue;
  vpm_ticker : string;
  vpm_class_code : string;
}.

Record PortfolioResponse := {
  pr_total_amount_shares : option MoneyValue;
  pr_total_amount_bonds : option MoneyValue;
  pr_total_amount_etf : option MoneyValue;
  pr_total_amount_currencies : option MoneyValue;
  pr_total_amount_futures : option MoneyValue;
  pr_expected_yield : option Quotation;
  pr_positions : list PortfolioPositionMessage;
  pr_account_id : string;
  pr_total_amount_options : option MoneyValue;
  pr_total_amount_sp : option MoneyValue;
  pr_total_amount_portfolio : option MoneyValue;
  pr_virtual_positions : list VirtualPortfolioPositionMessage;
  pr_daily_yield : option MoneyValue;
  pr_daily_yield_relative : option Quotation;
  pr_total_amount_dfa : option MoneyValue;
}.

Record PositionsSecurities := {
  sec_figi : string;
  sec_blocked : Z;
  sec_balance : Z;
  sec_position_uid : string;
  sec_instrument_uid : string;
  sec_ticker : string;
  sec_class_code : string;
  sec_exchange_blocked : bool;
  sec_instrument_type : string;
}.

Record PositionsFutures := {
  fut_figi : string;
  fut_blocked : Z;
  fut_balance : Z;
  fut_position_uid : string;
  fut_instrument_uid : string;
  fut_ticker : string;
  fut_class_code : string;
}.

Record PositionsOptions := {
  opt_position_uid : string;
  opt_instrument_uid : string;
  opt_ticker : string;
  opt_class_code : string;
  opt_blocked : Z;
  opt_balance : Z;
}.

Record PositionsRequest := { psq_account_id : string }.

Record PositionsResponse := {
  pp_money : list MoneyValue;
  pp_blocked : list MoneyValue;
  pp_securities : list PositionsSecurities;
  pp_limits_loading_in_progress : bool;
  pp_futures : list PositionsFutures;
  pp_options : list PositionsOptions;
  pp_account_id : string;
}.

Record WithdrawLimitsRequest := { wlq_account_id : string }.

Record WithdrawLimitsResponse := {
  wlr_money : list MoneyValue;
  wlr_blocked : list MoneyValue;
  wlr_blocked_guarantee : list MoneyValue;
}.

(** ** Fields *)

Notation decoded := (result AccountDataError).

Definition required_text (value field : string) : decoded string :=
  ok_or (optional_text value) (MissingIdentity field).

Definition optional_timestamp (value : option Timestamp) : decoded (option ProviderTimestamp) :=
  transpose (ProviderTimestamp_try_from <$> value).

Definition optional_money (value : option MoneyValue) : decoded (option CanonicalMoney) :=
  map_err (λ _, AccountInvalidUnitsNano) (transpose (CanonicalMoney_try_from <$> value)).

Definition optional_units (value : option Quotation) : decoded (option UnitsNano) :=
  transpose ((λ v, map_err (λ _, AccountInvalidUnitsNano) (UnitsNano_new (q_units v) (q_nano v)))
               <$> value).

Definition money_values (values : list MoneyValue) : decoded (list CanonicalMoney) :=
  collect (λ value, map_err (λ _, AccountInvalidUnitsNano) (CanonicalMoney_try_from value)) values.

(** ** Accounts *)

Record CanonicalAccount := {
  ca_account_id : string;
  ca_account_type : Z;
  ca_name : option string;
  ca_status : Z;
  ca_opened_at : option ProviderTimestamp;
  ca_closed_at : option ProviderTimestamp;
  ca_access_level : Z;
}.

Record AccountCatalogue := { cat_accounts : list CanonicalAccount }.

Definition CanonicalAccount_try_from (value : AccountMessage) : decoded CanonicalAccount :=
  let? account_id := required_text (am_id value) "account.id" in
  let? opened_at := optional_timestamp (am_opened_date value) in
  let? closed_at := optional_timestamp (am_closed_date value) in
  Ok {| ca_account_id := account_id; ca_account_type := am_type value;
        ca_name := optional_text (am_name value); ca_status := am_status value;
        ca_opened_at := opened_at; ca_closed_at := closed_at;
        ca_access_level := am_access_level value |}.

Definition AccountCatalogue_try_from (value : GetAccountsResponse) : decoded AccountCatalogue :=
  let? accounts := collect CanonicalAccount_try_from (gar_accounts value) in
  Ok {| cat_accounts := accounts |}.

Record MarginAttributes := {
  ma_liquid_portfolio : option CanonicalMoney;
  ma_starting_margin : option CanonicalMoney;
  ma_minimal_margin : option CanonicalMoney;
  ma_funds_sufficiency_level : option UnitsNano;
  ma_amount_of_missing_funds : option CanonicalMoney;
  ma_corrected_margin : option CanonicalMoney;
  ma_guarantee_for_futures : option CanonicalMoney;
}.

Definition MarginAttributes_try_from (value : GetMarginAttributesResponse) : decoded MarginAttributes :=
  let? liquid := optional_money (gm_liquid_portfolio value) in
  let? starting := optional_money (gm_starting_margin value) in
  let? minimal := optional_money (gm_minimal_margin value) in
  let? level := optional_units (gm_funds_sufficiency_level value) in
  let? missing := optional_money (gm_amount_of_missing_funds value) in
  let? corrected := optional_money (gm_corrected_margin value) in
  let? guarantee := optional_money (gm_guarantee_for_futures value) in
  Ok {| ma_liquid_portfolio := liquid; ma_starting_margin := starting; ma_minimal_margin := minimal;
        ma_funds_sufficiency_level := level; ma_amount_of_missing_funds := missing;
        ma_corrected_margin := corrected; ma_guarantee_for_futures := guarantee |}.

Record UnaryLimit := {
  ul_limit_per_minute : Z; ul_methods : list string; ul_limit_per_second : option Z;
}.
Record StreamLimit := { sl_limit : Z; sl_streams : list string; sl_open : Z }.
Record UserTariff := { ut_unary_limits : list UnaryLimit; ut_stream_limits : list StreamLimit }.

Definition UserTariff_from (value : GetUserTariffResponse) : UserTariff := {|
  ut_unary_limits := (λ l, {| ul_limit_per_minute := ulm_limit_per_minute l;
                              ul_methods := ulm_methods l;
                              ul_limit_per_second := ulm_limit_per_second l |})
                       <$> gut_unary_limits value;
  ut_stream_limits := (λ l, {| sl_limit := slm_limit l; sl_streams := slm_streams l;
                               sl_open := slm_open l |})
                        <$> gut_stream_limits value |}.

Record UserInfo := {
  ui_premium : bool;
  ui_qualified : bool;
  ui_qualified_for : list string;
  ui_tariff : option string;
  ui_user_id : option string;
  ui_risk_level_code : option string;
}.

Definition UserInfo_from (value : GetInfoResponse) : UserInfo := {|
  ui_premium := gir_prem_status value; ui_qualified := gir_qual_status value;
  ui_qualified_for := gir_qualified_for_work_with value;
  ui_tariff := optional_text (gir_tariff value); ui_user_id := optional_text (gir_user_id value);
  ui_risk_level_code := optional_text (gir_risk_level_code value) |}.

Record BankAccount := {
  bk_account_id : string;
  bk_name : option string;
  bk_money : list CanonicalMoney;
  bk_opened_at : option ProviderTimestamp;
  bk_account_type : Z;
}.

Record BankAccountCatalogue := { bkc_accounts : list BankAccount }.

Definition BankAccount_try_from (value : BankAccountMessage) : decoded BankAccount :=
  let? account_id := required_text (bam_id value) "bank_account.id" in
  let? money := money_values (bam_money value) in
  let? opened_at := optional_timestamp (bam_opened_date value) in
  Ok {| bk_account_id := account_id; bk_name := optional_text (bam_name value); bk_money := money;
        bk_opened_at := opened_at; bk_account_type := bam_type value |}.

Definition BankAccountCatalogue_try_from (value : GetBankAccountsResponse)
  : decoded BankAccountCatalogue :=
  let? accounts := collect BankAccount_try_from (gbr_bank_accounts value) in
  Ok {| bkc_accounts := accounts |}.

Record AccountValue := { av_name : Z; av_value : option CanonicalMoney }.
Record AccountValueSet := { avs_account_id : string; avs_values : list AccountValue }.
Record AccountValues := { avl_accounts : list AccountValueSet }.
Record AccountValuesQuery := { avq_account_ids : list string; avq_values : list Z }.
Record PortfolioQuery := { pfq_account_id : string; pfq_currency : option Z }.

Definition account_value (parameter : InstrumentParameter) : decoded AccountValue :=
  let? value := optional_money (ip_value parameter) in
  Ok {| av_name := ip_name parameter; av_value := value |}.

Definition account_value_set (account : AccountValuesWithParameters) : decoded AccountValueSet :=
  let? account_id := required_text (avp_account_id account) "account_values.account_id" in
  let? values := collect account_value (avp_values account) in
  Ok {| avs_account_id := account_id; avs_values := values |}.

Definition AccountValues_try_from (value : GetAccountValuesResponse) : decoded AccountValues :=
  let? accounts := collect account_value_set (gvr_accounts value) in
  Ok {| avl_accounts := accounts |}.

(** ** Positions *)

Record PositionIdentity := {
  pi_instrument_uid : option string;
  pi_position_uid : option string;
  pi_figi : option string;
  pi_ticker : option string;
  pi_class_code : option string;
}.

Definition position_identity (instrument_uid position_uid figi ticker class_code : string)
  : PositionIdentity := {|
  pi_instrument_uid := optional_text instrument_uid; pi_position_uid := optional_text position_uid;
  pi_figi := optional_text figi; pi_ticker := optional_text ticker;
  pi_class_code := optional_text class_code |}.

Record SecurityPosition := {
  sy_identity : PositionIdentity;
  sy_instrument_type : option string;
  sy_blocked : Z;
  sy_balance : Z;
  sy_exchange_blocked : bool;
}.

Record FuturePosition := { fp_identity : PositionIdentity; fp_blocked : Z; fp_balance : Z }.
Record OptionPosition := { opn_identity : PositionIdentity; opn_blocked : Z; opn_balance : Z }.

Definition SecurityPosition_from (value : PositionsSecurities) : SecurityPosition := {|
  sy_identity := position_identity (sec_instrument_uid value) (sec_position_uid value)
                   (sec_figi value) (sec_ticker value) (sec_class_code value);
  sy_instrument_type := optional_text (sec_instrument_type value);
  sy_blocked := sec_blocked value; sy_balance := sec_balance value;
  sy_exchange_blocked := sec_exchange_blocked value |}.

Definition FuturePosition_from (value : PositionsFutures) : FuturePosition := {|
  fp_identity := position_identity (fut_instrument_uid value) (fut_position_uid value)
                   (fut_figi value) (fut_ticker value) (fut_class_code value);
  fp_blocked := fut_blocked value; fp_balance := fut_balance value |}.

Definition OptionPosition_from (value : PositionsOptions) : OptionPosition := {|
  opn_identity := position_identity (opt_instrument_uid value) (opt_position_uid value)
                    "" (opt_ticker value) (opt_class_code value);
  opn_blocked := opt_blocked value; opn_balance := opt_balance value |}.

Record PositionsState := {
  pst_account_id : option string;
  pst_money : list CanonicalMoney;
  pst_blocked_money : list CanonicalMoney;
  pst_securities : list SecurityPosition;
  pst_futures : list FuturePosition;
  pst_options : list OptionPosition;
  pst_limits_loading_in_progress : bool;
}.

Definition PositionsState_try_from (value : PositionsResponse) : decoded PositionsState :=
  let? money := money_values (pp_money value) in
  let? blocked_money := money_values (pp_blocked value) in
  Ok {| pst_account_id := optional_text (pp_account_id value);
        pst_money := money; pst_blocked_money := blocked_money;
        pst_securities := SecurityPosition_from <$> pp_securities value;
        pst_futures := FuturePosition_from <$> pp_futures value;
        pst_options := OptionPosition_from <$> pp_options value;
        pst_limits_loading_in_progress := pp_limits_loading_in_progress value |}.

Record WithdrawLimits := {
  wl_money : list CanonicalMoney;
  wl_blocked : list CanonicalMoney;
  wl_blocked_guarantee : list CanonicalMoney;
}.

Definition WithdrawLimits_try_from (value : WithdrawLimitsResponse) : decoded WithdrawLimits :=
  let? money := money_values (wlr_money value) in
  let? blocked := money_values (wlr_blocked value) in
  let? guarantee := money_values (wlr_blocked_guarantee value) in
  Ok {| wl_money := money; wl_blocked := blocked; wl_blocked_guarantee := guarantee |}.

(** ** Portfolios *)

Record PortfolioPosition := {
  pop_identity : PositionIdentity;
  pop_instrument_type : option string;
  pop_quantity : option UnitsNano;
  pop_average_position_price : option CanonicalMoney;
  pop_expected_yield : option UnitsNano;
  pop_current_nkd : option CanonicalMoney;
  pop_average_position_price_points : option UnitsNano;
  pop_current_price : option CanonicalMoney;
  pop_average_position_price_fifo : option CanonicalMoney;
  pop_quantity_lots : option UnitsNano;
  pop_blocked : bool;
  pop_blocked_lots : option UnitsNano;
  pop_var_margin : option CanonicalMoney;
  pop_var_margin_settled : option CanonicalMoney;
  pop_expected_yield_fifo : option UnitsNano;
  pop_daily_yield : option CanonicalMoney;
}.

Definition PortfolioPosition_try_from (value : PortfolioPositionMessage) : decoded PortfolioPosition :=
  let? quantity := optional_units (ppm_quantity value) in
  let? average_position_price := optional_money (ppm_average_position_price value) in
  let? expected_yield := optional_units (ppm_expected_yield value) in
  let? current_nkd := optional_money (ppm_current_nkd value) in
  let? points := optional_units (ppm_average_position_price_pt value) in
  let? current_price := optional_money (ppm_current_price value) in
  let? fifo := optional_money (ppm_average_position_price_fifo value) in
  let? quantity_lots := optional_units (ppm_quantity_lots value) in
  let? blocked_lots := optional_units (ppm_blocked_lots value) in
  let? var_margin := optional_money (ppm_var_margin value) in
  let? var_margin_settled := optional_money (ppm_var_margin_settled value) in
  let? expected_yield_fifo := optional_units (ppm_expected_yield_fifo value) in
  let? daily_yield := optional_money (ppm_daily_yield value) in
  Ok {| pop_identity := position_identity (ppm_instrument_uid value) (ppm_position_uid value)
                          (ppm_figi value) (ppm_ticker value) (ppm_class_code value);
        pop_instrument_type := optional_text (ppm_instrument_type value);
        pop_quantity := quantity; pop_average_position_price := average_position_price;
        pop_expected_yield := expected_yield; pop_current_nkd := current_nkd;
        pop_average_position_price_points := points; pop_current_price := current_price;
        pop_average_position_price_fifo := fifo; pop_quantity_lots := quantity_lots;
        pop_blocked := ppm_blocked value; pop_blocked_lots := blocked_lots;
        pop_var_margin := var_margin; pop_var_margin_settled := var_margin_settled;
        pop_expected_yield_fifo := expected_yield_fifo; pop_daily_yield := daily_yield |}.

Record VirtualPortfolioPosition := {
  vp_identity : PositionIdentity;
  vp_instrument_type : option string;
  vp_quantity : option UnitsNano;
  vp_average_position_price : option CanonicalMoney;
  vp_expected_yield : option UnitsNano;
  vp_expected_yield_fifo : option UnitsNano;
  vp_expires_at : option ProviderTimestamp;
  vp_current_price : option CanonicalMoney;
  vp_average_position_price_fifo : option CanonicalMoney;
  vp_daily_yield : option CanonicalMoney;
}.

Definition VirtualPortfolioPosition_try_from (value : VirtualPortfolioPositionMessage)
  : decoded VirtualPortfolioPosition :=
  let? quantity := optional_units (vpm_quantity value) in
  let? average_position_price := optional_money (vpm_average_position_price value) in
  let? expected_yield := optional_units (vpm_expected_yield value) in
  let? expected_yield_fifo := optional_units (vpm_expected_yield_fifo value) in
  let? expires_at := optional_timestamp (vpm_expire_date value) in
  let? current_price := optional_money (vpm_current_price value) in
  let? fifo := optional_money (vpm_average_position_price_fifo value) in
  let? daily_yield := optional_money (vpm_daily_yield value) in
  Ok {| vp_identity := position_identity (vpm_instrument_uid value) (vpm_position_uid value)
                         (vpm_figi value) (vpm_ticker value) (vpm_class_code value);
        vp_instrument_type := optional_text (vpm_instrument_type value);
        vp_quantity := quantity; vp_average_position_price := average_position_price;
        vp_expected_yield := expected_yield; vp_expected_yield_fifo := expected_yield_fifo;
        vp_expires_at := expires_at; vp_current_price := current_price;
        vp_average_position_price_fifo := fifo; vp_daily_yield := daily_yield |}.

Record PortfolioState := {
  po_account_id : option string;
  po_total_amount_shares : option CanonicalMoney;
  po_total_amount_bonds : option CanonicalMoney;
  po_total_amount_etf : option CanonicalMoney;
  po_total_amount_currencies : option CanonicalMoney;
  po_total_amount_futures : option CanonicalMoney;
  po_total_amount_options : option CanonicalMoney;
  po_total_amount_structured_products : option CanonicalMoney;
  po_total_amount_portfolio : option CanonicalMoney;
  po_total_amount_dfa : option CanonicalMoney;
  po_expected_yield : option UnitsNano;
  po_daily_yield : option CanonicalMoney;
  po_daily_yield_relative : option UnitsNano;
  po_positions : list PortfolioPosition;
  po_virtual_positions : list VirtualPortfolioPosition;
}.

Definition PortfolioState_try_from (value : PortfolioResponse) : decoded PortfolioState :=
  let? shares := optional_money (pr_total_amount_shares value) in
  let? bonds := optional_money (pr_total_amount_bonds value) in
  let? etf := optional_money (pr_total_amount_etf value) in
  let? currencies := optional_money (pr_total_amount_currencies value) in
  let? futures := optional_money (pr_total_amount_futures value) in
  let? options := optional_money (pr_total_amount_options value) in
  let? structured := optional_money (pr_total_amount_sp value) in
  let? portfolio := optional_money (pr_total_amount_portfolio value) in
  let? dfa := optional_money (pr_total_amount_dfa value) in
  let? expected_yield := optional_units (pr_expected_yield value) in
  let? daily_yield := optional_money (pr_daily_yield value) in
  let? daily_yield_relative := optional_units (pr_daily_yield_relative value) in
  let? positions := collect PortfolioPosition_try_from (pr_positions value) in
  let? virtual_positions := collect VirtualPortfolioPosition_try_from (pr_virtual_positions value) in
  Ok {| po_account_id := optional_text (pr_account_id value);
        po_total_amount_shares := shares; po_total_amount_bonds := bonds;
        po_total_amount_etf := etf; po_total_amount_currencies := currencies;
        po_total_amount_futures := futures; po_total_amount_options := options;
        po_total_amount_structured_products := structured; po_total_amount_portfolio := portfolio;
        po_total_amount_dfa := dfa; po_expected_yield := expected_yield;
        po_daily_yield := daily_yield; po_daily_yield_relative := daily_yield_relative;
        po_positions := positions; po_virtual_positions := virtual_positions |}.

(** ** The read client *)

(** The remote reads of the users and operations services and of their sandbox. *)
Class AccountApi (W : Type) := {
  rpc_get_accounts : rpc W GetAccountsRequest GetAccountsResponse;
  rpc_get_margin_attributes : rpc W GetMarginAttributesRequest GetMarginAttributesResponse;
  rpc_get_user_tariff : rpc W () GetUserTariffResponse;
  rpc_get_info : rpc W () GetInfoResponse;
  rpc_get_bank_accounts : rpc W () GetBankAccountsResponse;
  rpc_get_account_values : rpc W GetAccountValuesRequest GetAccountValuesResponse;
  rpc_get_portfolio : rpc W PortfolioRequest PortfolioResponse;
  rpc_get_positions : rpc W PositionsRequest PositionsResponse;
  rpc_get_withdraw_limits : rpc W WithdrawLimitsRequest WithdrawLimitsResponse;
  rpc_get_sandbox_accounts : rpc W GetAccountsRequest GetAccountsResponse;
  rpc_get_sandbox_portfolio : rpc W PortfolioRequest PortfolioResponse;
  rpc_get_sandbox_positions : rpc W PositionsRequest PositionsResponse;
  rpc_get_sandbox_withdraw_limits : rpc W WithdrawLimitsRequest WithdrawLimitsResponse;
}.

Inductive AccountReadError :=
| ReadProvider (e : GrpcError)
| ReadCanonical (e : AccountDataError)
| MissingResponseAccount (expected : string)
| ResponseAccountMismatch (expected actual : string).

Definition account_data_text (e : AccountDataError) : string :=
  match e with
  | MissingIdentity field => "missing required provider identity: " +:+ field
  | AccountInvalidUnitsNano => "provider units/nano value is outside canonical range"
  | AccountInvalidTimestamp => "provider timestamp nanos are outside 0..1,000,000,000"
  | IdentityMismatch field => "provider response identity differs from request: " +:+ field
  end.

Definition account_read_text (e : AccountReadError) : string :=
  match e with
  | ReadProvider e => grpc_error_text e
  | ReadCanonical e => account_data_text e
  | MissingResponseAccount expected =>
      "provider response omitted account identity for request " +:+ expected
  | ResponseAccountMismatch expected actual =>
      "provider response account " +:+ actual +:+ " differs from request " +:+ expected
  end.

Definition validate_response_account (expected : string) (actual : option string)
  : result AccountReadError () :=
  match actual with
  | None => Err (MissingResponseAccount expected)
  | Some actual =>
      if negb (bool_decide (actual = expected)) then Err (ResponseAccountMismatch expected actual)
      else Ok tt
  end.

Section reads.
Context {W : Type} `{NW : !Network W} `{GR : !Grpc} `{AA : !AccountApi W}.

Notation call Req Resp := (TInvestGrpcClient → Req → st W GrpcError (GrpcResponse Resp)).
Notation ar := (st W AccountReadError).

Definition get_accounts : call GetAccountsRequest GetAccountsResponse := λ self,
  safe_service_read self "GetAccounts" rpc_get_accounts.
Definition get_margin_attributes : call GetMarginAttributesRequest GetMarginAttributesResponse := λ self,
  safe_service_read self "GetMarginAttributes" rpc_get_margin_attributes.
Definition get_user_tariff : call () GetUserTariffResponse := λ self,
  safe_service_read self "GetUserTariff" rpc_get_user_tariff.
Definition get_info : call () GetInfoResponse := λ self,
  safe_service_read self "GetInfo" rpc_get_info.
Definition get_bank_accounts : call () GetBankAccountsResponse := λ self,
  safe_service_read self "GetBankAccounts" rpc_get_bank_accounts.
Definition get_account_values : call GetAccountValuesRequest GetAccountValuesResponse := λ self,
  safe_service_read self "GetAccountValues" rpc_get_account_values.
Definition get_portfolio : call PortfolioRequest PortfolioResponse := λ self,
  safe_service_read self "GetPortfolio" rpc_get_portfolio.
Definition get_positions : call PositionsRequest PositionsResponse := λ self,
  safe_service_read self "GetPositions" rpc_get_positions.
Definition get_withdraw_limits : call WithdrawLimitsRequest WithdrawLimitsResponse := λ self,
  safe_service_read self "GetWithdrawLimits" rpc_get_withdraw_limits.
Definition get_sandbox_accounts : call GetAccountsRequest GetAccountsResponse := λ self,
  safe_service_read self "GetSandboxAccounts" rpc_get_sandbox_accounts.
Definition get_sandbox_portfolio : call PortfolioRequest PortfolioResponse := λ self,
  safe_service_read self "GetSandboxPortfolio" rpc_get_sandbox_portfolio.
Definition get_sandbox_positions : call PositionsRequest PositionsResponse := λ self,
  safe_service_read self "GetSandboxPositions" rpc_get_sandbox_positions.
Definition get_sandbox_withdraw_limits : call WithdrawLimitsRequest WithdrawLimitsResponse := λ self,
  safe_service_read self "GetSandboxWithdrawLimits" rpc_get_sandbox_withdraw_limits.

Record AccountReadClient := { rc_grpc : TInvestGrpcClient }.

(** [self.grpc.method(request).await?.body.try_into().map_err(Into::into)]. *)
Definition read_body {Req Resp A} (method : call Req Resp) (decode : Resp → decoded A)
    (self : AccountReadClient) (request : Req) : ar A :=
  let! response := st_map_err ReadProvider (method (rc_grpc self) request) in
  st_lift (map_err ReadCanonical (decode (gr_body response))).

Definition accounts (self : AccountReadClient) (status : option Z) : ar AccountCatalogue :=
  read_body get_accounts AccountCatalogue_try_from self {| gaq_status := status |}.

Definition margin_attributes (self : AccountReadClient) (account_id : string) : ar MarginAttributes :=
  read_body get_margin_attributes MarginAttributes_try_from self {| gmq_account_id := account_id |}.

Definition tariff (self : AccountReadClient) : ar UserTariff :=
  read_body get_user_tariff (λ body, Ok (UserTariff_from body)) self tt.

Definition user_info (self : AccountReadClient) : ar UserInfo :=
  read_body get_info (λ body, Ok (UserInfo_from body)) self tt.

Definition bank_accounts (self : AccountReadClient) : ar BankAccountCatalogue :=
  read_body get_bank_accounts BankAccountCatalogue_try_from self tt.

Definition account_values (self : AccountReadClient) (query : AccountValuesQuery) : ar AccountValues :=
  read_body get_account_values AccountValues_try_from self
    {| gvq_accounts := avq_account_ids query; gvq_values := avq_values query |}.

Definition portfolio (self : AccountReadClient) (query : PortfolioQuery) : ar PortfolioState :=
  let! state := read_body get_portfolio PortfolioState_try_from self
    {| pq_account_id := pfq_account_id query; pq_currency := pfq_currency query |} in
  st_lift (validate_response_account (pfq_account_id query) (po_account_id state)) ;;;
  st_ret state.

Definition positions (self : AccountReadClient) (account_id : string) : ar PositionsState :=
  let! state := read_body get_positions PositionsState_try_from self
    {| psq_account_id := account_id |} in
  st_lift (validate_response_account account_id (pst_account_id state)) ;;;
  st_ret state.

Definition withdraw_limits (self : AccountReadClient) (account_id : string) : ar WithdrawLimits :=
  read_body get_withdraw_limits WithdrawLimits_try_from self {| wlq_account_id := account_id |}.

Definition sandbox_accounts (self : AccountReadClient) : ar AccountCatalogue :=
  read_body get_sandbox_accounts AccountCatalogue_try_from self {| gaq_status := None |}.

Definition sandbox_portfolio (self : AccountReadClient) (account_id : string) : ar PortfolioState :=
  let! state := read_body get_sandbox_portfolio PortfolioState_try_from self
    {| pq_account_id := account_id; pq_currency := None |} in
  st_lift (validate_response_account account_id (po_account_id state)) ;;;
  st_ret state.

Definition sandbox_positions (self : AccountReadClient) (account_id : string) : ar PositionsState :=
  let! state := read_body get_sandbox_positions PositionsState_try_from self
    {| psq_account_id := account_id |} in
  st_lift (validate_response_account account_id (pst_account_id state)) ;;;
  st_ret state.

Definition sandbox_withdraw_limits (self : AccountReadClient) (account_id : string)
  : ar WithdrawLimits :=
  read_body get_sandbox_withdraw_limits WithdrawLimits_try_from self {| wlq_account_id := account_id |}.
End reads.

(** ** What is decoded *)

Lemma account_money_decodes : decodes optional_money money_wf money_reads.
Proof. intros v. pose proof (money_decodes v) as H. unfold optional_money, decode_money in *. by destruct (transpose _). Qed.

Lemma account_units_decodes : decodes optional_units quotation_wf quotation_reads.
Proof. apply decodes_option, decodes_map_err, (units_nano_decodes _ q_units q_nano). Qed.

Lemma account_time_decodes : decodes optional_timestamp time_wf time_reads.
Proof. apply decodes_option. intros t. unfold ProviderTimestamp_try_from. by destruct (nanos_in_second _). Qed.

Definition cash_wf (m : MoneyValue) : bool := money_wf (Some m).
Definition cash_reads (m : MoneyValue) (c : CanonicalMoney) : Prop := money_reads (Some m) (Some c).

Lemma money_values_decodes : decodes money_values (forallb cash_wf) (Forall2 cash_reads).
Proof.
  apply decodes_collect, decodes_map_err. intros m. pose proof (money_decodes (Some m)) as H.
  unfold decode_money in H. simpl in H. by destruct (CanonicalMoney_try_from m).
Qed.

Lemma required_text_decodes field :
  decodes (λ v, required_text v field) (λ v, negb (is_blank v)) (λ v t, t = v ∧ is_blank v = false).
Proof. intros v. unfold required_text, optional_text. by destruct (is_blank v). Qed.

Definition account_wf (m : AccountMessage) : bool :=
  negb (is_blank (am_id m)) && time_wf (am_opened_date m) && time_wf (am_closed_date m).

Definition account_reads (m : AccountMessage) (c : CanonicalAccount) : Prop :=
  ca_account_id c = am_id m ∧ is_blank (am_id m) = false ∧
  [ca_account_type c; ca_status c; ca_access_level c] = [am_type m; am_status m; am_access_level m] ∧
  ca_name c = optional_text (am_name m) ∧
  time_reads (am_opened_date m) (ca_opened_at c) ∧ time_reads (am_closed_date m) (ca_closed_at c).

Lemma account_decodes : decodes CanonicalAccount_try_from account_wf account_reads.
Proof.
  intros m. unfold CanonicalAccount_try_from, account_wf.
  pose proof (required_text_decodes "account.id" (am_id m)) as Hid. cbv beta in Hid.
  destruct (required_text _ _) as [id|]; [|by rewrite Hid]. destruct Hid as [-> [-> Hb]].
  do 2 (decode_field account_time_decodes; [|by rewrite Hw, ?andb_false_r]; rewrite Hwf; clear Hwf).
  done.
Qed.

Definition holdings_wf (r : PositionsResponse) : bool :=
  forallb cash_wf (pp_money r) && forallb cash_wf (pp_blocked r).

Definition holdings_read (r : PositionsResponse) (s : PositionsState) : Prop :=
  pst_account_id s = optional_text (pp_account_id r) ∧
  Forall2 cash_reads (pp_money r) (pst_money s) ∧
  Forall2 cash_reads (pp_blocked r) (pst_blocked_money s) ∧
  pst_securities s = SecurityPosition_from <$> pp_securities r ∧
  pst_futures s = FuturePosition_from <$> pp_futures r ∧
  pst_options s = OptionPosition_from <$> pp_options r ∧
  pst_limits_loading_in_progress s = pp_limits_loading_in_progress r.

Lemma holdings_decode : decodes PositionsState_try_from holdings_wf holdings_read.
Proof.
  intros r. unfold PositionsState_try_from, holdings_wf.
  do 2 (decode_field money_values_decodes; [|by rewrite Hw, ?andb_false_r]; rewrite Hwf; clear Hwf).
  done.
Qed.

(** Every amount of a position of the portfolio, and of the portfolio itself. *)
Definition position_wf (m : PortfolioPositionMessage) : bool :=
  forallb quotation_wf [ppm_quantity m; ppm_expected_yield m; ppm_average_position_price_pt m;
                        ppm_quantity_lots m; ppm_blocked_lots m; ppm_expected_yield_fifo m]
  && forallb money_wf [ppm_average_position_price m; ppm_current_nkd m; ppm_current_price m;
                       ppm_average_position_price_fifo m; ppm_var_margin m; ppm_var_margin_settled m;
                       ppm_daily_yield m].

Definition position_reads (m : PortfolioPositionMessage) (c : PortfolioPosition) : Prop :=
  pop_identity c = position_identity (ppm_instrument_uid m) (ppm_position_uid m) (ppm_figi m)
                     (ppm_ticker m) (ppm_class_code m) ∧
  pop_instrument_type c = optional_text (ppm_instrument_type m) ∧ pop_blocked c = ppm_blocked m ∧
  Forall2 quotation_reads
    [ppm_quantity m; ppm_expected_yield m; ppm_average_position_price_pt m; ppm_quantity_lots m;
     ppm_blocked_lots m; ppm_expected_yield_fifo m]
    [pop_quantity c; pop_expected_yield c; pop_average_position_price_points c; pop_quantity_lots c;
     pop_blocked_lots c; pop_expected_yield_fifo c] ∧
  Forall2 money_reads
    [ppm_average_position_price m; ppm_current_nkd m; ppm_current_price m;
     ppm_average_position_price_fifo m; ppm_var_margin m; ppm_var_margin_settled m; ppm_daily_yield m]
    [pop_average_position_price c; pop_current_nkd c; pop_current_price c;
     pop_average_position_price_fifo c; pop_var_margin c; pop_var_margin_settled c; pop_daily_yield c].

Definition virtual_wf (m : VirtualPortfolioPositionMessage) : bool :=
  forallb quotation_wf [vpm_quantity m; vpm_expected_yield m; vpm_expected_yield_fifo m]
  && time_wf (vpm_expire_date m)
  && forallb money_wf [vpm_average_position_price m; vpm_current_price m;
                       vpm_average_position_price_fifo m; vpm_daily_yield m].

Definition virtual_reads (m : VirtualPortfolioPositionMessage) (c : VirtualPortfolioPosition) : Prop :=
  vp_identity c = position_identity (vpm_instrument_uid m) (vpm_position_uid m) (vpm_figi m)
                    (vpm_ticker m) (vpm_class_code m) ∧
  vp_instrument_type c = optional_text (vpm_instrument_type m) ∧
  Forall2 quotation_reads [vpm_quantity m; vpm_expected_yield m; vpm_expected_yield_fifo m]
    [vp_quantity c; vp_expected_yield c; vp_expected_yield_fifo c] ∧
  time_reads (vpm_expire_date m) (vp_expires_at c) ∧
  Forall2 money_reads
    [vpm_average_position_price m; vpm_current_price m; vpm_average_position_price_fifo m;
     vpm_daily_yield m]
    [vp_average_position_price c; vp_current_price c; vp_average_position_price_fifo c;
     vp_daily_yield c].

(** Decode every optional field of a message; the malformed one decides. *)
Ltac wf_true := match goal with H : _ _ = true |- _ => rewrite H; clear H end.
Ltac wf_false := match goal with H : _ _ = false |- _ => rewrite H, ?andb_false_r; done end.

Ltac decode_fields :=
  repeat match goal with
  | |- context [match optional_money _ with Ok _ => _ | Err _ => _ end] =>
      decode_field account_money_decodes; [wf_true|wf_false]
  | |- context [match optional_units _ with Ok _ => _ | Err _ => _ end] =>
      decode_field account_units_decodes; [wf_true|wf_false]
  | |- context [match optional_timestamp _ with Ok _ => _ | Err _ => _ end] =>
      decode_field account_time_decodes; [wf_true|wf_false]
  end.

Lemma position_decodes : decodes PortfolioPosition_try_from position_wf position_reads.
Proof.
  intros m. unfold PortfolioPosition_try_from, position_wf. cbn [forallb]. decode_fields.
  split; [done|]. unfold position_reads. simpl. split_and!; try done; by repeat constructor.
Qed.

Lemma virtual_decodes : decodes VirtualPortfolioPosition_try_from virtual_wf virtual_reads.
Proof.
  intros m. unfold VirtualPortfolioPosition_try_from, virtual_wf. cbn [forallb]. decode_fields.
  split; [done|]. unfold virtual_reads. simpl. split_and!; try done; by repeat constructor.
Qed.

Definition portfolio_totals (r : PortfolioResponse) : list (option MoneyValue) :=
  [pr_total_amount_shares r; pr_total_amount_bonds r; pr_total_amount_etf r;
   pr_total_amount_currencies r; pr_total_amount_futures r; pr_total_amount_options r;
   pr_total_amount_sp r; pr_total_amount_portfolio r; pr_total_amount_dfa r; pr_daily_yield r].

Definition canonical_totals (s : PortfolioState) : list (option CanonicalMoney) :=
  [po_total_amount_shares s; po_total_amount_bonds s; po_total_amount_etf s;
   po_total_amount_currencies s; po_total_amount_futures s; po_total_amount_options s;
   po_total_amount_structured_products s; po_total_amount_portfolio s; po_total_amount_dfa s;
   po_daily_yield s].

Definition portfolio_wf (r : PortfolioResponse) : bool :=
  forallb money_wf (portfolio_totals r)
  && forallb quotation_wf [pr_expected_yield r; pr_daily_yield_relative r]
  && forallb position_wf (pr_positions r) && forallb virtual_wf (pr_virtual_positions r).

Definition portfolio_reads (r : PortfolioResponse) (s : PortfolioState) : Prop :=
  po_account_id s = optional_text (pr_account_id r) ∧
  Forall2 money_reads (portfolio_totals r) (canonical_totals s) ∧
  Forall2 quotation_reads [pr_expected_yield r; pr_daily_yield_relative r]
    [po_expected_yield s; po_daily_yield_relative s] ∧
  Forall2 position_reads (pr_positions r) (po_positions s) ∧
  Forall2 virtual_reads (pr_virtual_positions r) (po_virtual_positions s).

Lemma portfolio_decodes : decodes PortfolioState_try_from portfolio_wf portfolio_reads.
Proof.
  intros r. unfold PortfolioState_try_from, portfolio_wf, portfolio_totals. cbn [forallb].
  decode_fields.
  decode_field (decodes_collect _ _ _ position_decodes); [|by rewrite Hw]. rewrite Hwf. clear Hwf.
  decode_field (decodes_collect _ _ _ virtual_decodes); [|by rewrite Hw]. rewrite Hwf.
  split; [done|]. unfold portfolio_reads, portfolio_totals, canonical_totals. simpl.
  split_and!; try done; by repeat constructor.
Qed.
