(* ===== verification/TInvestOperations.v ===== *)
(** * Operation history: [crates/vox-tinvest/src/operations.rs]

    Operations as the adapter keeps them, and the paginator that follows the provider's
    cursors to the end of a history.  A page may be malformed, belong to another account
    or name a cursor that was already followed; the paginator then fails and returns what
    it completed.  The theorem says what a history contains. *)
From S2P Require Import Prelude Money Domain TInvestWire TInvestCanonical TInvestGrpc TInvestAccount.

(** ** Messages *)

Record ChildOperationItem := { coi_instrument_uid : string; coi_payment : option MoneyValue }.

Record OperationItemTrade := {
  oit_num : string;
  oit_date : option Timestamp;
  oit_quantity : Z;
  oit_price : option MoneyValue;
  oit_yield : option MoneyValue;
  oit_yield_relative : option Quotation;
}.

Record OperationItemTrades := { oits_trades : list OperationItemTrade }.

Record OperationItem := {
  oi_cursor : string;
  oi_broker_account_id : string;
  oi_id : string;
  oi_parent_operation_id : string;
  oi_name : string;
  oi_date : option Timestamp;
  oi_type : Z;
  oi_description : string;
  oi_state : Z;
  oi_instrument_uid : string;
  oi_figi : string;
  oi_instrument_type : string;
  oi_instrument_kind : Z;
  oi_position_uid : string;
  oi_ticker : string;
  oi_class_code : string;
  oi_payment : option MoneyValue;
  oi_price : option MoneyValue;
  oi_commission : option MoneyValue;
  oi_yield : option MoneyValue;
  oi_yield_relative : option Quotation;
  oi_accrued_int : option MoneyValue;
  oi_quantity : Z;
  oi_quantity_rest : Z;
  oi_quantity_done : Z;
  oi_cancel_date_time : option Timestamp;
  oi_cancel_reason : string;
  oi_trades_info : option OperationItemTrades;
  oi_asset_uid : string;
  oi_child_operations : list ChildOperationItem;
}.

Record GetOperationsByCursorRequest := {
  goq_account_id : string;
  goq_instrument_id : option string;
  goq_from : option Timestamp;
  goq_to : option Timestamp;
  goq_cursor : option string;
  goq_limit : option Z;
  goq_operation_types : list Z;
  goq_state : option Z;
  goq_without_commissions : option bool;
  goq_without_trades : option bool;
  goq_without_overnights : option bool;
}.

Record GetOperationsByCursorResponse := {
  gop_has_next : bool;
  gop_next_cursor : string;
  gop_items : list OperationItem;
}.

Record OperationTrade := {
  otr_trade_id : string;
  otr_date_time : option Timestamp;
  otr_quantity : Z;
  otr_price : option MoneyValue;
}.

Record Operation := {
  opr_id : string;
  opr_parent_operation_id : string;
  opr_currency : string;
  opr_payment : option MoneyValue;
  opr_price : option MoneyValue;
  opr_state : Z;
  opr_quantity : Z;
  opr_quantity_rest : Z;
  opr_figi : string;
  opr_instrument_type : string;
  opr_date : option Timestamp;
  opr_type : string;
  opr_operation_type : Z;
  opr_trades : list OperationTrade;
  opr_asset_uid : string;
  opr_position_uid : string;
  opr_instrument_uid : string;
  opr_child_operations : list ChildOperationItem;
}.

Record OperationsResponse := { ors_operations : list Operation }.

(** ** Operations *)

Record CanonicalChildOperation := {
  cch_instrument_uid : option string; cch_payment : option CanonicalMoney;
}.

Definition child_operation (child : ChildOperationItem) : decoded CanonicalChildOperation :=
  let? payment := optional_money (coi_payment child) in
  Ok {| cch_instrument_uid := optional_text (coi_instrument_uid child); cch_payment := payment |}.

Record LegacyOperationTrade := {
  lt_trade_id : option string;
  lt_date : option ProviderTimestamp;
  lt_quantity : Z;
  lt_price : option CanonicalMoney;
}.

Definition legacy_trade (trade : OperationTrade) : decoded LegacyOperationTrade :=
  let? date := optional_timestamp (otr_date_time trade) in
  let? price := optional_money (otr_price trade) in
  Ok {| lt_trade_id := optional_text (otr_trade_id trade); lt_date := date;
        lt_quantity := otr_quantity trade; lt_price := price |}.

Record LegacyOperationRecord := {
  lo_provider_operation_id : option string;
  lo_parent_operation_id : option string;
  lo_currency : option string;
  lo_payment : option CanonicalMoney;
  lo_price : option CanonicalMoney;
  lo_state : Z;
  lo_quantity : Z;
  lo_quantity_rest : Z;
  lo_figi : option string;
  lo_instrument_type : option string;
  lo_date : option ProviderTimestamp;
  lo_description : option string;
  lo_operation_type : Z;
  lo_asset_uid : option string;
  lo_position_uid : option string;
  lo_instrument_uid : option string;
  lo_trades : list LegacyOperationTrade;
  lo_child_operations : list CanonicalChildOperation;
}.

Definition LegacyOperationRecord_try_from (value : Operation) : decoded LegacyOperationRecord :=
  let? payment := optional_money (opr_payment value) in
  let? price := optional_money (opr_price value) in
  let? date := optional_timestamp (opr_date value) in
  let? trades := collect legacy_trade (opr_trades value) in
  let? child_operations := collect child_operation (opr_child_operations value) in
  Ok {| lo_provider_operation_id := optional_text (opr_id value);
        lo_parent_operation_id := optional_text (opr_parent_operation_id value);
        lo_currency := optional_text (opr_currency value);
        lo_payment := payment; lo_price := price;
        lo_state := opr_state value; lo_quantity := opr_quantity value;
        lo_quantity_rest := opr_quantity_rest value;
        lo_figi := optional_text (opr_figi value);
        lo_instrument_type := optional_text (opr_instrument_type value);
        lo_date := date; lo_description := optional_text (opr_type value);
        lo_operation_type := opr_operation_type value;
        lo_asset_uid := optional_text (opr_asset_uid value);
        lo_position_uid := optional_text (opr_position_uid value);
        lo_instrument_uid := optional_text (opr_instrument_uid value);
        lo_trades := trades; lo_child_operations := child_operations |}.

Definition canonical_legacy_operations (response : OperationsResponse)
  : decoded (list LegacyOperationRecord) :=
  collect LegacyOperationRecord_try_from (ors_operations response).

Record CanonicalOperationTrade := {
  cot_trade_id : option string;
  cot_date : option ProviderTimestamp;
  cot_quantity : Z;
  cot_price : option CanonicalMoney;
  cot_yield_amount : option CanonicalMoney;
  cot_yield_relative : option UnitsNano;
}.

Definition CanonicalOperationTrade_try_from (value : OperationItemTrade)
  : decoded CanonicalOperationTrade :=
  let? date := optional_timestamp (oit_date value) in
  let? price := optional_money (oit_price value) in
  let? yield_amount := optional_money (oit_yield value) in
  let? yield_relative := optional_units (oit_yield_relative value) in
  Ok {| cot_trade_id := optional_text (oit_num value); cot_date := date;
        cot_quantity := oit_quantity value; cot_price := price;
        cot_yield_amount := yield_amount; cot_yield_relative := yield_relative |}.

Record CanonicalOperation := {
  cop_cursor : option string;
  cop_broker_account_id : option string;
  cop_provider_operation_id : option string;
  cop_parent_operation_id : option string;
  cop_name : option string;
  cop_date : option ProviderTimestamp;
  cop_operation_type : Z;
  cop_description : option string;
  cop_state : Z;
  cop_instrument_uid : option string;
  cop_figi : option string;
  cop_instrument_type : option string;
  cop_instrument_kind : Z;
  cop_position_uid : option string;
  cop_ticker : option string;
  cop_class_code : option string;
  cop_asset_uid : option string;
  cop_payment : option CanonicalMoney;
  cop_price : option CanonicalMoney;
  cop_commission : option CanonicalMoney;
  cop_yield_amount : option CanonicalMoney;
  cop_yield_relative : option UnitsNano;
  cop_accrued_interest : option CanonicalMoney;
  cop_quantity : Z;
  cop_quantity_rest : Z;
  cop_quantity_done : Z;
  cop_cancelled_at : option ProviderTimestamp;
  cop_cancel_reason : option string;
  cop_trades : list CanonicalOperationTrade;
  cop_child_operations : list CanonicalChildOperation;
}.

(** [value.trades_info.map(|trades| trades.trades).unwrap_or_default()]. *)
Definition item_trades (value : OperationItem) : list OperationItemTrade :=
  match oi_trades_info value with Some trades => oits_trades trades | None => [] end.

Definition CanonicalOperation_try_from (value : OperationItem) : decoded CanonicalOperation :=
  let? trades := collect CanonicalOperationTrade_try_from (item_trades value) in
  let? child_operations := collect child_operation (oi_child_operations value) in
  let? date := optional_timestamp (oi_date value) in
  let? payment := optional_money (oi_payment value) in
  let? price := optional_money (oi_price value) in
  let? commission := optional_money (oi_commission value) in
  let? yield_amount := optional_money (oi_yield value) in
  let? yield_relative := optional_units (oi_yield_relative value) in
  let? accrued_interest := optional_money (oi_accrued_int value) in
  let? cancelled_at := optional_timestamp (oi_cancel_date_time value) in
  Ok {| cop_cursor := optional_text (oi_cursor value);
        cop_broker_account_id := optional_text (oi_broker_account_id value);
        cop_provider_operation_id := optional_text (oi_id value);
        cop_parent_operation_id := optional_text (oi_parent_operation_id value);
        cop_name := optional_text (oi_name value); cop_date := date;
        cop_operation_type := oi_type value;
        cop_description := optional_text (oi_description value); cop_state := oi_state value;
        cop_instrument_uid := optional_text (oi_instrument_uid value);
        cop_figi := optional_text (oi_figi value);
        cop_instrument_type := optional_text (oi_instrument_type value);
        cop_instrument_kind := oi_instrument_kind value;
        cop_position_uid := optional_text (oi_position_uid value);
        cop_ticker := optional_text (oi_ticker value);
        cop_class_code := optional_text (oi_class_code value);
        cop_asset_uid := optional_text (oi_asset_uid value);
        cop_payment := payment; cop_price := price; cop_commission := commission;
        cop_yield_amount := yield_amount; cop_yield_relative := yield_relative;
        cop_accrued_interest := accrued_interest;
        cop_quantity := oi_quantity value; cop_quantity_rest := oi_quantity_rest value;
        cop_quantity_done := oi_quantity_done value; cop_cancelled_at := cancelled_at;
        cop_cancel_reason := optional_text (oi_cancel_reason value);
        cop_trades := trades; cop_child_operations := child_operations |}.

(** ** The paginator *)

Definition DEFAULT_OPERATIONS_PAGE_SIZE : Z := 100.
Definition MIN_OPERATIONS_PAGE_SIZE : Z := 3.
Definition MAX_OPERATIONS_PAGE_SIZE : Z := 1000.

Record OperationsFilter := {
  fl_account_id : string;
  fl_instrument_id : option string;
  fl_from : option ProviderTimestamp;
  fl_to : option ProviderTimestamp;
  fl_initial_cursor : option string;
  fl_page_size : option Z;
  fl_operation_types : list Z;
  fl_state : option Z;
  fl_without_commissions : option bool;
  fl_without_trades : option bool;
  fl_without_overnights : option bool;
}.

Definition provider_timestamp (value : ProviderTimestamp) : Timestamp := {|
  ts_seconds := pt_seconds value; ts_nanos := pt_nanos value |}.

Definition provider_request (self : OperationsFilter) (cursor : option string)
  : GetOperationsByCursorRequest := {|
  goq_account_id := fl_account_id self; goq_instrument_id := fl_instrument_id self;
  goq_from := provider_timestamp <$> fl_from self; goq_to := provider_timestamp <$> fl_to self;
  goq_cursor := cursor; goq_limit := fl_page_size self;
  goq_operation_types := fl_operation_types self; goq_state := fl_state self;
  goq_without_commissions := fl_without_commissions self;
  goq_without_trades := fl_without_trades self;
  goq_without_overnights := fl_without_overnights self |}.

Record OperationHistory := { oh_items : list CanonicalOperation; oh_pages : Z }.

Inductive PaginationError :=
| MissingAccountId
| InvalidRange
| InvalidPageSize (size : Z)
| MissingContinuationCursor
| ContradictoryContinuation
| CursorCycle
| PageBoundExceeded.

Inductive PaginationFailureCause :=
| CauseProvider (e : GrpcError)
| CauseCanonical (e : AccountDataError)
| CauseMalformed (e : PaginationError).

Record PaginationFailure := { pl_completed : OperationHistory; pl_cause : PaginationFailureCause }.

Record OperationsPaginator := { pn_filter : OperationsFilter; pn_max_pages : Z }.

(** The derived order of timestamps. *)
Definition timestamp_gt (a b : ProviderTimestamp) : bool :=
  (pt_seconds b <? pt_seconds a)
  || (pt_seconds a =? pt_seconds b) && (pt_nanos b <? pt_nanos a).

Definition with_page_size (filter : OperationsFilter) (limit : Z) : OperationsFilter := {|
  fl_account_id := fl_account_id filter; fl_instrument_id := fl_instrument_id filter;
  fl_from := fl_from filter; fl_to := fl_to filter; fl_initial_cursor := fl_initial_cursor filter;
  fl_page_size := Some limit; fl_operation_types := fl_operation_types filter;
  fl_state := fl_state filter; fl_without_commissions := fl_without_commissions filter;
  fl_without_trades := fl_without_trades filter;
  fl_without_overnights := fl_without_overnights filter |}.

Definition OperationsPaginator_new (filter : OperationsFilter)
  : result PaginationError OperationsPaginator :=
  if is_blank (fl_account_id filter) then Err MissingAccountId
  else if match fl_from filter, fl_to filter with
          | Some from, Some to => timestamp_gt from to
          | _, _ => false
          end then Err InvalidRange
  else
    let limit := default DEFAULT_OPERATIONS_PAGE_SIZE (fl_page_size filter) in
    if negb ((MIN_OPERATIONS_PAGE_SIZE <=? limit) && (limit <=? MAX_OPERATIONS_PAGE_SIZE))
    then Err (InvalidPageSize limit)
    else Ok {| pn_filter := with_page_size filter limit; pn_max_pages := 10000 |}.

Definition with_max_pages (self : OperationsPaginator) (max_pages : Z) : OperationsPaginator := {|
  pn_filter := pn_filter self; pn_max_pages := Z.max max_pages 1 |}.

Definition pagination_failure (completed : OperationHistory) (cause : PaginationFailureCause)
  : PaginationFailure := {| pl_completed := completed; pl_cause := cause |}.

Definition push_operation (completed : OperationHistory) (operation : CanonicalOperation)
  : OperationHistory := {|
  oh_items := oh_items completed ++ [operation]; oh_pages := oh_pages completed |}.

(** [for item in response.items]. *)
Definition take_item (account_id : string) (completed : OperationHistory) (item : OperationItem)
  : result PaginationFailure OperationHistory :=
  let? operation := map_err (λ e, pagination_failure completed (CauseCanonical e))
                      (CanonicalOperation_try_from item) in
  if negb (bool_decide (cop_broker_account_id operation = Some account_id))
  then Err (pagination_failure completed
              (CauseCanonical (IdentityMismatch "operation.broker_account_id")))
  else Ok (push_operation completed operation).

Section paging.
Context {W : Type}.

(** [OperationsPageSource::page]. *)
Notation source := (GetOperationsByCursorRequest → st W GrpcError GetOperationsByCursorResponse).

(** The loop; [remaining] is [max_pages - completed.pages]. *)
Fixpoint collect_pages (page : source) (filter : OperationsFilter) (remaining : nat)
    (completed : OperationHistory) (cursor : option string) (seen : list string)
  : st W PaginationFailure OperationHistory :=
  match remaining with
  | O => st_fail (pagination_failure completed (CauseMalformed PageBoundExceeded))
  | S remaining =>
      let! response := st_map_err (λ e, pagination_failure completed (CauseProvider e))
                         (page (provider_request filter cursor)) in
      let completed := {| oh_items := oh_items completed; oh_pages := oh_pages completed + 1 |} in
      let! completed := st_lift (try_fold (take_item (fl_account_id filter)) completed
                                   (gop_items response)) in
      match gop_has_next response, optional_text (gop_next_cursor response) with
      | false, None => st_ret completed
      | true, None =>
          st_fail (pagination_failure completed (CauseMalformed MissingContinuationCursor))
      | false, Some _ =>
          st_fail (pagination_failure completed (CauseMalformed ContradictoryContinuation))
      | true, Some next =>
          if bool_decide (next ∈ seen)
          then st_fail (pagination_failure completed (CauseMalformed CursorCycle))
          else collect_pages page filter remaining completed (Some next) (next :: seen)
      end
  end.

Definition collect_from (self : OperationsPaginator) (page : source)
  : st W PaginationFailure OperationHistory :=
  let cursor := fl_initial_cursor (pn_filter self) in
  collect_pages page (pn_filter self) (Z.to_nat (pn_max_pages self))
    {| oh_items := []; oh_pages := 0 |} cursor (option_list cursor).
End paging.

(** The two page sources. *)
Class OperationsApi (W : Type) := {
  rpc_get_operations_by_cursor : rpc W GetOperationsByCursorRequest GetOperationsByCursorResponse;
  rpc_get_sandbox_operations_by_cursor :
    rpc W GetOperationsByCursorRequest GetOperationsByCursorResponse;
}.

Section sources.
Context {W : Type} `{NW : !Network W} `{GR : !Grpc} `{OP : !OperationsApi W}.

Definition get_operations_by_cursor (self : TInvestGrpcClient)
  : GetOperationsByCursorRequest → st W GrpcError (GrpcResponse GetOperationsByCursorResponse) :=
  safe_service_read self "GetOperationsByCursor" rpc_get_operations_by_cursor.

Definition get_sandbox_operations_by_cursor (self : TInvestGrpcClient)
  : GetOperationsByCursorRequest → st W GrpcError (GrpcResponse GetOperationsByCursorResponse) :=
  safe_service_read self "GetSandboxOperationsByCursor" rpc_get_sandbox_operations_by_cursor.

Definition ProductionOperationsPageSource (client : TInvestGrpcClient)
    (request : GetOperationsByCursorRequest) : st W GrpcError GetOperationsByCursorResponse :=
  let! response := get_operations_by_cursor client request in st_ret (gr_body response).

Definition SandboxOperationsPageSource (client : TInvestGrpcClient)
    (request : GetOperationsByCursorRequest) : st W GrpcError GetOperationsByCursorResponse :=
  let! response := get_sandbox_operations_by_cursor client request in st_ret (gr_body response).

Definition collect_history (self : OperationsPaginator) (client : TInvestGrpcClient)
  : st W PaginationFailure OperationHistory :=
  collect_from self (ProductionOperationsPageSource client).

Definition collect_sandbox (self : OperationsPaginator) (client : TInvestGrpcClient)
  : st W PaginationFailure OperationHistory :=
  collect_from self (SandboxOperationsPageSource client).
End sources.

(** ** What an operation says *)

Definition op_trade_wf (t : OperationItemTrade) : bool :=
  time_wf (oit_date t) && forallb money_wf [oit_price t; oit_yield t]
  && quotation_wf (oit_yield_relative t).

Definition op_trade_reads (t : OperationItemTrade) (c : CanonicalOperationTrade) : Prop :=
  cot_trade_id c = optional_text (oit_num t) ∧ cot_quantity c = oit_quantity t ∧
  time_reads (oit_date t) (cot_date c) ∧
  Forall2 money_reads [oit_price t; oit_yield t] [cot_price c; cot_yield_amount c] ∧
  quotation_reads (oit_yield_relative t) (cot_yield_relative c).

Lemma op_trade_decodes : decodes CanonicalOperationTrade_try_from op_trade_wf op_trade_reads.
Proof.
  intros t. unfold CanonicalOperationTrade_try_from, op_trade_wf. cbn [forallb]. decode_fields.
  split; [done|]. unfold op_trade_reads. simpl. split_and!; try done; by repeat constructor.
Qed.

Definition child_reads (m : ChildOperationItem) (c : CanonicalChildOperation) : Prop :=
  cch_instrument_uid c = optional_text (coi_instrument_uid m) ∧
  money_reads (coi_payment m) (cch_payment c).

Lemma child_decodes : decodes child_operation (λ m, money_wf (coi_payment m)) child_reads.
Proof. intros m. unfold child_operation. by decode_field account_money_decodes. Qed.

Definition operation_wf (o : OperationItem) : bool :=
  forallb op_trade_wf (item_trades o)
  && forallb (λ m, money_wf (coi_payment m)) (oi_child_operations o)
  && forallb time_wf [oi_date o; oi_cancel_date_time o]
  && forallb money_wf [oi_payment o; oi_price o; oi_commission o; oi_yield o; oi_accrued_int o]
  && quotation_wf (oi_yield_relative o).

Definition operation_reads (o : OperationItem) (c : CanonicalOperation) : Prop :=
  [cop_cursor c; cop_broker_account_id c; cop_provider_operation_id c; cop_parent_operation_id c;
   cop_name c; cop_description c; cop_instrument_uid c; cop_figi c; cop_instrument_type c;
   cop_position_uid c; cop_ticker c; cop_class_code c; cop_asset_uid c; cop_cancel_reason c]
  = optional_text <$>
    [oi_cursor o; oi_broker_account_id o; oi_id o; oi_parent_operation_id o; oi_name o;
     oi_description o; oi_instrument_uid o; oi_figi o; oi_instrument_type o; oi_position_uid o;
     oi_ticker o; oi_class_code o; oi_asset_uid o; oi_cancel_reason o] ∧
  [cop_operation_type c; cop_state c; cop_instrument_kind c; cop_quantity c; cop_quantity_rest c;
   cop_quantity_done c]
  = [oi_type o; oi_state o; oi_instrument_kind o; oi_quantity o; oi_quantity_rest o;
     oi_quantity_done o] ∧
  Forall2 time_reads [oi_date o; oi_cancel_date_time o] [cop_date c; cop_cancelled_at c] ∧
  Forall2 money_reads [oi_payment o; oi_price o; oi_commission o; oi_yield o; oi_accrued_int o]
    [cop_payment c; cop_price c; cop_commission c; cop_yield_amount c; cop_accrued_interest c] ∧
  quotation_reads (oi_yield_relative o) (cop_yield_relative c) ∧
  Forall2 op_trade_reads (item_trades o) (cop_trades c) ∧
  Forall2 child_reads (oi_child_operations o) (cop_child_operations c).

Lemma operation_decodes : decodes CanonicalOperation_try_from operation_wf operation_reads.
Proof.
  intros o. unfold CanonicalOperation_try_from, operation_wf.
  decode_field (decodes_collect _ _ _ op_trade_decodes); [|by rewrite Hw]. rewrite Hwf. clear Hwf.
  decode_field (decodes_collect _ _ _ child_decodes); [|by rewrite Hw]. rewrite Hwf. clear Hwf.
  cbn [forallb]. decode_fields.
  split; [done|]. unfold operation_reads. simpl. split_and!; try done; by repeat constructor.
Qed.

(** ** What a history contains *)

(** An item of the account, read exactly. *)
Definition own_operation (account_id : string) (item : OperationItem) (c : CanonicalOperation) : Prop :=
  operation_reads item c ∧ cop_broker_account_id c = Some account_id.

Definition owned (account_id : string) (c : CanonicalOperation) : Prop :=
  cop_broker_account_id c = Some account_id.

Lemma take_items account_id items completed :
  match try_fold (take_item account_id) completed items with
  | Ok h => oh_pages h = oh_pages completed ∧
            ∃ ops, oh_items h = oh_items completed ++ ops ∧ Forall2 (own_operation account_id) items ops
  | Err f => oh_pages (pl_completed f) = oh_pages completed ∧
             (∃ e, pl_cause f = CauseCanonical e) ∧
             ∃ ops, oh_items (pl_completed f) = oh_items completed ++ ops ∧ Forall (owned account_id) ops
  end.
Proof.
  revert completed. induction items as [|item items IH]; intros completed; simpl.
  { split; [done|]. exists []. by rewrite app_nil_r. }
  unfold take_item at 1. pose proof (operation_decodes item) as Hd.
  destruct (CanonicalOperation_try_from item) as [op|e]; simpl;
    [|split_and!; [done|by eexists|]; exists []; by rewrite app_nil_r].
  destruct Hd as [_ Hd]. destruct (bool_decide _) eqn:Hown; simpl;
    [|split_and!; [done|by eexists|]; exists []; by rewrite app_nil_r].
  apply bool_decide_eq_true in Hown. specialize (IH (push_operation completed op)). simpl in IH.
  destruct (try_fold _ _ _) as [h|f].
  - destruct IH as (Hp & ops & -> & Hops). split; [done|]. exists (op :: ops).
    split; [by rewrite <-(assoc_L (++))|constructor; [by split|done]].
  - destruct IH as (Hp & Hc & ops & -> & Hops). split_and!; [done|done|]. exists (op :: ops).
    split; [by rewrite <-(assoc_L (++))|by constructor].
Qed.

Section histories.
Context {W : Type}.
Context (page : GetOperationsByCursorRequest → st W GrpcError GetOperationsByCursorResponse).
Context (filter : OperationsFilter).

(** Following the provider's cursors from one page to the last: the cursors followed,
    and the operations of every page on the way, in order. *)
Inductive walk : option string → W → list string → list CanonicalOperation → W → Prop :=
| walk_last cursor w w' response ops :
    page (provider_request filter cursor) w = (w', Ok response) →
    Forall2 (own_operation (fl_account_id filter)) (gop_items response) ops →
    gop_has_next response = false → is_blank (gop_next_cursor response) = true →
    walk cursor w [] ops w'
| walk_next cursor w w1 response ops cursors rest w' :
    page (provider_request filter cursor) w = (w1, Ok response) →
    Forall2 (own_operation (fl_account_id filter)) (gop_items response) ops →
    gop_has_next response = true → is_blank (gop_next_cursor response) = false →
    walk (Some (gop_next_cursor response)) w1 cursors rest w' →
    walk cursor w (gop_next_cursor response :: cursors) (ops ++ rest) w'.

(** What the paginator returns, from a point of its loop. *)
Definition paged (remaining : nat) (completed : OperationHistory) (cursor : option string)
    (seen : list string) (w w' : W) (r : result PaginationFailure OperationHistory) : Prop :=
  match r with
  | Ok h => ∃ cursors ops,
      walk cursor w cursors ops w' ∧ oh_items h = oh_items completed ++ ops ∧
      oh_pages h = oh_pages completed + 1 + Z.of_nat (length cursors) ∧
      (length cursors < remaining)%nat ∧ NoDup cursors ∧ Forall (λ c, c ∉ seen) cursors
  | Err f => ∃ ops,
      oh_items (pl_completed f) = oh_items completed ++ ops ∧
      Forall (owned (fl_account_id filter)) ops ∧
      oh_pages completed ≤ oh_pages (pl_completed f) ≤ oh_pages completed + Z.of_nat remaining ∧
      (pl_cause f = CauseMalformed PageBoundExceeded →
       oh_pages (pl_completed f) = oh_pages completed + Z.of_nat remaining)
  end.

Lemma own_owned items ops :
  Forall2 (own_operation (fl_account_id filter)) items ops → Forall (owned (fl_account_id filter)) ops.
Proof. induction 1 as [|???? [_ ?]]; by constructor. Qed.

Lemma collect_pages_paged remaining completed cursor seen w w' r :
  collect_pages page filter remaining completed cursor seen w = (w', r) →
  paged remaining completed cursor seen w w' r.
Proof.
  revert completed cursor seen w. induction remaining as [|k IH]; intros completed cursor seen w.
  { intros [= <- <-]. exists []. simpl. rewrite app_nil_r. split_and!; [done|done|lia|lia|lia]. }
  simpl. st_unfold. destruct (page _ w) as [w1 [response|e]] eqn:Hp; simpl.
  2:{ intros [= <- <-]. exists []. simpl. rewrite app_nil_r. split_and!; [done|done|lia|lia|done]. }
  set (now := {| oh_items := _; oh_pages := _ |}).
  pose proof (take_items (fl_account_id filter) (gop_items response) now) as Ht.
  destruct (try_fold _ _ _) as [h|f]; simpl in Ht |- *.
  2:{ intros [= <- <-]. destruct Ht as (Hpg & [e He] & ops & Hi & Ho). exists ops.
      rewrite He. simpl. split_and!; [done|done|lia|lia|done]. }
  destruct Ht as (Hpg & ops & Hi & Ho).
  assert (∀ cause, cause ≠ CauseMalformed PageBoundExceeded →
    paged (S k) completed cursor seen w w1 (Err (pagination_failure h cause))) as Hfail.
  { intros cause Hc. exists ops. simpl.
    split_and!; [done|by eapply own_owned|lia|lia|done]. }
  unfold optional_text.
  destruct (gop_has_next response) eqn:Hn, (is_blank (gop_next_cursor response)) eqn:Hb;
    try (intros [= <- <-]; by apply Hfail).
  - destruct (bool_decide _) eqn:Hs; [intros [= <- <-]; by apply Hfail|]. apply bool_decide_eq_false in Hs.
    intros Hrun. apply IH in Hrun. destruct r as [h'|f]; simpl in *.
    + destruct Hrun as (cursors & rest & Hw & -> & Hpages & Hlen & Hnd & Hseen).
      exists (gop_next_cursor response :: cursors), (ops ++ rest). simpl. split_and!.
      * by eapply walk_next.
      * by rewrite Hi, (assoc_L (++)).
      * lia.
      * lia.
      * constructor; [|done]. intros Hin. rewrite Forall_forall in Hseen.
        apply (Hseen _ Hin). set_solver.
      * constructor; [done|]. eapply Forall_impl; [done|]. simpl. set_solver.
    + destruct Hrun as (rest & -> & Ho' & Hpages & Hbound). exists (ops ++ rest). split_and!.
      * by rewrite Hi, (assoc_L (++)).
      * apply Forall_app; split; [by eapply own_owned|done].
      * lia.
      * lia.
      * intros Hc. specialize (Hbound Hc). lia.
  - intros [= <- <-]. exists [], ops. simpl. split_and!; try done; [by eapply walk_last|lia|lia|constructor].
Qed.
End histories.

(** A history is complete or refused.  The paginator always returns.  When it returns
    a history, the provider's cursors were followed from the filter's cursor to a page
    that says it is the last and names no next one, no cursor being followed twice and no
    more pages read than allowed; the history has exactly the operations of those pages,
    in order, each read exactly and of the filter's account.  Otherwise it reports what
    it had completed, which holds only operations of the account, and the page bound is
    given as the cause only when that many pages were read. *)
Theorem history_is_complete {W} (self : OperationsPaginator)
    (page : GetOperationsByCursorRequest → st W GrpcError GetOperationsByCursorResponse) (w : W) :
  let '(w', r) := collect_from self page w in
  match r with
  | Ok h => ∃ cursors,
      walk page (pn_filter self) (fl_initial_cursor (pn_filter self)) w cursors (oh_items h) w' ∧
      oh_pages h = 1 + Z.of_nat (length cursors) ∧ oh_pages h ≤ pn_max_pages self ∧
      NoDup (option_list (fl_initial_cursor (pn_filter self)) ++ cursors)
  | Err f =>
      Forall (owned (fl_account_id (pn_filter self))) (oh_items (pl_completed f)) ∧
      0 ≤ oh_pages (pl_completed f) ≤ Z.max 0 (pn_max_pages self) ∧
      (pl_cause f = CauseMalformed PageBoundExceeded →
       oh_pages (pl_completed f) = Z.max 0 (pn_max_pages self))
  end.
Proof.
  unfold collect_from. destruct (collect_pages _ _ _ _ _ _ w) as [w' r] eqn:Hrun.
  apply collect_pages_paged in Hrun. destruct r as [h|f]; simpl in Hrun.
  - destruct Hrun as (cursors & ops & Hw & -> & Hp & Hlen & Hnd & Hseen). exists cursors.
    split_and!; [done|lia|lia|]. apply NoDup_app. split_and!; [| |done].
    + destruct (fl_initial_cursor _); simpl; [apply NoDup_singleton|apply NoDup_nil_2].
    + rewrite Forall_forall in Hseen. intros c Hc Hin. by apply (Hseen c).
  - destruct Hrun as (ops & -> & Ho & Hp & Hc). split_and!; [done|lia|lia|].
    intros H. specialize (Hc H). lia.
Qed.

(** ** A sample history *)

Module HistorySample.
Definition item (id : string) : OperationItem := {|
  oi_cursor := id; oi_broker_account_id := "acc"; oi_id := id; oi_parent_operation_id := "";
  oi_name := ""; oi_date := None; oi_type := 15; oi_description := ""; oi_state := 1;
  oi_instrument_uid := "uid"; oi_figi := ""; oi_instrument_type := ""; oi_instrument_kind := 2;
  oi_position_uid := ""; oi_ticker := ""; oi_class_code := "";
  oi_payment := Some {| mv_currency := "rub"; mv_units := -10; mv_nano := -500000000 |};
  oi_price := None; oi_commission := None; oi_yield := None; oi_yield_relative := None;
  oi_accrued_int := None; oi_quantity := 1; oi_quantity_rest := 0; oi_quantity_done := 1;
  oi_cancel_date_time := None; oi_cancel_reason := ""; oi_trades_info := None; oi_asset_uid := "";
  oi_child_operations := [] |}.

(** A provider whose last page is the second one, or which starts over. *)
Definition provider (cycle : bool) (request : GetOperationsByCursorRequest) (w : nat)
  : nat * result GrpcError GetOperationsByCursorResponse :=
  (S w, Ok match goq_cursor request with
           | None => {| gop_has_next := true; gop_next_cursor := "c1"; gop_items := [item "o1"; item "o2"] |}
           | Some _ => {| gop_has_next := cycle; gop_next_cursor := if cycle then "c1" else "";
                          gop_items := [item "o3"] |}
           end).

Definition filter : OperationsFilter := {|
  fl_account_id := "acc"; fl_instrument_id := None; fl_from := None; fl_to := None;
  fl_initial_cursor := None; fl_page_size := None; fl_operation_types := []; fl_state := None;
  fl_without_commissions := None; fl_without_trades := None; fl_without_overnights := None |}.

Definition history (cycle : bool) : option (result PaginationFailure OperationHistory) :=
  match OperationsPaginator_new filter with
  | Ok paginator => Some (collect_from (with_max_pages paginator 5) (provider cycle) O).2
  | Err _ => None
  end.

Example two_pages :
  (λ r, match r with
        | Ok h => Some (cop_provider_operation_id <$> oh_items h, oh_pages h)
        | Err _ => None
        end) <$> history false = Some (Some ([Some "o1"; Some "o2"; Some "o3"], 2)).
Proof. vm_compute. reflexivity. Qed.

Example a_cycle_is_refused :
  (λ r, match r with
        | Ok _ => None
        | Err f => Some (length (oh_items (pl_completed f)), pl_cause f)
        end) <$> history true = Some (Some (3%nat, CauseMalformed CursorCycle)).
Proof. vm_compute. reflexivity. Qed.
End HistorySample.
