(* ===== verification/TInvestQualification.v ===== *)
(** * Qualification policy: [crates/vox-tinvest/src/account_qualification.rs] and
    [execution_qualification.rs]

    The rules by which a qualification of the broker adapter is accepted: in which mode it
    runs, which accounts it may read, how failures of the provider are classified, and the
    two ledgers in which every row must be accounted for.  A ledger is a finite map; the
    rows come out in the order of the inventory.  The live runs that fill the ledgers are
    not modelled. *)
From stdpp Require Import gmap strings.
From S2P Require Import Prelude Domain Mutation TInvestCanonical TInvestGrpc TInvestAccount.

Definition ACCOUNT_INVENTORY_METHODS : list string := [
  "GetAccounts"; "GetMarginAttributes"; "GetUserTariff"; "GetInfo"; "GetBankAccounts"; "CurrencyTransfer"; "PayIn";
  "GetAccountValues"; "GetOperations"; "GetPortfolio"; "GetPositions"; "GetWithdrawLimits"; "GetBrokerReport";
  "GetDividendsForeignIssuer"; "GetOperationsByCursor"; "PortfolioStream"; "PositionsStream"; "OperationsStream";
  "OpenSandboxAccount"; "GetSandboxAccounts"; "CloseSandboxAccount"; "PostSandboxOrder"; "PostSandboxOrderAsync";
  "ReplaceSandboxOrder"; "GetSandboxOrders"; "CancelSandboxOrder"; "GetSandboxOrderState"; "GetSandboxOrderPrice";
  "GetSandboxPositions"; "GetSandboxOperations"; "GetSandboxOperationsByCursor"; "GetSandboxPortfolio"; "SandboxPayIn";
  "GetSandboxWithdrawLimits"; "GetSandboxMaxLots"; "PostSandboxStopOrder"; "GetSandboxStopOrders";
  "CancelSandboxStopOrder"]%string.

(** ** Mode and accounts *)

Inductive QualificationMode := SandboxOnlyMode | ProductionReadOnly.

Definition mode_wire_name (self : QualificationMode) : string :=
  match self with SandboxOnlyMode => "SANDBOX_ONLY" | ProductionReadOnly => "PRODUCTION_READ_ONLY" end.

Inductive QualificationModeError :=
| MissingSandboxToken
| MissingProductionToken
| UnknownMode (value : string)
| NoCredential.

Definition select_qualification_mode (explicit : option string) (production_token sandbox_token : bool)
  : result QualificationModeError QualificationMode :=
  match explicit with
  | Some value =>
      if bool_decide (value = "SANDBOX_ONLY"%string) then
        if sandbox_token then Ok SandboxOnlyMode else Err MissingSandboxToken
      else if bool_decide (value = "PRODUCTION_READ_ONLY"%string) then
        if production_token then Ok ProductionReadOnly else Err MissingProductionToken
      else Err (UnknownMode value)
  | None =>
      if production_token then Ok ProductionReadOnly
      else if sandbox_token then Ok SandboxOnlyMode
      else Err NoCredential
  end.

Inductive MethodEnvironment := ProductionAndSandbox | ProductionOnly | SandboxOnly.

Definition matrix_name (self : MethodEnvironment) : string :=
  match self with ProductionAndSandbox => "PROD_AND_SANDBOX" | ProductionOnly => "PROD" | SandboxOnly => "SANDBOX" end.

Definition method_environment (method : string) : option MethodEnvironment :=
  if negb (bool_decide (method ∈ ACCOUNT_INVENTORY_METHODS)) then None
  else if bool_decide (method ∈ ["GetBrokerReport"; "GetDividendsForeignIssuer"]%string) then Some ProductionOnly
  else if contains "Sandbox" method then Some SandboxOnly
  else Some ProductionAndSandbox.

Inductive AccountPurpose := GeneralRead | AccountValuesPurpose | MarginPurpose | ReportPurpose | OperationsStreamPurpose.

Record AccountSelection := { sel_selected : list CanonicalAccount; sel_rejected : list (string * string) }.

Definition rejection_reason (account : CanonicalAccount) : option string :=
  if negb (ca_status account =? 2) then Some "status is not ACCOUNT_STATUS_OPEN"%string
  else if negb (bool_decide (ca_access_level account ∈ [1; 2])) then
    Some "access is neither FULL_ACCESS nor READ_ONLY"%string
  else if negb (bool_decide (ca_account_type account ∈ [1; 2])) then
    Some "qualification requires brokerage or IIS; special account excluded"%string
  else None.

Definition select_accounts (accounts : list CanonicalAccount) (_purpose : AccountPurpose) : AccountSelection := {|
  sel_selected := order_by (λ a b, String.leb (ca_account_id a) (ca_account_id b))
    (List.filter (λ a, bool_decide (rejection_reason a = None)) accounts);
  sel_rejected := omap (λ a, (λ reason, (ca_account_id a, reason)) <$> rejection_reason a) accounts |}.

Inductive SandboxAvailability := TokenNotConfigured | AuthenticatedNoEligibleAccount | SandboxReady.

Definition sandbox_availability (token_configured : bool) (eligible_accounts : Z) : SandboxAvailability :=
  if negb token_configured then TokenNotConfigured
  else if eligible_accounts =? 0 then AuthenticatedNoEligibleAccount
  else SandboxReady.

(** ** Failures *)

Inductive PreflightFailure := CredentialInvalidOrInactive | PreflightInsufficientPermission | PreflightOther.
Inductive CapabilityGate := InsufficientPermission | DeprecatedUnavailable.

Definition account_read_method (method : string) : bool := bool_decide (method ∈ [
  "GetMarginAttributes"; "GetUserTariff"; "GetInfo"; "GetBankAccounts"; "GetAccountValues"; "GetOperations";
  "GetPortfolio"; "GetPositions"; "GetWithdrawLimits"; "GetBrokerReport"; "GetDividendsForeignIssuer";
  "GetOperationsByCursor"; "PortfolioStream"; "PositionsStream"; "OperationsStream"; "GetSandboxPortfolio";
  "GetSandboxPositions"; "GetSandboxWithdrawLimits"; "GetSandboxOperations"; "GetSandboxOperationsByCursor"]%string).


Section provider.
Context `{GR : !Grpc}.

Definition classify_preflight (error : GrpcError) : PreflightFailure :=
  match ge_kind error with
  | ProviderKind provider =>
      if bool_decide (gp_code provider = Unauthenticated) && has_provider_code provider "40003"
      then CredentialInvalidOrInactive
      else if bool_decide (gp_code provider = PermissionDenied) && has_provider_code provider "40002"
      then PreflightInsufficientPermission
      else PreflightOther
  | _ => PreflightOther
  end.

Definition persistent_sandbox_provider_limitation (method : string) (error : GrpcError) : bool :=
  bool_decide (method = "GetBankAccounts"%string) && (3 <=? qm_attempt (ge_metadata error))
  && match ge_kind error with
     | ProviderKind provider => bool_decide (gp_code provider = Internal) && has_provider_code provider "70001"
     | _ => false
     end.

Definition classify_method_gate (method : string) (provider : GrpcProviderError) : option CapabilityGate :=
  if account_read_method method && bool_decide (gp_code provider = PermissionDenied) && has_provider_code provider "40002"
  then Some InsufficientPermission
  else if bool_decide (method ∈ ["GetOperations"; "GetSandboxOperations"]%string)
          && bool_decide (gp_code provider = Unavailable) && has_provider_code provider "12002"
  then Some DeprecatedUnavailable
  else None.
End provider.

Inductive FailureClass := ProviderInternalClass | ProviderClass | AdapterClass.

Definition failure_wire_name (self : FailureClass) : string :=
  match self with
  | ProviderInternalClass => "FAILED_PROVIDER_INTERNAL" | ProviderClass => "FAILED_PROVIDER" | AdapterClass => "FAILED_ADAPTER"
  end.

Record FailureEvidence := {
  fe_class : FailureClass;
  fe_grpc_status : option Code;
  fe_provider_code : option string;
  fe_method : string;
  fe_attempt : option Z;
  fe_tracking_id : option string;
  fe_provider_message : option string;
  fe_environment : option string;
  fe_request_shape : option string;
  fe_detail : string;
}.

(** [str::replace] of a pattern that is not empty: matches from the left, without overlap.
    [skip] counts the bytes of the match that are still to be passed over. *)
Fixpoint replace_from (skip : nat) (pattern by_text s : string) : string :=
  match s with
  | EmptyString => EmptyString
  | String c s' =>
      match skip with
      | S k => replace_from k pattern by_text s'
      | O =>
          if String.prefix pattern s then by_text +:+ replace_from (pred (String.length pattern)) pattern by_text s'
          else String c (replace_from 0 pattern by_text s')
      end
  end.
Definition replace (s pattern by_text : string) : string := replace_from 0 pattern by_text s.

Definition REDACTED : string := "<redacted-account-id>".

Definition redact (sensitive_values : list string) (s : string) : string :=
  foldl (λ s sensitive, if bool_decide (sensitive = ""%string) then s else replace s sensitive REDACTED) s sensitive_values.

Definition with_live_context (self : FailureEvidence) (environment request_shape : string) (sensitive_values : list string)
  : FailureEvidence := {|
  fe_class := fe_class self; fe_grpc_status := fe_grpc_status self; fe_provider_code := fe_provider_code self;
  fe_method := fe_method self; fe_attempt := fe_attempt self; fe_tracking_id := fe_tracking_id self;
  fe_provider_message := redact sensitive_values <$> fe_provider_message self;
  fe_environment := Some environment; fe_request_shape := Some request_shape;
  fe_detail := redact sensitive_values (fe_detail self) |}.

Definition grpc_failure `{!Grpc} (method : string) (error : GrpcError) : FailureEvidence :=
  let attempt := Some (qm_attempt (ge_metadata error)) in
  match ge_kind error with
  | ProviderKind provider =>
      let code := provider_code provider in
      {| fe_class := if bool_decide (gp_code provider = Internal)
                        && match code with Some c => bool_decide (c ∈ ["70001"; "70002"; "70003"]%string) | None => false end
                     then ProviderInternalClass else ProviderClass;
         fe_grpc_status := Some (gp_code provider); fe_provider_code := code; fe_method := method; fe_attempt := attempt;
         fe_tracking_id := gp_tracking_id provider; fe_provider_message := Some (gp_message provider);
         fe_environment := None; fe_request_shape := None;
         fe_detail := "provider request failed after bounded safe-read policy" |}
  | kind =>
      {| fe_class := AdapterClass; fe_grpc_status := None; fe_provider_code := None; fe_method := method; fe_attempt := attempt;
         fe_tracking_id := None; fe_provider_message := None; fe_environment := None; fe_request_shape := None;
         fe_detail := kind_text kind |}
  end.

Definition adapter_failure (method detail : string) : FailureEvidence := {|
  fe_class := AdapterClass; fe_grpc_status := None; fe_provider_code := None; fe_method := method; fe_attempt := None;
  fe_tracking_id := None; fe_provider_message := None; fe_environment := None; fe_request_shape := None; fe_detail := detail |}.

(** ** The account ledger *)

Inductive Evidence :=
| Qualified (what : string)
| GatedUnavailable (why : string)
| BlockedByPrerequisite (why : string)
| Failed (failure : FailureEvidence).

Inductive LedgerError :=
| UnknownMethod (method : string)
| DuplicateMethod (method : string)
| MissingMethods (methods : list string).

Notation QualificationLedger := (gmap string Evidence).

Definition record (method : string) (evidence : Evidence) : st QualificationLedger LedgerError () := λ rows,
  if negb (bool_decide (method ∈ ACCOUNT_INVENTORY_METHODS)) then (rows, Err (UnknownMethod method))
  else (<[method := evidence]> rows,
        match rows !! method with Some _ => Err (DuplicateMethod method) | None => Ok tt end).

(** A method without evidence is [unreachable!] after the check. *)
Definition finish (rows : QualificationLedger) : result LedgerError (list (string * Evidence)) :=
  match List.filter (λ method, bool_decide (rows !! method = None)) ACCOUNT_INVENTORY_METHODS with
  | [] => Ok (omap (λ method, (λ evidence, (method, evidence)) <$> rows !! method) ACCOUNT_INVENTORY_METHODS)
  | missing => Err (MissingMethods missing)
  end.

Record QualificationSummary := {
  qs_qualified : list string;
  qs_gated : list string;
  qs_blocked : list string;
  qs_failed : list string;
}.

Definition from_rows (rows : list (string * Evidence)) : QualificationSummary := {|
  qs_qualified := omap (λ r, match r.2 with Qualified _ => Some r.1 | _ => None end) rows;
  qs_gated := omap (λ r, match r.2 with GatedUnavailable _ => Some r.1 | _ => None end) rows;
  qs_blocked := omap (λ r, match r.2 with BlockedByPrerequisite _ => Some r.1 | _ => None end) rows;
  qs_failed := omap (λ r, match r.2 with Failed _ => Some r.1 | _ => None end) rows |}.

Definition has_failures (self : QualificationSummary) : bool := negb (bool_decide (qs_failed self = [])).

Definition ensure_success (self : QualificationSummary) : result (list string) () :=
  match qs_failed self with [] => Ok tt | failed => Err failed end.

(** ** The sandbox ledger *)

Definition SANDBOX_QUALIFICATION_ROWS : list string := [
  "account_discovery_readiness"; "max_lots"; "pre_trade_estimate"; "market_order_lifecycle"; "limit_order_lifecycle";
  "async_order_lifecycle"; "order_state_and_list"; "replace_lifecycle"; "cancel_lifecycle"; "broker_idempotency_evidence";
  "ambiguous_dispatch_fault_injection"; "fixed_stop_only"; "stop_limit"; "take_profit_only"; "trailing_relative";
  "trailing_absolute"; "fixed_stop_plus_take_profit"; "trailing_plus_take_profit"; "trades_stream_health";
  "order_state_stream_health"; "cleanup_readback"]%string.

Inductive QualificationEvidence :=
| RowQualified (detail : string)
| QualifiedWithProviderDeviation (detail : string)
| RowGatedUnavailable (reason : string)
| ProviderBlocked (reason : string)
| RowFailed (reason : string).

Definition render (self : QualificationEvidence) (row : string) : string :=
  match self with
  | RowQualified detail => "QUALIFIED " +:+ row +:+ ": " +:+ detail
  | QualifiedWithProviderDeviation detail => "QUALIFIED_WITH_PROVIDER_DEVIATION " +:+ row +:+ ": " +:+ detail
  | RowGatedUnavailable reason => "GATED/UNAVAILABLE " +:+ row +:+ ": " +:+ reason
  | ProviderBlocked reason => "BLOCKED/PROVIDER " +:+ row +:+ ": " +:+ reason
  | RowFailed reason => "FAILED " +:+ row +:+ ": " +:+ reason
  end.

Inductive SandboxQualificationError :=
| UnknownRow (row : string)
| DuplicateRow (row : string)
| MissingRows (rows : list string)
| FailedRows (rows : list string)
| ProviderBlockedRows (rows : list string).

Notation SandboxQualificationLedger := (gmap string QualificationEvidence).

Definition sandbox_record (row : string) (evidence : QualificationEvidence)
  : st SandboxQualificationLedger SandboxQualificationError () := λ self,
  if negb (bool_decide (row ∈ SANDBOX_QUALIFICATION_ROWS)) then (self, Err (UnknownRow row))
  else (<[row := evidence]> self, match self !! row with Some _ => Err (DuplicateRow row) | None => Ok tt end).

Definition ledger_lines (self : SandboxQualificationLedger) : result SandboxQualificationError (list string) :=
  match List.filter (λ row, bool_decide (self !! row = None)) SANDBOX_QUALIFICATION_ROWS with
  | [] => Ok (omap (λ row, (λ evidence, render evidence row) <$> self !! row) SANDBOX_QUALIFICATION_ROWS)
  | missing => Err (MissingRows missing)
  end.

Definition rows_that (p : QualificationEvidence → option string) (self : SandboxQualificationLedger) : list string :=
  omap (λ row, evidence ← self !! row; reason ← p evidence; Some (row +:+ ": " +:+ reason)) SANDBOX_QUALIFICATION_ROWS.

Definition sandbox_finish (self : SandboxQualificationLedger) : result SandboxQualificationError (list string) :=
  let? lines := ledger_lines self in
  match rows_that (λ e, match e with RowFailed reason => Some reason | _ => None end) self with
  | [] =>
      match rows_that (λ e, match e with ProviderBlocked reason => Some reason | _ => None end) self with
      | [] => Ok lines
      | blocked => Err (ProviderBlockedRows blocked)
      end
  | failed => Err (FailedRows failed)
  end.

(** ** The fault harness *)

(** [FaultStore]: a map by request identity. *)
Definition FaultStore : Type := list MutationEvidence.

Definition fault_persist (evidence : MutationEvidence) (self : FaultStore) : FaultStore :=
  evidence :: List.filter (λ e, negb (by_key me_client_request_id (me_client_request_id evidence) e)) self.

Definition fault_store : MutationEvidenceStore FaultStore := {|
  load self id := Ok (List.find (by_key me_client_request_id id) self);
  claim_dispatch evidence self :=
    match List.find (by_key me_client_request_id (me_client_request_id evidence)) self with
    | Some _ => (self, Ok false)
    | None => (fault_persist evidence self, Ok true)
    end;
  resolve_unknown expected resolved self :=
    if bool_decide (List.find (by_key me_client_request_id (me_client_request_id expected)) self = Some expected)
    then (fault_persist resolved self, Ok true) else (self, Ok false) |}.

Definition qualify_ambiguous_dispatch_guard : result StoreError () :=
  let? id := map_err (λ _, "identity cannot be empty"%string) (identity_new "issue-10-controlled-ambiguous-dispatch") in
  match @persist_before_dispatch FaultStore fault_store id (Some "fault-injection"%string) [] with
  | (_, Err e) => Err e
  | (store, Ok _) =>
      let? d := @decision FaultStore fault_store store id in
      match d with
      | Reconcile =>
          match @persist_before_dispatch FaultStore fault_store id (Some "duplicate"%string) store with
          | (_, Err _) => Ok tt
          | (_, Ok _) => Err "ambiguous mutation identity was dispatched twice"%string
          end
      | _ => Err "UNKNOWN_AFTER_DISPATCH did not force reconciliation"%string
      end
  end.

(** ** What the ledgers guarantee *)

Lemma filter_missing {V} (m : gmap string V) (l : list string) :
  List.filter (λ k, bool_decide (m !! k = None)) l = [] ↔ ∀ k, k ∈ l → is_Some (m !! k).
Proof.
  induction l as [|k l IH]; simpl; [set_solver|]. case_bool_decide as Hk.
  - split; [done|]. intros H. destruct (H k (list_elem_of_here _ _)) as [v Hv]. by rewrite Hk in Hv.
  - rewrite IH. setoid_rewrite elem_of_cons. apply not_eq_None_Some in Hk. naive_solver.
Qed.

Lemma collected_rows {V} (rows : gmap string V) (l : list string) :
  (∀ k, k ∈ l → is_Some (rows !! k)) →
  let out := omap (λ method, (λ evidence, (method, evidence)) <$> rows !! method) l in
  out.*1 = l ∧ ∀ method evidence, (method, evidence) ∈ out → rows !! method = Some evidence.
Proof.
  intros Hall. split.
  - induction l as [|k l IH]; [done|]. simpl.
    destruct (Hall k (list_elem_of_here _ _)) as [v ->]. simpl. f_equal. apply IH.
    intros x Hx. apply Hall. by apply list_elem_of_further.
  - intros method evidence (k & Hk & H)%list_elem_of_omap. destruct (rows !! k) eqn:Hr; [|done].
    simpl in H. by injection H as <- <-.
Qed.

(** A finished ledger has every method of the inventory once, in its order, each with the
    evidence that was recorded for it. *)
Lemma finish_accounts rows out :
  finish rows = Ok out →
  out.*1 = ACCOUNT_INVENTORY_METHODS ∧ ∀ method evidence, (method, evidence) ∈ out → rows !! method = Some evidence.
Proof.
  unfold finish. generalize ACCOUNT_INVENTORY_METHODS. intros l.
  destruct (List.filter _ l) eqn:Hf; [|congruence]. intros [= <-].
  apply collected_rows, (filter_missing rows l), Hf.
Qed.

Lemma no_rows_that (ledger : SandboxQualificationLedger) p (l : list string) :
  omap (λ row, evidence ← ledger !! row; reason ← p evidence; Some (row +:+ ": " +:+ reason)) l = [] ↔
  ∀ row evidence, row ∈ l → ledger !! row = Some evidence → p evidence = None.
Proof.
  induction l as [|k l IH]; simpl; [set_solver|].
  destruct (ledger !! k) as [e|] eqn:Hk; simpl.
  - destruct (p e) as [reason|] eqn:Hp; simpl.
    + split; [done|]. intros H. by rewrite (H k e (list_elem_of_here _ _) Hk) in Hp.
    + rewrite IH. setoid_rewrite elem_of_cons. naive_solver.
  - rewrite IH. setoid_rewrite elem_of_cons. naive_solver.
Qed.

(** The sandbox qualification passes exactly when every row was recorded and none failed or
    was blocked by the provider; it then shows every row. *)
Lemma sandbox_finish_passes ledger :
  is_ok (sandbox_finish ledger) = true ↔
  ∀ row, row ∈ SANDBOX_QUALIFICATION_ROWS →
    ∃ evidence, ledger !! row = Some evidence ∧
      match evidence with RowFailed _ | ProviderBlocked _ => False | _ => True end.
Proof.
  unfold sandbox_finish, ledger_lines, rows_that. generalize SANDBOX_QUALIFICATION_ROWS. intros l.
  destruct (List.filter _ l) as [|m ms] eqn:Hf.
  - pose proof (proj1 (filter_missing ledger l) Hf) as Hall.
    destruct (omap _ l) as [|f fs] eqn:H1; [case_match eqn:H2|].
    + split; [|done]. intros _ row Hr. destruct (Hall row Hr) as [e He]. exists e. split; [done|].
      pose proof (proj1 (no_rows_that ledger _ l) H1 row e Hr He) as Ha.
      pose proof (proj1 (no_rows_that ledger _ l) H2 row e Hr He) as Hb. by destruct e.
    + split; [done|]. intros H. enough (s :: l0 = []) by done. rewrite <- H2. apply no_rows_that.
      intros row e Hr He. destruct (H row Hr) as (e' & He' & Hok). rewrite He in He'. injection He' as <-. by destruct e.
    + split; [done|]. intros H. enough (f :: fs = []) by done. rewrite <- H1. apply no_rows_that.
      intros row e Hr He. destruct (H row Hr) as (e' & He' & Hok). rewrite He in He'. injection He' as <-. by destruct e.
  - split; [done|]. intros H. enough (m :: ms = []) by done. rewrite <- Hf. apply filter_missing.
    intros k Hk. destruct (H k Hk) as (e & He & _). by exists e.
Qed.

(** A row that is recorded twice is refused, and yet the second evidence replaces the
    first. *)
Lemma duplicate_row_replaces method old new :
  method ∈ ACCOUNT_INVENTORY_METHODS →
  ∃ rows, record method new {[method := old]} = (rows, Err (DuplicateMethod method)) ∧ rows !! method = Some new.
Proof.
  intros Hin. unfold record. rewrite bool_decide_eq_true_2 by done. simpl. rewrite lookup_singleton_eq.
  eexists. split; [done|]. apply lookup_insert_eq.
Qed.

(** The purpose of a selection makes no difference. *)
Lemma purpose_is_ignored accounts p q : select_accounts accounts p = select_accounts accounts q.
Proof. done. Qed.

(** Only open brokerage and IIS accounts that can be read are selected, and every account is
    selected or rejected with a reason. *)
Lemma selected_accounts_are_eligible accounts purpose account :
  account ∈ sel_selected (select_accounts accounts purpose) ↔
  account ∈ accounts ∧ ca_status account = 2 ∧ (ca_access_level account = 1 ∨ ca_access_level account = 2) ∧
  (ca_account_type account = 1 ∨ ca_account_type account = 2).
Proof.
  unfold select_accounts. simpl. rewrite order_by_perm, elem_of_filter_bool, bool_decide_eq_true. unfold rejection_reason.
  destruct (Z.eqb_spec (ca_status account) 2); simpl; [|naive_solver].
  case_bool_decide as Ha; simpl; [|set_solver]. case_bool_decide as Ht; simpl; set_solver.
Qed.

Example ambiguous_dispatch_is_guarded : qualify_ambiguous_dispatch_guard = Ok tt.
Proof. vm_compute. reflexivity. Qed.
