(* ===== verification/TInvestReports.v ===== *)
(** * Reports: [crates/vox-tinvest/src/reports.rs]

    A report is generated by one call and its pages are read by later ones.  A generation is
    never repeated; a page is decoded like every other message of the broker; a traversal
    counts the pages it has seen.  The calendar of the [time] crate is a parameter. *)
From S2P Require Import Prelude Money TInvestWire TInvestCanonical TInvestGrpc TInvestAccount TInvestOperations TInvestQualification.

(** ** Messages *)

Record GenerateReportRequest := { grq_account_id : string; grq_from : option Timestamp; grq_to : option Timestamp }.
Record GetReportRequest := { gtq_task_id : string; gtq_page : option Z }.

Inductive BrokerReportRequestPayload :=
| GenerateBrokerReportRequest (request : GenerateReportRequest)
| GetBrokerReportRequest (request : GetReportRequest).

Record BrokerReport := {
  br_trade_id : string;
  br_order_id : string;
  br_figi : string;
  br_execute_sign : string;
  br_trade_datetime : option Timestamp;
  br_exchange : string;
  br_class_code : string;
  br_direction : string;
  br_name : string;
  br_ticker : string;
  br_price : option MoneyValue;
  br_quantity : Z;
  br_order_amount : option MoneyValue;
  br_aci_value : option Quotation;
  br_total_order_amount : option MoneyValue;
  br_broker_commission : option MoneyValue;
  br_exchange_commission : option MoneyValue;
  br_exchange_clearing_commission : option MoneyValue;
  br_repo_rate : option Quotation;
  br_party : string;
  br_clear_value_date : option Timestamp;
  br_sec_value_date : option Timestamp;
  br_broker_status : string;
  br_separate_agreement_type : string;
  br_separate_agreement_number : string;
  br_separate_agreement_date : string;
  br_delivery_type : string;
}.

Record GetBrokerReportResponse := {
  gbr_broker_report : list BrokerReport;
  gbr_items_count : Z;
  gbr_pages_count : Z;
  gbr_page : Z;
  gbr_task_id : string;
}.

Inductive BrokerReportResponsePayload :=
| GenerateBrokerReportResponse (task_id : string)
| GetBrokerReportResponsePayload (response : GetBrokerReportResponse).

Inductive ForeignIssuerRequestPayload :=
| GenerateDivForeignIssuerReport (request : GenerateReportRequest)
| GetDivForeignIssuerReport (request : GetReportRequest).

Record DividendsForeignIssuerReport := {
  df_record_date : option Timestamp;
  df_payment_date : option Timestamp;
  df_security_name : string;
  df_isin : string;
  df_issuer_country : string;
  df_quantity : Z;
  df_dividend : option Quotation;
  df_external_commission : option Quotation;
  df_dividend_gross : option Quotation;
  df_tax : option Quotation;
  df_dividend_amount : option Quotation;
  df_currency : string;
}.

Record GetDividendsForeignIssuerReportResponse := {
  gdr_report : list DividendsForeignIssuerReport;
  gdr_items_count : Z;
  gdr_pages_count : Z;
  gdr_page : Z;
}.

Inductive ForeignIssuerResponsePayload :=
| GenerateDivForeignIssuerReportResponse (task_id : string)
| DivForeignIssuerReport (response : GetDividendsForeignIssuerReportResponse).

(** ** Errors *)

Inductive ReportError :=
| ReportProvider (e : GrpcError)
| ReportCanonical (e : AccountDataError)
| ReportMissingPayload
| InvalidPage
| InvalidPagination (page pages_count : Z)
| ReportInvalidRange
| ForeignIssuerRangeCrossesCalendarYear
| InconsistentPagination (expected actual pages_count : Z).

Notation report := (result ReportError).

(** ** Gates *)

Inductive ReportGate :=
| GatePermission (provider_code : option string)
| GateTariff (provider_code : option string)
| GateEnvironment (provider_code : option string)
| GateAccountKind (provider_code : option string).

Inductive CapabilityObservation (T : Type) :=
| ObservedQualified (value : T)
| ObservedGated (gate : ReportGate).
Arguments ObservedQualified {_}.
Arguments ObservedGated {_}.

Definition observe_documented_gate `{GR : !Grpc} {T} (method : string) (outcome : result GrpcError T)
  : result GrpcError (CapabilityObservation T) :=
  match outcome with
  | Ok value => Ok (ObservedQualified value)
  | Err error =>
      match ge_kind error with
      | ProviderKind provider =>
          match classify_method_gate method provider with
          | Some InsufficientPermission => Ok (ObservedGated (GatePermission (Some "40002"%string)))
          | _ => Err error
          end
      | _ => Err error
      end
  end.

(** ** Requests and states *)

Inductive BrokerReportRequest :=
| BrokerGenerate (account_id : string) (from to : ProviderTimestamp)
| BrokerGet (task_id : string) (page : Z).

Inductive ForeignIssuerReportRequest :=
| ForeignGenerate (account_id : string) (from to : ProviderTimestamp)
| ForeignGet (task_id : string) (page : Z).

Record BrokerReportRow := {
  rr_trade_id : option string;
  rr_order_id : option string;
  rr_figi : option string;
  rr_execute_sign : option string;
  rr_trade_at : option ProviderTimestamp;
  rr_exchange : option string;
  rr_class_code : option string;
  rr_direction : option string;
  rr_name : option string;
  rr_ticker : option string;
  rr_price : option CanonicalMoney;
  rr_quantity : Z;
  rr_order_amount : option CanonicalMoney;
  rr_accrued_interest : option UnitsNano;
  rr_total_order_amount : option CanonicalMoney;
  rr_broker_commission : option CanonicalMoney;
  rr_exchange_commission : option CanonicalMoney;
  rr_clearing_commission : option CanonicalMoney;
  rr_repo_rate : option UnitsNano;
  rr_party : option string;
  rr_clear_value_at : option ProviderTimestamp;
  rr_security_value_at : option ProviderTimestamp;
  rr_broker_status : option string;
  rr_separate_agreement_type : option string;
  rr_separate_agreement_number : option string;
  rr_separate_agreement_date : option string;
  rr_delivery_type : option string;
}.

Record BrokerReportPage := {
  bp_task_id : option string;
  bp_items_count : Z;
  bp_pages_count : Z;
  bp_page : Z;
  bp_rows : list BrokerReportRow;
}.

Inductive BrokerReportState := BrokerGenerating (task_id : string) | BrokerReady (page : BrokerReportPage).

Record ForeignIssuerReportRow := {
  fr_record_at : option ProviderTimestamp;
  fr_payment_at : option ProviderTimestamp;
  fr_security_name : option string;
  fr_isin : option string;
  fr_issuer_country : option string;
  fr_quantity : Z;
  fr_dividend : option UnitsNano;
  fr_external_commission : option UnitsNano;
  fr_dividend_gross : option UnitsNano;
  fr_tax : option UnitsNano;
  fr_dividend_amount : option UnitsNano;
  fr_currency : option string;
}.

Record ForeignIssuerReportPage := {
  fp_items_count : Z;
  fp_pages_count : Z;
  fp_page : Z;
  fp_rows : list ForeignIssuerReportRow;
}.

Inductive ForeignIssuerReportState := ForeignGenerating (task_id : string) | ForeignReady (page : ForeignIssuerReportPage).

(** ** Decoding *)

Definition validate_page (page pages_count : Z) : report () :=
  if (page <? 0) || (pages_count <? 0) || (0 <? pages_count) && (pages_count <=? page)
  then Err (InvalidPagination page pages_count) else Ok tt.

Definition BrokerReportRow_try_from (value : BrokerReport) : decoded BrokerReportRow :=
  let? trade_at := optional_timestamp (br_trade_datetime value) in
  let? price := optional_money (br_price value) in
  let? order_amount := optional_money (br_order_amount value) in
  let? accrued_interest := optional_units (br_aci_value value) in
  let? total_order_amount := optional_money (br_total_order_amount value) in
  let? broker_commission := optional_money (br_broker_commission value) in
  let? exchange_commission := optional_money (br_exchange_commission value) in
  let? clearing_commission := optional_money (br_exchange_clearing_commission value) in
  let? repo_rate := optional_units (br_repo_rate value) in
  let? clear_value_at := optional_timestamp (br_clear_value_date value) in
  let? security_value_at := optional_timestamp (br_sec_value_date value) in
  Ok {| rr_trade_id := optional_text (br_trade_id value); rr_order_id := optional_text (br_order_id value);
        rr_figi := optional_text (br_figi value); rr_execute_sign := optional_text (br_execute_sign value);
        rr_trade_at := trade_at; rr_exchange := optional_text (br_exchange value);
        rr_class_code := optional_text (br_class_code value); rr_direction := optional_text (br_direction value);
        rr_name := optional_text (br_name value); rr_ticker := optional_text (br_ticker value); rr_price := price;
        rr_quantity := br_quantity value; rr_order_amount := order_amount; rr_accrued_interest := accrued_interest;
        rr_total_order_amount := total_order_amount; rr_broker_commission := broker_commission;
        rr_exchange_commission := exchange_commission; rr_clearing_commission := clearing_commission;
        rr_repo_rate := repo_rate; rr_party := optional_text (br_party value); rr_clear_value_at := clear_value_at;
        rr_security_value_at := security_value_at; rr_broker_status := optional_text (br_broker_status value);
        rr_separate_agreement_type := optional_text (br_separate_agreement_type value);
        rr_separate_agreement_number := optional_text (br_separate_agreement_number value);
        rr_separate_agreement_date := optional_text (br_separate_agreement_date value);
        rr_delivery_type := optional_text (br_delivery_type value) |}.

Definition BrokerReportPage_try_from (value : GetBrokerReportResponse) : report BrokerReportPage :=
  let? _ := validate_page (gbr_page value) (gbr_pages_count value) in
  let? rows := map_err ReportCanonical (collect BrokerReportRow_try_from (gbr_broker_report value)) in
  Ok {| bp_task_id := optional_text (gbr_task_id value); bp_items_count := gbr_items_count value;
        bp_pages_count := gbr_pages_count value; bp_page := gbr_page value; bp_rows := rows |}.

Definition BrokerReportState_try_from (value : option BrokerReportResponsePayload) : report BrokerReportState :=
  match value with
  | Some (GenerateBrokerReportResponse task_id) =>
      let? task_id := map_err ReportCanonical (required_text task_id "broker_report.task_id") in
      Ok (BrokerGenerating task_id)
  | Some (GetBrokerReportResponsePayload response) =>
      let? page := BrokerReportPage_try_from response in Ok (BrokerReady page)
  | None => Err ReportMissingPayload
  end.

Definition ForeignIssuerReportRow_try_from (value : DividendsForeignIssuerReport) : decoded ForeignIssuerReportRow :=
  let? record_at := optional_timestamp (df_record_date value) in
  let? payment_at := optional_timestamp (df_payment_date value) in
  let? dividend := optional_units (df_dividend value) in
  let? external_commission := optional_units (df_external_commission value) in
  let? dividend_gross := optional_units (df_dividend_gross value) in
  let? tax := optional_units (df_tax value) in
  let? dividend_amount := optional_units (df_dividend_amount value) in
  Ok {| fr_record_at := record_at; fr_payment_at := payment_at;
        fr_security_name := optional_text (df_security_name value); fr_isin := optional_text (df_isin value);
        fr_issuer_country := optional_text (df_issuer_country value); fr_quantity := df_quantity value;
        fr_dividend := dividend; fr_external_commission := external_commission;
        fr_dividend_gross := dividend_gross; fr_tax := tax; fr_dividend_amount := dividend_amount;
        fr_currency := optional_text (df_currency value) |}.

Definition ForeignIssuerReportState_try_from (value : option ForeignIssuerResponsePayload)
  : report ForeignIssuerReportState :=
  match value with
  | Some (GenerateDivForeignIssuerReportResponse task_id) =>
      let? task_id := map_err ReportCanonical (required_text task_id "foreign_report.task_id") in
      Ok (ForeignGenerating task_id)
  | Some (DivForeignIssuerReport response) =>
      let? _ := validate_page (gdr_page response) (gdr_pages_count response) in
      let? rows := map_err ReportCanonical (collect ForeignIssuerReportRow_try_from (gdr_report response)) in
      Ok (ForeignReady {| fp_items_count := gdr_items_count response; fp_pages_count := gdr_pages_count response;
                          fp_page := gdr_page response; fp_rows := rows |})
  | None => Err ReportMissingPayload
  end.

(** ** Pages *)

Record ReportPageTraversal := { rt_next_page : Z; rt_task_id : string }.

Definition ReportPageTraversal_new (task_id : string) : report ReportPageTraversal :=
  let? task_id := map_err ReportCanonical (required_text task_id "report.task_id") in
  Ok {| rt_next_page := 0; rt_task_id := task_id |}.

(** [i32::try_from] of an unsigned page. *)
Definition page_i32 (page : Z) : report Z := ok_or (checked I32 page) InvalidPage.

(** [ReportPageTraversal::observe]: whether this was the last page. *)
Definition traversal_observe (page pages_count : Z) : st ReportPageTraversal ReportError bool := λ self,
  match page_i32 (rt_next_page self) with
  | Err e => (self, Err e)
  | Ok expected =>
      if negb (page =? expected) || (pages_count <? page)
      then (self, Err (InconsistentPagination expected page pages_count))
      else if page =? pages_count then (self, Ok true)
      else
        if U32_MAX <? rt_next_page self + 1 then (self, Err InvalidPage)
        else ({| rt_next_page := rt_next_page self + 1; rt_task_id := rt_task_id self |}, Ok false)
  end.

(** ** The client *)

(** [OffsetDateTime::from_unix_timestamp(seconds)] and the [year()] of it; outside its
    range the calendar has no date. *)
Class Calendar := { year_of : Z → option Z }.

Definition validate_same_calendar_year `{CA : !Calendar} (from to : ProviderTimestamp) : report () :=
  if timestamp_gt from to then Err ReportInvalidRange
  else
    let? from := ok_or (year_of (pt_seconds from)) ReportInvalidRange in
    let? to := ok_or (year_of (pt_seconds to)) ReportInvalidRange in
    if negb (from =? to) then Err ForeignIssuerRangeCrossesCalendarYear else Ok tt.

(** [required_text(account_id)], [Some(timestamp(from))], [Some(timestamp(to))]. *)
Definition generate_request (account_id field : string) (from to : ProviderTimestamp) : report GenerateReportRequest :=
  let? account_id := map_err ReportCanonical (required_text account_id field) in
  Ok {| grq_account_id := account_id; grq_from := Some (provider_timestamp from); grq_to := Some (provider_timestamp to) |}.

Definition get_request (task_id field : string) (page : Z) : report GetReportRequest :=
  let? task_id := map_err ReportCanonical (required_text task_id field) in
  let? page := page_i32 page in
  Ok {| gtq_task_id := task_id; gtq_page := Some page |}.

Definition broker_request (request : BrokerReportRequest) : report BrokerReportRequestPayload :=
  match request with
  | BrokerGenerate account_id from to =>
      let? r := generate_request account_id "broker_report.account_id" from to in Ok (GenerateBrokerReportRequest r)
  | BrokerGet task_id page =>
      let? r := get_request task_id "broker_report.task_id" page in Ok (GetBrokerReportRequest r)
  end.

Definition foreign_request `{CA : !Calendar} (request : ForeignIssuerReportRequest) : report ForeignIssuerRequestPayload :=
  match request with
  | ForeignGenerate account_id from to =>
      let? _ := validate_same_calendar_year from to in
      let? r := generate_request account_id "foreign_report.account_id" from to in Ok (GenerateDivForeignIssuerReport r)
  | ForeignGet task_id page =>
      let? r := get_request task_id "foreign_report.task_id" page in Ok (GetDivForeignIssuerReport r)
  end.

Class ReportsApi (W : Type) := {
  rpc_get_broker_report : rpc W (option BrokerReportRequestPayload) (option BrokerReportResponsePayload);
  rpc_get_dividends_foreign_issuer : rpc W (option ForeignIssuerRequestPayload) (option ForeignIssuerResponsePayload);
}.

Section client.
Context {W : Type} `{NW : !Network W} `{GR : !Grpc} `{CA : !Calendar} `{RA : !ReportsApi W}.

Definition get_broker_report (self : TInvestGrpcClient) (request : option BrokerReportRequestPayload)
  : st W GrpcError (GrpcResponse (option BrokerReportResponsePayload)) :=
  let retry := match request with Some (GetBrokerReportRequest _) => true | _ => false end in
  returned "GetBrokerReport" (service_read self "GetBrokerReport" request rpc_get_broker_report retry).

Definition get_dividends_foreign_issuer (self : TInvestGrpcClient) (request : option ForeignIssuerRequestPayload)
  : st W GrpcError (GrpcResponse (option ForeignIssuerResponsePayload)) :=
  let retry := match request with Some (GetDivForeignIssuerReport _) => true | _ => false end in
  returned "GetDividendsForeignIssuer"
    (service_read self "GetDividendsForeignIssuer" request rpc_get_dividends_foreign_issuer retry).

Record ReportsClient := { rpt_grpc : TInvestGrpcClient }.

Definition broker_report (self : ReportsClient) (request : BrokerReportRequest) : st W ReportError BrokerReportState :=
  let! provider := st_lift (broker_request request) in
  let! response := st_map_err ReportProvider (get_broker_report (rpt_grpc self) (Some provider)) in
  st_lift (BrokerReportState_try_from (gr_body response)).

Definition foreign_issuer_report (self : ReportsClient) (request : ForeignIssuerReportRequest)
  : st W ReportError ForeignIssuerReportState :=
  let! provider := st_lift (foreign_request request) in
  let! response := st_map_err ReportProvider (get_dividends_foreign_issuer (rpt_grpc self) (Some provider)) in
  st_lift (ForeignIssuerReportState_try_from (gr_body response)).
End client.

(** ** What a page says *)

Definition report_amounts (m : BrokerReport) : list (option MoneyValue) :=
  [br_price m; br_order_amount m; br_total_order_amount m; br_broker_commission m; br_exchange_commission m;
   br_exchange_clearing_commission m].
Definition row_amounts (c : BrokerReportRow) : list (option CanonicalMoney) :=
  [rr_price c; rr_order_amount c; rr_total_order_amount c; rr_broker_commission c; rr_exchange_commission c;
   rr_clearing_commission c].
Definition report_times (m : BrokerReport) : list (option Timestamp) :=
  [br_trade_datetime m; br_clear_value_date m; br_sec_value_date m].

Definition report_row_wf (m : BrokerReport) : bool :=
  forallb money_wf (report_amounts m) && forallb quotation_wf [br_aci_value m; br_repo_rate m]
  && forallb time_wf (report_times m).

Definition report_row_reads (m : BrokerReport) (c : BrokerReportRow) : Prop :=
  rr_quantity c = br_quantity m ∧
  [rr_trade_id c; rr_order_id c; rr_figi c; rr_direction c; rr_ticker c]
  = optional_text <$> [br_trade_id m; br_order_id m; br_figi m; br_direction m; br_ticker m] ∧
  Forall2 money_reads (report_amounts m) (row_amounts c) ∧
  Forall2 quotation_reads [br_aci_value m; br_repo_rate m] [rr_accrued_interest c; rr_repo_rate c] ∧
  Forall2 time_reads (report_times m) [rr_trade_at c; rr_clear_value_at c; rr_security_value_at c].

Lemma report_row_decodes : decodes BrokerReportRow_try_from report_row_wf report_row_reads.
Proof.
  intros m. unfold BrokerReportRow_try_from, report_row_wf, report_amounts, report_times. cbn [forallb]. decode_fields.
  split; [done|]. unfold report_row_reads, report_amounts, report_times, row_amounts. simpl.
  split_and!; try done; by repeat constructor.
Qed.

Definition dividend_amounts (m : DividendsForeignIssuerReport) : list (option Quotation) :=
  [df_dividend m; df_external_commission m; df_dividend_gross m; df_tax m; df_dividend_amount m].

Definition dividend_row_wf (m : DividendsForeignIssuerReport) : bool :=
  forallb quotation_wf (dividend_amounts m) && forallb time_wf [df_record_date m; df_payment_date m].

Definition dividend_row_reads (m : DividendsForeignIssuerReport) (c : ForeignIssuerReportRow) : Prop :=
  fr_quantity c = df_quantity m ∧ fr_isin c = optional_text (df_isin m) ∧
  fr_currency c = optional_text (df_currency m) ∧
  Forall2 quotation_reads (dividend_amounts m)
    [fr_dividend c; fr_external_commission c; fr_dividend_gross c; fr_tax c; fr_dividend_amount c] ∧
  Forall2 time_reads [df_record_date m; df_payment_date m] [fr_record_at c; fr_payment_at c].

Lemma dividend_row_decodes : decodes ForeignIssuerReportRow_try_from dividend_row_wf dividend_row_reads.
Proof.
  intros m. unfold ForeignIssuerReportRow_try_from, dividend_row_wf, dividend_amounts. cbn [forallb]. decode_fields.
  split; [done|]. unfold dividend_row_reads, dividend_amounts. simpl. split_and!; try done; by repeat constructor.
Qed.

Definition page_wf (page pages_count : Z) : bool :=
  (0 <=? page) && (0 <=? pages_count) && ((pages_count =? 0) || (page <? pages_count)).

Lemma validate_page_Ok page pages_count : is_ok (validate_page page pages_count) = page_wf page pages_count.
Proof. unfold validate_page, page_wf. destruct (_ || _) eqn:H; simpl; lia. Qed.

(** A page of a broker report is read exactly when its number is within the report and every
    amount and time in it is well formed; it then has one row for every row sent, in the
    order sent, with the amounts sent. *)
Theorem broker_page_decodes :
  decodes BrokerReportPage_try_from
    (λ r, page_wf (gbr_page r) (gbr_pages_count r) && forallb report_row_wf (gbr_broker_report r))
    (λ r p, bp_task_id p = optional_text (gbr_task_id r) ∧ bp_items_count p = gbr_items_count r ∧
            bp_pages_count p = gbr_pages_count r ∧ bp_page p = gbr_page r ∧
            Forall2 report_row_reads (gbr_broker_report r) (bp_rows p)).
Proof.
  intros r. unfold BrokerReportPage_try_from. rewrite <- validate_page_Ok.
  destruct (validate_page _ _); simpl; [|done].
  pose proof (decodes_collect _ _ _ report_row_decodes (gbr_broker_report r)) as H.
  destruct (collect _ _); simpl; [|done]. by destruct H.
Qed.

(** ** The traversal *)

Lemma traversal_observe_spec page pages_count self :
  0 ≤ rt_next_page self ≤ int_max I32 →
  traversal_observe page pages_count self =
  if negb (page =? rt_next_page self) || (pages_count <? page)
  then (self, Err (InconsistentPagination (rt_next_page self) page pages_count))
  else if page =? pages_count then (self, Ok true)
  else ({| rt_next_page := rt_next_page self + 1; rt_task_id := rt_task_id self |}, Ok false).
Proof.
  intros H. unfold traversal_observe, page_i32. rewrite checked_fits by int_lia. simpl.
  assert (U32_MAX <? rt_next_page self + 1 = false) as -> by (unfold U32_MAX; int_lia). done.
Qed.

(** Observing pages one after the other, until one is the last. *)
Fixpoint traverse (pages : list Z) (pages_count : Z) (self : ReportPageTraversal)
  : ReportPageTraversal * result ReportError bool :=
  match pages with
  | [] => (self, Ok false)
  | page :: pages =>
      match traversal_observe page pages_count self with
      | (self, Ok false) => traverse pages pages_count self
      | ended => ended
      end
  end.

(** A report of [pages_count], counted from zero, is complete when all its pages have been
    observed in order, and not before. *)
Theorem traversal_sees_every_page task_id self pages_count (n : nat) :
  ReportPageTraversal_new task_id = Ok self → 0 ≤ pages_count ≤ int_max I32 → Z.of_nat n ≤ pages_count + 1 →
  (traverse (seqZ 0 (Z.of_nat n)) pages_count self).2 = Ok (Z.of_nat n =? pages_count + 1).
Proof.
  unfold ReportPageTraversal_new. destruct (required_text _ _) as [text|]; [|done]. intros [= <-] Hc Hn.
  enough (∀ (k : nat) next, 0 ≤ next → next + Z.of_nat k ≤ pages_count + 1 →
    (traverse (seqZ next (Z.of_nat k)) pages_count {| rt_next_page := next; rt_task_id := text |}).2
    = Ok (bool_decide (0 < k)%nat && (next + Z.of_nat k =? pages_count + 1))) as H.
  { rewrite H by lia. f_equal. destruct n; [|done]. symmetry. apply Z.eqb_neq. lia. }
  induction k as [|k IH]; intros next Hnext Hk; [done|].
  rewrite seqZ_cons by lia. cbn [traverse].
  replace (Z.pred (Z.of_nat (S k))) with (Z.of_nat k) by lia.
  rewrite traversal_observe_spec by (cbn [rt_next_page]; lia). simpl rt_next_page. rewrite Z.eqb_refl. simpl negb.
  assert (pages_count <? next = false) as -> by lia. cbn [orb].
  destruct (Z.eqb_spec next pages_count) as [->|Hne]; simpl.
  - f_equal. symmetry. apply Z.eqb_eq. lia.
  - rewrite <- Z.add_1_r, IH by lia. f_equal. replace (next + 1 + Z.of_nat k) with (next + Z.of_nat (S k)) by lia.
    destruct k; [|done]. symmetry. apply Z.eqb_neq. lia.
Qed.

(** A page that was decoded ends a traversal only for a report of no further pages: the last
    page of any longer report is refused by [validate_page]. *)
Lemma long_report_never_completes r p self self' :
  BrokerReportPage_try_from r = Ok p →
  traversal_observe (bp_page p) (bp_pages_count p) self = (self', Ok true) →
  bp_pages_count p = 0 ∧ bp_page p = 0.
Proof.
  intros Hd Ho. pose proof (broker_page_decodes r) as H. rewrite Hd in H. destruct H as (Hwf & _ & _ & Hc & Hp & _).
  rewrite andb_true_iff in Hwf. destruct Hwf as [Hwf _]. unfold page_wf in Hwf.
  revert Ho. unfold traversal_observe. destruct (page_i32 _); [|done]. destruct (negb _ || _); [done|].
  destruct (Z.eqb_spec (bp_page p) (bp_pages_count p)); [lia|]. by destruct (U32_MAX <? _).
Qed.

Example three_pages_complete :
  (traverse [0; 1; 2] 2 {| rt_next_page := 0; rt_task_id := "t" |}).2 = Ok true ∧
  validate_page 2 2 = Err (InvalidPagination 2 2).
Proof. split; reflexivity. Qed.

(** ** Generation *)

Section generation.
Context {W : Type} `{NW : !Network W} `{GR : !Grpc} `{CA : !Calendar} `{RA : !ReportsApi W}.

(** One attempt of a read. *)
Definition attempted_once {Req Resp} (self : TInvestGrpcClient) (method : string) (body : Req)
    (dispatch : rpc W Req Resp) (w : W) : W * result GrpcError (GrpcResponse Resp) :=
  let '(w, request_id) := nw_request_id w in
  let failed kind := Err {| ge_metadata := {| qm_request_id := request_id; qm_method := method; qm_attempt := 1;
                                              qm_mutation := false |}; ge_kind := kind |} in
  match unary_request self body request_id with
  | Err kind => (w, failed kind)
  | Ok request =>
      match dispatch request w with
      | (w, Ok response) => (w, Ok (from_tonic request_id 1 response))
      | (w, Err status) => (w, failed (ProviderKind (provider_from_status status)))
      end
  end.

Lemma unretried_read_once {Req Resp} self method (body : Req) (dispatch : rpc W Req Resp) w :
  returned method (service_read self method body dispatch false) w = attempted_once self method body dispatch w.
Proof.
  unfold returned, service_read, attempted_once. destruct (nw_request_id w) as [w0 request_id]. simpl.
  destruct (unary_request _ _ _); [|done]. by destruct (dispatch _ _) as [w1 [?|?]].
Qed.

(** A generation is sent at most once, whatever the provider answers: it is refused before
    anything is sent, or it is one attempt of one request. *)
Theorem generation_attempted_once self account_id from to w :
  broker_report self (BrokerGenerate account_id from to) w =
  match broker_request (BrokerGenerate account_id from to) with
  | Err e => (w, Err e)
  | Ok provider =>
      match attempted_once (rpt_grpc self) "GetBrokerReport" (Some provider) rpc_get_broker_report w with
      | (w, Ok response) => (w, BrokerReportState_try_from (gr_body response))
      | (w, Err e) => (w, Err (ReportProvider e))
      end
  end.
Proof.
  unfold broker_report. st_unfold. simpl broker_request.
  destruct (generate_request _ _ _ _) as [r|e]; [|done]. cbv beta match.
  unfold get_broker_report. rewrite unretried_read_once. by destruct (attempted_once _ _ _ _ _) as [w' [?|?]].
Qed.

(** The same for the report of a foreign issuer, whose period also lies in one year. *)
Theorem foreign_generation_attempted_once self account_id from to w :
  foreign_issuer_report self (ForeignGenerate account_id from to) w =
  match foreign_request (ForeignGenerate account_id from to) with
  | Err e => (w, Err e)
  | Ok provider =>
      match attempted_once (rpt_grpc self) "GetDividendsForeignIssuer" (Some provider)
              rpc_get_dividends_foreign_issuer w with
      | (w, Ok response) => (w, ForeignIssuerReportState_try_from (gr_body response))
      | (w, Err e) => (w, Err (ReportProvider e))
      end
  end.
Proof.
  unfold foreign_issuer_report. st_unfold. simpl foreign_request.
  destruct (validate_same_calendar_year from to) as [[]|e]; [|done].
  destruct (generate_request _ _ _ _) as [r|e]; [|done]. cbv beta match.
  unfold get_dividends_foreign_issuer. rewrite unretried_read_once. by destruct (attempted_once _ _ _ _ _) as [w' [?|?]].
Qed.

(** A foreign report is requested only for a period that starts no later than it ends and
    whose two ends the calendar puts in the same year. *)
Lemma foreign_period_in_one_year account_id from to provider :
  foreign_request (ForeignGenerate account_id from to) = Ok provider →
  timestamp_gt from to = false ∧ ∃ year, year_of (pt_seconds from) = Some year ∧ year_of (pt_seconds to) = Some year.
Proof.
  simpl. unfold validate_same_calendar_year. destruct (timestamp_gt from to); [done|].
  destruct (year_of (pt_seconds from)) as [a|]; [|done]. destruct (year_of (pt_seconds to)) as [b|]; [|done]. simpl.
  destruct (Z.eqb_spec a b) as [->|]; [|done]. intros _. split; [done|]. by exists b.
Qed.
End generation.
