(* ===== verification/TInvestReference.v ===== *)
(** * Reference data: [crates/vox-tinvest/src/reference.rs]

    The policy above the instruments service: which capabilities its methods have shown, how
    its requests are formed and within which bounds, and which instruments are tried for a
    forecast. *)
From stdpp Require Import gmap strings sorting.
From S2P Require Import Prelude SortedVec TInvestWire TInvestCanonical TInvestGrpc.

Definition INSTRUMENTS_SERVICE_METHODS : list string := [
  "TradingSchedules"; "BondBy"; "Bonds"; "GetBondCoupons"; "GetBondEvents"; "CurrencyBy"; "Currencies"; "EtfBy"; "Etfs";
  "FutureBy"; "Futures"; "OptionBy"; "Options"; "OptionsBy"; "ShareBy"; "Shares"; "DfaBy"; "Dfas"; "Indicatives";
  "GetAccruedInterests"; "GetFuturesMargin"; "GetInstrumentBy"; "GetDividends"; "GetAssetBy"; "GetAssets";
  "GetFavorites"; "EditFavorites"; "CreateFavoriteGroup"; "DeleteFavoriteGroup"; "GetFavoriteGroups"; "GetCountries";
  "FindInstrument"; "GetBrands"; "GetBrandBy"; "GetAssetFundamentals"; "GetAssetReports"; "GetConsensusForecasts";
  "GetForecastBy"; "GetRiskRates"; "GetInsiderDeals"; "StructuredNoteBy"; "StructuredNotes"; "News"]%string.

Definition MUTATION_METHODS : list string := ["EditFavorites"; "CreateFavoriteGroup"; "DeleteFavoriteGroup"]%string.

(** ** Capabilities *)

Inductive CapabilityState :=
| Supported
| ProviderDataUnavailable
| ProviderInconsistency
| UnsupportedInEnvironment
| CapabilityPermissionDenied
| TemporarilyUnavailable
| Deprecated.

Definition CapabilityRegistry : Type := gmap string CapabilityState.

Definition registry_default : CapabilityRegistry :=
  list_to_map ((λ method, (method, if bool_decide (method = "Options"%string) then Deprecated else Supported))
                 <$> INSTRUMENTS_SERVICE_METHODS).

Definition registry_state (self : CapabilityRegistry) (method : string) : option CapabilityState := self !! method.

(** The state a code of the provider shows, if it shows one. *)
Definition code_state (code : Code) : option CapabilityState :=
  match code with
  | PermissionDenied | Unauthenticated => Some CapabilityPermissionDenied
  | Unimplemented => Some UnsupportedInEnvironment
  | Unavailable | ResourceExhausted => Some TemporarilyUnavailable
  | _ => None
  end.

Definition record_provider_code (method : string) (code : Code) (self : CapabilityRegistry) : CapabilityRegistry * bool :=
  match code_state code with
  | Some state => (<[method := state]> self, true)
  | None => (self, false)
  end.

Definition mark_provider_data_unavailable (method : string) (self : CapabilityRegistry) : CapabilityRegistry :=
  <[method := ProviderDataUnavailable]> self.

Definition mark_provider_inconsistency (method : string) (self : CapabilityRegistry) : CapabilityRegistry :=
  <[method := ProviderInconsistency]> self.

(** ** Requests *)

Inductive RequestValidationError :=
| MissingIdentifier
| MissingClassCode
| RequestInvalidRange
| InvalidLimit
| InvalidAssetCount.

(** [provider_identifier!]: the five identifiers are a text that is not blank. *)
Definition identifier_new (value : string) : result RequestValidationError string :=
  if is_blank value then Err MissingIdentifier else Ok value.

Record InstrumentsRequest := { isq_instrument_status : option Z; isq_instrument_exchange : option Z }.

Definition catalogue_request : InstrumentsRequest := {|
  isq_instrument_status := Some 1; isq_instrument_exchange := Some 0 |}.

Record InstrumentLookup := { il_id_type : Z; il_class_code : option string; il_id : string }.

Definition instrument_by_uid (uid : string) : InstrumentLookup := {|
  il_id_type := 3; il_class_code := None; il_id := uid |}.

Definition instrument_by_ticker (ticker class_code : string) : result RequestValidationError InstrumentLookup :=
  if is_blank ticker then Err MissingIdentifier
  else if is_blank class_code then Err MissingClassCode
  else Ok {| il_id_type := 2; il_class_code := Some class_code; il_id := ticker |}.

Definition timestamp_after (a b : Timestamp) : bool :=
  (ts_seconds b <? ts_seconds a) || (ts_seconds a =? ts_seconds b) && (ts_nanos b <? ts_nanos a).

Definition validate_period (instrument_id : string) (from to : option Timestamp) : result RequestValidationError () :=
  if is_blank instrument_id then Err MissingIdentifier
  else
    match from, to with
    | Some from, Some to => if timestamp_after from to then Err RequestInvalidRange else Ok tt
    | _, _ => Ok tt
    end.

Definition fundamentals_request (assets : list string) : result RequestValidationError (list string) :=
  if bool_decide (assets = []) || (100 <? Z.of_nat (length assets)) then Err InvalidAssetCount else Ok assets.

Record GetInsiderDealsRequest := { idq_instrument_id : string; idq_limit : Z; idq_next_cursor : option string }.

Definition insider_deals_request (instrument_uid : string) (limit : Z) (next_cursor : option string)
  : result RequestValidationError GetInsiderDealsRequest :=
  if negb ((1 <=? limit) && (limit <=? 100)) then Err InvalidLimit
  else Ok {| idq_instrument_id := instrument_uid; idq_limit := limit; idq_next_cursor := next_cursor |}.

(** ** Candidates for a forecast *)

(** [.filter(|uid| seen.insert(uid.clone()))]. *)
Fixpoint first_seen (seen : gset string) (l : list string) : list string :=
  match l with
  | [] => []
  | uid :: l => if bool_decide (uid ∈ seen) then first_seen seen l else uid :: first_seen ({[uid]} ∪ seen) l
  end.

Definition valid_identifiers (l : list string) : list string :=
  List.filter (λ uid, is_ok (identifier_new uid)) l.

(** Over the [asset_uid] of every item of the answer. *)
Definition consensus_asset_uids (asset_uids : list string) : list string :=
  take 8 (first_seen ∅ (valid_identifiers asset_uids)).

(** Over the [uid] of every instrument of the asset. *)
Definition forecast_instrument_candidates (uids : list string) : list string :=
  take 8 (sorted_set String.le (valid_identifiers uids)).

Record ForecastProviderInconsistency := { fpi_asset_uids : list string; fpi_candidate_count : Z }.

(** ** What the policy guarantees *)

(** The strict order of the candidates. *)
Definition text_lt : relation string := strictly String.le.

Lemma elem_of_valid x l : x ∈ valid_identifiers l ↔ x ∈ l ∧ is_blank x = false.
Proof.
  unfold valid_identifiers. rewrite elem_of_filter_bool. unfold identifier_new. destruct (is_blank x); naive_solver.
Qed.

(** The candidates for a forecast are exact, deterministic and bounded: at most eight, without
    repetition, in order, each an identifier that the provider sent and that is not blank;
    and one that is left out comes after eight that are not. *)
Theorem forecast_candidates_bounded uids :
  let candidates := forecast_instrument_candidates uids in
  (length candidates ≤ 8)%nat ∧ NoDup candidates ∧ StronglySorted text_lt candidates ∧
  (∀ uid, uid ∈ candidates → uid ∈ uids ∧ is_blank uid = false) ∧
  (∀ uid, uid ∈ uids → is_blank uid = false → uid ∉ candidates →
     length candidates = 8%nat ∧ ∀ c, c ∈ candidates → text_lt c uid).
Proof.
  unfold forecast_instrument_candidates. set (all := sorted_set _ _).
  assert (StronglySorted text_lt all) as Hs by (apply sorted_set_sorted; apply _).
  assert (∀ uid, uid ∈ all ↔ uid ∈ uids ∧ is_blank uid = false) as Hall.
  { intros uid. unfold all. rewrite elem_of_sorted_set. apply elem_of_valid. }
  clearbody all. rewrite <- (take_drop 8 all) in Hs. simpl. split_and!.
  - rewrite length_take. lia.
  - eapply sorted_strictly_nodup, StronglySorted_app_1_l, Hs.
  - by eapply StronglySorted_app_1_l.
  - intros uid Hin. apply Hall. rewrite <- (take_drop 8 all). set_solver.
  - intros uid Hin Hb Hout.
    assert (uid ∈ drop 8 all) as Hd.
    { assert (uid ∈ all) as Ha by by apply Hall. rewrite <- (take_drop 8 all) in Ha. set_solver. }
    split; [|intros c Hc; by eapply StronglySorted_app_1_elem_of].
    rewrite length_take. apply list_elem_of_lookup in Hd as [i Hi%lookup_lt_Some]. rewrite length_drop in Hi. lia.
Qed.

Lemma first_seen_spec seen l :
  NoDup (first_seen seen l) ∧ ∀ uid, uid ∈ first_seen seen l ↔ uid ∈ l ∧ uid ∉ seen.
Proof.
  revert seen. induction l as [|x l IH]; intros seen; simpl; [split; [constructor|set_solver]|]. case_bool_decide as Hx.
  - destruct (IH seen) as [Hn He]. split; [done|]. intros uid. rewrite He. set_solver.
  - destruct (IH ({[x]} ∪ seen)) as [Hn He]. split.
    + constructor; [|done]. rewrite He. set_solver.
    + intros uid. rewrite elem_of_cons, He. destruct (decide (uid = x)); set_solver.
Qed.

(** The assets of the consensus are at most eight, without repetition, each one that the
    provider named. *)
Lemma consensus_assets_bounded asset_uids :
  (length (consensus_asset_uids asset_uids) ≤ 8)%nat ∧ NoDup (consensus_asset_uids asset_uids) ∧
  ∀ uid, uid ∈ consensus_asset_uids asset_uids → uid ∈ asset_uids ∧ is_blank uid = false.
Proof.
  unfold consensus_asset_uids. destruct (first_seen_spec ∅ (valid_identifiers asset_uids)) as [Hn He].
  split_and!; [rewrite length_take; lia|by apply (sublist_NoDup _ _ Hn), sublist_take|].
  intros uid Hin. apply elem_of_valid, (proj1 (He uid)), (subseteq_take 8), Hin.
Qed.

(** The registry knows every method of the service, whatever is recorded for them. *)
Lemma registry_knows_methods method :
  method ∈ INSTRUMENTS_SERVICE_METHODS → is_Some (registry_state registry_default method).
Proof.
  intros Hin. assert (forallb (λ m, bool_decide (is_Some (registry_state registry_default m))) INSTRUMENTS_SERVICE_METHODS = true)
    as H by (vm_compute; reflexivity).
  rewrite forallb_forall in H. apply list_elem_of_In in Hin. by apply H, bool_decide_eq_true in Hin.
Qed.

Lemma recording_keeps_methods method other code self :
  is_Some (registry_state self other) → is_Some (registry_state (record_provider_code method code self).1 other).
Proof.
  unfold record_provider_code, registry_state, CapabilityRegistry in *. destruct (code_state code); [|done]. cbn [fst].
  destruct (decide (method = other)) as [->|]; [rewrite lookup_insert_eq|rewrite lookup_insert_ne by done]; eauto.
Qed.

Example reference_sample :
  forecast_instrument_candidates ["b"; " "; "a"; "b"]%string = ["a"; "b"]%string ∧
  consensus_asset_uids ["b"; ""; "a"; "b"]%string = ["b"; "a"]%string ∧
  (record_provider_code "Options" Unimplemented registry_default).1 !! "Options"%string = Some UnsupportedInEnvironment.
Proof. vm_compute. done. Qed.
