(* ===== verification/TInvestDispatch.v ===== *)
(** * Dispatching mutations: [crates/vox-tinvest/src/execution_dispatch.rs] and
    [runtime_execution.rs]

    Two adapters send execution messages.  [ExecutionMutationDispatcher] keeps its own
    evidence: UNKNOWN is committed before the transport is called and resolved from the
    provider's answer.  [TInvestRuntimeExecutionAdapter] is stateless: the runtime owns
    the durable record, and the adapter builds one message from the command and makes
    one attempt.

    The generated clients are the class [OrdersApi], a method per remote call.  The
    theorems say what may have been sent when either adapter returns, and what the
    evidence records then. *)
From S2P Require Import Prelude Money Domain Mutation TInvestWire TInvestCanonical TInvestExecution TInvestGrpc.

(** ** The remote methods *)

Class OrdersApi (W : Type) := {
  rpc_post_order : rpc W PostOrderRequest PostOrderResponse;
  rpc_post_order_async : rpc W PostOrderAsyncRequest PostOrderAsyncResponse;
  rpc_cancel_order : rpc W CancelOrderRequest CancelOrderResponse;
  rpc_replace_order : rpc W ReplaceOrderRequest PostOrderResponse;
  rpc_post_stop_order : rpc W PostStopOrderRequest PostStopOrderResponse;
  rpc_cancel_stop_order : rpc W CancelStopOrderRequest CancelStopOrderResponse;
  rpc_post_sandbox_order : rpc W PostOrderRequest PostOrderResponse;
  rpc_post_sandbox_order_async : rpc W PostOrderAsyncRequest PostOrderAsyncResponse;
  rpc_replace_sandbox_order : rpc W ReplaceOrderRequest PostOrderResponse;
  rpc_cancel_sandbox_order : rpc W CancelOrderRequest CancelOrderResponse;
  rpc_post_sandbox_stop_order : rpc W PostStopOrderRequest PostStopOrderResponse;
  rpc_cancel_sandbox_stop_order : rpc W CancelStopOrderRequest CancelStopOrderResponse;
}.

Inductive ExecutionRoute := RouteProduction | RouteSandbox.

Definition route_environment (route : ExecutionRoute) : Environment :=
  match route with RouteProduction => Live | RouteSandbox => Sandbox end.

Section methods.
Context {W : Type} `{NW : !Network W} `{GR : !Grpc} `{OA : !OrdersApi W}.

Notation call Req Resp :=
  (TInvestGrpcClient → MutationAuthorization → Req → st W GrpcError (GrpcResponse Resp)).

Definition post_order : call PostOrderRequest PostOrderResponse := λ self authorization request,
  service_mutation self authorization "PostOrder" request rpc_post_order.
Definition post_order_async : call PostOrderAsyncRequest PostOrderAsyncResponse :=
  λ self authorization request,
  service_mutation self authorization "PostOrderAsync" request rpc_post_order_async.
Definition cancel_order : call CancelOrderRequest CancelOrderResponse := λ self authorization request,
  service_mutation self authorization "CancelOrder" request rpc_cancel_order.
Definition replace_order : call ReplaceOrderRequest PostOrderResponse := λ self authorization request,
  service_mutation self authorization "ReplaceOrder" request rpc_replace_order.
Definition post_stop_order : call PostStopOrderRequest PostStopOrderResponse :=
  λ self authorization request,
  service_mutation self authorization "PostStopOrder" request rpc_post_stop_order.
Definition cancel_stop_order : call CancelStopOrderRequest CancelStopOrderResponse :=
  λ self authorization request,
  service_mutation self authorization "CancelStopOrder" request rpc_cancel_stop_order.
Definition post_sandbox_order : call PostOrderRequest PostOrderResponse :=
  λ self authorization request,
  service_mutation self authorization "PostSandboxOrder" request rpc_post_sandbox_order.
Definition post_sandbox_order_async : call PostOrderAsyncRequest PostOrderAsyncResponse :=
  λ self authorization request,
  service_mutation self authorization "PostSandboxOrderAsync" request rpc_post_sandbox_order_async.
Definition replace_sandbox_order : call ReplaceOrderRequest PostOrderResponse :=
  λ self authorization request,
  service_mutation self authorization "ReplaceSandboxOrder" request rpc_replace_sandbox_order.
Definition cancel_sandbox_order : call CancelOrderRequest CancelOrderResponse :=
  λ self authorization request,
  service_mutation self authorization "CancelSandboxOrder" request rpc_cancel_sandbox_order.
Definition post_sandbox_stop_order : call PostStopOrderRequest PostStopOrderResponse :=
  λ self authorization request,
  service_mutation self authorization "PostSandboxStopOrder" request rpc_post_sandbox_stop_order.
Definition cancel_sandbox_stop_order : call CancelStopOrderRequest CancelStopOrderResponse :=
  λ self authorization request,
  service_mutation self authorization "CancelSandboxStopOrder" request rpc_cancel_sandbox_stop_order.
End methods.

(** ** What the provider rejected for certain *)

Definition authoritative_rejection (error : GrpcError) : bool :=
  match ge_kind error with
  | ProviderKind provider =>
      match gp_code provider with
      | InvalidArgument | Unauthenticated | PermissionDenied | NotFound | AlreadyExists
      | FailedPrecondition | OutOfRange | Unimplemented => true
      | _ => false
      end
  | _ => false
  end.

(** ** The dispatcher with evidence *)

Inductive ExecutionDispatchError :=
| EnvironmentMismatch
| ReconciliationRequired
| DispatchIdentity (e : IdentityError)
| DispatchStore (e : Mutation.StoreError)
| DispatchRejected (source : GrpcError) (evidence : MutationEvidence)
| UnknownAfterDispatch (source : GrpcError) (evidence : MutationEvidence).

Record AcknowledgedMutation (T : Type) := {
  ak_response : GrpcResponse T;
  ak_evidence : MutationEvidence;
}.
Arguments ak_response {T}. Arguments ak_evidence {T}.
Arguments Build_AcknowledgedMutation {T}.

Definition optional_broker_order (evidence : MutationEvidence) (value : string)
  : result IdentityError MutationEvidence :=
  if is_blank value then Ok evidence
  else let? id := identity_new value in Ok (with_broker_order_id evidence id).

Definition optional_broker_stop_order (evidence : MutationEvidence) (value : string)
  : result IdentityError MutationEvidence :=
  if is_blank value then Ok evidence
  else let? id := identity_new value in Ok (with_broker_stop_order_id evidence id).

Section dispatcher.
Context {S : Type} `{ST : !MutationEvidenceStore S}.
Context {W : Type} `{NW : !Network W} `{GR : !Grpc} `{OA : !OrdersApi W}.

(** The store of the dispatcher and the network. *)
Notation dx := (st (S * W) ExecutionDispatchError).

Definition on_store {A} (m : st S Mutation.StoreError A) : dx A := st_fst (st_map_err DispatchStore m).

(** [reconcile_order_accepted], on the store. *)
Definition reconcile_order_accepted (client_request_id : ClientRequestId)
    (broker_order_id : BrokerOrderId) : st S Mutation.StoreError MutationEvidence :=
  let! s := st_get in
  let! d := st_lift (decision s client_request_id) in
  match d with
  | Reconcile => resolve_order_accepted client_request_id broker_order_id
  | _ => st_fail "mutation evidence does not require reconciliation"
  end.

Definition execute_with_id {T} (client : TInvestGrpcClient) (authorization_environment : Environment)
    (route : ExecutionRoute) (logical_id : ClientRequestId)
    (dispatch : st W GrpcError (GrpcResponse T))
    (attach : MutationEvidence → T → result IdentityError MutationEvidence)
  : dx (AcknowledgedMutation T) :=
  if negb (bool_decide (route_environment route = client_environment client))
     || negb (bool_decide (authorization_environment = client_environment client))
  then st_fail EnvironmentMismatch
  else
    let! d := on_store (let! s := st_get in st_lift (decision s logical_id)) in
    match d with
    | Submit =>
        let! evidence := on_store (persist_before_dispatch logical_id None) in
        λ s, match dispatch s.2 with
             | (w, Ok response) =>
                 (let! evidence := st_lift (map_err DispatchIdentity (attach evidence (gr_body response))) in
                  let! evidence := on_store (persist_authoritative_outcome evidence AuthAccepted) in
                  st_ret {| ak_response := response; ak_evidence := evidence |}) (s.1, w)
             | (w, Err source) =>
                 if authoritative_rejection source
                 then (let! evidence := on_store (persist_authoritative_outcome evidence AuthRejected) in
                       st_fail (DispatchRejected source evidence)) (s.1, w)
                 else ((s.1, w), Err (UnknownAfterDispatch source evidence))
             end
    | _ => st_fail ReconciliationRequired
    end.

Definition execute {T} (client : TInvestGrpcClient) (authorization_environment : Environment)
    (route : ExecutionRoute) (logical_id : string) (dispatch : st W GrpcError (GrpcResponse T))
    (attach : MutationEvidence → T → result IdentityError MutationEvidence)
  : dx (AcknowledgedMutation T) :=
  let! id := st_lift (map_err DispatchIdentity (identity_new logical_id)) in
  execute_with_id client authorization_environment route id dispatch attach.

(** [match route { Production => ..., Sandbox => ... }]. *)
Definition by_route {A} (route : ExecutionRoute) (production sandbox : A) : A :=
  match route with RouteProduction => production | RouteSandbox => sandbox end.

Definition dispatch_post_order (client : TInvestGrpcClient) (authorization : MutationAuthorization)
    (route : ExecutionRoute) (request : PostOrderRequest) : dx (AcknowledgedMutation PostOrderResponse) :=
  execute client (ma_environment authorization) route (por_order_id request)
    (by_route route post_order post_sandbox_order client authorization request)
    (λ evidence response, optional_broker_order evidence (pos_order_id response)).

Definition dispatch_post_order_async (client : TInvestGrpcClient)
    (authorization : MutationAuthorization) (route : ExecutionRoute)
    (request : PostOrderAsyncRequest) : dx (AcknowledgedMutation PostOrderAsyncResponse) :=
  execute client (ma_environment authorization) route (pa_order_id request)
    (by_route route post_order_async post_sandbox_order_async client authorization request)
    (λ evidence response,
       Ok match filter_text (par_trade_intent_id response) with
          | Some value => with_provider_operation_id evidence value
          | None => evidence
          end).

Definition dispatch_replace_order (client : TInvestGrpcClient) (authorization : MutationAuthorization)
    (route : ExecutionRoute) (request : ReplaceOrderRequest)
  : dx (AcknowledgedMutation PostOrderResponse) :=
  execute client (ma_environment authorization) route (rr_idempotency_key request)
    (by_route route replace_order replace_sandbox_order client authorization request)
    (λ evidence response, optional_broker_order evidence (pos_order_id response)).

Definition dispatch_cancel_order (client : TInvestGrpcClient) (authorization : MutationAuthorization)
    (route : ExecutionRoute) (logical_request_id : ClientRequestId) (request : CancelOrderRequest)
  : dx (AcknowledgedMutation CancelOrderResponse) :=
  execute_with_id client (ma_environment authorization) route logical_request_id
    (by_route route cancel_order cancel_sandbox_order client authorization request)
    (λ evidence _, Ok evidence).

Definition dispatch_post_stop_order (client : TInvestGrpcClient)
    (authorization : MutationAuthorization) (route : ExecutionRoute) (request : PostStopOrderRequest)
  : dx (AcknowledgedMutation PostStopOrderResponse) :=
  execute client (ma_environment authorization) route (ps_order_id request)
    (by_route route post_stop_order post_sandbox_stop_order client authorization request)
    (λ evidence response, optional_broker_stop_order evidence (psr_stop_order_id response)).

Definition dispatch_cancel_stop_order (client : TInvestGrpcClient)
    (authorization : MutationAuthorization) (route : ExecutionRoute)
    (logical_request_id : ClientRequestId) (request : CancelStopOrderRequest)
  : dx (AcknowledgedMutation CancelStopOrderResponse) :=
  execute_with_id client (ma_environment authorization) route logical_request_id
    (by_route route cancel_stop_order cancel_sandbox_stop_order client authorization request)
    (λ evidence _, Ok evidence).
End dispatcher.

(** ** The stateless runtime adapter *)

Record RuntimeDispatchAcknowledgement := {
  rd_transport_request_id : string;
  rd_broker_order_id : option string;
  rd_replacement_broker_order_id : option string;
  rd_broker_stop_order_id : option string;
  rd_provider_operation_id : option string;
}.

Inductive RuntimeExecutionAdapterError :=
| AdapterValidation (e : ExecutionValidationError)
| AdapterAuthorization (e : LiveMutationError)
| AdapterTransport (e : GrpcError).

Record TInvestRuntimeExecutionAdapter := {
  ta_client : TInvestGrpcClient;
  ta_route : ExecutionRoute;
  ta_live_mutations_enabled : bool;
}.

Section adapter.
Context {W : Type} `{NW : !Network W} `{GR : !Grpc} `{OA : !OrdersApi W} `{UF : !UuidFormat}.

Notation ra := (st W RuntimeExecutionAdapterError).

Definition adapter_authorization (self : TInvestRuntimeExecutionAdapter)
  : result LiveMutationError MutationAuthorization :=
  let environment := route_environment (ta_route self) in
  let guard := if ta_live_mutations_enabled self
               then with_live_mutations_enabled environment
               else MutationGuard_new environment in
  authorize_mutation guard.

Definition nonempty (value : string) : option string :=
  if is_blank value then None else Some value.

(** The request is built, then sent over the route. *)
Definition transmit {Req Resp} (self : TInvestRuntimeExecutionAdapter)
    (authorization : MutationAuthorization) (request : checkedv Req)
    (production sandbox : TInvestGrpcClient → MutationAuthorization → Req →
       st W GrpcError (GrpcResponse Resp)) : ra (GrpcResponse Resp) :=
  let! request := st_lift (map_err AdapterValidation request) in
  st_map_err AdapterTransport
    (by_route (ta_route self) production sandbox (ta_client self) authorization request).

(** [response.metadata.request_id.to_string()]. *)
Definition request_text {T} (response : GrpcResponse T) : string :=
  uuid_text (rx_request_id (gr_metadata response)).

Definition dispatch_regular (self : TInvestRuntimeExecutionAdapter)
    (authorization : MutationAuthorization) (command : RegularOrderCommand)
  : ra RuntimeDispatchAcknowledgement :=
  let! response := transmit self authorization (regular_order_request command)
                     post_order post_sandbox_order in
  st_ret {| rd_transport_request_id := request_text response;
            rd_broker_order_id := nonempty (pos_order_id (gr_body response));
            rd_replacement_broker_order_id := None; rd_broker_stop_order_id := None;
            rd_provider_operation_id := None |}.

Definition dispatch_async (self : TInvestRuntimeExecutionAdapter)
    (authorization : MutationAuthorization) (command : RegularOrderCommand)
  : ra RuntimeDispatchAcknowledgement :=
  let! response := transmit self authorization (async_regular_order_request command)
                     post_order_async post_sandbox_order_async in
  st_ret {| rd_transport_request_id := request_text response;
            rd_broker_order_id := None;
            rd_replacement_broker_order_id := None; rd_broker_stop_order_id := None;
            rd_provider_operation_id := filter_text (par_trade_intent_id (gr_body response)) |}.

Definition dispatch_replace (self : TInvestRuntimeExecutionAdapter)
    (authorization : MutationAuthorization) (command : ReplaceOrderCommand)
  : ra RuntimeDispatchAcknowledgement :=
  let! response := transmit self authorization (replace_order_request command)
                     replace_order replace_sandbox_order in
  st_ret {| rd_transport_request_id := request_text response;
            rd_broker_order_id := None;
            rd_replacement_broker_order_id := nonempty (pos_order_id (gr_body response));
            rd_broker_stop_order_id := None; rd_provider_operation_id := None |}.

Definition dispatch_cancel (self : TInvestRuntimeExecutionAdapter)
    (authorization : MutationAuthorization) (command : CancelOrderCommand)
  : ra RuntimeDispatchAcknowledgement :=
  let! response := transmit self authorization (cancel_order_request command)
                     cancel_order cancel_sandbox_order in
  st_ret {| rd_transport_request_id := request_text response;
            rd_broker_order_id := match co_order_id_kind command with
                                  | None | Some BrokerOrder => Some (co_order_id command)
                                  | Some ClientRequest => None
                                  end;
            rd_replacement_broker_order_id := None; rd_broker_stop_order_id := None;
            rd_provider_operation_id := None |}.

Definition dispatch_stop (self : TInvestRuntimeExecutionAdapter)
    (authorization : MutationAuthorization) (command : ProtectionLegCommand)
  : ra RuntimeDispatchAcknowledgement :=
  let! response := transmit self authorization (protection_leg_request command)
                     post_stop_order post_sandbox_stop_order in
  st_ret {| rd_transport_request_id := request_text response;
            rd_broker_order_id := None; rd_replacement_broker_order_id := None;
            rd_broker_stop_order_id := nonempty (psr_stop_order_id (gr_body response));
            rd_provider_operation_id := nonempty (psr_order_request_id (gr_body response)) |}.

Definition dispatch_cancel_stop (self : TInvestRuntimeExecutionAdapter)
    (authorization : MutationAuthorization) (command : CancelStopOrderCommand)
  : ra RuntimeDispatchAcknowledgement :=
  let! response := transmit self authorization (cancel_stop_order_request command)
                     cancel_stop_order cancel_sandbox_stop_order in
  st_ret {| rd_transport_request_id := request_text response;
            rd_broker_order_id := None; rd_replacement_broker_order_id := None;
            rd_broker_stop_order_id := Some (cs_broker_stop_order_id command);
            rd_provider_operation_id := None |}.

Definition dispatch_once (self : TInvestRuntimeExecutionAdapter) (command : RuntimeExecutionCommand)
  : ra RuntimeDispatchAcknowledgement :=
  let! authorization := st_lift (map_err AdapterAuthorization (adapter_authorization self)) in
  match command with
  | RegularOrder command => dispatch_regular self authorization command
  | PostOrderAsync command => dispatch_async self authorization command
  | ReplaceOrder command => dispatch_replace self authorization command
  | CancelOrder command => dispatch_cancel self authorization command
  | PostStopOrder command | ProtectionLegC command => dispatch_stop self authorization command
  | CancelStopOrder command => dispatch_cancel_stop self authorization command
  end.
End adapter.

(** ** Evidence comes first *)

Section evidence.
Context {S : Type} `{ST : !MutationEvidenceStore S} `{SL : !EvidenceStoreLaws S} {W : Type}.

(** Errors reported before anything could be sent. *)
Definition before_sending (e : ExecutionDispatchError) : Prop :=
  match e with
  | EnvironmentMismatch | ReconciliationRequired | DispatchStore _ => True
  | _ => False
  end.

(** What the caller and the store are left with after the transport answered. *)
Definition settles {T} (answer : result GrpcError (GrpcResponse T))
    (r : result ExecutionDispatchError (AcknowledgedMutation T)) (o : option MutationEvidence) : Prop :=
  match answer, r with
  | Ok response, Ok ack =>
      ak_response ack = response ∧ o = Some (ak_evidence ack) ∧
      me_outcome (ak_evidence ack) = Accepted
  | Err source, Err (DispatchRejected source' evidence) =>
      source' = source ∧ authoritative_rejection source = true ∧ o = Some evidence ∧
      me_outcome evidence = Rejected
  | Err source, Err (UnknownAfterDispatch source' evidence) =>
      source' = source ∧ authoritative_rejection source = false ∧ o = Some evidence ∧
      me_outcome evidence = Unknown
  | Err source, Err (DispatchStore _) => authoritative_rejection source = true
  | Ok _, Err (DispatchStore _) | Ok _, Err (DispatchIdentity _) => True
  | _, _ => False
  end.

Ltac nothing_sent := intros [= <- <- <-]; left; split; [done|]; eexists; split; [done|exact I].

(** C11. Evidence precedes dispatch.  When the dispatcher returns, either nothing was sent
    and the caller is told so, or the environments of route, authorisation and client
    agree, the identity was free, UNKNOWN evidence for it was durable before the one
    transport call, and whatever happened afterwards, a failing store included, the
    identity is never offered for submission again.  An acknowledgement is reported
    only with accepted evidence recorded, a rejection only for a code by which the
    provider authoritatively refused and with rejected evidence recorded, and any other
    failure leaves the evidence UNKNOWN. *)
Theorem evidence_precedes_dispatch {T} client environment route id
    (dispatch : st W GrpcError (GrpcResponse T)) attach (s s' : S) w w' r :
  (∀ e body e', attach e body = Ok e' → me_client_request_id e' = me_client_request_id e) →
  execute_with_id client environment route id dispatch attach (s, w) = ((s', w'), r) →
  (w' = w ∧ ∃ e, r = Err e ∧ before_sending e) ∨
  ∃ s1 answer,
    route_environment route = client_environment client ∧
    environment = client_environment client ∧ decision s id = Ok Submit ∧
    claimable (recorded s id) = true ∧
    recorded s1 id = Some (dispatched_unknown (prepared id) None) ∧
    dispatch w = (w', answer) ∧ rtc recovery_step s1 s' ∧
    claimable (recorded s' id) = false ∧ settles answer r (recorded s' id).
Proof.
  intros Hattach. unfold execute_with_id, on_store, st_fst.
  destruct (_ || _) eqn:Henv; [unfold st_fail; nothing_sent|].
  prop_tests. st_unfold. simpl.
  destruct (decision s id) as [d|e] eqn:Hd; simpl;
    [|nothing_sent].
  destruct d; [|nothing_sent..].
  destruct (persist_before_dispatch _ _ _) as [s1 [evidence|e]] eqn:Hp; simpl;
    [|nothing_sent].
  apply persist_before_dispatch_ok in Hp as (-> & Hfree & Hrec).
  destruct (dispatch w) as [w1 answer] eqn:Hsend. intros Hout. right. exists s1, answer.
  assert (claimable (recorded s1 id) = false) as Hclaimed by by rewrite Hrec.
  assert (rtc recovery_step s1 s' ∧ settles answer r (recorded s' id) ∧ w' = w1) as (Hrun & Hset & ->);
    [|split_and!; eauto using run_dispatched].
  destruct answer as [response|source].
  - destruct (attach _ (gr_body response)) as [ev|e] eqn:Ha; simpl in Hout;
      [|injection Hout as <- <- <-; by split_and!; [apply rtc_refl|..]].
    apply Hattach in Ha. simpl in Ha.
    destruct (persist_authoritative_outcome ev AuthAccepted s1) as [s2 [ev'|e]] eqn:Hpa;
      simpl in Hout; injection Hout as <- <- <-;
      (split_and!; [by eapply persist_authoritative_steps| |done]); [|done].
    apply persist_authoritative_ok in Hpa as [Ho Hr]. rewrite Ha in Hr. done.
  - destruct (authoritative_rejection source) eqn:Har.
    + destruct (persist_authoritative_outcome _ AuthRejected s1) as [s2 [ev'|e]] eqn:Hpa;
        simpl in Hout; injection Hout as <- <- <-;
        (split_and!; [by eapply persist_authoritative_steps| |done]); [|done].
      apply persist_authoritative_ok in Hpa as [Ho Hr]. done.
    + injection Hout as <- <- <-. by split_and!; [apply rtc_refl|..].
Qed.
End evidence.

(** ** One attempt per command *)

(** The message of a command. *)
Inductive WireMessage :=
| PostMessage (body : PostOrderRequest)
| AsyncMessage (body : PostOrderAsyncRequest)
| ReplaceMessage (body : ReplaceOrderRequest)
| CancelMessage (body : CancelOrderRequest)
| StopMessage (body : PostStopOrderRequest)
| CancelStopMessage (body : CancelStopOrderRequest).

Definition command_message `{!UuidFormat} (command : RuntimeExecutionCommand) : checkedv WireMessage :=
  match command with
  | RegularOrder c => let? body := regular_order_request c in Ok (PostMessage body)
  | PostOrderAsync c => let? body := async_regular_order_request c in Ok (AsyncMessage body)
  | ReplaceOrder c => let? body := replace_order_request c in Ok (ReplaceMessage body)
  | CancelOrder c => let? body := cancel_order_request c in Ok (CancelMessage body)
  | PostStopOrder c | ProtectionLegC c =>
      let? body := protection_leg_request c in Ok (StopMessage body)
  | CancelStopOrder c => let? body := cancel_stop_order_request c in Ok (CancelStopMessage body)
  end.

Section transmission.
Context {W : Type} `{NW : !Network W} `{GR : !Grpc} `{OA : !OrdersApi W} `{UF : !UuidFormat}.
Context (self : TInvestRuntimeExecutionAdapter).

(** An attempt to send a message over the adapter's route: refused locally, or sent once,
    with the request identity of the attempt. *)
Definition attempted {Req Resp} (authorization : MutationAuthorization) (methods : string * string)
    (production sandbox : rpc W Req Resp) (body : Req) (w w' : W) (r : result GrpcError string) : Prop :=
  ∃ answer,
    mutation_run (ta_client self) (by_route (ta_route self) methods.1 methods.2) body
      (by_route (ta_route self) production sandbox) authorization w w' answer ∧
    r = match answer with Ok response => Ok (request_text response) | Err e => Err e end.

(** The remote method of each kind of message. *)
Definition transmission (authorization : MutationAuthorization) (message : WireMessage)
  : W → W → result GrpcError string → Prop :=
  match message with
  | PostMessage body => attempted authorization ("PostOrder", "PostSandboxOrder")
      rpc_post_order rpc_post_sandbox_order body
  | AsyncMessage body => attempted authorization ("PostOrderAsync", "PostSandboxOrderAsync")
      rpc_post_order_async rpc_post_sandbox_order_async body
  | ReplaceMessage body => attempted authorization ("ReplaceOrder", "ReplaceSandboxOrder")
      rpc_replace_order rpc_replace_sandbox_order body
  | CancelMessage body => attempted authorization ("CancelOrder", "CancelSandboxOrder")
      rpc_cancel_order rpc_cancel_sandbox_order body
  | StopMessage body => attempted authorization ("PostStopOrder", "PostSandboxStopOrder")
      rpc_post_stop_order rpc_post_sandbox_stop_order body
  | CancelStopMessage body => attempted authorization ("CancelStopOrder", "CancelSandboxStopOrder")
      rpc_cancel_stop_order rpc_cancel_sandbox_stop_order body
  end.

(** What a dispatch of the adapter did. *)
Definition adapter_outcome (command : RuntimeExecutionCommand) (w w' : W)
    (r : result RuntimeExecutionAdapterError RuntimeDispatchAcknowledgement) : Prop :=
  match r with
  | Err (AdapterAuthorization _) =>
      w' = w ∧ ta_route self = RouteProduction ∧ ta_live_mutations_enabled self = false
  | Err (AdapterValidation e) => w' = w ∧ command_message command = Err e
  | Err (AdapterTransport e) =>
      ∃ authorization message,
        adapter_authorization self = Ok authorization ∧ command_message command = Ok message ∧
        transmission authorization message w w' (Err e)
  | Ok acknowledgement =>
      ∃ authorization message,
        adapter_authorization self = Ok authorization ∧ command_message command = Ok message ∧
        transmission authorization message w w' (Ok (rd_transport_request_id acknowledgement))
  end.

(** The shape of every branch of [dispatch_once]. *)
Lemma transmit_outcome {Req Resp} authorization (request : checkedv Req) (wrap : Req → WireMessage)
    command m1 m2 (production sandbox : rpc W Req Resp)
    (ack : GrpcResponse Resp → RuntimeDispatchAcknowledgement) w w' r :
  adapter_authorization self = Ok authorization →
  command_message command = (let? body := request in Ok (wrap body)) →
  (∀ body, transmission authorization (wrap body)
           = attempted authorization (m1, m2) production sandbox body) →
  (∀ response, rd_transport_request_id (ack response) = request_text response) →
  (let! response := transmit self authorization request
     (λ client auth body, service_mutation client auth m1 body production)
     (λ client auth body, service_mutation client auth m2 body sandbox) in
   st_ret (ack response)) w = (w', r) →
  adapter_outcome command w w' r.
Proof.
  intros Hauth Hmsg Htr Hack. unfold transmit. st_unfold.
  destruct request as [body|e]; simpl in *; [|intros [= <- <-]; by split].
  assert (∀ w1 answer, by_route (ta_route self)
      (λ client auth body, service_mutation client auth m1 body production)
      (λ client auth body, service_mutation client auth m2 body sandbox)
      (ta_client self) authorization body w = (w1, answer) →
    mutation_run (ta_client self) (by_route (ta_route self) m1 m2) body
      (by_route (ta_route self) production sandbox) authorization w w1 answer) as Hrun.
  { intros w1 answer. destruct (ta_route self); simpl; apply service_mutation_run. }
  match type of Hrun with ∀ w1 answer, ?call = _ → _ =>
    destruct call as [w1 [response|e]] eqn:Hsend end; intros [= <- <-];
    exists authorization, (wrap body); (split; [done|]; split; [done|]); rewrite Htr;
    eexists; (split; [by apply Hrun|]); simpl; by rewrite ?Hack.
Qed.

(** A runtime dispatch makes one attempt.  Whatever a dispatch of the adapter returns,
    either nothing left the process (production without live mutations enabled, a
    command whose message cannot be built, or a request refused by the client), or
    exactly one request was sent, to the remote method of the command's kind on the
    adapter's route, in the environment of that route, carrying the message built from
    the command; an acknowledgement names the request identity of that attempt. *)
Lemma dispatch_makes_one_attempt command w w' r :
  dispatch_once self command w = (w', r) → adapter_outcome command w w' r.
Proof.
  unfold dispatch_once, st_bind at 1, st_lift.
  destruct (adapter_authorization self) as [authorization|e] eqn:Hauth; simpl.
  - intros H. destruct command; simpl in H;
      (eapply (transmit_outcome authorization _ _ _ _ _ _ _ _ _ _ _ Hauth); [|..|exact H]); try done.
  - intros [= <- <-]. unfold adapter_authorization, authorize_mutation in Hauth. simpl.
    destruct (ta_route self), (ta_live_mutations_enabled self); by simplify_eq/=.
Qed.
End transmission.

(** ** A sample run *)

Module DispatchSample.
Import GrpcSample.

(** An evidence store, and an order service that answers, refuses or is lost. *)
Definition answering (answer : result Status (Response PostOrderResponse))
  : st (list Z) GrpcError (GrpcResponse PostOrderResponse) :=
  service_mutation client {| ma_environment := Sandbox |} "PostSandboxOrder" tt (λ _ w, (0 :: w, answer)).

Definition dispatched (answer : result Status (Response PostOrderResponse))
  : (list MutationEvidence * list Z) * result ExecutionDispatchError (AcknowledgedMutation PostOrderResponse) :=
  execute_with_id client Sandbox RouteSandbox "request-1" (answering answer) (λ e _, Ok e) ([], []).

Example lost_answer_stays_unknown :
  (me_outcome <$> recorded (dispatched (Err lost)).1.1 "request-1", (dispatched (Err lost)).1.2)
  = (Some Unknown, [0]).
Proof. vm_compute. reflexivity. Qed.

Lemma evidence_precedes_dispatch_witness :
  claimable (recorded (dispatched (Err lost)).1.1 "request-1") = false.
Proof.
  destruct (evidence_precedes_dispatch client Sandbox RouteSandbox "request-1" (answering (Err lost))
    (λ e _, Ok e) [] (dispatched (Err lost)).1.1 [] [0] (dispatched (Err lost)).2)
    as [[H _]|(s1 & answer & _ & _ & _ & _ & _ & _ & _ & H & _)].
  - intros e body e' [= <-]. reflexivity.
  - vm_compute. reflexivity.
  - discriminate H.
  - exact H.
Defined.
End DispatchSample.
