(* ===== verification/TInvestFactory.v ===== *)
(** * Stored connections as broker sessions: [crates/vox-tinvest/src/connection_factory.rs]

    The execution port of the runtime, built on the connection service: a session is
    opened for the exact stored connection and account, its client is built from the
    stored credential for the environment of the stored target, and every dispatch
    checks the authorisation again with the revision the session was opened under.

    The port's state is the connection service and the network.  It implements the
    coordinator's [ExecutionPort]; [TInvestClientBuilder] implements the service's
    [BrokerCredentialClientFactory]. *)
From S2P Require Import Prelude ConnectionModel Money Domain RiskStore ConnectionRepository SecretStore ConnectionService RuntimeModel RuntimePorts RuntimeCoordinator TInvestWire TInvestCanonical TInvestExecution TInvestGrpc TInvestDispatch.

(** ** Errors and their texts *)

Inductive ConnectionFactoryError :=
| FactoryConnection (e : ServiceError)
| WrongProvider
| InvalidCredentialEncoding
| FactorySecret (e : SecretTokenError)
| FactoryGrpc (e : GrpcConfigError)
| FactoryRuntimeExecution (e : RuntimeExecutionAdapterError).

(** [{self:?}] of a missing capability, and its [Display]. *)
Definition capability_text (e : ProtectionCapabilityError) : string :=
  "requested protection is capability-gated: " +:+
  match e with
  | FixedStopUnsupported => "FixedStopUnsupported"
  | StopLimitUnsupported => "StopLimitUnsupported"
  | TakeProfitUnsupported => "TakeProfitUnsupported"
  | NativeRelativeTrailingUnsupported => "NativeRelativeTrailingUnsupported"
  | NativeAbsoluteTrailingUnsupported => "NativeAbsoluteTrailingUnsupported"
  end.

Definition validation_text (e : ExecutionValidationError) : string :=
  match e with
  | Missing field => "missing required execution field: " +:+ field
  | NonPositiveQuantity => "quantity lots must be positive"
  | NonPositive field => field +:+ " must be positive"
  | LimitPriceRequired => "limit order requires price"
  | PriceForbidden => "market/best-price order must not carry price"
  | TimeInForceRequiresLimit => "time-in-force is valid only for limit orders"
  | InvalidRequestId => "provider idempotency ID must be UUID and at most 36 characters"
  | MissingProtectionRequestId leg => "protection leg missing distinct request ID: " +:+ leg
  | MissingTakeProfitTrigger => "regular take-profit requires trigger price"
  | TrailingActivationRequired => "trailing stop requires activation price or instant execution"
  | ConflictingTrailingActivation =>
      "trailing stop cannot combine explicit activation with instant execution"
  | TrailingActivationAlreadyReached =>
      "trailing activation price is already reached for position direction"
  | InvalidStopWire what => "invalid generated stop-order wire invariant: " +:+ what
  | TimestampError => "provider timestamp is invalid"
  | NumericOverflow => "exact value exceeds provider int64 units"
  | Capability e => capability_text e
  end.

Definition live_mutation_text (e : LiveMutationError) : string :=
  match e with ExplicitEnablementRequired => "live mutations require explicit enablement" end.

Definition factory_port_error (message : string) : BrokerPortError := {|
  bp_service := "StoredTInvestClientFactory"; bp_method := "Resolve"; bp_class := Res.Credential;
  bp_message := message; bp_retry_after := None |}.

Definition authorization_port_error : BrokerPortError := {|
  bp_service := "StoredTInvestClientFactory"; bp_method := "AuthorizeExecution";
  bp_class := Res.Permission;
  bp_message := "execution authorization denied for exact stored scope and purpose";
  bp_retry_after := None |}.

Definition execution_purpose (value : RuntimeExecutionPurpose) : ExecutionPurpose :=
  match value with
  | Purpose.SandboxMutation => XPurpose.SandboxMutation
  | Purpose.ProductionManual => XPurpose.ProductionManual
  | Purpose.ProductionAutomated => XPurpose.ProductionAutomated
  end.

(** ** Clients from credentials *)

Definition build_client `{!Grpc} (target : AccountTarget) (credential : string)
  : result ConnectionFactoryError TInvestGrpcClient :=
  if negb (bool_decide (at_provider target = T_INVEST)) then Err WrongProvider
  else if negb (valid_utf8 credential) then Err InvalidCredentialEncoding
  else
    let? token := map_err FactorySecret (SecretToken_new credential) in
    map_err FactoryGrpc
      match at_environment target with
      | Env.Production => client_production (ProductionCredential token)
      | Env.Sandbox => client_sandbox (SandboxCredential token)
      end.

(** The clients of a read session share one channel. *)
Record TInvestReadSession := {
  tr_target : AccountTarget;
  tr_client : TInvestGrpcClient;
  tr_environment : BrokerEnvironment;
}.

Definition build_session `{!Grpc} (target : AccountTarget) (credential : string)
  : result ConnectionFactoryError TInvestReadSession :=
  let? client := build_client target credential in
  Ok {| tr_target := target; tr_client := client; tr_environment := at_environment target |}.

Record AuthorizedTInvestExecutionClient := {
  xc_target : AccountTarget;
  xc_adapter : TInvestRuntimeExecutionAdapter;
  xc_authorization_revision : Z;
}.

Definition factory_provider_error (error : ConnectionFactoryError) : ProviderError :=
  let kind := match error with
              | WrongProvider => Kind.UnsupportedProvider
              | InvalidCredentialEncoding | FactorySecret _ => Kind.InvalidCredential
              | FactoryGrpc _ | FactoryConnection _ => Kind.ProviderUnavailable
              | FactoryRuntimeExecution _ => Kind.ProviderUnavailable
              end in
  ProviderError_new kind "stored T-Invest client construction failed".

Definition target_route (environment : BrokerEnvironment) : ExecutionRoute :=
  match environment with Env.Production => RouteProduction | Env.Sandbox => RouteSandbox end.

#[export] Instance TInvestClientBuilder `{!Grpc}
  : BrokerCredentialClientFactory TInvestReadSession AuthorizedTInvestExecutionClient := {
  build_read_client target credential :=
    map_err factory_provider_error (build_session target credential);
  build_execution_client target credential authorization_revision :=
    let? client := map_err factory_provider_error (build_client target credential) in
    Ok {| xc_target := target;
          xc_adapter := {| ta_client := client; ta_route := target_route (at_environment target);
                           ta_live_mutations_enabled := true |};
          xc_authorization_revision := authorization_revision |};
}.

(** ** Sessions *)

Record TInvestExecutionSession := {
  xs_target : AccountTarget;
  xs_adapter : TInvestRuntimeExecutionAdapter;
  xs_authorization_revision : Z;
  xs_purpose : ExecutionPurpose;
}.

Section factory.
Context {R S P E : Type}.
Context `{CR : !ConnectionRepository R} `{SS : !SecretStore S} `{BP : !BrokerProviderPort P} `{UU : !Uuids E}.
Context {W : Type} `{NW : !Network W} `{GR : !Grpc} `{OA : !OrdersApi W} `{UF : !UuidFormat}.

Notation service := (@Service R S P E).
Notation fx := (st (service * W) ConnectionFactoryError).

Definition on_service {A} (m : st service ServiceError A) : fx A :=
  st_fst (st_map_err FactoryConnection m).

Definition read_session (connection_id provider_account_id : string) : fx TInvestReadSession :=
  on_service (open_runtime_read_client connection_id provider_account_id).

Definition execution_session (connection_id provider_account_id : string) (purpose : ExecutionPurpose)
  : fx TInvestExecutionSession :=
  let! grant := on_service
    (validate_runtime_execution_access connection_id provider_account_id purpose None) in
  let! authorized := on_service
    (open_runtime_execution_client connection_id provider_account_id purpose
       (xg_authorization_revision grant)) in
  st_ret {| xs_target := xc_target authorized; xs_adapter := xc_adapter authorized;
            xs_authorization_revision := xc_authorization_revision authorized;
            xs_purpose := purpose |}.

Definition session_dispatch_once (self : TInvestExecutionSession) (command : RuntimeExecutionCommand)
  : fx RuntimeDispatchAcknowledgement :=
  let! _ := on_service
    (validate_runtime_execution_access (at_connection_id (xs_target self))
       (at_provider_account_id (xs_target self)) (xs_purpose self)
       (Some (xs_authorization_revision self))) in
  st_snd (st_map_err FactoryRuntimeExecution (dispatch_once (xs_adapter self) command)).

(** ** The execution port *)

Definition bool_text (b : bool) : string := if b then "true" else "false".

Definition acknowledged (acknowledgement : RuntimeDispatchAcknowledgement) (mutation : MutationRecord)
  : ExecutionResult :=
  ExecutionAcknowledged
    ("request_id=" +:+ rd_transport_request_id acknowledgement +:+ "; broker_identity_present=" +:+
     bool_text (bool_decide (is_Some (rd_broker_order_id acknowledgement))
                || bool_decide (is_Some (rd_replacement_broker_order_id acknowledgement))
                || bool_decide (is_Some (rd_broker_stop_order_id acknowledgement))))
    {| il_logical_request_id := mr_logical_request_id mutation;
       il_broker_order_id := rd_broker_order_id acknowledgement;
       il_replacement_broker_order_id := rd_replacement_broker_order_id acknowledgement;
       il_broker_stop_order_id := rd_broker_stop_order_id acknowledgement;
       il_provider_operation_ids := match rd_provider_operation_id acknowledgement with
                                    | Some id => [id]
                                    | None => []
                                    end;
       il_broker_fill_ids := [] |}.

(** What the port reports of a dispatch. *)
Definition port_report (mutation : MutationRecord)
    (outcome : result ConnectionFactoryError RuntimeDispatchAcknowledgement)
  : result BrokerPortError ExecutionResult :=
  match outcome with
  | Ok acknowledgement => Ok (acknowledged acknowledgement mutation)
  | Err (FactoryRuntimeExecution (AdapterValidation error)) =>
      Ok (ExecutionRejected ("pre-dispatch:" +:+ validation_text error))
  | Err (FactoryRuntimeExecution (AdapterAuthorization error)) =>
      Ok (ExecutionRejected ("pre-dispatch:" +:+ live_mutation_text error))
  | Err (FactoryRuntimeExecution (AdapterTransport error)) =>
      if authoritative_rejection error
      then Ok (ExecutionRejected ("provider-rejection:" +:+ uuid_text (qm_request_id (ge_metadata error))))
      else Err (factory_port_error "capital-affecting dispatch outcome is not authoritative")
  | Err _ => Err (factory_port_error "capital-affecting dispatch outcome is not authoritative")
  end.

Definition port_dispatch_once (scope : RuntimeScope) (purpose : RuntimeExecutionPurpose)
    (command : RuntimeExecutionCommand) (mutation : MutationRecord)
  : st (service * W) BrokerPortError ExecutionResult :=
  let! connection_id := st_lift
    (map_err (λ _, factory_port_error "invalid runtime connection identity")
       (ConnectionId_parse (sc_connection_ref scope))) in
  let! session := st_map_err (λ _, authorization_port_error)
    (execution_session connection_id (sc_broker_account_id scope) (execution_purpose purpose)) in
  λ s, let '(s', outcome) := session_dispatch_once session command s in
       (s', port_report mutation outcome).

#[export] Instance StoredTInvestExecutionPort : ExecutionPort (service * W) := {
  ex_dispatch_once := port_dispatch_once;
}.

(** ** What a grant names *)

Lemma bound_target_names id account vox (s s' : service) bound :
  bound_healthy_target id account vox s = (s', Ok bound) →
  at_connection_id (bt_target bound) = id ∧ at_provider_account_id (bt_target bound) = account.
Proof.
  unfold bound_healthy_target. intros (s1 & c & _ & H)%st_bind_Ok.
  destruct (_ || _); [done|]. apply st_bind_Ok in H as (s2 & l & _ & H).
  apply st_bind_Ok in H as (s3 & a & _ & H). destruct (negb _); [done|].
  apply st_bind_Ok in H as (s4 & bs & _ & H). destruct (negb _); [done|]. by injection H as <- <-.
Qed.

Lemma grant_names id account purpose expected (s s' : service) grant :
  validate_runtime_execution_access id account purpose expected s = (s', Ok grant) →
  at_connection_id (xg_target grant) = id ∧ at_provider_account_id (xg_target grant) = account ∧
  match expected with Some revision => xg_authorization_revision grant = revision | None => True end.
Proof.
  unfold validate_runtime_execution_access, validate_execution_access.
  intros (s1 & vox & _ & H)%st_bind_Ok. apply st_bind_Ok in H as (s2 & bound & Hb & H).
  apply bound_target_names in Hb as [Hid Hacc].
  apply st_bind_Ok in H as (s3 & found & _ & H). apply st_bind_Ok in H as (s4 & e & _ & H).
  destruct (match expected with Some _ => _ | None => _ end) eqn:Hrev; [done|].
  destruct (negb _); [done|]. destruct (negb _); [done|].
  apply st_bind_Ok in H as (s5 & sec & _ & H). injection H as <- <-. simpl.
  split_and!; [done|done|]. destruct expected as [revision|]; [|done]. apply negb_false_iff in Hrev. lia.
Qed.

(** ** A client belongs to its route *)

Lemma built_client_environment target credential client :
  build_client target credential = Ok client →
  client_environment client = route_environment (target_route (at_environment target)).
Proof.
  unfold build_client. intros H. destruct (negb _); [done|]. destruct (negb _); [done|].
  destruct (SecretToken_new credential) as [token|]; [|done]. simpl in H.
  unfold client_production, client_sandbox, TInvestGrpcClient_new in H.
  destruct (at_environment target); simpl in H;
    (destruct (validate_endpoint _); [|done]); simpl in H;
    (destruct (connect_lazy _ _); [|done]); by injection H as <-.
Qed.

Lemma execution_session_Ok id account purpose (s s' : service) (w w' : W) session :
  execution_session id account purpose (s, w) = ((s', w'), Ok session) →
  w' = w ∧ xs_purpose session = purpose ∧
  at_connection_id (xs_target session) = id ∧ at_provider_account_id (xs_target session) = account ∧
  ta_route (xs_adapter session) = target_route (at_environment (xs_target session)) ∧
  ta_live_mutations_enabled (xs_adapter session) = true ∧
  client_environment (ta_client (xs_adapter session))
  = route_environment (ta_route (xs_adapter session)).
Proof.
  unfold execution_session, on_service, st_fst.
  intros ((s1 & w1) & grant & H1 & H)%st_bind_Ok. apply st_bind_Ok in H as ((s2 & w2) & x & H2 & H).
  injection H as <- <- <-. simpl in *. unfold st_map_err in *.
  destruct (validate_runtime_execution_access _ _ _ _ s) as [t1 [g|]]; simplify_eq/=.
  destruct (open_runtime_execution_client _ _ _ _ s1) as [t2 [y|]] eqn:Ho; simplify_eq/=.
  unfold open_runtime_execution_client in Ho.
  apply st_bind_Ok in Ho as (s3 & g2 & Hg & Ho). apply grant_names in Hg as (Hid & Hacc & _).
  apply st_bind_Ok in Ho as (s4 & c & _ & Ho). apply st_bind_Ok in Ho as (s5 & cred & _ & Ho).
  unfold st_lift in Ho. simpl in Ho.
  destruct (build_client (xg_target g2) cred) as [client|] eqn:Hb; simplify_eq/=.
  split_and!; try done. by apply built_client_environment in Hb.
Qed.

(** ** What reached the broker *)

(** The session a dispatch used: opened for the scope's connection and account, with the
    client and the route of the stored target's environment, and checked again, with the
    revision it was opened under, right before the attempt. *)
Definition authorised_session (scope : RuntimeScope) (purpose : RuntimeExecutionPurpose)
    (s s' : service) (w : W) (session : TInvestExecutionSession) : Prop :=
  ∃ connection_id s1 grant,
    ConnectionId_parse (sc_connection_ref scope) = Ok connection_id ∧
    execution_session connection_id (sc_broker_account_id scope) (execution_purpose purpose) (s, w)
    = ((s1, w), Ok session) ∧
    at_connection_id (xs_target session) = connection_id ∧
    at_provider_account_id (xs_target session) = sc_broker_account_id scope ∧
    validate_runtime_execution_access connection_id (sc_broker_account_id scope)
      (execution_purpose purpose) (Some (xs_authorization_revision session)) s1 = (s', Ok grant) ∧
    xg_authorization_revision grant = xs_authorization_revision session ∧
    ta_route (xs_adapter session) = target_route (at_environment (xs_target session)) ∧
    client_environment (ta_client (xs_adapter session))
    = route_environment (ta_route (xs_adapter session)).

(** The attempt a dispatch made under such a session. *)
Definition sent (scope : RuntimeScope) (purpose : RuntimeExecutionPurpose)
    (command : RuntimeExecutionCommand) (s s' : service) (w w' : W) (r : result GrpcError string) : Prop :=
  ∃ session authorization message,
    authorised_session scope purpose s s' w session ∧
    adapter_authorization (xs_adapter session) = Ok authorization ∧
    command_message command = Ok message ∧
    transmission (xs_adapter session) authorization message w w' r.

Lemma session_dispatch_outcome scope purpose command connection_id session (s s1 s' : service) w w' r :
  ConnectionId_parse (sc_connection_ref scope) = Ok connection_id →
  execution_session connection_id (sc_broker_account_id scope) (execution_purpose purpose) (s, w)
  = ((s1, w), Ok session) →
  session_dispatch_once session command (s1, w) = ((s', w'), r) →
  match r with
  | Ok acknowledgement =>
      sent scope purpose command s s' w w' (Ok (rd_transport_request_id acknowledgement))
  | Err (FactoryRuntimeExecution (AdapterTransport e)) => sent scope purpose command s s' w w' (Err e)
  | Err (FactoryRuntimeExecution _) => w' = w
  | Err e => w' = w
  end.
Proof.
  intros Hid Hopen. apply execution_session_Ok in Hopen as Hsession. destruct Hsession as (_ & Hp & Hc & Ha & Hroute & Hlive & Henv).
  unfold session_dispatch_once, on_service, st_fst, st_snd. rewrite Hc, Ha, Hp.
  unfold st_bind, st_map_err. simpl.
  destruct (validate_runtime_execution_access _ _ _ _ s1) as [s2 [grant|e]] eqn:Hv; simpl;
    [|by intros [= <- <- <-]].
  assert (authorised_session scope purpose s s2 w session) as Hauth.
  { exists connection_id, s1, grant. apply grant_names in Hv as Hn. naive_solver. }
  destruct (dispatch_once (xs_adapter session) command w) as [w1 out] eqn:Hd.
  apply dispatch_makes_one_attempt in Hd. intros [= <- <- <-].
  destruct out as [ack|[e|e|e]]; simpl in *.
  - destruct Hd as (authorization & message & ? & ? & ?). by exists session, authorization, message.
  - by destruct Hd.
  - by destruct Hd.
  - destruct Hd as (authorization & message & ? & ? & ?). by exists session, authorization, message.
Qed.

(** C9. The production execution port sends only what is authorised and reports only what
    is known.  A dispatch either leaves the network untouched or makes the one attempt of
    an adapter whose client and route belong to the stored target's environment, for
    the scope's own connection and account, under an authorisation that was validated
    again, at the revision the session was opened with, right before the attempt; the
    message is the one built from the command.  It is acknowledged only when the broker
    answered that attempt, and reported rejected only when nothing was sent or the
    broker refused it with an authoritative code; an attempt that failed in any other
    way is an error of the port, never a rejection. *)
Theorem execution_port_sends_authorised scope purpose command mutation (s : service) w :
  let '((s', w'), r) := ex_dispatch_once scope purpose command mutation (s, w) in
  match r with
  | Ok (ExecutionAcknowledged _ links) =>
      il_logical_request_id links = mr_logical_request_id mutation ∧
      ∃ request_id, sent scope purpose command s s' w w' (Ok request_id)
  | Ok (ExecutionRejected _) =>
      w' = w ∨ ∃ e, authoritative_rejection e = true ∧ sent scope purpose command s s' w w' (Err e)
  | Ok (ExecutionUnknown _) => False
  | Err _ =>
      w' = w ∨ ∃ e, authoritative_rejection e = false ∧ sent scope purpose command s s' w w' (Err e)
  end.
Proof.
  simpl. unfold port_dispatch_once, st_bind, st_lift, st_map_err.
  destruct (ConnectionId_parse (sc_connection_ref scope)) as [connection_id|] eqn:Hid; simpl;
    [|by left].
  destruct (execution_session _ _ _ (s, w)) as [[s1 w1] [session|e]] eqn:Hopen; simpl.
  - apply execution_session_Ok in Hopen as Hw. destruct Hw as [-> _].
    destruct (session_dispatch_once session command (s1, w)) as [[s2 w2] out] eqn:Hd.
    apply (session_dispatch_outcome scope purpose command connection_id session s) in Hd; [|done..].
    destruct out as [ack|[e| | | | |[e|e|e]]]; simpl in *; try (by left); [by eauto|].
    destruct (authoritative_rejection e) eqn:Har; simpl; eauto.
  - left.
    unfold execution_session, on_service, st_fst, st_bind, st_map_err in Hopen. simpl in Hopen.
    repeat (case_match; simplify_eq/=); done.
Qed.
End factory.
