(* ===== verification/TInvestRead.v ===== *)
(** * The broker's state for the runtime: [crates/vox-tinvest/src/runtime_read.rs], the read
    port of [connection_factory.rs] and [risk_read.rs]

    [TInvestRuntimeReadAdapter] reads the broker's accounts, portfolio, positions, orders,
    stop orders and operations and turns them into the runtime's facts;
    [StoredTInvestReadPort] does so over a session of a stored connection and implements
    the [BrokerReadPort] the reconciler is verified against.  [TInvestRiskReadAdapter]
    reads what the risk engine needs.  The theorems say what the facts are facts of. *)
From S2P Require Import Prelude ConnectionModel Money Domain RiskStore ConnectionRepository SecretStore ConnectionService RuntimeModel RuntimePorts RuntimeCoordinator TInvestWire TInvestCanonical TInvestExecution TInvestGrpc TInvestAccount TInvestOperations TInvestDispatch TInvestFactory ProductionRisk.

(** ** Messages *)

Inductive OrderExecutionReportStatus :=
| ReportUnspecified | ReportFill | ReportRejected | ReportCancelled | ReportNew | ReportPartiallyfill.
#[export] Instance OrderExecutionReportStatus_wire : WireEnum OrderExecutionReportStatus := {
  as_i32 s := match s with
              | ReportUnspecified => 0 | ReportFill => 1 | ReportRejected => 2
              | ReportCancelled => 3 | ReportNew => 4 | ReportPartiallyfill => 5
              end;
  members := [ReportUnspecified; ReportFill; ReportRejected; ReportCancelled; ReportNew;
              ReportPartiallyfill];
}.
#[export] Instance OrderExecutionReportStatus_laws : WireEnumLaws OrderExecutionReportStatus.
Proof. wire_enum. Qed.

Inductive StopOrderStatusOption :=
| StopOrderStatusUnspecified | StopOrderStatusAll | StopOrderStatusActive | StopOrderStatusExecuted
| StopOrderStatusCanceled | StopOrderStatusExpired.
#[export] Instance StopOrderStatusOption_wire : WireEnum StopOrderStatusOption := {
  as_i32 s := match s with
              | StopOrderStatusUnspecified => 0 | StopOrderStatusAll => 1
              | StopOrderStatusActive => 2 | StopOrderStatusExecuted => 3
              | StopOrderStatusCanceled => 4 | StopOrderStatusExpired => 5
              end;
  members := [StopOrderStatusUnspecified; StopOrderStatusAll; StopOrderStatusActive;
              StopOrderStatusExecuted; StopOrderStatusCanceled; StopOrderStatusExpired];
}.
#[export] Instance StopOrderStatusOption_laws : WireEnumLaws StopOrderStatusOption.
Proof. wire_enum. Qed.

(** The advanced filters of an order list are never set here. *)
Record GetOrdersRequest := { goo_account_id : string }.

Record GetStopOrdersRequest := {
  gso_account_id : string;
  gso_status : Z;
  gso_from : option Timestamp;
  gso_to : option Timestamp;
}.

Record GetMaxLotsRequest := {
  gml_account_id : string;
  gml_instrument_id : string;
  gml_price : option Quotation;
}.

Record GetOrderPriceRequest := {
  gpq_account_id : string;
  gpq_instrument_id : string;
  gpq_price : option Quotation;
  gpq_direction : Z;
  gpq_quantity : Z;
}.

Inductive InstrumentIdType :=
| InstrumentIdType_Unspecified | InstrumentIdType_Figi | InstrumentIdType_Ticker
| InstrumentIdType_Uid | InstrumentIdType_PositionUid | InstrumentIdType_Id.
#[export] Instance InstrumentIdType_wire : WireEnum InstrumentIdType := {
  as_i32 t := match t with
              | InstrumentIdType_Unspecified => 0 | InstrumentIdType_Figi => 1
              | InstrumentIdType_Ticker => 2 | InstrumentIdType_Uid => 3
              | InstrumentIdType_PositionUid => 4 | InstrumentIdType_Id => 5
              end;
  members := [InstrumentIdType_Unspecified; InstrumentIdType_Figi; InstrumentIdType_Ticker;
              InstrumentIdType_Uid; InstrumentIdType_PositionUid; InstrumentIdType_Id];
}.

Record InstrumentRequest := { irq_id_type : Z; irq_class_code : option string; irq_id : string }.

(** The fields of an instrument and of a trading status that the adapter reads. *)
Record InstrumentMessage := {
  ins_uid : string;
  ins_lot : Z;
  ins_api_trade_available_flag : bool;
  ins_buy_available_flag : bool;
  ins_sell_available_flag : bool;
}.
Record InstrumentResponse := { irs_instrument : option InstrumentMessage }.

Record GetTradingStatusRequest := { gts_figi : option string; gts_instrument_id : option string }.
Record GetTradingStatusResponse := {
  tss_instrument_uid : string;
  tss_api_trade_available_flag : bool;
  tss_limit_order_available_flag : bool;
  tss_market_order_available_flag : bool;
  tss_bestprice_order_available_flag : bool;
}.

Class OrderReadApi (W : Type) := {
  rpc_get_orders : rpc W GetOrdersRequest GetOrdersResponse;
  rpc_get_sandbox_orders : rpc W GetOrdersRequest GetOrdersResponse;
  rpc_get_order_state : rpc W GetOrderStateRequest OrderState;
  rpc_get_sandbox_order_state : rpc W GetOrderStateRequest OrderState;
  rpc_get_stop_orders : rpc W GetStopOrdersRequest GetStopOrdersResponse;
  rpc_get_sandbox_stop_orders : rpc W GetStopOrdersRequest GetStopOrdersResponse;
  rpc_get_max_lots : rpc W GetMaxLotsRequest GetMaxLotsResponse;
  rpc_get_sandbox_max_lots : rpc W GetMaxLotsRequest GetMaxLotsResponse;
  rpc_get_order_price : rpc W GetOrderPriceRequest GetOrderPriceResponse;
  rpc_get_sandbox_order_price : rpc W GetOrderPriceRequest GetOrderPriceResponse;
  rpc_get_instrument_by : rpc W InstrumentRequest InstrumentResponse;
  rpc_get_trading_status : rpc W GetTradingStatusRequest GetTradingStatusResponse;
}.

(** ** Facts *)

Definition permanent (service method message : string) : BrokerPortError := {|
  bp_service := service; bp_method := method; bp_class := Res.Permanent;
  bp_message := message; bp_retry_after := None |}.

(** [port_error(service, method, error)] with the text of the error. *)
Definition port_error (service method text : string) : BrokerPortError := permanent service method text.

Definition grpc_port_error (service method : string) (error : GrpcError) : BrokerPortError := {|
  bp_service := service; bp_method := method;
  bp_class := match ge_kind error with
              | ProviderKind provider =>
                  match gp_code provider with
                  | Unauthenticated => Res.Credential
                  | PermissionDenied => Res.Permission
                  | ResourceExhausted => Res.RateLimited
                  | Unavailable | DeadlineExceeded => Res.Transient
                  | _ => Res.Permanent
                  end
              | _ => Res.Transient
              end;
  bp_message := grpc_error_text error; bp_retry_after := None |}.

Definition provider_not_found (error : GrpcError) : bool :=
  match ge_kind error with
  | ProviderKind provider => bool_decide (gp_code provider = NotFound)
  | _ => false
  end.

Definition port_timestamp (unix_ms : Z) : Timestamp := {|
  ts_seconds := unix_ms / 1000;
  ts_nanos := default 0 (checked I32 (unix_ms mod 1000 * 1000000)) |}.

Definition order_side (value : Z) : option OrderSide :=
  match enum_try_from value with
  | Some OrderDirection_Buy => Some Buy
  | Some OrderDirection_Sell => Some Sell
  | _ => None
  end.

Definition order_status (value : Z) : OrderExecutionStatus :=
  match enum_try_from value with
  | Some ReportNew => OrderSt.New
  | Some ReportPartiallyfill => OrderSt.PartiallyFilled
  | Some ReportFill => OrderSt.Filled
  | Some ReportCancelled => OrderSt.Cancelled
  | Some ReportRejected => OrderSt.Rejected
  | _ => OrderSt.UnknownProviderStatus value
  end.

Definition stop_status (value : Z) : StopExecutionStatus :=
  match enum_try_from value with
  | Some StopOrderStatusActive => StopSt.Active
  | Some StopOrderStatusExecuted => StopSt.Executed
  | Some StopOrderStatusCanceled => StopSt.Canceled
  | Some StopOrderStatusExpired => StopSt.Expired
  | _ => StopSt.UnknownProviderStatus value
  end.

Definition money_fact (value : CanonicalMoney) : MoneyFact := {|
  mo_currency := default "" (mn_currency value);
  mo_amount_nanos := int_to_string (total_nanos (fixed_point (mn_amount value))) |}.

Definition order_fact (scope : RuntimeScope) (order : CanonicalOrderState)
  : result BrokerPortError OrderFact :=
  let? broker_order_id := ok_or (co_broker_order_id order)
    (permanent "OrdersService" "order_decode" "order omitted identity") in
  Ok {| of_account_id := sc_broker_account_id scope; of_broker_order_id := broker_order_id;
        of_logical_request_id := co_client_request_id order;
        of_instrument_uid := default "" (co_instrument_uid order);
        of_side := order_side (co_direction order);
        of_lots_requested := co_lots_requested order; of_lots_executed := co_lots_executed order;
        of_status := order_status (co_execution_status order); of_status_cause := None |}.

Definition stop_fact (scope : RuntimeScope) (stop : CanonicalStopOrder)
  : result BrokerPortError StopFact :=
  let? broker_stop_order_id := ok_or (cs_broker_stop_id stop)
    (permanent "StopOrdersService" "GetStopOrders" "stop omitted identity") in
  Ok {| sf_account_id := sc_broker_account_id scope;
        sf_broker_stop_order_id := broker_stop_order_id;
        sf_instrument_uid := default "" (cs_instrument_uid stop);
        sf_status := stop_status (cs_status stop); sf_status_cause := None;
        sf_quantity_lots := Some (cs_lots_requested stop);
        sf_direction := if cs_direction stop =? 0 then None else Some (cs_direction stop) |}.

(** [BTreeMap::insert]: the entries sorted by their keys, a later entry replacing. *)
Fixpoint map_insert (k v : string) (l : list (string * string)) : list (string * string) :=
  match l with
  | [] => [(k, v)]
  | (k', v') :: l' =>
      match String.compare k k' with
      | Lt => (k, v) :: l
      | Eq => (k, v) :: l'
      | Gt => (k', v') :: map_insert k v l'
      end
  end.

Definition cash_entry (acc : list (string * string)) (money : CanonicalMoney)
  : list (string * string) :=
  match mn_currency money with
  | Some currency =>
      map_insert currency (int_to_string (total_nanos (fixed_point (mn_amount money)))) acc
  | None => acc
  end.

Definition cash_balances (money : list CanonicalMoney) : list (string * string) :=
  fold_left cash_entry money [].

(** A position of the account, when the instrument is named. *)
Definition position_fact (scope : RuntimeScope) (identity : PositionIdentity) (balance : Z)
  : list PositionFact :=
  match pi_instrument_uid identity with
  | Some instrument_uid =>
      [{| pf_account_id := sc_broker_account_id scope; pf_instrument_uid := instrument_uid;
          pf_quantity_units := balance; pf_broker_observed_at_unix_ms := None |}]
  | None => []
  end.

Definition position_facts (scope : RuntimeScope) (positions : PositionsState) : list PositionFact :=
  mbind (λ p, position_fact scope (sy_identity p) (sy_balance p)) (pst_securities positions)
  ++ mbind (λ p, position_fact scope (fp_identity p) (fp_balance p)) (pst_futures positions)
  ++ mbind (λ p, position_fact scope (opn_identity p) (opn_balance p)) (pst_options positions).

Definition broker_account_fact (account : CanonicalAccount) : BrokerAccount := {|
  ba_account_id := ca_account_id account;
  ba_open := ca_status account =? as_i32 AccountStatus_Open;
  ba_accessible := (ca_status account =? as_i32 AccountStatus_Open)
                   && negb (ca_access_level account =? as_i32 AccessLevel_NoAccess) |}.

Definition operation_fact (scope : RuntimeScope) (index : nat) (item : OperationItem)
  : result BrokerPortError OperationFact :=
  let? operation := map_err (λ e, port_error "OperationsService" "GetOperationsByCursor"
                                    (account_data_text e))
                      (CanonicalOperation_try_from item) in
  Ok {| op_account_id := default (sc_broker_account_id scope) (cop_broker_account_id operation);
        op_cursor := default ("page-item-" +:+ int_to_string (Z.of_nat index)) (cop_cursor operation);
        op_provider_operation_id := cop_provider_operation_id operation;
        op_broker_order_id := None; op_logical_request_id := None;
        op_broker_fill_ids := btree_extend [] (omap cot_trade_id (cop_trades operation)) |}.

(** [.enumerate().map(..).collect()]. *)
Fixpoint operation_facts (scope : RuntimeScope) (index : nat) (items : list OperationItem)
  : result BrokerPortError (list OperationFact) :=
  match items with
  | [] => Ok []
  | item :: items =>
      let? fact := operation_fact scope index item in
      let? facts := operation_facts scope (S index) items in
      Ok (fact :: facts)
  end.

(** ** The runtime's read adapter *)

Record TInvestRuntimeReadAdapter := { rr_client : TInvestGrpcClient; rr_environment : BrokerEnvironment }.

(** [match self.environment { Sandbox => ..., Production => ... }]. *)
Definition by_environment {A} (environment : BrokerEnvironment) (production sandbox : A) : A :=
  match environment with Env.Production => production | Env.Sandbox => sandbox end.

Section reads.
Context {W : Type} `{NW : !Network W} `{GR : !Grpc} `{AA : !AccountApi W} `{OP : !OperationsApi W}.
Context `{OR : !OrderReadApi W}.

Notation call Req Resp := (TInvestGrpcClient → Req → st W GrpcError (GrpcResponse Resp)).
Notation rp := (st W BrokerPortError).

Definition get_orders : call GetOrdersRequest GetOrdersResponse := λ self,
  safe_service_read self "GetOrders" rpc_get_orders.
Definition get_sandbox_orders : call GetOrdersRequest GetOrdersResponse := λ self,
  safe_service_read self "GetSandboxOrders" rpc_get_sandbox_orders.
Definition get_order_state : call GetOrderStateRequest OrderState := λ self,
  safe_service_read self "GetOrderState" rpc_get_order_state.
Definition get_sandbox_order_state : call GetOrderStateRequest OrderState := λ self,
  safe_service_read self "GetSandboxOrderState" rpc_get_sandbox_order_state.
Definition get_stop_orders : call GetStopOrdersRequest GetStopOrdersResponse := λ self,
  safe_service_read self "GetStopOrders" rpc_get_stop_orders.
Definition get_sandbox_stop_orders : call GetStopOrdersRequest GetStopOrdersResponse := λ self,
  safe_service_read self "GetSandboxStopOrders" rpc_get_sandbox_stop_orders.
Definition get_max_lots : call GetMaxLotsRequest GetMaxLotsResponse := λ self,
  safe_service_read self "GetMaxLots" rpc_get_max_lots.
Definition get_sandbox_max_lots : call GetMaxLotsRequest GetMaxLotsResponse := λ self,
  safe_service_read self "GetSandboxMaxLots" rpc_get_sandbox_max_lots.
Definition get_order_price : call GetOrderPriceRequest GetOrderPriceResponse := λ self,
  safe_service_read self "GetOrderPrice" rpc_get_order_price.
Definition get_sandbox_order_price : call GetOrderPriceRequest GetOrderPriceResponse := λ self,
  safe_service_read self "GetSandboxOrderPrice" rpc_get_sandbox_order_price.

Definition runtime_accounts (self : TInvestRuntimeReadAdapter) (_ : RuntimeScope)
  : rp (list BrokerAccount) :=
  let reads := {| rc_grpc := rr_client self |} in
  let! catalogue := st_map_err (λ e, port_error "UsersService" "GetAccounts" (account_read_text e))
    (by_environment (rr_environment self) (accounts reads None) (sandbox_accounts reads)) in
  st_ret (broker_account_fact <$> cat_accounts catalogue).

Definition runtime_portfolio (self : TInvestRuntimeReadAdapter) (scope : RuntimeScope)
  : rp PortfolioFact :=
  let reads := {| rc_grpc := rr_client self |} in
  let! portfolio := st_map_err
    (λ e, port_error "OperationsService" "GetPortfolio" (account_read_text e))
    (by_environment (rr_environment self)
       (portfolio reads {| pfq_account_id := sc_broker_account_id scope; pfq_currency := None |})
       (sandbox_portfolio reads (sc_broker_account_id scope))) in
  st_ret {| pt_account_id := default (sc_broker_account_id scope) (po_account_id portfolio);
            pt_total_portfolio_valuation := money_fact <$> po_total_amount_portfolio portfolio;
            pt_total_currency_valuation := money_fact <$> po_total_amount_currencies portfolio;
            pt_broker_daily_yield := money_fact <$> po_daily_yield portfolio;
            pt_cash_balances := []; pt_broker_observed_at_unix_ms := None |}.

Definition runtime_positions (self : TInvestRuntimeReadAdapter) (scope : RuntimeScope)
  : rp PositionsFact :=
  let reads := {| rc_grpc := rr_client self |} in
  let! positions := st_map_err
    (λ e, port_error "OperationsService" "GetPositions" (account_read_text e))
    (by_environment (rr_environment self) (positions reads (sc_broker_account_id scope))
       (sandbox_positions reads (sc_broker_account_id scope))) in
  st_ret {| ps_instruments := position_facts scope positions;
            ps_cash_balances := cash_balances (pst_money positions) |}.

Definition runtime_active_orders (self : TInvestRuntimeReadAdapter) (scope : RuntimeScope)
  : rp (list OrderFact) :=
  let request := {| goo_account_id := sc_broker_account_id scope |} in
  let! response := st_map_err (grpc_port_error "OrdersService" "GetOrders")
    (by_environment (rr_environment self) get_orders get_sandbox_orders (rr_client self) request) in
  let! orders := st_lift (map_err (λ e, port_error "OrdersService" "GetOrders" (execution_decode_text e))
                            (canonical_orders (gr_body response))) in
  st_lift (collect (order_fact scope) orders).

Definition runtime_stop_orders (self : TInvestRuntimeReadAdapter) (scope : RuntimeScope)
    (include_terminal_since_unix_ms : Z) : rp (list StopFact) :=
  let request := {| gso_account_id := sc_broker_account_id scope;
                    gso_status := as_i32 StopOrderStatusAll;
                    gso_from := Some (port_timestamp include_terminal_since_unix_ms);
                    gso_to := None |} in
  let! response := st_map_err (grpc_port_error "StopOrdersService" "GetStopOrders")
    (by_environment (rr_environment self) get_stop_orders get_sandbox_stop_orders
       (rr_client self) request) in
  let! stops := st_lift (map_err (λ e, port_error "StopOrdersService" "GetStopOrders"
                                          (execution_decode_text e))
                           (canonical_stop_orders (gr_body response))) in
  st_lift (collect (stop_fact scope) stops).

(** Which identity names the order: the broker's, else the request's. *)
Definition order_state_query (scope : RuntimeScope) (broker_order_id logical_request_id : option string)
  : option GetOrderStateRequest :=
  let request order_id order_id_type :=
    {| gos_account_id := sc_broker_account_id scope; gos_order_id := order_id;
       gos_price_type := as_i32 PriceType_Currency; gos_order_id_type := Some (as_i32 order_id_type) |} in
  match broker_order_id, logical_request_id with
  | Some value, _ => Some (request value OrderIdType_Exchange)
  | None, Some value => Some (request value OrderIdType_Request)
  | None, None => None
  end.

Definition runtime_order_state (self : TInvestRuntimeReadAdapter) (scope : RuntimeScope)
    (broker_order_id logical_request_id : option string) : rp (option OrderFact) :=
  match order_state_query scope broker_order_id logical_request_id with
  | None => st_ret None
  | Some request => λ w,
      match by_environment (rr_environment self) get_order_state get_sandbox_order_state
              (rr_client self) request w with
      | (w, Ok response) =>
          (w, let? order := map_err (λ e, port_error "OrdersService" "GetOrderState"
                                            (execution_decode_text e))
                              (CanonicalOrderState_try_from (gr_body response)) in
              let? fact := order_fact scope order in Ok (Some fact))
      | (w, Err error) =>
          if provider_not_found error then (w, Ok None)
          else (w, Err (grpc_port_error "OrdersService" "GetOrderState" error))
      end
  end.

Definition operations_request (scope : RuntimeScope) (cursor : option string) (from_unix_ms limit : Z)
  : GetOperationsByCursorRequest := {|
  goq_account_id := sc_broker_account_id scope; goq_instrument_id := None;
  goq_from := Some (port_timestamp from_unix_ms); goq_to := None; goq_cursor := cursor;
  goq_limit := Some limit; goq_operation_types := []; goq_state := None;
  goq_without_commissions := None; goq_without_trades := None; goq_without_overnights := None |}.

Definition runtime_operations_page (self : TInvestRuntimeReadAdapter) (scope : RuntimeScope)
    (cursor : option string) (from_unix_ms limit : Z) : rp OperationsPage :=
  let! response := st_map_err (grpc_port_error "OperationsService" "GetOperationsByCursor")
    (by_environment (rr_environment self) get_operations_by_cursor get_sandbox_operations_by_cursor
       (rr_client self) (operations_request scope cursor from_unix_ms limit)) in
  let body := gr_body response in
  let! items := st_lift (operation_facts scope 0 (gop_items body)) in
  st_ret {| pg_items := items;
            pg_next_cursor := if gop_has_next body then Some (gop_next_cursor body) else None |}.

(** ** What the risk engine reads *)

Record TInvestRiskReadAdapter := { rk_client : TInvestGrpcClient; rk_environment : BrokerEnvironment }.

Inductive RiskReadError :=
| RiskGrpc (e : GrpcError)
| RiskExecutionDecode (e : ExecutionDecodeError)
| RiskEconomics (e : EconomicsError)
| RiskInvalidEconomics
| RiskInvalidQuantity
| RiskInstrumentMissing
| RiskInvalidInstrument.

Notation rk := (st W RiskReadError).

Definition risk_money (value : option MoneyValue) : result RiskReadError (option CanonicalMoney) :=
  map_err RiskEconomics (transpose (CanonicalMoney_try_from <$> value)).

Definition CanonicalMarginAttributes_try_from (value : GetMarginAttributesResponse)
  : result RiskReadError CanonicalMarginAttributes :=
  let? liquid := risk_money (gm_liquid_portfolio value) in
  let? starting := risk_money (gm_starting_margin value) in
  let? minimal := risk_money (gm_minimal_margin value) in
  let? level := map_err (λ _, RiskInvalidEconomics)
    (transpose ((λ v, UnitsNano_new (q_units v) (q_nano v)) <$> gm_funds_sufficiency_level value)) in
  let? missing := risk_money (gm_amount_of_missing_funds value) in
  let? corrected := risk_money (gm_corrected_margin value) in
  let? guarantee := risk_money (gm_guarantee_for_futures value) in
  Ok {| ma_liquid_portfolio := liquid; ma_starting_margin := starting; ma_minimal_margin := minimal;
        ma_funds_sufficiency_level := level; ma_amount_of_missing_funds := missing;
        ma_corrected_margin := corrected; ma_guarantee_for_futures := guarantee |}.

Definition risk_margin_attributes (self : TInvestRiskReadAdapter) (account_id : string)
  : rk CanonicalMarginAttributes :=
  let! response := st_map_err RiskGrpc
    (get_margin_attributes (rk_client self) {| gmq_account_id := account_id |}) in
  st_lift (CanonicalMarginAttributes_try_from (gr_body response)).

Definition get_instrument_by (self : TInvestGrpcClient) (request : InstrumentRequest)
  : st W GrpcError (GrpcResponse InstrumentResponse) :=
  safe_instruments_read self "GetInstrumentBy" rpc_get_instrument_by request.

Definition get_trading_status (self : TInvestGrpcClient) (request : GetTradingStatusRequest)
  : st W GrpcError (GrpcResponse GetTradingStatusResponse) :=
  safe_market_call self "GetTradingStatus" rpc_get_trading_status request.

Definition risk_instrument_constraints (self : TInvestRiskReadAdapter) (instrument_uid : string)
  : rk CanonicalRiskInstrument :=
  if is_blank instrument_uid then st_fail RiskInvalidInstrument
  else
    let! found := st_map_err RiskGrpc (get_instrument_by (rk_client self)
      {| irq_id_type := as_i32 InstrumentIdType_Uid; irq_class_code := None; irq_id := instrument_uid |}) in
    let! response := st_lift (ok_or (irs_instrument (gr_body found)) RiskInstrumentMissing) in
    if negb (bool_decide (ins_uid response = instrument_uid)) || (ins_lot response <=? 0)
    then st_fail RiskInvalidInstrument
    else
      let! status := st_map_err RiskGrpc (get_trading_status (rk_client self)
        {| gts_figi := None; gts_instrument_id := Some instrument_uid |}) in
      let trading_status := gr_body status in
      if negb (bool_decide (tss_instrument_uid trading_status = instrument_uid))
      then st_fail RiskInvalidInstrument
      else st_ret
        {| ci_uid := ins_uid response; ci_lot_size := ins_lot response;
           ci_api_trade_available := ins_api_trade_available_flag response
                                     && tss_api_trade_available_flag trading_status;
           ci_buy_available := ins_buy_available_flag response;
           ci_sell_available := ins_sell_available_flag response;
           ci_limit_order_available := tss_limit_order_available_flag trading_status;
           ci_market_order_available := tss_market_order_available_flag trading_status;
           ci_best_price_order_available := tss_bestprice_order_available_flag trading_status |}.

Definition risk_quotation (value : FixedPoint) : result RiskReadError Quotation :=
  let '(units, nano) := units_nano value in
  let? units := ok_or (checked I64 units) RiskInvalidEconomics in
  Ok {| q_units := units; q_nano := nano |}.

Definition risk_max_lots (self : TInvestRiskReadAdapter) (account_id instrument_id : string)
    (price : option FixedPoint) : rk CanonicalMaxLots :=
  let! price := st_lift (transpose (risk_quotation <$> price)) in
  let request := {| gml_account_id := account_id; gml_instrument_id := instrument_id;
                    gml_price := price |} in
  let! response := st_map_err RiskGrpc
    (by_environment (rk_environment self) get_max_lots get_sandbox_max_lots (rk_client self) request) in
  st_lift (map_err RiskExecutionDecode (CanonicalMaxLots_try_from (gr_body response))).

Definition limit_order_price (self : TInvestRiskReadAdapter) (account_id instrument_id : string)
    (price : FixedPoint) (side : OrderSide) (quantity_lots : Z) : rk CanonicalOrderPrice :=
  if quantity_lots <=? 0 then st_fail RiskInvalidQuantity
  else
    let direction := match side with
                     | Buy => as_i32 OrderDirection_Buy
                     | Sell => as_i32 OrderDirection_Sell
                     end in
    let! price := st_lift (risk_quotation price) in
    let request := {| gpq_account_id := account_id; gpq_instrument_id := instrument_id;
                      gpq_price := Some price; gpq_direction := direction;
                      gpq_quantity := quantity_lots |} in
    let! response := st_map_err RiskGrpc
      (by_environment (rk_environment self) get_order_price get_sandbox_order_price
         (rk_client self) request) in
    st_lift (map_err RiskExecutionDecode (CanonicalOrderPrice_try_from (gr_body response))).
End reads.

(** ** The read port over stored connections *)

Section stored.
Context {R S P E : Type}.
Context `{CR : !ConnectionRepository R} `{SS : !SecretStore S} `{BP : !BrokerProviderPort P} `{UU : !Uuids E}.
Context {W : Type} `{NW : !Network W} `{GR : !Grpc} `{OA : !OrdersApi W} `{UF : !UuidFormat}.
Context `{AA : !AccountApi W} `{OP : !OperationsApi W} `{OR : !OrderReadApi W}.

Notation service := (@Service R S P E).
Notation sx := (st (service * W) BrokerPortError).

Definition runtime_reads (session : TInvestReadSession) : TInvestRuntimeReadAdapter := {|
  rr_client := tr_client session; rr_environment := tr_environment session |}.

Definition port_session (scope : RuntimeScope) : sx TInvestReadSession :=
  let! connection_id := st_lift
    (map_err (λ _, factory_port_error "invalid runtime connection identity")
       (ConnectionId_parse (sc_connection_ref scope))) in
  st_map_err (λ _, factory_port_error "stored read session unavailable")
    (TInvestFactory.read_session connection_id (sc_broker_account_id scope)).

(** [let session = self.session(scope)?; session.runtime_reads.method(scope).await]. *)
Definition with_session {A} (scope : RuntimeScope)
    (read : TInvestRuntimeReadAdapter → st W BrokerPortError A) : sx A :=
  let! session := port_session scope in
  st_snd (read (runtime_reads session)).

#[export] Instance StoredTInvestReadPort : BrokerReadPort (service * W) := {
  br_accounts scope := with_session scope (λ reads, runtime_accounts reads scope);
  br_portfolio scope := with_session scope (λ reads, runtime_portfolio reads scope);
  br_positions scope := with_session scope (λ reads, runtime_positions reads scope);
  br_active_orders scope := with_session scope (λ reads, runtime_active_orders reads scope);
  br_stop_orders scope since := with_session scope (λ reads, runtime_stop_orders reads scope since);
  br_order_state scope broker_order_id logical_request_id :=
    with_session scope (λ reads, runtime_order_state reads scope broker_order_id logical_request_id);
  br_operations_page scope cursor from limit :=
    with_session scope (λ reads, runtime_operations_page reads scope cursor from limit);
}.
End stored.

(** ** Statuses are kept *)

(** The wire number behind a status. *)
Definition order_status_number (s : OrderExecutionStatus) : Z :=
  match s with
  | OrderSt.New => as_i32 ReportNew
  | OrderSt.PartiallyFilled => as_i32 ReportPartiallyfill
  | OrderSt.Filled => as_i32 ReportFill
  | OrderSt.Cancelled => as_i32 ReportCancelled
  | OrderSt.Rejected => as_i32 ReportRejected
  | OrderSt.UnknownProviderStatus value => value
  end.

Definition stop_status_number (s : StopExecutionStatus) : Z :=
  match s with
  | StopSt.Active => as_i32 StopOrderStatusActive
  | StopSt.Executed => as_i32 StopOrderStatusExecuted
  | StopSt.Canceled => as_i32 StopOrderStatusCanceled
  | StopSt.Expired => as_i32 StopOrderStatusExpired
  | StopSt.UnknownProviderStatus value => value
  end.

Lemma enum_try_from_Some {A} `{!WireEnum A} value (a : A) :
  enum_try_from value = Some a → as_i32 a = value.
Proof. unfold enum_try_from. intros [_ H]%find_some. by apply Z.eqb_eq. Qed.

Lemma order_status_kept value : order_status_number (order_status value) = value.
Proof.
  unfold order_status. destruct (enum_try_from value) as [s|] eqn:Hs; [|done].
  apply enum_try_from_Some in Hs. by destruct s.
Qed.

Lemma stop_status_kept value : stop_status_number (stop_status value) = value.
Proof.
  unfold stop_status. destruct (enum_try_from value) as [s|] eqn:Hs; [|done].
  apply enum_try_from_Some in Hs. by destruct s.
Qed.

(** ** What a fact is a fact of *)

(** A blank or missing text read with [unwrap_or_default]. *)
Definition text_or_empty (s : string) : string := if is_blank s then "" else s.

Lemma optional_text_default s : default "" (optional_text s) = text_or_empty s.
Proof. unfold optional_text, text_or_empty. by destruct (is_blank s). Qed.

Definition order_fact_of (account : string) (o : OrderState) (f : OrderFact) : Prop :=
  of_account_id f = account ∧ of_broker_order_id f = os_order_id o ∧ is_blank (os_order_id o) = false ∧
  of_logical_request_id f = optional_text (os_order_request_id o) ∧
  of_instrument_uid f = text_or_empty (os_instrument_uid o) ∧
  of_lots_requested f = os_lots_requested o ∧ of_lots_executed f = os_lots_executed o ∧
  of_side f = order_side (os_direction o) ∧
  order_status_number (of_status f) = os_execution_report_status o.

Definition stop_fact_of (account : string) (s : StopOrder) (f : StopFact) : Prop :=
  sf_account_id f = account ∧ sf_broker_stop_order_id f = sp_stop_order_id s ∧
  is_blank (sp_stop_order_id s) = false ∧
  sf_instrument_uid f = text_or_empty (sp_instrument_uid s) ∧
  sf_quantity_lots f = Some (sp_lots_requested s) ∧
  sf_direction f = (if sp_direction s =? 0 then None else Some (sp_direction s)) ∧
  stop_status_number (sf_status f) = sp_status s.

Lemma order_fact_exact scope o c f :
  order_reads o c → order_fact scope c = Ok f → order_fact_of (sc_broker_account_id scope) o f.
Proof.
  intros (Ht & Hn & _). injection Ht as Hid Hreq _ Huid _ _. injection Hn as Hst Hlr Hle Hdir _.
  unfold order_fact, order_fact_of. rewrite Hid. unfold optional_text at 1.
  destruct (is_blank (os_order_id o)) eqn:Hb; [done|]. simpl. intros [= <-]. simpl.
  rewrite Hreq, Huid, Hst, Hlr, Hle, Hdir, optional_text_default, order_status_kept. done.
Qed.

Lemma stop_fact_exact scope o c f :
  stop_order_reads o c → stop_fact scope c = Ok f → stop_fact_of (sc_broker_account_id scope) o f.
Proof.
  intros (Ht & _ & Hn & _). injection Ht as Hid Huid _ _ _ _. injection Hn as Hl Hd _ _ Hs _.
  unfold stop_fact, stop_fact_of. rewrite Hid. unfold optional_text at 1.
  destruct (is_blank (sp_stop_order_id o)) eqn:Hb; [done|]. simpl. intros [= <-]. simpl.
  rewrite Huid, Hl, Hd, Hs, optional_text_default, stop_status_kept. done.
Qed.

(** Two decodings in a row. *)
Lemma collect_exact {A B C E} (rel : A → B → Prop) (rel' : A → C → Prop) (f : B → result E C) l l' facts :
  (∀ a b c, rel a b → f b = Ok c → rel' a c) → Forall2 rel l l' → collect f l' = Ok facts →
  Forall2 rel' l facts.
Proof.
  intros Hf Hl. revert facts. induction Hl as [|a b l l' Hab _ IH]; simpl; intros facts.
  { intros [= <-]. constructor. }
  destruct (f b) as [c|] eqn:Hc; [|done]. destruct (collect f l') as [cs|]; [|done].
  intros [= <-]. constructor; [by eapply Hf|by apply IH].
Qed.

(** The position of an instrument the answer names. *)
Definition held (account uid : string) (units : Z) (f : PositionFact) : Prop :=
  pf_account_id f = account ∧ pf_instrument_uid f = uid ∧ pf_quantity_units f = units ∧
  is_blank uid = false.

(** The instruments of an answer with their balances, in its order. *)
Definition balances (r : PositionsResponse) : list (string * Z) :=
  List.filter (λ p, negb (is_blank p.1))
    (((λ p, (sec_instrument_uid p, sec_balance p)) <$> pp_securities r)
     ++ ((λ p, (fut_instrument_uid p, fut_balance p)) <$> pp_futures r)
     ++ ((λ p, (opt_instrument_uid p, opt_balance p)) <$> pp_options r)).

Lemma position_fact_held scope identity uid balance :
  pi_instrument_uid identity = optional_text uid →
  Forall2 (λ p f, held (sc_broker_account_id scope) p.1 p.2 f)
    (List.filter (λ p, negb (is_blank p.1)) [(uid, balance)]) (position_fact scope identity balance).
Proof.
  intros Hi. unfold position_fact. rewrite Hi. unfold optional_text. simpl.
  destruct (is_blank uid) eqn:Hb; simpl; repeat constructor; done.
Qed.

Lemma facts_held {A B} scope (convert : A → B) (identity : B → PositionIdentity) (balance : B → Z)
    (uid : A → string) (units : A → Z) l :
  (∀ a, pi_instrument_uid (identity (convert a)) = optional_text (uid a)) →
  (∀ a, balance (convert a) = units a) →
  Forall2 (λ p f, held (sc_broker_account_id scope) p.1 p.2 f)
    (List.filter (λ p, negb (is_blank p.1)) ((λ a, (uid a, units a)) <$> l))
    (mbind (λ p, position_fact scope (identity p) (balance p)) (convert <$> l)).
Proof.
  intros Hi Hb. induction l as [|a l IH]; [constructor|].
  change ((λ a, (uid a, units a)) <$> a :: l) with ([(uid a, units a)] ++ ((λ a, (uid a, units a)) <$> l)).
  rewrite List.filter_app. simpl mbind. apply Forall2_app; [|exact IH].
  rewrite Hb. apply position_fact_held, Hi.
Qed.

Lemma position_facts_held scope r s :
  holdings_read r s →
  Forall2 (λ p f, held (sc_broker_account_id scope) p.1 p.2 f) (balances r) (position_facts scope s).
Proof.
  intros (_ & _ & _ & Hs & Hf & Ho & _). unfold position_facts, balances. rewrite Hs, Hf, Ho.
  rewrite !List.filter_app. repeat apply Forall2_app; by apply facts_held.
Qed.

(** *** Cash *)

(** The entry of a key. *)
Definition entry (k : string) (l : list (string * string)) : option string :=
  snd <$> List.find (by_key fst k) l.

Lemma entry_insert k v l k' :
  entry k' (map_insert k v l) = if bool_decide (k = k') then Some v else entry k' l.
Proof.
  unfold entry, by_key. induction l as [|[k0 v0] l IH]; simpl; [by destruct (bool_decide (k = k'))|].
  destruct (String.compare k k0) eqn:Hc; simpl.
  - apply String.compare_eq_iff in Hc as ->. by destruct (bool_decide (k0 = k')).
  - by destruct (bool_decide (k = k')).
  - destruct (bool_decide (k0 = k')) eqn:H0; [|by rewrite IH].
    apply bool_decide_eq_true in H0 as ->. rewrite bool_decide_eq_false_2; [done|].
    intros ->. pose proof (String.compare_antisym k' k') as Ha. by rewrite Hc in Ha.
Qed.

(** The exact amount of the last mention of a currency in an answer. *)
Definition cash_in (currency : string) (l : list MoneyValue) (acc : option Z) : option Z :=
  fold_left (λ acc m, if bool_decide (optional_text (mv_currency m) = Some currency)
                      then Some (mv_units m * NANO_SCALE + mv_nano m) else acc) l acc.

Lemma cash_balances_exact currency l l' entries acc :
  Forall2 cash_reads l l' → entry currency entries = int_to_string <$> acc →
  entry currency (fold_left cash_entry l' entries) = int_to_string <$> cash_in currency l acc.
Proof.
  intros Hl. revert entries acc. induction Hl as [|m c l l' Hmc _ IH]; intros entries acc He; [done|].
  simpl. apply IH. unfold cash_reads, money_reads in Hmc. inversion Hmc as [? ? [Hcur Hex]|]; subst.
  unfold cash_entry. rewrite Hcur. destruct (optional_text (mv_currency m)) as [c'|]; [|done].
  rewrite entry_insert. unfold exact in Hex. rewrite Hex.
  destruct (decide (c' = currency)) as [->|Hne]; [by rewrite !bool_decide_eq_true_2|].
  rewrite !bool_decide_eq_false_2 by congruence. done.
Qed.

(** ** Properties *)

Section exact.
Context {R S P E : Type}.
Context `{CR : !ConnectionRepository R} `{SS : !SecretStore S} `{BP : !BrokerProviderPort P} `{UU : !Uuids E}.
Context {W : Type} `{NW : !Network W} `{GR : !Grpc} `{OA : !OrdersApi W} `{UF : !UuidFormat}.
Context `{AA : !AccountApi W} `{OP : !OperationsApi W} `{OR : !OrderReadApi W}.

Notation service := (@Service R S P E).

(** A session of the scope's own connection and account. *)
Definition opened (scope : RuntimeScope) (s s' : service) (w : W) (session : TInvestReadSession) : Prop :=
  ∃ connection_id, ConnectionId_parse (sc_connection_ref scope) = Ok connection_id ∧
    TInvestFactory.read_session connection_id (sc_broker_account_id scope) (s, w)
    = ((s', w), Ok session).

(** The answer of the broker to a request over the session's environment. *)
Definition answered {Req Resp} (session : TInvestReadSession)
    (production sandbox : TInvestGrpcClient → Req → st W GrpcError (GrpcResponse Resp))
    (request : Req) (w w' : W) (body : Resp) : Prop :=
  ∃ response, by_environment (tr_environment session) production sandbox (tr_client session) request w
              = (w', Ok response) ∧ gr_body response = body.

Lemma with_session_Ok {A} scope (read : TInvestRuntimeReadAdapter → st W BrokerPortError A)
    (s s' : service) w w' a :
  with_session scope read (s, w) = ((s', w'), Ok a) →
  ∃ session, opened scope s s' w session ∧ read (runtime_reads session) w = (w', Ok a).
Proof.
  unfold with_session, port_session. intros ([s1 w1] & session & H & Hr)%st_bind_Ok.
  apply st_bind_Ok in H as ([s2 w2] & id & Hid & H).
  unfold st_lift in Hid. destruct (ConnectionId_parse _) as [id'|] eqn:Hparse; [|done].
  injection Hid as <- <- <-. unfold st_map_err in H.
  destruct (TInvestFactory.read_session _ _ _) as [[s3 w3] [session'|]] eqn:Hs; [|done].
  injection H as <- <- <-.
  assert (w3 = w) as ->.
  { unfold TInvestFactory.read_session, on_service, st_fst in Hs. simpl in Hs.
    destruct (st_map_err _ _ _); by simplify_eq. }
  unfold st_snd in Hr. simpl in Hr. destruct (read _ w) as [w4 r] eqn:Hread.
  injection Hr as <- <- ->. exists session'. split; [|done]. by exists id'.
Qed.

Lemma by_environment_read {Req Resp A} environment client
    (production sandbox : TInvestGrpcClient → Req → st W GrpcError (GrpcResponse Resp))
    (decode : Resp → decoded A) request :
  by_environment environment (read_body production decode {| rc_grpc := client |} request)
    (read_body sandbox decode {| rc_grpc := client |} request)
  = read_body (by_environment environment production sandbox) decode {| rc_grpc := client |} request.
Proof. by destruct environment. Qed.

Lemma read_body_Ok {Req Resp A} (method : TInvestGrpcClient → Req → st W GrpcError (GrpcResponse Resp))
    (decode : Resp → decoded A) self request w w' a :
  read_body method decode self request w = (w', Ok a) →
  ∃ response, method (rc_grpc self) request w = (w', Ok response) ∧ decode (gr_body response) = Ok a.
Proof.
  unfold read_body. intros (w1 & response & H%st_map_err_Ok & Hd)%st_bind_Ok.
  apply st_lift_Ok in Hd as [-> Hd%map_err_Ok]. by exists response.
Qed.

Notation account scope := (sc_broker_account_id scope).

(** What a read that succeeds returns. *)
Definition reads {A} (out : (service * W) * result BrokerPortError A)
    (claim : service → W → A → Prop) : Prop :=
  match out with
  | ((s', w'), Ok a) => claim s' w' a
  | (_, Err _) => True
  end.

Lemma with_session_reads {A} scope (read : TInvestRuntimeReadAdapter → st W BrokerPortError A)
    (s : service) w (claim : service → W → A → Prop) :
  (∀ session s' w' a, opened scope s s' w session → read (runtime_reads session) w = (w', Ok a) →
     claim s' w' a) →
  reads (with_session scope read (s, w)) claim.
Proof.
  intros H. destruct (with_session scope read (s, w)) as [[s' w'] [a|e]] eqn:Hr; [|done].
  apply with_session_Ok in Hr as (session & Ho & Hr). by eapply H.
Qed.

Lemma active_orders_exact scope (s : service) w :
  reads (br_active_orders scope (s, w)) (λ s' w' facts, ∃ session body,
    opened scope s s' w session ∧
    answered session get_orders get_sandbox_orders {| goo_account_id := account scope |} w w' body ∧
    Forall2 (order_fact_of (account scope)) (gor_orders body) facts).
Proof.
  apply with_session_reads. intros session s' w' facts Ho.
  unfold runtime_active_orders. intros (w1 & response & H & H1)%st_bind_Ok.
  apply st_map_err_Ok in H. apply st_bind_Ok in H1 as (w2 & orders & H2 & H3).
  apply st_lift_Ok in H2 as [-> H2%map_err_Ok]. apply st_lift_Ok in H3 as [-> H3].
  pose proof (decodes_collect _ _ _ order_decodes (gor_orders (gr_body response))) as Hd.
  unfold canonical_orders in H2. rewrite H2 in Hd. destruct Hd as [_ Hd].
  exists session, (gr_body response). split_and!; [done|by exists response|].
  eapply collect_exact; [|exact Hd|done]. intros. by eapply order_fact_exact.
Qed.

Lemma stop_orders_exact scope since (s : service) w :
  reads (br_stop_orders scope since (s, w)) (λ s' w' facts, ∃ session body,
    opened scope s s' w session ∧
    answered session get_stop_orders get_sandbox_stop_orders
      {| gso_account_id := account scope; gso_status := as_i32 StopOrderStatusAll;
         gso_from := Some (port_timestamp since); gso_to := None |} w w' body ∧
    Forall2 (stop_fact_of (account scope)) (gsr_stop_orders body) facts).
Proof.
  apply with_session_reads. intros session s' w' facts Ho.
  unfold runtime_stop_orders. intros (w1 & response & H & H1)%st_bind_Ok.
  apply st_map_err_Ok in H. apply st_bind_Ok in H1 as (w2 & stops & H2 & H3).
  apply st_lift_Ok in H2 as [-> H2%map_err_Ok]. apply st_lift_Ok in H3 as [-> H3].
  pose proof (decodes_collect _ _ _ stop_order_decodes (gsr_stop_orders (gr_body response))) as Hd.
  unfold canonical_stop_orders in H2. rewrite H2 in Hd. destruct Hd as [_ Hd].
  exists session, (gr_body response). split_and!; [done|by exists response|].
  eapply collect_exact; [|exact Hd|done]. intros. by eapply stop_fact_exact.
Qed.

Lemma order_state_exact scope broker_order_id logical_request_id (s : service) w :
  reads (br_order_state scope broker_order_id logical_request_id (s, w)) (λ s' w' answer,
    ∃ session, opened scope s s' w session ∧
    match order_state_query scope broker_order_id logical_request_id with
    | None => answer = None ∧ w' = w
    | Some request =>
        (∃ body fact, answer = Some fact ∧
           answered session get_order_state get_sandbox_order_state request w w' body ∧
           order_fact_of (account scope) body fact)
        ∨ (answer = None ∧ ∃ error, provider_not_found error = true ∧
             by_environment (tr_environment session) get_order_state get_sandbox_order_state
               (tr_client session) request w = (w', Err error))
    end).
Proof.
  apply with_session_reads. intros session s' w' answer Ho H. exists session. split; [done|].
  unfold runtime_order_state in H. destruct (order_state_query _ _ _) as [request|];
    [|by injection H as <- <-]. simpl in H.
  match type of H with (let (_, _) := ?call in _) = _ => destruct call as [w1 [r|error]] eqn:Hc end.
  - left. injection H as <- H. pose proof (order_decodes (gr_body r)) as Hd.
    destruct (CanonicalOrderState_try_from _) as [order|]; [|done]. simpl in H.
    destruct (order_fact scope order) as [fact|] eqn:Hf; [|done]. injection H as <-.
    exists (gr_body r), fact. split_and!; [done|by exists r|]. destruct Hd. by eapply order_fact_exact.
  - right. destruct (provider_not_found error) eqn:Hn; [|done]. injection H as <- <-. eauto.
Qed.

(** The amount and currency of a total, as the runtime keeps them. *)
Definition money_of (m : MoneyValue) : MoneyFact := {|
  mo_currency := text_or_empty (mv_currency m);
  mo_amount_nanos := int_to_string (mv_units m * NANO_SCALE + mv_nano m) |}.

Lemma money_fact_exact m c : money_reads m c → money_fact <$> c = money_of <$> m.
Proof.
  intros [x y [Hc He]|]; [|done]. simpl. unfold money_fact, money_of, exact in *.
  by rewrite Hc, He, optional_text_default.
Qed.

Lemma own_account expected actual w w' (u : ()) :
  st_lift (S := W) (validate_response_account expected actual) w = (w', Ok u) →
  w' = w ∧ actual = Some expected.
Proof.
  unfold st_lift, validate_response_account. destruct actual as [a|]; [|done].
  destruct (bool_decide (a = expected)) eqn:Ha; [|done]. apply bool_decide_eq_true in Ha as ->.
  by intros [= <-].
Qed.

Lemma portfolio_exact scope (s : service) w :
  reads (br_portfolio scope (s, w)) (λ s' w' fact, ∃ session body,
    opened scope s s' w session ∧
    answered session get_portfolio get_sandbox_portfolio
      {| pq_account_id := account scope; pq_currency := None |} w w' body ∧
    optional_text (pr_account_id body) = Some (account scope) ∧
    pt_account_id fact = account scope ∧
    pt_total_portfolio_valuation fact = money_of <$> pr_total_amount_portfolio body ∧
    pt_total_currency_valuation fact = money_of <$> pr_total_amount_currencies body ∧
    pt_broker_daily_yield fact = money_of <$> pr_daily_yield body).
Proof.
  apply with_session_reads. intros session s' w' fact Ho.
  unfold runtime_portfolio. intros (w1 & state & H%st_map_err_Ok & H1)%st_bind_Ok.
  injection H1 as <- <-.
  assert (∃ body, answered session get_portfolio get_sandbox_portfolio
      {| pq_account_id := account scope; pq_currency := None |} w w1 body ∧
    PortfolioState_try_from body = Ok state ∧ po_account_id state = Some (account scope))
    as (body & Hans & Hdec & Hacc).
  { unfold answered. destruct (rr_environment (runtime_reads session)) eqn:Henv; simpl in H, Henv;
      rewrite Henv; apply st_bind_Ok in H as (w3 & st' & Hb & Hc);
      apply st_bind_Ok in Hc as (w4 & u & [-> Hv]%own_account & Hc); injection Hc as <- <-;
      apply read_body_Ok in Hb as (response & Hm & Hd); exists (gr_body response);
      (split_and!; [by exists response|done|done]). }
  pose proof (portfolio_decodes body) as Hp. rewrite Hdec in Hp. destruct Hp as [_ (Ha & Ht & _)].
  exists session, body. unfold portfolio_totals, canonical_totals in Ht.
  repeat match goal with H : Forall2 _ (_ :: _) (_ :: _) |- _ => inversion H; clear H; subst end.
  split_and!; simpl; try done; [congruence| |apply money_fact_exact; done..].
  by rewrite Hacc.
Qed.

Lemma positions_exact scope (s : service) w :
  reads (br_positions scope (s, w)) (λ s' w' fact, ∃ session body,
    opened scope s s' w session ∧
    answered session get_positions get_sandbox_positions {| psq_account_id := account scope |} w w' body ∧
    optional_text (pp_account_id body) = Some (account scope) ∧
    Forall2 (λ p f, held (account scope) p.1 p.2 f) (balances body) (ps_instruments fact) ∧
    ∀ currency, entry currency (ps_cash_balances fact)
                = int_to_string <$> cash_in currency (pp_money body) None).
Proof.
  apply with_session_reads. intros session s' w' fact Ho.
  unfold runtime_positions. intros (w1 & state & H%st_map_err_Ok & H1)%st_bind_Ok.
  injection H1 as <- <-.
  assert (∃ body, answered session get_positions get_sandbox_positions
      {| psq_account_id := account scope |} w w1 body ∧
    PositionsState_try_from body = Ok state ∧ pst_account_id state = Some (account scope))
    as (body & Hans & Hdec & Hacc).
  { unfold answered. destruct (rr_environment (runtime_reads session)) eqn:Henv; simpl in H, Henv;
      rewrite Henv; apply st_bind_Ok in H as (w3 & st' & Hb & Hc);
      apply st_bind_Ok in Hc as (w4 & u & [-> Hv]%own_account & Hc); injection Hc as <- <-;
      apply read_body_Ok in Hb as (response & Hm & Hd); exists (gr_body response);
      (split_and!; [by exists response|done|done]). }
  pose proof (holdings_decode body) as Hp. rewrite Hdec in Hp. destruct Hp as [_ Hr].
  pose proof Hr as (Ha & Hm & _). exists session, body.
  split_and!; [done|done|congruence|by apply position_facts_held|].
  intros currency. simpl. by eapply cash_balances_exact.
Qed.

(** An operation of the answer; the adapter names no order for it. *)
Definition operation_fact_of (owner : string) (item : OperationItem) (f : OperationFact) : Prop :=
  op_account_id f = default owner (optional_text (oi_broker_account_id item)) ∧
  op_provider_operation_id f = optional_text (oi_id item) ∧
  op_broker_order_id f = None ∧ op_logical_request_id f = None ∧
  ∀ id, id ∈ op_broker_fill_ids f ↔ ∃ t, t ∈ item_trades item ∧ optional_text (oit_num t) = Some id.

Lemma fill_ids_exact ts cs id :
  Forall2 op_trade_reads ts cs →
  id ∈ btree_extend [] (omap cot_trade_id cs) ↔ ∃ t, t ∈ ts ∧ optional_text (oit_num t) = Some id.
Proof.
  intros H. rewrite btree_extend_elem. rewrite list_elem_of_omap. split.
  - intros [?%elem_of_nil|(c & Hc & Hid)]; [done|]. apply list_elem_of_lookup in Hc as [i Hi].
    apply (Forall2_lookup_r _ _ _ _ _ H) in Hi as (t & Ht & Hr). exists t.
    split; [by eapply list_elem_of_lookup_2|]. destruct Hr as [Hr _]. congruence.
  - intros (t & Ht & Hid). right. apply list_elem_of_lookup in Ht as [i Hi].
    apply (Forall2_lookup_l _ _ _ _ _ H) in Hi as (c & Hc & Hr). exists c.
    split; [by eapply list_elem_of_lookup_2|]. destruct Hr as [Hr _]. congruence.
Qed.

Lemma operation_fact_exact scope index item f :
  operation_fact scope index item = Ok f → operation_fact_of (account scope) item f.
Proof.
  unfold operation_fact. pose proof (operation_decodes item) as Hd.
  destruct (CanonicalOperation_try_from item) as [c|]; [|done]. simpl. intros [= <-].
  destruct Hd as [_ (Ht & _ & _ & _ & _ & Htr & _)]. injection Ht as _ Hacc Hid _ _ _ _ _ _ _ _ _ _ _.
  unfold operation_fact_of. simpl. rewrite Hacc, Hid. split_and!; try done.
  intros id. by apply fill_ids_exact.
Qed.

Lemma operation_facts_exact scope items index facts :
  operation_facts scope index items = Ok facts → Forall2 (operation_fact_of (account scope)) items facts.
Proof.
  revert index facts. induction items as [|item items IH]; simpl; intros index facts.
  { intros [= <-]. constructor. }
  destruct (operation_fact scope index item) as [f|] eqn:Hf; [|done].
  destruct (operation_facts scope _ items) as [fs|] eqn:Hfs; [|done]. intros [= <-].
  constructor; [by eapply operation_fact_exact|by eapply IH].
Qed.

Lemma operations_page_exact scope cursor from limit (s : service) w :
  reads (br_operations_page scope cursor from limit (s, w)) (λ s' w' page, ∃ session body,
    opened scope s s' w session ∧
    answered session get_operations_by_cursor get_sandbox_operations_by_cursor
      (operations_request scope cursor from limit) w w' body ∧
    Forall2 (operation_fact_of (account scope)) (gop_items body) (pg_items page) ∧
    pg_next_cursor page = if gop_has_next body then Some (gop_next_cursor body) else None).
Proof.
  apply with_session_reads. intros session s' w' page Ho.
  unfold runtime_operations_page. intros (w1 & response & H%st_map_err_Ok & H1)%st_bind_Ok.
  apply st_bind_Ok in H1 as (w2 & items & [-> H2]%st_lift_Ok & H3). injection H3 as <- <-.
  exists session, (gr_body response). split_and!; [done|by exists response| |done].
  by eapply operation_facts_exact.
Qed.

(** C27. The broker's state reaches the runtime exactly.  Every fact the read port returns
    comes from one answer of the broker, asked for the scope's account over a session of
    the scope's own stored connection and environment: there is one order fact per open
    order and one stop fact per stop order, with the broker's identity, lots, side and a
    status from which the provider's number can be told, so that no unknown status passes
    for a known one; a portfolio and positions are accepted only when the answer names the
    account, with every named instrument's balance, the exact amounts of the totals and
    the last amount of each currency; an order is reported missing only when nothing was
    asked or the provider said that it does not exist; and a page of operations has one
    fact per operation with exactly its fills. *)
Theorem broker_reads_are_exact scope (s : service) w :
  reads (br_active_orders scope (s, w)) (λ s' w' facts, ∃ session body,
    opened scope s s' w session ∧
    answered session get_orders get_sandbox_orders {| goo_account_id := account scope |} w w' body ∧
    Forall2 (order_fact_of (account scope)) (gor_orders body) facts) ∧
  (∀ since, reads (br_stop_orders scope since (s, w)) (λ s' w' facts, ∃ session body,
    opened scope s s' w session ∧
    answered session get_stop_orders get_sandbox_stop_orders
      {| gso_account_id := account scope; gso_status := as_i32 StopOrderStatusAll;
         gso_from := Some (port_timestamp since); gso_to := None |} w w' body ∧
    Forall2 (stop_fact_of (account scope)) (gsr_stop_orders body) facts)) ∧
  (∀ broker_order_id logical_request_id,
    reads (br_order_state scope broker_order_id logical_request_id (s, w)) (λ s' w' answer,
      ∃ session, opened scope s s' w session ∧
      match order_state_query scope broker_order_id logical_request_id with
      | None => answer = None ∧ w' = w
      | Some request =>
          (∃ body fact, answer = Some fact ∧
             answered session get_order_state get_sandbox_order_state request w w' body ∧
             order_fact_of (account scope) body fact)
          ∨ (answer = None ∧ ∃ error, provider_not_found error = true ∧
               by_environment (tr_environment session) get_order_state get_sandbox_order_state
                 (tr_client session) request w = (w', Err error))
      end)) ∧
  reads (br_portfolio scope (s, w)) (λ s' w' fact, ∃ session body,
    opened scope s s' w session ∧
    answered session get_portfolio get_sandbox_portfolio
      {| pq_account_id := account scope; pq_currency := None |} w w' body ∧
    optional_text (pr_account_id body) = Some (account scope) ∧
    pt_account_id fact = account scope ∧
    pt_total_portfolio_valuation fact = money_of <$> pr_total_amount_portfolio body ∧
    pt_total_currency_valuation fact = money_of <$> pr_total_amount_currencies body ∧
    pt_broker_daily_yield fact = money_of <$> pr_daily_yield body) ∧
  reads (br_positions scope (s, w)) (λ s' w' fact, ∃ session body,
    opened scope s s' w session ∧
    answered session get_positions get_sandbox_positions {| psq_account_id := account scope |} w w' body ∧
    optional_text (pp_account_id body) = Some (account scope) ∧
    Forall2 (λ p f, held (account scope) p.1 p.2 f) (balances body) (ps_instruments fact) ∧
    ∀ currency, entry currency (ps_cash_balances fact)
                = int_to_string <$> cash_in currency (pp_money body) None) ∧
  (∀ cursor from limit, reads (br_operations_page scope cursor from limit (s, w)) (λ s' w' page,
    ∃ session body,
      opened scope s s' w session ∧
      answered session get_operations_by_cursor get_sandbox_operations_by_cursor
        (operations_request scope cursor from limit) w w' body ∧
      Forall2 (operation_fact_of (account scope)) (gop_items body) (pg_items page) ∧
      pg_next_cursor page = if gop_has_next body then Some (gop_next_cursor body) else None)).
Proof.
  split_and!; eauto using active_orders_exact, portfolio_exact, positions_exact; intros;
    auto using stop_orders_exact, order_state_exact, operations_page_exact.
Qed.

(** ** Two limits of the adapter *)

(** A failed read of the accounts, the portfolio or the positions is classified permanent
    or as a credential failure whatever the provider said, so the reconciler, which
    retries what is rate-limited or transient, never repeats it. *)
Definition never_retried {A} (out : (service * W) * result BrokerPortError A) : Prop :=
  match out.2 with Err e => safe_read_retryable e = false | Ok _ => True end.

Lemma with_session_not_retried {A} scope (read : TInvestRuntimeReadAdapter → st W BrokerPortError A)
    (s : service) w :
  (∀ a w0, match (read a w0).2 with Err e => safe_read_retryable e = false | Ok _ => True end) →
  never_retried (with_session scope read (s, w)).
Proof.
  intros Hread. unfold never_retried, with_session, port_session, st_bind, st_lift, st_map_err, st_snd.
  destruct (ConnectionId_parse _) as [id|]; simpl; [|done].
  destruct (TInvestFactory.read_session _ _ _) as [[s1 w1] [session|]]; simpl; [|done].
  specialize (Hread (runtime_reads session) w1). by destruct (read _ w1).
Qed.

Lemma account_reads_not_retried scope (s : service) w :
  never_retried (br_accounts scope (s, w)) ∧ never_retried (br_portfolio scope (s, w)) ∧
  never_retried (br_positions scope (s, w)).
Proof.
  split_and!; apply with_session_not_retried; intros a w0;
    unfold runtime_accounts, runtime_portfolio, runtime_positions, st_bind, st_map_err;
    match goal with |- context [let (_, _) := (let (_, _) := ?call in _) in _] =>
      by destruct call as [w1 [x|e]] end.
Qed.

(** No operation this adapter reports can settle a mutation: the reconciler asks for the
    identity of the order or of the request, and both are left out. *)
Lemma operations_settle_nothing scope index item f mutation links :
  operation_fact scope index item = Ok f →
  RuntimeReconcile.operation_evidence_resolves mutation links f = false.
Proof.
  intros (_ & _ & Hb & Hl & _)%operation_fact_exact.
  unfold RuntimeReconcile.operation_evidence_resolves. rewrite Hb, Hl.
  destruct (mr_kind mutation); try done; by rewrite andb_false_r.
Qed.
End exact.
