(* ===== verification/TInvestStreams.v ===== *)
(** * The broker's streams for the runtime: the server streams of
    [crates/vox-tinvest/src/grpc.rs], the connector of [execution_stream.rs],
    [runtime_stream.rs] and the stream port of [connection_factory.rs]

    [TInvestRuntimeStreamAdapter] opens the four streams the runtime needs, waits for the
    subscription of each to be confirmed for exactly the account, and then forwards what
    arrives as signals.  [StoredTInvestStreamPort] does so over a session of a stored
    connection and implements the coordinator's [ExecutionStreamPort].

    What a stream yields before a deadline is a finite list the network holds; waiting
    takes answers from its front.  A forwarding task is a function from what its stream
    yields to the signals it sends; the supervised order stream is the machine of
    [TInvestSupervisor.v]. *)
From stdpp Require Import gmap strings.
From S2P Require Import Prelude ConnectionModel Money Domain RiskStore ConnectionRepository SecretStore ConnectionService RuntimeModel RuntimePolicy RuntimePorts RuntimeCoordinator TInvestWire TInvestCanonical TInvestExecution TInvestGrpc TInvestSupervisor TInvestAccount TInvestOperations TInvestDispatch TInvestFactory TInvestRead.

(** ** Messages *)

Record TradesStreamRequest := { tq_accounts : list string; tq_ping_delay_ms : option Z }.
Record OrderStateStreamRequest := { oq_accounts : list string; oq_ping_delay_millis : option Z }.

Record PingDelaySettings := { pds_ping_delay_ms : option Z }.
Record PortfolioStreamRequest := {
  pfr_accounts : list string;
  pfr_ping_settings : option PingDelaySettings;
}.
Record PositionsStreamRequest := {
  psr_accounts : list string;
  psr_with_initial_positions : bool;
  psr_ping_settings : option PingDelaySettings;
}.
Record OperationsStreamRequest := {
  osr_accounts : list string;
  osr_ping_settings : option PingDelaySettings;
}.

Inductive PortfolioSubscriptionStatus :=
| PortfolioStatusUnspecified | PortfolioStatusSuccess | PortfolioStatusAccountNotFound
| PortfolioStatusInternalError.
#[export] Instance PortfolioSubscriptionStatus_wire : WireEnum PortfolioSubscriptionStatus := {
  as_i32 s := match s with
              | PortfolioStatusUnspecified => 0 | PortfolioStatusSuccess => 1
              | PortfolioStatusAccountNotFound => 2 | PortfolioStatusInternalError => 3
              end;
  members := [PortfolioStatusUnspecified; PortfolioStatusSuccess; PortfolioStatusAccountNotFound;
              PortfolioStatusInternalError];
}.

Inductive PositionsAccountSubscriptionStatus :=
| PositionsStatusUnspecified | PositionsStatusSuccess | PositionsStatusAccountNotFound
| PositionsStatusInternalError.
#[export] Instance PositionsAccountSubscriptionStatus_wire
  : WireEnum PositionsAccountSubscriptionStatus := {
  as_i32 s := match s with
              | PositionsStatusUnspecified => 0 | PositionsStatusSuccess => 1
              | PositionsStatusAccountNotFound => 2 | PositionsStatusInternalError => 3
              end;
  members := [PositionsStatusUnspecified; PositionsStatusSuccess; PositionsStatusAccountNotFound;
              PositionsStatusInternalError];
}.

Inductive OperationsAccountSubscriptionStatus :=
| OperationsStatusUnspecified | OperationsStatusSuccess | OperationsStatusAccountNotFound
| OperationsStatusInternalError.
#[export] Instance OperationsAccountSubscriptionStatus_wire
  : WireEnum OperationsAccountSubscriptionStatus := {
  as_i32 s := match s with
              | OperationsStatusUnspecified => 0 | OperationsStatusSuccess => 1
              | OperationsStatusAccountNotFound => 2 | OperationsStatusInternalError => 3
              end;
  members := [OperationsStatusUnspecified; OperationsStatusSuccess; OperationsStatusAccountNotFound;
              OperationsStatusInternalError];
}.

Record AccountSubscriptionStatus := { asb_account_id : string; asb_subscription_status : Z }.
Record PortfolioSubscriptionResult := {
  psb_accounts : list AccountSubscriptionStatus;
  psb_tracking_id : string;
  psb_stream_id : string;
}.
Inductive PortfolioPayload :=
| PortfolioPayload_Subscriptions (result : PortfolioSubscriptionResult)
| PortfolioPayload_Portfolio (value : PortfolioResponse)
| PortfolioPayload_Ping (value : Ping).
Record PortfolioStreamResponse := { pfs_payload : option PortfolioPayload }.

Record PositionsSubscriptionStatus := { pss_account_id : string; pss_subscription_status : Z }.
Record PositionsSubscriptionResult := {
  posb_accounts : list PositionsSubscriptionStatus;
  posb_tracking_id : string;
  posb_stream_id : string;
}.
Record PositionsMoney := { pmn_available_value : option MoneyValue; pmn_blocked_value : option MoneyValue }.
Record PositionData := {
  pd_account_id : string;
  pd_money : list PositionsMoney;
  pd_securities : list PositionsSecurities;
  pd_futures : list PositionsFutures;
  pd_options : list PositionsOptions;
  pd_date : option Timestamp;
}.
Inductive PositionsPayload :=
| PositionsPayload_Subscriptions (result : PositionsSubscriptionResult)
| PositionsPayload_Position (value : PositionData)
| PositionsPayload_Ping (value : Ping)
| PositionsPayload_InitialPositions (value : PositionsResponse).
Record PositionsStreamResponse := { pos_payload : option PositionsPayload }.

Record OperationsSubscriptionResult := {
  osb_accounts : list string;
  osb_subscription_status : Z;
  osb_tracking_id : string;
  osb_stream_id : string;
}.
Record OperationData := {
  od_broker_account_id : string;
  od_id : string;
  od_parent_operation_id : string;
  od_name : string;
  od_date : option Timestamp;
  od_type : Z;
  od_state : Z;
  od_instrument_uid : string;
  od_figi : string;
  od_instrument_type : string;
  od_instrument_kind : Z;
  od_position_uid : string;
  od_ticker : string;
  od_class_code : string;
  od_payment : option MoneyValue;
}.
Inductive OperationsPayload :=
| OperationsPayload_Subscriptions (result : OperationsSubscriptionResult)
| OperationsPayload_Operation (value : OperationData)
| OperationsPayload_Ping (value : Ping).
Record OperationsStreamResponse := { ops_payload : option OperationsPayload }.

(** ** Server streams *)

(** A stream of the network, named by its handle. *)
Class StreamApi (W : Type) := {
  Inbound : Type → Type;
  SupervisorHandle : Type;
  rpc_trades_stream : rpc W TradesStreamRequest (Inbound TradesStreamResponse);
  rpc_order_state_stream : rpc W OrderStateStreamRequest (Inbound OrderStateStreamResponse);
  rpc_portfolio_stream : rpc W PortfolioStreamRequest (Inbound PortfolioStreamResponse);
  rpc_positions_stream : rpc W PositionsStreamRequest (Inbound PositionsStreamResponse);
  rpc_operations_stream : rpc W OperationsStreamRequest (Inbound OperationsStreamResponse);
  (** The next answer of a stream. *)
  inbound_message : ∀ {T}, Inbound T → st W Status (option T);
  (** The answers of a stream within a time, and taking so many of them. *)
  answers_within : ∀ {T}, Inbound T → Z → W → list (result Status (option T));
  take_answers : ∀ {T}, Inbound T → nat → W → W;
  (** [tokio::spawn] of a supervisor; the events its handle receives within a time,
      whether it then ends, and taking so many of them. *)
  spawn_supervisor : TInvestGrpcClient → ExecutionStreamConfig → ExecutionStreamKind → list string →
    W → W * SupervisorHandle;
  events_within : SupervisorHandle → Z → W → list ExecutionStreamEvent * bool;
  take_events : SupervisorHandle → nat → W → W;
}.

Section streams.
Context {W : Type} `{NW : !Network W} `{GR : !Grpc} `{SA : !StreamApi W}.

Record GrpcServerStream (T : Type) := { gs_inbound : Inbound T; gs_metadata : GrpcResponseMetadata }.
Arguments gs_inbound {T}. Arguments gs_metadata {T}.

Definition server_message {T} (self : GrpcServerStream T) : st W GrpcStreamError (option T) :=
  st_map_err stream_error_from_status (inbound_message (gs_inbound self)).

Definition open_orders_server_stream {Req Resp} (self : TInvestGrpcClient) (method : string) (body : Req)
    (dispatch : rpc W Req (Inbound Resp)) : st W GrpcError (GrpcServerStream Resp) := λ w,
  let '(w, request_id) := nw_request_id w in
  let metadata := {| qm_request_id := request_id; qm_method := method; qm_attempt := 1;
                     qm_mutation := false |} in
  match stream_request self body request_id with
  | Err kind => (w, Err {| ge_metadata := metadata; ge_kind := kind |})
  | Ok request =>
      match dispatch request w with
      | (w, Err status) =>
          (w, Err {| ge_metadata := metadata; ge_kind := ProviderKind (provider_from_status status) |})
      | (w, Ok response) =>
          (w, Ok {| gs_inbound := rs_body response;
                    gs_metadata := {| rx_request_id := request_id;
                                      rx_tracking_id := metadata_text (rs_metadata response) "x-tracking-id";
                                      rx_attempt := 1;
                                      rx_rate_limit := rate_limit_metadata (rs_metadata response) |} |})
      end
  end.

(** The same body over the operations client. *)
Definition open_operations_server_stream {Req Resp} : TInvestGrpcClient → string → Req →
    rpc W Req (Inbound Resp) → st W GrpcError (GrpcServerStream Resp) := open_orders_server_stream.

Definition open_trades_stream (self : TInvestGrpcClient) (request : TradesStreamRequest)
  : st W GrpcError (GrpcServerStream TradesStreamResponse) :=
  open_orders_server_stream self "TradesStream" request rpc_trades_stream.

Definition open_order_state_stream (self : TInvestGrpcClient) (request : OrderStateStreamRequest)
  : st W GrpcError (GrpcServerStream OrderStateStreamResponse) :=
  open_orders_server_stream self "OrderStateStream" request rpc_order_state_stream.

Definition open_portfolio_stream (self : TInvestGrpcClient) (request : PortfolioStreamRequest)
  : st W GrpcError (GrpcServerStream PortfolioStreamResponse) :=
  open_operations_server_stream self "PortfolioStream" request rpc_portfolio_stream.

Definition open_positions_stream (self : TInvestGrpcClient) (request : PositionsStreamRequest)
  : st W GrpcError (GrpcServerStream PositionsStreamResponse) :=
  open_operations_server_stream self "PositionsStream" request rpc_positions_stream.

Definition open_operations_stream (self : TInvestGrpcClient) (request : OperationsStreamRequest)
  : st W GrpcError (GrpcServerStream OperationsStreamResponse) :=
  open_operations_server_stream self "OperationsStream" request rpc_operations_stream.

(** ** The connector of a supervisor *)

Inductive ExecutionStreamConnection :=
| TradesConnection (stream : GrpcServerStream TradesStreamResponse)
| OrderStateConnection (stream : GrpcServerStream OrderStateStreamResponse).

Definition connection_message (self : ExecutionStreamConnection)
  : st W ExecutionStreamError (option ExecutionWireResponse) :=
  match self with
  | TradesConnection stream =>
      let! value := st_map_err StreamFault (server_message stream) in st_ret (WireTrades <$> value)
  | OrderStateConnection stream =>
      let! value := st_map_err StreamFault (server_message stream) in st_ret (WireOrderState <$> value)
  end.

Definition connection_metadata (self : ExecutionStreamConnection) : option GrpcResponseMetadata :=
  match self with
  | TradesConnection stream => Some (gs_metadata stream)
  | OrderStateConnection stream => Some (gs_metadata stream)
  end.

Definition trades_stream_request (accounts : list string) (ping_delay_ms : Z) : TradesStreamRequest := {|
  tq_accounts := accounts; tq_ping_delay_ms := Some ping_delay_ms |}.

Definition connector_connect (client : TInvestGrpcClient) (kind : ExecutionStreamKind)
    (accounts : list string) (ping_delay_ms : Z) : st W ExecutionStreamError ExecutionStreamConnection :=
  match kind with
  | TradesKind =>
      let! stream := st_map_err ConnectFault
        (open_trades_stream client (trades_stream_request accounts ping_delay_ms)) in
      st_ret (TradesConnection stream)
  | OrderStateKind =>
      let! stream := st_map_err ConnectFault
        (open_order_state_stream client {| oq_accounts := accounts;
                                           oq_ping_delay_millis := Some ping_delay_ms |}) in
      st_ret (OrderStateConnection stream)
  end.

(** [ExecutionStreamSupervisor::new] and [start]. *)
Definition supervisor_new (config : ExecutionStreamConfig) : result ExecutionStreamError () :=
  config_validate config.

Definition supervisor_start (client : TInvestGrpcClient) (config : ExecutionStreamConfig)
    (kind : ExecutionStreamKind) (accounts : list string) : st W ExecutionStreamError SupervisorHandle :=
  let! _ := st_lift (validate_for config kind) in
  let! accounts := st_lift (validate_accounts accounts) in
  λ w, let '(w, handle) := spawn_supervisor client config kind accounts w in (w, Ok handle).

(** ** Waiting for subscriptions *)

Notation px := (st W BrokerPortError).

Definition transient (service method message : string) : BrokerPortError := {|
  bp_service := service; bp_method := method; bp_class := Res.Transient;
  bp_message := message; bp_retry_after := None |}.

Definition ACK_TIMEOUT : Z := 20 * 1000000000.

(** The answers up to the first that settles the subscription: how many were taken and
    what was found. *)
Fixpoint ack_loop {T} (method : string) (acknowledges : T → option bool)
    (answers : list (result Status (option T))) : nat * result BrokerPortError () :=
  match answers with
  | [] => (0%nat, Err (transient "OperationsStreamService" method "ACK timeout"))
  | Err status :: _ =>
      (1%nat, Err (permanent "OperationsStreamService" method
                     (stream_error_text (stream_error_from_status status))))
  | Ok None :: _ =>
      (1%nat, Err (permanent "OperationsStreamService" method "stream closed before subscription ACK"))
  | Ok (Some message) :: answers =>
      match acknowledges message with
      | Some true => (1%nat, Ok tt)
      | Some false =>
          (1%nat, Err (permanent "OperationsStreamService" method (method +:+ " subscription ACK mismatch")))
      | None => let '(n, r) := ack_loop method acknowledges answers in (S n, r)
      end
  end.

Definition await_stream_ack {T} (method : string) (acknowledges : T → option bool)
    (stream : GrpcServerStream T) : px () := λ w,
  let '(n, r) := ack_loop method acknowledges (answers_within (gs_inbound stream) ACK_TIMEOUT w) in
  (take_answers (gs_inbound stream) n w, r).

Definition portfolio_acknowledges (account_id : string) (message : PortfolioStreamResponse) : option bool :=
  match pfs_payload message with
  | Some (PortfolioPayload_Subscriptions result) =>
      Some match psb_accounts result with
           | [account] =>
               bool_decide (asb_account_id account = account_id)
               && (asb_subscription_status account =? as_i32 PortfolioStatusSuccess)
               && negb (is_blank (psb_stream_id result))
           | _ => false
           end
  | _ => None
  end.

Definition positions_acknowledges (account_id : string) (message : PositionsStreamResponse) : option bool :=
  match pos_payload message with
  | Some (PositionsPayload_Subscriptions result) =>
      Some match posb_accounts result with
           | [account] =>
               bool_decide (pss_account_id account = account_id)
               && (pss_subscription_status account =? as_i32 PositionsStatusSuccess)
               && negb (is_blank (posb_stream_id result))
           | _ => false
           end
  | _ => None
  end.

Definition operations_acknowledges (account_id : string) (message : OperationsStreamResponse) : option bool :=
  match ops_payload message with
  | Some (OperationsPayload_Subscriptions result) =>
      Some match osb_accounts result with
           | [account] =>
               bool_decide (account = account_id)
               && (osb_subscription_status result =? as_i32 OperationsStatusSuccess)
               && negb (is_blank (osb_stream_id result))
           | _ => false
           end
  | _ => None
  end.

Definition await_portfolio_ack (stream : GrpcServerStream PortfolioStreamResponse) (account_id : string)
  : px () := await_stream_ack "PortfolioStream" (portfolio_acknowledges account_id) stream.

Definition await_positions_ack (stream : GrpcServerStream PositionsStreamResponse) (account_id : string)
  : px () := await_stream_ack "PositionsStream" (positions_acknowledges account_id) stream.

Definition await_operations_ack (stream : GrpcServerStream OperationsStreamResponse) (account_id : string)
  : px () := await_stream_ack "OperationsStream" (operations_acknowledges account_id) stream.

Fixpoint order_ack_loop (events : list ExecutionStreamEvent) (ended : bool)
  : nat * result BrokerPortError () :=
  match events with
  | [] =>
      (0%nat, Err (if ended
                   then permanent "OrdersStreamService" "OrderStateStream"
                          "OrderStateStream closed before subscription ACK"
                   else transient "OrdersStreamService" "OrderStateStream" "ACK timeout"))
  | Evidence (StreamSubscription _ _ _ _ _) :: _ => (1%nat, Ok tt)
  | Fault error :: _ =>
      (1%nat, Err (permanent "OrdersStreamService" "OrderStateStream" (execution_stream_text error)))
  | _ :: events => let '(n, r) := order_ack_loop events ended in (S n, r)
  end.

Definition await_order_ack (handle : SupervisorHandle) : px () := λ w,
  let '(events, ended) := events_within handle ACK_TIMEOUT w in
  let '(n, r) := order_ack_loop events ended in
  (take_events handle n w, r).
End streams.
Arguments gs_inbound {W SA T}. Arguments gs_metadata {W SA T}.

(** ** Forwarding *)

(** [runtime_stream.rs] repeats these functions of [runtime_read.rs]. *)
Definition stream_order_status : Z → OrderExecutionStatus := order_status.
Definition stream_stop_status : Z → StopExecutionStatus := stop_status.
Definition stream_grpc_port_error : string → string → GrpcError → BrokerPortError := grpc_port_error.

Definition capital_event (account_id : string) (event_class : BrokerEventClass) (stable_event_id : string)
    (runtime_epoch : Z) : StreamSignal :=
  StreamEvent {| be_account_id := account_id; be_event_class := event_class;
                 be_stable_event_id := stable_event_id; be_broker_order_id := None;
                 be_broker_stop_order_id := None; be_logical_request_id := None;
                 be_execution_state := None; be_runtime_epoch := runtime_epoch |}.

Definition stream_signal (event : ExecutionStreamEvent) (account_id : string) (runtime_epoch : Z)
  : option StreamSignal :=
  match event with
  | Evidence (StreamOrder order) =>
      (λ broker_order_id, StreamEvent {|
        be_account_id := account_id; be_event_class := EventCls.Order;
        be_stable_event_id := "order:" +:+ broker_order_id +:+ ":" +:+
          int_to_string (cso_execution_status order) +:+ ":" +:+ int_to_string (cso_lots_executed order);
        be_broker_order_id := Some broker_order_id; be_broker_stop_order_id := None;
        be_logical_request_id := cso_client_request_id order;
        be_execution_state := Some (OrderExecution (stream_order_status (cso_execution_status order))
                                      (cso_status_cause order));
        be_runtime_epoch := runtime_epoch |}) <$> cso_broker_order_id order
  | Evidence (StreamStopOrder stop) =>
      (λ broker_stop_order_id, StreamEvent {|
        be_account_id := account_id; be_event_class := EventCls.Stop;
        be_stable_event_id := "stop:" +:+ broker_stop_order_id +:+ ":" +:+ int_to_string (css_status stop);
        be_broker_order_id := None; be_broker_stop_order_id := Some broker_stop_order_id;
        be_logical_request_id := None;
        be_execution_state := Some (StopExecution (stream_stop_status (css_status stop)) None);
        be_runtime_epoch := runtime_epoch |}) <$> css_broker_stop_order_id stop
  | Fault error => Some (StreamGap Stream.OrderState (execution_stream_text error))
  | _ => None
  end.

(** The order task: the signals of the events its handle receives. *)
Definition order_signals (account_id : string) (runtime_epoch : Z) (events : list ExecutionStreamEvent)
  : list StreamSignal :=
  omap (λ event, stream_signal event account_id runtime_epoch) events.

(** What [timeout(15 s, stream.message())] gives: [None] is the timeout. *)
Notation arrival T := (option (result GrpcStreamError (option T))).

(** The loop of the three capital tasks.  [carried] is the account of a message to be
    forwarded with its identifier under the next revision. *)
Fixpoint capital_loop {T} (carried : T → option (string * (Z → string))) (class : BrokerEventClass)
    (lost : StreamSignal) (epoch revision : Z) (arrivals : list (arrival T)) : list StreamSignal :=
  match arrivals with
  | [] => []
  | Some (Ok (Some message)) :: arrivals =>
      match carried message with
      | Some (account_id, id) =>
          let revision := Z.min (revision + 1) (int_max U64) in
          capital_event account_id class (id revision) epoch
            :: capital_loop carried class lost epoch revision arrivals
      | None => capital_loop carried class lost epoch revision arrivals
      end
  | _ :: _ => [lost]
  end.

Definition numbered (prefix : string) (epoch revision : Z) : string :=
  prefix +:+ ":" +:+ int_to_string epoch +:+ ":" +:+ int_to_string revision.

Definition portfolio_carried (epoch : Z) (message : PortfolioStreamResponse)
  : option (string * (Z → string)) :=
  match pfs_payload message with
  | Some (PortfolioPayload_Portfolio value) => Some (pr_account_id value, numbered "portfolio" epoch)
  | _ => None
  end.

Definition positions_carried (epoch : Z) (message : PositionsStreamResponse)
  : option (string * (Z → string)) :=
  match pos_payload message with
  | Some (PositionsPayload_Position value) => Some (pd_account_id value, numbered "position" epoch)
  | Some (PositionsPayload_InitialPositions value) => Some (pp_account_id value, numbered "position" epoch)
  | _ => None
  end.

Definition operations_carried (epoch : Z) (message : OperationsStreamResponse)
  : option (string * (Z → string)) :=
  match ops_payload message with
  | Some (OperationsPayload_Operation value) =>
      Some (od_broker_account_id value,
            λ revision, if is_blank (od_id value) then numbered "operation" epoch revision
                        else "operation:" +:+ od_id value)
  | _ => None
  end.

Definition portfolio_signals (epoch : Z) : list (arrival PortfolioStreamResponse) → list StreamSignal :=
  capital_loop (portfolio_carried epoch) EventCls.Portfolio
    (StreamDisconnected Stream.Portfolio "PortfolioStream closed or faulted") epoch 0.

Definition positions_signals (epoch : Z) : list (arrival PositionsStreamResponse) → list StreamSignal :=
  capital_loop (positions_carried epoch) EventCls.Position
    (StreamDisconnected Stream.Positions "PositionsStream closed or faulted") epoch 0.

Definition operations_signals (epoch : Z) : list (arrival OperationsStreamResponse) → list StreamSignal :=
  capital_loop (operations_carried epoch) EventCls.Operation
    (StreamDisconnected Stream.Operations "OperationsStream closed or faulted") epoch 0.

Definition CREDENTIAL_SESSION_MAX_AGE : Z := 30 * 60 * 1000000000.

(** The refresh task: after the time, one signal. *)
Definition refresh_signals (elapsed : Z) : list StreamSignal :=
  if CREDENTIAL_SESSION_MAX_AGE <=? elapsed
  then [StreamDisconnected Stream.OrderState "stored credential session reached refresh boundary"]
  else [].

(** ** The adapter *)

Section adapter.
Context {W : Type} `{NW : !Network W} `{GR : !Grpc} `{SA : !StreamApi W}.

(** A spawned task and what it owns. *)
Inductive Task :=
| OrderTask (orders : SupervisorHandle) (account_id : string) (epoch : Z)
| PortfolioTask (stream : GrpcServerStream PortfolioStreamResponse) (epoch : Z)
| PositionsTask (stream : GrpcServerStream PositionsStreamResponse) (epoch : Z)
| OperationsTask (stream : GrpcServerStream OperationsStreamResponse) (epoch : Z)
| RefreshTask.

(** The adapter's state is its tasks; disconnecting ends them all. *)
Notation ax := (st (list Task * W) BrokerPortError).

Definition adapter_disconnect : ax () := λ s, (([], s.2), Ok tt).

Definition runtime_stream_config : ExecutionStreamConfig := {|
  sg_event_capacity := sg_event_capacity ExecutionStreamConfig_default;
  sg_stale_timeout := 15 * 1000000000; sg_subscription_ack_timeout := 15 * 1000000000;
  sg_reconnect_policy := sg_reconnect_policy ExecutionStreamConfig_default;
  sg_ping_delay_ms := 5000 |}.

Definition ping_settings : option PingDelaySettings := Some {| pds_ping_delay_ms := Some 5000 |}.

Definition order_stream_error (error : ExecutionStreamError) : BrokerPortError :=
  port_error "OrdersStreamService" "OrderStateStream" (execution_stream_text error).

(** The four streams, each confirmed before the next is opened. *)
Definition open_confirmed_streams (client : TInvestGrpcClient) (account_id : string)
  : st W BrokerPortError
      (SupervisorHandle * GrpcServerStream PortfolioStreamResponse *
       GrpcServerStream PositionsStreamResponse * GrpcServerStream OperationsStreamResponse) :=
  let! _ := st_lift (map_err order_stream_error (supervisor_new runtime_stream_config)) in
  let! orders := st_map_err order_stream_error
    (supervisor_start client runtime_stream_config OrderStateKind [account_id]) in
  await_order_ack orders ;;;
  let! portfolio := st_map_err (stream_grpc_port_error "OperationsStreamService" "PortfolioStream")
    (open_portfolio_stream client {| pfr_accounts := [account_id]; pfr_ping_settings := ping_settings |}) in
  await_portfolio_ack portfolio account_id ;;;
  let! positions := st_map_err (stream_grpc_port_error "OperationsStreamService" "PositionsStream")
    (open_positions_stream client {| psr_accounts := [account_id]; psr_with_initial_positions := true;
                                     psr_ping_settings := ping_settings |}) in
  await_positions_ack positions account_id ;;;
  let! operations := st_map_err (stream_grpc_port_error "OperationsStreamService" "OperationsStream")
    (open_operations_stream client {| osr_accounts := [account_id]; osr_ping_settings := ping_settings |}) in
  await_operations_ack operations account_id ;;;
  st_ret (orders, portfolio, positions, operations).

Definition adapter_connect (client : TInvestGrpcClient) (scope : RuntimeScope) (runtime_epoch : Z)
  : ax (list StreamKind) :=
  adapter_disconnect ;;;
  let account_id := sc_broker_account_id scope in
  let! streams := st_snd (open_confirmed_streams client account_id) in
  let '(orders, portfolio, positions, operations) := streams in
  λ s, (([OrderTask orders account_id runtime_epoch; PortfolioTask portfolio runtime_epoch;
          PositionsTask positions runtime_epoch; OperationsTask operations runtime_epoch; RefreshTask], s.2),
        Ok [Stream.OrderState; Stream.Positions; Stream.Portfolio; Stream.Operations]).
End adapter.

(** ** The stored stream port *)

Section stored.
Context {R S P E : Type}.
Context `{CR : !ConnectionRepository R} `{SS : !SecretStore S} `{BP : !BrokerProviderPort P} `{UU : !Uuids E}.
Context {W : Type} `{NW : !Network W} `{GR : !Grpc} `{SA : !StreamApi W} `{UF : !UuidFormat}.

Notation service := (@Service R S P E).

(** The connection service, the network and the active adapter's tasks. *)
Notation port := ((service * W) * option (list (@Task W SA)))%type.
Notation sx := (st port BrokerPortError).

Definition port_disconnect : sx () := λ s, ((s.1, None), Ok tt).

Definition stream_session (scope : RuntimeScope) : sx TInvestReadSession :=
  let! connection_id := st_lift
    (map_err (λ _, factory_port_error "invalid runtime connection identity")
       (ConnectionId_parse (sc_connection_ref scope))) in
  st_fst (st_map_err (λ _, factory_port_error "stored stream session unavailable")
    (TInvestFactory.read_session connection_id (sc_broker_account_id scope))).

(** The session's adapter starts without tasks and becomes the active one when all its
    streams are confirmed. *)
Definition port_connect (scope : RuntimeScope) (runtime_epoch : Z) : sx (list StreamKind) :=
  port_disconnect ;;;
  let! session := stream_session scope in
  λ s, let '(tasks, w, r) := adapter_connect (tr_client session) scope runtime_epoch ([], s.1.2) in
       match r with
       | Ok acknowledged => ((s.1.1, w, Some tasks), Ok acknowledged)
       | Err e => ((s.1.1, w, s.2), Err e)
       end.

#[export] Instance StoredTInvestStreamPort : ExecutionStreamPort port := {
  es_connect := port_connect;
  es_disconnect := port_disconnect;
}.

(** ** Confirmed streams *)

(** A stream answered, before the deadline and after nothing but other messages, with a
    subscription that is what [exact] says. *)
Definition confirmed {T} (acknowledges : T → option bool) (exact : T → Prop) (stream : GrpcServerStream T)
  : Prop :=
  ∃ w l message l', answers_within (gs_inbound stream) ACK_TIMEOUT w = l ++ Ok (Some message) :: l' ∧
    exact message ∧ Forall (λ answer, ∃ m, answer = Ok (Some m) ∧ acknowledges m = None) l.

Definition portfolio_exact (account_id : string) (message : PortfolioStreamResponse) : Prop :=
  ∃ result, pfs_payload message = Some (PortfolioPayload_Subscriptions result) ∧
    psb_accounts result = [{| asb_account_id := account_id;
                              asb_subscription_status := as_i32 PortfolioStatusSuccess |}] ∧
    is_blank (psb_stream_id result) = false.

Definition positions_exact (account_id : string) (message : PositionsStreamResponse) : Prop :=
  ∃ result, pos_payload message = Some (PositionsPayload_Subscriptions result) ∧
    posb_accounts result = [{| pss_account_id := account_id;
                               pss_subscription_status := as_i32 PositionsStatusSuccess |}] ∧
    is_blank (posb_stream_id result) = false.

Definition operations_exact (account_id : string) (message : OperationsStreamResponse) : Prop :=
  ∃ result, ops_payload message = Some (OperationsPayload_Subscriptions result) ∧
    osb_accounts result = [account_id] ∧
    osb_subscription_status result = as_i32 OperationsStatusSuccess ∧
    is_blank (osb_stream_id result) = false.

(** The order stream's supervisor reported a subscription and no failure before it. *)
Definition order_confirmed (orders : SupervisorHandle) : Prop :=
  ∃ w l event l', (events_within orders ACK_TIMEOUT w).1 = l ++ Evidence event :: l' ∧
    is_subscription event = true ∧ ∀ error, Fault error ∉ l.

Lemma portfolio_acknowledges_exact account m :
  portfolio_acknowledges account m = Some true → portfolio_exact account m.
Proof.
  unfold portfolio_acknowledges, portfolio_exact. destruct (pfs_payload m) as [[result| |]|]; try done.
  intros [= H]. exists result. destruct (psb_accounts result) as [|[id status] [|]]; try done.
  simpl in H. prop_tests. apply Z.eqb_eq in H1. by subst.
Qed.

Lemma positions_acknowledges_exact account m :
  positions_acknowledges account m = Some true → positions_exact account m.
Proof.
  unfold positions_acknowledges, positions_exact. destruct (pos_payload m) as [[result| | |]|]; try done.
  intros [= H]. exists result. destruct (posb_accounts result) as [|[id status] [|]]; try done.
  simpl in H. prop_tests. apply Z.eqb_eq in H1. by subst.
Qed.

Lemma operations_acknowledges_exact account m :
  operations_acknowledges account m = Some true → operations_exact account m.
Proof.
  unfold operations_acknowledges, operations_exact. destruct (ops_payload m) as [[result| |]|]; try done.
  intros [= H]. exists result. destruct (osb_accounts result) as [|id [|]]; try done.
  prop_tests. apply Z.eqb_eq in H1. by subst.
Qed.

Lemma ack_loop_Ok {T} method (acknowledges : T → option bool) answers n u :
  ack_loop method acknowledges answers = (n, Ok u) →
  ∃ l message l', answers = l ++ Ok (Some message) :: l' ∧ acknowledges message = Some true ∧
    Forall (λ answer, ∃ m, answer = Ok (Some m) ∧ acknowledges m = None) l.
Proof.
  revert n. induction answers as [|[[m|]|status] answers IH]; intros n; simpl; try done.
  destruct (acknowledges m) as [[]|] eqn:Hm; try done.
  - intros _. exists [], m, answers. by repeat constructor.
  - destruct (ack_loop _ _ answers) as [k r] eqn:Hk. intros [= <- ->].
    destruct (IH k eq_refl) as (l & message & l' & -> & Ha & Hl).
    exists (Ok (Some m) :: l), message, l'. split_and!; [done|done|]. constructor; eauto.
Qed.

Lemma await_stream_ack_Ok {T} method (acknowledges : T → option bool) exact stream (w w' : W) u :
  (∀ m, acknowledges m = Some true → exact m) →
  await_stream_ack method acknowledges stream w = (w', Ok u) → confirmed acknowledges exact stream.
Proof.
  intros He. unfold await_stream_ack. destruct (ack_loop _ _ _) as [n r] eqn:Hl. intros [= _ ->].
  apply ack_loop_Ok in Hl as (l & m & l' & Heq & Hm & Hl). exists w, l, m, l'. auto.
Qed.

Lemma order_ack_loop_Ok events ended n u :
  order_ack_loop events ended = (n, Ok u) →
  ∃ l event l', events = l ++ Evidence event :: l' ∧ is_subscription event = true ∧ ∀ error, Fault error ∉ l.
Proof.
  revert n. induction events as [|event events IH]; intros n; simpl; [done|].
  assert ((let '(k, r) := order_ack_loop events ended in (Datatypes.S k, r)) = (n, Ok u) →
    (∀ error, event ≠ Fault error) →
    ∃ l ev l', event :: events = l ++ Evidence ev :: l' ∧ is_subscription ev = true ∧ ∀ error, Fault error ∉ l) as Hnext.
  { destruct (order_ack_loop events ended) as [k r]. intros [= <- ->] Hne.
    destruct (IH k eq_refl) as (l & ev & l' & -> & Hs & Hl). exists (event :: l), ev, l'.
    split_and!; [done|done|]. set_solver. }
  destruct event as [c|a d|ev|error|]; try done; try (intros H; by apply Hnext).
  destruct ev; try (intros H; by apply Hnext).
  intros _. eexists [], _, events. split_and!; [done|done|set_solver].
Qed.

Lemma await_order_ack_Ok orders (w w' : W) u :
  await_order_ack orders w = (w', Ok u) → order_confirmed orders.
Proof.
  unfold await_order_ack. destruct (events_within orders ACK_TIMEOUT w) as [events ended] eqn:He.
  destruct (order_ack_loop events ended) as [n r] eqn:Hl. intros [= _ ->].
  apply order_ack_loop_Ok in Hl as (l & event & l' & -> & Hs & Hl). exists w, l, event, l'. by rewrite He.
Qed.

(** A value that an operation returned at some point. *)
Definition returned_by {A} {Er : Type} (m : st W Er A) (a : A) : Prop := ∃ w w', m w = (w', Ok a).

(** The streams of an account: opened with the session's client for that account alone,
    and confirmed for it. *)
Definition streams_of (client : TInvestGrpcClient) (account_id : string) (orders : SupervisorHandle)
    (portfolio : GrpcServerStream PortfolioStreamResponse)
    (positions : GrpcServerStream PositionsStreamResponse)
    (operations : GrpcServerStream OperationsStreamResponse) : Prop :=
  (returned_by (supervisor_start client runtime_stream_config OrderStateKind [account_id]) orders ∧
   order_confirmed orders) ∧
  (returned_by (open_portfolio_stream client
     {| pfr_accounts := [account_id]; pfr_ping_settings := ping_settings |}) portfolio ∧
   confirmed (portfolio_acknowledges account_id) (portfolio_exact account_id) portfolio) ∧
  (returned_by (open_positions_stream client
     {| psr_accounts := [account_id]; psr_with_initial_positions := true;
        psr_ping_settings := ping_settings |}) positions ∧
   confirmed (positions_acknowledges account_id) (positions_exact account_id) positions) ∧
  (returned_by (open_operations_stream client
     {| osr_accounts := [account_id]; osr_ping_settings := ping_settings |}) operations ∧
   confirmed (operations_acknowledges account_id) (operations_exact account_id) operations).

Lemma st_map_err_returned {A Er F} (f : Er → F) (m : st W Er A) w w' a :
  st_map_err f m w = (w', Ok a) → returned_by m a.
Proof. unfold st_map_err. destruct (m w) as [w1 [b|e]] eqn:H; [|done]. intros [= <- <-]. by exists w, w1. Qed.

Lemma open_confirmed_streams_Ok client account (w w' : W) orders portfolio positions operations :
  open_confirmed_streams client account w = (w', Ok (orders, portfolio, positions, operations)) →
  streams_of client account orders portfolio positions operations.
Proof.
  unfold open_confirmed_streams. intros (w1 & u & _ & H)%st_bind_Ok.
  apply st_bind_Ok in H as (w2 & o & Ho%st_map_err_returned & H).
  apply st_bind_Ok in H as (w3 & u3 & Hao%await_order_ack_Ok & H).
  apply st_bind_Ok in H as (w4 & pf & Hpf%st_map_err_returned & H).
  apply st_bind_Ok in H as (w5 & u5 & Hapf & H).
  apply st_bind_Ok in H as (w6 & ps & Hps%st_map_err_returned & H).
  apply st_bind_Ok in H as (w7 & u7 & Haps & H).
  apply st_bind_Ok in H as (w8 & op & Hop%st_map_err_returned & H).
  apply st_bind_Ok in H as (w9 & u9 & Haop & H). injection H as _ <- <- <- <-.
  apply (await_stream_ack_Ok _ _ _ _ _ _ _ (portfolio_acknowledges_exact account)) in Hapf.
  apply (await_stream_ack_Ok _ _ _ _ _ _ _ (positions_acknowledges_exact account)) in Haps.
  apply (await_stream_ack_Ok _ _ _ _ _ _ _ (operations_acknowledges_exact account)) in Haop.
  by split_and!.
Qed.

(** A session was opened from the stored connection of the scope. *)
Definition session_of (scope : RuntimeScope) (s s' : service) (w : W) (session : TInvestReadSession) : Prop :=
  ∃ connection_id, ConnectionId_parse (sc_connection_ref scope) = Ok connection_id ∧
    TInvestFactory.read_session connection_id (sc_broker_account_id scope) (s, w) = ((s', w), Ok session).

Lemma stream_session_spec scope (s : service) (w : W) active :
  match stream_session scope (s, w, active) with
  | (s', w', active', Ok session) => session_of scope s s' w session ∧ w' = w ∧ active' = active
  | (_, _, active', Err _) => active' = active
  end.
Proof.
  unfold stream_session, st_bind, st_lift. destruct (ConnectionId_parse _) as [id|] eqn:Hid; simpl; [|done].
  unfold st_fst, st_map_err. simpl.
  destruct (TInvestFactory.read_session _ _ _) as [[s1 w1] [session|]] eqn:Hs; simpl; [|done].
  assert (w1 = w) as ->.
  { unfold TInvestFactory.read_session, on_service, st_fst in Hs. simpl in Hs.
    destruct (st_map_err _ _ _); by simplify_eq. }
  split_and!; [|done|done]. by exists id.
Qed.

(** The runtime streams only what is confirmed for its account.  Connecting succeeds
    only with a session opened from the scope's stored connection; the order, portfolio,
    positions and operations streams are then exactly the streams the runtime requires,
    each opened with the session's client for the scope's account alone and each
    confirmed in time by a subscription that names exactly that account and succeeded;
    what forwards them is tagged with the runtime's epoch.  Whatever was connected before
    is disconnected first, and a connection that fails leaves nothing active. *)
Theorem streams_confirmed_for_account scope epoch (s : service) (w : W) active :
  match es_connect scope epoch (s, w, active) with
  | (s', w', active', Ok kinds) =>
      kinds = required_streams ∧
      ∃ session orders portfolio positions operations,
        session_of scope s s' w session ∧
        streams_of (tr_client session) (sc_broker_account_id scope) orders portfolio positions operations ∧
        active' = Some [OrderTask orders (sc_broker_account_id scope) epoch; PortfolioTask portfolio epoch;
                        PositionsTask positions epoch; OperationsTask operations epoch; RefreshTask]
  | (_, _, active', Err _) => active' = None
  end.
Proof.
  unfold es_connect. simpl. unfold port_connect. unfold st_bind at 1, port_disconnect. simpl.
  unfold st_bind at 1. pose proof (stream_session_spec scope s w None) as Hs.
  destruct (stream_session scope (s, w, None)) as [[[s1 w1] a1] [session|e]]; [|done].
  destruct Hs as (Hs & -> & ->). simpl. unfold adapter_connect. unfold st_bind at 1, adapter_disconnect. simpl.
  unfold st_bind at 1, st_snd. simpl.
  destruct (open_confirmed_streams _ _ w) as [w2 [[[[orders portfolio] positions] operations]|e]] eqn:Ho; [|done].
  apply open_confirmed_streams_Ok in Ho. simpl. split; [done|].
  by exists session, orders, portfolio, positions, operations.
Qed.
End stored.

(** ** Losses reach the runtime *)

(** The stream gave a message; anything else is its loss. *)
Definition lost_arrival {T} (a : arrival T) : bool :=
  match a with Some (Ok (Some _)) => false | _ => true end.

(** A task's signals end with the loss exactly when its stream was lost, and the loss is
    its last signal. *)
Lemma capital_loop_lost {T} (carried : T → option (string * (Z → string))) class stream reason epoch
    revision arrivals :
  let lost := StreamDisconnected stream reason in
  (lost ∈ capital_loop carried class lost epoch revision arrivals ↔ existsb lost_arrival arrivals = true) ∧
  (lost ∈ capital_loop carried class lost epoch revision arrivals →
   last (capital_loop carried class lost epoch revision arrivals) = Some lost).
Proof.
  intros lost. revert revision.
  induction arrivals as [|[[[m|]|e]|] arrivals IH]; intros revision; simpl; try (set_solver).
  destruct (carried m) as [[account id]|]; [|apply IH].
  destruct (IH (Z.min (revision + 1) (int_max U64))) as [[H1 H2] H3].
  split; [split|].
  - rewrite elem_of_cons. intros [?|?]; [done|auto].
  - intros H. apply elem_of_cons. auto.
  - rewrite elem_of_cons. intros [?|Hin]; [done|].
    destruct (capital_loop _ _ _ _ _ arrivals); [set_solver|]. by apply H3.
Qed.

Lemma capital_last {T} (carried : T → option (string * (Z → string))) class stream reason epoch
    revision arrivals :
  let lost := StreamDisconnected stream reason in
  existsb lost_arrival arrivals = true ↔
  last (capital_loop carried class lost epoch revision arrivals) = Some lost.
Proof.
  intros lost. destruct (capital_loop_lost carried class stream reason epoch revision arrivals) as [H1 H2].
  rewrite <- H1. split; [done|]. apply last_Some_elem_of.
Qed.

Lemma order_signals_fault account epoch events error :
  Fault error ∈ events →
  StreamGap Stream.OrderState (execution_stream_text error) ∈ order_signals account epoch events.
Proof. intros H. unfold order_signals. apply list_elem_of_omap. by exists (Fault error). Qed.

(** What the order task sends is about its account and epoch. *)
Definition order_signal_of (account : string) (epoch : Z) (signal : StreamSignal) : Prop :=
  match signal with
  | StreamEvent event =>
      be_account_id event = account ∧ be_runtime_epoch event = epoch ∧
      (be_event_class event = EventCls.Order ∨ be_event_class event = EventCls.Stop)
  | StreamGap stream _ => stream = Stream.OrderState
  | _ => False
  end.

Lemma order_signals_own account epoch events :
  Forall (order_signal_of account epoch) (order_signals account epoch events).
Proof.
  apply Forall_forall. intros signal (event & _ & H)%list_elem_of_omap.
  unfold stream_signal in H. destruct event as [c|a d|event|error|]; try done; [|by injection H as <-].
  destruct event as [| order | stop | |]; try done.
  - apply fmap_Some in H as (id & _ & ->). simpl. auto.
  - apply fmap_Some in H as (id & _ & ->). simpl. auto.
Qed.

(** C25. No loss of a stream goes unnoticed by the runtime.  On the order stream the runtime
    opens, whatever the provider sends, a new connection never follows an earlier one
    without a gap signalled in between; when the supervision ends without having been
    stopped, a gap is the last signal; and every event signalled carries the scope's
    account and the runtime's epoch.  A portfolio, positions or operations task signals
    the disconnection exactly when its stream closed, failed or fell silent, as its last
    signal. *)
Theorem stream_losses_reach_runtime account epoch connection_id inputs r0 r :
  stream_start runtime_stream_config OrderStateKind [account] = Ok r0 →
  Forall (λ input, input ≠ CallForceReconnect) inputs →
  steps runtime_stream_config OrderStateKind [account] connection_id inputs r0 = Some r →
  (∀ l1 a l2 b l3, ru_events r = l1 ++ Connected a :: l2 ++ Connected b :: l3 →
     ∃ reason, StreamGap Stream.OrderState reason ∈ order_signals account epoch l2) ∧
  (ru_phase r = Returned → ch_alive (ru_channels r) = true → ch_stop (ru_channels r) = false →
     ∃ reason, last (order_signals account epoch (ru_events r)) = Some (StreamGap Stream.OrderState reason)) ∧
  Forall (order_signal_of account epoch) (order_signals account epoch (ru_events r)) ∧
  (∀ arrivals, let lost := StreamDisconnected Stream.Portfolio "PortfolioStream closed or faulted" in
     existsb lost_arrival arrivals = true ↔ last (portfolio_signals epoch arrivals) = Some lost) ∧
  (∀ arrivals, let lost := StreamDisconnected Stream.Positions "PositionsStream closed or faulted" in
     existsb lost_arrival arrivals = true ↔ last (positions_signals epoch arrivals) = Some lost) ∧
  (∀ arrivals, let lost := StreamDisconnected Stream.Operations "OperationsStream closed or faulted" in
     existsb lost_arrival arrivals = true ↔ last (operations_signals epoch arrivals) = Some lost).
Proof.
  intros Hr0 Hin Hr.
  assert (1 ≤ rt_max_attempts (sg_reconnect_policy runtime_stream_config) ≤ U32_MAX) as Hmax
    by (vm_compute; split; discriminate).
  destruct (stream_losses_are_reported _ _ _ connection_id Hmax _ _ _ Hr0 Hin Hr) as (Hsep & _ & _).
  apply stream_start_Ok in Hr0 as ->.
  pose proof (steps_supervised _ _ _ _ Hmax _ _ _ (supervised_start _ _ _ _ Hmax) Hr) as [_ Hstop Hend _].
  split_and!.
  - intros l1 a l2 b l3 Heq. destruct (Hsep _ _ _ _ _ Heq) as [error He].
    eexists. by apply order_signals_fault.
  - intros Hp Ha Hs. rewrite Hp in Hend. destruct (Hend Ha) as (l & event & Heq & Ht & _).
    rewrite Heq in Hstop |- *. unfold order_signals. rewrite omap_app. simpl.
    destruct event as [| | |error|]; try done.
    + simpl. rewrite last_snoc. eauto.
    + rewrite Hstop in Hs; [done|]. set_solver.
  - apply order_signals_own.
  - intros arrivals. apply capital_last.
  - intros arrivals. apply capital_last.
  - intros arrivals. apply capital_last.
Qed.

Module RuntimeStreamSample.
Definition evidence : ExecutionStreamConnectionEvidence := {|
  cv_kind := OrderStateKind; cv_account_count := 1; cv_ping_delay_ms := 5000;
  cv_request_id := None; cv_tracking_id := None |}.

Definition final : Run := {|
  ru_phase := Returned; ru_failed_attempts := 2; ru_channels := Channels_new;
  ru_events := [Connected evidence;
                Evidence (StreamSubscription 1 (Some "t") (Some "s") StreamSample.accounts None);
                Fault StaleStream; Reconnecting 1 (delay_for RetryPolicy_default 1 7); Connected evidence;
                Fault WrongWireStream] |}.
End RuntimeStreamSample.

Lemma stream_losses_reach_runtime_witness :
  ∃ reason, last (order_signals "2000" 1 (ru_events RuntimeStreamSample.final)) =
            Some (StreamGap Stream.OrderState reason).
Proof.
  refine (proj1 (proj2 (stream_losses_reach_runtime "2000" 1 7 StreamSample.inputs Run_start
    RuntimeStreamSample.final ltac:(reflexivity) _ ltac:(vm_compute; reflexivity)))
    eq_refl eq_refl eq_refl).
  repeat constructor; discriminate.
Defined.
