(* ===== verification/TInvestOperationsStream.v ===== *)
(** * The supervised operations stream: [crates/vox-tinvest/src/operations_stream.rs]

    A supervisor that keeps a stream of operations open for a set of accounts.  An
    operation has no durable identity of its own; it is known by a key and every message
    under a key is passed on with its number.  The loop [run] is a state machine with a
    phase per suspension point, with the channels of [TInvestSupervisor]; the messages are
    those of [TInvestStreams].

    The theorem reads the events as a client does. *)
From stdpp Require Import gmap strings.
From S2P Require Import Prelude Money TInvestWire TInvestCanonical TInvestGrpc TInvestAccount TInvestSupervisor TInvestStreams.

Definition DEFAULT_OPERATIONS_PING_DELAY_MS : Z := 120000.
Definition MIN_OPERATIONS_PING_DELAY_MS : Z := 5000.
Definition MAX_OPERATIONS_PING_DELAY_MS : Z := 180000.

Record OperationsStreamConfig := {
  oc_event_capacity : Z;
  oc_stale_timeout : Z;
  oc_reconnect_policy : RetryPolicy;
  oc_ping_delay_ms : Z;
}.

Definition operations_config_default : OperationsStreamConfig := {|
  oc_event_capacity := 1024; oc_stale_timeout := 150 * 1000000000; oc_reconnect_policy := RetryPolicy_default;
  oc_ping_delay_ms := DEFAULT_OPERATIONS_PING_DELAY_MS |}.

Inductive OperationsStreamError :=
| ZeroCapacity
| ZeroStaleTimeout
| InvalidPingDelay
| NoAccounts
| InvalidAccounts
| ConnectFault (e : GrpcError)
| StreamFault (e : GrpcStreamError)
| StaleStream
| ClosedStream
| SubscriptionRejected (status : Z)
| EventBeforeSubscription
| UnexpectedAccountIdentity
| UnexpectedStreamIdentity
| MissingPayload
| CanonicalFault (e : AccountDataError)
| ReconnectExhausted.

Definition operations_config_validate (self : OperationsStreamConfig) : result OperationsStreamError () :=
  if oc_event_capacity self =? 0 then Err ZeroCapacity
  else if oc_stale_timeout self =? 0 then Err ZeroStaleTimeout
  else if negb ((MIN_OPERATIONS_PING_DELAY_MS <=? oc_ping_delay_ms self)
                && (oc_ping_delay_ms self <=? MAX_OPERATIONS_PING_DELAY_MS))
  then Err InvalidPingDelay
  else Ok tt.

Definition reconnectable (self : OperationsStreamError) : bool :=
  match self with
  | ConnectFault e => match ge_kind e with ProviderKind provider => transient_code (gp_code provider) | _ => false end
  | StreamFault (StreamProvider provider) => transient_code (gp_code provider)
  | StreamFault (NoActiveSubscriptions _) | StaleStream | ClosedStream => true
  | _ => false
  end.

Definition validate_accounts (accounts : list string) : result OperationsStreamError (list string) :=
  match accounts with
  | [] => Err NoAccounts
  | _ => if unique_accounts ∅ accounts then Ok accounts else Err InvalidAccounts
  end.

(** ** Operations *)

Record OperationUpdateKey := {
  uk_broker_account_id : option string;
  uk_parent_operation_id : option string;
  uk_instrument_uid : option string;
  uk_operation_type : Z;
  uk_date : option ProviderTimestamp;
}.

#[export] Instance operations_timestamp_eq_dec : EqDecision ProviderTimestamp.
Proof. solve_decision. Defined.
#[export] Instance OperationUpdateKey_eq_dec : EqDecision OperationUpdateKey.
Proof. solve_decision. Defined.
#[export] Instance ProviderTimestamp_countable : Countable ProviderTimestamp.
Proof.
  refine (inj_countable' (λ t, (pt_seconds t, pt_nanos t)) (λ p, {| pt_seconds := p.1; pt_nanos := p.2 |}) _). by intros [].
Defined.
#[export] Instance OperationUpdateKey_countable : Countable OperationUpdateKey.
Proof.
  refine (inj_countable'
    (λ k, (uk_broker_account_id k, uk_parent_operation_id k, uk_instrument_uid k, uk_operation_type k, uk_date k))
    (λ '(a, p, i, t, d), {| uk_broker_account_id := a; uk_parent_operation_id := p; uk_instrument_uid := i;
                            uk_operation_type := t; uk_date := d |}) _).
  by intros [].
Defined.

Record StreamOperation := {
  op_update_key : OperationUpdateKey;
  op_revision : Z;
  op_provider_operation_id : option string;
  op_name : option string;
  op_state : Z;
  op_figi : option string;
  op_instrument_type : option string;
  op_instrument_kind : Z;
  op_position_uid : option string;
  op_ticker : option string;
  op_class_code : option string;
  op_payment : option CanonicalMoney;
}.

Inductive OperationsStreamEvent :=
| Connected
| Reconnecting (attempt delay : Z)
| Subscribed (accounts : list string) (tracking_id : option string) (stream_id : string)
| OperationEvent (operation : StreamOperation)
| PingEvent (stream_id : option string) (at_time request_at : option ProviderTimestamp)
| Fault (e : OperationsStreamError)
| Stopped.

Notation Revisions := (gmap OperationUpdateKey Z).

(** What [process_response] has by reference. *)
Record Progress := { pr_subscribed : option string; pr_revisions : Revisions }.

Notation progress A := (st Progress OperationsStreamError A).

Definition canonical {A} (outcome : result AccountDataError A) : progress A := st_lift (map_err CanonicalFault outcome).

Definition process_subscription (expected : gset string) (value : OperationsSubscriptionResult)
  : progress OperationsStreamEvent := λ p,
  if negb (bool_decide (list_to_set (osb_accounts value) = expected))
     || negb (osb_subscription_status value =? as_i32 OperationsStatusSuccess)
     || is_blank (osb_stream_id value)
  then (p, Err (SubscriptionRejected (osb_subscription_status value)))
  else ({| pr_subscribed := Some (osb_stream_id value); pr_revisions := pr_revisions p |},
        Ok (Subscribed (osb_accounts value) (optional_text (osb_tracking_id value)) (osb_stream_id value))).

(** [revisions.entry(key).or_default()] and [saturating_add(1)]. *)
Definition next_revision (key : OperationUpdateKey) : progress Z := λ p,
  let revision := saturating_add U64 (default 0 (pr_revisions p !! key)) 1 in
  ({| pr_subscribed := pr_subscribed p; pr_revisions := <[key := revision]> (pr_revisions p) |}, Ok revision).

Definition process_operation (expected : gset string) (value : OperationData) : progress OperationsStreamEvent := λ p,
  if bool_decide (pr_subscribed p = None) then (p, Err EventBeforeSubscription)
  else if is_blank (od_broker_account_id value) || negb (bool_decide (od_broker_account_id value ∈ expected))
  then (p, Err UnexpectedAccountIdentity)
  else
    (let! date := canonical (optional_timestamp (od_date value)) in
     let key := {| uk_broker_account_id := optional_text (od_broker_account_id value);
                   uk_parent_operation_id := optional_text (od_parent_operation_id value);
                   uk_instrument_uid := optional_text (od_instrument_uid value);
                   uk_operation_type := od_type value; uk_date := date |} in
     let! revision := next_revision key in
     let! payment := canonical (optional_money (od_payment value)) in
     st_ret (OperationEvent {|
       op_update_key := key; op_revision := revision; op_provider_operation_id := optional_text (od_id value);
       op_name := optional_text (od_name value); op_state := od_state value; op_figi := optional_text (od_figi value);
       op_instrument_type := optional_text (od_instrument_type value); op_instrument_kind := od_instrument_kind value;
       op_position_uid := optional_text (od_position_uid value); op_ticker := optional_text (od_ticker value);
       op_class_code := optional_text (od_class_code value); op_payment := payment |})) p.

Definition process_ping (value : Ping) : progress OperationsStreamEvent := λ p,
  match pr_subscribed p with
  | None => (p, Err EventBeforeSubscription)
  | Some expected_stream_id =>
      if negb (bool_decide (pg_stream_id value = expected_stream_id)) then (p, Err UnexpectedStreamIdentity)
      else
        (let! at_time := canonical (optional_timestamp (pg_time value)) in
         let! request_at := canonical (optional_timestamp (pg_ping_request_time value)) in
         st_ret (PingEvent (Some (pg_stream_id value)) at_time request_at)) p
  end.

Definition process_response (expected : gset string) (response : OperationsStreamResponse)
  : progress OperationsStreamEvent :=
  match ops_payload response with
  | Some (OperationsPayload_Subscriptions value) => process_subscription expected value
  | Some (OperationsPayload_Operation value) => process_operation expected value
  | Some (OperationsPayload_Ping value) => process_ping value
  | None => st_fail MissingPayload
  end.

(** ** The loop *)

Inductive Phase := AtTop | Delaying | Connecting | Streaming (subscribed : option string) | Returned.

Record OperationsRun := {
  or_phase : Phase;
  or_failed : Z;
  or_revisions : Revisions;
  or_channels : Channels;
  or_events : list OperationsStreamEvent;
}.

Definition operations_start : OperationsRun := {|
  or_phase := AtTop; or_failed := 0; or_revisions := ∅; or_channels := Channels_new; or_events := [] |}.

Definition go (p : Phase) (r : OperationsRun) : OperationsRun := {|
  or_phase := p; or_failed := or_failed r; or_revisions := or_revisions r; or_channels := or_channels r; or_events := or_events r |}.
Definition set_failed (n : Z) (r : OperationsRun) : OperationsRun := {|
  or_phase := or_phase r; or_failed := n; or_revisions := or_revisions r; or_channels := or_channels r; or_events := or_events r |}.
Definition set_revisions (m : Revisions) (r : OperationsRun) : OperationsRun := {|
  or_phase := or_phase r; or_failed := or_failed r; or_revisions := m; or_channels := or_channels r; or_events := or_events r |}.
Definition set_channels (c : Channels) (r : OperationsRun) : OperationsRun := {|
  or_phase := or_phase r; or_failed := or_failed r; or_revisions := or_revisions r; or_channels := c; or_events := or_events r |}.

Notation alive r := (ch_alive (or_channels r)).

Definition send (event : OperationsStreamEvent) (r : OperationsRun) : OperationsRun :=
  if alive r then {|
    or_phase := or_phase r; or_failed := or_failed r; or_revisions := or_revisions r; or_channels := or_channels r;
    or_events := or_events r ++ [event] |}
  else r.

(** [if events.send(event).await.is_err() { return; }]. *)
Definition send_or_return (event : OperationsStreamEvent) (p : Phase) (r : OperationsRun) : OperationsRun :=
  if alive r then go p (send event r) else go Returned r.

Definition ending (event : OperationsStreamEvent) (r : OperationsRun) : OperationsRun := go Returned (send event r).

(** A failure: counted ([+= 1] of a [u32]), reported, and the loop goes on when it may. *)
Definition failing (error : OperationsStreamError) (r : OperationsRun) : OperationsRun :=
  go (if reconnectable error then AtTop else Returned) (send (Fault error) (set_failed ((or_failed r + 1) mod 4294967296) r)).

Inductive Input :=
| Resume
| DelayElapsed
| StopChanged
| ReconnectChanged
| ConnectorReturned (outcome : result OperationsStreamError ())
| MessageReturned (outcome : result OperationsStreamError (option OperationsStreamResponse))
| MessageTimeout
| CallStop
| CallForceReconnect
| DropHandle.

Section supervisor.
Context (config : OperationsStreamConfig) (accounts : list string) (connection_id : Z).
Notation policy := (oc_reconnect_policy config).

Definition operations_request : OperationsStreamRequest := {|
  osr_accounts := accounts; osr_ping_settings := Some {| pds_ping_delay_ms := Some (oc_ping_delay_ms config) |} |}.

Definition expected : gset string := list_to_set accounts.

Definition at_top (r : OperationsRun) : OperationsRun :=
  if ch_stop (or_channels r) then ending Stopped r
  else if 0 <? or_failed r then
    if rt_max_attempts policy <=? or_failed r then ending (Fault ReconnectExhausted) r
    else send_or_return (Reconnecting (or_failed r) (delay_for policy (or_failed r) connection_id)) Delaying r
  else go Connecting r.

Definition on_stop_changed (next : OperationsRun → OperationsRun) (r : OperationsRun) : OperationsRun :=
  match changed (ch_stop_seen (or_channels r)) (alive r) with
  | Waits => r
  | Changed =>
      let r := set_channels (see_stop (or_channels r)) r in
      if ch_stop (or_channels r) then ending Stopped r else next r
  | SenderGone => ending Stopped r
  end.

Definition on_reconnect_changed (r : OperationsRun) : OperationsRun :=
  match changed (ch_reconnect_seen (or_channels r)) (alive r) with
  | Waits => r
  | Changed => go AtTop (set_failed 1 (set_channels (see_reconnect (or_channels r)) r))
  | SenderGone => ending Stopped r
  end.

Definition is_subscribed (event : OperationsStreamEvent) : bool :=
  match event with Subscribed _ _ _ => true | _ => false end.

Definition on_response (subscribed : option string) (response : OperationsStreamResponse) (r : OperationsRun) : OperationsRun :=
  let '(p, outcome) := process_response expected response
    {| pr_subscribed := subscribed; pr_revisions := or_revisions r |} in
  let r := set_revisions (pr_revisions p) r in
  match outcome with
  | Ok event =>
      let r := if is_subscribed event then set_failed 0 r else r in
      send_or_return event (Streaming (pr_subscribed p)) r
  | Err error => failing error r
  end.

Definition on_message (subscribed : option string)
    (outcome : result OperationsStreamError (option OperationsStreamResponse)) (r : OperationsRun) : OperationsRun :=
  match outcome with
  | Err error => failing error r
  | Ok None => failing ClosedStream r
  | Ok (Some response) => on_response subscribed response r
  end.

(** What cannot happen in a phase changes nothing. *)
Definition operations_step (r : OperationsRun) (input : Input) : OperationsRun :=
  match input, or_phase r with
  | CallStop, _ => if alive r then set_channels (handle_stop (or_channels r)) r else r
  | CallForceReconnect, _ => if alive r then set_channels (handle_force_reconnect (or_channels r)) r else r
  | DropHandle, _ => set_channels (handle_drop (or_channels r)) r
  | Resume, AtTop => at_top r
  | DelayElapsed, Delaying => go Connecting r
  | StopChanged, Delaying => on_stop_changed (go Connecting) r
  | ConnectorReturned (Ok _), Connecting => send_or_return Connected (Streaming None) r
  | ConnectorReturned (Err error), Connecting => failing error r
  | StopChanged, Streaming _ => on_stop_changed (λ r, r) r
  | ReconnectChanged, Streaming _ => on_reconnect_changed r
  | MessageTimeout, Streaming _ => failing StaleStream r
  | MessageReturned outcome, Streaming subscribed => on_message subscribed outcome r
  | _, _ => r
  end.

Definition operations_run (inputs : list Input) : OperationsRun := fold_left operations_step inputs operations_start.
End supervisor.

(** [start]. *)
Definition operations_stream_start (config : OperationsStreamConfig) (accounts : list string)
  : result OperationsStreamError OperationsRun :=
  let? _ := operations_config_validate config in
  let? _ := validate_accounts accounts in
  Ok operations_start.

(** ** What a client reads *)

(** The stream that is open: the identity of the subscription since the last connection. *)
Definition current (events : list OperationsStreamEvent) : option string :=
  fold_left (λ now event, match event with
                          | Connected | Fault _ => None
                          | Subscribed _ _ stream_id => Some stream_id
                          | _ => now
                          end) events None.

Definition is_of (key : OperationUpdateKey) (event : OperationsStreamEvent) : bool :=
  match event with OperationEvent op => bool_decide (op_update_key op = key) | _ => false end.

(** How many operations under the key were passed on. *)
Definition occurrences (key : OperationUpdateKey) (events : list OperationsStreamEvent) : Z :=
  Z.of_nat (length (List.filter (is_of key) events)).

Definition terminal (event : OperationsStreamEvent) : bool :=
  match event with Stopped => true | Fault e => negb (reconnectable e) | _ => false end.

Section reading.
Context (config : OperationsStreamConfig) (accounts : list string) (connection_id : Z).
Notation policy := (oc_reconnect_policy config).
Notation expected := (expected accounts).

(** An event after the [earlier] ones. *)
Definition proper (earlier : list OperationsStreamEvent) (event : OperationsStreamEvent) : Prop :=
  match event with
  | Reconnecting attempt delay => 1 ≤ attempt < rt_max_attempts policy ∧ delay = delay_for policy attempt connection_id
  | Subscribed subscribed _ stream_id => (∀ a, a ∈ subscribed ↔ a ∈ accounts) ∧ is_blank stream_id = false
  | OperationEvent op =>
      is_Some (current earlier) ∧
      (∃ a, uk_broker_account_id (op_update_key op) = Some a ∧ a ∈ accounts) ∧
      op_revision op = Z.min (int_max U64) (occurrences (op_update_key op) earlier + 1)
  | PingEvent stream_id _ _ => is_Some stream_id ∧ stream_id = current earlier
  | _ => True
  end.

Definition all_proper (events : list OperationsStreamEvent) : Prop :=
  ∀ earlier event later, events = earlier ++ event :: later → proper earlier event.

Lemma all_proper_snoc events event : all_proper events → proper events event → all_proper (events ++ [event]).
Proof.
  intros Ha He l1 x l2 Heq. destruct l2 as [|y l2 _] using rev_ind.
  - apply app_inj_tail in Heq as [<- <-]. done.
  - rewrite app_comm_cons, app_assoc in Heq. apply app_inj_tail in Heq as [-> _]. by eapply Ha.
Qed.

Lemma current_snoc events event :
  current (events ++ [event]) =
  match event with Connected | Fault _ => None | Subscribed _ _ stream_id => Some stream_id | _ => current events end.
Proof. unfold current. rewrite fold_left_app. by destruct event. Qed.

Lemma occurrences_snoc key events event :
  occurrences key (events ++ [event]) = occurrences key events + (if is_of key event then 1 else 0).
Proof.
  unfold occurrences. rewrite List.filter_app, length_app. simpl. destruct (is_of key event); simpl; lia.
Qed.

Lemma occurrences_nonneg key events : 0 ≤ occurrences key events.
Proof. unfold occurrences. lia. Qed.

(** The counters are those of the events. *)
Definition counted (revisions : Revisions) (events : list OperationsStreamEvent) : Prop :=
  ∀ key, default 0 (revisions !! key) = Z.min (int_max U64) (occurrences key events).

Record sound (r : OperationsRun) : Prop := {
  sd_proper : all_proper (or_events r);
  sd_stop : Stopped ∈ or_events r → ch_stop (or_channels r) = true;
  sd_failed : 0 ≤ or_failed r;
}.

Definition quiet (r : OperationsRun) : Prop := Forall (λ e, terminal e = false) (or_events r).

Definition phase_ok (r : OperationsRun) : Prop :=
  match or_phase r with
  | Returned => alive r = true → ∃ l e, or_events r = l ++ [e] ∧ terminal e = true
  | Streaming subscribed =>
      quiet r ∧ (alive r = true → counted (or_revisions r) (or_events r) ∧ current (or_events r) = subscribed)
  | _ => quiet r ∧ (alive r = true → counted (or_revisions r) (or_events r))
  end.

Definition orderly (r : OperationsRun) : Prop := sound r ∧ phase_ok r.

(** Between the phases: nothing has ended and the counters are right. *)
Definition steady (r : OperationsRun) : Prop :=
  sound r ∧ quiet r ∧ (alive r = true → counted (or_revisions r) (or_events r)).

Lemma sound_send event r :
  sound r → proper (or_events r) event → (event = Stopped → alive r = true → ch_stop (or_channels r) = true) →
  sound (send event r).
Proof.
  intros [H1 H2 H3] Hp Hs. unfold send. destruct (alive r) eqn:Ha; [|done]. split; simpl; [by apply all_proper_snoc| |done].
  intros [Hin|Hin%list_elem_of_singleton]%elem_of_app; [by apply H2|]. by apply Hs.
Qed.

Lemma sound_go p r : sound r → sound (go p r).
Proof. by intros [H1 H2 H3]. Qed.

Lemma op_ending_orderly event r :
  sound r → terminal event = true → (event = Stopped → alive r = true → ch_stop (or_channels r) = true) →
  orderly (ending event r).
Proof.
  intros Hs He Hst. split; [apply sound_go, sound_send; try done; by destruct event|].
  unfold phase_ok, ending, send. simpl. destruct (alive r) eqn:Ha; simpl; [|by rewrite Ha]. eauto.
Qed.

Lemma counted_other revisions events event :
  counted revisions events → (∀ key, is_of key event = false) → counted revisions (events ++ [event]).
Proof. intros Hc He key. by rewrite occurrences_snoc, He, Z.add_0_r. Qed.

(** An event that neither ends the run nor is an operation. *)
Lemma steady_send event r :
  steady r → proper (or_events r) event → terminal event = false → (∀ key, is_of key event = false) → steady (send event r).
Proof.
  intros (Hs & Hq & Hc) Hp Ht Ho. split; [apply sound_send; [done|done|by intros ->]|].
  unfold quiet, send in *. destruct (alive r) eqn:Ha; simpl; [|by rewrite Ha].
  split; [apply Forall_app; split; [done|by apply Forall_singleton]|]. intros _. apply counted_other; auto.
Qed.

Lemma send_or_return_orderly event p r :
  (alive r = true → orderly (go p (send event r))) → sound r → orderly (send_or_return event p r).
Proof.
  intros Ho Hs. unfold send_or_return. destruct (alive r) eqn:Ha; [by apply Ho|].
  split; [by apply sound_go|]. unfold phase_ok. simpl. by rewrite Ha.
Qed.

Lemma failing_orderly error r :
  sound r → quiet r → (reconnectable error = true → alive r = true → counted (or_revisions r) (or_events r)) →
  orderly (failing error r).
Proof.
  intros Hs Hq Hc. unfold failing. set (r1 := set_failed _ r).
  assert (sound r1) as Hs1 by (destruct Hs as [H1 H2 H3]; split; [done|done|by apply Z.mod_pos_bound]).
  destruct (reconnectable error) eqn:Hr.
  - assert (steady r1) as Hst by (split; [done|split; [done|by apply Hc]]).
    destruct (steady_send (Fault error) r1 Hst) as (H1 & H2 & H3); [done|by simpl; rewrite Hr|done|].
    split; [by apply sound_go|done].
  - apply (op_ending_orderly (Fault error) r1); [done|by simpl; rewrite Hr|done].
Qed.

Lemma op_at_top_orderly r : steady r → orderly (at_top config connection_id r).
Proof.
  intros (Hs & Hq & Hc). unfold at_top. destruct (ch_stop _) eqn:Hst; [by apply op_ending_orderly|].
  destruct (Z.ltb_spec 0 (or_failed r)) as [Hpos|]; [|split; [by apply sound_go|done]].
  destruct (Z.leb_spec (rt_max_attempts policy) (or_failed r)) as [|Hlt]; [by apply op_ending_orderly|].
  apply send_or_return_orderly; [|done]. intros Ha.
  destruct (steady_send (Reconnecting (or_failed r) (delay_for policy (or_failed r) connection_id)) r) as (H1 & H2 & H3);
    [done|simpl; lia|done|done|]. split; [by apply sound_go|done].
Qed.

(** A response yields an event that is proper, or fails. *)
Lemma response_event subscribed response revisions p event events :
  process_response expected response {| pr_subscribed := subscribed; pr_revisions := revisions |} = (p, Ok event) →
  counted revisions events → current events = subscribed →
  proper events event ∧ terminal event = false ∧ counted (pr_revisions p) (events ++ [event]) ∧
  current (events ++ [event]) = pr_subscribed p.
Proof.
  unfold process_response. intros H Hc Hcur. destruct (ops_payload response) as [[value|value|value]|]; [| | |done].
  - unfold process_subscription in H. destruct (_ || _) eqn:Hb; [done|]. injection H as <- <-.
    apply orb_false_iff in Hb as [[Ha _]%orb_false_iff Hsid]. apply negb_false_iff, bool_decide_eq_true in Ha.
    split; [|split; [done|split; [by apply counted_other|by rewrite current_snoc]]]. split; [|done]. intros a.
    rewrite <- (elem_of_list_to_set (C:=gset string)), Ha. unfold TInvestOperationsStream.expected. apply elem_of_list_to_set.
  - unfold process_operation in H. simpl in H. destruct subscribed as [sid|]; [|done]. simpl in H.
    destruct (_ || _) eqn:Hb; [done|]. apply orb_false_iff in Hb as [Hblank Hin%negb_false_iff%bool_decide_eq_true].
    unfold canonical, st_lift, st_bind in H. destruct (optional_timestamp _) as [date|]; [|done]. simpl in H.
    destruct (optional_money _) as [payment|]; [|done]. simpl in H. injection H as <- <-.
    set (key := {| uk_broker_account_id := _ |}). simpl.
    assert (saturating_add U64 (default 0 (revisions !! key)) 1 = Z.min (int_max U64) (occurrences key events + 1)) as Hrev.
    { rewrite (Hc key). unfold saturating_add, saturate. pose proof (occurrences_nonneg key events). simpl. lia. }
    split; [|split; [done|split; [|by rewrite current_snoc]]].
    + split_and!; [by rewrite Hcur|eexists; split; [|by apply elem_of_list_to_set in Hin]|done].
      unfold optional_text. by rewrite Hblank.
    + intros k. rewrite occurrences_snoc. simpl. case_bool_decide as Hk.
      * subst k. by rewrite lookup_insert_eq.
      * rewrite lookup_insert_ne by done. rewrite Z.add_0_r. apply Hc.
  - unfold process_ping in H. simpl in H. destruct subscribed as [sid|]; [|done].
    case_bool_decide as Hsid; [|done]. simpl in H. unfold canonical, st_lift, st_bind in H.
    destruct (optional_timestamp (pg_time value)); [|done]. destruct (optional_timestamp (pg_ping_request_time value)); [|done].
    injection H as <- <-. split; [|split; [done|split; [by apply counted_other|by rewrite current_snoc]]].
    simpl. rewrite Hcur, Hsid. done.
Qed.

(** A failed response leaves the counters alone, or the failure is final. *)
Lemma response_failed subscribed response revisions p error :
  process_response expected response {| pr_subscribed := subscribed; pr_revisions := revisions |} = (p, Err error) →
  reconnectable error = false.
Proof.
  unfold process_response. destruct (ops_payload response) as [[v|v|v]|]; [| | |by intros [= _ <-]].
  - unfold process_subscription. by destruct (_ || _); intros [= _ <-].
  - unfold process_operation, canonical, st_lift, st_bind. case_bool_decide; [by intros [= _ <-]|].
    destruct (_ || _); [by intros [= _ <-]|]. destruct (optional_timestamp _); simpl; [|by intros [= _ <-]].
    by destruct (optional_money _); intros [= _ <-].
  - unfold process_ping, canonical, st_lift, st_bind. simpl. destruct subscribed; [|by intros [= _ <-]].
    destruct (negb _); [by intros [= _ <-]|]. destruct (optional_timestamp _); simpl; [|by intros [= _ <-]].
    by destruct (optional_timestamp _); intros [= _ <-].
Qed.

Lemma op_response_orderly subscribed response r :
  sound r → quiet r → (alive r = true → counted (or_revisions r) (or_events r) ∧ current (or_events r) = subscribed) →
  orderly (on_response accounts subscribed response r).
Proof.
  intros Hs Hq Hc. unfold on_response. destruct (process_response _ _ _) as [p [event|error]] eqn:Hp.
  - set (r1 := if is_subscribed event then _ else _).
    assert (or_events r1 = or_events r ∧ or_channels r1 = or_channels r ∧ or_revisions r1 = pr_revisions p ∧ 0 ≤ or_failed r1)
      as (He & Hch & Hrev & Hf) by (subst r1; destruct Hs; by destruct (is_subscribed event)).
    assert (sound r1) as Hs1 by (destruct Hs as [H1 H2 H3]; split; rewrite ?He, ?Hch; done).
    apply send_or_return_orderly; [|done]. intros Ha. rewrite Hch in Ha. destruct (Hc Ha) as [Hcnt Hcur].
    destruct (response_event _ _ _ _ _ _ Hp Hcnt Hcur) as (Hpr & Ht & Hcnt' & Hcur').
    split; [apply sound_go, sound_send; [done|by rewrite He|by intros ->]|].
    unfold phase_ok, quiet, send. rewrite Hch, Ha. simpl. rewrite He, Hrev.
    split; [apply Forall_app; split; [done|by apply Forall_singleton]|by intros _].
  - apply failing_orderly; [by destruct Hs|done|]. by rewrite (response_failed _ _ _ _ _ Hp).
Qed.

Lemma op_stop_changed_orderly next r :
  sound r → orderly r → (sound (set_channels (see_stop (or_channels r)) r) → orderly (next (set_channels (see_stop (or_channels r)) r))) →
  orderly (on_stop_changed next r).
Proof.
  intros Hs Ho Hn. assert (sound (set_channels (see_stop (or_channels r)) r)) as Hs' by (by destruct Hs).
  unfold on_stop_changed, changed. destruct (negb _); simpl.
  - destruct (ch_stop _) eqn:Hst; [by apply op_ending_orderly|by apply Hn].
  - destruct (ch_alive _) eqn:Ha; simpl; [done|]. apply op_ending_orderly; [done|done|]. by rewrite Ha.
Qed.

Lemma operations_step_orderly r input : orderly r → orderly (operations_step config accounts connection_id r input).
Proof.
  intros Ho. pose proof Ho as [Hs Hp]. unfold operations_step, phase_ok in *.
  assert (∀ c, (ch_stop (or_channels r) = true → ch_stop c = true) → (ch_alive c = true → alive r = true) →
    orderly (set_channels c r)) as Hch.
  { intros c Hc1 Hc2. split; [destruct Hs as [H1 H2 H3]; split; simpl; auto|]. unfold phase_ok. simpl.
    destruct (or_phase r); unfold quiet in *; simpl; naive_solver. }
  destruct input as [| | | |[[]|error]|outcome| | | |]; try (apply Hch; simpl; done);
    try (destruct (alive r) eqn:Ha; [by apply Hch|done]);
    destruct (or_phase r) as [| | |subscribed|] eqn:Hph; try done.
  - by apply op_at_top_orderly.
  - split; [by apply sound_go|done].
  - apply op_stop_changed_orderly; [done|done|]. intros H. split; [by apply sound_go|done].
  - apply op_stop_changed_orderly; [done|done|]. intros H. split; [done|]. unfold phase_ok. simpl. by rewrite Hph.
  - destruct Hp as [Hq Hc]. unfold on_reconnect_changed, changed. destruct (negb _); simpl.
    + split; [by destruct Hs|]. split; [done|]. intros Ha. by apply Hc.
    + destruct (ch_alive _) eqn:Ha; simpl; [done|]. apply op_ending_orderly; [done|done|]. by rewrite Ha.
  - apply send_or_return_orderly; [|done]. intros Ha. destruct Hp as [Hq Hc].
    destruct (steady_send Connected r) as (H1 & H2 & H3); [done|done|done|done|]. split; [by apply sound_go|].
    split; [done|]. unfold send in *. rewrite Ha in *. simpl in *. intros _. split; [by apply H3|by rewrite current_snoc].
  - destruct Hp as [Hq Hc]. by apply failing_orderly.
  - destruct Hp as [Hq Hc]. destruct outcome as [[response|]|error]; simpl; [by apply op_response_orderly| |];
      apply failing_orderly; try done; intros _ Ha; by apply Hc.
  - destruct Hp as [Hq Hc]. apply failing_orderly; try done. intros _ Ha. by apply Hc.
Qed.

Lemma operations_run_orderly inputs : orderly (operations_run config accounts connection_id inputs).
Proof.
  unfold operations_run. induction inputs as [|input inputs IH] using rev_ind.
  - split; [split; simpl; [|by intros ?%elem_of_nil|done]|split; [constructor|]]; [intros l1 e l2 H; by destruct l1|].
    intros _ key. unfold operations_start. simpl. by rewrite lookup_empty.
  - rewrite fold_left_app. by apply operations_step_orderly.
Qed.

(** In every run of the operations supervisor, whatever the network, the provider and
    the client do: operations are only of the accounts that were asked for and come only
    after the subscription of the connection was confirmed for exactly these accounts; the
    operations under one key are numbered one, two, three without a gap, across
    reconnections too; pings are those of the subscription; a reconnection is within the
    policy and after its delay.  The run ends with a failure that does not allow another
    attempt or, when it was asked to stop, with Stopped, and reports neither before. *)
Theorem operations_are_numbered inputs :
  let r := operations_run config accounts connection_id inputs in
  (∀ earlier event later, or_events r = earlier ++ event :: later → proper earlier event) ∧
  match or_phase r with
  | Returned => alive r = true → ∃ l e, or_events r = l ++ [e] ∧ terminal e = true
  | _ => Forall (λ e, terminal e = false) (or_events r)
  end ∧
  (Stopped ∈ or_events r → ch_stop (or_channels r) = true).
Proof.
  intros r. destruct (operations_run_orderly inputs) as [Hs Hp]. fold r in Hs, Hp.
  split; [apply (sd_proper _ Hs)|]. split; [|apply (sd_stop _ Hs)].
  unfold phase_ok in Hp. destruct (or_phase r); try done; by destruct Hp.
Qed.
End reading.

(** ** A run *)

Section sample.
Definition sample_subscription : OperationsStreamResponse := {|
  ops_payload := Some (OperationsPayload_Subscriptions {|
    osb_accounts := ["account-1"]; osb_subscription_status := as_i32 OperationsStatusSuccess; osb_tracking_id := "";
    osb_stream_id := "stream-1" |}) |}%string.
Definition sample_operation (account : string) : OperationsStreamResponse := {|
  ops_payload := Some (OperationsPayload_Operation {|
    od_broker_account_id := account; od_id := "id"; od_parent_operation_id := ""; od_name := ""; od_date := None;
    od_type := 1; od_state := 1; od_instrument_uid := "uid"; od_figi := ""; od_instrument_type := "";
    od_instrument_kind := 0; od_position_uid := ""; od_ticker := ""; od_class_code := ""; od_payment := None |}) |}%string.

Definition outline (event : OperationsStreamEvent) : OperationsStreamEvent + Z :=
  match event with OperationEvent op => inr (op_revision op) | event => inl event end.

(** The numbers go on after a reconnection; an operation of another account ends the run. *)
Example operations_sample :
  let hears response := MessageReturned (Ok (Some response)) in
  let delay := delay_for RetryPolicy_default 1 7 in
  outline <$> or_events (operations_run operations_config_default ["account-1"%string] 7
    [Resume; ConnectorReturned (Ok tt); hears sample_subscription; hears (sample_operation "account-1");
     hears (sample_operation "account-1"); MessageTimeout; Resume; DelayElapsed; ConnectorReturned (Ok tt);
     hears sample_subscription; hears (sample_operation "account-1"); hears (sample_operation "account-2")])
  = [inl Connected; inl (Subscribed ["account-1"%string] None "stream-1"); inr 1; inr 2; inl (Fault StaleStream);
     inl (Reconnecting 1 delay); inl Connected; inl (Subscribed ["account-1"%string] None "stream-1"); inr 3;
     inl (Fault UnexpectedAccountIdentity)].
Proof. vm_compute. reflexivity. Qed.
End sample.
