(* ===== verification/TInvestProvider.v ===== *)
(** * Account discovery: [crates/vox-tinvest/src/connection_provider.rs]

    [TInvestConnectionProvider] validates a credential by reading the accounts it
    reaches and reports them to the connection service.  It implements the
    [BrokerProviderPort] that onboarding, revalidation and rotation are verified
    against; its state is the network.  The theorem says that a discovery claims no
    more than the provider's answer proves. *)
From S2P Require Import Prelude ConnectionModel RiskStore ConnectionRepository SecretStore ConnectionService TInvestWire TInvestCanonical TInvestGrpc TInvestAccount.

(** ** Errors *)

Definition map_account_error (error : AccountReadError) : ProviderError :=
  match error with
  | ReadProvider grpc =>
      match ge_kind grpc with
      | ProviderKind provider =>
          match gp_code provider with
          | Unauthenticated =>
              ProviderError_new Kind.InvalidCredential "T-Invest rejected credential"
          | PermissionDenied =>
              ProviderError_new Kind.InsufficientPermission
                "T-Invest credential lacks account-discovery permission"
          | Unavailable | DeadlineExceeded | ResourceExhausted =>
              ProviderError_new Kind.ProviderUnavailable "T-Invest account discovery unavailable"
          | _ => ProviderError_new Kind.ProviderUnavailable "T-Invest account discovery failed"
          end
      | _ => ProviderError_new Kind.ProviderUnavailable "T-Invest account discovery transport failed"
      end
  | ReadCanonical _ | MissingResponseAccount _ | ResponseAccountMismatch _ _ =>
      ProviderError_new Kind.ProviderUnavailable "T-Invest returned invalid account discovery data"
  end.

Definition map_config_error (_ : GrpcConfigError) : ProviderError :=
  ProviderError_new Kind.WrongEnvironment "T-Invest credential environment routing failed".

(** ** Facts about an account *)

Definition credential_class (sandbox : bool) : CredentialClass :=
  if sandbox then Cred.Sandbox else Cred.Unknown.

(** [nanos / 1_000_000] of machine integers truncates towards zero. *)
Definition timestamp_millis (value : ProviderTimestamp) : option Z :=
  match checked I64 (pt_seconds value * 1000) with
  | Some seconds => checked I64 (seconds + Z.quot (pt_nanos value) 1000000)
  | None => None
  end.

Definition account_type (value : Z) : BrokerAccountType :=
  match value with
  | 0 => AccType.Unspecified
  | 1 => AccType.Brokerage
  | 2 => AccType.IndividualInvestment
  | 3 => AccType.InvestBox
  | 4 => AccType.MoneyMarketFund
  | 5 => AccType.Debit
  | 6 => AccType.Savings
  | 7 => AccType.DigitalFinancialAssets
  | raw => AccType.UnknownProviderValue raw
  end.

Definition account_status (value : Z) : BrokerAccountStatus :=
  match value with
  | 0 => AccStatus.Unspecified
  | 1 => AccStatus.New
  | 2 => AccStatus.Open
  | 3 => AccStatus.Closed
  | raw => AccStatus.UnknownProviderValue raw
  end.

Definition access_level (value : Z) : BrokerAccessLevel :=
  match value with
  | 0 => Access.Unspecified
  | 1 => Access.Full
  | 2 => Access.ReadOnly
  | 3 => Access.NoAccess
  | raw => Access.UnknownProviderValue raw
  end.

(** A [BTreeSet] of capabilities is the list of its elements in their order. *)
Definition reads_of_account : list ConnectionCapability :=
  [Cap.PortfolioRead; Cap.PositionsRead; Cap.OperationsRead; Cap.StreamHealth].

Definition provider_account (account : CanonicalAccount) (sandbox : bool) : ProviderAccountFact :=
  let accessible :=
    (ca_status account =? as_i32 AccountStatus_Open)
    && ((ca_access_level account =? as_i32 AccessLevel_FullAccess)
        || (ca_access_level account =? as_i32 AccessLevel_ReadOnly)) in
  let capabilities := if accessible then reads_of_account else [] in
  let capabilities := if accessible && sandbox then capabilities ++ [Cap.SandboxOrders] else capabilities in
  let capabilities :=
    if accessible && negb sandbox && (ca_access_level account =? as_i32 AccessLevel_FullAccess)
    then capabilities ++ [Cap.ProductionOrdersProviderAllowed] else capabilities in
  {| fa_provider_account_id := ca_account_id account; fa_display_name := ca_name account;
     fa_account_type := account_type (ca_account_type account);
     fa_status := account_status (ca_status account);
     fa_access_level := access_level (ca_access_level account);
     fa_opened_at_unix_ms := ca_opened_at account ≫= timestamp_millis;
     fa_closed_at_unix_ms := ca_closed_at account ≫= timestamp_millis;
     fa_accessible := accessible; fa_capabilities := capabilities |}.

(** [capabilities.contains(&capability)]. *)
Definition has_capability (capability : ConnectionCapability) (fact : ProviderAccountFact) : bool :=
  existsb (λ c, bool_decide (c = capability)) (fa_capabilities fact).

Definition discovered_capabilities (sandbox : bool) (facts : list ProviderAccountFact)
  : list ConnectionCapability :=
  let capabilities := Cap.AccountDiscovery :: reads_of_account in
  let capabilities :=
    if sandbox && existsb fa_accessible facts then capabilities ++ [Cap.SandboxOrders]
    else capabilities in
  if negb sandbox && existsb (has_capability Cap.ProductionOrdersProviderAllowed) facts
  then capabilities ++ [Cap.ProductionOrdersProviderAllowed] else capabilities.

(** ** Discovery *)

Section discovery.
Context {W : Type} `{NW : !Network W} `{GR : !Grpc} `{AA : !AccountApi W}.

Definition discovery_client (environment : BrokerEnvironment) (token : SecretToken)
  : result GrpcConfigError TInvestGrpcClient :=
  match environment with
  | Env.Production => client_production (ProductionCredential token)
  | Env.Sandbox => client_sandbox (SandboxCredential token)
  end.

Definition account_catalogue (sandbox : bool) (client : AccountReadClient)
  : st W AccountReadError AccountCatalogue :=
  if sandbox then sandbox_accounts client else accounts client None.

Definition validate_and_discover (provider : string) (environment : BrokerEnvironment)
    (credential : string) : st W ProviderError ProviderDiscovery :=
  if negb (bool_decide (provider = T_INVEST))
  then st_fail (ProviderError_new Kind.UnsupportedProvider "provider is not supported by T-Invest adapter")
  else if negb (valid_utf8 credential)
  then st_fail (ProviderError_new Kind.InvalidCredential "credential is not valid UTF-8")
  else
    let! token := st_lift (map_err
      (λ _, ProviderError_new Kind.InvalidCredential "credential is not a valid bearer token")
      (SecretToken_new credential)) in
    let sandbox := bool_decide (environment = Env.Sandbox) in
    let! client := st_lift (map_err map_config_error (discovery_client environment token)) in
    let! catalogue := st_map_err map_account_error
      (account_catalogue sandbox {| rc_grpc := client |}) in
    let facts := (λ account, provider_account account sandbox) <$> cat_accounts catalogue in
    st_ret {| di_credential_class := credential_class sandbox;
              di_credential_scope := Cred.NotConfirmed;
              di_connection_capabilities := discovered_capabilities sandbox facts;
              di_accounts := facts |}.

#[export] Instance TInvestConnectionProvider : BrokerProviderPort W := {
  bp_validate_and_discover := validate_and_discover;
}.

(** ** What a discovery claims *)

(** An account the provider reports as open, with the given level of access. *)
Definition open_with (level : AccessLevel) (account : CanonicalAccount) : Prop :=
  ca_status account = as_i32 AccountStatus_Open ∧ ca_access_level account = as_i32 level.

Definition readable (account : CanonicalAccount) : Prop :=
  open_with AccessLevel_FullAccess account ∨ open_with AccessLevel_ReadOnly account.

(** The fact reported for an account: its own identity, access only to a readable one,
    capabilities only with access, and an order capability only of the environment it
    was discovered in, in production only with full access. *)
Definition proved_by (environment : BrokerEnvironment) (account : CanonicalAccount)
    (fact : ProviderAccountFact) : Prop :=
  fa_provider_account_id fact = ca_account_id account ∧
  (fa_accessible fact = true ↔ readable account) ∧
  (fa_accessible fact = false → fa_capabilities fact = []) ∧
  (Cap.SandboxOrders ∈ fa_capabilities fact ↔ environment = Env.Sandbox ∧ readable account) ∧
  (Cap.ProductionOrdersProviderAllowed ∈ fa_capabilities fact ↔
   environment = Env.Production ∧ open_with AccessLevel_FullAccess account).

Lemma provider_account_proved environment account :
  proved_by environment account
    (provider_account account (bool_decide (environment = Env.Sandbox))).
Proof.
  unfold proved_by, provider_account, readable, open_with, reads_of_account. simpl.
  destruct (Z.eqb_spec (ca_status account) 2) as [Hs|Hs],
    (Z.eqb_spec (ca_access_level account) 1) as [Hf|Hf],
    (Z.eqb_spec (ca_access_level account) 2) as [Hr|Hr], environment; simpl;
    rewrite ?not_elem_of_nil, ?elem_of_cons; set_solver.
Qed.

Lemma existsb_elem {A} (f : A → bool) (l : list A) : existsb f l = true ↔ ∃ x, x ∈ l ∧ f x = true.
Proof. rewrite existsb_exists. by setoid_rewrite list_elem_of_In. Qed.

Lemma has_capability_spec capability fact :
  has_capability capability fact = true ↔ capability ∈ fa_capabilities fact.
Proof.
  unfold has_capability. rewrite existsb_elem. setoid_rewrite bool_decide_eq_true. naive_solver.
Qed.

Lemma sandbox_orders_discovered sandbox facts :
  Cap.SandboxOrders ∈ discovered_capabilities sandbox facts ↔
  sandbox = true ∧ ∃ fact, fact ∈ facts ∧ fa_accessible fact = true.
Proof.
  rewrite <- existsb_elem. unfold discovered_capabilities, reads_of_account.
  destruct sandbox, (existsb fa_accessible facts), (existsb (has_capability _) facts); simpl; set_solver.
Qed.

Lemma production_orders_discovered sandbox facts :
  Cap.ProductionOrdersProviderAllowed ∈ discovered_capabilities sandbox facts ↔
  sandbox = false ∧ ∃ fact, fact ∈ facts ∧ Cap.ProductionOrdersProviderAllowed ∈ fa_capabilities fact.
Proof.
  setoid_rewrite <- has_capability_spec. rewrite <- existsb_elem.
  unfold discovered_capabilities, reads_of_account.
  destruct sandbox, (existsb fa_accessible facts), (existsb (has_capability _) facts); simpl; set_solver.
Qed.

(** The connection has an order capability exactly when one of its accounts has it. *)
Lemma discovered_orders_spec environment (catalogue : list CanonicalAccount) capability :
  let sandbox := bool_decide (environment = Env.Sandbox) in
  let facts := (λ account, provider_account account sandbox) <$> catalogue in
  capability = Cap.SandboxOrders ∨ capability = Cap.ProductionOrdersProviderAllowed →
  capability ∈ discovered_capabilities sandbox facts ↔
  ∃ fact, fact ∈ facts ∧ capability ∈ fa_capabilities fact.
Proof.
  intros sandbox facts Hc.
  assert (∀ fact, fact ∈ facts → ∃ account, proved_by environment account fact) as Hfacts.
  { intros fact (account & -> & _)%list_elem_of_fmap. exists account. apply provider_account_proved. }
  assert (sandbox = true ↔ environment = Env.Sandbox) as Hs by apply bool_decide_eq_true.
  destruct Hc as [-> | ->]; [rewrite sandbox_orders_discovered|rewrite production_orders_discovered].
  - split.
    + intros (Hb & fact & Hin & Hacc). exists fact. split; [done|].
      destruct (Hfacts fact Hin) as (account & _ & Ha & _ & Ho & _). tauto.
    + intros (fact & Hin & Hcap). destruct (Hfacts fact Hin) as (account & _ & Ha & _ & Ho & _).
      split; [tauto|]. exists fact. tauto.
  - split; [naive_solver|]. intros (fact & Hin & Hcap).
    destruct (Hfacts fact Hin) as (account & _ & _ & _ & _ & Ho).
    split; [|by exists fact]. destruct environment; [done|]. apply Ho in Hcap. naive_solver.
Qed.

(** A credential is called invalid only when it cannot be a token or the provider said
    it is unauthenticated; nothing else the provider does counts against it. *)
Definition unauthenticated (error : AccountReadError) : Prop :=
  ∃ grpc provider, error = ReadProvider grpc ∧ ge_kind grpc = ProviderKind provider ∧
    gp_code provider = Unauthenticated.

Lemma map_account_error_invalid error :
  pe_kind (map_account_error error) = Kind.InvalidCredential → unauthenticated error.
Proof.
  unfold map_account_error, unauthenticated. destruct error as [grpc| | |]; try done.
  destruct (ge_kind grpc) as [| | | | | |provider] eqn:Hk; try done.
  destruct (gp_code provider) eqn:Hc; try done. intros _. by exists grpc, provider.
Qed.

Lemma discovery_client_routed environment token client :
  discovery_client environment token = Ok client →
  cli_token client = token ∧ cli_config client =
    match environment with Env.Production => production_config | Env.Sandbox => sandbox_config end.
Proof.
  unfold discovery_client, client_production, client_sandbox, TInvestGrpcClient_new.
  destruct environment; simpl; (destruct (validate_endpoint _); [|done]); simpl;
    (destruct (connect_lazy _ _); [|done]); simpl; by intros [= <-].
Qed.

(** A discovery claims no more than the provider's answer proves.  A credential is
    accepted only for this provider and as a well-formed token, which is sent to the
    endpoint of the environment it is onboarded for, and the accounts reported are those
    of the provider's answer, one for one.  An account counts as accessible exactly when
    it is open with full or read-only access; sandbox orders are allowed exactly on
    accessible sandbox accounts and production orders exactly on open production accounts
    with full access; the connection is granted an order capability exactly when one of
    its accounts is.  The class of the credential is claimed only for the sandbox and its
    scope never.  A credential is called invalid only when it is no token or the provider
    calls it unauthenticated. *)
Theorem discovery_claims_what_is_proved provider environment credential (w : W) :
  let sandbox := bool_decide (environment = Env.Sandbox) in
  match validate_and_discover provider environment credential w with
  | (w', Ok discovery) => ∃ client catalogue,
      provider = T_INVEST ∧ SecretToken_new credential = Ok credential ∧
      cli_token client = credential ∧
      cli_config client =
        match environment with Env.Production => production_config | Env.Sandbox => sandbox_config end ∧
      account_catalogue sandbox {| rc_grpc := client |} w = (w', Ok catalogue) ∧
      Forall2 (proved_by environment) (cat_accounts catalogue) (di_accounts discovery) ∧
      (∀ capability, capability = Cap.SandboxOrders ∨ capability = Cap.ProductionOrdersProviderAllowed →
         capability ∈ di_connection_capabilities discovery ↔
         ∃ fact, fact ∈ di_accounts discovery ∧ capability ∈ fa_capabilities fact) ∧
      di_credential_class discovery = (if sandbox then Cred.Sandbox else Cred.Unknown) ∧
      di_credential_scope discovery = Cred.NotConfirmed
  | (w', Err e) =>
      pe_kind e = Kind.InvalidCredential →
      valid_utf8 credential = false ∨ is_ok (SecretToken_new credential) = false ∨
      ∃ client error, account_catalogue sandbox {| rc_grpc := client |} w = (w', Err error) ∧
        cli_token client = credential ∧ unauthenticated error
  end.
Proof.
  intros sandbox. unfold validate_and_discover. fold sandbox.
  case_bool_decide as Hp; [|done]. simpl. destruct (valid_utf8 credential); [|by left]. simpl.
  unfold st_bind, st_lift, st_map_err, st_ret.
  assert (∀ token, SecretToken_new credential = Ok token → token = credential) as Htoken.
  { intros token. unfold SecretToken_new. repeat case_match; congruence. }
  destruct (SecretToken_new credential) as [token|] eqn:Ht; [|by right; left]. simpl.
  pose proof (Htoken _ eq_refl) as ->.
  destruct (discovery_client environment credential) as [client|] eqn:Hc; [|done]. simpl.
  apply discovery_client_routed in Hc as [Hct Hcc].
  destruct (account_catalogue _ _ w) as [w' [catalogue|error]] eqn:Hd; simpl.
  - exists client, catalogue. split_and!; try done.
    + apply Forall2_fmap_r, Forall_Forall2_diag, Forall_true. intros account. apply provider_account_proved.
    + intros capability Hcap. by apply discovered_orders_spec.
  - intros Hk%map_account_error_invalid. right. right. by exists client, error.
Qed.
End discovery.
