(* ===== verification/ProductionRuntime.v ===== *)
(** * The production runtimes: [crates/vox-core/src/production_runtime.rs] and the binding
      resolver of [composition.rs]

    The registry keeps one coordinator per broker account, opened by the first request that
    needs it, and serves the commands, receipts, risk controls and health of the public
    interface from them.  Its coordinators are the ones of [RuntimeCoordinator] with the
    production adapter of [ProductionRisk] as their risk port.

    The risk database is one file that all coordinators share: it is kept in the registry
    and lent to a coordinator while it runs.  A journal is a file named by the digest of the
    scope key, which survives its coordinator.  What opening finds outside (fresh ports,
    the owner identity, failures of the files) is an argument.  Requests are served one
    after the other; interleavings inside a coordinator are those of its own model. *)
From S2P Require Import Prelude Money Domain RiskModel RiskStore RuntimeModel RuntimePolicy RuntimePorts RuntimeJournal.
From S2P Require Import RuntimeReconcile RuntimeCoordinator TInvestWire TInvestCanonical ConnectionModel ApiMoney ApiContract ApiReads.
From S2P Require Import SecretStore ConnectionRepository ConnectionService ProductionRisk TInvestExecution.
Import ApiReq.

(** ** Texts *)

Definition runtime_state_debug (s : RuntimeState) : string :=
  match s with
  | Rt.Starting => "Starting"
  | Rt.Connecting => "Connecting"
  | Rt.Reconciling => "Reconciling"
  | Rt.Ready => "Ready"
  | Rt.Degraded => "Degraded"
  | Rt.Halted => "Halted"
  | Rt.Stopping => "Stopping"
  | Rt.Stopped => "Stopped"
  end.

Definition transition_error_text (e : TransitionError) : string :=
  "invalid runtime transition " +:+ runtime_state_debug (te_from e) +:+ " -> " +:+ runtime_state_debug (te_to e).

Definition reconciliation_error_text (e : ReconciliationError) : string :=
  match e with
  | RuntimeReconcile.Broker e => broker_port_text e
  | RuntimeReconcile.Store e => store_error_text e
  | SafetyFailure what => "reconciliation safety failure: " +:+ what
  end.

Definition risk_admission_text (e : RiskAdmissionError) : string :=
  match e with
  | Denied code message => "risk admission denied (" +:+ code +:+ "): " +:+ message
  | StaleAdmission what => "risk admission is stale: " +:+ what
  | UnavailableAdmission what => "risk admission unavailable: " +:+ what
  end.

Definition runtime_error_text (e : RuntimeError) : string :=
  match e with
  | Run.Store e => store_error_text e
  | Run.Broker e => broker_port_text e
  | Run.RiskAdmission e => risk_admission_text e
  | Run.Reconciliation e => reconciliation_error_text e
  | Run.Transition e => transition_error_text e
  | Run.Model e => model_error_text e
  | Run.ExecutionGateClosed => "runtime execution gate is closed"
  | Run.CommandQueueFull => "runtime command queue is full"
  | Run.UnknownAfterDispatch id => "mutation " +:+ id +:+ " remains UNKNOWN_AFTER_DISPATCH"
  | Run.UnknownTransport id source =>
      "mutation " +:+ id +:+ " transport outcome is unknown: " +:+ broker_port_text source
  | Run.Safety what => "runtime safety failure: " +:+ what
  end.

(** [format!("{value:?}")]. *)
Definition disposition_debug (d : ReconciliationDisposition) : string :=
  match d with
  | Disp.OrderAccepted => "OrderAccepted"
  | Disp.OrderActiveNew => "OrderActiveNew"
  | Disp.OrderActivePartial => "OrderActivePartial"
  | Disp.OrderFilled => "OrderFilled"
  | Disp.OrderCancelled => "OrderCancelled"
  | Disp.OrderRejected => "OrderRejected"
  | Disp.StopActive => "StopActive"
  | Disp.StopExecuted => "StopExecuted"
  | Disp.StopCanceled => "StopCanceled"
  | Disp.StopExpired => "StopExpired"
  end.

(** ** Views of risk *)

Definition risk_state (value : RiskStateDto) : RiskState :=
  match value with
  | RiskStDto.Normal => State.Normal
  | RiskStDto.Warning => State.Warning
  | RiskStDto.ReduceOnly => State.ReduceOnly
  | RiskStDto.Halted => State.Halted
  | RiskStDto.KillSwitch => State.KillSwitch
  end.

Definition risk_state_dto (value : RiskState) : RiskStateDto :=
  match value with
  | State.Normal => RiskStDto.Normal
  | State.Warning => RiskStDto.Warning
  | State.ReduceOnly => RiskStDto.ReduceOnly
  | State.Halted => RiskStDto.Halted
  | State.KillSwitch => RiskStDto.KillSwitch
  end.

Definition reservation_state_dto (value : ReservationState) : ReservationStateDto :=
  match value with
  | Resv.Active => RiskDto.Active
  | Resv.PartiallyConsumed => RiskDto.PartiallyConsumed
  | Resv.Consumed => RiskDto.Consumed
  | Resv.Released => RiskDto.Released
  | Resv.UnknownHeld => RiskDto.UnknownHeld
  | Resv.Orphaned => RiskDto.Orphaned
  end.

Definition risk_reason_code_dto (value : RiskReasonCode) : RiskReasonCodeDto :=
  match value with
  | Reason.Approved => ReasonDto.Approved
  | Reason.ResizedToProviderLimit => ReasonDto.ResizedToProviderLimit
  | Reason.ResizedToPolicyLimit => ReasonDto.ResizedToPolicyLimit
  | Reason.InvalidQuantity => ReasonDto.InvalidQuantity
  | Reason.InstrumentUnavailable => ReasonDto.InstrumentUnavailable
  | Reason.InstrumentNotTradable => ReasonDto.InstrumentNotTradable
  | Reason.PriceUnavailable => ReasonDto.PriceUnavailable
  | Reason.PositionLotMismatch => ReasonDto.PositionLotMismatch
  | Reason.CriticalInputMissing => ReasonDto.CriticalInputMissing
  | Reason.RuntimeNotReady => ReasonDto.RuntimeNotReady
  | Reason.ExecutionUnauthorized => ReasonDto.ExecutionUnauthorized
  | Reason.AuthorizationRevisionChanged => ReasonDto.AuthorizationRevisionChanged
  | Reason.PolicyRevisionChanged => ReasonDto.PolicyRevisionChanged
  | Reason.ReconciliationRevisionChanged => ReasonDto.ReconciliationRevisionChanged
  | Reason.PositionRevisionChanged => ReasonDto.PositionRevisionChanged
  | Reason.OrderRevisionChanged => ReasonDto.OrderRevisionChanged
  | Reason.InstrumentConstraintRevisionChanged => ReasonDto.InstrumentConstraintRevisionChanged
  | Reason.MarketDataMissing => ReasonDto.MarketDataMissing
  | Reason.MarketDataStale => ReasonDto.MarketDataStale
  | Reason.UnknownMutationConflict => ReasonDto.UnknownMutationConflict
  | Reason.ReduceOnly => ReasonDto.ReduceOnly
  | Reason.Halted => ReasonDto.Halted
  | Reason.MarginNotAllowed => ReasonDto.MarginNotAllowed
  | Reason.MarginConfirmationRequired => ReasonDto.MarginConfirmationRequired
  | Reason.MarginUtilizationExceeded => ReasonDto.MarginUtilizationExceeded
  | Reason.ProviderLimitUnavailable => ReasonDto.ProviderLimitUnavailable
  | Reason.ProviderLimitExceeded => ReasonDto.ProviderLimitExceeded
  | Reason.MaxSingleOrderExceeded => ReasonDto.MaxSingleOrderExceeded
  | Reason.MaxPositionExceeded => ReasonDto.MaxPositionExceeded
  | Reason.MaxGrossExposureExceeded => ReasonDto.MaxGrossExposureExceeded
  | Reason.MaxNetExposureExceeded => ReasonDto.MaxNetExposureExceeded
  | Reason.MaxInstrumentExposureExceeded => ReasonDto.MaxInstrumentExposureExceeded
  | Reason.DailyLossExceeded => ReasonDto.DailyLossExceeded
  | Reason.ProtectionRequired => ReasonDto.ProtectionRequired
  | Reason.KillSwitchActive => ReasonDto.KillSwitchActive
  | Reason.PersistenceFailure => ReasonDto.PersistenceFailure
  end.

Definition risk_decision_dto (value : RiskDecision) : RiskDecisionDto := {|
  rdd_decision_id := rd_decision_id value; rdd_policy_revision := rd_policy_revision value;
  rdd_action := match rd_action value with
                | Action.DirectionalOrder => RiskDto.DirectionalOrder
                | Action.ReplaceDirectionalOrder => RiskDto.ReplaceDirectionalOrder
                | Action.CancelOrder => RiskDto.CancelOrder
                | Action.ProtectionMaintenance => RiskDto.ProtectionMaintenance
                | Action.CancelProtection => RiskDto.CancelProtection
                end;
  rdd_requested_delta_lots := rd_requested_delta_lots value;
  rdd_approved_delta_lots := rd_approved_delta_lots value;
  rdd_outcome := match rd_outcome value with
                 | Outcome.Approve => RiskDto.Approve
                 | Outcome.Resize => RiskDto.Resize
                 | Outcome.Reject => RiskDto.Reject
                 | Outcome.ReduceOnly => RiskDto.ReduceOnly
                 | Outcome.Halt => RiskDto.Halt
                 end;
  rdd_reasons := (λ r, {| rrd_code := risk_reason_code_dto (rr_code r); rrd_message := rr_message r |})
                 <$> rd_reasons value;
  rdd_reservation_id := rd_reservation_id value;
  rdd_validity := let v := rd_validity value in {|
    rvd_runtime_epoch := vc_runtime_epoch v; rvd_reconciliation_revision := vc_reconciliation_revision v;
    rvd_position_revision := vc_position_revision v; rvd_order_revision := vc_order_revision v;
    rvd_market_data_as_of_unix_ms := vc_market_data_as_of_unix_ms v;
    rvd_instrument_constraints_revision := vc_instrument_constraints_revision v;
    rvd_policy_revision := vc_policy_revision v;
    rvd_execution_authorization_revision := vc_execution_authorization_revision v |} |}.

Definition domain_environment (value : ApiEnvironment) : BrokerEnvironment :=
  match value with ApiEnv.Sandbox => Env.Sandbox | ApiEnv.Production => Env.Production end.

(** ** Errors *)

Section errors.
Context `{CO : !Correlation}.

Definition field_invalid (field message : string) : ApiError :=
  ApiError_validation "execution request is invalid" [{| fe_field := field; fe_message := message |}].

Definition permission_error : ApiError :=
  ApiError_new Cat.Permission "EXECUTION_NOT_AUTHORIZED"
    "execution is not authorized for exact stored scope and purpose".

Definition binding_error (error : BindingError) : ApiError :=
  ApiError_new Cat.Conflict "ACCOUNT_BINDING_INVALID" (binding_error_text error).

Definition model_error (text : string) : ApiError := ApiError_new Cat.Validation "INVALID_SCOPE" text.

Definition repository_error : ApiError :=
  ApiError_new Cat.Transient "PLATFORM_PERSISTENCE_UNAVAILABLE" "platform persistence unavailable".

Definition store_error (error : StoreError) : ApiError :=
  ApiError_new Cat.Internal "RUNTIME_PERSISTENCE_FAILURE" (store_error_text error).

Definition risk_store_error `{ET : !ErrorText} (error : RiskStoreError) : ApiError :=
  ApiError_new Cat.Internal "RISK_PERSISTENCE_FAILURE" (risk_store_error_text error).

Definition risk_admission_error (error : RiskAdmissionError) : ApiError :=
  match error with
  | Denied code message => ApiError_new Cat.Conflict code message
  | StaleAdmission message => ApiError_new Cat.Stale "RISK_POLICY_REVISION_CHANGED" message
  | UnavailableAdmission message => ApiError_new Cat.Transient "RISK_ENGINE_UNAVAILABLE" message
  end.

Definition runtime_error (error : RuntimeError) : ApiError :=
  let category := match error with
                  | Run.ExecutionGateClosed | Run.Safety _ => Cat.Conflict
                  | Run.RiskAdmission (Denied _ _) => Cat.Conflict
                  | Run.RiskAdmission (StaleAdmission _) => Cat.Stale
                  | Run.RiskAdmission (UnavailableAdmission _) => Cat.Transient
                  | Run.Broker _ => Cat.Transient
                  | Run.CommandQueueFull => Cat.Transient
                  | _ => Cat.Internal
                  end in
  ApiError_new category "RUNTIME_EXECUTION_FAILED" (runtime_error_text error).

Definition validate_public_scope (scope : ExecutionScope) (expected_environment : ApiEnvironment)
  : result ApiError () :=
  if negb (bool_decide (xs_provider scope = TInvestDto))
     || negb (bool_decide (xs_environment scope = expected_environment))
     || negb (bool_decide (xs_trading_mode scope = LiveMode))
  then Err (ApiError_new Cat.Validation "EXECUTION_SCOPE_MISMATCH"
              "scope does not match configured provider/environment/live mode")
  else Ok tt.

(** ** Commands *)

(** A price of a request as an exact amount. *)
Definition exact_price (field : string) (price : Decimal) : result ApiError FixedPoint :=
  map_err (λ error, field_invalid field (decimal_error_text error)) (to_fixed_point price).

Definition optional_price (field : string) (price : option Decimal) : result ApiError (option FixedPoint) :=
  transpose (exact_price field <$> price).

Definition cancel_target (target : CancelTarget) : string * ProviderOrderIdentityKind :=
  match target with
  | CancelBrokerOrder broker_order_id => (broker_order_id, BrokerOrder)
  | CancelLogicalRequest logical_request_id => (logical_request_id, ClientRequest)
  end.

Definition trailing_distance (value : TrailingDistanceDto) (field : string) : result ApiError TrailingDistance :=
  let? amount := exact_price field (tdd_value value) in
  Ok {| td_value := amount; td_mode := TrailingDistanceMode_from (tdd_mode value) |}.

Definition exact_protection_leg (request : SubmitProtectionRequest) : result ApiError ProtectionLeg :=
  let plan := spr_plan request in
  let has_stop := is_some (ppd_stop_loss_trigger_price plan) || is_some (ppd_stop_loss_trailing plan) in
  let has_take_profit := is_some (ppd_take_profit_trigger_price plan) || is_some (ppd_take_profit_limit_price plan) in
  if bool_decide (has_stop = has_take_profit)
  then Err (field_invalid "plan" "exactly one protection leg must be submitted per durable mutation")
  else if has_stop then
    match ppd_stop_loss_trigger_price plan, ppd_stop_loss_trailing plan with
    | Some trigger, None =>
        let? trigger_price := exact_price "plan.stop_loss_trigger_price" trigger in
        Ok (StopLoss (FixedStop trigger_price None))
    | None, Some trailing =>
        let? distance := trailing_distance trailing "plan.stop_loss_trailing" in
        Ok (StopLoss (Trailing distance None None None))
    | _, _ => Err (field_invalid "plan" "fixed and trailing stop-loss forms are mutually exclusive")
    end
  else
    let? trigger_price := optional_price "plan.take_profit_trigger_price" (ppd_take_profit_trigger_price plan) in
    let? limit_price := optional_price "plan.take_profit_limit_price" (ppd_take_profit_limit_price plan) in
    Ok (TakeProfit {| tp_trigger_price := trigger_price; tp_limit_price := limit_price; tp_trailing := None |}).

(** The commands of the requests, for the broker account of the runtime. *)

Definition order_command (request : SubmitOrderRequest) (broker_account_id : string)
  : result ApiError RuntimeExecutionCommand :=
  let? price := optional_price "price" (sor_price request) in
  Ok (RegularOrder {|
    ro_account_id := broker_account_id; ro_instrument_id := sor_instrument_id request;
    ro_client_request_id := sor_client_request_id request; ro_quantity_lots := sor_quantity_lots request;
    ro_price := price; ro_price_convention := ExecutionPriceConvention_from (sor_price_convention request);
    ro_side := OrderSide_from (sor_side request);
    ro_order_type := RegularOrderType_from (sor_order_type request);
    ro_time_in_force := Some (TimeInForce_from (sor_time_in_force request));
    ro_confirm_margin_trade := sor_confirm_margin_trade request |}).

Definition cancel_command (request : CancelOrderRequest) (broker_account_id : string)
  : result ApiError RuntimeExecutionCommand :=
  let? target := cancel_target_of request in
  Ok (CancelOrder {| co_account_id := broker_account_id; co_order_id := (cancel_target target).1;
                     co_order_id_kind := Some (cancel_target target).2 |}).

Definition replace_command (request : ReplaceOrderRequest) (broker_account_id : string)
  : result ApiError RuntimeExecutionCommand :=
  let? target := replace_target_of request in
  let? price := ok_or (ror_price request) (field_invalid "price" "replace requires exact price") in
  let? price := exact_price "price" price in
  Ok (ReplaceOrder {|
    rp_account_id := broker_account_id; rp_existing_order_id := (cancel_target target).1;
    rp_existing_order_id_kind := Some (cancel_target target).2;
    rp_replacement_request_id := ror_client_request_id request; rp_quantity_lots := ror_quantity_lots request;
    rp_price := price; rp_price_convention := ExecutionPriceConvention_from (ror_price_convention request);
    rp_confirm_margin_trade := ror_confirm_margin_trade request |}).

Definition stop_command (request : SubmitStopOrderRequest) (broker_account_id : string)
  : result ApiError RuntimeExecutionCommand :=
  let? trigger := exact_price "trigger_price" (ssr_trigger_price request) in
  let? limit := optional_price "limit_price" (ssr_limit_price request) in
  let? reference_price := exact_price "reference_price" (ssr_reference_price request) in
  Ok (PostStopOrder {|
    pl_account_id := broker_account_id; pl_instrument_id := ssr_instrument_id request;
    pl_client_request_id := ssr_client_request_id request; pl_quantity_lots := ssr_quantity_lots request;
    pl_position_side := PositionSide_from (ssr_position_side request);
    pl_price_convention := ExecutionPriceConvention_from (ssr_price_convention request);
    pl_reference_price := reference_price; pl_expire_at_unix_seconds := None; pl_expire_at_nanos := None;
    pl_confirm_margin_trade := ssr_confirm_margin_trade request;
    pl_leg := StopLoss (FixedStop trigger limit) |}).

Definition cancel_stop_command (request : CancelOrderRequest) (broker_account_id : string)
  : result ApiError RuntimeExecutionCommand :=
  let? target := cancel_target_of request in
  match target with
  | CancelBrokerOrder broker_order_id =>
      Ok (CancelStopOrder {| cs_account_id := broker_account_id; cs_broker_stop_order_id := broker_order_id |})
  | CancelLogicalRequest _ =>
      Err (field_invalid "logical_request_id" "cancel stop requires broker stop identity")
  end.

Definition protection_command (request : SubmitProtectionRequest) (broker_account_id : string)
  : result ApiError RuntimeExecutionCommand :=
  let? leg := exact_protection_leg request in
  let? reference_price := exact_price "reference_price" (spr_reference_price request) in
  Ok (ProtectionLegC {|
    pl_account_id := broker_account_id; pl_instrument_id := spr_instrument_id request;
    pl_client_request_id := spr_client_request_id request; pl_quantity_lots := spr_quantity_lots request;
    pl_position_side := PositionSide_from (spr_position_side request);
    pl_price_convention := ExecutionPriceConvention_from (spr_price_convention request);
    pl_reference_price := reference_price; pl_expire_at_unix_seconds := None; pl_expire_at_nanos := None;
    pl_confirm_margin_trade := spr_confirm_margin_trade request; pl_leg := leg |}).

(** ** Capabilities *)

Definition remove_capability (set : CapabilitySet) (capability : Ability.Capability) (reason owner : string)
  : CapabilitySet := {|
  cps_provider := cps_provider set; cps_environment := cps_environment set;
  cps_account_id := cps_account_id set;
  cps_supported := List.filter (λ candidate, negb (bool_decide (candidate = capability))) (cps_supported set);
  cps_unavailable :=
    cps_unavailable set
    ++ (if existsb (λ candidate, bool_decide (uc_capability candidate = capability)) (cps_unavailable set)
        then [] else [{| uc_capability := capability; uc_reason := reason; uc_owner := owner |}]) |}.
End errors.

(** ** The registry *)

Section registry.
Context {B D X T C F E E' : Type}.
Context `{BR : !BrokerReadPort B} `{RS : !RuntimeStore D} `{XP : !ExecutionPort X} `{TP : !ExecutionStreamPort T}
  `{CP : !CredentialResolverPort C} `{AM : !Ambient E} `{SM : !Serde MutationEvidence}.
Context `{CF : !ClientFactory F} `{AM' : !Ambient E'} `{UF : !UuidFormat} `{ET : !ErrorText}
  `{SD : !Serde RiskDecision} `{SP : !Serde RiskPolicySet} `{CI : !Cipher} `{CO : !Correlation}.
Notation RtWorld := (@World B D X T C (Adapter F E') E).

Record RuntimeEntry := {
  en_scope : RuntimeScope;
  en_owner : string;
  en_world : RtWorld;
  en_public_scope : ExecutionScope;
}.

Record Registry := {
  reg_environment : ApiEnvironment;
  reg_directory : string;
  reg_entries : list (string * RuntimeEntry);
  reg_journals : list (string * D);
  reg_risk : RiskDb;
}.

(** What opening a runtime finds: whether the files open, a journal for a new file, the
    ports, the identity of the owner and the clocks. *)
Record Opening := {
  og_journal : result StoreError ();
  og_new_journal : D;
  og_risk_store : result RiskStoreError ();
  og_owner : string;
  og_broker : B;
  og_execution : X;
  og_streams : T;
  og_credentials : C;
  og_factory : F;
  og_ambient : E;
  og_risk_ambient : E';
}.

Definition with_world (w : RtWorld) (e : RuntimeEntry) : RuntimeEntry := {|
  en_scope := en_scope e; en_owner := en_owner e; en_world := w; en_public_scope := en_public_scope e |}.

(** A [BTreeMap] as the list of its entries in the order of the keys. *)
Fixpoint map_put {V} (key : string) (v : V) (l : list (string * V)) : list (string * V) :=
  match l with
  | [] => [(key, v)]
  | (k, x) :: l' => match String.compare key k with
                    | Eq => (key, v) :: l'
                    | Lt => (key, v) :: l
                    | Gt => (k, x) :: map_put key v l'
                    end
  end.
Definition map_get {V} (key : string) (l : list (string * V)) : option V :=
  snd <$> List.find (by_key fst key) l.

Definition put_entries (v : list (string * RuntimeEntry)) (g : Registry) : Registry := {|
  reg_environment := reg_environment g; reg_directory := reg_directory g; reg_entries := v;
  reg_journals := reg_journals g; reg_risk := reg_risk g |}.
Definition put_journal (path : string) (d : D) (g : Registry) : Registry := {|
  reg_environment := reg_environment g; reg_directory := reg_directory g; reg_entries := reg_entries g;
  reg_journals := map_put path d (reg_journals g); reg_risk := reg_risk g |}.
Definition put_risk_db (db : RiskDb) (g : Registry) : Registry := {|
  reg_environment := reg_environment g; reg_directory := reg_directory g; reg_entries := reg_entries g;
  reg_journals := reg_journals g; reg_risk := db |}.

Definition registry_new (runtime_directory : string) (environment : ApiEnvironment) (risk : RiskDb) : Registry := {|
  reg_environment := environment; reg_directory := runtime_directory; reg_entries := [];
  reg_journals := []; reg_risk := risk |}.

Definition runtime_path (g : Registry) (scope_key : string) : string :=
  reg_directory g +:+ "/" +:+ to_hex (sha256 scope_key) +:+ ".sqlite3".

(** The risk port of an entry: the adapter of its account and connection. *)
Definition entry_port (public_scope : ExecutionScope) : RiskAdmissionPort D (Adapter F E') :=
  ProductionRiskAdapter (xs_account_id public_scope) (xs_broker_connection_id public_scope).

(** The coordinator of an entry, on the shared risk database. *)
Definition lent (g : Registry) (e : RuntimeEntry) : RtWorld :=
  put_risk (put_store (reg_risk g) (w_risk (en_world e))) (en_world e).

(** What a request does with the entry it holds. *)
Definition with_entry {A} (opened : string * RuntimeEntry) (body : st RtWorld ApiError A)
  : st Registry ApiError A := λ g,
  let '(w, r) := body (lent g opened.2) in
  (put_risk_db (pa_risk_store (w_risk w))
     (put_entries (map_put opened.1 (with_world w opened.2) (reg_entries g)) g), r).

(** [ProductionRuntimeRegistry::entry]. *)
Context `{AR : !AccountBindingResolver}.

Definition PLACEHOLDER_CREDENTIAL : string := "credential:resolved-from-stored-binding".

Definition entry (og : Opening) (scope : ExecutionScope) : st Registry ApiError (string * RuntimeEntry) := λ g,
  match (let? _ := validate_public_scope scope (reg_environment g) in
         let? binding := map_err binding_error
           (resolve_binding (xs_account_id scope) (xs_broker_connection_id scope)) in
         let? credential := map_err (λ e, model_error (model_error_text e)) (OpaqueRef_new PLACEHOLDER_CREDENTIAL) in
         runtime_scope_from_binding scope binding credential) with
  | Err e => (g, Err e)
  | Ok runtime_scope =>
      let key := scope_key runtime_scope in
      match map_get key (reg_entries g) with
      | Some e => (g, Ok (key, e))
      | None =>
          match og_journal og with
          | Err e => (g, Err (store_error e))
          | Ok _ =>
              let path := runtime_path g key in
              let journal := match map_get path (reg_journals g) with Some d => d | None => og_new_journal og end in
              match og_risk_store og with
              | Err e => (put_journal path journal g, Err (risk_store_error e))
              | Ok _ =>
                  let world := {|
                    w_co := Coordinator_new runtime_scope; w_broker := og_broker og; w_store := journal;
                    w_execution := og_execution og; w_streams := og_streams og;
                    w_credentials := og_credentials og;
                    w_risk := {| pa_snapshot := None; pa_instrument_cache := ∅; pa_risk_store := reg_risk g;
                                 pa_factory := og_factory og; pa_ambient := og_risk_ambient og |};
                    w_ambient := og_ambient og |} in
                  let '(w, r) := (let _ := entry_port scope in
                                  start runtime_scope (og_owner og) ReconciliationConfig_default world) in
                  let g := put_risk_db (pa_risk_store (w_risk w)) (put_journal path (w_store w) g) in
                  match r with
                  | Err e => (g, Err (runtime_error e))
                  | Ok _ =>
                      let e := {| en_scope := runtime_scope; en_owner := og_owner og; en_world := w;
                                  en_public_scope := scope |} in
                      (put_entries (map_put key e (reg_entries g)) g, Ok (key, e))
                  end
              end
          end
      end
  end.

(** *** Receipts *)

Definition on_adapter {A} (m : st (Adapter F E') RiskAdmissionError A) : st RtWorld ApiError A := λ w,
  let '(k, r) := m (w_risk w) in (put_risk k w, map_err risk_admission_error r).

Definition mutation_receipt (d : D) (scope : ExecutionScope) (record : MutationRecord)
    (risk_decision : option RiskDecisionDto) : result ApiError MutationReceiptDto :=
  let? all := map_err store_error (js_all_identity_links d (mr_scope_key record)) in
  let links := List.find (λ l, bool_decide (il_logical_request_id l = mr_logical_request_id record)) all in
  let state := JournalStateDto_from (mr_state record) in
  Ok {| mrd_logical_request_id := mr_logical_request_id record; mrd_scope := scope;
        mrd_kind := MutationKindDto_from (mr_kind record); mrd_state := state;
        mrd_decision := decision_for state; mrd_risk_decision := risk_decision;
        mrd_correlation_id := mr_correlation_id record;
        mrd_broker_order_id := match links with
                               | Some l => match il_replacement_broker_order_id l with
                                           | Some id => Some id
                                           | None => il_broker_order_id l
                                           end
                               | None => None
                               end;
        mrd_broker_stop_order_id := match links with Some l => il_broker_stop_order_id l | None => None end;
        mrd_reconciliation_disposition := disposition_debug <$> mr_reconciliation_disposition record;
        mrd_runtime_epoch := mr_runtime_epoch record;
        mrd_created_at_unix_ms := mr_created_at_unix_ms record;
        mrd_updated_at_unix_ms := mr_updated_at_unix_ms record |}.

Definition receipt_from_store (e : RuntimeEntry) (logical_request_id : string) : st RtWorld ApiError MutationReceiptDto :=
  let! found := st_map_err store_error (query_store (λ d, js_mutation d (scope_key (en_scope e)) logical_request_id)) in
  let! record := st_lift (ok_or found (ApiError_new Cat.NotFound "MUTATION_NOT_FOUND" "mutation receipt not found")) in
  let! decision := on_adapter (adapter_decision_for_request (xs_account_id (en_public_scope e)) logical_request_id) in
  λ w, (w, mutation_receipt (w_store w) (en_public_scope e) record (risk_decision_dto <$> decision)).

(** *** Commands *)

(** The command, dispatched for its operator under a fresh correlation identity, and its
    receipt. *)
Definition command_receipt (e : RuntimeEntry) (command : string → result ApiError RuntimeExecutionCommand)
    (client_request_id correlation_id : string) : st RtWorld ApiError MutationReceiptDto :=
  let! command := st_lift (command (sc_broker_account_id (en_scope e))) in
  let _ := entry_port (en_public_scope e) in
  st_map_err runtime_error (dispatch_manual (en_scope e) command client_request_id correlation_id) ;;;
  receipt_from_store e client_request_id.

Definition execute (og : Opening) (scope : ExecutionScope)
    (command : string → result ApiError RuntimeExecutionCommand) (client_request_id correlation_id : string)
  : st Registry ApiError MutationReceiptDto :=
  let! opened := entry og scope in
  with_entry opened (command_receipt opened.2 command client_request_id correlation_id).

Definition submit_order (og : Opening) (uuid : string) (request : SubmitOrderRequest)
  : st Registry ApiError MutationReceiptDto :=
  if is_some (sor_protection request)
  then st_fail (field_invalid "protection"
    "submit protection through typed protection command after entry acknowledgement")
  else execute og (sor_scope request) (order_command request) (sor_client_request_id request) uuid.

Definition cancel_order (og : Opening) (uuid : string) (request : CancelOrderRequest)
  : st Registry ApiError MutationReceiptDto :=
  execute og (cor_scope request) (cancel_command request) (cor_client_request_id request) uuid.

Definition replace_order (og : Opening) (uuid : string) (request : ReplaceOrderRequest)
  : st Registry ApiError MutationReceiptDto :=
  execute og (ror_scope request) (replace_command request) (ror_client_request_id request) uuid.

Definition submit_stop_order (og : Opening) (uuid : string) (request : SubmitStopOrderRequest)
  : st Registry ApiError MutationReceiptDto :=
  execute og (ssr_scope request) (stop_command request) (ssr_client_request_id request) uuid.

Definition cancel_stop_order (og : Opening) (uuid : string) (request : CancelOrderRequest)
  : st Registry ApiError MutationReceiptDto :=
  execute og (cor_scope request) (cancel_stop_command request) (cor_client_request_id request) uuid.

Definition submit_protection (og : Opening) (uuid : string) (request : SubmitProtectionRequest)
  : st Registry ApiError MutationReceiptDto :=
  execute og (spr_scope request) (protection_command request) (spr_client_request_id request) uuid.

Definition api_receipt (og : Opening) (scope : ExecutionScope) (logical_request_id : string)
  : st Registry ApiError MutationReceiptDto :=
  let! opened := entry og scope in with_entry opened (receipt_from_store opened.2 logical_request_id).

(** A command of a strategy; [access] is the answer of the connection service for the
    connection, the broker account and automated execution. *)
Definition dispatch_automated (og : Opening) (access : string → string → result ServiceError ExecutionAccessGrant)
    (scope : ExecutionScope) (command : RuntimeExecutionCommand) (logical_request_id correlation_id : string)
  : st Registry ApiError MutationReceiptDto :=
  let! opened := entry og scope in
  let! connection_id := st_lift (map_err (λ e, model_error (Meta.text e))
    (ConnectionId_parse (xs_broker_connection_id scope))) in
  st_lift (map_err (λ _, permission_error) (access connection_id (sc_broker_account_id (en_scope opened.2)))) ;;;
  with_entry opened
    (let _ := entry_port (en_public_scope opened.2) in
     st_map_err runtime_error (dispatch (en_scope opened.2) command logical_request_id correlation_id) ;;;
     receipt_from_store opened.2 logical_request_id).

(** *** Life cycle *)

(** An entry that is shut down; its journal file stays. *)
Definition close_entry (opened : string * RuntimeEntry) (g : Registry) : Registry :=
  let '(w, _) := (let _ := entry_port (en_public_scope opened.2) in
                  shutdown (en_scope opened.2) (lent g opened.2)) in
  put_risk_db (pa_risk_store (w_risk w)) (put_journal (runtime_path g opened.1) (w_store w) g).

Definition invalidate_connection (connection_id : string) (g : Registry) : Registry :=
  let stale := λ kv : string * RuntimeEntry,
    bool_decide (xs_broker_connection_id (en_public_scope kv.2) = connection_id) in
  fold_left (λ g kv, close_entry kv g) (List.filter stale (reg_entries g))
    (put_entries (List.filter (λ kv, negb (stale kv)) (reg_entries g)) g).

Definition connection_changed (connection_id : string) (g : Registry) : Registry :=
  invalidate_connection connection_id g.

(** The entries stay registered. *)
Definition shutdown_entry (g : Registry) (opened : string * RuntimeEntry) : Registry :=
  let '(w, _) := (let _ := entry_port (en_public_scope opened.2) in
                  shutdown (en_scope opened.2) (lent g opened.2)) in
  put_risk_db (pa_risk_store (w_risk w))
    (put_entries (map_put opened.1 (with_world w opened.2) (reg_entries g)) g).

Definition registry_shutdown (g : Registry) : Registry := fold_left shutdown_entry (reg_entries g) g.

(** *** Health *)

(** Reading the health reads the clock and cannot fail. *)
Definition entry_health (w : RtWorld) : RtWorld * RuntimeHealth :=
  match health w with
  | (w', Ok h) => (w', h)
  | (w', Err _) => (w', co_health (w_co w))
  end.

Definition health_of_entry (opened : string * RuntimeEntry) (g : Registry) : Registry * RuntimeHealth :=
  let '(w, h) := entry_health (lent g opened.2) in
  (put_entries (map_put opened.1 (with_world w opened.2) (reg_entries g)) g, h).

Definition api_health (g : Registry) : Registry * RuntimeHealthDto :=
  match reg_entries g with
  | opened :: _ => let '(g, h) := health_of_entry opened g in (g, RuntimeHealthDto_from h)
  | [] => (g, process_health (process_starting TInvestDto (reg_environment g)))
  end.

Definition scoped_health (og : Opening) (scope : ExecutionScope) : st Registry ApiError RuntimeHealthDto :=
  let! opened := entry og scope in
  λ g, let '(g, h) := health_of_entry opened g in (g, Ok (RuntimeHealthDto_from h)).

(** *** Scopes and capabilities *)

(** The enabled bindings of the healthy connections of the environment. *)
Definition scopes (environment : ApiEnvironment) (repository : Repository) : result ApiError (list ExecutionScope) :=
  let t := re_tables repository in
  let connections := order_by (λ a b, bc_created_at_unix_ms a <=? bc_created_at_unix_ms b) (tb_connections t) in
  let usable := List.filter (λ c, bc_enabled c && bool_decide (ch_state (bc_health c) = HealthSt.Healthy)
                                  && bool_decide (domain_environment environment = bc_environment c)) connections in
  let rows := flat_map (λ c, (λ b, (c, b)) <$> List.filter bb_enabled (bindings_of (bc_id c) t)) usable in
  collect (λ cb, map_err (λ error, ApiError_new Cat.Internal "STORED_SCOPE_INVALID" (scope_error_text error))
                   (ExecutionScope_new TInvestDto environment (bc_id cb.1) (bb_vox_account_id cb.2) LiveMode)) rows.

Definition without_execution (reason : string) (set : CapabilitySet) : CapabilitySet :=
  remove_capability (remove_capability set Ability.OrderExecution reason "#17/#11")
    Ability.ProtectionExecution reason "#17/#11".

Definition capabilities (repository : Repository) (account_id : option string) : st Registry ApiError CapabilitySet := λ g,
  let set := without_backend_owners TInvestDto (reg_environment g) account_id {|
    at_runtime := true; at_accounts := true; at_execution := true; at_market_data := false;
    at_connections := true; at_risk := true |} in
  match scopes (reg_environment g) repository with
  | Err e => (g, Err e)
  | Ok found =>
      let scoped := match account_id with
                    | Some account => List.find (λ s, bool_decide (xs_account_id s = account)) found
                    | None => None
                    end in
      match scoped with
      | None =>
          let set := remove_capability set Ability.AccountReadSide
                       "no healthy explicit account binding exists" "#17" in
          let set := remove_capability set Ability.OrderExecution
                       "execution scope is not healthy and bound" "#17/#11" in
          (g, Ok (remove_capability set Ability.ProtectionExecution
                    "protection scope is not healthy and bound" "#17/#11"))
      | Some scope =>
          match (let? binding := map_err binding_error
                   (resolve_binding (xs_account_id scope) (xs_broker_connection_id scope)) in
                 let? connection_id := map_err (λ e, model_error (Meta.text e))
                   (ConnectionId_parse (xs_broker_connection_id scope)) in
                 Ok (find_authorization connection_id (abn_broker_account_id binding) (re_tables repository))) with
          | Err e => (g, Err e)
          | Ok authorization =>
              let opened := List.find (λ kv : string * RuntimeEntry,
                bool_decide (xs_account_id (en_public_scope kv.2) = xs_account_id scope)) (reg_entries g) in
              let '(g, runtime_ready) :=
                match opened with
                | None => (g, false)
                | Some opened =>
                    let '(g, h) := health_of_entry opened g in
                    (g, bool_decide (he_state h = Rt.Ready) && he_new_exposure_allowed h && he_execution_authorized h)
                end in
              let authorized := match authorization with
                                | Some a => negb (bool_decide (ea_mode a = Mode.Disabled))
                                | None => false
                                end in
              (g, Ok (if negb runtime_ready || negb authorized
                      then without_execution (if negb authorized then "Vox execution authorization is disabled"
                                              else "runtime is not READY for new exposure") set
                      else set))
          end
      end
  end.

(** *** Risk *)

Definition overflow_error (what : string) : ApiError :=
  ApiError_new Cat.Internal "RISK_ARITHMETIC_OVERFLOW" what.

(** [try_fold] of the absolute values in [i128]. *)
Definition total_abs (what : string) (values : list Z) : result ApiError Z :=
  try_fold (λ total value,
    let? remaining := ok_or (checked I128 (Z.abs value)) (overflow_error what) in
    ok_or (checked_add I128 total remaining) (overflow_error what)) 0 values.

Definition status_reason (state : RiskState) : RiskReasonDto :=
  match state with
  | State.Normal => {| rrd_code := ReasonDto.Approved; rrd_message := "normal risk state" |}
  | State.Warning => {| rrd_code := ReasonDto.Approved; rrd_message := "warning risk state" |}
  | State.ReduceOnly => {| rrd_code := ReasonDto.ReduceOnly; rrd_message := "new exposure is disabled" |}
  | State.Halted => {| rrd_code := ReasonDto.Halted; rrd_message := "risk state is halted" |}
  | State.KillSwitch => {| rrd_code := ReasonDto.KillSwitchActive; rrd_message := "risk kill switch is active" |}
  end.

(** [now_unix_ms] is the clock of the process, in nanoseconds since the epoch. *)
Definition now_unix_ms_api (unix_timestamp_nanos : Z) : result ApiError Z :=
  ok_or (checked I64 (Z.quot unix_timestamp_nanos 1000000))
    (ApiError_new Cat.Internal "SYSTEM_CLOCK_INVALID" "system clock is out of range").

Definition risk_status_dto (e : RuntimeEntry) (clock : Z) : st RtWorld ApiError RiskStatusDto :=
  let account := xs_account_id (en_public_scope e) in
  let! policy := on_adapter (adapter_policy account) in
  let! reservations := on_adapter (adapter_reservations account) in
  let! reserved_lots := st_lift (total_abs "risk reservation utilization overflow"
    (rv_remaining_delta_lots <$> reservations)) in
  let! reserved_notional := st_lift (total_abs "risk reservation notional overflow"
    (rv_reserved_notional_nanos <$> reservations)) in
  let! now := st_lift (now_unix_ms_api clock) in
  st_ret {| rst_scope := en_public_scope e; rst_state := risk_state_dto (po_state policy);
            rst_policy_revision := po_revision policy;
            rst_limits := [{| rlu_name := "active_reserved_lots"; rlu_used := int_to_string reserved_lots;
                              rlu_limit := int_to_string <$> po_max_position_abs_lots policy; rlu_unit := "LOTS" |};
                           {| rlu_name := "active_reserved_notional"; rlu_used := int_to_string reserved_notional;
                              rlu_limit := int_to_string <$> po_max_gross_exposure_nanos policy;
                              rlu_unit := "NANOS" |}];
            rst_reasons := [status_reason (po_state policy)]; rst_updated_at_unix_ms := now |}.

Definition risk_status (og : Opening) (clock : Z) (scope : ExecutionScope) : st Registry ApiError RiskStatusDto :=
  let! opened := entry og scope in with_entry opened (risk_status_dto opened.2 clock).

Definition api_active_reservations (og : Opening) (scope : ExecutionScope)
  : st Registry ApiError (list RiskReservationDto) :=
  let! opened := entry og scope in
  with_entry opened
    (let! reservations := on_adapter (adapter_reservations (xs_account_id (en_public_scope opened.2))) in
     st_ret ((λ r, {| rsd_reservation_id := rv_reservation_id r; rsd_scope := scope;
                      rsd_instrument_id := rv_instrument_id r; rsd_logical_request_id := rv_logical_request_id r;
                      rsd_remaining_delta_lots := rv_remaining_delta_lots r;
                      rsd_state := reservation_state_dto (rv_state r);
                      rsd_updated_at_unix_ms := rv_updated_at_unix_ms r |}) <$> reservations)).

Definition change_state (og : Opening) (clock : Z) (request : ChangeRiskStateRequest)
  : st Registry ApiError RiskStatusDto :=
  if is_blank (crs_reason request)
  then st_fail (field_invalid "reason" "risk state change requires an audit reason")
  else
    let! opened := entry og (crs_scope request) in
    with_entry opened
      (on_adapter (replace_state (xs_account_id (en_public_scope opened.2)) (crs_expected_policy_revision request)
         (risk_state (crs_state request)) (crs_reason request)) ;;;
       risk_status_dto opened.2 clock).
End registry.

(** ** The stored bindings: [StoredBindingResolver] of [composition.rs] *)

Definition stored_resolve `{UF : !UuidFormat} (repository : Repository) (account_id broker_connection_id : string)
  : result BindingError AccountBinding :=
  let? connection_id := map_err (λ _, Bind.UnknownAccount) (ConnectionId_parse broker_connection_id) in
  let? connection := ok_or (find_connection connection_id (re_tables repository)) Bind.UnknownAccount in
  let? binding := ok_or
    (List.find (λ b, bool_decide (bb_vox_account_id b = account_id) && bb_enabled b)
       (bindings_of connection_id (re_tables repository))) Bind.UnknownAccount in
  let? credential := map_err (λ _, Bind.Unavailable) (OpaqueRef_new (bc_credential_ref connection)) in
  new_with_credential_ref (bb_vox_account_id binding) (bc_id connection) (bb_provider_account_id binding) credential.

(** The environment of the process. *)
Definition broker_environment (environment : Domain.Environment) : option ApiEnvironment :=
  match environment with
  | Domain.Sandbox => Some ApiEnv.Sandbox
  | Domain.Live => Some ApiEnv.Production
  | Domain.Paper => None
  end.

(** ** Lemmas *)

Lemma string_compare_Eq a b : String.compare a b = Eq → a = b.
Proof. apply String.compare_eq_iff. Qed.

Lemma map_get_put {V} key k (v : V) l :
  map_get k (map_put key v l) = if bool_decide (k = key) then Some v else map_get k l.
Proof.
  unfold map_get. induction l as [|[k' x] l IH]; simpl.
  - unfold by_key. simpl. case_bool_decide as H1; case_bool_decide as H2; congruence || done.
  - destruct (String.compare key k') eqn:Hc.
    + apply string_compare_Eq in Hc as ->. simpl. unfold by_key. simpl.
      case_bool_decide as H1; case_bool_decide as H2; congruence || done.
    + simpl. unfold by_key at 1. simpl. case_bool_decide as H1; case_bool_decide as H2; congruence || done.
    + simpl. unfold by_key at 1 3. simpl. destruct (bool_decide (k' = k)) eqn:Hk.
      * apply bool_decide_eq_true in Hk as ->. case_bool_decide as H2; [|done]. subst.
        pose proof (String.compare_antisym key key) as He. rewrite Hc in He. done.
      * exact IH.
Qed.

Lemma elem_of_map_put {V} key (v : V) l x : x ∈ map_put key v l → x = (key, v) ∨ x ∈ l.
Proof.
  induction l as [|[k' y] l IH]; simpl; [set_solver|]. destruct (String.compare key k'); set_solver.
Qed.

Lemma map_get_elem {V} key (l : list (string * V)) v : map_get key l = Some v → (key, v) ∈ l.
Proof.
  unfold map_get. destruct (List.find _ l) as [[k x]|] eqn:Hf; [|done]. intros [= <-].
  apply find_elem in Hf as [Hin Hk]. apply bool_decide_eq_true in Hk. simpl in *. by subst.
Qed.

(** The key of a scope gives its broker account and its environment. *)
Lemma scope_key_account a b :
  scope_key a = scope_key b →
  sc_broker_account_id a = sc_broker_account_id b ∧ sc_environment a = sc_environment b.
Proof.
  unfold scope_key. destruct a as [[] [] a1 a2 a3], b as [[] [] b1 b2 b3]; cbn; intros Hk; try discriminate Hk;
    injection Hk as Hk; done.
Qed.

Section commands.
Context `{CO : !Correlation}.

Inductive ApiCommand :=
| ApiSubmitOrder (request : SubmitOrderRequest)
| ApiCancelOrder (request : CancelOrderRequest)
| ApiReplaceOrder (request : ReplaceOrderRequest)
| ApiSubmitStop (request : SubmitStopOrderRequest)
| ApiCancelStop (request : CancelOrderRequest)
| ApiSubmitProtection (request : SubmitProtectionRequest).

Definition api_scope (c : ApiCommand) : ExecutionScope :=
  match c with
  | ApiSubmitOrder r => sor_scope r
  | ApiCancelOrder r | ApiCancelStop r => cor_scope r
  | ApiReplaceOrder r => ror_scope r
  | ApiSubmitStop r => ssr_scope r
  | ApiSubmitProtection r => spr_scope r
  end.

Definition api_request_id (c : ApiCommand) : string :=
  match c with
  | ApiSubmitOrder r => sor_client_request_id r
  | ApiCancelOrder r | ApiCancelStop r => cor_client_request_id r
  | ApiReplaceOrder r => ror_client_request_id r
  | ApiSubmitStop r => ssr_client_request_id r
  | ApiSubmitProtection r => spr_client_request_id r
  end.

Definition api_build (c : ApiCommand) : string → result ApiError RuntimeExecutionCommand :=
  match c with
  | ApiSubmitOrder r => order_command r
  | ApiCancelOrder r => cancel_command r
  | ApiReplaceOrder r => replace_command r
  | ApiSubmitStop r => stop_command r
  | ApiCancelStop r => cancel_stop_command r
  | ApiSubmitProtection r => protection_command r
  end.

Lemma api_build_account c account command :
  api_build c account = Ok command →
  command_account_id command = account ∧
  (request_identity command = Some (api_request_id c) ∨ request_identity command = None).
Proof.
  destruct c as [r|r|r|r|r|r]; simpl;
    unfold order_command, cancel_command, replace_command, stop_command, cancel_stop_command, protection_command;
    intros H;
    repeat match type of H with
    | (match ?x with _ => _ end) = Ok _ => destruct x; try done
    end;
    injection H as <-; simpl; auto.
Qed.

(** The amount a price of a request writes. *)
Definition priced (price : option Decimal) (amount : option FixedPoint) : Prop :=
  match price, amount with
  | Some d, Some p => denotes (decimal_text d) (total_nanos p)
  | None, None => True
  | _, _ => False
  end.

Lemma exact_price_denotes field d p : exact_price field d = Ok p → denotes (decimal_text d) (total_nanos p).
Proof.
  unfold exact_price, to_fixed_point. destruct (parse_nanos (decimal_text d)) as [n|] eqn:Hn; [|done].
  intros [= <-]. by apply parse_nanos_spec.
Qed.

Lemma optional_price_denotes field d p : optional_price field d = Ok p → priced d p.
Proof.
  unfold optional_price. destruct d as [d|]; simpl; [|by intros [= <-]].
  destruct (exact_price field d) as [x|] eqn:Hx; [|done]. intros [= <-]. by eapply exact_price_denotes.
Qed.
End commands.

Section entries.
Context {B D X T C F E E' : Type}.
Context `{BR : !BrokerReadPort B} `{RS : !RuntimeStore D} `{XP : !ExecutionPort X} `{TP : !ExecutionStreamPort T}
  `{CP : !CredentialResolverPort C} `{AM : !Ambient E} `{SM : !Serde MutationEvidence}.
Context `{CF : !ClientFactory F} `{AM' : !Ambient E'} `{UF : !UuidFormat} `{ET : !ErrorText}
  `{SD : !Serde RiskDecision} `{SP : !Serde RiskPolicySet} `{CI : !Cipher} `{CO : !Correlation}
  `{AR : !AccountBindingResolver}.
Notation RtWorld := (@World B D X T C (Adapter F E') E).
Notation Registry := (@Registry B D X T C F E E').
Notation RuntimeEntry := (@RuntimeEntry B D X T C F E E').
Notation Opening := (@Opening B D X T C F E E').

Definition run_api (og : Opening) (uuid : string) (c : ApiCommand) : st Registry ApiError MutationReceiptDto :=
  match c with
  | ApiSubmitOrder r => submit_order og uuid r
  | ApiCancelOrder r => cancel_order og uuid r
  | ApiReplaceOrder r => replace_order og uuid r
  | ApiSubmitStop r => submit_stop_order og uuid r
  | ApiCancelStop r => cancel_stop_order og uuid r
  | ApiSubmitProtection r => submit_protection og uuid r
  end.

(** Every entry is registered under the key of its own scope. *)
Definition registry_ok (g : Registry) : Prop := ∀ key e, (key, e) ∈ reg_entries g → key = scope_key (en_scope e).

Lemma registry_ok_put g key e w :
  registry_ok g → key = scope_key (en_scope e) →
  registry_ok (put_risk_db (pa_risk_store (w_risk w)) (put_entries (map_put key (with_world w e) (reg_entries g)) g)).
Proof. intros Hg Hk k x [[= -> ->]|Hin]%elem_of_map_put; [done|by apply Hg]. Qed.

(** What [entry] gives: the runtime of the broker account the request stands for; the
    entries of other accounts are not touched. *)
Record entered (og : Opening) (scope : ExecutionScope) (g g' : Registry) (key : string) (e : RuntimeEntry)
    (binding : AccountBinding) (rs : RuntimeScope) : Prop := {
  et_stands : stands_for PLACEHOLDER_CREDENTIAL scope binding rs;
  et_key : key = scope_key rs;
  et_environment : xs_environment scope = reg_environment g;
  et_account : sc_broker_account_id (en_scope e) = abn_broker_account_id binding;
  et_runtime_environment : sc_environment (en_scope e) = RuntimeEnvironment_from_dto (xs_environment scope);
  et_entry : key = scope_key (en_scope e);
  et_ok : registry_ok g';
  et_registered : map_get key (reg_entries g') = Some e;
  et_others k : k ≠ key → map_get k (reg_entries g') = map_get k (reg_entries g);
}.

Lemma entry_spec og scope g g' r :
  registry_ok g → entry og scope g = (g', r) →
  match r with
  | Ok (key, e) => ∃ binding rs, entered og scope g g' key e binding rs
  | Err _ => reg_entries g' = reg_entries g
  end.
Proof.
  intros Hg. unfold entry. destruct (validate_public_scope scope (reg_environment g)) eqn:Hv; [|by intros [= <- <-]].
  destruct (resolve_binding _ _) as [binding|] eqn:Hb; [|by intros [= <- <-]].
  change (OpaqueRef_new PLACEHOLDER_CREDENTIAL) with (Ok PLACEHOLDER_CREDENTIAL : result ModelError OpaqueRef).
  cbn [map_err]. destruct (runtime_scope_from_binding _ _ _) as [rs|] eqn:Hr; [|by intros [= <- <-]].
  pose proof (runtime_scope_Ok _ _ _ _ Hr) as (Ha & Hc & _ & Hba & Henv & Hp & Hcr).
  assert (stands_for PLACEHOLDER_CREDENTIAL scope binding rs) as Hs by (by constructor).
  assert (xs_environment scope = reg_environment g) as Hxe.
  { unfold validate_public_scope in Hv. destruct (_ || _ || _) eqn:Hx; [done|].
    apply orb_false_iff in Hx as [[_ Hx%negb_false_iff%bool_decide_eq_true]%orb_false_iff _]. done. }
  destruct (map_get (scope_key rs) (reg_entries g)) as [e|] eqn:He.
  { intros [= <- <-]. exists binding, rs. pose proof (Hg _ _ (map_get_elem _ _ _ He)) as Hk.
    destruct (scope_key_account _ _ Hk) as [Hacc Hen]. constructor; try done; congruence. }
  destruct (og_journal og); [|by intros [= <- <-]]. destruct (og_risk_store og); [|by intros [= <- <-]].
  destruct (start _ _ _ _) as [w [report|err]]; [|by intros [= <- <-]].
  intros [= <- <-]. exists binding, rs. constructor; simpl; try done.
  - intros k x [[= -> ->]|Hin]%elem_of_map_put; [done|by apply Hg].
  - by rewrite map_get_put, bool_decide_eq_true_2.
  - intros k Hk. by rewrite map_get_put, bool_decide_eq_false_2.
Qed.

(** What a request does with the runtime it is served by: an invalid request does
    nothing; a valid one is dispatched for the operator to that runtime's account, the
    dispatch goes through the gates of the coordinator, and the answer is its error or
    the journalled record of the request. *)
Definition served (uuid : string) (c : ApiCommand) (e : RuntimeEntry) (w w' : RtWorld)
    (r : result ApiError MutationReceiptDto) : Prop :=
  let scope := en_scope e in
  let _ := entry_port (en_public_scope e) in
  match api_build c (sc_broker_account_id scope) with
  | Err error => w' = w ∧ r = Err error
  | Ok command =>
      ∃ purpose w1 d,
        purpose ≠ Purpose.ProductionAutomated ∧
        (held_back w w1 d ∨ sent scope purpose command (api_request_id c) uuid w w1 d) ∧
        match d with
        | Err error => w' = w1 ∧ r = Err (runtime_error error)
        | Ok _ =>
            nothing_sent w1 w' ∧
            ∀ receipt, r = Ok receipt →
              ∃ record, js_mutation (w_store w') (scope_key scope) (api_request_id c) = Ok (Some record) ∧
                mrd_logical_request_id receipt = mr_logical_request_id record ∧
                mrd_state receipt = JournalStateDto_from (mr_state record) ∧
                mrd_decision receipt = decision_for (JournalStateDto_from (mr_state record)) ∧
                mrd_correlation_id receipt = mr_correlation_id record ∧
                mrd_scope receipt = en_public_scope e
        end
  end.

Lemma on_adapter_keeps {A} (m : st (Adapter F E') RiskAdmissionError A) (w w' : RtWorld) r :
  on_adapter m w = (w', r) → nothing_sent w w' ∧ w_store w' = w_store w.
Proof. unfold on_adapter. destruct (m _) as [k x]. by intros [= <- <-]. Qed.

Lemma receipt_from_store_spec e id (w w' : RtWorld) r :
  receipt_from_store e id w = (w', r) →
  nothing_sent w w' ∧
  ∀ receipt, r = Ok receipt →
    ∃ record decision, js_mutation (w_store w') (scope_key (en_scope e)) id = Ok (Some record) ∧
      mutation_receipt (w_store w') (en_public_scope e) record decision = Ok receipt.
Proof.
  unfold receipt_from_store. intros [(er & H & ->)|(w1 & found & H1 & H)]%st_bind_cases.
  { unfold st_map_err, query_store in H. injection H as <- _. by split. }
  apply st_map_err_Ok in H1. unfold query_store in H1. injection H1 as <- Hq.
  apply st_bind_cases in H as [(er & [= <- _] & ->)|(w1 & record & [-> Hf]%st_lift_Ok & H)]; [by split|].
  apply st_bind_cases in H as [(er & Ha%on_adapter_keeps & ->)|(w1 & dec & Ha & H)]; [by split; [apply Ha|]|].
  apply on_adapter_keeps in Ha as [Hs Hd]. injection H as <- <-. split; [done|].
  intros receipt Hr. exists record, (risk_decision_dto <$> dec). rewrite Hd.
  destruct found as [x|]; [|done]. injection Hf as ->. split; [done|by rewrite Hd in Hr].
Qed.

Lemma mutation_receipt_Ok (d : D) scope record decision receipt :
  mutation_receipt d scope record decision = Ok receipt →
  mrd_logical_request_id receipt = mr_logical_request_id record ∧
  mrd_state receipt = JournalStateDto_from (mr_state record) ∧
  mrd_decision receipt = decision_for (JournalStateDto_from (mr_state record)) ∧
  mrd_correlation_id receipt = mr_correlation_id record ∧ mrd_scope receipt = scope.
Proof. unfold mutation_receipt. destruct (map_err _ _); [|done]. by intros [= <-]. Qed.

Lemma command_receipt_served uuid c e (w w' : RtWorld) r :
  command_receipt e (api_build c) (api_request_id c) uuid w = (w', r) → served uuid c e w w' r.
Proof.
  unfold command_receipt, served. destruct (api_build c _) as [command|error]; [|by intros [= <- <-]].
  intros H. unfold st_bind at 1, st_lift in H.
  apply st_bind_cases in H as [(er & H & ->)|(w1 & rc & H1 & H)].
  - unfold st_map_err in H. destruct (dispatch_manual _ _ _ _ _) as [w1 d] eqn:Hd.
    destruct d as [x|error]; [done|]. injection H as <- <-. unfold dispatch_manual in Hd. apply dispatch_cases in Hd.
    eexists _, w1, (Err error). split; [|by split]. by destruct (sc_environment _).
  - apply st_map_err_Ok in H1. unfold dispatch_manual in H1. apply dispatch_cases in H1. apply receipt_from_store_spec in H as [Hs Hr].
    eexists _, w1, (Ok rc). split; [|split; [exact H1|]]; [by destruct (sc_environment _)|]. split; [done|].
    intros receipt' [= ->]. destruct (Hr _ eq_refl) as (record & dec & Hj & Hm). exists record.
    split; [done|by apply mutation_receipt_Ok in Hm].
Qed.

Lemma execute_spec og scope build id uuid g g' r :
  registry_ok g → execute og scope build id uuid g = (g', r) →
  registry_ok g' ∧
  ((∃ error, r = Err error ∧ reg_entries g' = reg_entries g) ∨
   ∃ g1 key e binding rs w,
     entered og scope g g1 key e binding rs ∧
     command_receipt e build id uuid (lent g1 e) = (w, r) ∧
     map_get key (reg_entries g') = Some (with_world w e) ∧
     ∀ k, k ≠ key → map_get k (reg_entries g') = map_get k (reg_entries g)).
Proof.
  intros Hg. unfold execute. intros [(er & H & ->)|(g1 & [key e] & H1 & H)]%st_bind_cases.
  { pose proof (entry_spec _ _ _ _ _ Hg H) as He. cbn in He.
    split; [intros k x; rewrite He; apply Hg|left; eauto]. }
  pose proof (entry_spec _ _ _ _ _ Hg H1) as (binding & rs & He).
  unfold with_entry in H. destruct (command_receipt _ _ _ _ _) as [w x] eqn:Hc. injection H as <- <-.
  split; [apply registry_ok_put; [apply He|apply (et_entry _ _ _ _ _ _ _ _ He)]|]. right.
  exists g1, key, e, binding, rs, w. split_and!; try done; simpl.
  - by rewrite map_get_put, bool_decide_eq_true_2.
  - intros k Hk. rewrite map_get_put, bool_decide_eq_false_2 by done. apply He, Hk.
Qed.

(** An order with its protection attached is turned away; every other command is executed. *)
Lemma run_api_execute og uuid c g :
  (∃ error, run_api og uuid c g = (g, Err error)) ∨
  run_api og uuid c g = execute og (api_scope c) (api_build c) (api_request_id c) uuid g.
Proof.
  destruct c as [r|r|r|r|r|r]; simpl; [|by right..]. unfold submit_order.
  destruct (is_some _); [left|by right]. by eexists.
Qed.
End entries.

(** ** Properties *)

Section properties.
Context {B D X T C F E E' : Type}.
Context `{BR : !BrokerReadPort B} `{RS : !RuntimeStore D} `{XP : !ExecutionPort X} `{TP : !ExecutionStreamPort T}
  `{CP : !CredentialResolverPort C} `{AM : !Ambient E} `{SM : !Serde MutationEvidence}.
Context `{CF : !ClientFactory F} `{AM' : !Ambient E'} `{UF : !UuidFormat} `{ET : !ErrorText}
  `{SD : !Serde RiskDecision} `{SP : !Serde RiskPolicySet} `{CI : !Cipher} `{CO : !Correlation}
  `{AR : !AccountBindingResolver}.
Notation Registry := (@Registry B D X T C F E E').
Notation Opening := (@Opening B D X T C F E E').

(** A public command acts on the account it names and on no other.  A command of the
    interface is either answered with an error before any runtime is used, every runtime
    staying as it was; or it is served by the runtime of the broker account that the
    stored binding gives for the request's account and connection, in the environment of
    the request, and no other runtime changes.  There it is built for that account, with
    the request's identity; it goes through the gates of the coordinator or is held back,
    never as an automated command; the error of the dispatch is the error of the answer;
    and an answer with a receipt shows the journalled record of the request.  The registry
    keeps every runtime under the key of its own scope. *)
Theorem commands_stay_in_their_runtime (og : Opening) uuid c (g g' : Registry) r :
  registry_ok g → run_api og uuid c g = (g', r) →
  registry_ok g' ∧
  ((∃ error, r = Err error ∧ reg_entries g' = reg_entries g) ∨
   ∃ g1 key e binding rs w,
     entered og (api_scope c) g g1 key e binding rs ∧ served uuid c e (lent g1 e) w r ∧
     map_get key (reg_entries g') = Some (with_world w e) ∧
     (∀ k, k ≠ key → map_get k (reg_entries g') = map_get k (reg_entries g)) ∧
     ∀ command, api_build c (sc_broker_account_id (en_scope e)) = Ok command →
       command_account_id command = abn_broker_account_id binding ∧
       (request_identity command = Some (api_request_id c) ∨ request_identity command = None)).
Proof.
  intros Hg H. destruct (run_api_execute og uuid c g) as [[error He]|He]; rewrite He in H.
  { injection H as <- <-. split; [done|left; eauto]. }
  apply execute_spec in H as [Hok [H|(g1 & key & e & binding & rs & w & Hent & Hc & Hk & Ho)]]; [by split; auto| |done].
  split; [done|right]. exists g1, key, e, binding, rs, w. split_and!; try done; [by apply command_receipt_served|].
  intros command [Ha Hi]%api_build_account. split; [|done]. by rewrite Ha, (et_account _ _ _ _ _ _ _ _ Hent).
Qed.
End properties.

(** *** What the source does not settle *)

(** The time in force is always filled in, and the broker's request takes one only with a
    limit order: no market or best-price order of the interface can be sent. *)
Lemma market_orders_cannot_be_sent `{CO : !Correlation} `{UF : !UuidFormat} request account command :
  sor_order_type request ≠ Dto.Limit → order_command request account = Ok (RegularOrder command) →
  ∃ error, regular_order_request command = Err error.
Proof.
  unfold order_command. intros Ht. destruct (optional_price _ _) as [price|]; [|done]. intros [= <-].
  unfold regular_order_request. cbn [ro_order_type ro_time_in_force].
  repeat match goal with |- ∃ _, (match ?m with _ => _ end) = _ => destruct m as [|error] eqn:?; [|by exists error] end.
  rewrite bool_decide_eq_false_2 by (destruct (sor_order_type request); done). simpl. by eexists.
Qed.

(** An outcome in doubt is answered as an internal error, without a receipt. *)
Lemma unknown_outcome_is_internal_error `{CO : !Correlation} error :
  unknown_error error = true → ae_category (runtime_error error) = Cat.Internal.
Proof. by destruct error. Qed.

(** ** A registry of the production desk *)

Module RegistrySample.
Export ProductionSample.

#[export] Instance registry_digest : Cipher := {|
  seal _ _ _ plain := Some plain; unseal _ _ _ sealed := Some sealed; sha256 text := text |}.
#[export] Instance registry_correlation : Correlation := "correlation-9"%string.

(** Every account and connection stands for the same account of the broker. *)
#[export] Instance one_account : AccountBindingResolver := λ account connection,
  AccountBinding_new account connection "account-1".

Definition public_scope (connection account : string) : ExecutionScope := {|
  xs_provider := TInvestDto; xs_environment := ApiEnv.Sandbox; xs_broker_connection_id := connection;
  xs_account_id := account; xs_trading_mode := LiveMode |}.

Definition empty_registry : @Registry () RuntimeDb Desk () () () Z Z :=
  registry_new "/runtimes" ApiEnv.Sandbox desk_store.

Definition opening : @Opening () RuntimeDb Desk () () () Z Z := {|
  og_journal := Ok tt; og_new_journal := empty_journal; og_risk_store := Ok tt; og_owner := "owner-1";
  og_broker := tt; og_execution := {| dk_answer := acknowledge; dk_calls := 0 |}; og_streams := tt;
  og_credentials := tt; og_factory := tt; og_ambient := 1000; og_risk_ambient := 2000 |}.

Definition buy_three : ApiCommand := ApiSubmitOrder {|
  sor_scope := public_scope "connection:1" "account-1"; sor_instrument_id := "instrument-1";
  sor_client_request_id := "request-1"; sor_side := Dto.Buy; sor_order_type := Dto.Limit; sor_quantity_lots := 3;
  sor_price := Some {| decimal_text := "0.00000001" |}; sor_price_convention := Dto.SettlementCurrency;
  sor_time_in_force := Dto.Day; sor_confirm_margin_trade := false; sor_protection := None |}.

Definition bought : @Registry () RuntimeDb Desk () () () Z Z * result ApiError MutationReceiptDto :=
  Eval vm_compute in run_api opening "correlation-1" buy_three empty_registry.

Lemma bought_eq : run_api opening "correlation-1" buy_three empty_registry = (fst bought, snd bought).
Proof. vm_compute. reflexivity. Qed.

(** The order was sent once, and its receipt says so. *)
Example bought_once :
  (λ kv, dk_calls (w_execution (en_world kv.2))) <$> reg_entries (fst bought) = [1] ∧
  match snd bought with Ok r => mrd_state r = JournalDto.Acknowledged | Err _ => False end.
Proof. vm_compute. done. Qed.

(** A registry is keyed by the account of the broker, not by the connection: a second
    connection to the same account is served by the runtime of the first, with the first
    one's connection and canonical account for its risk and its credentials. *)
Example shared_account_shares_runtime :
  match entry opening (public_scope "connection:2" "account-2") (fst bought) with
  | (g, Ok (_, e)) => g = fst bought ∧ en_public_scope e = public_scope "connection:1" "account-1"
                      ∧ sc_connection_ref (en_scope e) = "connection:1"
  | (_, Err _) => False
  end.
Proof. vm_compute. done. Qed.
End RegistrySample.
Import RegistrySample.

Lemma commands_stay_in_their_runtime_witness :
  registry_ok empty_registry ∧ registry_ok (fst bought) ∧
  ∃ key e, map_get key (reg_entries (fst bought)) = Some e ∧ sc_broker_account_id (en_scope e) = "account-1"%string.
Proof.
  assert (registry_ok empty_registry) as Hg by (intros key e Hin; inversion Hin).
  destruct (commands_stay_in_their_runtime opening "correlation-1" buy_three empty_registry (fst bought) (snd bought)
    Hg bought_eq) as [Hok [(error & He & _)|(g1 & key & e & binding & rs & w & Hent & _ & Hk & _)]].
  - vm_compute in He. discriminate He.
  - split; [exact Hg|]. split; [exact Hok|]. exists key, (with_world w e). split; [exact Hk|].
    destruct Hent as [[Hb _ _ _ _ _ _] _ _ Ha _ _ _ _ _]. cbn [with_world en_scope]. rewrite Ha.
    vm_compute in Hb. injection Hb as <-. reflexivity.
Defined.
