(* ===== verification/MarketProjection.v ===== *)
(** * The market projection: [crates/vox-api/src/market_project.rs], [contract/market.rs] and
      [contract/instrument.rs]

    The projection keeps the last published quote, book, tape, candles, session and
    catalogue entry of every instrument, answers reads from them and tells the event bus
    what it accepted.  A candle has a life: it is open, then closed, then perhaps
    corrected, and its revision counts what a reader has to replace.  The theorem says that
    a bar never moves back, that equal revisions are equal bars and that a publication
    which is not announced left nothing new to read.

    The mutex makes every call one step; the clock is an argument. *)
From stdpp Require Import gmap strings.
From S2P Require Import Prelude Money Domain ApiMoney ApiContract.

(** ** Views *)

#[export] Instance Decimal_eq_dec : EqDecision Decimal.
Proof. solve_decision. Defined.

Record InstrumentIdentityDto := {
  iid_provider : string;
  iid_uid : string;
  iid_figi : option string;
  iid_ticker : string;
  iid_class_code : string;
}.

Definition InstrumentIdentityDto_from (value : InstrumentIdentity) : InstrumentIdentityDto := {|
  iid_provider := ii_provider value; iid_uid := ii_uid value; iid_figi := ii_figi value;
  iid_ticker := ii_ticker value; iid_class_code := ii_class_code value |}.

(** The separator is a middle dot, two bytes. *)
Definition middle_dot : string := String (Ascii.ascii_of_nat 194) (String (Ascii.ascii_of_nat 183) "").
Definition identity_display (self : InstrumentIdentityDto) : string :=
  iid_ticker self +:+ " " +:+ middle_dot +:+ " " +:+ iid_class_code self.

Record MarketFreshness := {
  mf_stream : StreamStateDto;
  mf_observed_at_unix_ms : Z;
  mf_age_ms : Z;
}.

Module TradeSt.
Inductive TradingStatusDto := Closed | Auction | Open | Suspended | Unknown.
#[global] Instance TradingStatusDto_eq_dec : EqDecision TradingStatusDto.
Proof. solve_decision. Defined.
End TradeSt.
Notation TradingStatusDto := TradeSt.TradingStatusDto.

Record SessionDto := {
  ses_instrument_uid : string;
  ses_status : TradingStatusDto;
  ses_limit_orders_available : option bool;
  ses_market_orders_available : option bool;
  ses_freshness : MarketFreshness;
}.

Record QuoteDto := {
  qd_instrument_uid : string;
  qd_last : option Decimal;
  qd_bid : option Decimal;
  qd_ask : option Decimal;
  qd_change_absolute : option Decimal;
  qd_change_percent : option Decimal;
  qd_day_high : option Decimal;
  qd_day_low : option Decimal;
  qd_volume_units : option Z;
  qd_freshness : MarketFreshness;
}.

Record DepthLevelDto := {
  dl_price : Decimal;
  dl_size_units : Z;
  dl_cumulative_units : Z;
}.

Record OrderBookDto := {
  obd_instrument_uid : string;
  obd_depth : Z;
  obd_asks : list DepthLevelDto;
  obd_bids : list DepthLevelDto;
  obd_spread_absolute : option Decimal;
  obd_freshness : MarketFreshness;
}.

Module TradeDir.
Inductive TradeDirectionDto := Buy | Sell | Unknown.
End TradeDir.
Notation TradeDirectionDto := TradeDir.TradeDirectionDto.

Record TradeTickDto := {
  tt_instrument_uid : string;
  tt_price : Decimal;
  tt_size_units : Z;
  tt_direction : TradeDirectionDto;
  tt_traded_at_unix_ms : Z;
  tt_own : bool;
}.

Module Bar.
Inductive CandleIntervalDto :=
| FiveSeconds | TenSeconds | ThirtySeconds | OneMinute | TwoMinutes | ThreeMinutes | FiveMinutes | TenMinutes
| FifteenMinutes | ThirtyMinutes | OneHour | TwoHours | FourHours | OneDay | OneWeek | OneMonth.
#[global] Instance CandleIntervalDto_eq_dec : EqDecision CandleIntervalDto.
Proof. solve_decision. Defined.

Inductive CandleStateDto := Open | Closed | Corrected.
#[global] Instance CandleStateDto_eq_dec : EqDecision CandleStateDto.
Proof. solve_decision. Defined.
End Bar.
Notation CandleIntervalDto := Bar.CandleIntervalDto.
Notation CandleStateDto := Bar.CandleStateDto.

Definition ALL_INTERVALS : list CandleIntervalDto := [
  Bar.FiveSeconds; Bar.TenSeconds; Bar.ThirtySeconds; Bar.OneMinute; Bar.TwoMinutes; Bar.ThreeMinutes;
  Bar.FiveMinutes; Bar.TenMinutes; Bar.FifteenMinutes; Bar.ThirtyMinutes; Bar.OneHour; Bar.TwoHours;
  Bar.FourHours; Bar.OneDay; Bar.OneWeek; Bar.OneMonth].

Definition historic_wire (self : CandleIntervalDto) : Z :=
  match self with
  | Bar.OneMinute => 1
  | Bar.FiveMinutes => 2
  | Bar.FifteenMinutes => 3
  | Bar.OneHour => 4
  | Bar.OneDay => 5
  | Bar.TwoMinutes => 6
  | Bar.ThreeMinutes => 7
  | Bar.TenMinutes => 8
  | Bar.ThirtyMinutes => 9
  | Bar.TwoHours => 10
  | Bar.FourHours => 11
  | Bar.OneWeek => 12
  | Bar.OneMonth => 13
  | Bar.FiveSeconds => 14
  | Bar.TenSeconds => 15
  | Bar.ThirtySeconds => 16
  end.

Definition from_historic_wire (interval : Z) : option CandleIntervalDto :=
  match interval with
  | 1 => Some Bar.OneMinute
  | 2 => Some Bar.FiveMinutes
  | 3 => Some Bar.FifteenMinutes
  | 4 => Some Bar.OneHour
  | 5 => Some Bar.OneDay
  | 6 => Some Bar.TwoMinutes
  | 7 => Some Bar.ThreeMinutes
  | 8 => Some Bar.TenMinutes
  | 9 => Some Bar.ThirtyMinutes
  | 10 => Some Bar.TwoHours
  | 11 => Some Bar.FourHours
  | 12 => Some Bar.OneWeek
  | 13 => Some Bar.OneMonth
  | 14 => Some Bar.FiveSeconds
  | 15 => Some Bar.TenSeconds
  | 16 => Some Bar.ThirtySeconds
  | _ => None
  end.

Definition from_canonical_interval (interval : Z) : option CandleIntervalDto := from_historic_wire interval.

Definition market_data_stream_supported (self : CandleIntervalDto) : bool :=
  match self with Bar.FiveSeconds | Bar.TenSeconds | Bar.ThirtySeconds => false | _ => true end.

Record CandleIntervalCapability := {
  cic_interval : CandleIntervalDto;
  cic_historical_supported : bool;
  cic_streaming_supported : bool;
}.

Definition interval_capability (self : CandleIntervalDto) : CandleIntervalCapability := {|
  cic_interval := self; cic_historical_supported := true;
  cic_streaming_supported := market_data_stream_supported self |}.

Lemma historic_wire_inverse i : from_historic_wire (historic_wire i) = Some i.
Proof. by destruct i. Qed.

#[export] Instance CandleIntervalDto_countable : Countable CandleIntervalDto.
Proof. exact (inj_countable historic_wire from_historic_wire historic_wire_inverse). Defined.

Record CandleDto := {
  cdl_instrument_uid : string;
  cdl_interval : CandleIntervalDto;
  cdl_opened_at_unix_ms : Z;
  cdl_open : Decimal;
  cdl_high : Decimal;
  cdl_low : Decimal;
  cdl_close : Decimal;
  cdl_volume_units : Z;
  cdl_state : CandleStateDto;
  cdl_revision : Z;
}.

Record CandlesDto := {
  cds_instrument_uid : string;
  cds_interval : CandleIntervalDto;
  cds_candles : list CandleDto;
  cds_freshness : MarketFreshness;
}.

Record InstrumentSummaryDto := {
  isd_identity : InstrumentIdentityDto;
  isd_name : string;
  isd_instrument_type : string;
  isd_lot_size : Z;
  isd_min_price_increment : Decimal;
  isd_currency : string;
  isd_tradable : bool;
}.

(** ** Facts as views *)

Section facts.
Context `{CO : !Correlation}.

Definition quote_from_last_price (instrument_uid : string) (last : FixedPoint) (observed_at_unix_ms : Z)
    (stream : StreamStateDto) : QuoteDto := {|
  qd_instrument_uid := instrument_uid; qd_last := Some (from_fixed_point last); qd_bid := None; qd_ask := None;
  qd_change_absolute := None; qd_change_percent := None; qd_day_high := None; qd_day_low := None;
  qd_volume_units := None;
  qd_freshness := {| mf_stream := stream; mf_observed_at_unix_ms := observed_at_unix_ms; mf_age_ms := 0 |} |}.

Fixpoint accumulate_from (cumulative : Z) (levels : list (FixedPoint * Z)) : result ApiError (list DepthLevelDto) :=
  match levels with
  | [] => Ok []
  | (price, size) :: levels =>
      if size <? 0 then Err (ApiError_new Cat.Validation "INVALID_BOOK_SIZE" "order-book size cannot be negative")
      else
        let cumulative := saturating_add I64 cumulative size in
        let? rest := accumulate_from cumulative levels in
        Ok ({| dl_price := from_fixed_point price; dl_size_units := size; dl_cumulative_units := cumulative |} :: rest)
  end.
Definition accumulate (levels : list (FixedPoint * Z)) : result ApiError (list DepthLevelDto) :=
  accumulate_from 0 levels.

Definition U16_MAX : Z := 65535.

(** [u16::try_from(bids.len().max(asks.len())).unwrap_or(or)]. *)
Definition book_depth {A B} (bids : list A) (asks : list B) (or : Z) : Z :=
  let n := Z.of_nat (Nat.max (length bids) (length asks)) in
  if n <=? U16_MAX then n else or.

Definition spread (bids asks : list (FixedPoint * Z)) : option Decimal :=
  match bids, asks with
  | (bid, _) :: _, (ask, _) :: _ => Some (from_fixed_point (Fixed (wrap I128 (total_nanos ask - total_nanos bid))))
  | _, _ => None
  end.

Definition order_book_from_levels (instrument_uid : string) (bids asks : list (FixedPoint * Z))
    (observed_at_unix_ms : Z) (stream : StreamStateDto) (consistent : bool) : result ApiError OrderBookDto :=
  if negb consistent
  then Err (ApiError_new Cat.Conflict "INCONSISTENT_ORDER_BOOK"
              "provider order book is inconsistent; refusing to project it")
  else
    let spread_absolute := spread bids asks in
    let? bids := accumulate bids in
    let? asks := accumulate asks in
    Ok {| obd_instrument_uid := instrument_uid; obd_depth := book_depth bids asks U16_MAX; obd_asks := asks;
          obd_bids := bids; obd_spread_absolute := spread_absolute;
          obd_freshness := {| mf_stream := stream; mf_observed_at_unix_ms := observed_at_unix_ms; mf_age_ms := 0 |} |}.

Definition trade_from_canonical (instrument_uid : string) (price : FixedPoint) (size_lots direction traded_at_unix_ms : Z)
  : TradeTickDto := {|
  tt_instrument_uid := instrument_uid; tt_price := from_fixed_point price; tt_size_units := size_lots;
  tt_direction := match direction with 1 => TradeDir.Buy | 2 => TradeDir.Sell | _ => TradeDir.Unknown end;
  tt_traded_at_unix_ms := traded_at_unix_ms; tt_own := false |}.

Definition candle_from_canonical (instrument_uid : string) (interval : CandleIntervalDto) (opened_at_unix_ms : Z)
    (open high low close : FixedPoint) (volume_lots : Z) (is_complete : option bool) : CandleDto := {|
  cdl_instrument_uid := instrument_uid; cdl_interval := interval; cdl_opened_at_unix_ms := opened_at_unix_ms;
  cdl_open := from_fixed_point open; cdl_high := from_fixed_point high; cdl_low := from_fixed_point low;
  cdl_close := from_fixed_point close; cdl_volume_units := volume_lots;
  cdl_state := match is_complete with Some true => Bar.Closed | Some false | None => Bar.Open end;
  cdl_revision := 0 |}.

Definition trading_status_from_provider (status : Z) : TradingStatusDto :=
  match status with
  | 5 | 13 | 14 => TradeSt.Open
  | 2 | 6 | 7 | 8 | 9 | 10 | 17 => TradeSt.Auction
  | 1 | 3 | 12 | 16 => TradeSt.Closed
  | 4 | 15 => TradeSt.Suspended
  | _ => TradeSt.Unknown
  end.

Definition candle_interval_from_provider (interval : Z) : result ApiError CandleIntervalDto :=
  ok_or (from_canonical_interval interval)
    (ApiError_new Cat.Validation "UNSUPPORTED_CANDLE_INTERVAL"
       ("candle interval " +:+ int_to_string interval +:+ " is not in the public Vox historic set")).

Definition unix_ms_from_ns (event_time_ns : Z) : Z :=
  match checked I64 (event_time_ns / 1000000) with Some ms => ms | None => int_max I64 end.
End facts.

(** ** Events of the application: [events.rs] *)

Inductive ApplicationEvent :=
| RuntimeHealthEvent (health : RuntimeHealthDto)
| QuoteEvent (quote : QuoteDto)
| OrderBookEvent (book : OrderBookDto)
| TradesEvent (instrument_uid : string) (ticks : list TradeTickDto)
| CandlesEvent (candles : CandlesDto)
| SessionEvent (session : SessionDto).

(** ** The projection *)

Record Inner := {
  in_quotes : gmap string QuoteDto;
  in_books : gmap string OrderBookDto;
  in_tapes : gmap string (list TradeTickDto);
  in_candles : gmap string (gmap CandleIntervalDto CandlesDto);
  in_sessions : gmap string SessionDto;
  in_instruments : list InstrumentSummaryDto;
}.

(** The projection, and whether a bus is attached. *)
Record SnapshotMarketProjection := { mp_inner : Inner; mp_events : bool }.

Definition empty_inner : Inner := {|
  in_quotes := ∅; in_books := ∅; in_tapes := ∅; in_candles := ∅; in_sessions := ∅; in_instruments := [] |}.
Definition projection_new : SnapshotMarketProjection := {| mp_inner := empty_inner; mp_events := false |}.
Definition with_events (self : SnapshotMarketProjection) : SnapshotMarketProjection := {|
  mp_inner := mp_inner self; mp_events := true |}.

Definition with_inner (inner : Inner) (self : SnapshotMarketProjection) : SnapshotMarketProjection := {|
  mp_inner := inner; mp_events := mp_events self |}.
Definition emit (self : SnapshotMarketProjection) (event : ApplicationEvent) : list ApplicationEvent :=
  if mp_events self then [event] else [].

Definition publish_quote (quote : QuoteDto) (self : SnapshotMarketProjection)
  : SnapshotMarketProjection * list ApplicationEvent :=
  let i := mp_inner self in
  (with_inner {| in_quotes := <[qd_instrument_uid quote := quote]> (in_quotes i); in_books := in_books i;
                 in_tapes := in_tapes i; in_candles := in_candles i; in_sessions := in_sessions i;
                 in_instruments := in_instruments i |} self,
   emit self (QuoteEvent quote)).

Definition publish_order_book (book : OrderBookDto) (self : SnapshotMarketProjection)
  : SnapshotMarketProjection * list ApplicationEvent :=
  let i := mp_inner self in
  (with_inner {| in_quotes := in_quotes i; in_books := <[obd_instrument_uid book := book]> (in_books i);
                 in_tapes := in_tapes i; in_candles := in_candles i; in_sessions := in_sessions i;
                 in_instruments := in_instruments i |} self,
   emit self (OrderBookEvent book)).

Definition publish_trades (instrument_uid : string) (trades : list TradeTickDto) (self : SnapshotMarketProjection)
  : SnapshotMarketProjection * list ApplicationEvent :=
  let i := mp_inner self in
  (with_inner {| in_quotes := in_quotes i; in_books := in_books i;
                 in_tapes := <[instrument_uid := trades]> (in_tapes i); in_candles := in_candles i;
                 in_sessions := in_sessions i; in_instruments := in_instruments i |} self,
   emit self (TradesEvent instrument_uid trades)).

(** *** Candles *)

Definition candle_body_eq (left right : CandleDto) : bool :=
  bool_decide (cdl_instrument_uid left = cdl_instrument_uid right)
  && bool_decide (cdl_interval left = cdl_interval right)
  && bool_decide (cdl_opened_at_unix_ms left = cdl_opened_at_unix_ms right)
  && bool_decide (cdl_open left = cdl_open right)
  && bool_decide (cdl_high left = cdl_high right)
  && bool_decide (cdl_low left = cdl_low right)
  && bool_decide (cdl_close left = cdl_close right)
  && bool_decide (cdl_volume_units left = cdl_volume_units right).

Definition with_life (state : CandleStateDto) (revision : Z) (c : CandleDto) : CandleDto := {|
  cdl_instrument_uid := cdl_instrument_uid c; cdl_interval := cdl_interval c;
  cdl_opened_at_unix_ms := cdl_opened_at_unix_ms c; cdl_open := cdl_open c; cdl_high := cdl_high c;
  cdl_low := cdl_low c; cdl_close := cdl_close c; cdl_volume_units := cdl_volume_units c;
  cdl_state := state; cdl_revision := revision |}.

Definition apply_candle_lifecycle (prior incoming : CandleDto) : CandleDto :=
  let same_body := candle_body_eq prior incoming in
  let next := saturating_add U64 (cdl_revision prior) 1 in
  match cdl_state prior, cdl_state incoming with
  | Bar.Open, Bar.Open =>
      if same_body then with_life Bar.Open (cdl_revision prior) incoming else with_life Bar.Open next incoming
  | Bar.Open, (Bar.Closed | Bar.Corrected) => with_life Bar.Closed next incoming
  | (Bar.Closed | Bar.Corrected), (Bar.Closed | Bar.Corrected) =>
      if same_body then with_life (cdl_state prior) (cdl_revision prior) incoming
      else with_life Bar.Corrected next incoming
  | (Bar.Closed | Bar.Corrected), Bar.Open => with_life Bar.Corrected next incoming
  end.

Definition opened_with (candle : CandleDto) (row : CandleDto) : bool :=
  cdl_opened_at_unix_ms row =? cdl_opened_at_unix_ms candle.

(** The candle after the bar of the same opening time, if the page has one. *)
Definition follow (existing : list CandleDto) (candle : CandleDto) : CandleDto :=
  match List.find (opened_with candle) existing with
  | Some prior => apply_candle_lifecycle prior candle
  | None => candle
  end.

Definition candle_changed (existing : list CandleDto) (candle : CandleDto) : bool :=
  match List.find (opened_with candle) existing with
  | Some prior =>
      let candle := apply_candle_lifecycle prior candle in
      negb (cdl_revision prior =? cdl_revision candle) || negb (bool_decide (cdl_state prior = cdl_state candle))
  | None => true
  end.

Definition with_candles (l : list CandleDto) (page : CandlesDto) : CandlesDto := {|
  cds_instrument_uid := cds_instrument_uid page; cds_interval := cds_interval page; cds_candles := l;
  cds_freshness := cds_freshness page |}.

Definition stored_page (i : Inner) (instrument_uid : string) (interval : CandleIntervalDto) : option CandlesDto :=
  row ← in_candles i !! instrument_uid; row !! interval.

(** What a publication stores, and whether it changed the page. *)
Definition merge_page (prior_page : option CandlesDto) (candles : CandlesDto) : CandlesDto * bool :=
  match prior_page with
  | None => (candles, true)
  | Some existing =>
      (with_candles (follow (cds_candles existing) <$> cds_candles candles) candles,
       negb (length (cds_candles existing) =? length (cds_candles candles))%nat
       || existsb (candle_changed (cds_candles existing)) (cds_candles candles))
  end.

Definition publish_candles (candles : CandlesDto) (self : SnapshotMarketProjection)
  : SnapshotMarketProjection * list ApplicationEvent :=
  let i := mp_inner self in
  let uid := cds_instrument_uid candles in
  let '(page, changed) := merge_page (stored_page i uid (cds_interval candles)) candles in
  let row := match in_candles i !! uid with Some row => row | None => ∅ end in
  (with_inner {| in_quotes := in_quotes i; in_books := in_books i; in_tapes := in_tapes i;
                 in_candles := <[uid := <[cds_interval candles := page]> row]> (in_candles i);
                 in_sessions := in_sessions i; in_instruments := in_instruments i |} self,
   if changed then emit self (CandlesEvent page) else []).

(** *** Sessions and the catalogue *)

Definition session_changed (stored : option SessionDto) (session : SessionDto) : bool :=
  match stored with
  | None => true
  | Some s => negb (bool_decide (ses_status s = ses_status session))
              || negb (bool_decide (ses_limit_orders_available s = ses_limit_orders_available session))
              || negb (bool_decide (ses_market_orders_available s = ses_market_orders_available session))
  end.

Definition publish_session (session : SessionDto) (self : SnapshotMarketProjection)
  : SnapshotMarketProjection * list ApplicationEvent :=
  let i := mp_inner self in
  let uid := ses_instrument_uid session in
  let changed := session_changed (in_sessions i !! uid) session in
  (with_inner {| in_quotes := in_quotes i; in_books := in_books i; in_tapes := in_tapes i;
                 in_candles := in_candles i; in_sessions := <[uid := session]> (in_sessions i);
                 in_instruments := in_instruments i |} self,
   if changed then emit self (SessionEvent session) else []).

Definition publish_instrument (instrument : InstrumentSummaryDto) (self : SnapshotMarketProjection)
  : SnapshotMarketProjection :=
  let i := mp_inner self in
  let uid := iid_uid (isd_identity instrument) in
  with_inner {| in_quotes := in_quotes i; in_books := in_books i; in_tapes := in_tapes i;
                in_candles := in_candles i; in_sessions := in_sessions i;
                in_instruments :=
                  List.filter (λ row, negb (bool_decide (iid_uid (isd_identity row) = uid))) (in_instruments i)
                  ++ [instrument] |} self.

(** *** Reads *)

(** [now_unix_ms()]: the nanoseconds of the clock are cast to [i64] before the division. *)
Definition http_now_unix_ms (unix_timestamp_nanos : Z) : Z := Z.quot (wrap I64 unix_timestamp_nanos) 1000000.

Section reads.
Context `{CO : !Correlation}.

Definition missing (kind instrument_uid : string) : ApiError :=
  ApiError_new Cat.NotFound "MARKET_FACT_NOT_FOUND"
    ("no " +:+ kind +:+ " in the projection for " +:+ instrument_uid).

Definition age_freshness (now : Z) (freshness : MarketFreshness) : MarketFreshness := {|
  mf_stream := mf_stream freshness; mf_observed_at_unix_ms := mf_observed_at_unix_ms freshness;
  mf_age_ms := Z.max (wrap I64 (now - mf_observed_at_unix_ms freshness)) 0 |}.

Definition refresh_quote (now : Z) (quote : QuoteDto) : QuoteDto := {|
  qd_instrument_uid := qd_instrument_uid quote; qd_last := qd_last quote; qd_bid := qd_bid quote;
  qd_ask := qd_ask quote; qd_change_absolute := qd_change_absolute quote;
  qd_change_percent := qd_change_percent quote; qd_day_high := qd_day_high quote; qd_day_low := qd_day_low quote;
  qd_volume_units := qd_volume_units quote; qd_freshness := age_freshness now (qd_freshness quote) |}.

Definition trim_book (now : Z) (book : OrderBookDto) (depth : Z) : OrderBookDto :=
  let bids := take (Z.to_nat depth) (obd_bids book) in
  let asks := take (Z.to_nat depth) (obd_asks book) in
  {| obd_instrument_uid := obd_instrument_uid book; obd_depth := book_depth bids asks depth;
     obd_asks := asks; obd_bids := bids; obd_spread_absolute := obd_spread_absolute book;
     obd_freshness := age_freshness now (obd_freshness book) |}.

Definition instrument_matches (needle : string) (row : InstrumentSummaryDto) : bool :=
  if bool_decide (needle = "") then true
  else contains needle (to_ascii_lowercase (iid_ticker (isd_identity row)))
       || contains needle (to_ascii_lowercase (isd_name row))
       || contains needle (to_ascii_lowercase (isd_instrument_type row))
       || contains needle (to_ascii_lowercase (iid_class_code (isd_identity row))).

Definition search_instruments (i : Inner) (query : string) (limit : Z) : result ApiError (list InstrumentSummaryDto) :=
  let needle := to_ascii_lowercase (trim query) in
  Ok (take (Z.to_nat limit) (List.filter (instrument_matches needle) (in_instruments i))).

Definition read_quote (now : Z) (i : Inner) (instrument_uid : string) : result ApiError QuoteDto :=
  let? stored := ok_or (in_quotes i !! instrument_uid) (missing "quote" instrument_uid) in
  Ok (refresh_quote now stored).

Definition read_order_book (now : Z) (i : Inner) (instrument_uid : string) (depth : Z) : result ApiError OrderBookDto :=
  let? stored := ok_or (in_books i !! instrument_uid) (missing "order book" instrument_uid) in
  Ok (trim_book now stored depth).

Definition read_trades (i : Inner) (instrument_uid : string) (limit : Z) : result ApiError (list TradeTickDto) :=
  let? stored := ok_or (in_tapes i !! instrument_uid) (missing "tape" instrument_uid) in
  Ok (drop (length stored - Z.to_nat limit) stored).

Definition read_candles (now : Z) (i : Inner) (instrument_uid : string) (interval : CandleIntervalDto)
    (from_unix_ms to_unix_ms : Z) : result ApiError CandlesDto :=
  let? stored := ok_or (stored_page i instrument_uid interval) (missing "candles" instrument_uid) in
  Ok {| cds_instrument_uid := cds_instrument_uid stored; cds_interval := cds_interval stored;
        cds_candles := List.filter (λ c, (from_unix_ms <=? cdl_opened_at_unix_ms c)
                                         && (cdl_opened_at_unix_ms c <? to_unix_ms)) (cds_candles stored);
        cds_freshness := age_freshness now (cds_freshness stored) |}.

Definition read_market_session (now : Z) (i : Inner) (instrument_uid : string) : result ApiError SessionDto :=
  let? s := ok_or (in_sessions i !! instrument_uid) (missing "session" instrument_uid) in
  Ok {| ses_instrument_uid := ses_instrument_uid s; ses_status := ses_status s;
        ses_limit_orders_available := ses_limit_orders_available s;
        ses_market_orders_available := ses_market_orders_available s;
        ses_freshness := age_freshness now (ses_freshness s) |}.
End reads.

(** The port the transport reads through: [MarketDataQueries] of [application.rs]. *)
Record MarketDataQueries := {
  mq_search_instruments : ProviderDto → string → Z → result ApiError (list InstrumentSummaryDto);
  mq_quote : ProviderDto → string → result ApiError QuoteDto;
  mq_order_book : ProviderDto → string → Z → result ApiError OrderBookDto;
  mq_trades : ProviderDto → string → Z → result ApiError (list TradeTickDto);
  mq_candles : ProviderDto → string → CandleIntervalDto → Z → Z → result ApiError CandlesDto;
  mq_session : ProviderDto → string → result ApiError SessionDto;
}.

Definition projection_queries `{CO : !Correlation} (now : Z) (self : SnapshotMarketProjection) : MarketDataQueries :=
  let i := mp_inner self in {|
  mq_search_instruments _ := search_instruments i;
  mq_quote _ := read_quote now i;
  mq_order_book _ := read_order_book now i;
  mq_trades _ := read_trades i;
  mq_candles _ := read_candles now i;
  mq_session _ := read_market_session now i |}.

(** ** Lemmas *)

Lemma candle_body_eq_spec a b :
  candle_body_eq a b = true ↔ a = with_life (cdl_state a) (cdl_revision a) b.
Proof.
  unfold candle_body_eq. rewrite !andb_true_iff, !bool_decide_eq_true. destruct a, b; unfold with_life; simpl.
  split; [|by intros [= -> -> -> -> -> -> -> ->]]. intros [[[[[[[-> ->] ->] ->] ->] ->] ->] ->]. done.
Qed.

Lemma candle_body_eq_refl a : candle_body_eq a a = true.
Proof. apply candle_body_eq_spec. by destruct a. Qed.

Lemma with_life_body s r c : candle_body_eq c (with_life s r c) = true.
Proof. apply candle_body_eq_spec. by destruct c. Qed.

(** How a bar goes on from one publication to the next. *)
Record forward (prior c : CandleDto) : Prop := {
  fw_settled : cdl_state prior ≠ Bar.Open → cdl_state c ≠ Bar.Open;
  fw_corrected : cdl_state prior = Bar.Corrected → cdl_state c = Bar.Corrected;
  fw_revision : cdl_revision c = cdl_revision prior ∨ cdl_revision c = cdl_revision prior + 1;
  fw_same : cdl_revision c = cdl_revision prior → c = prior;
}.

(** A bar whose revision can still be raised. *)
Definition revisable (c : CandleDto) : Prop := 0 ≤ cdl_revision c < int_max U64.

Lemma apply_candle_lifecycle_forward prior incoming :
  revisable prior → forward prior (apply_candle_lifecycle prior incoming).
Proof.
  intros Hr. unfold apply_candle_lifecycle.
  assert (saturating_add U64 (cdl_revision prior) 1 = cdl_revision prior + 1) as ->.
  { unfold saturating_add. apply saturate_id. unfold revisable in Hr. int_lia. }
  pose proof (λ H, proj1 (candle_body_eq_spec prior incoming) H) as Hb.
  destruct (cdl_state prior) eqn:Hp, (cdl_state incoming) eqn:Hi; destruct (candle_body_eq prior incoming);
    constructor; simpl; rewrite ?Hp; try done; try (by left); try (by right); try lia;
    intros _; symmetry; apply Hb; done.
Qed.

Lemma apply_candle_lifecycle_body prior incoming :
  candle_body_eq incoming (apply_candle_lifecycle prior incoming) = true.
Proof. unfold apply_candle_lifecycle. repeat case_match; apply with_life_body. Qed.

Lemma follow_body existing c : candle_body_eq c (follow existing c) = true.
Proof.
  unfold follow. destruct (List.find _ _); [apply apply_candle_lifecycle_body|apply candle_body_eq_refl].
Qed.

Lemma follow_unchanged existing c :
  Forall revisable existing → candle_changed existing c = false → follow existing c ∈ existing.
Proof.
  intros Hr. unfold candle_changed, follow. destruct (List.find _ existing) as [prior|] eqn:Hf; [|done].
  apply find_elem in Hf as [Hin _]. rewrite Forall_forall in Hr. specialize (Hr _ Hin).
  intros [Hv Hs]%orb_false_iff. apply negb_false_iff, Z.eqb_eq in Hv.
  by rewrite (fw_same _ _ (apply_candle_lifecycle_forward prior c Hr) (eq_sym Hv)).
Qed.

Lemma follow_opened existing c :
  cdl_opened_at_unix_ms (follow existing c) = cdl_opened_at_unix_ms c.
Proof. pose proof (follow_body existing c) as H%candle_body_eq_spec. apply (f_equal cdl_opened_at_unix_ms) in H. done. Qed.

(** The bar of an opening time in a page. *)
Definition bar_at (opened_at : Z) (l : list CandleDto) : option CandleDto :=
  List.find (λ row, cdl_opened_at_unix_ms row =? opened_at) l.

Lemma stored_page_insert (m : gmap string (gmap CandleIntervalDto CandlesDto)) i i' uid interval page :
  in_candles i = m →
  in_candles i' = <[uid := <[interval := page]> (match m !! uid with Some row => row | None => ∅ end)]> m →
  ∀ u iv, stored_page i' u iv = if bool_decide (u = uid ∧ iv = interval) then Some page else stored_page i u iv.
Proof.
  intros Hi Hi' u iv. unfold stored_page. rewrite Hi', Hi.
  destruct (decide (u = uid)) as [->|Hu].
  - rewrite lookup_insert_eq. simpl. destruct (decide (iv = interval)) as [->|Hv].
    + rewrite lookup_insert_eq. by rewrite bool_decide_eq_true_2.
    + rewrite lookup_insert_ne by done. rewrite bool_decide_eq_false_2 by naive_solver.
      destruct (m !! uid); simpl; [done|]. by rewrite lookup_empty.
  - rewrite lookup_insert_ne by done. by rewrite bool_decide_eq_false_2 by naive_solver.
Qed.

(** ** Properties *)

(** A bar only moves forward, and what is not announced is not new.  A publication of
    candles stores the bars it was given, bar for bar, under its instrument and interval and
    touches no other page.  A bar that was stored before keeps being settled once it was
    closed and corrected once it was corrected, its revision stays or grows by one, and when
    it stays the bar is the same in every field.  With a bus attached the stored page is
    announced, unless it has as many bars as the one before and every bar of it was there
    already. *)
Theorem candles_move_forward candles existing (self : SnapshotMarketProjection) :
  let uid := cds_instrument_uid candles in
  let interval := cds_interval candles in
  stored_page (mp_inner self) uid interval = Some existing → Forall revisable (cds_candles existing) →
  let '(self', events) := publish_candles candles self in
  ∃ page,
    (∀ u iv, stored_page (mp_inner self') u iv
             = if bool_decide (u = uid ∧ iv = interval) then Some page else stored_page (mp_inner self) u iv) ∧
    Forall2 (λ given c, candle_body_eq given c = true) (cds_candles candles) (cds_candles page) ∧
    (∀ c prior, c ∈ cds_candles page →
       bar_at (cdl_opened_at_unix_ms c) (cds_candles existing) = Some prior → forward prior c) ∧
    (mp_events self = true →
       events = [CandlesEvent page] ∨
       events = [] ∧ length (cds_candles page) = length (cds_candles existing) ∧
       ∀ c, c ∈ cds_candles page → c ∈ cds_candles existing).
Proof.
  intros uid interval Hp Hr. unfold publish_candles. fold uid interval. rewrite Hp. simpl.
  set (page := with_candles _ _).
  exists page. split_and!.
  - by eapply stored_page_insert.
  - subst page. simpl. induction (cds_candles candles) as [|c l IH]; simpl; [constructor|].
    constructor; [apply follow_body|exact IH].
  - subst page. simpl. intros c prior (given & -> & Hin)%list_elem_of_fmap Hb.
    rewrite follow_opened in Hb. unfold follow, opened_with. unfold bar_at in Hb. rewrite Hb.
    apply apply_candle_lifecycle_forward. rewrite Forall_forall in Hr. apply Hr.
    by apply find_elem in Hb as [? _].
  - intros He. unfold emit. rewrite He. destruct (_ || _) eqn:Hc; [by left|right]. split; [done|].
    apply orb_false_iff in Hc as [Hl%negb_false_iff%Nat.eqb_eq Hc]. subst page. simpl. rewrite length_fmap.
    split; [done|]. intros c (given & -> & Hin)%list_elem_of_fmap. apply follow_unchanged; [done|].
    by apply (proj1 (existsb_false _ _) Hc).
Qed.

(** The names of the intervals and the integers of the provider are one for one. *)
Lemma candle_interval_roundtrip `{CO : !Correlation} n i :
  candle_interval_from_provider n = Ok i ↔ n = historic_wire i.
Proof.
  unfold candle_interval_from_provider, from_canonical_interval. rewrite ok_or_Ok. split.
  - unfold from_historic_wire. intros H. repeat case_match; simplify_eq; done.
  - intros ->. apply historic_wire_inverse.
Qed.

(** The levels of a book, each with the size down to it. *)
Lemma accumulate_from_spec `{CO : !Correlation} c levels l :
  accumulate_from c levels = Ok l →
  Forall2 (λ lv d, dl_price d = from_fixed_point lv.1 ∧ dl_size_units d = lv.2 ∧ 0 ≤ lv.2) levels l ∧
  ∀ k d, l !! k = Some d → c + zsum snd levels ≤ int_max I64 → 0 ≤ c →
    dl_cumulative_units d = c + zsum snd (take (S k) levels).
Proof.
  revert c l. induction levels as [|[p z] levels IH]; intros c l; simpl; [by intros [= <-]|].
  destruct (z <? 0) eqn:Hz; [done|]. apply Z.ltb_ge in Hz.
  destruct (accumulate_from _ levels) as [rest|] eqn:Hrest; [|done]. intros [= <-].
  destruct (IH _ _ Hrest) as [Hf Hc]. split; [by constructor|].
  assert (0 ≤ zsum snd levels) as Hs.
  { apply zsum_nonneg. intros x Hx. apply list_elem_of_lookup in Hx as [k Hk].
    destruct (Forall2_lookup_l _ _ _ _ _ Hf Hk) as (d & _ & _ & _ & H). done. }
  intros [|k] d Hk Hmax Hpos; simpl in *.
  - injection Hk as <-. simpl.
    unfold saturating_add. rewrite saturate_id by int_lia. lia.
  - specialize (Hc k d Hk). unfold saturating_add in Hc. rewrite saturate_id in Hc by int_lia.
    rewrite Hc by lia. lia.
Qed.

(** *** What the source does not settle *)

Module MarketSample.
Definition sample_freshness : MarketFreshness := {|
  mf_stream := StreamDto.Active; mf_observed_at_unix_ms := 0; mf_age_ms := 0 |}.
Definition bar (opened_at close : Z) (complete : bool) : CandleDto :=
  candle_from_canonical "instrument-1" Bar.OneMinute opened_at (Fixed 1) (Fixed 3) (Fixed 1) (Fixed close) 5
    (Some complete).
Definition page_of (l : list CandleDto) : CandlesDto := {|
  cds_instrument_uid := "instrument-1"; cds_interval := Bar.OneMinute; cds_candles := l;
  cds_freshness := sample_freshness |}.
Definition after (pages : list (list CandleDto)) : SnapshotMarketProjection :=
  fold_left (λ p l, fst (publish_candles (page_of l) p)) pages (with_events projection_new).
Definition bars (p : SnapshotMarketProjection) : option (list (Z * CandleStateDto * Z)) :=
  (λ page, (λ c, (cdl_opened_at_unix_ms c, cdl_state c, cdl_revision c)) <$> cds_candles page)
  <$> stored_page (mp_inner p) "instrument-1" Bar.OneMinute.

(** A closed bar that is published again as it was, but open, becomes corrected. *)
Example unchanged_bar_is_corrected :
  bars (after [[bar 0 2 true]; [bar 0 2 false]]) = Some [(0, Bar.Corrected, 1)].
Proof. vm_compute. reflexivity. Qed.

(** A page replaces the one before: a bar that is left out and comes back starts over. *)
Example absent_bar_starts_over :
  bars (after [[bar 0 1 false]; [bar 0 2 true]; [bar 60000 1 false]; [bar 0 2 false]]) = Some [(0, Bar.Open, 0)].
Proof. vm_compute. reflexivity. Qed.

(** Publishing a bar as it was keeps its revision. *)
Example unchanged_bar_keeps_revision :
  bars (after [[bar 0 2 false]; [bar 0 2 false]; [bar 0 3 false]]) = Some [(0, Bar.Open, 1)].
Proof. vm_compute. reflexivity. Qed.
End MarketSample.
Import MarketSample.

Definition settled : SnapshotMarketProjection := after [[bar 0 2 true]].

Lemma candles_move_forward_witness :
  ∃ page, stored_page (mp_inner (fst (publish_candles (page_of [bar 0 2 true]) settled)))
            "instrument-1" Bar.OneMinute = Some page ∧ ∀ c, c ∈ cds_candles page → c ∈ [bar 0 2 true].
Proof.
  assert (stored_page (mp_inner settled) "instrument-1" Bar.OneMinute = Some (page_of [bar 0 2 true])) as Hs
    by (vm_compute; reflexivity).
  assert (Forall revisable (cds_candles (page_of [bar 0 2 true]))) as Hr.
  { constructor; [|constructor]. split; [vm_compute; discriminate|vm_compute; reflexivity]. }
  pose proof (candles_move_forward (page_of [bar 0 2 true]) (page_of [bar 0 2 true]) settled Hs Hr) as H.
  rewrite (surjective_pairing (publish_candles _ _)) in H. destruct H as (page & Hp & _ & _ & He).
  exists page. split; [exact (Hp "instrument-1"%string Bar.OneMinute)|].
  destruct (He eq_refl) as [Hc|(_ & _ & Hin)]; [vm_compute in Hc; discriminate Hc|exact Hin].
Defined.
