(* ===== verification/StreamGateway.v ===== *)
(** * The live gateway: [crates/vox-api/src/transport/ws.rs], [events.rs] and
      [contract/stream.rs]

    One socket carries every topic a browser subscribed to.  The gateway answers client
    messages, turns the events of the application into updates of the matching
    subscriptions, and puts everything on a bounded queue that a writer task empties into
    the socket.  A browser that cannot keep up is told so and closed.

    The two tasks of a socket, the reader and the writer, are a step relation in which they
    interleave freely; what a write that fails or times out has put on the wire is left
    open.  The theorem reads what a browser received the way a browser would: every update
    belongs to a live subscription, has its topic and carries the next number of it, so no
    event is lost, repeated or reordered without the browser noticing. *)
From stdpp Require Import gmap strings.
From S2P Require Import Prelude Money Domain ApiMoney ApiContract ApiReads MarketProjection.

(** ** Envelopes *)

Definition STREAM_SCHEMA_VERSION : Z := 1.

Module Top.
Inductive Topic :=
| RuntimeHealth | Positions | Orders | Stops | Operations | Portfolio | Quotes | OrderBook | Trades | Candles | Session.
#[global] Instance Topic_eq_dec : EqDecision Topic.
Proof. solve_decision. Defined.
End Top.
Notation Topic := Top.Topic.

(** [{:?}]. *)
Definition topic_debug (t : Topic) : string :=
  match t with
  | Top.RuntimeHealth => "RuntimeHealth"
  | Top.Positions => "Positions"
  | Top.Orders => "Orders"
  | Top.Stops => "Stops"
  | Top.Operations => "Operations"
  | Top.Portfolio => "Portfolio"
  | Top.Quotes => "Quotes"
  | Top.OrderBook => "OrderBook"
  | Top.Trades => "Trades"
  | Top.Candles => "Candles"
  | Top.Session => "Session"
  end.

Inductive ClientMessage :=
| Subscribe (subscription_id : string) (topic : Topic) (scope : option ExecutionScope)
    (instrument_uid : option string) (interval : option CandleIntervalDto)
| Unsubscribe (subscription_id : string)
| PingMessage (nonce : option string).

Module SubSt.
Inductive SubscriptionStatus := Active | Cancelled | DroppedSlowConsumer | Unavailable.
#[global] Instance SubscriptionStatus_eq_dec : EqDecision SubscriptionStatus.
Proof. solve_decision. Defined.
End SubSt.
Notation SubscriptionStatus := SubSt.SubscriptionStatus.

Inductive EventPayload :=
| HealthPayload (health : RuntimeHealthDto)
| QuotePayload (quote : QuoteDto)
| OrderBookPayload (book : OrderBookDto)
| TradesPayload (ticks : list TradeTickDto)
| CandlesPayload (page : CandlesDto)
| SessionPayload (session : SessionDto)
| PositionsPayload (positions : list PositionDto)
| OrdersPayload (orders : list OrderDto)
| StopsPayload (stops : list StopOrderDto)
| OperationsPayload (operations : list OperationDto)
| PortfolioPayload (portfolio : PortfolioDto).

Inductive ServerEvent :=
| Snapshot (schema_version : Z) (subscription_id : string) (as_of_unix_ms runtime_epoch : Z)
    (scope : option ExecutionScope) (payload : EventPayload)
| Update (schema_version : Z) (subscription_id : string) (as_of_unix_ms runtime_epoch sequence : Z)
    (scope : option ExecutionScope) (payload : EventPayload)
| Status (schema_version : Z) (subscription_id : string) (status : SubscriptionStatus) (detail : option string)
| ErrorEvent (schema_version : Z) (subscription_id : option string) (code message correlation_id : string)
| Heartbeat (schema_version server_time_unix_ms : Z) (nonce : option string).

(** ** Application events *)

(** The first health that is read is the baseline; later changes are published. *)
Definition watch_tick `{!EqDecision RuntimeHealthDto} (last : option RuntimeHealthDto)
    (read : result ApiError RuntimeHealthDto) : option RuntimeHealthDto * list ApplicationEvent :=
  match read with
  | Err _ => (last, [])
  | Ok health =>
      match last with
      | Some previous => if bool_decide (previous = health) then (last, []) else (Some health, [RuntimeHealthEvent health])
      | None => (Some health, [])
      end
  end.

Fixpoint watch `{!EqDecision RuntimeHealthDto} (last : option RuntimeHealthDto)
    (reads : list (result ApiError RuntimeHealthDto)) : list ApplicationEvent :=
  match reads with
  | [] => []
  | read :: reads => let '(last, events) := watch_tick last read in events ++ watch last reads
  end.

(** ** Subscriptions *)

Definition OUTBOUND_QUEUE_CAPACITY : nat := 256.

Record Subscription := {
  su_topic : Topic;
  su_scope : option ExecutionScope;
  su_instrument_uid : option string;
  su_interval : option CandleIntervalDto;
  su_sequence : Z;
  su_runtime_epoch : Z;
}.

(** A [HashMap] as the list of its entries in the order it iterates in. *)
Notation Subscriptions := (list (string * Subscription)).

Definition next_update (now : Z) (self : Subscription) (payload : EventPayload) (subscription_id : string)
  : Subscription * ServerEvent :=
  let sequence := saturating_add U64 (su_sequence self) 1 in
  ({| su_topic := su_topic self; su_scope := su_scope self; su_instrument_uid := su_instrument_uid self;
      su_interval := su_interval self; su_sequence := sequence; su_runtime_epoch := su_runtime_epoch self |},
   Update STREAM_SCHEMA_VERSION subscription_id now (su_runtime_epoch self) sequence (su_scope self) payload).

Definition sub_matches (self : Subscription) (event : ApplicationEvent) : bool :=
  match su_topic self, event with
  | Top.RuntimeHealth, RuntimeHealthEvent _ => true
  | Top.Quotes, QuoteEvent quote => bool_decide (su_instrument_uid self = Some (qd_instrument_uid quote))
  | Top.OrderBook, OrderBookEvent book => bool_decide (su_instrument_uid self = Some (obd_instrument_uid book))
  | Top.Trades, TradesEvent instrument_uid _ => bool_decide (su_instrument_uid self = Some instrument_uid)
  | Top.Candles, CandlesEvent page =>
      bool_decide (su_instrument_uid self = Some (cds_instrument_uid page))
      && bool_decide (su_interval self = Some (cds_interval page))
  | Top.Session, SessionEvent session => bool_decide (su_instrument_uid self = Some (ses_instrument_uid session))
  | _, _ => false
  end.

Definition payload_for (event : ApplicationEvent) : EventPayload :=
  match event with
  | RuntimeHealthEvent health => HealthPayload health
  | QuoteEvent quote => QuotePayload quote
  | OrderBookEvent book => OrderBookPayload book
  | TradesEvent _ ticks => TradesPayload ticks
  | CandlesEvent page => CandlesPayload page
  | SessionEvent session => SessionPayload session
  end.

Definition set_epoch (event : ApplicationEvent) (self : Subscription) : Subscription := {|
  su_topic := su_topic self; su_scope := su_scope self; su_instrument_uid := su_instrument_uid self;
  su_interval := su_interval self; su_sequence := su_sequence self;
  su_runtime_epoch := match event with
                      | RuntimeHealthEvent health => rhd_runtime_epoch health
                      | _ => su_runtime_epoch self
                      end |}.

Fixpoint updates_for (now : Z) (subscriptions : Subscriptions) (event : ApplicationEvent)
  : Subscriptions * list ServerEvent :=
  match subscriptions with
  | [] => ([], [])
  | (subscription_id, subscription) :: rest =>
      let '(rest, out) := updates_for now rest event in
      if negb (sub_matches subscription event) then ((subscription_id, subscription) :: rest, out)
      else
        let '(subscription, update) := next_update now (set_epoch event subscription) (payload_for event) subscription_id in
        ((subscription_id, subscription) :: rest, update :: out)
  end.

(** ** Client messages *)

(** What the ports of the application answer while a message is handled, and the decoding
    of its text. *)
Record GatewayPorts := {
  gp_provider : ProviderDto;
  gp_runtime : option (result ApiError RuntimeHealthDto);
  gp_accounts : bool;
  gp_market_data : option MarketDataQueries;
}.
Class ClientDecoder := decode_client : string → result string ClientMessage.

Section messages.
Context `{CO : !Correlation} `{CD : !ClientDecoder}.
Context (now : Z) (state : GatewayPorts).

Definition refusal (subscription_id : option string) (code message : string) : ServerEvent :=
  ErrorEvent STREAM_SCHEMA_VERSION subscription_id code message new_correlation_id.

Definition unavailable (subscription_id detail : string) : ServerEvent :=
  Status STREAM_SCHEMA_VERSION subscription_id SubSt.Unavailable (Some detail).

Definition market_error (subscription_id : string) (error : ApiError) : ServerEvent :=
  ErrorEvent STREAM_SCHEMA_VERSION (Some subscription_id) (ae_code error) (ae_message error) (ae_correlation_id error).

Definition slow_consumer_status : ServerEvent :=
  Status STREAM_SCHEMA_VERSION "" SubSt.DroppedSlowConsumer
    (Some "the outbound queue of 256 events is full; the socket is closed rather than buffered without limit").

(** The subscription is kept and its snapshot follows. *)
Definition accept (subscriptions : Subscriptions) (subscription_id : string) (subscription : Subscription)
    (payload : EventPayload) : Subscriptions * list ServerEvent :=
  (subscriptions ++ [(subscription_id, subscription)],
   [Status STREAM_SCHEMA_VERSION subscription_id SubSt.Active None;
    Snapshot STREAM_SCHEMA_VERSION subscription_id now (su_runtime_epoch subscription) (su_scope subscription) payload]).

Definition market_payload (port : MarketDataQueries) (topic : Topic) (instrument_uid : string)
    (interval : option CandleIntervalDto) (subscription_id : string) : result ServerEvent EventPayload :=
  let market {A} (r : result ApiError A) := map_err (market_error subscription_id) r in
  match topic with
  | Top.Quotes => let? quote := market (mq_quote port (gp_provider state) instrument_uid) in Ok (QuotePayload quote)
  | Top.OrderBook =>
      let? book := market (mq_order_book port (gp_provider state) instrument_uid 20) in Ok (OrderBookPayload book)
  | Top.Trades =>
      let? trades := market (mq_trades port (gp_provider state) instrument_uid 100) in Ok (TradesPayload trades)
  | Top.Candles =>
      let? interval := ok_or interval (refusal (Some subscription_id) "INTERVAL_REQUIRED" "a CANDLES topic needs interval") in
      let? page := market (mq_candles port (gp_provider state) instrument_uid interval 0 (int_max I64)) in
      Ok (CandlesPayload page)
  | Top.Session =>
      let? session := market (mq_session port (gp_provider state) instrument_uid) in Ok (SessionPayload session)
  | _ => Err (unavailable subscription_id "this topic is not a market projection topic")
  end.

Definition market_snapshot (subscriptions : Subscriptions) (subscription_id : string) (topic : Topic)
    (instrument_uid : option string) (interval : option CandleIntervalDto) : Subscriptions * list ServerEvent :=
  match
    (let? port := ok_or (gp_market_data state)
       (unavailable subscription_id "no market-data projection is attached to this process") in
     let? instrument_uid := ok_or (match instrument_uid with
                                   | Some value => if negb (is_blank value) then Some value else None
                                   | None => None
                                   end)
       (refusal (Some subscription_id) "INSTRUMENT_REQUIRED" "a market topic needs instrument_uid") in
     let? payload := market_payload port topic instrument_uid interval subscription_id in
     Ok (instrument_uid, payload)) with
  | Err event => (subscriptions, [event])
  | Ok (instrument_uid, payload) =>
      accept subscriptions subscription_id {|
        su_topic := topic; su_scope := None; su_instrument_uid := Some instrument_uid;
        su_interval := if bool_decide (topic = Top.Candles) then interval else None;
        su_sequence := 0; su_runtime_epoch := 0 |} payload
  end.

Definition health_snapshot (subscriptions : Subscriptions) (subscription_id : string) (scope : option ExecutionScope)
  : Subscriptions * list ServerEvent :=
  match gp_runtime state with
  | None => (subscriptions, [unavailable subscription_id "no runtime is attached to this process"])
  | Some (Err error) => (subscriptions, [market_error subscription_id error])
  | Some (Ok health) =>
      accept subscriptions subscription_id {|
        su_topic := Top.RuntimeHealth; su_scope := scope; su_instrument_uid := None; su_interval := None;
        su_sequence := 0; su_runtime_epoch := rhd_runtime_epoch health |} (HealthPayload health)
  end.

Definition account_topic (subscription_id : string) (scope : option ExecutionScope) : ServerEvent :=
  if negb (gp_accounts state)
  then unavailable subscription_id "no account read side is attached to this process"
  else match scope with
       | None => refusal (Some subscription_id) "SCOPE_REQUIRED" "an account-scoped topic needs its execution scope"
       | Some _ => unavailable subscription_id
                     "live updates for this topic need the runtime projection that #11 owns"
       end.

Definition subscribe (subscriptions : Subscriptions) (subscription_id : string) (topic : Topic)
    (scope : option ExecutionScope) (instrument_uid : option string) (interval : option CandleIntervalDto)
  : Subscriptions * list ServerEvent :=
  match List.find (by_key fst subscription_id) subscriptions with
  | Some existing =>
      (subscriptions,
       [refusal (Some subscription_id) "SUBSCRIPTION_ID_IN_USE"
          ("subscription id is already live for " +:+ topic_debug (su_topic existing.2))])
  | None =>
      match topic with
      | Top.RuntimeHealth => health_snapshot subscriptions subscription_id scope
      | Top.Quotes | Top.OrderBook | Top.Trades | Top.Candles | Top.Session =>
          market_snapshot subscriptions subscription_id topic instrument_uid interval
      | Top.Positions | Top.Orders | Top.Stops | Top.Operations | Top.Portfolio =>
          (subscriptions, [account_topic subscription_id scope])
      end
  end.

Definition handle_client_message (text : string) (subscriptions : Subscriptions) : Subscriptions * list ServerEvent :=
  match decode_client text with
  | Err error =>
      (subscriptions,
       [refusal None "MALFORMED_MESSAGE" ("the message is not a known client envelope: " +:+ error)])
  | Ok (PingMessage nonce) => (subscriptions, [Heartbeat STREAM_SCHEMA_VERSION now nonce])
  | Ok (Unsubscribe subscription_id) =>
      (List.filter (λ kv, negb (by_key fst subscription_id kv)) subscriptions,
       [Status STREAM_SCHEMA_VERSION subscription_id SubSt.Cancelled None])
  | Ok (Subscribe subscription_id topic scope instrument_uid interval) =>
      subscribe subscriptions subscription_id topic scope instrument_uid interval
  end.
End messages.

(** ** A socket *)

(** The writer waits for an event, or is putting one on the wire, or has ended. *)
Inductive Writer := Waiting | Writing (event : ServerEvent) | Stopped.

(** The reader serves the socket, or has left its loop, because the browser is slow or for
    another reason. *)
Inductive Reader := Serving | Leaving (slow : bool).

Record Socket := {
  so_subscriptions : Subscriptions;
  so_queue : list ServerEvent;
  so_delivered : list ServerEvent;
  so_writer : Writer;
  so_reader : Reader;
}.

Definition socket_open : Socket := {|
  so_subscriptions := []; so_queue := []; so_delivered := []; so_writer := Waiting; so_reader := Serving |}.

(** [for event in events { if tx.try_send(event).is_err() { overflow = true; break; } }]. *)
Fixpoint try_send_all (closed : bool) (events queue : list ServerEvent) : list ServerEvent * bool :=
  match events with
  | [] => (queue, false)
  | event :: events =>
      if closed || (OUTBOUND_QUEUE_CAPACITY <=? length queue)%nat then (queue, true)
      else try_send_all closed events (queue ++ [event])
  end.

(** The receiver of the queue is gone with its task. *)
Definition writer_stopped (w : Writer) : bool := match w with Stopped => true | _ => false end.

(** The reader put [events] on the queue and goes on, or leaves when they do not fit. *)
Definition offer (subscriptions : Subscriptions) (events : list ServerEvent) (s : Socket) : Socket :=
  let '(queue, overflow) := try_send_all (writer_stopped (so_writer s)) events (so_queue s) in {|
  so_subscriptions := subscriptions; so_queue := queue; so_delivered := so_delivered s; so_writer := so_writer s;
  so_reader := if overflow then Leaving true else Serving |}.

Definition leave (slow : bool) (s : Socket) : Socket := {|
  so_subscriptions := so_subscriptions s; so_queue := so_queue s; so_delivered := so_delivered s;
  so_writer := so_writer s; so_reader := Leaving slow |}.

(** The writer moves, with [written] on the wire. *)
Definition write (w : Writer) (written queue : list ServerEvent) (s : Socket) : Socket := {|
  so_subscriptions := so_subscriptions s; so_queue := queue; so_delivered := so_delivered s ++ written;
  so_writer := w; so_reader := so_reader s |}.

Definition if_sent (out : bool) (event : ServerEvent) : list ServerEvent := if out then [event] else [].

Definition option_list {A} (o : option A) : list A := match o with Some a => [a] | None => [] end.

Section socket.
Context `{CO : !Correlation} `{CD : !ClientDecoder}.

(** One turn of [select!] in the reader. *)
Inductive ReaderInput :=
| IncomingText (text : string) (state : GatewayPorts)
| IncomingOther
| IncomingEnd
| LiveEvent (event : ApplicationEvent)
| LiveLagged
| LiveClosed
| Beat.

Definition read_turn (now : Z) (input : ReaderInput) (s : Socket) : Socket :=
  match input with
  | IncomingText text state =>
      let '(subscriptions, events) := handle_client_message now state text (so_subscriptions s) in
      offer subscriptions events s
  | IncomingOther => s
  | IncomingEnd => leave false s
  | LiveEvent event =>
      let '(subscriptions, events) := updates_for now (so_subscriptions s) event in
      offer subscriptions events s
  | LiveLagged => leave true s
  | LiveClosed => leave false s
  | Beat => offer (so_subscriptions s) [Heartbeat STREAM_SCHEMA_VERSION now None] s
  end.

(** The two tasks; a turn of the reader is labelled with what it took.  The writer looks at
    the signal of the reader before the queue, but the reader may not have sent it yet.  What
    a write that fails, times out or is aborted has put on the wire is open ([out]). *)
Inductive turn : option (Z * ReaderInput) → Socket → Socket → Prop :=
| turn_read now input s :
    so_reader s = Serving → turn (Some (now, input)) s (read_turn now input s)
| turn_take event queue s :
    so_writer s = Waiting → so_queue s = event :: queue →
    turn None s (write (Writing event) [] queue s)
| turn_written event s :
    so_writer s = Writing event → turn None s (write Waiting [event] (so_queue s) s)
| turn_write_failed event out s :
    so_writer s = Writing event → turn None s (write Stopped (if_sent out event) (so_queue s) s)
| turn_write_timeout event out told s :
    so_writer s = Writing event →
    turn None s (write Stopped (if_sent out event ++ if_sent told slow_consumer_status) (so_queue s) s)
| turn_dropped told slow s :
    so_reader s = Leaving slow → so_writer s = Waiting →
    turn None s (write Stopped (if slow then if_sent told slow_consumer_status else []) (so_queue s) s)
| turn_aborted event out slow s :
    so_reader s = Leaving slow → so_writer s = Writing event →
    turn None s (write Stopped (if_sent out event) (so_queue s) s).

(** A socket after a run in which the reader took these inputs. *)
Inductive lived : list (Z * ReaderInput) → Socket → Prop :=
| lived_open : lived [] socket_open
| lived_turn taken label s s' :
    lived taken s → turn label s s' → lived (taken ++ option_list label) s'.
End socket.

(** ** What a browser sees *)

Definition payload_topic (p : EventPayload) : Topic :=
  match p with
  | HealthPayload _ => Top.RuntimeHealth
  | QuotePayload _ => Top.Quotes
  | OrderBookPayload _ => Top.OrderBook
  | TradesPayload _ => Top.Trades
  | CandlesPayload _ => Top.Candles
  | SessionPayload _ => Top.Session
  | PositionsPayload _ => Top.Positions
  | OrdersPayload _ => Top.Orders
  | StopsPayload _ => Top.Stops
  | OperationsPayload _ => Top.Operations
  | PortfolioPayload _ => Top.Portfolio
  end.

(** The live subscriptions, each with its topic and the number of its last update. *)
Notation View := (gmap string (Topic * Z)).

(** How an event changes the view; an event that does not fit it has no view. *)
Definition see (v : View) (event : ServerEvent) : option View :=
  match event with
  | Snapshot _ id _ _ _ payload =>
      match v !! id with None => Some (<[id := (payload_topic payload, 0)]> v) | Some _ => None end
  | Update _ id _ _ sequence _ payload =>
      match v !! id with
      | Some (topic, last) =>
          if bool_decide (payload_topic payload = topic) && (sequence =? saturating_add U64 last 1)
          then Some (<[id := (topic, sequence)]> v) else None
      | None => None
      end
  | Status _ id SubSt.Cancelled _ => Some (delete id v)
  | Status _ _ _ _ | ErrorEvent _ _ _ _ _ | Heartbeat _ _ _ => Some v
  end.

Fixpoint see_all (v : View) (events : list ServerEvent) : option View :=
  match events with
  | [] => Some v
  | event :: events => v' ← see v event; see_all v' events
  end.

Definition is_slow_status (event : ServerEvent) : bool :=
  match event with Status _ _ SubSt.DroppedSlowConsumer _ => true | _ => false end.

(** *** What a browser is owed *)

(** The events of the application that concern a subscription, and what they tell it. *)
Inductive concerns (sub : Subscription) : ApplicationEvent → EventPayload → Prop :=
| concerns_health health :
    su_topic sub = Top.RuntimeHealth → concerns sub (RuntimeHealthEvent health) (HealthPayload health)
| concerns_quote quote :
    su_topic sub = Top.Quotes → su_instrument_uid sub = Some (qd_instrument_uid quote) →
    concerns sub (QuoteEvent quote) (QuotePayload quote)
| concerns_book book :
    su_topic sub = Top.OrderBook → su_instrument_uid sub = Some (obd_instrument_uid book) →
    concerns sub (OrderBookEvent book) (OrderBookPayload book)
| concerns_trades instrument_uid ticks :
    su_topic sub = Top.Trades → su_instrument_uid sub = Some instrument_uid →
    concerns sub (TradesEvent instrument_uid ticks) (TradesPayload ticks)
| concerns_candles page :
    su_topic sub = Top.Candles → su_instrument_uid sub = Some (cds_instrument_uid page) →
    su_interval sub = Some (cds_interval page) → concerns sub (CandlesEvent page) (CandlesPayload page)
| concerns_session session :
    su_topic sub = Top.Session → su_instrument_uid sub = Some (ses_instrument_uid session) →
    concerns sub (SessionEvent session) (SessionPayload session).

(** The subscription that has had one more update; health moves it to its epoch. *)
Definition updated_to (event : ApplicationEvent) (sub sub' : Subscription) : Prop :=
  (su_topic sub', su_scope sub', su_instrument_uid sub', su_interval sub')
  = (su_topic sub, su_scope sub, su_instrument_uid sub, su_interval sub) ∧
  su_sequence sub' = saturating_add U64 (su_sequence sub) 1 ∧
  su_runtime_epoch sub' =
    match event with RuntimeHealthEvent health => rhd_runtime_epoch health | _ => su_runtime_epoch sub end.

(** An event owes every subscription it concerns one update, with its next number, and the
    others nothing. *)
Inductive owed (now : Z) (event : ApplicationEvent) : Subscriptions → Subscriptions → list ServerEvent → Prop :=
| owed_none : owed now event [] [] []
| owed_update id sub sub' payload rest rest' out :
    concerns sub event payload → updated_to event sub sub' → owed now event rest rest' out →
    owed now event ((id, sub) :: rest) ((id, sub') :: rest')
      (Update STREAM_SCHEMA_VERSION id now (su_runtime_epoch sub') (su_sequence sub') (su_scope sub) payload :: out)
| owed_nothing id sub rest rest' out :
    (∀ payload, ¬ concerns sub event payload) → owed now event rest rest' out →
    owed now event ((id, sub) :: rest) ((id, sub) :: rest') out.

(** The view of the subscriptions the gateway keeps. *)
Definition shown (kv : string * Subscription) : string * (Topic * Z) := (kv.1, (su_topic kv.2, su_sequence kv.2)).
Definition view_of (subscriptions : Subscriptions) : View := list_to_map (shown <$> subscriptions).

(** ** Lemmas *)

Lemma see_all_app v l1 l2 : see_all v (l1 ++ l2) = (v' ← see_all v l1; see_all v' l2).
Proof. revert v. induction l1 as [|e l IH]; intros v; simpl; [done|]. destruct (see v e); simpl; [apply IH|done]. Qed.

Lemma see_all_prefix v l1 l2 v' : see_all v (l1 ++ l2) = Some v' → ∃ w, see_all v l1 = Some w ∧ see_all w l2 = Some v'.
Proof. rewrite see_all_app. destruct (see_all v l1) as [w|]; simpl; [by exists w|done]. Qed.

Lemma view_keys (subs : Subscriptions) : (shown <$> subs).*1 = subs.*1.
Proof. by rewrite <- list_fmap_compose. Qed.

Lemma view_of_None subs id : id ∉ subs.*1 → view_of subs !! id = None.
Proof. intros H. apply not_elem_of_list_to_map_1. by rewrite view_keys. Qed.

Lemma view_of_cons id sub subs : view_of ((id, sub) :: subs) = <[id := (su_topic sub, su_sequence sub)]> (view_of subs).
Proof. done. Qed.

Lemma view_of_perm (l1 l2 : Subscriptions) : keyed fst l1 → l1 ≡ₚ l2 → view_of l1 = view_of l2.
Proof. intros Hk Hp. apply list_to_map_proper; [by rewrite view_keys|by rewrite Hp]. Qed.

Lemma view_of_middle l1 id sub l2 :
  keyed fst (l1 ++ (id, sub) :: l2) →
  view_of (l1 ++ (id, sub) :: l2) = <[id := (su_topic sub, su_sequence sub)]> (view_of (l1 ++ l2)).
Proof. intros Hk. rewrite (view_of_perm _ ((id, sub) :: l1 ++ l2) Hk); [done|]. symmetry. apply Permutation_middle. Qed.

Lemma see_update v now epoch scope id topic last payload :
  v !! id = Some (topic, last) → payload_topic payload = topic →
  see v (Update STREAM_SCHEMA_VERSION id now epoch (saturating_add U64 last 1) scope payload)
  = Some (<[id := (topic, saturating_add U64 last 1)]> v).
Proof. intros Hv <-. simpl. rewrite Hv. by rewrite bool_decide_eq_true_2, Z.eqb_refl. Qed.

Lemma matches_topic sub event : sub_matches sub event = true → payload_topic (payload_for event) = su_topic sub.
Proof. unfold sub_matches. by destruct (su_topic sub), event. Qed.

Lemma updates_for_keys now subs event : (updates_for now subs event).1.*1 = subs.*1.
Proof.
  induction subs as [|[id sub] subs IH]; [done|]. cbn [updates_for]. destruct (updates_for now subs event) as [rest out].
  unfold next_update. destruct (sub_matches sub event); cbn [negb fst snd] in *; rewrite !fmap_cons; by f_equal.
Qed.

Lemma updates_for_seen now event pre subs :
  keyed fst (pre ++ subs) →
  see_all (view_of (pre ++ subs)) (updates_for now subs event).2
  = Some (view_of (pre ++ (updates_for now subs event).1)).
Proof.
  revert pre. induction subs as [|[id sub] subs IH]; intros pre Hk; [done|]. simpl.
  pose proof (updates_for_keys now subs event) as Hkeys.
  specialize (IH (pre ++ [(id, sub)])) as IH'. rewrite <- !app_assoc in IH'. simpl in IH'.
  destruct (updates_for now subs event) as [rest out] eqn:Hu. simpl in Hkeys.
  destruct (sub_matches sub event) eqn:Hm; simpl; [|by apply IH'].
  set (sub' := {| su_topic := _ |}).
  assert (keyed fst (pre ++ (id, sub') :: subs)) as Hk'.
  { unfold keyed in *. by rewrite fmap_app in *. }
  rewrite view_of_middle by done. rewrite lookup_insert_eq. simpl.
  rewrite (matches_topic _ _ Hm), bool_decide_eq_true_2, Z.eqb_refl by done. simpl. rewrite insert_insert_eq.
  specialize (IH (pre ++ [(id, sub')])). rewrite <- !app_assoc in IH. simpl in IH. specialize (IH Hk').
  by rewrite view_of_middle in IH by done.
Qed.

(** The updates of an event are those of the matching subscriptions, in their order. *)
Lemma updates_for_matching now subs event :
  Forall2 (λ kv u, ∃ epoch sequence, u = Update STREAM_SCHEMA_VERSION kv.1 now epoch sequence (su_scope kv.2) (payload_for event))
    (List.filter (λ kv, sub_matches kv.2 event) subs) (updates_for now subs event).2.
Proof.
  induction subs as [|[id sub] subs IH]; [constructor|]. cbn [updates_for List.filter snd].
  destruct (updates_for now subs event) as [rest out]. unfold next_update.
  destruct (sub_matches sub event); cbn [negb snd fst] in *; [|exact IH]. constructor; [by eexists _, _|exact IH].
Qed.

Lemma view_of_filter id subs : view_of (List.filter (λ kv, negb (by_key fst id kv)) subs) = delete id (view_of subs).
Proof.
  induction subs as [|[k sub] subs IH]; [symmetry; apply delete_empty|]. cbn [List.filter].
  unfold by_key at 1. cbn [fst].
  destruct (bool_decide (k = id)) eqn:Hk; [apply bool_decide_eq_true in Hk as ->|apply bool_decide_eq_false in Hk];
    cbn [negb]; rewrite !view_of_cons, IH; [by rewrite delete_insert_eq|by rewrite delete_insert_ne].
Qed.

(** Events that do not say that the browser is slow. *)
Definition calm (events : list ServerEvent) : Prop := Forall (λ e, is_slow_status e = false) events.

(** What the reader does with its subscriptions, and the events that tell the browser. *)
Definition tells (subs : Subscriptions) (answer : Subscriptions * list ServerEvent) : Prop :=
  keyed fst answer.1 ∧ see_all (view_of subs) answer.2 = Some (view_of answer.1) ∧ calm answer.2.

Lemma tells_same subs event :
  keyed fst subs → see (view_of subs) event = Some (view_of subs) → is_slow_status event = false →
  tells subs (subs, [event]).
Proof. intros Hk Hs Hc. split_and!; [done| |by repeat constructor]. simpl. by rewrite Hs. Qed.

Lemma tells_updates now subs event : keyed fst subs → tells subs (updates_for now subs event).
Proof.
  intros Hk. split_and!.
  - unfold keyed. by rewrite updates_for_keys.
  - by apply (updates_for_seen now event []).
  - apply Forall_forall. intros u Hu. apply list_elem_of_lookup in Hu as [k Hu].
    by destruct (Forall2_lookup_r _ _ _ _ _ (updates_for_matching now subs event) Hu) as (kv & _ & epoch & sq & ->).
Qed.

Lemma sub_matches_concerns sub event :
  if sub_matches sub event then concerns sub event (payload_for event) else ∀ payload, ¬ concerns sub event payload.
Proof.
  unfold sub_matches. destruct (su_topic sub) eqn:Ht, event; simpl;
    repeat (case_bool_decide; simpl); try (by constructor); intros payload Hc; inversion Hc; congruence.
Qed.

Lemma updates_for_owed now subs event :
  owed now event subs (updates_for now subs event).1 (updates_for now subs event).2.
Proof.
  induction subs as [|[id sub] subs IH]; [constructor|]. cbn [updates_for].
  destruct (updates_for now subs event) as [rest out]. pose proof (sub_matches_concerns sub event) as Hc.
  destruct (sub_matches sub event); cbn [negb].
  - refine (owed_update now event id sub (fst (next_update now (set_epoch event sub) (payload_for event) id))
      (payload_for event) subs rest out Hc _ IH). by destruct event.
  - by apply owed_nothing.
Qed.

Section reader.
Context `{CO : !Correlation} `{CD : !ClientDecoder}.

Lemma tells_accept now subs id sub payload :
  keyed fst subs → List.find (by_key fst id) subs = None → su_sequence sub = 0 → payload_topic payload = su_topic sub →
  tells subs (accept now subs id sub payload).
Proof.
  intros Hk Hf Hs Hp. apply find_by_key_None in Hf. unfold accept. split_and!; simpl; [|..|by repeat constructor].
  - by apply keyed_snoc.
  - rewrite view_of_None by done. simpl. rewrite view_of_middle by (by apply keyed_snoc).
    by rewrite app_nil_r, Hp, Hs.
Qed.

Lemma market_payload_topic state port topic uid interval id payload :
  market_payload state port topic uid interval id = Ok payload → payload_topic payload = topic.
Proof.
  unfold market_payload. destruct topic; try done; intros H;
    repeat match type of H with (match ?m with _ => _ end) = _ => destruct m; try done end; by injection H as <-.
Qed.

Lemma market_payload_calm state port topic uid interval id e :
  market_payload state port topic uid interval id = Err e →
  (∀ v, see v e = Some v) ∧ is_slow_status e = false.
Proof.
  unfold market_payload. destruct topic; intros H;
    repeat match type of H with (match ?m with _ => _ end) = _ => destruct m eqn:?; try done end;
    repeat match goal with E : map_err _ ?r = Err _ |- _ => destruct r; try done; injection E as <- end;
    repeat match goal with E : ok_or ?r _ = Err _ |- _ => destruct r; try done; injection E as <- end;
    by injection H as <-.
Qed.

Lemma tells_market now state subs id topic uid interval :
  keyed fst subs → List.find (by_key fst id) subs = None →
  tells subs (market_snapshot now state subs id topic uid interval).
Proof.
  intros Hk Hf. unfold market_snapshot. destruct (gp_market_data state) as [port|]; simpl; [|by apply tells_same].
  destruct (match uid with Some value => _ | None => None end) as [u|]; simpl; [|by apply tells_same].
  destruct (market_payload _ _ _ _ _ _) as [payload|e] eqn:Hp.
  - apply tells_accept; try done. by apply market_payload_topic in Hp.
  - apply market_payload_calm in Hp as [Hs Hc]. by apply tells_same.
Qed.

Lemma tells_message now state text subs : keyed fst subs → tells subs (handle_client_message now state text subs).
Proof.
  intros Hk. unfold handle_client_message. destruct (decode_client text) as [[id topic scope uid interval|id|nonce]|]; try by apply tells_same.
  - unfold subscribe. destruct (List.find _ subs) as [existing|] eqn:Hf; [by apply tells_same|].
    assert (tells subs (subs, [account_topic state id scope])) as Ha.
    { unfold account_topic. destruct (negb _); [|destruct scope]; by apply tells_same. }
    destruct topic; try exact Ha; try by apply tells_market.
    unfold health_snapshot. destruct (gp_runtime state) as [[health|]|]; try by apply tells_same. by apply tells_accept.
  - split_and!; simpl; [by apply keyed_filter|by rewrite view_of_filter|by repeat constructor].
Qed.
End reader.

(** *** The queue *)

Lemma try_send_all_spec closed events queue queue' overflow :
  try_send_all closed events queue = (queue', overflow) →
  ∃ sent rest, events = sent ++ rest ∧ queue' = queue ++ sent ∧
    (overflow = false → rest = []) ∧ (closed = true → sent = []) ∧
    ((length queue ≤ OUTBOUND_QUEUE_CAPACITY)%nat → (length queue' ≤ OUTBOUND_QUEUE_CAPACITY)%nat).
Proof.
  revert queue. induction events as [|e events IH]; intros queue; cbn [try_send_all].
  { intros [= <- <-]. exists [], []. rewrite (app_nil_r queue). by split_and!. }
  destruct (closed || _) eqn:Hc.
  { intros [= <- <-]. exists [], (e :: events). rewrite (app_nil_r queue). by split_and!. }
  apply orb_false_iff in Hc as [-> Hc%Nat.leb_gt].
  intros (sent & rest & -> & -> & Ho & _ & Hl)%IH. exists (e :: sent), rest. rewrite <- app_assoc. split_and!; try done.
  intros _. rewrite length_app in Hl. simpl in Hl. rewrite <- app_assoc in Hl. simpl in Hl. apply Hl. lia.
Qed.

(** What was accepted for the browser and is not lost yet. *)
Definition pending (s : Socket) : list ServerEvent :=
  so_delivered s ++ (match so_writer s with Writing event => [event] | _ => [] end) ++ so_queue s.

Definition last_only (events : list ServerEvent) : Prop :=
  ∀ k e, events !! k = Some e → is_slow_status e = true → S k = length events.

Lemma calm_last_only l : calm l → last_only l.
Proof. intros H k e Hk Hs. unfold calm in H. rewrite Forall_lookup in H. rewrite (H _ _ Hk) in Hs. done. Qed.

Lemma last_only_snoc l e : calm l → last_only (l ++ [e]).
Proof.
  intros H k x Hk Hs. unfold calm in H. apply lookup_app_Some in Hk as [Hk|[Hl Hk]].
  - rewrite Forall_lookup in H. by rewrite (H _ _ Hk) in Hs.
  - apply list_lookup_singleton_Some in Hk as [Hk _]. rewrite length_app. simpl. lia.
Qed.

Record socket_inv (s : Socket) : Prop := {
  si_keyed : keyed fst (so_subscriptions s);
  si_bounded : (length (so_queue s) ≤ OUTBOUND_QUEUE_CAPACITY)%nat;
  si_seen : is_Some (see_all ∅ (so_delivered s));
  si_last : last_only (so_delivered s);
  si_running : so_writer s ≠ Stopped →
    calm (pending s) ∧ ∃ v, see_all ∅ (pending s) = Some v ∧ (so_reader s = Serving → v = view_of (so_subscriptions s));
}.

Lemma socket_open_inv : socket_inv socket_open.
Proof.
  constructor; [constructor|simpl; lia|by eexists|by intros|]. intros _. split; [constructor|]. by exists ∅.
Qed.

Lemma offer_inv subs events s :
  socket_inv s → so_reader s = Serving → tells (so_subscriptions s) (subs, events) → socket_inv (offer subs events s).
Proof.
  intros [Hk Hb Hs Hl Hr] Hser (Hk' & Ht & Hc). unfold offer.
  destruct (try_send_all _ _ _) as [queue overflow] eqn:Hq.
  apply try_send_all_spec in Hq as (sent & rest & -> & -> & Ho & _ & Hlen).
  constructor; simpl in *; auto.
  intros Hw. destruct (Hr Hw) as (Hcalm & v & Hv & Hview). unfold pending in *. simpl.
  rewrite !app_assoc. rewrite <- (app_assoc (so_delivered s)). split.
  { apply Forall_app. split; [done|]. by apply Forall_app in Hc as [? _]. }
  rewrite see_all_app, Hv. simpl. rewrite (Hview Hser).
  destruct (see_all_prefix _ _ _ _ Ht) as (w & Hw' & Hrest). exists w. split; [done|].
  destruct overflow; [done|]. intros _. rewrite (Ho eq_refl) in Hrest. simpl in Hrest. by injection Hrest.
Qed.

Lemma leave_inv slow s : socket_inv s → socket_inv (leave slow s).
Proof.
  intros [Hk Hb Hs Hl Hr]. constructor; simpl; auto. intros Hw. destruct (Hr Hw) as (Hc & v & Hv & _).
  split; [done|]. by exists v.
Qed.

(** The writer ends with a prefix of what it was given on the wire, and perhaps the status. *)
Lemma stop_inv written lost told s :
  socket_inv s → so_writer s ≠ Stopped → so_delivered s ++ written ++ lost = pending s →
  socket_inv (write Stopped (written ++ (if told : bool then [slow_consumer_status] else [])) (so_queue s) s).
Proof.
  intros [Hk Hb Hs Hl Hr] Hw Hp. destruct (Hr Hw) as (Hc & v & Hv & _). rewrite <- Hp, app_assoc in Hc, Hv.
  apply Forall_app in Hc as [Hc _]. destruct (see_all_prefix _ _ _ _ Hv) as (u & Hu & _).
  constructor; simpl; auto; rewrite ?app_assoc.
  - rewrite see_all_app, Hu. destruct told; by eexists.
  - destruct told; [by apply last_only_snoc|]. rewrite app_nil_r. by apply calm_last_only.
  - done.
Qed.

Section turns.
Context `{CO : !Correlation} `{CD : !ClientDecoder}.

(** The account of what a reader took: the subscriptions it leads to, and everything that is
    to be said, in order: the answers to messages, the updates that events owe, the beats.
    There is none for a run in which an event was missed or the socket was left. *)
Inductive accounted : list (Z * ReaderInput) → Subscriptions → list ServerEvent → Prop :=
| accounted_open : accounted [] [] []
| accounted_message taken subs said now text state subs' answers :
    accounted taken subs said → handle_client_message now state text subs = (subs', answers) →
    accounted (taken ++ [(now, IncomingText text state)]) subs' (said ++ answers)
| accounted_event taken subs said now event subs' updates :
    accounted taken subs said → owed now event subs subs' updates →
    accounted (taken ++ [(now, LiveEvent event)]) subs' (said ++ updates)
| accounted_beat taken subs said now :
    accounted taken subs said →
    accounted (taken ++ [(now, Beat)]) subs (said ++ [Heartbeat STREAM_SCHEMA_VERSION now None])
| accounted_other taken subs said now :
    accounted taken subs said → accounted (taken ++ [(now, IncomingOther)]) subs said.

(** Everything on its way to the browser is of the account; while the socket is served the
    account is of all that was taken, and all of it is on its way. *)
Record accountable (taken : list (Z * ReaderInput)) (s : Socket) (counted : list (Z * ReaderInput))
    (subs : Subscriptions) (said : list ServerEvent) : Prop := {
  ac_counted : counted `prefix_of` taken;
  ac_account : accounted counted subs said;
  ac_serving : so_reader s = Serving → counted = taken ∧ subs = so_subscriptions s;
  ac_pending : so_writer s ≠ Stopped → pending s `prefix_of` said ∧ (so_reader s = Serving → pending s = said);
  ac_delivered : ∃ l told, so_delivered s = l ++ if_sent told slow_consumer_status ∧ l `prefix_of` said ∧
    (told = true → so_writer s = Stopped);
}.

Lemma offer_accountable taken x s subs said subs' answers :
  accountable taken s taken subs said → so_reader s = Serving → accounted (taken ++ [x]) subs' (said ++ answers) →
  accountable (taken ++ [x]) (offer subs' answers s) (taken ++ [x]) subs' (said ++ answers).
Proof.
  intros [_ _ _ Hp Hd] Hr Ha. unfold offer. destruct (try_send_all _ _ _) as [queue overflow] eqn:Hq.
  apply try_send_all_spec in Hq as (sent & rest & -> & -> & Ho & _ & _). split; simpl; try done.
  - intros Hw. destruct (Hp Hw) as [_ Heq]. specialize (Heq Hr). unfold pending in *. simpl.
    rewrite !app_assoc in *. rewrite Heq. split; [by exists rest|]. destruct overflow; [done|]. intros _.
    by rewrite (Ho eq_refl), app_nil_r.
  - destruct Hd as (l & told & Hl & Hpre & Ht). exists l, told. split_and!; [done|by apply prefix_app_r|done].
Qed.

Lemma leave_accountable taken x slow s subs said :
  accountable taken s taken subs said → accountable (taken ++ [x]) (leave slow s) taken subs said.
Proof.
  intros [_ Ha _ Hp Hd]. split; simpl; try done; [by exists [x]|]. intros Hw. by destruct (Hp Hw) as [? _].
Qed.

Lemma read_accountable taken now input s subs said :
  accountable taken s taken subs said → so_reader s = Serving →
  ∃ counted subs' said', accountable (taken ++ [(now, input)]) (read_turn now input s) counted subs' said'.
Proof.
  intros Hac Hr. pose proof Hac as [_ Ha Hs Hp Hd]. destruct (Hs Hr) as [_ ->].
  destruct input as [text state| | |event| | |]; simpl; try (eexists _, _, _; by apply leave_accountable).
  - destruct (handle_client_message _ _ _ _) as [subs' answers] eqn:Hm. eexists _, _, _.
    eapply offer_accountable; [done|done|by eapply accounted_message].
  - eexists _, _, _. split; [done|by apply accounted_other|done|done|done].
  - pose proof (updates_for_owed now (so_subscriptions s) event) as Ho. destruct (updates_for _ _ _) as [subs' updates].
    eexists _, _, _. eapply offer_accountable; [done|done|by eapply accounted_event].
  - eexists _, _, _. eapply offer_accountable; [done|done|by apply accounted_beat].
Qed.

(** The writer ends with [written] of what it had on the wire, and perhaps the status. *)
Lemma stop_accountable taken s counted subs said written lost told :
  accountable taken s counted subs said → so_writer s ≠ Stopped → so_delivered s ++ written ++ lost = pending s →
  accountable taken (write Stopped (written ++ if_sent told slow_consumer_status) (so_queue s) s) counted subs said.
Proof.
  intros [Hc Ha Hs Hp Hd] Hw Hpre. split; try done. simpl.
  exists (so_delivered s ++ written), told. rewrite app_assoc. split_and!; [done| |done].
  destruct (Hp Hw) as [Hpr _]. rewrite <-Hpre, app_assoc in Hpr. by eapply prefix_app_l.
Qed.

Lemma interrupted_accountable taken event out told s counted subs said :
  accountable taken s counted subs said → so_writer s = Writing event →
  accountable taken (write Stopped (if_sent out event ++ if_sent told slow_consumer_status) (so_queue s) s)
    counted subs said.
Proof.
  intros Hac Hw. eapply (stop_accountable _ _ _ _ _ _ (if_sent (negb out) event ++ so_queue s)); [done|by rewrite Hw|].
  unfold pending. rewrite Hw. by destruct out.
Qed.

(** While the writer runs, nothing was said after the account. *)
Lemma delivered_running taken s counted subs said :
  accountable taken s counted subs said → so_writer s ≠ Stopped →
  ∃ l told, so_delivered s = l ++ if_sent told slow_consumer_status ∧ told = false.
Proof.
  intros [_ _ _ _ (l & told & Hl & _ & Ht)] Hw. exists l, told. split; [done|]. destruct told; [by specialize (Ht eq_refl)|done].
Qed.

Lemma write_accountable taken s s' counted subs said :
  accountable taken s counted subs said → turn None s s' → accountable taken s' counted subs said.
Proof.
  intros Hac Ht. inversion Ht as [|event queue ? Hw Hq|event ? Hw|event out ? Hw|event out told ? Hw|told slow ? Hr Hw|event out slow ? Hr Hw];
    subst.
  - pose proof Hac as [Hc Ha Hs Hp Hd]. split; simpl; rewrite ?app_nil_r; try done.
    + intros _. unfold pending in *. simpl. rewrite Hw, Hq in Hp. rewrite app_nil_r. by apply Hp.
    + destruct Hd as (l & told & Hl & Hpr & Htold). exists l, told. split_and!; [done..|]. intros H%Htold. congruence.
  - destruct (delivered_running _ _ _ _ _ Hac ltac:(by rewrite Hw)) as (l & told & Hl & ->).
    pose proof Hac as [Hc Ha Hs Hp Hd]. destruct Hp as [Hp1 Hp2]; [by rewrite Hw|]. unfold pending in *. rewrite Hw in Hp1, Hp2.
    rewrite app_assoc in Hp1, Hp2. split; simpl; try done.
    exists (so_delivered s ++ [event]), false. simpl. rewrite app_nil_r. split_and!; [done| |done]. by eapply prefix_app_l.
  - rewrite <-(app_nil_r (if_sent out event)). by apply (interrupted_accountable _ _ _ false).
  - by apply interrupted_accountable.
  - assert (so_delivered s ++ [] ++ so_queue s = pending s) as Hp by (unfold pending; by rewrite Hw).
    assert (so_writer s ≠ Stopped) as Hn by (by rewrite Hw).
    destruct slow; [exact (stop_accountable _ _ _ _ _ [] _ told Hac Hn Hp)|exact (stop_accountable _ _ _ _ _ [] _ false Hac Hn Hp)].
  - rewrite <-(app_nil_r (if_sent out event)). by apply (interrupted_accountable _ _ _ false).
Qed.

Lemma lived_accountable taken s : lived taken s → ∃ counted subs said, accountable taken s counted subs said.
Proof.
  induction 1 as [|taken label s s' _ (counted & subs & said & Hac) Ht].
  - exists [], [], []. split; [done|constructor|done|done|]. by exists [], false.
  - destruct label as [[now input]|]; simpl.
    + inversion Ht; subst. destruct (ac_serving _ _ _ _ _ Hac) as [-> _]; [done|]. by eapply read_accountable.
    + rewrite app_nil_r. exists counted, subs, said. by eapply write_accountable.
Qed.

Lemma accounted_takes taken subs said :
  accounted taken subs said →
  Forall (λ x, match x.2 with LiveLagged | LiveClosed | IncomingEnd => False | _ => True end) taken.
Proof. induction 1; [constructor|apply Forall_app; split; [done|by repeat constructor]..]. Qed.

Lemma read_turn_inv now input s : socket_inv s → so_reader s = Serving → socket_inv (read_turn now input s).
Proof.
  intros Hi Hs. pose proof (si_keyed _ Hi) as Hk. destruct input as [text state| | |event| | |]; simpl;
    try (by apply leave_inv); try done.
  - pose proof (tells_message now state text _ Hk) as Ht. destruct (handle_client_message _ _ _ _). by apply offer_inv.
  - pose proof (tells_updates now _ event Hk) as Ht. destruct (updates_for _ _ _). by apply offer_inv.
  - apply offer_inv; [done..|]. by apply tells_same.
Qed.

Lemma if_sent_split (out : bool) (event : ServerEvent) : ∃ lost, if_sent out event ++ lost = [event].
Proof. destruct out; [by exists []|by exists [event]]. Qed.

Lemma interrupted_inv event out told s :
  socket_inv s → so_writer s = Writing event →
  socket_inv (write Stopped (if_sent out event ++ if_sent told slow_consumer_status) (so_queue s) s).
Proof.
  intros Hi Hw. destruct (if_sent_split out event) as [lost Hl]. 
  apply (stop_inv _ (lost ++ so_queue s)); [done|by rewrite Hw|]. unfold pending. rewrite Hw, <- Hl. by rewrite !app_assoc.
Qed.

Lemma turn_inv label s s' : turn label s s' → socket_inv s → socket_inv s'.
Proof.
  intros Ht Hi. destruct Ht as [now input s Hs|event queue s Hw Hq|event s Hw|event out s Hw|event out told s Hw|told slow s Hr Hw|event out slow s Hr Hw].
  - by apply read_turn_inv.
  - destruct Hi as [Hk Hb Hs Hl Hr]. constructor; simpl; rewrite ?app_nil_r; auto.
    + rewrite Hq in Hb. simpl in Hb. lia.
    + intros _. unfold pending in *. simpl. rewrite app_nil_r. rewrite Hw, Hq in Hr. by apply Hr.
  - destruct Hi as [Hk Hb Hs Hl Hr]. rewrite Hw in Hr. destruct (Hr ltac:(done)) as (Hc & v & Hv & Hview).
    unfold pending in *. rewrite Hw in Hc, Hv. rewrite app_assoc in Hc, Hv. 
    destruct (see_all_prefix _ _ _ _ Hv) as (u & Hu & _).
    constructor; simpl; [done|done|by exists u|by apply calm_last_only; apply Forall_app in Hc as [? _]|].
    intros _. unfold pending. simpl. split; [done|]. by exists v.
  - rewrite <- (app_nil_r (if_sent out event)). by apply (interrupted_inv event out false).
  - by apply interrupted_inv.
  - assert (so_delivered s ++ [] ++ so_queue s = pending s) as Hp by (unfold pending; by rewrite Hw).
    assert (so_writer s ≠ Stopped) as Hn by (by rewrite Hw).
    destruct slow; [exact (stop_inv [] _ told s Hi Hn Hp)|exact (stop_inv [] _ false s Hi Hn Hp)].
  - rewrite <- (app_nil_r (if_sent out event)). by apply (interrupted_inv event out false).
Qed.

(** ** Properties *)

(** C32. A browser never misses, repeats or mixes up an event without noticing.  However the
    two tasks of a socket interleave, what was delivered is a prefix of the account of what
    the reader took, but for a last status: the answers to messages, and for every event of
    the application one update of each subscription it concerns, by topic, instrument and
    interval, with that event's content.  As long as the socket is served the account is of
    everything that was taken, no event was missed, and all of it is delivered or queued; a
    reader that missed events leaves as from a slow browser.  What was delivered reads as one
    consistent history:
    a snapshot opens a subscription whose identity is not live, every update belongs to a
    live subscription, has its topic and carries the number after the last one, until the
    subscription is cancelled.  As long as the socket is served, what was delivered and what
    is still queued make the browser see exactly the subscriptions the gateway keeps.  The
    queue never holds more than its capacity, and the status that tells a browser it was too
    slow is the last thing it receives. *)
Theorem gateway_streams_have_no_gaps taken s :
  lived taken s →
  (∃ counted subs said, accountable taken s counted subs said) ∧
  (so_reader s = Serving → ∀ now, (now, LiveLagged) ∉ taken) ∧
  (∀ now, so_reader (read_turn now LiveLagged s) = Leaving true) ∧
  is_Some (see_all ∅ (so_delivered s)) ∧
  (length (so_queue s) ≤ OUTBOUND_QUEUE_CAPACITY)%nat ∧
  last_only (so_delivered s) ∧
  (so_reader s = Serving → so_writer s ≠ Stopped →
     see_all ∅ (pending s) = Some (view_of (so_subscriptions s))).
Proof.
  intros Hr. assert (socket_inv s) as [Hk Hb Hs Hl Hrun].
  { induction Hr; [exact socket_open_inv|by eapply turn_inv]. }
  destruct (lived_accountable taken s Hr) as (counted & subs & said & Hac).
  split_and!; try done; [by exists counted, subs, said| |].
  - intros Hser now Hin. destruct (ac_serving _ _ _ _ _ Hac Hser) as [-> _].
    pose proof (accounted_takes _ _ _ (ac_account _ _ _ _ _ Hac)) as Hall. rewrite Forall_forall in Hall. by apply Hall in Hin.
  - intros Hser Hw. destruct (Hrun Hw) as (_ & v & Hv & Hview). by rewrite Hv, Hview.
Qed.
End turns.

(** ** A socket with one subscription *)

Module GatewaySample.
#[local] Instance gateway_correlation : Correlation := "correlation-1"%string.
#[local] Instance gateway_decoder : ClientDecoder := λ text,
  if bool_decide (text = "quotes"%string)
  then Ok (Subscribe "subscription-1" Top.Quotes None (Some "instrument-1"%string) None) else Err "unknown variant"%string.

Definition quote (last : Z) : QuoteDto := quote_from_last_price "instrument-1" (Fixed last) 0 StreamDto.Active.
Definition ports : GatewayPorts := {|
  gp_provider := TInvestDto; gp_runtime := None; gp_accounts := true;
  gp_market_data := Some (projection_queries 10 (fst (publish_quote (quote 1) projection_new))) |}.

Definition subscribed : Socket := Eval vm_compute in read_turn 10 (IncomingText "quotes" ports) socket_open.
Definition updated : Socket := Eval vm_compute in read_turn 11 (LiveEvent (QuoteEvent (quote 2))) subscribed.

(** The writer puts the head of the queue on the wire. *)
Definition deliver (s : Socket) : Socket :=
  match so_queue s with
  | event :: queue => write Waiting [event] queue (write (Writing event) [] queue s)
  | [] => s
  end.

Lemma deliver_turns taken s : lived taken s → so_writer s = Waiting → lived taken (deliver s).
Proof.
  intros Hl Hw. unfold deliver. destruct (so_queue s) as [|event queue] eqn:Hq; [done|].
  rewrite <-(app_nil_r taken). eapply (lived_turn _ None); [|by apply (turn_written event (write (Writing event) [] queue s))].
  rewrite <-(app_nil_r taken). by eapply (lived_turn _ None); [|apply turn_take].
Qed.

Definition received : Socket := Eval vm_compute in deliver (deliver (deliver updated)).

Definition inputs : list (Z * ReaderInput) :=
  [(10, IncomingText "quotes" ports); (11, LiveEvent (QuoteEvent (quote 2)))].

Lemma received_reached : lived inputs received.
Proof.
  change received with (deliver (deliver (deliver updated))). do 3 (apply deliver_turns; [|done]).
  apply (lived_turn [(10, IncomingText "quotes" ports)] (Some (11, LiveEvent (QuoteEvent (quote 2)))) subscribed);
    [|by apply (turn_read 11 (LiveEvent (QuoteEvent (quote 2))) subscribed)].
  apply (lived_turn [] (Some (10, IncomingText "quotes"%string ports)) socket_open); [constructor|].
  assert (read_turn 10 (IncomingText "quotes" ports) socket_open = subscribed) as <- by (vm_compute; reflexivity).
  by apply turn_read.
Qed.
End GatewaySample.
Import GatewaySample.

Lemma gateway_streams_have_no_gaps_witness :
  length (so_delivered received) = 3%nat ∧
  see_all ∅ (pending received) = Some (view_of [("subscription-1"%string, {|
    su_topic := Top.Quotes; su_scope := None; su_instrument_uid := Some "instrument-1"%string; su_interval := None;
    su_sequence := 1; su_runtime_epoch := 0 |})]).
Proof.
  split; [reflexivity|].
  apply (@gateway_streams_have_no_gaps gateway_correlation gateway_decoder inputs received received_reached);
    [reflexivity|discriminate].
Defined.
