(* ===== verification/ConnectionAdmin.v ===== *)
(** * Connection administration: [crates/vox-api/src/connection_attach.rs] and
      [contract/connections.rs]

    The adapter between the public interface and the connection service: it builds the
    security context of the operator, parses identities, calls the service and turns its
    answers into views without credentials and its errors into public ones.  After a
    rotation, a disabling or a deletion it tells the runtimes that the connection changed.

    The service is the one of [ConnectionService], over its traits; the observer is a
    parameter, which the last section instantiates with the registry of
    [ProductionRuntime]. *)
From S2P Require Import Prelude Money Domain RiskModel RiskStore RuntimeModel RuntimePolicy RuntimePorts RuntimeJournal.
From S2P Require Import RuntimeReconcile RuntimeCoordinator ConnectionModel ApiMoney ApiContract ApiReads SecretStore.
From S2P Require Import ConnectionRepository ConnectionService ConnectionSafety OperatorAuth ProductionRisk ProductionRuntime.

(** ** Views *)

Module CredDto.
Inductive CredentialStatusDto :=
| PendingValidation | Valid | Invalid | ExpiredOrInactive | PendingDisable | Disabled | PendingDelete.
Inductive CredentialClassDto := Unknown | ReadOnly | FullAccess | TransferAccess | Sandbox.
Inductive CredentialScopeDto := NotConfirmed | SingleAccountRestricted | AllAccessibleAccounts.
End CredDto.
Notation CredentialStatusDto := CredDto.CredentialStatusDto.
Notation CredentialClassDto := CredDto.CredentialClassDto.
Notation CredentialScopeDto := CredDto.CredentialScopeDto.

Module CapDto.
Inductive ConnectionCapabilityDto :=
| AccountDiscovery | PortfolioRead | PositionsRead | OperationsRead | StreamHealth | SandboxOrders
| ProductionOrdersProviderAllowed.
End CapDto.
Notation ConnectionCapabilityDto := CapDto.ConnectionCapabilityDto.

Module HealthDto.
Inductive ConnectionHealthStateDto :=
| Unknown | Validating | Healthy | InvalidCredential | InsufficientPermission | ProviderUnavailable
| AccountAccessChanged | Disabled.
End HealthDto.
Notation ConnectionHealthStateDto := HealthDto.ConnectionHealthStateDto.

Module HealthWhyDto.
Inductive ConnectionHealthReasonDto :=
| NoReason | InvalidCredential | ExpiredOrInactive | PermissionDenied | WrongEnvironment
| ProviderUnavailable | AccountAccessChanged | DisabledByOperator.
End HealthWhyDto.
Notation ConnectionHealthReasonDto := HealthWhyDto.ConnectionHealthReasonDto.

Module ModeDto.
Inductive ExecutionAuthorizationModeDto := Disabled | ManualAllowed | AutomatedAllowed.
End ModeDto.
Notation ExecutionAuthorizationModeDto := ModeDto.ExecutionAuthorizationModeDto.

Record ConnectionHealthDto := {
  hcd_state : ConnectionHealthStateDto;
  hcd_checked_at_unix_ms : option Z;
  hcd_reason_code : ConnectionHealthReasonDto;
  hcd_safe_detail : option string;
  hcd_retryable : bool;
}.

Record BrokerConnectionMetadataDto := {
  bcd_connection_id : string;
  bcd_provider : ProviderDto;
  bcd_environment : ApiEnvironment;
  bcd_display_label : string;
  bcd_enabled : bool;
  bcd_credential_status : CredentialStatusDto;
  bcd_credential_class : CredentialClassDto;
  bcd_credential_scope : CredentialScopeDto;
  bcd_capabilities : list ConnectionCapabilityDto;
  bcd_health : ConnectionHealthDto;
  bcd_created_at_unix_ms : Z;
  bcd_updated_at_unix_ms : Z;
}.

Record CreateBrokerConnectionRequest := {
  cbr_provider : ProviderDto;
  cbr_environment : ApiEnvironment;
  cbr_display_label : string;
  cbr_credential : string;
}.
Record RotateCredentialRequest := { rcr_credential : string }.
Record CredentialRotationResultDto := {
  crd_connection : BrokerConnectionMetadataDto;
  crd_reconnect_required : bool;
}.

Record DiscoveredBrokerAccountDto := {
  dad_connection_id : string;
  dad_provider : ProviderDto;
  dad_environment : ApiEnvironment;
  dad_provider_account_id : string;
  dad_display_name : option string;
  dad_account_type : string;
  dad_account_status : string;
  dad_access_level : string;
  dad_opened_at_unix_ms : option Z;
  dad_closed_at_unix_ms : option Z;
  dad_accessible : bool;
  dad_capabilities : list ConnectionCapabilityDto;
  dad_discovered_at_unix_ms : Z;
}.

Record BrokerAccountBindingDto := {
  bbd_binding_id : string;
  bbd_connection_id : string;
  bbd_provider : ProviderDto;
  bbd_environment : ApiEnvironment;
  bbd_provider_account_id : string;
  bbd_account_id : string;
  bbd_enabled : bool;
  bbd_created_at_unix_ms : Z;
  bbd_updated_at_unix_ms : Z;
}.
Record BindBrokerAccountRequest := { bar_provider_account_id : string; bar_account_id : string }.

Record ChangeExecutionAuthorizationRequest := {
  cea_provider_account_id : string;
  cea_mode : ExecutionAuthorizationModeDto;
  cea_expected_authorization_revision : Z;
}.
Record ExecutionAuthorizationDto := {
  ead_connection_id : string;
  ead_provider_account_id : string;
  ead_mode : ExecutionAuthorizationModeDto;
  ead_authorization_revision : Z;
  ead_changed_by : string;
  ead_changed_at_unix_ms : Z;
}.

Record ConnectionDetailsDto := {
  cdd_connection : BrokerConnectionMetadataDto;
  cdd_accounts : list DiscoveredBrokerAccountDto;
  cdd_bindings : list BrokerAccountBindingDto;
  cdd_execution_authorizations : list ExecutionAuthorizationDto;
}.

(** ** Conversions *)

Definition provider (value : ProviderDto) : string := match value with TInvestDto => T_INVEST end.
Definition environment (value : ApiEnvironment) : BrokerEnvironment :=
  match value with ApiEnv.Sandbox => Env.Sandbox | ApiEnv.Production => Env.Production end.
(** The provider is asserted in debug builds only. *)
Definition provider_dto (_ : string) : ProviderDto := TInvestDto.
Definition environment_dto (value : BrokerEnvironment) : ApiEnvironment :=
  match value with Env.Sandbox => ApiEnv.Sandbox | Env.Production => ApiEnv.Production end.

Definition credential_status (value : CredentialStatus) : CredentialStatusDto :=
  match value with
  | Cred.PendingValidation => CredDto.PendingValidation
  | Cred.Valid => CredDto.Valid
  | Cred.Invalid => CredDto.Invalid
  | Cred.ExpiredOrInactive => CredDto.ExpiredOrInactive
  | Cred.PendingDisable => CredDto.PendingDisable
  | Cred.Disabled => CredDto.Disabled
  | Cred.PendingDelete => CredDto.PendingDelete
  end.
Definition credential_class_dto (value : CredentialClass) : CredentialClassDto :=
  match value with
  | Cred.Unknown => CredDto.Unknown
  | Cred.ReadOnly => CredDto.ReadOnly
  | Cred.FullAccess => CredDto.FullAccess
  | Cred.TransferAccess => CredDto.TransferAccess
  | Cred.Sandbox => CredDto.Sandbox
  end.
Definition credential_scope_dto (value : CredentialScope) : CredentialScopeDto :=
  match value with
  | Cred.NotConfirmed => CredDto.NotConfirmed
  | Cred.SingleAccountRestricted => CredDto.SingleAccountRestricted
  | Cred.AllAccessibleAccounts => CredDto.AllAccessibleAccounts
  end.
Definition capability_dto (value : ConnectionCapability) : ConnectionCapabilityDto :=
  match value with
  | Cap.AccountDiscovery => CapDto.AccountDiscovery
  | Cap.PortfolioRead => CapDto.PortfolioRead
  | Cap.PositionsRead => CapDto.PositionsRead
  | Cap.OperationsRead => CapDto.OperationsRead
  | Cap.StreamHealth => CapDto.StreamHealth
  | Cap.SandboxOrders => CapDto.SandboxOrders
  | Cap.ProductionOrdersProviderAllowed => CapDto.ProductionOrdersProviderAllowed
  end.
Definition health_state_dto (value : ConnectionHealthState) : ConnectionHealthStateDto :=
  match value with
  | HealthSt.Unknown => HealthDto.Unknown
  | HealthSt.Validating => HealthDto.Validating
  | HealthSt.Healthy => HealthDto.Healthy
  | HealthSt.InvalidCredential => HealthDto.InvalidCredential
  | HealthSt.InsufficientPermission => HealthDto.InsufficientPermission
  | HealthSt.ProviderUnavailable => HealthDto.ProviderUnavailable
  | HealthSt.AccountAccessChanged => HealthDto.AccountAccessChanged
  | HealthSt.Disabled => HealthDto.Disabled
  end.
Definition health_reason_dto (value : ConnectionHealthReason) : ConnectionHealthReasonDto :=
  match value with
  | HealthWhy.NoReason => HealthWhyDto.NoReason
  | HealthWhy.InvalidCredential => HealthWhyDto.InvalidCredential
  | HealthWhy.ExpiredOrInactive => HealthWhyDto.ExpiredOrInactive
  | HealthWhy.PermissionDenied => HealthWhyDto.PermissionDenied
  | HealthWhy.WrongEnvironment => HealthWhyDto.WrongEnvironment
  | HealthWhy.ProviderUnavailable => HealthWhyDto.ProviderUnavailable
  | HealthWhy.AccountAccessChanged => HealthWhyDto.AccountAccessChanged
  | HealthWhy.DisabledByOperator => HealthWhyDto.DisabledByOperator
  end.
Definition authorization_mode (value : ExecutionAuthorizationModeDto) : ExecutionAuthorizationMode :=
  match value with
  | ModeDto.Disabled => Mode.Disabled
  | ModeDto.ManualAllowed => Mode.ManualAllowed
  | ModeDto.AutomatedAllowed => Mode.AutomatedAllowed
  end.
Definition authorization_mode_dto (value : ExecutionAuthorizationMode) : ExecutionAuthorizationModeDto :=
  match value with
  | Mode.Disabled => ModeDto.Disabled
  | Mode.ManualAllowed => ModeDto.ManualAllowed
  | Mode.AutomatedAllowed => ModeDto.AutomatedAllowed
  end.

Definition unknown_value (raw : Z) : string := "UNKNOWN_PROVIDER_VALUE_" +:+ int_to_string raw.
Definition account_type_text (value : BrokerAccountType) : string :=
  match value with
  | AccType.Unspecified => "UNSPECIFIED"
  | AccType.Brokerage => "BROKERAGE"
  | AccType.IndividualInvestment => "INDIVIDUAL_INVESTMENT"
  | AccType.InvestBox => "INVEST_BOX"
  | AccType.MoneyMarketFund => "MONEY_MARKET_FUND"
  | AccType.Debit => "DEBIT"
  | AccType.Savings => "SAVINGS"
  | AccType.DigitalFinancialAssets => "DIGITAL_FINANCIAL_ASSETS"
  | AccType.UnknownProviderValue raw => unknown_value raw
  end.
Definition account_status_text (value : BrokerAccountStatus) : string :=
  match value with
  | AccStatus.Unspecified => "UNSPECIFIED"
  | AccStatus.New => "NEW"
  | AccStatus.Open => "OPEN"
  | AccStatus.Closed => "CLOSED"
  | AccStatus.UnknownProviderValue raw => unknown_value raw
  end.
Definition access_level_text (value : BrokerAccessLevel) : string :=
  match value with
  | Access.Unspecified => "UNSPECIFIED"
  | Access.Full => "FULL"
  | Access.ReadOnly => "READ_ONLY"
  | Access.NoAccess => "NO_ACCESS"
  | Access.UnknownProviderValue raw => unknown_value raw
  end.

Definition connection_dto (value : BrokerConnection) : BrokerConnectionMetadataDto := {|
  bcd_connection_id := bc_id value; bcd_provider := provider_dto (bc_provider value);
  bcd_environment := environment_dto (bc_environment value); bcd_display_label := bc_label value;
  bcd_enabled := bc_enabled value; bcd_credential_status := credential_status (bc_credential_status value);
  bcd_credential_class := credential_class_dto (bc_credential_class value);
  bcd_credential_scope := credential_scope_dto (bc_credential_scope value);
  bcd_capabilities := capability_dto <$> bc_capabilities value;
  bcd_health := let h := bc_health value in {|
    hcd_state := health_state_dto (ch_state h); hcd_checked_at_unix_ms := ch_checked_at_unix_ms h;
    hcd_reason_code := health_reason_dto (ch_reason_code h); hcd_safe_detail := ch_safe_detail h;
    hcd_retryable := ch_retryable h |};
  bcd_created_at_unix_ms := bc_created_at_unix_ms value; bcd_updated_at_unix_ms := bc_updated_at_unix_ms value |}.

Definition account_dto (value : BrokerAccount) : DiscoveredBrokerAccountDto := {|
  dad_connection_id := ac_connection_id value; dad_provider := provider_dto (ac_provider value);
  dad_environment := environment_dto (ac_environment value);
  dad_provider_account_id := ac_provider_account_id value; dad_display_name := ac_display_name value;
  dad_account_type := account_type_text (ac_account_type value);
  dad_account_status := account_status_text (ac_status value);
  dad_access_level := access_level_text (ac_access_level value);
  dad_opened_at_unix_ms := ac_opened_at_unix_ms value; dad_closed_at_unix_ms := ac_closed_at_unix_ms value;
  dad_accessible := ac_accessible value; dad_capabilities := capability_dto <$> ac_capabilities value;
  dad_discovered_at_unix_ms := ac_discovered_at_unix_ms value |}.

Definition binding_dto (value : BrokerAccountBinding) : BrokerAccountBindingDto := {|
  bbd_binding_id := bb_id value; bbd_connection_id := bb_connection_id value;
  bbd_provider := provider_dto (bb_provider value); bbd_environment := environment_dto (bb_environment value);
  bbd_provider_account_id := bb_provider_account_id value; bbd_account_id := bb_vox_account_id value;
  bbd_enabled := bb_enabled value; bbd_created_at_unix_ms := bb_created_at_unix_ms value;
  bbd_updated_at_unix_ms := bb_updated_at_unix_ms value |}.

Definition authorization_dto (value : ExecutionAuthorization) : ExecutionAuthorizationDto := {|
  ead_connection_id := ea_connection_id value; ead_provider_account_id := ea_provider_account_id value;
  ead_mode := authorization_mode_dto (ea_mode value);
  ead_authorization_revision := ea_authorization_revision value; ead_changed_by := ea_changed_by value;
  ead_changed_at_unix_ms := ea_changed_at_unix_ms value |}.

(** ** Errors *)

Section errors.
Context `{CO : !Correlation}.

Definition provider_api_error (kind : ProviderErrorKind) : ApiError :=
  match kind with
  | ConnectionService.Kind.InvalidCredential | ConnectionService.Kind.ExpiredOrInactive =>
      ApiError_new Cat.Authentication "BROKER_CREDENTIAL_REJECTED" "broker credential was rejected"
  | ConnectionService.Kind.InsufficientPermission =>
      ApiError_new Cat.Permission "BROKER_PERMISSION_DENIED" "broker denied requested credential capability"
  | ConnectionService.Kind.WrongEnvironment =>
      ApiError_new Cat.Validation "BROKER_ENVIRONMENT_MISMATCH" "credential does not match selected broker environment"
  | ConnectionService.Kind.ProviderUnavailable =>
      ApiError_new Cat.Transient "BROKER_UNAVAILABLE" "broker validation service is unavailable"
  | ConnectionService.Kind.AccountAccessChanged =>
      ApiError_new Cat.Conflict "BROKER_ACCOUNT_ACCESS_CHANGED" "broker account access changed"
  | ConnectionService.Kind.UnsupportedProvider =>
      ApiError_new Cat.Validation "BROKER_PROVIDER_UNSUPPORTED" "broker provider is unsupported"
  end.

Definition api_error (error : ServiceError) : ApiError :=
  match error with
  | Svc.PermissionDenied _ =>
      ApiError_new Cat.Permission "CONNECTION_PERMISSION_DENIED"
        "actor is not permitted to perform this connection operation"
  | Svc.ConnectionNotFound | Svc.AccountNotFound | Svc.Repository Repo.NotFound =>
      ApiError_new Cat.NotFound "CONNECTION_RESOURCE_NOT_FOUND" "connection resource was not found"
  | Svc.Provider e => provider_api_error (pe_kind e)
  | Svc.ExecutionUnauthorized | Svc.ProviderDoesNotAllowProductionOrders =>
      ApiError_new Cat.Permission "EXECUTION_NOT_AUTHORIZED"
        "execution is not authorized for this exact connection and account"
  | Svc.StaleExecutionAuthorization | Svc.Repository Repo.StaleAuthorizationRevision =>
      ApiError_new Cat.Conflict "STALE_EXECUTION_AUTHORIZATION"
        "execution authorization changed; read current state and retry with its revision"
  | Svc.AccountUnavailable | Svc.ConnectionDisabled | Svc.ConnectionUnavailable | Svc.DisableBeforeDelete
  | Svc.AccountBindingMismatch =>
      ApiError_new Cat.Conflict "CONNECTION_STATE_CONFLICT" "connection state does not permit this operation"
  | Svc.Model _ | Svc.DuplicateProviderAccount =>
      ApiError_new Cat.Validation "CONNECTION_VALIDATION_FAILED" "connection request is invalid"
  | Svc.SecretStore (Sec.EmptySecret | Sec.SecretTooLarge) =>
      ApiError_new Cat.Validation "INVALID_CREDENTIAL_INPUT" "credential input is empty or exceeds the accepted size"
  | Svc.CredentialRotationCompensationFailed | Svc.AuthorizationRevisionOverflow | Svc.Repository _
  | Svc.SecretStore _ =>
      ApiError_new Cat.Internal "CONNECTION_OPERATION_FAILED" "connection operation failed closed"
  end.

Definition validation_error (error : Meta.ModelError) : ApiError :=
  ApiError_validation "connection request is invalid" [{| fe_field := "identity"; fe_message := Meta.text error |}].

Definition connection_not_found : ApiError :=
  ApiError_new Cat.NotFound "CONNECTION_NOT_FOUND" "connection was not found".
End errors.

(** ** The adapter *)

(** [ConnectionRequestContext] of [application.rs]. *)
Record ConnectionRequestContext := {
  crc_user_id : string;
  crc_correlation_id : string;
  crc_now_unix_ms : Z;
}.

Section adapter.
Context {R S P E O : Type}.
Context `{CR : !ConnectionService.ConnectionRepository R} `{SS : !ConnectionService.SecretStore S}
  `{BP : !BrokerProviderPort P} `{UU : !Uuids E} `{UF : !UuidFormat} `{CO : !Correlation}.
Notation Adapted := (Service R S P E * O)%type.
Notation adm A := (st Adapted ApiError A).

(** The observer of the lifecycle, if one is attached. *)
Context (lifecycle : option (string → O → O)).

Definition serviced {A} (m : st (Service R S P E) ServiceError A) : adm A := st_map_err api_error (st_fst m).

Definition notify_connection_changed (connection_id : string) : adm () := λ w,
  ((w.1, match lifecycle with Some changed => changed connection_id w.2 | None => w.2 end), Ok tt).

Definition security_context (context : ConnectionRequestContext) : result ApiError SecurityContext :=
  let? actor := map_err (λ _, ApiError_new Cat.Authentication "INVALID_AUTHENTICATED_ACTOR"
                                "authenticated actor identity is invalid") (UserId_parse (crc_user_id context)) in
  map_err validation_error (SecurityContext_new actor (crc_correlation_id context) (crc_now_unix_ms context)).

Definition parse_connection_id (value : string) : result ApiError string :=
  map_err validation_error (ConnectionId_parse value).

Definition admin_list_connections (context : ConnectionRequestContext) : adm (list BrokerConnectionMetadataDto) :=
  let! security := st_lift (security_context context) in
  let! items := serviced (list_connections security) in
  st_ret (connection_dto <$> items).

Definition admin_create_connection (context : ConnectionRequestContext) (request : CreateBrokerConnectionRequest)
  : adm BrokerConnectionMetadataDto :=
  let! security := st_lift (security_context context) in
  let! credential := st_lift (map_err (λ e, api_error (Svc.SecretStore e)) (SecretBytes_new (cbr_credential request))) in
  let! c := serviced (create_connection security {|
    cq_provider := provider (cbr_provider request); cq_environment := environment (cbr_environment request);
    cq_label := cbr_display_label request |} credential) in
  st_ret (connection_dto c).

Fixpoint authorizations_of (security : SecurityContext) (id : string) (l : list BrokerAccount)
  : adm (list ExecutionAuthorizationDto) :=
  match l with
  | [] => st_ret []
  | account :: l =>
      let! authorization := serviced (execution_authorization security id (ac_provider_account_id account)) in
      let! rest := authorizations_of security id l in
      st_ret (authorization_dto authorization :: rest)
  end.

Definition admin_connection_details (context : ConnectionRequestContext) (connection_id : string)
  : adm ConnectionDetailsDto :=
  let! security := st_lift (security_context context) in
  let! id := st_lift (parse_connection_id connection_id) in
  let! items := serviced (list_connections security) in
  let! c := st_lift (ok_or (List.find (λ item, bool_decide (bc_id item = id)) items) connection_not_found) in
  let! accounts := serviced (discovered_accounts security id) in
  let! authorizations := authorizations_of security id accounts in
  let! bindings := serviced (account_bindings security id) in
  st_ret {| cdd_connection := connection_dto c; cdd_accounts := account_dto <$> accounts;
            cdd_bindings := binding_dto <$> bindings; cdd_execution_authorizations := authorizations |}.

Definition admin_revalidate_connection (context : ConnectionRequestContext) (connection_id : string)
  : adm BrokerConnectionMetadataDto :=
  let! security := st_lift (security_context context) in
  let! id := st_lift (parse_connection_id connection_id) in
  let! c := serviced (revalidate security id) in
  st_ret (connection_dto c).

Definition admin_rotate_credential (context : ConnectionRequestContext) (connection_id : string)
    (request : RotateCredentialRequest) : adm CredentialRotationResultDto :=
  let! security := st_lift (security_context context) in
  let! id := st_lift (parse_connection_id connection_id) in
  let! credential := st_lift (map_err (λ e, api_error (Svc.SecretStore e)) (SecretBytes_new (rcr_credential request))) in
  let! rotation := serviced (rotate_credential security id credential) in
  notify_connection_changed id ;;;
  st_ret {| crd_connection := connection_dto (rt_connection rotation);
            crd_reconnect_required := rt_reconnect_required rotation |}.

Definition admin_disable_connection (context : ConnectionRequestContext) (connection_id : string)
  : adm BrokerConnectionMetadataDto :=
  let! security := st_lift (security_context context) in
  let! id := st_lift (parse_connection_id connection_id) in
  let! c := serviced (disable_connection security id) in
  notify_connection_changed id ;;;
  st_ret (connection_dto c).

Definition admin_delete_connection (context : ConnectionRequestContext) (connection_id : string) : adm () :=
  let! security := st_lift (security_context context) in
  let! id := st_lift (parse_connection_id connection_id) in
  serviced (delete_connection security id) ;;;
  notify_connection_changed id ;;;
  st_ret tt.

Definition admin_accounts (context : ConnectionRequestContext) (connection_id : string)
  : adm (list DiscoveredBrokerAccountDto) :=
  let! security := st_lift (security_context context) in
  let! id := st_lift (parse_connection_id connection_id) in
  let! items := serviced (discovered_accounts security id) in
  st_ret (account_dto <$> items).

Definition admin_bindings (context : ConnectionRequestContext) (connection_id : string)
  : adm (list BrokerAccountBindingDto) :=
  let! security := st_lift (security_context context) in
  let! id := st_lift (parse_connection_id connection_id) in
  let! items := serviced (account_bindings security id) in
  st_ret (binding_dto <$> items).

Definition admin_bind_account (context : ConnectionRequestContext) (connection_id : string)
    (request : BindBrokerAccountRequest) : adm BrokerAccountBindingDto :=
  let! security := st_lift (security_context context) in
  let! id := st_lift (parse_connection_id connection_id) in
  let! account_id := st_lift (map_err validation_error
    (parse_id "VoxAccountId" "vox-account" (bar_account_id request))) in
  let! b := serviced (bind_account security id (bar_provider_account_id request) account_id) in
  st_ret (binding_dto b).

Definition admin_unbind_account (context : ConnectionRequestContext) (binding_id : string) : adm () :=
  let! security := st_lift (security_context context) in
  let! id := st_lift (map_err validation_error (parse_id "BindingId" "binding" binding_id)) in
  serviced (unbind_account security id).

Definition admin_change_execution_authorization (context : ConnectionRequestContext) (connection_id : string)
    (request : ChangeExecutionAuthorizationRequest) : adm ExecutionAuthorizationDto :=
  let! security := st_lift (security_context context) in
  let! id := st_lift (parse_connection_id connection_id) in
  let! a := serviced (set_execution_authorization_cas security id (cea_provider_account_id request)
    (authorization_mode (cea_mode request)) (cea_expected_authorization_revision request)) in
  st_ret (authorization_dto a).

(** ** Calls *)

Inductive AdminCall :=
| AdminList
| AdminCreate (request : CreateBrokerConnectionRequest)
| AdminDetails (connection_id : string)
| AdminRevalidate (connection_id : string)
| AdminRotate (connection_id : string) (request : RotateCredentialRequest)
| AdminDisable (connection_id : string)
| AdminDelete (connection_id : string)
| AdminAccounts (connection_id : string)
| AdminBindings (connection_id : string)
| AdminBind (connection_id : string) (request : BindBrokerAccountRequest)
| AdminUnbind (binding_id : string)
| AdminAuthorize (connection_id : string) (request : ChangeExecutionAuthorizationRequest).

Inductive AdminAnswer :=
| AnswerConnections (l : list BrokerConnectionMetadataDto)
| AnswerConnection (c : BrokerConnectionMetadataDto)
| AnswerDetails (d : ConnectionDetailsDto)
| AnswerRotation (r : CredentialRotationResultDto)
| AnswerAccounts (l : list DiscoveredBrokerAccountDto)
| AnswerBindings (l : list BrokerAccountBindingDto)
| AnswerBinding (b : BrokerAccountBindingDto)
| AnswerAuthorization (a : ExecutionAuthorizationDto)
| AnswerNothing.

Definition answered {A} (f : A → AdminAnswer) (m : adm A) : adm AdminAnswer := let! a := m in st_ret (f a).

Definition run_admin (context : ConnectionRequestContext) (call : AdminCall) : adm AdminAnswer :=
  match call with
  | AdminList => answered AnswerConnections (admin_list_connections context)
  | AdminCreate request => answered AnswerConnection (admin_create_connection context request)
  | AdminDetails id => answered AnswerDetails (admin_connection_details context id)
  | AdminRevalidate id => answered AnswerConnection (admin_revalidate_connection context id)
  | AdminRotate id request => answered AnswerRotation (admin_rotate_credential context id request)
  | AdminDisable id => answered AnswerConnection (admin_disable_connection context id)
  | AdminDelete id => answered (λ _, AnswerNothing) (admin_delete_connection context id)
  | AdminAccounts id => answered AnswerAccounts (admin_accounts context id)
  | AdminBindings id => answered AnswerBindings (admin_bindings context id)
  | AdminBind id request => answered AnswerBinding (admin_bind_account context id request)
  | AdminUnbind id => answered (λ _, AnswerNothing) (admin_unbind_account context id)
  | AdminAuthorize id request => answered AnswerAuthorization (admin_change_execution_authorization context id request)
  end.

(** The connection whose runtimes a successful call ends. *)
Definition ends_runtimes (call : AdminCall) : option string :=
  match call with AdminRotate id _ | AdminDisable id | AdminDelete id => Some id | _ => None end.

(** ** Lemmas *)

(** Calls that leave the observer alone. *)
Definition unobserved {A} (m : adm A) : Prop := ∀ w w' r, m w = (w', r) → w'.2 = w.2.

Lemma unobserved_lift {A} (r : result ApiError A) : unobserved (st_lift r).
Proof. by intros w w' x [= <- _]. Qed.
Lemma unobserved_ret {A} (a : A) : unobserved (st_ret a).
Proof. by intros w w' x [= <- _]. Qed.
Lemma unobserved_serviced {A} (m : st (Service R S P E) ServiceError A) : unobserved (serviced m).
Proof.
  intros [s o] w' x. unfold serviced, st_map_err, st_fst. simpl. destruct (m s) as [s' r]. by intros [= <- _].
Qed.
Lemma unobserved_bind {A B} (m : adm A) (k : A → adm B) :
  unobserved m → (∀ a, unobserved (k a)) → unobserved (let! x := m in k x).
Proof.
  intros Hm Hk w w' r [(e & H & _)|(w1 & a & H1 & H)]%st_bind_cases; [by eapply Hm|].
  rewrite (Hk _ _ _ _ H). by eapply Hm.
Qed.
Lemma unobserved_authorizations security id l : unobserved (authorizations_of security id l).
Proof.
  induction l; simpl; [apply unobserved_ret|]. apply unobserved_bind; [apply unobserved_serviced|]. intros ?.
  apply unobserved_bind; [done|]. intros ?. apply unobserved_ret.
Qed.

(** A call that ends by telling the observer. *)
Lemma told_at_end {A B} id (m : adm A) (f : A → B) w w' r :
  unobserved m → (let! a := m in notify_connection_changed id ;;; st_ret (f a)) w = (w', r) →
  w'.2 = match r with Ok _ => match lifecycle with Some changed => changed id w.2 | None => w.2 end | Err _ => w.2 end.
Proof.
  intros Hm [(e & H & ->)|(w1 & a & H1 & H)]%st_bind_cases; [by eapply Hm|].
  unfold st_bind, notify_connection_changed, st_ret in H. injection H as <- <-. simpl. by rewrite (Hm _ _ _ H1).
Qed.
End adapter.

#[export] Hint Resolve unobserved_lift unobserved_ret unobserved_serviced unobserved_bind unobserved_authorizations : core.

Section observed.
Context {R S P E O : Type}.
Context `{CR : !ConnectionService.ConnectionRepository R} `{SS : !ConnectionService.SecretStore S}
  `{BP : !BrokerProviderPort P} `{UU : !Uuids E} `{UF : !UuidFormat} `{CO : !Correlation}.
Notation Adapted := (Service R S P E * O)%type.

Lemma parse_connection_id_Ok value id : parse_connection_id value = Ok id → id = value.
Proof.
  unfold parse_connection_id, ConnectionId_parse. intros H%map_err_Ok. by apply parse_id_Ok in H as [-> _].
Qed.

(** The observer hears of a call exactly when it succeeds and ends runtimes. *)
Lemma run_admin_observed (lifecycle : option (string → O → O)) context call (w w' : Adapted) r :
  run_admin lifecycle context call w = (w', r) →
  w'.2 = match r, ends_runtimes call, lifecycle with
         | Ok _, Some id, Some changed => changed id w.2
         | _, _, _ => w.2
         end.
Proof.
  intros H. destruct (ends_runtimes call) as [id|] eqn:He.
  - destruct call; simplify_eq/=; unfold answered in H;
      unfold admin_rotate_credential, admin_disable_connection, admin_delete_connection in H;
      apply st_bind_cases in H as [(e & H & ->)|(w1 & a & H & Hend)].
    all: try (injection Hend as <- <-).
    all: repeat match type of H with
         | st_bind (st_lift _) _ _ = _ =>
             let P := fresh "P" in
             apply st_bind_cases in H as [(? & [= <- _] & P)|(? & ? & P%st_lift_Ok & H)];
               [by simplify_eq/=|destruct P as [-> P]]
         end.
    all: match goal with Hp : parse_connection_id _ = Ok _ |- _ => apply parse_connection_id_Ok in Hp as -> end.
    all: apply (told_at_end lifecycle id (serviced _) _ _ _ _ (unobserved_serviced _)) in H; by rewrite H.
  - assert (w'.2 = w.2) as ->; [|by destruct r].
    assert (unobserved (run_admin lifecycle context call)) as Hu; [|by eapply Hu].
    destruct call; try done; simpl; unfold answered, admin_list_connections, admin_create_connection,
      admin_connection_details, admin_revalidate_connection, admin_accounts, admin_bindings, admin_bind_account,
      admin_unbind_account, admin_change_execution_authorization; repeat (apply unobserved_bind; [auto|intros ?]); auto.
Qed.
End observed.

(** ** Properties *)

Section runtimes.
Context {R S P U : Type}.
Context `{CR : !ConnectionService.ConnectionRepository R} `{SS : !ConnectionService.SecretStore S}
  `{BP : !BrokerProviderPort P} `{UU : !Uuids U}.
Context {B D X T C F E E' : Type}.
Context `{BR : !BrokerReadPort B} `{RS : !RuntimeStore D} `{XP : !ExecutionPort X} `{TP : !ExecutionStreamPort T}
  `{CP : !CredentialResolverPort C} `{AM : !Ambient E} `{SM : !Serde MutationEvidence}.
Context `{CF : !ClientFactory F} `{AM' : !Ambient E'} `{UF : !UuidFormat} `{ET : !ErrorText}
  `{SD : !Serde RiskDecision} `{SP : !Serde RiskPolicySet} `{CI : !Cipher} `{CO : !Correlation}.
Notation Registry := (@Registry B D X T C F E E').

Definition opened_for (connection_id : string) (kv : string * @RuntimeEntry B D X T C F E E') : bool :=
  bool_decide (xs_broker_connection_id (en_public_scope kv.2) = connection_id).

Lemma close_entry_entries kv (g : Registry) : reg_entries (close_entry kv g) = reg_entries g.
Proof. unfold close_entry. by destruct (shutdown _ _). Qed.

Lemma close_entries stale (g : Registry) :
  reg_entries (fold_left (λ g kv, close_entry kv g) stale g) = reg_entries g.
Proof. revert g. induction stale as [|kv stale IH]; intros g; simpl; [done|]. by rewrite IH, close_entry_entries. Qed.

Lemma invalidate_entries id (g : Registry) :
  reg_entries (connection_changed id g) = List.filter (λ kv, negb (opened_for id kv)) (reg_entries g).
Proof. unfold connection_changed, invalidate_connection. by rewrite close_entries. Qed.

(** The runtimes of a list shut down one after the other, each from the world it had and the
    store of risk the ones before it left; what each leaves in its journal and in the store
    of risk stays. *)
Inductive shut_in_turn : list (string * RuntimeEntry) → Registry → Registry → Prop :=
| shut_none g : shut_in_turn [] g g
| shut_next kv rest (g g' : Registry) w r :
    (let _ := entry_port (en_public_scope kv.2) in
     shutdown (en_scope kv.2) (lent g kv.2) = (w, r) ∧ closed (en_scope kv.2) (lent g kv.2) w r) →
    shut_in_turn rest {|
      reg_environment := reg_environment g; reg_directory := reg_directory g; reg_entries := reg_entries g;
      reg_journals := map_put (runtime_path g kv.1) (w_store w) (reg_journals g);
      reg_risk := pa_risk_store (w_risk w) |} g' →
    shut_in_turn (kv :: rest) g g'.

Lemma close_in_turn stale (g : Registry) : shut_in_turn stale g (fold_left (λ g kv, close_entry kv g) stale g).
Proof.
  revert g. induction stale as [|kv stale IH]; intros g; simpl; [constructor|].
  destruct (let _ := entry_port (en_public_scope kv.2) in shutdown (en_scope kv.2) (lent g kv.2)) as [w r] eqn:H.
  eapply (shut_next _ _ _ _ w r); [split; [done|by eapply shutdown_closes]|].
  assert (close_entry kv g = put_risk_db (pa_risk_store (w_risk w)) (put_journal (runtime_path g kv.1) (w_store w) g))
    as ->; [|apply IH]. unfold close_entry. simpl in H. by rewrite H.
Qed.

(** C28. A changed connection keeps no runtime.  A rotation, a disabling or a deletion that
    the administration reports as done leaves no runtime registered that was opened for the
    connection, and every other runtime as it was, in its place.  Each runtime that was
    opened for it has been shut down, one after the other: it is stopping or stopped and
    refuses every command that can add exposure, and when the shutdown succeeds its streams
    are disconnected, its ownership is given back and it refuses every command; what it
    recorded is in its journal.  A call that fails, and any other call of the
    administration, leaves the runtimes alone. *)
Theorem changed_connections_lose_their_runtimes context call (s : Service R S P U) (g : Registry) :
  let '((_, g'), r) := run_admin (Some connection_changed) context call (s, g) in
  match r, ends_runtimes call with
  | Ok _, Some id =>
      reg_entries g' = List.filter (λ kv, negb (opened_for id kv)) (reg_entries g) ∧
      (∀ kv, kv ∈ reg_entries g' → xs_broker_connection_id (en_public_scope kv.2) ≠ id) ∧
      shut_in_turn (List.filter (opened_for id) (reg_entries g)) (put_entries (reg_entries g') g) g'
  | _, _ => g' = g
  end.
Proof.
  destruct (run_admin _ _ _ _) as [[s' g'] r] eqn:H. apply run_admin_observed in H. simpl in H. subst g'.
  destruct r as [a|e]; [|done]. destruct (ends_runtimes call) as [id|]; [|done]. rewrite invalidate_entries.
  split_and!; [done| |apply close_in_turn].
  intros kv [_ Hk]%elem_of_filter_bool. by apply negb_true_iff, bool_decide_eq_false in Hk.
Qed.
End runtimes.
