(* ===== verification/HttpApi.v ===== *)
(** * The HTTP interface: [crates/vox-api/src/transport/http.rs], [application.rs] and the
      composition of the router with the authentication middleware in
      [crates/vox-core/src/composition.rs]

    A request passes the middleware of [OperatorAuth], is routed by its method and path to
    an endpoint, has its query, path and body extracted, and calls one of the ports the
    process has attached.  The ports are the class [Ports]; their production instances are
    the registry, the reads and the administration of the other files.

    Extraction (JSON, query strings, percent-encoding, header values) is axum's and serde's:
    the class [Extraction].  The theorem says that nothing
    a request does to the process, and nothing it is told about an account, happens without
    the session, the user and the permission it takes, whatever path it was reached by. *)
From Stdlib Require Import Ascii.
From stdpp Require Import strings.
From S2P Require Import Prelude Money Domain ConnectionModel SecretStore ConnectionRepository ApiMoney ApiContract ApiReads.
From S2P Require Import OperatorAuth MarketProjection ProductionRuntime ConnectionAdmin.
Import ApiReq.

(** ** Application state *)

(** Which ports the process has attached. *)
Record AppState := {
  ap_provider : ProviderDto;
  ap_environment : ApiEnvironment;
  ap_runtime : bool;
  ap_accounts : bool;
  ap_execution : bool;
  ap_market_data : bool;
  ap_connections : bool;
  ap_authentication : bool;
  ap_risk_queries : bool;
  ap_risk_commands : bool;
}.

Definition AppState_production (provider : ProviderDto) (environment : ApiEnvironment) : AppState := {|
  ap_provider := provider; ap_environment := environment; ap_runtime := true; ap_accounts := true;
  ap_execution := true; ap_market_data := false; ap_connections := true; ap_authentication := true;
  ap_risk_queries := false; ap_risk_commands := false |}.

Definition AppState_detached (provider : ProviderDto) (environment : ApiEnvironment) : AppState := {|
  ap_provider := provider; ap_environment := environment; ap_runtime := false; ap_accounts := false;
  ap_execution := false; ap_market_data := false; ap_connections := false; ap_authentication := false;
  ap_risk_queries := false; ap_risk_commands := false |}.

Definition with_runtime (self : AppState) : AppState := {|
  ap_provider := ap_provider self; ap_environment := ap_environment self;
  ap_runtime := true; ap_accounts := ap_accounts self; ap_execution := ap_execution self; ap_market_data := ap_market_data self;
  ap_connections := ap_connections self; ap_authentication := ap_authentication self; ap_risk_queries := ap_risk_queries self; ap_risk_commands := ap_risk_commands self |}.
Definition with_accounts (self : AppState) : AppState := {|
  ap_provider := ap_provider self; ap_environment := ap_environment self;
  ap_runtime := ap_runtime self; ap_accounts := true; ap_execution := ap_execution self; ap_market_data := ap_market_data self;
  ap_connections := ap_connections self; ap_authentication := ap_authentication self; ap_risk_queries := ap_risk_queries self; ap_risk_commands := ap_risk_commands self |}.
Definition with_execution (self : AppState) : AppState := {|
  ap_provider := ap_provider self; ap_environment := ap_environment self;
  ap_runtime := ap_runtime self; ap_accounts := ap_accounts self; ap_execution := true; ap_market_data := ap_market_data self;
  ap_connections := ap_connections self; ap_authentication := ap_authentication self; ap_risk_queries := ap_risk_queries self; ap_risk_commands := ap_risk_commands self |}.
Definition with_market_data (self : AppState) : AppState := {|
  ap_provider := ap_provider self; ap_environment := ap_environment self;
  ap_runtime := ap_runtime self; ap_accounts := ap_accounts self; ap_execution := ap_execution self; ap_market_data := true;
  ap_connections := ap_connections self; ap_authentication := ap_authentication self; ap_risk_queries := ap_risk_queries self; ap_risk_commands := ap_risk_commands self |}.
Definition with_connections (self : AppState) : AppState := {|
  ap_provider := ap_provider self; ap_environment := ap_environment self;
  ap_runtime := ap_runtime self; ap_accounts := ap_accounts self; ap_execution := ap_execution self; ap_market_data := ap_market_data self;
  ap_connections := true; ap_authentication := ap_authentication self; ap_risk_queries := ap_risk_queries self; ap_risk_commands := ap_risk_commands self |}.
Definition with_risk_queries (self : AppState) : AppState := {|
  ap_provider := ap_provider self; ap_environment := ap_environment self;
  ap_runtime := ap_runtime self; ap_accounts := ap_accounts self; ap_execution := ap_execution self; ap_market_data := ap_market_data self;
  ap_connections := ap_connections self; ap_authentication := ap_authentication self; ap_risk_queries := true; ap_risk_commands := ap_risk_commands self |}.
Definition with_risk_commands (self : AppState) : AppState := {|
  ap_provider := ap_provider self; ap_environment := ap_environment self;
  ap_runtime := ap_runtime self; ap_accounts := ap_accounts self; ap_execution := ap_execution self; ap_market_data := ap_market_data self;
  ap_connections := ap_connections self; ap_authentication := ap_authentication self; ap_risk_queries := ap_risk_queries self; ap_risk_commands := true |}.

Definition app_capabilities (self : AppState) (account_id : option string) : CapabilitySet :=
  without_backend_owners (ap_provider self) (ap_environment self) account_id {|
    at_runtime := ap_runtime self; at_accounts := ap_accounts self; at_execution := ap_execution self;
    at_market_data := ap_market_data self; at_connections := ap_connections self; at_risk := ap_risk_queries self |}.

(** ** Queries *)

Record ScopeQuery := {
  sq_provider : ProviderDto;
  sq_environment : ApiEnvironment;
  sq_broker_connection_id : string;
  sq_account_id : string;
}.
Record OperationsQuery := {
  oq_provider : ProviderDto;
  oq_environment : ApiEnvironment;
  oq_broker_connection_id : string;
  oq_account_id : string;
  oq_cursor : option string;
  oq_limit : option Z;
}.
Record CapabilityQuery := { cpq_account_id : option string }.
Record InstrumentQuery := { iq_provider : ProviderDto; iq_instrument_uid : string }.
Record InstrumentSearchQuery := { isq_provider : ProviderDto; isq_query : string; isq_limit : option Z }.
Record OrderBookQuery := { obq_provider : ProviderDto; obq_instrument_uid : string; obq_depth : option Z }.
Record TradesQuery := { tq_provider : ProviderDto; tq_instrument_uid : string; tq_limit : option Z }.
Record CandlesQuery := {
  cq_candle_provider : ProviderDto;
  cq_instrument_uid : string;
  cq_interval : CandleIntervalDto;
  cq_from_unix_ms : Z;
  cq_to_unix_ms : Z;
}.
Record SystemHealthDto := { shd_status : string; shd_api_version : string; shd_server_time_unix_ms : Z }.

(** [value.unwrap_or(default).clamp(low, high)]. *)
Definition clamp (value : option Z) (default low high : Z) : Z :=
  Z.max low (Z.min high (match value with Some v => v | None => default end)).

Section validation.
Context `{CO : !Correlation}.

Definition into_scope (self : ScopeQuery) : result ApiError ExecutionScope :=
  map_err (λ error, ApiError_validation (scope_error_text error)
             [{| fe_field := "account_id"; fe_message := scope_error_text error |}])
    (ExecutionScope_new (sq_provider self) (sq_environment self) (sq_broker_connection_id self) (sq_account_id self)
       LiveMode).

Definition into_parts (self : OperationsQuery) : result ApiError (ExecutionScope * option string * Z) :=
  let limit := clamp (oq_limit self) 100 1 500 in
  let? scope := into_scope {| sq_provider := oq_provider self; sq_environment := oq_environment self;
                              sq_broker_connection_id := oq_broker_connection_id self;
                              sq_account_id := oq_account_id self |} in
  Ok (scope, oq_cursor self, limit).

Definition instrument_validated (self : InstrumentQuery) : result ApiError () :=
  if is_blank (iq_instrument_uid self)
  then Err (ApiError_validation "a market-data read needs the instrument it reads"
              [{| fe_field := "instrument_uid"; fe_message := "must not be empty" |}])
  else Ok tt.

Definition when (b : bool) (field message : string) : list FieldError :=
  if b then [{| fe_field := field; fe_message := message |}] else [].

Definition validate_submit (request : SubmitOrderRequest) : result ApiError () :=
  let errors :=
    when (sor_quantity_lots request <=? 0) "quantity_lots" "must be a positive number of lots"
    ++ when (is_blank (sor_client_request_id request)) "client_request_id"
         "must not be empty: it is the identity used for reconciliation"
    ++ when (is_blank (sor_instrument_id request)) "instrument_id" "must not be empty" in
  match errors with [] => Ok tt | _ => Err (ApiError_validation "the order command is not valid" errors) end.

Definition needs_quantity (message instrument_id : string) (quantity_lots : Z) : result ApiError () :=
  if is_blank instrument_id || (quantity_lots <=? 0)
  then Err (ApiError_validation message
              [{| fe_field := "quantity_lots";
                  fe_message := "instrument_id must be set and quantity_lots must be positive" |}])
  else Ok tt.

(** What the endpoints check before they call the execution port. *)
Definition validate_command (command : ApiCommand) : result ApiError () :=
  match command with
  | ApiSubmitOrder request => validate_submit request
  | ApiCancelOrder request | ApiCancelStop request => let? _ := cancel_target_of request in Ok tt
  | ApiReplaceOrder request =>
      let? _ := replace_target_of request in
      needs_quantity "the replace command is not valid" (ror_instrument_id request) (ror_quantity_lots request)
  | ApiSubmitStop request =>
      needs_quantity "the stop command is not valid" (ssr_instrument_id request) (ssr_quantity_lots request)
  | ApiSubmitProtection request =>
      if is_blank (spr_instrument_id request)
      then Err (ApiError_validation "protection needs the instrument it protects"
                  [{| fe_field := "instrument_id"; fe_message := "must not be empty" |}])
      else Ok tt
  end.

Definition candle_window (query : CandlesQuery) : result ApiError () :=
  if cq_to_unix_ms query <=? cq_from_unix_ms query
  then Err (ApiError_validation "the candle window is empty"
              [{| fe_field := "to_unix_ms"; fe_message := "must be later than from_unix_ms" |}])
  else Ok tt.

Definition connection_context (now : Z) (actor : option string) : result ApiError ConnectionRequestContext :=
  let? user := ok_or actor (ApiError_new Cat.Authentication "AUTHENTICATED_ACTOR_REQUIRED"
                              "authenticated actor context is required") in
  Ok {| crc_user_id := user; crc_correlation_id := new_correlation_id; crc_now_unix_ms := now |}.

Definition route_not_found : ApiError :=
  ApiError_new Cat.NotFound "ROUTE_NOT_FOUND" "no such route in this API version".
End validation.

(** ** Replies *)

Inductive ReplyBody :=
| BodySystemHealth (v : SystemHealthDto)
| BodySession (v : AuthSessionDto)
| BodyHealth (v : RuntimeHealthDto)
| BodyScopes (v : list ExecutionScope)
| BodyCapabilities (v : CapabilitySet)
| BodyAdmin (v : AdminAnswer)
| BodyAccounts (v : list BrokerAccountDto)
| BodyPortfolio (v : PortfolioDto)
| BodyPositions (v : list PositionDto)
| BodyOrders (v : list OrderDto)
| BodyStops (v : list StopOrderDto)
| BodyOperations (v : OperationsPageDto)
| BodyReconciliation (v : ReconciliationDto)
| BodyMutations (v : list MutationReceiptDto)
| BodyReceipt (v : MutationReceiptDto)
| BodyRiskStatus (v : RiskStatusDto)
| BodyReservations (v : list RiskReservationDto)
| BodyInstruments (v : list InstrumentSummaryDto)
| BodyQuote (v : QuoteDto)
| BodyBook (v : OrderBookDto)
| BodyTrades (v : list TradeTickDto)
| BodyIntervals (v : list CandleIntervalCapability)
| BodyCandles (v : CandlesDto)
| BodyMarketSession (v : SessionDto)
| BodyError (e : ApiError)
| BodyText (text : string)
| BodyUpgrade.

Record Reply := {
  re_status : Z;
  re_set_cookie : option string;
  re_body : ReplyBody;
}.

Definition json (status : Z) (body : ReplyBody) : Reply := {| re_status := status; re_set_cookie := None; re_body := body |}.

(** [IntoResponse for ApiError] and for [MutationHttpResponse]. *)
Definition error_reply (e : ApiError) : Reply := json (Cat.status (ae_category e)) (BodyError e).
Definition mutation_reply (receipt : MutationReceiptDto) : Reply :=
  json (match mrd_state receipt with JournalDto.UnknownAfterDispatch => 202 | _ => 200 end) (BodyReceipt receipt).

(** ** Ports *)

Class Ports (W : Type) := {
  pt_establish_session : CreateSessionRequest → st W ApiError EstablishedSession;
  pt_health : st W ApiError RuntimeHealthDto;
  pt_scoped_health : ExecutionScope → st W ApiError RuntimeHealthDto;
  pt_scopes : st W ApiError (list ExecutionScope);
  pt_capabilities : option string → st W ApiError (option CapabilitySet);
  pt_accounts : ExecutionScope → st W ApiError (list BrokerAccountDto);
  pt_portfolio : ExecutionScope → st W ApiError PortfolioDto;
  pt_positions : ExecutionScope → st W ApiError (list PositionDto);
  pt_orders : ExecutionScope → st W ApiError (list OrderDto);
  pt_stop_orders : ExecutionScope → st W ApiError (list StopOrderDto);
  pt_operations : ExecutionScope → option string → Z → st W ApiError OperationsPageDto;
  pt_reconciliation : ExecutionScope → st W ApiError ReconciliationDto;
  pt_mutations : ExecutionScope → st W ApiError (list MutationReceiptDto);
  pt_execute : ApiCommand → st W ApiError MutationReceiptDto;
  pt_risk_status : ExecutionScope → st W ApiError RiskStatusDto;
  pt_active_reservations : ExecutionScope → st W ApiError (list RiskReservationDto);
  pt_change_state : ChangeRiskStateRequest → st W ApiError RiskStatusDto;
  pt_administer : ConnectionRequestContext → AdminCall → st W ApiError AdminAnswer;
  pt_market : W → MarketDataQueries;
}.

(** ** Requests *)

(** A request: what the middleware reads of it, its query string and its body. *)
Record HttpRequest := { rq_head : Request; rq_query : string; rq_body : string }.

(** An extractor, which answers with a status and a text when it refuses. *)
Class Extract (A : Type) := extract : HttpRequest → result (Z * string) A.
(** That the request asks for the upgrade of the connection. *)
Record WebSocketUpgrade := { wsu_protocol : option string }.
Class PathDecode := decode_segment : string → result (Z * string) string.
Class HeaderEncoding := header_value : string → bool.

(** Everything the handlers extract. *)
Class Extraction := {
  xx_path :: PathDecode;
  xx_header :: HeaderEncoding;
  xx_session :: Extract CreateSessionRequest;
  xx_capability :: Extract CapabilityQuery;
  xx_scope :: Extract ScopeQuery;
  xx_operations :: Extract OperationsQuery;
  xx_connection :: Extract CreateBrokerConnectionRequest;
  xx_credential :: Extract RotateCredentialRequest;
  xx_binding :: Extract BindBrokerAccountRequest;
  xx_authorization :: Extract ChangeExecutionAuthorizationRequest;
  xx_risk_state :: Extract ChangeRiskStateRequest;
  xx_submit :: Extract SubmitOrderRequest;
  xx_cancel :: Extract CancelOrderRequest;
  xx_replace :: Extract ReplaceOrderRequest;
  xx_stop :: Extract SubmitStopOrderRequest;
  xx_protection :: Extract SubmitProtectionRequest;
  xx_instrument :: Extract InstrumentQuery;
  xx_search :: Extract InstrumentSearchQuery;
  xx_book :: Extract OrderBookQuery;
  xx_trades :: Extract TradesQuery;
  xx_candles :: Extract CandlesQuery;
  xx_upgrade :: Extract WebSocketUpgrade;
}.

Section ports.
Context `{CO : !Correlation}.
Context (state : AppState).

Definition attached (present : bool) (capability owner : string) : result ApiError () :=
  if present then Ok tt else Err (capability_unavailable capability owner).

Definition market_data_port : result ApiError () := attached (ap_market_data state) "MARKET_DATA" "#38 projection over #8".
Definition runtime_port : result ApiError () := attached (ap_runtime state) "RUNTIME_HEALTH" "#11".
Definition accounts_port : result ApiError () := attached (ap_accounts state) "ACCOUNT_READ_SIDE" "#17".
Definition execution_port : result ApiError () := attached (ap_execution state) "ORDER_EXECUTION" "#10".
Definition connections_port : result ApiError () := attached (ap_connections state) "BROKER_CONNECTIONS" "#17".
Definition authentication_port : result ApiError () :=
  attached (ap_authentication state) "SESSION_AUTHENTICATION" "#47 follow-up".
Definition risk_queries_port : result ApiError () := attached (ap_risk_queries state) "RISK_QUERIES" "#21".
Definition risk_commands_port : result ApiError () := attached (ap_risk_commands state) "RISK_COMMANDS" "#21".
End ports.

(** ** Routes *)

(** Which kind of command an endpoint takes. *)
Inductive CommandKind := KindOrder | KindCancel | KindReplace | KindStop | KindCancelStop | KindProtection.

(** The handlers, with the segment of the path they take. *)
Inductive Endpoint :=
| SystemHealth
| CreateSession
| Capabilities
| BrokerConnections
| CreateBrokerConnection
| BrokerConnectionDetails (connection_id : string)
| DeleteBrokerConnection (connection_id : string)
| ValidateBrokerConnection (connection_id : string)
| RotateBrokerCredential (connection_id : string)
| DisableBrokerConnection (connection_id : string)
| DiscoveredBrokerAccounts (connection_id : string)
| BrokerAccountBindings (connection_id : string)
| BindBrokerAccount (connection_id : string)
| ChangeExecutionAuthorization (connection_id : string)
| UnbindBrokerAccount (binding_id : string)
| GetRuntimeHealth
| ScopedRuntimeHealth
| RuntimeScopes
| GetReconciliation
| GetAccounts
| GetPortfolio
| GetPositions
| GetOrders
| GetStopOrders
| GetOperations
| GetMutations
| Command (kind : CommandKind)
| RiskStatus
| RiskReservations
| ChangeRiskState
| Instruments
| GetQuote
| GetOrderBook
| GetTrades
| CandleIntervals
| GetCandles
| GetMarketSession
| OpenApiDocument
| LiveStream.

Local Open Scope string_scope.

(** The routes of a fixed path. *)
Definition fixed_routes : list (string * list (Method * Endpoint)) := [
  ("/api/v1/system/health", [(Http.GET, SystemHealth)]);
  ("/api/v1/auth/session", [(Http.POST, CreateSession)]);
  ("/api/v1/capabilities", [(Http.GET, Capabilities)]);
  ("/api/v1/broker-connections", [(Http.GET, BrokerConnections); (Http.POST, CreateBrokerConnection)]);
  ("/api/v1/runtime", [(Http.GET, GetRuntimeHealth)]);
  ("/api/v1/runtime/scoped", [(Http.GET, ScopedRuntimeHealth)]);
  ("/api/v1/runtime/scopes", [(Http.GET, RuntimeScopes)]);
  ("/api/v1/reconciliation", [(Http.GET, GetReconciliation)]);
  ("/api/v1/accounts", [(Http.GET, GetAccounts)]);
  ("/api/v1/portfolio", [(Http.GET, GetPortfolio)]);
  ("/api/v1/positions", [(Http.GET, GetPositions)]);
  ("/api/v1/orders", [(Http.GET, GetOrders)]);
  ("/api/v1/stop-orders", [(Http.GET, GetStopOrders)]);
  ("/api/v1/operations", [(Http.GET, GetOperations)]);
  ("/api/v1/mutations", [(Http.GET, GetMutations)]);
  ("/api/v1/commands/order", [(Http.POST, Command KindOrder)]);
  ("/api/v1/commands/cancel-order", [(Http.POST, Command KindCancel)]);
  ("/api/v1/commands/replace-order", [(Http.POST, Command KindReplace)]);
  ("/api/v1/commands/stop-order", [(Http.POST, Command KindStop)]);
  ("/api/v1/commands/cancel-stop-order", [(Http.POST, Command KindCancelStop)]);
  ("/api/v1/commands/protection", [(Http.POST, Command KindProtection)]);
  ("/api/v1/risk/status", [(Http.GET, RiskStatus)]);
  ("/api/v1/risk/reservations", [(Http.GET, RiskReservations)]);
  ("/api/v1/risk/state", [(Http.POST, ChangeRiskState)]);
  ("/api/v1/market/instruments", [(Http.GET, Instruments)]);
  ("/api/v1/market/quote", [(Http.GET, GetQuote)]);
  ("/api/v1/market/order-book", [(Http.GET, GetOrderBook)]);
  ("/api/v1/market/trades", [(Http.GET, GetTrades)]);
  ("/api/v1/market/candle-intervals", [(Http.GET, CandleIntervals)]);
  ("/api/v1/market/candles", [(Http.GET, GetCandles)]);
  ("/api/v1/market/session", [(Http.GET, GetMarketSession)]);
  ("/api/v1/openapi.json", [(Http.GET, OpenApiDocument)]);
  ("/api/v1/stream", [(Http.GET, LiveStream)])].

(** The routes below [/api/v1/broker-connections/{connection_id}]. *)
Definition connection_routes (id : string) : list (list string * list (Method * Endpoint)) := [
  ([], [(Http.GET, BrokerConnectionDetails id); (Http.DELETE, DeleteBrokerConnection id)]);
  (["validate"], [(Http.POST, ValidateBrokerConnection id)]);
  (["credential"], [(Http.PUT, RotateBrokerCredential id)]);
  (["disable"], [(Http.POST, DisableBrokerConnection id)]);
  (["accounts"], [(Http.GET, DiscoveredBrokerAccounts id)]);
  (["bindings"], [(Http.GET, BrokerAccountBindings id); (Http.POST, BindBrokerAccount id)]);
  (["execution-authorization"], [(Http.PUT, ChangeExecutionAuthorization id)])].

Definition lookup_route {K} `{!EqDecision K} (k : K) (l : list (K * list (Method * Endpoint)))
  : option (list (Method * Endpoint)) := snd <$> List.find (by_key fst k) l.

(** A segment that takes the place of a parameter is not empty. *)
Definition parameter (segment : string) (l : list (Method * Endpoint)) : option (list (Method * Endpoint)) :=
  if bool_decide (segment = "") then None else Some l.

Definition routes_of (path : string) : option (list (Method * Endpoint)) :=
  match lookup_route path fixed_routes with
  | Some l => Some l
  | None =>
      match strip_prefix "/api/v1/broker-connections/" path with
      | Some rest =>
          match split_on "/"%char rest with
          | id :: suffix => l ← lookup_route suffix (connection_routes id); parameter id l
          | [] => None
          end
      | None =>
          match strip_prefix "/api/v1/broker-bindings/" path with
          | Some rest =>
              match split_on "/"%char rest with
              | [id] => parameter id [(Http.DELETE, UnbindBrokerAccount id)]
              | _ => None
              end
          | None => None
          end
      end
  end.

Inductive Routed := NoRoute | MethodNotAllowed | Routes (endpoint : Endpoint).

(** A route of [GET] also serves [HEAD]. *)
Definition serves (method : Method) (served : Method) : bool :=
  bool_decide (method = served) || bool_decide (method = Http.HEAD) && bool_decide (served = Http.GET).

Definition router (method : Method) (path : string) : Routed :=
  match routes_of path with
  | None => NoRoute
  | Some l => match List.find (λ me, serves method me.1) l with
              | Some me => Routes me.2
              | None => MethodNotAllowed
              end
  end.
Local Close Scope string_scope.

(** ** Handlers *)

Section handlers.
Context {W : Type} `{PT : !Ports W} `{CO : !Correlation} `{XX : !Extraction}.
Context (state : AppState) (openapi : string) (now : Z).
Notation handler := (st W ApiError Reply).

(** An extractor that refuses answers in place of the handler. *)
Definition extracted {A} (r : result (Z * string) A) (k : A → handler) : handler :=
  match r with Ok a => k a | Err (status, text) => st_ret (json status (BodyText text)) end.

Definition replied {A} (status : Z) (body : A → ReplyBody) (m : st W ApiError A) : handler :=
  let! v := m in st_ret (json status (body v)).

Definition create_session (request : CreateSessionRequest) : handler :=
  st_lift (authentication_port state) ;;;
  let! session := pt_establish_session request in
  let max_age := Z.max (Z.quot (wrap I64 (es_expires_at_unix_ms session - now)) 1000) 0 in
  let cookie := "vox_session=" +:+ es_session_token session +:+ "; HttpOnly"
                +:+ (if es_cookie_secure session then "; Secure" else "")
                +:+ "; SameSite=Strict; Path=/; Max-Age=" +:+ int_to_string max_age in
  if negb (header_value cookie)
  then st_fail (ApiError_new Cat.Internal "SESSION_COOKIE_ENCODING_FAILED" "server could not encode session cookie")
  else st_ret {| re_status := 200; re_set_cookie := Some cookie;
                 re_body := BodySession {| as_user_id := es_user_id session;
                                           as_effective_permissions := es_effective_permissions session;
                                           as_csrf_token := es_csrf_token session;
                                           as_expires_at_unix_ms := es_expires_at_unix_ms session |} |}.

Definition get_capabilities (query : CapabilityQuery) : handler :=
  let own : handler := st_ret (json 200 (BodyCapabilities (app_capabilities state (cpq_account_id query)))) in
  if ap_runtime state then
    let! found := pt_capabilities (cpq_account_id query) in
    match found with Some set => st_ret (json 200 (BodyCapabilities set)) | None => own end
  else own.

Definition administer (actor : option string) (status : Z) (call : AdminCall) : handler :=
  let! context := st_lift (connection_context now actor) in
  st_lift (connections_port state) ;;;
  replied status BodyAdmin (pt_administer context call).

(** A read of one scope through a port. *)
Definition scoped {A} (port : result ApiError ()) (body : A → ReplyBody) (read : ExecutionScope → st W ApiError A)
    (query : ScopeQuery) : handler :=
  let! scope := st_lift (into_scope query) in
  st_lift port ;;;
  replied 200 body (read scope).

Definition get_operations (query : OperationsQuery) : handler :=
  let! parts := st_lift (into_parts query) in
  st_lift (accounts_port state) ;;;
  replied 200 BodyOperations (pt_operations parts.1.1 parts.1.2 parts.2).

Definition run_command (command : ApiCommand) : handler :=
  st_lift (validate_command command) ;;;
  st_lift (execution_port state) ;;;
  let! receipt := pt_execute command in
  st_ret (mutation_reply receipt).

Definition extract_command (request : HttpRequest) (kind : CommandKind) : result (Z * string) ApiCommand :=
  match kind with
  | KindOrder => let? r := extract request in Ok (ApiSubmitOrder r)
  | KindCancel => let? r := extract request in Ok (ApiCancelOrder r)
  | KindReplace => let? r := extract request in Ok (ApiReplaceOrder r)
  | KindStop => let? r := extract request in Ok (ApiSubmitStop r)
  | KindCancelStop => let? r := extract request in Ok (ApiCancelStop r)
  | KindProtection => let? r := extract request in Ok (ApiSubmitProtection r)
  end.

Definition change_risk_state (request : ChangeRiskStateRequest) : handler :=
  st_lift (risk_commands_port state) ;;;
  replied 200 BodyRiskStatus (pt_change_state request).

(** A read of the market projection. *)
Definition market {A} (check : result ApiError ()) (body : A → ReplyBody) (read : MarketDataQueries → result ApiError A)
  : handler :=
  st_lift check ;;;
  st_lift (market_data_port state) ;;;
  let! w := st_get in
  replied 200 body (st_lift (read (pt_market w))).

Definition market_handler (request : HttpRequest) (endpoint : Endpoint) : handler :=
  match endpoint with
  | Instruments => extracted (extract request) (λ q : InstrumentSearchQuery,
      market (Ok tt) BodyInstruments (λ m, mq_search_instruments m (isq_provider q) (isq_query q) (clamp (isq_limit q) 50 1 200)))
  | GetQuote => extracted (extract request) (λ q : InstrumentQuery,
      market (instrument_validated q) BodyQuote (λ m, mq_quote m (iq_provider q) (iq_instrument_uid q)))
  | GetOrderBook => extracted (extract request) (λ q : OrderBookQuery,
      market (Ok tt) BodyBook (λ m, mq_order_book m (obq_provider q) (obq_instrument_uid q) (clamp (obq_depth q) 20 1 50)))
  | GetTrades => extracted (extract request) (λ q : TradesQuery,
      market (Ok tt) BodyTrades (λ m, mq_trades m (tq_provider q) (tq_instrument_uid q) (clamp (tq_limit q) 100 1 500)))
  | CandleIntervals => st_ret (json 200 (BodyIntervals (interval_capability <$> ALL_INTERVALS)))
  | GetCandles => extracted (extract request) (λ q : CandlesQuery,
      market (candle_window q) BodyCandles (λ m, mq_candles m (cq_candle_provider q) (cq_instrument_uid q) (cq_interval q)
                                              (cq_from_unix_ms q) (cq_to_unix_ms q)))
  | _ => extracted (extract request) (λ q : InstrumentQuery,
      market (instrument_validated q) BodyMarketSession (λ m, mq_session m (iq_provider q) (iq_instrument_uid q)))
  end.

(** A call of the administration on the connection or binding of the path. *)
Definition on_segment (actor : option string) (segment : string) (status : Z) (call : string → result (Z * string) AdminCall)
  : handler :=
  extracted (decode_segment segment) (λ id, extracted (call id) (administer actor status)).

Definition admin_handler (actor : option string) (request : HttpRequest) (endpoint : Endpoint) : handler :=
  match endpoint with
  | BrokerConnections => administer actor 200 AdminList
  | CreateBrokerConnection => extracted (extract request) (λ r, administer actor 201 (AdminCreate r))
  | BrokerConnectionDetails id => on_segment actor id 200 (λ id, Ok (AdminDetails id))
  | DeleteBrokerConnection id => on_segment actor id 204 (λ id, Ok (AdminDelete id))
  | ValidateBrokerConnection id => on_segment actor id 200 (λ id, Ok (AdminRevalidate id))
  | RotateBrokerCredential id => on_segment actor id 200 (λ id, let? r := extract request in Ok (AdminRotate id r))
  | DisableBrokerConnection id => on_segment actor id 200 (λ id, Ok (AdminDisable id))
  | DiscoveredBrokerAccounts id => on_segment actor id 200 (λ id, Ok (AdminAccounts id))
  | BrokerAccountBindings id => on_segment actor id 200 (λ id, Ok (AdminBindings id))
  | BindBrokerAccount id => on_segment actor id 201 (λ id, let? r := extract request in Ok (AdminBind id r))
  | ChangeExecutionAuthorization id =>
      on_segment actor id 200 (λ id, let? r := extract request in Ok (AdminAuthorize id r))
  | UnbindBrokerAccount id => on_segment actor id 204 (λ id, Ok (AdminUnbind id))
  | _ => st_ret (json 404 (BodyText ""))
  end.

Definition serve (endpoint : Endpoint) (actor : option string) (request : HttpRequest) : handler :=
  match endpoint with
  | SystemHealth => st_ret (json 200 (BodySystemHealth {|
      shd_status := "ok"; shd_api_version := "v1"; shd_server_time_unix_ms := now |}))
  | CreateSession => extracted (extract request) create_session
  | Capabilities => extracted (extract request) get_capabilities
  | GetRuntimeHealth => st_lift (runtime_port state) ;;; replied 200 BodyHealth pt_health
  | ScopedRuntimeHealth => extracted (extract request) (scoped (runtime_port state) BodyHealth pt_scoped_health)
  | RuntimeScopes => st_lift (runtime_port state) ;;; replied 200 BodyScopes pt_scopes
  | GetReconciliation => extracted (extract request) (scoped (accounts_port state) BodyReconciliation pt_reconciliation)
  | GetAccounts => extracted (extract request) (scoped (accounts_port state) BodyAccounts pt_accounts)
  | GetPortfolio => extracted (extract request) (scoped (accounts_port state) BodyPortfolio pt_portfolio)
  | GetPositions => extracted (extract request) (scoped (accounts_port state) BodyPositions pt_positions)
  | GetOrders => extracted (extract request) (scoped (accounts_port state) BodyOrders pt_orders)
  | GetStopOrders => extracted (extract request) (scoped (accounts_port state) BodyStops pt_stop_orders)
  | GetOperations => extracted (extract request) get_operations
  | GetMutations => extracted (extract request) (scoped (accounts_port state) BodyMutations pt_mutations)
  | Command kind => extracted (extract_command request kind) run_command
  | RiskStatus => extracted (extract request) (scoped (risk_queries_port state) BodyRiskStatus pt_risk_status)
  | RiskReservations =>
      extracted (extract request) (scoped (risk_queries_port state) BodyReservations pt_active_reservations)
  | ChangeRiskState => extracted (extract request) change_risk_state
  | OpenApiDocument => st_ret (json 200 (BodyText openapi))
  | LiveStream => extracted (extract request) (λ _ : WebSocketUpgrade, st_ret (json 101 BodyUpgrade))
  | Instruments | GetQuote | GetOrderBook | GetTrades | CandleIntervals | GetCandles | GetMarketSession =>
      market_handler request endpoint
  | _ => admin_handler actor request endpoint
  end.

(** A request, from the middleware to its reply. *)
Definition respond `{UF : !UuidFormat} `{CI : !Cipher} (auth : AuthState) (moment : Moment) (request : HttpRequest) (w : W)
  : W * Reply :=
  match authenticated_actor_middleware auth moment (rq_head request) with
  | Answered e => (w, error_reply e)
  | Forwarded actor =>
      match router (hr_method (rq_head request)) (hr_path (rq_head request)) with
      | NoRoute => (w, error_reply route_not_found)
      | MethodNotAllowed => (w, json 405 (BodyText ""))
      | Routes endpoint =>
          match serve endpoint actor request w with
          | (w, Ok reply) => (w, reply)
          | (w, Err e) => (w, error_reply e)
          end
      end
  end.

(** ** What a request can do *)

(** The ports that only read an account or a runtime. *)
Inductive reads (w : W) : W → Prop :=
| reads_health : reads w (fst (pt_health w))
| reads_scoped_health scope : reads w (fst (pt_scoped_health scope w))
| reads_scopes : reads w (fst (pt_scopes w))
| reads_accounts scope : reads w (fst (pt_accounts scope w))
| reads_portfolio scope : reads w (fst (pt_portfolio scope w))
| reads_positions scope : reads w (fst (pt_positions scope w))
| reads_orders scope : reads w (fst (pt_orders scope w))
| reads_stop_orders scope : reads w (fst (pt_stop_orders scope w))
| reads_operations scope cursor limit : reads w (fst (pt_operations scope cursor limit w))
| reads_reconciliation scope : reads w (fst (pt_reconciliation scope w))
| reads_mutations scope : reads w (fst (pt_mutations scope w))
| reads_risk_status scope : reads w (fst (pt_risk_status scope w))
| reads_reservations scope : reads w (fst (pt_active_reservations scope w)).

(** A reply that discloses nothing of the process. *)
Definition quiet (reply : Reply) : Prop :=
  match re_body reply with BodySystemHealth _ | BodyError _ | BodyText _ => True | _ => False end.

(** A reply about the market or the deployment. *)
Definition about_market (reply : Reply) : Prop :=
  match re_body reply with
  | BodyInstruments _ | BodyQuote _ | BodyBook _ | BodyTrades _ | BodyIntervals _ | BodyCandles _ | BodyMarketSession _
  | BodyCapabilities _ => True
  | _ => False
  end.

Definition reply_of {A} (reply : A → Reply) (r : result ApiError A) : Reply :=
  match r with Ok a => reply a | Err e => error_reply e end.

(** What the session of a request lets it do, with the permission of manual execution of
    the deployment. *)
Inductive acts (manual : Permission) (session : VerifiedSession) (w : W) : W → Reply → Prop :=
| acts_command command :
    manual ∈ vs_permissions session → ap_execution state = true → validate_command command = Ok tt →
    acts manual session w (fst (pt_execute command w)) (reply_of mutation_reply (snd (pt_execute command w)))
| acts_risk request :
    Perm.ChangeRiskPolicy ∈ vs_permissions session → ap_risk_commands state = true →
    acts manual session w (fst (pt_change_state request w))
      (reply_of (λ v, json 200 (BodyRiskStatus v)) (snd (pt_change_state request w)))
| acts_admin context call status :
    crc_user_id context = vs_actor session → crc_now_unix_ms context = now → ap_connections state = true →
    acts manual session w (fst (pt_administer context call w))
      (reply_of (λ v, json status (BodyAdmin v)) (snd (pt_administer context call w)))
| acts_read w' reply :
    Perm.ViewPortfolio ∈ vs_permissions session → reads w w' → acts manual session w w' reply
| acts_stream : Perm.ViewPortfolio ∈ vs_permissions session → acts manual session w w (json 101 BodyUpgrade)
| acts_capabilities account_id :
    ap_runtime state = true →
    acts manual session w (fst (pt_capabilities account_id w))
      (reply_of (λ found, json 200 (BodyCapabilities match found with Some set => set | None => app_capabilities state account_id end))
         (snd (pt_capabilities account_id w)))
| acts_market reply : about_market reply → acts manual session w w reply.

(** Which permission a handler takes. *)
Definition endpoint_permission (manual : Permission) (endpoint : Endpoint) : option Permission :=
  match endpoint with
  | Command _ => Some manual
  | ChangeRiskState => Some Perm.ChangeRiskPolicy
  | GetRuntimeHealth | ScopedRuntimeHealth | RuntimeScopes | GetReconciliation | GetAccounts | GetPortfolio
  | GetPositions | GetOrders | GetStopOrders | GetOperations | GetMutations | RiskStatus | RiskReservations
  | LiveStream => Some Perm.ViewPortfolio
  | _ => None
  end.

(** [P] of the state a handler leaves and of its reply. *)
Definition outcome (P : W → Reply → Prop) (m : handler) (w : W) : Prop :=
  P (fst (m w)) (reply_of id (snd (m w))).

Lemma outcome_ret P (reply : Reply) w : P w reply → outcome P (st_ret reply) w.
Proof. done. Qed.

Lemma outcome_extracted {A} P (r : result (Z * string) A) k w :
  (∀ reply, quiet reply → P w reply) → (∀ a, r = Ok a → outcome P (k a) w) → outcome P (extracted r k) w.
Proof. intros Hq H. destruct r as [a|[status text]]; [by apply H|]. by apply Hq. Qed.

Lemma outcome_lift {A} P (r : result ApiError A) k w :
  (∀ reply, quiet reply → P w reply) → (∀ a, r = Ok a → outcome P (k a) w) →
  outcome P (st_bind (st_lift r) k) w.
Proof. intros Hq H. destruct r as [a|e]; [by apply H|]. by apply Hq. Qed.

(** A port call whose reply is built from its result. *)
Lemma outcome_call {A} P (m : st W ApiError A) (f : A → Reply) w :
  P (fst (m w)) (reply_of f (snd (m w))) → outcome P (let! v := m in st_ret (f v)) w.
Proof. unfold outcome, st_bind. by destruct (m w) as [w1 [a|e]]. Qed.

(** ** Routes and permissions *)

Lemma find_in {A} (p : A → bool) l x : List.find p l = Some x → x ∈ l ∧ p x = true.
Proof. intros H%List.find_some. by rewrite list_elem_of_In. Qed.

Ltac each_of H := repeat (apply elem_of_cons in H as [H|H]; [simplify_eq; try done|]); try by apply elem_of_nil in H.

Lemma serves_spec method served : serves method served = true → method = served ∨ method = Http.HEAD ∧ served = Http.GET.
Proof. unfold serves. repeat case_bool_decide; naive_solver. Qed.

(** What is asked of a path that reaches a handler. *)
Definition guarded (manual : Permission) (method : Method) (path : string) (endpoint : Endpoint) : Prop :=
  match endpoint with
  | CreateSession => method = Http.POST ∧ path = "/api/v1/auth/session"%string
  | _ => match endpoint_permission manual endpoint with
         | Some p => required_permission method path manual = Some p
         | None => True
         end
  end.

Lemma fixed_routes_guarded manual :
  Forall (λ pl, Forall (λ me : Method * Endpoint, ∀ method, serves method me.1 = true → guarded manual method pl.1 me.2) pl.2)
    fixed_routes.
Proof.
  repeat (apply Forall_cons; split); try apply Forall_nil_2; simpl;
    repeat (apply Forall_cons; split); try apply Forall_nil_2; simpl;
    intros method [H|[H H']]%serves_spec; subst; done.
Qed.

(** Below the fixed paths there are only the routes of the administration. *)
Lemma other_routes_guarded manual method path l me :
  lookup_route path fixed_routes = None → routes_of path = Some l → me ∈ l → guarded manual method path me.2.
Proof.
  intros Hf Hr Hme. unfold routes_of in Hr. rewrite Hf in Hr. revert Hr.
  destruct (strip_prefix "/api/v1/broker-connections/" path) as [rest|].
  - destruct (split_on "/" rest) as [|seg suffix]; [done|].
    unfold lookup_route. destruct (List.find _ (connection_routes seg)) as [[k l']|] eqn:Hk; [|done]. simpl.
    unfold parameter. case_bool_decide; [done|]. intros [= <-].
    apply find_in in Hk as [Hk _]. unfold connection_routes in Hk. each_of Hk; each_of Hme.
  - destruct (strip_prefix "/api/v1/broker-bindings/" path) as [rest|]; [|done].
    destruct (split_on "/" rest) as [|seg [|]]; try done.
    unfold parameter. case_bool_decide; [done|]. intros [= <-]. each_of Hme.
Qed.

Lemma router_guarded manual method path endpoint :
  router method path = Routes endpoint → guarded manual method path endpoint.
Proof.
  unfold router. destruct (routes_of path) as [l|] eqn:Hr; [|done].
  destruct (List.find _ l) as [me|] eqn:Hfind; [|done]. intros [= <-]. apply find_in in Hfind as [Hme Hserves].
  destruct (lookup_route path fixed_routes) as [l'|] eqn:Hl; [|by apply (other_routes_guarded manual method path l)].
  unfold routes_of in Hr. rewrite Hl in Hr. injection Hr as ->. unfold lookup_route in Hl.
  destruct (List.find _ fixed_routes) as [[path' l']|] eqn:Hk; [|done]. injection Hl as ->.
  apply find_in in Hk as [Hk Hpath]. unfold by_key in Hpath. apply bool_decide_eq_true in Hpath as Heq. simpl in Heq. subst path'.
  pose proof (fixed_routes_guarded manual) as Hall. rewrite Forall_forall in Hall.
  specialize (Hall _ Hk). simpl in Hall. rewrite Forall_forall in Hall. by apply (Hall _ Hme).
Qed.

Lemma public_endpoints request endpoint :
  public_request request = true → router (hr_method request) (hr_path request) = Routes endpoint →
  endpoint = SystemHealth ∨
  endpoint = CreateSession ∧ hr_method request = Http.POST ∧ hr_path request = "/api/v1/auth/session"%string.
Proof.
  unfold public_request. intros [H|[H1 H2]%andb_true_iff]%orb_true_iff.
  - apply bool_decide_eq_true in H. rewrite H. intros Hr. left. revert Hr. by destruct (hr_method request); intros [= <-].
  - apply bool_decide_eq_true in H1, H2. rewrite H1, H2. intros [= <-]. by right.
Qed.

(** ** The handlers act within the session *)

Section within.
Context (manual : Permission) (session : VerifiedSession) (w : W).

Definition within (w' : W) (reply : Reply) : Prop := w' = w ∧ quiet reply ∨ acts manual session w w' reply.

Lemma within_quiet reply : quiet reply → within w reply.
Proof. by left. Qed.

Lemma within_scoped {A} port body (read : ExecutionScope → st W ApiError A) query :
  Perm.ViewPortfolio ∈ vs_permissions session → (∀ scope, reads w (fst (read scope w))) →
  outcome within (scoped port body read query) w.
Proof.
  intros Hp Hr. apply outcome_lift; [apply within_quiet|]. intros scope _.
  apply outcome_lift; [apply within_quiet|]. intros _ _. apply outcome_call. right. by apply acts_read.
Qed.

Lemma within_command command : manual ∈ vs_permissions session → outcome within (run_command command) w.
Proof.
  intros Hp. apply outcome_lift; [apply within_quiet|]. intros [] Hv.
  apply outcome_lift; [apply within_quiet|]. intros [] Hx. apply outcome_call. right. apply acts_command; try done.
  unfold execution_port, attached in Hx. by destruct (ap_execution state).
Qed.

Lemma within_administer status call : outcome within (administer (Some (vs_actor session)) status call) w.
Proof.
  apply outcome_lift; [apply within_quiet|]. intros context [= <-].
  apply outcome_lift; [apply within_quiet|]. intros [] Hx. apply outcome_call. right. apply acts_admin; try done.
  unfold connections_port, attached in Hx. by destruct (ap_connections state).
Qed.

Lemma within_admin_handler request endpoint :
  outcome within (admin_handler (Some (vs_actor session)) request endpoint) w.
Proof.
  assert (∀ segment status call, outcome within (on_segment (Some (vs_actor session)) segment status call) w) as Hs.
  { intros segment status call. apply outcome_extracted; [apply within_quiet|]. intros id _.
    apply outcome_extracted; [apply within_quiet|]. intros c _. apply within_administer. }
  destruct endpoint; simpl; try apply Hs; try apply within_administer; try by left.
  apply outcome_extracted; [apply within_quiet|]. intros r _. apply within_administer.
Qed.

Lemma within_market {A} check body (read : MarketDataQueries → result ApiError A) :
  (∀ a, about_market (json 200 (body a))) → outcome within (market check body read) w.
Proof.
  intros Hb. apply outcome_lift; [apply within_quiet|]. intros _ _.
  apply outcome_lift; [apply within_quiet|]. intros _ _. unfold outcome, st_bind, st_get. simpl.
  destruct (read (pt_market w)) as [a|e]; simpl; [right; by apply acts_market|by left].
Qed.

Lemma within_market_handler request endpoint : outcome within (market_handler request endpoint) w.
Proof.
  destruct endpoint; simpl;
    first [apply outcome_extracted; [apply within_quiet|]; intros q _; by apply within_market | right; by apply acts_market].
Qed.

Lemma within_capabilities query : outcome within (get_capabilities query) w.
Proof.
  unfold get_capabilities. destruct (ap_runtime state) eqn:Hr; [|right; by apply acts_market].
  right. pose proof (acts_capabilities manual session w (cpq_account_id query) Hr) as H.
  unfold st_bind. destruct (pt_capabilities (cpq_account_id query) w) as [w1 [[set|]|e]]; exact H.
Qed.

Lemma within_serve endpoint request :
  (∀ p, endpoint_permission manual endpoint = Some p → p ∈ vs_permissions session) → endpoint ≠ CreateSession →
  outcome within (serve endpoint (Some (vs_actor session)) request) w.
Proof.
  intros Hp Hc. destruct endpoint; simpl in Hp; try done; try specialize (Hp _ eq_refl);
    try apply within_market_handler; try apply (within_admin_handler request); try by left.
  all: unfold serve; first
    [ apply outcome_extracted; [apply within_quiet|]; intros q _
    | apply outcome_lift; [apply within_quiet|]; intros _ _; apply outcome_call; right; apply acts_read; [done|by constructor]].
  all: first [ apply within_scoped; [done|by constructor] | by apply within_command | apply within_capabilities | idtac ].
  - apply outcome_lift; [apply within_quiet|]. intros parts _. apply outcome_lift; [apply within_quiet|]. intros _ _.
    apply outcome_call. right. apply acts_read; [done|constructor].
  - apply outcome_lift; [apply within_quiet|]. intros [] Hx. apply outcome_call. right. apply acts_risk; [done|].
    unfold risk_commands_port, attached in Hx. by destruct (ap_risk_commands state).
  - right. by apply acts_stream.
Qed.

(** A handler that the router reaches on a path whose permission the session has. *)
Lemma within_routed request endpoint :
  router (hr_method (rq_head request)) (hr_path (rq_head request)) = Routes endpoint →
  public_request (rq_head request) = false →
  (∀ p, required_permission (hr_method (rq_head request)) (hr_path (rq_head request)) manual = Some p →
        p ∈ vs_permissions session) →
  outcome within (serve endpoint (Some (vs_actor session)) request) w.
Proof.
  intros Hr Hpub Hp. pose proof (router_guarded manual _ _ _ Hr) as Hg. apply within_serve.
  - intros p Hep. apply Hp. unfold guarded in Hg. rewrite Hep in Hg. by destruct endpoint.
  - intros ->. simpl in Hg. destruct Hg as [Hm Hpath]. unfold public_request in Hpub. by rewrite Hm, Hpath in Hpub.
Qed.
End within.

Lemma outcome_answer P (m : handler) w w' reply :
  outcome P m w →
  match m w with (w, Ok reply) => (w, reply) | (w, Err e) => (w, error_reply e) end = (w', reply) → P w' reply.
Proof. unfold outcome. destruct (m w) as [w1 [r|e]]; by intros H [= <- <-]. Qed.

(** ** Requests *)

Section requests.
Context `{UF : !UuidFormat} `{CI : !Cipher} (auth : AuthState) (moment : Moment) (request : HttpRequest) (w : W).
Notation manual := (au_manual_execution_permission auth).

Lemma respond_public w' reply :
  public_request (rq_head request) = true → respond auth moment request w = (w', reply) →
  w' = w ∧ quiet reply ∨
  ∃ credentials, hr_method (rq_head request) = Http.POST ∧ hr_path (rq_head request) = "/api/v1/auth/session"%string ∧
    ap_authentication state = true ∧ w' = fst (pt_establish_session credentials w).
Proof.
  intros Hpub. unfold respond, authenticated_actor_middleware. rewrite Hpub.
  destruct (router _ _) as [| |endpoint] eqn:Hr; [intros [= <- <-]; by left..|].
  apply (public_endpoints _ _ Hpub) in Hr as [->|(-> & Hm & Hpath)]; [intros [= <- <-]; by left|].
  unfold serve, extracted. destruct (extract request) as [credentials|[status text]]; [|intros [= <- <-]; by left].
  unfold create_session, authentication_port, attached. destruct (ap_authentication state) eqn:Ha; [|intros [= <- <-]; by left].
  simpl. unfold st_bind. simpl. destruct (pt_establish_session credentials w) as [w1 [es|e]] eqn:He; simpl.
  - destruct (negb _); intros [= <- <-]; right; exists credentials; by rewrite He.
  - intros [= <- <-]. right. exists credentials. by rewrite He.
Qed.

(** Past the middleware there is a session with the permission of the path, and the handler
    of the path answers. *)
Lemma respond_private w' reply :
  public_request (rq_head request) = false → respond auth moment request w = (w', reply) →
  w' = w ∧ quiet reply ∨
  ∃ session endpoint, authenticate moment (rq_head request) = Ok session ∧
    router (hr_method (rq_head request)) (hr_path (rq_head request)) = Routes endpoint ∧
    (∀ p, required_permission (hr_method (rq_head request)) (hr_path (rq_head request)) manual = Some p →
          p ∈ vs_permissions session) ∧
    ∀ P, outcome P (serve endpoint (Some (vs_actor session)) request) w → P w' reply.
Proof.
  intros Hpub. unfold respond, authenticated_actor_middleware. rewrite Hpub.
  destruct (authenticate moment (rq_head request)) as [session|f] eqn:Ha;
    [|destruct f; intros [= <- <-]; by left].
  destruct (required_permission _ _ _) as [required|] eqn:Hq;
    [destruct (bool_decide_reflect (required ∈ vs_permissions session)) as [Hin|]; [simpl|intros [= <- <-]; by left]|];
    (destruct (router _ _) as [| |endpoint] eqn:Hr; [intros [= <- <-]; by left..|]; intros Hserve; right;
     exists session, endpoint; split_and!; [done..|intros p Hp; by simplify_eq|intros P HP; by eapply outcome_answer]).
Qed.

Lemma respond_within w' reply :
  public_request (rq_head request) = false → respond auth moment request w = (w', reply) →
  w' = w ∧ quiet reply ∨
  ∃ session, authenticate moment (rq_head request) = Ok session ∧ acts manual session w w' reply.
Proof.
  intros Hpub [H|(session & endpoint & Ha & Hr & Hp & HP)]%respond_private; [by left| |done].
  destruct (HP (within manual session w)) as [H|H]; [by apply within_routed|by left|right; by exists session].
Qed.

(** A request that is routed to a command. *)
Lemma respond_command kind w' reply :
  router (hr_method (rq_head request)) (hr_path (rq_head request)) = Routes (Command kind) →
  respond auth moment request w = (w', reply) →
  w' = w ∧ quiet reply ∨
  ∃ session command, authenticate moment (rq_head request) = Ok session ∧ manual ∈ vs_permissions session ∧
    extract_command request kind = Ok command ∧ validate_command command = Ok tt ∧
    w' = fst (pt_execute command w) ∧ reply = reply_of mutation_reply (snd (pt_execute command w)).
Proof.
  intros Hr Hresp. destruct (public_request (rq_head request)) eqn:Hpub.
  { by destruct (public_endpoints _ _ Hpub Hr) as [|[? _]]. }
  apply respond_private in Hresp as [H|(session & endpoint & Ha & Hr' & Hp & HP)]; [by left| |done].
  rewrite Hr in Hr'. injection Hr' as <-. pose proof (router_guarded manual _ _ _ Hr) as Hg. specialize (Hp _ Hg).
  apply (HP (λ w' reply, w' = w ∧ quiet reply ∨ ∃ session command, authenticate moment (rq_head request) = Ok session ∧
    manual ∈ vs_permissions session ∧ extract_command request kind = Ok command ∧ validate_command command = Ok tt ∧
    w' = fst (pt_execute command w) ∧ reply = reply_of mutation_reply (snd (pt_execute command w)))).
  apply outcome_extracted; [by left|]. intros command Hx. apply outcome_lift; [by left|]. intros [] Hv.
  apply outcome_lift; [by left|]. intros [] _. apply outcome_call. right. by exists session, command.
Qed.

(** C8. Nothing a request does to the process, and nothing of an account that it is told,
    happens without the session it takes.  Either the reply discloses nothing and the
    process is as it was; or the request is a [POST] to [/api/v1/auth/session], which only
    establishes a session; or the middleware has authenticated a session and what is done
    is one of: a valid command, dispatched once to the execution port, with the
    deployment's permission of manual execution; a change of the risk state with
    [ChangeRiskPolicy]; an administration call in the name of the user of the session; a
    read of an account or runtime, or the live stream, with [ViewPortfolio]; the
    capabilities; a read of the market.  The reply to a command is the receipt of that
    dispatch, with 202 exactly when its outcome is unknown. *)
Theorem only_permitted_requests_act :
  let '(w', reply) := respond auth moment request w in
  w' = w ∧ quiet reply ∨
  (∃ credentials, hr_method (rq_head request) = Http.POST ∧ hr_path (rq_head request) = "/api/v1/auth/session"%string ∧
     ap_authentication state = true ∧ w' = fst (pt_establish_session credentials w)) ∨
  (∃ session, authenticate moment (rq_head request) = Ok session ∧ acts manual session w w' reply).
Proof.
  destruct (respond auth moment request w) as [w' reply] eqn:Hresp.
  destruct (public_request (rq_head request)) eqn:Hpub.
  - apply respond_public in Hresp as [H|H]; [by left|by right; left|done].
  - apply respond_within in Hresp as [H|H]; [by left|by right; right|done].
Qed.
End requests.

End handlers.
