(* ===== verification/Core.v ===== *)
(** * The core process: [crates/vox-core/src/lib.rs]

    The configuration of the process read from its environment variables, and the core
    runtime, which allows new exposure only with a completed reconciliation of the current
    connection and an environment whose guard allows mutations. *)
From S2P Require Import Prelude Domain ConnectionModel ApiContract.

(** ** Environment variables *)

(** What [std::env::var] answers. *)
Inductive EnvVar := Var (value : string) | NotPresent | NotUnicode.
Class ProcessEnv := env_var : string → EnvVar.

(** ** Configuration *)

Inductive ConfigError :=
| InvalidEnvironment
| InvalidBoolean (name : string)
| NonUnicode (name : string).

Definition config_error_text (e : ConfigError) : string :=
  match e with
  | InvalidEnvironment => "VOX_ENV must be sandbox, paper, or live"
  | InvalidBoolean name => name +:+ " must be true, false, 1, or 0"
  | NonUnicode name => name +:+ " must be valid Unicode"
  end.

Record CoreConfig := { cc_environment : Environment; cc_live_mutations_enabled : bool }.

Definition CoreConfig_default : CoreConfig := {| cc_environment := Sandbox; cc_live_mutations_enabled := false |}.

Definition parse_environment (value : string) : result ConfigError Environment :=
  let value := to_ascii_lowercase (trim value) in
  if bool_decide (value = "sandbox"%string) then Ok Sandbox
  else if bool_decide (value = "paper"%string) then Ok Paper
  else if bool_decide (value = "live"%string) then Ok Live
  else Err InvalidEnvironment.

(** The words for a switch. *)
Definition switch (value : string) : option bool :=
  let value := to_ascii_lowercase (trim value) in
  if bool_decide (value = "true"%string) || bool_decide (value = "1"%string) then Some true
  else if bool_decide (value = "false"%string) || bool_decide (value = "0"%string) then Some false
  else None.

Definition parse_bool (value : string) : result ConfigError bool :=
  ok_or (switch value) (InvalidBoolean "VOX_LIVE_MUTATIONS_ENABLED").

Definition CoreConfig_from_env `{EV : !ProcessEnv} : result ConfigError CoreConfig :=
  let? environment := match env_var "VOX_ENV" with
                      | Var value => parse_environment value
                      | NotPresent => Ok Sandbox
                      | NotUnicode => Err (NonUnicode "VOX_ENV")
                      end in
  let? live_mutations_enabled := match env_var "VOX_LIVE_MUTATIONS_ENABLED" with
                                 | Var value => parse_bool value
                                 | NotPresent => Ok false
                                 | NotUnicode => Err (NonUnicode "VOX_LIVE_MUTATIONS_ENABLED")
                                 end in
  Ok {| cc_environment := environment; cc_live_mutations_enabled := live_mutations_enabled |}.

Definition mutation_guard (self : CoreConfig) : MutationGuard :=
  if cc_live_mutations_enabled self then with_live_mutations_enabled (cc_environment self)
  else MutationGuard_new (cc_environment self).

(** ** Evidence of a reconciliation *)

Record ReconciliationChecks := {
  rk_reference_data : bool;
  rk_account_snapshot : bool;
  rk_orders : bool;
  rk_positions : bool;
  rk_risk_config : bool;
}.

Definition ReconciliationChecks_new (reference_data account_snapshot orders positions risk_config : bool)
  : ReconciliationChecks := {|
  rk_reference_data := reference_data; rk_account_snapshot := account_snapshot; rk_orders := orders;
  rk_positions := positions; rk_risk_config := risk_config |}.

Definition complete : ReconciliationChecks := ReconciliationChecks_new true true true true true.

Definition is_complete (self : ReconciliationChecks) : bool :=
  rk_reference_data self && rk_account_snapshot self && rk_orders self && rk_positions self && rk_risk_config self.

Inductive ReconciliationEvidenceError :=
| MissingBrokerSnapshot
| MissingConnection
| IncompleteChecks
| UnresolvedUnknowns (count : Z).

Record ReconciliationEvidence := { re_broker_snapshot_id : string; re_connection_generation : Z }.

Definition ReconciliationEvidence_new (broker_snapshot_id : string) (connection_generation : Z)
    (checks : ReconciliationChecks) (unresolved_unknowns : Z)
  : result ReconciliationEvidenceError ReconciliationEvidence :=
  if is_blank broker_snapshot_id then Err MissingBrokerSnapshot
  else if bool_decide (connection_generation = 0) then Err MissingConnection
  else if negb (is_complete checks) then Err IncompleteChecks
  else if negb (bool_decide (unresolved_unknowns = 0)) then Err (UnresolvedUnknowns unresolved_unknowns)
  else Ok {| re_broker_snapshot_id := broker_snapshot_id; re_connection_generation := connection_generation |}.

(** ** The core runtime *)

Inductive CoreSafetyError :=
| NotReady (state : Readiness.ReadinessState)
| MutationRefused (error : LiveMutationError)
| MissingReconciliation
| StaleAuthorization.

Record CoreRuntime := {
  cr_config : CoreConfig;
  cr_readiness : Readiness.Readiness;
  cr_reconciliation : option ReconciliationEvidence;
}.

Record NewExposureAuthorization := { na_mutation : MutationAuthorization; na_connection_generation : Z }.

Definition CoreRuntime_new (config : CoreConfig) : CoreRuntime := {|
  cr_config := config; cr_readiness := Readiness.default; cr_reconciliation := None |}.

(** [self.readiness.transition(target, reason)] after the evidence was set to [evidence]. *)
Definition moved (evidence : option ReconciliationEvidence) (target : Readiness.ReadinessState) (reason : option string)
  : st CoreRuntime Readiness.ReadinessError () := λ self,
  let '(readiness, r) := Readiness.transition target reason (cr_readiness self) in
  ({| cr_config := cr_config self; cr_readiness := readiness; cr_reconciliation := evidence |}, r).

Definition begin_connecting : st CoreRuntime Readiness.ReadinessError () := moved None Readiness.Connecting None.
Definition begin_reconciliation : st CoreRuntime Readiness.ReadinessError () := moved None Readiness.Reconciling None.

Definition complete_reconciliation (evidence : ReconciliationEvidence) : st CoreRuntime Readiness.ReadinessError () := λ self,
  match moved (cr_reconciliation self) Readiness.Ready None self with
  | (self, Err e) => (self, Err e)
  | (self, Ok _) =>
      ({| cr_config := cr_config self; cr_readiness := cr_readiness self; cr_reconciliation := Some evidence |}, Ok tt)
  end.

Definition mark_degraded (reason : string) : st CoreRuntime Readiness.ReadinessError () :=
  moved None Readiness.Degraded (Some reason).
Definition core_halt (reason : string) : st CoreRuntime Readiness.ReadinessError () :=
  moved None Readiness.Halted (Some reason).

Definition authorize_new_exposure (self : CoreRuntime) : result CoreSafetyError NewExposureAuthorization :=
  if negb (Readiness.can_open_new_exposure (cr_readiness self))
  then Err (NotReady (Readiness.state (cr_readiness self)))
  else
    let? evidence := ok_or (cr_reconciliation self) MissingReconciliation in
    let? mutation := map_err MutationRefused (authorize_mutation (mutation_guard (cr_config self))) in
    Ok {| na_mutation := mutation; na_connection_generation := re_connection_generation evidence |}.

Definition consume_new_exposure_authorization (self : CoreRuntime) (authorization : NewExposureAuthorization)
  : result CoreSafetyError MutationAuthorization :=
  let current := if Readiness.can_open_new_exposure (cr_readiness self) then cr_reconciliation self else None in
  let? evidence := ok_or current (NotReady (Readiness.state (cr_readiness self))) in
  if negb (bool_decide (re_connection_generation evidence = na_connection_generation authorization))
  then Err StaleAuthorization
  else Ok (na_mutation authorization).

(** ** Every run of the core *)

Inductive CoreEvent :=
| BeginConnecting
| BeginReconciliation
| CompleteReconciliation (evidence : ReconciliationEvidence)
| MarkDegraded (reason : string)
| HaltCore (reason : string).

Definition core_event (event : CoreEvent) : st CoreRuntime Readiness.ReadinessError () :=
  match event with
  | BeginConnecting => begin_connecting
  | BeginReconciliation => begin_reconciliation
  | CompleteReconciliation evidence => complete_reconciliation evidence
  | MarkDegraded reason => mark_degraded reason
  | HaltCore reason => core_halt reason
  end.

(** Requests that are refused are part of a run. *)
Definition core_run (config : CoreConfig) (events : list CoreEvent) : CoreRuntime :=
  fold_left (λ self event, fst (core_event event self)) events (CoreRuntime_new config).

(** The last request of the run completed a reconciliation, from a state that allows it. *)
Definition reconciled_last (config : CoreConfig) (events : list CoreEvent) (generation : Z) : Prop :=
  ∃ before evidence, events = before ++ [CompleteReconciliation evidence] ∧
    Readiness.state (cr_readiness (core_run config before)) ∈ [Readiness.Reconciling; Readiness.Ready] ∧
    re_connection_generation evidence = generation.

Lemma core_run_snoc config events event :
  core_run config (events ++ [event]) = fst (core_event event (core_run config events)).
Proof. unfold core_run. by rewrite fold_left_app. Qed.

Lemma core_config_kept config events : cr_config (core_run config events) = config.
Proof.
  induction events as [|event events IH] using rev_ind; [done|]. rewrite core_run_snoc.
  destruct event; simpl; unfold complete_reconciliation, begin_connecting, begin_reconciliation, mark_degraded, core_halt, moved;
    destruct (Readiness.transition _ _ _) as [rd [[]|e]]; exact IH.
Qed.

(** Evidence is there exactly after a reconciliation that was completed last, and then
    the core is ready. *)
Lemma reconciliation_last config events :
  match cr_reconciliation (core_run config events) with
  | Some evidence =>
      Readiness.state (cr_readiness (core_run config events)) = Readiness.Ready ∧
      ∃ before, events = before ++ [CompleteReconciliation evidence] ∧
        Readiness.state (cr_readiness (core_run config before)) ∈ [Readiness.Reconciling; Readiness.Ready]
  | None => ∀ generation, ¬ reconciled_last config events generation
  end.
Proof.
  induction events as [|event events IH] using rev_ind.
  { simpl. intros generation (before & ev & H & _). by destruct before. }
  rewrite core_run_snoc.
  destruct event as [| |ev|reason|reason].
  1, 2, 4, 5: simpl; unfold begin_connecting, begin_reconciliation, mark_degraded, core_halt, moved;
    destruct (Readiness.transition _ _ _); simpl; intros generation (before & ev & H & _); by apply app_inj_tail in H as [_ ?].
  simpl. unfold complete_reconciliation, moved, Readiness.transition.
  destruct (Readiness.state (cr_readiness (core_run config events))) eqn:Hs; simpl.
  3, 4: split; [done|]; exists events; split; [done|]; rewrite Hs; set_solver.
  all: destruct (cr_reconciliation (core_run config events)) as [ev'|] eqn:Hr; [by destruct IH as [? _]|];
    intros generation (before & ev' & H & Hst & _); apply app_inj_tail in H as [<- _]; rewrite Hs in Hst; set_solver.
Qed.

Lemma reconciled_last_spec config events generation :
  reconciled_last config events generation ↔
  ∃ evidence, cr_reconciliation (core_run config events) = Some evidence ∧ re_connection_generation evidence = generation.
Proof.
  pose proof (reconciliation_last config events) as H. destruct (cr_reconciliation (core_run config events)) as [ev|].
  - destruct H as (_ & before & -> & Hst). split.
    + intros (before' & ev' & [-> [= ->]]%app_inj_tail & _ & <-). eauto.
    + intros (ev' & [= ->] & <-). by exists before, ev'.
  - split; [intros Hl; by apply H in Hl|intros (ev & [=] & _)].
Qed.

Lemma ready_with_evidence config events evidence :
  cr_reconciliation (core_run config events) = Some evidence →
  Readiness.can_open_new_exposure (cr_readiness (core_run config events)) = true.
Proof.
  intros Hr. pose proof (reconciliation_last config events) as H. rewrite Hr in H. destruct H as [Hs _].
  unfold Readiness.can_open_new_exposure. by rewrite Hs.
Qed.

(** New exposure is authorised by a reconciliation and by nothing else.  Whatever is
    asked of the core, in whatever order, it hands out an authorisation exactly when the
    last request completed a reconciliation from RECONCILING or READY and the environment
    is not live or live mutations are enabled, and the authorisation carries the connection
    generation of that reconciliation; it accepts one back exactly when the last request
    completed a reconciliation of the generation the authorisation carries. *)
Theorem exposure_needs_live_reconciliation config events :
  let core := core_run config events in
  (∀ authorization, authorize_new_exposure core = Ok authorization ↔
     (cc_environment config = Live → cc_live_mutations_enabled config = true) ∧
     ma_environment (na_mutation authorization) = cc_environment config ∧
     reconciled_last config events (na_connection_generation authorization)) ∧
  (∀ authorization mutation, consume_new_exposure_authorization core authorization = Ok mutation ↔
     mutation = na_mutation authorization ∧ reconciled_last config events (na_connection_generation authorization)).
Proof.
  intros core. split.
  - intros [[env] generation]. rewrite reconciled_last_spec. fold core. simpl. unfold authorize_new_exposure.
    assert (cr_config core = config) as Hcfg by apply core_config_kept. rewrite Hcfg.
    destruct (cr_reconciliation core) as [evidence|] eqn:Hr.
    + pose proof (ready_with_evidence config events evidence Hr) as Hc. fold core in Hc. rewrite Hc. simpl. unfold mutation_guard, authorize_mutation.
      destruct config as [[] []]; simpl; naive_solver.
    + destruct (negb _); simpl; split; [done|naive_solver|done|naive_solver].
  - intros [m generation] mutation. rewrite reconciled_last_spec. fold core. simpl.
    unfold consume_new_exposure_authorization. destruct (cr_reconciliation core) as [evidence|] eqn:Hr.
    + pose proof (ready_with_evidence config events evidence Hr) as Hc. fold core in Hc. rewrite Hc. simpl. case_bool_decide; naive_solver.
    + destruct (Readiness.can_open_new_exposure _); naive_solver.
Qed.
