(* ===== verification/Composition.v ===== *)
(** * The server: [crates/vox-core/src/composition.rs] and [server.rs]

    The configuration read from the environment variables, the start-up that provisions the
    operator, recovers the connections and wires the adapters together, and the running
    process: the ports of the HTTP interface are the registry of runtimes, the account
    reads, the connection administration and the sessions of the other files, over one
    connection repository that all of them share.

    What opening files, the clock and random bytes do is an argument.  The theorem follows a
    command from its HTTP request to the broker in every state the process can reach. *)
From Stdlib Require Import Ascii.
From stdpp Require Import strings.
From S2P Require Import Prelude Money Domain RiskModel RiskStore RuntimeModel RuntimePolicy RuntimePorts RuntimeJournal.
From S2P Require Import RuntimeReconcile RuntimeCoordinator ConnectionModel SecretStore ConnectionRepository ConnectionService.
From S2P Require Import ConnectionSafety ProductionRisk ApiMoney ApiContract ApiReads OperatorAuth MarketProjection.
From S2P Require Import ProductionRuntime ConnectionAdmin HttpApi Core.
Import ApiReq.

(** ** Failures of a start *)

Inductive StartCause :=
| CauseConfig (e : ConfigError)
| CauseAddress
| CauseKeys (e : KeyProviderError)
| CauseModel (e : Meta.ModelError)
| CauseSecret (e : SecretStoreError)
| CauseNumber
| CauseIo (path : string)
| CauseRepository (e : RepositoryError)
| CauseAuth (e : AuthError)
| CauseService (e : ServiceError)
| CauseClock
| CauseScope (e : RuntimeModel.ModelError).

(** [anyhow!(message)], an error passed on by [?] and one under [context]; [env::vars]
    panics on a variable that is not Unicode. *)
Inductive StartFailure :=
| Refused (message : string)
| Passed (cause : StartCause)
| Context (what : string) (cause : StartCause)
| Panicked.

Definition context {A E} (what : string) (cause : E → StartCause) (r : result E A) : result StartFailure A :=
  map_err (λ e, Context what (cause e)) r.

(** ** Reading the environment *)

(** The variables, in the order [env::vars] gives them; a value that is not Unicode has no
    text. *)
Class Variables := variables : list (string * option string).

#[export] Instance process_env `{VA : !Variables} : ProcessEnv := λ name,
  match snd <$> List.find (by_key fst name) variables with
  | Some (Some value) => Var value
  | Some None => NotUnicode
  | None => NotPresent
  end.

(** [str::parse::<u32>]. *)
Definition parse_u32 (s : string) : option Z :=
  match s with
  | String "-"%char _ => None
  | _ => z ← parse_int U64 s; if z <=? 4294967295 then Some z else None
  end.

(** [BTreeMap::insert]. *)
Definition put_key (version : Z) (key : string) (keys : list (Z * string)) : list (Z * string) :=
  List.filter (λ kv, negb (by_key fst version kv)) keys ++ [(version, key)].

Fixpoint hex_keys (prefix : string) (vars : list (string * string)) (keys : list (Z * string))
  : result KeyProviderError (list (Z * string)) :=
  match vars with
  | [] => Ok keys
  | (variable, value) :: vars =>
      match strip_prefix prefix variable with
      | None => hex_keys prefix vars keys
      | Some version_text =>
          match parse_u32 version_text with
          | None => hex_keys prefix vars keys
          | Some version => let? key := parse_hex_key value in hex_keys prefix vars (put_key version key keys)
          end
      end
  end.

(** The texts of all variables, unless one has none. *)
Fixpoint unicode_vars (vars : list (string * option string)) : option (list (string * string)) :=
  match vars with
  | [] => Some []
  | (name, Some value) :: vars => rest ← unicode_vars vars; Some ((name, value) :: rest)
  | (_, None) :: _ => None
  end.

(** [StaticKeyProvider::from_hex_environment]; [None] is the panic of [env::vars]. *)
Definition from_hex_environment `{VA : !Variables} (current_version_variable key_variable_prefix : string)
  : option (result KeyProviderError Keyring) :=
  match env_var current_version_variable with
  | NotPresent | NotUnicode => Some (Err Keys.MissingExternalKey)
  | Var version_text =>
      match parse_u32 version_text with
      | None => Some (Err Keys.InvalidExternalKey)
      | Some current_version =>
          vars ← unicode_vars variables;
          Some (let? keys := hex_keys key_variable_prefix vars [] in StaticKeyProvider_new current_version keys)
      end
  end.

Section environment.
Context `{VA : !Variables}.

Definition required_env (name : string) : result StartFailure string :=
  match env_var name with
  | Var value => Ok value
  | _ => Err (Refused (name +:+ " is required and must be valid Unicode"))
  end.

Definition env_path (name default : string) : result StartFailure string :=
  let? value := match env_var name with
                | Var value => Ok value
                | NotPresent => Ok default
                | NotUnicode => Err (Refused (name +:+ " must be valid Unicode"))
                end in
  if is_blank value then Err (Refused (name +:+ " cannot be empty")) else Ok value.

Definition optional_env_path (name : string) : result StartFailure (option string) :=
  match env_var name with
  | Var value => Ok (if is_blank value then None else Some value)
  | NotPresent => Ok None
  | NotUnicode => Err (Refused (name +:+ " must be valid Unicode"))
  end.

Definition optional_bool (name : string) (default : bool) : result StartFailure bool :=
  match env_var name with
  | Var value => ok_or (switch value) (Refused (name +:+ " must be true, false, 1, or 0"))
  | NotPresent => Ok default
  | NotUnicode => Err (Refused (name +:+ " must be valid Unicode"))
  end.
End environment.

(** [SocketAddr] of the standard library: its parser, and whether the address is one of the
    loopback. *)
Class SocketAddresses := { parse_address : string → option string; is_loopback : string → bool }.

Record ServerConfig := {
  cfg_core : CoreConfig;
  cfg_bind : string;
  cfg_platform_database_path : string;
  cfg_secret_database_path : string;
  cfg_runtime_database_directory : string;
  cfg_frontend_directory : option string;
  cfg_key_provider : Keyring;
  cfg_bootstrap : SessionBootstrap;
  cfg_tinvest_enabled : bool;
}.

Definition ServerConfig_from_env `{VA : !Variables} `{SA : !SocketAddresses} `{UF : !UuidFormat}
  : result StartFailure ServerConfig :=
  let? core := context "load core environment" CauseConfig CoreConfig_from_env in
  let? bind := context "parse VOX_API_BIND" (λ _ : (), CauseAddress)
    (ok_or (parse_address match env_var "VOX_API_BIND" with Var value => value | _ => "127.0.0.1:8080"%string end) tt) in
  let? platform_database_path := env_path "VOX_PLATFORM_DB" "data/vox-platform.sqlite3" in
  let? secret_database_path := env_path "VOX_SECRET_DB" "data/vox-secrets.sqlite3" in
  let? runtime_database_directory := env_path "VOX_RUNTIME_DB_DIR" "data/runtime" in
  let? keys := ok_or (from_hex_environment "VOX_KEK_ACTIVE_VERSION" "VOX_KEK_HEX_V") Panicked in
  let? key_provider := context "load external KEK keyring" CauseKeys keys in
  let? user := required_env "VOX_BOOTSTRAP_USER_ID" in
  let? user_id := context "parse VOX_BOOTSTRAP_USER_ID" CauseModel (UserId_parse user) in
  let? credential := required_env "VOX_BOOTSTRAP_CREDENTIAL" in
  let? bootstrap_credential := context "load bootstrap credential" CauseSecret (SecretBytes_new credential) in
  let? expires := required_env "VOX_BOOTSTRAP_EXPIRES_UNIX_MS" in
  let? expires_at_unix_ms := context "parse VOX_BOOTSTRAP_EXPIRES_UNIX_MS" (λ _ : (), CauseNumber)
    (ok_or (parse_int I64 expires) tt) in
  let? tinvest_enabled := optional_bool "VOX_TINVEST_ENABLED" true in
  let? frontend_directory := optional_env_path "VOX_FRONTEND_DIR" in
  let? cookie_secure := optional_bool "VOX_SESSION_COOKIE_SECURE" true in
  if negb cookie_secure && negb (is_loopback bind)
  then Err (Refused "VOX_SESSION_COOKIE_SECURE=false is allowed only on a loopback API bind")
  else Ok {| cfg_core := core; cfg_bind := bind; cfg_platform_database_path := platform_database_path;
             cfg_secret_database_path := secret_database_path;
             cfg_runtime_database_directory := runtime_database_directory;
             cfg_frontend_directory := frontend_directory; cfg_key_provider := key_provider;
             cfg_bootstrap := {| sb_user_id := user_id; sb_display_name := "Vox bootstrap operator";
                                sb_permissions := bootstrap_permissions;
                                sb_bootstrap_credential := bootstrap_credential;
                                sb_expires_at_unix_ms := expires_at_unix_ms; sb_cookie_secure := cookie_secure |};
             cfg_tinvest_enabled := tinvest_enabled |}.

(** ** The running process *)

Section process.
Context {S P U B D X T C F E E' : Type}.
Context `{SS : !ConnectionService.SecretStore S} `{BP : !BrokerProviderPort P} `{UU : !Uuids U}.
Context `{BR : !BrokerReadPort B} `{RS : !RuntimeStore D} `{XP : !ExecutionPort X} `{TP : !ExecutionStreamPort T}
  `{CP : !CredentialResolverPort C} `{AM : !Ambient E} `{SM : !Serde MutationEvidence}.
Context `{CF : !ClientFactory F} `{AM' : !Ambient E'} `{UF : !UuidFormat} `{ET : !ErrorText}
  `{SD : !Serde RiskDecision} `{SP : !Serde RiskPolicySet} `{CI : !Cipher} `{CO : !Correlation} `{XX : !Extraction}.
Notation Registry := (@Registry B D X T C F E E').
Notation Opening := (@Opening B D X T C F E E').
Notation Connections := (Service Repository S P U).

(** What the process keeps: the connection service with the repository, the sessions, the
    runtimes and the port of the account reads. *)
Record Plant := {
  pn_connections : Connections;
  pn_sessions : list SessionRow;
  pn_registry : Registry;
  pn_reads : B;
}.

Definition put_registry (g : Registry) (w : Plant) : Plant := {|
  pn_connections := pn_connections w; pn_sessions := pn_sessions w; pn_registry := g; pn_reads := pn_reads w |}.
Definition put_reads (b : B) (w : Plant) : Plant := {|
  pn_connections := pn_connections w; pn_sessions := pn_sessions w; pn_registry := pn_registry w; pn_reads := b |}.

Definition plant_repository (w : Plant) : Repository := sv_repository (pn_connections w).
Definition plant_platform (w : Plant) : Platform := {|
  pl_repository := plant_repository w; pl_sessions := pn_sessions w |}.
Definition put_platform (p : Platform) (w : Plant) : Plant := {|
  pn_connections := put_repository (pl_repository p) (pn_connections w); pn_sessions := pl_sessions p;
  pn_registry := pn_registry w; pn_reads := pn_reads w |}.

Record Application := {
  an_auth : AuthState;
  an_state : AppState;
  an_lifecycle_recovery : LifecycleRecoveryReport;
}.

(** What the clock, the databases, random bytes and opening a runtime do during a request. *)
Record Surroundings := {
  sd_unix_timestamp_nanos : Z;
  sd_clock : option Z;
  sd_session_fault : option AuthError;
  sd_user_fault : option RepositoryError;
  sd_permission_fault : option RepositoryError;
  sd_session_bytes : option string;
  sd_csrf_bytes : option string;
  sd_uuid : string;
  sd_opening : Opening;
}.

Definition unless {A G} (fault : option G) (a : A) : result G A :=
  match fault with Some e => Err e | None => Ok a end.

(** The databases the middleware reads are those of the process. *)
Definition moment_of (sd : Surroundings) (w : Plant) : Moment := {|
  mt_clock := sd_clock sd; mt_sessions := unless (sd_session_fault sd) (pn_sessions w);
  mt_user_read := unless (sd_user_fault sd) (plant_repository w);
  mt_permission_read := unless (sd_permission_fault sd) (plant_repository w) |}.

Definition on_registry {A} (m : AccountBindingResolver → st Registry ApiError A) : st Plant ApiError A := λ w,
  let '(g, r) := m (stored_resolve (plant_repository w)) (pn_registry w) in (put_registry g w, r).

Definition on_reads {A} (m : AccountBindingResolver → st B ApiError A) : st Plant ApiError A := λ w,
  let '(b, r) := m (stored_resolve (plant_repository w)) (pn_reads w) in (put_reads b w, r).

Definition administered (context : ConnectionRequestContext) (call : AdminCall) : st Plant ApiError AdminAnswer := λ w,
  let '((s, g), r) := run_admin (Some connection_changed) context call (pn_connections w, pn_registry w) in
  ({| pn_connections := s; pn_sessions := pn_sessions w; pn_registry := g; pn_reads := pn_reads w |}, r).

(** The ports the composition attaches.  The account reads have no store of checkpoints; no
    market data is attached. *)
Definition production_ports (app : Application) (sd : Surroundings) : Ports Plant := {|
  pt_establish_session request := λ w,
    let '(p, r) := establish_session (an_auth app) (moment_of sd w) (sd_session_bytes sd) (sd_csrf_bytes sd) request
                     (plant_platform w) in
    (put_platform p w, r);
  pt_health := on_registry (λ _ g, let '(g, h) := api_health g in (g, Ok h));
  pt_scoped_health scope := on_registry (λ _, scoped_health (sd_opening sd) scope);
  pt_scopes := λ w, (w, scopes (reg_environment (pn_registry w)) (plant_repository w));
  pt_capabilities account_id := λ w,
    on_registry (λ _, let! set := capabilities (plant_repository w) account_id in st_ret (Some set)) w;
  pt_accounts scope := on_reads (λ _, api_accounts PLACEHOLDER_CREDENTIAL scope);
  pt_portfolio scope := on_reads (λ _, api_portfolio PLACEHOLDER_CREDENTIAL scope);
  pt_positions scope := on_reads (λ _, api_positions PLACEHOLDER_CREDENTIAL scope);
  pt_orders scope := on_reads (λ _, api_orders PLACEHOLDER_CREDENTIAL scope);
  pt_stop_orders scope := on_reads (λ _, api_stop_orders PLACEHOLDER_CREDENTIAL scope);
  pt_operations scope cursor limit := on_reads (λ _, api_operations PLACEHOLDER_CREDENTIAL scope cursor limit);
  pt_reconciliation scope := on_reads (λ _, st_lift (api_reconciliation PLACEHOLDER_CREDENTIAL None scope));
  pt_mutations scope := on_reads (λ _, st_lift (api_mutations PLACEHOLDER_CREDENTIAL scope));
  pt_execute command := on_registry (λ _, run_api (sd_opening sd) (sd_uuid sd) command);
  pt_risk_status scope := on_registry (λ _, risk_status (sd_opening sd) (sd_unix_timestamp_nanos sd) scope);
  pt_active_reservations scope := on_registry (λ _, api_active_reservations (sd_opening sd) scope);
  pt_change_state request := on_registry (λ _, change_state (sd_opening sd) (sd_unix_timestamp_nanos sd) request);
  pt_administer := administered;
  pt_market _ := projection_queries (http_now_unix_ms (sd_unix_timestamp_nanos sd)) projection_new |}.

Definition composed_state (environment : ApiEnvironment) : AppState :=
  with_risk_commands (with_risk_queries (AppState_production TInvestDto environment)).

(** One request of the running process. *)
Definition handle (app : Application) (openapi : string) (sd : Surroundings) (request : HttpRequest) (w : Plant)
  : Plant * Reply :=
  respond (PT := production_ports app sd) (an_state app) openapi (http_now_unix_ms (sd_unix_timestamp_nanos sd))
    (an_auth app) (moment_of sd w) request w.

Definition process_shutdown (w : Plant) : Plant := put_registry (registry_shutdown (pn_registry w)) w.

(** ** Start-up *)

(** What is on disk, and the provider and identities the process starts with. *)
Record Stores := {
  so_platform : Platform;
  so_secrets : S;
  so_provider : P;
  so_uuids : U;
  so_journals : list (string * D);
  so_risk : RiskDb;
}.

Definition so_connections (s : Stores) : Connections := {|
  sv_repository := pl_repository (so_platform s); sv_secrets := so_secrets s; sv_provider := so_provider s;
  sv_uuids := so_uuids s |}.
Definition put_stored_platform (p : Platform) (s : Stores) : Stores := {|
  so_platform := p; so_secrets := so_secrets s; so_provider := so_provider s; so_uuids := so_uuids s;
  so_journals := so_journals s; so_risk := so_risk s |}.
Definition put_stored_connections (c : Connections) (s : Stores) : Stores := {|
  so_platform := {| pl_repository := sv_repository c; pl_sessions := pl_sessions (so_platform s) |};
  so_secrets := sv_secrets c; so_provider := sv_provider c; so_uuids := sv_uuids c; so_journals := so_journals s;
  so_risk := so_risk s |}.

(** How the directories and files open, the clock and a fresh uuid. *)
Record Boot := {
  bo_platform_directory : bool;
  bo_secret_directory : bool;
  bo_runtime_directory : bool;
  bo_repository : result RepositoryError ();
  bo_secret_store : result SecretStoreError ();
  bo_unix_timestamp_nanos : Z;
  bo_uuid : string;
  bo_session_table : result AuthError ();
  bo_reads : B;
}.

(** [prepare_parent] and [create_dir_all]: [created] is what the file system says. *)
Definition prepare_directory (what path : string) (created : bool) : result StartFailure () :=
  if created then Ok tt else Err (Context what (CauseIo path)).

Definition start_now (unix_timestamp_nanos : Z) : result StartFailure Z :=
  context "system time outside supported millisecond range" (λ _ : (), CauseClock)
    (ok_or (checked I64 (Z.quot unix_timestamp_nanos 1000000)) tt).

Definition required_environment (environment : Environment) : result StartFailure ApiEnvironment :=
  ok_or (broker_environment environment) (Refused "PAPER is a trading mode, not a T-Invest broker environment").

Definition manual_permission (environment : ApiEnvironment) : Permission :=
  match environment with
  | ApiEnv.Sandbox => Perm.SubmitSandboxOrders
  | ApiEnv.Production => Perm.SubmitProductionManualOrders
  end.

Definition opened_authentication (boot : Boot) (bootstrap : SessionBootstrap) (now : Z) (environment : ApiEnvironment)
  : st Stores StartFailure AuthState := λ s,
  let '(p, r) := auth_open (bo_uuid boot) (bo_session_table boot) bootstrap now (manual_permission environment)
                   (so_platform s) in
  (put_stored_platform p s, context "initialize server-side authentication" CauseAuth r).

Definition recovered_lifecycle (security : SecurityContext) : st Stores StartFailure LifecycleRecoveryReport := λ s,
  let '(c, r) := recover_connection_lifecycle security (so_connections s) in
  (put_stored_connections c s, context "recover connection lifecycle" CauseService r).

(** The journals of earlier runs are still on disk. *)
Definition registry_on (directory : string) (environment : ApiEnvironment) (s : Stores) : Registry :=
  let g : Registry := registry_new directory environment (so_risk s) in {|
  reg_environment := reg_environment g; reg_directory := reg_directory g; reg_entries := reg_entries g;
  reg_journals := so_journals s; reg_risk := reg_risk g |}.

(** [ApplicationComposition::build]. *)
Definition build (boot : Boot) (config : ServerConfig) : st Stores StartFailure (Application * Plant) :=
  if negb (cfg_tinvest_enabled config)
  then st_fail (Refused "VOX_TINVEST_ENABLED=false leaves no configured broker provider")
  else
    st_lift (prepare_directory "create database parent" (cfg_platform_database_path config) (bo_platform_directory boot)) ;;;
    st_lift (prepare_directory "create database parent" (cfg_secret_database_path config) (bo_secret_directory boot)) ;;;
    st_lift (prepare_directory "create runtime DB directory" (cfg_runtime_database_directory config)
               (bo_runtime_directory boot)) ;;;
    st_lift (context "open platform connection repository" CauseRepository (bo_repository boot)) ;;;
    st_lift (context "open encrypted credential store" CauseSecret (bo_secret_store boot)) ;;;
    let! now := st_lift (start_now (bo_unix_timestamp_nanos boot)) in
    let recovery_actor := sb_user_id (cfg_bootstrap config) in
    let! environment := st_lift (required_environment (cc_environment (cfg_core config))) in
    let! auth := opened_authentication boot (cfg_bootstrap config) now environment in
    let! recovery_security := st_lift (map_err (λ e, Passed (CauseModel e))
      (SecurityContext_new recovery_actor "startup-lifecycle-recovery" now)) in
    let! lifecycle_recovery := recovered_lifecycle recovery_security in
    st_lift (map_err (λ e, Passed (CauseScope e)) (OpaqueRef_new PLACEHOLDER_CREDENTIAL)) ;;;
    let! s := st_get in
    st_ret ({| an_auth := auth; an_state := composed_state environment; an_lifecycle_recovery := lifecycle_recovery |},
            {| pn_connections := so_connections s; pn_sessions := pl_sessions (so_platform s);
               pn_registry := registry_on (cfg_runtime_database_directory config) environment s;
               pn_reads := bo_reads boot |}).

(** Every state the process can reach: it starts, serves requests, one after the other. *)
Inductive running (app : Application) : Plant → Prop :=
| run_built boot config s s' w : build boot config s = (s', Ok (app, w)) → running app w
| run_request openapi sd request w : running app w → running app (fst (handle app openapi sd request w)).

(** ** The registry stays keyed *)

(** The environment of the registry stays and every runtime is under the key of its scope. *)
Definition same_registry (g g' : Registry) : Prop :=
  reg_environment g' = reg_environment g ∧ (registry_ok g → registry_ok g').

#[local] Instance same_registry_preorder : PreOrder same_registry.
Proof.
  split; [done|]. intros g1 g2 g3 [He1 Ho1] [He2 Ho2]. split; [by rewrite He2|auto].
Qed.

Definition keeps {A} (m : st Registry ApiError A) : Prop :=
  ∀ g, registry_ok g → same_registry g (fst (m g)).

Lemma keeps_then {A A'} (m : st Registry ApiError A) (k : A → st Registry ApiError A') :
  keeps m → (∀ a, keeps (k a)) → keeps (st_bind m k).
Proof.
  intros Hm Hk g Hg. unfold st_bind. pose proof (Hm g Hg) as H1. destruct (m g) as [g1 [a|e]]; [|done].
  etrans; [done|]. apply Hk. by apply H1.
Qed.

Lemma keeps_with_entry {A} key e (body : st (@World B D X T C (Adapter F E') E) ApiError A) :
  key = scope_key (en_scope e) → keeps (with_entry (key, e) body).
Proof.
  intros Hk g Hg. unfold with_entry. destruct (body _) as [w x]. split; [done|]. intros _. by apply registry_ok_put.
Qed.

Lemma keeps_health_of_entry key e (g : Registry) :
  key = scope_key (en_scope e) → same_registry g (fst (health_of_entry (key, e) g)).
Proof.
  intros Hk. unfold health_of_entry. destruct (entry_health _) as [w h]. split; [done|]. intros Hg. simpl.
  intros k x [[= -> ->]|Hin]%elem_of_map_put; [done|by apply Hg].
Qed.

Lemma entry_environment `{AR : !AccountBindingResolver} og scope (g : Registry) :
  reg_environment (fst (entry og scope g)) = reg_environment g.
Proof.
  unfold entry. destruct (let? _ := _ in _) as [rs|]; [|done]. destruct (map_get _ _); [done|].
  destruct (og_journal og); [|done]. destruct (og_risk_store og); [|done]. destruct (start _ _ _ _) as [w r]. by destruct r.
Qed.

Lemma entry_kept `{AR : !AccountBindingResolver} og scope (g : Registry) :
  registry_ok g →
  same_registry g (fst (entry og scope g)) ∧
  ∀ key e, snd (entry og scope g) = Ok (key, e) → key = scope_key (en_scope e).
Proof.
  intros Hg. destruct (entry og scope g) as [g1 r] eqn:H. pose proof (entry_environment og scope g) as He.
  rewrite H in He. pose proof (entry_spec _ _ _ _ _ Hg H) as Hs. simpl in *. destruct r as [[key e]|error].
  - destruct Hs as (binding & rs & Hent). split; [split; [done|]; intros _; apply (et_ok _ _ _ _ _ _ _ _ Hent)|].
    intros key' e' [= -> ->]. apply (et_entry _ _ _ _ _ _ _ _ Hent).
  - split; [|done]. split; [done|]. intros _ k x. rewrite Hs. apply Hg.
Qed.

(** A request that opens its runtime and works with it. *)
Lemma keeps_entered {A} `{AR : !AccountBindingResolver} og scope (k : string * RuntimeEntry → st Registry ApiError A) :
  (∀ key e, key = scope_key (en_scope e) → keeps (k (key, e))) → keeps (st_bind (entry og scope) k).
Proof.
  intros Hk g Hg. destruct (entry_kept og scope g Hg) as [Hs He]. unfold st_bind.
  destruct (entry og scope g) as [g1 [[key e]|error]]; [|done]. etrans; [done|]. apply Hk; [by apply He|by apply Hs].
Qed.

Lemma keeps_run_api `{AR : !AccountBindingResolver} og uuid c : keeps (run_api og uuid c).
Proof.
  intros g Hg. destruct (run_api_execute og uuid c g) as [[error ->] | ->]; [done|].
  apply keeps_entered; [|done]. intros key e Hk. by apply keeps_with_entry.
Qed.

Lemma keeps_api_health : keeps (λ g, let '(g, h) := api_health g in (g, Ok h)).
Proof.
  intros g Hg. unfold api_health. destruct (reg_entries g) as [|[key e] l] eqn:He; [done|].
  assert (same_registry g (fst (health_of_entry (key, e) g))) as Hk.
  { apply keeps_health_of_entry, Hg. rewrite He. by left. }
  by destruct (health_of_entry _ g).
Qed.

Lemma keeps_scoped_health `{AR : !AccountBindingResolver} og scope : keeps (scoped_health og scope).
Proof.
  apply keeps_entered. intros key e Hk g Hg. pose proof (keeps_health_of_entry key e g Hk) as H.
  by destruct (health_of_entry _ g).
Qed.

Lemma keeps_capabilities `{AR : !AccountBindingResolver} repository account_id : keeps (capabilities repository account_id).
Proof.
  intros g Hg. unfold capabilities. destruct (scopes _ _) as [found|]; [|done].
  destruct (match account_id with Some _ => _ | None => _ end) as [scope|]; [|done].
  destruct (let? _ := map_err binding_error _ in _) as [authorization|]; [|done].
  destruct (List.find _ (reg_entries g)) as [[key e]|] eqn:Hf; [|done].
  apply find_in in Hf as [Hin _]. pose proof (keeps_health_of_entry key e g (Hg _ _ Hin)) as H.
  by destruct (health_of_entry _ g).
Qed.

Lemma keeps_change_state `{AR : !AccountBindingResolver} og clock request : keeps (change_state og clock request).
Proof.
  unfold change_state. destruct (is_blank _); [done|].
  apply keeps_entered. intros key e Hk. by apply keeps_with_entry.
Qed.

Lemma close_environment stale (g : Registry) :
  reg_environment (fold_left (λ g kv, close_entry kv g) stale g) = reg_environment g.
Proof.
  revert g. induction stale as [|kv stale IH]; intros g; simpl; [done|]. rewrite IH. unfold close_entry.
  by destruct (shutdown _ _).
Qed.

Lemma keeps_administered context call w : same_registry (pn_registry w) (pn_registry (fst (administered context call w))).
Proof.
  unfold administered. destruct (run_admin _ _ _ _) as [[s g] r] eqn:H. simpl.
  apply run_admin_observed in H. simpl in H. subst g. destruct r; [|done]. destruct (ends_runtimes call) as [id|]; [|done].
  split; [unfold connection_changed, invalidate_connection; by rewrite close_environment|].
  intros Hg k x. rewrite invalidate_entries. intros [Hin _]%elem_of_filter_bool. by apply Hg.
Qed.

Lemma keeps_on_registry {A} (m : AccountBindingResolver → st Registry ApiError A) w :
  (∀ AR, keeps (m AR)) → registry_ok (pn_registry w) →
  same_registry (pn_registry w) (pn_registry (fst (on_registry m w))).
Proof.
  intros Hm Hg. unfold on_registry. pose proof (Hm (stored_resolve (plant_repository w)) _ Hg) as H.
  by destruct (m _ _).
Qed.

Lemma keeps_on_reads {A} (m : AccountBindingResolver → st B ApiError A) w :
  pn_registry (fst (on_reads m w)) = pn_registry w.
Proof. unfold on_reads. by destruct (m _ _). Qed.

Lemma keeps_reads app sd w w' :
  reads (PT := production_ports app sd) w w' → registry_ok (pn_registry w) →
  same_registry (pn_registry w) (pn_registry w').
Proof.
  intros Hr Hg. destruct Hr; simpl; try (by rewrite keeps_on_reads); try done; apply keeps_on_registry; try done; intros AR.
  - apply keeps_api_health.
  - apply keeps_scoped_health.
  - apply keeps_entered. intros key e Hk. by apply keeps_with_entry.
  - apply keeps_entered. intros key e Hk. by apply keeps_with_entry.
Qed.

Lemma keeps_handle app openapi sd request w :
  registry_ok (pn_registry w) → same_registry (pn_registry w) (pn_registry (fst (handle app openapi sd request w))).
Proof.
  intros Hg. unfold handle. destruct (respond _ _ _ _ _ _ w) as [w' reply] eqn:Hresp. simpl.
  destruct (public_request (rq_head request)) eqn:Hpub.
  - apply respond_public in Hresp as [[-> _]|(credentials & _ & _ & _ & ->)]; [done| |done].
    simpl. by destruct (establish_session _ _ _ _ _ _).
  - apply respond_within in Hresp as [[-> _]|(session & _ & H)]; [done| |done].
    destruct H; simpl; try (by apply keeps_administered); try (by eapply keeps_reads); try done;
      apply keeps_on_registry; try done; intros AR.
    + apply keeps_run_api.
    + apply keeps_change_state.
    + apply keeps_then; [apply keeps_capabilities|done].
Qed.

Lemma auth_open_permission uuid table bootstrap now manual p p' auth :
  auth_open uuid table bootstrap now manual p = (p', Ok auth) → au_manual_execution_permission auth = manual.
Proof.
  unfold auth_open. destruct (_ <=? _); [done|]. intros H.
  repeat (apply st_bind_Ok in H as (? & ? & _ & H)). by injection H as _ <-.
Qed.

Lemma build_spec boot config s s' app w :
  build boot config s = (s', Ok (app, w)) →
  reg_entries (pn_registry w) = [] ∧
  au_manual_execution_permission (an_auth app) = manual_permission (reg_environment (pn_registry w)).
Proof.
  unfold build. destruct (negb _); [done|]. intros H.
  do 6 (apply st_bind_Ok in H as (? & ? & _ & H)).
  apply st_bind_Ok in H as (s1 & environment & _ & H). apply st_bind_Ok in H as (s2 & auth & Ha & H).
  repeat (apply st_bind_Ok in H as (? & ? & _ & H)). injection H as _ <- <-. simpl. split; [done|].
  unfold opened_authentication in Ha. destruct (auth_open _ _ _ _ _ _) as [p [a|e]] eqn:Ho; [|done].
  injection Ha as _ ->. by eapply auth_open_permission.
Qed.

Lemma running_ok app w :
  running app w →
  registry_ok (pn_registry w) ∧
  au_manual_execution_permission (an_auth app) = manual_permission (reg_environment (pn_registry w)).
Proof.
  induction 1 as [boot config s s' w [He Hm]%build_spec|openapi sd request w _ [Hg Hm]].
  - split; [|done]. intros k x. rewrite He. by intros ?%elem_of_nil.
  - destruct (keeps_handle app openapi sd request w Hg) as [He Ho]. split; [by apply Ho|by rewrite He].
Qed.

(** ** From the request to the broker *)

(** What a command did to the process: it was turned away without touching a runtime, or it
    was served by the runtime of the broker account that the stored binding of its scope
    gives, built for that account; no other runtime changed. *)
Definition carried_out (sd : Surroundings) (command : ApiCommand) (w w' : Plant) (reply : Reply) : Prop :=
  let _ : AccountBindingResolver := stored_resolve (plant_repository w) in
  pn_connections w' = pn_connections w ∧ pn_sessions w' = pn_sessions w ∧ pn_reads w' = pn_reads w ∧
  ((∃ error, reply = error_reply error ∧ reg_entries (pn_registry w') = reg_entries (pn_registry w)) ∨
   ∃ g key e binding rs v r,
     entered (sd_opening sd) (api_scope command) (pn_registry w) g key e binding rs ∧
     (∀ c, api_build command (sc_broker_account_id (en_scope e)) = Ok c →
        command_account_id c = abn_broker_account_id binding) ∧
     served (sd_uuid sd) command e (lent g e) v r ∧
     map_get key (reg_entries (pn_registry w')) = Some (with_world v e) ∧
     (∀ k, k ≠ key → map_get k (reg_entries (pn_registry w')) = map_get k (reg_entries (pn_registry w))) ∧
     reply = reply_of mutation_reply r).

Lemma executed_carried_out app sd command w :
  registry_ok (pn_registry w) →
  let ports := production_ports app sd in
  carried_out sd command w (fst (pt_execute (Ports := ports) command w))
    (reply_of mutation_reply (snd (pt_execute (Ports := ports) command w))).
Proof.
  intros Hg. simpl. unfold carried_out, on_registry. set (AR := stored_resolve (plant_repository w) : AccountBindingResolver).
  destruct (run_api (sd_opening sd) (sd_uuid sd) command (pn_registry w)) as [g' r] eqn:H. simpl. split_and!; [done..|].
  destruct (run_api_execute (sd_opening sd) (sd_uuid sd) command (pn_registry w)) as [[error He] | He]; rewrite He in H.
  { injection H as <- <-. left. by exists error. }
  apply execute_spec in H as [_ [(error & -> & H)|(g & key & e & binding & rs & v & Hent & Hc & Hk & Ho)]];
    [left; by exists error| |done].
  right. exists g, key, e, binding, rs, v, r. split_and!; try done; [|by apply command_receipt_served].
  intros c [Ha _]%api_build_account. by rewrite Ha, (et_account _ _ _ _ _ _ _ _ Hent).
Qed.

(** C7. A command goes from its HTTP request to the broker account its scope stands for,
    and nowhere else.  In every state the process can reach after a start, a request to a
    command endpoint either changes nothing and discloses nothing, or the process has found
    a live session of an enabled user for it who holds the manual execution permission of
    the environment the process trades in, the command passed the checks of its endpoint,
    and it was carried out: refused before a runtime was touched, or served by the runtime
    of the account that the binding stored for its scope gives, with the receipt of that
    dispatch as the reply and every other runtime, connection and session as before. *)
Theorem operator_commands_reach_their_account app openapi sd request kind w w' reply :
  running app w →
  router (hr_method (rq_head request)) (hr_path (rq_head request)) = Routes (Command kind) →
  handle app openapi sd request w = (w', reply) →
  w' = w ∧ quiet reply ∨
  ∃ session command,
    authenticate (moment_of sd w) (rq_head request) = Ok session ∧
    manual_permission (reg_environment (pn_registry w)) ∈ vs_permissions session ∧
    extract_command request kind = Ok command ∧ validate_command command = Ok tt ∧
    carried_out sd command w w' reply.
Proof.
  intros [Hg Hm]%running_ok Hr Hresp. unfold handle in Hresp.
  eapply respond_command in Hresp as [H|(session & command & Ha & Hp & Hx & Hv & -> & ->)]; [by left| |exact Hr].
  right. exists session, command. rewrite <- Hm. split_and!; try done. by apply (executed_carried_out app).
Qed.
End process.

(** The switch for live mutations, [VOX_LIVE_MUTATIONS_ENABLED], reaches no part of the
    server: the same process is built whether it is set or not. *)
Section switch.
Context {S P U B D X T C F E E' : Type}.
Context `{SS : !ConnectionService.SecretStore S} `{BP : !BrokerProviderPort P} `{UU : !Uuids U}.
Context `{UF : !UuidFormat} `{CI : !Cipher}.

Definition with_live_mutations (enabled : bool) (config : ServerConfig) : ServerConfig := {|
  cfg_core := {| cc_environment := cc_environment (cfg_core config); cc_live_mutations_enabled := enabled |};
  cfg_bind := cfg_bind config; cfg_platform_database_path := cfg_platform_database_path config;
  cfg_secret_database_path := cfg_secret_database_path config;
  cfg_runtime_database_directory := cfg_runtime_database_directory config;
  cfg_frontend_directory := cfg_frontend_directory config; cfg_key_provider := cfg_key_provider config;
  cfg_bootstrap := cfg_bootstrap config; cfg_tinvest_enabled := cfg_tinvest_enabled config |}.

Lemma live_mutations_switch_unused (boot : @Boot B) config enabled (s : @Stores S P U D) :
  build (X := X) (T := T) (C := C) (F := F) (E := E) (E' := E') boot (with_live_mutations enabled config) s = build boot config s.
Proof. reflexivity. Qed.
End switch.

(** ** A server that takes an order *)

Module ServerSample.
Import SecretSample ProductionSample ConnectionSample.

#[export] Instance server_correlation : Correlation := "correlation-9"%string.

Definition credential : string := "0123456789abcdef0123456789abcdef".
Definition sandbox_scope : ExecutionScope := {|
  xs_provider := TInvestDto; xs_environment := ApiEnv.Sandbox; xs_broker_connection_id := "connection:1";
  xs_account_id := "account-1"; xs_trading_mode := LiveMode |}.
Definition buy_three : SubmitOrderRequest := {|
  sor_scope := sandbox_scope; sor_instrument_id := "instrument-1";
  sor_client_request_id := "request-1"; sor_side := Dto.Buy; sor_order_type := Dto.Limit; sor_quantity_lots := 3;
  sor_price := Some {| decimal_text := "0.00000001" |}; sor_price_convention := Dto.SettlementCurrency;
  sor_time_in_force := Dto.Day; sor_confirm_margin_trade := false; sor_protection := None |}.

(** A decoder that reads every body as the login or the order it expects. *)
Definition refuse {A} : Extract A := λ _, Err (400, "bad request"%string).
#[export] Instance sample_extraction : Extraction := {|
  xx_path := Ok; xx_header := λ _, true; xx_session := λ _, Ok {| csr_bootstrap_credential := credential |};
  xx_capability := refuse; xx_scope := refuse; xx_operations := refuse; xx_connection := refuse;
  xx_credential := refuse; xx_binding := refuse; xx_authorization := refuse; xx_risk_state := refuse;
  xx_submit := λ _, Ok buy_three; xx_cancel := refuse; xx_replace := refuse; xx_stop := refuse;
  xx_protection := refuse; xx_instrument := refuse; xx_search := refuse; xx_book := refuse; xx_trades := refuse;
  xx_candles := refuse; xx_upgrade := refuse |}.

(** A connection whose account is bound. *)
Definition desk_connections : Service Repository (SecretDb Z) (list ProviderAccountFact) Z := Eval vm_compute in
  fst (run_service operator (BindAccount "connection:1" "account-1" "account-1")
    (fst (run_service operator ConnectionSample.opening (put_provider [account_fact "account-1"] fresh_service)))).
Definition desk_stores : @Stores (SecretDb Z) (list ProviderAccountFact) Z RuntimeDb := {|
  so_platform := {| pl_repository := sv_repository desk_connections; pl_sessions := [] |};
  so_secrets := sv_secrets desk_connections; so_provider := sv_provider desk_connections;
  so_uuids := sv_uuids desk_connections; so_journals := []; so_risk := desk_store |}.
Definition desk_config : ServerConfig := {|
  cfg_core := CoreConfig_default; cfg_bind := "127.0.0.1:8080"; cfg_platform_database_path := "platform";
  cfg_secret_database_path := "secrets"; cfg_runtime_database_directory := "/runtimes"; cfg_frontend_directory := None;
  cfg_key_provider := sd_keyring (sv_secrets desk_connections);
  cfg_bootstrap := {| sb_user_id := "user:bootstrap"; sb_display_name := "Vox bootstrap operator";
    sb_permissions := bootstrap_permissions; sb_bootstrap_credential := credential; sb_expires_at_unix_ms := 100000;
    sb_cookie_secure := true |};
  cfg_tinvest_enabled := true |}.
Definition desk_boot : @Boot () := {|
  bo_platform_directory := true; bo_secret_directory := true; bo_runtime_directory := true; bo_repository := Ok tt;
  bo_secret_store := Ok tt; bo_unix_timestamp_nanos := 9000000; bo_uuid := "boot"; bo_session_table := Ok tt;
  bo_reads := tt |}.
Notation DeskPlant := (@Plant (SecretDb Z) (list ProviderAccountFact) Z () RuntimeDb Desk () () () Z Z).
Definition started : @Stores (SecretDb Z) (list ProviderAccountFact) Z RuntimeDb *
    result StartFailure (Application * DeskPlant) := Eval vm_compute in
  build (X := Desk) (T := ()) (C := ()) (F := ()) (E := Z) (E' := Z) desk_boot desk_config desk_stores.
Definition app : Application := Eval vm_compute in
  match snd started with
  | Ok (app, _) => app
  | Err _ => {| an_auth := sample_auth; an_state := composed_state ApiEnv.Sandbox;
                an_lifecycle_recovery := {| lr_onboarding_finalized := 0; lr_onboarding_disabled := 0;
                  lr_deletes_finalized := 0; lr_disables_finalized := 0; lr_orphan_secrets_quarantined := 0 |} |}
  end.
Definition at_start : DeskPlant := Eval vm_compute in
  match snd started with
  | Ok (_, w) => w
  | Err _ => {| pn_connections := desk_connections; pn_sessions := []; pn_reads := tt;
                pn_registry := registry_on "" ApiEnv.Sandbox desk_stores |}
  end.

Definition surroundings : @Surroundings () RuntimeDb Desk () () () Z Z := {|
  sd_unix_timestamp_nanos := 10000000; sd_clock := Some 10; sd_session_fault := None; sd_user_fault := None;
  sd_permission_fault := None; sd_session_bytes := Some "tok"; sd_csrf_bytes := Some "csrf"; sd_uuid := "correlation-1";
  sd_opening := RegistrySample.opening |}.
Definition login : HttpRequest := {|
  rq_head := {| hr_method := Http.POST; hr_path := "/api/v1/auth/session"; hr_cookies := []; hr_csrf := None |};
  rq_query := ""; rq_body := "" |}.
Definition order (csrf : option string) : HttpRequest := {|
  rq_head := {| hr_method := Http.POST; hr_path := "/api/v1/commands/order";
                hr_cookies := [Some ("vox_session=" +:+ to_hex "tok")]; hr_csrf := csrf |};
  rq_query := ""; rq_body := "" |}.

Definition logged_in : DeskPlant * Reply := Eval vm_compute in handle app "" surroundings login at_start.
Definition ordered : DeskPlant * Reply := Eval vm_compute in
  handle app "" surroundings (order (Some (to_hex "csrf"))) (fst logged_in).

(** Login sets the cookie; with it and the CSRF token the order is sent once and answered
    with its receipt; without the token nothing happens. *)
Example order_over_http :
  re_status (snd logged_in) = 200 ∧
  (λ kv, dk_calls (w_execution (en_world kv.2))) <$> reg_entries (pn_registry (fst ordered)) = [1] ∧
  match re_body (snd ordered) with BodyReceipt r => mrd_state r = JournalDto.Acknowledged | _ => False end ∧
  handle app "" surroundings (order None) (fst logged_in)
    = (fst logged_in, error_reply (ApiError_new Cat.Permission "CSRF_VALIDATION_FAILED"
         "state-changing request requires valid CSRF token")).
Proof. vm_compute. done. Qed.

Lemma logged_in_running : running app (fst logged_in).
Proof.
  change (fst logged_in) with (fst (handle app "" surroundings login at_start)). apply run_request.
  apply (run_built app desk_boot desk_config desk_stores (fst started)). vm_compute. reflexivity.
Qed.
End ServerSample.
Import SecretSample ProductionSample ConnectionSample ServerSample.

Lemma operator_commands_reach_their_account_witness :
  ∃ session, authenticate (moment_of surroundings (fst logged_in)) (rq_head (order (Some (to_hex "csrf")))) = Ok session ∧
    manual_permission ApiEnv.Sandbox ∈ vs_permissions session ∧
    carried_out surroundings (ApiSubmitOrder buy_three) (fst logged_in) (fst ordered) (snd ordered).
Proof.
  destruct (operator_commands_reach_their_account app "" surroundings (order (Some (to_hex "csrf"))) KindOrder
    (fst logged_in) (fst ordered) (snd ordered) logged_in_running eq_refl ltac:(vm_compute; reflexivity))
    as [[_ H]|(session & command & Ha & Hp & Hx & _ & Hc)].
  - vm_compute in H. contradiction H.
  - exists session. split; [exact Ha|]. split; [exact Hp|]. injection Hx as <-. exact Hc.
Defined.
